(* ===== verification/_CoqProject ===== *)
-Q . S2P
Prelude.v
Flashmem.v
Base64.v
FatBase.v
FatAccess.v
FatName.v
FatDir.v
FatVolume.v
FatFile.v
FatWrite.v
FatSync.v
FatApi.v
FatStr.v
FatSession.v
FatPath.v
FatLife.v
StringUtil.v
DateTime.v
Escape.v
Streams.v
Transformer.v
Containers.v
Vector.v
Esptool.v
SerialBuffer.v
Uart.v
UartTask.v
WString.v
WStringSpec.v
WStringReplace.v
Si2c.v
Wire.v
Sha1.v
Tcp.v
TcpClient.v
TemplateStream.v
HttpHeaders.v
MultiStream.v
Spiffs.v
