(* ===== verification/Prelude.v ===== *)
(** * Sming: a verification development

    Sming is a framework for ESP8266 firmware.  This library models code of its
    own core: the byte-granular access to the SPI flash, the base64 codec, the
    FAT file system module (FatFs in the configuration of
    [Sming/Services/FATFS/ffconf.h]: tiny buffers, 512-byte sectors, one
    volume, short names only, no relative paths, no clock, string functions
    and wildcard search on), formatted output and dates, the escapes of the
    web helpers, the containers and strings of the Wiring layer, the streams
    and the transformers that encode them for the network, the UART driver
    with its interrupt routine, the software I2C master, TCP connections, the
    parts of HTTP that handle text (headers, templates, multi-part bodies),
    the glue of the SPIFFS file system, and the host program [esptool2] that
    builds the firmware image.

    ** Files

    - [Prelude]: machine integers as [Z] with explicit wrap-around ([u8],
      [u16], [u32]), byte lists with [getb]/[setb]/[slice]/[splice], the state
      monad [M S A] with its total-correctness predicate [wp] and loop rule,
      bit-field arithmetic.
    - [Flashmem]: [Sming/system/flashmem.c].  [flashmem_write] and
      [flashmem_read] split an arbitrary range into a head, whole words and a
      tail; the SDK functions are the class [SpiFlash], what the code relies
      on the class [SpiFlashLaws], with a NOR chip in memory as instance.
    - [Base64]: [Sming/Services/libb64/cencode.c] and [cdecode.c] and the two
      functions on C buffers of [Sming/Services/WebHelpers/base64.cpp]; the
      signedness of plain [char] is a parameter.
    - [FatBase]: the structures of [ff.h] as records, the byte-order macros,
      the memory helpers, and the disk driver as the class [DiskIO] with the
      laws [DiskLaws] (a disk in memory is an instance).
    - [FatAccess] ([ff.c] 649-995): the sector window, FAT entries in the three
      formats, cluster chains.  [lsec] is the logical disk (the window where it
      is dirty, the device elsewhere), [wf] the invariant of a volume,
      [same_view] its preservation, [fat_entry] the FAT as an array, [chain]
      the clusters of a file.
    - [FatName] (1722-1995, 2065-2118): wildcard patterns, 8.3 names, drive
      numbers.
    - [FatDir] (1033-1714, 2003-2057): directory tables, search, registration,
      removal, path following.  [entries] is a directory as a list of 32-byte
      entries.
    - [FatVolume] (2126-2396): boot sectors, mounting, validation of objects.
      [ff] is the state of the module: the file system objects by address, the
      drive table, the mount counter and the device.
    - [FatFile] (2404-2841, 2984-3134, 3426-3474): open, read, write, sync,
      close, seek, truncate; theory of reading and seeking.
    - [FatWrite]: theory of writing, with cluster allocation.
    - [FatSync]: theory of [f_sync] and [f_close].
    - [FatApi] (3142-3780): directory listing, search, status, free space,
      unlink, mkdir, chmod, utime, rename; theory of the free-space scan.
    - [FatStr] (4339-4632): [f_gets], [f_putc], [f_puts], [f_printf].
    - [FatSession]: sequences of file calls against an abstract file [afile],
      bytes with a position; seeks behind the end of the file, which allocate.
    - [FatPath]: paths as lists of names and the directories of a volume as a
      graph of tables ([walk]); theory of [follow_path], [find_volume] and
      [f_open] of files that exist.
    - [FatLife]: theory of creating, writing, closing, reopening and removing
      files by their paths; [saved] and [removed] say what became of the whole
      volume.
    - [StringUtil]: [Sming/system/stringutil.cpp], [stringconversion.cpp] and
      [m_printf.cpp]: [strstri], the integer conversions, [m_vsnprintf].
      [meaning] is the text a format of [piece]s stands for, independently of
      the parser and the conversions of the code.
    - [DateTime]: [Sming/SmingCore/DateTime.cpp].  [calendar] counts days of
      the Gregorian calendar one by one; [format] prints through
      [m_snprintf] of [StringUtil].
    - [Escape]: [Sming/Services/WebHelpers/escape.cpp] on a byte memory with
      addresses, so that source and destination may be one buffer.
    - [Streams]: the interface [IDataSourceStream] as a class of operations,
      the class [Source] of what a reader relies on, and [CircularBuffer],
      [MemoryDataStream], [LimitedMemoryStream] and [EndlessMemoryStream] of
      [Sming/SmingCore/Data].  [drain] is a reader that takes blocks to the
      end.
    - [Transformer]: [StreamTransformer.cpp] over any [Source] and any
      [Encoder], and [ChunkedStream], [Base64OutputStream] (on [Base64]) and
      [QuotedPrintableOutputStream] as encoders.
    - [Containers]: [Sming/Wiring/FIFO.h], [FILO.h], [WHashMap.h] and
      [ObjectQueue.h], on arrays that are accessed with a check of the index.
    - [Vector]: [Sming/Wiring/WVector.h].  The elements are cells of a heap
      that the array points to; [owns] says that the pointers are distinct
      and live.
    - [Esptool]: [tools/esptool2] on a store of files; [load_image] is a boot
      loader that reads the image back.
    - [SerialBuffer]: [Sming/system/include/SerialBuffer.h], a ring buffer
      that can grow and shrink.
    - [Uart]: [Sming/system/uart.cpp].  A [port] is a UART object with its
      registers and FIFOs; reading and writing are machines of one shared
      access per step.  [UartTask] interleaves the writing task, the interrupt
      routine and the hardware.
    - [WString]: [Sming/Wiring/WString.cpp] on a heap block with its 16-bit
      length and capacity; [WStringSpec] specifies the operations on byte
      sequences, where a null string is [None]; [WStringReplace] is the theory
      of [String::replace].
    - [Si2c]: [Sming/SmingCore/core_esp8266_si2c.cpp] on two open-drain lines
      shared with any device; the slave of the specification follows the I2C
      protocol, stretches the clock and logs start and stop conditions.  [Wire]: [Wire.cpp] over it.
    - [Sha1]: [Sming/Services/WebHelpers/aw-sha1.cpp].
    - [Tcp]: [Network/TcpConnection.cpp] with lwIP as the class [Lwip];
      the object may delete itself, and a later access is a fault.
      [TcpClient]: [TcpClient.cpp], whose queue is a [MemoryDataStream] of
      [Streams].
    - [TemplateStream], [MultiStream]: the streams of
      [Sming/SmingCore/Data/Stream] that expand variables and that put
      streams one behind the other, over any [Source].
    - [HttpHeaders]: [Data/CStringArray.cpp] and [Network/Http/HttpHeaders.cpp]
      on the hash map of [Containers].
    - [Spiffs]: [Sming/Services/SpifFS/spiffs_sming.c] over [Flashmem]; the
      SPIFFS library is the class [SPIFFS].

    ** Conventions

    A C function that works on a FATFS object is a computation in [M (vol D)],
    the pair of that object and the device; the public functions are
    computations in [M (ff D)] and reach an object with [on_fs].  A function
    that gets a FIL or DIR takes the object and yields its new value.  Error
    codes are values of [FRESULT].  [None] as the result of a computation is a
    loop out of fuel or an access through a wild pointer; [wp] excludes it, so
    each theorem stated with [wp] includes that the code returns.  The C++
    components use [option] in the same way: [None] is an access outside a
    buffer, a null pointer, a call of [abort] or fuel that ran out, and the
    theorems show [Some].  Whether an allocation succeeds, and what new memory
    holds, are parameters.

    ** Fuel

    Loops carry fuel that the code's own bounds cover: the number of FAT
    entries for chain walks and free-cluster searches ([remove_chain_total]
    shows it enough for every FAT), the number of bytes for reads and writes,
    the number of sectors for a seek, 65536 (the range of the 16-bit index) for
    directory walks, the length of the string for names and patterns.  The
    year loop of [DateTime] has fuel for 200 years, more than 32-bit seconds
    span.  A reader of a transformed stream has
    more than 1034 times the length of the source, since each block of the
    source yields at most a full queue of 1034 bytes and each read takes one.
    A multi-part message takes one read per byte, two per part and one at the
    end; formatting SPIFFS one turn per sector.

    ** What the theorems show

    - Files by path: [f_open_read] (a path through directories of any depth
      opens the file its entry describes, every error branch included),
      [f_create_write_close], [f_save_load] (what was saved under a path is
      loaded by any spelling of it), [f_unlink_correct].
    - Files: [f_write_read_back], [f_write_correct], [f_read_correct],
      [f_lseek_read] and [f_close_durable] give the contract of a file as an
      array of bytes on a chain of clusters, from the public function down to
      the sectors: what is written is read back, nothing else changes, a write
      is short only on a full volume, and a closed file is on the device.
      [session_refines] composes them: any sequence of calls refines the
      abstract file.
    - Volume: the window is a coherent cache ([move_window_coherent],
      [sync_window_flushes]), the FAT is an array ([put_fat_get_fat]), chains
      are extended and freed exactly ([create_chain_correct],
      [remove_chain_frees], [remove_chain_total]), the free space is counted
      exactly ([getfree_counts_free_clusters]), a mounted volume has sound
      geometry ([load_volume_sound]) and remounting invalidates open objects
      ([f_mount_invalidates]).
    - Directories and names: [dir_find_correct], [dir_register_then_find],
      [dir_remove_then_find], [dir_register_full], [pattern_matching_correct]
      (against a relational specification of glob matching),
      [create_name_directory_form], [sfn_print_parse_roundtrip].
    - Text: [f_puts_correct], [f_printf_correct], [f_gets_correct],
      [printf_integer_roundtrip].
    - Flash: [flashmem_write_correct], [flashmem_read_correct],
      [flashmem_write_read_roundtrip], [flashmem_never_asserts],
      [flashmem_find_sector_bounds].
    - Base64: [base64_encode_stream_correct], [base64_roundtrip],
      [base64_decode_resumes].
    - Data: [vector_refines], [vector_sort_sorts], [vector_copy_deep],
      [hashmap_refines], [object_queue_refines], [circular_buffer_refines] and
      [memory_stream_roundtrip] are refinements of lists, finite maps and
      queues over arbitrary sequences of operations.
    - Network encodings: [chunked_stream_roundtrip], [base64_stream_correct],
      [quoted_printable_roundtrip] hold over any source with data and the read
      sizes for which the queue has room, which are below the 1024 bytes that
      [TcpConnection] can ask for; [uri_escape_roundtrip],
      [uri_unescape_correct], [html_escape_correct].
    - Text and time: [m_vsnprintf_correct], [strstri_sound],
      [fromUnixTime_calendar], [http_date_roundtrip].
    - Image builder: [CreateBinFile_roundtrip], [main_safe].
    - Serial port: [serial_buffer_refines], and over every interleaving of
      task, interrupt routine and hardware [uart_tx_in_order] and
      [uart_tx_drains] (once the calls have returned, every accepted byte is
      sent, in order, once); [uart_read_correct]; [uart_write_waits_forever]
      (a call that fills FIFO and buffer before a byte is shifted out).
    - Strings: [string_refines] (every run of operations, with allocation
      failures), [string_replace_correct], [string_int_roundtrip].
    - I2C: [twi_writeTo_correct], [twi_readFrom_correct], [i2c_register_read]
      (one transaction with a repeated start),
      [wire_transmission], [wire_request]; [twi_status_hangs].
    - Network: [tcp_write_stream_correct] and [tcp_client_session] (what the
      stack was given is a prefix of what was queued, over every order of
      calls and callbacks); [template_stream_expands],
      [multipart_stream_correct], [http_headers_refine]; [sha1_correct].
    - SPIFFS: [spiffs_format_write_read], [spiffs_mount_formats_blank].
    - Defects found: [flashmem_write_tail_failure_reported_as_success],
      [base64_encode_min_len_overruns], [base64_unsigned_char_decodes_padding],
      [getfree_caches_partial_count], [chunked_terminator_cut],
      [base64_padding_cut], [empty_source_not_finished],
      [empty_source_no_terminator], [quoted_printable_overruns],
      [memory_stream_overflow_after_failed_realloc],
      [circular_buffer_seek_backwards], [fifo_underflow_blocks],
      [html_escape_terminator_outside], [wide_number_overruns],
      [m_vprintf_writes_terminator], [ltoa_wp_sign_after_zeros],
      [strstri_misses_occurrence], [serial_buffer_resize_overruns],
      [uart_uninit_keeps_instance], [uart_write_waits_forever],
      [uart_read_overtakes], [rx_count_wraps], [string_concat_self_dangles],
      [string_remove_wraps], [string_remove_overlaps],
      [string_equalsIgnoreCase_null], [string_length_wraps],
      [string_replace_overruns], [string_replace_rematches],
      [twi_status_hangs], [twi_readFrom_0_overruns], [sha1_56_wrong],
      [tcp_disconnect_uses_freed], [tcp_write_stops_after_25],
      [tcp_client_send_repeats], [tcp_client_close_early],
      [template_open_brace_stalls], [template_long_name_split],
      [template_value_in_parts], [cstring_array_loses_empty],
      [multipart_read_past_end], [spiffs_format_erases_next],
      [spiffs_format_default_last], [spiffs_format_divides_by_zero],
      [spiffs_write_reports_ok], [string_replace_overlaps],
      [string_replace_from_right], [load_volume_wraps],
      [i2c_register_read_stretched].

    ** What is not modelled

    The parts of [ff.c] that [ffconf.h] switches off (long names, relative
    paths, locks, fast seek, labels, forwarding, formatting); reentrancy; the
    disk driver ([SDCard]), the SDK, lwIP and the SPIFFS library, which are
    interfaces here; floating point (in [dtostrf_p] and [String]) and the hex
    dump of [m_printf.cpp]; the move operations of [Vector]; SSL; console
    messages of [esptool2]; the rest of the framework: [Print] and [Stream],
    the HTTP parser, connections, URLs and forms, WebSockets, the DNS server,
    the AT client, the command shell, the MQTT, SMTP and FTP clients and
    servers, the file and JSON streams, [tools/spiffy], timers, SPI and the
    drivers of other peripherals, and the vendored libraries. *)

From stdpp Require Export base list numbers gmap.
From Stdlib Require Export ZArith Lia.

From Stdlib Require Ascii String.
Export String.StringSyntax Ascii.AsciiSyntax.
Delimit Scope string_scope with string.

#[global] Open Scope Z_scope.

(** ** Machine integers

    A [w]-bit unsigned integer is a [Z] in [0, 2^w); the conversions below are
    C's conversions to [uint8_t], [uint16_t], [uint32_t] and to [int8_t]. *)

Definition u8 (x : Z) : Z := x mod 2 ^ 8.
Definition u16 (x : Z) : Z := x mod 2 ^ 16.
Definition u32 (x : Z) : Z := x mod 2 ^ 32.
Definition s8 (x : Z) : Z := (x + 2 ^ 7) mod 2 ^ 8 - 2 ^ 7.
Definition s16 (x : Z) : Z := (x + 2 ^ 15) mod 2 ^ 16 - 2 ^ 15.
Definition s32 (x : Z) : Z := (x + 2 ^ 31) mod 2 ^ 32 - 2 ^ 31.

(** [is_byte] and [is_u32] are the ranges of the types. *)
Definition is_byte (x : Z) : Prop := 0 <= x < 2 ^ 8.
Definition is_u16 (x : Z) : Prop := 0 <= x < 2 ^ 16.
Definition is_u32 (x : Z) : Prop := 0 <= x < 2 ^ 32.

(** C's truth value of an integer. *)
Definition nz (x : Z) : bool := negb (x =? 0).

(** ** Byte arrays

    A C array is a [list Z]; [getb] and [setb] are the indexed accesses,
    [slice] and [splice] what [memcpy] reads and writes. *)

Definition getb (l : list Z) (i : Z) : Z := nth (Z.to_nat i) l 0.
Definition setb (l : list Z) (i v : Z) : list Z := <[Z.to_nat i := v]> l.
Definition slice (l : list Z) (off n : nat) : list Z := take n (drop off l).
Definition splice (l : list Z) (off : nat) (new : list Z) : list Z :=
  take off l ++ new ++ drop (off + length new) l.
(** The bytes of a string literal. *)
Fixpoint string_bytes (s : String.string) : list Z :=
  match s with
  | String.EmptyString => []
  | String.String c s' => Z.of_nat (Ascii.nat_of_ascii c) :: string_bytes s'
  end.

(** The characters before the terminator. *)
Fixpoint until_nul (l : list Z) : list Z :=
  match l with [] => [] | c :: l => if c =? 0 then [] else c :: until_nul l end.

(** [isspace] and [memchr] of the C library; the latter gives an offset. *)
Definition isspace (c : Z) : bool := (c =? 0x20) || ((9 <=? c) && (c <=? 13)).
Fixpoint memchr (m : list Z) (c : Z) : option Z :=
  match m with [] => None | x :: m => if x =? c then Some 0 else Z.succ <$> memchr m c end.

Definition zlen {A} (l : list A) : Z := Z.of_nat (length l).

#[global] Arguments getb : simpl never.
#[global] Arguments setb : simpl never.
#[global] Arguments slice : simpl never.
#[global] Arguments splice : simpl never.
#[global] Arguments zlen : simpl never.
#[global] Arguments u8 : simpl never.
#[global] Arguments u16 : simpl never.
#[global] Arguments u32 : simpl never.

(** ** A state monad with an exhaustion outcome

    [M S A] threads a state [S]; [None] is reserved for a loop that ran out of
    fuel (or an access outside a buffer where a file says so): a C function
    that returns is [Some]. *)

Definition M (S A : Type) : Type := S -> option (A * S).

Section Monad.
Context {S : Type}.

Definition ret {A} (a : A) : M S A := fun s => Some (a, s).
Definition bind {A B} (m : M S A) (k : A -> M S B) : M S B := fun s =>
  match m s with
  | Some (a, s') => k a s'
  | None => None
  end.
Definition fault {A} : M S A := fun _ => None.
Definition get : M S S := fun s => Some (s, s).
Definition gets {A} (f : S -> A) : M S A := fun s => Some (f s, s).
Definition modify (f : S -> S) : M S unit := fun s => Some (tt, f s).

(** A C loop: the body says [inl] to go round again with new loop variables
    and [inr] to leave the loop. *)
Fixpoint loop {A B} (fuel : nat) (body : A -> M S (A + B)) (a : A) : M S B :=
  fun s =>
    match fuel with
    | O => None
    | Datatypes.S fuel' =>
        match body a s with
        | None => None
        | Some (inl a', s') => loop fuel' body a' s'
        | Some (inr b, s') => Some (b, s')
        end
    end.

(** Total-correctness weakest precondition. *)
Definition wp {A} (m : M S A) (Q : A -> S -> Prop) (s : S) : Prop :=
  match m s with
  | Some (a, s') => Q a s'
  | None => False
  end.
End Monad.

(** Running a computation on a component of a larger state. *)
Definition zoom {S T A} (pr : S -> T) (upd : T -> S -> S) (m : M T A) : M S A :=
  fun s =>
    match m (pr s) with
    | Some (a, t) => Some (a, upd t s)
    | None => None
    end.

Declare Scope mon_scope.
Delimit Scope mon_scope with mon.
Notation "'let!' x ':=' m 'in' k" := (bind m (fun x => k))
  (at level 10, x pattern, m at level 100, k at level 200) : mon_scope.
Notation "m ';;;' k" := (bind m (fun _ => k))
  (at level 199, right associativity) : mon_scope.
#[global] Open Scope mon_scope.

(** [when b m] is [if (b) m]. *)
Definition when {S} (b : bool) (m : M S unit) : M S unit :=
  if b then m else ret tt.

(** ** Rules for [wp] *)

Section Wp.
Context {S : Type}.

Lemma wp_ret {A} (a : A) (Q : A -> S -> Prop) s : Q a s -> wp (ret a) Q s.
Proof. done. Qed.

Lemma wp_bind {A B} (m : M S A) (k : A -> M S B) Q s :
  wp m (fun a s' => wp (k a) Q s') s -> wp (bind m k) Q s.
Proof. unfold wp, bind. by destruct (m s) as [[a s']|]. Qed.

Lemma wp_bind_inv {A B} (m : M S A) (k : A -> M S B) Q s :
  wp (bind m k) Q s -> wp m (fun a s' => wp (k a) Q s') s.
Proof. unfold wp, bind. by destruct (m s) as [[a s']|]. Qed.

Lemma wp_get (Q : S -> S -> Prop) s : Q s s -> wp get Q s.
Proof. done. Qed.

Lemma wp_gets {A} (f : S -> A) (Q : A -> S -> Prop) s : Q (f s) s -> wp (gets f) Q s.
Proof. done. Qed.

Lemma wp_modify (f : S -> S) (Q : unit -> S -> Prop) s : Q tt (f s) -> wp (modify f) Q s.
Proof. done. Qed.

Lemma wp_mono {A} (m : M S A) (Q Q' : A -> S -> Prop) s :
  wp m Q s -> (forall a s', Q a s' -> Q' a s') -> wp m Q' s.
Proof. unfold wp. destruct (m s) as [[a s']|]; eauto. Qed.

Lemma wp_run {A} (m : M S A) (Q : A -> S -> Prop) s :
  wp m Q s <-> exists a s', m s = Some (a, s') /\ Q a s'.
Proof.
  unfold wp. split.
  - destruct (m s) as [[a s']|]; [eauto|done].
  - intros (a & s' & -> & H). done.
Qed.

(** A computation whose result is known. *)
Lemma wp_exact {A} (m : M S A) (Q : A -> S -> Prop) s a s' : m s = Some (a, s') -> Q a s' -> wp m Q s.
Proof. unfold wp. by intros ->. Qed.

(** The loop rule: an invariant, a measure that decreases on every round, and
    enough fuel give termination and the postcondition. *)
Lemma wp_loop {A B} (Inv : A -> S -> Prop) (measure : A -> S -> nat)
    (body : A -> M S (A + B)) (Q : B -> S -> Prop) :
  (forall a s, Inv a s ->
     wp (body a) (fun r s' => match r with
                              | inl a' => Inv a' s' /\ (measure a' s' < measure a s)%nat
                              | inr b => Q b s'
                              end) s) ->
  forall fuel a s, Inv a s -> (measure a s < fuel)%nat -> wp (loop fuel body a) Q s.
Proof.
  intros Hbody fuel. induction fuel as [|fuel IH]; intros a s HI Hm; [lia|].
  specialize (Hbody a s HI). unfold wp in *. simpl.
  destruct (body a s) as [[[a'|b] s']|]; [|done|done].
  destruct Hbody as [HI' Hm']. apply IH; [done|lia].
Qed.

(** One round of a loop. *)
Lemma wp_loop_unfold {A B} (body : A -> M S (A + B)) fuel a (Q : B -> S -> Prop) s :
  wp (body a) (fun r s' => match r with
                           | inl a' => wp (loop fuel body a') Q s'
                           | inr b => Q b s'
                           end) s ->
  wp (loop (Datatypes.S fuel) body a) Q s.
Proof. unfold wp. cbn [loop]. by destruct (body a s) as [[[a'|b] s']|]. Qed.

(** More fuel never changes a result. *)
Lemma loop_fuel_mono {A B} (body : A -> M S (A + B)) fuel fuel' a s r :
  loop fuel body a s = Some r -> (fuel <= fuel')%nat -> loop fuel' body a s = Some r.
Proof.
  revert fuel' a s. induction fuel as [|fuel IH]; intros fuel' a s H Hle; [done|].
  destruct fuel' as [|fuel']; [lia|]. simpl in *.
  destruct (body a s) as [[[a'|b] s']|]; [|done|done].
  apply IH; [done|lia].
Qed.
End Wp.

(** Symbolic execution of a monadic program under [wp]. *)
Ltac wp_step :=
  match goal with
  | |- wp (bind _ _) _ _ => apply wp_bind
  | |- wp (ret _) _ _ => apply wp_ret
  | |- wp get _ _ => apply wp_get
  | |- wp (gets _) _ _ => apply wp_gets
  | |- wp (modify _) _ _ => apply wp_modify
  | |- wp (when true _) _ _ => unfold when at 1
  | |- wp (when false _) _ _ => unfold when at 1
  | |- wp (if ?b then _ else _) _ _ => let E := fresh "E" in destruct b eqn:E
  end; cbv beta.
Ltac wp_go := repeat (wp_step; simpl).

(** ** Arithmetic of bit fields

    Masks, shifts and disjoint [lor] as division, remainder and addition, the
    form [lia] decides. *)

Lemma land_mask (x n : Z) : 0 <= n -> Z.land x (2 ^ n - 1) = x mod 2 ^ n.
Proof. intros. rewrite <- Z.land_ones by lia. by rewrite Z.ones_equiv, Z.sub_1_r. Qed.

Lemma land_disjoint (a b n : Z) : 0 <= n -> 0 <= b < 2 ^ n -> Z.land (a * 2 ^ n) b = 0.
Proof.
  intros Hn Hb. apply Z.bits_inj_iff; intros i. rewrite Z.land_spec, Z.bits_0.
  destruct (Z.ltb_spec i 0); [by rewrite !Z.testbit_neg_r by lia|].
  destruct (Z.ltb_spec i n); [by rewrite Z.mul_pow2_bits_low by lia|].
  replace (Z.testbit b i) with false; [by rewrite andb_false_r|].
  symmetry. rewrite <- (Z.mod_small b (2 ^ n)) by lia. by apply Z.mod_pow2_bits_high.
Qed.

Lemma lor_add (a b n : Z) : 0 <= n -> 0 <= b < 2 ^ n -> Z.lor (a * 2 ^ n) b = a * 2 ^ n + b.
Proof.
  intros Hn Hb. pose proof (land_disjoint a b n Hn Hb) as E.
  by rewrite <- Z.lxor_lor, <- Z.add_nocarry_lxor.
Qed.

Lemma lor_add_comm (a b n : Z) : 0 <= n -> 0 <= b < 2 ^ n -> Z.lor b (a * 2 ^ n) = b + a * 2 ^ n.
Proof. intros. rewrite Z.lor_comm, lor_add by done. lia. Qed.

Lemma ldiff_mask (x n : Z) : 0 <= n -> Z.land x (Z.lnot (2 ^ n - 1)) = x - x mod 2 ^ n.
Proof.
  intros. rewrite <- Z.ldiff_land. replace (2 ^ n - 1) with (Z.ones n) by (rewrite Z.ones_equiv; lia).
  rewrite Z.ldiff_ones_r, Z.shiftr_div_pow2, Z.shiftl_mul_pow2 by lia.
  pose proof (Z.div_mod x (2 ^ n)) as E. specialize (E ltac:(lia)). lia.
Qed.

Lemma shiftl_mul (x n : Z) : 0 <= n -> Z.shiftl x n = x * 2 ^ n.
Proof. intros. by apply Z.shiftl_mul_pow2. Qed.

Lemma shiftr_div (x n : Z) : 0 <= n -> Z.shiftr x n = x / 2 ^ n.
Proof. intros. by apply Z.shiftr_div_pow2. Qed.

Lemma nz_true (x : Z) : nz x = true <-> x <> 0.
Proof. unfold nz. rewrite negb_true_iff, Z.eqb_neq. done. Qed.

Lemma nz_false (x : Z) : nz x = false <-> x = 0.
Proof. unfold nz. rewrite negb_false_iff, Z.eqb_eq. done. Qed.

Lemma u32_small (x : Z) : is_u32 x -> u32 x = x.
Proof. intros. by apply Z.mod_small. Qed.

Lemma u8_small (x : Z) : is_byte x -> u8 x = x.
Proof. intros. by apply Z.mod_small. Qed.

Lemma u16_small (x : Z) : 0 <= x < 2 ^ 16 -> u16 x = x.
Proof. apply Z.mod_small. Qed.

Lemma s8_small (x : Z) : - 2 ^ 7 <= x < 2 ^ 7 -> s8 x = x.
Proof. intros. unfold s8. rewrite Z.mod_small by lia. lia. Qed.
Lemma s32_small (x : Z) : - 2 ^ 31 <= x < 2 ^ 31 -> s32 x = x.
Proof. intros. unfold s32. rewrite Z.mod_small; lia. Qed.

Lemma u32_range (x : Z) : is_u32 (u32 x).
Proof. by apply Z.mod_pos_bound. Qed.

Lemma u8_range (x : Z) : is_byte (u8 x).
Proof. by apply Z.mod_pos_bound. Qed.

(** ** Slices and splices *)

Lemma zlen_app {A} (l1 l2 : list A) : zlen (l1 ++ l2) = zlen l1 + zlen l2.
Proof. unfold zlen. rewrite length_app. lia. Qed.

Lemma zlen_cons {A} (x : A) l : zlen (x :: l) = 1 + zlen l.
Proof. unfold zlen. cbn [length]. lia. Qed.

Lemma zlen_take {A} n (l : list A) : zlen (take n l) = Z.min (Z.of_nat n) (zlen l).
Proof. unfold zlen. rewrite length_take. lia. Qed.

Lemma zlen_drop {A} n (l : list A) : zlen (drop n l) = Z.max 0 (zlen l - Z.of_nat n).
Proof. unfold zlen. rewrite length_drop. lia. Qed.

Lemma zlen_fmap {B D} (f : B -> D) (l : list B) : zlen (f <$> l) = zlen l.
Proof. unfold zlen. by rewrite length_fmap. Qed.

Lemma zlen_replicate {A} n (x : A) : zlen (replicate n x) = Z.of_nat n.
Proof. unfold zlen. by rewrite length_replicate. Qed.

Lemma zlen_nonneg {A} (l : list A) : 0 <= zlen l.
Proof. unfold zlen. lia. Qed.

Lemma zlen_zero {A} (l : list A) : zlen l = 0 -> l = [].
Proof. destruct l; [done|]. rewrite zlen_cons. pose proof (zlen_nonneg l). lia. Qed.

Lemma length_slice (l : list Z) off n :
  length (slice l off n) = Nat.min n (length l - off).
Proof. unfold slice. by rewrite length_take, length_drop. Qed.

Lemma length_splice (l : list Z) off new :
  (off + length new <= length l)%nat -> length (splice l off new) = length l.
Proof. intros. unfold splice. rewrite !length_app, length_take, length_drop. lia. Qed.

Lemma length_setb (l : list Z) i v : length (setb l i v) = length l.
Proof. apply length_insert. Qed.

Lemma getb_lookup (l : list Z) i :
  (Z.to_nat i < length l)%nat -> l !! Z.to_nat i = Some (getb l i).
Proof.
  intros Hi. unfold getb. destruct (lookup_lt_is_Some_2 l _ Hi) as [x Hx].
  by rewrite (nth_lookup_Some _ _ 0 _ Hx).
Qed.

Lemma lookup_getb (l : list Z) i x : l !! i = Some x -> getb l (Z.of_nat i) = x.
Proof. intros. unfold getb. rewrite Nat2Z.id. by apply nth_lookup_Some. Qed.

Lemma getb_app_l (l1 l2 : list Z) i :
  0 <= i < zlen l1 -> getb (l1 ++ l2) i = getb l1 i.
Proof. intros. unfold getb, zlen in *. by rewrite app_nth1 by lia. Qed.

Lemma getb_app_r (l1 l2 : list Z) i :
  zlen l1 <= i -> getb (l1 ++ l2) i = getb l2 (i - zlen l1).
Proof. intros. unfold getb, zlen in *. rewrite app_nth2 by lia. f_equal. lia. Qed.

Lemma splice_snoc (l : list Z) off new v :
  (off + length new < length l)%nat ->
  setb (splice l off new) (Z.of_nat (off + length new)) v = splice l off (new ++ [v]).
Proof.
  intros. unfold setb, splice. rewrite Nat2Z.id, length_app. simpl.
  rewrite insert_app_r_alt by (rewrite length_take; lia).
  f_equal. rewrite length_take, Nat.min_l by lia.
  rewrite insert_app_r_alt by lia.
  rewrite <- app_assoc. f_equal.
  destruct (drop (off + length new) l) as [|x r] eqn:E.
  - apply (f_equal length) in E. rewrite length_drop in E. simpl in E. lia.
  - replace (off + length new - off - length new)%nat with 0%nat by lia. simpl.
    f_equal. replace (off + (length new + 1))%nat with (off + length new + 1)%nat by lia.
    rewrite <- drop_drop, E. done.
Qed.

Lemma slice_snoc (l : list Z) off n :
  (off + n < length l)%nat ->
  slice l off (S n) = slice l off n ++ [getb l (Z.of_nat (off + n))].
Proof.
  intros. unfold slice.
  destruct (lookup_lt_is_Some_2 l (off + n)) as [x Hx]; [lia|].
  rewrite (lookup_getb _ _ _ Hx). apply take_S_r. by rewrite lookup_drop.
Qed.

Lemma splice_nil (l : list Z) off : splice l off [] = l.
Proof. unfold splice. simpl. rewrite Nat.add_0_r. apply take_drop. Qed.

Lemma splice_splice_adj (l : list Z) off d1 d2 :
  (off + length d1 + length d2 <= length l)%nat ->
  splice (splice l off d1) (off + length d1) d2 = splice l off (d1 ++ d2).
Proof.
  intros. unfold splice at 1 3. rewrite length_app.
  assert (take (off + length d1) (splice l off d1) = take off l ++ d1) as ->.
  { unfold splice. rewrite app_assoc. rewrite take_app_le, take_ge; rewrite ?length_app, ?length_take; try done; lia. }
  rewrite <- !app_assoc. do 3 f_equal. unfold splice.
  rewrite drop_app_ge by (rewrite length_take; lia).
  rewrite length_take, Nat.min_l by lia.
  rewrite drop_app_ge by lia. rewrite drop_drop. f_equal. lia.
Qed.

Lemma slice_all (l : list Z) n : length l = n -> slice l 0 n = l.
Proof. intros. unfold slice. rewrite drop_0. apply take_ge. lia. Qed.

Lemma slice_app (l : list Z) off n m :
  slice l off (n + m) = slice l off n ++ slice l (off + n) m.
Proof.
  unfold slice. rewrite <- drop_drop. set (k := drop off l).
  rewrite <- (take_drop n k) at 1.
  destruct (decide (n <= length k)%nat).
  - rewrite take_app_ge by (rewrite length_take; lia). rewrite length_take, Nat.min_l by lia.
    do 2 f_equal. lia.
  - rewrite (take_ge k n) by lia. rewrite (drop_ge k n) by lia.
    rewrite app_nil_r, take_nil, app_nil_r. apply take_ge. lia.
Qed.

Lemma length_replicate_z (n : nat) (x : Z) : length (replicate n x) = n.
Proof. apply length_replicate. Qed.

Lemma take_splice_0 (l d : list Z) : take (length d) (splice l 0 d) = d.
Proof. unfold splice. rewrite take_0. simpl. apply take_app_length. Qed.

(** ** Finite checks

    A decidable fact about a small range of integers, by evaluation. *)
Lemma forall_range (n : Z) (p : Z -> bool) :
  forallb p (seqZ 0 n) = true -> forall x, 0 <= x < n -> p x = true.
Proof.
  intros Hp x Hx. rewrite forallb_forall in Hp. apply Hp, list_elem_of_In, elem_of_seqZ. lia.
Qed.

Lemma forall_range2 (n m : Z) (p : Z -> Z -> bool) :
  forallb (fun x => forallb (p x) (seqZ 0 m)) (seqZ 0 n) = true ->
  forall x y, 0 <= x < n -> 0 <= y < m -> p x y = true.
Proof.
  intros Hp x y Hx Hy. apply (forall_range m); [|done].
  exact (forall_range n (fun x => forallb (p x) (seqZ 0 m)) Hp x Hx).
Qed.

(** Three elements at a time. *)
Lemma list_ind3 {A} (P : list A -> Prop) :
  P [] -> (forall a, P [a]) -> (forall a b, P [a; b]) ->
  (forall a b c r, P r -> P (a :: b :: c :: r)) -> forall l, P l.
Proof.
  intros H0 H1 H2 H3. fix IH 1. intros [|a [|b [|c r]]]; [exact H0|apply H1|apply H2|apply H3, IH].
Qed.

Lemma getb_setb_eq (l : list Z) i v : 0 <= i < zlen l -> getb (setb l i v) i = v.
Proof.
  intros Hi. unfold getb, setb, zlen in *. apply nth_lookup_Some, list_lookup_insert_eq. lia.
Qed.

Lemma getb_setb_ne (l : list Z) i j v : 0 <= i -> 0 <= j -> i <> j -> getb (setb l i v) j = getb l j.
Proof.
  intros. unfold getb, setb. rewrite !nth_lookup. rewrite list_lookup_insert_ne; [done|lia].
Qed.

Lemma zlen_setb (l : list Z) i v : zlen (setb l i v) = zlen l.
Proof. unfold zlen. by rewrite length_setb. Qed.

Lemma setb_setb (l : list Z) i v w : setb (setb l i v) i w = setb l i w.
Proof. unfold setb. apply list_insert_insert_eq. Qed.

Lemma splice_cons (l : list Z) off v new :
  (off + S (length new) <= length l)%nat ->
  splice (setb l (Z.of_nat off) v) (S off) new = splice l off (v :: new).
Proof.
  intros. rewrite <- (splice_nil l off) at 1.
  assert (setb (splice l off []) (Z.of_nat off) v = splice l off [v]) as ->.
  { pose proof (splice_snoc l off [] v) as E. simpl in E. rewrite Nat.add_0_r in E. apply E. lia. }
  change (v :: new) with ([v] ++ new).
  rewrite <- splice_splice_adj by (simpl; lia). f_equal. simpl. lia.
Qed.

(** A mask of high bits. *)
Lemma land_high (x m n : Z) : 0 <= n -> Z.land x (m * 2 ^ n) = Z.land (x / 2 ^ n) m * 2 ^ n.
Proof.
  intros Hn. assert (0 < 2 ^ n) as Hp by (apply Z.pow_pos_nonneg; lia).
  pose proof (Z.mod_pos_bound x (2 ^ n) Hp) as Hb.
  assert (x = Z.lor (x / 2 ^ n * 2 ^ n) (x mod 2 ^ n)) as E.
  { rewrite lor_add by lia. pose proof (Z.div_mod x (2 ^ n) ltac:(lia)). lia. }
  rewrite E at 1. rewrite Z.land_lor_distr_l.
  rewrite (Z.land_comm (x mod 2 ^ n)), (land_disjoint m (x mod 2 ^ n) n), Z.lor_0_r by lia.
  rewrite <- !Z.shiftl_mul_pow2 by lia. by rewrite Z.shiftl_land.
Qed.

Lemma land_1_odd (x : Z) : Z.land x 1 = x mod 2.
Proof. change 1 with (2 ^ 1 - 1). by rewrite land_mask by lia. Qed.

Lemma land_mask_low (x n m : Z) : 0 <= n -> m = 2 ^ n - 1 -> Z.land x m = x mod 2 ^ n.
Proof. intros ? ->. by apply land_mask. Qed.

Lemma getb_byte (l : list Z) i : Forall is_byte l -> is_byte (getb l i).
Proof.
  intros Hl. unfold getb. destruct (decide (Z.to_nat i < length l)%nat) as [Hi|Hi].
  - pose proof (getb_lookup l i Hi) as E. by eapply Forall_lookup_1 in E; [|exact Hl].
  - rewrite nth_overflow by lia. done.
Qed.

Lemma setb_bytes (l : list Z) i v : Forall is_byte l -> is_byte v -> Forall is_byte (setb l i v).
Proof. intros. unfold setb. by apply Forall_insert. Qed.

Lemma getb_setb (l : list Z) i j v :
  0 <= i < zlen l -> 0 <= j -> getb (setb l i v) j = if j =? i then v else getb l j.
Proof.
  intros. destruct (Z.eqb_spec j i) as [->|]; [by apply getb_setb_eq|]. apply getb_setb_ne; lia.
Qed.
