(* ===== verification/Flashmem.v ===== *)
(** * Flash memory access ([Sming/system/flashmem.c])

    The framework's byte-granular view of the SPI flash.  The SDK calls
    [spi_flash_read], [spi_flash_write] and [spi_flash_erase_sector] are not
    part of the repository's sources: they are the operations of the class
    [SpiFlash], and what the code relies on is the class [SpiFlashLaws].  RAM
    pointers are addresses ([Z]) together with the bytes they point at, because
    the code branches on the alignment of the address. *)

From S2P Require Import Prelude.

(** ** The SDK interface *)

Definition SPI_FLASH_RESULT_OK : Z := 0.
Definition SPI_FLASH_SEC_SIZE : Z := 4096.

(** Result codes are the SDK's [SpiFlashOpResult]; [spi_flash_read] also yields
    the bytes it stored in the caller's buffer. *)
Class SpiFlash (F : Type) := {
  spi_flash_read : Z -> Z -> M F (Z * list Z);
  spi_flash_write : Z -> list Z -> M F Z;
  spi_flash_erase_sector : Z -> M F Z
}.

(** [x] is a multiple of the 4-byte flash word. *)
Definition word_aligned (x : Z) : Prop := x mod 4 = 0.

(** What flashmem.c relies on: the SDK moves whole aligned words.  [flash_byte]
    is the content of the chip, [accepts f a n] says that the chip completes
    accesses to the range [a, a+n), and [program old new] is the value a cell
    that held [old] has after [new] is written to it ([Z.land] on a NOR chip);
    writing a cell's own value back changes nothing, and an erased cell takes
    any value. *)
Class SpiFlashLaws (F : Type) `{SpiFlash F} := {
  flash_byte : F -> Z -> Z;
  accepts : F -> Z -> Z -> Prop;
  program : Z -> Z -> Z;
  program_same : forall b, program b b = b;
  program_erased : forall b, is_byte b -> program 255 b = b;
  accepts_sub : forall f a n a' n',
    accepts f a n -> a <= a' -> 0 <= n' -> a' + n' <= a + n -> accepts f a' n';
  spi_flash_read_law : forall f a n,
    word_aligned a -> word_aligned n -> 0 <= n -> accepts f a n ->
    wp (spi_flash_read a n)
       (fun '(r, bytes) f' =>
          r = SPI_FLASH_RESULT_OK /\ bytes = flash_byte f <$> seqZ a n /\
          (forall x, flash_byte f' x = flash_byte f x) /\
          (forall x m, accepts f x m -> accepts f' x m)) f;
  spi_flash_write_law : forall f a data,
    word_aligned a -> word_aligned (zlen data) -> accepts f a (zlen data) ->
    wp (spi_flash_write a data)
       (fun r f' =>
          r = SPI_FLASH_RESULT_OK /\
          (forall x, flash_byte f' x =
             if (a <=? x) && (x <? a + zlen data)
             then program (flash_byte f x) (getb data (x - a)) else flash_byte f x) /\
          (forall x m, accepts f x m -> accepts f' x m)) f;
  spi_flash_erase_law : forall f s,
    0 <= s -> accepts f (s * SPI_FLASH_SEC_SIZE) SPI_FLASH_SEC_SIZE ->
    wp (spi_flash_erase_sector s)
       (fun r f' =>
          r = SPI_FLASH_RESULT_OK /\
          (forall x, flash_byte f' x =
             if x / SPI_FLASH_SEC_SIZE =? s then 255 else flash_byte f x) /\
          (forall x m, accepts f x m -> accepts f' x m)) f
}.

(** ** Constants and helpers of flashmem.c and flashmem.h *)

Definition INTERNAL_FLASH_WRITE_UNIT_SIZE : Z := 4.
Definition INTERNAL_FLASH_READ_UNIT_SIZE : Z := 4.
Definition INTERNAL_FLASH_SECTOR_SIZE : Z := SPI_FLASH_SEC_SIZE.
Definition INTERNAL_FLASH_START_ADDRESS : Z := 0x40200000.
Definition SYS_PARAM_SEC_COUNT : Z := 4.
Definition FLASH_BUFFERS : Z := 32.

Definition IS_ALIGNED (x : Z) : bool := Z.land (u32 x) 3 =? 0.
Definition min_u32 (a b : Z) : Z := if a <? b then a else b.

(** [x & ~mask] on a 32-bit [x]. *)
Definition and_not (x mask : Z) : Z := Z.land x (Z.lnot mask).

Section Flashmem.
Context {F : Type} `{SpiFlash F}.

(** The address of the word-aligned local buffer [tmpdata]. *)
Variable tmpdata_addr : Z.

(** [assert] stops the program: the [fault] outcome. *)
Definition flashmem_write_internal (from : Z) (data : list Z) (toaddr size : Z) : M F Z :=
  if IS_ALIGNED from && IS_ALIGNED toaddr && IS_ALIGNED size then
    let! r := spi_flash_write toaddr (take (Z.to_nat size) data) in
    if SPI_FLASH_RESULT_OK =? r then ret size else ret 0
  else fault.

(** Yields the return value and the new contents of the buffer [to_buf]. *)
Definition flashmem_read_internal (to : Z) (to_buf : list Z) (fromaddr size : Z)
    : M F (Z * list Z) :=
  if IS_ALIGNED to && IS_ALIGNED fromaddr && IS_ALIGNED size then
    let! (r, bytes) := spi_flash_read fromaddr size in
    let buf := splice to_buf 0 bytes in
    if SPI_FLASH_RESULT_OK =? r then ret (size, buf) else ret (0, buf)
  else fault.

(** ** [flashmem_write] *)

(** [sizeof(tmpdata)]; the read and write units have the same size. *)
Definition sizeof_tmpdata : Z := FLASH_BUFFERS * INTERNAL_FLASH_WRITE_UNIT_SIZE.
Definition tmpdata_init : list Z := replicate (Z.to_nat sizeof_tmpdata) 0.

(** The loop [while(remain && rest < blksize) { tmpdata[rest++] = *pfrom++; --remain; }]. *)
Definition overlay_body (from : list Z) (st : list Z * Z * Z * Z)
    : M F ((list Z * Z * Z * Z) + (list Z * Z * Z * Z)) :=
  let '(tmp, rest, pfrom, remain) := st in
  if nz remain && (rest <? INTERNAL_FLASH_WRITE_UNIT_SIZE) then
    ret (inl (setb tmp rest (getb from pfrom), rest + 1, pfrom + 1, remain - 1))
  else ret (inr (tmp, rest, pfrom, remain)).

Definition overlay from st :=
  loop (S (Z.to_nat INTERNAL_FLASH_WRITE_UNIT_SIZE)) (overlay_body from) st.

(** The block loop: [inl] is an early [return]. *)
Definition write_blocks_body (from : list Z) (size : Z) (st : list Z * Z * Z * Z)
    : M F ((list Z * Z * Z * Z) + (Z + list Z * Z * Z * Z)) :=
  let '(tmp, pfrom, remain, toaddr) := st in
  if nz remain then
    let count := min_u32 remain sizeof_tmpdata in
    let tmp := splice tmp 0 (slice from (Z.to_nat pfrom) (Z.to_nat count)) in
    let! written := flashmem_write_internal tmpdata_addr tmp toaddr count in
    let remain := u32 (remain - written) in
    if negb (written =? count) then ret (inr (inl (u32 (size - remain))))
    else ret (inl (tmp, pfrom + count, remain, u32 (toaddr + count)))
  else ret (inr (inr (tmp, pfrom, remain, toaddr))).

Definition write_blocks from size st :=
  loop (S (Z.to_nat size)) (write_blocks_body from size) st.

(** Lines 79-110: whole blocks, then the final part of a block. *)
Definition flashmem_write_tail (from : list Z) (size : Z) (st : list Z * Z * Z * Z) : M F Z :=
  let '(tmp, pfrom, remain, toaddr) := st in
  let blksize := INTERNAL_FLASH_WRITE_UNIT_SIZE in
  let blkmask := INTERNAL_FLASH_WRITE_UNIT_SIZE - 1 in
  let rest := Z.land remain blkmask in
  let remain := and_not remain blkmask in
  let! r := write_blocks from size (tmp, pfrom, remain, toaddr) in
  match r with
  | inl v => ret v
  | inr (tmp, pfrom, remain, toaddr) =>
      if nz rest then
        let! (n, tmp) := flashmem_read_internal tmpdata_addr tmp toaddr blksize in
        if negb (n =? blksize) then ret (u32 (size - remain)) else
        let tmp := splice tmp 0 (slice from (Z.to_nat pfrom) (Z.to_nat rest)) in
        let! written := flashmem_write_internal tmpdata_addr tmp toaddr blksize in
        let remain := u32 (remain - written) in
        if negb (written =? blksize) then ret (u32 (size - remain)) else ret size
      else ret size
  end.

Definition flashmem_write (from_addr : Z) (from : list Z) (toaddr size : Z) : M F Z :=
  if IS_ALIGNED from_addr && IS_ALIGNED toaddr && IS_ALIGNED size then
    flashmem_write_internal from_addr from toaddr size
  else
  let blksize := INTERNAL_FLASH_WRITE_UNIT_SIZE in
  let blkmask := INTERNAL_FLASH_WRITE_UNIT_SIZE - 1 in
  let tmp := tmpdata_init in
  if nz (Z.land toaddr blkmask) then
    let rest := Z.land toaddr blkmask in
    let addr_aligned := and_not toaddr blkmask in
    let! (n, tmp) := flashmem_read_internal tmpdata_addr tmp addr_aligned blksize in
    if negb (n =? blksize) then ret 0 else
    let! (tmp, _, pfrom, remain) := overlay from (tmp, rest, 0, size) in
    let! written := flashmem_write_internal tmpdata_addr tmp addr_aligned blksize in
    if negb (written =? blksize) then ret written else
    if remain =? 0 then ret size else
    flashmem_write_tail from size (tmp, pfrom, remain, u32 (addr_aligned + blksize))
  else flashmem_write_tail from size (tmp, 0, size, toaddr).

(** ** [flashmem_read] *)

(** The loop [while(remain && rest < blksize) { *pto++ = tmpdata[rest++]; --remain; }]. *)
Definition unlay_body (tmp : list Z) (st : list Z * Z * Z * Z)
    : M F ((list Z * Z * Z * Z) + (list Z * Z * Z * Z)) :=
  let '(to, rest, pto, remain) := st in
  if nz remain && (rest <? INTERNAL_FLASH_READ_UNIT_SIZE) then
    ret (inl (setb to pto (getb tmp rest), rest + 1, pto + 1, remain - 1))
  else ret (inr (to, rest, pto, remain)).

Definition unlay tmp st :=
  loop (S (Z.to_nat INTERNAL_FLASH_READ_UNIT_SIZE)) (unlay_body tmp) st.

Definition read_blocks_body (size : Z) (st : list Z * list Z * Z * Z * Z)
    : M F ((list Z * list Z * Z * Z * Z) + ((Z * list Z) + list Z * list Z * Z * Z * Z)) :=
  let '(tmp, to, pto, remain, fromaddr) := st in
  if nz remain then
    let count := min_u32 remain sizeof_tmpdata in
    let! (read, tmp) := flashmem_read_internal tmpdata_addr tmp fromaddr count in
    let to := splice to (Z.to_nat pto) (slice tmp 0 (Z.to_nat read)) in
    let remain := u32 (remain - read) in
    if negb (read =? count) then ret (inr (inl (u32 (size - remain), to)))
    else ret (inl (tmp, to, pto + count, remain, u32 (fromaddr + count)))
  else ret (inr (inr (tmp, to, pto, remain, fromaddr))).

Definition read_blocks size st :=
  loop (S (Z.to_nat size)) (read_blocks_body size) st.

(** Lines 143-170. *)
Definition flashmem_read_tail (size : Z) (st : list Z * list Z * Z * Z * Z) : M F (Z * list Z) :=
  let '(tmp, to, pto, remain, fromaddr) := st in
  let blksize := INTERNAL_FLASH_READ_UNIT_SIZE in
  let blkmask := INTERNAL_FLASH_READ_UNIT_SIZE - 1 in
  let rest := Z.land remain blkmask in
  let remain := and_not remain blkmask in
  let! r := read_blocks size (tmp, to, pto, remain, fromaddr) in
  match r with
  | inl v => ret v
  | inr (tmp, to, pto, remain, fromaddr) =>
      if nz rest then
        let! (n, tmp) := flashmem_read_internal tmpdata_addr tmp fromaddr blksize in
        if negb (n =? blksize) then ret (u32 (size - remain), to) else
        ret (size, splice to (Z.to_nat pto) (slice tmp 0 (Z.to_nat rest)))
      else ret (size, to)
  end.

Definition flashmem_read (to_addr : Z) (to : list Z) (fromaddr size : Z) : M F (Z * list Z) :=
  if IS_ALIGNED to_addr && IS_ALIGNED fromaddr && IS_ALIGNED size then
    flashmem_read_internal to_addr to fromaddr size
  else
  let blksize := INTERNAL_FLASH_READ_UNIT_SIZE in
  let blkmask := INTERNAL_FLASH_READ_UNIT_SIZE - 1 in
  let tmp := tmpdata_init in
  if nz (Z.land fromaddr blkmask) then
    let rest := Z.land fromaddr blkmask in
    let addr_aligned := and_not fromaddr blkmask in
    let! (n, tmp) := flashmem_read_internal tmpdata_addr tmp addr_aligned blksize in
    if negb (n =? blksize) then ret (0, to) else
    let! (to, _, pto, remain) := unlay tmp (to, rest, 0, size) in
    if remain =? 0 then ret (size, to) else
    flashmem_read_tail size (tmp, to, pto, remain, u32 (addr_aligned + blksize))
  else flashmem_read_tail size (tmp, to, 0, size, fromaddr).

(** ** Sectors *)

Definition flashmem_erase_sector (sector_id : Z) : M F bool :=
  let! r := spi_flash_erase_sector sector_id in
  ret (r =? SPI_FLASH_RESULT_OK).
End Flashmem.

(** Yields the sector and the two optional outputs [*pstart], [*pend]. *)
Definition flashmem_find_sector (address : Z) : Z * Z * Z :=
  let sect_id := address / INTERNAL_FLASH_SECTOR_SIZE in
  (sect_id, u32 (sect_id * INTERNAL_FLASH_SECTOR_SIZE),
   u32 (u32 (u32 (sect_id + 1) * INTERNAL_FLASH_SECTOR_SIZE) - 1)).

Definition flashmem_get_sector_of_address (addr : Z) : Z :=
  let '(s, _, _) := flashmem_find_sector addr in s.

Definition flashmem_get_address (memptr : Z) : Z := u32 (memptr - INTERNAL_FLASH_START_ADDRESS).

(** [flash_code_end] is the address of the linker symbol [_flash_code_end]. *)
Definition flashmem_get_first_free_block_address (flash_code_end : Z) : Z :=
  if flash_code_end =? 0 then 0 else
  let '(_, _, pend) := flashmem_find_sector
    (u32 (u32 (flash_code_end - INTERNAL_FLASH_START_ADDRESS) - 1)) in
  u32 (pend + 1).

(** ** The information block

    [flashmem_get_info] copies the first word of the mapped flash into the
    bit-field structure; [speed] and [size] share a byte, the low half being
    [speed] on this little-endian target. *)

Record SPIFlashInfo := {
  unknown0 : Z; unknown1 : Z; mode : Z; speed : Z; size_type : Z
}.

Definition flashmem_get_info (flash : list Z) : SPIFlashInfo :=
  {| unknown0 := getb flash 0; unknown1 := getb flash 1; mode := getb flash 2;
     speed := Z.land (getb flash 3) 15; size_type := Z.shiftr (getb flash 3) 4 |}.

Definition flashmem_get_size_type (flash : list Z) : Z := u8 (size_type (flashmem_get_info flash)).

Definition SIZE_4MBIT := 0.
Definition SIZE_2MBIT := 1.
Definition SIZE_8MBIT := 2.
Definition SIZE_16MBIT := 3.
Definition SIZE_32MBIT := 4.

Definition flashmem_get_size_bytes (flash : list Z) : Z :=
  let t := size_type (flashmem_get_info flash) in
  if t =? SIZE_2MBIT then 256 * 1024
  else if t =? SIZE_4MBIT then 512 * 1024
  else if t =? SIZE_8MBIT then 1 * 1024 * 1024
  else if t =? SIZE_16MBIT then 2 * 1024 * 1024
  else if t =? SIZE_32MBIT then 4 * 1024 * 1024
  else 512 * 1024.

Definition flashmem_get_size_sectors (flash : list Z) : Z :=
  u16 (flashmem_get_size_bytes flash / SPI_FLASH_SEC_SIZE).

(** ** A concrete chip

    Cells in a list, NOR programming, and a predicate of unreliable addresses:
    an access that touches one fails without effect. *)
Record chip := { cells : list Z; bad : Z -> bool }.

Definition chip_ok (c : chip) (a n : Z) : bool :=
  (0 <=? a) && (a + n <=? zlen (cells c)) && forallb (fun x => negb (bad c x)) (seqZ a n).

#[export] Instance chip_SpiFlash : SpiFlash chip := {|
  spi_flash_read a n := fun c =>
    if chip_ok c a n then Some ((0, slice (cells c) (Z.to_nat a) (Z.to_nat n)), c)
    else Some ((1, []), c);
  spi_flash_write a data := fun c =>
    if chip_ok c a (zlen data) then
      Some (0, {| cells := splice (cells c) (Z.to_nat a)
                    (zip_with Z.land (slice (cells c) (Z.to_nat a) (length data)) data);
                  bad := bad c |})
    else Some (1, c);
  spi_flash_erase_sector s := fun c =>
    if chip_ok c (s * SPI_FLASH_SEC_SIZE) SPI_FLASH_SEC_SIZE then
      Some (0, {| cells := splice (cells c) (Z.to_nat (s * SPI_FLASH_SEC_SIZE))
                             (replicate (Z.to_nat SPI_FLASH_SEC_SIZE) 255);
                  bad := bad c |})
    else Some (1, c)
|}.

(** ** Specification vocabulary *)

Section Spec.
Context {F : Type} `{SpiFlashLaws F}.

(** The bytes of the range [a, a+n). *)
Definition flash_range (f : F) (a n : Z) : list Z := flash_byte f <$> seqZ a n.

(** [f'] is [f] with [data] programmed at [a], everything else kept. *)
Definition programmed (f : F) (a : Z) (data : list Z) (f' : F) : Prop :=
  (forall x, flash_byte f' x =
     if (a <=? x) && (x <? a + zlen data)
     then program (flash_byte f x) (getb data (x - a)) else flash_byte f x) /\
  (forall x m, accepts f x m -> accepts f' x m).

(** The word-aligned hull of [a, a+n). *)
Definition hull_start (a : Z) : Z := a - a mod 4.
Definition hull_size (a n : Z) : Z := (a + n + 3) / 4 * 4 - hull_start a.
End Spec.

(** ** Lemmas *)

Lemma IS_ALIGNED_spec (x : Z) : IS_ALIGNED x = true <-> word_aligned x.
Proof.
  unfold IS_ALIGNED, word_aligned, u32. rewrite Z.eqb_eq.
  change 3 with (2 ^ 2 - 1). rewrite land_mask by lia.
  change (2 ^ 2) with 4. split; intros; Z.div_mod_to_equations; lia.
Qed.

Lemma and_not_3 (x : Z) : and_not x 3 = x - x mod 4.
Proof. unfold and_not. change 3 with (2 ^ 2 - 1). by rewrite ldiff_mask by lia. Qed.

Lemma land_3 (x : Z) : Z.land x 3 = x mod 4.
Proof. change 3 with (2 ^ 2 - 1). by rewrite land_mask by lia. Qed.

Lemma word_aligned_hull (a : Z) : word_aligned (a - a mod 4).
Proof. unfold word_aligned. Z.div_mod_to_equations. lia. Qed.

Section Refinement.
Context {F : Type} `{L : SpiFlashLaws F}.
Implicit Types (f : F).

Lemma length_flash_range f a n : length (flash_range f a n) = Z.to_nat n.
Proof. unfold flash_range. by rewrite length_fmap, length_seqZ. Qed.

Lemma flash_range_getb f a n i :
  0 <= i < n -> getb (flash_range f a n) i = flash_byte f (a + i).
Proof.
  intros Hi. unfold flash_range. rewrite <- (Z2Nat.id i) at 1 by lia.
  apply lookup_getb. rewrite list_lookup_fmap, lookup_seqZ_lt by lia.
  simpl. do 2 f_equal. lia.
Qed.

Lemma flash_range_app f a n m :
  0 <= n -> 0 <= m -> flash_range f a (n + m) = flash_range f a n ++ flash_range f (a + n) m.
Proof. intros. unfold flash_range. by rewrite seqZ_app, fmap_app by lia. Qed.

Lemma flash_range_ext f f' a n :
  (forall x, flash_byte f' x = flash_byte f x) -> flash_range f' a n = flash_range f a n.
Proof. intros E. unfold flash_range. apply list_fmap_ext. intros ? ? _. apply E. Qed.

(** *** Programming composes *)

Lemma programmed_nil f a f' :
  (forall x, flash_byte f' x = flash_byte f x) ->
  (forall x m, accepts f x m -> accepts f' x m) -> programmed f a [] f'.
Proof.
  intros E A. split; [|done]. intros x. change (zlen (A:=Z) []) with 0.
  replace ((a <=? x) && (x <? a + 0)) with false; [apply E|].
  symmetry. apply andb_false_iff. destruct (Z.leb_spec a x); [right; apply Z.ltb_ge; lia|by left].
Qed.

Lemma programmed_ext f f1 a d f' :
  (forall x, flash_byte f1 x = flash_byte f x) ->
  (forall x m, accepts f x m -> accepts f1 x m) ->
  programmed f1 a d f' -> programmed f a d f'.
Proof.
  intros E A [P1 P2]. split; [|auto]. intros x. rewrite P1, E. done.
Qed.

Lemma programmed_app f a d1 f1 d2 f2 :
  programmed f a d1 f1 -> programmed f1 (a + zlen d1) d2 f2 -> programmed f a (d1 ++ d2) f2.
Proof.
  intros [P1 A1] [P2 A2]. split; [|auto]. intros x. rewrite P2, P1, zlen_app.
  pose proof (zlen_nonneg d1). pose proof (zlen_nonneg d2).
  destruct (Z.leb_spec a x); destruct (Z.ltb_spec x (a + zlen d1));
    destruct (Z.leb_spec (a + zlen d1) x); destruct (Z.ltb_spec x (a + zlen d1 + zlen d2));
    destruct (Z.ltb_spec x (a + (zlen d1 + zlen d2))); simpl; try lia; try done.
  - by rewrite getb_app_l by lia.
  - rewrite getb_app_r by lia. do 2 f_equal. lia.
Qed.

(** Padding a write with the bytes already there programs only the middle. *)
Lemma programmed_pad f a pre d post f' :
  pre = flash_range f a (zlen pre) ->
  post = flash_range f (a + zlen pre + zlen d) (zlen post) ->
  programmed f a (pre ++ d ++ post) f' -> programmed f (a + zlen pre) d f'.
Proof.
  intros Hpre Hpost [P A]. split; [|done]. intros x. rewrite P, !zlen_app.
  pose proof (zlen_nonneg pre). pose proof (zlen_nonneg d). pose proof (zlen_nonneg post).
  destruct (Z.leb_spec a x); destruct (Z.ltb_spec x (a + (zlen pre + (zlen d + zlen post))));
    destruct (Z.leb_spec (a + zlen pre) x); destruct (Z.ltb_spec x (a + zlen pre + zlen d));
    simpl; try lia; try done.
  - rewrite getb_app_r, getb_app_l by lia. do 2 f_equal. lia.
  - rewrite !getb_app_r by lia. rewrite Hpost, flash_range_getb by lia.
    replace (a + zlen pre + zlen d + (x - a - zlen pre - zlen d)) with x by lia.
    apply program_same.
  - rewrite getb_app_l by lia. rewrite Hpre, flash_range_getb by lia.
    replace (a + (x - a)) with x by lia. apply program_same.
Qed.

(** *** The aligned primitives never trip their assertion *)

Lemma wp_write_internal f from data toaddr size (Q : Z -> F -> Prop) :
  word_aligned from -> word_aligned toaddr -> word_aligned size ->
  0 <= size <= zlen data -> accepts f toaddr size ->
  (forall f', programmed f toaddr (take (Z.to_nat size) data) f' -> Q size f') ->
  wp (flashmem_write_internal from data toaddr size) Q f.
Proof.
  intros Ha1 Ha2 Ha3 Hsz Hacc HQ. unfold flashmem_write_internal.
  rewrite !(proj2 (IS_ALIGNED_spec _)) by done. simpl.
  assert (zlen (take (Z.to_nat size) data) = size) as Hl.
  { unfold zlen in *. rewrite length_take. lia. }
  wp_step. eapply wp_mono.
  { apply spi_flash_write_law; rewrite ?Hl; done. }
  intros r f' (-> & HP & HA). apply wp_ret, HQ. split; done.
Qed.

Lemma wp_read_internal f to buf fromaddr size (Q : Z * list Z -> F -> Prop) :
  word_aligned to -> word_aligned fromaddr -> word_aligned size ->
  0 <= size -> accepts f fromaddr size ->
  (forall f', (forall x, flash_byte f' x = flash_byte f x) ->
     (forall x m, accepts f x m -> accepts f' x m) ->
     Q (size, splice buf 0 (flash_range f fromaddr size)) f') ->
  wp (flashmem_read_internal to buf fromaddr size) Q f.
Proof.
  intros Ha1 Ha2 Ha3 Hsz Hacc HQ. unfold flashmem_read_internal.
  rewrite !(proj2 (IS_ALIGNED_spec _)) by done. simpl.
  wp_step. eapply wp_mono; [by apply spi_flash_read_law|].
  intros [r bytes] f' (-> & -> & E & A). simpl. by apply wp_ret, HQ.
Qed.

(** *** The byte loops are copies *)

Lemma wp_overlay f from tmp rest pfrom remain (Q : list Z * Z * Z * Z -> F -> Prop) :
  0 <= rest <= 4 -> 0 <= remain -> 0 <= pfrom -> pfrom + remain <= zlen from ->
  (4 <= length tmp)%nat ->
  (let k := Z.min remain (4 - rest) in
   Q (splice tmp (Z.to_nat rest) (slice from (Z.to_nat pfrom) (Z.to_nat k)),
      rest + k, pfrom + k, remain - k) f) ->
  wp (overlay from (tmp, rest, pfrom, remain)) Q f.
Proof.
  intros Hr Hm Hp Hlen Htmp HQ.
  apply wp_loop with
    (Inv := fun '(t, r, p, m) s => s = f /\ exists k, 0 <= k <= Z.min remain (4 - rest) /\
       t = splice tmp (Z.to_nat rest) (slice from (Z.to_nat pfrom) (Z.to_nat k)) /\
       r = rest + k /\ p = pfrom + k /\ m = remain - k)
    (measure := fun '(_, r, _, _) _ => Z.to_nat (4 - r)).
  - intros [[[t r] p] m] s (-> & k & Hk & -> & -> & -> & ->). unfold overlay_body.
    change INTERNAL_FLASH_WRITE_UNIT_SIZE with 4.
    destruct (nz (remain - k)) eqn:E1; [apply nz_true in E1|apply nz_false in E1];
      [destruct (Z.ltb_spec (rest + k) 4)|]; simpl; apply wp_ret.
    + split; [|lia]. split; [done|]. exists (k + 1). split; [lia|].
      split; [|repeat split; lia].
      assert (length (slice from (Z.to_nat pfrom) (Z.to_nat k)) = Z.to_nat k) as Hs.
      { rewrite length_slice. unfold zlen in *. lia. }
      replace (Z.to_nat (k + 1)) with (S (Z.to_nat k)) by lia.
      rewrite slice_snoc by (unfold zlen in *; lia).
      rewrite <- splice_snoc by lia.
      rewrite Hs. do 3 f_equal; lia.
    + replace k with (Z.min remain (4 - rest)) by lia. exact HQ.
    + replace k with (Z.min remain (4 - rest)) by lia. exact HQ.
  - split; [done|]. exists 0. split; [lia|]. unfold slice at 1. simpl. rewrite splice_nil.
    repeat split; lia.
  - change (Z.to_nat INTERNAL_FLASH_WRITE_UNIT_SIZE) with 4%nat. lia.
Qed.

Lemma wp_unlay f tmp to rest pto remain (Q : list Z * Z * Z * Z -> F -> Prop) :
  0 <= rest <= 4 -> 0 <= remain -> 0 <= pto -> pto + remain <= zlen to ->
  (4 <= length tmp)%nat ->
  (let k := Z.min remain (4 - rest) in
   Q (splice to (Z.to_nat pto) (slice tmp (Z.to_nat rest) (Z.to_nat k)),
      rest + k, pto + k, remain - k) f) ->
  wp (unlay tmp (to, rest, pto, remain)) Q f.
Proof.
  intros Hr Hm Hp Hlen Htmp HQ.
  apply wp_loop with
    (Inv := fun '(t, r, p, m) s => s = f /\ exists k, 0 <= k <= Z.min remain (4 - rest) /\
       t = splice to (Z.to_nat pto) (slice tmp (Z.to_nat rest) (Z.to_nat k)) /\
       r = rest + k /\ p = pto + k /\ m = remain - k)
    (measure := fun '(_, r, _, _) _ => Z.to_nat (4 - r)).
  - intros [[[t r] p] m] s (-> & k & Hk & -> & -> & -> & ->). unfold unlay_body.
    change INTERNAL_FLASH_READ_UNIT_SIZE with 4.
    destruct (nz (remain - k)) eqn:E1; [apply nz_true in E1|apply nz_false in E1];
      [destruct (Z.ltb_spec (rest + k) 4)|]; simpl; apply wp_ret.
    + split; [|lia]. split; [done|]. exists (k + 1). split; [lia|].
      split; [|repeat split; lia].
      assert (length (slice tmp (Z.to_nat rest) (Z.to_nat k)) = Z.to_nat k) as Hs.
      { rewrite length_slice. lia. }
      replace (Z.to_nat (k + 1)) with (S (Z.to_nat k)) by lia.
      rewrite slice_snoc by lia.
      rewrite <- splice_snoc by (unfold zlen in *; lia).
      rewrite Hs. do 3 f_equal; lia.
    + replace k with (Z.min remain (4 - rest)) by lia. exact HQ.
    + replace k with (Z.min remain (4 - rest)) by lia. exact HQ.
  - split; [done|]. exists 0. split; [lia|]. unfold slice at 1. simpl. rewrite splice_nil.
    repeat split; lia.
  - change (Z.to_nat INTERNAL_FLASH_READ_UNIT_SIZE) with 4%nat. lia.
Qed.

(** *** The block loops *)

Lemma min_u32_spec a b : min_u32 a b = Z.min a b.
Proof. unfold min_u32. destruct (Z.ltb_spec a b); lia. Qed.

(** The length of the local buffer is fixed. *)
Definition tmp_ok (tmp : list Z) : Prop := length tmp = 128%nat.

Lemma splice_tmp_ok tmp d : tmp_ok tmp -> (length d <= 128)%nat -> tmp_ok (splice tmp 0 d).
Proof. unfold tmp_ok. intros. rewrite length_splice; lia. Qed.

Lemma slice_take_splice (tmp from : list Z) off n :
  (off + n <= length from)%nat -> take n (splice tmp 0 (slice from off n)) = slice from off n.
Proof.
  intros. replace n with (length (slice from off n)) at 1; [apply take_splice_0|].
  rewrite length_slice. lia.
Qed.

Lemma zlen_slice (l : list Z) p n :
  0 <= p -> 0 <= n -> p + n <= zlen l -> zlen (slice l (Z.to_nat p) (Z.to_nat n)) = n.
Proof. intros. unfold zlen in *. rewrite length_slice. lia. Qed.

Context (tmpdata_addr : Z) (Htmp_addr : word_aligned tmpdata_addr).

Lemma wp_write_blocks f from size tmp p0 r0 t0 Q :
  word_aligned r0 -> word_aligned t0 -> 0 <= r0 <= size -> 0 <= t0 -> t0 + r0 < 2 ^ 32 ->
  0 <= p0 -> p0 + r0 <= zlen from -> tmp_ok tmp -> accepts f t0 r0 ->
  (forall tmp' f', tmp_ok tmp' ->
     programmed f t0 (slice from (Z.to_nat p0) (Z.to_nat r0)) f' ->
     Q (inr (tmp', p0 + r0, 0, t0 + r0)) f') ->
  wp (write_blocks tmpdata_addr from size (tmp, p0, r0, t0)) Q f.
Proof.
  intros Hr Ht Hr0 Ht0 Hw Hp0 Hlen Htmp Hacc HQ.
  apply wp_loop with
    (Inv := fun '(tmp, p, r, t) s => tmp_ok tmp /\ exists k, 0 <= k <= r0 /\ word_aligned k /\
       p = p0 + k /\ r = r0 - k /\ t = t0 + k /\
       programmed f t0 (slice from (Z.to_nat p0) (Z.to_nat k)) s)
    (measure := fun '(_, _, r, _) _ => Z.to_nat r).
  - intros [[[t p] r] a] s (Htk & k & Hk & Hka & -> & -> & -> & HP). unfold write_blocks_body.
    destruct (nz (r0 - k)) eqn:E; [apply nz_true in E|apply nz_false in E].
    2: { apply wp_ret. replace k with r0 in * by lia.
         replace (r0 - r0) with 0 by lia. by apply HQ. }
    rewrite min_u32_spec. change sizeof_tmpdata with 128.
    set (c := Z.min (r0 - k) 128).
    assert (word_aligned c) as Hc.
    { unfold word_aligned in *. subst c. destruct (Z.min_spec (r0 - k) 128) as [[_ ->]|[_ ->]];
        [|done]. Z.div_mod_to_equations. lia. }
    wp_step. apply wp_write_internal; try done.
    + unfold word_aligned in *. Z.div_mod_to_equations. lia.
    + unfold zlen. rewrite length_splice; rewrite ?length_slice; unfold tmp_ok in *; lia.
    + apply HP. eapply accepts_sub; [exact Hacc|lia..].
    + intros s' HP'. rewrite Z.eqb_refl. simpl. apply wp_ret.
      rewrite !u32_small by (unfold is_u32; lia). split; [|lia].
      split. { apply splice_tmp_ok; [done|]. rewrite length_slice. lia. }
      exists (k + c). split; [lia|]. split.
      { unfold word_aligned in *. Z.div_mod_to_equations. lia. }
      do 3 (split; [lia|]).
      rewrite slice_take_splice in HP' by (unfold zlen in *; lia).
      replace (Z.to_nat (k + c)) with (Z.to_nat k + Z.to_nat c)%nat by lia.
      rewrite slice_app. eapply programmed_app; [exact HP|].
      rewrite zlen_slice by lia.
      by replace (Z.to_nat p0 + Z.to_nat k)%nat with (Z.to_nat (p0 + k)) by lia.
  - split; [done|]. exists 0. repeat split; try lia; try done.
    unfold slice. simpl. by apply programmed_nil.
  - lia.
Qed.

Lemma wp_read_blocks f size tmp to p0 r0 t0 Q :
  word_aligned r0 -> word_aligned t0 -> 0 <= r0 <= size -> 0 <= t0 -> t0 + r0 < 2 ^ 32 ->
  0 <= p0 -> p0 + r0 <= zlen to -> tmp_ok tmp -> accepts f t0 r0 ->
  (forall tmp' f', tmp_ok tmp' ->
     (forall x, flash_byte f' x = flash_byte f x) ->
     (forall x m, accepts f x m -> accepts f' x m) ->
     Q (inr (tmp', splice to (Z.to_nat p0) (flash_range f t0 r0), p0 + r0, 0, t0 + r0)) f') ->
  wp (read_blocks tmpdata_addr size (tmp, to, p0, r0, t0)) Q f.
Proof.
  intros Hr Ht Hr0 Ht0 Hw Hp0 Hlen Htmp Hacc HQ.
  apply wp_loop with
    (Inv := fun '(tmp, b, p, r, t) s => tmp_ok tmp /\ exists k, 0 <= k <= r0 /\ word_aligned k /\
       p = p0 + k /\ r = r0 - k /\ t = t0 + k /\
       b = splice to (Z.to_nat p0) (flash_range f t0 k) /\
       (forall x, flash_byte s x = flash_byte f x) /\
       (forall x m, accepts f x m -> accepts s x m))
    (measure := fun '(_, _, _, r, _) _ => Z.to_nat r).
  - intros [[[[t b] p] r] a] s (Htk & k & Hk & Hka & -> & -> & -> & -> & HE & HA).
    unfold read_blocks_body.
    destruct (nz (r0 - k)) eqn:E; [apply nz_true in E|apply nz_false in E].
    2: { apply wp_ret. replace k with r0 in * by lia.
         replace (r0 - r0) with 0 by lia. by apply HQ. }
    rewrite min_u32_spec. change sizeof_tmpdata with 128.
    set (c := Z.min (r0 - k) 128).
    assert (word_aligned c) as Hc.
    { unfold word_aligned in *. subst c. destruct (Z.min_spec (r0 - k) 128) as [[_ ->]|[_ ->]];
        [|done]. Z.div_mod_to_equations. lia. }
    wp_step. apply wp_read_internal; try done.
    + unfold word_aligned in *. Z.div_mod_to_equations. lia.
    + lia.
    + apply HA. eapply accepts_sub; [exact Hacc|lia..].
    + intros s' HE' HA'. rewrite Z.eqb_refl. simpl. apply wp_ret.
      rewrite !u32_small by (unfold is_u32; lia). split; [|lia].
      split. { apply splice_tmp_ok; [done|]. rewrite length_flash_range. lia. }
      exists (k + c). split; [lia|]. split.
      { unfold word_aligned in *. Z.div_mod_to_equations. lia. }
      repeat split; try lia; try (by intros; rewrite HE'); [|by eauto].
      rewrite flash_range_app by lia. rewrite <- splice_splice_adj
        by (rewrite !length_flash_range; unfold zlen in *; lia).
      rewrite length_flash_range. f_equal; [lia|].
      rewrite (flash_range_ext f s) by done. unfold slice. rewrite drop_0.
      replace (Z.to_nat c) with (length (flash_range f (t0 + k) c))
        by (by rewrite length_flash_range). apply take_splice_0.
  - split; [done|]. exists 0. repeat split; try lia; try done.
    unfold flash_range. change (seqZ t0 0) with (@nil Z). simpl. by rewrite splice_nil.
  - lia.
Qed.

(** *** The trailing part *)

Lemma take_splice_short (l d : list Z) n :
  (length d <= n <= length l)%nat -> take n (splice l 0 d) = d ++ drop (length d) (take n l).
Proof.
  intros. unfold splice. rewrite take_0. simpl.
  rewrite take_app_ge by lia. f_equal. by rewrite skipn_firstn_comm.
Qed.

Lemma drop_flash_range f a n k :
  (Z.of_nat k <= n) -> drop k (flash_range f a n) = flash_range f (a + Z.of_nat k) (n - Z.of_nat k).
Proof.
  intros. replace n with (Z.of_nat k + (n - Z.of_nat k)) at 1 by lia.
  rewrite flash_range_app by lia. rewrite drop_app_length'; [done|].
  rewrite length_flash_range. lia.
Qed.

Lemma wp_write_tail f from size tmp p0 r t0 (Q : Z -> F -> Prop) :
  word_aligned t0 -> 0 <= t0 -> 0 <= r <= size -> t0 + r + 4 < 2 ^ 32 ->
  0 <= p0 -> p0 + r <= zlen from -> tmp_ok tmp -> accepts f t0 ((r + 3) / 4 * 4) ->
  (forall f', programmed f t0 (slice from (Z.to_nat p0) (Z.to_nat r)) f' -> Q size f') ->
  wp (flashmem_write_tail tmpdata_addr from size (tmp, p0, r, t0)) Q f.
Proof.
  intros Ht Ht0 Hr Hw Hp Hlen Htmp Hacc HQ. unfold flashmem_write_tail.
  change (INTERNAL_FLASH_WRITE_UNIT_SIZE - 1) with 3.
  change INTERNAL_FLASH_WRITE_UNIT_SIZE with 4.
  rewrite land_3, and_not_3. set (q := r mod 4).
  assert (0 <= q < 4) by (apply Z.mod_pos_bound; lia).
  assert (q <= r) by (unfold q; Z.div_mod_to_equations; lia).
  wp_step. apply wp_write_blocks; try done; try lia; [apply word_aligned_hull| |].
  { eapply accepts_sub; [exact Hacc|lia| |]; unfold q; Z.div_mod_to_equations; lia. }
  intros tmp1 f1 Htmp1 HP1. destruct (nz q) eqn:Eq; [apply nz_true in Eq|apply nz_false in Eq].
  2: { apply wp_ret, HQ. by replace (r - q) with r in HP1 by lia. }
  assert (word_aligned (t0 + (r - q))) as Hal.
  { pose proof (word_aligned_hull r). unfold word_aligned, q in *. Z.div_mod_to_equations. lia. }
  assert (accepts f1 (t0 + (r - q)) 4) as Hacc1.
  { apply HP1. eapply accepts_sub; [exact Hacc|lia..|]. unfold q in *. Z.div_mod_to_equations. lia. }
  wp_step. apply wp_read_internal; try done; try lia.
  intros f2 HE2 HA2. simpl. wp_step. apply wp_write_internal; try done; try lia.
  { unfold zlen. rewrite (splice_tmp_ok (splice tmp1 0 _)); [lia| |rewrite length_slice; lia].
    apply splice_tmp_ok; [done|]. rewrite length_flash_range. lia. }
  { by apply HA2. }
  intros f3 HP3. simpl. apply wp_ret, HQ.
  replace (Z.to_nat r) with (Z.to_nat (r - q) + Z.to_nat q)%nat by lia.
  rewrite slice_app. eapply programmed_app; [exact HP1|]. rewrite zlen_slice by lia.
  eapply programmed_ext; [exact HE2|exact HA2|].
  replace (Z.to_nat p0 + Z.to_nat (r - q))%nat with (Z.to_nat (p0 + (r - q))) by lia.
  set (d := slice from (Z.to_nat (p0 + (r - q))) (Z.to_nat q)) in *.
  assert (zlen d = q) as Hd by (apply zlen_slice; lia).
  change (Z.to_nat 4) with 4%nat in HP3.
  rewrite take_splice_short in HP3.
  2: { rewrite (splice_tmp_ok tmp1); [|done|rewrite length_flash_range; lia].
       unfold zlen in *. lia. }
  rewrite <- (app_nil_l (_ ++ _)) in HP3.
  replace (t0 + (r - q)) with (t0 + (r - q) + zlen (A:=Z) []) by (unfold zlen; simpl; lia).
  assert (take 4 (splice tmp1 0 (flash_range f1 (t0 + (r - q)) 4)) = flash_range f1 (t0 + (r - q)) 4)
    as Et.
  { replace 4%nat with (length (flash_range f1 (t0 + (r - q)) 4)) at 1
      by (by rewrite length_flash_range). apply take_splice_0. }
  rewrite Et in HP3. clear Et.
  eapply programmed_pad; [| |exact HP3].
  - done.
  - rewrite drop_flash_range by (unfold zlen in *; lia).
    rewrite (flash_range_ext f1 f2) by done. unfold zlen in *. rewrite length_flash_range. simpl.
    f_equal; lia.
Qed.

Lemma wp_read_tail f size tmp to p0 r t0 (Q : Z * list Z -> F -> Prop) :
  word_aligned t0 -> 0 <= t0 -> 0 <= r <= size -> t0 + r + 4 < 2 ^ 32 ->
  0 <= p0 -> p0 + r <= zlen to -> tmp_ok tmp -> accepts f t0 ((r + 3) / 4 * 4) ->
  (forall f', (forall x, flash_byte f' x = flash_byte f x) ->
     Q (size, splice to (Z.to_nat p0) (flash_range f t0 r)) f') ->
  wp (flashmem_read_tail tmpdata_addr size (tmp, to, p0, r, t0)) Q f.
Proof.
  intros Ht Ht0 Hr Hw Hp Hlen Htmp Hacc HQ. unfold flashmem_read_tail.
  change (INTERNAL_FLASH_READ_UNIT_SIZE - 1) with 3.
  change INTERNAL_FLASH_READ_UNIT_SIZE with 4.
  rewrite land_3, and_not_3. set (q := r mod 4).
  assert (0 <= q < 4) by (apply Z.mod_pos_bound; lia).
  assert (q <= r) by (unfold q; Z.div_mod_to_equations; lia).
  wp_step. apply wp_read_blocks; try done; try lia; [apply word_aligned_hull| |].
  { eapply accepts_sub; [exact Hacc|lia| |]; unfold q; Z.div_mod_to_equations; lia. }
  intros tmp1 f1 Htmp1 HE1 HA1.
  destruct (nz q) eqn:Eq; [apply nz_true in Eq|apply nz_false in Eq].
  2: { apply wp_ret. replace (r - q) with r by lia. by apply HQ. }
  assert (word_aligned (t0 + (r - q))) as Hal.
  { pose proof (word_aligned_hull r). unfold word_aligned, q in *. Z.div_mod_to_equations. lia. }
  wp_step. apply wp_read_internal; try done; try lia.
  { apply HA1. eapply accepts_sub; [exact Hacc|lia..|]. unfold q in *. Z.div_mod_to_equations. lia. }
  intros f2 HE2 HA2. simpl. apply wp_ret.
  replace (splice (splice _ _ _) _ _) with (splice to (Z.to_nat p0) (flash_range f t0 r)).
  { apply HQ. intros. by rewrite HE2. }
  replace r with ((r - q) + q) at 1 by lia. rewrite flash_range_app by lia.
  rewrite <- splice_splice_adj by (rewrite !length_flash_range; unfold zlen in *; lia).
  rewrite length_flash_range. f_equal; [lia|].
  rewrite (flash_range_ext f f1) by done. unfold slice. rewrite drop_0.
  replace 4 with (q + (4 - q)) by lia. rewrite flash_range_app by lia.
  replace (Z.to_nat q) with (length (flash_range f (t0 + (r - q)) q))
    by (by rewrite length_flash_range).
  unfold splice. rewrite take_0. simpl. rewrite <- app_assoc. by rewrite take_app_length.
Qed.

Lemma tmpdata_init_ok : tmp_ok tmpdata_init.
Proof. done. Qed.

Lemma splice_app_l (l r d : list Z) off :
  (off + length d <= length l)%nat -> splice (l ++ r) off d = splice l off d ++ r.
Proof.
  intros. unfold splice. rewrite take_app_le by lia. rewrite drop_app_le by lia.
  by rewrite <- !app_assoc.
Qed.

Lemma take_splice_splice (i old d : list Z) off n :
  length old = n -> (off + length d <= n)%nat ->
  take n (splice (splice i 0 old) off d) = splice old off d.
Proof.
  intros Hn Hd. unfold splice at 2. rewrite take_0. simpl.
  rewrite splice_app_l by lia. rewrite take_app_le by (rewrite length_splice; lia).
  apply take_ge. rewrite length_splice; lia.
Qed.

(** One read-modify-write of the word holding [a] programs just the new bytes. *)
Lemma programmed_word f a q d f' :
  0 <= q -> q + zlen d <= 4 ->
  programmed f a (splice (flash_range f a 4) (Z.to_nat q) d) f' -> programmed f (a + q) d f'.
Proof.
  intros Hq Hd HP. pose proof (zlen_nonneg d). unfold splice in HP.
  assert (zlen (take (Z.to_nat q) (flash_range f a 4)) = q) as Hz.
  { unfold zlen. rewrite length_take, length_flash_range. lia. }
  rewrite <- Hz at 1. eapply programmed_pad; [| |exact HP].
  - rewrite Hz. replace 4 with (q + (4 - q)) by lia. rewrite flash_range_app by lia.
    rewrite take_app_length'; [done|]. rewrite length_flash_range. lia.
  - rewrite Hz. rewrite drop_flash_range by (unfold zlen in *; lia).
    unfold zlen in *. rewrite length_flash_range. f_equal; lia.
Qed.

(** *** The two entry points, under [wp] *)

Lemma wp_flashmem_write f from_addr from toaddr size (Q : Z -> F -> Prop) :
  0 <= toaddr -> 0 <= size <= zlen from -> toaddr + size + 8 < 2 ^ 32 ->
  accepts f (hull_start toaddr) (hull_size toaddr size) ->
  (forall f', programmed f toaddr (take (Z.to_nat size) from) f' -> Q size f') ->
  wp (flashmem_write tmpdata_addr from_addr from toaddr size) Q f.
Proof.
  intros Ht Hs Hw Hacc HQ. unfold flashmem_write, hull_size, hull_start in *.
  pose proof (word_aligned_hull toaddr) as Hal.
  assert (0 <= toaddr mod 4 < 4) by (apply Z.mod_pos_bound; lia).
  destruct (IS_ALIGNED from_addr && IS_ALIGNED toaddr && IS_ALIGNED size) eqn:E.
  { rewrite !andb_true_iff, !IS_ALIGNED_spec in E. destruct E as [[? ?] ?].
    apply wp_write_internal; try done.
    eapply accepts_sub; [exact Hacc|lia..|]. unfold word_aligned in *. Z.div_mod_to_equations. lia. }
  change (INTERNAL_FLASH_WRITE_UNIT_SIZE - 1) with 3.
  change INTERNAL_FLASH_WRITE_UNIT_SIZE with 4.
  rewrite land_3, and_not_3. set (q := toaddr mod 4) in *.
  destruct (nz q) eqn:Eq; [apply nz_true in Eq|apply nz_false in Eq].
  2: { assert (toaddr mod 4 = 0) as Hq0 by exact Eq. clearbody q. subst q. rewrite Z.sub_0_r in *.
       pose proof tmpdata_init_ok. apply wp_write_tail; try done; try lia.
       eapply accepts_sub; [exact Hacc|lia..| |]; Z.div_mod_to_equations; lia. }
  assert (accepts f (toaddr - q) 4) as Hacc4.
  { eapply accepts_sub; [exact Hacc|lia..|]. unfold q. Z.div_mod_to_equations. lia. }
  wp_step. apply wp_read_internal; try done; try lia.
  intros f1 HE1 HA1. simpl.
  set (old := flash_range f (toaddr - q) 4).
  assert (length old = 4%nat) as Hold by (unfold old; by rewrite length_flash_range).
  assert (tmp_ok (splice tmpdata_init 0 old)) as Htmp.
  { apply splice_tmp_ok; [done|]. lia. }
  wp_step. apply wp_overlay; try lia; [unfold tmp_ok in *; lia|].
  set (k := Z.min size (4 - q)). simpl. change (Z.to_nat 0) with 0%nat.
  set (d := slice from 0 (Z.to_nat k)).
  assert (zlen d = k) as Hd by (apply (zlen_slice from 0); lia).
  assert (tmp_ok (splice (splice tmpdata_init 0 old) (Z.to_nat q) d)) as Htmp1.
  { unfold tmp_ok in *. rewrite length_splice; unfold zlen in *; lia. }
  wp_step. apply wp_write_internal; try done; try lia.
  { unfold zlen. rewrite Htmp1. lia. }
  { by apply HA1. }
  intros f2 HP2. simpl. change (Z.to_nat 4) with 4%nat in HP2.
  rewrite take_splice_splice in HP2 by (unfold zlen in *; lia).
  apply (programmed_ext f) in HP2; [|done|done].
  apply programmed_word in HP2; [|lia|lia].
  replace (toaddr - q + q) with toaddr in HP2 by lia.
  destruct (Z.eqb_spec (size - k) 0) as [Ek|Ek].
  { apply wp_ret, HQ. unfold d, slice in HP2. rewrite drop_0 in HP2.
    by replace k with size in HP2 by lia. }
  assert (k = 4 - q) as Hk by lia.
  rewrite u32_small by (unfold is_u32; lia).
  apply wp_write_tail; try done; try lia.
  { unfold word_aligned in *. Z.div_mod_to_equations. lia. }
  { apply HP2. eapply accepts_sub; [exact Hacc|lia| |]; unfold q in *; Z.div_mod_to_equations; lia. }
  intros f3 HP3. apply HQ.
  replace (take (Z.to_nat size) from) with (d ++ slice from (Z.to_nat k) (Z.to_nat (size - k))).
  2: { replace (Z.to_nat size) with (Z.to_nat k + Z.to_nat (size - k))%nat by lia.
       change (take (Z.to_nat k + Z.to_nat (size - k)) from)
         with (slice from 0 (Z.to_nat k + Z.to_nat (size - k))). by rewrite slice_app. }
  eapply programmed_app; [exact HP2|]. rewrite Hd.
  by replace (toaddr + k) with (toaddr - q + 4) by lia.
Qed.

Lemma wp_flashmem_read f to_addr to fromaddr size (Q : Z * list Z -> F -> Prop) :
  0 <= fromaddr -> 0 <= size <= zlen to -> fromaddr + size + 8 < 2 ^ 32 ->
  accepts f (hull_start fromaddr) (hull_size fromaddr size) ->
  (forall f', (forall x, flash_byte f' x = flash_byte f x) ->
     Q (size, splice to 0 (flash_range f fromaddr size)) f') ->
  wp (flashmem_read tmpdata_addr to_addr to fromaddr size) Q f.
Proof.
  intros Ht Hs Hw Hacc HQ. unfold flashmem_read, hull_size, hull_start in *.
  pose proof (word_aligned_hull fromaddr) as Hal.
  assert (0 <= fromaddr mod 4 < 4) by (apply Z.mod_pos_bound; lia).
  destruct (IS_ALIGNED to_addr && IS_ALIGNED fromaddr && IS_ALIGNED size) eqn:E.
  { rewrite !andb_true_iff, !IS_ALIGNED_spec in E. destruct E as [[? ?] ?].
    apply wp_read_internal; try done; [lia| |by eauto].
    eapply accepts_sub; [exact Hacc|lia..|]. unfold word_aligned in *. Z.div_mod_to_equations. lia. }
  change (INTERNAL_FLASH_READ_UNIT_SIZE - 1) with 3.
  change INTERNAL_FLASH_READ_UNIT_SIZE with 4.
  rewrite land_3, and_not_3. set (q := fromaddr mod 4) in *.
  pose proof tmpdata_init_ok.
  destruct (nz q) eqn:Eq; [apply nz_true in Eq|apply nz_false in Eq].
  2: { assert (fromaddr mod 4 = 0) as Hq0 by exact Eq. clearbody q. subst q. rewrite Z.sub_0_r in *.
       apply wp_read_tail; try done; try lia.
       eapply accepts_sub; [exact Hacc|lia..| |]; Z.div_mod_to_equations; lia. }
  wp_step. apply wp_read_internal; try done; try lia.
  { eapply accepts_sub; [exact Hacc|lia..|]. unfold q. Z.div_mod_to_equations. lia. }
  intros f1 HE1 HA1. simpl.
  set (tmp := splice tmpdata_init 0 (flash_range f (fromaddr - q) 4)).
  assert (tmp_ok tmp) as Htmp.
  { apply splice_tmp_ok; [done|]. rewrite length_flash_range. lia. }
  wp_step. apply wp_unlay; try lia; [unfold tmp_ok in *; lia|].
  set (k := Z.min size (4 - q)). simpl. change (Z.to_nat 0) with 0%nat.
  assert (slice tmp (Z.to_nat q) (Z.to_nat k) = flash_range f fromaddr k) as ->.
  { unfold tmp, splice. rewrite take_0, app_nil_l.
    replace 4 with (q + k + (4 - q - k)) at 1 by lia. rewrite !flash_range_app by lia.
    rewrite <- !app_assoc. unfold slice.
    rewrite drop_app_length' by (rewrite length_flash_range; lia).
    rewrite take_app_length' by (rewrite length_flash_range; lia). f_equal. lia. }
  destruct (Z.eqb_spec (size - k) 0) as [Ek|Ek].
  { apply wp_ret. replace k with size by lia. by apply HQ. }
  assert (k = 4 - q) as Hk by lia.
  rewrite u32_small by (unfold is_u32; lia).
  apply wp_read_tail; try done; try lia.
  { unfold word_aligned in *. Z.div_mod_to_equations. lia. }
  { unfold zlen in *. rewrite length_splice; rewrite ?length_flash_range; lia. }
  { apply HA1. eapply accepts_sub; [exact Hacc|lia| |]; unfold q in *; Z.div_mod_to_equations; lia. }
  intros f3 HE3.
  replace (splice (splice _ _ _) _ _) with (splice to 0 (flash_range f fromaddr size)).
  { apply HQ. intros. by rewrite HE3. }
  replace size with (k + (size - k)) at 1 by lia. rewrite flash_range_app by lia.
  rewrite <- splice_splice_adj by (rewrite !length_flash_range; unfold zlen in *; lia).
  rewrite length_flash_range. simpl. f_equal. rewrite (flash_range_ext f f1) by done. f_equal. lia.
Qed.
End Refinement.

(** ** The concrete chip satisfies the laws *)

Lemma chip_ok_spec (c : chip) a n :
  chip_ok c a n = true <->
  0 <= a /\ a + n <= zlen (cells c) /\ forall x, a <= x < a + n -> bad c x = false.
Proof.
  unfold chip_ok. rewrite !andb_true_iff, Z.leb_le, Z.leb_le, forallb_forall. split.
  - intros [[? ?] Hb]. repeat split; try done. intros x Hx.
    apply negb_true_iff, Hb, list_elem_of_In, elem_of_seqZ. lia.
  - intros (? & ? & Hb). repeat split; try done. intros x Hx.
    apply list_elem_of_In, elem_of_seqZ in Hx. rewrite Hb; [done|lia].
Qed.

Definition chip_byte (c : chip) (x : Z) : Z := if x <? 0 then 0 else getb (cells c) x.

Lemma chip_byte_splice c a d x :
  0 <= a -> a + zlen d <= zlen (cells c) ->
  chip_byte {| cells := splice (cells c) (Z.to_nat a) d; bad := bad c |} x =
  if (a <=? x) && (x <? a + zlen d) then getb d (x - a) else chip_byte c x.
Proof.
  intros Ha Hl. unfold chip_byte. simpl. destruct (Z.ltb_spec x 0).
  { destruct (Z.leb_spec a x); [lia|done]. }
  unfold splice. unfold zlen in *.
  assert (zlen (take (Z.to_nat a) (cells c)) = a) as Hz by (unfold zlen; rewrite length_take; lia).
  destruct (Z.leb_spec a x); simpl.
  - rewrite getb_app_r by lia. rewrite Hz. destruct (Z.ltb_spec x (a + Z.of_nat (length d))).
    + rewrite getb_app_l by (unfold zlen; lia). done.
    + rewrite getb_app_r by (unfold zlen; lia). unfold getb, zlen. rewrite nth_skipn. f_equal. lia.
  - rewrite getb_app_l by lia. unfold getb. rewrite nth_firstn. destruct (Nat.ltb_spec (Z.to_nat x) (Z.to_nat a)); [done|lia].
Qed.

Lemma chip_ok_len c c' a n :
  length (cells c') = length (cells c) -> bad c' = bad c -> chip_ok c a n = true -> chip_ok c' a n = true.
Proof. intros E1 E2. unfold chip_ok, zlen. by rewrite E1, E2. Qed.

Lemma slice_chip_range c a n :
  0 <= a -> 0 <= n -> a + n <= zlen (cells c) ->
  slice (cells c) (Z.to_nat a) (Z.to_nat n) = chip_byte c <$> seqZ a n.
Proof.
  intros. apply (list_eq_same_length _ _ (Z.to_nat n)).
  - by rewrite length_fmap, length_seqZ.
  - rewrite length_slice. unfold zlen in *. lia.
  - intros i x y Hi Hx Hy. rewrite list_lookup_fmap, lookup_seqZ_lt in Hy by lia.
    simpl in Hy. injection Hy as <-. unfold slice in Hx.
    rewrite lookup_take_lt, lookup_drop in Hx by done. unfold chip_byte.
    destruct (Z.ltb_spec (a + Z.of_nat i) 0); [lia|].
    apply lookup_getb in Hx. rewrite <- Hx. f_equal. lia.
Qed.

#[export] Instance chip_SpiFlashLaws : SpiFlashLaws chip.
Proof.
  refine {| flash_byte := chip_byte; accepts := fun c a n => chip_ok c a n = true;
            program := Z.land |}.
  - intros b. apply Z.land_diag.
  - intros b Hb. rewrite Z.land_comm. change 255 with (2 ^ 8 - 1). rewrite land_mask by lia.
    by apply Z.mod_small.
  - intros f a n a' n'. rewrite !chip_ok_spec. intros (? & ? & Hb) ? ? ?.
    repeat split; [lia..|]. intros x Hx. apply Hb. lia.
  - intros f a n _ _ Hn Ha. unfold wp. simpl. rewrite Ha. repeat split; try done.
    apply chip_ok_spec in Ha as (? & ? & _). by apply slice_chip_range.
  - intros f a data _ _ Ha. unfold wp. simpl. rewrite Ha. split; [done|].
    apply chip_ok_spec in Ha as (Ha & Hl & _).
    set (d := zip_with _ _ _).
    assert (length d = length data) as Hd.
    { unfold d. rewrite length_zip_with, length_slice. unfold zlen in *. lia. }
    split.
    + intros x. rewrite chip_byte_splice by (unfold zlen in *; lia).
      replace (zlen d) with (zlen data) by (unfold zlen; by rewrite Hd).
      destruct (Z.leb_spec a x); [|done]. destruct (Z.ltb_spec x (a + zlen data)); [|done]. simpl.
      assert (Z.to_nat (x - a) < length d)%nat as Hi by (unfold zlen in *; lia).
      pose proof (getb_lookup d (x - a) Hi) as E. unfold d in E at 1.
      apply lookup_zip_with_Some in E as (u & v & -> & Hu & Hv).
      unfold slice in Hu. rewrite lookup_take_lt, lookup_drop in Hu by lia.
      f_equal.
      * unfold chip_byte. destruct (Z.ltb_spec x 0); [lia|].
        apply lookup_getb in Hu. rewrite <- Hu. f_equal. lia.
      * apply lookup_getb in Hv. rewrite <- Hv. f_equal. lia.
    + intros x m. apply chip_ok_len; [|done]. simpl. apply length_splice. unfold zlen in *. lia.
  - intros f s Hs Ha. unfold wp. cbn [spi_flash_erase_sector chip_SpiFlash].
    rewrite Ha. split; [done|].
    apply chip_ok_spec in Ha as (Ha & Hl & _). split.
    + intros x. unfold SPI_FLASH_SEC_SIZE in *.
      assert (zlen (replicate (Z.to_nat 4096) 255) = 4096) as Hz
        by (unfold zlen; by rewrite length_replicate).
      rewrite chip_byte_splice, Hz by (rewrite ?Hz; done).
      destruct (Z.eqb_spec (x / 4096) s) as [E|E].
      * replace (s * 4096 <=? x) with true by (symmetry; apply Z.leb_le; Z.div_mod_to_equations; lia).
        replace (x <? _) with true by (symmetry; apply Z.ltb_lt; Z.div_mod_to_equations; lia).
        cbn [andb]. unfold getb. apply nth_lookup_Some. apply lookup_replicate_2. Z.div_mod_to_equations. lia.
      * destruct (Z.leb_spec (s * 4096) x); [|done].
        destruct (Z.ltb_spec x (s * 4096 + 4096)); [|done].
        exfalso. apply E. Z.div_mod_to_equations. lia.
    + intros x m. apply chip_ok_len; [|done]. cbn [cells]. apply length_splice.
      rewrite length_replicate. unfold SPI_FLASH_SEC_SIZE, zlen in *. lia.
Defined.

(** ** Totality

    Whatever the flash answers, the alignment handling never trips an assertion
    of the aligned primitives and the block loops end. *)

Section Total.
Context {F : Type} `{SpiFlash F}.
Hypothesis read_returns : forall a n f, exists r bytes f', spi_flash_read a n f = Some ((r, bytes), f').
Hypothesis write_returns : forall a d f, exists r f', spi_flash_write a d f = Some (r, f').
Context (tmpdata_addr : Z) (Htmp_addr : word_aligned tmpdata_addr).

Lemma write_internal_total f from data toaddr size (Q : Z -> F -> Prop) :
  word_aligned from -> word_aligned toaddr -> word_aligned size ->
  (forall f', Q size f') -> (forall f', Q 0 f') ->
  wp (flashmem_write_internal from data toaddr size) Q f.
Proof.
  intros H1 H2 H3 HQ1 HQ2. unfold flashmem_write_internal.
  rewrite !(proj2 (IS_ALIGNED_spec _)) by done. unfold wp, bind. cbn [andb].
  destruct (write_returns toaddr (take (Z.to_nat size) data) f) as (r & f' & ->).
  destruct (SPI_FLASH_RESULT_OK =? r); [apply HQ1|apply HQ2].
Qed.

Lemma read_internal_total f to buf fromaddr size (Q : Z * list Z -> F -> Prop) :
  word_aligned to -> word_aligned fromaddr -> word_aligned size ->
  (forall b f', Q (size, b) f') -> (forall b f', Q (0, b) f') ->
  wp (flashmem_read_internal to buf fromaddr size) Q f.
Proof.
  intros H1 H2 H3 HQ1 HQ2. unfold flashmem_read_internal.
  rewrite !(proj2 (IS_ALIGNED_spec _)) by done. unfold wp, bind. cbn [andb].
  destruct (read_returns fromaddr size f) as (r & bs & f' & ->).
  destruct (SPI_FLASH_RESULT_OK =? r); [apply HQ1|apply HQ2].
Qed.

Lemma word_aligned_add a b : word_aligned a -> word_aligned b -> word_aligned (a + b).
Proof. unfold word_aligned. intros. Z.div_mod_to_equations. lia. Qed.

Lemma word_aligned_u32 a : word_aligned a -> word_aligned (u32 a).
Proof. unfold word_aligned, u32. intros. Z.div_mod_to_equations. lia. Qed.

Lemma write_blocks_total f from size tmp p r t (Q : _ -> F -> Prop) :
  word_aligned r -> word_aligned t -> 0 <= r <= size -> size < 2 ^ 32 ->
  (forall v f', Q (inl v) f') ->
  (forall tmp' p' t' f', word_aligned t' -> Q (inr (tmp', p', 0, t')) f') ->
  wp (write_blocks tmpdata_addr from size (tmp, p, r, t)) Q f.
Proof.
  intros Hr Ht Hb Hs HQ1 HQ2.
  apply wp_loop with
    (Inv := fun '(_, _, r, t) _ => word_aligned r /\ word_aligned t /\ 0 <= r < 2 ^ 32)
    (measure := fun '(_, _, r, _) _ => Z.to_nat r); [|repeat split; (done || lia)|lia].
  intros [[[b q] r'] t'] s (Hr' & Ht' & Hb'). unfold write_blocks_body.
  destruct (nz r') eqn:E; [apply nz_true in E|apply nz_false in E; subst r'; by apply wp_ret, HQ2].
  rewrite min_u32_spec. change sizeof_tmpdata with 128. set (c := Z.min r' 128).
  assert (word_aligned c) as Hc by (unfold c; destruct (Z.min_spec r' 128) as [[_ ->]|[_ ->]]; done).
  wp_step. apply write_internal_total; try done; intros f'.
  - rewrite Z.eqb_refl. simpl. apply wp_ret. rewrite (u32_small (r' - c)) by (unfold is_u32; lia).
    split; [|lia]. repeat split; try lia.
    + unfold word_aligned in *. Z.div_mod_to_equations. lia.
    + by apply word_aligned_u32, word_aligned_add.
  - destruct (Z.eqb_spec 0 c); [lia|]. simpl. apply wp_ret, HQ1.
Qed.

Lemma read_blocks_total f size tmp to p r t (Q : _ -> F -> Prop) :
  word_aligned r -> word_aligned t -> 0 <= r <= size -> size < 2 ^ 32 ->
  (forall v f', Q (inl v) f') ->
  (forall tmp' to' p' t' f', word_aligned t' -> Q (inr (tmp', to', p', 0, t')) f') ->
  wp (read_blocks tmpdata_addr size (tmp, to, p, r, t)) Q f.
Proof.
  intros Hr Ht Hb Hs HQ1 HQ2.
  apply wp_loop with
    (Inv := fun '(_, _, _, r, t) _ => word_aligned r /\ word_aligned t /\ 0 <= r < 2 ^ 32)
    (measure := fun '(_, _, _, r, _) _ => Z.to_nat r); [|repeat split; (done || lia)|lia].
  intros [[[[b o] q] r'] t'] s (Hr' & Ht' & Hb'). unfold read_blocks_body.
  destruct (nz r') eqn:E; [apply nz_true in E|apply nz_false in E; subst r'; by apply wp_ret, HQ2].
  rewrite min_u32_spec. change sizeof_tmpdata with 128. set (c := Z.min r' 128).
  assert (word_aligned c) as Hc by (unfold c; destruct (Z.min_spec r' 128) as [[_ ->]|[_ ->]]; done).
  wp_step. apply read_internal_total; try done; intros b' f'.
  - rewrite Z.eqb_refl. simpl. apply wp_ret. rewrite (u32_small (r' - c)) by (unfold is_u32; lia).
    split; [|lia]. repeat split; try lia.
    + unfold word_aligned in *. Z.div_mod_to_equations. lia.
    + by apply word_aligned_u32, word_aligned_add.
  - destruct (Z.eqb_spec 0 c); [lia|]. simpl. apply wp_ret, HQ1.
Qed.

Lemma overlay_total f from tmp rest pfrom remain (Q : _ -> F -> Prop) :
  0 <= rest -> 0 <= remain ->
  (forall tmp' r p m, 0 <= m <= remain -> Q (tmp', r, p, m) f) ->
  wp (overlay from (tmp, rest, pfrom, remain)) Q f.
Proof.
  intros Hr Hm HQ.
  apply wp_loop with (Inv := fun '(_, r, _, m) s => s = f /\ 0 <= r /\ 0 <= m <= remain)
    (measure := fun '(_, r, _, _) _ => Z.to_nat (4 - r));
    [|repeat split; (done || lia)|change (Z.to_nat INTERNAL_FLASH_WRITE_UNIT_SIZE) with 4%nat; lia].
  intros [[[t r] p] m] s (-> & H0 & H1). unfold overlay_body.
  change INTERNAL_FLASH_WRITE_UNIT_SIZE with 4.
  destruct (nz m) eqn:E; [apply nz_true in E; destruct (Z.ltb_spec r 4)|];
    simpl; apply wp_ret; [|by apply HQ..]. repeat split; lia.
Qed.

Lemma unlay_total f tmp to rest pto remain (Q : _ -> F -> Prop) :
  0 <= rest -> 0 <= remain ->
  (forall to' r p m, 0 <= m <= remain -> Q (to', r, p, m) f) ->
  wp (unlay tmp (to, rest, pto, remain)) Q f.
Proof.
  intros Hr Hm HQ.
  apply wp_loop with (Inv := fun '(_, r, _, m) s => s = f /\ 0 <= r /\ 0 <= m <= remain)
    (measure := fun '(_, r, _, _) _ => Z.to_nat (4 - r));
    [|repeat split; (done || lia)|change (Z.to_nat INTERNAL_FLASH_READ_UNIT_SIZE) with 4%nat; lia].
  intros [[[t r] p] m] s (-> & H0 & H1). unfold unlay_body.
  change INTERNAL_FLASH_READ_UNIT_SIZE with 4.
  destruct (nz m) eqn:E; [apply nz_true in E; destruct (Z.ltb_spec r 4)|];
    simpl; apply wp_ret; [|by apply HQ..]. repeat split; lia.
Qed.

Lemma write_tail_total f from size tmp p r t :
  word_aligned t -> 0 <= r <= size -> size < 2 ^ 32 ->
  wp (flashmem_write_tail tmpdata_addr from size (tmp, p, r, t)) (fun _ _ => True) f.
Proof.
  intros Ht Hr Hs. unfold flashmem_write_tail.
  change (INTERNAL_FLASH_WRITE_UNIT_SIZE - 1) with 3.
  rewrite and_not_3. assert (0 <= r mod 4 <= r) by (Z.div_mod_to_equations; lia).
  wp_step. apply write_blocks_total; try done; [apply word_aligned_hull|lia|].
  intros tmp' p' t' f' Ht'. destruct (nz _); [|done].
  wp_step. apply read_internal_total; try done; intros b f1; simpl; try done.
  wp_step. apply write_internal_total; try done; intros f2; by destruct (negb _).
Qed.

Lemma read_tail_total f size tmp to p r t :
  word_aligned t -> 0 <= r <= size -> size < 2 ^ 32 ->
  wp (flashmem_read_tail tmpdata_addr size (tmp, to, p, r, t)) (fun _ _ => True) f.
Proof.
  intros Ht Hr Hs. unfold flashmem_read_tail.
  change (INTERNAL_FLASH_READ_UNIT_SIZE - 1) with 3.
  rewrite and_not_3. assert (0 <= r mod 4 <= r) by (Z.div_mod_to_equations; lia).
  wp_step. apply read_blocks_total; try done; [apply word_aligned_hull|lia|].
  intros tmp' to' p' t' f' Ht'. destruct (nz _); [|done].
  wp_step. apply read_internal_total; try done; intros b f1; by simpl.
Qed.

Lemma wp_flashmem_write_total f from_addr from toaddr size :
  is_u32 size ->
  wp (flashmem_write tmpdata_addr from_addr from toaddr size) (fun _ _ => True) f.
Proof.
  intros [Hs Hs']. unfold flashmem_write.
  destruct (_ && _) eqn:E.
  { rewrite !andb_true_iff, !IS_ALIGNED_spec in E. destruct E as [[? ?] ?].
    by apply write_internal_total. }
  change (INTERNAL_FLASH_WRITE_UNIT_SIZE - 1) with 3.
  pose proof (word_aligned_hull toaddr) as Hal. rewrite land_3, and_not_3.
  assert (0 <= toaddr mod 4 < 4) by (apply Z.mod_pos_bound; lia).
  destruct (nz (toaddr mod 4)) eqn:Eq; [|apply nz_false in Eq; by apply write_tail_total].
  wp_step. apply read_internal_total; try done; intros b f1; simpl; try done.
  wp_step. apply overlay_total; try lia. intros tmp' r p m Hm. simpl.
  wp_step. apply write_internal_total; try done; intros f2; simpl; try done.
  destruct (m =? 0); [done|].
  apply write_tail_total; [|lia..]. by apply word_aligned_u32, word_aligned_add.
Qed.

Lemma wp_flashmem_read_total f to_addr to fromaddr size :
  is_u32 size ->
  wp (flashmem_read tmpdata_addr to_addr to fromaddr size) (fun _ _ => True) f.
Proof.
  intros [Hs Hs']. unfold flashmem_read.
  destruct (_ && _) eqn:E.
  { rewrite !andb_true_iff, !IS_ALIGNED_spec in E. destruct E as [[? ?] ?].
    by apply read_internal_total. }
  change (INTERNAL_FLASH_READ_UNIT_SIZE - 1) with 3.
  pose proof (word_aligned_hull fromaddr) as Hal. rewrite land_3, and_not_3.
  assert (0 <= fromaddr mod 4 < 4) by (apply Z.mod_pos_bound; lia).
  destruct (nz (fromaddr mod 4)) eqn:Eq; [|apply nz_false in Eq; by apply read_tail_total].
  wp_step. apply read_internal_total; try done; intros b f1; simpl; try done.
  wp_step. apply unlay_total; try lia. intros to' r p m Hm. simpl.
  destruct (m =? 0); [done|].
  apply read_tail_total; [|lia..]. by apply word_aligned_u32, word_aligned_add.
Qed.
End Total.

(** ** Properties *)

(** C33. Refinement of [flashmem_write]: for any RAM pointer, any destination and
    any length, if the chip serves the words that the range touches, the call
    returns [size], exactly the bytes of the range are programmed with the
    caller's data, and every other byte of the flash keeps its value. *)
Theorem flashmem_write_correct {F : Type} `{SpiFlashLaws F} (tmpdata_addr : Z) (f : F)
    (from_addr : Z) (from : list Z) (toaddr size : Z) :
  word_aligned tmpdata_addr -> 0 <= toaddr -> 0 <= size <= zlen from ->
  toaddr + size + 8 < 2 ^ 32 ->
  accepts f (hull_start toaddr) (hull_size toaddr size) ->
  exists f', flashmem_write tmpdata_addr from_addr from toaddr size f = Some (size, f') /\
    programmed f toaddr (take (Z.to_nat size) from) f'.
Proof.
  intros Ht Hp Hs Hw Hacc.
  assert (wp (flashmem_write tmpdata_addr from_addr from toaddr size)
            (fun r f' => r = size /\ programmed f toaddr (take (Z.to_nat size) from) f') f) as HW
    by (apply wp_flashmem_write; auto).
  apply wp_run in HW as (r & f' & E & -> & HP). eauto.
Qed.

Definition demo_chip : chip := {| cells := replicate 16 255; bad := fun _ => false |}.

Lemma flashmem_write_correct_witness :
  exists f', flashmem_write 0 2 [1; 2; 3; 4; 5; 6; 7] 3 7 demo_chip = Some (7, f') /\
    programmed demo_chip 3 [1; 2; 3; 4; 5; 6; 7] f'.
Proof. apply (flashmem_write_correct 0 demo_chip 2 [1; 2; 3; 4; 5; 6; 7] 3 7); done. Defined.

(** C34. Refinement of [flashmem_read]: under the same condition the call returns
    [size], the caller's buffer starts with exactly the flash bytes of the
    range and is otherwise unchanged, and the flash keeps its content. *)
Theorem flashmem_read_correct {F : Type} `{SpiFlashLaws F} (tmpdata_addr : Z) (f : F)
    (to_addr : Z) (to : list Z) (fromaddr size : Z) :
  word_aligned tmpdata_addr -> 0 <= fromaddr -> 0 <= size <= zlen to ->
  fromaddr + size + 8 < 2 ^ 32 ->
  accepts f (hull_start fromaddr) (hull_size fromaddr size) ->
  exists f', flashmem_read tmpdata_addr to_addr to fromaddr size f =
      Some ((size, flash_range f fromaddr size ++ drop (Z.to_nat size) to), f') /\
    forall x, flash_byte f' x = flash_byte f x.
Proof.
  intros Ht Hp Hs Hw Hacc.
  assert (wp (flashmem_read tmpdata_addr to_addr to fromaddr size)
            (fun r f' => r = (size, splice to 0 (flash_range f fromaddr size)) /\
                         forall x, flash_byte f' x = flash_byte f x) f) as HW
    by (apply wp_flashmem_read; auto).
  apply wp_run in HW as (r & f' & E & -> & HP). exists f'. split; [|done].
  rewrite E. unfold splice. rewrite take_0, app_nil_l. simpl. by rewrite length_flash_range.
Qed.

Lemma flashmem_read_correct_witness :
  exists f', flashmem_read 0 1 [0; 0; 0; 0; 0; 0] 3 5 demo_chip =
      Some ((5, flash_range demo_chip 3 5 ++ [0]), f') /\
    forall x, flash_byte f' x = flash_byte demo_chip x.
Proof. apply (flashmem_read_correct 0 demo_chip 1 [0; 0; 0; 0; 0; 0] 3 5); done. Defined.

(** Round trip: bytes written anywhere into an erased range are read back
    unchanged by [flashmem_read], whatever the alignment of the two RAM
    buffers. *)
Theorem flashmem_write_read_roundtrip {F : Type} `{SpiFlashLaws F} (tmpdata_addr : Z) (f : F)
    (from_addr : Z) (data : list Z) (addr to_addr : Z) (to : list Z) :
  word_aligned tmpdata_addr -> 0 <= addr -> addr + zlen data + 8 < 2 ^ 32 ->
  zlen to = zlen data -> Forall is_byte data ->
  (forall x, addr <= x < addr + zlen data -> flash_byte f x = 255) ->
  accepts f (hull_start addr) (hull_size addr (zlen data)) ->
  exists f1 f2, flashmem_write tmpdata_addr from_addr data addr (zlen data) f = Some (zlen data, f1) /\
    flashmem_read tmpdata_addr to_addr to addr (zlen data) f1 = Some ((zlen data, data), f2).
Proof.
  intros Ht Hp Hw Hto Hb Her Hacc. pose proof (zlen_nonneg data) as Hn.
  assert (wp (flashmem_write tmpdata_addr from_addr data addr (zlen data))
     (fun r f1 => r = zlen data /\ programmed f addr (take (Z.to_nat (zlen data)) data) f1) f) as HW
    by (apply wp_flashmem_write; auto with lia).
  apply wp_run in HW as (r & f1 & E1 & -> & HP). exists f1.
  rewrite take_ge in HP by (unfold zlen; lia).
  assert (wp (flashmem_read tmpdata_addr to_addr to addr (zlen data))
     (fun r _ => r = (zlen data, splice to 0 (flash_range f1 addr (zlen data)))) f1) as HR.
  { apply wp_flashmem_read; auto with lia. apply HP, Hacc. }
  apply wp_run in HR as (r & f2 & E2 & ->). exists f2. split; [done|]. rewrite E2.
  do 3 f_equal. unfold splice. rewrite take_0, app_nil_l, length_flash_range.
  rewrite drop_ge by (unfold zlen in *; lia). rewrite app_nil_r.
  apply (list_eq_same_length _ _ (length data)); [done|rewrite length_flash_range; unfold zlen; lia|].
  intros i x y Hi Hx Hy. apply lookup_getb in Hx. rewrite flash_range_getb in Hx by (unfold zlen; lia).
  subst x. destruct HP as [HP _]. rewrite HP.
  rewrite (proj2 (Z.leb_le _ _)), (proj2 (Z.ltb_lt _ _)) by (unfold zlen; lia). cbn [andb].
  rewrite Her by (unfold zlen in *; lia). replace (addr + Z.of_nat i - addr) with (Z.of_nat i) by lia.
  rewrite (lookup_getb _ _ _ Hy). apply program_erased. by eapply Forall_lookup_1.
Qed.

Lemma flashmem_write_read_roundtrip_witness :
  exists f1 f2, flashmem_write 0 1 [7; 8; 9] 2 3 demo_chip = Some (3, f1) /\
    flashmem_read 0 3 [0; 0; 0] 2 3 f1 = Some ((3, [7; 8; 9]), f2).
Proof.
  apply (flashmem_write_read_roundtrip 0 demo_chip 1 [7; 8; 9] 2 3 [0; 0; 0]); try done.
  - repeat (constructor; [split; lia|]). constructor.
  - intros x Hx. change (zlen [7; 8; 9]) with 3 in Hx.
    assert (x = 2 \/ x = 3 \/ x = 4) as [-> | [-> | ->]] by lia; done.
Defined.

(** Safety and termination on a flash that may fail at any time: for every
    pointer, address and 32-bit length, [flashmem_write] and [flashmem_read]
    return; the assertions of the aligned primitives are never violated and
    the block loops do not run forever. *)
Theorem flashmem_never_asserts {F : Type} `{SpiFlash F} (tmpdata_addr : Z) :
  word_aligned tmpdata_addr ->
  (forall a n f, exists r bytes f', spi_flash_read a n f = Some ((r, bytes), f')) ->
  (forall a d f, exists r f', spi_flash_write a d f = Some (r, f')) ->
  forall (f : F) ram_addr ram flash_addr size, is_u32 size ->
    (exists n f', flashmem_write tmpdata_addr ram_addr ram flash_addr size f = Some (n, f')) /\
    (exists r f', flashmem_read tmpdata_addr ram_addr ram flash_addr size f = Some (r, f')).
Proof.
  intros Ht Hr Hw f ra ram fa size Hs. split.
  - pose proof (wp_flashmem_write_total Hr Hw _ Ht f ra ram fa size Hs) as HW.
    apply wp_run in HW as (n & f' & E & _). eauto.
  - pose proof (wp_flashmem_read_total Hr _ Ht f ra ram fa size Hs) as HW.
    apply wp_run in HW as (n & f' & E & _). eauto.
Qed.

Definition broken_chip : chip := {| cells := replicate 16 255; bad := fun _ => true |}.

Lemma flashmem_never_asserts_witness :
  (exists n f', flashmem_write 0 1 [1; 2; 3] 5 3 broken_chip = Some (n, f')) /\
  (exists r f', flashmem_read 0 1 [1; 2; 3] 5 3 broken_chip = Some (r, f')).
Proof.
  apply (flashmem_never_asserts 0 eq_refl); [| |done].
  - intros a n f. cbn [spi_flash_read chip_SpiFlash]. destruct (chip_ok f a n); repeat eexists.
  - intros a d f. cbn [spi_flash_write chip_SpiFlash]. destruct (chip_ok f a (zlen d)); repeat eexists.
Defined.

(** Error reporting of [flashmem_write] overstates progress by the length of
    the final partial word, because [remain] no longer counts it: on a chip
    whose third word cannot be written, a nine-byte write at address 0 returns
    9 (complete success) although the ninth byte was not stored, and a
    thirteen-byte write whose only block fails returns 1 although nothing was
    stored. *)
Theorem flashmem_write_tail_failure_reported_as_success :
  let c := {| cells := replicate 16 255; bad := fun x => (8 <=? x) && (x <? 12) |} in
  (exists c', flashmem_write 0 0 [1; 2; 3; 4; 5; 6; 7; 8; 9] 0 9 c = Some (9, c') /\
     flash_byte c' 8 = 255) /\
  (exists c', flashmem_write 0 1 [1; 2; 3; 4; 5; 6; 7; 8; 9; 10; 11; 12; 13] 0 13 c = Some (1, c') /\
     cells c' = cells c).
Proof. vm_compute. split; eexists; done. Qed.

(** [flashmem_find_sector]: for every 32-bit address the sector found is the
    only one whose start/end bounds (as stored through [pstart] and [pend])
    enclose the address, and the bounds span exactly one sector. *)
Theorem flashmem_find_sector_bounds (address : Z) :
  is_u32 address ->
  let '(sect, pstart, pend) := flashmem_find_sector address in
  sect = flashmem_get_sector_of_address address /\
  pstart <= address <= pend /\ pstart = sect * SPI_FLASH_SEC_SIZE /\
  pend = pstart + SPI_FLASH_SEC_SIZE - 1.
Proof.
  intros [Hlo Hhi]. unfold flashmem_get_sector_of_address, flashmem_find_sector.
  unfold INTERNAL_FLASH_SECTOR_SIZE, SPI_FLASH_SEC_SIZE, u32. split; [done|].
  assert (0 <= address / 4096 < 2 ^ 20) by (Z.div_mod_to_equations; lia).
  rewrite (Z.mod_small (address / 4096 * 4096)) by lia.
  rewrite (Z.mod_small (address / 4096 + 1)) by lia.
  destruct (Z.eq_dec (address / 4096) (2 ^ 20 - 1)) as [E|E].
  - rewrite E. change (((2 ^ 20 - 1 + 1) * 4096) mod 2 ^ 32 - 1) with (-1).
    change (-1 mod 2 ^ 32) with (2 ^ 32 - 1). split; [|lia].
    Z.div_mod_to_equations; lia.
  - rewrite (Z.mod_small ((address / 4096 + 1) * 4096)) by lia.
    rewrite Z.mod_small by lia. split; [|lia]. Z.div_mod_to_equations; lia.
Qed.

Lemma flashmem_find_sector_bounds_witness :
  is_u32 0xFFFFFFFF /\
  let '(sect, pstart, pend) := flashmem_find_sector 0xFFFFFFFF in
  sect = flashmem_get_sector_of_address 0xFFFFFFFF /\
  pstart <= 0xFFFFFFFF <= pend /\ pstart = sect * SPI_FLASH_SEC_SIZE /\
  pend = pstart + SPI_FLASH_SEC_SIZE - 1.
Proof. split; [done|]. apply (flashmem_find_sector_bounds 0xFFFFFFFF). done. Defined.
