(* ===== verification/Base64.v ===== *)
(** * Base64 ([Sming/Services/libb64] and [Sming/Services/WebHelpers/base64.cpp])

    The resumable encoder and decoder of cencode.c and cdecode.c.  Memory holds
    bytes in [0, 256); [chr] is the value a byte has when it is read through a
    [char] lvalue, which depends on the signedness of [char], a parameter of
    the model.  The output buffer is the state: a store outside it is the
    [fault] outcome.  Input is the list of bytes still to be consumed, so the
    coroutine's [switch] into the middle of the [while] loop becomes a
    recursion over the input that carries the saved step. *)

From S2P Require Import Prelude.

(** ** Reference encoding (RFC 4648) *)

Definition encoding : list Z :=
  string_bytes "ABCDEFGHIJKLMNOPQRSTUVWXYZabcdefghijklmnopqrstuvwxyz0123456789+/"%string.

Definition pad : Z := 61.     (* '=' *)
Definition newline : Z := 10. (* '\n' *)

Definition digit (v : Z) : Z := getb encoding v.

(** The four code characters of a complete group. *)
Definition group (a b c : Z) : list Z :=
  [digit (a / 4); digit (a mod 4 * 16 + b / 16); digit (b mod 16 * 4 + c / 64); digit (c mod 64)].

(** [n] is the number of groups already on the current line, [per] the number
    of groups per line (0: no line breaks). *)
Fixpoint b64 (per n : Z) (l : list Z) : list Z :=
  match l with
  | a :: b :: c :: r =>
      group a b c ++
      (if n + 1 =? per then newline :: b64 per 0 r else b64 per (n + 1) r)
  | [a; b] => [digit (a / 4); digit (a mod 4 * 16 + b / 16); digit (b mod 16 * 4); pad]
  | [a] => [digit (a / 4); digit (a mod 4 * 16); pad; pad]
  | [] => []
  end.

Section Libb64.
(** Whether the compiler's [char] is signed. *)
Variable char_signed : bool.

Definition chr (z : Z) : Z := if char_signed then s8 z else u8 z.

(** ** Output buffer *)

Definition store (i v : Z) : M (list Z) unit := fun buf =>
  if (0 <=? i) && (i <? zlen buf) then Some (tt, setb buf i (u8 v)) else None.
Definition load (i : Z) : M (list Z) Z := fun buf =>
  if (0 <=? i) && (i <? zlen buf) then Some (chr (getb buf i), buf) else None.

(** ** Encoder (cencode.c) *)

Inductive base64_encodestep := step_A | step_B | step_C.

Record base64_encodestate := {
  estep : base64_encodestep;
  eresult : Z;
  stepcount : Z;
  steps_per_line : Z
}.

Definition base64_init_encodestate (chars_per_line : Z) : base64_encodestate :=
  {| estep := step_A; eresult := 0; stepcount := 0; steps_per_line := chars_per_line / 4 |}.

Definition base64_encode_value (value_in : Z) : Z :=
  if value_in >? 63 then pad else digit value_in.

(** [codechar] is the offset of the next output character. *)
Fixpoint encode_loop (plain : list Z) (st : base64_encodestate) (codechar : Z)
    : M (list Z) (Z * base64_encodestate) :=
  match plain with
  | [] => ret (codechar, st)
  | p :: plain =>
      let fragment := chr p in
      match estep st with
      | step_A =>
          let result := chr (Z.shiftr (Z.land fragment 0xfc) 2) in
          store codechar (base64_encode_value result) ;;;
          let result := chr (Z.shiftl (Z.land fragment 0x03) 4) in
          encode_loop plain
            {| estep := step_B; eresult := result; stepcount := stepcount st;
               steps_per_line := steps_per_line st |} (codechar + 1)
      | step_B =>
          let result := chr (Z.lor (eresult st) (Z.shiftr (Z.land fragment 0xf0) 4)) in
          store codechar (base64_encode_value result) ;;;
          let result := chr (Z.shiftl (Z.land fragment 0x0f) 2) in
          encode_loop plain
            {| estep := step_C; eresult := result; stepcount := stepcount st;
               steps_per_line := steps_per_line st |} (codechar + 1)
      | step_C =>
          let result := chr (Z.lor (eresult st) (Z.shiftr (Z.land fragment 0xc0) 6)) in
          store codechar (base64_encode_value result) ;;;
          let result := chr (Z.shiftr (Z.land fragment 0x3f) 0) in
          store (codechar + 1) (base64_encode_value result) ;;;
          let count := s32 (stepcount st + 1) in
          if u32 count =? steps_per_line st then
            store (codechar + 2) newline ;;;
            encode_loop plain
              {| estep := step_A; eresult := result; stepcount := 0;
                 steps_per_line := steps_per_line st |} (codechar + 3)
          else
            encode_loop plain
              {| estep := step_A; eresult := result; stepcount := count;
                 steps_per_line := steps_per_line st |} (codechar + 2)
      end
  end.

(** Writes at offset [out] of the buffer and yields the number of characters
    written together with the new state. *)
Definition base64_encode_block (plain : list Z) (out : Z) (st : base64_encodestate)
    : M (list Z) (Z * base64_encodestate) :=
  let! (codechar, st') := encode_loop plain st out in
  ret (codechar - out, st').

Definition base64_encode_blockend (out : Z) (st : base64_encodestate) : M (list Z) Z :=
  match estep st with
  | step_B =>
      store out (base64_encode_value (eresult st)) ;;;
      store (out + 1) pad ;;; store (out + 2) pad ;;; ret 3
  | step_C =>
      store out (base64_encode_value (eresult st)) ;;;
      store (out + 1) pad ;;; ret 2
  | step_A => ret 0
  end.

(** ** Decoder (cdecode.c) *)

Definition decoding : list Z :=
  [62;-1;-1;-1;63;52;53;54;55;56;57;58;59;60;61;-1;-1;-1;-2;-1;-1;-1;0;1;2;3;4;5;6;7;8;9;10;11;12;
   13;14;15;16;17;18;19;20;21;22;23;24;25;-1;-1;-1;-1;-1;-1;26;27;28;29;30;31;32;33;34;35;36;37;38;
   39;40;41;42;43;44;45;46;47;48;49;50;51].
Definition decoding_size : Z := chr (zlen decoding).

Definition base64_decode_value (value_in : Z) : Z :=
  let value_in := chr (value_in - 43) in
  if (value_in <? 0) || (value_in >=? decoding_size) then -1
  else chr (getb decoding value_in).

Inductive base64_decodestep := step_a | step_b | step_c | step_d.

Record base64_decodestate := { dstep : base64_decodestep; plainchar : Z }.

Definition base64_init_decodestate : base64_decodestate :=
  {| dstep := step_a; plainchar := 0 |}.

(** [*plainchar op= v] on the output buffer. *)
Definition store_or (i v : Z) : M (list Z) unit :=
  let! old := load i in store i (Z.lor old v).

(** [pos] is the offset of [plainchar]. *)
Fixpoint decode_loop (code : list Z) (step : base64_decodestep) (pos : Z)
    : M (list Z) (Z * base64_decodestate) :=
  match code with
  | [] => let! c := load pos in ret (pos, {| dstep := step; plainchar := c |})
  | x :: code =>
      let fragment := chr (base64_decode_value (chr x)) in
      if fragment <? 0 then decode_loop code step pos else
      match step with
      | step_a =>
          store pos (Z.shiftl (Z.land fragment 0x3f) 2) ;;;
          decode_loop code step_b pos
      | step_b =>
          store_or pos (Z.shiftr (Z.land fragment 0x30) 4) ;;;
          store (pos + 1) (Z.shiftl (Z.land fragment 0x0f) 4) ;;;
          decode_loop code step_c (pos + 1)
      | step_c =>
          store_or pos (Z.shiftr (Z.land fragment 0x3c) 2) ;;;
          store (pos + 1) (Z.shiftl (Z.land fragment 0x03) 6) ;;;
          decode_loop code step_d (pos + 1)
      | step_d =>
          store_or pos (Z.land fragment 0x3f) ;;;
          decode_loop code step_a (pos + 1)
      end
  end.

Definition base64_decode_block (code : list Z) (out : Z) (st : base64_decodestate)
    : M (list Z) (Z * base64_decodestate) :=
  store out (plainchar st) ;;;
  let! (pos, st') := decode_loop code (dstep st) out in
  ret (pos - out, st').

(** A client that feeds the encoder chunk by chunk, as [Base64OutputStream]
    does: each block is written behind the previous one. *)
Fixpoint encode_chunks (chunks : list (list Z)) (out : Z) (st : base64_encodestate)
    : M (list Z) Z :=
  match chunks with
  | [] => let! n := base64_encode_blockend out st in ret (out + n)
  | c :: chunks =>
      let! (n, st) := base64_encode_block c out st in
      encode_chunks chunks (out + n) st
  end.

(** ** One-shot functions (base64.cpp); [-1] when the buffer is refused *)

Definition MIN_ENCODE_LEN (in_len : Z) : Z := u32 (u32 (in_len * 3) + 1) / 2.
Definition MIN_DECODE_LEN (in_len : Z) : Z := u32 (u32 (in_len * 2) + 2) / 3.

Definition base64_encode (inp : list Z) (out_len : Z) : M (list Z) Z :=
  if out_len <? MIN_ENCODE_LEN (zlen inp) then ret (-1) else
  let! (codelength, st) := base64_encode_block inp 0 (base64_init_encodestate 0) in
  let! n := base64_encode_blockend codelength st in
  ret (codelength + n).

Definition base64_decode (inp : list Z) (out_len : Z) : M (list Z) Z :=
  if out_len <? MIN_DECODE_LEN (zlen inp) then ret (-1) else
  let! (n, _) := base64_decode_block inp 0 base64_init_decodestate in
  ret n.
End Libb64.

(** ** Bit-level facts, by evaluation over the 8-bit and 6-bit ranges *)

Lemma chr_byte_masks (sg : bool) (a : Z) : is_byte a ->
  Z.shiftr (Z.land (chr sg a) 0xfc) 2 = a / 4 /\
  Z.shiftl (Z.land (chr sg a) 0x03) 4 = a mod 4 * 16 /\
  Z.shiftr (Z.land (chr sg a) 0xf0) 4 = a / 16 /\
  Z.shiftl (Z.land (chr sg a) 0x0f) 2 = a mod 16 * 4 /\
  Z.shiftr (Z.land (chr sg a) 0xc0) 6 = a / 64 /\
  Z.shiftr (Z.land (chr sg a) 0x3f) 0 = a mod 64.
Proof.
  intros Ha.
  pose proof (forall_range 256 (fun a =>
    bool_decide (Z.shiftr (Z.land (chr sg a) 0xfc) 2 = a / 4 /\
      Z.shiftl (Z.land (chr sg a) 0x03) 4 = a mod 4 * 16 /\
      Z.shiftr (Z.land (chr sg a) 0xf0) 4 = a / 16 /\
      Z.shiftl (Z.land (chr sg a) 0x0f) 2 = a mod 16 * 4 /\
      Z.shiftr (Z.land (chr sg a) 0xc0) 6 = a / 64 /\
      Z.shiftr (Z.land (chr sg a) 0x3f) 0 = a mod 64))) as E.
  apply (bool_decide_eq_true_1 _), E; [|exact Ha]. by destruct sg; vm_compute.
Qed.

Lemma chr_small (sg : bool) (z : Z) : 0 <= z < 128 -> chr sg z = z.
Proof.
  intros. unfold chr, s8, u8. destruct sg; [|apply Z.mod_small; lia].
  rewrite Z.mod_small; lia.
Qed.

Lemma chr_lor16 (sg : bool) (x y : Z) :
  0 <= x < 4 -> 0 <= y < 16 -> chr sg (Z.lor (x * 16) y) = x * 16 + y.
Proof. intros. change 16 with (2 ^ 4). rewrite lor_add by lia. apply chr_small. lia. Qed.

Lemma chr_lor4 (sg : bool) (x y : Z) :
  0 <= x < 16 -> 0 <= y < 4 -> chr sg (Z.lor (x * 4) y) = x * 4 + y.
Proof. intros. change 4 with (2 ^ 2). rewrite lor_add by lia. apply chr_small. lia. Qed.

Lemma decode_digit (sg : bool) (v : Z) :
  0 <= v < 64 -> chr sg (base64_decode_value sg (chr sg (digit v))) = v.
Proof.
  intros Hv.
  pose proof (forall_range 64 (fun v =>
    chr sg (base64_decode_value sg (chr sg (digit v))) =? v)) as E.
  apply Z.eqb_eq, E; [|exact Hv]. by destruct sg; vm_compute.
Qed.

Lemma digit_is_byte (v : Z) : 0 <= v < 64 -> is_byte (digit v).
Proof.
  intros Hv. pose proof (forall_range 64 (fun v => bool_decide (0 <= digit v < 2 ^ 8))) as E.
  apply (bool_decide_eq_true_1 _), E; [|exact Hv]. by vm_compute.
Qed.

Lemma encode_value_digit (v : Z) : 0 <= v < 64 -> base64_encode_value v = digit v.
Proof. intros. unfold base64_encode_value. destruct (Z.gtb_spec v 63); [lia|done]. Qed.

(** The cell that a decoder step stores, for old and new 6-bit values. *)
Lemma decode_cells (sg : bool) (u v : Z) : 0 <= u < 64 -> 0 <= v < 64 ->
  u8 (Z.lor (chr sg (u8 (Z.shiftl (Z.land u 0x3f) 2))) (Z.shiftr (Z.land v 0x30) 4)) = u * 4 + v / 16 /\
  u8 (Z.lor (chr sg (u8 (Z.shiftl (Z.land u 0x0f) 4))) (Z.shiftr (Z.land v 0x3c) 2)) = u mod 16 * 16 + v / 4 /\
  u8 (Z.lor (chr sg (u8 (Z.shiftl (Z.land u 0x03) 6))) (Z.land v 0x3f)) = u mod 4 * 64 + v.
Proof.
  intros Hu Hv.
  pose proof (forall_range2 64 64 (fun u v => bool_decide (
  u8 (Z.lor (chr sg (u8 (Z.shiftl (Z.land u 0x3f) 2))) (Z.shiftr (Z.land v 0x30) 4)) = u * 4 + v / 16 /\
  u8 (Z.lor (chr sg (u8 (Z.shiftl (Z.land u 0x0f) 4))) (Z.shiftr (Z.land v 0x3c) 2)) = u mod 16 * 16 + v / 4 /\
  u8 (Z.lor (chr sg (u8 (Z.shiftl (Z.land u 0x03) 6))) (Z.land v 0x3f)) = u mod 4 * 64 + v))) as E.
  apply (bool_decide_eq_true_1 _), E; [|done|done]. by destruct sg; vm_compute.
Qed.

(** ** The encoder writes a stream *)

Section Stream.
Variable sg : bool.

(** What one plain byte emits, and the state after it. *)
Definition enc1 (st : base64_encodestate) (p : Z) : list Z * base64_encodestate :=
  let fragment := chr sg p in
  match estep st with
  | step_A =>
      ([u8 (base64_encode_value (chr sg (Z.shiftr (Z.land fragment 0xfc) 2)))],
       {| estep := step_B; eresult := chr sg (Z.shiftl (Z.land fragment 0x03) 4);
          stepcount := stepcount st; steps_per_line := steps_per_line st |})
  | step_B =>
      ([u8 (base64_encode_value (chr sg (Z.lor (eresult st) (Z.shiftr (Z.land fragment 0xf0) 4))))],
       {| estep := step_C; eresult := chr sg (Z.shiftl (Z.land fragment 0x0f) 2);
          stepcount := stepcount st; steps_per_line := steps_per_line st |})
  | step_C =>
      let count := s32 (stepcount st + 1) in
      let out := [u8 (base64_encode_value (chr sg (Z.lor (eresult st) (Z.shiftr (Z.land fragment 0xc0) 6))));
                  u8 (base64_encode_value (chr sg (Z.shiftr (Z.land fragment 0x3f) 0)))] in
      let full := u32 count =? steps_per_line st in
      (if full then out ++ [newline] else out,
       {| estep := step_A; eresult := chr sg (Z.shiftr (Z.land fragment 0x3f) 0);
          stepcount := if full then 0 else count; steps_per_line := steps_per_line st |})
  end.

Fixpoint enc_stream (st : base64_encodestate) (plain : list Z) : list Z * base64_encodestate :=
  match plain with
  | [] => ([], st)
  | p :: r => let '(o1, st1) := enc1 st p in
              let '(o2, st2) := enc_stream st1 r in (o1 ++ o2, st2)
  end.

Lemma store_run i v buf : 0 <= i < zlen buf -> store i v buf = Some (tt, setb buf i (u8 v)).
Proof.
  intros. unfold store. rewrite (proj2 (Z.leb_le _ _)), (proj2 (Z.ltb_lt _ _)) by lia. done.
Qed.

Lemma load_run i buf : 0 <= i < zlen buf -> load sg i buf = Some (chr sg (getb buf i), buf).
Proof.
  intros. unfold load. rewrite (proj2 (Z.leb_le _ _)), (proj2 (Z.ltb_lt _ _)) by lia. done.
Qed.

Lemma splice_store (buf : list Z) pos v new :
  0 <= pos -> pos + 1 + zlen new <= zlen buf ->
  splice (setb buf pos v) (Z.to_nat (pos + 1)) new = splice buf (Z.to_nat pos) (v :: new).
Proof.
  intros. replace (Z.to_nat (pos + 1)) with (S (Z.to_nat pos)) by lia.
  rewrite <- splice_cons by (unfold zlen in *; lia). by rewrite Z2Nat.id by lia.
Qed.

(** A run of stores is a splice. *)
Fixpoint stores (pos : Z) (l : list Z) : M (list Z) unit :=
  match l with
  | [] => ret tt
  | v :: r => store pos v ;;; stores (pos + 1) r
  end.

Lemma u8_u8 x : u8 (u8 x) = u8 x.
Proof. apply u8_small, u8_range. Qed.

Lemma store_u8 i v b : store i (u8 v) b = store i v b.
Proof. unfold store. by rewrite u8_u8. Qed.

Lemma stores_run l pos buf :
  0 <= pos -> pos + zlen l <= zlen buf ->
  stores pos l buf = Some (tt, splice buf (Z.to_nat pos) (u8 <$> l)).
Proof.
  revert pos buf. induction l as [|v l IH]; intros pos buf Hp Hl; simpl.
  { by rewrite splice_nil. }
  assert (zlen (v :: l) = 1 + zlen l) as E by (unfold zlen; simpl; lia). rewrite E in Hl.
  pose proof (zlen_nonneg l). unfold bind. rewrite store_run by lia.
  rewrite IH by (rewrite ?zlen_setb; lia). f_equal. f_equal. apply splice_store; [done|].
  unfold zlen. rewrite length_fmap. unfold zlen in *. lia.
Qed.

Lemma encode_loop_cons p plain st pos buf :
  encode_loop sg (p :: plain) st pos buf =
    (stores pos (fst (enc1 st p)) ;;;
     encode_loop sg plain (snd (enc1 st p)) (pos + zlen (fst (enc1 st p)))) buf.
Proof.
  simpl. unfold enc1. destruct (estep st); cbv zeta.
  1, 2: cbn [fst snd stores]; unfold bind, ret; rewrite store_u8; by destruct (store pos _ buf) as [[]|].
  destruct (u32 _ =? _); cbn [fst snd stores app]; unfold bind, ret; rewrite store_u8;
    (destruct (store pos _ buf) as [[[] b1]|]; [|done]); rewrite store_u8;
    (destruct (store (pos + 1) _ b1) as [[[] b2]|]; [|done]).
  - replace (pos + 1 + 1) with (pos + 2) by lia. by destruct (store (pos + 2) _ b2) as [[[] b3]|].
  - done.
Qed.

Lemma enc1_bytes st p : u8 <$> fst (enc1 st p) = fst (enc1 st p).
Proof.
  unfold enc1. destruct (estep st); cbv zeta; [| |destruct (u32 _ =? _)]; cbn [fst snd app fmap list_fmap];
    by rewrite ?u8_u8.
Qed.

Lemma encode_loop_stream plain st pos buf :
  0 <= pos -> pos + zlen (fst (enc_stream st plain)) <= zlen buf ->
  encode_loop sg plain st pos buf =
    Some ((pos + zlen (fst (enc_stream st plain)), snd (enc_stream st plain)),
          splice buf (Z.to_nat pos) (fst (enc_stream st plain))).
Proof.
  revert st pos buf. induction plain as [|p plain IH]; intros st pos buf Hp Hl.
  { simpl. rewrite splice_nil. unfold ret, zlen. simpl. do 3 f_equal. lia. }
  rewrite encode_loop_cons. cbn [enc_stream] in *. specialize (IH (snd (enc1 st p))).
  pose proof (enc1_bytes st p) as Eb.
  destruct (enc1 st p) as [o1 st1]. cbn [fst snd] in *.
  destruct (enc_stream st1 plain) as [o2 st2]. cbn [fst snd] in *. rewrite zlen_app in *.
  pose proof (zlen_nonneg o1). pose proof (zlen_nonneg o2).
  assert (zlen (splice buf (Z.to_nat pos) o1) = zlen buf) as Ez.
  { unfold zlen. rewrite length_splice; [done|]. unfold zlen in *. lia. }
  unfold bind. rewrite stores_run, Eb by lia. rewrite IH by (rewrite ?Ez; lia).
  f_equal. f_equal; [f_equal; lia|].
  replace (Z.to_nat (pos + zlen o1)) with (Z.to_nat pos + length o1)%nat by (unfold zlen; lia).
  apply splice_splice_adj. unfold zlen in *. lia.
Qed.

(** The closing characters. *)
Definition enc_end (st : base64_encodestate) : list Z :=
  match estep st with
  | step_B => [u8 (base64_encode_value (eresult st)); pad; pad]
  | step_C => [u8 (base64_encode_value (eresult st)); pad]
  | step_A => []
  end.

Lemma encode_blockend_stream st pos buf :
  0 <= pos -> pos + zlen (enc_end st) <= zlen buf ->
  base64_encode_blockend pos st buf =
    Some (zlen (enc_end st), splice buf (Z.to_nat pos) (enc_end st)).
Proof.
  intros Hp Hl.
  assert (base64_encode_blockend pos st buf = (stores pos (enc_end st) ;;; ret (zlen (enc_end st))) buf) as ->.
  { unfold base64_encode_blockend, enc_end.
    destruct (estep st); unfold bind; cbn [stores]; [done| |];
      unfold bind; rewrite store_u8; (destruct (store pos _ buf) as [[[] b1]|]; [|done]);
      (destruct (store (pos + 1) _ b1) as [[[] b2]|]; [|done]); [|done].
    replace (pos + 1 + 1) with (pos + 2) by lia. by destruct (store (pos + 2) _ b2) as [[[] b3]|]. }
  unfold bind. rewrite stores_run by done. unfold ret. do 3 f_equal.
  unfold enc_end. destruct (estep st); cbn [fmap list_fmap]; by rewrite ?u8_u8.
Qed.

Lemma enc_stream_app st l1 l2 :
  enc_stream st (l1 ++ l2) =
    (fst (enc_stream st l1) ++ fst (enc_stream (snd (enc_stream st l1)) l2),
     snd (enc_stream (snd (enc_stream st l1)) l2)).
Proof.
  revert st. induction l1 as [|p l1 IH]; intros st; simpl.
  { by destruct (enc_stream st l2). }
  destruct (enc1 st p) as [o1 st1]. rewrite IH.
  destruct (enc_stream st1 l1) as [o2 st2]. simpl. by rewrite app_assoc.
Qed.

(** ** The stream is the reference encoding *)

Lemma u8_digit v : 0 <= v < 64 -> u8 (digit v) = digit v.
Proof. intros. by apply u8_small, digit_is_byte. Qed.

Lemma byte_parts a : is_byte a ->
  0 <= a / 4 < 64 /\ 0 <= a mod 4 < 4 /\ 0 <= a / 16 < 16 /\ 0 <= a mod 16 < 16 /\
  0 <= a / 64 < 4 /\ 0 <= a mod 64 < 64.
Proof. unfold is_byte. intros. repeat split; Z.div_mod_to_equations; lia. Qed.

Definition stateA (n r per : Z) : base64_encodestate :=
  {| estep := step_A; eresult := r; stepcount := n; steps_per_line := per |}.

Lemma count_step n : 0 <= n < 2 ^ 31 - 1 -> u32 (s32 (n + 1)) = n + 1 /\ s32 (n + 1) = n + 1.
Proof.
  intros. assert (s32 (n + 1) = n + 1) as ->.
  { unfold s32. rewrite Z.mod_small; lia. }
  split; [|done]. apply u32_small. unfold is_u32. lia.
Qed.

Lemma enc_stream_group a b c r n rr per :
  is_byte a -> is_byte b -> is_byte c -> 0 <= n < 2 ^ 31 - 1 ->
  enc_stream (stateA n rr per) (a :: b :: c :: r) =
    let full := n + 1 =? per in
    let '(o, st) := enc_stream (stateA (if full then 0 else n + 1) (c mod 64) per) r in
    (group a b c ++ (if full then newline :: o else o), st).
Proof.
  intros Ha Hb Hc Hn. simpl. unfold enc1, stateA. cbn [estep stepcount steps_per_line eresult].
  destruct (chr_byte_masks sg a Ha) as (A1 & A2 & _).
  destruct (chr_byte_masks sg b Hb) as (_ & _ & B3 & B4 & _).
  destruct (chr_byte_masks sg c Hc) as (_ & _ & _ & _ & C5 & C6).
  pose proof (byte_parts a Ha). pose proof (byte_parts b Hb). pose proof (byte_parts c Hc).
  rewrite A1, A2, B3, B4, C5, C6.
  rewrite (chr_small sg (a / 4)), (chr_small sg (a mod 4 * 16)), (chr_small sg (b mod 16 * 4)),
    (chr_small sg (c mod 64)) by lia.
  rewrite chr_lor16, chr_lor4 by lia.
  rewrite !encode_value_digit, !u8_digit by lia.
  destruct (count_step n Hn) as [-> ->].
  destruct (n + 1 =? per); destruct (enc_stream _ r); done.
Qed.

Lemma enc_stream_spec per l n rr :
  Forall is_byte l -> 0 <= n -> n + zlen l < 2 ^ 31 - 1 ->
  fst (enc_stream (stateA n rr per) l) ++ enc_end (snd (enc_stream (stateA n rr per) l)) = b64 per n l.
Proof.
  revert n rr. induction l as [|a|a b|a b c r IH] using list_ind3; intros n rr Hl Hn Hb.
  - done.
  - inversion Hl as [|? ? Ha _]; subst. simpl. unfold enc1, stateA, enc_end.
    cbn [estep eresult fst snd app].
    destruct (chr_byte_masks sg a Ha) as (A1 & A2 & _). pose proof (byte_parts a Ha).
    rewrite A1, A2, !chr_small by lia. by rewrite !encode_value_digit, !u8_digit by lia.
  - inversion Hl as [|? ? Ha Hl1]; subst. inversion Hl1 as [|? ? Hb' _]; subst.
    simpl. unfold enc1, stateA, enc_end. cbn [estep eresult fst snd app].
    destruct (chr_byte_masks sg a Ha) as (A1 & A2 & _). pose proof (byte_parts a Ha).
    destruct (chr_byte_masks sg b Hb') as (_ & _ & B3 & B4 & _). pose proof (byte_parts b Hb').
    rewrite A1, A2, B3, B4. rewrite (chr_small sg (a / 4)), (chr_small sg (a mod 4 * 16)),
      (chr_small sg (b mod 16 * 4)), chr_lor16 by lia.
    by rewrite !encode_value_digit, !u8_digit by lia.
  - inversion Hl as [|? ? Ha Hl1]; subst. inversion Hl1 as [|? ? Hb' Hl2]; subst.
    inversion Hl2 as [|? ? Hc Hl3]; subst.
    assert (n + 3 + zlen r < 2 ^ 31 - 1) by (unfold zlen in *; simpl in Hb; lia).
    pose proof (zlen_nonneg r). rewrite enc_stream_group by (done || lia). cbv zeta.
    cbn [b64]. destruct (n + 1 =? per).
    + specialize (IH 0 (c mod 64) Hl3 ltac:(lia) ltac:(lia)).
      destruct (enc_stream _ r) as [o st]. cbn [fst snd] in *. rewrite <- IH.
      rewrite <- !app_assoc. done.
    + specialize (IH (n + 1) (c mod 64) Hl3 ltac:(lia) ltac:(lia)).
      destruct (enc_stream _ r) as [o st]. cbn [fst snd] in *. rewrite <- IH.
      by rewrite <- !app_assoc.
Qed.
End Stream.

(** ** The decoder inverts complete groups, for either signedness *)

Lemma decode_loop_digit sg v code step pos buf :
  0 <= v < 64 ->
  decode_loop sg (digit v :: code) step pos buf =
    match step with
    | step_a => (store pos (Z.shiftl (Z.land v 0x3f) 2) ;;; decode_loop sg code step_b pos) buf
    | step_b => (store_or sg pos (Z.shiftr (Z.land v 0x30) 4) ;;;
                 store (pos + 1) (Z.shiftl (Z.land v 0x0f) 4) ;;;
                 decode_loop sg code step_c (pos + 1)) buf
    | step_c => (store_or sg pos (Z.shiftr (Z.land v 0x3c) 2) ;;;
                 store (pos + 1) (Z.shiftl (Z.land v 0x03) 6) ;;;
                 decode_loop sg code step_d (pos + 1)) buf
    | step_d => (store_or sg pos (Z.land v 0x3f) ;;; decode_loop sg code step_a (pos + 1)) buf
    end.
Proof.
  intros Hv. cbn [decode_loop]. rewrite decode_digit by done.
  destruct (Z.ltb_spec v 0); [lia|]. by destruct step.
Qed.

Lemma store_or_run sg i v buf w :
  0 <= i < zlen buf -> getb buf i = u8 w ->
  store_or sg i v buf = Some (tt, setb buf i (u8 (Z.lor (chr sg (u8 w)) v))).
Proof.
  intros Hi E. unfold store_or, bind. rewrite load_run, E by done. by rewrite store_run.
Qed.

(** The first two, the third and the fourth character of a group. *)
Lemma decode_ab sg u v code pos buf :
  0 <= u < 64 -> 0 <= v < 64 -> 0 <= pos -> pos + 1 < zlen buf ->
  decode_loop sg (digit u :: digit v :: code) step_a pos buf =
  decode_loop sg code step_c (pos + 1)
    (setb (setb buf pos (u * 4 + v / 16)) (pos + 1) (u8 (Z.shiftl (Z.land v 0x0f) 4))).
Proof.
  intros. rewrite decode_loop_digit by done. unfold bind at 1. rewrite store_run by lia.
  rewrite decode_loop_digit by done. unfold bind.
  erewrite store_or_run; [|rewrite zlen_setb; lia|apply getb_setb_eq; lia].
  rewrite (proj1 (decode_cells sg u v ltac:(done) ltac:(done))), setb_setb.
  by rewrite store_run by (rewrite zlen_setb; lia).
Qed.

Lemma decode_c sg u v code pos buf :
  0 <= u < 64 -> 0 <= v < 64 -> 0 <= pos -> pos + 1 < zlen buf ->
  decode_loop sg (digit v :: code) step_c pos (setb buf pos (u8 (Z.shiftl (Z.land u 0x0f) 4))) =
  decode_loop sg code step_d (pos + 1)
    (setb (setb buf pos (u mod 16 * 16 + v / 4)) (pos + 1) (u8 (Z.shiftl (Z.land v 0x03) 6))).
Proof.
  intros. rewrite decode_loop_digit by done. unfold bind.
  erewrite store_or_run; [|rewrite zlen_setb; lia|apply getb_setb_eq; lia].
  destruct (decode_cells sg u v ltac:(done) ltac:(done)) as (_ & -> & _). rewrite setb_setb.
  by rewrite store_run by (rewrite zlen_setb; lia).
Qed.

Lemma decode_d sg u v code pos buf :
  0 <= u < 64 -> 0 <= v < 64 -> 0 <= pos < zlen buf ->
  decode_loop sg (digit v :: code) step_d pos (setb buf pos (u8 (Z.shiftl (Z.land u 0x03) 6))) =
  decode_loop sg code step_a (pos + 1) (setb buf pos (u mod 4 * 64 + v)).
Proof.
  intros. rewrite decode_loop_digit by done. unfold bind.
  erewrite store_or_run; [|rewrite zlen_setb; lia|apply getb_setb_eq; lia].
  destruct (decode_cells sg u v ltac:(done) ltac:(done)) as (_ & _ & ->). by rewrite setb_setb.
Qed.

Lemma setb3_splice buf pos a b c :
  0 <= pos -> pos + 3 <= zlen buf ->
  setb (setb (setb buf pos a) (pos + 1) b) (pos + 2) c = splice buf (Z.to_nat pos) [a; b; c].
Proof.
  intros. rewrite <- (splice_nil (setb _ (pos + 2) _) (Z.to_nat (pos + 2 + 1))).
  rewrite splice_store by (rewrite ?zlen_setb; unfold zlen in *; simpl in *; lia).
  replace (pos + 2) with (pos + 1 + 1) by lia.
  do 2 rewrite splice_store by (rewrite ?zlen_setb; unfold zlen in *; simpl in *; lia). done.
Qed.

Lemma decode_group sg a b c code pos buf :
  is_byte a -> is_byte b -> is_byte c -> 0 <= pos -> pos + 3 <= zlen buf ->
  decode_loop sg (group a b c ++ code) step_a pos buf =
  decode_loop sg code step_a (pos + 3) (splice buf (Z.to_nat pos) [a; b; c]).
Proof.
  intros Ha Hb Hc Hp Hl.
  pose proof (byte_parts a Ha). pose proof (byte_parts b Hb). pose proof (byte_parts c Hc).
  unfold group. cbn [app].
  rewrite decode_ab, decode_c by (rewrite ?zlen_setb; lia).
  replace (pos + 1 + 1) with (pos + 2) by lia.
  rewrite decode_d by (rewrite ?zlen_setb; lia).
  rewrite <- setb3_splice by lia. replace (pos + 2 + 1) with (pos + 3) by lia.
  do 2 f_equal; [do 2 f_equal; [f_equal|]|]; Z.div_mod_to_equations; lia.
Qed.

(** Padding and line breaks are skipped where [char] is signed. *)
Lemma decode_skip x code step pos buf :
  x = pad \/ x = newline ->
  decode_loop true (x :: code) step pos buf = decode_loop true code step pos buf.
Proof. by intros [-> | ->]. Qed.

Lemma take_setb_ge (l : list Z) n i v : (n <= Z.to_nat i)%nat -> take n (setb l i v) = take n l.
Proof. intros. unfold setb. by rewrite take_insert_ge. Qed.

Lemma take_setb_snoc (l : list Z) i v :
  0 <= i < zlen l -> take (Z.to_nat (i + 1)) (setb l i v) = take (Z.to_nat i) l ++ [v].
Proof.
  intros. replace (Z.to_nat (i + 1)) with (S (Z.to_nat i)) by lia.
  rewrite (take_S_r _ _ v).
  - by rewrite take_setb_ge by lia.
  - unfold setb. apply list_lookup_insert_eq. unfold zlen in *. lia.
Qed.

Lemma decode_b64 sg per l n pos buf :
  Forall is_byte l -> 0 <= pos -> pos + zlen l < zlen buf ->
  sg = true \/ (per = 0 /\ 0 <= n /\ exists k, length l = (3 * k)%nat) ->
  exists st buf', decode_loop sg (b64 per n l) step_a pos buf = Some ((pos + zlen l, st), buf') /\
    take (Z.to_nat (pos + zlen l)) buf' = take (Z.to_nat pos) buf ++ l.
Proof.
  revert n pos buf. induction l as [|a|a b|a b c r IH] using list_ind3; intros n pos buf Hl Hp Hb Hsg.
  - change (zlen (A:=Z) []) with 0 in *. cbn [b64 decode_loop]. unfold bind.
    rewrite load_run by lia. rewrite Z.add_0_r, app_nil_r. eexists _, _. split; [done|]. done.
  - destruct Hsg as [->|(_ & _ & k & Hk)]; [|simpl in Hk; lia].
    change (zlen [a]) with 1 in *. inversion Hl as [|? ? Ha _]; subst. pose proof (byte_parts a Ha).
    cbn [b64]. rewrite decode_ab by lia. rewrite !decode_skip by auto. cbn [decode_loop].
    unfold bind. rewrite load_run by (rewrite !zlen_setb; lia). eexists _, _. split; [done|].
    rewrite take_setb_ge by lia. rewrite take_setb_snoc by lia. do 2 f_equal.
    Z.div_mod_to_equations; lia.
  - destruct Hsg as [->|(_ & _ & k & Hk)]; [|simpl in Hk; lia].
    change (zlen [a; b]) with 2 in *. inversion Hl as [|? ? Ha Hl1]; subst.
    inversion Hl1 as [|? ? Hb' _]; subst. pose proof (byte_parts a Ha). pose proof (byte_parts b Hb').
    cbn [b64]. rewrite decode_ab, decode_c by (rewrite ?zlen_setb; lia).
    rewrite !decode_skip by auto. cbn [decode_loop]. unfold bind.
    replace (pos + 1 + 1) with (pos + 2) by lia.
    rewrite load_run by (rewrite !zlen_setb; lia). eexists _, _. split; [done|].
    rewrite take_setb_ge by lia. replace (pos + 2) with (pos + 1 + 1) by lia.
    rewrite take_setb_snoc by (rewrite zlen_setb; lia). rewrite take_setb_snoc by lia.
    rewrite <- app_assoc. f_equal. simpl. f_equal; [|f_equal]; Z.div_mod_to_equations; lia.
  - inversion Hl as [|? ? Ha Hl1]; subst. inversion Hl1 as [|? ? Hb' Hl2]; subst.
    inversion Hl2 as [|? ? Hc Hl3]; subst.
    assert (zlen (a :: b :: c :: r) = 3 + zlen r) as E by (unfold zlen; simpl; lia).
    rewrite E in *. pose proof (zlen_nonneg r). cbn [b64].
    set (code := if n + 1 =? per then _ else _).
    assert (exists n', decode_loop sg code step_a (pos + 3) = decode_loop sg (b64 per n' r) step_a (pos + 3)
              /\ (sg = true \/ per = 0 /\ 0 <= n' /\ exists k, length r = (3 * k)%nat)) as (n' & Ec & Hsg').
    { unfold code. destruct (Z.eqb_spec (n + 1) per).
      - destruct Hsg as [->|(-> & ? & _)]; [|lia]. exists 0. split; [done|by left].
      - exists (n + 1). split; [done|]. destruct Hsg as [->|(-> & ? & k & Hk)]; [by left|right].
        split; [done|]. split; [lia|]. exists (k - 1)%nat. simpl in Hk. lia. }
    rewrite decode_group by (done || lia). rewrite Ec.
    destruct (IH n' (pos + 3) (splice buf (Z.to_nat pos) [a; b; c]) Hl3) as (st & buf' & E1 & E2);
      [lia| |done|].
    { unfold zlen. rewrite length_splice by (simpl; unfold zlen in *; lia). unfold zlen in *. lia. }
    exists st, buf'. replace (pos + (3 + zlen r)) with (pos + 3 + zlen r) by lia. split; [done|].
    rewrite E2. change (a :: b :: c :: r) with ([a; b; c] ++ r). rewrite app_assoc. f_equal.
    unfold splice. rewrite app_assoc. rewrite take_app_length'; [done|].
    rewrite length_app, length_take. unfold zlen in *. simpl. lia.
Qed.

(** ** Resumption *)

Lemma decode_loop_app sg c1 c2 step pos buf pos' st' buf' :
  decode_loop sg c1 step pos buf = Some ((pos', st'), buf') ->
  decode_loop sg (c1 ++ c2) step pos buf = decode_loop sg c2 (dstep st') pos' buf'.
Proof.
  revert step pos buf. induction c1 as [|x c1 IH]; intros step pos buf H.
  - cbn [app decode_loop] in *. unfold bind, load in H. destruct (_ && _); [|done].
    unfold ret in H. by injection H as <- <- <-.
  - cbn [app decode_loop] in *. destruct (_ <? 0); [by apply IH|].
    destruct step; unfold bind in *;
      repeat match goal with
      | |- context [store ?i ?v ?b] => destruct (store i v b) as [[[] ?]|]; [|done]
      | |- context [store_or ?s ?i ?v ?b] => destruct (store_or s i v b) as [[[] ?]|]; [|done]
      end; by apply IH.
Qed.

(** What the decoder saves is the cell at the position it stopped at. *)
Lemma decode_loop_saved sg c step pos buf pos' st' buf' :
  decode_loop sg c step pos buf = Some ((pos', st'), buf') ->
  0 <= pos' < zlen buf' /\ plainchar st' = chr sg (getb buf' pos').
Proof.
  revert step pos buf. induction c as [|x c IH]; intros step pos buf H.
  - cbn [decode_loop] in *. unfold bind, load in H. destruct (_ && _) eqn:E; [|done].
    unfold ret in H. injection H as <- <- <-. apply andb_true_iff in E as [E1 E2].
    apply Z.leb_le in E1. apply Z.ltb_lt in E2. done.
  - cbn [decode_loop] in *. destruct (_ <? 0); [by eapply IH|].
    destruct step; unfold bind in *;
      repeat match goal with
      | H : context [store ?i ?v ?b] |- _ => destruct (store i v b) as [[[] ?]|]; [|done]
      | H : context [store_or ?s ?i ?v ?b] |- _ => destruct (store_or s i v b) as [[[] ?]|]; [|done]
      end; by eapply IH.
Qed.

Lemma u8_chr sg b : is_byte b -> u8 (chr sg b) = b.
Proof.
  intros Hb. pose proof (forall_range 256 (fun b => u8 (chr sg b) =? b)) as E.
  apply Z.eqb_eq, E; [|exact Hb]. by destruct sg; vm_compute.
Qed.

Lemma setb_getb_id (l : list Z) i : 0 <= i < zlen l -> setb l i (getb l i) = l.
Proof. intros. unfold setb. apply list_insert_id, getb_lookup. unfold zlen in *. lia. Qed.

Lemma store_bytes i v b b' : store i v b = Some (tt, b') -> Forall is_byte b -> Forall is_byte b'.
Proof.
  unfold store. destruct (_ && _); [|done]. injection 1 as <-. intros.
  unfold setb. apply Forall_insert; [done|]. apply u8_range.
Qed.

Lemma decode_loop_bytes sg c step pos buf r buf' :
  decode_loop sg c step pos buf = Some (r, buf') -> Forall is_byte buf -> Forall is_byte buf'.
Proof.
  assert (forall i v b b', store_or sg i v b = Some (tt, b') -> Forall is_byte b -> Forall is_byte b') as Hor.
  { intros i v b b'. unfold store_or, bind, load. destruct (_ && _); [|done]. apply store_bytes. }
  revert step pos buf. induction c as [|x c IH]; intros step pos buf H Hb.
  - cbn [decode_loop] in *. unfold bind, load in H. destruct (_ && _); [|done].
    unfold ret in H. by injection H as <- <-.
  - cbn [decode_loop] in *. destruct (_ <? 0); [by eapply IH|].
    destruct step; unfold bind in *;
      repeat match type of H with
      | context [store ?i ?v ?b] =>
          destruct (store i v b) as [[[] ?]|] eqn:?; [|done]
      | context [store_or ?s ?i ?v ?b] =>
          destruct (store_or s i v b) as [[[] ?]|] eqn:?; [|done]
      end; eauto using store_bytes.
Qed.

Lemma encode_chunks_stream sg chunks st pos buf :
  0 <= pos ->
  pos + zlen (fst (enc_stream sg st (concat chunks)) ++ enc_end (snd (enc_stream sg st (concat chunks))))
    <= zlen buf ->
  let out := fst (enc_stream sg st (concat chunks)) ++ enc_end (snd (enc_stream sg st (concat chunks))) in
  encode_chunks sg chunks pos st buf = Some (pos + zlen out, splice buf (Z.to_nat pos) out).
Proof.
  revert st pos buf. induction chunks as [|c chunks IH]; intros st pos buf Hp Hl; cbv zeta.
  - simpl in Hl |- *. unfold bind. by rewrite encode_blockend_stream.
  - simpl in Hl |- *. rewrite !enc_stream_app in *. cbn [fst snd] in *.
    specialize (IH (snd (enc_stream sg st c))).
    set (rest := fst (enc_stream sg _ (concat chunks)) ++ _) in IH.
    replace ((_ ++ _) ++ enc_end _) with (fst (enc_stream sg st c) ++ rest) in *
      by (unfold rest; by rewrite app_assoc).
    set (o1 := fst (enc_stream sg st c)) in *. rewrite zlen_app in *.
    pose proof (zlen_nonneg o1). pose proof (zlen_nonneg rest).
    assert (zlen (splice buf (Z.to_nat pos) o1) = zlen buf) as Ez.
    { unfold zlen. rewrite length_splice; [done|]. unfold zlen in *. lia. }
    unfold base64_encode_block, bind. rewrite encode_loop_stream by (fold o1; lia).
    fold o1. unfold ret. cbv beta zeta in IH.
    replace (pos + (pos + zlen o1 - pos)) with (pos + zlen o1) by lia.
    rewrite IH by (rewrite ?Ez; lia). f_equal. f_equal; [lia|].
    replace (Z.to_nat (pos + zlen o1)) with (Z.to_nat pos + length o1)%nat by (unfold zlen; lia).
    apply splice_splice_adj. unfold zlen in *. lia.
Qed.

Lemma encode_chunks_b64 (char_signed : bool) (chars_per_line : Z) (chunks : list (list Z)) (buf : list Z) :
  0 <= chars_per_line -> Forall is_byte (concat chunks) -> zlen (concat chunks) < 2 ^ 31 - 1 ->
  let code := b64 (chars_per_line / 4) 0 (concat chunks) in
  zlen code <= zlen buf ->
  encode_chunks char_signed chunks 0 (base64_init_encodestate chars_per_line) buf =
    Some (zlen code, code ++ drop (length code) buf).
Proof.
  intros Hc Hb Hl code Hbuf.
  pose proof (enc_stream_spec char_signed (chars_per_line / 4) (concat chunks) 0 0 Hb ltac:(lia)
                ltac:(lia)) as E.
  unfold stateA in E. fold (base64_init_encodestate chars_per_line) in E.
  pose proof (encode_chunks_stream char_signed chunks (base64_init_encodestate chars_per_line) 0 buf) as HS.
  cbv zeta in HS. rewrite E in HS. apply HS; done.
Qed.

(** ** Properties *)



(** C36. Decoding inverts encoding: what the encoder makes of any byte string, in
    any blocks and with any line length, decodes to that string, where [char]
    is signed.  Where it is unsigned, as on the ESP8266, this holds for texts
    without padding and line breaks, a multiple of three bytes in lines of
    unlimited length.  The decoder needs one cell more than the result. *)
Theorem base64_roundtrip (char_signed : bool) (chars_per_line : Z) (chunks : list (list Z)) (code_buf buf : list Z) :
  0 <= chars_per_line -> Forall is_byte (concat chunks) -> zlen (concat chunks) < 2 ^ 31 - 1 ->
  zlen (b64 (chars_per_line / 4) 0 (concat chunks)) <= zlen code_buf -> zlen (concat chunks) < zlen buf ->
  char_signed = true \/ (chars_per_line < 4 /\ zlen (concat chunks) mod 3 = 0) ->
  exists n code_buf' st buf',
    encode_chunks char_signed chunks 0 (base64_init_encodestate chars_per_line) code_buf = Some (n, code_buf') /\
    base64_decode_block char_signed (take (Z.to_nat n) code_buf') 0 base64_init_decodestate buf =
      Some ((zlen (concat chunks), st), buf') /\
    take (length (concat chunks)) buf' = concat chunks.
Proof.
  intros Hc Hp Hmax Hcode Hl Hsg. set (plain := concat chunks) in *. pose proof (zlen_nonneg plain).
  eexists _, _. rewrite encode_chunks_b64 by done. fold plain. unfold zlen at 1. rewrite Nat2Z.id, take_app_length.
  unfold base64_decode_block, bind. rewrite store_run by lia.
  destruct (decode_b64 char_signed (chars_per_line / 4) plain 0 0
              (setb buf 0 (u8 (plainchar base64_init_decodestate)))) as (st & buf' & E & Et);
    [done|done|rewrite zlen_setb; lia| |].
  { destruct Hsg as [Hsg|[H4 H3]]; [by left|right]. rewrite Z.div_small by lia. split; [done|]. split; [done|].
    exists (length plain / 3)%nat. unfold zlen in H3. rewrite <- (Nat2Z.inj_mod _ 3) in H3. pose proof (Nat.div_mod_eq (length plain) 3). lia. }
  cbn [dstep base64_init_decodestate]. rewrite E. exists st, buf'. unfold ret.
  split; [done|]. split; [do 3 f_equal; lia|]. change (Z.to_nat 0) with 0%nat in Et. rewrite take_0 in Et.
  by replace (length plain) with (Z.to_nat (0 + zlen plain)) by (unfold zlen; lia).
Qed.

Lemma base64_roundtrip_witness :
  exists n code_buf' st buf',
    encode_chunks false [[0; 255]; [128; 65; 7; 9]] 0 (base64_init_encodestate 0) (replicate 8 0) = Some (n, code_buf') /\
    base64_decode_block false (take (Z.to_nat n) code_buf') 0 base64_init_decodestate (replicate 7 0) = Some ((6, st), buf') /\
    take 6 buf' = [0; 255; 128; 65; 7; 9].
Proof.
  apply (base64_roundtrip false 0 [[0; 255]; [128; 65; 7; 9]] (replicate 8 0) (replicate 7 0)); [done| |done|done|done|by right].
  repeat (constructor; [split; lia|]). constructor.
Defined.

(** The decoder is resumable: decoding a text in two calls, the second one
    continuing where the first one stopped with the saved state, leaves the
    same bytes, the same total length and the same state as decoding it in one
    call, wherever the text is cut and for either signedness of [char]. *)
Theorem base64_decode_resumes (char_signed : bool) (c1 c2 : list Z) (st st1 : base64_decodestate)
    (buf buf1 : list Z) (n1 : Z) :
  Forall is_byte buf ->
  base64_decode_block char_signed c1 0 st buf = Some ((n1, st1), buf1) ->
  base64_decode_block char_signed (c1 ++ c2) 0 st buf =
    (let! (n2, st2) := base64_decode_block char_signed c2 n1 st1 in ret (n1 + n2, st2)) buf1.
Proof.
  intros Hb H. unfold base64_decode_block in *. unfold bind in *.
  destruct (store 0 (plainchar st) buf) as [[[] b0]|] eqn:Es; [|done].
  assert (Forall is_byte b0) as Hb0 by eauto using store_bytes.
  destruct (decode_loop char_signed c1 (dstep st) 0 b0) as [[[p s] b]|] eqn:Ed; [|done].
  unfold ret in H. injection H as <- <- <-. rewrite Z.sub_0_r.
  rewrite (decode_loop_app _ _ _ _ _ _ _ _ _ Ed).
  destruct (decode_loop_saved _ _ _ _ _ _ _ _ Ed) as [Hp Hs].
  assert (Forall is_byte b) as Hb' by eauto using decode_loop_bytes.
  rewrite store_run, Hs, u8_chr, setb_getb_id by
    (done || (eapply Forall_lookup_1; [exact Hb'|apply getb_lookup; unfold zlen in *; lia])).
  destruct (decode_loop char_signed c2 (dstep s) p b) as [[[p2 s2] b2]|]; [|done].
  unfold ret. do 3 f_equal. lia.
Qed.

Lemma base64_decode_resumes_witness :
  base64_decode_block true (string_bytes "TWF"%string ++ string_bytes "u"%string) 0 base64_init_decodestate
      (replicate 4 0) =
    (let! (n2, st2) := base64_decode_block true (string_bytes "u"%string) 2
                         {| dstep := step_d; plainchar := 64 |} in ret (2 + n2, st2))
      [77; 97; 64; 0].
Proof.
  apply (base64_decode_resumes true (string_bytes "TWF"%string) (string_bytes "u"%string) base64_init_decodestate
           {| dstep := step_d; plainchar := 64 |} (replicate 4 0) [77; 97; 64; 0] 2);
    [|vm_compute; reflexivity].
  repeat (constructor; [split; lia|]). constructor.
Defined.

(** Where [char] is unsigned (the default of the ESP8266 compiler) the test
    [fragment < 0] never holds, so padding is decoded as data: for every byte,
    decoding its encoding yields three bytes instead of one; only the first is
    right. *)
Theorem base64_unsigned_char_decodes_padding (a : Z) :
  is_byte a ->
  exists b c buf', base64_decode false (b64 0 0 [a]) 3 (replicate 4 0) = Some (3, buf') /\
    take 3 buf' = [a; b; c].
Proof.
  intros Ha.
  pose proof (forall_range 256 (fun a =>
    match base64_decode false (b64 0 0 [a]) 3 (replicate 4 0) with
    | Some (3, a' :: b :: c :: _) => a' =? a
    | _ => false
    end)) as E.
  specialize (E ltac:(by vm_compute) a Ha). cbv beta in E.
  destruct (base64_decode false (b64 0 0 [a]) 3 (replicate 4 0)) as [[n buf']|]; [|done].
  destruct n as [|[[]|[]|]|]; try done. destruct buf' as [|a' [|b [|c r]]]; try done.
  apply Z.eqb_eq in E as ->. eexists b, c, _. done.
Qed.

Lemma base64_unsigned_char_decodes_padding_witness :
  exists b c buf', base64_decode false (b64 0 0 [65]) 3 (replicate 4 0) = Some (3, buf') /\
    take 3 buf' = [65; b; c].
Proof. apply (base64_unsigned_char_decodes_padding 65). split; lia. Defined.

(** The size check of the one-shot encoder is too weak: [MIN_ENCODE_LEN]
    (three output bytes for two input bytes) admits a buffer that the encoder
    then overruns, for every input of one or two bytes. *)
Theorem base64_encode_min_len_overruns (char_signed : bool) (a b : Z) :
  (base64_encode char_signed [a] (MIN_ENCODE_LEN 1) (replicate (Z.to_nat (MIN_ENCODE_LEN 1)) 0) = None) /\
  (base64_encode char_signed [a; b] (MIN_ENCODE_LEN 2) (replicate (Z.to_nat (MIN_ENCODE_LEN 2)) 0) = None) /\
  MIN_ENCODE_LEN 1 < zlen (b64 0 0 [a]) /\ MIN_ENCODE_LEN 2 < zlen (b64 0 0 [a; b]).
Proof. repeat split; try lia. Qed.
