(* ===== verification/FatBase.v ===== *)
(** * FatFs data model ([Sming/Services/FATFS/ff.h], [diskio.h], head of [ff.c])

    Constants, records and the state of the FAT file system module in the
    configuration of ffconf.h: one volume, [_FS_TINY] (one sector window shared
    by directories, FAT and file data), 512-byte sectors, no long names, no
    relative paths, no lock, no RTC.  The disk is the class [DiskIO]; a FATFS
    object and the disk form the state [vol] of the functions that take a
    [FATFS*]. *)

From S2P Require Import Prelude.

(** ** Result codes *)

Inductive FRESULT :=
  | FR_OK | FR_DISK_ERR | FR_INT_ERR | FR_NOT_READY | FR_NO_FILE | FR_NO_PATH
  | FR_INVALID_NAME | FR_DENIED | FR_EXIST | FR_INVALID_OBJECT | FR_WRITE_PROTECTED
  | FR_INVALID_DRIVE | FR_NOT_ENABLED | FR_NO_FILESYSTEM | FR_MKFS_ABORTED | FR_TIMEOUT
  | FR_LOCKED | FR_NOT_ENOUGH_CORE | FR_TOO_MANY_OPEN_FILES | FR_INVALID_PARAMETER.

Inductive DRESULT := RES_OK | RES_ERROR | RES_WRPRT | RES_NOTRDY | RES_PARERR.

#[export] Instance FRESULT_eq_dec : EqDecision FRESULT.
Proof. solve_decision. Defined.
#[export] Instance DRESULT_eq_dec : EqDecision DRESULT.
Proof. solve_decision. Defined.

(** C's [res == FR_OK]. *)
Definition is_ok (r : FRESULT) : bool := bool_decide (r = FR_OK).
Definition res_eq (r r' : FRESULT) : bool := bool_decide (r = r').
Definition is_res_ok (r : DRESULT) : bool := bool_decide (r = RES_OK).

(** ** Constants of ff.h and ff.c *)

Definition SS : Z := 512.
Definition SZ_DIRE : Z := 32.
Definition FS_FAT12 : Z := 1.
Definition FS_FAT16 : Z := 2.
Definition FS_FAT32 : Z := 3.
Definition MIN_FAT16 : Z := 4086.
Definition MIN_FAT32 : Z := 65526.

Definition FA_READ : Z := 0x01.
Definition FA_WRITE : Z := 0x02.
Definition FA_CREATE_NEW : Z := 0x04.
Definition FA_CREATE_ALWAYS : Z := 0x08.
Definition FA_OPEN_ALWAYS : Z := 0x10.
Definition FA__WRITTEN : Z := 0x20.

Definition AM_RDO : Z := 0x01.
Definition AM_HID : Z := 0x02.
Definition AM_SYS : Z := 0x04.
Definition AM_VOL : Z := 0x08.
Definition AM_LFN : Z := 0x0F.
Definition AM_DIR : Z := 0x10.
Definition AM_ARC : Z := 0x20.
Definition AM_MASK : Z := 0x3F.

Definition NSFLAG : Z := 11.
Definition NS_LAST : Z := 0x04.
Definition NS_BODY : Z := 0x08.
Definition NS_EXT : Z := 0x10.

Definition BPB_BytsPerSec : Z := 11.
Definition BPB_SecPerClus : Z := 13.
Definition BPB_RsvdSecCnt : Z := 14.
Definition BPB_NumFATs : Z := 16.
Definition BPB_RootEntCnt : Z := 17.
Definition BPB_TotSec16 : Z := 19.
Definition BPB_FATSz16 : Z := 22.
Definition BPB_TotSec32 : Z := 32.
Definition BPB_FATSz32 : Z := 36.
Definition BPB_RootClus : Z := 44.
Definition BPB_FSInfo : Z := 48.
Definition BS_FilSysType : Z := 54.
Definition BS_FilSysType32 : Z := 82.
Definition FSI_LeadSig : Z := 0.
Definition FSI_StrucSig : Z := 484.
Definition FSI_Free_Count : Z := 488.
Definition FSI_Nxt_Free : Z := 492.
Definition MBR_Table : Z := 446.
Definition SZ_PTE : Z := 16.
Definition BS_55AA : Z := 510.

Definition DIR_Name : Z := 0.
Definition DIR_Attr : Z := 11.
Definition DIR_CrtTime : Z := 14.
Definition DIR_LstAccDate : Z := 18.
Definition DIR_FstClusHI : Z := 20.
Definition DIR_WrtTime : Z := 22.
Definition DIR_WrtDate : Z := 24.
Definition DIR_FstClusLO : Z := 26.
Definition DIR_FileSize : Z := 28.
Definition DDEM : Z := 0xE5.
Definition RDDEM : Z := 0x05.

Definition STA_NOINIT : Z := 0x01.
Definition STA_PROTECT : Z := 0x04.
Definition CTRL_SYNC : Z := 0.

(** [GET_FATTIME()] with [_FS_NORTC]: 2015-02-01. *)
Definition GET_FATTIME : Z := Z.lor (Z.lor (Z.shiftl (2015 - 1980) 25) (Z.shiftl 2 21)) (Z.shiftl 1 16).

(** [x & flag] as a C condition. *)
Definition has (x flag : Z) : bool := nz (Z.land x flag).

(** ** Little-endian access to byte arrays *)

Definition LD_WORD (l : list Z) (p : Z) : Z :=
  u16 (Z.lor (Z.shiftl (getb l (p + 1)) 8) (getb l p)).
Definition LD_DWORD (l : list Z) (p : Z) : Z :=
  u32 (Z.lor (Z.lor (Z.lor (Z.shiftl (getb l (p + 3)) 24) (Z.shiftl (getb l (p + 2)) 16))
                (Z.shiftl (getb l (p + 1)) 8)) (getb l p)).
Definition ST_WORD (p val : Z) (l : list Z) : list Z :=
  setb (setb l p (u8 val)) (p + 1) (u8 (Z.shiftr (u16 val) 8)).
Definition ST_DWORD (p val : Z) (l : list Z) : list Z :=
  setb (setb (setb (setb l p (u8 val)) (p + 1) (u8 (Z.shiftr (u16 val) 8)))
          (p + 2) (u8 (Z.shiftr (u32 val) 16))) (p + 3) (u8 (Z.shiftr (u32 val) 24)).

(** [mem_set] and [mem_cpy] into an array at an offset. *)
Definition mem_set (p val cnt : Z) (l : list Z) : list Z :=
  splice l (Z.to_nat p) (replicate (Z.to_nat cnt) (u8 val)).
Definition mem_cpy (p : Z) (src : list Z) (cnt : Z) (l : list Z) : list Z :=
  splice l (Z.to_nat p) (take (Z.to_nat cnt) src).

(** [mem_cmp]: 0 when the first [cnt] bytes agree, else the first difference. *)
Fixpoint mem_cmp (d s : list Z) (cnt : nat) : Z :=
  match cnt with
  | O => 0
  | S cnt =>
      let r := getb d 0 - getb s 0 in
      if r =? 0 then mem_cmp (drop 1 d) (drop 1 s) cnt else r
  end.

(** [chk_chr]: the character if it occurs in the string, else 0. *)
Fixpoint chk_chr (str : list Z) (c : Z) : Z :=
  match str with
  | [] => 0
  | x :: str => if x =? c then x else chk_chr str c
  end.

(** ** The file system object *)

Record FATFS := {
  fs_type : Z; drv : Z; csize : Z; n_fats : Z; wflag : Z; fsi_flag : Z; fs_id : Z;
  n_rootdir : Z; last_clust : Z; free_clust : Z; n_fatent : Z; fsize : Z; volbase : Z;
  fatbase : Z; dirbase : Z; database : Z; winsect : Z; win : list Z
}.

Definition set_fs_type (v : Z) (f : FATFS) : FATFS :=
  Build_FATFS v (drv f) (csize f) (n_fats f) (wflag f) (fsi_flag f) (fs_id f) (n_rootdir f)
    (last_clust f) (free_clust f) (n_fatent f) (fsize f) (volbase f) (fatbase f) (dirbase f)
    (database f) (winsect f) (win f).
Definition set_drv (v : Z) (f : FATFS) : FATFS :=
  Build_FATFS (fs_type f) v (csize f) (n_fats f) (wflag f) (fsi_flag f) (fs_id f) (n_rootdir f)
    (last_clust f) (free_clust f) (n_fatent f) (fsize f) (volbase f) (fatbase f) (dirbase f)
    (database f) (winsect f) (win f).
Definition set_csize (v : Z) (f : FATFS) : FATFS :=
  Build_FATFS (fs_type f) (drv f) v (n_fats f) (wflag f) (fsi_flag f) (fs_id f) (n_rootdir f)
    (last_clust f) (free_clust f) (n_fatent f) (fsize f) (volbase f) (fatbase f) (dirbase f)
    (database f) (winsect f) (win f).
Definition set_n_fats (v : Z) (f : FATFS) : FATFS :=
  Build_FATFS (fs_type f) (drv f) (csize f) v (wflag f) (fsi_flag f) (fs_id f) (n_rootdir f)
    (last_clust f) (free_clust f) (n_fatent f) (fsize f) (volbase f) (fatbase f) (dirbase f)
    (database f) (winsect f) (win f).
Definition set_wflag (v : Z) (f : FATFS) : FATFS :=
  Build_FATFS (fs_type f) (drv f) (csize f) (n_fats f) v (fsi_flag f) (fs_id f) (n_rootdir f)
    (last_clust f) (free_clust f) (n_fatent f) (fsize f) (volbase f) (fatbase f) (dirbase f)
    (database f) (winsect f) (win f).
Definition set_fsi_flag (v : Z) (f : FATFS) : FATFS :=
  Build_FATFS (fs_type f) (drv f) (csize f) (n_fats f) (wflag f) v (fs_id f) (n_rootdir f)
    (last_clust f) (free_clust f) (n_fatent f) (fsize f) (volbase f) (fatbase f) (dirbase f)
    (database f) (winsect f) (win f).
Definition set_fs_id (v : Z) (f : FATFS) : FATFS :=
  Build_FATFS (fs_type f) (drv f) (csize f) (n_fats f) (wflag f) (fsi_flag f) v (n_rootdir f)
    (last_clust f) (free_clust f) (n_fatent f) (fsize f) (volbase f) (fatbase f) (dirbase f)
    (database f) (winsect f) (win f).
Definition set_n_rootdir (v : Z) (f : FATFS) : FATFS :=
  Build_FATFS (fs_type f) (drv f) (csize f) (n_fats f) (wflag f) (fsi_flag f) (fs_id f) v
    (last_clust f) (free_clust f) (n_fatent f) (fsize f) (volbase f) (fatbase f) (dirbase f)
    (database f) (winsect f) (win f).
Definition set_last_clust (v : Z) (f : FATFS) : FATFS :=
  Build_FATFS (fs_type f) (drv f) (csize f) (n_fats f) (wflag f) (fsi_flag f) (fs_id f) (n_rootdir f)
    v (free_clust f) (n_fatent f) (fsize f) (volbase f) (fatbase f) (dirbase f)
    (database f) (winsect f) (win f).
Definition set_free_clust (v : Z) (f : FATFS) : FATFS :=
  Build_FATFS (fs_type f) (drv f) (csize f) (n_fats f) (wflag f) (fsi_flag f) (fs_id f) (n_rootdir f)
    (last_clust f) v (n_fatent f) (fsize f) (volbase f) (fatbase f) (dirbase f)
    (database f) (winsect f) (win f).
Definition set_n_fatent (v : Z) (f : FATFS) : FATFS :=
  Build_FATFS (fs_type f) (drv f) (csize f) (n_fats f) (wflag f) (fsi_flag f) (fs_id f) (n_rootdir f)
    (last_clust f) (free_clust f) v (fsize f) (volbase f) (fatbase f) (dirbase f)
    (database f) (winsect f) (win f).
Definition set_fsize (v : Z) (f : FATFS) : FATFS :=
  Build_FATFS (fs_type f) (drv f) (csize f) (n_fats f) (wflag f) (fsi_flag f) (fs_id f) (n_rootdir f)
    (last_clust f) (free_clust f) (n_fatent f) v (volbase f) (fatbase f) (dirbase f)
    (database f) (winsect f) (win f).
Definition set_volbase (v : Z) (f : FATFS) : FATFS :=
  Build_FATFS (fs_type f) (drv f) (csize f) (n_fats f) (wflag f) (fsi_flag f) (fs_id f) (n_rootdir f)
    (last_clust f) (free_clust f) (n_fatent f) (fsize f) v (fatbase f) (dirbase f)
    (database f) (winsect f) (win f).
Definition set_fatbase (v : Z) (f : FATFS) : FATFS :=
  Build_FATFS (fs_type f) (drv f) (csize f) (n_fats f) (wflag f) (fsi_flag f) (fs_id f) (n_rootdir f)
    (last_clust f) (free_clust f) (n_fatent f) (fsize f) (volbase f) v (dirbase f)
    (database f) (winsect f) (win f).
Definition set_dirbase (v : Z) (f : FATFS) : FATFS :=
  Build_FATFS (fs_type f) (drv f) (csize f) (n_fats f) (wflag f) (fsi_flag f) (fs_id f) (n_rootdir f)
    (last_clust f) (free_clust f) (n_fatent f) (fsize f) (volbase f) (fatbase f) v
    (database f) (winsect f) (win f).
Definition set_database (v : Z) (f : FATFS) : FATFS :=
  Build_FATFS (fs_type f) (drv f) (csize f) (n_fats f) (wflag f) (fsi_flag f) (fs_id f) (n_rootdir f)
    (last_clust f) (free_clust f) (n_fatent f) (fsize f) (volbase f) (fatbase f) (dirbase f)
    v (winsect f) (win f).
Definition set_winsect (v : Z) (f : FATFS) : FATFS :=
  Build_FATFS (fs_type f) (drv f) (csize f) (n_fats f) (wflag f) (fsi_flag f) (fs_id f) (n_rootdir f)
    (last_clust f) (free_clust f) (n_fatent f) (fsize f) (volbase f) (fatbase f) (dirbase f)
    (database f) v (win f).
Definition set_win (v : list Z) (f : FATFS) : FATFS :=
  Build_FATFS (fs_type f) (drv f) (csize f) (n_fats f) (wflag f) (fsi_flag f) (fs_id f) (n_rootdir f)
    (last_clust f) (free_clust f) (n_fatent f) (fsize f) (volbase f) (fatbase f) (dirbase f)
    (database f) (winsect f) v.

(** ** File and directory objects

    [f_fs]/[d_fs] is the pointer to the file system object (0: null);
    [dir_ptr]/[dir] point into its [win] and are offsets ([None]: null). *)

Record FIL := {
  f_fs : Z; f_id : Z; flag : Z; err : FRESULT; fptr : Z; f_fsize : Z; f_sclust : Z;
  f_clust : Z; dsect : Z; dir_sect : Z; dir_ptr : Z
}.

Record DIR := {
  d_fs : Z; d_id : Z; index : Z; sclust : Z; clust : Z; sect : Z; dir : option Z;
  fn : list Z; pat : list Z
}.

Record FILINFO := {
  fi_fsize : Z; fdate : Z; ftime : Z; fattrib : Z; fname : list Z
}.

Definition set_d_fs (v : Z) (d : DIR) : DIR :=
  Build_DIR v (d_id d) (index d) (sclust d) (clust d) (sect d) (dir d) (fn d) (pat d).
Definition set_d_id (v : Z) (d : DIR) : DIR :=
  Build_DIR (d_fs d) v (index d) (sclust d) (clust d) (sect d) (dir d) (fn d) (pat d).
Definition set_index (v : Z) (d : DIR) : DIR :=
  Build_DIR (d_fs d) (d_id d) v (sclust d) (clust d) (sect d) (dir d) (fn d) (pat d).
Definition set_sclust (v : Z) (d : DIR) : DIR :=
  Build_DIR (d_fs d) (d_id d) (index d) v (clust d) (sect d) (dir d) (fn d) (pat d).
Definition set_clust (v : Z) (d : DIR) : DIR :=
  Build_DIR (d_fs d) (d_id d) (index d) (sclust d) v (sect d) (dir d) (fn d) (pat d).
Definition set_sect (v : Z) (d : DIR) : DIR :=
  Build_DIR (d_fs d) (d_id d) (index d) (sclust d) (clust d) v (dir d) (fn d) (pat d).
Definition set_dir (v : option Z) (d : DIR) : DIR :=
  Build_DIR (d_fs d) (d_id d) (index d) (sclust d) (clust d) (sect d) v (fn d) (pat d).
Definition set_fn (v : list Z) (d : DIR) : DIR :=
  Build_DIR (d_fs d) (d_id d) (index d) (sclust d) (clust d) (sect d) (dir d) v (pat d).
Definition set_pat (v : list Z) (d : DIR) : DIR :=
  Build_DIR (d_fs d) (d_id d) (index d) (sclust d) (clust d) (sect d) (dir d) (fn d) v.

Definition set_f_fs (v : Z) (f : FIL) : FIL :=
  Build_FIL v (f_id f) (flag f) (err f) (fptr f) (f_fsize f) (f_sclust f) (f_clust f) (dsect f)
    (dir_sect f) (dir_ptr f).
Definition set_flag (v : Z) (f : FIL) : FIL :=
  Build_FIL (f_fs f) (f_id f) v (err f) (fptr f) (f_fsize f) (f_sclust f) (f_clust f) (dsect f)
    (dir_sect f) (dir_ptr f).
Definition set_err (v : FRESULT) (f : FIL) : FIL :=
  Build_FIL (f_fs f) (f_id f) (flag f) v (fptr f) (f_fsize f) (f_sclust f) (f_clust f) (dsect f)
    (dir_sect f) (dir_ptr f).
Definition set_fptr (v : Z) (f : FIL) : FIL :=
  Build_FIL (f_fs f) (f_id f) (flag f) (err f) v (f_fsize f) (f_sclust f) (f_clust f) (dsect f)
    (dir_sect f) (dir_ptr f).
Definition set_f_fsize (v : Z) (f : FIL) : FIL :=
  Build_FIL (f_fs f) (f_id f) (flag f) (err f) (fptr f) v (f_sclust f) (f_clust f) (dsect f)
    (dir_sect f) (dir_ptr f).
Definition set_f_sclust (v : Z) (f : FIL) : FIL :=
  Build_FIL (f_fs f) (f_id f) (flag f) (err f) (fptr f) (f_fsize f) v (f_clust f) (dsect f)
    (dir_sect f) (dir_ptr f).
Definition set_f_clust (v : Z) (f : FIL) : FIL :=
  Build_FIL (f_fs f) (f_id f) (flag f) (err f) (fptr f) (f_fsize f) (f_sclust f) v (dsect f)
    (dir_sect f) (dir_ptr f).
Definition set_dsect (v : Z) (f : FIL) : FIL :=
  Build_FIL (f_fs f) (f_id f) (flag f) (err f) (fptr f) (f_fsize f) (f_sclust f) (f_clust f) v
    (dir_sect f) (dir_ptr f).

(** ** The disk

    [disk_read] yields the bytes it stored in the caller's buffer. *)
Class DiskIO (D : Type) := {
  disk_initialize : Z -> M D Z;
  disk_status : Z -> M D Z;
  disk_read : Z -> Z -> Z -> M D (DRESULT * list Z);
  disk_write : Z -> list Z -> Z -> Z -> M D DRESULT;
  disk_ioctl : Z -> Z -> M D DRESULT
}.

(** ** State of the functions that work on one FATFS object *)

Record vol (D : Type) := { fs : FATFS; disk : D }.
Arguments fs {D} _.
Arguments disk {D} _.
Arguments Build_vol {D} _ _.

Section Vol.
Context {D : Type}.

Definition getfs {A} (f : FATFS -> A) : M (vol D) A := gets (fun v => f (fs v)).
Definition setfs (f : FATFS -> FATFS) : M (vol D) unit :=
  modify (fun v => Build_vol (f (fs v)) (disk v)).
Definition io {A} (m : M D A) : M (vol D) A :=
  zoom disk (fun d v => Build_vol (fs v) d) m.
(** A change of the window's bytes. *)
Definition upd_win (f : list Z -> list Z) : M (vol D) unit :=
  setfs (fun s => set_win (f (win s)) s).
End Vol.

(** ** What FatFs relies on

    [sector d s] is the content of sector [s] and [ready d s] says that the
    driver completes transfers of it; transfers of ready sectors move whole
    512-byte sectors and [CTRL_SYNC] succeeds. *)
Class DiskLaws (D : Type) `{DiskIO D} := {
  sector : D -> Z -> list Z;
  ready : D -> Z -> Prop;
  sector_length : forall d s, length (sector d s) = 512%nat;
  sector_bytes : forall d s, Forall is_byte (sector d s);
  disk_read_law : forall d dv s n,
    0 < n -> (forall x, s <= x < s + n -> ready d x) ->
    wp (disk_read dv s n)
       (fun '(r, bytes) d' =>
          r = RES_OK /\ bytes = concat (sector d <$> seqZ s n) /\
          (forall x, sector d' x = sector d x) /\ (forall x, ready d x -> ready d' x)) d;
  disk_write_law : forall d dv bytes s n,
    0 < n -> length bytes = Z.to_nat (n * 512) -> Forall is_byte bytes ->
    (forall x, s <= x < s + n -> ready d x) ->
    wp (disk_write dv bytes s n)
       (fun r d' =>
          r = RES_OK /\
          (forall x, sector d' x =
             if (s <=? x) && (x <? s + n) then slice bytes (Z.to_nat ((x - s) * 512)) 512
             else sector d x) /\
          (forall x, ready d x -> ready d' x)) d;
  disk_ioctl_law : forall d dv,
    wp (disk_ioctl dv CTRL_SYNC)
       (fun r d' => r = RES_OK /\ (forall x, sector d' x = sector d x) /\
                    (forall x, ready d x -> ready d' x)) d
}.

(** ** A disk in memory *)

Record ramdisk := { blocks : gmap Z (list Z); nblocks : Z }.

Definition ram_sector (d : ramdisk) (s : Z) : list Z :=
  u8 <$> resize 512 0 (default [] (blocks d !! s)).

Definition ram_ready (d : ramdisk) (s n : Z) : bool := (0 <=? s) && (s + n <=? nblocks d).

Fixpoint ram_store (bytes : list Z) (s : Z) (n : nat) (m : gmap Z (list Z)) : gmap Z (list Z) :=
  match n with
  | O => m
  | S n => ram_store (drop 512 bytes) (s + 1) n (<[s := take 512 bytes]> m)
  end.

#[export] Instance ram_DiskIO : DiskIO ramdisk := {|
  disk_initialize _ := ret 0;
  disk_status _ := ret 0;
  disk_read _ s n := fun d =>
    if ram_ready d s n then Some ((RES_OK, concat (ram_sector d <$> seqZ s n)), d)
    else Some ((RES_ERROR, []), d);
  disk_write _ bytes s n := fun d =>
    if ram_ready d s n
    then Some (RES_OK, {| blocks := ram_store bytes s (Z.to_nat n) (blocks d); nblocks := nblocks d |})
    else Some (RES_ERROR, d);
  disk_ioctl _ _ := ret RES_OK
|}.

Lemma ram_store_lookup bytes s n m x :
  length bytes = (n * 512)%nat ->
  ram_store bytes s n m !! x =
    if (s <=? x) && (x <? s + Z.of_nat n) then Some (slice bytes (Z.to_nat ((x - s) * 512)) 512)
    else m !! x.
Proof.
  revert bytes s m. induction n as [|n IH]; intros bytes s m Hl; cbn [ram_store].
  - destruct (Z.leb_spec s x), (Z.ltb_spec x (s + Z.of_nat 0)); cbn [andb]; done || lia.
  - rewrite IH by (rewrite length_drop; lia).
    destruct (Z.leb_spec s x), (Z.leb_spec (s + 1) x), (Z.ltb_spec x (s + 1 + Z.of_nat n)),
      (Z.ltb_spec x (s + Z.of_nat (S n))); cbn [andb]; try lia; try done.
    + unfold slice. rewrite drop_drop. do 3 f_equal. lia.
    + by rewrite lookup_insert_ne by lia.
    + replace x with s by lia. rewrite lookup_insert_eq. unfold slice.
      by replace (Z.to_nat ((s - s) * 512)) with 0%nat by lia.
    + by rewrite lookup_insert_ne by lia.
Qed.

Lemma fmap_u8_id l : Forall is_byte l -> u8 <$> l = l.
Proof. induction 1 as [|x l Hx _ IH]; [done|]. cbn. f_equal; [by apply u8_small|exact IH]. Qed.

#[export] Instance ram_DiskLaws : DiskLaws ramdisk.
Proof.
  refine {| sector := ram_sector; ready := fun d s => 0 <= s < nblocks d |}.
  - intros. unfold ram_sector. by rewrite length_fmap, length_resize.
  - intros. unfold ram_sector. apply Forall_fmap, Forall_true. intros. apply u8_range.
  - intros d dv s n Hn Hr. unfold wp. cbn [disk_read ram_DiskIO].
    assert (ram_ready d s n = true) as ->.
    { unfold ram_ready. pose proof (Hr s). pose proof (Hr (s + n - 1)).
      apply andb_true_iff. split; [apply Z.leb_le|apply Z.leb_le]; lia. }
    split; [done|]. split; [done|]. split; [done|]. auto.
  - intros d dv bytes s n Hn Hl Hb Hr. unfold wp. cbn [disk_write ram_DiskIO].
    assert (ram_ready d s n = true) as ->.
    { unfold ram_ready. pose proof (Hr s). pose proof (Hr (s + n - 1)).
      apply andb_true_iff. split; [apply Z.leb_le|apply Z.leb_le]; lia. }
    split; [done|]. split; [|auto]. intros x. unfold ram_sector. cbn [blocks].
    rewrite ram_store_lookup by lia. rewrite Z2Nat.id by lia.
    destruct (Z.leb_spec s x); [|done]. destruct (Z.ltb_spec x (s + n)); [|done]. cbn [andb default].
    assert (length (slice bytes (Z.to_nat ((x - s) * 512)) 512) = 512%nat) as Hs
      by (rewrite length_slice; lia).
    rewrite resize_all_alt by done. apply fmap_u8_id. unfold slice.
    by apply Forall_take, Forall_drop.
  - intros d dv. done.
Defined.

(** ** Little-endian loads and stores as arithmetic *)

Lemma LD_WORD_spec (l : list Z) p :
  Forall is_byte l -> LD_WORD l p = getb l p + 256 * getb l (p + 1).
Proof.
  intros Hl. pose proof (getb_byte l p Hl) as B0. pose proof (getb_byte l (p + 1) Hl) as B1.
  unfold LD_WORD, is_byte in *. rewrite shiftl_mul, lor_add by lia.
  unfold u16. rewrite Z.mod_small; lia.
Qed.

Lemma LD_DWORD_spec (l : list Z) p :
  Forall is_byte l ->
  LD_DWORD l p = getb l p + 2 ^ 8 * getb l (p + 1) + 2 ^ 16 * getb l (p + 2) + 2 ^ 24 * getb l (p + 3).
Proof.
  intros Hl. pose proof (getb_byte l p Hl) as B0. pose proof (getb_byte l (p + 1) Hl) as B1.
  pose proof (getb_byte l (p + 2) Hl) as B2. pose proof (getb_byte l (p + 3) Hl) as B3.
  unfold LD_DWORD, is_byte in *. rewrite !shiftl_mul by lia.
  rewrite (lor_add _ (getb l (p + 2) * 2 ^ 16) 24) by lia.
  replace (getb l (p + 3) * 2 ^ 24 + getb l (p + 2) * 2 ^ 16)
    with ((getb l (p + 3) * 2 ^ 8 + getb l (p + 2)) * 2 ^ 16) by lia.
  rewrite (lor_add _ (getb l (p + 1) * 2 ^ 8) 16) by lia.
  replace ((getb l (p + 3) * 2 ^ 8 + getb l (p + 2)) * 2 ^ 16 + getb l (p + 1) * 2 ^ 8)
    with (((getb l (p + 3) * 2 ^ 8 + getb l (p + 2)) * 2 ^ 8 + getb l (p + 1)) * 2 ^ 8) by lia.
  rewrite (lor_add _ (getb l p) 8) by lia.
  unfold u32. rewrite Z.mod_small; lia.
Qed.

Lemma ST_WORD_length p v l : length (ST_WORD p v l) = length l.
Proof. unfold ST_WORD. by rewrite !length_setb. Qed.

Lemma ST_DWORD_length p v l : length (ST_DWORD p v l) = length l.
Proof. unfold ST_DWORD. by rewrite !length_setb. Qed.

Lemma ST_WORD_bytes p v l : Forall is_byte l -> Forall is_byte (ST_WORD p v l).
Proof. intros. unfold ST_WORD. repeat apply setb_bytes; auto using u8_range. Qed.

Lemma ST_DWORD_bytes p v l : Forall is_byte l -> Forall is_byte (ST_DWORD p v l).
Proof. intros. unfold ST_DWORD. repeat apply setb_bytes; auto using u8_range. Qed.

Lemma ST_WORD_getb p v l j :
  0 <= p -> p + 1 < zlen l -> 0 <= j ->
  getb (ST_WORD p v l) j =
    if j =? p + 1 then v / 2 ^ 8 mod 2 ^ 8 else if j =? p then v mod 2 ^ 8 else getb l j.
Proof.
  intros. unfold ST_WORD. rewrite !getb_setb by (rewrite ?zlen_setb; lia).
  destruct (j =? p + 1); [|done]. unfold u8, u16. rewrite shiftr_div by lia.
  Z.div_mod_to_equations. lia.
Qed.

Lemma ST_DWORD_getb p v l j :
  0 <= p -> p + 3 < zlen l -> 0 <= j ->
  getb (ST_DWORD p v l) j =
    if j =? p + 3 then v / 2 ^ 24 mod 2 ^ 8 else if j =? p + 2 then v / 2 ^ 16 mod 2 ^ 8
    else if j =? p + 1 then v / 2 ^ 8 mod 2 ^ 8 else if j =? p then v mod 2 ^ 8 else getb l j.
Proof.
  intros. unfold ST_DWORD. rewrite !getb_setb by (rewrite ?zlen_setb; lia).
  unfold u8, u16, u32. rewrite !shiftr_div by lia.
  destruct (j =? p + 3); [Z.div_mod_to_equations; lia|].
  destruct (j =? p + 2); [Z.div_mod_to_equations; lia|].
  destruct (j =? p + 1); [Z.div_mod_to_equations; lia|]. done.
Qed.

(** Store then load. *)
Lemma LD_ST_WORD p v l :
  Forall is_byte l -> 0 <= p -> p + 1 < zlen l -> LD_WORD (ST_WORD p v l) p = v mod 2 ^ 16.
Proof.
  intros. rewrite LD_WORD_spec by (by apply ST_WORD_bytes). rewrite !ST_WORD_getb by lia.
  rewrite Z.eqb_refl. rewrite (proj2 (Z.eqb_neq p (p + 1))), Z.eqb_refl by lia.
  Z.div_mod_to_equations. lia.
Qed.

Lemma LD_ST_DWORD p v l :
  Forall is_byte l -> 0 <= p -> p + 3 < zlen l -> LD_DWORD (ST_DWORD p v l) p = v mod 2 ^ 32.
Proof.
  intros. rewrite LD_DWORD_spec by (by apply ST_DWORD_bytes). rewrite !ST_DWORD_getb by lia.
  repeat match goal with |- context [?a =? ?b] => destruct (Z.eqb_spec a b); try lia end.
  Z.div_mod_to_equations. lia.
Qed.
