(* ===== verification/FatAccess.v ===== *)
(** * FatFs window, FAT access and cluster chains ([ff.c] lines 650-995)

    The sector window with write-back ([sync_window], [move_window],
    [sync_fs]), FAT entries in the three formats ([get_fat], [put_fat]) and the
    cluster chain operations built on them. *)

From S2P Require Import Prelude FatBase.

Section Access.
Context {D : Type} `{DiskIO D}.

(** ** Window *)

(** [for (nf = fs->n_fats; nf >= 2; nf--) { wsect += fs->fsize; disk_write(...); }]:
    [k] rounds are left. *)
Fixpoint reflect_fats (k : nat) (wsect : Z) : M (vol D) unit :=
  match k with
  | O => ret tt
  | S k =>
      let! fz := getfs fsize in
      let! d := getfs drv in
      let! w := getfs win in
      let wsect := u32 (wsect + fz) in
      io (disk_write d w wsect 1) ;;;
      reflect_fats k wsect
  end.

Definition sync_window : M (vol D) FRESULT :=
  let! wf := getfs wflag in
  if nz wf then
    let! wsect := getfs winsect in
    let! d := getfs drv in
    let! w := getfs win in
    let! r := io (disk_write d w wsect 1) in
    if negb (is_res_ok r) then ret FR_DISK_ERR
    else
      setfs (set_wflag 0) ;;;
      let! fb := getfs fatbase in
      let! fz := getfs fsize in
      let! nf := getfs n_fats in
      when (u32 (wsect - fb) <? fz) (reflect_fats (Z.to_nat (nf - 1)) wsect) ;;;
      ret FR_OK
  else ret FR_OK.

Definition move_window (sector : Z) : M (vol D) FRESULT :=
  let! ws := getfs winsect in
  if negb (sector =? ws) then
    let! res := sync_window in
    if is_ok res then
      let! d := getfs drv in
      let! (r, bytes) := io (disk_read d sector 1) in
      upd_win (fun w => splice w 0 bytes) ;;;
      if negb (is_res_ok r) then
        setfs (set_winsect 0xFFFFFFFF) ;;; ret FR_DISK_ERR
      else
        setfs (set_winsect sector) ;;; ret FR_OK
    else ret res
  else ret FR_OK.

Definition sync_fs : M (vol D) FRESULT :=
  let! res := sync_window in
  if is_ok res then
    let! ty := getfs fs_type in
    let! fl := getfs fsi_flag in
    (if (ty =? FS_FAT32) && (fl =? 1) then
       let! fc := getfs free_clust in
       let! lc := getfs last_clust in
       upd_win (mem_set 0 0 SS) ;;;
       upd_win (ST_WORD BS_55AA 0xAA55) ;;;
       upd_win (ST_DWORD FSI_LeadSig 0x41615252) ;;;
       upd_win (ST_DWORD FSI_StrucSig 0x61417272) ;;;
       upd_win (ST_DWORD FSI_Free_Count fc) ;;;
       upd_win (ST_DWORD FSI_Nxt_Free lc) ;;;
       let! vb := getfs volbase in
       setfs (set_winsect (u32 (vb + 1))) ;;;
       let! d := getfs drv in
       let! w := getfs win in
       let! ws := getfs winsect in
       io (disk_write d w ws 1) ;;;
       setfs (set_fsi_flag 0)
     else ret tt) ;;;
    let! d := getfs drv in
    let! r := io (disk_ioctl d CTRL_SYNC) in
    ret (if negb (is_res_ok r) then FR_DISK_ERR else res)
  else ret res.

(** ** Sectors of a cluster *)

Definition clust2sect (f : FATFS) (clst : Z) : Z :=
  let clst := u32 (clst - 2) in
  if clst >=? u32 (n_fatent f - 2) then 0
  else u32 (clst * csize f + database f).

(** ** FAT entries *)

Definition DISK_ERROR : Z := 0xFFFFFFFF.

Definition get_fat (clst : Z) : M (vol D) Z :=
  let! nfe := getfs n_fatent in
  if (clst <? 2) || (clst >=? nfe) then ret 1
  else
    let! ty := getfs fs_type in
    let! fb := getfs fatbase in
    if ty =? FS_FAT12 then
      let bc := u32 (clst + clst / 2) in
      let! res := move_window (u32 (fb + bc / SS)) in
      if negb (is_ok res) then ret DISK_ERROR else
      let! w := getfs win in
      let wc := getb w (bc mod SS) in
      let bc := u32 (bc + 1) in
      let! res := move_window (u32 (fb + bc / SS)) in
      if negb (is_ok res) then ret DISK_ERROR else
      let! w := getfs win in
      let wc := Z.lor wc (Z.shiftl (getb w (bc mod SS)) 8) in
      ret (if has clst 1 then Z.shiftr wc 4 else Z.land wc 0xFFF)
    else if ty =? FS_FAT16 then
      let! res := move_window (u32 (fb + clst / (SS / 2))) in
      if negb (is_ok res) then ret DISK_ERROR else
      let! w := getfs win in
      ret (LD_WORD w (u32 (clst * 2) mod SS))
    else if ty =? FS_FAT32 then
      let! res := move_window (u32 (fb + clst / (SS / 4))) in
      if negb (is_ok res) then ret DISK_ERROR else
      let! w := getfs win in
      ret (Z.land (LD_DWORD w (u32 (clst * 4) mod SS)) 0x0FFFFFFF)
    else ret 1.

Definition put_fat (clst val : Z) : M (vol D) FRESULT :=
  let! nfe := getfs n_fatent in
  if (clst <? 2) || (clst >=? nfe) then ret FR_INT_ERR
  else
    let! ty := getfs fs_type in
    let! fb := getfs fatbase in
    if ty =? FS_FAT12 then
      let bc := u32 (clst + clst / 2) in
      let! res := move_window (u32 (fb + bc / SS)) in
      if negb (is_ok res) then ret res else
      let p := bc mod SS in
      upd_win (fun w => setb w p
        (u8 (if has clst 1 then Z.lor (Z.land (getb w p) 0x0F) (Z.shiftl (u8 val) 4) else u8 val))) ;;;
      setfs (set_wflag 1) ;;;
      let bc := u32 (bc + 1) in
      let! res := move_window (u32 (fb + bc / SS)) in
      if negb (is_ok res) then ret res else
      let p := bc mod SS in
      upd_win (fun w => setb w p
        (u8 (if has clst 1 then u8 (Z.shiftr val 4)
             else Z.lor (Z.land (getb w p) 0xF0) (Z.land (u8 (Z.shiftr val 8)) 0x0F)))) ;;;
      setfs (set_wflag 1) ;;;
      ret res
    else if ty =? FS_FAT16 then
      let! res := move_window (u32 (fb + clst / (SS / 2))) in
      if negb (is_ok res) then ret res else
      upd_win (ST_WORD (u32 (clst * 2) mod SS) (u16 val)) ;;;
      setfs (set_wflag 1) ;;;
      ret res
    else if ty =? FS_FAT32 then
      let! res := move_window (u32 (fb + clst / (SS / 4))) in
      if negb (is_ok res) then ret res else
      let p := u32 (clst * 4) mod SS in
      upd_win (fun w => ST_DWORD p (Z.lor val (Z.land (LD_DWORD w p) 0xF0000000)) w) ;;;
      setfs (set_wflag 1) ;;;
      ret res
    else ret FR_INT_ERR.

(** ** Cluster chains *)

(** [fs->free_clust += d; fs->fsi_flag |= 1] unless the count is unknown. *)
Definition adjust_free (d : Z) : M (vol D) unit :=
  let! fc := getfs free_clust in
  when (negb (fc =? 0xFFFFFFFF))
    (setfs (set_free_clust (u32 (fc + d))) ;;;
     setfs (fun f => set_fsi_flag (Z.lor (fsi_flag f) 1) f)).

Definition remove_chain_body (clst : Z) : M (vol D) (Z + FRESULT) :=
  let! nfe := getfs n_fatent in
  if clst <? nfe then
    let! nxt := get_fat clst in
    if nxt =? 0 then ret (inr FR_OK)
    else if nxt =? 1 then ret (inr FR_INT_ERR)
    else if nxt =? 0xFFFFFFFF then ret (inr FR_DISK_ERR)
    else
      let! res := put_fat clst 0 in
      if negb (is_ok res) then ret (inr res)
      else adjust_free 1 ;;; ret (inl nxt)
  else ret (inr FR_OK).

Definition remove_chain (clst : Z) : M (vol D) FRESULT :=
  let! nfe := getfs n_fatent in
  if (clst <? 2) || (clst >=? nfe) then ret FR_INT_ERR
  else loop (S (Z.to_nat nfe)) remove_chain_body clst.

(** The search of [create_chain]: [inl] is a [return], [inr] the free cluster. *)
Definition find_free_body (scl ncl : Z) : M (vol D) (Z + (Z + Z)) :=
  let! nfe := getfs n_fatent in
  let ncl := u32 (ncl + 1) in
  let wrap := ncl >=? nfe in
  let ncl := if wrap then 2 else ncl in
  if wrap && (ncl >? scl) then ret (inr (inl 0)) else
  let! cs := get_fat ncl in
  if cs =? 0 then ret (inr (inr ncl))
  else if (cs =? 0xFFFFFFFF) || (cs =? 1) then ret (inr (inl cs))
  else if ncl =? scl then ret (inr (inl 0))
  else ret (inl ncl).

Definition find_free (scl : Z) : M (vol D) (Z + Z) :=
  let! nfe := getfs n_fatent in
  loop (S (S (Z.to_nat nfe))) (find_free_body scl) scl.

(** From the search on (lines 966-994). *)
Definition allocate (clst scl : Z) : M (vol D) Z :=
  let! r := find_free scl in
  match r with
  | inl v => ret v
  | inr ncl =>
      let! res := put_fat ncl 0x0FFFFFFF in
      let! res := (if is_ok res && negb (clst =? 0) then put_fat clst ncl else ret res) in
      if is_ok res then
        setfs (set_last_clust ncl) ;;;
        adjust_free (-1) ;;;
        ret ncl
      else ret (if res_eq res FR_DISK_ERR then 0xFFFFFFFF else 1)
  end.

Definition create_chain (clst : Z) : M (vol D) Z :=
  let! nfe := getfs n_fatent in
  if clst =? 0 then
    let! lc := getfs last_clust in
    allocate clst (if (lc =? 0) || (lc >=? nfe) then 1 else lc)
  else
    let! cs := get_fat clst in
    if cs <? 2 then ret 1
    else if cs =? 0xFFFFFFFF then ret cs
    else if cs <? nfe then ret cs
    else allocate clst clst.
End Access.

(** ** The logical disk

    What the file system sees: the window's bytes for a dirty window, the
    device's bytes elsewhere. *)

Section Theory.
Context {D : Type} `{L : DiskLaws D}.
Implicit Types (v : vol D) (f : FATFS).

Definition lsec v (s : Z) : list Z :=
  if nz (wflag (fs v)) && (s =? winsect (fs v)) then win (fs v) else sector (disk v) s.

(** Sectors of the second FAT copy, which the module only ever writes. *)
Definition mirror f (s : Z) : Prop :=
  fatbase f + fsize f <= s < fatbase f + n_fats f * fsize f.

(** The part of the object that access functions never change. *)
Definition geo f :=
  (fs_type f, drv f, csize f, n_fats f, fs_id f, n_rootdir f,
   (n_fatent f, fsize f, volbase f, fatbase f, dirbase f, database f)).

(** Well-formed volume: the window is a sector, a clean window is coherent with
    the device, a dirty one can be written back, and both FAT copies are
    accessible and below the 32-bit limit. *)
Record wf v : Prop := {
  wf_len : length (win (fs v)) = 512%nat;
  wf_bytes : Forall is_byte (win (fs v));
  wf_clean : wflag (fs v) = 0 -> winsect (fs v) = 0xFFFFFFFF \/
             ((~ mirror (fs v) (winsect (fs v)) /\ 0 <= winsect (fs v) < 0xFFFFFFFF) /\
              win (fs v) = sector (disk v) (winsect (fs v)));
  wf_dirty : wflag (fs v) <> 0 ->
             ready (disk v) (winsect (fs v)) /\ ~ mirror (fs v) (winsect (fs v)) /\
             0 <= winsect (fs v) < 0xFFFFFFFF;
  wf_nfats : n_fats (fs v) = 1 \/ n_fats (fs v) = 2;
  wf_fat : 0 <= fatbase (fs v) /\ 0 <= fsize (fs v) /\
           fatbase (fs v) + n_fats (fs v) * fsize (fs v) < 0xFFFFFFFF;
  wf_ready : forall s, fatbase (fs v) <= s < fatbase (fs v) + n_fats (fs v) * fsize (fs v) ->
             ready (disk v) s
}.

(** [v'] shows the same logical disk as [v] on the same volume. *)
Definition same_view v v' : Prop :=
  geo (fs v') = geo (fs v) /\
  (forall s, ~ mirror (fs v) s -> lsec v' s = lsec v s) /\
  (forall s, ready (disk v) s -> ready (disk v') s).

Lemma geo_mirror f f' s : geo f' = geo f -> mirror f' s <-> mirror f s.
Proof.
  unfold geo, mirror. intros E.
  assert (fatbase f' = fatbase f /\ fsize f' = fsize f /\ n_fats f' = n_fats f) as (-> & -> & ->)
    by (repeat split; congruence). done.
Qed.

#[export] Instance same_view_preorder : PreOrder same_view.
Proof.
  split; [done|]. intros v1 v2 v3 (G1 & S1 & R1) (G2 & S2 & R2).
  split; [congruence|]. split; [|auto]. intros s Hs.
  rewrite S2, S1; [done|done|]. by rewrite (geo_mirror _ _ _ G1).
Qed.

Lemma lsec_length v s : wf v -> length (lsec v s) = 512%nat.
Proof. intros W. unfold lsec. destruct (_ && _); [apply W|apply sector_length]. Qed.

Lemma lsec_bytes v s : wf v -> Forall is_byte (lsec v s).
Proof. intros W. unfold lsec. destruct (_ && _); [apply W|apply sector_bytes]. Qed.

Lemma lsec_clean v s : wflag (fs v) = 0 -> lsec v s = sector (disk v) s.
Proof. intros E. unfold lsec. by rewrite E. Qed.

Lemma lsec_dirty v : wflag (fs v) <> 0 -> lsec v (winsect (fs v)) = win (fs v).
Proof. intros E. unfold lsec. by rewrite (proj2 (nz_true _) E), Z.eqb_refl. Qed.

Lemma wp_getfs {A} (g : FATFS -> A) (Q : A -> vol D -> Prop) v : Q (g (fs v)) v -> wp (getfs g) Q v.
Proof. done. Qed.

Lemma wp_setfs g (Q : unit -> vol D -> Prop) v :
  Q tt (Build_vol (g (fs v)) (disk v)) -> wp (setfs g) Q v.
Proof. done. Qed.

Lemma wp_upd_win g (Q : unit -> vol D -> Prop) v :
  Q tt (Build_vol (set_win (g (win (fs v))) (fs v)) (disk v)) -> wp (upd_win g) Q v.
Proof. done. Qed.

Lemma wp_io {A} (m : M D A) (Q : A -> vol D -> Prop) v :
  wp m (fun a d => Q a (Build_vol (fs v) d)) (disk v) -> wp (io m) Q v.
Proof. unfold wp, io, zoom. by destruct (m (disk v)) as [[a d]|]. Qed.

Lemma slice_one (l : list Z) s : length l = 512%nat -> slice l (Z.to_nat ((s - s) * 512)) 512 = l.
Proof. intros. replace (Z.to_nat ((s - s) * 512)) with 0%nat by lia. by apply slice_all. Qed.

(** Writing one ready sector. *)
Lemma wp_write1 v dv bytes s (Q : DRESULT -> vol D -> Prop) :
  length bytes = 512%nat -> Forall is_byte bytes -> ready (disk v) s ->
  (forall d', (forall x, sector d' x = if x =? s then bytes else sector (disk v) x) ->
     (forall x, ready (disk v) x -> ready d' x) -> Q RES_OK (Build_vol (fs v) d')) ->
  wp (io (disk_write dv bytes s 1)) Q v.
Proof.
  intros Hl Hb Hr HQ. apply wp_io. eapply wp_mono.
  { apply disk_write_law; [lia|done|done|]. intros x Hx. by replace x with s by lia. }
  intros r d' (-> & E & R). apply HQ; [|done]. intros x. rewrite E.
  destruct (Z.eqb_spec x s) as [->|].
  - rewrite (proj2 (Z.leb_le _ _)), (proj2 (Z.ltb_lt _ _)) by lia. by apply slice_one.
  - destruct (Z.leb_spec s x), (Z.ltb_spec x (s + 1)); done || lia.
Qed.

Lemma wp_sync_window v (Q : FRESULT -> vol D -> Prop) :
  wf v ->
  (forall d', (forall s, ~ mirror (fs v) s -> sector d' s = lsec v s) ->
     (forall s, wflag (fs v) <> 0 -> n_fats (fs v) = 2 -> s = winsect (fs v) ->
        fatbase (fs v) <= s < fatbase (fs v) + fsize (fs v) ->
        sector d' (s + fsize (fs v)) = win (fs v)) ->
     (forall s, ready (disk v) s -> ready d' s) ->
     Q FR_OK (Build_vol (set_wflag 0 (fs v)) d')) ->
  wp sync_window Q v.
Proof.
  intros W HQ. unfold sync_window. wp_step. apply wp_getfs.
  destruct (nz (wflag (fs v))) eqn:Ew; [apply nz_true in Ew|apply nz_false in Ew].
  2: { apply wp_ret. replace v with (Build_vol (set_wflag 0 (fs v)) (disk v)).
       - apply HQ; try done. intros s _. by rewrite lsec_clean.
       - destruct v as [[] ?]; cbn in *. by subst. }
  destruct (wf_dirty v W Ew) as (Hr & Hm & Hws).
  do 3 (wp_step; apply wp_getfs). wp_step.
  apply wp_write1; [apply W|apply W|done|]. intros d1 E1 R1. cbn [is_res_ok negb].
  change (is_res_ok RES_OK) with true. cbn [negb].
  wp_step. apply wp_setfs. do 3 (wp_step; apply wp_getfs). cbn [fs disk].
  change (fatbase (set_wflag 0 (fs v))) with (fatbase (fs v)).
  change (fsize (set_wflag 0 (fs v))) with (fsize (fs v)).
  change (n_fats (set_wflag 0 (fs v))) with (n_fats (fs v)).
  destruct (wf_fat v W) as (F0 & F1 & F2).
  assert (fatbase (fs v) + fsize (fs v) < 0xFFFFFFFF) as F3
    by (destruct (wf_nfats v W) as [N|N]; rewrite N in F2; lia).
  assert (forall d', (forall x, ~ mirror (fs v) x -> sector d' x = sector d1 x) ->
            forall s, ~ mirror (fs v) s -> sector d' s = lsec v s) as Hview.
  { intros d' Ed s Hs. rewrite Ed, E1 by done. unfold lsec.
    by rewrite (proj2 (nz_true _) Ew). }
  wp_step. destruct (Z.ltb_spec (u32 (winsect (fs v) - fatbase (fs v))) (fsize (fs v))) as [Hin|Hout].
  2: { apply wp_ret, wp_ret. apply HQ; [by apply Hview| |done].
       intros s _ _ -> Hs. exfalso. rewrite u32_small in Hout by (unfold is_u32; lia). lia. }
  unfold when. assert (winsect (fs v) - fatbase (fs v) < fsize (fs v) /\ fatbase (fs v) <= winsect (fs v)) as [Hi1 Hi2].
  { unfold u32 in Hin. destruct (Z.leb_spec (fatbase (fs v)) (winsect (fs v))).
    - rewrite Z.mod_small in Hin by lia. lia.
    - rewrite <- (Z.mod_add _ 1) in Hin by lia. rewrite Z.mod_small in Hin by lia. lia. }
  destruct (wf_nfats v W) as [N|N]; rewrite N in F2 |- *.
  { change (Z.to_nat (1 - 1)) with 0%nat. cbn [reflect_fats]. apply wp_ret, wp_ret.
    apply HQ; [by apply Hview| |done]. intros. congruence. }
  change (Z.to_nat (2 - 1)) with 1%nat. cbn [reflect_fats].
  do 3 (wp_step; apply wp_getfs). cbn [fs disk].
  change (fsize (set_wflag 0 (fs v))) with (fsize (fs v)).
  change (win (set_wflag 0 (fs v))) with (win (fs v)).
  rewrite u32_small by (unfold is_u32; lia).
  assert (mirror (fs v) (winsect (fs v) + fsize (fs v))) as Hmir by (unfold mirror; lia).
  wp_step. apply wp_write1; [apply W|apply W| |].
  { apply R1, W. unfold mirror in *. lia. }
  intros d2 E2 R2. apply wp_ret, wp_ret. cbn [fs]. apply HQ.
  - apply Hview. intros x Hx. rewrite E2. destruct (Z.eqb_spec x (winsect (fs v) + fsize (fs v))); [|done].
    subst x. done.
  - intros s _ _ -> _. rewrite E2. by rewrite Z.eqb_refl.
  - auto.
Qed.

Lemma sync_window_view v d' :
  wf v -> (forall s, ~ mirror (fs v) s -> sector d' s = lsec v s) ->
  (forall s, ready (disk v) s -> ready d' s) ->
  wf (Build_vol (set_wflag 0 (fs v)) d') /\ same_view v (Build_vol (set_wflag 0 (fs v)) d').
Proof.
  intros W Hd Hr. split.
  - destruct W as [W1 W2 W3 W4 W5 W6 W7]. constructor; cbn; try done; [|by auto].
    intros _. destruct (Z.eq_dec (wflag (fs v)) 0) as [E|E].
    + destruct (W3 E) as [|[[Hm Hr'] E']]; [by left|right]. split; [done|]. by rewrite Hd, lsec_clean.
    + destruct (W4 E) as (_ & Hm & Hr'). right. split; [done|]. by rewrite Hd, lsec_dirty.
  - split; [done|]. split; [|done]. intros s Hs. rewrite lsec_clean by done. cbn. by apply Hd.
Qed.

(** *** [move_window] brings a sector of the logical disk into the window *)

Lemma wp_move_window v s (Q : FRESULT -> vol D -> Prop) :
  wf v -> ready (disk v) s -> ~ mirror (fs v) s -> 0 <= s < 0xFFFFFFFF ->
  (forall v', wf v' -> same_view v v' -> winsect (fs v') = s -> win (fs v') = lsec v s ->
     last_clust (fs v') = last_clust (fs v) -> free_clust (fs v') = free_clust (fs v) ->
     fsi_flag (fs v') = fsi_flag (fs v) -> Q FR_OK v') ->
  wp (move_window s) Q v.
Proof.
  intros W Hrd Hm Hs HQ. unfold move_window. wp_step. apply wp_getfs.
  destruct (Z.eqb_spec s (winsect (fs v))) as [E|E]; cbn [negb].
  { apply wp_ret, HQ; try done. destruct (Z.eq_dec (wflag (fs v)) 0) as [Ew|Ew].
    - rewrite lsec_clean by done. destruct (wf_clean v W Ew) as [|[_ ->]]; [lia|]. by rewrite E.
    - by rewrite E, lsec_dirty. }
  wp_step. apply wp_sync_window; [done|]. intros d1 E1 _ R1.
  destruct (sync_window_view v d1 W E1 R1) as [W1 V1]. change (is_ok FR_OK) with true. cbv iota.
  wp_step. apply wp_getfs. wp_step. apply wp_io. eapply wp_mono.
  { apply disk_read_law; [lia|]. intros x Hx. replace x with s by lia. cbn. auto. }
  intros [r bytes] d2 (-> & -> & E2 & R2). cbn [fs disk] in *.
  change (seqZ s 1) with [s]. cbn [fmap list_fmap concat]. rewrite app_nil_r.
  wp_step. apply wp_upd_win. change (is_res_ok RES_OK) with true. cbn [negb fs disk].
  wp_step. apply wp_setfs, wp_ret. cbn [fs disk].
  assert (splice (win (fs v)) 0 (sector d1 s) = sector d1 s) as Esp.
  { unfold splice. rewrite take_0, app_nil_l, sector_length, drop_ge, app_nil_r; [done|].
    rewrite (wf_len v W). lia. }
  set (f' := set_winsect s _).
  assert (forall x, sector d2 x = sector d1 x) as E12 by (intros; by rewrite E2).
  apply HQ; cbn; try done.
  - destruct W1 as [X1 X2 X3 X4 X5 X6 X7]. constructor; cbn in *; try done; [| | |by auto].
    + rewrite Esp. apply sector_length.
    + rewrite Esp. apply sector_bytes.
    + intros _. right. split; [done|]. by rewrite Esp, E12.
  - transitivity (Build_vol (set_wflag 0 (fs v)) d1); [done|]. split; [done|]. split; [|done].
    intros x Hx. unfold lsec. cbn. by rewrite E12.
  - change (win (set_wflag 0 (fs v))) with (win (fs v)). rewrite Esp. by apply E1.
Qed.

(** ** The FAT as an array of entries *)

Definition fat_byte v (i : Z) : Z := getb (lsec v (fatbase (fs v) + i / SS)) (i mod SS).

Definition fat_entry v (c : Z) : Z :=
  let ty := fs_type (fs v) in
  if ty =? FS_FAT12 then
    let wc := fat_byte v (c + c / 2) + 256 * fat_byte v (c + c / 2 + 1) in
    if c mod 2 =? 1 then wc / 16 else wc mod 2 ^ 12
  else if ty =? FS_FAT16 then fat_byte v (c * 2) + 256 * fat_byte v (c * 2 + 1)
  else (fat_byte v (c * 4) + 2 ^ 8 * fat_byte v (c * 4 + 1) + 2 ^ 16 * fat_byte v (c * 4 + 2) +
        2 ^ 24 * fat_byte v (c * 4 + 3)) mod 2 ^ 28.

(** Number of values of an entry. *)
Definition fat_mod f : Z :=
  if fs_type f =? FS_FAT12 then 2 ^ 12 else if fs_type f =? FS_FAT16 then 2 ^ 16 else 2 ^ 28.

(** The FAT has room for [n_fatent] entries. *)
Definition fat_need f : Z :=
  if fs_type f =? FS_FAT12 then n_fatent f * 3 / 2 + n_fatent f mod 2
  else if fs_type f =? FS_FAT16 then n_fatent f * 2 else n_fatent f * 4.

Record fat_geo f : Prop := {
  fg_type : fs_type f = FS_FAT12 \/ fs_type f = FS_FAT16 \/ fs_type f = FS_FAT32;
  fg_count : 2 <= n_fatent f <= fat_mod f - 8;
  fg_need : fat_need f <= fsize f * SS
}.

Definition valid_clust f (c : Z) : Prop := 2 <= c < n_fatent f.

Lemma geo_fat_geo f f' : geo f' = geo f -> fat_geo f -> fat_geo f'.
Proof.
  unfold geo. intros E [G1 G2 G3].
  assert (fs_type f' = fs_type f /\ fsize f' = fsize f /\ n_fatent f' = n_fatent f) as (E1 & E2 & E3)
    by (repeat split; congruence).
  constructor; unfold fat_need, fat_mod in *; rewrite ?E1, ?E2, ?E3; done.
Qed.

Lemma fat_mod_le f : fat_mod f <= 2 ^ 28.
Proof. unfold fat_mod. destruct (_ =? _); [|destruct (_ =? _)]; lia. Qed.

Lemma fat_mod_pos f : fat_mod f <> 0.
Proof. unfold fat_mod. destruct (_ =? _); [|destruct (_ =? _)]; lia. Qed.

Lemma fg_bound f : fat_geo f -> 2 <= n_fatent f < 2 ^ 28.
Proof.
  intros [_ H2 _]. pose proof (fat_mod_le f). lia.
Qed.

(** Index ranges of an entry's bytes. *)
Lemma fat_index v c i :
  fat_geo (fs v) -> valid_clust (fs v) c ->
  (fs_type (fs v) = FS_FAT12 -> c + c / 2 <= i <= c + c / 2 + 1) ->
  (fs_type (fs v) = FS_FAT16 -> c * 2 <= i <= c * 2 + 1) ->
  (fs_type (fs v) = FS_FAT32 -> c * 4 <= i <= c * 4 + 3) ->
  0 <= i < fsize (fs v) * SS.
Proof.
  intros [G1 G2 G3] [C1 C2] H1 H2 H3. unfold fat_need in G3.
  destruct G1 as [E|[E|E]]; rewrite E in *; cbn in G3.
  - specialize (H1 eq_refl). Z.div_mod_to_equations. lia.
  - specialize (H2 eq_refl). lia.
  - specialize (H3 eq_refl). lia.
Qed.

(** A sector of the first FAT copy is accessible. *)
Lemma fat_sector_ok v i :
  wf v -> 0 <= i < fsize (fs v) * SS ->
  ready (disk v) (fatbase (fs v) + i / SS) /\ ~ mirror (fs v) (fatbase (fs v) + i / SS) /\
  0 <= fatbase (fs v) + i / SS < 0xFFFFFFFF.
Proof.
  intros W Hi. destruct (wf_fat v W) as (F0 & F1 & F2). unfold SS in *.
  assert (0 <= i / 512 < fsize (fs v)) by (Z.div_mod_to_equations; lia).
  assert (fsize (fs v) <= n_fats (fs v) * fsize (fs v)) by (destruct (wf_nfats v W) as [-> | ->]; lia).
  split; [|unfold mirror; split; lia]. apply W. lia.
Qed.

Lemma fat_byte_view v v' i :
  wf v -> same_view v v' -> 0 <= i < fsize (fs v) * SS -> fat_byte v' i = fat_byte v i.
Proof.
  intros W (G & S & _) Hi. unfold fat_byte. assert (fatbase (fs v') = fatbase (fs v)) as ->.
  { unfold geo in G. congruence. }
  rewrite S; [done|]. by apply fat_sector_ok.
Qed.

Lemma fat_byte_is_byte v i : wf v -> is_byte (fat_byte v i).
Proof. intros W. apply getb_byte. by apply lsec_bytes. Qed.

(** Equal bytes give equal entries. *)
Lemma fat_entry_ext v v' c :
  geo (fs v') = geo (fs v) -> fat_geo (fs v) -> valid_clust (fs v) c ->
  (forall i, 0 <= i < fsize (fs v) * SS ->
     (fs_type (fs v) = FS_FAT12 -> c + c / 2 <= i <= c + c / 2 + 1) ->
     (fs_type (fs v) = FS_FAT16 -> c * 2 <= i <= c * 2 + 1) ->
     (fs_type (fs v) = FS_FAT32 -> c * 4 <= i <= c * 4 + 3) -> fat_byte v' i = fat_byte v i) ->
  fat_entry v' c = fat_entry v c.
Proof.
  intros G FG Hc Hb. unfold fat_entry. assert (fs_type (fs v') = fs_type (fs v)) as ->.
  { unfold geo in G. congruence. }
  assert (forall i, (fs_type (fs v) = FS_FAT12 -> c + c / 2 <= i <= c + c / 2 + 1) ->
     (fs_type (fs v) = FS_FAT16 -> c * 2 <= i <= c * 2 + 1) ->
     (fs_type (fs v) = FS_FAT32 -> c * 4 <= i <= c * 4 + 3) -> fat_byte v' i = fat_byte v i) as Hb'.
  { intros i H1 H2 H3. apply Hb; [|done..]. by eapply fat_index. }
  destruct (fg_type _ FG) as [E|[E|E]]; rewrite E in *; cbn.
  all: rewrite !Hb' by (intros ?; first [done | lia]); done.
Qed.

Lemma fat_entry_view v v' c :
  wf v -> fat_geo (fs v) -> same_view v v' -> valid_clust (fs v) c -> fat_entry v' c = fat_entry v c.
Proof.
  intros W FG V Hc. apply fat_entry_ext; [apply V|done|done|].
  intros. by apply fat_byte_view.
Qed.

Lemma fat_entry_range v c : wf v -> fat_geo (fs v) -> 0 <= fat_entry v c < fat_mod (fs v).
Proof.
  intros W FG. unfold fat_entry, fat_mod.
  assert (forall i, 0 <= fat_byte v i < 256) as Hb by (intros; by apply fat_byte_is_byte).
  pose proof (Hb (c + c / 2)). pose proof (Hb (c + c / 2 + 1)).
  pose proof (Hb (c * 2)). pose proof (Hb (c * 2 + 1)).
  destruct (fg_type _ FG) as [-> | [-> | ->]]; cbn -[Z.pow]; [destruct (_ =? 1)| |];
    Z.div_mod_to_equations; lia.
Qed.

(** *** [get_fat] reads the entry *)

(** What a window operation leaves alone besides the view. *)
Definition same_alloc f f' : Prop :=
  last_clust f' = last_clust f /\ free_clust f' = free_clust f /\ fsi_flag f' = fsi_flag f.

#[export] Instance same_alloc_preorder : PreOrder same_alloc.
Proof. split; [done|]. intros f1 f2 f3 (?&?&?) (?&?&?). repeat split; congruence. Qed.

(** [move_window] onto the FAT sector that holds byte [i]. *)
Lemma wp_move_fat v fb i (Q : FRESULT -> vol D -> Prop) :
  wf v -> fatbase (fs v) = fb -> 0 <= i < fsize (fs v) * SS ->
  (forall v', wf v' -> same_view v v' -> same_alloc (fs v) (fs v') ->
     winsect (fs v') = fatbase (fs v) + i / SS -> win (fs v') = lsec v (fatbase (fs v) + i / SS) ->
     Q FR_OK v') ->
  wp (move_window (u32 (fb + i / SS))) Q v.
Proof.
  intros W <- Hi HQ. destruct (fat_sector_ok v i W Hi) as (Hr & Hm & Hs).
  rewrite u32_small by (unfold is_u32; lia). apply wp_move_window; try done.
  intros v' W' V' E1 E2 A1 A2 A3. by apply HQ.
Qed.

Lemma same_view_fatbase v v' : same_view v v' -> fatbase (fs v') = fatbase (fs v).
Proof. intros [G _]. unfold geo in G. congruence. Qed.

Lemma same_view_fsize v v' : same_view v v' -> fsize (fs v') = fsize (fs v).
Proof. intros [G _]. unfold geo in G. congruence. Qed.

Lemma div_half i j k : 0 < k -> i = j * k + i mod k -> i / k = j.
Proof. intros. Z.div_mod_to_equations. nia. Qed.

Lemma wp_get_fat v c (Q : Z -> vol D -> Prop) :
  wf v -> fat_geo (fs v) -> valid_clust (fs v) c ->
  (forall v', wf v' -> same_view v v' -> same_alloc (fs v) (fs v') -> Q (fat_entry v c) v') ->
  wp (get_fat c) Q v.
Proof.
  intros W FG Hc HQ. pose proof Hc as [Hc1 Hc2]. pose proof (fg_bound _ FG) as [Hn1 Hn2].
  unfold get_fat. wp_step. apply wp_getfs.
  destruct (Z.ltb_spec c 2); [lia|]. destruct (Z.geb_spec c (n_fatent (fs v))); [lia|]. cbn [orb].
  do 2 (wp_step; apply wp_getfs).
  pose proof (fun i => fat_index v c i FG Hc) as Hix. unfold fat_entry in HQ.
  assert (forall i, 0 <= fat_byte v i < 256) as Hb by (intros; by apply fat_byte_is_byte).
  destruct (fg_type _ FG) as [E|[E|E]]; rewrite E in *; cbn [Z.eqb FS_FAT12 FS_FAT16 FS_FAT32 Pos.eqb] in *.
  - rewrite (u32_small (c + c / 2)) by (unfold is_u32; Z.div_mod_to_equations; lia).
    pose proof (Hix (c + c / 2)) as Hi0. pose proof (Hix (c + c / 2 + 1)) as Hi1.
    specialize (Hi0 ltac:(lia) ltac:(done) ltac:(done)). specialize (Hi1 ltac:(lia) ltac:(done) ltac:(done)).
    wp_step. apply wp_move_fat; [done|done|done|]. intros v1 W1 V1 A1 _ E1. cbn [is_ok negb].
    change (is_ok FR_OK) with true. cbn [negb]. wp_step. apply wp_getfs. rewrite E1.
    rewrite (u32_small (c + c / 2 + 1)) by (unfold is_u32; Z.div_mod_to_equations; lia).
    wp_step. apply wp_move_fat; [done|by apply same_view_fatbase|by rewrite (same_view_fsize v v1 V1)|].
    intros v2 W2 V2 A2 _ E2. change (is_ok FR_OK) with true. cbn [negb].
    wp_step. apply wp_getfs. apply wp_ret. rewrite E2.
    fold (fat_byte v (c + c / 2)). fold (fat_byte v1 (c + c / 2 + 1)).
    rewrite (fat_byte_view v v1) by done.
    pose proof (Hb (c + c / 2)). pose proof (Hb (c + c / 2 + 1)).
    rewrite shiftl_mul, (lor_add_comm _ _ 8) by lia.
    replace (if has c 1 then _ else _) with
      (if c mod 2 =? 1 then (fat_byte v (c + c / 2) + 256 * fat_byte v (c + c / 2 + 1)) / 16
       else (fat_byte v (c + c / 2) + 256 * fat_byte v (c + c / 2 + 1)) mod 2 ^ 12).
    { apply HQ; [done|by transitivity v1|by transitivity (fs v1)]. }
    unfold has. rewrite land_1_odd. rewrite shiftr_div by lia.
    rewrite (land_mask_low _ 12) by (lia || done).
    destruct (Z.eqb_spec (c mod 2) 1) as [Ec|Ec].
    + rewrite Ec. cbn. f_equal. lia.
    + replace (c mod 2) with 0 by (Z.div_mod_to_equations; lia). cbn -[Z.pow]. f_equal. lia.
  - change (SS / 2) with 256.
    specialize (Hix (c * 2) ltac:(done) ltac:(lia) ltac:(done)).
    assert (c / 256 = c * 2 / SS) as -> by (unfold SS; Z.div_mod_to_equations; lia).
    rewrite (u32_small (c * 2)) by (unfold is_u32; lia).
    wp_step. apply wp_move_fat; [done|done|done|]. intros v1 W1 V1 A1 _ E1.
    change (is_ok FR_OK) with true. cbn [negb]. wp_step. apply wp_getfs. apply wp_ret.
    rewrite E1, LD_WORD_spec by (by apply lsec_bytes).
    replace (getb _ (c * 2 mod SS + 1)) with (fat_byte v (c * 2 + 1)).
    { by apply HQ. }
    unfold fat_byte, SS. f_equal; [f_equal|]; Z.div_mod_to_equations; lia.
  - change (SS / 4) with 128.
    specialize (Hix (c * 4) ltac:(done) ltac:(done) ltac:(lia)).
    assert (c / 128 = c * 4 / SS) as -> by (unfold SS; Z.div_mod_to_equations; lia).
    rewrite (u32_small (c * 4)) by (unfold is_u32; lia).
    wp_step. apply wp_move_fat; [done|done|done|]. intros v1 W1 V1 A1 _ E1.
    change (is_ok FR_OK) with true. cbn [negb]. wp_step. apply wp_getfs. apply wp_ret.
    rewrite E1, LD_DWORD_spec by (by apply lsec_bytes).
    rewrite (land_mask_low _ 28) by (lia || done).
    replace (getb _ (c * 4 mod SS + 1)) with (fat_byte v (c * 4 + 1)).
    2: { unfold fat_byte, SS. f_equal; [f_equal|]; Z.div_mod_to_equations; lia. }
    replace (getb _ (c * 4 mod SS + 2)) with (fat_byte v (c * 4 + 2)).
    2: { unfold fat_byte, SS. f_equal; [f_equal|]; Z.div_mod_to_equations; lia. }
    replace (getb _ (c * 4 mod SS + 3)) with (fat_byte v (c * 4 + 3)).
    2: { unfold fat_byte, SS. f_equal; [f_equal|]; Z.div_mod_to_equations; lia. }
    by apply HQ.
Qed.

(** *** Changing the window's bytes *)

(** The sectors of the first FAT copy. *)
Definition in_fat f (s : Z) : Prop := fatbase f <= s < fatbase f + fsize f.

(** The window holds sector [s] and may be modified and written back. *)
Record at_sector v (s : Z) : Prop := {
  as_sect : winsect (fs v) = s;
  as_win : win (fs v) = lsec v s;
  as_ready : ready (disk v) s;
  as_mirror : ~ mirror (fs v) s;
  as_range : 0 <= s < 0xFFFFFFFF
}.

Definition poke (g : list Z -> list Z) v : vol D :=
  Build_vol (set_wflag 1 (set_win (g (win (fs v))) (fs v))) (disk v).

Lemma poke_wf g v s :
  wf v -> at_sector v s ->
  length (g (lsec v s)) = 512%nat -> Forall is_byte (g (lsec v s)) -> wf (poke g v).
Proof.
  intros [W1 W2 W3 W4 W5 W6 W7] [E1 E2 E3 E4 E5] Hl Hb. rewrite <- E2 in *.
  constructor; cbn; try done. intros _. by rewrite E1.
Qed.

Lemma poke_lsec g v s x :
  at_sector v s -> lsec (poke g v) x = if x =? s then g (lsec v s) else lsec v x.
Proof.
  intros [E1 E2 E3 E4 E5]. unfold lsec at 1. cbn. rewrite E1.
  destruct (Z.eqb_spec x s); [by rewrite E2|]. unfold lsec. rewrite E1.
  by rewrite (proj2 (Z.eqb_neq x s)), andb_false_r.
Qed.

Lemma at_sector_view v v' s : same_view v v' -> ready (disk v) s -> ~ mirror (fs v) s ->
  0 <= s < 0xFFFFFFFF -> winsect (fs v') = s -> win (fs v') = lsec v s -> at_sector v' s.
Proof.
  intros (G & S & R) Hr Hm Hs E1 E2. constructor; auto.
  - rewrite E2. symmetry. by apply S.
  - by rewrite (geo_mirror _ _ _ G).
Qed.

(** [v'] is [v] with the bytes of the FAT replaced by [h]. *)
Record fat_bytes_upd v v' (h : Z -> Z) : Prop := {
  fb_geo : geo (fs v') = geo (fs v);
  fb_alloc : same_alloc (fs v) (fs v');
  fb_ready : forall s, ready (disk v) s -> ready (disk v') s;
  fb_other : forall s, ~ mirror (fs v) s -> ~ in_fat (fs v) s -> lsec v' s = lsec v s;
  fb_bytes : forall i, 0 <= i < fsize (fs v) * SS -> fat_byte v' i = h i
}.

Lemma view_fat_bytes v v' :
  wf v -> same_view v v' -> same_alloc (fs v) (fs v') -> fat_bytes_upd v v' (fat_byte v).
Proof.
  intros W V A. pose proof V as (G & S & R). constructor; try done.
  - intros s Hm _. by apply S.
  - intros i Hi. by apply fat_byte_view.
Qed.

Lemma geo_in_fat f f' s : geo f' = geo f -> in_fat f' s <-> in_fat f s.
Proof.
  unfold geo, in_fat. intros E.
  assert (fatbase f' = fatbase f /\ fsize f' = fsize f) as (-> & ->) by (split; congruence). done.
Qed.

Lemma fat_bytes_trans v1 v2 v3 h1 h2 :
  fat_bytes_upd v1 v2 h1 -> fat_bytes_upd v2 v3 h2 -> fat_bytes_upd v1 v3 h2.
Proof.
  intros [A1 A2 A3 A4 A5] [B1 B2 B3 B4 B5].
  assert (fsize (fs v2) = fsize (fs v1)) as Ez by (unfold geo in A1; congruence).
  rewrite Ez in *. constructor; auto; [congruence|by transitivity (fs v2)|].
  intros s Hm Hf. rewrite B4, A4; try done.
  - by rewrite (geo_mirror _ _ _ A1).
  - by rewrite (geo_in_fat _ _ _ A1).
Qed.

Lemma fat_bytes_ext v v' h h' :
  (forall i, 0 <= i < fsize (fs v) * SS -> h i = h' i) -> fat_bytes_upd v v' h -> fat_bytes_upd v v' h'.
Proof. intros E [? ? ? ? B]. constructor; auto. intros i Hi. by rewrite B, E. Qed.

(** Modifying the window while it holds the FAT sector of byte [i]. *)
Lemma poke_fat g v i :
  wf v -> 0 <= i < fsize (fs v) * SS -> at_sector v (fatbase (fs v) + i / SS) ->
  fat_bytes_upd v (poke g v)
    (fun j => if j / SS =? i / SS then getb (g (lsec v (fatbase (fs v) + i / SS))) (j mod SS)
              else fat_byte v j).
Proof.
  intros W Hi A. constructor; try done.
  - intros s _ Hs. rewrite (poke_lsec _ _ _ _ A).
    destruct (Z.eqb_spec s (fatbase (fs v) + i / SS)) as [->|]; [|done].
    destruct Hs. unfold in_fat, SS in *. Z.div_mod_to_equations. lia.
  - intros j Hj. unfold fat_byte. cbn [fs poke]. change (fatbase (set_wflag 1 _)) with (fatbase (fs v)).
    rewrite (poke_lsec _ _ _ _ A).
    destruct (Z.eqb_spec (j / SS) (i / SS)) as [->|].
    + by rewrite Z.eqb_refl.
    + by rewrite (proj2 (Z.eqb_neq _ _)) by lia.
Qed.

(** One round of [put_fat]: bring the sector in, modify it, mark it dirty. *)
Lemma wp_poke_fat v fb i g (K : FRESULT -> M (vol D) FRESULT) (Q : FRESULT -> vol D -> Prop) :
  wf v -> fatbase (fs v) = fb -> 0 <= i < fsize (fs v) * SS ->
  (let l := lsec v (fatbase (fs v) + i / SS) in
   length (g l) = 512%nat /\ Forall is_byte (g l)) ->
  (forall v', wf v' ->
     fat_bytes_upd v v' (fun j => if j / SS =? i / SS then getb (g (lsec v (fatbase (fs v) + i / SS))) (j mod SS)
                                  else fat_byte v j) -> wp (K FR_OK) Q v') ->
  wp (let! res := move_window (u32 (fb + i / SS)) in
      if negb (is_ok res) then ret res else
      upd_win g ;;; setfs (set_wflag 1) ;;; K res) Q v.
Proof.
  intros W Hf Hi [Hl Hb] HQ. wp_step. apply wp_move_fat; [done|done|done|].
  intros v1 W1 V1 A1 Es Ew. change (is_ok FR_OK) with true. cbn [negb].
  destruct (fat_sector_ok v i W Hi) as (Hr & Hm & Hs).
  pose proof (at_sector_view v v1 _ V1 Hr Hm Hs Es Ew) as At.
  assert (lsec v1 (fatbase (fs v) + i / SS) = lsec v (fatbase (fs v) + i / SS)) as El by (by apply V1).
  pose proof (same_view_fatbase v v1 V1) as Eb. pose proof (same_view_fsize v v1 V1) as Ez.
  wp_step. apply wp_upd_win. wp_step. apply wp_setfs. cbn [fs disk].
  change (wp (K FR_OK) Q (poke g v1)).
  apply HQ.
  - apply (poke_wf g v1 _ W1 At); by rewrite El.
  - eapply fat_bytes_trans; [by apply view_fat_bytes|].
    eapply fat_bytes_ext; [|apply (poke_fat g v1 i); [done|lia|by rewrite Eb]].
    intros j Hj. cbn. rewrite Eb, El. destruct (_ =? _); [done|]. apply fat_byte_view; [done|done|lia].
Qed.

(** [fat_bytes_upd] with two or four bytes replaced. *)
Lemma same_byte i j : 0 <= i -> 0 <= j -> j / SS = i / SS -> j mod SS = i mod SS -> j = i.
Proof. unfold SS. intros. Z.div_mod_to_equations. lia. Qed.

Lemma wp_poke_byte v fb i (e : Z -> Z) K (Q : FRESULT -> vol D -> Prop) :
  wf v -> fatbase (fs v) = fb -> 0 <= i < fsize (fs v) * SS ->
  (forall v', wf v' ->
     fat_bytes_upd v v' (fun j => if j =? i then u8 (e (fat_byte v i)) else fat_byte v j) ->
     wp (K FR_OK) Q v') ->
  wp (let! res := move_window (u32 (fb + i / SS)) in
      if negb (is_ok res) then ret res else
      upd_win (fun w => setb w (i mod SS) (u8 (e (getb w (i mod SS))))) ;;;
      setfs (set_wflag 1) ;;; K res) Q v.
Proof.
  intros W Hf Hi HQ. apply wp_poke_fat; [done|done|done| |].
  { split; [rewrite length_setb; by apply lsec_length|].
    apply setb_bytes; [by apply lsec_bytes|apply u8_range]. }
  intros v' W' U. apply HQ; [done|]. eapply fat_bytes_ext; [|exact U].
  intros j Hj. cbn. destruct (Z.eqb_spec j i) as [->|Hne].
  - rewrite Z.eqb_refl. apply getb_setb_eq. unfold zlen. rewrite lsec_length by done.
    unfold SS. Z.div_mod_to_equations. lia.
  - destruct (Z.eqb_spec (j / SS) (i / SS)) as [Eq|]; [|done].
    rewrite getb_setb_ne; [unfold fat_byte; by rewrite Eq| | |].
    1-2: unfold SS; Z.div_mod_to_equations; lia.
    intros Em. apply Hne. apply same_byte; [lia|lia|done|by symmetry].
Qed.

(** [v'] is [v] with the entries of the FAT given by [h]. *)
Record fat_upd v v' (h : Z -> Z) : Prop := {
  fu_geo : geo (fs v') = geo (fs v);
  fu_ready : forall s, ready (disk v) s -> ready (disk v') s;
  fu_other : forall s, ~ mirror (fs v) s -> ~ in_fat (fs v) s -> lsec v' s = lsec v s;
  fu_entry : forall c, valid_clust (fs v) c -> fat_entry v' c = h c
}.

Lemma fat_upd_geo_fields v v' h :
  fat_upd v v' h -> fs_type (fs v') = fs_type (fs v) /\ n_fatent (fs v') = n_fatent (fs v) /\
    fsize (fs v') = fsize (fs v) /\ fatbase (fs v') = fatbase (fs v).
Proof. intros [G _ _ _]. unfold geo in G. repeat split; congruence. Qed.

Lemma fat_upd_trans v1 v2 v3 h1 h2 :
  fat_upd v1 v2 h1 -> fat_upd v2 v3 h2 -> fat_upd v1 v3 h2.
Proof.
  intros U1 U2. pose proof (fat_upd_geo_fields _ _ _ U1) as (E1 & E2 & E3 & E4).
  destruct U1 as [A1 A2 A3 A4], U2 as [B1 B2 B3 B4]. constructor; auto; [congruence| |].
  - intros s Hm Hf. rewrite B3, A3; try done.
    + by rewrite (geo_mirror _ _ _ A1).
    + by rewrite (geo_in_fat _ _ _ A1).
  - intros c [? ?]. apply B4. split; [done|congruence].
Qed.

Lemma fat_upd_ext v v' h h' :
  (forall c, valid_clust (fs v) c -> h c = h' c) -> fat_upd v v' h -> fat_upd v v' h'.
Proof. intros E [? ? ? B]. constructor; auto. intros c Hc. by rewrite B, E. Qed.

Lemma view_fat_upd v v' : wf v -> fat_geo (fs v) -> same_view v v' -> fat_upd v v' (fat_entry v).
Proof.
  intros W FG V. pose proof V as (G & S & R). constructor; auto. intros. by apply fat_entry_view.
Qed.

Definition fat_set v (c x : Z) : Z -> Z := fun j => if j =? c then x else fat_entry v j.

(** FAT12: two entries share a byte. *)
Lemma fat_upd_12 v v' c val :
  wf v -> fat_geo (fs v) -> valid_clust (fs v) c -> fs_type (fs v) = FS_FAT12 ->
  let i := c + c / 2 in
  fat_bytes_upd v v'
    (fun j => if j =? i + 1 then
                (if c mod 2 =? 1 then val / 16 mod 256
                 else fat_byte v (i + 1) / 16 * 16 + val / 256 mod 16)
              else if j =? i then
                (if c mod 2 =? 1 then fat_byte v i mod 16 + val mod 16 * 16 else val mod 256)
              else fat_byte v j) ->
  fat_upd v v' (fat_set v c (val mod fat_mod (fs v))).
Proof.
  intros W FG Hc Ety i U. pose proof U as [B1 B2 B3 B4 B5]. constructor; auto.
  intros j Hj. unfold fat_set, fat_entry, fat_mod.
  assert (fs_type (fs v') = FS_FAT12) as -> by (unfold geo in B1; congruence).
  rewrite Ety. cbn -[Z.pow Z.mul].
  pose proof (fat_index v j (j + j / 2) FG Hj ltac:(lia) ltac:(by rewrite Ety) ltac:(by rewrite Ety)) as I0.
  pose proof (fat_index v j (j + j / 2 + 1) FG Hj ltac:(lia) ltac:(by rewrite Ety) ltac:(by rewrite Ety)) as I1.
  rewrite !B5 by done. subst i.
  assert (forall i, 0 <= fat_byte v i < 256) as Hb by (intros; by apply fat_byte_is_byte).
  pose proof (Hb (j + j / 2)) as X0. pose proof (Hb (j + j / 2 + 1)) as X1.
  pose proof (Hb (c + c / 2)) as Y0. pose proof (Hb (c + c / 2 + 1)) as Y1.
  destruct Hj as [Hj _], Hc as [Hc _].
  assert (c = 2 * (c / 2) + c mod 2 /\ 0 <= c mod 2 <= 1) as [Ec Rc] by (Z.div_mod_to_equations; lia).
  assert (j = 2 * (j / 2) + j mod 2 /\ 0 <= j mod 2 <= 1) as [Ej Rj] by (Z.div_mod_to_equations; lia).
  destruct (Z.eqb_spec j c) as [->|Hne].
  - rewrite !Z.eqb_refl. rewrite (proj2 (Z.eqb_neq (c + c / 2) (c + c / 2 + 1))) by lia.
    destruct (Z.eqb_spec (c mod 2) 1); clear -X0 X1; Z.div_mod_to_equations; lia.
  - destruct (Z.eqb_spec (j + j / 2 + 1) (c + c / 2 + 1)); [exfalso; lia|].
    destruct (Z.eqb_spec (j + j / 2) (c + c / 2)); [exfalso; lia|].
    destruct (Z.eqb_spec (j + j / 2) (c + c / 2 + 1)) as [E|].
    + destruct (Z.eqb_spec (j + j / 2 + 1) (c + c / 2)); [lia|].
      rewrite E. destruct (Z.eqb_spec (c mod 2) 1); [exfalso; lia|].
      destruct (Z.eqb_spec (j mod 2) 1); [|exfalso; lia]. clear -Y1 X1. Z.div_mod_to_equations; lia.
    + destruct (Z.eqb_spec (j + j / 2 + 1) (c + c / 2)) as [E|]; [|done].
      rewrite E. destruct (Z.eqb_spec (c mod 2) 1); [|exfalso; lia].
      destruct (Z.eqb_spec (j mod 2) 1); [exfalso; lia|]. clear -Y0 X0. Z.div_mod_to_equations; lia.
Qed.

Lemma fat_upd_16 v v' c val :
  wf v -> fat_geo (fs v) -> valid_clust (fs v) c -> fs_type (fs v) = FS_FAT16 ->
  fat_bytes_upd v v'
    (fun j => if j =? c * 2 + 1 then val / 2 ^ 8 mod 2 ^ 8
              else if j =? c * 2 then val mod 2 ^ 8 else fat_byte v j) ->
  fat_upd v v' (fat_set v c (val mod fat_mod (fs v))).
Proof.
  intros W FG Hc Ety [B1 B2 B3 B4 B5]. constructor; auto.
  intros j Hj. unfold fat_set, fat_entry, fat_mod.
  assert (fs_type (fs v') = FS_FAT16) as -> by (unfold geo in B1; congruence).
  rewrite Ety. cbn -[Z.pow Z.mul].
  pose proof (fun i => fat_index v j i FG Hj ltac:(by rewrite Ety)) as I.
  rewrite !B5 by (apply I; [lia|by rewrite Ety]).
  destruct (Z.eqb_spec j c) as [->|Hne].
  - rewrite !Z.eqb_refl. rewrite (proj2 (Z.eqb_neq (c * 2) (c * 2 + 1))) by lia.
    Z.div_mod_to_equations. lia.
  - by rewrite !(proj2 (Z.eqb_neq _ _)) by lia.
Qed.

Lemma fat_upd_32 v v' c val :
  wf v -> fat_geo (fs v) -> valid_clust (fs v) c -> fs_type (fs v) = FS_FAT32 ->
  fat_bytes_upd v v'
    (fun j => if j =? c * 4 + 3 then val / 2 ^ 24 mod 2 ^ 8
              else if j =? c * 4 + 2 then val / 2 ^ 16 mod 2 ^ 8
              else if j =? c * 4 + 1 then val / 2 ^ 8 mod 2 ^ 8
              else if j =? c * 4 then val mod 2 ^ 8 else fat_byte v j) ->
  fat_upd v v' (fat_set v c (val mod fat_mod (fs v))).
Proof.
  intros W FG Hc Ety [B1 B2 B3 B4 B5]. constructor; auto.
  intros j Hj. unfold fat_set, fat_entry, fat_mod.
  assert (fs_type (fs v') = FS_FAT32) as -> by (unfold geo in B1; congruence).
  rewrite Ety. cbn -[Z.pow Z.mul].
  pose proof (fun i => fat_index v j i FG Hj ltac:(by rewrite Ety) ltac:(by rewrite Ety)) as I.
  rewrite !B5 by (apply I; lia).
  destruct (Z.eqb_spec j c) as [->|Hne].
  - rewrite !Z.eqb_refl. rewrite !(proj2 (Z.eqb_neq _ _)) by lia.
    Z.div_mod_to_equations. lia.
  - by rewrite !(proj2 (Z.eqb_neq _ _)) by lia.
Qed.

(** A word or double word written inside one FAT sector, by bytes. *)
Lemma fat_word_bytes v c k j (w : list Z) (e : Z -> Z) :
  0 < k -> (k | SS) -> 0 <= c -> 0 <= j ->
  (forall p, 0 <= p < SS -> (forall r, 0 <= r < k -> p <> c * k mod SS + r) ->
     getb w p = getb (lsec v (fatbase (fs v) + c * k / SS)) p) ->
  (forall r, 0 <= r < k -> getb w (c * k mod SS + r) = e r) ->
  (if j / SS =? c * k / SS then getb w (j mod SS) else fat_byte v j) =
  (if decide (c * k <= j < c * k + k) then e (j - c * k) else fat_byte v j).
Proof.
  intros Hk [m Hm] Hc Hj Hother Hin. unfold SS in *.
  assert (0 < m) by nia.
  assert (c * k / 512 = c / m /\ c * k mod 512 = c mod m * k) as [E1 E2].
  { rewrite Hm. rewrite Z.div_mul_cancel_r, Z.mul_mod_distr_r by lia. done. }
  rewrite E1, E2 in *. pose proof (Z.div_mod c m ltac:(lia)) as Ec.
  pose proof (Z.mod_pos_bound c m ltac:(lia)) as Rc.
  pose proof (Z.div_mod j 512 ltac:(lia)) as Ej. pose proof (Z.mod_pos_bound j 512 ltac:(lia)) as Rj.
  set (q := c / m) in *. set (t := c mod m) in *. set (q' := j / 512) in *. set (t' := j mod 512) in *.
  destruct (Z.eqb_spec q' q) as [Eq|Hq].
  - destruct (decide _) as [Hd|Hd].
    + rewrite <- (Hin (j - c * k)) by lia. f_equal. nia.
    + rewrite Hother; [|done|].
      * unfold fat_byte, SS. fold q' t'. by rewrite Eq.
      * intros r Hr Er. apply Hd. nia.
  - rewrite decide_False; [done|]. intros Hd. apply Hq.
    assert (t * k + k <= 512) by nia. nia.
Qed.

Lemma fat_upd_intro_16 v v' c val :
  wf v -> fat_geo (fs v) -> valid_clust (fs v) c -> fs_type (fs v) = FS_FAT16 ->
  fat_bytes_upd v v'
    (fun j => if j / SS =? c * 2 / SS
              then getb (ST_WORD (c * 2 mod SS) val (lsec v (fatbase (fs v) + c * 2 / SS))) (j mod SS)
              else fat_byte v j) ->
  fat_upd v v' (fat_set v c (val mod fat_mod (fs v))).
Proof.
  intros W FG Hc Ety U. apply fat_upd_16; try done. eapply fat_bytes_ext; [|exact U].
  intros j Hj. cbn. assert (0 <= c * 2 mod SS /\ c * 2 mod SS + 1 < 512) as [P0 P1].
  { unfold SS. Z.div_mod_to_equations. lia. }
  assert (zlen (lsec v (fatbase (fs v) + c * 2 / SS)) = 512) as Hl
    by (unfold zlen; by rewrite lsec_length).
  rewrite (fat_word_bytes v c 2 j _ (fun r => if r =? 1 then val / 2 ^ 8 mod 2 ^ 8 else val mod 2 ^ 8)).
  - destruct (decide _); destruct (Z.eqb_spec j (c * 2 + 1)), (Z.eqb_spec j (c * 2)), (Z.eqb_spec (j - c * 2) 1);
      done || lia.
  - lia.
  - by exists 256.
  - destruct Hc; lia.
  - lia.
  - intros p Hp Hne. rewrite ST_WORD_getb by lia. pose proof (Hne 0). pose proof (Hne 1).
    by rewrite !(proj2 (Z.eqb_neq _ _)) by lia.
  - intros r Hr. rewrite ST_WORD_getb by lia.
    destruct (Z.eqb_spec r 1), (Z.eqb_spec (c * 2 mod SS + r) (c * 2 mod SS + 1)),
      (Z.eqb_spec (c * 2 mod SS + r) (c * 2 mod SS)); done || lia.
Qed.

Lemma fat_upd_intro_32 v v' c val :
  wf v -> fat_geo (fs v) -> valid_clust (fs v) c -> fs_type (fs v) = FS_FAT32 ->
  fat_bytes_upd v v'
    (fun j => if j / SS =? c * 4 / SS
              then getb (ST_DWORD (c * 4 mod SS) val (lsec v (fatbase (fs v) + c * 4 / SS))) (j mod SS)
              else fat_byte v j) ->
  fat_upd v v' (fat_set v c (val mod fat_mod (fs v))).
Proof.
  intros W FG Hc Ety U. apply fat_upd_32; try done. eapply fat_bytes_ext; [|exact U].
  intros j Hj. cbn. assert (0 <= c * 4 mod SS /\ c * 4 mod SS + 3 < 512) as [P0 P1].
  { unfold SS. Z.div_mod_to_equations. lia. }
  assert (zlen (lsec v (fatbase (fs v) + c * 4 / SS)) = 512) as Hl
    by (unfold zlen; by rewrite lsec_length).
  rewrite (fat_word_bytes v c 4 j _ (fun r =>
    if r =? 3 then val / 2 ^ 24 mod 2 ^ 8 else if r =? 2 then val / 2 ^ 16 mod 2 ^ 8
    else if r =? 1 then val / 2 ^ 8 mod 2 ^ 8 else val mod 2 ^ 8)).
  - destruct (decide _); repeat match goal with |- context [?a =? ?b] => destruct (Z.eqb_spec a b) end;
      done || lia.
  - lia.
  - by exists 128.
  - destruct Hc; lia.
  - lia.
  - intros p Hp Hne. rewrite ST_DWORD_getb by lia.
    pose proof (Hne 0). pose proof (Hne 1). pose proof (Hne 2). pose proof (Hne 3).
    by rewrite !(proj2 (Z.eqb_neq _ _)) by lia.
  - intros r Hr. rewrite ST_DWORD_getb by lia.
    repeat match goal with |- context [?a =? ?b] => destruct (Z.eqb_spec a b) end; done || lia.
Qed.

(** The reserved top four bits of a FAT32 entry do not reach its value. *)
Lemma lor_high_mod val x : Z.lor val (Z.land x 0xF0000000) mod 2 ^ 28 = val mod 2 ^ 28.
Proof.
  change 0xF0000000 with (15 * 2 ^ 28). rewrite land_high by lia.
  rewrite <- !Z.land_ones, Z.land_lor_distr_l by lia.
  by rewrite (land_disjoint _ (Z.ones 28) 28), Z.lor_0_r.
Qed.

Lemma nibble_odd b val : is_byte b ->
  u8 (Z.lor (Z.land b 0x0F) (Z.shiftl (u8 val) 4)) = b mod 16 + val mod 16 * 16.
Proof.
  intros Hb. rewrite (land_mask_low _ 4), shiftl_mul, (lor_add_comm _ _ 4)
    by (lia || done || (Z.div_mod_to_equations; lia)).
  unfold u8. Z.div_mod_to_equations. lia.
Qed.

Lemma nibble_even b val : is_byte b ->
  u8 (Z.lor (Z.land b 0xF0) (Z.land (u8 (Z.shiftr val 8)) 0x0F)) = b / 16 * 16 + val / 256 mod 16.
Proof.
  intros Hb. unfold is_byte in Hb. change 0xF0 with (15 * 2 ^ 4). rewrite land_high by lia.
  rewrite !(land_mask_low _ 4), shiftr_div, lor_add by (lia || done || (Z.div_mod_to_equations; lia)).
  unfold u8. Z.div_mod_to_equations. lia.
Qed.

(** *** [put_fat] sets one entry and nothing else *)

Lemma wp_put_fat12 v c val (Q : FRESULT -> vol D -> Prop) :
  wf v -> fat_geo (fs v) -> valid_clust (fs v) c -> fs_type (fs v) = FS_FAT12 ->
  (forall v', wf v' -> same_alloc (fs v) (fs v') ->
     fat_upd v v' (fat_set v c (val mod fat_mod (fs v))) -> Q FR_OK v') ->
  wp (put_fat c val) Q v.
Proof.
  intros W FG Hc Ety HQ. pose proof Hc as [Hc1 Hc2]. pose proof (fg_bound _ FG) as [Hn1 Hn2].
  unfold put_fat. wp_step. apply wp_getfs.
  destruct (Z.ltb_spec c 2); [lia|]. destruct (Z.geb_spec c (n_fatent (fs v))); [lia|]. cbn [orb].
  do 2 (wp_step; apply wp_getfs). rewrite Ety. cbn [Z.eqb FS_FAT12 Pos.eqb].
  rewrite (u32_small (c + c / 2)) by (unfold is_u32; Z.div_mod_to_equations; lia).
  rewrite (u32_small (c + c / 2 + 1)) by (unfold is_u32; Z.div_mod_to_equations; lia).
  pose proof (fat_index v c (c + c / 2) FG Hc ltac:(lia) ltac:(by rewrite Ety) ltac:(by rewrite Ety)) as I0.
  pose proof (fat_index v c (c + c / 2 + 1) FG Hc ltac:(lia) ltac:(by rewrite Ety) ltac:(by rewrite Ety)) as I1.
  apply (wp_poke_byte v (fatbase (fs v)) (c + c / 2)
    (fun b => if has c 1 then Z.lor (Z.land b 0x0F) (Z.shiftl (u8 val) 4) else u8 val)); try done.
  intros v1 W1 U1. pose proof U1 as [A1 A2 A3 A4 A5].
  assert (fatbase (fs v1) = fatbase (fs v) /\ fsize (fs v1) = fsize (fs v)) as [Eb Ez]
    by (unfold geo in A1; split; congruence).
  apply (wp_poke_byte v1 (fatbase (fs v)) (c + c / 2 + 1)
    (fun b => if has c 1 then u8 (Z.shiftr val 4)
              else Z.lor (Z.land b 0xF0) (Z.land (u8 (Z.shiftr val 8)) 0x0F))); [done|done|by rewrite Ez|].
  intros v2 W2 U2. apply wp_ret. pose proof (fat_bytes_trans _ _ _ _ _ U1 U2) as U.
  apply HQ; [done|apply U|]. apply fat_upd_12; try done. eapply fat_bytes_ext; [|exact U].
  intros j Hj. cbn -[Z.mul]. rewrite (A5 (c + c / 2 + 1)) by done. rewrite (A5 j) by done.
  rewrite (proj2 (Z.eqb_neq (c + c / 2 + 1) (c + c / 2))) by lia.
  assert (has c 1 = (c mod 2 =? 1)) as ->.
  { unfold has, nz. rewrite land_1_odd. destruct (Z.eqb_spec (c mod 2) 0), (Z.eqb_spec (c mod 2) 1);
      cbn [negb]; try done; Z.div_mod_to_equations; lia. }
  destruct (Z.eqb_spec (c mod 2) 1).
  - rewrite nibble_odd by (by apply fat_byte_is_byte). rewrite shiftr_div by lia.
    destruct (j =? c + c / 2 + 1); [|done]. unfold u8. by rewrite Z.mod_mod.
  - rewrite nibble_even by (by apply fat_byte_is_byte).
    destruct (j =? c + c / 2 + 1), (j =? c + c / 2); try done; unfold u8; by rewrite Z.mod_mod.
Qed.

Lemma wp_put_fat v c val (Q : FRESULT -> vol D -> Prop) :
  wf v -> fat_geo (fs v) -> valid_clust (fs v) c ->
  (forall v', wf v' -> same_alloc (fs v) (fs v') ->
     fat_upd v v' (fat_set v c (val mod fat_mod (fs v))) -> Q FR_OK v') ->
  wp (put_fat c val) Q v.
Proof.
  intros W FG Hc HQ. destruct (fg_type _ FG) as [Ety|Ety]; [by apply wp_put_fat12|].
  pose proof Hc as [Hc1 Hc2]. pose proof (fg_bound _ FG) as [Hn1 Hn2].
  unfold put_fat. wp_step. apply wp_getfs.
  destruct (Z.ltb_spec c 2); [lia|]. destruct (Z.geb_spec c (n_fatent (fs v))); [lia|]. cbn [orb].
  do 2 (wp_step; apply wp_getfs).
  destruct Ety as [Ety|Ety]; rewrite Ety; cbn [Z.eqb FS_FAT12 FS_FAT16 FS_FAT32 Pos.eqb].
  - change (SS / 2) with 256.
    assert (c / 256 = c * 2 / SS) as -> by (unfold SS; Z.div_mod_to_equations; lia).
    rewrite (u32_small (c * 2)) by (unfold is_u32; lia).
    apply wp_poke_fat; [done|done| | |].
    + apply (fat_index v c _ FG Hc); [by rewrite Ety|lia|by rewrite Ety].
    + cbn. rewrite ST_WORD_length. split; [by apply lsec_length|by apply ST_WORD_bytes, lsec_bytes].
    + intros v' W' U. apply wp_ret, HQ; [done|apply U|].
      pose proof (fat_upd_intro_16 v v' c (u16 val) W FG Hc Ety U) as E.
      revert E. unfold fat_mod, u16. rewrite Ety. cbn -[Z.pow]. by rewrite Z.mod_mod.
  - change (SS / 4) with 128.
    assert (c / 128 = c * 4 / SS) as -> by (unfold SS; Z.div_mod_to_equations; lia).
    rewrite (u32_small (c * 4)) by (unfold is_u32; lia).
    apply wp_poke_fat; [done|done| | |].
    + apply (fat_index v c _ FG Hc); [by rewrite Ety|by rewrite Ety|lia].
    + cbn -[Z.mul]. rewrite ST_DWORD_length. split; [by apply lsec_length|by apply ST_DWORD_bytes, lsec_bytes].
    + intros v' W' U. apply wp_ret, HQ; [done|apply U|].
      pose proof (fat_upd_intro_32 v v' c _ W FG Hc Ety U) as E.
      revert E. unfold fat_mod. rewrite Ety. cbn -[Z.pow Z.land Z.lor]. by rewrite lor_high_mod.
Qed.

(** *** Allocation of a cluster *)

(** Changing only the allocation hints. *)
Lemma hints_only v f' :
  wf v -> geo f' = geo (fs v) -> wflag f' = wflag (fs v) -> winsect f' = winsect (fs v) ->
  win f' = win (fs v) ->
  wf (Build_vol f' (disk v)) /\ same_view v (Build_vol f' (disk v)).
Proof.
  intros [W1 W2 W3 W4 W5 W6 W7] G E1 E2 E3.
  assert (fatbase f' = fatbase (fs v) /\ fsize f' = fsize (fs v) /\ n_fats f' = n_fats (fs v))
    as (Eb & Ez & En) by (unfold geo in G; repeat split; congruence).
  split.
  - constructor; cbn; rewrite ?Eb, ?Ez, ?En, ?E1, ?E2, ?E3; try done;
      by setoid_rewrite (geo_mirror _ _ _ G).
  - split; [done|]. split; [|done]. intros s _. unfold lsec. cbn. by rewrite E1, E2, E3.
Qed.

Definition adjusted (d fc : Z) : Z := if fc =? 0xFFFFFFFF then fc else u32 (fc + d).

Lemma wp_adjust_free v d (Q : unit -> vol D -> Prop) :
  wf v ->
  (forall v', wf v' -> same_view v v' -> last_clust (fs v') = last_clust (fs v) ->
     free_clust (fs v') = adjusted d (free_clust (fs v)) -> Q tt v') ->
  wp (adjust_free d) Q v.
Proof.
  intros W HQ. unfold adjust_free. wp_step. apply wp_getfs. unfold adjusted in HQ.
  destruct (Z.eqb_spec (free_clust (fs v)) 0xFFFFFFFF); cbn [negb]; wp_step.
  - by apply HQ.
  - wp_step. apply wp_setfs, wp_setfs. cbn [fs disk].
    match goal with |- Q tt (Build_vol ?f _) => destruct (hints_only v f W) as [W' V'] end; try done.
    by apply HQ.
Qed.

(** The clusters that the search has passed when it stops at [c], starting
    after [scl] and wrapping round at the end of the volume. *)
Definition passed f (scl c x : Z) : Prop :=
  valid_clust f x /\ (if scl <? c then scl < x < c else scl < x \/ x < c).

Lemma find_free_round v0 scl ncl v :
  wf v0 -> fat_geo (fs v0) -> wf v -> same_view v0 v -> same_alloc (fs v0) (fs v) ->
  1 <= scl < n_fatent (fs v0) ->
  (forall c, valid_clust (fs v0) c -> fat_entry v0 c <> 1) ->
  (scl <= ncl < n_fatent (fs v0) /\ (forall x, scl < x <= ncl -> fat_entry v0 x <> 0)) \/
  (2 <= ncl < scl /\ (forall x, valid_clust (fs v0) x -> scl < x \/ x <= ncl -> fat_entry v0 x <> 0)) ->
  wp (find_free_body scl ncl) (fun r v' =>
    wf v' /\ same_view v0 v' /\ same_alloc (fs v0) (fs v') /\
    match r with
    | inl ncl' =>
        ((scl <= ncl' < n_fatent (fs v0) /\ (forall x, scl < x <= ncl' -> fat_entry v0 x <> 0) /\ scl <= ncl < ncl') \/
         (2 <= ncl' < scl /\
          (forall x, valid_clust (fs v0) x -> scl < x \/ x <= ncl' -> fat_entry v0 x <> 0) /\
          (scl <= ncl \/ ncl < ncl')))
    | inr (inl b) => b = 0 /\ forall x, valid_clust (fs v0) x -> fat_entry v0 x <> 0
    | inr (inr c) => valid_clust (fs v0) c /\ fat_entry v0 c = 0 /\
                     forall x, passed (fs v0) scl c x -> fat_entry v0 x <> 0
    end) v.
Proof.
  intros W0 FG W V A Hscl Hs1 Hinv.
  pose proof (fg_bound _ FG) as [Hn1 Hn2].
  assert (n_fatent (fs v) = n_fatent (fs v0)) as En by (destruct V as [G _]; unfold geo in G; congruence).
  unfold find_free_body. wp_step. apply wp_getfs. rewrite En.
  assert (1 <= ncl < n_fatent (fs v0)) as Hncl by lia.
  rewrite (u32_small (ncl + 1)) by (unfold is_u32; lia).
  set (wrap := ncl + 1 >=? n_fatent (fs v0)). set (c := if wrap then 2 else ncl + 1).
  assert (wrap && (c >? scl) = true ->
          (wrap = true /\ scl = 1)) as Hret.
  { intros Hb. apply andb_true_iff in Hb as [Hw Hgt]. split; [done|].
    unfold c in Hgt. rewrite Hw in Hgt. apply Z.gtb_lt in Hgt. lia. }
  destruct (wrap && (c >? scl)) eqn:Eb.
  { destruct (Hret eq_refl) as [Hw ->]. apply wp_ret. do 4 (split; [done|]).
    intros x [Hx1 Hx2]. unfold wrap in Hw. apply Z.geb_le in Hw.
    destruct Hinv as [[_ Hi]|[? _]]; [|lia]. apply Hi. lia. }
  (* the entry examined, and what is known about the clusters before it *)
  assert (valid_clust (fs v0) c /\ c <> 1 /\
          (forall x, passed (fs v0) scl c x -> fat_entry v0 x <> 0) /\
          (scl < c \/ (c <= scl /\ (wrap = true \/ ncl < scl)))) as (Hc & _ & Hpass & Hpos).
  { unfold c, wrap in *. destruct (Z.geb_spec (ncl + 1) (n_fatent (fs v0))) as [Hw|Hw]; cbn [andb] in Eb.
    - assert (ncl = n_fatent (fs v0) - 1 /\ 2 <= scl) as [Hl Hs2].
      { split; [lia|]. destruct (Z.gtb_spec 2 scl); [done|lia]. }
      split; [split; lia|]. split; [lia|]. split; [|right; split; [lia|by left]].
      intros x [[X1 X2] Hx]. rewrite (proj2 (Z.ltb_ge scl 2)) in Hx by lia.
      destruct Hinv as [[_ Hi]|[? _]]; [|lia]. apply Hi. lia.
    - split; [split; lia|]. split; [lia|]. split.
      + intros x [Hxv Hx]. destruct Hinv as [[Hr Hi]|[Hr Hi]].
        * rewrite (proj2 (Z.ltb_lt scl (ncl + 1))) in Hx by lia. apply Hi. lia.
        * rewrite (proj2 (Z.ltb_ge scl (ncl + 1))) in Hx by lia. apply Hi; [done|lia].
      + destruct Hinv as [[Hr Hi]|[Hr Hi]]; [left; lia|right; split; [lia|right; lia]]. }
  wp_step. apply wp_get_fat; [done|by eapply geo_fat_geo; [apply V|]|by destruct Hc; split; [|rewrite En]|].
  intros v' W' V' A'. rewrite (fat_entry_view v0 v) by done.
  assert (same_view v0 v' /\ same_alloc (fs v0) (fs v')) as [V'' A''].
  { split; [by transitivity v|by transitivity (fs v)]. }
  pose proof (fat_entry_range v0 c W0 FG) as Hrange.
  pose proof (fat_mod_le (fs v0)) as Hmod.
  destruct (Z.eqb_spec (fat_entry v0 c) 0) as [E0|E0].
  { apply wp_ret. do 5 (split; [done|]). done. }
  rewrite (proj2 (Z.eqb_neq _ 0xFFFFFFFF)), (proj2 (Z.eqb_neq _ 1)) by (lia || by apply Hs1). cbn [orb].
  destruct (Z.eqb_spec c scl) as [Ec|Ec]; apply wp_ret; (split; [done|]); (split; [done|]); (split; [done|]).
  - split; [done|]. intros x Hx. destruct (Z.eq_dec x c) as [->|]; [done|].
    apply Hpass. split; [done|]. rewrite (proj2 (Z.ltb_ge scl c)) by lia. lia.
  - destruct Hpos as [Hp|[Hp Hq]].
    + left. assert (c = ncl + 1) as Ec1.
      { unfold c in *. destruct wrap eqn:Ew; [|done]. exfalso. cbn [andb] in Eb.
        destruct (Z.gtb_spec 2 scl); [done|lia]. }
      split; [destruct Hc; lia|]. split; [|lia]. intros x Hx. destruct (Z.eq_dec x c) as [->|]; [done|].
      apply Hpass. destruct Hc. split; [split; lia|]. rewrite (proj2 (Z.ltb_lt scl c)) by lia. lia.
    + right. split; [destruct Hc; lia|]. split.
      * intros x Hx Hor. destruct (Z.eq_dec x c) as [->|]; [done|].
        apply Hpass. split; [done|]. rewrite (proj2 (Z.ltb_ge scl c)) by lia. lia.
      * unfold c, wrap in *. destruct (Z.geb_spec (ncl + 1) (n_fatent (fs v0))); [|lia].
        left. lia.
Qed.

(** No entry holds the value 1, which the code reports as an internal error. *)
Definition fat_sane v : Prop := forall c, valid_clust (fs v) c -> fat_entry v c <> 1.

Lemma wp_find_free v scl (Q : Z + Z -> vol D -> Prop) :
  wf v -> fat_geo (fs v) -> fat_sane v -> 1 <= scl < n_fatent (fs v) ->
  (forall v', wf v' -> same_view v v' -> same_alloc (fs v) (fs v') ->
     (forall x, valid_clust (fs v) x -> fat_entry v x <> 0) -> Q (inl 0) v') ->
  (forall v' c, wf v' -> same_view v v' -> same_alloc (fs v) (fs v') ->
     valid_clust (fs v) c -> fat_entry v c = 0 ->
     (forall x, passed (fs v) scl c x -> fat_entry v x <> 0) -> Q (inr c) v') ->
  wp (find_free scl) Q v.
Proof.
  intros W FG Sa Hs Q0 Q1. unfold find_free. wp_step. apply wp_getfs.
  apply (wp_loop
    (fun ncl v' => wf v' /\ same_view v v' /\ same_alloc (fs v) (fs v') /\
      ((scl <= ncl < n_fatent (fs v) /\ (forall x, scl < x <= ncl -> fat_entry v x <> 0)) \/
       (2 <= ncl < scl /\
        (forall x, valid_clust (fs v) x -> scl < x \/ x <= ncl -> fat_entry v x <> 0))))
    (fun ncl _ => Z.to_nat (if scl <=? ncl then n_fatent (fs v) - ncl + scl else scl - ncl))).
  - intros ncl v1 (W1 & V1 & A1 & Hinv). eapply wp_mono; [by apply (find_free_round v scl ncl v1)|].
    intros [ncl'|[b|c]] v' (W' & V' & A' & HP).
    + split.
      * split; [done|]. split; [done|]. split; [done|]. tauto.
      * destruct Hinv as [[? _]|[? _]], HP as [(? & _ & ?)|(? & _ & ?)];
          destruct (Z.leb_spec scl ncl), (Z.leb_spec scl ncl'); lia.
    + destruct HP as [-> HP]. by apply Q0.
    + destruct HP as (? & ? & ?). by apply Q1.
  - split; [done|]. split; [done|]. split; [done|]. left. split; [lia|]. intros. lia.
  - destruct (Z.leb_spec scl scl); lia.
Qed.

(** The end-of-chain mark that [create_chain] stores. *)
Definition EOC f : Z := 0x0FFFFFFF mod fat_mod f.

Lemma EOC_end f : fat_geo f -> n_fatent f <= EOC f.
Proof.
  intros [_ Hc _]. unfold EOC, fat_mod in *. destruct (_ =? _); [|destruct (_ =? _)];
    match goal with |- _ <= ?e => let r := eval vm_compute in e in change e with r end; lia.
Qed.

(** What a successful allocation behind [clst] (0: a new chain) does. *)
Record allocated v v' (clst ncl : Z) : Prop := {
  al_wf : wf v';
  al_valid : valid_clust (fs v) ncl;
  al_free : fat_entry v ncl = 0;
  al_upd : fat_upd v v' (fun j => if (negb (clst =? 0)) && (j =? clst) then ncl
                                  else if j =? ncl then EOC (fs v) else fat_entry v j);
  al_last : last_clust (fs v') = ncl;
  al_count : free_clust (fs v') = adjusted (-1) (free_clust (fs v))
}.

Lemma valid_mod f c : fat_geo f -> valid_clust f c -> c mod fat_mod f = c.
Proof. intros [_ Hc _] [? ?]. apply Z.mod_small. lia. Qed.

(** Linking the new cluster and updating the hints (lines 979-994). *)
Lemma link_new v v1 clst ncl :
  wf v -> fat_geo (fs v) -> wf v1 -> same_view v v1 -> same_alloc (fs v) (fs v1) ->
  (clst = 0 \/ (valid_clust (fs v) clst /\ fat_entry v clst <> 0)) ->
  valid_clust (fs v) ncl -> fat_entry v ncl = 0 ->
  wp (let! res := put_fat ncl 0x0FFFFFFF in
      let! res := (if is_ok res && negb (clst =? 0) then put_fat clst ncl else ret res) in
      if is_ok res then
        setfs (set_last_clust ncl) ;;; adjust_free (-1) ;;; ret ncl
      else ret (if res_eq res FR_DISK_ERR then 0xFFFFFFFF else 1))
     (fun r v' => r = ncl /\ allocated v v' clst ncl) v1.
Proof.
  intros W FG W1 V1 A1 Hclst Hn E0.
  assert (n_fatent (fs v1) = n_fatent (fs v) /\ fat_mod (fs v1) = fat_mod (fs v)) as [En Em].
  { destruct V1 as [G _]. unfold geo, fat_mod in *. assert (fs_type (fs v1) = fs_type (fs v)) as -> by congruence.
    split; [congruence|done]. }
  assert (forall v2 h, wf v2 -> fat_upd v v2 h -> same_alloc (fs v) (fs v2) ->
    (forall j, valid_clust (fs v) j -> h j = if (negb (clst =? 0)) && (j =? clst) then ncl
                                  else if j =? ncl then EOC (fs v) else fat_entry v j) ->
    wp (setfs (set_last_clust ncl) ;;; adjust_free (-1) ;;; ret ncl)
       (fun r v' => r = ncl /\ allocated v v' clst ncl) v2) as Hfin.
  { intros v2 h W2 U2 (A2 & A2' & A2'') Hh. wp_step. apply wp_setfs.
    destruct (hints_only v2 (set_last_clust ncl (fs v2)) W2) as [W3 V3]; try done.
    wp_step. apply wp_adjust_free; [done|]. intros v4 W4 V4 L4 F4. apply wp_ret. split; [done|].
    cbn in L4, F4. constructor; try done; [|by rewrite F4, A2'].
    eapply fat_upd_ext; [exact Hh|].
    assert (fat_geo (fs v2)) as FG2 by (eapply geo_fat_geo; [apply U2|done]).
    eapply fat_upd_ext; [|eapply fat_upd_trans; [exact U2|apply view_fat_upd; [exact W2|done|by etransitivity]]].
    intros c Hc. by apply U2. }
  wp_step. apply wp_put_fat; [done|by eapply geo_fat_geo; [apply V1|]|by unfold valid_clust in *; rewrite En|].
  intros v2 W2 A2 U2. change (is_ok FR_OK) with true. cbn [andb].
  assert (fat_upd v v2 (fat_set v ncl (EOC (fs v)))) as U2'.
  { eapply fat_upd_ext; [|eapply fat_upd_trans; [by apply view_fat_upd|exact U2]].
    intros c Hc. unfold fat_set, EOC. rewrite Em. destruct (c =? ncl); [done|]. by apply fat_entry_view. }
  pose proof (fat_upd_geo_fields _ _ _ U2') as (Ety & En2 & _ & _).
  wp_step. destruct (Z.eqb_spec clst 0) as [->|Hz]; cbn [negb].
  { apply wp_ret. change (is_ok FR_OK) with true. cbv iota.
    apply (Hfin v2 _ W2 U2'); [by transitivity (fs v1)|]. intros j Hj. done. }
  destruct Hclst as [?|[Hcl Hne]]; [done|].
  assert (fat_geo (fs v2)) as FG2 by (eapply geo_fat_geo; [apply U2'|done]).
  apply wp_put_fat; [done|done|by unfold valid_clust in *; rewrite En2|].
  intros v3 W3 A3 U3. change (is_ok FR_OK) with true. cbv iota.
  eapply (Hfin v3 _ W3); [eapply fat_upd_trans; [exact U2'|exact U3]|by do 2 (etransitivity; [eassumption|])|].
  intros j Hj. unfold fat_set. cbn [andb].
  assert (fat_mod (fs v2) = fat_mod (fs v)) as -> by (unfold fat_mod; by rewrite Ety).
  rewrite valid_mod by done. destruct (j =? clst); [done|]. by rewrite (fu_entry _ _ _ U2').
Qed.

Lemma wp_allocate v clst scl (Q : Z -> vol D -> Prop) :
  wf v -> fat_geo (fs v) -> fat_sane v -> 1 <= scl < n_fatent (fs v) ->
  (clst = 0 \/ (valid_clust (fs v) clst /\ fat_entry v clst <> 0)) ->
  (forall v', wf v' -> same_view v v' -> same_alloc (fs v) (fs v') ->
     (forall x, valid_clust (fs v) x -> fat_entry v x <> 0) -> Q 0 v') ->
  (forall v' c, allocated v v' clst c ->
     (forall x, passed (fs v) scl c x -> fat_entry v x <> 0) -> Q c v') ->
  wp (allocate clst scl) Q v.
Proof.
  intros W FG Sa Hs Hcl Q0 Q1. unfold allocate. wp_step. apply wp_find_free; [done..|exact Q0|].
  intros v1 c W1 V1 A1 Hc E0 Hp. cbv iota. eapply wp_mono; [by apply (link_new v v1)|].
  intros r v' [-> Al]. by apply Q1.
Qed.

(** The same on a state with the same view. *)
Lemma view_fields v v1 : same_view v v1 ->
  n_fatent (fs v1) = n_fatent (fs v) /\ fat_mod (fs v1) = fat_mod (fs v).
Proof.
  intros [G _]. unfold geo, fat_mod in *. assert (fs_type (fs v1) = fs_type (fs v)) as -> by congruence.
  split; [congruence|done].
Qed.

Lemma allocated_view v v1 v' clst c :
  wf v -> fat_geo (fs v) -> same_view v v1 -> same_alloc (fs v) (fs v1) ->
  allocated v1 v' clst c -> allocated v v' clst c.
Proof.
  intros W FG V (A1 & A2 & _) [B1 B2 B3 B4 B5 B6]. destruct (view_fields v v1 V) as [En Em].
  assert (valid_clust (fs v) c) as Hc by (unfold valid_clust in *; by rewrite <- En).
  constructor; try done; [by rewrite <- (fat_entry_view v v1)| |by rewrite <- A2].
  eapply fat_upd_ext; [|eapply fat_upd_trans; [by apply (view_fat_upd v v1)|exact B4]].
  intros x Hx. cbv beta. unfold EOC. rewrite Em, (fat_entry_view v v1) by done. done.
Qed.

Lemma wp_allocate_view v v1 clst scl :
  wf v -> fat_geo (fs v) -> fat_sane v -> wf v1 -> same_view v v1 -> same_alloc (fs v) (fs v1) ->
  1 <= scl < n_fatent (fs v) -> valid_clust (fs v) clst -> fat_entry v clst <> 0 ->
  wp (allocate clst scl)
    (fun r v' => wf v' /\
       ((r = 0 /\ same_view v v' /\ same_alloc (fs v) (fs v') /\ forall x, valid_clust (fs v) x -> fat_entry v x <> 0) \/
        (allocated v v' clst r /\ forall x, passed (fs v) scl r x -> fat_entry v x <> 0))) v1.
Proof.
  intros W FG Sa W1 V1 A1 Hs Hc He. destruct (view_fields v v1 V1) as [En Em].
  assert (forall x, valid_clust (fs v1) x <-> valid_clust (fs v) x) as Hvv
    by (intros; unfold valid_clust; by rewrite En).
  assert (forall x, valid_clust (fs v) x -> fat_entry v1 x = fat_entry v x) as Hee
    by (intros; by apply fat_entry_view).
  apply wp_allocate; [done|by eapply geo_fat_geo; [apply V1|]| |by rewrite En| | |].
  - intros x Hx. apply Hvv in Hx. rewrite Hee by done. by apply Sa.
  - right. rewrite Hvv, Hee by done. done.
  - intros v' W' V' A' Hno. split; [done|]. left. split; [done|]. split; [by transitivity v1|].
    split; [by transitivity (fs v1)|]. intros x Hx. rewrite <- Hee by done. apply Hno. by apply Hvv.
  - intros v' c Al Hp. split; [apply Al|]. right. split; [by apply (allocated_view v v1)|].
    intros x [Hx Hb]. rewrite <- Hee by done. apply Hp. split; [by apply Hvv|done].
Qed.

(** *** Cluster chains *)

(** The clusters of the chain that starts at [c]. *)
Inductive chain v : Z -> list Z -> Prop :=
  | chain_end c : n_fatent (fs v) <= c -> chain v c []
  | chain_step c l : valid_clust (fs v) c -> 2 <= fat_entry v c -> chain v (fat_entry v c) l ->
      chain v c (c :: l).

Lemma chain_fun v c l1 l2 : chain v c l1 -> chain v c l2 -> l1 = l2.
Proof.
  intros H1. revert l2. induction H1 as [c Hc|c l1 Hv He H1 IH]; intros l2 H2; inversion H2; subst.
  - done.
  - match goal with Hv : valid_clust _ _ |- _ => destruct Hv; lia end.
  - destruct Hv; lia.
  - f_equal. by apply IH.
Qed.

Lemma chain_suffix v c l x : chain v c l -> x ∈ l -> exists l', chain v x l' /\ (length l' <= length l)%nat.
Proof.
  induction 1 as [c Hc|c l Hv He Hch IH]; intros Hx; [by apply not_elem_of_nil in Hx|].
  apply elem_of_cons in Hx as [->|Hx].
  - exists (c :: l). split; [by constructor|done].
  - destruct (IH Hx) as (l' & Hl & Hlen). exists l'. split; [done|cbn; lia].
Qed.

Lemma chain_NoDup v c l : chain v c l -> NoDup l.
Proof.
  induction 1 as [c Hc|c l Hv He Hch IH]; [constructor|]. constructor; [|done]. intros Hin.
  destruct (chain_suffix _ _ _ _ Hch Hin) as (l' & Hl & Hlen).
  assert (l' = c :: l) as -> by (eapply chain_fun; [exact Hl|by constructor]). cbn in Hlen. lia.
Qed.

Lemma chain_valid v c l x : chain v c l -> x ∈ l -> valid_clust (fs v) x.
Proof.
  induction 1 as [c Hc|c l Hv He Hch IH]; intros Hx; [by apply not_elem_of_nil in Hx|].
  apply elem_of_cons in Hx as [->|Hx]; auto.
Qed.

Lemma NoDup_bound (l : list Z) n : NoDup l -> (forall x, x ∈ l -> 2 <= x < n) -> (length l <= Z.to_nat n)%nat.
Proof.
  intros Hnd Hb. transitivity (length (seqZ 0 n)); [|by rewrite length_seqZ].
  apply submseteq_length, NoDup_submseteq; [done|]. intros x Hx. apply elem_of_seqZ.
  specialize (Hb x Hx). lia.
Qed.

Lemma chain_length v c l : chain v c l -> (length l <= Z.to_nat (n_fatent (fs v)))%nat.
Proof.
  intros Hc. apply NoDup_bound; [by eapply chain_NoDup|]. intros x Hx.
  by apply (chain_valid v c l x Hc).
Qed.

(** Entries after the clusters of [l] have been freed. *)
Definition freed v (l : list Z) : Z -> Z := fun j => if bool_decide (j ∈ l) then 0 else fat_entry v j.

(** One round of [remove_chain] on a used cluster. *)
Lemma wp_remove_round v clst (Q : Z + FRESULT -> vol D -> Prop) :
  wf v -> fat_geo (fs v) -> valid_clust (fs v) clst ->
  (forall v', wf v' -> same_view v v' -> fat_entry v clst = 0 -> Q (inr FR_OK) v') ->
  (forall v', wf v' -> same_view v v' -> fat_entry v clst = 1 -> Q (inr FR_INT_ERR) v') ->
  (forall v', wf v' -> fat_upd v v' (fat_set v clst 0) -> 2 <= fat_entry v clst ->
     free_clust (fs v') = adjusted 1 (free_clust (fs v)) -> Q (inl (fat_entry v clst)) v') ->
  wp (remove_chain_body clst) Q v.
Proof.
  intros W FG Hc Q0 Q1 Q2. pose proof (fat_entry_range v clst W FG) as Hr.
  pose proof (fat_mod_le (fs v)) as Hm.
  unfold remove_chain_body. wp_step. apply wp_getfs. rewrite (proj2 (Z.ltb_lt _ _)) by apply Hc.
  wp_step. apply wp_get_fat; [done..|]. intros v1 W1 V1 (A1 & A1' & A1'').
  destruct (Z.eqb_spec (fat_entry v clst) 0); [apply wp_ret; by apply Q0|].
  destruct (Z.eqb_spec (fat_entry v clst) 1); [apply wp_ret; by apply Q1|].
  rewrite (proj2 (Z.eqb_neq _ _)) by lia.
  assert (n_fatent (fs v1) = n_fatent (fs v)) as En by (destruct V1 as [G _]; unfold geo in G; congruence).
  assert (fat_geo (fs v1)) as FG1 by (by eapply geo_fat_geo; [apply V1|]).
  wp_step. apply wp_put_fat; [done|done|by unfold valid_clust in *; rewrite En|].
  intros v2 W2 (A2 & A2' & A2'') U2. change (is_ok FR_OK) with true. cbn [negb].
  assert (fat_upd v v2 (fat_set v clst 0)) as U2'.
  { eapply fat_upd_ext; [|eapply fat_upd_trans; [by apply view_fat_upd|exact U2]].
    intros x Hx. unfold fat_set. rewrite Z.mod_0_l by apply fat_mod_pos.
    destruct (x =? clst); [done|]. by apply fat_entry_view. }
  assert (fat_geo (fs v2)) as FG2 by (by eapply geo_fat_geo; [apply U2|]).
  wp_step. apply wp_adjust_free; [done|]. intros v3 W3 V3 _ F3. apply wp_ret. apply Q2; [done| |lia|].
  - eapply fat_upd_ext; [|eapply fat_upd_trans; [exact U2'|by apply view_fat_upd]]. intros x Hx. by apply U2'.
  - rewrite F3. congruence.
Qed.

Lemma adjusted_add a b fc :
  0 <= a -> 0 <= b -> 0 <= fc -> fc = 0xFFFFFFFF \/ fc + a + b < 0xFFFFFFFF ->
  adjusted b (adjusted a fc) = adjusted (a + b) fc.
Proof.
  intros Ha Hb Hf Hov. unfold adjusted. destruct (Z.eqb_spec fc 0xFFFFFFFF) as [->|]; [done|].
  rewrite (u32_small (fc + a)) by (unfold is_u32; lia). rewrite (proj2 (Z.eqb_neq _ _)) by lia.
  f_equal. lia.
Qed.

Lemma remove_loop v (l : list Z) : forall fuel clst v1 dn,
  wf v -> fat_geo (fs v) -> wf v1 -> chain v clst l -> (forall x, x ∈ dn -> x ∉ l) ->
  fat_upd v v1 (freed v dn) -> (length l < fuel)%nat -> 0 <= free_clust (fs v) ->
  free_clust (fs v) = 0xFFFFFFFF \/ free_clust (fs v) + zlen dn + zlen l < 0xFFFFFFFF ->
  free_clust (fs v1) = adjusted (zlen dn) (free_clust (fs v)) ->
  wp (loop fuel remove_chain_body clst)
     (fun r v' => r = FR_OK /\ wf v' /\ fat_upd v v' (freed v (dn ++ l)) /\
                  free_clust (fs v') = adjusted (zlen dn + zlen l) (free_clust (fs v))) v1.
Proof.
  induction l as [|c l IH]; intros fuel clst v1 dn W FG W1 Hch Hd U Hf H0 Hov F1;
    (destruct fuel as [|fuel]; [lia|]); pose proof (fat_upd_geo_fields _ _ _ U) as (_ & En & _ & _);
    inversion Hch; subst.
  - apply wp_loop_unfold. unfold remove_chain_body. wp_step. apply wp_getfs.
    rewrite (proj2 (Z.ltb_ge _ _)) by lia. apply wp_ret. rewrite app_nil_r.
    split; [done|]. split; [done|]. split; [done|]. change (zlen (@nil Z)) with 0. by rewrite Z.add_0_r.
  - assert (fat_geo (fs v1)) as FG1 by (by eapply geo_fat_geo; [apply U|]).
    assert (fat_entry v1 c = fat_entry v c) as Ee.
    { rewrite (fu_entry _ _ _ U) by done. unfold freed. rewrite bool_decide_false; [done|].
      intros Hin. apply (Hd c Hin). left. }
    assert (wp (remove_chain_body c)
      (fun r v2 => r = inl (fat_entry v c) /\ wf v2 /\ fat_upd v1 v2 (fat_set v1 c 0) /\
                   free_clust (fs v2) = adjusted 1 (free_clust (fs v1))) v1) as R.
    { apply wp_remove_round; [done|done|by unfold valid_clust in *; rewrite En|intros; exfalso; lia..|].
      intros. by rewrite Ee. }
    apply wp_loop_unfold. eapply wp_mono; [exact R|]. intros r v2 (-> & W2 & U2 & F2).     assert (zlen (c :: l) = 1 + zlen l) as El by (unfold zlen; cbn; lia). rewrite El in *.
    pose proof (zlen_nonneg dn). pose proof (zlen_nonneg l).
    assert (zlen (dn ++ [c]) = zlen dn + 1) as Ed by (by rewrite zlen_app).
    rewrite Z.add_assoc, <- Ed. change (dn ++ c :: l) with (dn ++ ([c] ++ l)). rewrite app_assoc.
    apply IH; try done; rewrite ?Ed.
    + intros x Hx Hxl. apply elem_of_app in Hx as [Hx|Hx].
      * apply (Hd x Hx). by right.
      * apply list_elem_of_singleton in Hx as ->. apply chain_NoDup, NoDup_cons in Hch. tauto.
    + eapply fat_upd_ext; [|eapply fat_upd_trans; [exact U|exact U2]]. intros x Hx.
      unfold fat_set, freed. rewrite (fu_entry _ _ _ U x Hx). unfold freed.
      destruct (Z.eqb_spec x c) as [->|Hne].
      * rewrite bool_decide_true; [done|]. apply elem_of_app. right. by apply list_elem_of_singleton.
      * rewrite (bool_decide_ext (x ∈ dn ++ [c]) (x ∈ dn)); [done|].
        rewrite elem_of_app, list_elem_of_singleton. tauto.
    + cbn in Hf. lia.
    + lia.
    + rewrite F2, F1. apply adjusted_add; lia.
Qed.

(** *** Termination of [remove_chain] on any FAT contents *)

(** Number of clusters in use. *)
Definition used (h : Z -> Z) (n : Z) : nat := length (filter (fun c => h c <> 0) (seqZ 2 (n - 2))).

Lemma filter_length_le (P Q : Z -> Prop) `{forall x, Decision (P x)} `{forall x, Decision (Q x)} (l : list Z) :
  (forall x, x ∈ l -> P x -> Q x) -> (length (filter P l) <= length (filter Q l))%nat.
Proof.
  induction l as [|x l IH]; intros HPQ; [done|]. rewrite !filter_cons.
  assert (forall y, y ∈ l -> P y -> Q y) as Hl by (intros y Hy; apply HPQ; by right).
  specialize (IH Hl). destruct (decide (P x)) as [Px|], (decide (Q x)) as [|NQ]; cbn; try lia.
  destruct NQ. apply HPQ; [by left|done].
Qed.

Lemma filter_length_lt (P Q : Z -> Prop) `{forall x, Decision (P x)} `{forall x, Decision (Q x)} (l : list Z) c :
  (forall x, x ∈ l -> P x -> Q x) -> c ∈ l -> ~ P c -> Q c ->
  (length (filter P l) < length (filter Q l))%nat.
Proof.
  intros HPQ Hc NP HQ. induction l as [|x l IH]; [by apply not_elem_of_nil in Hc|]. rewrite !filter_cons.
  assert (forall y, y ∈ l -> P y -> Q y) as Hl by (intros y Hy; apply HPQ; by right).
  pose proof (filter_length_le P Q l Hl) as Hle.
  apply elem_of_cons in Hc as [<-|Hc].
  - destruct (decide (P c)); [done|]. destruct (decide (Q c)); [cbn; lia|done].
  - specialize (IH Hl Hc). destruct (decide (P x)) as [Px|], (decide (Q x)) as [|NQ]; cbn; try lia.
    destruct NQ. apply HPQ; [by left|done].
Qed.

Lemma used_lt h h' n c :
  2 <= c < n -> (forall x, 2 <= x < n -> h' x <> 0 -> h x <> 0) -> h c <> 0 -> h' c = 0 ->
  (used h' n < used h n)%nat.
Proof.
  intros Hc Hle Hn Hz. unfold used. apply (filter_length_lt _ _ _ c); [|apply elem_of_seqZ; lia|lia|done].
  intros x Hx. apply elem_of_seqZ in Hx. apply Hle. lia.
Qed.

Lemma used_bound h n : 2 <= n -> (used h n <= Z.to_nat n)%nat.
Proof.
  intros. unfold used. etransitivity; [apply length_filter|]. rewrite length_seqZ. lia.
Qed.

Definition only_freed v v' : Prop :=
  wf v' /\ exists h, fat_upd v v' h /\ forall c, valid_clust (fs v) c -> h c = fat_entry v c \/ h c = 0.

Lemma only_freed_round v v1 clst :
  wf v -> fat_geo (fs v) -> only_freed v v1 -> 2 <= clst ->
  wp (remove_chain_body clst)
    (fun r v' => match r with
      | inl nxt => (only_freed v v' /\ 2 <= nxt) /\
                   (used (fat_entry v') (n_fatent (fs v)) < used (fat_entry v1) (n_fatent (fs v)))%nat
      | inr res => (res = FR_OK \/ res = FR_INT_ERR) /\ only_freed v v'
      end) v1.
Proof.
  intros W FG (W1 & h & U & Hh) H2.
  pose proof (fat_upd_geo_fields _ _ _ U) as (_ & En & _ & _).
  assert (fat_geo (fs v1)) as FG1 by (by eapply geo_fat_geo; [apply U|]).
  assert (forall v2, wf v2 -> same_view v1 v2 -> only_freed v v2) as Hv.
  { intros v2 W2 V2. split; [done|]. exists (fat_entry v1). split.
    - eapply fat_upd_trans; [exact U|by apply view_fat_upd].
    - intros c Hc. rewrite (fu_entry _ _ _ U) by done. auto. }
  destruct (Z.ltb_spec clst (n_fatent (fs v))) as [Hlt|Hge].
  2: { unfold remove_chain_body. wp_step. apply wp_getfs. rewrite En, (proj2 (Z.ltb_ge _ _)) by lia.
       apply wp_ret. split; [by left|by apply Hv]. }
  apply wp_remove_round; [done|done|split; [done|by rewrite En]|intros; split; auto..|].
  intros v2 W2 U2 He _. pose proof (fat_upd_trans _ _ _ _ _ U U2) as U3. split; [split; [|done]|].
  - split; [done|]. eexists. split; [exact U3|]. intros c Hc. unfold fat_set.
    destruct (c =? clst); [by right|]. rewrite (fu_entry _ _ _ U) by done. auto.
  - apply (used_lt _ _ _ clst); [done| |lia|].
    + intros x Hx. rewrite (fu_entry _ _ _ U3) by done. unfold fat_set. by destruct (x =? clst).
    + rewrite (fu_entry _ _ _ U3) by done. unfold fat_set. by rewrite Z.eqb_refl.
Qed.
End Theory.

(** ** Properties *)

Section Properties.
Context {D : Type} `{L : DiskLaws D}.
Implicit Types (v : vol D).

(** C8. The sector window is a coherent write-back cache: [move_window] to an
    accessible sector succeeds, leaves in the window exactly what the file
    system last wrote to that sector, and no sector outside the FAT copies
    changes as seen through the window. *)
Theorem move_window_coherent v s :
  wf v -> ready (disk v) s -> ~ mirror (fs v) s -> 0 <= s < 0xFFFFFFFF ->
  wp (move_window s)
    (fun r v' => r = FR_OK /\ wf v' /\ same_view v v' /\ winsect (fs v') = s /\ win (fs v') = lsec v s) v.
Proof. intros W Hr Hm Hs. apply wp_move_window; auto. Qed.

(** [sync_window] makes the device agree with the logical disk on every
    sector, leaves the window clean, and with two FATs writes a dirty FAT
    sector to the same place of the second copy. *)
Theorem sync_window_flushes v :
  wf v ->
  wp sync_window
    (fun r v' => r = FR_OK /\ wf v' /\ wflag (fs v') = 0 /\
       (forall s, ~ mirror (fs v) s -> sector (disk v') s = lsec v s) /\
       (n_fats (fs v) = 2 -> wflag (fs v) <> 0 -> in_fat (fs v) (winsect (fs v)) ->
        sector (disk v') (winsect (fs v) + fsize (fs v)) = sector (disk v') (winsect (fs v)))) v.
Proof.
  intros W. apply wp_sync_window; [done|]. intros d' E1 E2 R.
  destruct (sync_window_view v d' W E1 R) as [W' V']. do 4 (split; [done|]).
  intros N Hw Hin. cbn. rewrite E2 by done. rewrite E1; [by rewrite lsec_dirty|].
  destruct (wf_dirty v W Hw) as (_ & ? & _). done.
Qed.

(** C9. FAT entries behave as an array in all three formats: after
    [put_fat c val] every [get_fat] returns the stored value for [c] and the
    old value for every other cluster, FAT12 neighbours sharing a byte
    included, and no sector outside the FAT has changed. *)
Theorem put_fat_get_fat v c val c' :
  wf v -> fat_geo (fs v) -> valid_clust (fs v) c -> valid_clust (fs v) c' ->
  wp (let! r := put_fat c val in let! x := get_fat c' in ret (r, x))
    (fun '(r, x) v' =>
       r = FR_OK /\ x = (if c' =? c then val mod fat_mod (fs v) else fat_entry v c') /\ wf v' /\
       forall s, ~ mirror (fs v) s -> ~ in_fat (fs v) s -> lsec v' s = lsec v s) v.
Proof.
  intros W FG Hc Hc'. wp_step. apply wp_put_fat; [done..|]. intros v1 W1 _ U1.
  pose proof (fat_upd_geo_fields _ _ _ U1) as (_ & En & _ & _).
  wp_step. apply wp_get_fat; [done|by eapply geo_fat_geo; [apply U1|]|by unfold valid_clust in *; rewrite En|].
  intros v2 W2 (G2 & V2 & _) _. apply wp_ret. split; [done|].
  split; [by rewrite (fu_entry _ _ _ U1)|]. split; [done|].
  intros s Hm Hf. rewrite V2, (fu_other _ _ _ U1); try done. by rewrite (geo_mirror _ _ _ (fu_geo _ _ _ U1)).
Qed.

(** [create_chain], with what happens to the allocation hints. *)
Lemma create_chain_spec v clst :
  wf v -> fat_geo (fs v) -> fat_sane v -> 0 <= last_clust (fs v) ->
  clst = 0 \/ valid_clust (fs v) clst ->
  let e := fat_entry v clst in
  let lc := last_clust (fs v) in
  let scl := if clst =? 0 then (if (lc =? 0) || (lc >=? n_fatent (fs v)) then 1 else lc) else clst in
  wp (create_chain clst)
    (fun r v' =>
       wf v' /\
       if (clst =? 0) || (n_fatent (fs v) <=? e) then
         (r = 0 /\ same_view v v' /\ same_alloc (fs v) (fs v') /\ forall x, valid_clust (fs v) x -> fat_entry v x <> 0) \/
         (allocated v v' clst r /\ forall x, passed (fs v) scl r x -> fat_entry v x <> 0)
       else r = (if e <? 2 then 1 else e) /\ same_view v v' /\ same_alloc (fs v) (fs v')) v.
Proof.
  intros W FG Sa Hl Hclst e lc scl. pose proof (fg_bound _ FG) as [Hn _].
  pose proof (fat_mod_le (fs v)) as Hm.
  assert (1 <= scl < n_fatent (fs v)) as Hscl.
  { unfold scl, lc. destruct Hclst as [->|[? ?]]; cbn [Z.eqb].
    - destruct (Z.eqb_spec (last_clust (fs v)) 0), (Z.geb_spec (last_clust (fs v)) (n_fatent (fs v)));
        cbn [orb]; lia.
    - rewrite (proj2 (Z.eqb_neq clst 0)) by lia. lia. }
  unfold create_chain. wp_step. apply wp_getfs. destruct (Z.eqb_spec clst 0) as [->|Hz]; cbn [orb].
  - wp_step. apply wp_getfs. apply (wp_allocate v 0 scl); try done; [by left|by intros v' ? ? ? ?; split; [|left]|].
    intros v' c Al Hp. split; [apply Al|]. by right.
  - destruct Hclst as [?|Hc]; [done|]. wp_step. apply wp_get_fat; [done..|]. intros v1 W1 V1 A1. fold e.
    pose proof (fat_entry_range v clst W FG) as Hr. fold e in Hr.
    destruct (Z.ltb_spec e 2) as [He|He].
    { apply wp_ret. split; [done|]. rewrite (proj2 (Z.leb_gt _ _)) by lia. done. }
    rewrite (proj2 (Z.eqb_neq e 0xFFFFFFFF)) by lia.
    destruct (Z.ltb_spec e (n_fatent (fs v))) as [Hlt|Hge].
    { apply wp_ret. split; [done|]. by rewrite (proj2 (Z.leb_gt _ _)) by lia. }
    rewrite (proj2 (Z.leb_le _ _)) by lia.
    fold e in Hr. apply (wp_allocate_view v v1); try done. unfold e in He. lia.
Qed.

(** C10. [create_chain] on every branch: it follows an existing link, reports 1
    for a free cluster, and otherwise takes the next free cluster after the
    starting point, wrapping round (0 exactly when the volume has none), marks
    it as end of chain, links it behind [clst] and leaves every other entry
    and all data alone. *)
Theorem create_chain_correct v clst :
  wf v -> fat_geo (fs v) -> fat_sane v -> 0 <= last_clust (fs v) ->
  clst = 0 \/ valid_clust (fs v) clst ->
  let e := fat_entry v clst in
  let lc := last_clust (fs v) in
  let scl := if clst =? 0 then (if (lc =? 0) || (lc >=? n_fatent (fs v)) then 1 else lc) else clst in
  wp (create_chain clst)
    (fun r v' =>
       wf v' /\
       if (clst =? 0) || (n_fatent (fs v) <=? e) then
         (r = 0 /\ same_view v v' /\ forall x, valid_clust (fs v) x -> fat_entry v x <> 0) \/
         (allocated v v' clst r /\ forall x, passed (fs v) scl r x -> fat_entry v x <> 0)
       else r = (if e <? 2 then 1 else e) /\ same_view v v') v.
Proof.
  intros W FG Sa Hl Hclst e lc scl. eapply wp_mono; [by apply create_chain_spec|]. cbv zeta.
  intros r v' [W' Hr]. split; [done|]. fold e in Hr |- *. destruct ((clst =? 0) || _); [|by destruct Hr as (? & ? & _)].
  destruct Hr as [(? & ? & _ & ?)|Hr]; [by left|by right].
Qed.

Lemma wp_remove_chain v c l :
  wf v -> fat_geo (fs v) -> valid_clust (fs v) c -> chain v c l ->
  0 <= free_clust (fs v) ->
  free_clust (fs v) = 0xFFFFFFFF \/ free_clust (fs v) + zlen l < 0xFFFFFFFF ->
  wp (remove_chain c)
    (fun r v' => r = FR_OK /\ wf v' /\ fat_upd v v' (freed v l) /\
                 free_clust (fs v') = adjusted (zlen l) (free_clust (fs v))) v.
Proof.
  intros W FG [Hc1 Hc2] Hch H0 Hov. unfold remove_chain. wp_step. apply wp_getfs.
  rewrite (proj2 (Z.ltb_ge c 2)) by lia. destruct (Z.geb_spec c (n_fatent (fs v))); [lia|]. cbn [orb].
  pose proof (chain_length v c l Hch) as Hlen.
  apply (remove_loop v l _ c v []); try done.
  - intros x Hx. by apply not_elem_of_nil in Hx.
  - lia.
  - change (zlen (@nil Z)) with 0. by rewrite Z.add_0_r.
  - change (zlen (@nil Z)) with 0. unfold adjusted. destruct (Z.eqb_spec (free_clust (fs v)) 0xFFFFFFFF); [done|].
    rewrite Z.add_0_r, u32_small; [done|]. unfold is_u32. pose proof (zlen_nonneg l). lia.
Qed.

(** C11. [remove_chain] frees a chain: given the clusters [l] of the chain that
    starts at [c], it returns [FR_OK] with exactly the entries of [l] set to
    zero, the free-cluster count raised by their number (unless it is unknown),
    and every other entry and all data unchanged. *)
Theorem remove_chain_frees v c l :
  wf v -> fat_geo (fs v) -> valid_clust (fs v) c -> chain v c l ->
  0 <= free_clust (fs v) ->
  free_clust (fs v) = 0xFFFFFFFF \/ free_clust (fs v) + zlen l < 0xFFFFFFFF ->
  wp (remove_chain c)
    (fun r v' => r = FR_OK /\ wf v' /\ fat_upd v v' (freed v l) /\
                 free_clust (fs v') = adjusted (zlen l) (free_clust (fs v))) v.
Proof. apply wp_remove_chain. Qed.

(** C40. [remove_chain] returns whatever the FAT holds, cyclic and broken chains
    included: within [n_fatent] rounds it ends with [FR_OK] or [FR_INT_ERR],
    every entry is either unchanged or freed and no data sector changes. *)
Theorem remove_chain_total v c :
  wf v -> fat_geo (fs v) ->
  wp (remove_chain c) (fun r v' => (r = FR_OK \/ r = FR_INT_ERR) /\ only_freed v v') v.
Proof.
  intros W FG. assert (only_freed v v) as Ov.
  { split; [done|]. exists (fat_entry v). split; [by apply view_fat_upd|auto]. }
  unfold remove_chain. wp_step. apply wp_getfs.
  destruct (Z.ltb_spec c 2); cbn [orb]; [apply wp_ret; auto|].
  destruct (Z.geb_spec c (n_fatent (fs v))); [apply wp_ret; auto|].
  apply (wp_loop (fun clst v' => only_freed v v' /\ 2 <= clst)
                 (fun _ v' => used (fat_entry v') (n_fatent (fs v)))).
  - intros clst v1 [O1 H2]. by apply only_freed_round.
  - done.
  - pose proof (used_bound (fat_entry v) (n_fatent (fs v))). pose proof (fg_bound _ FG). lia.
Qed.
End Properties.

(** ** A small volume

    FAT12, two FATs of one sector each, clusters 2 to 9, a chain 2 -> 3. *)
Definition demo_fs : FATFS := {|
  fs_type := FS_FAT12; drv := 0; csize := 1; n_fats := 2; wflag := 0; fsi_flag := 0; fs_id := 1;
  n_rootdir := 16; last_clust := 0; free_clust := 6; n_fatent := 10; fsize := 1; volbase := 0;
  fatbase := 1; dirbase := 3; database := 4; winsect := 0xFFFFFFFF; win := replicate 512 0
|}.
Definition demo_disk : ramdisk :=
  {| blocks := {[ 1 := [0xF8; 0xFF; 0xFF; 0x03; 0xF0; 0xFF] ]}; nblocks := 12 |}.
Definition demo : vol ramdisk := {| fs := demo_fs; disk := demo_disk |}.

Lemma demo_wf : wf demo.
Proof.
  constructor; cbn -[replicate]; try done; try lia.
  by apply Forall_replicate.
Qed.

Lemma demo_geo : fat_geo (fs demo).
Proof. constructor; cbn; [by left|by split; vm_compute|done]. Qed.

Lemma demo_entries c : 2 <= c < 10 ->
  fat_entry demo c = if c =? 2 then 3 else if c =? 3 then 0xFFF else 0.
Proof.
  intros Hc.
  assert ((c <? 2) || (fat_entry demo c =? (if c =? 2 then 3 else if c =? 3 then 0xFFF else 0)) = true) as E.
  { apply (forall_range 10 (fun c => (c <? 2) ||
      (fat_entry demo c =? (if c =? 2 then 3 else if c =? 3 then 0xFFF else 0)))); [by vm_compute|lia]. }
  rewrite (proj2 (Z.ltb_ge c 2)) in E by lia. by apply Z.eqb_eq in E.
Qed.

Lemma demo_chain : chain demo 2 [2; 3].
Proof.
  constructor; [done| |]; rewrite demo_entries by lia; [done|].
  constructor; [done| |]; rewrite demo_entries by lia; [done|].
  by constructor.
Qed.

Lemma demo_sane : fat_sane demo.
Proof.
  intros c Hc. rewrite demo_entries by exact Hc. by destruct (c =? 2), (c =? 3).
Qed.

Lemma move_window_coherent_witness :
  wp (move_window 3) (fun r v' => r = FR_OK /\ wf v' /\ same_view demo v' /\
                                  winsect (fs v') = 3 /\ win (fs v') = lsec demo 3) demo.
Proof.
  apply (move_window_coherent demo 3 demo_wf); [done| |done]. unfold mirror. cbn. lia.
Defined.

Lemma sync_window_flushes_witness :
  wp sync_window (fun r v' => r = FR_OK /\ wf v' /\ wflag (fs v') = 0 /\
       (forall s, ~ mirror (fs demo) s -> sector (disk v') s = lsec demo s) /\
       (n_fats (fs demo) = 2 -> wflag (fs demo) <> 0 -> in_fat (fs demo) (winsect (fs demo)) ->
        sector (disk v') (winsect (fs demo) + fsize (fs demo)) = sector (disk v') (winsect (fs demo)))) demo.
Proof. exact (sync_window_flushes demo demo_wf). Defined.

Lemma put_fat_get_fat_witness :
  wp (let! r := put_fat 5 9 in let! x := get_fat 4 in ret (r, x))
    (fun '(r, x) v' =>
       r = FR_OK /\ x = (if 4 =? 5 then 9 mod fat_mod (fs demo) else fat_entry demo 4) /\ wf v' /\
       forall s, ~ mirror (fs demo) s -> ~ in_fat (fs demo) s -> lsec v' s = lsec demo s) demo.
Proof. by apply (put_fat_get_fat demo 5 9 4 demo_wf demo_geo). Defined.

Lemma create_chain_correct_witness :
  wp (create_chain 3)
    (fun r v' =>
       wf v' /\
       if (3 =? 0) || (n_fatent (fs demo) <=? fat_entry demo 3) then
         (r = 0 /\ same_view demo v' /\ forall x, valid_clust (fs demo) x -> fat_entry demo x <> 0) \/
         (allocated demo v' 3 r /\ forall x, passed (fs demo) 3 r x -> fat_entry demo x <> 0)
       else r = (if fat_entry demo 3 <? 2 then 1 else fat_entry demo 3) /\ same_view demo v') demo.
Proof.
  apply (create_chain_correct demo 3 demo_wf demo_geo demo_sane); [done|]. by right.
Defined.

Lemma remove_chain_frees_witness :
  wp (remove_chain 2)
    (fun r v' => r = FR_OK /\ wf v' /\ fat_upd demo v' (freed demo [2; 3]) /\
                 free_clust (fs v') = adjusted (zlen [2; 3]) (free_clust (fs demo))) demo.
Proof.
  apply (remove_chain_frees demo 2 [2; 3] demo_wf demo_geo); [done|exact demo_chain|done|by right].
Defined.

Lemma remove_chain_total_witness :
  wp (remove_chain 2) (fun r v' => (r = FR_OK \/ r = FR_INT_ERR) /\ only_freed demo v') demo.
Proof. exact (remove_chain_total demo 2 demo_wf demo_geo). Defined.
