(* ===== verification/FatName.v ===== *)
(** * FatFs names ([ff.c] lines 1666-1784, 1794-1995 and 2066-2118)

    Path segments and the 8.3 directory form ([create_name]), its textual form
    (the name part of [get_fileinfo]), wildcard matching ([pattern_matching])
    and drive numbers ([get_ldnumber]), in the ASCII code page without long
    names.  A string is the list of its bytes before the terminating zero. *)

From S2P Require Import Prelude FatBase.

(** [IsUpper], [IsLower] and the separators. *)
Definition IsUpper (c : Z) : bool := (65 <=? c) && (c <=? 90).
Definition IsLower (c : Z) : bool := (97 <=? c) && (c <=? 122).
Definition is_sep (c : Z) : bool := (c =? 47) || (c =? 92).

(** The character under a string pointer and the pointer moved past it. *)
Definition peek (s : list Z) : Z := match s with [] => 0 | c :: _ => c end.
Definition next (s : list Z) : list Z := match s with [] => [] | _ :: s => s end.

(** ** Wildcards *)

Definition get_achar (s : list Z) : Z * list Z :=
  let chr := peek s in
  ((if IsLower chr then chr - 0x20 else chr), next s).

Definition is_wild (c : Z) : bool := (c =? 63) || (c =? 42).

(** [while (skip--) if (!get_achar(&nam)) return 0;] *)
Fixpoint pre_skip (skip : nat) (nam : list Z) : option (list Z) :=
  match skip with
  | O => Some nam
  | S skip =>
      let (c, nam) := get_achar nam in
      if nz c then pre_skip skip nam else None
  end.

(** [do { if ( *pp++ == '?' ) nm++; else nx = 1; } while ( *pp is a wildcard );] *)
Fixpoint wildcards (pp : list Z) (nm : nat) (nx : bool) : list Z * nat * bool :=
  match pp with
  | [] => (pp, nm, nx)
  | c :: pp' =>
      if is_wild c then
        if c =? 63 then wildcards pp' (S nm) nx else wildcards pp' nm true
      else (pp, nm, nx)
  end.

(** The [for (;;)] loop with its recursive call [rec]: [inl tt] is [return 1],
    [inr nc] a mismatch with the name character [nc]. *)
Fixpoint match_branch (rec : list Z -> list Z -> nat -> bool -> bool) (fuel : nat) (pp np : list Z)
    : option (unit + Z) :=
  match fuel with
  | O => None
  | S fuel =>
      if is_wild (peek pp) then
        let '(pp, nm, nx) := wildcards pp 0 false in
        if rec pp np nm nx then Some (inl tt) else Some (inr (peek np))
      else
        let (pc, pp) := get_achar pp in
        let (nc, np) := get_achar np in
        if negb (pc =? nc) then Some (inr nc)
        else if pc =? 0 then Some (inl tt)
        else match_branch rec fuel pp np
  end.

(** The [do ... while (inf && nc)] loop over the starting points. *)
Fixpoint match_search (rec : list Z -> list Z -> nat -> bool -> bool) (fuel : nat) (inf : bool)
    (pat nam : list Z) : bool :=
  match fuel with
  | O => false
  | S fuel =>
      match match_branch rec (S (length nam)) pat nam with
      | None => false
      | Some (inl _) => true
      | Some (inr nc) =>
          let nam := snd (get_achar nam) in
          if inf && nz nc then match_search rec fuel inf pat nam else false
      end
  end.

(** [fuel] bounds the number of wildcard blocks. *)
Fixpoint pattern_matching_fuel (fuel : nat) (pat nam : list Z) (skip : nat) (inf : bool) : bool :=
  match fuel with
  | O => false
  | S fuel =>
      match pre_skip skip nam with
      | None => false
      | Some nam =>
          if (peek pat =? 0) && inf then true
          else match_search (pattern_matching_fuel fuel) (S (length nam)) inf pat nam
      end
  end.

Definition pattern_matching (pat nam : list Z) (skip : nat) (inf : bool) : bool :=
  pattern_matching_fuel (S (length pat)) pat nam skip inf.

(** ** Path segments *)

Fixpoint strip_seps (p : list Z) : list Z :=
  match p with
  | c :: p' => if is_sep c then strip_seps p' else p
  | [] => []
  end.

(** The characters that a short name may not contain. *)
Definition illegal_chars : list Z := [34; 42; 43; 44; 58; 59; 60; 61; 62; 63; 91; 93; 124; 127].

(** The loop over a segment: [inl sfn] is [return FR_INVALID_NAME] with the name
    buffer as it is then; [inr] gives the break character, the rest of the
    path behind it, [i], [ni], [b] and the buffer. *)
Fixpoint segment_loop (p : list Z) (i ni b : Z) (sfn : list Z)
    : list Z + (Z * list Z * Z * Z * Z * list Z) :=
  match p with
  | [] => inr (0, [], i, ni, b, sfn)
  | c :: p =>
      if (c <=? 32) || is_sep c then inr (c, p, i, ni, b, sfn)
      else if (c =? 46) || (i >=? ni) then
        if negb (ni =? 8) || negb (c =? 46) then inl sfn
        else segment_loop p 8 11 (u8 (Z.shiftl b 2)) sfn
      else if c >=? 0x80 then inl sfn
      else if nz (chk_chr illegal_chars c) then inl sfn
      else
        let '(b, c) :=
          if IsUpper c then (Z.lor b 2, c)
          else if IsLower c then (Z.lor b 1, c - 0x20)
          else (b, c) in
        segment_loop p (i + 1) ni b (setb sfn i c)
  end.

(** Yields the result, the new contents of [dp->fn] and of [*path]. *)
Definition create_name (fn path : list Z) : FRESULT * list Z * list Z :=
  let p := strip_seps path in
  let sfn := mem_set 0 32 11 fn in
  match segment_loop p 0 8 0 sfn with
  | inl sfn => (FR_INVALID_NAME, sfn, path)
  | inr (c, rest, i, ni, b, sfn) =>
      let c := if c <=? 32 then NS_LAST else 0 in
      if i =? 0 then (FR_INVALID_NAME, sfn, rest)
      else
        let sfn := if getb sfn 0 =? DDEM then setb sfn 0 RDDEM else sfn in
        let b := if ni =? 8 then u8 (Z.shiftl b 2) else b in
        let c := if Z.land b 0x03 =? 0x01 then Z.lor c NS_EXT else c in
        let c := if Z.land b 0x0C =? 0x04 then Z.lor c NS_BODY else c in
        (FR_OK, setb sfn NSFLAG c, rest)
  end.

(** The textual name of a directory entry (lines 1667-1693): [i] is the index
    of the next byte of the entry. *)
Fixpoint sfn_text (dir : list Z) (i : Z) : list Z :=
  match dir with
  | [] => []
  | c :: dir =>
      let i := i + 1 in
      if c =? 32 then sfn_text dir i
      else
        let c := if c =? RDDEM then DDEM else c in
        (if i =? 9 then [46] else []) ++ [c] ++ sfn_text dir i
  end.

(** ** Drive numbers *)

Definition _VOLUMES : Z := 1.

(** Number of characters before the first [':'] or the end of the name. *)
Fixpoint find_colon (tt : list Z) : nat * list Z :=
  match tt with
  | c :: tt' => if (c >=? 33) && negb (c =? 58) then let (n, r) := find_colon tt' in (S n, r) else (O, tt)
  | [] => (O, [])
  end.

Definition get_ldnumber (path : option (list Z)) : Z * option (list Z) :=
  match path with
  | None => (-1, path)
  | Some p =>
      let (n, tt) := find_colon p in
      if peek tt =? 58 then
        let i := u32 (peek p - 48) in
        if (i <? 10) && (n =? 1)%nat then
          if i <? _VOLUMES then (i, Some (next tt)) else (-1, path)
        else (-1, path)
      else (0, path)
  end.

(** ** Wildcard matching against its specification *)

Definition upcase (c : Z) : Z := if IsLower c then c - 0x20 else c.

(** ['?'] (63) stands for any character, ['*'] (42) for any string, another
    character for itself in either case. *)
Inductive glob : list Z -> list Z -> Prop :=
  | glob_nil : glob [] []
  | glob_any p c n : glob p n -> glob (63 :: p) (c :: n)
  | glob_star p n : glob p n -> glob (42 :: p) n
  | glob_more p c n : glob (42 :: p) n -> glob (42 :: p) (c :: n)
  | glob_chr a p c n : is_wild a = false -> upcase a = upcase c -> glob p n -> glob (a :: p) (c :: n).

(** The characters of a C string. *)
Definition is_string (s : list Z) : Prop := Forall (fun c => 0 < c < 256) s.

Lemma upcase_nz c : 0 < c -> 0 < upcase c.
Proof. intros. unfold upcase, IsLower. destruct (Z.leb_spec 97 c); cbn; [destruct (_ <=? _)|]; lia. Qed.

Lemma upcase_0 : upcase 0 = 0.
Proof. done. Qed.

Lemma get_achar_cons c s : get_achar (c :: s) = (upcase c, s).
Proof. done. Qed.

Lemma glob_any_inv p n : glob (63 :: p) n <-> exists c n', n = c :: n' /\ glob p n'.
Proof.
  split.
  - inversion 1; subst; [by eauto|discriminate].
  - intros (c & n' & -> & G). by constructor.
Qed.

Lemma glob_star_inv p n : glob (42 :: p) n <-> exists k, glob p (drop k n).
Proof.
  split.
  - intros G. remember (42 :: p) as q eqn:Eq. induction G as [| |p' n G IH|p' c n G IH|]; simplify_eq; [|].
    + by exists 0%nat.
    + destruct (IH eq_refl) as [k Hk]. by exists (S k).
  - intros [k Hk]. revert n Hk. induction k as [|k IH]; intros n Hk; [by constructor|].
    destruct n as [|c n]; [by constructor|]. apply glob_more, IH, Hk.
Qed.

Lemma glob_nil_inv n : glob [] n <-> n = [].
Proof. split; [by inversion 1|intros ->; constructor]. Qed.

Lemma glob_chr_inv a p n : is_wild a = false ->
  glob (a :: p) n <-> exists c n', n = c :: n' /\ upcase a = upcase c /\ glob p n'.
Proof.
  intros Ha. split.
  - inversion 1; subst; try discriminate. eauto.
  - intros (c & n' & -> & E & G). by constructor.
Qed.

Definition glob_equiv (p q : list Z) : Prop := forall n, glob p n <-> glob q n.

#[export] Instance glob_equiv_equiv : Equivalence glob_equiv.
Proof.
  split; [done|intros p q E n; by symmetry|intros p q r E1 E2 n; by rewrite (E1 n), (E2 n)].
Qed.

#[export] Instance glob_proper : Proper (glob_equiv ==> eq ==> iff) glob.
Proof. intros p q E n ? <-. apply E. Qed.

Lemma glob_equiv_any p q : glob_equiv p q -> glob_equiv (63 :: p) (63 :: q).
Proof. intros E n. rewrite !glob_any_inv. by setoid_rewrite (E _). Qed.

Lemma glob_equiv_skip k p q : glob_equiv p q -> glob_equiv (replicate k 63 ++ p) (replicate k 63 ++ q).
Proof. intros E. induction k as [|k IH]; [done|]. by apply glob_equiv_any. Qed.

Lemma glob_star_any p : glob_equiv (42 :: 63 :: p) (63 :: 42 :: p).
Proof.
  intros n. rewrite glob_star_inv, glob_any_inv. split.
  - intros [k Hk]. apply glob_any_inv in Hk as (c & n' & Ed & G).
    destruct n as [|a n]; [by rewrite drop_nil in Ed|]. exists a, n. split; [done|].
    apply glob_star_inv. exists k. revert G. replace n' with (drop 1 (drop k (a :: n))) by (by rewrite Ed).
    rewrite drop_drop, Nat.add_comm. done.
  - intros (c & n' & -> & G). apply glob_star_inv in G as [k G]. 
    destruct (decide (k < length n')%nat) as [Hk|Hk].
    + exists k. apply glob_any_inv. destruct (drop k (c :: n')) as [|x r] eqn:E.
      { apply (f_equal length) in E. rewrite length_drop in E. cbn in E. lia. }
      exists x, r. split; [done|]. replace r with (drop 1 (drop k (c :: n'))) by (by rewrite E).
      by rewrite drop_drop, Nat.add_comm.
    + rewrite drop_ge in G by lia. exists (length n'). apply glob_any_inv.
      destruct (drop (length n') (c :: n')) as [|x r] eqn:E.
      { apply (f_equal length) in E. rewrite length_drop in E. cbn in E. lia. }
      exists x, r. split; [done|]. destruct r; [done|].
      apply (f_equal length) in E. rewrite length_drop in E. cbn in E. lia.
Qed.

Lemma glob_star_star p : glob_equiv (42 :: 42 :: p) (42 :: p).
Proof.
  intros n. rewrite glob_star_inv. setoid_rewrite glob_star_inv. split.
  - intros (k & k' & G). rewrite drop_drop in G. eauto.
  - intros [k G]. exists 0%nat, k. done.
Qed.

(** The pattern that a call with [skip] and [inf] stands for. *)
Definition whole (skip : nat) (inf : bool) (pat : list Z) : list Z :=
  replicate skip 63 ++ (if inf then 42 :: pat else pat).

Lemma wildcards_spec pp nm nx :
  let '(pp', nm', nx') := wildcards pp nm nx in
  glob_equiv (whole nm nx pp) (whole nm' nx' pp') /\ (length pp' <= length pp)%nat /\
  (is_wild (peek pp) = true -> (length pp' < length pp)%nat) /\
  (forall s, is_string pp -> s = pp' -> is_string s).
Proof.
  revert nm nx. induction pp as [|c pp IH]; intros nm nx; cbn [wildcards].
  - cbn. repeat split; try done; intros; by subst.
  - unfold is_wild. destruct (Z.eqb_spec c 63) as [->|H63]; cbn [orb].
    + specialize (IH (S nm) nx). destruct (wildcards pp (S nm) nx) as [[pp' nm'] nx'].
      destruct IH as (E & L & _ & St). cbn [length]. split; [|split; [lia|split; [lia|]]].
      * rewrite <- E. unfold whole. rewrite replicate_S_end, <- app_assoc. cbn [app].
        apply glob_equiv_skip. destruct nx; [apply glob_star_any|done].
      * intros s Hs. inversion Hs; subst. eauto.
    + destruct (Z.eqb_spec c 42) as [->|H42].
      * specialize (IH nm true). destruct (wildcards pp nm true) as [[pp' nm'] nx'].
        destruct IH as (E & L & _ & St). cbn [length]. split; [|split; [lia|split; [lia|]]].
        -- rewrite <- E. unfold whole. apply glob_equiv_skip. destruct nx; [apply glob_star_star|done].
        -- intros s Hs. inversion Hs; subst. eauto.
      * cbn [peek]. rewrite (proj2 (Z.eqb_neq c 63)), (proj2 (Z.eqb_neq c 42)) by done.
        repeat split; try done; intros; by subst.
Qed.

(** [pre_skip] drops exactly [k] characters. *)
Lemma pre_skip_spec k nam : is_string nam ->
  pre_skip k nam = (if (k <=? length nam)%nat then Some (drop k nam) else None).
Proof.
  revert nam. induction k as [|k IH]; intros nam Hs; [by rewrite drop_0|]. cbn [pre_skip].
  destruct nam as [|c nam]; [done|]. inversion Hs as [|? ? Hc Hn]; subst.
  rewrite get_achar_cons. pose proof (upcase_nz c ltac:(lia)).
  rewrite (proj2 (nz_true _)) by lia. rewrite IH by done. done.
Qed.

Lemma glob_skip k p nam :
  glob (replicate k 63 ++ p) nam <-> (k <= length nam)%nat /\ glob p (drop k nam).
Proof.
  revert nam. induction k as [|k IH]; intros nam.
  - rewrite drop_0. cbn. split; [intros; split; [lia|done]|tauto].
  - cbn [replicate app]. rewrite glob_any_inv. destruct nam as [|c nam]; cbn [length drop].
    + split; [by intros (? & ? & ? & _)|lia].
    + rewrite <- Nat.succ_le_mono, <- IH. split; [by intros (? & ? & [= -> ->] & ?)|eauto].
Qed.

(** [rec] decides [whole] on patterns shorter than [pat]. *)
Definition rec_ok (rec : list Z -> list Z -> nat -> bool -> bool) (len : nat) : Prop :=
  forall pp np nm nx, is_string pp -> is_string np -> (length pp < len)%nat ->
    rec pp np nm nx = true <-> glob (whole nm nx pp) np.

(** A wildcard block, decided by the recursive call. *)
Lemma wild_block rec pp np pp' nm nx :
  is_string pp -> is_string np -> rec_ok rec (length pp) -> is_wild (peek pp) = true ->
  wildcards pp 0 false = (pp', nm, nx) -> rec pp' np nm nx = true <-> glob pp np.
Proof.
  intros Sp Sn R Ew Eq. pose proof (wildcards_spec pp 0 false) as WS. rewrite Eq in WS.
  destruct WS as (E & _ & L & St). specialize (L Ew). specialize (St _ Sp eq_refl).
  rewrite (R pp' np nm nx St Sn L). symmetry. apply E.
Qed.

(** A branch succeeds exactly on a match, and a failure at the end of the name
    rules out every shorter name. *)
Lemma match_branch_spec rec : forall np fuel pp,
  is_string pp -> is_string np -> rec_ok rec (length pp) -> (length np < fuel)%nat ->
  match match_branch rec fuel pp np with
  | Some (inl _) => glob pp np
  | Some (inr nc) => ~ glob pp np /\ (np = [] -> nc = 0) /\
                     (nc = 0 -> forall n, (length n < length np)%nat -> ~ glob pp n)
  | None => False
  end.
Proof.
  induction np as [|c np IH]; intros fuel pp Sp Sn R Hf; (destruct fuel as [|fuel]; [lia|]); cbn [match_branch].
  - destruct (is_wild (peek pp)) eqn:Ew.
    { destruct (wildcards pp 0 false) as [[pp' nm] nx] eqn:Eq.
      pose proof (wild_block rec pp [] pp' nm nx Sp Sn R Ew Eq) as Hr.
      destruct (rec pp' [] nm nx); [by apply Hr|]. split; [intros G; by apply Hr in G|].
      split; [done|]. intros _ n Hn. cbn in Hn. lia. }
    destruct pp as [|a pp].
    + cbn. constructor.
    + inversion Sp as [|? ? Ha Hp]; subst. rewrite get_achar_cons. change (get_achar []) with (0, @nil Z). cbv iota.
      pose proof (upcase_nz a ltac:(lia)).
      rewrite (proj2 (Z.eqb_neq (upcase a) 0)) by lia. cbn [negb].
      split; [|split; [done|intros _ n Hn; cbn in Hn; lia]].
      rewrite glob_chr_inv by done. by intros (? & ? & ? & _).
  - inversion Sn as [|? ? Hc Hn]; subst. pose proof (upcase_nz c ltac:(lia)).
    destruct (is_wild (peek pp)) eqn:Ew.
    { destruct (wildcards pp 0 false) as [[pp' nm] nx] eqn:Eq.
      pose proof (wild_block rec pp (c :: np) pp' nm nx Sp Sn R Ew Eq) as Hr.
      destruct (rec pp' (c :: np) nm nx); [by apply Hr|]. split; [intros G; by apply Hr in G|].
      split; [done|]. cbn [peek]. lia. }
    rewrite (get_achar_cons c). destruct pp as [|a pp].
    + change (get_achar []) with (0, @nil Z). cbv iota.
      rewrite (proj2 (Z.eqb_neq 0 (upcase c))) by lia. cbn [negb].
      split; [by inversion 1|]. split; [done|lia].
    + inversion Sp as [|? ? Ha Hp]; subst. rewrite get_achar_cons. pose proof (upcase_nz a ltac:(lia)).
      cbn [peek] in Ew. destruct (Z.eqb_spec (upcase a) (upcase c)) as [Eac|Nac]; cbn [negb].
      * rewrite (proj2 (Z.eqb_neq _ _)) by lia. specialize (IH fuel pp Hp Hn).
        assert (rec_ok rec (length pp)) as R' by (intros ? ? ? ? ? ? ?; apply R; cbn; try done; lia).
        specialize (IH R' ltac:(cbn in Hf; lia)). destruct (match_branch rec fuel pp np) as [[[]|nc]|]; [|  |done].
        -- by constructor.
        -- destruct IH as (NG & _ & Hz). split; [|split; [done|]].
           ++ rewrite glob_chr_inv by done. intros (? & ? & [= -> ->] & _ & ?). done.
           ++ intros Enc n Hl. rewrite glob_chr_inv by done. intros (x & n' & -> & _ & G).
              apply (Hz Enc n'); [cbn in Hl; lia|done].
      * split; [|split; [done|lia]]. rewrite glob_chr_inv by done. intros (? & ? & [= -> ->] & ? & _). done.
Qed.

Lemma match_search_spec rec inf : forall nam fuel pat,
  is_string pat -> is_string nam -> rec_ok rec (length pat) -> (length nam < fuel)%nat ->
  match_search rec fuel inf pat nam = true <-> glob (if inf then 42 :: pat else pat) nam.
Proof.
  induction nam as [|c nam IH]; intros fuel pat Sp Sn R Hf; (destruct fuel as [|fuel]; [lia|]); cbn [match_search].
  - pose proof (match_branch_spec rec [] 1 pat Sp Sn R) as B. specialize (B ltac:(cbn; lia)). cbn [length].
    assert (glob (if inf then 42 :: pat else pat) [] <-> glob pat []) as ->.
    { destruct inf; [|done]. rewrite glob_star_inv. setoid_rewrite drop_nil. firstorder. }
    destruct (match_branch rec 1 pat []) as [[[]|nc]|]; [tauto| |done].
    destruct B as (NG & Hz & _). rewrite (Hz eq_refl). change (nz 0) with false. rewrite andb_false_r. done.
  - pose proof (match_branch_spec rec (c :: nam) (S (length (c :: nam))) pat Sp Sn R ltac:(lia)) as B.
    inversion Sn as [|? ? Hc Hn]; subst. rewrite get_achar_cons. cbn [snd].
    assert (glob (42 :: pat) (c :: nam) <-> glob pat (c :: nam) \/ glob (42 :: pat) nam) as Hstar.
    { split; [|intros [G|G]; by constructor].
      intros G. apply glob_star_inv in G as [[|k] G]; [by left|right]. apply glob_star_inv. by exists k. }
    destruct (match_branch rec _ pat (c :: nam)) as [[[]|nc]|]; [|  |done].
    + split; [|done]. intros _. destruct inf; [apply Hstar; by left|done].
    + destruct B as (NG & _ & Hz). destruct inf; cbn [andb]; [|done]. rewrite Hstar.
      destruct (nz nc) eqn:En.
      * rewrite (IH fuel pat Sp Hn R ltac:(cbn in Hf; lia)). tauto.
      * apply nz_false in En. split; [done|]. intros [?|G]; [done|]. exfalso.
        apply glob_star_inv in G as [k G]. apply (Hz En (drop k nam)); [|exact G]. rewrite length_drop. cbn. lia.
Qed.

Lemma pattern_matching_fuel_spec fuel : forall pat nam skip inf,
  is_string pat -> is_string nam -> (length pat < fuel)%nat ->
  pattern_matching_fuel fuel pat nam skip inf = true <-> glob (whole skip inf pat) nam.
Proof.
  induction fuel as [|fuel IH]; intros pat nam skip inf Sp Sn Hf; [lia|]. cbn [pattern_matching_fuel].
  rewrite pre_skip_spec by done. unfold whole. rewrite glob_skip.
  destruct (Nat.leb_spec skip (length nam)) as [Hl|Hl]; [|split; [done|lia]].
  set (nam' := drop skip nam). assert (is_string nam') as Sn' by (by apply Forall_drop).
  assert (rec_ok (pattern_matching_fuel fuel) (length pat)) as R.
  { intros pp np nm nx S1 S2 L. apply IH; [done..|lia]. }
  destruct pat as [|a pat]; cbn [peek].
  - destruct inf; cbn [Z.eqb andb].
    + split; [|done]. intros _. split; [done|]. apply glob_star_inv. exists (length nam').
      rewrite drop_ge by lia. constructor.
    + rewrite (match_search_spec _ false nam' _ []) by (done || lia). tauto.
  - inversion Sp; subst. rewrite (proj2 (Z.eqb_neq a 0)) by lia. cbn [andb].
    rewrite match_search_spec by (done || lia). tauto.
Qed.

(** ** Properties *)

(** C38. [pattern_matching] decides wildcard matching: it terminates and returns
    1 exactly when the pattern, with ['?'] for any character and ['*'] for any
    string and letters compared without case, matches the whole name. *)
Theorem pattern_matching_correct (pat nam : list Z) :
  is_string pat -> is_string nam -> pattern_matching pat nam 0 false = true <-> glob pat nam.
Proof. intros Sp Sn. apply (pattern_matching_fuel_spec (S (length pat)) pat nam 0 false); [done..|lia]. Qed.

Lemma pattern_matching_correct_witness :
  pattern_matching (string_bytes "*.tx?"%string) (string_bytes "READ.ME.TXT"%string) 0 false = true <->
  glob (string_bytes "*.tx?"%string) (string_bytes "READ.ME.TXT"%string).
Proof. apply pattern_matching_correct; repeat constructor. Defined.

(** ** Short names *)

(** A character that may appear in a short name. *)
Definition legal (c : Z) : bool :=
  (32 <? c) && (c <? 128) && negb (c =? 46) && negb (is_sep c) && negb (nz (chk_chr illegal_chars c)).

(** The directory form: name body and extension in upper case, blank padded. *)
Definition padded (n : nat) (s : list Z) : list Z := (upcase <$> s) ++ replicate (n - length s) 32.
Definition dir_form (body ext : list Z) : list Z := padded 8 body ++ padded 3 ext.

(** Bit 0: a lower case letter occurs; bit 1: an upper case letter occurs. *)
Definition case_bits (s : list Z) : Z :=
  Z.lor (if existsb IsLower s then 1 else 0) (if existsb IsUpper s then 2 else 0).

(** Letters, all of them in lower case. *)
Definition all_lower (s : list Z) : bool := existsb IsLower s && negb (existsb IsUpper s).

Definition name_flags (term : Z) (body ext : list Z) : Z :=
  Z.lor (Z.lor (if term <=? 32 then NS_LAST else 0) (if all_lower ext then NS_EXT else 0))
        (if all_lower body then NS_BODY else 0).

Lemma case_bits_cons c s b :
  Z.lor (if IsUpper c then Z.lor b 2 else if IsLower c then Z.lor b 1 else b) (case_bits s) =
  Z.lor b (case_bits (c :: s)).
Proof.
  unfold case_bits. cbn [existsb]. destruct (IsUpper c) eqn:Eu.
  - assert (IsLower c = false) as ->.
    { unfold IsUpper, IsLower in *. apply andb_true_iff in Eu as [E1 E2].
      apply Z.leb_le in E2. by rewrite (proj2 (Z.leb_gt 97 c)) by lia. }
    cbn [orb]. rewrite <- Z.lor_assoc. f_equal. by destruct (existsb IsLower s), (existsb IsUpper s).
  - destruct (IsLower c); cbn [orb]; [|done]. rewrite <- Z.lor_assoc. f_equal.
    by destruct (existsb IsLower s), (existsb IsUpper s).
Qed.

(** One legal character. *)
Lemma segment_char c p i ni b sfn :
  legal c = true -> i < ni ->
  segment_loop (c :: p) i ni b sfn =
  segment_loop p (i + 1) ni (if IsUpper c then Z.lor b 2 else if IsLower c then Z.lor b 1 else b)
    (setb sfn i (upcase c)).
Proof.
  intros Hl Hi. unfold legal in Hl. repeat (apply andb_true_iff in Hl as [Hl ?]). cbn [segment_loop].
  repeat match goal with
  | H : (_ <? _) = true |- _ => apply Z.ltb_lt in H
  | H : negb _ = true |- _ => apply negb_true_iff in H; try rewrite H
  end.
  rewrite (proj2 (Z.leb_gt c 32)) by lia. cbn [orb].
  destruct (Z.geb_spec i ni); [lia|]. destruct (Z.geb_spec c 128); [lia|].
  unfold upcase. destruct (IsUpper c) eqn:Eu; [|by destruct (IsLower c)].
  assert (IsLower c = false) as ->; [|done].
  unfold IsUpper, IsLower in *. apply andb_true_iff in Eu as [E1 E2].
  apply Z.leb_le in E2. by rewrite (proj2 (Z.leb_gt 97 c)) by lia.
Qed.

(** A run of legal characters. *)
Lemma segment_run s : forall p i ni b sfn,
  forallb legal s = true -> 0 <= i -> i + zlen s <= ni -> ni <= zlen sfn ->
  segment_loop (s ++ p) i ni b sfn =
  segment_loop p (i + zlen s) ni (Z.lor b (case_bits s)) (splice sfn (Z.to_nat i) (upcase <$> s)).
Proof.
  induction s as [|c s IH]; intros p i ni b sfn Hl H0 Hi Hn.
  - change (zlen (@nil Z)) with 0. rewrite Z.add_0_r. cbn [app fmap list_fmap]. rewrite splice_nil.
    unfold case_bits. cbn. by rewrite Z.lor_0_r.
  - cbn [forallb] in Hl. apply andb_true_iff in Hl as [Hc Hs].
    assert (zlen (c :: s) = 1 + zlen s) as El by (unfold zlen; cbn; lia). rewrite El in *.
    pose proof (zlen_nonneg s).
    cbn [app]. rewrite segment_char by (done || lia). rewrite IH by (rewrite ?zlen_setb; done || lia).
    rewrite case_bits_cons. f_equal; [lia|]. cbn [fmap list_fmap].
    rewrite <- splice_cons by (rewrite length_fmap; unfold zlen in *; lia).
    rewrite Z2Nat.id by lia. f_equal. lia.
Qed.

Lemma mem_set_blank fn : length fn = 12%nat ->
  exists x, mem_set 0 32 11 fn = replicate 11 32 ++ [x].
Proof.
  intros Hl. unfold mem_set, splice. change (Z.to_nat 0) with 0%nat. rewrite take_0, app_nil_l.
  change (u8 32) with 32. change (Z.to_nat 11) with 11%nat. rewrite length_replicate.
  destruct (drop (0 + 11) fn) as [|x [|y r]] eqn:E; apply (f_equal length) in E; rewrite length_drop in E;
    cbn in E; try lia. by exists x.
Qed.

Lemma splice_blank n x s : (length s <= n)%nat ->
  splice (replicate n 32 ++ x) 0 (upcase <$> s) = padded n s ++ x.
Proof.
  intros Hn. unfold splice, padded. rewrite take_0, app_nil_l, length_fmap. cbn [plus].
  rewrite <- app_assoc. f_equal. rewrite drop_app_le by (rewrite length_replicate; lia).
  by rewrite drop_replicate.
Qed.

Lemma splice_app_r l1 l2 s : splice (l1 ++ l2) (length l1) s = l1 ++ splice l2 0 s.
Proof.
  unfold splice. rewrite take_app_length, take_0, app_nil_l.
  f_equal. f_equal. rewrite drop_app_ge by lia. f_equal. lia.
Qed.

Lemma length_padded n s : (length s <= n)%nat -> length (padded n s) = n.
Proof. intros. unfold padded. rewrite length_app, length_fmap, length_replicate. lia. Qed.

Lemma splice_body s x : (length s <= 8)%nat ->
  splice (replicate 11 32 ++ [x]) 0 (upcase <$> s) = padded 8 s ++ replicate 3 32 ++ [x].
Proof.
  intros Hs. change (replicate 11 32) with (replicate 8 32 ++ replicate 3 32).
  rewrite <- app_assoc. by apply splice_blank.
Qed.

(** How a segment ends: the break character and what is behind it. *)
Definition ends (r : list Z) : Prop := r = [] \/ (peek r <=? 32) || is_sep (peek r) = true.

Lemma segment_end r i ni b sfn : ends r ->
  segment_loop r i ni b sfn = inr (peek r, next r, i, ni, b, sfn).
Proof.
  intros [->|E]; [done|]. destruct r as [|c r]; [done|]. cbn [peek] in E. cbn [segment_loop peek next].
  by rewrite E.
Qed.

Lemma strip_seps_app pre body p :
  forallb is_sep pre = true -> (0 < length body)%nat -> forallb legal body = true ->
  strip_seps (pre ++ body ++ p) = body ++ p.
Proof.
  intros Hp Hb Hl. induction pre as [|c pre IH]; cbn in *.
  - destruct body as [|c body]; cbn in *; [lia|]. apply andb_true_iff in Hl as [Hc _].
    unfold legal in Hc. repeat (apply andb_true_iff in Hc as [Hc ?]).
    destruct (is_sep c); done.
  - apply andb_true_iff in Hp as [-> Hp]. auto.
Qed.

(** The dot and the extension. *)
Lemma segment_ext body ext dot r x b :
  forallb legal ext = true -> (length body <= 8)%nat -> (length ext <= 3)%nat ->
  (ext <> [] -> dot = true) -> ends r -> 0 <= b < 4 ->
  segment_loop ((if dot : bool then 46 :: ext else []) ++ r) (zlen body) 8 b
    (padded 8 body ++ replicate 3 32 ++ [x]) =
  inr (peek r, next r, (if dot then 8 + zlen ext else zlen body), (if dot then 11 else 8),
       (if dot then Z.lor (4 * b) (case_bits ext) else b), dir_form body ext ++ [x]).
Proof.
  intros Hl Hb He Hd Hr H4. destruct dot.
  - cbn [app segment_loop]. change (46 <=? 32) with false. change (is_sep 46) with false.
    cbn [orb Z.eqb Pos.eqb negb]. rewrite segment_run; [|done|lia|unfold zlen; lia|].
    2: { rewrite !zlen_app. unfold zlen. rewrite length_padded, length_replicate by done. cbn. lia. }
    rewrite segment_end by done. do 2 f_equal.
    + unfold u8. rewrite shiftl_mul by lia. rewrite Z.mod_small by lia. do 2 f_equal. lia.
    + change (Z.to_nat 8) with 8%nat. 
      pose proof (splice_app_r (padded 8 body) (replicate 3 32 ++ [x]) (upcase <$> ext)) as Sp.
      rewrite length_padded in Sp by done. rewrite Sp, splice_blank by done.
      unfold dir_form. by rewrite app_assoc.
  - destruct ext; [|by discriminate Hd]. cbn [app]. rewrite segment_end by done.
    unfold dir_form. by rewrite <- app_assoc.
Qed.

Lemma case_bits_range s : 0 <= case_bits s < 4.
Proof. unfold case_bits. by destruct (existsb IsLower s), (existsb IsUpper s). Qed.

Lemma getb_head s n x : (0 < length s)%nat -> forallb legal s = true -> (length s <= n)%nat ->
  getb (padded n s ++ x) 0 < 128.
Proof.
  intros Hs Hl _. destruct s as [|c s]; [cbn in Hs; lia|]. cbn in Hl. apply andb_true_iff in Hl as [Hc _].
  unfold legal in Hc. repeat (apply andb_true_iff in Hc as [Hc ?]).
  change (upcase c < 128). unfold upcase. destruct (IsLower c); lia.
Qed.

Lemma setb_last l x y : length l = 11%nat -> setb (l ++ [x]) NSFLAG y = l ++ [y].
Proof.
  intros Hl. unfold setb, NSFLAG. change (Z.to_nat 11) with 11%nat.
  by rewrite insert_app_r_alt by lia; rewrite Hl.
Qed.

Lemma create_name_run fn pre body ext dot r :
  length fn = 12%nat -> forallb is_sep pre = true -> forallb legal body = true -> forallb legal ext = true ->
  (1 <= length body <= 8)%nat -> (length ext <= 3)%nat -> (ext <> [] -> dot = true) -> ends r ->
  create_name fn (pre ++ body ++ (if dot : bool then 46 :: ext else []) ++ r) =
    (FR_OK, dir_form body ext ++ [name_flags (peek r) body ext], next r).
Proof.
  intros Hf Hp Hb He [L1 L2] L3 Hd Hr. unfold create_name.
  rewrite strip_seps_app by (done || lia). destruct (mem_set_blank fn Hf) as [x ->].
  rewrite segment_run; [|done|lia|unfold zlen; lia|by unfold zlen].
  rewrite Z.add_0_l, Z.lor_0_l. change (Z.to_nat 0) with 0%nat. rewrite splice_body by lia.
  pose proof (case_bits_range body) as Rb.
  rewrite segment_ext; [|done|lia|done|done|done|done].
  rewrite (proj2 (Z.eqb_neq (if dot then _ else _) 0)) by (unfold zlen; destruct dot; lia).
  assert (getb (dir_form body ext ++ [x]) 0 < 128) as Hh.
  { unfold dir_form. rewrite <- app_assoc. apply getb_head; [lia|done|lia]. }
  rewrite (proj2 (Z.eqb_neq (getb _ 0) DDEM)) by (unfold DDEM; lia).
  rewrite setb_last by (unfold dir_form; rewrite length_app, !length_padded by lia; done).
  do 3 f_equal. f_equal. unfold name_flags, all_lower.
  assert (dot = false -> existsb IsLower ext = false /\ existsb IsUpper ext = false) as Hnd.
  { intros ->. destruct ext; [done|]. by discriminate Hd. }
  unfold case_bits. destruct dot; cbn [Z.eqb Pos.eqb].
  - clear. destruct (existsb IsLower body), (existsb IsUpper body), (existsb IsLower ext), (existsb IsUpper ext),
      (peek r <=? 32); reflexivity.
  - destruct (Hnd eq_refl) as [-> ->]. clear.
    destruct (existsb IsLower body), (existsb IsUpper body), (peek r <=? 32); reflexivity.
Qed.

(** [create_name] computes the directory form of an 8.3 name: a segment of
    one to eight legal characters with an optional dot and extension of up to
    three, after any number of separators, is accepted; the eleven bytes are
    the upper-cased and blank-padded name, the flag byte says whether it is the
    last segment and whether body or extension were written in lower case
    only, and the path is advanced behind the segment. *)
Theorem create_name_directory_form (fn pre body ext r : list Z) (dot : bool) :
  length fn = 12%nat -> forallb is_sep pre = true -> forallb legal body = true -> forallb legal ext = true ->
  (1 <= length body <= 8)%nat -> (length ext <= 3)%nat -> (ext <> [] -> dot = true) -> ends r ->
  create_name fn (pre ++ body ++ (if dot then 46 :: ext else []) ++ r) =
    (FR_OK, dir_form body ext ++ [name_flags (peek r) body ext], next r).
Proof. apply create_name_run. Qed.

Lemma create_name_directory_form_witness :
  create_name (replicate 12 0)
    ([47] ++ string_bytes "readme"%string ++ (46 :: string_bytes "Txt"%string) ++ string_bytes "/x"%string) =
  (FR_OK, string_bytes "README  TXT"%string ++ [NS_BODY], string_bytes "x"%string).
Proof.
  apply (create_name_directory_form (replicate 12 0) [47] (string_bytes "readme"%string)
           (string_bytes "Txt"%string) (string_bytes "/x"%string) true); try reflexivity; try (vm_compute; lia).
Defined.

(** *** Printing an entry's name and parsing it back *)

Lemma sfn_text_blanks n r i : sfn_text (replicate n 32 ++ r) i = sfn_text r (i + Z.of_nat n).
Proof.
  revert i. induction n as [|n IH]; intros i; cbn [replicate app sfn_text]; [by rewrite Z.add_0_r|].
  change (32 =? 32) with true. cbv iota. rewrite IH. f_equal. lia.
Qed.

(** A printable character of a name in directory form. *)
Definition upper_legal (c : Z) : bool := legal c && negb (IsLower c).

Lemma upper_legal_plain c : upper_legal c = true -> c <> 32 /\ c <> RDDEM /\ upcase c = c /\ legal c = true.
Proof.
  intros H. apply andb_true_iff in H as [Hl Hn]. apply negb_true_iff in Hn.
  unfold upcase. rewrite Hn. assert (32 < c) as Hc.
  { unfold legal in Hl. repeat (apply andb_true_iff in Hl as [Hl ?]). by apply Z.ltb_lt. }
  unfold RDDEM. repeat split; try done; lia.
Qed.

Lemma sfn_text_run s r i : forallb upper_legal s = true -> (i + zlen s <= 8 \/ 9 <= i) ->
  sfn_text (s ++ r) i = s ++ sfn_text r (i + zlen s).
Proof.
  revert i. induction s as [|c s IH]; intros i Hs Hi.
  - change (zlen (@nil Z)) with 0. by rewrite Z.add_0_r.
  - cbn [forallb] in Hs. apply andb_true_iff in Hs as [Hc Hs].
    assert (zlen (c :: s) = 1 + zlen s) as El by (unfold zlen; cbn; lia). rewrite El in *.
    pose proof (zlen_nonneg s). destruct (upper_legal_plain c Hc) as (N1 & N2 & _ & _).
    cbn [app sfn_text]. rewrite (proj2 (Z.eqb_neq c 32)), (proj2 (Z.eqb_neq c RDDEM)) by done.
    rewrite (proj2 (Z.eqb_neq (i + 1) 9)) by lia. cbn [app]. f_equal. rewrite IH by (done || lia).
    do 2 f_equal. lia.
Qed.

Lemma upper_legal_fmap s : forallb upper_legal s = true -> upcase <$> s = s.
Proof.
  induction s as [|c s IH]; intros Hs; [done|]. cbn in Hs. apply andb_true_iff in Hs as [Hc Hs].
  cbn. destruct (upper_legal_plain c Hc) as (_ & _ & E & _). f_equal; [exact E|by apply IH].
Qed.

Lemma upper_legal_forall s : forallb upper_legal s = true -> forallb legal s = true.
Proof.
  rewrite !forallb_forall. intros Hs x Hx. apply Hs in Hx. by apply upper_legal_plain in Hx as (_ & _ & _ & ?).
Qed.

(** The text of a name in directory form. *)
Lemma sfn_text_dir_form body ext :
  forallb upper_legal body = true -> forallb upper_legal ext = true ->
  (length body <= 8)%nat -> (length ext <= 3)%nat ->
  sfn_text (dir_form body ext) 0 = body ++ (if (0 <? zlen ext) then 46 :: ext else []).
Proof.
  intros Hb He L1 L2. unfold dir_form, padded. rewrite !upper_legal_fmap by done. rewrite <- app_assoc.
  rewrite sfn_text_run by (done || unfold zlen; lia). f_equal. rewrite sfn_text_blanks.
  replace (0 + zlen body + Z.of_nat (8 - length body)) with 8 by (unfold zlen; lia).
  destruct ext as [|c ext].
  - rewrite app_nil_l. rewrite <- (app_nil_r (replicate _ 32)), sfn_text_blanks. done.
  - cbn [forallb] in He. apply andb_true_iff in He as [Hc He].
    destruct (upper_legal_plain c Hc) as (N1 & N2 & _ & _).
    cbn [app sfn_text]. rewrite (proj2 (Z.eqb_neq c 32)), (proj2 (Z.eqb_neq c RDDEM)) by done.
    cbn [Z.eqb Z.add Pos.add Pos.succ Pos.eqb app].
    rewrite (proj2 (Z.ltb_lt 0 (zlen (c :: ext)))) by (unfold zlen; cbn; lia). do 2 f_equal.
    rewrite sfn_text_run by (done || lia). rewrite <- (app_nil_r (replicate _ 32)), sfn_text_blanks.
    by rewrite app_nil_r.
Qed.

(** Printing and parsing short names are inverse: the text that
    [get_fileinfo] shows for a directory entry is parsed by [create_name] into
    exactly the eleven bytes of that entry, as the last segment of the path. *)
Theorem sfn_print_parse_roundtrip (fn body ext : list Z) :
  length fn = 12%nat -> forallb upper_legal body = true -> forallb upper_legal ext = true ->
  (1 <= length body <= 8)%nat -> (length ext <= 3)%nat ->
  exists flags, create_name fn (sfn_text (dir_form body ext) 0) = (FR_OK, dir_form body ext ++ [flags], []) /\
                has flags NS_LAST = true.
Proof.
  intros Hf Hb He L1 L2. rewrite sfn_text_dir_form by (done || lia).
  exists (name_flags 0 body ext).
  pose proof (create_name_run fn [] body ext (0 <? zlen ext) []) as E. rewrite app_nil_r in E.
  cbn [app peek next] in E. split.
  - apply E; auto using upper_legal_forall; [|by left]. intros Hne. destruct ext; [done|].
    apply Z.ltb_lt. unfold zlen. cbn. lia.
  - unfold name_flags. by destruct (all_lower body), (all_lower ext).
Qed.

Lemma sfn_print_parse_roundtrip_witness :
  exists flags, create_name (replicate 12 7) (sfn_text (dir_form (string_bytes "BOOT"%string) (string_bytes "INI"%string)) 0) =
    (FR_OK, dir_form (string_bytes "BOOT"%string) (string_bytes "INI"%string) ++ [flags], []) /\
    has flags NS_LAST = true.
Proof.
  apply sfn_print_parse_roundtrip; try reflexivity; vm_compute; lia.
Defined.
