(* ===== verification/FatDir.v ===== *)
(** * FatFs directories ([ff.c] lines 1034-1214, 1409-1714 and 2004-2057)

    Directory tables as sequences of 32-byte entries, walked by a DIR object
    through the sector window.  The functions that take a [DIR*] receive the
    object and yield its new value; [dp->fs] is the volume they run on.  A
    directory index is a 16-bit number, so every walk ends within 65536
    entries, which is the fuel of the loops. *)

From S2P Require Import Prelude FatBase FatAccess FatName.

Section Dir.
Context {D : Type} `{DiskIO D}.

Definition ENTRIES : Z := SS / SZ_DIRE.
Definition DIR_FUEL : nat := Z.to_nat 65537.

(** ** Position in a directory *)

(** [while (idx >= ic) { ... }]: [inl] is a [return], [inr] the cluster and the
    index in it. *)
Definition sdi_body (ic : Z) (st : Z * Z) : M (vol D) (Z * Z + (FRESULT + Z * Z)) :=
  let '(clst, idx) := st in
  if idx >=? ic then
    let! clst := get_fat clst in
    let! nfe := getfs n_fatent in
    if clst =? 0xFFFFFFFF then ret (inr (inl FR_DISK_ERR))
    else if (clst <? 2) || (clst >=? nfe) then ret (inr (inl FR_INT_ERR))
    else ret (inl (clst, idx - ic))
  else ret (inr (inr (clst, idx))).

(** Lines 1067-1072. *)
Definition sdi_finish (dp : DIR) (clst sct idx : Z) : M (vol D) (FRESULT * DIR) :=
  let dp := set_clust clst dp in
  if sct =? 0 then ret (FR_INT_ERR, dp)
  else
    let dp := set_sect (u32 (sct + idx / ENTRIES)) dp in
    let dp := set_dir (Some (idx mod ENTRIES * SZ_DIRE)) dp in
    ret (FR_OK, dp).

Definition dir_sdi (dp : DIR) (idx : Z) : M (vol D) (FRESULT * DIR) :=
  let dp := set_index (u16 idx) dp in
  let clst := sclust dp in
  let! nfe := getfs n_fatent in
  if (clst =? 1) || (clst >=? nfe) then ret (FR_INT_ERR, dp)
  else
    let! ty := getfs fs_type in
    let! db := getfs dirbase in
    let clst := if (clst =? 0) && (ty =? FS_FAT32) then db else clst in
    if clst =? 0 then
      let! nr := getfs n_rootdir in
      if idx >=? nr then ret (FR_INT_ERR, dp)
      else sdi_finish dp clst db idx
    else
      let! cs := getfs csize in
      let! r := loop DIR_FUEL (sdi_body (SS / SZ_DIRE * cs)) (clst, idx) in
      match r with
      | inl res => ret (res, dp)
      | inr (clst, idx) =>
          let! f := getfs id in
          sdi_finish dp clst (clust2sect f clst) idx
      end.

(** [for (c = 0; c < fs->csize; c++) { wflag = 1; if (sync_window) return; winsect++; }],
    [k] rounds; true: the early return. *)
Fixpoint fill_cluster (k : nat) : M (vol D) bool :=
  match k with
  | O => ret false
  | S k =>
      setfs (set_wflag 1) ;;;
      let! res := sync_window in
      if negb (is_ok res) then ret true
      else setfs (fun f => set_winsect (u32 (winsect f + 1)) f) ;;; fill_cluster k
  end.

(** Lines 1114-1127: a new, zero-filled cluster behind [clst0]; [inl] is a return. *)
Definition stretch_table (clst0 : Z) : M (vol D) (FRESULT + Z) :=
  let! clst := create_chain clst0 in
  if clst =? 0 then ret (inl FR_DENIED)
  else if clst =? 1 then ret (inl FR_INT_ERR)
  else if clst =? 0xFFFFFFFF then ret (inl FR_DISK_ERR)
  else
    let! res := sync_window in
    if negb (is_ok res) then ret (inl FR_DISK_ERR)
    else
      upd_win (mem_set 0 0 SS) ;;;
      setfs (fun f => set_winsect (clust2sect f clst) f) ;;;
      let! cs := getfs csize in
      let! bad := fill_cluster (Z.to_nat cs) in
      if bad : bool then ret (inl FR_DISK_ERR)
      else
        setfs (fun f => set_winsect (u32 (winsect f - cs)) f) ;;;
        ret (inr clst).

(** Lines 1139-1142. *)
Definition next_finish (dp : DIR) (i : Z) : M (vol D) (FRESULT * DIR) :=
  let dp := set_index (u16 i) dp in
  ret (FR_OK, set_dir (Some (i mod ENTRIES * SZ_DIRE)) dp).

Definition dir_next (dp : DIR) (stretch : bool) : M (vol D) (FRESULT * DIR) :=
  let i := index dp + 1 in
  if (Z.land i 0xFFFF =? 0) || (sect dp =? 0) then ret (FR_NO_FILE, dp)
  else if i mod ENTRIES =? 0 then
    let dp := set_sect (u32 (sect dp + 1)) dp in
    if clust dp =? 0 then
      let! nr := getfs n_rootdir in
      if i >=? nr then ret (FR_NO_FILE, dp) else next_finish dp i
    else
      let! cs := getfs csize in
      if Z.land (i / ENTRIES) (cs - 1) =? 0 then
        let! clst := get_fat (clust dp) in
        if clst <=? 1 then ret (FR_INT_ERR, dp)
        else if clst =? 0xFFFFFFFF then ret (FR_DISK_ERR, dp)
        else
          let! nfe := getfs n_fatent in
          let! r := (if clst >=? nfe then
                       if negb stretch then ret (inl FR_NO_FILE)
                       else stretch_table (clust dp)
                     else ret (inr clst)) in
          match r with
          | inl res => ret (res, dp)
          | inr clst =>
              let! f := getfs id in
              next_finish (set_sect (clust2sect f clst) (set_clust clst dp)) i
          end
      else next_finish dp i
  else next_finish dp i.

(** ** Walks over a directory *)

(** [dp->dir[k]]: byte [k] of the current entry in the window. *)
Definition entry_byte (dp : DIR) (k : Z) : M (vol D) Z :=
  let! w := getfs win in ret (getb w (default 0 (dir dp) + k)).

Definition dir_alloc_body (nent : Z) (st : DIR * Z) : M (vol D) (DIR * Z + FRESULT * DIR) :=
  let '(dp, n) := st in
  let! res := move_window (sect dp) in
  if negb (is_ok res) then ret (inr (res, dp))
  else
    let! c := entry_byte dp 0 in
    let free := (c =? DDEM) || (c =? 0) in
    let n := if free then n + 1 else 0 in
    if free && (n =? nent) then ret (inr (res, dp))
    else
      let! (res, dp) := dir_next dp true in
      if is_ok res then ret (inl (dp, n)) else ret (inr (res, dp)).

Definition dir_alloc (dp : DIR) (nent : Z) : M (vol D) (FRESULT * DIR) :=
  let! (res, dp) := dir_sdi dp 0 in
  let! (res, dp) := (if is_ok res then loop DIR_FUEL (dir_alloc_body nent) (dp, 0)
                     else ret (res, dp)) in
  ret ((if res_eq res FR_NO_FILE then FR_DENIED else res), dp).

Definition ld_clust (f : FATFS) (w : list Z) (off : Z) : Z :=
  let cl := LD_WORD w (off + DIR_FstClusLO) in
  if fs_type f =? FS_FAT32
  then Z.lor cl (u32 (Z.shiftl (LD_WORD w (off + DIR_FstClusHI)) 16))
  else cl.

Definition st_clust (off cl : Z) (w : list Z) : list Z :=
  ST_WORD (off + DIR_FstClusHI) (Z.shiftr cl 16) (ST_WORD (off + DIR_FstClusLO) cl w).

(** [!mem_cmp(dir, dp->fn, 11)] on the current entry. *)
Definition name_matches (dp : DIR) (w : list Z) : bool :=
  mem_cmp (drop (Z.to_nat (default 0 (dir dp))) w) (fn dp) 11 =? 0.

Definition dir_find_body (dp : DIR) : M (vol D) (DIR + FRESULT * DIR) :=
  let! res := move_window (sect dp) in
  if negb (is_ok res) then ret (inr (res, dp))
  else
    let! c := entry_byte dp DIR_Name in
    if c =? 0 then ret (inr (FR_NO_FILE, dp))
    else
      let! a := entry_byte dp DIR_Attr in
      let! w := getfs win in
      if negb (has a AM_VOL) && name_matches dp w then ret (inr (res, dp))
      else
        let! (res, dp) := dir_next dp false in
        if is_ok res then ret (inl dp) else ret (inr (res, dp)).

Definition dir_find (dp : DIR) : M (vol D) (FRESULT * DIR) :=
  let! (res, dp) := dir_sdi dp 0 in
  if negb (is_ok res) then ret (res, dp)
  else loop DIR_FUEL dir_find_body dp.

(** The loop carries [res] too: it ends with it when [dp->sect] is 0. *)
Definition dir_read_body (vl : Z) (st : FRESULT * DIR)
    : M (vol D) (FRESULT * DIR + FRESULT * DIR) :=
  let '(res, dp) := st in
  if negb (nz (sect dp)) then ret (inr (res, dp))
  else
    let! res := move_window (sect dp) in
    if negb (is_ok res) then ret (inr (res, dp))
    else
      let! c := entry_byte dp DIR_Name in
      if c =? 0 then ret (inr (FR_NO_FILE, dp))
      else
        let! a := entry_byte dp DIR_Attr in
        let a := Z.land a AM_MASK in
        let is_vol := if Z.land a (Z.lnot AM_ARC) =? AM_VOL then 1 else 0 in
        if negb (c =? DDEM) && negb (c =? 46) && negb (a =? AM_LFN) && (is_vol =? vl)
        then ret (inr (res, dp))
        else
          let! (res, dp) := dir_next dp false in
          if negb (is_ok res) then ret (inr (res, dp)) else ret (inl (res, dp)).

Definition dir_read (dp : DIR) (vl : Z) : M (vol D) (FRESULT * DIR) :=
  let! (res, dp) := loop DIR_FUEL (dir_read_body vl) (FR_NO_FILE, dp) in
  ret (res, if is_ok res then dp else set_sect 0 dp).

(** ** Changing a directory *)

Definition dir_register (dp : DIR) : M (vol D) (FRESULT * DIR) :=
  let! (res, dp) := dir_alloc dp 1 in
  if is_ok res then
    let! res := move_window (sect dp) in
    when (is_ok res)
      (upd_win (mem_set (default 0 (dir dp)) 0 SZ_DIRE) ;;;
       upd_win (mem_cpy (default 0 (dir dp)) (fn dp) 11) ;;;
       setfs (set_wflag 1)) ;;;
    ret (res, dp)
  else ret (res, dp).

Definition dir_remove (dp : DIR) : M (vol D) (FRESULT * DIR) :=
  let! (res, dp) := dir_sdi dp (index dp) in
  if is_ok res then
    let! res := move_window (sect dp) in
    when (is_ok res)
      (upd_win (mem_set (default 0 (dir dp)) 0 SZ_DIRE) ;;;
       upd_win (fun w => setb w (default 0 (dir dp)) DDEM) ;;;
       setfs (set_wflag 1)) ;;;
    ret (res, dp)
  else ret (res, dp).

Definition get_fileinfo (dp : DIR) (fno : FILINFO) : M (vol D) FILINFO :=
  let! w := getfs win in
  if nz (sect dp) then
    let off := default 0 (dir dp) in
    ret {| fname := sfn_text (slice w (Z.to_nat off) 11) 0;
           fattrib := getb w (off + DIR_Attr);
           fi_fsize := LD_DWORD w (off + DIR_FileSize);
           fdate := LD_WORD w (off + DIR_WrtDate);
           ftime := LD_WORD w (off + DIR_WrtTime) |}
  else
    ret {| fname := []; fattrib := fattrib fno; fi_fsize := fi_fsize fno;
           fdate := fdate fno; ftime := ftime fno |}.

(** ** Paths *)

Definition follow_body (st : DIR * list Z) : M (vol D) (DIR * list Z + FRESULT * DIR) :=
  let '(dp, path) := st in
  let '(res, fn', path) := create_name (fn dp) path in
  let dp := set_fn fn' dp in
  if negb (is_ok res) then ret (inr (res, dp))
  else
    let! (res, dp) := dir_find dp in
    let ns := getb (fn dp) NSFLAG in
    if negb (is_ok res) then
      ret (inr ((if res_eq res FR_NO_FILE && negb (has ns NS_LAST) then FR_NO_PATH else res), dp))
    else if has ns NS_LAST then ret (inr (res, dp))
    else
      let! a := entry_byte dp DIR_Attr in
      if negb (has a AM_DIR) then ret (inr (FR_NO_PATH, dp))
      else
        let! f := getfs id in
        ret (inl (set_sclust (ld_clust f (win f) (default 0 (dir dp))) dp, path)).

Definition follow_path (dp : DIR) (path : list Z) : M (vol D) (FRESULT * DIR) :=
  let path := if is_sep (peek path) then next path else path in
  let dp := set_sclust 0 dp in
  if peek path <? 32 then
    let! (res, dp) := dir_sdi dp 0 in
    ret (res, set_dir None dp)
  else loop (S (length path)) follow_body (dp, path).
End Dir.

(** ** Directory tables

    A directory is a table of entries, the static root table of FAT12/16 or
    the concatenated clusters of a chain. *)

Inductive table := Static | Chained (cl : list Z).

Section Theory.
Context {D : Type} `{L : DiskLaws D}.
Implicit Types (v : vol D) (f : FATFS) (T : table).

Definition per_clust f : Z := 16 * csize f.

Definition tbl_clust f T (i : Z) : Z :=
  match T with
  | Static => 0
  | Chained cl => nth (Z.to_nat (i / per_clust f)) cl 0
  end.
Definition tbl_sector f T (i : Z) : Z :=
  match T with
  | Static => dirbase f + i / 16
  | Chained cl => (tbl_clust f T i - 2) * csize f + database f + i / 16 mod csize f
  end.
Definition tbl_size f T : Z :=
  match T with
  | Static => n_rootdir f
  | Chained cl => zlen cl * per_clust f
  end.

(** The data area lies below the 32-bit limit and clusters are a power of two
    of sectors. *)
Record vol_geo f : Prop := {
  vg_fat : fat_geo f;
  vg_csize : exists k, 0 <= k <= 7 /\ csize f = 2 ^ k;
  vg_data : 0 < database f /\ database f + (n_fatent f - 2) * csize f <= 0xFFFFFFFF
}.

(** [T] is the table of the directory with start cluster [sc]. *)
Record table_ok v (sc : Z) T : Prop := {
  to_shape : match T with
             | Static => sc = 0 /\ fs_type (fs v) <> FS_FAT32 /\ n_rootdir (fs v) mod 16 = 0
             | Chained cl =>
                 sc <> 1 /\ 0 <= sc < n_fatent (fs v) /\ (sc = 0 -> fs_type (fs v) = FS_FAT32) /\
                 chain v (if sc =? 0 then dirbase (fs v) else sc) cl
             end;
  to_size : 0 < tbl_size (fs v) T <= 65536;
  to_sectors : forall i, 0 <= i < tbl_size (fs v) T ->
    ready (disk v) (tbl_sector (fs v) T i) /\ ~ mirror (fs v) (tbl_sector (fs v) T i) /\
    ~ in_fat (fs v) (tbl_sector (fs v) T i) /\ 0 < tbl_sector (fs v) T i < 0xFFFFFFFF
}.

(** [dp] stands at entry [i] of the table. *)
Record positioned f T (dp : DIR) (i : Z) : Prop := {
  po_index : index dp = i;
  po_sect : sect dp = tbl_sector f T i;
  po_clust : clust dp = tbl_clust f T i;
  po_dir : dir dp = Some (i mod 16 * 32);
  po_range : 0 <= i < tbl_size f T
}.

(** The 32 bytes of entry [i]. *)
Definition entry v T (i : Z) : list Z :=
  slice (lsec v (tbl_sector (fs v) T i)) (Z.to_nat (i mod 16 * 32)) 32.

Lemma geo_fields f f' : geo f' = geo f ->
  fs_type f' = fs_type f /\ csize f' = csize f /\ n_rootdir f' = n_rootdir f /\ n_fatent f' = n_fatent f /\
  fsize f' = fsize f /\ fatbase f' = fatbase f /\ dirbase f' = dirbase f /\ database f' = database f.
Proof. unfold geo. intros E. repeat split; congruence. Qed.

Lemma geo_tbl f f' T : geo f' = geo f ->
  (forall i, tbl_sector f' T i = tbl_sector f T i) /\ (forall i, tbl_clust f' T i = tbl_clust f T i) /\
  tbl_size f' T = tbl_size f T.
Proof.
  intros G. destruct (geo_fields f f' G) as (_ & E2 & E3 & _ & _ & _ & E7 & E8).
  unfold tbl_sector, tbl_clust, tbl_size, per_clust. by rewrite E2, E3, E7, E8.
Qed.

Lemma geo_vol_geo f f' : geo f' = geo f -> vol_geo f -> vol_geo f'.
Proof.
  intros G [V1 V2 V3]. destruct (geo_fields f f' G) as (_ & E2 & _ & E4 & _ & _ & _ & E8).
  constructor; rewrite ?E2, ?E4, ?E8; try done. by eapply geo_fat_geo.
Qed.

Lemma positioned_geo f f' T dp i : geo f' = geo f -> positioned f T dp i -> positioned f' T dp i.
Proof.
  intros G [P1 P2 P3 P4 P5]. destruct (geo_tbl f f' T G) as (E1 & E2 & E3).
  constructor; rewrite ?E1, ?E2, ?E3; done.
Qed.

(** Chains depend on the entries only. *)
Lemma chain_ext v v' c l :
  n_fatent (fs v') = n_fatent (fs v) ->
  (forall x, valid_clust (fs v) x -> fat_entry v' x = fat_entry v x) -> chain v c l -> chain v' c l.
Proof.
  intros En E. induction 1 as [c Hc|c l Hv He Hch IH].
  - constructor. by rewrite En.
  - pose proof (E c Hv) as Ec. constructor; [by unfold valid_clust in *; rewrite En|by rewrite Ec|by rewrite Ec].
Qed.

Lemma chain_view v v' c l : wf v -> fat_geo (fs v) -> same_view v v' -> chain v c l -> chain v' c l.
Proof.
  intros W FG V. apply chain_ext; [apply (geo_fields _ _ (proj1 V))|]. intros x Hx. by apply fat_entry_view.
Qed.

Lemma table_view v v' sc T : wf v -> fat_geo (fs v) -> same_view v v' -> table_ok v sc T -> table_ok v' sc T.
Proof.
  intros W FG V [T1 T2 T3]. pose proof V as (G & S & R).
  destruct (geo_fields _ _ G) as (E1 & E2 & E3 & E4 & E5 & E6 & E7 & E8).
  destruct (geo_tbl _ _ T G) as (F1 & F2 & F3). constructor.
  - destruct T as [|cl]; rewrite ?E1, ?E3, ?E4, ?E7; [done|].
    destruct T1 as (A1 & A2 & A3 & A4). do 3 (split; [done|]). by eapply chain_view.
  - by rewrite F3.
  - intros i. rewrite F1, F3. intros Hi. destruct (T3 i Hi) as (A1 & A2 & A3 & A4).
    rewrite (geo_mirror _ _ _ G), (geo_in_fat _ _ _ G). auto.
Qed.

Lemma entry_view v v' sc T i :
  same_view v v' -> table_ok v sc T -> 0 <= i < tbl_size (fs v) T -> entry v' T i = entry v T i.
Proof.
  intros (G & S & R) TO Hi. unfold entry. destruct (geo_tbl _ _ T G) as (F1 & _ & _). rewrite F1.
  rewrite S; [done|]. by apply (to_sectors v sc T TO).
Qed.

(** [clust2sect] without wrap-around. *)
Lemma clust2sect_spec f c : vol_geo f -> valid_clust f c ->
  clust2sect f c = (c - 2) * csize f + database f /\ 0 < clust2sect f c.
Proof.
  intros [V1 (k & Hk & V2) [V3 V4]] [C1 C2]. pose proof (fg_bound _ V1) as [N1 N2].
  assert (0 < csize f) by (rewrite V2; apply Z.pow_pos_nonneg; lia).
  unfold clust2sect. rewrite (u32_small (c - 2)) by (unfold is_u32; lia).
  rewrite (u32_small (n_fatent f - 2)) by (unfold is_u32; lia).
  destruct (Z.geb_spec (c - 2) (n_fatent f - 2)); [lia|].
  assert ((c - 2) * csize f + csize f <= (n_fatent f - 2) * csize f) by nia.
  rewrite u32_small by (unfold is_u32; nia). nia.
Qed.

Lemma csize_pos f : vol_geo f -> 0 < csize f <= 128.
Proof.
  intros [_ (k & Hk & ->) _]. split; [apply Z.pow_pos_nonneg; lia|].
  change 128 with (2 ^ 7). apply Z.pow_le_mono_r; lia.
Qed.

Lemma csize_mask f x : vol_geo f -> 0 <= x -> Z.land x (csize f - 1) = x mod csize f.
Proof. intros [_ (k & Hk & ->) _] Hx. apply land_mask. lia. Qed.

(** Following the chain of a directory to the cluster of an index. *)
Lemma wp_sdi_loop v ic (cl : list Z) : forall fuel clst idx v1,
  wf v -> fat_geo (fs v) -> wf v1 -> same_view v v1 -> same_alloc (fs v) (fs v1) -> 0 < ic ->
  chain v clst cl -> 0 <= idx < zlen cl * ic -> (Z.to_nat idx < fuel)%nat ->
  wp (loop fuel (sdi_body ic) (clst, idx))
    (fun r v' => r = inr (nth (Z.to_nat (idx / ic)) cl 0, idx mod ic) /\
                 wf v' /\ same_view v v' /\ same_alloc (fs v) (fs v')) v1.
Proof.
  induction cl as [|c cl IH]; intros fuel clst idx v1 W FG W1 V1 A1 Hic Hch Hi Hf.
  { unfold zlen in Hi. cbn in Hi. lia. }
  destruct fuel as [|fuel]; [lia|].
  assert (zlen (c :: cl) = 1 + zlen cl) as El by (unfold zlen; cbn; lia). rewrite El in Hi.
  inversion Hch as [|? ? Hv He Hch']; subst. apply wp_loop_unfold. unfold sdi_body.
  destruct (Z.geb_spec idx ic) as [Hge|Hlt].
  2: { apply wp_ret. rewrite Z.div_small, Z.mod_small by lia. done. }
  assert (n_fatent (fs v1) = n_fatent (fs v)) as En by apply (geo_fields _ _ (proj1 V1)).
  wp_step. apply wp_get_fat; [done|by eapply geo_fat_geo; [apply V1|]|by unfold valid_clust in *; rewrite En|].
  intros v2 W2 V2 A2. rewrite (fat_entry_view v v1) by done. wp_step. apply wp_getfs.
  assert (n_fatent (fs v2) = n_fatent (fs v)) as En2 by (rewrite <- En; apply (geo_fields _ _ (proj1 V2))).
  pose proof (fat_entry_range v c W FG) as Hr. pose proof (fat_mod_le (fs v)).
  rewrite (proj2 (Z.eqb_neq _ 0xFFFFFFFF)) by lia. rewrite (proj2 (Z.ltb_ge _ 2)) by lia. cbn [orb].
  assert (cl <> []) as Hne.
  { intros ->. unfold zlen in Hi. cbn in Hi. lia. }
  assert (valid_clust (fs v) (fat_entry v c)) as [Hn1 Hn2] by (inversion Hch'; subst; done).
  rewrite En2. destruct (Z.geb_spec (fat_entry v c) (n_fatent (fs v))); [lia|]. apply wp_ret.
  eapply wp_mono.
  { apply (IH fuel (fat_entry v c) (idx - ic) v2); try done; [by transitivity v1|by transitivity (fs v1)|lia|lia]. }
  intros r v' (-> & Hrest). split; [|done].
  assert ((idx - ic) / ic = idx / ic - 1 /\ (idx - ic) mod ic = idx mod ic) as [-> ->].
  { replace (idx - ic) with (idx + (-1) * ic) by lia. rewrite Z.div_add, Z.mod_add by lia. split; lia. }
  assert (1 <= idx / ic) by (apply Z.div_le_lower_bound; lia).
  replace (Z.to_nat (idx / ic)) with (S (Z.to_nat (idx / ic - 1))) by lia. done.
Qed.

(** Positions that share the directory object. *)
Lemma chain_nth v c cl k : chain v c cl -> (k < length cl)%nat -> valid_clust (fs v) (nth k cl 0).
Proof.
  intros Hc Hk. apply (chain_valid v c cl _ Hc). apply list_elem_of_In, nth_In, Hk.
Qed.

Lemma chain_head v c cl : chain v c cl -> cl <> [] -> valid_clust (fs v) c /\ hd 0 cl = c.
Proof. inversion 1; subst; [done|]. done. Qed.

Lemma idx_split i ic cs : ic = 16 * cs -> 0 < cs -> 0 <= i ->
  i mod ic / 16 = i / 16 mod cs /\ i mod ic mod 16 = i mod 16.
Proof.
  intros -> Hc Hi. rewrite Z.rem_mul_r, (Z.mul_comm 16 (_ mod _)) by lia.
  pose proof (Z.mod_pos_bound i 16 ltac:(lia)) as Hm. split.
  - rewrite Z.div_add, (Z.div_small (i mod 16)) by lia. apply Z.add_0_l.
  - rewrite Z.mod_add, Z.mod_mod by lia. done.
Qed.

Lemma wp_dir_sdi v dp idx T (Q : FRESULT * DIR -> vol D -> Prop) :
  wf v -> vol_geo (fs v) -> table_ok v (sclust dp) T -> 0 <= idx < tbl_size (fs v) T ->
  (forall v' dp', wf v' -> same_view v v' -> same_alloc (fs v) (fs v') ->
     positioned (fs v) T dp' idx -> sclust dp' = sclust dp -> fn dp' = fn dp ->
     d_fs dp' = d_fs dp -> d_id dp' = d_id dp -> pat dp' = pat dp -> Q (FR_OK, dp') v') ->
  wp (dir_sdi dp idx) Q v.
Proof.
  intros W VG TO Hi HQ. pose proof (to_size v _ T TO) as Hsz. pose proof (vg_fat _ VG) as FG.
  pose proof (to_sectors v _ T TO idx Hi) as (_ & _ & _ & Hsec).
  unfold dir_sdi. wp_step. apply wp_getfs. cbn [sclust set_index].
  assert (u16 idx = idx) as Eu by (unfold u16; apply Z.mod_small; lia). rewrite Eu.
  pose proof (to_shape v _ T TO) as Sh. destruct T as [|cl].
  - destruct Sh as (E0 & Ety & _). rewrite E0 in *. cbn [Z.eqb orb].
    destruct (Z.geb_spec 0 (n_fatent (fs v))) as [Hge|_]; [pose proof (fg_bound _ FG); lia|].
    do 2 (wp_step; apply wp_getfs). rewrite (proj2 (Z.eqb_neq _ _) Ety). cbn [andb Z.eqb].
    wp_step. apply wp_getfs. cbn [tbl_size tbl_sector] in *.
    destruct (Z.geb_spec idx (n_rootdir (fs v))); [lia|]. unfold sdi_finish.
    assert (0 <= idx / 16) by (apply Z.div_pos; lia). change ENTRIES with 16.
    destruct (Z.eqb_spec (dirbase (fs v)) 0) as [Edb|_].
    { exfalso. pose proof (to_sectors v _ Static TO 0 ltac:(cbn; lia)) as (_ & _ & _ & B).
      unfold tbl_sector in B. change (0 / 16) with 0 in B. lia. }
    apply wp_ret. apply HQ; try done. constructor; cbn; try done. apply u32_small. unfold is_u32. lia.
  - destruct Sh as (N1 & N2 & N3 & Hch). rewrite (proj2 (Z.eqb_neq _ 1)) by done.
    destruct (Z.geb_spec (sclust dp) (n_fatent (fs v))); [lia|]. cbn [orb].
    do 2 (wp_step; apply wp_getfs).
    assert (cl <> []) as Hne by (intros ->; cbn in Hsz; unfold zlen in Hsz; cbn in Hsz; lia).
    destruct (chain_head _ _ _ Hch Hne) as [[C1 C2] _].
    assert ((if (sclust dp =? 0) && (fs_type (fs v) =? FS_FAT32) then dirbase (fs v) else sclust dp) =
            (if sclust dp =? 0 then dirbase (fs v) else sclust dp)) as ->.
    { destruct (Z.eqb_spec (sclust dp) 0) as [E|]; [|done]. by rewrite (N3 E). }
    set (c0 := if sclust dp =? 0 then dirbase (fs v) else sclust dp) in *.
    rewrite (proj2 (Z.eqb_neq c0 0)) by lia. wp_step. apply wp_getfs.
    pose proof (csize_pos _ VG) as Hcs. cbn [tbl_size] in Hi, Hsz. unfold per_clust in Hi, Hsz.
    change (SS / SZ_DIRE * csize (fs v)) with (16 * csize (fs v)).
    wp_step. eapply wp_mono.
    { apply (wp_sdi_loop v (16 * csize (fs v)) cl); try done; [lia|]. unfold DIR_FUEL. lia. }
    intros r v1 (-> & W1 & V1 & A1). cbv beta iota. wp_step. apply wp_getfs. unfold id.
    assert (valid_clust (fs v) (nth (Z.to_nat (idx / (16 * csize (fs v)))) cl 0)) as Hv.
    { apply (chain_nth v c0); [done|]. unfold zlen in Hi.
      assert (idx / (16 * csize (fs v)) < zlen cl) by (apply Z.div_lt_upper_bound; unfold zlen; lia).
      unfold zlen in *. pose proof (Z.div_pos idx (16 * csize (fs v)) ltac:(lia) ltac:(lia)). lia. }
    pose proof (geo_vol_geo _ _ (proj1 V1) VG) as VG1.
    assert (valid_clust (fs v1) (nth (Z.to_nat (idx / (16 * csize (fs v)))) cl 0)) as Hv1.
    { unfold valid_clust in *. by rewrite (proj1 (proj2 (proj2 (proj2 (geo_fields _ _ (proj1 V1)))))). }
    destruct (clust2sect_spec (fs v1) _ VG1 Hv1) as [Ec Hp].
    unfold sdi_finish. rewrite (proj2 (Z.eqb_neq (clust2sect _ _) 0)) by lia. apply wp_ret.
    destruct (idx_split idx (16 * csize (fs v)) (csize (fs v)) eq_refl ltac:(lia) ltac:(lia)) as [S1 S2].
    apply HQ; try done. change ENTRIES with 16. change SZ_DIRE with 32. rewrite S1, S2, Ec.
    destruct (geo_fields _ _ (proj1 V1)) as (_ & G2 & _ & _ & _ & _ & _ & G8). rewrite G2, G8.
    constructor; try done; cbn [sect set_dir set_sect]. apply u32_small. unfold is_u32. lia.
Qed.

Lemma chain_next v c cl k : chain v c cl -> (k < length cl)%nat ->
  2 <= fat_entry v (nth k cl 0) /\
  ((S k < length cl)%nat -> fat_entry v (nth k cl 0) = nth (S k) cl 0) /\
  (S k = length cl -> n_fatent (fs v) <= fat_entry v (nth k cl 0)).
Proof.
  intros Hc. revert k. induction Hc as [c Hc|c cl Hv He Hch IH]; intros k Hk; [cbn in Hk; lia|].
  destruct k as [|k].
  - cbn [nth]. split; [done|]. inversion Hch; subst; cbn; split; (lia || done).
  - specialize (IH k). cbn [length nth] in *. destruct IH as (A1 & A2 & A3); [lia|].
    split; [done|]. split; intros; [apply A2; lia|apply A3; lia].
Qed.

(** Moving to the next index, by sectors and clusters. *)
Lemma div_step q c : 0 < c -> 0 <= q ->
  if (q + 1) mod c =? 0 then (q + 1) / c = q / c + 1
  else (q + 1) / c = q / c /\ (q + 1) mod c = q mod c + 1.
Proof.
  intros Hc Hq. pose proof (Z.div_mod q c ltac:(lia)) as E1. pose proof (Z.mod_pos_bound q c Hc) as B1.
  pose proof (Z.div_mod (q + 1) c ltac:(lia)) as E2. pose proof (Z.mod_pos_bound (q + 1) c Hc) as B2.
  destruct (Z.eqb_spec ((q + 1) mod c) 0) as [E|E]; [nia|]. assert ((q + 1) / c = q / c) as Eq by nia.
  split; [done|]. rewrite Eq in E2. lia.
Qed.

Lemma index_step i : 0 <= i ->
  if (i + 1) mod 16 =? 0 then (i + 1) / 16 = i / 16 + 1 else (i + 1) / 16 = i / 16.
Proof. intros Hi. pose proof (div_step i 16 ltac:(lia) Hi) as E. destruct (_ =? 0); [done|]. apply E. Qed.

Lemma per_clust_div f i : vol_geo f -> 0 <= i -> i / per_clust f = i / 16 / csize f.
Proof. intros VG Hi. pose proof (csize_pos _ VG). unfold per_clust. by rewrite Z.div_div by lia. Qed.

Lemma size_16 v sc T : table_ok v sc T -> tbl_size (fs v) T mod 16 = 0.
Proof.
  intros TO. pose proof (to_shape v sc T TO) as Sh. destruct T as [|cl]; cbn; [apply Sh|].
  unfold per_clust. replace (zlen cl * (16 * csize (fs v))) with (zlen cl * csize (fs v) * 16) by lia.
  apply Z.mod_mul. lia.
Qed.

(** [next_finish] at the position of entry [i + 1]. *)
Lemma next_positioned f T dp i :
  0 <= i + 1 < tbl_size f T -> i + 1 < 65536 -> 0 <= i ->
  sect dp = tbl_sector f T (i + 1) -> clust dp = tbl_clust f T (i + 1) ->
  positioned f T (set_dir (Some ((i + 1) mod ENTRIES * SZ_DIRE)) (set_index (u16 (i + 1)) dp)) (i + 1).
Proof.
  intros H1 H2 H3 Hs Hc. constructor; cbn [index sect clust dir set_dir set_index]; try done.
  unfold u16. apply Z.mod_small. lia.
Qed.

(** The rest of a walk keeps the fields that are not positions. *)
Definition same_dir (dp dp' : DIR) : Prop :=
  sclust dp' = sclust dp /\ fn dp' = fn dp /\ d_fs dp' = d_fs dp /\ d_id dp' = d_id dp /\ pat dp' = pat dp.

#[export] Instance same_dir_preorder : PreOrder same_dir.
Proof.
  split; [done|]. intros d1 d2 d3 (?&?&?&?&?) (?&?&?&?&?). repeat split; congruence.
Qed.

Lemma wp_dir_next_static v dp i st (Q : FRESULT * DIR -> vol D -> Prop) :
  table_ok v (sclust dp) Static -> positioned (fs v) Static dp i ->
  (i + 1 < tbl_size (fs v) Static -> forall dp', positioned (fs v) Static dp' (i + 1) -> same_dir dp dp' ->
     Q (FR_OK, dp') v) ->
  (i + 1 = tbl_size (fs v) Static -> forall dp', same_dir dp dp' -> Q (FR_NO_FILE, dp') v) ->
  wp (dir_next dp st) Q v.
Proof.
  intros TO PO Q1 Q2. pose proof (to_size v _ _ TO) as Hsz. pose proof (size_16 v _ _ TO) as H16.
  pose proof (po_range _ _ _ _ PO) as Hi. pose proof (to_sectors v _ _ TO i Hi) as (_ & _ & _ & Hs).
  pose proof (index_step i ltac:(lia)) as Hst. cbn [tbl_size tbl_sector] in *.
  unfold dir_next. rewrite (po_index _ _ _ _ PO), (po_sect _ _ _ _ PO).
  cbn [tbl_sector]. rewrite (proj2 (Z.eqb_neq (dirbase (fs v) + i / 16) 0)) by lia. rewrite (land_mask_low _ 16) by done.
  destruct (Z.eqb_spec ((i + 1) mod 2 ^ 16) 0) as [E|E]; cbn [orb].
  { apply wp_ret, Q2; [|done]. change (2 ^ 16) with 65536 in E. clear Hst.
    pose proof (Z.div_mod (i + 1) 65536 ltac:(lia)). lia. }
  assert (i + 1 < 65536) by (destruct (Z.eq_dec (i + 1) 65536) as [Ex|]; [rewrite Ex in E; done|lia]).
  change ENTRIES with 16. destruct (Z.eqb_spec ((i + 1) mod 16) 0) as [Em|Em].
  - cbn [clust set_sect]. rewrite (po_clust _ _ _ _ PO). cbn [tbl_clust Z.eqb]. wp_step. apply wp_getfs.
    destruct (Z.geb_spec (i + 1) (n_rootdir (fs v))) as [Hge|Hlt].
    + apply wp_ret, Q2; [lia|done].
    + apply wp_ret, Q1; [lia| |done]. apply next_positioned; cbn [tbl_size sect clust set_sect tbl_sector]; try lia.
      * rewrite u32_small by (unfold is_u32; lia). lia.
      * apply PO.
  - assert (i + 1 <> n_rootdir (fs v)) by congruence.
    apply wp_ret, Q1; [lia| |done]. apply next_positioned; cbn [tbl_size]; try lia.
    + rewrite (po_sect _ _ _ _ PO). cbn [tbl_sector]. lia.
    + apply PO.
Qed.

(** The table position of index [i] in a chain. *)
Lemma chained_pos v sc cl i :
  vol_geo (fs v) -> table_ok v sc (Chained cl) -> 0 <= i < tbl_size (fs v) (Chained cl) ->
  let k := Z.to_nat (i / per_clust (fs v)) in
  (k < length cl)%nat /\ Z.of_nat k = i / per_clust (fs v) /\ valid_clust (fs v) (nth k cl 0) /\
  exists c, chain v c cl.
Proof.
  intros VG TO Hi k. pose proof (csize_pos _ VG) as Hcs. unfold k, per_clust in *. cbn in Hi. unfold per_clust in Hi.
  assert (0 <= i / (16 * csize (fs v)) < zlen cl) as Hk.
  { split; [apply Z.div_pos; lia|]. apply Z.div_lt_upper_bound; lia. }
  destruct (to_shape v sc _ TO) as (_ & _ & _ & Hch).
  unfold zlen in Hk. split; [lia|]. split; [lia|]. split; [|by eexists].
  eapply chain_nth; [exact Hch|lia].
Qed.

Lemma wp_dir_next_chained v dp cl i st (Q : FRESULT * DIR -> vol D -> Prop) :
  wf v -> vol_geo (fs v) -> table_ok v (sclust dp) (Chained cl) -> positioned (fs v) (Chained cl) dp i ->
  (i + 1 < tbl_size (fs v) (Chained cl) -> forall v' dp', wf v' -> same_view v v' -> same_alloc (fs v) (fs v') ->
     positioned (fs v) (Chained cl) dp' (i + 1) -> same_dir dp dp' -> Q (FR_OK, dp') v') ->
  (i + 1 = tbl_size (fs v) (Chained cl) -> st = false /\ forall v' dp', wf v' -> same_view v v' ->
     same_alloc (fs v) (fs v') -> same_dir dp dp' -> Q (FR_NO_FILE, dp') v') ->
  wp (dir_next dp st) Q v.
Proof.
  intros W VG TO PO Q1 Q2. pose proof (to_size v _ _ TO) as Hsz. pose proof (size_16 v _ _ TO) as H16.
  pose proof (po_range _ _ _ _ PO) as Hi. pose proof (to_sectors v _ _ TO i Hi) as (_ & _ & _ & Hs).
  pose proof (csize_pos _ VG) as Hcs. set (n := tbl_size (fs v) (Chained cl)) in *.
  destruct (chained_pos v _ cl i VG TO Hi) as (Hk & Ek & [Hv1 Hv2] & c0 & Hch).
  set (k := Z.to_nat (i / per_clust (fs v))) in *.
  pose proof (index_step i ltac:(lia)) as Hst. rewrite per_clust_div in Ek by (done || lia).
  pose proof (per_clust_div (fs v) (i + 1) VG ltac:(lia)) as Ek1.
  pose proof (po_clust _ _ _ _ PO) as Ecl. cbn [tbl_clust] in Ecl. fold k in Ecl.
  pose proof (po_sect _ _ _ _ PO) as Esec.
  unfold dir_next. rewrite (po_index _ _ _ _ PO), (proj2 (Z.eqb_neq (sect dp) 0)) by lia.
  rewrite (land_mask_low _ 16) by done.
  destruct (Z.eqb_spec ((i + 1) mod 2 ^ 16) 0) as [E|E]; cbn [orb].
  { apply wp_ret. assert (i + 1 = n) as En.
    { change (2 ^ 16) with 65536 in E. pose proof (Z.div_mod (i + 1) 65536 ltac:(lia)). lia. }
    by apply (Q2 En). }
  assert (i + 1 < 65536) by (destruct (Z.eq_dec (i + 1) 65536) as [Ex|]; [rewrite Ex in E; done|lia]).
  change ENTRIES with 16. destruct (Z.eqb_spec ((i + 1) mod 16) 0) as [Em|Em].
  2: { assert (i + 1 <> n) by congruence. apply wp_ret, Q1; try done; [lia|].
       apply next_positioned; [fold n; lia|lia|lia| |].
       - rewrite Esec. cbn [tbl_sector tbl_clust]. rewrite Ek1, Hst. fold k.
         replace (Z.to_nat (i / 16 / csize (fs v))) with k by lia. done.
       - rewrite Ecl. cbn [tbl_clust]. rewrite Ek1, Hst, <- Ek. by rewrite Nat2Z.id. }
  cbn [clust set_sect]. rewrite Ecl, (proj2 (Z.eqb_neq (nth k cl 0) 0)) by lia. wp_step. apply wp_getfs.
  pose proof (Z.div_pos i 16 ltac:(lia) ltac:(lia)) as Hq.
  rewrite Hst, csize_mask by (done || lia).
  pose proof (div_step (i / 16) (csize (fs v)) ltac:(lia) Hq) as Hd.
  destruct (Z.eqb_spec ((i / 16 + 1) mod csize (fs v)) 0) as [Ez|Ez].
  2: { destruct Hd as [Hd1 Hd2]. assert (i + 1 <> n) as Hne.
       { intros En. rewrite Hst, Hd1, En in Ek1. unfold n in Ek1. cbn [tbl_size] in Ek1.
         rewrite Z.div_mul in Ek1 by (unfold per_clust; lia). unfold zlen in Ek1. lia. }
       apply wp_ret, Q1; try done; [lia|]. apply next_positioned; [fold n; lia|lia|lia| |].
       - cbn [sect set_sect]. rewrite Esec. cbn [tbl_sector tbl_clust] in *. rewrite Ek1, Hst, Hd1, Hd2, <- Ek, Nat2Z.id.
         fold k in Hs |- *. rewrite u32_small by (unfold is_u32; lia). lia.
       - cbn [clust set_sect tbl_clust]. rewrite Ecl, Ek1, Hst, Hd1, <- Ek. by rewrite Nat2Z.id. }
  assert ((i + 1) / per_clust (fs v) = Z.of_nat (S k)) as Ek2 by (rewrite Ek1, Hst, Hd; lia).
  destruct (chain_next v c0 cl k Hch Hk) as (N1 & N2 & N3).
  pose proof (vg_fat _ VG) as FG. pose proof (fat_entry_range v (nth k cl 0) W FG). pose proof (fat_mod_le (fs v)).
  wp_step. apply wp_get_fat; [done|done|done|]. intros v1 W1 V1 A1.
  rewrite (proj2 (Z.leb_gt _ 1)), (proj2 (Z.eqb_neq _ 0xFFFFFFFF)) by lia.
  wp_step. apply wp_getfs. destruct (geo_fields _ _ (proj1 V1)) as (_ & G2 & _ & G4 & _ & _ & _ & G8). rewrite G4.
  assert (i + 1 <= n) by lia.
  assert (i + 1 = per_clust (fs v) * Z.of_nat (S k)) as Ei.
  { rewrite <- Ek2. apply Z.div_exact; [unfold per_clust; lia|]. unfold per_clust.
    rewrite Z.rem_mul_r, Em, Hst, Ez by lia. lia. }
  assert (n = per_clust (fs v) * Z.of_nat (length cl)) as En by (unfold n, zlen; cbn; unfold zlen; lia).
  assert (0 < per_clust (fs v)) as Hpc by (unfold per_clust; lia).
  destruct (decide (S k = length cl)) as [Hend|Hmore].
  - specialize (N3 Hend). destruct (Z.geb_spec (fat_entry v (nth k cl 0)) (n_fatent (fs v))); [|lia].
    destruct (Q2 ltac:(rewrite Ei, En, Hend; done)) as [-> HQ]. cbn [negb]. wp_step. apply wp_ret, wp_ret. by apply HQ.
  - specialize (N2 ltac:(lia)). rewrite N2. pose proof (chain_nth v c0 cl (S k) Hch ltac:(lia)) as [U1 U2].
    destruct (Z.geb_spec (nth (S k) cl 0) (n_fatent (fs v))); [lia|]. wp_step. apply wp_ret. wp_step. apply wp_getfs.
    unfold id. apply wp_ret, Q1; try done; [rewrite Ei, En; nia|].
    apply next_positioned; [fold n; rewrite Ei, En; nia|lia|lia| |].
    + cbn [sect set_sect tbl_sector tbl_clust]. rewrite Ek2, Nat2Z.id, Hst, Ez.
      destruct (clust2sect_spec (fs v1) (nth (S k) cl 0)) as [-> _];
        [by eapply geo_vol_geo; [apply V1|]|by split; [|rewrite G4]|]. rewrite G2, G8. lia.
    + cbn [clust set_sect set_clust tbl_clust]. by rewrite Ek2, Nat2Z.id.
Qed.

Lemma wp_dir_next v dp T i st (Q : FRESULT * DIR -> vol D -> Prop) :
  wf v -> vol_geo (fs v) -> table_ok v (sclust dp) T -> positioned (fs v) T dp i ->
  (i + 1 < tbl_size (fs v) T -> forall v' dp', wf v' -> same_view v v' -> same_alloc (fs v) (fs v') ->
     positioned (fs v) T dp' (i + 1) -> same_dir dp dp' -> Q (FR_OK, dp') v') ->
  (i + 1 = tbl_size (fs v) T -> (T = Static \/ st = false) /\ forall v' dp', wf v' -> same_view v v' ->
     same_alloc (fs v) (fs v') -> same_dir dp dp' -> Q (FR_NO_FILE, dp') v') ->
  wp (dir_next dp st) Q v.
Proof.
  intros W VG TO PO Q1 Q2. destruct T as [|cl].
  2: { apply (wp_dir_next_chained v dp cl i); try done. intros Heq. destruct (Q2 Heq) as [[?|?] ?]; done. }
  apply (wp_dir_next_static v dp i); try done.
  - intros Hlt dp' P' Sd. by apply Q1.
  - intros Heq dp' Sd. by apply (Q2 Heq).
Qed.

(** [move_window] to the sector of the current entry. *)
Lemma wp_move_entry v dp T i (Q : FRESULT -> vol D -> Prop) :
  wf v -> table_ok v (sclust dp) T -> positioned (fs v) T dp i ->
  (forall v', wf v' -> same_view v v' -> same_alloc (fs v) (fs v') ->
     at_sector v' (tbl_sector (fs v) T i) -> win (fs v') = lsec v (tbl_sector (fs v) T i) -> Q FR_OK v') ->
  wp (move_window (sect dp)) Q v.
Proof.
  intros W TO PO HQ. rewrite (po_sect _ _ _ _ PO).
  destruct (to_sectors v _ _ TO i (po_range _ _ _ _ PO)) as (R1 & R2 & R3 & R4).
  apply wp_move_window; [done|done|done|lia|]. intros v' W' V' E1 E2 A1 A2 A3.
  apply HQ; try done. apply (at_sector_view v); try done. lia.
Qed.

(** *** Entries in the window *)

Lemma getb_slice l off n k : (0 <= k < Z.of_nat n) -> (off + n <= length l)%nat ->
  getb (slice l off n) k = getb l (Z.of_nat off + k).
Proof.
  intros Hk Hl. unfold getb, slice. rewrite !nth_lookup, lookup_take_lt by lia.
  rewrite lookup_drop. do 2 f_equal. lia.
Qed.

Lemma entry_getb v T i k : wf v -> 0 <= k < 32 ->
  getb (entry v T i) k = getb (lsec v (tbl_sector (fs v) T i)) (i mod 16 * 32 + k).
Proof.
  intros W Hk. pose proof (Z.mod_pos_bound i 16 ltac:(lia)) as B. unfold entry.
  rewrite getb_slice; [f_equal; lia|lia|]. rewrite lsec_length by done. lia.
Qed.

Lemma mem_cmp_take : forall k (d s : list Z), (k <= length d)%nat -> (k <= length s)%nat ->
  (mem_cmp d s k =? 0) = bool_decide (take k d = take k s).
Proof.
  induction k as [|k IH]; intros d s Hd Hs; [done|].
  destruct d as [|x d], s as [|y s]; cbn in Hd, Hs; try lia. cbn [mem_cmp take drop].
  change (getb (x :: d) 0 - getb (y :: s) 0) with (x - y).
  destruct (Z.eqb_spec (x - y) 0) as [E|E].
  - rewrite !drop_0, IH by lia. apply bool_decide_ext. assert (x = y) as -> by lia. split; congruence.
  - rewrite (proj2 (Z.eqb_neq _ _) E). symmetry. apply bool_decide_false. intros [= ? ?]. lia.
Qed.

(** The entry is in use by a file or directory called [name]. *)
Definition names (name e : list Z) : bool :=
  negb (has (getb e DIR_Attr) AM_VOL) && bool_decide (take 11 e = take 11 name).

Lemma name_matches_entry v v1 T dp i :
  wf v -> positioned (fs v) T dp i -> win (fs v1) = lsec v (tbl_sector (fs v) T i) ->
  (11 <= length (fn dp))%nat ->
  name_matches dp (win (fs v1)) = bool_decide (take 11 (entry v T i) = take 11 (fn dp)).
Proof.
  intros W PO Ew Hn. unfold name_matches. rewrite (po_dir _ _ _ _ PO), Ew. cbn [default].
  pose proof (Z.mod_pos_bound i 16 ltac:(lia)) as B.
  rewrite mem_cmp_take; [|rewrite length_drop, lsec_length by done; cbn; lia|done].
  apply bool_decide_ext. unfold entry, slice. rewrite take_take. done.
Qed.

Lemma entry_byte_spec v v1 T dp i k (Q : Z -> vol D -> Prop) :
  wf v -> positioned (fs v) T dp i -> win (fs v1) = lsec v (tbl_sector (fs v) T i) -> 0 <= k < 32 ->
  Q (getb (entry v T i) k) v1 -> wp (entry_byte dp k) Q v1.
Proof.
  intros W PO Ew Hk HQ. unfold entry_byte. wp_step. apply wp_getfs, wp_ret.
  rewrite (po_dir _ _ _ _ PO), Ew. cbn [default]. by rewrite <- entry_getb.
Qed.

(** *** Lookup *)

Definition entries v T : list (list Z) := entry v T <$> seqZ 0 (tbl_size (fs v) T).

(** The first entry called [name] before the end mark. *)
Fixpoint find_entry (name : list Z) (es : list (list Z)) : option nat :=
  match es with
  | [] => None
  | e :: es =>
      if getb e DIR_Name =? 0 then None
      else if names name e then Some 0%nat
      else S <$> find_entry name es
  end.

(** What a lookup reports. *)
Definition found v T (dp : DIR) (o : option Z) (r : FRESULT * DIR) v' : Prop :=
  wf v' /\ same_view v v' /\ same_alloc (fs v) (fs v') /\ same_dir dp (snd r) /\
  match o with
  | Some k => fst r = FR_OK /\ positioned (fs v) T (snd r) k /\
              at_sector v' (tbl_sector (fs v) T k) /\ win (fs v') = lsec v (tbl_sector (fs v) T k)
  | None => fst r = FR_NO_FILE
  end.

Lemma same_view_positioned v v1 T dp i : same_view v v1 -> positioned (fs v) T dp i -> positioned (fs v1) T dp i.
Proof. intros V. apply positioned_geo, V. Qed.

Lemma dir_find_loop v T dp0 : forall m fuel dp i v1,
  wf v -> vol_geo (fs v) -> table_ok v (sclust dp0) T -> (11 <= length (fn dp0))%nat ->
  wf v1 -> same_view v v1 -> same_alloc (fs v) (fs v1) -> same_dir dp0 dp -> positioned (fs v) T dp i ->
  tbl_size (fs v) T - i = Z.of_nat m -> (m < fuel)%nat ->
  wp (loop fuel dir_find_body dp)
     (found v T dp0 ((fun k => i + Z.of_nat k) <$> find_entry (fn dp0) (entry v T <$> seqZ i (Z.of_nat m)))) v1.
Proof.
  induction m as [|m IH]; intros fuel dp i v1 W VG TO Hn W1 V1 A1 Sd PO Hm Hf;
    pose proof (po_range _ _ _ _ PO) as Hi; [lia|].
  destruct fuel as [|fuel]; [lia|]. apply wp_loop_unfold. unfold dir_find_body.
  pose proof (vg_fat _ VG) as FG.
  assert (sclust dp = sclust dp0 /\ fn dp = fn dp0) as [Es Ef] by (destruct Sd as (?&?&?&?&?); done).
  assert (table_ok v1 (sclust dp) T) as TO1 by (rewrite Es; by apply (table_view v)).
  wp_step. apply (wp_move_entry v1 dp T i); [done|done|by apply (same_view_positioned v)|].
  intros v2 W2 V2 A2 At Ew. destruct (geo_tbl _ _ T (proj1 V1)) as (F1 & _ & _). rewrite F1 in At, Ew.
  rewrite (proj1 (proj2 V1)) in Ew by (by apply (to_sectors v _ _ TO)).
  assert (same_view v v2 /\ same_alloc (fs v) (fs v2)) as [V02 A02]
    by (split; [by transitivity v1|by transitivity (fs v1)]).
  change (is_ok FR_OK) with true. cbn [negb].
  rewrite seqZ_cons by lia. cbn [fmap list_fmap find_entry].
  wp_step. apply (entry_byte_spec v v2 T dp i); [done|done|done|by unfold DIR_Name|].
  destruct (Z.eqb_spec (getb (entry v T i) DIR_Name) 0) as [E0|E0].
  { apply wp_ret. cbn. do 4 (split; [done|]). done. }
  wp_step. apply (entry_byte_spec v v2 T dp i); [done|done|done|by unfold DIR_Attr|].
  wp_step. apply wp_getfs. rewrite (name_matches_entry v v2 T dp i W PO Ew) by (by rewrite Ef).
  rewrite Ef. fold (names (fn dp0) (entry v T i)). destruct (names (fn dp0) (entry v T i)).
  { apply wp_ret. cbn. rewrite Z.add_0_r. split; [done|]. done. }
  wp_step. apply (wp_dir_next v2 dp T i); [done|by eapply geo_vol_geo; [apply V02|]| | | |].
  { rewrite Es. by apply (table_view v). }
  { by apply (same_view_positioned v). }
  - destruct (geo_tbl _ _ T (proj1 V02)) as (_ & _ & F3). rewrite F3. intros Hlt v3 dp3 W3 V3 A3 P3 Sd3.
    change (is_ok FR_OK) with true. cbv iota. apply wp_ret.
    assert (Z.pred (Z.of_nat (S m)) = Z.of_nat m) as -> by lia.
    eapply wp_mono.
    { apply (IH fuel dp3 (Z.succ i) v3); try done; [by transitivity v2|by transitivity (fs v2)|by transitivity dp| |lia|lia].
      apply (positioned_geo (fs v2)); [symmetry; apply V02|done]. }
    intros r v' (X1 & X2 & X3 & X4 & X5). do 4 (split; [done|]).
    destruct (find_entry _ _) as [k|]; cbn in *; [|done].
    replace (i + Z.of_nat (S k)) with (Z.succ i + Z.of_nat k) by lia. done.
  - destruct (geo_tbl _ _ T (proj1 V02)) as (_ & _ & F3). rewrite F3. intros Heq. split; [by right|].
    intros v3 dp3 W3 V3 A3 Sd3. change (is_ok FR_NO_FILE) with false. cbv iota. apply wp_ret.
    assert (m = 0%nat) as -> by lia. cbn.
    split; [done|]. split; [by transitivity v2|]. split; [by transitivity (fs v2)|]. split; [by transitivity dp|done].
Qed.

Lemma wp_dir_find v T dp :
  wf v -> vol_geo (fs v) -> table_ok v (sclust dp) T -> (11 <= length (fn dp))%nat ->
  wp (dir_find dp) (found v T dp (Z.of_nat <$> find_entry (fn dp) (entries v T))) v.
Proof.
  intros W VG TO Hn. pose proof (to_size v _ _ TO) as Hsz. unfold dir_find. wp_step.
  apply (wp_dir_sdi v dp 0 T); [done..|lia|]. intros v1 dp1 W1 V1 A1 P1 D1 D2 D3 D4 D5.
  change (is_ok FR_OK) with true. cbn [negb].
  eapply wp_mono.
  { apply (dir_find_loop v T dp (Z.to_nat (tbl_size (fs v) T)) DIR_FUEL dp1 0 v1); try done; [lia|].
    unfold DIR_FUEL. lia. }
  unfold entries. rewrite Z2Nat.id by lia. intros r v'. by destruct (find_entry _ _).
Qed.

(** *** Allocation of an entry *)

Definition free_entry (e : list Z) : bool := (getb e 0 =? DDEM) || (getb e 0 =? 0).

Fixpoint first_free (es : list (list Z)) : option nat :=
  match es with
  | [] => None
  | e :: es => if free_entry e then Some 0%nat else S <$> first_free es
  end.

Definition alloc_post v T (dp : DIR) (o : option Z) (r : FRESULT * DIR) v' : Prop :=
  wf v' /\ same_view v v' /\ same_alloc (fs v) (fs v') /\ same_dir dp (snd r) /\
  match o with
  | Some k => fst r = FR_OK /\ positioned (fs v) T (snd r) k
  | None => fst r = FR_NO_FILE
  end.

Lemma dir_alloc_loop v T dp0 : forall m fuel dp i v1,
  wf v -> vol_geo (fs v) -> table_ok v (sclust dp0) T ->
  (T = Static \/ first_free (entry v T <$> seqZ i (Z.of_nat m)) <> None) ->
  wf v1 -> same_view v v1 -> same_alloc (fs v) (fs v1) -> same_dir dp0 dp -> positioned (fs v) T dp i ->
  tbl_size (fs v) T - i = Z.of_nat m -> (m < fuel)%nat ->
  wp (loop fuel (dir_alloc_body 1) (dp, 0))
     (alloc_post v T dp0 ((fun k => i + Z.of_nat k) <$> first_free (entry v T <$> seqZ i (Z.of_nat m)))) v1.
Proof.
  induction m as [|m IH]; intros fuel dp i v1 W VG TO Hex W1 V1 A1 Sd PO Hm Hf;
    pose proof (po_range _ _ _ _ PO) as Hi; [lia|].
  destruct fuel as [|fuel]; [lia|]. apply wp_loop_unfold. unfold dir_alloc_body.
  pose proof (vg_fat _ VG) as FG.
  assert (sclust dp = sclust dp0) as Es by (destruct Sd as (?&?&?&?&?); done).
  assert (table_ok v1 (sclust dp) T) as TO1 by (rewrite Es; by apply (table_view v)).
  wp_step. apply (wp_move_entry v1 dp T i); [done|done|by apply (same_view_positioned v)|].
  intros v2 W2 V2 A2 At Ew. destruct (geo_tbl _ _ T (proj1 V1)) as (F1 & _ & _). rewrite F1 in At, Ew.
  rewrite (proj1 (proj2 V1)) in Ew by (by apply (to_sectors v _ _ TO)).
  assert (same_view v v2 /\ same_alloc (fs v) (fs v2)) as [V02 A02]
    by (split; [by transitivity v1|by transitivity (fs v1)]).
  change (is_ok FR_OK) with true. cbn [negb].
  rewrite seqZ_cons in Hex |- * by lia. cbn [fmap list_fmap first_free] in Hex |- *.
  wp_step. apply (entry_byte_spec v v2 T dp i); [done|done|done|lia|].
  fold (free_entry (entry v T i)). destruct (free_entry (entry v T i)) eqn:Ef; cbn [andb].
  { apply wp_ret. cbn. rewrite Z.add_0_r. do 4 (split; [done|]). done. }
  assert (Z.pred (Z.of_nat (S m)) = Z.of_nat m) as Ep by lia. rewrite Ep in *.
  wp_step. apply (wp_dir_next v2 dp T i); [done|by eapply geo_vol_geo; [apply V02|]| | | |].
  { rewrite Es. by apply (table_view v). }
  { by apply (same_view_positioned v). }
  - destruct (geo_tbl _ _ T (proj1 V02)) as (_ & _ & F3). rewrite F3. intros Hlt v3 dp3 W3 V3 A3 P3 Sd3.
    change (is_ok FR_OK) with true. cbv iota. apply wp_ret.
    eapply wp_mono.
    { apply (IH fuel dp3 (Z.succ i) v3); try done;
        [|by transitivity v2|by transitivity (fs v2)|by transitivity dp| |lia|lia].
      - destruct Hex as [|Hex]; [by left|right]. intros E. apply Hex. change (list_fmap ?a ?b ?f ?l) with (f <$> l).
        by rewrite E.
      - apply (positioned_geo (fs v2)); [symmetry; apply V02|done]. }
    intros r v' (X1 & X2 & X3 & X4 & X5). do 4 (split; [done|]).
    destruct (first_free _) as [k|]; cbn in *; [|done].
    replace (i + Z.of_nat (S k)) with (Z.succ i + Z.of_nat k) by lia. done.
  - destruct (geo_tbl _ _ T (proj1 V02)) as (_ & _ & F3). rewrite F3. intros Heq.
    assert (m = 0%nat) as -> by lia. cbn in Hex |- *. split; [destruct Hex; [by left|done]|].
    intros v3 dp3 W3 V3 A3 Sd3. change (is_ok FR_NO_FILE) with false. cbv iota. apply wp_ret.
    split; [done|]. split; [by transitivity v2|]. split; [by transitivity (fs v2)|]. split; [by transitivity dp|done].
Qed.

Lemma wp_dir_alloc v T dp (Q : FRESULT * DIR -> vol D -> Prop) :
  wf v -> vol_geo (fs v) -> table_ok v (sclust dp) T ->
  (T = Static \/ first_free (entries v T) <> None) ->
  (forall r v', wf v' -> same_view v v' -> same_alloc (fs v) (fs v') -> same_dir dp (snd r) ->
     match first_free (entries v T) with
     | Some k => fst r = FR_OK /\ positioned (fs v) T (snd r) (Z.of_nat k)
     | None => fst r = FR_DENIED
     end -> Q r v') ->
  wp (dir_alloc dp 1) Q v.
Proof.
  intros W VG TO Hex HQ. pose proof (to_size v _ _ TO) as Hsz. unfold dir_alloc. wp_step.
  apply (wp_dir_sdi v dp 0 T); [done..|lia|]. intros v1 dp1 W1 V1 A1 P1 D1 D2 D3 D4 D5.
  change (is_ok FR_OK) with true. cbv iota. wp_step.
  unfold entries in *. rewrite <- (Z2Nat.id (tbl_size (fs v) T)) in Hex, HQ by lia.
  eapply wp_mono.
  { apply (dir_alloc_loop v T dp (Z.to_nat (tbl_size (fs v) T)) DIR_FUEL dp1 0 v1); try done; [lia|].
    unfold DIR_FUEL. lia. }
  intros [res dp'] v' (X1 & X2 & X3 & X4 & X5). apply wp_ret. apply HQ; try done.
  destruct (first_free _) as [k|]; cbn in *; [destruct X5 as [-> ?]; done|]. by rewrite X5.
Qed.

(** *** Rewriting one entry *)

Lemma tbl_sector_inj v sc T i j :
  vol_geo (fs v) -> table_ok v sc T -> 0 <= i < tbl_size (fs v) T -> 0 <= j < tbl_size (fs v) T ->
  tbl_sector (fs v) T i = tbl_sector (fs v) T j -> i / 16 = j / 16.
Proof.
  intros VG TO Hi Hj E. destruct T as [|cl]; [cbn in E; lia|].
  destruct (chained_pos v sc cl i VG TO Hi) as (Ki & Ei & _ & c & Hch).
  destruct (chained_pos v sc cl j VG TO Hj) as (Kj & Ej & _ & _).
  pose proof (csize_pos _ VG) as Hcs. cbn [tbl_sector tbl_clust] in E.
  set (ki := Z.to_nat (i / per_clust (fs v))) in *. set (kj := Z.to_nat (j / per_clust (fs v))) in *.
  rewrite per_clust_div in Ei, Ej by (done || lia).
  pose proof (Z.mod_pos_bound (i / 16) (csize (fs v)) ltac:(lia)) as Bi.
  pose proof (Z.mod_pos_bound (j / 16) (csize (fs v)) ltac:(lia)) as Bj.
  assert (nth ki cl 0 = nth kj cl 0) as En by nia. rewrite En in E.
  assert (ki = kj) as Ek.
  { apply (NoDup_nth cl 0); [apply NoDup_ListNoDup, (chain_NoDup v c cl Hch)|done|done|done]. }
  rewrite (Z.div_mod (i / 16) (csize (fs v))), (Z.div_mod (j / 16) (csize (fs v))) by lia.
  rewrite <- Ei, <- Ej, Ek. lia.
Qed.

Lemma slice_splice_same (l s : list Z) off : (off + length s <= length l)%nat ->
  slice (splice l off s) off (length s) = s.
Proof.
  intros Hl. unfold slice, splice. rewrite drop_app_ge by (rewrite length_take; lia).
  rewrite length_take, Nat.min_l, Nat.sub_diag, drop_0 by lia. apply take_app_length.
Qed.

Lemma slice_splice_other (l s : list Z) off off' n :
  (off + length s <= length l)%nat -> (off' + n <= off \/ off + length s <= off')%nat ->
  slice (splice l off s) off' n = slice l off' n.
Proof.
  intros Hl Hd. apply list_eq. intros k. unfold slice. destruct (decide (k < n)%nat) as [Hk|Hk].
  2: { rewrite !lookup_ge_None_2; [done|rewrite length_take; lia..]. }
  rewrite !lookup_take_lt, !lookup_drop by done. unfold splice. destruct Hd as [Hd|Hd].
  - rewrite lookup_app_l by (rewrite length_take; lia). by rewrite lookup_take_lt by lia.
  - rewrite lookup_app_r by (rewrite length_take; lia). rewrite length_take, Nat.min_l by lia.
    rewrite lookup_app_r by lia. rewrite lookup_drop. f_equal. lia.
Qed.

Lemma splice_over (l d s : list Z) off :
  (off + length d <= length l)%nat -> (length s <= length d)%nat ->
  splice (splice l off d) off s = splice l off (s ++ drop (length s) d).
Proof.
  intros Hl Hs. unfold splice at 1 3. rewrite length_app, length_drop.
  replace (length s + (length d - length s))%nat with (length d) by lia.
  unfold splice. rewrite take_app_le by (rewrite length_take; lia). rewrite take_take, Nat.min_id.
  rewrite <- app_assoc. do 2 f_equal. rewrite drop_app_ge by (rewrite length_take; lia).
  rewrite length_take, Nat.min_l by lia. replace (off + length s - off)%nat with (length s) by lia.
  rewrite drop_app_le by lia. done.
Qed.

Lemma setb_splice (l : list Z) off x : (off < length l)%nat -> setb l (Z.of_nat off) x = splice l off [x].
Proof.
  intros Hl. pose proof (splice_cons l off x []) as E. rewrite <- E by (cbn; lia). by rewrite splice_nil.
Qed.

(** [v'] is [v] with entry [k] of the table replaced by [e]. *)
Record entry_upd v v' T (k : Z) (e : list Z) : Prop := {
  eu_wf : wf v';
  eu_geo : geo (fs v') = geo (fs v);
  eu_ready : forall s, ready (disk v) s -> ready (disk v') s;
  eu_alloc : same_alloc (fs v) (fs v');
  eu_other : forall s, ~ mirror (fs v) s -> s <> tbl_sector (fs v) T k -> lsec v' s = lsec v s;
  eu_entries : entries v' T = <[Z.to_nat k := e]> (entries v T)
}.

Lemma fat_entry_off v v' c :
  geo (fs v') = geo (fs v) -> fat_geo (fs v) -> wf v -> valid_clust (fs v) c ->
  (forall s, in_fat (fs v) s -> lsec v' s = lsec v s) -> fat_entry v' c = fat_entry v c.
Proof.
  intros G FG W Hc Hs. apply fat_entry_ext; [done|done|done|]. intros i Hi _ _ _. unfold fat_byte.
  destruct (geo_fields _ _ G) as (_ & _ & _ & _ & _ & -> & _ & _). rewrite Hs; [done|].
  unfold in_fat, SS in *. Z.div_mod_to_equations. lia.
Qed.

Lemma mirror_in_fat f s : 0 <= fsize f -> in_fat f s -> ~ mirror f s.
Proof. unfold mirror, in_fat. lia. Qed.

(** A table survives changes outside the FAT. *)
Lemma table_off v v' sc T :
  wf v -> fat_geo (fs v) -> table_ok v sc T -> geo (fs v') = geo (fs v) ->
  (forall s, ready (disk v) s -> ready (disk v') s) ->
  (forall s, in_fat (fs v) s -> lsec v' s = lsec v s) -> table_ok v' sc T.
Proof.
  intros W FG [T1 T2 T3] G R Hs. destruct (geo_fields _ _ G) as (E1 & E2 & E3 & E4 & E5 & E6 & E7 & E8).
  destruct (geo_tbl _ _ T G) as (F1 & F2 & F3). constructor.
  - destruct T as [|cl]; rewrite ?E1, ?E3, ?E4, ?E7; [done|].
    destruct T1 as (A1 & A2 & A3 & A4). do 3 (split; [done|]).
    eapply chain_ext; [exact E4| |exact A4]. intros x Hx. by apply fat_entry_off.
  - by rewrite F3.
  - intros i. rewrite F1, F3. intros Hi. destruct (T3 i Hi) as (A1 & A2 & A3 & A4).
    rewrite (geo_mirror _ _ _ G), (geo_in_fat _ _ _ G). auto.
Qed.

Lemma entries_lookup v T j :
  entries v T !! j = if decide (Z.of_nat j < tbl_size (fs v) T) then Some (entry v T (Z.of_nat j)) else None.
Proof.
  unfold entries. rewrite list_lookup_fmap. destruct (decide _) as [Hj|Hj].
  - rewrite lookup_seqZ_lt by done. done.
  - rewrite lookup_seqZ_ge by lia. done.
Qed.

Lemma entries_length v T : length (entries v T) = Z.to_nat (tbl_size (fs v) T).
Proof. unfold entries. by rewrite length_fmap, length_seqZ. Qed.

Lemma poke_entry v sc T k e :
  wf v -> vol_geo (fs v) -> table_ok v sc T -> 0 <= k < tbl_size (fs v) T ->
  at_sector v (tbl_sector (fs v) T k) -> length e = 32%nat -> Forall is_byte e ->
  entry_upd v (poke (fun w => splice w (Z.to_nat (k mod 16 * 32)) e) v) T k e.
Proof.
  intros W VG TO Hk At Hl Hb. pose proof (Z.mod_pos_bound k 16 ltac:(lia)) as Bk.
  set (off := Z.to_nat (k mod 16 * 32)). set (g := fun w => splice w off e).
  set (s := tbl_sector (fs v) T k) in *.
  assert (length (lsec v s) = 512%nat) as Ls by (by apply lsec_length).
  assert (off + length e <= length (lsec v s))%nat as Hoff by (unfold off; lia).
  constructor.
  - apply (poke_wf g v s W At); unfold g; [by rewrite length_splice|].
    unfold splice. apply Forall_app; split; [by apply Forall_take, lsec_bytes|].
    apply Forall_app; split; [done|by apply Forall_drop, lsec_bytes].
  - done.
  - done.
  - done.
  - intros x _ Hx. rewrite (poke_lsec g v s x At). by destruct (Z.eqb_spec x s).
  - apply list_eq. intros j. rewrite entries_lookup. cbn [fs poke].
    change (tbl_size (set_wflag 1 _) T) with (tbl_size (fs v) T).
    destruct (decide (j = Z.to_nat k)) as [->|Hne].
    + rewrite list_lookup_insert_eq by (rewrite entries_length; lia). rewrite Z2Nat.id by lia.
      rewrite decide_True by lia. f_equal. unfold entry. fold (poke g v).
      change (tbl_sector (fs (poke g v)) T k) with s. rewrite (poke_lsec g v s s At), Z.eqb_refl.
      unfold g. fold off. rewrite <- Hl. by apply slice_splice_same.
    + rewrite list_lookup_insert_ne by done. rewrite entries_lookup. destruct (decide _) as [Hj|]; [|done].
      f_equal. unfold entry. fold (poke g v).
      change (tbl_sector (fs (poke g v)) T (Z.of_nat j)) with (tbl_sector (fs v) T (Z.of_nat j)).
      rewrite (poke_lsec g v s _ At). destruct (Z.eqb_spec (tbl_sector (fs v) T (Z.of_nat j)) s) as [E|]; [|done].
      rewrite E. unfold g. apply slice_splice_other; [done|].
      pose proof (tbl_sector_inj v sc T (Z.of_nat j) k VG TO ltac:(lia) Hk E) as E16.
      pose proof (Z.mod_pos_bound (Z.of_nat j) 16 ltac:(lia)) as Bj.
      pose proof (Z.div_mod (Z.of_nat j) 16 ltac:(lia)). pose proof (Z.div_mod k 16 ltac:(lia)).
      unfold off. lia.
Qed.

Lemma entry_upd_view v v1 v2 sc T k e :
  table_ok v sc T -> same_view v v1 -> same_alloc (fs v) (fs v1) -> 0 <= k < tbl_size (fs v) T ->
  entry_upd v1 v2 T k e -> entry_upd v v2 T k e.
Proof.
  intros TO V A Hk [U1 U2 U3 U4 U5 U6]. pose proof V as (G & S & R).
  destruct (geo_tbl _ _ T G) as (F1 & _ & F3). constructor; auto; [congruence|by transitivity (fs v1)| |].
  - intros s Hm Hs. rewrite U5; [by apply S|by rewrite (geo_mirror _ _ _ G)|by rewrite F1].
  - rewrite U6. f_equal. unfold entries. rewrite F3. apply list_fmap_ext. intros i j Hj.
    apply lookup_seqZ in Hj as [-> Hj]. apply (entry_view v v1 sc); [done|done|lia].
Qed.

(** The FAT and hence the shape of every table is unaffected. *)
Lemma entry_upd_table v v' T k e sc sc' T' :
  wf v -> fat_geo (fs v) -> table_ok v sc T -> 0 <= k < tbl_size (fs v) T -> entry_upd v v' T k e ->
  table_ok v sc' T' -> table_ok v' sc' T'.
Proof.
  intros W FG TO Hk [U1 U2 U3 U4 U5 U6] TO'. apply (table_off v v'); try done.
  intros s Hs. apply U5.
  - apply mirror_in_fat; [|done]. apply (wf_fat v W).
  - intros ->. by apply (to_sectors v sc T TO k Hk).
Qed.

(** A name entry as [dir_register] creates it. *)
Definition new_entry (name : list Z) : list Z := take 11 name ++ replicate 21 0.
Definition deleted_entry : list Z := DDEM :: replicate 31 0.

Lemma register_bytes (w name : list Z) off :
  length w = 512%nat -> (Z.to_nat off + 32 <= 512)%nat -> (11 <= length name)%nat ->
  mem_cpy off name 11 (mem_set off 0 SZ_DIRE w) = splice w (Z.to_nat off) (new_entry name).
Proof.
  intros Hw Ho Hn. unfold mem_cpy, mem_set. change (u8 0) with 0. change (Z.to_nat SZ_DIRE) with 32%nat.
  change (Z.to_nat 11) with 11%nat. rewrite splice_over; rewrite ?length_replicate, ?length_take; try lia.
  unfold new_entry. by rewrite Nat.min_l by lia.
Qed.

Lemma remove_bytes (w : list Z) off :
  length w = 512%nat -> 0 <= off -> (Z.to_nat off + 32 <= 512)%nat ->
  setb (mem_set off 0 SZ_DIRE w) off DDEM = splice w (Z.to_nat off) deleted_entry.
Proof.
  intros Hw H0 Ho. unfold mem_set. change (u8 0) with 0. change (Z.to_nat SZ_DIRE) with 32%nat.
  rewrite <- (Z2Nat.id off) at 2 by done.
  rewrite setb_splice by (rewrite length_splice; rewrite ?length_replicate; lia).
  by rewrite splice_over by (rewrite ?length_replicate; cbn; lia).
Qed.

Lemma wp_dir_register v T dp k (Q : FRESULT * DIR -> vol D -> Prop) :
  wf v -> vol_geo (fs v) -> table_ok v (sclust dp) T -> first_free (entries v T) = Some k ->
  (11 <= length (fn dp))%nat -> Forall is_byte (fn dp) ->
  (forall v' dp', entry_upd v v' T (Z.of_nat k) (new_entry (fn dp)) -> same_dir dp dp' ->
     positioned (fs v) T dp' (Z.of_nat k) -> at_sector v' (tbl_sector (fs v) T (Z.of_nat k)) -> Q (FR_OK, dp') v') ->
  wp (dir_register dp) Q v.
Proof.
  intros W VG TO Hff Hn Hb HQ. pose proof (vg_fat _ VG) as FG.
  unfold dir_register. wp_step. apply (wp_dir_alloc v T dp); [done..|right; congruence|].
  intros [res dp1] v1 W1 V1 A1 Sd1 HP. rewrite Hff in HP. cbn in HP. destruct HP as [-> PO]. cbn [snd] in Sd1.
  change (is_ok FR_OK) with true. cbv iota.
  pose proof (po_range _ _ _ _ PO) as Hk. pose proof Sd1 as (D1 & D2 & _).
  wp_step. apply (wp_move_entry v1 dp1 T (Z.of_nat k)); [done| |by apply (same_view_positioned v)|].
  { rewrite D1. by apply (table_view v). }
  intros v2 W2 V2 A2 At Ew. change (is_ok FR_OK) with true. unfold when.
  do 2 wp_step. apply wp_upd_win. wp_step. apply wp_upd_win. apply wp_setfs, wp_ret. cbn [fs disk].
  rewrite (po_dir _ _ _ _ PO), D2. cbn [default].
  destruct (geo_tbl _ _ T (proj1 V1)) as (F1 & _ & F3). rewrite F1 in At, Ew.
  assert (same_view v v2 /\ same_alloc (fs v) (fs v2)) as [V02 A02]
    by (split; [by transitivity v1|by transitivity (fs v1)]).
  destruct (geo_tbl _ _ T (proj1 V02)) as (E1 & _ & E3).
  pose proof (Z.mod_pos_bound (Z.of_nat k) 16 ltac:(lia)) as Bk.
  set (off := Z.of_nat k mod 16 * 32) in *.
  change (Q (FR_OK, dp1) (poke (fun w => mem_cpy off (fn dp) 11 (mem_set off 0 SZ_DIRE w)) v2)).
  assert (poke (fun w => mem_cpy off (fn dp) 11 (mem_set off 0 SZ_DIRE w)) v2 =
          poke (fun w => splice w (Z.to_nat off) (new_entry (fn dp))) v2) as ->.
  { unfold poke. rewrite register_bytes; [done|apply W2|unfold off; lia|done]. }
  assert (entry_upd v2 (poke (fun w => splice w (Z.to_nat off) (new_entry (fn dp))) v2) T (Z.of_nat k) (new_entry (fn dp))) as U.
  { apply (poke_entry v2 (sclust dp)); [done|by eapply geo_vol_geo; [apply V02|]|by apply (table_view v)|lia|by rewrite E1| |].
    - unfold new_entry. rewrite length_app, length_take, length_replicate. lia.
    - unfold new_entry. apply Forall_app. split; [by apply Forall_take|by apply Forall_replicate]. }
  apply HQ; [|done|done|].
  - by eapply entry_upd_view.
  - destruct At as [T1 T2 T3 T4 T5]. pose proof (lsec_dirty (poke (fun w => splice w (Z.to_nat off) (new_entry (fn dp))) v2)) as Ld.
    constructor; try done. rewrite <- T1. symmetry. by apply Ld.
Qed.

Lemma wp_dir_remove v T dp (Q : FRESULT * DIR -> vol D -> Prop) :
  wf v -> vol_geo (fs v) -> table_ok v (sclust dp) T -> 0 <= index dp < tbl_size (fs v) T ->
  (forall v' dp', entry_upd v v' T (index dp) deleted_entry -> same_dir dp dp' -> Q (FR_OK, dp') v') ->
  wp (dir_remove dp) Q v.
Proof.
  intros W VG TO Hk HQ. pose proof (vg_fat _ VG) as FG. set (k := index dp) in *.
  unfold dir_remove. wp_step. apply (wp_dir_sdi v dp k T); [done..|].
  intros v1 dp1 W1 V1 A1 PO D1 D2 D3 D4 D5. change (is_ok FR_OK) with true. cbv iota.
  wp_step. apply (wp_move_entry v1 dp1 T k); [done| |by apply (same_view_positioned v)|].
  { rewrite D1. by apply (table_view v). }
  intros v2 W2 V2 A2 At Ew. change (is_ok FR_OK) with true. unfold when.
  do 2 wp_step. apply wp_upd_win. wp_step. apply wp_upd_win. apply wp_setfs, wp_ret. cbn [fs disk].
  rewrite (po_dir _ _ _ _ PO). cbn [default].
  destruct (geo_tbl _ _ T (proj1 V1)) as (F1 & _ & F3). rewrite F1 in At, Ew.
  assert (same_view v v2 /\ same_alloc (fs v) (fs v2)) as [V02 A02]
    by (split; [by transitivity v1|by transitivity (fs v1)]).
  destruct (geo_tbl _ _ T (proj1 V02)) as (E1 & _ & E3).
  pose proof (Z.mod_pos_bound k 16 ltac:(lia)) as Bk. set (off := k mod 16 * 32) in *.
  change (Q (FR_OK, dp1) (poke (fun w => setb (mem_set off 0 SZ_DIRE w) off DDEM) v2)).
  assert (poke (fun w => setb (mem_set off 0 SZ_DIRE w) off DDEM) v2 =
          poke (fun w => splice w (Z.to_nat off) deleted_entry) v2) as ->.
  { unfold poke. rewrite remove_bytes; [done|apply W2|unfold off; lia..]. }
  apply HQ; [|done]. apply (entry_upd_view v v2 _ (sclust dp)); [done..|].
  apply (poke_entry v2 (sclust dp)); [done|by eapply geo_vol_geo; [apply V02|]|by apply (table_view v)|lia|by rewrite E1|done|].
  constructor; [done|by apply Forall_replicate].
Qed.

(** Lookup in an updated table. *)
Lemma find_after_register name es k e :
  first_free es = Some k -> find_entry name es = None -> getb e 0 <> 0 -> names name e = true ->
  find_entry name (<[k := e]> es) = Some k.
Proof.
  revert k. induction es as [|x es IH]; intros k Hf Hn H0 He; [done|]. cbn [first_free find_entry] in *.
  unfold free_entry in Hf. change DIR_Name with 0 in *. destruct k as [|k].
  - cbn. change DIR_Name with 0. rewrite (proj2 (Z.eqb_neq _ _) H0), He. done.
  - destruct (Z.eqb_spec (getb x 0) DDEM); cbn [orb] in Hf; [done|].
    destruct (Z.eqb_spec (getb x 0) 0); [done|]. cbn [insert list_insert find_entry].
    change DIR_Name with 0. rewrite (proj2 (Z.eqb_neq (getb x 0) 0)) by done.
    destruct (names name x); [done|]. destruct (first_free es) as [k'|]; [|done]. cbn in Hf. injection Hf as ->.
    destruct (find_entry name es); [done|]. change (list_insert k e es) with (<[k := e]> es). by rewrite IH.
Qed.

Lemma find_after_remove name es k :
  (forall j e, es !! j = Some e -> j <> k -> names name e = false) -> getb name 0 <> DDEM -> (11 <= length name)%nat ->
  find_entry name (<[k := deleted_entry]> es) = None.
Proof.
  intros Hu Hd Hl.
  assert (names name deleted_entry = false) as Nd.
  { unfold names. apply andb_false_intro2, bool_decide_false. destruct name as [|c name]; [cbn in Hl; lia|].
    intros [= E _]. by apply Hd. }
  assert (forall es', (forall e, e ∈ es' -> names name e = false) -> find_entry name es' = None) as Hall.
  { induction es' as [|e es' IH]; intros He; [done|]. cbn. destruct (_ =? 0); [done|].
    rewrite He by left. rewrite IH; [done|]. intros x Hx. apply He. by right. }
  apply Hall. intros e He. apply list_elem_of_lookup in He as [j Hj].
  destruct (decide (j = k)) as [->|Hne].
  - destruct (decide (k < length es)%nat) as [Hk|Hk].
    + rewrite list_lookup_insert_eq in Hj by done. by injection Hj as <-.
    + rewrite lookup_ge_None_2 in Hj by (rewrite length_insert; lia). done.
  - rewrite list_lookup_insert_ne in Hj by done. by eapply Hu.
Qed.
End Theory.

(** ** Properties *)

Section Properties.
Context {D : Type} `{L : DiskLaws D}.
Implicit Types (v : vol D) (T : table).

(** C31. [dir_find] is lookup in the directory table, for the static root table
    and for cluster chains alike: it terminates, reports [FR_OK] at the first
    entry before the end mark that is not a volume label and has the eleven
    bytes of the name, with that entry in the window, and [FR_NO_FILE] when
    there is none; it changes nothing on the volume. *)
Theorem dir_find_correct v T (dp : DIR) :
  wf v -> vol_geo (fs v) -> table_ok v (sclust dp) T -> (11 <= length (fn dp))%nat ->
  wp (dir_find dp)
    (fun '(res, dp') v' =>
       wf v' /\ same_view v v' /\ same_dir dp dp' /\
       match find_entry (fn dp) (entries v T) with
       | Some k => res = FR_OK /\ positioned (fs v) T dp' (Z.of_nat k) /\
                   win (fs v') = lsec v (tbl_sector (fs v) T (Z.of_nat k))
       | None => res = FR_NO_FILE
       end) v.
Proof.
  intros W VG TO Hn. eapply wp_mono; [by apply (wp_dir_find v T)|].
  intros [res dp'] v' (X1 & X2 & _ & X4 & X5). do 3 (split; [done|]).
  destruct (find_entry _ _) as [k|]; cbn in *; tauto.
Qed.

(** C30. A registered name is found: when the name is not in the directory and a
    free entry exists, [dir_register] takes the first free entry, every other
    entry keeps its 32 bytes, and a following [dir_find] returns exactly that
    entry. *)
Theorem dir_register_then_find v T (dp : DIR) k :
  wf v -> vol_geo (fs v) -> table_ok v (sclust dp) T -> first_free (entries v T) = Some k ->
  find_entry (fn dp) (entries v T) = None ->
  (11 <= length (fn dp))%nat -> Forall is_byte (fn dp) -> getb (fn dp) 0 <> 0 ->
  wp (let! (r1, dp1) := dir_register dp in
      let! (r2, dp2) := dir_find dp1 in ret (r1, r2, dp2))
    (fun '(r1, r2, dp2) v' =>
       r1 = FR_OK /\ r2 = FR_OK /\ index dp2 = Z.of_nat k /\ wf v' /\
       entries v' T = <[k := new_entry (fn dp)]> (entries v T)) v.
Proof.
  intros W VG TO Hff Hnone Hn Hb H0. wp_step. apply (wp_dir_register v T dp k); try done.
  intros v1 dp1 U (D1 & D2 & _) PO _. pose proof (vg_fat _ VG) as FG. pose proof (po_range _ _ _ _ PO) as Hk.
  assert (table_ok v1 (sclust dp1) T) as TO1 by (rewrite D1; by eapply (entry_upd_table v v1 T)).
  wp_step. eapply wp_mono.
  { apply (wp_dir_find v1 T); [apply U|by eapply geo_vol_geo; [apply U|]|done|by rewrite D2]. }
  intros [r2 dp2] v2 (X1 & X2 & _ & _ & X5). apply wp_ret.
  pose proof (eu_entries _ _ _ _ _ U) as Ee. rewrite Nat2Z.id in Ee. rewrite D2, Ee in X5.
  rewrite (find_after_register (fn dp)) in X5.
  - cbn in X5. destruct X5 as (-> & P2 & _). do 2 (split; [done|]). split; [apply P2|]. split; [done|].
    rewrite <- Ee. apply list_eq. intros j. rewrite !entries_lookup.
    destruct (geo_tbl _ _ T (proj1 X2)) as (_ & _ & ->). destruct (decide _); [|done]. f_equal.
    apply (entry_view v1 v2 (sclust dp1)); [done|done|lia].
  - done.
  - done.
  - unfold new_entry. destruct (fn dp); [cbn in Hn; lia|]. exact H0.
  - unfold names, new_entry. rewrite take_app_le by (rewrite length_take; lia). rewrite take_take, Nat.min_id.
    rewrite bool_decide_true by done. rewrite andb_true_r.
    change DIR_Attr with (Z.of_nat 11). unfold getb. rewrite Nat2Z.id, app_nth2; rewrite length_take, Nat.min_l by lia; [done|lia].
Qed.

(** [dir_remove] deletes exactly the entry it stands on: its first byte
    becomes the deletion mark 0xE5, all other entries keep their bytes, and
    when no other entry has the name a following [dir_find] reports
    [FR_NO_FILE]. *)
Theorem dir_remove_then_find v T (dp : DIR) :
  wf v -> vol_geo (fs v) -> table_ok v (sclust dp) T -> 0 <= index dp < tbl_size (fs v) T ->
  (11 <= length (fn dp))%nat -> getb (fn dp) 0 <> DDEM ->
  (forall j e, entries v T !! j = Some e -> j <> Z.to_nat (index dp) -> names (fn dp) e = false) ->
  wp (let! (r1, dp1) := dir_remove dp in
      let! (r2, dp2) := dir_find dp1 in ret (r1, r2))
    (fun '(r1, r2) v' =>
       r1 = FR_OK /\ r2 = FR_NO_FILE /\ wf v' /\
       entries v' T = <[Z.to_nat (index dp) := deleted_entry]> (entries v T)) v.
Proof.
  intros W VG TO Hk Hn Hd Hu. wp_step. apply (wp_dir_remove v T dp); try done.
  intros v1 dp1 U (D1 & D2 & _). pose proof (vg_fat _ VG) as FG.
  assert (table_ok v1 (sclust dp1) T) as TO1 by (rewrite D1; by eapply (entry_upd_table v v1 T)).
  wp_step. eapply wp_mono.
  { apply (wp_dir_find v1 T); [apply U|by eapply geo_vol_geo; [apply U|]|done|by rewrite D2]. }
  intros [r2 dp2] v2 (X1 & X2 & _ & _ & X5). apply wp_ret.
  pose proof (eu_entries _ _ _ _ _ U) as Ee. rewrite D2, Ee, find_after_remove in X5 by done.
  cbn in X5. split; [done|]. split; [done|]. split; [done|].
  rewrite <- Ee. apply list_eq. intros j. rewrite !entries_lookup.
  destruct (geo_tbl _ _ T (proj1 X2)) as (_ & _ & ->). destruct (decide _); [|done]. f_equal.
  apply (entry_view v1 v2 (sclust dp1)); [done|done|lia].
Qed.

(** A full root directory of FAT12/16 refuses a new name: when no entry of
    the static table is free, [dir_register] returns [FR_DENIED] and the volume
    is unchanged. *)
Theorem dir_register_full v (dp : DIR) :
  wf v -> vol_geo (fs v) -> table_ok v (sclust dp) Static -> first_free (entries v Static) = None ->
  wp (dir_register dp) (fun '(res, _) v' => res = FR_DENIED /\ wf v' /\ same_view v v') v.
Proof.
  intros W VG TO Hff. unfold dir_register. wp_step. apply (wp_dir_alloc v Static dp); [done..|by left|].
  intros [res dp1] v1 W1 V1 A1 Sd1 HP. rewrite Hff in HP. cbn in HP. subst res.
  change (is_ok FR_DENIED) with false. cbv iota. by apply wp_ret.
Qed.
End Properties.

(** ** The small volume's root directory *)

Definition demo_dir (name : list Z) : DIR :=
  {| d_fs := 1; d_id := 1; index := 0; sclust := 0; clust := 0; sect := 3; dir := Some 0; fn := name; pat := [] |}.
Definition demo_name : list Z := string_bytes "README  TXT"%string ++ [NS_LAST].

Lemma demo_vol_geo : vol_geo (fs demo).
Proof. constructor; [exact demo_geo|by exists 0|done]. Qed.

Lemma demo_table : table_ok demo 0 Static.
Proof.
  constructor; cbn; [done|lia|]. intros i Hi. assert (i / 16 = 0) as -> by (apply Z.div_small; lia).
  unfold mirror, in_fat. cbn. lia.
Qed.

(** A volume whose sixteen root entries are all in use. *)
Definition full_vol : vol ramdisk :=
  {| fs := demo_fs; disk := {| blocks := {[ 3 := replicate 512 65 ]}; nblocks := 12 |} |}.

Lemma full_wf : wf full_vol.
Proof. constructor; cbn -[replicate]; try done; try lia. by apply Forall_replicate. Qed.

Lemma full_table : table_ok full_vol 0 Static.
Proof.
  constructor; cbn; [done|lia|]. intros i Hi. assert (i / 16 = 0) as -> by (apply Z.div_small; lia).
  unfold mirror, in_fat. cbn. lia.
Qed.

Lemma dir_find_correct_witness :
  wp (dir_find (demo_dir demo_name))
    (fun '(res, dp') v' =>
       wf v' /\ same_view demo v' /\ same_dir (demo_dir demo_name) dp' /\
       match find_entry demo_name (entries demo Static) with
       | Some k => res = FR_OK /\ positioned (fs demo) Static dp' (Z.of_nat k) /\
                   win (fs v') = lsec demo (tbl_sector (fs demo) Static (Z.of_nat k))
       | None => res = FR_NO_FILE
       end) demo.
Proof.
  apply (dir_find_correct demo Static (demo_dir demo_name) demo_wf demo_vol_geo demo_table). vm_compute. lia.
Defined.

Lemma dir_register_then_find_witness :
  wp (let! (r1, dp1) := dir_register (demo_dir demo_name) in
      let! (r2, dp2) := dir_find dp1 in ret (r1, r2, dp2))
    (fun '(r1, r2, dp2) v' =>
       r1 = FR_OK /\ r2 = FR_OK /\ index dp2 = Z.of_nat 0 /\ wf v' /\
       entries v' Static = <[0%nat := new_entry demo_name]> (entries demo Static)) demo.
Proof.
  apply (dir_register_then_find demo Static (demo_dir demo_name) 0 demo_wf demo_vol_geo demo_table);
    [by vm_compute|by vm_compute|vm_compute; lia|by repeat constructor|by vm_compute].
Defined.

Lemma dir_remove_then_find_witness :
  wp (let! (r1, dp1) := dir_remove (demo_dir demo_name) in
      let! (r2, dp2) := dir_find dp1 in ret (r1, r2))
    (fun '(r1, r2) v' =>
       r1 = FR_OK /\ r2 = FR_NO_FILE /\ wf v' /\
       entries v' Static = <[Z.to_nat 0 := deleted_entry]> (entries demo Static)) demo.
Proof.
  apply (dir_remove_then_find demo Static (demo_dir demo_name) demo_wf demo_vol_geo demo_table);
    [done|vm_compute; lia|by vm_compute|].
  intros j e Hj _. rewrite entries_lookup in Hj. destruct (decide _) as [Hlt|]; [|done]. injection Hj as <-.
  cbn in Hlt. destruct j as [|[|[|[|[|[|[|[|[|[|[|[|[|[|[|[|j]]]]]]]]]]]]]]]]; try lia; by vm_compute.
Defined.

Lemma dir_register_full_witness :
  wp (dir_register (demo_dir demo_name))
    (fun '(res, _) v' => res = FR_DENIED /\ wf v' /\ same_view full_vol v') full_vol.
Proof.
  apply (dir_register_full full_vol (demo_dir demo_name) full_wf); [exact demo_vol_geo|exact full_table|by vm_compute].
Defined.
