(* ===== verification/FatVolume.v ===== *)
(** * FatFs volumes ([ff.c] lines 2127-2396)

    Mounting: recognition of a boot sector, analysis of the BPB, validation of
    the objects that refer to a volume.  The state of the public functions is
    the set of FATFS objects by address, the drive table (one drive), the mount
    counter and the disk. *)

From S2P Require Import Prelude FatBase FatAccess FatName FatDir.

(** ** State of the module *)

Record ff (D : Type) := { objs : gmap Z FATFS; FatFs0 : Z; Fsid : Z; dev : D }.
Arguments objs {D} _.
Arguments FatFs0 {D} _.
Arguments Fsid {D} _.
Arguments dev {D} _.
Arguments Build_ff {D} _ _ _ _.

Section Volume.
Context {D : Type} `{DiskIO D}.

(** Running code on the object at an address; an address without object is a
    wild pointer. *)
Definition on_fs {A} (p : Z) (m : M (vol D) A) : M (ff D) A := fun s =>
  match objs s !! p with
  | None => None
  | Some f =>
      match m (Build_vol f (dev s)) with
      | None => None
      | Some (a, v) => Some (a, Build_ff (<[p := fs v]> (objs s)) (FatFs0 s) (Fsid s) (disk v))
      end
  end.
Definition set_Fsid (x : Z) : M (ff D) unit :=
  modify (fun s => Build_ff (objs s) (FatFs0 s) x (dev s)).
Definition set_FatFs0 (x : Z) : M (ff D) unit :=
  modify (fun s => Build_ff (objs s) x (Fsid s) (dev s)).

(** ** Boot sectors *)

(** 0: FAT boot sector, 1: boot sector but not FAT, 2: not a boot sector,
    3: disk error. *)
Definition check_fs (sect : Z) : M (vol D) Z :=
  setfs (set_wflag 0) ;;; setfs (set_winsect 0xFFFFFFFF) ;;;
  let! res := move_window sect in
  if negb (is_ok res) then ret 3
  else
    let! w := getfs win in
    ret (if negb (LD_WORD w BS_55AA =? 0xAA55) then 2
         else if Z.land (LD_DWORD w BS_FilSysType) 0xFFFFFF =? 0x544146 then 0
         else if Z.land (LD_DWORD w BS_FilSysType32) 0xFFFFFF =? 0x544146 then 0
         else 1).

(** [do { bsect = br[i]; fmt = bsect ? check_fs : 2; } while (fmt && ++i < 4)] *)
Fixpoint try_partitions (br : list Z) (bsect fmt : Z) : M (vol D) (Z * Z) :=
  match br with
  | [] => ret (bsect, fmt)
  | b :: br =>
      let! fmt := (if nz b then check_fs b else ret 2) in
      if nz fmt then try_partitions br b fmt else ret (b, fmt)
  end.

(** Lines 2207-2220: the sector of the FAT boot record and its format code. *)
Definition find_boot : M (vol D) (Z * Z) :=
  let! fmt := check_fs 0 in
  if fmt =? 1 then
    let! w := getfs win in
    let br := (fun i => let pt := MBR_Table + i * SZ_PTE in
                        if nz (getb w (pt + 4)) then LD_DWORD w (pt + 8) else 0) <$> [0; 1; 2; 3] in
    try_partitions br 0 fmt
  else ret (0, fmt).

(** Lines 2281-2302: allocation hints and FSINFO. *)
Definition load_fsinfo (bsect fmt : Z) : M (vol D) unit :=
  setfs (set_free_clust 0xFFFFFFFF) ;;; setfs (set_last_clust 0xFFFFFFFF) ;;;
  setfs (set_fsi_flag 0x80) ;;;
  let! w := getfs win in
  if (fmt =? FS_FAT32) && (LD_WORD w BPB_FSInfo =? 1) then
    let! res := move_window (u32 (bsect + 1)) in
    if is_ok res then
      setfs (set_fsi_flag 0) ;;;
      let! w := getfs win in
      if (LD_WORD w BS_55AA =? 0xAA55) && (LD_DWORD w FSI_LeadSig =? 0x41615252)
         && (LD_DWORD w FSI_StrucSig =? 0x61417272) then
        setfs (set_free_clust (LD_DWORD w FSI_Free_Count)) ;;;
        setfs (set_last_clust (LD_DWORD w FSI_Nxt_Free))
      else ret tt
    else ret tt
  else ret tt.

(** Lines 2261-2277: limits of the areas; the result is the last check. *)
Definition set_limits (bsect nrsv fasize sysect nclst fmt : Z) : M (vol D) FRESULT :=
  setfs (set_n_fatent (u32 (nclst + 2))) ;;;
  setfs (set_volbase bsect) ;;;
  setfs (set_fatbase (u32 (bsect + nrsv))) ;;;
  setfs (set_database (u32 (bsect + sysect))) ;;;
  let! f := getfs id in
  let check szbfat :=
    if fsize f <? u32 (szbfat + (SS - 1)) / SS then FR_NO_FILESYSTEM else FR_OK in
  if fmt =? FS_FAT32 then
    if nz (n_rootdir f) then ret FR_NO_FILESYSTEM
    else
      setfs (set_dirbase (LD_DWORD (win f) BPB_RootClus)) ;;;
      ret (check (u32 (n_fatent f * 4)))
  else if negb (nz (n_rootdir f)) then ret FR_NO_FILESYSTEM
  else
    setfs (set_dirbase (u32 (fatbase f + fasize))) ;;;
    ret (check (if fmt =? FS_FAT16 then u32 (n_fatent f * 2)
                else u32 (u32 (n_fatent f * 3) / 2 + Z.land (n_fatent f) 1))).

(** Lines 2226-2277: analysis of the BPB in the window; yields the FAT type. *)
Definition analyze_bpb (bsect : Z) : M (vol D) (FRESULT * Z) :=
  let! w := getfs win in
  if negb (LD_WORD w BPB_BytsPerSec =? SS) then ret (FR_NO_FILESYSTEM, 0) else
  let fasize := LD_WORD w BPB_FATSz16 in
  let fasize := if fasize =? 0 then LD_DWORD w BPB_FATSz32 else fasize in
  setfs (set_fsize fasize) ;;;
  let nf := getb w BPB_NumFATs in
  setfs (set_n_fats nf) ;;;
  if negb (nf =? 1) && negb (nf =? 2) then ret (FR_NO_FILESYSTEM, 0) else
  let fasize := u32 (fasize * nf) in
  let cs := getb w BPB_SecPerClus in
  setfs (set_csize cs) ;;;
  if (cs =? 0) || nz (Z.land cs (cs - 1)) then ret (FR_NO_FILESYSTEM, 0) else
  let nr := LD_WORD w BPB_RootEntCnt in
  setfs (set_n_rootdir nr) ;;;
  if nz (nr mod (SS / SZ_DIRE)) then ret (FR_NO_FILESYSTEM, 0) else
  let tsect := LD_WORD w BPB_TotSec16 in
  let tsect := if tsect =? 0 then LD_DWORD w BPB_TotSec32 else tsect in
  let nrsv := LD_WORD w BPB_RsvdSecCnt in
  if nrsv =? 0 then ret (FR_NO_FILESYSTEM, 0) else
  let sysect := u32 (nrsv + fasize + nr / (SS / SZ_DIRE)) in
  if tsect <? sysect then ret (FR_NO_FILESYSTEM, 0) else
  let nclst := (tsect - sysect) / cs in
  if nclst =? 0 then ret (FR_NO_FILESYSTEM, 0) else
  let fmt := if nclst >=? MIN_FAT32 then FS_FAT32 else if nclst >=? MIN_FAT16 then FS_FAT16 else FS_FAT12 in
  let! res := set_limits bsect nrsv fasize sysect nclst fmt in
  ret (res, fmt).

(** Lines 2207-2306: from sector 0 to a mounted object with mount id [newid]. *)
Definition load_volume (newid : Z) : M (vol D) FRESULT :=
  let! (bsect, fmt) := find_boot in
  if fmt =? 3 then ret FR_DISK_ERR
  else if nz fmt then ret FR_NO_FILESYSTEM
  else
    let! (res, fmt) := analyze_bpb bsect in
    if negb (is_ok res) then ret res
    else
      load_fsinfo bsect fmt ;;;
      setfs (set_fs_type fmt) ;;;
      setfs (set_fs_id newid) ;;;
      ret FR_OK.

(** Lines 2195-2306. *)
Definition mount_volume (vl wmode newid : Z) : M (vol D) FRESULT :=
  setfs (set_fs_type 0) ;;;
  setfs (set_drv vl) ;;;
  let! stat := io (disk_initialize vl) in
  if has stat STA_NOINIT then ret FR_NOT_READY
  else if nz wmode && has stat STA_PROTECT then ret FR_WRITE_PROTECTED
  else load_volume newid.

(** Lines 2183-2190: [Some res] is the return for a volume that is mounted. *)
Definition check_mounted (wmode : Z) : M (vol D) (option FRESULT) :=
  let! f := getfs id in
  if nz (fs_type f) then
    let! stat := io (disk_status (drv f)) in
    if negb (has stat STA_NOINIT) then
      ret (Some (if nz wmode && has stat STA_PROTECT then FR_WRITE_PROTECTED else FR_OK))
    else ret None
  else ret None.

(** Yields the result, [*rfs] and [*path]. *)
Definition find_volume (path : option (list Z)) (wmode : Z) : M (ff D) (FRESULT * Z * option (list Z)) :=
  let (vl, path) := get_ldnumber path in
  if vl <? 0 then ret (FR_INVALID_DRIVE, 0, path) else
  let! p := gets FatFs0 in
  if p =? 0 then ret (FR_NOT_ENABLED, 0, path) else
  let! r := on_fs p (check_mounted wmode) in
  match r with
  | Some res => ret (res, p, path)
  | None =>
      let! sid := gets Fsid in
      let newid := u16 (sid + 1) in
      let! res := on_fs p (mount_volume vl wmode newid) in
      when (is_ok res) (set_Fsid newid) ;;;
      ret (res, p, path)
  end.

(** The object of a FIL or DIR with file system pointer [p] and mount id [i]. *)
Definition validate (p i : Z) : M (ff D) FRESULT :=
  if p =? 0 then ret FR_INVALID_OBJECT
  else on_fs p
    (let! f := getfs id in
     if (fs_type f =? 0) || negb (fs_id f =? i) then ret FR_INVALID_OBJECT
     else
       let! stat := io (disk_status (drv f)) in
       ret (if has stat STA_NOINIT then FR_NOT_READY else FR_OK)).

(** [fsp] is the address of the object to mount (0: unmount). *)
Definition f_mount (fsp : Z) (path : option (list Z)) (opt : Z) : M (ff D) FRESULT :=
  let (vl, _) := get_ldnumber path in
  if vl <? 0 then ret FR_INVALID_DRIVE else
  let! cfs := gets FatFs0 in
  when (nz cfs) (on_fs cfs (setfs (set_fs_type 0))) ;;;
  when (nz fsp) (on_fs fsp (setfs (set_fs_type 0))) ;;;
  set_FatFs0 fsp ;;;
  if (fsp =? 0) || negb (opt =? 1) then ret FR_OK
  else
    let! (res, _, _) := find_volume path 0 in
    ret res.
End Volume.

(** ** The boot sector as data *)

Definition fat_sz (w : list Z) : Z :=
  if LD_WORD w BPB_FATSz16 =? 0 then LD_DWORD w BPB_FATSz32 else LD_WORD w BPB_FATSz16.
Definition tot_sec (w : list Z) : Z :=
  if LD_WORD w BPB_TotSec16 =? 0 then LD_DWORD w BPB_TotSec32 else LD_WORD w BPB_TotSec16.
Definition sys_sec (w : list Z) : Z :=
  LD_WORD w BPB_RsvdSecCnt + fat_sz w * getb w BPB_NumFATs + LD_WORD w BPB_RootEntCnt / 16.

(** Kind of a sector as [check_fs] reports it. *)
Definition boot_kind (w : list Z) : Z :=
  if negb (LD_WORD w BS_55AA =? 0xAA55) then 2
  else if Z.land (LD_DWORD w BS_FilSysType) 0xFFFFFF =? 0x544146 then 0
  else if Z.land (LD_DWORD w BS_FilSysType32) 0xFFFFFF =? 0x544146 then 0
  else 1.

(** The sizes that the boot sector [w] of a volume at [bsect] states add up
    within 32 bits, and cluster numbers fit the 28 bits of a FAT32 entry. *)
Definition sizes_fit (w : list Z) (bsect : Z) : Prop :=
  sys_sec w < 2 ^ 32 /\ bsect + tot_sec w <= 0xFFFFFFFF /\
  (tot_sec w - sys_sec w) / getb w BPB_SecPerClus <= 2 ^ 28 - 10.

Section Theory.
Context {D : Type} `{L : DiskLaws D}.
Implicit Types (v : vol D) (f : FATFS).

(** What the analysis has checked and recorded when it succeeds. *)
Record bpb_ok (w : list Z) (bsect : Z) f (fmt : Z) : Prop := {
  bo_fsize : fsize f = fat_sz w;
  bo_nfats : n_fats f = getb w BPB_NumFATs /\ (n_fats f = 1 \/ n_fats f = 2);
  bo_csize : csize f = getb w BPB_SecPerClus /\ csize f <> 0 /\ Z.land (csize f) (csize f - 1) = 0;
  bo_root : n_rootdir f = LD_WORD w BPB_RootEntCnt /\ n_rootdir f mod 16 = 0 /\
            (n_rootdir f = 0 <-> fmt = FS_FAT32);
  bo_rsv : LD_WORD w BPB_RsvdSecCnt <> 0;
  bo_clusters : exists sysect nclst,
    sysect = u32 (LD_WORD w BPB_RsvdSecCnt + u32 (fat_sz w * n_fats f) + n_rootdir f / 16) /\
    sysect <= tot_sec w /\ nclst = (tot_sec w - sysect) / csize f /\ nclst <> 0 /\
    n_fatent f = u32 (nclst + 2) /\ database f = u32 (bsect + sysect) /\
    fmt = (if nclst >=? MIN_FAT32 then FS_FAT32 else if nclst >=? MIN_FAT16 then FS_FAT16 else FS_FAT12);
  bo_base : volbase f = bsect /\ fatbase f = u32 (bsect + LD_WORD w BPB_RsvdSecCnt);
  bo_dir : dirbase f = (if fmt =? FS_FAT32 then LD_DWORD w BPB_RootClus
                        else u32 (fatbase f + u32 (fat_sz w * n_fats f)));
  bo_size : u32 ((if fmt =? FS_FAT32 then u32 (n_fatent f * 4) else if fmt =? FS_FAT16 then u32 (n_fatent f * 2)
                  else u32 (u32 (n_fatent f * 3) / 2 + Z.land (n_fatent f) 1)) + 511) / 512 <= fsize f
}.

(** The fields the analysis leaves alone. *)
Definition same_window f f' : Prop :=
  win f' = win f /\ winsect f' = winsect f /\ wflag f' = wflag f /\ drv f' = drv f.

Lemma wp_set_limits v bsect nrsv fasize sysect nclst fmt (Q : FRESULT -> vol D -> Prop) :
  (forall f', same_window (fs v) f' -> Q FR_NO_FILESYSTEM (Build_vol f' (disk v))) ->
  (forall f', same_window (fs v) f' -> fsize f' = fsize (fs v) -> n_fats f' = n_fats (fs v) ->
     csize f' = csize (fs v) -> n_rootdir f' = n_rootdir (fs v) -> n_fatent f' = u32 (nclst + 2) ->
     volbase f' = bsect -> fatbase f' = u32 (bsect + nrsv) -> database f' = u32 (bsect + sysect) ->
     (n_rootdir f' = 0 <-> fmt = FS_FAT32) ->
     dirbase f' = (if fmt =? FS_FAT32 then LD_DWORD (win (fs v)) BPB_RootClus else u32 (fatbase f' + fasize)) ->
     u32 ((if fmt =? FS_FAT32 then u32 (n_fatent f' * 4) else if fmt =? FS_FAT16 then u32 (n_fatent f' * 2)
           else u32 (u32 (n_fatent f' * 3) / 2 + Z.land (n_fatent f') 1)) + 511) / 512 <= fsize f' ->
     Q FR_OK (Build_vol f' (disk v))) ->
  wp (set_limits bsect nrsv fasize sysect nclst fmt) Q v.
Proof.
  intros Q0 Q1. unfold set_limits. do 4 (wp_step; apply wp_setfs). wp_step. apply wp_getfs. unfold id.
  cbn [fs disk]. destruct (Z.eqb_spec fmt FS_FAT32) as [->|Hf].
  - destruct (nz (n_rootdir _)) eqn:En; [apply wp_ret; by apply Q0|]. apply nz_false in En.
    wp_step. apply wp_setfs, wp_ret. cbn [fs disk].
    match goal with |- Q (if ?b then _ else _) _ => destruct b eqn:Es end; [by apply Q0|].
    apply Q1; try done. apply Z.ltb_ge in Es. exact Es.
  - destruct (nz (n_rootdir _)) eqn:En; cbn [negb]; [|apply wp_ret; by apply Q0]. apply nz_true in En.
    wp_step. apply wp_setfs, wp_ret. cbn [fs disk].
    match goal with |- Q (if ?b then _ else _) _ => destruct b eqn:Es end; [by apply Q0|].
    apply Z.ltb_ge in Es. by apply Q1.
Qed.

Lemma wp_analyze v bsect (Q : FRESULT * Z -> vol D -> Prop) :
  (forall f', same_window (fs v) f' -> forall fmt, Q (FR_NO_FILESYSTEM, fmt) (Build_vol f' (disk v))) ->
  (forall f' fmt, same_window (fs v) f' -> bpb_ok (win (fs v)) bsect f' fmt ->
     Q (FR_OK, fmt) (Build_vol f' (disk v))) ->
  wp (analyze_bpb bsect) Q v.
Proof.
  intros Q0 Q1. unfold analyze_bpb. wp_step. apply wp_getfs. set (w := win (fs v)) in *.
  assert (v = Build_vol (fs v) (disk v)) as Ev by (by destruct v).
  destruct (negb (LD_WORD w BPB_BytsPerSec =? SS)); [apply wp_ret; rewrite Ev; by apply Q0|].
  fold (fat_sz w). fold (tot_sec w).
  wp_step. apply wp_setfs. wp_step. apply wp_setfs. cbn [fs disk].
  destruct (negb (getb w BPB_NumFATs =? 1) && negb (getb w BPB_NumFATs =? 2)) eqn:Enf;
    [apply wp_ret; by apply Q0|].
  wp_step. apply wp_setfs. cbn [fs disk].
  destruct (getb w BPB_SecPerClus =? 0) eqn:Ec0; cbn [orb]; [apply wp_ret; by apply Q0|].
  destruct (nz (Z.land (getb w BPB_SecPerClus) (getb w BPB_SecPerClus - 1))) eqn:Ecp; [apply wp_ret; by apply Q0|].
  wp_step. apply wp_setfs. cbn [fs disk].
  destruct (nz (LD_WORD w BPB_RootEntCnt mod (SS / SZ_DIRE))) eqn:Ert; [apply wp_ret; by apply Q0|].
  destruct (LD_WORD w BPB_RsvdSecCnt =? 0) eqn:Ers; [apply wp_ret; by apply Q0|].
  set (sysect := u32 _). destruct (tot_sec w <? sysect) eqn:Ets; [apply wp_ret; by apply Q0|].
  set (nclst := (tot_sec w - sysect) / getb w BPB_SecPerClus).
  destruct (nclst =? 0) eqn:Encl; [apply wp_ret; by apply Q0|].
  set (fmt := if nclst >=? MIN_FAT32 then _ else _).
  wp_step. apply wp_set_limits; cbn [fs disk].
  - intros f' Hw. apply wp_ret. by apply Q0.
  - intros f' Hw A1 A2 A3 A4 A5 A6 A7 A8 A9 A10 A11. apply wp_ret. apply Q1; [done|].
    apply Z.eqb_neq in Ec0, Ers, Encl. apply nz_false in Ecp, Ert. apply Z.ltb_ge in Ets.
    constructor; rewrite ?A2, ?A3, ?A4; try done.
    + split; [done|]. cbn. destruct (Z.eqb_spec (getb w BPB_NumFATs) 1); [by left|].
      destruct (Z.eqb_spec (getb w BPB_NumFATs) 2); [by right|done].
    + split; [done|]. split; [done|]. by rewrite A4 in A9.
    + by exists sysect, nclst.
Qed.

(** Every sector of the 32-bit address space can be read. *)
Definition all_ready (d : D) : Prop := forall s, 0 <= s < 2 ^ 32 -> ready d s.

(** [d'] holds the same sectors as [d]. *)
Definition same_disk (d d' : D) : Prop :=
  (forall s, sector d' s = sector d s) /\ (forall s, ready d s -> ready d' s).

#[export] Instance same_disk_preorder : PreOrder same_disk.
Proof.
  split; [done|]. intros d1 d2 d3 [A1 A2] [B1 B2]. split; [intros s; by rewrite B1, A1|auto].
Qed.

(** [move_window] with a clean window. *)
Lemma wp_move_clean v s (Q : FRESULT -> vol D -> Prop) :
  wflag (fs v) = 0 -> length (win (fs v)) = 512%nat -> ready (disk v) s -> s <> winsect (fs v) ->
  (forall d', same_disk (disk v) d' ->
     Q FR_OK (Build_vol (set_winsect s (set_win (sector (disk v) s) (fs v))) d')) ->
  wp (move_window s) Q v.
Proof.
  intros Ew Hl Hr Hne HQ. unfold move_window. wp_step. apply wp_getfs.
  rewrite (proj2 (Z.eqb_neq s _) Hne). cbn [negb]. wp_step. unfold sync_window. wp_step. apply wp_getfs.
  rewrite Ew. change (nz 0) with false. cbv iota. apply wp_ret. change (is_ok FR_OK) with true. cbv iota.
  wp_step. apply wp_getfs. wp_step. apply wp_io. eapply wp_mono.
  { apply disk_read_law; [lia|]. intros x Hx. by replace x with s by lia. }
  intros [r bytes] d2 (-> & -> & E2 & R2). change (seqZ s 1) with [s]. cbn [fmap list_fmap concat].
  rewrite app_nil_r. wp_step. apply wp_upd_win. change (is_res_ok RES_OK) with true. cbn [negb fs disk].
  wp_step. apply wp_setfs, wp_ret. cbn [fs disk].
  assert (splice (win (fs v)) 0 (sector (disk v) s) = sector (disk v) s) as Esp.
  { unfold splice. rewrite take_0, app_nil_l, sector_length, drop_ge, app_nil_r; [done|lia]. }
  rewrite Esp. by apply HQ.
Qed.

(** A volume object during recognition: a clean window that holds a sector. *)
Record scanning v v' (win' : list Z) (ws : Z) : Prop := {
  sc_disk : same_disk (disk v) (disk v');
  sc_flag : wflag (fs v') = 0;
  sc_win : win (fs v') = win';
  sc_sect : winsect (fs v') = ws
}.

Lemma wp_check_fs v s (Q : Z -> vol D -> Prop) :
  all_ready (disk v) -> length (win (fs v)) = 512%nat -> 0 <= s < 2 ^ 32 ->
  (forall v', (s <> 0xFFFFFFFF -> scanning v v' (sector (disk v) s) s) ->
     (s = 0xFFFFFFFF -> scanning v v' (win (fs v)) s) -> Q (boot_kind (win (fs v'))) v') ->
  wp (check_fs s) Q v.
Proof.
  intros Ha Hl Hs HQ. unfold check_fs. do 2 (wp_step; apply wp_setfs). cbn [fs disk]. wp_step.
  destruct (Z.eq_dec s 0xFFFFFFFF) as [->|Hne].
  - unfold move_window. wp_step. apply wp_getfs. cbn [fs winsect set_winsect]. rewrite Z.eqb_refl. cbn [negb].
    apply wp_ret. change (is_ok FR_OK) with true. cbn [negb]. wp_step. apply wp_getfs, wp_ret. by apply HQ.
  - apply wp_move_clean; [done|done|by apply Ha|done|]. intros d' Sd. change (is_ok FR_OK) with true. cbn [negb].
    wp_step. apply wp_getfs, wp_ret. by apply HQ.
Qed.

Lemma boot_kind_range w : boot_kind w = 0 \/ boot_kind w = 1 \/ boot_kind w = 2.
Proof. unfold boot_kind. destruct (negb _); [tauto|]. destruct (_ =? _); [tauto|]. destruct (_ =? _); tauto. Qed.

Lemma scan_ready v v' w ws : scanning v v' w ws -> all_ready (disk v) -> all_ready (disk v').
Proof. intros [[_ R] _ _ _] Ha s Hs. by apply R, Ha. Qed.

(** The result of the search for a boot record. *)
Definition boot_found v (r : Z * Z) v' : Prop :=
  (snd r = 0 -> 0 <= fst r < 0xFFFFFFFF /\ scanning v v' (sector (disk v) (fst r)) (fst r) /\
               boot_kind (sector (disk v) (fst r)) = 0) /\
  (snd r = 0 \/ snd r = 1 \/ snd r = 2) /\ same_disk (disk v) (disk v').

Lemma wp_try_partitions v (br : list Z) : forall v1 bs fmt,
  all_ready (disk v) -> Forall is_u32 br -> same_disk (disk v) (disk v1) ->
  length (win (fs v1)) = 512%nat -> boot_kind (win (fs v1)) <> 0 -> fmt = 1 \/ fmt = 2 ->
  wp (try_partitions br bs fmt) (boot_found v) v1.
Proof.
  induction br as [|b br IH]; intros v1 bs fmt Ha Hbr Sd Hl Hk Hf; cbn [try_partitions].
  { apply wp_ret. split; [cbn; lia|]. split; [cbn; tauto|done]. }
  inversion Hbr as [|? ? Hb Hbr']; subst. wp_step. destruct (nz b) eqn:Enb.
  2: { apply wp_ret. change (nz 2) with true. cbv iota. apply IH; auto. }
  assert (all_ready (disk v1)) as Ha1 by (intros s Hs; by apply Sd, Ha).
  apply wp_check_fs; [done|done|done|]. intros v2 S1 S2.
  destruct (Z.eq_dec b 0xFFFFFFFF) as [->|Hne].
  - specialize (S2 eq_refl). rewrite (sc_win _ _ _ _ S2). rewrite (proj2 (nz_true _) Hk).
    apply IH; auto.
    + transitivity (disk v1); [done|apply S2].
    + by rewrite (sc_win _ _ _ _ S2).
    + by rewrite (sc_win _ _ _ _ S2).
    + destruct (boot_kind_range (win (fs v1))) as [?|?]; [done|done].
  - specialize (S1 Hne). pose proof (sc_win _ _ _ _ S1) as Ew.
    destruct (nz (boot_kind (win (fs v2)))) eqn:Ek.
    + apply nz_true in Ek. apply IH; auto.
      * transitivity (disk v1); [done|apply S1].
      * rewrite Ew. apply sector_length.
      * destruct (boot_kind_range (win (fs v2))) as [?|?]; [done|done].
    + apply nz_false in Ek. apply wp_ret. rewrite Ek.
      assert (same_disk (disk v) (disk v2)) as Sd2 by (transitivity (disk v1); [done|apply S1]).
      split; [|split; [cbn; tauto|done]]. intros _. cbn. unfold is_u32 in Hb. split; [lia|].
      destruct S1 as [_ B2 B3 B4]. rewrite B3, (proj1 Sd b) in Ek. split; [|done].
      constructor; try done. rewrite B3. by apply Sd.
Qed.

Lemma LD_DWORD_range w p : is_u32 (LD_DWORD w p).
Proof. apply u32_range. Qed.

Lemma wp_find_boot v :
  all_ready (disk v) -> length (win (fs v)) = 512%nat -> wp find_boot (boot_found v) v.
Proof.
  intros Ha Hl. unfold find_boot. wp_step. apply wp_check_fs; [done|done|lia|]. intros v1 S1 _.
  specialize (S1 ltac:(lia)). pose proof (sc_win _ _ _ _ S1) as Ew.
  destruct (Z.eqb_spec (boot_kind (win (fs v1))) 1) as [E|E].
  - wp_step. apply wp_getfs. apply wp_try_partitions; auto.
    + repeat constructor; destruct (nz _); try apply LD_DWORD_range; done.
    + apply S1.
    + rewrite Ew. apply sector_length.
    + lia.
  - apply wp_ret. split; [|split; [cbn; apply boot_kind_range|apply S1]]. cbn. intros E0. split; [lia|].
    split; [done|]. by rewrite <- Ew.
Qed.

(** Reading FSINFO changes only the hints and possibly the window. *)
Lemma wp_load_fsinfo v bsect fmt (Q : unit -> vol D -> Prop) :
  all_ready (disk v) -> length (win (fs v)) = 512%nat -> 0 <= bsect < 0xFFFFFFFF ->
  wflag (fs v) = 0 -> winsect (fs v) = bsect -> win (fs v) = sector (disk v) bsect ->
  (forall v' s, geo (fs v') = geo (fs v) -> wflag (fs v') = 0 -> same_disk (disk v) (disk v') ->
     (s = bsect \/ s = bsect + 1 /\ fmt = FS_FAT32) -> winsect (fs v') = s -> win (fs v') = sector (disk v) s -> Q tt v') ->
  wp (load_fsinfo bsect fmt) Q v.
Proof.
  intros Ha Hl Hb Ew Es Ewin HQ. unfold load_fsinfo. do 3 (wp_step; apply wp_setfs). wp_step. apply wp_getfs.
  cbn [fs disk]. destruct ((fmt =? FS_FAT32) && (_ =? 1)) eqn:Ef.
  2: { apply wp_ret. apply (HQ _ bsect); try done. by left. }
  apply andb_true_iff in Ef as [Ef _]. apply Z.eqb_eq in Ef.
  wp_step. rewrite u32_small by (unfold is_u32; lia). apply wp_move_clean; cbn [fs disk]; [done|done|apply Ha; lia| |].
  { cbn. lia. }
  intros d' Sd. change (is_ok FR_OK) with true. cbv iota. wp_step. apply wp_setfs. wp_step. apply wp_getfs.
  cbn [fs disk]. destruct (_ && _ && _).
  - wp_step. apply wp_setfs, wp_setfs. apply (HQ _ (bsect + 1)); try done. by right.
  - apply wp_ret. apply (HQ _ (bsect + 1)); try done. by right.
Qed.

(** ** Consistency of a mounted volume *)

Lemma pow2_byte c : 0 < c < 256 -> Z.land c (c - 1) = 0 -> exists k, 0 <= k <= 7 /\ c = 2 ^ k.
Proof.
  intros Hc Hl.
  assert ((c =? 0) || negb (Z.land c (c - 1) =? 0) || existsb (fun k => c =? 2 ^ k) (seqZ 0 8) = true) as E.
  { apply (forall_range 256 (fun c => (c =? 0) || negb (Z.land c (c - 1) =? 0) ||
      existsb (fun k => c =? 2 ^ k) (seqZ 0 8))); [by vm_compute|lia]. }
  rewrite Hl, (proj2 (Z.eqb_neq c 0)) in E by lia. cbn [Z.eqb negb orb] in E.
  apply existsb_exists in E as (k & Hk & Ek). apply list_elem_of_In, elem_of_seqZ in Hk. apply Z.eqb_eq in Ek.
  exists k. split; [lia|done].
Qed.

(** The areas of the volume follow one another: reserved sectors, FATs, root
    directory, clusters, all inside the volume. *)
Definition areas_ok f (tsect : Z) : Prop :=
  volbase f < fatbase f /\ fatbase f + n_fats f * fsize f + n_rootdir f / 16 = database f /\
  (fs_type f <> FS_FAT32 -> dirbase f = fatbase f + n_fats f * fsize f) /\
  database f + (n_fatent f - 2) * csize f <= volbase f + tsect.

Lemma LD_WORD_range w p : 0 <= LD_WORD w p < 65536.
Proof. unfold LD_WORD, u16. by apply Z.mod_pos_bound. Qed.

Lemma tot_sec_range w : 0 <= tot_sec w < 2 ^ 32.
Proof.
  unfold tot_sec. pose proof (LD_WORD_range w BPB_TotSec16). pose proof (LD_DWORD_range w BPB_TotSec32) as Hd.
  unfold is_u32 in Hd. destruct (_ =? 0); lia.
Qed.

Lemma fat_sz_range w : 0 <= fat_sz w < 2 ^ 32.
Proof.
  unfold fat_sz. pose proof (LD_WORD_range w BPB_FATSz16). pose proof (LD_DWORD_range w BPB_FATSz32) as Hd.
  unfold is_u32 in Hd. destruct (_ =? 0); lia.
Qed.

(** The analysis without wrap-around. *)
Record geometry (w : list Z) (bsect : Z) f (fmt : Z) : Prop := {
  ge_csize : exists k, 0 <= k <= 7 /\ csize f = 2 ^ k;
  ge_nfats : n_fats f = 1 \/ n_fats f = 2;
  ge_base : volbase f = bsect /\ fatbase f = bsect + LD_WORD w BPB_RsvdSecCnt /\ 1 <= LD_WORD w BPB_RsvdSecCnt;
  ge_data : database f = fatbase f + n_fats f * fsize f + n_rootdir f / 16 /\ 0 <= n_rootdir f;
  ge_count : exists n, n_fatent f = n + 2 /\ 1 <= n <= 2 ^ 28 - 10 /\ database f + n * csize f <= bsect + tot_sec w /\
             fmt = (if n >=? MIN_FAT32 then FS_FAT32 else if n >=? MIN_FAT16 then FS_FAT16 else FS_FAT12);
  ge_dir : fmt <> FS_FAT32 -> dirbase f = fatbase f + n_fats f * fsize f;
  ge_fsize : 0 <= fsize f
}.

Lemma bpb_geometry w bsect f fmt :
  Forall is_byte w -> 0 <= bsect -> bpb_ok w bsect f fmt -> sizes_fit w bsect -> geometry w bsect f fmt.
Proof.
  intros Hw Hb [O1 [O2 O2'] (O3 & O3' & O3'') (O4 & O4' & O4'') O5 (sys & n & N1 & N2 & N3 & N4 & N5 & N6 & N7) [O6 O6'] O7 O8] (F1 & F2 & F3).
  pose proof (LD_WORD_range w BPB_RsvdSecCnt) as R1. pose proof (fat_sz_range w) as R2.
  pose proof (LD_WORD_range w BPB_RootEntCnt) as R3. pose proof (tot_sec_range w) as R4.
  pose proof (getb_byte w BPB_SecPerClus Hw) as R5. unfold is_byte in R5.
  unfold sys_sec in F1, F3. rewrite <- O2, <- O4 in F1, F3. rewrite <- O3 in F3, R5. rewrite <- O4 in R3.
  assert (0 <= n_rootdir f / 16) as R6 by (apply Z.div_pos; lia).
  assert (0 <= fat_sz w * n_fats f) as R7 by nia.
  rewrite (u32_small (fat_sz w * n_fats f)) in * by (unfold is_u32; lia).
  rewrite u32_small in N1 by (unfold is_u32; lia).
  assert (sys = LD_WORD w BPB_RsvdSecCnt + fat_sz w * n_fats f + n_rootdir f / 16) as E by done.
  rewrite <- E in F1, F3. rewrite <- N3 in F3.
  assert (0 <= n) as Hn0 by (rewrite N3; apply Z.div_pos; lia).
  assert (n * csize f <= tot_sec w - sys) as Hm by (rewrite N3; rewrite Z.mul_comm; apply Z.mul_div_le; lia).
  rewrite (u32_small (n + 2)) in N5 by (unfold is_u32; lia).
  rewrite (u32_small (bsect + sys)) in N6 by (unfold is_u32; nia).
  rewrite (u32_small (bsect + _)) in O6' by (unfold is_u32; nia).
  constructor; try done.
  - apply pow2_byte; [lia|done].
  - split; [done|]. split; [done|lia].
  - split; [|lia]. rewrite N6, O6', E, O1. lia.
  - exists n. repeat split; try done; try lia.
  - intros Hf. rewrite O7, (proj2 (Z.eqb_neq _ _) Hf), O1. rewrite u32_small; [lia|]. unfold is_u32. rewrite O6'. lia.
  - rewrite O1. apply R2.
Qed.

(** The FAT is large enough. *)
Lemma bpb_fat_geo w bsect f fmt f' :
  bpb_ok w bsect f fmt -> geometry w bsect f fmt -> fs_type f' = fmt -> n_fatent f' = n_fatent f ->
  fsize f' = fsize f -> fat_geo f' /\ 1 <= fsize f.
Proof.
  intros BO [G1 G2 G3 G4 (n & N1 & N2 & N3 & N4) G6 G7] E1 E2 E3.
  pose proof (bo_size _ _ _ _ BO) as Hs. unfold MIN_FAT32, MIN_FAT16 in N4.
  rewrite N1 in Hs. rewrite land_1_odd in Hs.
  assert (fmt = FS_FAT32 \/ fmt = FS_FAT16 /\ n < 65526 \/ fmt = FS_FAT12 /\ n < 4086) as Hfmt.
  { rewrite N4. destruct (Z.geb_spec n 65526); [by left|]. destruct (Z.geb_spec n 4086); auto. }
  clear N4. rewrite (u32_small ((n + 2) * 4)), (u32_small ((n + 2) * 2)), (u32_small ((n + 2) * 3)) in Hs
    by (unfold is_u32; lia).
  assert (0 <= (n + 2) * 3 / 2 + (n + 2) mod 2 < 2 ^ 31) as Hb by (Z.div_mod_to_equations; lia).
  rewrite (u32_small (_ / 2 + _)) in Hs by (unfold is_u32; lia).
  rewrite u32_small in Hs by (unfold is_u32; destruct (_ =? _); [|destruct (_ =? _)]; lia).
  split.
  - constructor; rewrite ?E1, ?E2, ?E3, ?N1.
    + destruct Hfmt as [-> | [[-> _]|[-> _]]]; auto.
    + unfold fat_mod. rewrite E1. destruct Hfmt as [-> | [[-> ?]|[-> ?]]]; cbn -[Z.pow Z.add]; lia.
    + unfold fat_need. rewrite E1, E2, N1. change SS with 512.
      destruct Hfmt as [-> | [[-> ?]|[-> ?]]]; cbn -[Z.pow Z.add Z.mul Z.div Z.modulo] in Hs |- *;
        clear -Hs; Z.div_mod_to_equations; lia.
  - destruct Hfmt as [-> | [[-> ?]|[-> ?]]]; cbn -[Z.pow Z.add Z.mul Z.div Z.modulo] in Hs;
      clear -Hs N2; Z.div_mod_to_equations; lia.
Qed.
End Theory.

(** ** Properties *)

Section Properties.
Context {D : Type} `{L : DiskLaws D}.
Implicit Types (v : vol D) (s : ff D).

(** An object with the geometry of an accepted boot sector, and a clean window
    that holds a sector near it, is a sound volume. *)
Lemma mounted_sound v v2 bsect f1 fm ws newid :
  all_ready (disk v) -> same_disk (disk v) (disk v2) -> 0 <= bsect ->
  bpb_ok (sector (disk v) bsect) bsect f1 fm -> sizes_fit (sector (disk v) bsect) bsect ->
  geo (fs v2) = geo f1 -> wflag (fs v2) = 0 -> ws = bsect \/ ws = bsect + 1 /\ fm = FS_FAT32 ->
  winsect (fs v2) = ws -> win (fs v2) = sector (disk v2) ws ->
  let f := set_fs_id newid (set_fs_type fm (fs v2)) in
  wf {| fs := f; disk := disk v2 |} /\ vol_geo f /\ areas_ok f (tot_sec (sector (disk v) bsect)).
Proof.
  intros Ha D02 Hb BO Fit G2 F2 Hws Es2 Ew2.
  destruct (geo_fields _ _ G2) as (_ & E2 & E3 & E4 & E5 & E6 & E7 & E8).
  assert (volbase (fs v2) = volbase f1 /\ n_fats (fs v2) = n_fats f1) as [E9 E10]
    by (unfold geo in G2; cbn in G2; split; congruence).
  assert (Forall is_byte (sector (disk v) bsect)) as Hby by apply sector_bytes.
  pose proof (bpb_geometry _ bsect f1 fm Hby ltac:(lia) BO Fit) as GE.
  set (f' := set_fs_id newid (set_fs_type fm (fs v2))). cbv zeta.
  destruct (bpb_fat_geo _ _ _ _ f' BO GE eq_refl E4 E5) as [FG Hfs].
  destruct GE as [G_cs G_nf (Gb1 & Gb2 & Gb3) (Gd1 & Gd2) (nc & N1 & N2 & N3 & N4) G_dir G_fs].
  assert (0 < csize f1) as Hcs by (destruct G_cs as (k & ? & ->); apply Z.pow_pos_nonneg; lia).
  assert (0 <= n_rootdir f1 / 16) by (apply Z.div_pos; lia).
  destruct Fit as (_ & Hfit & _).
  split; [|split].
  - constructor; cbn; rewrite ?E5, ?E6, ?E10.
    + rewrite Ew2. apply sector_length.
    + rewrite Ew2. apply sector_bytes.
    + intros _. right. split; [|by rewrite Ew2, Es2].
      unfold mirror. cbn. rewrite E5, E6. lia.
    + by rewrite F2.
    + done.
    + split; [lia|]. split; [lia|]. nia.
    + intros x Hx. apply D02, Ha. nia.
  - constructor; [exact FG| |]; cbn; rewrite ?E2, ?E4, ?E8; [done|]. split; [nia|]. nia.
  - unfold areas_ok. cbn. rewrite E2, E3, E4, E5, E6, E7, E8, E9, E10. split; [lia|].
    split; [done|]. split; [done|]. rewrite Gb1. nia.
Qed.

(** C32. Mounting is total and sound for any disk contents: when every sector
    can be read, [load_volume] returns [FR_OK] or [FR_NO_FILESYSTEM], writes
    nothing, and if it accepts a boot sector whose sizes fit in 32 bits, the
    object satisfies everything the other operations rely on: a well-formed
    window, a FAT type that fits the number of clusters, FATs that are large
    enough, a power-of-two cluster size and areas that follow one another
    inside the volume. *)
Theorem load_volume_sound v newid :
  all_ready (disk v) -> length (win (fs v)) = 512%nat ->
  wp (load_volume newid)
    (fun r v' =>
       (r = FR_OK \/ r = FR_NO_FILESYSTEM) /\ same_disk (disk v) (disk v') /\
       (r = FR_OK ->
        let f := fs v' in
        let boot := sector (disk v) (volbase f) in
        fs_id f = newid /\ boot_kind boot = 0 /\
        (sizes_fit boot (volbase f) -> wf v' /\ vol_geo f /\ areas_ok f (tot_sec boot)))) v.
Proof.
  intros Ha Hl. unfold load_volume. wp_step. eapply wp_mono; [by apply wp_find_boot|].
  intros [bsect fmt] v1 (B1 & B2 & B3). cbn [fst snd] in *.
  destruct (Z.eqb_spec fmt 3); [lia|]. destruct (nz fmt) eqn:Ef.
  { apply wp_ret. split; [by right|]. split; [done|]. intros E. discriminate E. }
  apply nz_false in Ef. destruct (B1 Ef) as (Hb & [S1 S2 S3 S4] & Hkind).
  wp_step. apply wp_analyze.
  { intros f' _ fm. change (is_ok FR_NO_FILESYSTEM) with false. cbn [negb]. apply wp_ret.
    split; [by right|]. split; [done|]. intros E. discriminate E. }
  intros f1 fm (W1 & W2 & W3 & W4) BO. change (is_ok FR_OK) with true. cbn [negb].
  assert (all_ready (disk v1)) as Ha1 by (intros x Hx; by apply B3, Ha).
  wp_step. apply wp_load_fsinfo; cbn [fs disk]; [done|rewrite W1, S3; apply sector_length|done|by rewrite W3|by rewrite W2| |].
  { rewrite W1, S3. symmetry. apply B3. }
  intros v2 ws G2 F2 D2 Hws Es2 Ew2. do 2 (wp_step; apply wp_setfs). apply wp_ret. cbn [fs disk].
  assert (same_disk (disk v) (disk v2)) as D02 by (by transitivity (disk v1)).
  split; [by left|]. split; [done|]. intros _. rewrite S3 in BO.
  assert (volbase (fs v2) = volbase f1) as E9 by (unfold geo in G2; cbn in G2; congruence).
  cbn -[sizes_fit areas_ok]. rewrite E9, (proj1 (bo_base _ _ _ _ BO)).
  split; [done|]. split; [done|]. intros Fit.
  eapply mounted_sound; try done; [lia|]. by rewrite Ew2, (proj1 D2).
Qed.

(** Unmounting or re-registering a drive invalidates every open object of
    the volume registered before: whatever mount id it carries, [validate]
    answers [FR_INVALID_OBJECT] until the volume is mounted again. *)
Theorem f_mount_invalidates s (p fsp i : Z) (path : option (list Z)) f :
  fst (get_ldnumber path) = 0 -> FatFs0 s = p -> p <> 0 -> objs s !! p = Some f ->
  (fsp = 0 \/ is_Some (objs s !! fsp)) ->
  wp (let! r1 := f_mount fsp path 0 in let! r2 := validate p i in ret (r1, r2))
    (fun '(r1, r2) _ => r1 = FR_OK /\ r2 = FR_INVALID_OBJECT) s.
Proof.
  intros Hp Hc Hz Ho Hfsp. wp_step. unfold f_mount. destruct (get_ldnumber path) as [vl path'] eqn:El.
  cbn [fst] in Hp. subst vl. cbn [Z.ltb Z.compare].
  assert (forall s1 (Q : unit -> ff D -> Prop) q, is_Some (objs s1 !! q) ->
    (forall s2, (forall g, objs s1 !! q = Some g -> objs s2 = <[q := set_fs_type 0 g]> (objs s1)) ->
       Q tt s2) -> wp (on_fs q (setfs (set_fs_type 0))) Q s1) as Hset.
  { intros s1 Q q [g Hg] HQ. unfold wp, on_fs. rewrite Hg. cbn. apply HQ. intros g' Hg'. cbn. congruence. }
  wp_step. apply wp_gets. rewrite Hc, (proj2 (nz_true p) Hz). unfold when at 1. wp_step.
  apply Hset; [by eexists|]. intros s1 E1. specialize (E1 f Ho).
  assert (exists f1, objs s1 !! p = Some f1 /\ fs_type f1 = 0) as (f1 & H1 & T1).
  { exists (set_fs_type 0 f). by rewrite E1, lookup_insert_eq. }
  wp_step. assert (forall s2, (exists f2, objs s2 !! p = Some f2 /\ fs_type f2 = 0) ->
    wp (let! _ := set_FatFs0 fsp in if (fsp =? 0) || negb (0 =? 1) then ret FR_OK
        else let! (res, _, _) := find_volume path 0 in ret res)
      (fun r1 s' => wp (let! r2 := validate p i in ret (r1, r2))
         (fun '(r1, r2) _ => r1 = FR_OK /\ r2 = FR_INVALID_OBJECT) s') s2) as Hend.
  { intros s2 (f2 & H2 & T2). wp_step. apply wp_modify. rewrite orb_true_r. apply wp_ret. wp_step.
    unfold validate. rewrite (proj2 (Z.eqb_neq p 0) Hz). unfold wp, on_fs. cbn [objs]. rewrite H2.
    unfold bind, getfs, gets, id. cbn [fs]. rewrite T2. cbn. done. }
  destruct (nz fsp) eqn:Ez; unfold when.
  - apply nz_true in Ez. destruct Hfsp as [?|Hsome]; [done|]. apply Hset.
    { rewrite E1. destruct (decide (fsp = p)) as [->|Hne]; [rewrite lookup_insert_eq; eauto|].
      by rewrite lookup_insert_ne. }
    intros s2 E2. apply Hend. destruct (decide (fsp = p)) as [->|Hne].
    + exists (set_fs_type 0 f1). by rewrite (E2 f1 H1), lookup_insert_eq.
    + destruct Hsome as [g Hg]. exists f1. rewrite (E2 g), lookup_insert_ne by (by rewrite ?E1, ?lookup_insert_ne). done.
  - apply wp_ret. apply Hend. eauto.
Qed.
End Properties.

(** ** A boot sector *)

(** FAT12, 12 sectors: one reserved, two FATs of one sector, 16 root entries. *)
Definition boot_bytes : list Z :=
  let z := replicate 512 0 in
  ST_WORD 510 0xAA55 (ST_DWORD 54 0x20544146 (ST_WORD 22 1 (ST_WORD 19 12 (ST_WORD 17 16
    (setb (ST_WORD 14 1 (setb (ST_WORD 11 512 z) 13 1)) 16 2))))).
Definition boot_vol : vol ramdisk :=
  {| fs := set_fs_type 0 demo_fs; disk := {| blocks := {[ 0 := boot_bytes ]}; nblocks := 2 ^ 32 |} |}.

Lemma load_volume_sound_witness :
  fst <$> load_volume 7 boot_vol = Some FR_OK /\
  wp (load_volume 7)
    (fun r v' =>
       (r = FR_OK \/ r = FR_NO_FILESYSTEM) /\ same_disk (disk boot_vol) (disk v') /\
       (r = FR_OK ->
        let f := fs v' in
        let boot := sector (disk boot_vol) (volbase f) in
        fs_id f = 7 /\ boot_kind boot = 0 /\
        (sizes_fit boot (volbase f) -> wf v' /\ vol_geo f /\ areas_ok f (tot_sec boot)))) boot_vol.
Proof.
  split; [by vm_compute|]. apply (load_volume_sound boot_vol 7); [|done]. intros x Hx. exact Hx.
Defined.

(** The size of the FATs wraps around: two FATs of 0x80000001 sectors count as
    two sectors, and the volume of 12 sectors is accepted. *)
Definition wrapped_vol : vol ramdisk :=
  {| fs := set_fs_type 0 demo_fs; disk := {| blocks := {[ 0 := ST_DWORD 36 0x80000001 (ST_WORD 22 0 boot_bytes) ]}; nblocks := 2 ^ 32 |} |}.
Example load_volume_wraps :
  match load_volume 7 wrapped_vol with
  | Some (r, v) => r = FR_OK /\ fsize (fs v) = 0x80000001 /\ n_fats (fs v) = 2 /\ database (fs v) = 4
  | None => False
  end.
Proof. vm_compute. repeat split. Qed.

Definition demo_ff : ff ramdisk :=
  {| objs := {[ 4096 := demo_fs ]}; FatFs0 := 4096; Fsid := 1; dev := demo_disk |}.

Lemma f_mount_invalidates_witness :
  wp (let! r1 := f_mount 0 (Some []) 0 in let! r2 := validate 4096 1 in ret (r1, r2))
    (fun '(r1, r2) _ => r1 = FR_OK /\ r2 = FR_INVALID_OBJECT) demo_ff.
Proof.
  apply (f_mount_invalidates demo_ff 4096 0 1 (Some []) demo_fs); try done. by left.
Defined.
