(* ===== verification/FatFile.v ===== *)
(** * FatFs files ([ff.c] lines 2405-2841, 2985-3134 and 3427-3474)

    Opening, reading, writing, seeking, truncating and closing.  A function
    that takes a [FIL*] receives the file object and yields its new value; its
    work on the volume runs on the object [fp->fs] points to.  [f_read] yields
    the bytes it stored, so [*br] is their number; [f_write] takes the bytes to
    write, so [btw] is their number. *)

From S2P Require Import Prelude FatBase FatAccess FatName FatDir FatVolume.

(** [DIR dj] with [INIT_BUF(dj)]: the other fields are not initialised. *)
Definition blank_sfn : list Z := replicate 12 0.
Definition new_dir (p : Z) : DIR :=
  {| d_fs := p; d_id := 0; index := 0; sclust := 0; clust := 0; sect := 0; dir := None;
     fn := blank_sfn; pat := [] |}.

Section File.
Context {D : Type} `{DiskIO D}.

(** [ABORT(fs, res)]. *)
Definition abort {A} (res : FRESULT) (fp : FIL) (a : A) : M (vol D) (FRESULT * FIL * A) :=
  ret (res, set_err res fp, a).

(** [dir[k]] for the entry at offset [off] of the window. *)
Definition win_byte (off k : Z) : M (vol D) Z := let! w := getfs win in ret (getb w (off + k)).
Definition set_win_byte (off k x : Z) : M (vol D) unit := upd_win (fun w => setb w (off + k) (u8 x)).

(** ** Open *)

Definition FA_CREATE : Z := Z.lor (Z.lor FA_CREATE_ALWAYS FA_OPEN_ALWAYS) FA_CREATE_NEW.

(** Lines 2464-2480: truncate an existing file in overwrite mode. *)
Definition overwrite (off : Z) : M (vol D) FRESULT :=
  upd_win (ST_DWORD (off + DIR_CrtTime) GET_FATTIME) ;;;
  set_win_byte off DIR_Attr 0 ;;;
  upd_win (ST_DWORD (off + DIR_FileSize) 0) ;;;
  let! f := getfs id in
  let cl := ld_clust f (win f) off in
  upd_win (st_clust off 0) ;;;
  setfs (set_wflag 1) ;;;
  if nz cl then
    let! dw := getfs winsect in
    let! res := remove_chain cl in
    if is_ok res then
      setfs (set_last_clust (u32 (cl - 1))) ;;;
      move_window dw
    else ret res
  else ret FR_OK.

(** Lines 2445-2481: create or overwrite; yields [res], [dir] and [mode]. *)
Definition open_create (res : FRESULT) (dj : DIR) (mode : Z) : M (vol D) (FRESULT * Z * Z) :=
  let! (res, off, mode) :=
    (if negb (is_ok res) then
       let! (res, dj) := (if res_eq res FR_NO_FILE then dir_register dj else ret (res, dj)) in
       ret (res, default 0 (dir dj), Z.lor mode FA_CREATE_ALWAYS)
     else
       let off := default 0 (dir dj) in
       let! a := win_byte off DIR_Attr in
       ret ((if has a (Z.lor AM_RDO AM_DIR) then FR_DENIED
             else if has mode FA_CREATE_NEW then FR_EXIST else FR_OK), off, mode)) in
  if is_ok res && has mode FA_CREATE_ALWAYS then
    let! res := overwrite off in ret (res, off, mode)
  else ret (res, off, mode).

(** Lines 2482-2491: open an existing file. *)
Definition open_existing (res : FRESULT) (dj : DIR) (mode : Z) : M (vol D) (FRESULT * Z * Z) :=
  let off := default 0 (dir dj) in
  if is_ok res then
    let! a := win_byte off DIR_Attr in
    ret ((if has a AM_DIR then FR_NO_FILE
          else if has mode FA_WRITE && has a AM_RDO then FR_DENIED else FR_OK), off, mode)
  else ret (res, off, mode).

(** Lines 2432-2528 on the volume found. *)
Definition open_file (p : Z) (path : list Z) (mode : Z) (fp : FIL) : M (vol D) (FRESULT * FIL) :=
  let! (res, dj) := follow_path (new_dir p) path in
  let res := if is_ok res && (match dir dj with None => true | _ => false end)
             then FR_INVALID_NAME else res in
  let! (res, off, mode) := (if has mode FA_CREATE then open_create res dj mode
                            else open_existing res dj mode) in
  if is_ok res then
    let mode := if has mode FA_CREATE_ALWAYS then Z.lor mode FA__WRITTEN else mode in
    let! f := getfs id in
    ret (FR_OK, {| f_fs := p; f_id := fs_id f; flag := mode; err := FR_OK; fptr := 0;
                   f_fsize := LD_DWORD (win f) (off + DIR_FileSize);
                   f_sclust := ld_clust f (win f) off; f_clust := f_clust fp; dsect := 0;
                   dir_sect := winsect f; dir_ptr := off |})
  else ret (res, fp).

Definition f_open (fp : FIL) (path : option (list Z)) (mode : Z) : M (ff D) (FRESULT * FIL) :=
  let fp := set_f_fs 0 fp in
  let mode := Z.land mode (Z.lor (Z.lor FA_READ FA_WRITE) FA_CREATE) in
  let! (res, p, path) := find_volume path (u8 (Z.land mode (Z.lnot FA_READ))) in
  if is_ok res then on_fs p (open_file p (default [] path) mode fp)
  else ret (res, fp).

(** ** Read *)

(** The checks at the head of the functions on open files: [Some] is a return. *)
Definition file_guard (fp : FIL) (access : Z) : M (ff D) (option FRESULT) :=
  let! res := validate (f_fs fp) (f_id fp) in
  ret (if negb (is_ok res) then Some res
       else if negb (is_ok (err fp)) then Some (err fp)
       else if nz access && negb (has (flag fp) access) then Some FR_DENIED
       else None).

(** [csect] and lines 2569-2586: the current cluster and sector; [inl] is an
    abort.  [follow] yields the next cluster. *)
Definition cur_sector (fp : FIL) (csect : Z) : M (vol D) (FRESULT + Z) :=
  let! f := getfs id in
  let sect := clust2sect f (f_clust fp) in
  ret (if sect =? 0 then inl FR_INT_ERR else inr (u32 (sect + csect))).

Definition read_clust (fp : FIL) : M (vol D) (FRESULT + FIL) :=
  let! clst := (if fptr fp =? 0 then ret (f_sclust fp) else get_fat (f_clust fp)) in
  ret (if clst <? 2 then inl FR_INT_ERR
       else if clst =? 0xFFFFFFFF then inl FR_DISK_ERR
       else inr (set_f_clust clst fp)).

(** Lines 2587-2603: read whole sectors; yields the bytes, or [None] on error. *)
Definition read_direct (sect cc : Z) : M (vol D) (option (list Z)) :=
  let! d := getfs drv in
  let! (r, bytes) := io (disk_read d sect cc) in
  if negb (is_res_ok r) then ret None
  else
    let! f := getfs id in
    ret (Some (if nz (wflag f) && (u32 (winsect f - sect) <? cc)
               then mem_cpy (u32 (winsect f - sect) * SS) (win f) SS bytes
               else bytes)).

(** Advance after [rcnt] bytes [data] were transferred. *)
Definition read_step (fp : FIL) (out data : list Z) (btr : Z) : FIL * list Z * Z :=
  (set_fptr (u32 (fptr fp + zlen data)) fp, out ++ data, btr - zlen data).

(** Lines 2620-2625: the rest of the current sector through the window. *)
Definition read_partial (fp : FIL) (out : list Z) (btr : Z)
    : M (vol D) (FIL * list Z * Z + FRESULT * FIL * list Z) :=
  let rcnt := SS - fptr fp mod SS in
  let rcnt := if rcnt >? btr then btr else rcnt in
  let! res := move_window (dsect fp) in
  if negb (is_ok res) then let! r := abort FR_DISK_ERR fp out in ret (inr r)
  else
    let! w := getfs win in
    ret (inl (read_step fp out (slice w (Z.to_nat (fptr fp mod SS)) (Z.to_nat rcnt)) btr)).

Definition read_body (st : FIL * list Z * Z)
    : M (vol D) (FIL * list Z * Z + FRESULT * FIL * list Z) :=
  let '(fp, out, btr) := st in
  if btr =? 0 then ret (inr (FR_OK, fp, out))
  else if fptr fp mod SS =? 0 then
    let! cs := getfs csize in
    let csect := u8 (Z.land (fptr fp / SS) (cs - 1)) in
    let! r := (if csect =? 0 then read_clust fp else ret (inr fp)) in
    match r with
    | inl e => let! r := abort e fp out in ret (inr r)
    | inr fp =>
        let! r := cur_sector fp csect in
        match r with
        | inl e => let! r := abort e fp out in ret (inr r)
        | inr sect =>
            let cc := btr / SS in
            if nz cc then
              let cc := if csect + cc >? cs then cs - csect else cc in
              let! r := read_direct sect cc in
              match r with
              | None => let! r := abort FR_DISK_ERR fp out in ret (inr r)
              | Some bytes => ret (inl (read_step fp out bytes btr))
              end
            else read_partial (set_dsect sect fp) out btr
        end
    end
  else read_partial fp out btr.

(** Lines 2562-2631. *)
Definition read_file (fp : FIL) (btr : Z) : M (vol D) (FRESULT * FIL * list Z) :=
  let remain := u32 (f_fsize fp - fptr fp) in
  let btr := if btr >? remain then remain else btr in
  loop (S (Z.to_nat btr)) read_body (fp, [], btr).

Definition f_read (fp : FIL) (btr : Z) : M (ff D) (FRESULT * FIL * list Z) :=
  let! g := file_guard fp FA_READ in
  match g with
  | Some res => ret (res, fp, [])
  | None => on_fs (f_fs fp) (read_file fp btr)
  end.

(** ** Write *)

(** Lines 2671-2687; [inl (Some e)] is an abort, [inl None] the break. *)
Definition write_clust (fp : FIL) : M (vol D) (option FRESULT + FIL) :=
  let! clst := (if fptr fp =? 0 then
                  if f_sclust fp =? 0 then create_chain 0 else ret (f_sclust fp)
                else create_chain (f_clust fp)) in
  ret (if clst =? 0 then inl None
       else if clst =? 1 then inl (Some FR_INT_ERR)
       else if clst =? 0xFFFFFFFF then inl (Some FR_DISK_ERR)
       else
         let fp := set_f_clust clst fp in
         inr (if f_sclust fp =? 0 then set_f_sclust clst fp else fp)).

(** Lines 2706-2713: write whole sectors. *)
Definition write_direct (wbuff : list Z) (sect cc : Z) : M (vol D) bool :=
  let! d := getfs drv in
  let! r := io (disk_write d (take (Z.to_nat (cc * SS)) wbuff) sect cc) in
  if negb (is_res_ok r) then ret false
  else
    let! ws := getfs winsect in
    when (u32 (ws - sect) <? cc)
      (upd_win (mem_cpy 0 (drop (Z.to_nat (u32 (ws - sect) * SS)) wbuff) SS) ;;;
       setfs (set_wflag 0)) ;;;
    ret true.

Definition write_step (fp : FIL) (wbuff : list Z) (bw wcnt : Z) : FIL * list Z * Z :=
  (set_fptr (u32 (fptr fp + wcnt)) fp, drop (Z.to_nat wcnt) wbuff, bw + wcnt).

(** Lines 2738-2744. *)
Definition write_partial (fp : FIL) (wbuff : list Z) (bw : Z)
    : M (vol D) (FIL * list Z * Z + FRESULT * FIL * Z) :=
  let btw := zlen wbuff in
  let wcnt := SS - fptr fp mod SS in
  let wcnt := if wcnt >? btw then btw else wcnt in
  let! res := move_window (dsect fp) in
  if negb (is_ok res) then let! r := abort FR_DISK_ERR fp bw in ret (inr r)
  else
    upd_win (mem_cpy (fptr fp mod SS) wbuff wcnt) ;;;
    setfs (set_wflag 1) ;;;
    ret (inl (write_step fp wbuff bw wcnt)).

(** Lines 2690-2736 behind the choice of the cluster. *)
Definition write_sector (fp : FIL) (csect cs : Z) (wbuff : list Z) (bw : Z)
    : M (vol D) (FIL * list Z * Z + FRESULT * FIL * Z) :=
  let! ws := getfs winsect in
  let! bad := (if ws =? dsect fp then let! res := sync_window in ret (negb (is_ok res)) else ret false) in
  if bad : bool then let! r := abort FR_DISK_ERR fp bw in ret (inr r) else
  let! r := cur_sector fp csect in
  match r with
  | inl e => let! r := abort e fp bw in ret (inr r)
  | inr sect =>
      let cc := zlen wbuff / SS in
      if nz cc then
        let cc := if csect + cc >? cs then cs - csect else cc in
        let! ok := write_direct wbuff sect cc in
        if ok : bool then ret (inl (write_step fp wbuff bw (SS * cc)))
        else let! r := abort FR_DISK_ERR fp bw in ret (inr r)
      else
        let! bad := (if fptr fp >=? f_fsize fp then
                       let! res := sync_window in
                       if negb (is_ok res) then ret true
                       else setfs (set_winsect sect) ;;; ret false
                     else ret false) in
        if bad : bool then let! r := abort FR_DISK_ERR fp bw in ret (inr r)
        else write_partial (set_dsect sect fp) wbuff bw
  end.

(** Lines 2751-2754. *)
Definition write_end (fp : FIL) (bw : Z) : FRESULT * FIL * Z :=
  let fp := if fptr fp >? f_fsize fp then set_f_fsize (fptr fp) fp else fp in
  (FR_OK, set_flag (Z.lor (flag fp) FA__WRITTEN) fp, bw).

Definition write_body (st : FIL * list Z * Z)
    : M (vol D) (FIL * list Z * Z + FRESULT * FIL * Z) :=
  let '(fp, wbuff, bw) := st in
  if zlen wbuff =? 0 then ret (inr (write_end fp bw))
  else if fptr fp mod SS =? 0 then
    let! cs := getfs csize in
    let csect := u8 (Z.land (fptr fp / SS) (cs - 1)) in
    let! r := (if csect =? 0 then write_clust fp else ret (inr fp)) in
    match r with
    | inl None => ret (inr (write_end fp bw))
    | inl (Some e) => let! r := abort e fp bw in ret (inr r)
    | inr fp => write_sector fp csect cs wbuff bw
    end
  else write_partial fp wbuff bw.

Definition write_file (fp : FIL) (buff : list Z) : M (vol D) (FRESULT * FIL * Z) :=
  let buff := if u32 (fptr fp + zlen buff) <? fptr fp then [] else buff in
  loop (S (length buff)) write_body (fp, buff, 0).

Definition f_write (fp : FIL) (buff : list Z) : M (ff D) (FRESULT * FIL * Z) :=
  let! g := file_guard fp FA_WRITE in
  match g with
  | Some res => ret (res, fp, 0)
  | None => on_fs (f_fs fp) (write_file fp buff)
  end.

(** ** Sync and close *)

Definition sync_file (fp : FIL) : M (vol D) (FRESULT * FIL) :=
  if has (flag fp) FA__WRITTEN then
    let! res := move_window (dir_sect fp) in
    if is_ok res then
      let off := dir_ptr fp in
      upd_win (fun w => setb w (off + DIR_Attr) (Z.lor (getb w (off + DIR_Attr)) AM_ARC)) ;;;
      upd_win (ST_DWORD (off + DIR_FileSize) (f_fsize fp)) ;;;
      upd_win (st_clust off (f_sclust fp)) ;;;
      upd_win (ST_DWORD (off + DIR_WrtTime) GET_FATTIME) ;;;
      upd_win (ST_WORD (off + DIR_LstAccDate) 0) ;;;
      setfs (set_wflag 1) ;;;
      let! res := sync_fs in
      ret (res, set_flag (Z.land (flag fp) (Z.lnot FA__WRITTEN)) fp)
    else ret (res, fp)
  else ret (FR_OK, fp).

Definition f_sync (fp : FIL) : M (ff D) (FRESULT * FIL) :=
  let! res := validate (f_fs fp) (f_id fp) in
  if is_ok res then on_fs (f_fs fp) (sync_file fp) else ret (res, fp).

Definition f_close (fp : FIL) : M (ff D) (FRESULT * FIL) :=
  let! (res, fp) := f_sync fp in
  if is_ok res then
    let! res := validate (f_fs fp) (f_id fp) in
    ret (res, if is_ok res then set_f_fs 0 fp else fp)
  else ret (res, fp).

(** ** Seek *)

(** [while (ofs > bcs) { ... }]: [inl] is an abort. *)
Definition seek_body (bcs : Z) (st : FIL * Z * Z) : M (vol D) (FIL * Z * Z + (FRESULT * FIL + FIL * Z * Z)) :=
  let '(fp, clst, ofs) := st in
  if ofs >? bcs then
    let wr := has (flag fp) FA_WRITE in
    let! clst := (if wr then create_chain clst else get_fat clst) in
    if wr && (clst =? 0) then ret (inr (inr (fp, clst, bcs)))
    else if clst =? 0xFFFFFFFF then ret (inr (inl (FR_DISK_ERR, set_err FR_DISK_ERR fp)))
    else
      let! nfe := getfs n_fatent in
      if (clst <=? 1) || (clst >=? nfe) then ret (inr (inl (FR_INT_ERR, set_err FR_INT_ERR fp)))
      else ret (inl (set_fptr (u32 (fptr fp + bcs)) (set_f_clust clst fp), clst, ofs - bcs))
  else ret (inr (inr (fp, clst, ofs))).

(** Lines 3111-3133. *)
Definition seek_end (fp : FIL) (nsect : Z) : FRESULT * FIL :=
  let fp := if nz (fptr fp mod SS) && negb (nsect =? dsect fp) then set_dsect nsect fp else fp in
  (FR_OK, if fptr fp >? f_fsize fp
          then set_flag (Z.lor (flag fp) FA__WRITTEN) (set_f_fsize (fptr fp) fp) else fp).

(** Lines 3086-3109. *)
Definition seek_follow (fp : FIL) (clst ofs bcs : Z) : M (vol D) (FRESULT * FIL) :=
  if negb (clst =? 0) then
    let! r := loop (S (Z.to_nat (ofs / SS))) (seek_body bcs) (fp, clst, ofs) in
    match r with
    | inl ab => ret ab
    | inr (fp, clst, ofs) =>
        let fp := set_fptr (u32 (fptr fp + ofs)) fp in
        if nz (ofs mod SS) then
          let! f := getfs id in
          let nsect := clust2sect f clst in
          if nsect =? 0 then ret (FR_INT_ERR, set_err FR_INT_ERR fp)
          else ret (seek_end fp (u32 (nsect + ofs / SS)))
        else ret (seek_end fp 0)
    end
  else ret (seek_end fp 0).

Definition seek_file (fp : FIL) (ofs : Z) : M (vol D) (FRESULT * FIL) :=
  let ofs := if (ofs >? f_fsize fp) && negb (has (flag fp) FA_WRITE) then f_fsize fp else ofs in
  let ifptr := fptr fp in
  let fp := set_fptr 0 fp in
  if nz ofs then
    let! cs := getfs csize in
    let bcs := u32 (cs * SS) in
    if (ifptr >? 0) && ((ofs - 1) / bcs >=? (ifptr - 1) / bcs) then
      let fp := set_fptr (Z.land (ifptr - 1) (u32 (Z.lnot (bcs - 1)))) fp in
      seek_follow fp (f_clust fp) (ofs - fptr fp) bcs
    else
      let! clst := (if f_sclust fp =? 0 then create_chain 0 else ret (f_sclust fp)) in
      if (f_sclust fp =? 0) && (clst =? 1) then ret (FR_INT_ERR, set_err FR_INT_ERR fp)
      else if (f_sclust fp =? 0) && (clst =? 0xFFFFFFFF) then ret (FR_DISK_ERR, set_err FR_DISK_ERR fp)
      else
        let fp := if f_sclust fp =? 0 then set_f_sclust clst fp else fp in
        seek_follow (set_f_clust clst fp) clst ofs bcs
  else ret (seek_end fp 0).

Definition f_lseek (fp : FIL) (ofs : Z) : M (ff D) (FRESULT * FIL) :=
  let! g := file_guard fp 0 in
  match g with
  | Some res => ret (res, fp)
  | None => on_fs (f_fs fp) (seek_file fp ofs)
  end.

(** ** Truncate *)

Definition truncate_file (fp : FIL) : M (vol D) (FRESULT * FIL) :=
  if f_fsize fp >? fptr fp then
    let fp := set_flag (Z.lor (flag fp) FA__WRITTEN) (set_f_fsize (fptr fp) fp) in
    let! (res, fp) :=
      (if fptr fp =? 0 then
         let! res := remove_chain (f_sclust fp) in ret (res, set_f_sclust 0 fp)
       else
         let! ncl := get_fat (f_clust fp) in
         let! nfe := getfs n_fatent in
         let res := if ncl =? 1 then FR_INT_ERR else if ncl =? 0xFFFFFFFF then FR_DISK_ERR else FR_OK in
         if is_ok res && (ncl <? nfe) then
           let! res := put_fat (f_clust fp) 0x0FFFFFFF in
           let! res := (if is_ok res then remove_chain ncl else ret res) in
           ret (res, fp)
         else ret (res, fp)) in
    ret (res, if is_ok res then fp else set_err res fp)
  else ret (FR_OK, fp).

Definition f_truncate (fp : FIL) : M (ff D) (FRESULT * FIL) :=
  let! g := file_guard fp FA_WRITE in
  match g with
  | Some res => ret (res, fp)
  | None => on_fs (f_fs fp) (truncate_file fp)
  end.
End File.

(** ** The contents of a file *)

Section Theory.
Context {D : Type} `{L : DiskLaws D}.
Implicit Types (v : vol D) (f : FATFS) (cl : list Z).

(** Sector number [q] of the file that occupies the clusters [cl]. *)
Definition file_sector f cl (q : Z) : Z :=
  (nth (Z.to_nat (q / csize f)) cl 0 - 2) * csize f + database f + q mod csize f.
Definition file_byte v cl (j : Z) : Z := getb (lsec v (file_sector (fs v) cl (j / SS))) (j mod SS).
Definition file_data v cl (off n : Z) : list Z := file_byte v cl <$> seqZ off n.

(** Number of sectors of the chain. *)
Definition chain_sectors f cl : Z := zlen cl * csize f.

(** The object [fp] is an open file on the clusters [cl]. *)
Record file_ok v (fp : FIL) cl : Prop := {
  fo_chain : cl = [] \/ chain v (f_sclust fp) cl;
  fo_size : 0 <= f_fsize fp <= chain_sectors (fs v) cl * SS /\ f_fsize fp < 2 ^ 32;
  fo_ptr : 0 <= fptr fp <= f_fsize fp;
  fo_clust : 0 < fptr fp -> f_clust fp = nth (Z.to_nat ((fptr fp - 1) / (csize (fs v) * SS))) cl 0;
  fo_sect : fptr fp mod SS <> 0 -> dsect fp = file_sector (fs v) cl (fptr fp / SS);
  fo_ready : forall q, 0 <= q < chain_sectors (fs v) cl ->
    ready (disk v) (file_sector (fs v) cl q) /\ ~ mirror (fs v) (file_sector (fs v) cl q) /\
    0 <= file_sector (fs v) cl q < 0xFFFFFFFF
}.

Lemma geo_file_sector f f' cl q : geo f' = geo f -> file_sector f' cl q = file_sector f cl q.
Proof. intros G. destruct (geo_fields _ _ G) as (_ & E2 & _ & _ & _ & _ & _ & E8). unfold file_sector. by rewrite E2, E8. Qed.

Lemma file_ok_view v v' fp cl :
  wf v -> fat_geo (fs v) -> same_view v v' -> file_ok v fp cl -> file_ok v' fp cl.
Proof.
  intros W FG V [F1 F2 F3 F4 F5 F6]. pose proof V as (G & S & R).
  destruct (geo_fields _ _ G) as (_ & E2 & _ & _ & _ & _ & _ & E8).
  constructor; unfold chain_sectors in *; rewrite ?E2, ?(geo_file_sector _ _ _ _ G); try done.
  - destruct F1 as [?|F1]; [by left|right]. by eapply chain_view.
  - intros q Hq. rewrite (geo_file_sector _ _ _ _ G), (geo_mirror _ _ _ G).
    destruct (F6 q Hq) as (A1 & A2 & A3). auto.
Qed.

Lemma file_byte_view v v' fp cl j :
  same_view v v' -> file_ok v fp cl -> 0 <= j < chain_sectors (fs v) cl * SS ->
  file_byte v' cl j = file_byte v cl j.
Proof.
  intros (G & S & R) FO Hj. unfold file_byte. rewrite (geo_file_sector _ _ _ _ G), S; [done|].
  apply (fo_ready v fp cl FO). unfold SS in *. Z.div_mod_to_equations. lia.
Qed.

(** *** Sectors as runs of bytes *)

Lemma slice_bytes (l : list Z) (off n : Z) :
  0 <= off -> 0 <= n -> off + n <= zlen l ->
  slice l (Z.to_nat off) (Z.to_nat n) = getb l <$> seqZ off n.
Proof.
  intros H0 Hn Hl. unfold zlen in Hl. apply list_eq. intros k. rewrite list_lookup_fmap.
  destruct (decide (Z.of_nat k < n)) as [Hk|Hk].
  - rewrite lookup_seqZ_lt by done. cbn. unfold slice. rewrite lookup_take_lt, lookup_drop by lia.
    replace (Z.to_nat off + k)%nat with (Z.to_nat (off + Z.of_nat k)) by lia. apply getb_lookup. lia.
  - rewrite lookup_seqZ_ge by lia. apply lookup_ge_None_2. unfold slice. rewrite length_take. lia.
Qed.

(** A piece of one sector of the file. *)
Lemma sector_piece v cl q o n :
  wf v -> 0 <= o -> 0 <= n -> o + n <= SS ->
  slice (lsec v (file_sector (fs v) cl q)) (Z.to_nat o) (Z.to_nat n) = file_data v cl (q * SS + o) n.
Proof.
  intros W Ho Hn Hs. rewrite slice_bytes; [|done|done|unfold zlen; by rewrite lsec_length].
  unfold file_data. apply list_eq. intros k. rewrite !list_lookup_fmap.
  destruct (decide (Z.of_nat k < n)) as [Hk|Hk].
  - rewrite !lookup_seqZ_lt by done. cbn. f_equal. unfold file_byte, SS in *.
    assert ((q * 512 + o + Z.of_nat k) / 512 = q /\ (q * 512 + o + Z.of_nat k) mod 512 = o + Z.of_nat k) as [-> ->].
    { Z.div_mod_to_equations. lia. }
    done.
  - by rewrite !lookup_seqZ_ge by lia.
Qed.

Lemma file_data_app v cl off n m : 0 <= n -> 0 <= m ->
  file_data v cl off n ++ file_data v cl (off + n) m = file_data v cl off (n + m).
Proof. intros. unfold file_data. by rewrite <- fmap_app, seqZ_app. Qed.

Lemma file_data_length v cl off n : length (file_data v cl off n) = Z.to_nat n.
Proof. unfold file_data. by rewrite length_fmap, length_seqZ. Qed.

(** Consecutive sectors inside a cluster. *)
Lemma file_sector_run f cl q i : 0 < csize f -> 0 <= q -> 0 <= i -> q mod csize f + i < csize f ->
  file_sector f cl (q + i) = file_sector f cl q + i.
Proof.
  intros Hc Hq Hi Hb. unfold file_sector. pose proof (Z.div_mod q (csize f) ltac:(lia)) as E.
  pose proof (Z.mod_pos_bound q (csize f) ltac:(lia)) as B.
  assert ((q + i) / csize f = q / csize f) as ->.
  { symmetry. apply (Z.div_unique _ _ _ (q mod csize f + i)); lia. }
  assert ((q + i) mod csize f = q mod csize f + i) as ->.
  { symmetry. apply (Z.mod_unique _ _ (q / csize f)); lia. }
  lia.
Qed.

Lemma sector_run v cl q : forall (n : nat),
  wf v -> 0 < csize (fs v) -> 0 <= q -> q mod csize (fs v) + Z.of_nat n <= csize (fs v) ->
  concat (lsec v <$> seqZ (file_sector (fs v) cl q) (Z.of_nat n)) = file_data v cl (q * SS) (Z.of_nat n * SS).
Proof.
  induction n as [|n IH]; intros W Hc Hq Hn; [done|].
  replace (Z.of_nat (S n)) with (Z.of_nat n + 1) by lia. rewrite seqZ_app by lia.
  rewrite fmap_app, concat_app, IH by (done || lia). rewrite Z.mul_add_distr_r.
  rewrite <- file_data_app by (unfold SS; lia). f_equal.
  change (seqZ ?s 1) with [s]. cbn [fmap list_fmap concat]. rewrite app_nil_r.
  rewrite <- file_sector_run by lia.
  pose proof (sector_piece v cl (q + Z.of_nat n) 0 SS W ltac:(lia) ltac:(done) ltac:(lia)) as P.
  rewrite slice_all in P by (by apply lsec_length). rewrite P. f_equal. lia.
Qed.

(** *** Direct transfers *)

Lemma splice_concat (g : Z -> list Z) (w : list Z) x : forall (n : nat) s,
  (forall y, length (g y) = 512%nat) -> length w = 512%nat -> s <= x < s + Z.of_nat n ->
  splice (concat (g <$> seqZ s (Z.of_nat n))) (Z.to_nat ((x - s) * 512)) w =
  concat ((fun y => if y =? x then w else g y) <$> seqZ s (Z.of_nat n)).
Proof.
  induction n as [|n IH]; intros s Hg Hw Hx; [lia|].
  rewrite seqZ_cons by lia. replace (Z.pred (Z.of_nat (S n))) with (Z.of_nat n) by lia.
  cbn [fmap list_fmap concat]. change (list_fmap Z (list Z) ?h ?l) with (h <$> l).
  destruct (Z.eqb_spec s x) as [->|Hne].
  - replace (Z.to_nat ((x - x) * 512)) with 0%nat by lia. unfold splice. rewrite take_0, app_nil_l, Hw.
    rewrite drop_app_ge by (rewrite Hg; lia). rewrite Hg, Nat.add_0_l, Nat.sub_diag, drop_0. f_equal.
    f_equal. apply list_fmap_ext. intros i y Hy. apply lookup_seqZ in Hy as [-> _].
    by rewrite (proj2 (Z.eqb_neq _ _)) by lia.
  - rewrite <- IH by (done || lia).
    replace (Z.to_nat ((x - s) * 512)) with (length (g s) + Z.to_nat ((x - Z.succ s) * 512))%nat by (rewrite Hg; lia).
    unfold splice. rewrite take_app_add, <- app_assoc. f_equal. f_equal. f_equal.
    rewrite drop_app_ge by lia. f_equal. lia.
Qed.

Lemma u32_window_range ws s n : 0 <= ws < 2 ^ 32 -> 0 <= s -> s + n <= 2 ^ 32 -> 0 < n ->
  (u32 (ws - s) <? n) = ((s <=? ws) && (ws <? s + n)).
Proof.
  intros Hw Hs Hn H0. unfold u32. destruct (Z.leb_spec s ws) as [Hle|Hlt]; cbn [andb].
  - rewrite Z.mod_small by lia. destruct (Z.ltb_spec (ws - s) n), (Z.ltb_spec ws (s + n)); lia || done.
  - rewrite <- (Z.mod_add _ 1), Z.mod_small by lia. apply Z.ltb_ge. lia.
Qed.

Lemma wp_read_direct v s cc (Q : option (list Z) -> vol D -> Prop) :
  wf v -> 0 < cc -> 0 <= s -> s + cc <= 2 ^ 32 -> (forall x, s <= x < s + cc -> ready (disk v) x) ->
  (forall v', wf v' -> same_view v v' -> same_alloc (fs v) (fs v') ->
     Q (Some (concat (lsec v <$> seqZ s cc))) v') ->
  wp (read_direct s cc) Q v.
Proof.
  intros W Hc Hs Hcc Hr HQ. unfold read_direct. wp_step. apply wp_getfs. wp_step. apply wp_io.
  eapply wp_mono; [by apply disk_read_law|]. intros [r bytes] d' (-> & -> & E & R).
  change (is_res_ok RES_OK) with true. cbn [negb]. wp_step. apply wp_getfs. apply wp_ret. unfold id. cbn [fs].
  assert (wf (Build_vol (fs v) d') /\ same_view v (Build_vol (fs v) d')) as [W' V'].
  { split.
    - destruct W as [W1 W2 W3 W4 W5 W6 W7]. constructor; cbn; auto.
      + intros Ew. destruct (W3 Ew) as [?|[? ?]]; [by left|right]. by rewrite E.
      + intros Ew. destruct (W4 Ew) as (? & ? & ?). auto.
    - split; [done|]. split; [|done]. intros x _. unfold lsec. cbn. by rewrite E. }
  assert (forall x, lsec v x = if nz (wflag (fs v)) && (x =? winsect (fs v)) then win (fs v) else sector (disk v) x) as El by done.
  destruct (nz (wflag (fs v))) eqn:Ew; cbn [andb].
  2: { replace (concat (sector (disk v) <$> seqZ s cc)) with (concat (lsec v <$> seqZ s cc)); [by apply HQ|].
       f_equal. apply list_fmap_ext. intros i x _. by rewrite El. }
  apply nz_true in Ew. destruct (wf_dirty v W Ew) as (_ & _ & Hws).
  rewrite u32_window_range by lia.
  destruct ((s <=? winsect (fs v)) && (winsect (fs v) <? s + cc)) eqn:Ein.
  - apply andb_true_iff in Ein as [E1 E2]. apply Z.leb_le in E1. apply Z.ltb_lt in E2.
    replace (mem_cpy _ _ _ _) with (concat (lsec v <$> seqZ s cc)); [by apply HQ|].
    unfold mem_cpy. rewrite u32_small by (unfold is_u32; lia). change (Z.to_nat SS) with 512%nat.
    rewrite take_ge by (rewrite (wf_len v W); lia). change SS with 512.
    rewrite <- (Z2Nat.id cc) by lia. rewrite splice_concat; [|apply sector_length|apply W|lia].
    f_equal. apply list_fmap_ext. intros i x _. by rewrite El.
  - replace (concat (sector (disk v) <$> seqZ s cc)) with (concat (lsec v <$> seqZ s cc)); [by apply HQ|].
    f_equal. apply list_fmap_ext. intros i x Hx. apply lookup_seqZ in Hx as [-> Hi]. rewrite El.
    rewrite (proj2 (Z.eqb_neq _ _)); [done|]. intros Ex. rewrite <- Ex in Ein.
    rewrite (proj2 (Z.leb_le _ _)), (proj2 (Z.ltb_lt _ _)) in Ein by lia. done.
Qed.

(** *** Reading *)

(** Arithmetic of the file pointer: [bcs] bytes in a cluster of [cs] sectors. *)
Lemma ptr_clust p cs : 0 < cs -> 0 < p ->
  (p - 1) / (cs * 512) = if p mod (cs * 512) =? 0 then p / (cs * 512) - 1 else p / (cs * 512).
Proof.
  intros Hc Hp. pose proof (Z.div_mod p (cs * 512) ltac:(lia)) as E.
  pose proof (Z.mod_pos_bound p (cs * 512) ltac:(lia)) as B.
  destruct (Z.eqb_spec (p mod (cs * 512)) 0) as [E0|E0]; symmetry.
  - apply (Z.div_unique _ _ _ (cs * 512 - 1)); [lia|]. lia.
  - apply (Z.div_unique _ _ _ (p mod (cs * 512) - 1)); lia.
Qed.

Lemma ptr_split p cs : 0 < cs -> 0 <= p -> p mod 512 = 0 ->
  p / (cs * 512) = p / 512 / cs /\ (p mod (cs * 512) = 0 <-> p / 512 mod cs = 0).
Proof.
  intros Hc Hp Hm. rewrite (Z.mul_comm cs), <- Z.div_div by lia. split; [done|].
  rewrite Z.rem_mul_r, Hm by lia. lia.
Qed.

(** The next piece stays in the cluster of the pointer. *)
Lemma ptr_advance p n cs : 0 < cs -> 0 <= p -> 0 < n -> p mod (cs * 512) + n <= cs * 512 ->
  (p + n - 1) / (cs * 512) = p / (cs * 512).
Proof.
  intros Hc Hp Hn Hb. pose proof (Z.div_mod p (cs * 512) ltac:(lia)) as E.
  pose proof (Z.mod_pos_bound p (cs * 512) ltac:(lia)) as B. symmetry.
  apply (Z.div_unique _ _ _ (p mod (cs * 512) + n - 1)); lia.
Qed.

(** Two values of one file object that differ in the position only. *)
Definition same_file (fp fp' : FIL) : Prop :=
  f_fsize fp' = f_fsize fp /\ f_sclust fp' = f_sclust fp /\ flag fp' = flag fp /\ err fp' = err fp /\
  f_fs fp' = f_fs fp /\ f_id fp' = f_id fp /\ dir_sect fp' = dir_sect fp /\ dir_ptr fp' = dir_ptr fp.

#[export] Instance same_file_preorder : PreOrder same_file.
Proof.
  split; [done|]. intros a b c (?&?&?&?&?&?&?&?) (?&?&?&?&?&?&?&?). repeat split; congruence.
Qed.

(** The state of the loop after [fptr fp' - fptr fp] bytes. *)
Record reading v (fp : FIL) cl (total : Z) (st : FIL * list Z * Z) v' : Prop := {
  rd_wf : wf v';
  rd_view : same_view v v';
  rd_alloc : same_alloc (fs v) (fs v');
  rd_file : file_ok v (fst (fst st)) cl;
  rd_fields : exists k, 0 <= k <= total /\ fptr (fst (fst st)) = fptr fp + k /\
              snd (fst st) = file_data v cl (fptr fp) k /\ snd st = total - k;
  rd_same : same_file fp (fst (fst st))
}.

(** Advancing over [n] bytes read from the pointer on. *)
Lemma reading_step v fp cl total fp1 out btr v1 fp2 n v2 :
  vol_geo (fs v) -> reading v fp cl total (fp1, out, btr) v1 -> fptr fp + total <= f_fsize fp ->
  0 < n <= btr -> wf v2 -> same_view v1 v2 -> same_alloc (fs v1) (fs v2) ->
  fptr fp1 mod (csize (fs v) * 512) + n <= csize (fs v) * 512 ->
  fptr fp2 = fptr fp1 -> same_file fp1 fp2 ->
  f_clust fp2 = nth (Z.to_nat (fptr fp1 / (csize (fs v) * 512))) cl 0 ->
  ((fptr fp1 + n) mod SS <> 0 -> dsect fp2 = file_sector (fs v) cl ((fptr fp1 + n) / SS)) ->
  reading v fp cl total (read_step fp2 out (file_data v cl (fptr fp1) n) btr) v2.
Proof.
  intros VG [R1 R2 R3 [O1 O2 O3 O4 O5 O6] (k & K1 & K2 & K3 & K4) R6] Htot Hn W2 V2 A2 Hin E1 SF Ec Ed.
  cbn [fst snd] in *. pose proof (csize_pos _ VG) as Hcs. pose proof R6 as (Ef & _). pose proof SF as (E2 & E3 & _). unfold read_step.
  assert (zlen (file_data v cl (fptr fp1) n) = n) as El by (unfold zlen; rewrite file_data_length; lia).
  rewrite El, E1. rewrite u32_small by (unfold is_u32; lia).
  constructor; cbn [fst snd]; [done|by transitivity v1|by transitivity (fs v1)| | |].
  - constructor; cbn; try done.
    + by rewrite E3.
    + by rewrite E2.
    + rewrite E2. lia.
    + intros _. rewrite Ec. change SS with 512. f_equal. f_equal. symmetry. apply ptr_advance; lia.
  - exists (k + n). split; [lia|]. split; [cbn; lia|]. split; [|lia].
    rewrite K3, K2. apply file_data_app; lia.
  - cbn. etransitivity; [exact R6|exact SF].
Qed.

(** The rest of a sector through the window. *)
Lemma wp_read_partial v fp cl total fp1 out btr v1 fp2 (Q : _ -> vol D -> Prop) :
  wf v -> vol_geo (fs v) -> reading v fp cl total (fp1, out, btr) v1 -> fptr fp + total <= f_fsize fp -> 0 < btr ->
  fptr fp2 = fptr fp1 -> same_file fp1 fp2 ->
  f_clust fp2 = nth (Z.to_nat (fptr fp1 / (csize (fs v) * 512))) cl 0 ->
  dsect fp2 = file_sector (fs v) cl (fptr fp1 / SS) ->
  (forall st v', reading v fp cl total st v' -> snd st < btr -> Q (inl st) v') ->
  wp (read_partial fp2 out btr) Q v1.
Proof.
  intros W VG RD Htot Hb E1 SF Ec Ed HQ. pose proof RD as [R1 R2 R3 R4 (k & K1 & K2 & K3 & K4) R6].
  cbn [fst snd] in *. pose proof (csize_pos _ VG) as Hcs. pose proof (fo_ptr _ _ _ R4) as Hp.
  pose proof (fo_size _ _ _ R4) as [Hsz _]. pose proof R6 as (Ef & _).
  unfold read_partial. set (p := fptr fp1) in *. rewrite E1. pose proof (Z.mod_pos_bound p SS ltac:(done)) as Bm.
  set (n := if SS - p mod SS >? btr then btr else SS - p mod SS).
  assert (0 < n <= btr /\ n <= SS - p mod SS) as [Hn Hn2].
  { unfold n. destruct (Z.gtb_spec (SS - p mod SS) btr); lia. }
  assert (0 <= p / SS < chain_sectors (fs v) cl) as Hq.
  { unfold SS in *. Z.div_mod_to_equations. lia. }
  destruct (fo_ready _ _ _ R4 _ Hq) as (Rd1 & Rd2 & Rd3). rewrite Ed.
  wp_step. apply wp_move_window; [done|by apply R2|by rewrite (geo_mirror _ _ _ (proj1 R2))|done|].
  intros v2 W2 V2 _ Ew A1 A2 A3. change (is_ok FR_OK) with true. cbn [negb]. wp_step. apply wp_getfs. apply wp_ret.
  rewrite Ew, (proj1 (proj2 R2)) by done. rewrite sector_piece by (done || lia).
  assert (p / SS * SS + p mod SS = p) as -> by (pose proof (Z.div_mod p SS ltac:(done)); lia).
  apply HQ.
  - apply (reading_step v fp cl total fp1 out btr v1); try done.
    + pose proof (Z.rem_mul_r p 512 (csize (fs v)) ltac:(lia) ltac:(lia)) as Er. rewrite (Z.mul_comm 512) in Er.
      fold p. rewrite Er. pose proof (Z.mod_pos_bound (p / 512) (csize (fs v)) ltac:(lia)). unfold SS in *. lia.
    + intros Hne. fold p. rewrite Ed. f_equal. unfold SS in *. Z.div_mod_to_equations. lia.
  - unfold read_step. cbn. unfold zlen. rewrite file_data_length. lia.
Qed.

(** The index of the pointer's cluster is inside the chain. *)
Lemma ptr_in_chain f cl p : 0 < csize f -> 0 <= p < chain_sectors f cl * SS ->
  (Z.to_nat (p / (csize f * 512)) < length cl)%nat.
Proof.
  intros Hc Hp. unfold chain_sectors, SS, zlen in Hp.
  assert (p / (csize f * 512) < Z.of_nat (length cl)) by (apply Z.div_lt_upper_bound; nia).
  assert (0 <= p / (csize f * 512)) by (apply Z.div_pos; lia). lia.
Qed.

(** On a cluster boundary the chain is followed by one link. *)
Lemma wp_read_clust v v1 fp cl (Q : _ -> vol D -> Prop) :
  wf v -> vol_geo (fs v) -> wf v1 -> same_view v v1 -> file_ok v fp cl -> fptr fp < f_fsize fp ->
  fptr fp mod (csize (fs v) * 512) = 0 ->
  (forall v', wf v' -> same_view v1 v' -> same_alloc (fs v1) (fs v') ->
     Q (inr (set_f_clust (nth (Z.to_nat (fptr fp / (csize (fs v) * 512))) cl 0) fp)) v') ->
  wp (read_clust fp) Q v1.
Proof.
  intros W VG W1 V1 FO Hlt Hm HQ. pose proof (csize_pos _ VG) as Hcs. pose proof (vg_fat _ VG) as FG.
  destruct FO as [O1 O2 O3 O4 O5 O6]. set (p := fptr fp) in *.
  pose proof (ptr_in_chain (fs v) cl p ltac:(lia) ltac:(lia)) as Hk.
  destruct O1 as [->|Hch]; [cbn in Hk; lia|].
  set (k := Z.to_nat (p / (csize (fs v) * 512))) in *.
  pose proof (chain_nth v _ cl k Hch Hk) as [Hv1 Hv2]. pose proof (fg_bound _ FG) as Hb.
  assert (wp (if p =? 0 then ret (f_sclust fp) else get_fat (f_clust fp))
    (fun c v' => c = nth k cl 0 /\ wf v' /\ same_view v1 v' /\ same_alloc (fs v1) (fs v')) v1) as Hget.
  { destruct (Z.eqb_spec p 0) as [E0|E0].
    - apply wp_ret. split; [|done]. unfold k. rewrite E0. rewrite Z.div_0_l by lia.
      destruct (chain_head _ _ _ Hch) as [_ <-]; [intros Enil; rewrite Enil in Hk; cbn in Hk; lia|].
      by destruct cl.
    - pose proof (ptr_clust p (csize (fs v)) ltac:(lia) ltac:(lia)) as Ep. rewrite Hm in Ep. cbn [Z.eqb] in Ep.
      assert (1 <= p / (csize (fs v) * 512)) as Hq1.
      { pose proof (Z.div_mod p (csize (fs v) * 512) ltac:(lia)). nia. }
      assert (f_clust fp = nth (k - 1) cl 0) as Ec.
      { rewrite O4 by lia. f_equal. change SS with 512. rewrite Ep. unfold k. lia. }
      destruct (chain_next v _ cl (k - 1) Hch ltac:(lia)) as (_ & N2 & _).
      replace (S (k - 1)) with k in N2 by (unfold k in *; lia). specialize (N2 Hk).
      pose proof (chain_nth v _ cl (k - 1) Hch ltac:(lia)) as Hvp. rewrite Ec.
      assert (n_fatent (fs v1) = n_fatent (fs v)) as En by apply (geo_fields _ _ (proj1 V1)).
      apply wp_get_fat; [done|by eapply geo_fat_geo; [apply V1|]|by unfold valid_clust in *; rewrite En|].
      intros v' W' V' A'. rewrite (fat_entry_view v v1) by done. by rewrite N2. }
  unfold read_clust. wp_step. eapply wp_mono; [exact Hget|]. intros c v' (-> & W' & V' & A'). apply wp_ret.
  rewrite (proj2 (Z.ltb_ge _ 2)), (proj2 (Z.eqb_neq _ 0xFFFFFFFF)) by lia. by apply HQ.
Qed.

(** The cluster of the pointer, on a sector boundary. *)
Lemma wp_pointer_clust v v1 fp cl (Q : _ -> vol D -> Prop) :
  wf v -> vol_geo (fs v) -> wf v1 -> same_view v v1 -> file_ok v fp cl -> fptr fp < f_fsize fp ->
  fptr fp mod SS = 0 ->
  (forall v', wf v' -> same_view v1 v' -> same_alloc (fs v1) (fs v') ->
     Q (inr (set_f_clust (nth (Z.to_nat (fptr fp / (csize (fs v) * 512))) cl 0) fp)) v') ->
  wp (if fptr fp / SS mod csize (fs v) =? 0 then read_clust fp else ret (inr fp)) Q v1.
Proof.
  intros W VG W1 V1 FO Hlt Em HQ. pose proof (csize_pos _ VG) as Hcs. pose proof (fo_ptr _ _ _ FO) as Hp.
  destruct (ptr_split (fptr fp) (csize (fs v)) ltac:(lia) ltac:(lia) Em) as [Sp1 Sp2].
  destruct (Z.eqb_spec (fptr fp / SS mod csize (fs v)) 0) as [E0|E0].
  - apply (wp_read_clust v v1 fp cl); try done. by apply Sp2.
  - apply wp_ret. assert (fptr fp <> 0) as Hne.
    { intros E. rewrite E in E0. by rewrite Z.mod_0_l in E0 by lia. }
    assert (f_clust fp = nth (Z.to_nat (fptr fp / (csize (fs v) * 512))) cl 0) as Ec.
    { rewrite (fo_clust _ _ _ FO) by lia. change SS with 512. rewrite ptr_clust by lia.
      rewrite (proj2 (Z.eqb_neq _ 0)); [done|]. intros E. apply E0. by apply Sp2. }
    rewrite <- Ec in HQ. replace fp with (set_f_clust (f_clust fp) fp) by (by destruct fp). by apply HQ.
Qed.

(** Whole sectors. *)
Lemma wp_read_whole v fp cl total fp1 out btr v1 (Q : option (list Z) -> vol D -> Prop) :
  wf v -> vol_geo (fs v) -> reading v fp cl total (fp1, out, btr) v1 -> fptr fp + total <= f_fsize fp ->
  fptr fp1 mod SS = 0 -> btr / SS <> 0 ->
  let csect := fptr fp1 / SS mod csize (fs v) in
  let cc := if csect + btr / SS >? csize (fs v) then csize (fs v) - csect else btr / SS in
  (forall v', wf v' -> same_view v1 v' -> same_alloc (fs v1) (fs v') -> 0 < cc * SS <= btr ->
     fptr fp1 mod (csize (fs v) * 512) + cc * SS <= csize (fs v) * 512 ->
     Q (Some (file_data v cl (fptr fp1) (cc * SS))) v') ->
  wp (read_direct (file_sector (fs v) cl (fptr fp1 / SS)) cc) Q v1.
Proof.
  intros W VG RD Htot Em Hne csect cc HQ. pose proof RD as [R1 R2 R3 R4 (k & K1 & K2 & K3 & K4) (Efs & _)].
  cbn [fst snd] in *. pose proof (csize_pos _ VG) as Hcs. pose proof (fo_ptr _ _ _ R4) as Hp.
  pose proof (fo_size _ _ _ R4) as [Hsz _]. set (p := fptr fp1) in *. set (cs := csize (fs v)) in *.
  assert (0 <= p / SS) as Hq0 by (apply Z.div_pos; unfold SS; lia).
  pose proof (Z.mod_pos_bound (p / SS) cs ltac:(lia)) as Bc. fold csect in Bc.
  assert (0 < cc /\ csect + cc <= cs /\ cc * 512 <= btr) as (C1 & C2 & C3).
  { assert (0 < btr / SS /\ btr / SS * 512 <= btr) as [B1 B2].
    { unfold SS in *. Z.div_mod_to_equations. lia. }
    unfold cc. destruct (Z.gtb_spec (csect + btr / SS) cs); nia. }
  assert (0 <= p / SS < chain_sectors (fs v) cl) as Hq.
  { split; [done|]. apply Z.div_lt_upper_bound; unfold SS in *; lia. }
  assert (p / SS + cc <= chain_sectors (fs v) cl) as Hlast.
  { unfold chain_sectors in *. fold cs in Hsz, Hq |- *. pose proof (Z.div_mod (p / SS) cs ltac:(lia)) as Ed.
    fold csect in Ed. assert (p / SS / cs < zlen cl) by (apply Z.div_lt_upper_bound; lia). nia. }
  assert (forall x, file_sector (fs v) cl (p / SS) <= x < file_sector (fs v) cl (p / SS) + cc ->
            ready (disk v) x /\ ~ mirror (fs v) x /\ 0 <= x < 0xFFFFFFFF) as Hx.
  { intros x Hx. replace x with (file_sector (fs v) cl (p / SS + (x - file_sector (fs v) cl (p / SS)))).
    - apply (fo_ready _ _ _ R4). lia.
    - rewrite file_sector_run; fold cs csect; lia. }
  pose proof (Hx (file_sector (fs v) cl (p / SS)) ltac:(lia)) as (_ & _ & X1).
  pose proof (Hx (file_sector (fs v) cl (p / SS) + cc - 1) ltac:(lia)) as (_ & _ & X2).
  apply wp_read_direct; [done|done|lia|lia|intros x Hxx; by apply R2, Hx|].
  intros v' W' V' A'.
  assert (concat (lsec v1 <$> seqZ (file_sector (fs v) cl (p / SS)) cc) = file_data v cl p (cc * SS)) as ->.
  { transitivity (concat (lsec v <$> seqZ (file_sector (fs v) cl (p / SS)) cc)).
    - f_equal. apply list_fmap_ext. intros i x Hi. apply lookup_seqZ in Hi as [-> Hi]. apply R2, Hx. lia.
    - rewrite <- (Z2Nat.id cc) by lia. rewrite sector_run; [|done|fold cs; lia|done|fold cs csect; lia].
      f_equal. pose proof (Z.div_mod p SS ltac:(done)). lia. }
  apply HQ; try done; unfold SS in *; [lia|].
  pose proof (Z.rem_mul_r p 512 cs ltac:(lia) ltac:(lia)) as Er. rewrite (Z.mul_comm 512) in Er.
  rewrite Er, Em. fold csect. lia.
Qed.

(** One round of the loop. *)
Lemma wp_read_round v fp cl total st v1 :
  wf v -> vol_geo (fs v) -> reading v fp cl total st v1 -> fptr fp + total <= f_fsize fp -> snd st <> 0 ->
  wp (read_body st)
    (fun r v' => match r with
                 | inl st' => reading v fp cl total st' v' /\ snd st' < snd st
                 | inr _ => False
                 end) v1.
Proof.
  intros W VG RD Htot Hbtr. destruct st as [[fp1 out] btr]. cbn [snd] in *.
  pose proof RD as [R1 R2 R3 R4 (k & K1 & K2 & K3 & K4) R6]. cbn [fst snd] in *.
  pose proof (csize_pos _ VG) as Hcs. pose proof (fo_ptr _ _ _ R4) as Hp.
  pose proof (fo_size _ _ _ R4) as [Hsz _]. pose proof R6 as (Efs & _).
  destruct (geo_fields _ _ (proj1 R2)) as (_ & G2 & _ & _ & _ & _ & _ & _).
  unfold read_body. rewrite (proj2 (Z.eqb_neq btr 0) Hbtr). destruct (Z.eqb_spec (fptr fp1 mod SS) 0) as [Em|Em].
  2: { apply (wp_read_partial v fp cl total fp1 out btr v1); try done; [lia| |by apply (fo_sect _ _ _ R4)].
       assert (fptr fp1 <> 0) as Hp0 by (intros E; by rewrite E in Em).
       rewrite (fo_clust _ _ _ R4) by lia. change SS with 512.
       rewrite ptr_clust by lia. destruct (Z.eqb_spec (fptr fp1 mod (csize (fs v) * 512)) 0) as [E|]; [|done].
       exfalso. apply Em. unfold SS. apply (Z.mod_divide (fptr fp1) 512); [lia|].
       apply (Z.mod_divide (fptr fp1)) in E; [|lia]. etransitivity; [|exact E]. by exists (csize (fs v)). }
  wp_step. apply wp_getfs. rewrite G2.
  assert (0 <= fptr fp1 / SS) as Hq0 by (apply Z.div_pos; unfold SS; lia).
  rewrite csize_mask by done. pose proof (Z.mod_pos_bound (fptr fp1 / SS) (csize (fs v)) ltac:(lia)) as Bc.
  rewrite u8_small by (unfold is_byte; lia).
  wp_step. apply (wp_pointer_clust v v1 fp1 cl); try done; [lia|]. intros v2 W2 V2 A2. cbv iota.
  assert (same_view v v2) as V02 by (by transitivity v1).
  assert (reading v fp cl total (fp1, out, btr) v2) as RD2.
  { constructor; try done; [by transitivity (fs v1)|]. by exists k. }
  wp_step. unfold cur_sector. wp_step. apply wp_getfs. apply wp_ret. unfold id. cbn [f_clust set_f_clust].
  pose proof (ptr_in_chain (fs v) cl (fptr fp1) ltac:(lia) ltac:(lia)) as Hk.
  destruct (fo_chain _ _ _ R4) as [Enil|Hch]; [rewrite Enil in Hk; cbn in Hk; lia|].
  pose proof (chain_nth v _ cl _ Hch Hk) as Hv.
  destruct (geo_fields _ _ (proj1 V02)) as (_ & H2 & _ & H4 & _ & _ & _ & H8).
  destruct (clust2sect_spec (fs v2) (nth (Z.to_nat (fptr fp1 / (csize (fs v) * 512))) cl 0)) as [Ecs Hpos];
    [by eapply geo_vol_geo; [apply V02|]|by unfold valid_clust in *; rewrite H4|].
  rewrite (proj2 (Z.eqb_neq (clust2sect _ _) 0)) by lia. cbv iota.
  assert (0 <= fptr fp1 / SS < chain_sectors (fs v) cl) as Hq.
  { split; [done|]. apply Z.div_lt_upper_bound; unfold SS in *; lia. }
  destruct (fo_ready _ _ _ R4 _ Hq) as (_ & _ & Rd3).
  assert (clust2sect (fs v2) (nth (Z.to_nat (fptr fp1 / (csize (fs v) * 512))) cl 0) + fptr fp1 / SS mod csize (fs v) =
          file_sector (fs v) cl (fptr fp1 / SS)) as Esec.
  { rewrite Ecs, H2, H8. unfold file_sector. change SS with 512.
    by rewrite (proj1 (ptr_split (fptr fp1) (csize (fs v)) ltac:(lia) ltac:(lia) Em)). }
  rewrite Esec, u32_small by (unfold is_u32; lia).
  destruct (nz (btr / SS)) eqn:Ecc.
  - apply nz_true in Ecc. wp_step. apply (wp_read_whole v fp cl total fp1 out btr v2); try done.
    intros v3 W3 V3 A3 C1 C2. cbv iota. apply wp_ret.
    split.
    + apply (reading_step v fp cl total fp1 out btr v2); try done. intros Hne. exfalso. apply Hne.
      by rewrite Z.mod_add.
    + unfold read_step. cbn [snd]. unfold zlen. rewrite file_data_length. lia.
  - apply (wp_read_partial v fp cl total fp1 out btr v2); try done. lia.
Qed.

(** Reading at the pointer returns the bytes of the file. *)
Lemma wp_read_file v fp cl btr (Q : FRESULT * FIL * list Z -> vol D -> Prop) :
  wf v -> vol_geo (fs v) -> file_ok v fp cl -> 0 <= btr ->
  let n := Z.min btr (f_fsize fp - fptr fp) in
  (forall fp' v', wf v' -> same_view v v' -> same_alloc (fs v) (fs v') -> file_ok v' fp' cl ->
     fptr fp' = fptr fp + n -> same_file fp fp' ->
     Q (FR_OK, fp', file_data v cl (fptr fp) n) v') ->
  wp (read_file fp btr) Q v.
Proof.
  intros W VG FO Hb n HQ. pose proof (fo_ptr _ _ _ FO) as Hp. pose proof (fo_size _ _ _ FO) as [Hsz Hsz2].
  unfold read_file. rewrite u32_small by (unfold is_u32; lia).
  assert ((if btr >? f_fsize fp - fptr fp then f_fsize fp - fptr fp else btr) = n) as ->.
  { unfold n. destruct (Z.gtb_spec btr (f_fsize fp - fptr fp)); lia. }
  apply (wp_loop (reading v fp cl n) (fun st _ => Z.to_nat (snd st))).
  - intros st v1 RD. destruct (Z.eq_dec (snd st) 0) as [E0|E0].
    + destruct st as [[fp1 out] b]. cbn in E0. subst b. unfold read_body. cbn [Z.eqb]. apply wp_ret.
      destruct RD as [R1 R2 R3 R4 (k & K1 & K2 & K3 & K4) SF]. cbn [fst snd] in *.
      assert (k = n) as -> by lia. rewrite K3. apply HQ; try done. by apply (file_ok_view v); [|apply VG|..].
    + eapply wp_mono; [apply (wp_read_round v fp cl n); try done; unfold n; lia|].
      intros [st'|r] v' Hr; [|done]. destruct Hr as [Hr Hlt]. split; [done|].
      destruct Hr as [_ _ _ _ (k & K1 & _ & _ & K4) _]. lia.
  - constructor; cbn; try done. exists 0. unfold n. split; [lia|]. split; [lia|]. split; [done|lia].
  - cbn. lia.
Qed.

(** *** Seeking in a file opened for reading *)

Lemma land_align x m : 0 <= x < 2 ^ 32 -> 0 <= m ->
  Z.land x (u32 (Z.lnot (2 ^ m - 1))) = x - x mod 2 ^ m.
Proof.
  intros Hx Hm. unfold u32. rewrite <- Z.land_ones by lia. rewrite (Z.land_comm (Z.lnot _)), Z.land_assoc.
  rewrite Z.land_ones, (Z.mod_small x) by lia. by apply ldiff_mask.
Qed.

(** Following a link in either access mode. *)
Definition may_follow v (wr : bool) : Prop := wr = false \/ (fat_sane v /\ 0 <= last_clust (fs v)).

Lemma wp_follow v c wr (Q : Z -> vol D -> Prop) :
  wf v -> fat_geo (fs v) -> may_follow v wr -> valid_clust (fs v) c -> 2 <= fat_entry v c < n_fatent (fs v) ->
  (forall v', wf v' -> same_view v v' -> same_alloc (fs v) (fs v') -> Q (fat_entry v c) v') ->
  wp (if wr then create_chain c else get_fat c) Q v.
Proof.
  intros W FG Hwr Hc He HQ. destruct wr; [|by apply wp_get_fat]. destruct Hwr as [?|[Sa La]]; [done|].
  eapply wp_mono; [apply create_chain_spec; [done..|by right]|]. cbv zeta. intros r v' [W' Hr].
  rewrite (proj2 (Z.eqb_neq c 0)), (proj2 (Z.leb_gt _ _)) in Hr by (destruct Hc; lia). cbn [orb] in Hr.
  destruct Hr as (-> & V' & A'). rewrite (proj2 (Z.ltb_ge _ 2)) by lia. by apply HQ.
Qed.

Lemma may_follow_view v v' wr : wf v -> fat_geo (fs v) -> same_view v v' -> same_alloc (fs v) (fs v') ->
  may_follow v wr -> may_follow v' wr.
Proof.
  intros W FG V (A & _) [?|[Sa La]]; [by left|right]. split; [|by rewrite A]. intros c Hc.
  assert (valid_clust (fs v) c) as Hc' by (unfold valid_clust in *; by rewrite <- (proj1 (view_fields v v' V))).
  rewrite (fat_entry_view v v') by done. by apply Sa.
Qed.

(** The seek stands at cluster [k] of the chain with [ofs] bytes to go. *)
Record seeking v (fp : FIL) cl (target : Z) (st : FIL * Z * Z) v' : Prop := {
  sk_wf : wf v';
  sk_view : same_view v v';
  sk_alloc : same_alloc (fs v) (fs v');
  sk_pos : exists k, 0 <= k < zlen cl /\ snd (fst st) = nth (Z.to_nat k) cl 0 /\
    f_clust (fst (fst st)) = nth (Z.to_nat k) cl 0 /\ fptr (fst (fst st)) = k * (csize (fs v) * 512) /\
    k * (csize (fs v) * 512) + snd st = target /\ 0 < snd st;
  sk_same : same_file fp (fst (fst st))
}.

Lemma wp_seek_round v fp cl target st v1 :
  wf v -> vol_geo (fs v) -> file_ok v fp cl -> may_follow v (has (flag fp) FA_WRITE) -> 0 < target <= f_fsize fp ->
  seeking v fp cl target st v1 ->
  wp (seek_body (csize (fs v) * 512) st)
    (fun r v' => match r with
                 | inl st' => seeking v fp cl target st' v' /\ snd st' <= snd st - 512
                 | inr (inl _) => False
                 | inr (inr st') => seeking v fp cl target st' v' /\ snd st' <= csize (fs v) * 512
                 end) v1.
Proof.
  intros W VG FO Hrd Ht SK. destruct st as [[fp1 c] ofs]. pose proof SK as [S1 S2 SA (k & K1 & K2 & K3 & K4 & K5 & K6) SF].
  pose proof SF as (_ & _ & E3 & _).
  cbn [fst snd] in *. pose proof (csize_pos _ VG) as Hcs. pose proof (fo_size _ _ _ FO) as [Hsz Hsz2].
  pose proof (vg_fat _ VG) as FG. unfold seek_body. destruct (Z.gtb_spec ofs (csize (fs v) * 512)) as [Hgt|Hle].
  2: { apply wp_ret. split; [done|cbn; lia]. }
  rewrite E3. assert (k + 1 < zlen cl) as Hk1.
  { unfold chain_sectors, SS in Hsz. nia. }
  destruct (fo_chain _ _ _ FO) as [Enil|Hch]; [rewrite Enil in K1; unfold zlen in K1; cbn in K1; lia|].
  unfold zlen in *. destruct (chain_next v _ cl (Z.to_nat k) Hch ltac:(lia)) as (_ & N2 & _).
  specialize (N2 ltac:(lia)). pose proof (chain_nth v _ cl (Z.to_nat k) Hch ltac:(lia)) as Hv.
  pose proof (chain_nth v _ cl (S (Z.to_nat k)) Hch ltac:(lia)) as [V1 V2]. pose proof (fg_bound _ FG) as Hfb.
  destruct (geo_fields _ _ (proj1 S2)) as (_ & _ & _ & G4 & _).
  wp_step. rewrite K2. assert (fat_entry v1 (nth (Z.to_nat k) cl 0) = nth (S (Z.to_nat k)) cl 0) as E1
    by (by rewrite (fat_entry_view v v1), N2).
  apply wp_follow; [done|by eapply geo_fat_geo; [apply S2|]|by apply (may_follow_view v)|by unfold valid_clust in *; rewrite G4|lia|].
  intros v2 W2 V12 A2. rewrite E1. rewrite (proj2 (Z.eqb_neq (nth (S _) _ _) 0)), andb_false_r by lia.
  rewrite (proj2 (Z.eqb_neq _ 0xFFFFFFFF)) by lia. wp_step. apply wp_getfs.
  assert (same_view v v2) as V02 by (by transitivity v1).
  destruct (geo_fields _ _ (proj1 V02)) as (_ & _ & _ & H4 & _). rewrite H4.
  rewrite (proj2 (Z.leb_gt _ 1)) by lia. cbn [orb].
  destruct (Z.geb_spec (nth (S (Z.to_nat k)) cl 0) (n_fatent (fs v))); [lia|]. apply wp_ret. split; [|cbn; lia].
  constructor; cbn [fst snd]; try done; [by transitivity (fs v1)|]. exists (k + 1).
  replace (Z.to_nat (k + 1)) with (S (Z.to_nat k)) by lia.
  split; [unfold zlen; lia|]. split; [done|]. split; [done|]. cbn. rewrite K4.
  rewrite u32_small by (unfold is_u32; lia). lia.
Qed.

Lemma seek_end_ok fp nsect :
  fptr fp <= f_fsize fp ->
  exists fp', seek_end fp nsect = (FR_OK, fp') /\ same_file fp fp' /\ fptr fp' = fptr fp /\
    f_clust fp' = f_clust fp /\ (fptr fp mod SS <> 0 -> dsect fp' = nsect).
Proof.
  intros Hp. unfold seek_end. destruct (nz (fptr fp mod SS) && negb (nsect =? dsect fp)) eqn:Eb.
  - cbn [fptr set_dsect f_fsize]. destruct (Z.gtb_spec (fptr fp) (f_fsize fp)); [lia|]. eexists. split; [done|]. done.
  - destruct (Z.gtb_spec (fptr fp) (f_fsize fp)); [lia|]. exists fp. repeat split. intros Hm.
    rewrite (proj2 (nz_true _) Hm) in Eb. cbn in Eb. destruct (Z.eqb_spec nsect (dsect fp)); [done|discriminate Eb].
Qed.

Lemma wp_seek_follow v fp cl target fp1 c ofs v1 (Q : FRESULT * FIL -> vol D -> Prop) :
  wf v -> vol_geo (fs v) -> file_ok v fp cl -> may_follow v (has (flag fp) FA_WRITE) -> 0 < target <= f_fsize fp ->
  seeking v fp cl target (fp1, c, ofs) v1 ->
  (forall fp' v', wf v' -> same_view v v' -> same_alloc (fs v) (fs v') -> file_ok v' fp' cl -> fptr fp' = target ->
     same_file fp fp' -> Q (FR_OK, fp') v') ->
  wp (seek_follow fp1 c ofs (csize (fs v) * 512)) Q v1.
Proof.
  intros W VG FO Hrd Ht SK HQ. pose proof (csize_pos _ VG) as Hcs. pose proof (fo_size _ _ _ FO) as [Hsz Hsz2].
  assert (forall k, 0 <= k < zlen cl -> valid_clust (fs v) (nth (Z.to_nat k) cl 0)) as Hval.
  { intros k Hk. destruct (fo_chain _ _ _ FO) as [Enil|Hch]; [rewrite Enil in Hk; unfold zlen in Hk; cbn in Hk; lia|].
    unfold zlen in Hk. apply (chain_nth v _ cl _ Hch). lia. }
  unfold seek_follow. assert (c <> 0) as Hc0.
  { destruct SK as [_ _ _ (k & K1 & K2 & _) _]. cbn in K2. destruct (Hval k K1). lia. }
  rewrite (proj2 (Z.eqb_neq c 0) Hc0). cbn [negb]. wp_step.
  eapply wp_mono.
  { apply (wp_loop (seeking v fp cl target) (fun st _ => Z.to_nat (snd st / SS))
      (seek_body (csize (fs v) * 512))
      (fun r v' => match r with inl _ => False | inr st => seeking v fp cl target st v' /\ snd st <= csize (fs v) * 512 end)).
    - intros st v2 SK2. eapply wp_mono; [by apply (wp_seek_round v fp cl target)|].
      intros [st'|[?|st']] v' Hr; [|done|done]. destruct Hr as [Hr Hlt]. split; [done|].
      destruct Hr as [_ _ _ (k & _ & _ & _ & _ & _ & K6) _]. unfold SS. Z.div_mod_to_equations. lia.
    - exact SK.
    - cbn. lia. }
  intros [?|[[fp2 c2] ofs2]] v2 Hr; [done|]. destruct Hr as [[S1 S2 SA (k & K1 & K2 & K3 & K4 & K5 & K6) SF] Hle].
  cbn [fst snd] in *. pose proof SF as (E1 & E2 & _). rewrite K4. rewrite (u32_small (_ + ofs2)) by (unfold is_u32; lia). rewrite K5.
  set (bcs := csize (fs v) * 512) in *.
  assert ((target - 1) / bcs = k) as Ek by (symmetry; apply (Z.div_unique _ _ _ (ofs2 - 1)); lia).
  assert (forall nsect, (target mod SS <> 0 -> nsect = file_sector (fs v) cl (target / SS)) ->
    wp (ret (seek_end (set_fptr target fp2) nsect)) Q v2) as Hend.
  { intros nsect Hns. apply wp_ret. destruct (seek_end_ok (set_fptr target fp2) nsect) as (fp' & -> & AF & A1 & A4 & A7); [cbn; lia|].
    cbn in A1, A4, A7. pose proof AF as (A2 & A3 & _). cbn in A2, A3.
    apply HQ; [done|done|done| |done|by transitivity fp2].
    apply (file_ok_view v); [done|apply VG|done|]. destruct FO as [O1 O2 O3 O4 O5 O6].
    constructor; rewrite ?A1, ?A2, ?A3, ?E1, ?E2; try done; [lia| |].
    - intros _. rewrite A4, K3. change SS with 512. fold bcs. by rewrite Ek.
    - intros Hm. rewrite A7 by done. by apply Hns. }
  assert (target mod SS = ofs2 mod SS) as Em.
  { rewrite <- K5. unfold bcs, SS. replace (k * (csize (fs v) * 512) + ofs2) with (ofs2 + k * csize (fs v) * 512) by lia.
    by rewrite Z.mod_add. }
  destruct (nz (ofs2 mod SS)) eqn:En.
  2: { apply Hend. intros Hm. apply nz_false in En. rewrite Em in Hm. done. }
  apply nz_true in En. wp_step. apply wp_getfs. unfold id.
  destruct (geo_fields _ _ (proj1 S2)) as (_ & G2 & _ & G4 & _ & _ & _ & G8).
  destruct (clust2sect_spec (fs v2) c2) as [Ecs Hpos];
    [by eapply geo_vol_geo; [apply S2|]|rewrite K2; unfold valid_clust; rewrite G4; by apply Hval|].
  rewrite (proj2 (Z.eqb_neq (clust2sect _ _) 0)) by lia. apply Hend. intros _.
  assert (ofs2 < bcs) as Hlt.
  { destruct (Z.eq_dec ofs2 bcs) as [E|]; [|lia]. rewrite E in En. unfold bcs, SS in En. by rewrite Z.mod_mul in En. }
  assert (target / SS = k * csize (fs v) + ofs2 / SS) as Eq.
  { rewrite <- K5. unfold bcs, SS. replace (k * (csize (fs v) * 512) + ofs2) with (ofs2 + k * csize (fs v) * 512) by lia.
    rewrite Z.div_add by lia. lia. }
  assert (0 <= ofs2 / SS < csize (fs v)) as Hos.
  { unfold bcs, SS in *. split; [apply Z.div_pos; lia|apply Z.div_lt_upper_bound; lia]. }
  assert (target / SS / csize (fs v) = k /\ target / SS mod csize (fs v) = ofs2 / SS) as [Q1 Q2].
  { rewrite Eq. split; [symmetry; apply (Z.div_unique _ _ _ (ofs2 / SS)); lia|symmetry; apply (Z.mod_unique _ _ k); lia]. }
  assert (0 <= target / SS < chain_sectors (fs v) cl) as Hq.
  { unfold chain_sectors. rewrite Eq. nia. }
  destruct (fo_ready _ _ _ FO _ Hq) as (_ & _ & R3). unfold file_sector in *. rewrite Q1, Q2 in *.
  rewrite Ecs, K2, G2, G8. apply u32_small. unfold is_u32. lia.
Qed.

(** Without write access the target of a seek is clipped to the size. *)
Lemma wp_seek_file v fp cl ofs (Q : FRESULT * FIL -> vol D -> Prop) :
  wf v -> vol_geo (fs v) -> file_ok v fp cl -> may_follow v (has (flag fp) FA_WRITE) ->
  0 <= ofs -> (has (flag fp) FA_WRITE = true -> ofs <= f_fsize fp) ->
  (forall fp' v', wf v' -> same_view v v' -> same_alloc (fs v) (fs v') -> file_ok v' fp' cl -> fptr fp' = Z.min ofs (f_fsize fp) ->
     same_file fp fp' -> Q (FR_OK, fp') v') ->
  wp (seek_file fp ofs) Q v.
Proof.
  intros W VG FO Hrd Hofs Hwr HQ. pose proof (fo_size _ _ _ FO) as [Hsz Hsz2]. pose proof (fo_ptr _ _ _ FO) as Hp.
  pose proof (csize_pos _ VG) as Hcs. unfold seek_file.
  assert ((if (ofs >? f_fsize fp) && negb (has (flag fp) FA_WRITE) then f_fsize fp else ofs) = Z.min ofs (f_fsize fp)) as ->.
  { destruct (Z.gtb_spec ofs (f_fsize fp)), (has (flag fp) FA_WRITE); cbn [andb negb]; lia. }
  set (target := Z.min ofs (f_fsize fp)) in *. destruct (nz target) eqn:Ez.
  2: { apply nz_false in Ez. apply wp_ret.
       destruct (seek_end_ok (set_fptr 0 fp) 0) as (fp' & -> & AF & A1 & A4 & A7); [cbn; lia|].
       cbn in *. pose proof AF as (A2 & A3 & _). cbn in A2, A3. apply HQ; try done; [|lia]. destruct FO as [O1 O2 O3 O4 O5 O6].
       constructor; rewrite ?A1, ?A2, ?A3; try done; lia. }
  apply nz_true in Ez. assert (0 < target <= f_fsize fp) as Ht by lia.
  wp_step. apply wp_getfs. rewrite u32_small by (unfold is_u32, SS; lia). change SS with 512.
  set (bcs := csize (fs v) * 512).
  destruct ((fptr fp >? 0) && ((target - 1) / bcs >=? (fptr fp - 1) / bcs)) eqn:Eb.
  - apply andb_true_iff in Eb as [E1 E2]. apply Z.gtb_lt in E1. apply Z.geb_le in E2.
    apply (wp_seek_follow v fp cl target); [done..| |by intros; apply HQ].
    destruct (vg_csize _ VG) as (m & Hm & Ecs). 
    assert (bcs = 2 ^ (m + 9)) as Ebcs by (unfold bcs; rewrite Ecs, Z.pow_add_r by lia; done).
    cbn [fptr set_fptr f_clust]. rewrite Ebcs, land_align by lia. rewrite <- Ebcs.
    pose proof (Z.div_mod (fptr fp - 1) bcs ltac:(unfold bcs; lia)) as Ed.
    pose proof (Z.mod_pos_bound (fptr fp - 1) bcs ltac:(unfold bcs; lia)) as Bm.
    set (k := (fptr fp - 1) / bcs) in *. assert (0 <= k) as Hk by (apply Z.div_pos; unfold bcs; lia).
    pose proof (Z.div_mod (target - 1) bcs ltac:(unfold bcs; lia)) as Et.
    pose proof (Z.mod_pos_bound (target - 1) bcs ltac:(unfold bcs; lia)) as Bt.
    constructor; cbn [fst snd]; try done. exists k. fold bcs.
    assert (f_clust fp = nth (Z.to_nat k) cl 0) as Ec by (rewrite (fo_clust _ _ _ FO) by lia; done).
    split; [split; [done|unfold chain_sectors, SS in Hsz; nia]|]. split; [done|]. split; [done|].
    cbn. split; [lia|]. split; nia.
  - wp_step. assert (cl <> []) as Hne.
    { intros ->. unfold chain_sectors, zlen in Hsz. cbn in Hsz. lia. }
    destruct (fo_chain _ _ _ FO) as [?|Hch]; [done|]. destruct (chain_head _ _ _ Hch Hne) as [Hv Hd].
    destruct cl as [|c0 cl]; [done|]. cbn in Hd.
    cbn [f_sclust set_fptr]. rewrite (proj2 (Z.eqb_neq (f_sclust fp) 0)) by (destruct Hv; lia).
    apply wp_ret. cbn [andb].
    apply (wp_seek_follow v fp (c0 :: cl) target); [done..| |by intros; apply HQ].
    constructor; cbn [fst snd]; try done. exists 0. change (nth (Z.to_nat 0) (c0 :: cl) 0) with c0.
    cbn [f_clust fptr set_f_clust set_fptr]. unfold zlen. rewrite length_cons. repeat split; done || lia.
Qed.

(** *** The functions on open files *)

(** The drive answers a status request that it is initialised. *)
Definition online (d : D) (dv : Z) : Prop :=
  wp (disk_status dv)
     (fun st d' => has st STA_NOINIT = false /\ (forall x, sector d' x = sector d x) /\
                   (forall x, ready d x -> ready d' x)) d.

(** [fp] is a file open on the object [f] of the module's state [s]. *)
Record opened (s : ff D) (fp : FIL) (f : FATFS) cl : Prop := {
  op_obj : objs s !! f_fs fp = Some f;
  op_ptr : f_fs fp <> 0;
  op_id : fs_id f = f_id fp;
  op_wf : wf (Build_vol f (dev s));
  op_geo : vol_geo f;
  op_file : file_ok (Build_vol f (dev s)) fp cl
}.

Lemma wp_on_fs {A} (s : ff D) p f (m : M (vol D) A) (Q : A -> ff D -> Prop) :
  objs s !! p = Some f ->
  wp m (fun a v => Q a (Build_ff (<[p := fs v]> (objs s)) (FatFs0 s) (Fsid s) (disk v))) (Build_vol f (dev s)) ->
  wp (on_fs p m) Q s.
Proof. intros E. unfold wp, on_fs. rewrite E. by destruct (m _) as [[a v]|]. Qed.

(** A driver that keeps its sectors keeps the view. *)
Lemma same_sectors_view f (d d' : D) :
  wf (Build_vol f d) -> (forall x, sector d' x = sector d x) -> (forall x, ready d x -> ready d' x) ->
  wf (Build_vol f d') /\ same_view (Build_vol f d) (Build_vol f d').
Proof.
  intros [W1 W2 W3 W4 W5 W6 W7] E R. split.
  - constructor; cbn in *; auto.
    + intros Ew. destruct (W3 Ew) as [?|[? ?]]; [by left|right]. by rewrite E.
    + intros Ew. destruct (W4 Ew) as (? & ? & ?). auto.
  - split; [done|]. split; [|done]. intros x _. unfold lsec. cbn. by rewrite E.
Qed.

Lemma opened_view s fp fp' f v cl :
  opened s fp f cl -> wf v -> same_view (Build_vol f (dev s)) v -> same_file fp fp' ->
  file_ok v fp' cl ->
  opened (Build_ff (<[f_fs fp := fs v]> (objs s)) (FatFs0 s) (Fsid s) (disk v)) fp' (fs v) cl.
Proof.
  intros [O1 O2 O3 O4 O5 O6] W V (_ & _ & _ & _ & E1 & E2 & _ & _) FO. destruct v as [f' d'].
  constructor; cbn [fs disk dev objs]; rewrite ?E1, ?E2; try done.
  - apply lookup_insert_eq.
  - destruct V as [G _]. cbn in G. unfold geo in G. congruence.
  - eapply geo_vol_geo; [apply V|done].
Qed.

(** A mounted object with the right mount id on a drive that answers. *)
Lemma wp_validate s p i f (Q : FRESULT -> ff D -> Prop) :
  objs s !! p = Some f -> p <> 0 -> fs_type f <> 0 -> fs_id f = i -> wf (Build_vol f (dev s)) -> online (dev s) (drv f) ->
  (forall d', wf (Build_vol f d') -> same_view (Build_vol f (dev s)) (Build_vol f d') ->
     (forall x, sector d' x = sector (dev s) x) ->
     Q FR_OK (Build_ff (<[p := f]> (objs s)) (FatFs0 s) (Fsid s) d')) ->
  wp (validate p i) Q s.
Proof.
  intros Ho Hp Ht Hi W On HQ. unfold validate. rewrite (proj2 (Z.eqb_neq p 0) Hp).
  apply (wp_on_fs s _ f); [done|]. wp_step. apply wp_getfs. unfold id. cbn [fs].
  rewrite (proj2 (Z.eqb_neq (fs_type f) 0) Ht), Hi, Z.eqb_refl. cbn [negb orb]. wp_step. apply wp_io.
  eapply wp_mono; [exact On|]. intros st d' (Es & E1 & R1). cbn [fs disk]. apply wp_ret. rewrite Es.
  destruct (same_sectors_view f (dev s) d' W E1 R1) as [W' V']. by apply HQ.
Qed.

Lemma geo_mounted f : vol_geo f -> fs_type f <> 0.
Proof. intros VG. by destruct (fg_type _ (vg_fat _ VG)) as [-> | [-> | ->]]. Qed.

(** The guard of a function on an open file lets it through. *)
Lemma wp_file_guard s fp f cl access (Q : option FRESULT -> ff D -> Prop) :
  opened s fp f cl -> online (dev s) (drv f) -> err fp = FR_OK ->
  (access = 0 \/ has (flag fp) access = true) ->
  (forall s', opened s' fp f cl -> same_view (Build_vol f (dev s)) (Build_vol f (dev s')) -> Q None s') ->
  wp (file_guard fp access) Q s.
Proof.
  intros O On Ee Ha HQ. pose proof O as [O1 O2 O3 O4 O5 O6]. unfold file_guard. wp_step.
  apply (wp_validate s _ _ f); try done; [by apply geo_mounted|]. intros d' W' V' _. apply wp_ret.
  assert ((nz access && negb (has (flag fp) access)) = false) as Eacc.
  { destruct Ha as [-> | ->]; [done|]. by rewrite andb_false_r. }
  rewrite Ee, Eacc. change (is_ok FR_OK) with true. cbn [negb].
  apply HQ; [|done].
  apply (opened_view s fp fp f (Build_vol f d')); try done. apply (file_ok_view (Build_vol f (dev s))); [done|apply O5|done|done].
Qed.

Lemma file_data_view v v' fp cl off n :
  same_view v v' -> file_ok v fp cl -> 0 <= off -> off + n <= chain_sectors (fs v) cl * SS ->
  file_data v' cl off n = file_data v cl off n.
Proof.
  intros V FO H0 Hn. unfold file_data. apply list_fmap_ext. intros i x Hx. apply lookup_seqZ in Hx as [-> Hi].
  eapply file_byte_view; [done..|]. lia.
Qed.

Lemma wp_f_read s fp f cl btr (Q : FRESULT * FIL * list Z -> ff D -> Prop) :
  opened s fp f cl -> online (dev s) (drv f) -> err fp = FR_OK -> has (flag fp) FA_READ = true -> 0 <= btr ->
  let n := Z.min btr (f_fsize fp - fptr fp) in
  (forall fp' s' f', opened s' fp' f' cl -> same_view (Build_vol f (dev s)) (Build_vol f' (dev s')) ->
     same_file fp fp' -> fptr fp' = fptr fp + n -> same_alloc f f' ->
     Q (FR_OK, fp', file_data (Build_vol f (dev s)) cl (fptr fp) n) s') ->
  wp (f_read fp btr) Q s.
Proof.
  intros O On Ee Hr Hb n HQ. unfold f_read. wp_step.
  apply (wp_file_guard s fp f cl FA_READ); [done|done|done|by right|].
  intros s1 O1 V1. pose proof (op_file _ _ _ _ O) as FO. pose proof (fo_ptr _ _ _ FO) as Hp.
  pose proof (fo_size _ _ _ FO) as [Hsz _].
  apply (wp_on_fs s1 _ f); [apply O1|]. apply (wp_read_file _ fp cl); [apply O1|apply O1|apply O1|done|].
  intros fp' v' W' V' A' FO' Ep SF. fold n in Ep |- *.
  rewrite (file_data_view (Build_vol f (dev s)) _ fp) by (done || lia).
  apply (HQ fp' _ (fs v')); [by apply (opened_view s1 fp fp' f)| |done|done|done].
  destruct v'. cbn. by etransitivity.
Qed.

Lemma wp_f_lseek s fp f cl ofs (Q : FRESULT * FIL -> ff D -> Prop) :
  opened s fp f cl -> online (dev s) (drv f) -> err fp = FR_OK -> may_follow (Build_vol f (dev s)) (has (flag fp) FA_WRITE) -> 0 <= ofs -> (has (flag fp) FA_WRITE = true -> ofs <= f_fsize fp) ->
  (forall fp' s' f', opened s' fp' f' cl -> same_view (Build_vol f (dev s)) (Build_vol f' (dev s')) ->
     same_file fp fp' -> fptr fp' = Z.min ofs (f_fsize fp) -> Q (FR_OK, fp') s') ->
  wp (f_lseek fp ofs) Q s.
Proof.
  intros O On Ee Hr Hb Hwr HQ. unfold f_lseek. wp_step.
  apply (wp_file_guard s fp f cl 0); [done|done|done|by left|]. intros s1 O1 V1.
  apply (wp_on_fs s1 _ f); [apply O1|]. apply (wp_seek_file _ fp cl); [apply O1|apply O1|apply O1| |done|done|].
  { by apply (may_follow_view (Build_vol f (dev s))); [apply O|apply O|..]. }
  intros fp' v' W' V' _ FO' Ep SF. apply (HQ fp' _ (fs v')); [by apply (opened_view s1 fp fp' f)| |done|done].
  destruct v'. cbn. by etransitivity.
Qed.

(** C5. [f_read] on a file opened for reading returns [FR_OK] and exactly the
    next [min btr (fsize - fptr)] bytes of the file, taken through its cluster
    chain and the sector window (bytes still only in a dirty window included),
    advances the pointer by that number and changes no byte of the volume. *)
Theorem f_read_correct s fp f cl btr :
  opened s fp f cl -> online (dev s) (drv f) -> err fp = FR_OK -> has (flag fp) FA_READ = true -> 0 <= btr ->
  wp (f_read fp btr)
    (fun '(res, fp', out) s' =>
       let n := Z.min btr (f_fsize fp - fptr fp) in
       res = FR_OK /\ out = file_data (Build_vol f (dev s)) cl (fptr fp) n /\ fptr fp' = fptr fp + n /\
       same_file fp fp' /\
       exists f', opened s' fp' f' cl /\ same_view (Build_vol f (dev s)) (Build_vol f' (dev s'))) s.
Proof.
  intros O On Ee Hr Hb. apply (wp_f_read s fp f cl); try done. intros fp' s' f' O' V' SF Ep _. cbv zeta.
  do 4 (split; [done|]). by exists f'.
Qed.

(** Random access: after [f_lseek] to any offset of the file, from any
    position, [f_read] returns the bytes of the file at that offset; in a file
    opened without write access an offset behind the end is clipped to the
    file's size. *)
Theorem f_lseek_read s fp f cl ofs btr :
  opened s fp f cl -> (forall d, online d (drv f)) -> err fp = FR_OK ->
  has (flag fp) FA_READ = true -> may_follow (Build_vol f (dev s)) (has (flag fp) FA_WRITE) ->
  0 <= ofs -> (has (flag fp) FA_WRITE = true -> ofs <= f_fsize fp) -> 0 <= btr ->
  wp (let! (r1, fp) := f_lseek fp ofs in let! (r2, fp, out) := f_read fp btr in ret (r1, r2, fp, out))
    (fun '(r1, r2, fp', out) s' =>
       let pos := Z.min ofs (f_fsize fp) in
       let n := Z.min btr (f_fsize fp - pos) in
       r1 = FR_OK /\ r2 = FR_OK /\ out = file_data (Build_vol f (dev s)) cl pos n /\ fptr fp' = pos + n /\
       exists f', opened s' fp' f' cl /\ same_view (Build_vol f (dev s)) (Build_vol f' (dev s'))) s.
Proof.
  intros O On Ee Hr Hw Ho Hwr Hb. wp_step. apply (wp_f_lseek s fp f cl); try done.
  intros fp1 s1 f1 O1 V1 SF1 Ep1. pose proof SF1 as (Ez & _ & Ef & Eerr & _).
  assert (drv f1 = drv f) as Ed by (destruct V1 as [G _]; cbn in G; unfold geo in G; congruence).
  wp_step. apply (wp_f_read s1 fp1 f1 cl); [done|by rewrite Ed|congruence|by rewrite Ef|done|].
  intros fp2 s2 f2 O2 V2 SF2 Ep2 _. apply wp_ret. cbv zeta. rewrite Ez, Ep1 in *.
  pose proof (op_file _ _ _ _ O) as FO. pose proof (fo_size _ _ _ FO) as [Hsz _].
  split; [done|]. split; [done|]. split; [by apply (file_data_view _ _ fp); try done; lia|]. split; [done|].
  exists f2. split; [done|]. by etransitivity.
Qed.
End Theory.

(** ** A file on a small volume

    The volume [demo] with data in the clusters 2 and 3 and a file of 600 bytes
    on them, the pointer in the first sector. *)
Definition text_disk : ramdisk :=
  {| blocks := <[4 := seqZ 1 250 ++ seqZ 0 250]> (<[5 := seqZ 100 100]> (blocks demo_disk)); nblocks := 12 |}.
Definition text_vol : vol ramdisk := {| fs := demo_fs; disk := text_disk |}.
Definition text_ff : ff ramdisk :=
  {| objs := {[ 1 := demo_fs ]}; FatFs0 := 1; Fsid := 1; dev := text_disk |}.
Definition text_file (mode : Z) : FIL :=
  {| f_fs := 1; f_id := 1; flag := mode; err := FR_OK; fptr := 10; f_fsize := 600; f_sclust := 2;
     f_clust := 2; dsect := 4; dir_sect := 3; dir_ptr := 0 |}.

Lemma text_wf : wf text_vol.
Proof. constructor; cbn -[replicate]; try done; try lia. by apply Forall_replicate. Qed.

Lemma text_chain : chain text_vol 2 [2; 3].
Proof.
  constructor; [done|by vm_compute|]. replace (fat_entry text_vol 2) with 3 by (by vm_compute).
  constructor; [done|by vm_compute|]. constructor. by vm_compute.
Qed.

Lemma text_file_ok mode : file_ok text_vol (text_file mode) [2; 3].
Proof.
  assert (forall q, 0 <= q < chain_sectors (fs text_vol) [2; 3] -> q = 0 \/ q = 1) as Hq.
  { intros q Hq. change (chain_sectors (fs text_vol) [2; 3]) with 2 in Hq. lia. }
  constructor; [right; exact text_chain|by split|by split|done|done|].
  intros q Hr. assert (file_sector (fs text_vol) [2; 3] q = 4 + q) as -> by (by destruct (Hq q Hr) as [-> | ->]).
  apply Hq in Hr. change (ready (disk text_vol) (4 + q)) with (0 <= 4 + q < 12). unfold mirror.
  change (fatbase (fs text_vol) + n_fats (fs text_vol) * fsize (fs text_vol)) with 3. lia.
Qed.

Lemma text_opened mode : opened text_ff (text_file mode) demo_fs [2; 3].
Proof.
  constructor; [done|done|done|exact text_wf|exact demo_vol_geo|apply text_file_ok].
Qed.

Lemma ram_online d dv : online (D := ramdisk) d dv.
Proof. done. Qed.

Lemma f_read_correct_witness :
  wp (f_read (text_file FA_READ) 1000)
    (fun '(res, fp', out) s' =>
       let n := Z.min 1000 (600 - 10) in
       res = FR_OK /\ out = file_data text_vol [2; 3] 10 n /\ fptr fp' = 10 + n /\
       same_file (text_file FA_READ) fp' /\
       exists f', opened s' fp' f' [2; 3] /\ same_view text_vol (Build_vol f' (dev s'))) text_ff.
Proof.
  apply (f_read_correct text_ff (text_file FA_READ) demo_fs [2; 3] 1000);
    [apply text_opened|apply ram_online|reflexivity|reflexivity|lia].
Defined.

Lemma f_lseek_read_witness :
  wp (let! (r1, fp) := f_lseek (text_file FA_READ) 515 in
      let! (r2, fp, out) := f_read fp 4 in ret (r1, r2, fp, out))
    (fun '(r1, r2, fp', out) s' =>
       let pos := Z.min 515 600 in
       let n := Z.min 4 (600 - pos) in
       r1 = FR_OK /\ r2 = FR_OK /\ out = file_data text_vol [2; 3] pos n /\ fptr fp' = pos + n /\
       exists f', opened s' fp' f' [2; 3] /\ same_view text_vol (Build_vol f' (dev s'))) text_ff.
Proof.
  apply (f_lseek_read text_ff (text_file FA_READ) demo_fs [2; 3] 515 4);
    [apply text_opened|intros; apply ram_online|reflexivity|reflexivity|by left|lia|done|lia].
Defined.

Example text_read :
  file_data text_vol [2; 3] 515 4 = [103; 104; 105; 106].
Proof. vm_compute. reflexivity. Qed.
