(* ===== verification/FatWrite.v ===== *)
(** * FatFs: writing a file

    Theory of [write_file] ([ff.c] lines 2642-2755, definitions in [FatFile]):
    data sectors are disjoint from the FATs and from each other, a write
    through the window or directly to the disk replaces exactly its bytes, and
    the loop extends the chain of the file when it has to. *)

From S2P Require Import Prelude FatBase FatAccess FatName FatDir FatVolume FatFile.

Section Theory.
Context {D : Type} `{L : DiskLaws D}.
Implicit Types (v : vol D) (f : FATFS) (cl : list Z).

(** ** The data area *)

Definition data_sector f (s : Z) : Prop := database f <= s < database f + (n_fatent f - 2) * csize f.

(** A volume whose data area is accessible and behind the FATs, and whose FAT
    has no entry 1. *)
Record vol_ok v : Prop := {
  vk_wf : wf v;
  vk_geo : vol_geo (fs v);
  vk_sane : fat_sane v;
  vk_last : 0 <= last_clust (fs v);
  vk_area : fatbase (fs v) + n_fats (fs v) * fsize (fs v) <= database (fs v);
  vk_ready : forall s, data_sector (fs v) s -> ready (disk v) s
}.

Lemma data_sector_geo f f' s : geo f' = geo f -> data_sector f' s <-> data_sector f s.
Proof. intros G. destruct (geo_fields _ _ G) as (_ & E2 & _ & E4 & _ & _ & _ & E8). unfold data_sector. by rewrite E2, E4, E8. Qed.

Lemma data_off_fat v s : vol_ok v -> data_sector (fs v) s ->
  ~ mirror (fs v) s /\ ~ in_fat (fs v) s /\ 0 <= s < 0xFFFFFFFF /\ ready (disk v) s.
Proof.
  intros [W VG _ _ HA HR] Hs. destruct (vg_data _ VG) as [D1 D2]. pose proof (wf_fat v W) as (F1 & F2 & F3).
  destruct (wf_nfats v W) as [N|N]; rewrite N in HA; unfold mirror, in_fat; pose proof Hs as [S1 S2];
    (split; [lia|]); (split; [lia|]); (split; [lia|]); by apply HR.
Qed.

Lemma file_sector_data f cl q :
  vol_geo f -> Forall (valid_clust f) cl -> 0 <= q < chain_sectors f cl -> data_sector f (file_sector f cl q).
Proof.
  intros VG Hv Hq. pose proof (csize_pos _ VG) as Hcs. unfold chain_sectors, zlen in Hq.
  assert (0 <= q / csize f < Z.of_nat (length cl)) as Hk.
  { split; [apply Z.div_pos; lia|apply Z.div_lt_upper_bound; lia]. }
  pose proof (Z.mod_pos_bound q (csize f) ltac:(lia)) as Bm.
  assert (valid_clust f (nth (Z.to_nat (q / csize f)) cl 0)) as [V1 V2].
  { rewrite Forall_forall in Hv. apply Hv, list_elem_of_In, nth_In. lia. }
  unfold data_sector, file_sector. nia.
Qed.

Lemma file_sector_inj f cl q q' :
  0 < csize f -> NoDup cl -> 0 <= q < chain_sectors f cl -> 0 <= q' < chain_sectors f cl ->
  file_sector f cl q = file_sector f cl q' -> q = q'.
Proof.
  intros Hcs Hnd Hq Hq' E. unfold chain_sectors, zlen in Hq, Hq'. unfold file_sector in E.
  pose proof (Z.div_mod q (csize f) ltac:(lia)) as D1. pose proof (Z.mod_pos_bound q (csize f) ltac:(lia)) as B1.
  pose proof (Z.div_mod q' (csize f) ltac:(lia)) as D2. pose proof (Z.mod_pos_bound q' (csize f) ltac:(lia)) as B2.
  assert (0 <= q / csize f < Z.of_nat (length cl) /\ 0 <= q' / csize f < Z.of_nat (length cl)) as [K1 K2].
  { repeat split; (apply Z.div_pos; lia) || (apply Z.div_lt_upper_bound; lia). }
  assert (nth (Z.to_nat (q / csize f)) cl 0 = nth (Z.to_nat (q' / csize f)) cl 0) as En by nia.
  assert (Z.to_nat (q / csize f) = Z.to_nat (q' / csize f)) as Ek.
  { apply (NoDup_nth cl 0); [by apply NoDup_ListNoDup|lia|lia|done]. }
  rewrite En in E. assert (q / csize f = q' / csize f) as Ed by lia. rewrite D1, D2, Ed. lia.
Qed.

(** A longer chain has the same first sectors. *)
Lemma file_sector_app f cl cl' q : 0 < csize f -> 0 <= q < chain_sectors f cl ->
  file_sector f (cl ++ cl') q = file_sector f cl q.
Proof.
  intros Hc Hq. unfold chain_sectors, zlen in Hq. unfold file_sector. rewrite app_nth1; [done|].
  assert (0 <= q / csize f < Z.of_nat (length cl)); [|lia].
  split; [apply Z.div_pos; lia|apply Z.div_lt_upper_bound; lia].
Qed.

Lemma vol_ok_view v v' :
  vol_ok v -> wf v' -> same_view v v' -> same_alloc (fs v) (fs v') -> vol_ok v'.
Proof.
  intros [W VG Sa La HA HR] W' V (A & _). pose proof V as (G & S & R).
  destruct (geo_fields _ _ G) as (E1 & E2 & E3 & E4 & E5 & E6 & E7 & E8).
  assert (n_fats (fs v') = n_fats (fs v)) as En by (unfold geo in G; congruence).
  constructor; try done; [by eapply geo_vol_geo| |by rewrite A|by rewrite E5, E6, E8, En|].
  - intros c Hc. assert (valid_clust (fs v) c) as Hc' by (unfold valid_clust in *; by rewrite <- E4).
    rewrite (fat_entry_view v v'); [by apply Sa|done|apply VG|done|done].
  - intros s. rewrite (data_sector_geo _ _ _ G). auto.
Qed.

Lemma getb_splice (l d : list Z) o i :
  (o + length d <= length l)%nat -> 0 <= i ->
  getb (splice l o d) i =
    if (Z.of_nat o <=? i) && (i <? Z.of_nat o + zlen d) then getb d (i - Z.of_nat o) else getb l i.
Proof.
  intros Hl Hi. unfold splice, zlen. destruct (Z.leb_spec (Z.of_nat o) i) as [Ho|Ho]; cbn [andb].
  - rewrite getb_app_r by (unfold zlen; rewrite length_take; lia).
    unfold zlen at 1. rewrite length_take, Nat.min_l by lia. destruct (Z.ltb_spec i (Z.of_nat o + Z.of_nat (length d))).
    + apply getb_app_l. unfold zlen. lia.
    + rewrite getb_app_r by (unfold zlen; lia). unfold getb, zlen. rewrite !nth_lookup, lookup_drop. do 2 f_equal. lia.
  - rewrite getb_app_l by (unfold zlen; rewrite length_take; lia).
    unfold getb. rewrite !nth_lookup, lookup_take_lt by lia. done.
Qed.

(** ** Storing bytes of a file

    [v'] is [v] with [data] at offset [off] of the file on the clusters [cl];
    only the first [size] bytes of the file and those of [data] are accounted
    for. *)
Record stored v v' cl (size off : Z) (data : list Z) : Prop := {
  so_wf : wf v';
  so_geo : geo (fs v') = geo (fs v);
  so_ready : forall s, ready (disk v) s -> ready (disk v') s;
  so_alloc : same_alloc (fs v) (fs v');
  so_other : forall s, ~ mirror (fs v) s ->
    (forall q, 0 <= q < chain_sectors (fs v) cl -> s <> file_sector (fs v) cl q) -> lsec v' s = lsec v s;
  so_bytes : forall j, 0 <= j < Z.max size (off + zlen data) ->
    file_byte v' cl j = if (off <=? j) && (j <? off + zlen data) then getb data (j - off) else file_byte v cl j
}.

(** The clusters of a file: valid and distinct. *)
Definition clusters_ok f cl : Prop := Forall (valid_clust f) cl /\ NoDup cl.

Lemma chain_clusters v c cl : chain v c cl -> clusters_ok (fs v) cl.
Proof.
  intros Hch. split; [|by eapply chain_NoDup]. apply Forall_forall. intros x Hx. by eapply chain_valid.
Qed.

Lemma sector_in_range j n : 0 <= j < n * SS -> 0 <= j / SS < n.
Proof. intros Hj. split; [apply Z.div_pos|apply Z.div_lt_upper_bound]; unfold SS in *; lia. Qed.

Lemma sector_split j : j = SS * (j / SS) + j mod SS /\ 0 <= j mod SS < SS.
Proof. split; [by apply Z.div_mod|by apply Z.mod_pos_bound]. Qed.

(** One sector replaced. *)
Lemma stored_sector v v' cl size off data w :
  vol_ok v -> clusters_ok (fs v) cl -> wf v' -> geo (fs v') = geo (fs v) ->
  (forall s, ready (disk v) s -> ready (disk v') s) -> same_alloc (fs v) (fs v') ->
  0 <= off -> off mod SS + zlen data <= SS -> 0 < zlen data ->
  size <= chain_sectors (fs v) cl * SS -> off + zlen data <= chain_sectors (fs v) cl * SS ->
  length w = 512%nat ->
  (forall x, ~ mirror (fs v) x ->
     lsec v' x = if x =? file_sector (fs v) cl (off / SS) then splice w (Z.to_nat (off mod SS)) data else lsec v x) ->
  (w = lsec v (file_sector (fs v) cl (off / SS)) \/ (off mod SS = 0 /\ size <= off)) ->
  stored v v' cl size off data.
Proof.
  intros VK [Hv Hnd] W' G R A H0 Hfit Hd Hsz Hoff Hw Hl Hcase. pose proof (csize_pos _ (vk_geo v VK)) as Hcs.
  assert (0 <= off / SS < chain_sectors (fs v) cl) as Hq by (apply sector_in_range; lia).
  constructor; try done.
  - intros s Hm Hs. rewrite Hl by done. by rewrite (proj2 (Z.eqb_neq _ _)) by (apply Hs; lia).
  - intros j Hj. assert (0 <= j / SS < chain_sectors (fs v) cl) as Hqj by (apply sector_in_range; lia).
    pose proof (data_off_fat v _ VK (file_sector_data _ _ _ (vk_geo v VK) Hv Hqj)) as (Hm & _).
    unfold file_byte. rewrite (geo_file_sector _ _ _ _ G), Hl by done.
    destruct (Z.eqb_spec (file_sector (fs v) cl (j / SS)) (file_sector (fs v) cl (off / SS))) as [E|E].
    + apply file_sector_inj in E; [|lia|done..].
      destruct (sector_split j) as [Dj Bj], (sector_split off) as [Do Bo]. change SS with 512 in *.
      rewrite getb_splice by (unfold zlen in *; lia). rewrite Z2Nat.id by lia.
      assert (j - off = j mod 512 - off mod 512) as Ej by lia.
      rewrite Ej.
      destruct (Z.leb_spec (off mod 512) (j mod 512)), (Z.leb_spec off j); try lia; cbn [andb].
      * destruct (Z.ltb_spec (j mod 512) (off mod 512 + zlen data)), (Z.ltb_spec j (off + zlen data)); try lia; try done.
        destruct Hcase as [->|[? ?]]; [by rewrite E|lia].
      * destruct Hcase as [->|[? ?]]; [by rewrite E|lia].
    + destruct (Z.leb_spec off j), (Z.ltb_spec j (off + zlen data)); cbn [andb]; try done.
      exfalso. apply E. f_equal. destruct (sector_split j) as [Dj Bj], (sector_split off) as [Do Bo]. change SS with 512 in *. lia.
Qed.

(** A run of whole sectors of one cluster replaced. *)
Lemma stored_run v v' cl size off cc data :
  vol_ok v -> clusters_ok (fs v) cl -> wf v' -> geo (fs v') = geo (fs v) ->
  (forall s, ready (disk v) s -> ready (disk v') s) -> same_alloc (fs v) (fs v') ->
  0 <= off -> off mod SS = 0 -> 0 < cc -> off / SS mod csize (fs v) + cc <= csize (fs v) ->
  zlen data = cc * SS ->
  size <= chain_sectors (fs v) cl * SS -> off + zlen data <= chain_sectors (fs v) cl * SS ->
  (let s := file_sector (fs v) cl (off / SS) in
   forall x, ~ mirror (fs v) x ->
     lsec v' x = if (s <=? x) && (x <? s + cc) then slice data (Z.to_nat ((x - s) * 512)) 512 else lsec v x) ->
  stored v v' cl size off data.
Proof.
  intros VK [Hv Hnd] W' G R A H0 Hm0 Hcc Hrun Hlen Hsz Hoff Hl. cbv zeta in Hl. pose proof (csize_pos _ (vk_geo v VK)) as Hcs.
  destruct (sector_split off) as [Do _].
  assert (0 <= off / SS /\ off / SS + cc <= chain_sectors (fs v) cl) as [Hq0 Hq] by (unfold SS in *; lia).
  set (s := file_sector (fs v) cl (off / SS)) in *.
  assert (forall i, 0 <= i < cc -> file_sector (fs v) cl (off / SS + i) = s + i) as Hrun'.
  { intros i Hi. apply file_sector_run; lia. }
  constructor; try done.
  - intros x Hm Hs. rewrite Hl by done. destruct ((s <=? x) && (x <? s + cc)) eqn:E; [|done].
    apply andb_true_iff in E as [E1 E2]. apply Z.leb_le in E1. apply Z.ltb_lt in E2.
    exfalso. apply (Hs (off / SS + (x - s))); [lia|]. rewrite Hrun' by lia. lia.
  - intros j Hj. assert (0 <= j / SS < chain_sectors (fs v) cl) as Hqj by (apply sector_in_range; lia).
    pose proof (data_off_fat v _ VK (file_sector_data _ _ _ (vk_geo v VK) Hv Hqj)) as (Hm & _).
    unfold file_byte. rewrite (geo_file_sector _ _ _ _ G), Hl by done. destruct (sector_split j) as [Dj Bj].
    destruct ((off <=? j) && (j <? off + zlen data)) eqn:Eb.
    + apply andb_true_iff in Eb as [E1 E2]. apply Z.leb_le in E1. apply Z.ltb_lt in E2.
      assert (0 <= j / SS - off / SS < cc) as Hi by (unfold SS in *; lia).
      assert (file_sector (fs v) cl (j / SS) = s + (j / SS - off / SS)) as Es.
      { rewrite <- Hrun' by done. f_equal. lia. }
      rewrite Es. rewrite (proj2 (Z.leb_le s _)), (proj2 (Z.ltb_lt _ (s + cc))) by lia. cbn [andb].
      replace (s + (j / SS - off / SS) - s) with (j / SS - off / SS) by lia.
      rewrite getb_slice by (unfold zlen, SS in *; lia).
      f_equal. rewrite Z2Nat.id by lia. unfold SS in *. lia.
    + destruct ((s <=? file_sector (fs v) cl (j / SS)) && (file_sector (fs v) cl (j / SS) <? s + cc)) eqn:E; [|done].
      apply andb_true_iff in E as [E1 E2]. apply Z.leb_le in E1. apply Z.ltb_lt in E2. exfalso.
      set (i := file_sector (fs v) cl (j / SS) - s) in *.
      assert (j / SS = off / SS + i) as Ej.
      { apply (file_sector_inj (fs v) cl); [lia|done|done|lia|]. rewrite Hrun' by lia. unfold i. lia. }
      assert (off <= j < off + zlen data) as [J1 J2] by (unfold SS in *; lia).
      by rewrite (proj2 (Z.leb_le _ _) J1), (proj2 (Z.ltb_lt _ _) J2) in Eb.
Qed.

(** ** Transfers *)

Lemma win_range v : wf v -> 0 <= winsect (fs v) < 2 ^ 32.
Proof.
  intros W. destruct (Z.eq_dec (wflag (fs v)) 0) as [E|E].
  - destruct (wf_clean v W E) as [->|[[_ ?] _]]; lia.
  - destruct (wf_dirty v W E) as (_ & _ & ?). lia.
Qed.

(** Replacing the run [s .. s+cc) on the disk, with the refill of the window. *)
Definition run_written v (wbuff : list Z) (s cc : Z) v' : Prop :=
  wf v' /\ geo (fs v') = geo (fs v) /\ (forall x, ready (disk v) x -> ready (disk v') x) /\
  same_alloc (fs v) (fs v') /\
  (forall x, ~ mirror (fs v) x ->
     lsec v' x = if (s <=? x) && (x <? s + cc) then slice wbuff (Z.to_nat ((x - s) * 512)) 512 else lsec v x).

Lemma run_slice (wbuff : list Z) n i :
  0 <= i < n -> n * 512 <= zlen wbuff ->
  slice (take (Z.to_nat (n * 512)) wbuff) (Z.to_nat (i * 512)) 512 = slice wbuff (Z.to_nat (i * 512)) 512.
Proof.
  intros Hi Hl. unfold slice. rewrite !take_drop_commute, take_take. do 2 f_equal. lia.
Qed.

Lemma wp_write_direct v wbuff s cc (Q : bool -> vol D -> Prop) :
  wf v -> 0 < cc -> 0 <= s -> s + cc <= 0xFFFFFFFF -> cc * 512 <= zlen wbuff -> Forall is_byte wbuff ->
  (forall x, s <= x < s + cc -> ready (disk v) x /\ ~ mirror (fs v) x) ->
  (forall v', run_written v wbuff s cc v' -> Q true v') ->
  wp (write_direct wbuff s cc) Q v.
Proof.
  intros W Hc Hs Hsc Hl Hb Hr HQ. unfold write_direct. wp_step. apply wp_getfs. wp_step. apply wp_io.
  change SS with 512 in *. unfold zlen in Hl. eapply wp_mono.
  { apply disk_write_law; [done|rewrite length_take; lia|by apply Forall_take|intros x Hx; by apply Hr]. }
  intros r d' (-> & E & R). change (is_res_ok RES_OK) with true. cbn [negb]. wp_step. apply wp_getfs. cbn [fs].
  pose proof (win_range v W) as Hw. rewrite u32_window_range by lia. wp_step.
  assert (forall x, sector d' x = if (s <=? x) && (x <? s + cc) then slice wbuff (Z.to_nat ((x - s) * 512)) 512 else sector (disk v) x) as E'.
  { intros x. rewrite E. destruct (Z.leb_spec s x), (Z.ltb_spec x (s + cc)); cbn [andb]; try done.
    apply run_slice; unfold zlen; lia. }
  destruct ((s <=? winsect (fs v)) && (winsect (fs v) <? s + cc)) eqn:Ein; unfold when.
  - pose proof Ein as Ein'. apply andb_true_iff in Ein as [E1 E2]. apply Z.leb_le in E1. apply Z.ltb_lt in E2.
    wp_step. apply wp_upd_win. apply wp_setfs. apply wp_ret. cbn [fs disk]. apply HQ.
    assert (mem_cpy 0 (drop (Z.to_nat (u32 (winsect (fs v) - s) * 512)) wbuff) 512 (win (fs v)) =
            sector d' (winsect (fs v))) as Ew.
    { rewrite E', Ein'. rewrite u32_small by (unfold is_u32; lia). unfold mem_cpy, splice, slice.
      change (Z.to_nat 0) with 0%nat. change (Z.to_nat 512) with 512%nat. rewrite take_0, app_nil_l, (drop_ge (win (fs v))), app_nil_r; [done|].
      rewrite length_take, length_drop, (wf_len v W). lia. }
    split; [|split; [done|split; [done|split; [done|]]]].
    + destruct W as [W1 W2 W3 W4 W5 W6 W7]. constructor; cbn; rewrite ?Ew; auto; try done.
      * apply sector_length.
      * apply sector_bytes.
      * intros _. right. split; [|done]. split; [apply Hr; lia|lia].
    + intros x Hx. rewrite lsec_clean by done. cbn [disk]. rewrite E'.
      destruct ((s <=? x) && (x <? s + cc)) eqn:Ex; [done|]. unfold lsec.
      destruct (Z.eqb_spec x (winsect (fs v))) as [->|]; [congruence|]. by rewrite andb_false_r.
  - apply wp_ret, wp_ret. apply HQ. split; [|split; [done|split; [done|split; [done|]]]].
    + destruct W as [W1 W2 W3 W4 W5 W6 W7]. constructor; cbn; auto.
      * intros Ef. destruct (W3 Ef) as [?|[? ?]]; [by left|right]. split; [done|]. by rewrite E', Ein.
      * intros Ef. destruct (W4 Ef) as (? & ? & ?). auto.
    + intros x Hx. unfold lsec. cbn [fs disk]. rewrite E'.
      destruct (nz (wflag (fs v)) && (x =? winsect (fs v))) eqn:Ex; [|done].
      apply andb_true_iff in Ex as [_ Ex]. apply Z.eqb_eq in Ex. subst x. by rewrite Ein.
Qed.

(** The end of a round that goes through the window, with the window at the
    sector of the pointer: [w] are the bytes in it. *)
Definition win_written v (s o : Z) (w data : list Z) v' : Prop :=
  wf v' /\ geo (fs v') = geo (fs v) /\ (forall x, ready (disk v) x -> ready (disk v') x) /\
  same_alloc (fs v) (fs v') /\
  (forall x, ~ mirror (fs v) x -> lsec v' x = if x =? s then splice w (Z.to_nat o) data else lsec v x).

Lemma splice_len_bytes (w data : list Z) o :
  length w = 512%nat -> Forall is_byte w -> Forall is_byte data -> (o + length data <= 512)%nat ->
  length (splice w o data) = 512%nat /\ Forall is_byte (splice w o data).
Proof.
  intros Hw Hb Hd Hl. split; [rewrite length_splice; lia|]. unfold splice.
  apply Forall_app_2; [by apply Forall_take|]. apply Forall_app_2; [done|by apply Forall_drop].
Qed.

(** The growing edge: the window is written back and taken over for sector [s]
    without reading it, then filled. *)
Lemma win_takeover v d' s o data :
  wf v -> (forall x, ~ mirror (fs v) x -> sector d' x = lsec v x) ->
  (forall x, ready (disk v) x -> ready d' x) ->
  ready (disk v) s -> ~ mirror (fs v) s -> 0 <= s < 0xFFFFFFFF -> Forall is_byte data ->
  0 <= o -> o + zlen data <= 512 ->
  win_written v s o (win (fs v)) data
    (Build_vol (set_wflag 1 (set_win (splice (win (fs v)) (Z.to_nat o) data) (set_winsect s (set_wflag 0 (fs v))))) d').
Proof.
  intros W E R Hr Hm Hs Hb Ho Hl. unfold zlen in Hl.
  destruct (splice_len_bytes (win (fs v)) data (Z.to_nat o) (wf_len v W) (wf_bytes v W) Hb ltac:(lia)) as [L1 L2].
  split; [|split; [done|split; [done|split; [done|]]]].
  - destruct W as [W1 W2 W3 W4 W5 W6 W7]. constructor; cbn; auto. done.
  - intros x Hx. unfold lsec at 1. cbn. destruct (Z.eqb_spec x s) as [->|]; [done|]. by apply E.
Qed.

(** A sector brought in and modified. *)
Lemma win_modified v v1 s o data :
  wf v1 -> same_view v v1 -> same_alloc (fs v) (fs v1) -> at_sector v1 s -> win (fs v1) = lsec v s ->
  Forall is_byte data -> 0 <= o -> o + zlen data <= 512 -> wf v ->
  win_written v s o (lsec v s) data (poke (fun w => splice w (Z.to_nat o) data) v1).
Proof.
  intros W1 V1 A1 At Ew Hb Ho Hl W. unfold zlen in Hl. pose proof V1 as (G & S & R).
  assert (lsec v1 s = lsec v s) as El by (by rewrite <- Ew, (as_win _ _ At)).
  destruct (splice_len_bytes (lsec v s) data (Z.to_nat o) (lsec_length v s W) (lsec_bytes v s W) Hb ltac:(lia)) as [L1 L2].
  split; [|split; [done|split; [done|split; [done|]]]].
  - apply (poke_wf _ v1 s); [done|done|by rewrite El|by rewrite El].
  - intros x Hx. rewrite (poke_lsec _ v1 s x At), El. destruct (x =? s); [done|]. by apply S.
Qed.

(** ** What a write has done

    [v] with the clusters [cl] is [v0] with the clusters [cl0] after [data] was
    stored at offset [off]: the chain has grown by clusters that were free,
    nothing outside the file has changed, and of the first [size] bytes and
    those up to the end of [data] exactly the bytes of [data] are new. *)
Record written v0 cl0 (size off : Z) (data : list Z) v cl : Prop := {
  wn_geo : geo (fs v) = geo (fs v0);
  wn_clusters : clusters_ok (fs v0) cl;
  wn_prefix : cl0 `prefix_of` cl;
  wn_new : forall c, c ∈ cl -> c ∉ cl0 -> fat_entry v0 c = 0;
  wn_entry : forall c, valid_clust (fs v0) c -> c ∉ cl -> fat_entry v c = fat_entry v0 c;
  wn_other : forall s, ~ mirror (fs v0) s -> ~ in_fat (fs v0) s ->
    (forall q, 0 <= q < chain_sectors (fs v0) cl -> s <> file_sector (fs v0) cl q) -> lsec v s = lsec v0 s;
  wn_bytes : forall j, 0 <= j < Z.max size (off + zlen data) ->
    file_byte v cl j = if (off <=? j) && (j <? off + zlen data) then getb data (j - off) else file_byte v0 cl0 j;
  wn_ready : forall s, ready (disk v0) s -> ready (disk v) s
}.

Lemma chain_sectors_app f cl cl' : 0 <= csize f -> chain_sectors f cl <= chain_sectors f (cl ++ cl').
Proof. intros Hc. unfold chain_sectors, zlen. rewrite length_app. nia. Qed.

Lemma chain_sectors_geo f f' cl : geo f' = geo f -> chain_sectors f' cl = chain_sectors f cl.
Proof. intros G. unfold chain_sectors. destruct (geo_fields _ _ G) as (_ & -> & _). done. Qed.

Lemma clusters_geo f f' cl : geo f' = geo f -> clusters_ok f' cl <-> clusters_ok f cl.
Proof.
  intros G. destruct (geo_fields _ _ G) as (_ & _ & _ & E4 & _). unfold clusters_ok, valid_clust. by rewrite E4.
Qed.

Lemma written_trans v0 cl0 size off d1 v1 cl1 size' d2 v2 cl2 :
  vol_geo (fs v0) -> 0 <= off -> Z.max size (off + zlen d1) <= size' ->
  written v0 cl0 size off d1 v1 cl1 -> written v1 cl1 size' (off + zlen d1) d2 v2 cl2 ->
  written v0 cl0 size off (d1 ++ d2) v2 cl2.
Proof.
  intros VG H0 Hs [A1 A2 A3 A4 A5 A6 A7 A8] [B1 B2 B3 B4 B5 B6 B7 B8]. pose proof (csize_pos _ VG) as Hcs.
  rewrite (clusters_geo _ _ _ A1) in B2. destruct (geo_fields _ _ A1) as (_ & _ & _ & E4 & _).
  assert (forall c, valid_clust (fs v1) c <-> valid_clust (fs v0) c) as Hvv by (intros; unfold valid_clust; by rewrite E4).
  constructor; [congruence|done|by transitivity cl1| | | | |by auto].
  - intros c Hc Hn. destruct (decide (c ∈ cl1)) as [Hin|Hin]; [by apply A4|].
    rewrite <- A5; [by apply B4| |done]. destruct B2 as [B2 _]. rewrite Forall_forall in B2. by apply B2.
  - intros c Hc Hn. assert (c ∉ cl1) as Hn1.
    { intros Hin. apply Hn. destruct B3 as [k ->]. apply elem_of_app. by left. }
    rewrite B5, A5; [done|done|done|by apply Hvv|done].
  - intros s Hm Hf Hs'. rewrite B6, A6; try done.
    + intros q Hq. destruct B3 as [k ->]. rewrite <- (file_sector_app _ cl1 k) by lia. apply Hs'.
      pose proof (chain_sectors_app (fs v0) cl1 k ltac:(lia)). lia.
    + by rewrite (geo_mirror _ _ _ A1).
    + by rewrite (geo_in_fat _ _ _ A1).
    + intros q Hq. rewrite (geo_file_sector _ _ _ _ A1). rewrite (chain_sectors_geo _ _ _ A1) in Hq. by apply Hs'.
  - intros j Hj. rewrite zlen_app in Hj |- *. pose proof (zlen_nonneg d1). pose proof (zlen_nonneg d2).
    rewrite B7 by lia.
    destruct ((off + zlen d1 <=? j) && (j <? off + zlen d1 + zlen d2)) eqn:E.
    + apply andb_true_iff in E as [E1 E2]. apply Z.leb_le in E1. apply Z.ltb_lt in E2.
      rewrite (proj2 (Z.leb_le off j)), (proj2 (Z.ltb_lt j (off + (zlen d1 + zlen d2)))) by lia. cbn [andb].
      rewrite getb_app_r by lia. f_equal. lia.
    + assert (j < off + zlen d1 \/ off + zlen d1 + zlen d2 <= j) as Hd.
      { destruct (Z.leb_spec (off + zlen d1) j), (Z.ltb_spec j (off + zlen d1 + zlen d2)); lia || discriminate. }
      rewrite A7 by lia.
      destruct (Z.leb_spec off j); cbn [andb]; [|done].
      destruct (Z.ltb_spec j (off + zlen d1)), (Z.ltb_spec j (off + (zlen d1 + zlen d2))); try lia; try done.
      symmetry. apply getb_app_l. lia.
Qed.

Lemma written_view v cl size off v' :
  vol_ok v -> clusters_ok (fs v) cl -> size <= chain_sectors (fs v) cl * SS -> off <= chain_sectors (fs v) cl * SS ->
  same_view v v' -> written v cl size off [] v' cl.
Proof.
  intros VK CO Hs Ho V. pose proof V as (G & S & R). constructor; try done.
  - intros c Hc _. apply fat_entry_view; [apply VK|apply VK|done|done].
  - intros s Hm _ _. by apply S.
  - intros j Hj. change (zlen (@nil Z)) with 0 in *. rewrite Z.add_0_r in *.
    assert ((off <=? j) && (j <? off) = false) as ->.
    { destruct (Z.leb_spec off j), (Z.ltb_spec j off); done || lia. }
    unfold file_byte. rewrite (geo_file_sector _ _ _ _ G), S; [done|].
    apply (data_off_fat v); [done|]. apply file_sector_data; [apply VK|apply CO|]. apply sector_in_range. lia.
Qed.

Lemma fat_not_file v cl s q : vol_ok v -> clusters_ok (fs v) cl -> in_fat (fs v) s ->
  0 <= q < chain_sectors (fs v) cl -> s <> file_sector (fs v) cl q.
Proof.
  intros VK [Hv _] Hf Hq ->. apply (data_off_fat v) in Hf as []; [done|].
  apply file_sector_data; [apply VK|done|done].
Qed.

(** Storing bytes keeps the volume and every FAT entry. *)
Lemma stored_entries v v' cl size off data c :
  vol_ok v -> clusters_ok (fs v) cl -> stored v v' cl size off data -> valid_clust (fs v) c ->
  fat_entry v' c = fat_entry v c.
Proof.
  intros VK CO [S1 S2 S3 S4 S5 S6] Hc. apply fat_entry_off; [done|apply VK|apply VK|done|].
  intros s Hs. apply S5; [apply mirror_in_fat; [apply (wf_fat v), VK|done]|].
  intros q Hq. by eapply fat_not_file.
Qed.

Lemma vol_ok_entries v v' :
  vol_ok v -> wf v' -> geo (fs v') = geo (fs v) -> (forall s, ready (disk v) s -> ready (disk v') s) ->
  (forall c, valid_clust (fs v) c -> fat_entry v' c <> 1) -> 0 <= last_clust (fs v') -> vol_ok v'.
Proof.
  intros [W VG Sa La HA HR] W' G R Hc Hl. destruct (geo_fields _ _ G) as (E1 & E2 & E3 & E4 & E5 & E6 & E7 & E8).
  assert (n_fats (fs v') = n_fats (fs v)) as En by (unfold geo in G; congruence).
  constructor; try done; [by eapply geo_vol_geo| |by rewrite E5, E6, E8, En|].
  - intros c Hv. apply Hc. unfold valid_clust in *. by rewrite <- E4.
  - intros s. rewrite (data_sector_geo _ _ _ G). auto.
Qed.

Lemma written_stored v v' cl size off data :
  vol_ok v -> clusters_ok (fs v) cl -> stored v v' cl size off data ->
  vol_ok v' /\ written v cl size off data v' cl.
Proof.
  intros VK CO ST. pose proof ST as [S1 S2 S3 S4 S5 S6]. split.
  - apply (vol_ok_entries v); try done.
    + intros c Hc. rewrite (stored_entries v v' cl size off data) by done. by apply (vk_sane v VK).
    + destruct S4 as [-> _]. apply VK.
  - constructor; try done.
    + intros c Hc _. by eapply stored_entries.
    + intros s Hm _ Hs. by apply S5.
Qed.

(** ** Growing the chain *)

Lemma chain_snoc v v' c cl x :
  n_fatent (fs v') = n_fatent (fs v) -> chain v c cl -> cl <> [] ->
  (forall y, y ∈ cl -> y <> List.last cl 0 -> fat_entry v' y = fat_entry v y) ->
  fat_entry v' (List.last cl 0) = x -> valid_clust (fs v) x -> n_fatent (fs v) <= fat_entry v' x ->
  chain v' c (cl ++ [x]).
Proof.
  intros En Hch. induction Hch as [c Hc|c l Hv He Hch IH]; intros Hne Hkeep Hlast Hx Hend; [done|].
  assert (valid_clust (fs v') c) as Hv' by (unfold valid_clust in *; by rewrite En).
  destruct l as [|d l].
  - cbn in Hlast |- *. apply chain_step; [done|rewrite Hlast; apply Hx|]. rewrite Hlast.
    apply chain_step; [by unfold valid_clust in *; rewrite En|destruct Hx; lia|].
    constructor. by rewrite En.
  - assert (c <> List.last (d :: l) 0) as Hcl.
    { intros E. assert (NoDup (c :: d :: l)) as Hnd by (apply (chain_NoDup v c); by apply chain_step).
      apply NoDup_cons in Hnd as [Hnd _]. apply Hnd. rewrite E. apply list_elem_of_In.
      destruct (exists_last (l := d :: l)) as (l' & a & El); [done|]. rewrite El, last_last. apply in_app_iff. right. by left. }
    assert (fat_entry v' c = fat_entry v c) as Ec by (apply Hkeep; [apply elem_of_cons; by left|done]).
    cbn [app]. apply chain_step; [done|by rewrite Ec|]. rewrite Ec. apply IH; try done.
    intros y Hy Hyl. apply Hkeep; [apply elem_of_cons; by right|done].
Qed.

(** An allocated cluster behind the chain [cl] (empty: a new chain). *)
Lemma written_alloc v v' clst cl c :
  vol_ok v -> (cl = [] /\ clst = 0) \/ (cl <> [] /\ List.last cl 0 = clst /\ exists c0, chain v c0 cl) ->
  allocated v v' clst c ->
  vol_ok v' /\ written v cl (chain_sectors (fs v) cl * SS) 0 [] v' (cl ++ [c]) /\
  (forall c0, chain v c0 cl -> cl <> [] -> chain v' c0 (cl ++ [c])) /\ (cl = [] -> chain v' c [c]).
Proof.
  intros VK Hcl [A1 A2 A3 A4 A5 A6]. pose proof A4 as [U1 U2 U3 U4]. pose proof (vk_geo v VK) as VG.
  pose proof (csize_pos _ VG) as Hcs. pose proof (EOC_end (fs v) (vg_fat _ VG)) as HE.
  pose proof (fg_bound _ (vg_fat _ VG)) as Hn. destruct (geo_fields _ _ U1) as (_ & E2 & _ & E4 & _).
  assert (c ∉ cl) as Hnin.
  { intros Hin. destruct Hcl as [[-> _]|(_ & _ & c0 & Hch)]; [by apply not_elem_of_nil in Hin|].
    apply list_elem_of_lookup_1 in Hin as [k Hk]. pose proof (lookup_lt_Some _ _ _ Hk) as Hlt.
    destruct (chain_next v c0 cl k Hch Hlt) as [Hge _]. rewrite (nth_lookup_Some _ _ _ _ Hk) in Hge. lia. }
  assert (clusters_ok (fs v) cl) as [CO1 CO2].
  { destruct Hcl as [[-> _]|(_ & _ & c0 & Hch)]; [split; [done|constructor]|by eapply chain_clusters]. }
  assert (clusters_ok (fs v) (cl ++ [c])) as CO.
  { split; [apply Forall_app_2; [done|by constructor]|]. apply NoDup_app. split; [done|]. split; [|apply NoDup_singleton].
    intros y Hy ->%list_elem_of_singleton. done. }
  assert (clst ∈ cl \/ clst = 0) as Hclst.
  { destruct Hcl as [[_ ->]|(Hne & <- & _)]; [by right|left]. destruct (exists_last Hne) as (l & a & ->).
    rewrite last_last. apply elem_of_app. right. by apply list_elem_of_singleton. }
  assert (c <> clst) as Hcc by (intros ->; destruct Hclst as [?|E]; [done|rewrite E in A2; destruct A2; lia]).
  assert (fat_entry v' c = EOC (fs v)) as Ec.
  { rewrite U4 by done. rewrite (proj2 (Z.eqb_neq c clst)), andb_false_r, Z.eqb_refl by done. done. }
  split; [|split; [|split]].
  - apply (vol_ok_entries v); try done; [|rewrite A5; destruct A2; lia].
    intros x Hx. rewrite U4 by done. destruct (_ && _); [destruct A2; lia|]. destruct (x =? c); [lia|by apply (vk_sane v VK)].
  - constructor; try done.
    + by exists [c].
    + intros x Hx Hn'. apply elem_of_app in Hx as [?|Hx]; [done|]. apply list_elem_of_singleton in Hx as ->. done.
    + intros x Hx Hn'. rewrite U4 by done. assert (x <> c) as Hxc by (intros ->; apply Hn', elem_of_app; right; by apply list_elem_of_singleton).
      assert (x <> clst) as Hxs by (intros ->; destruct Hclst as [?|E]; [apply Hn', elem_of_app; by left|rewrite E in Hx; destruct Hx; lia]).
      rewrite (proj2 (Z.eqb_neq x clst)), (proj2 (Z.eqb_neq x c)), andb_false_r by done. done.
    + intros s Hm Hf _. by apply U3.
    + intros j Hj. change (zlen (@nil Z)) with 0 in *.
      assert ((0 <=? j) && (j <? 0 + 0) = false) as ->.
      { destruct (Z.leb_spec 0 j), (Z.ltb_spec j (0 + 0)); done || lia. }
      assert (0 <= j / SS < chain_sectors (fs v) cl) as Hq by (apply sector_in_range; lia).
      destruct (data_off_fat v _ VK (file_sector_data _ _ _ VG CO1 Hq)) as (Hm & Hf & _).
      unfold file_byte. rewrite (geo_file_sector _ _ _ _ U1), (file_sector_app _ cl [c]) by (done || lia). by rewrite U3.
  - intros c0 Hch Hne. destruct Hcl as [[? _]|(_ & El & _)]; [done|].
    assert (clst <> 0) as Hz.
    { destruct Hclst as [Hin|E]; [|]; [destruct (chain_valid v c0 cl clst Hch Hin); lia|].
      exfalso. destruct (exists_last Hne) as (l & a & E'). rewrite E' in El. rewrite last_last in El.
      assert (a ∈ cl) as Ha by (rewrite E'; apply elem_of_app; right; by apply list_elem_of_singleton).
      destruct (chain_valid v c0 cl a Hch Ha). lia. }
    apply (chain_snoc v v' c0 cl c); try done; [| |by rewrite Ec].
    + intros y Hy Hyl. rewrite U4 by (by apply (chain_valid v c0 cl)).
      rewrite (proj2 (Z.eqb_neq y clst)), andb_false_r by congruence.
      rewrite (proj2 (Z.eqb_neq y c)); [done|]. by intros ->.
    + rewrite El. destruct Hclst as [Hin|?]; [|done]. rewrite U4 by (by apply (chain_valid v c0 cl)).
      rewrite (proj2 (Z.eqb_neq clst 0)), Z.eqb_refl by done. done.
  - intros _. apply chain_step; [by unfold valid_clust in *; rewrite E4|lia|]. rewrite Ec. constructor. by rewrite E4.
Qed.

(** ** The file object during a write *)

Record wfile v (fp : FIL) cl : Prop := {
  wl_chain : (cl = [] /\ f_sclust fp = 0) \/ (cl <> [] /\ chain v (f_sclust fp) cl);
  wl_size : 0 <= f_fsize fp <= chain_sectors (fs v) cl * SS;
  wl_ptr : 0 <= fptr fp <= chain_sectors (fs v) cl * SS
}.

(** The current cluster and sector belong to the bytes before the pointer. *)
Definition at_ptr f (fp : FIL) cl : Prop :=
  (0 < fptr fp -> f_clust fp = nth (Z.to_nat ((fptr fp - 1) / (csize f * SS))) cl 0) /\
  (fptr fp mod SS <> 0 -> dsect fp = file_sector f cl (fptr fp / SS)).

Lemma wfile_clusters v fp cl : wfile v fp cl -> clusters_ok (fs v) cl.
Proof.
  intros [[[-> _]|[_ Hch]] _ _]; [|by eapply chain_clusters]. split; [done|constructor].
Qed.

Lemma wfile_view v v' fp cl : vol_ok v -> same_view v v' -> wfile v fp cl -> wfile v' fp cl.
Proof.
  intros VK V [F1 F2 F3]. constructor; rewrite ?(chain_sectors_geo _ _ _ (proj1 V)); try done.
  destruct F1 as [?|[? ?]]; [by left|right]. split; [done|]. by eapply chain_view; [apply VK|apply VK|..].
Qed.

(** The cluster index of a pointer on a cluster boundary. *)
Lemma boundary_index v fp cl :
  vol_ok v -> wfile v fp cl -> fptr fp mod (csize (fs v) * 512) = 0 ->
  let k := fptr fp / (csize (fs v) * 512) in
  fptr fp = k * (csize (fs v) * 512) /\ 0 <= k <= zlen cl /\
  (0 < fptr fp -> 1 <= k /\ (fptr fp - 1) / (csize (fs v) * 512) = k - 1).
Proof.
  intros VK [_ _ F3] Hm k. pose proof (csize_pos _ (vk_geo v VK)) as Hcs. unfold chain_sectors, SS in F3.
  pose proof (Z.div_mod (fptr fp) (csize (fs v) * 512) ltac:(lia)) as Ed. rewrite Hm in Ed. fold k in Ed.
  split; [lia|]. split; [nia|]. intros Hp. split; [nia|].
  pose proof (ptr_clust (fptr fp) (csize (fs v)) ltac:(lia) Hp) as E. rewrite Hm in E. exact E.
Qed.

Lemma last_nth (l : list Z) : l <> [] -> List.last l 0 = nth (length l - 1) l 0.
Proof.
  intros Hne. destruct (exists_last Hne) as (l' & a & ->). rewrite last_last, length_app. cbn [length].
  rewrite app_nth2 by lia. by replace (length l' + 1 - 1 - length l')%nat with 0%nat by lia.
Qed.

(** The file object with its next cluster. *)
Definition with_clust (fp : FIL) (sc c : Z) : FIL := set_f_clust c (set_f_sclust sc fp).

(** The return of [write_clust] for a cluster number. *)
Lemma write_clust_ret fp c : 2 <= c < 2 ^ 28 ->
  (if c =? 0 then inl None else if c =? 1 then inl (Some FR_INT_ERR) else if c =? 0xFFFFFFFF then inl (Some FR_DISK_ERR)
   else let fp := set_f_clust c fp in inr (if f_sclust fp =? 0 then set_f_sclust c fp else fp)) =
  (inr (with_clust fp (if f_sclust fp =? 0 then c else f_sclust fp) c) : option FRESULT + FIL).
Proof.
  intros Hc. rewrite (proj2 (Z.eqb_neq c 0)), (proj2 (Z.eqb_neq c 1)), (proj2 (Z.eqb_neq c 0xFFFFFFFF)) by lia.
  unfold with_clust. destruct fp. cbn. by destruct (_ =? 0).
Qed.

(** What the choice of the cluster promises when there is one. *)
Record moved v (fp : FIL) cl v' (fp' : FIL) cl' : Prop := {
  mv_vol : vol_ok v';
  mv_written : written v cl (chain_sectors (fs v) cl * SS) 0 [] v' cl';
  mv_file : wfile v' fp' cl';
  mv_room : fptr fp < chain_sectors (fs v) cl' * SS;
  mv_fields : exists sc, fp' = with_clust fp sc (nth (Z.to_nat (fptr fp / (csize (fs v) * 512))) cl' 0)
}.

Lemma moved_old v fp cl v' :
  vol_ok v -> wfile v fp cl -> fptr fp mod (csize (fs v) * 512) = 0 -> vol_ok v' -> same_view v v' ->
  let k := fptr fp / (csize (fs v) * 512) in
  k < zlen cl -> moved v fp cl v' (with_clust fp (f_sclust fp) (nth (Z.to_nat k) cl 0)) cl.
Proof.
  intros VK FO Hm VK' V' k Hlt. pose proof (csize_pos _ (vk_geo v VK)) as Hcs.
  destruct (boundary_index v fp cl VK FO Hm) as (Ek & Hk & _). fold k in Ek, Hk.
  constructor; [done| | |unfold chain_sectors, SS; nia|by eexists].
  - apply written_view; [done|by eapply wfile_clusters|lia|destruct FO; lia|done].
  - apply (wfile_view v); try done. destruct FO. by constructor.
Qed.

Lemma moved_new v fp cl v' clst c :
  vol_ok v -> wfile v fp cl -> fptr fp = zlen cl * (csize (fs v) * 512) ->
  (cl = [] /\ clst = 0) \/ (cl <> [] /\ List.last cl 0 = clst) -> allocated v v' clst c ->
  moved v fp cl v' (with_clust fp (if f_sclust fp =? 0 then c else f_sclust fp) c) (cl ++ [c]).
Proof.
  intros VK FO Hp Hcl Al. pose proof FO as [F1 F2 F3]. pose proof (csize_pos _ (vk_geo v VK)) as Hcs.
  destruct (written_alloc v v' clst cl c) as (VK' & WR & Hch & Hch0); [done| |done|].
  { destruct Hcl as [?|[? ?]]; [by left|right]. split; [done|]. split; [done|]. destruct F1 as [[? _]|[_ ?]]; [done|]. by eexists. }
  pose proof (wn_geo _ _ _ _ _ _ _ WR) as G.
  assert (chain_sectors (fs v) (cl ++ [c]) = chain_sectors (fs v) cl + csize (fs v)) as Ecs.
  { unfold chain_sectors, zlen. rewrite length_app. cbn [length]. lia. }
  constructor; [done|done| |rewrite Ecs; unfold chain_sectors, SS; lia|].
  - constructor; rewrite ?(chain_sectors_geo _ _ _ G), ?Ecs; cbn -[Z.mul]; [|unfold SS in *; lia|unfold SS in *; lia].
    right. split; [by destruct cl|]. destruct F1 as [[-> E0]|[Hne Hc]].
    + rewrite E0. cbn. by apply Hch0.
    + destruct (chain_head _ _ _ Hc Hne) as [[V1 _] _]. rewrite (proj2 (Z.eqb_neq (f_sclust fp) 0)) by lia. by apply Hch.
  - eexists. f_equal. rewrite Hp, Z.div_mul by lia. unfold zlen. by rewrite Nat2Z.id, app_nth2, Nat.sub_diag by lia.
Qed.

(** On a cluster boundary behind the first cluster. *)
Lemma wp_write_next v fp cl :
  vol_ok v -> wfile v fp cl -> at_ptr (fs v) fp cl -> fptr fp mod (csize (fs v) * 512) = 0 -> 0 < fptr fp ->
  wp (create_chain (f_clust fp))
    (fun r v' => (r = 0 /\ vol_ok v' /\ same_view v v' /\ fptr fp = zlen cl * (csize (fs v) * 512) /\
                    forall x, valid_clust (fs v) x -> fat_entry v x <> 0) \/
                 (2 <= r < 2 ^ 28 /\ exists cl', moved v fp cl v' (with_clust fp (if f_sclust fp =? 0 then r else f_sclust fp) r) cl')) v.
Proof.
  intros VK FO [AP _] Hm Hp. destruct (boundary_index v fp cl VK FO Hm) as (Ek & Hk & Hk1). destruct (Hk1 Hp) as [Hk2 Hk3].
  pose proof (moved_old v fp cl) as Hold. set (k := fptr fp / (csize (fs v) * 512)) in *. pose proof (vk_geo v VK) as VG.
  pose proof (vg_fat _ VG) as FG. pose proof (fg_bound _ FG) as Hn.
  destruct (wl_chain _ _ _ FO) as [[-> E0]|[Hne Hc]]; [unfold zlen in Hk; cbn in Hk; lia|].
  destruct (chain_head _ _ _ Hc Hne) as [[V1 V2] _].
  specialize (AP Hp). change SS with 512 in AP. rewrite Hk3 in AP. unfold zlen in *.
  assert (Z.to_nat (k - 1) < length cl)%nat as Hlt by lia.
  pose proof (chain_nth v _ cl _ Hc Hlt) as [U1 U2]. rewrite <- AP in U1, U2.
  destruct (chain_next v _ cl _ Hc Hlt) as (N1 & N2 & N3). rewrite <- AP in N1, N2, N3.
  eapply wp_mono; [apply create_chain_spec; [apply VK|done|apply VK|apply VK|by right]|].
  cbv zeta. intros r v' [W' Hr]. rewrite (proj2 (Z.eqb_neq (f_clust fp) 0)) in Hr by lia. cbn [orb] in Hr.
  destruct (Z.leb_spec (n_fatent (fs v)) (fat_entry v (f_clust fp))) as [Hend|Hin].
  - assert (k = Z.of_nat (length cl)) as Ekl.
    { destruct (Z.eq_dec k (Z.of_nat (length cl))) as [|Hx]; [done|].
      rewrite N2 in Hend by lia. pose proof (chain_nth v _ cl (S (Z.to_nat (k - 1))) Hc ltac:(lia)) as [_ ?]. lia. }
    destruct Hr as [(-> & V' & A' & Hno)|[Al _]];
      [left; split; [done|]; split; [by apply (vol_ok_view v)|]; split; [done|]; split; [unfold zlen; lia|done]|right].
    split; [destruct (al_valid _ _ _ _ Al); lia|]. exists (cl ++ [r]). apply (moved_new v fp cl v' (f_clust fp)); try done; [unfold zlen; lia|].
    right. split; [done|]. rewrite last_nth by done. rewrite AP. f_equal. lia.
  - destruct Hr as (-> & V' & A'). rewrite (proj2 (Z.ltb_ge _ 2)) by lia. right. split; [lia|].
    rewrite (proj2 (Z.eqb_neq (f_sclust fp) 0)) by lia.
    assert (S (Z.to_nat (k - 1)) < length cl)%nat as Hlt2.
    { destruct (Nat.eq_dec (S (Z.to_nat (k - 1))) (length cl)) as [E|]; [|lia]. specialize (N3 E). lia. }
    exists cl. rewrite N2 by done. replace (S (Z.to_nat (k - 1))) with (Z.to_nat k) by lia.
    apply Hold; try done; [by apply (vol_ok_view v)|lia].
Qed.

Lemma wp_write_clust v fp cl (Q : option FRESULT + FIL -> vol D -> Prop) :
  vol_ok v -> wfile v fp cl -> at_ptr (fs v) fp cl -> fptr fp mod (csize (fs v) * 512) = 0 ->
  (forall v', vol_ok v' -> same_view v v' -> (forall x, valid_clust (fs v) x -> fat_entry v x <> 0) -> Q (inl None) v') ->
  (forall v' cl' fp', moved v fp cl v' fp' cl' -> Q (inr fp') v') ->
  wp (write_clust fp) Q v.
Proof.
  intros VK FO AP Hm Q0 Q1. pose proof (fg_bound _ (vg_fat _ (vk_geo v VK))) as Hn.
  destruct (boundary_index v fp cl VK FO Hm) as (Ek & Hk & _). unfold write_clust. wp_step.
  destruct (Z.eqb_spec (fptr fp) 0) as [Ep|Ep].
  - destruct (wl_chain _ _ _ FO) as [[-> E0]|[Hne Hc]].
    + rewrite E0. cbn [Z.eqb]. eapply wp_mono; [apply create_chain_spec; [apply VK|apply VK|apply VK|apply VK|by left]|].
      cbv zeta. intros r v' [W' Hr]. cbn [Z.eqb orb] in Hr. apply wp_ret. destruct Hr as [(-> & V' & A' & Hno)|[Al _]].
      * apply Q0; [by apply (vol_ok_view v)|done|done].
      * rewrite write_clust_ret by (destruct (al_valid _ _ _ _ Al); lia).
        eapply Q1, (moved_new v fp [] v' 0 r VK FO Ep); [by left|done].
    + destruct (chain_head _ _ _ Hc Hne) as [[V1 V2] Hhd].
      assert ((f_sclust fp =? 0) = false) as Ez by (apply Z.eqb_neq; lia). rewrite Ez.
      apply wp_ret, wp_ret. rewrite write_clust_ret, Ez by lia.
      pose proof (moved_old v fp cl v VK FO Hm VK ltac:(done)) as MV. cbv zeta in MV.
      pose proof (csize_pos _ (vk_geo v VK)). rewrite Ep, Z.div_0_l in MV by lia.
      destruct cl as [|a cl]; [done|]. cbn in Hhd. subst a. apply (Q1 _ (f_sclust fp :: cl)). apply MV. unfold zlen. cbn. lia.
  - eapply wp_mono; [apply (wp_write_next v fp cl); try done; destruct FO; lia|].
    intros r v' [(-> & VK' & V' & _ & Hno)|(Hr & cl' & MV)]; apply wp_ret; [by apply Q0|].
    rewrite write_clust_ret by done. by eapply Q1.
Qed.

(** ** One round of the loop *)

(** The number of bytes of the current sector that a round transfers. *)
Definition piece (fp : FIL) (wbuff : list Z) : Z :=
  if SS - fptr fp mod SS >? zlen wbuff then zlen wbuff else SS - fptr fp mod SS.

Lemma piece_spec fp wbuff : 0 < zlen wbuff ->
  0 < piece fp wbuff <= zlen wbuff /\ fptr fp mod SS + piece fp wbuff <= SS /\
  zlen (take (Z.to_nat (piece fp wbuff)) wbuff) = piece fp wbuff.
Proof.
  intros Hl. destruct (sector_split (fptr fp)) as [_ B]. unfold piece.
  assert (forall n, 0 < n <= zlen wbuff -> zlen (take (Z.to_nat n) wbuff) = n) as Ht.
  { intros n Hn. unfold zlen in *. rewrite length_take. lia. }
  destruct (Z.gtb_spec (SS - fptr fp mod SS) (zlen wbuff)); rewrite Ht by lia; lia.
Qed.

(** The window holds the sector already, or it is brought in. *)
Lemma wp_write_partial_at v fp wbuff bw (Q : _ -> vol D -> Prop) :
  winsect (fs v) = dsect fp ->
  Q (inl (write_step fp wbuff bw (piece fp wbuff)))
    (poke (fun w => splice w (Z.to_nat (fptr fp mod SS)) (take (Z.to_nat (piece fp wbuff)) wbuff)) v) ->
  wp (write_partial fp wbuff bw) Q v.
Proof.
  intros E HQ. unfold write_partial. wp_step. unfold move_window. wp_step. apply wp_getfs. rewrite E, Z.eqb_refl.
  cbn [negb]. apply wp_ret. change (is_ok FR_OK) with true. cbn [negb]. wp_step. apply wp_upd_win. wp_step. apply wp_setfs.
  apply wp_ret. exact HQ.
Qed.

Lemma wp_write_partial v fp wbuff bw s (Q : _ -> vol D -> Prop) :
  wf v -> dsect fp = s -> ready (disk v) s -> ~ mirror (fs v) s -> 0 <= s < 0xFFFFFFFF ->
  Forall is_byte wbuff -> 0 < zlen wbuff ->
  (forall v', win_written v s (fptr fp mod SS) (lsec v s) (take (Z.to_nat (piece fp wbuff)) wbuff) v' ->
     Q (inl (write_step fp wbuff bw (piece fp wbuff))) v') ->
  wp (write_partial fp wbuff bw) Q v.
Proof.
  intros W Ed Hr Hm Hs Hb Hl HQ. destruct (piece_spec fp wbuff Hl) as (P1 & P2 & P3).
  destruct (sector_split (fptr fp)) as [_ B].
  unfold write_partial. rewrite Ed. wp_step. apply wp_move_window; [done..|]. intros v1 W1 V1 Es Ew A1 A2 A3.
  change (is_ok FR_OK) with true. cbn [negb]. wp_step. apply wp_upd_win. wp_step. apply wp_setfs. apply wp_ret. cbn [fs disk].
  apply HQ. apply win_modified; try done.
  - by apply (at_sector_view v v1).
  - by apply Forall_take.
  - lia.
  - rewrite P3. change SS with 512 in *. lia.
Qed.

(** The state in the middle of a round, when the cluster of the pointer is
    known: [k] bytes are done. *)
Definition same_handle (fp fp' : FIL) : Prop :=
  f_fsize fp' = f_fsize fp /\ flag fp' = flag fp /\ err fp' = err fp /\ f_fs fp' = f_fs fp /\
  f_id fp' = f_id fp /\ dir_sect fp' = dir_sect fp /\ dir_ptr fp' = dir_ptr fp.

Record mid v0 (fp0 : FIL) cl0 (buff : list Z) (k : Z) (fp : FIL) cl v : Prop := {
  md_vol : vol_ok v;
  md_file : wfile v fp cl;
  md_written : written v0 cl0 (f_fsize fp0) (fptr fp0) (take (Z.to_nat k) buff) v cl;
  md_ptr : fptr fp = fptr fp0 + k;
  md_same : same_handle fp0 fp;
  md_room : fptr fp < chain_sectors (fs v0) cl * SS;
  md_clust : f_clust fp = nth (Z.to_nat (fptr fp / (csize (fs v0) * 512))) cl 0
}.

Record writing v0 (fp0 : FIL) cl0 (buff : list Z) (st : FIL * list Z * Z) v : Prop := {
  wr_vol : vol_ok v;
  wr_count : 0 <= snd st <= zlen buff;
  wr_rest : snd (fst st) = drop (Z.to_nat (snd st)) buff;
  wr_ptr : fptr (fst (fst st)) = fptr fp0 + snd st;
  wr_same : same_handle fp0 (fst (fst st));
  wr_file : exists cl, wfile v (fst (fst st)) cl /\ at_ptr (fs v0) (fst (fst st)) cl /\
            written v0 cl0 (f_fsize fp0) (fptr fp0) (take (Z.to_nat (snd st)) buff) v cl
}.

(** The hypotheses on the start of the write. *)
Record start v0 (fp0 : FIL) cl0 (buff : list Z) : Prop := {
  sa_vol : vol_ok v0;
  sa_file : wfile v0 fp0 cl0;
  sa_at : at_ptr (fs v0) fp0 cl0;
  sa_ptr : fptr fp0 <= f_fsize fp0;
  sa_bytes : Forall is_byte buff;
  sa_fit : fptr fp0 + zlen buff < 2 ^ 32
}.

Lemma zlen_take_le k (buff : list Z) : 0 <= k <= zlen buff -> zlen (take (Z.to_nat k) buff) = k.
Proof. unfold zlen. intros Hk. rewrite length_take. lia. Qed.

(** Operations that keep the view keep the middle state. *)
Lemma mid_view v0 fp0 cl0 buff k fp cl v v' :
  start v0 fp0 cl0 buff -> 0 <= k <= zlen buff -> vol_ok v' -> same_view v v' ->
  mid v0 fp0 cl0 buff k fp cl v -> mid v0 fp0 cl0 buff k fp cl v'.
Proof.
  intros SA Hk VK' V [M1 M2 M3 M4 M5 M6 M7]. constructor; try done; [by apply (wfile_view v)|].
  pose proof (wl_ptr _ _ _ M2) as Hp. pose proof (wl_size _ _ _ M2) as Hs. destruct M5 as (Ez & _).
  rewrite <- (app_nil_r (take _ _)).
  apply (written_trans v0 cl0 _ _ _ v cl (Z.max (f_fsize fp0) (fptr fp))); [apply SA|destruct (sa_file _ _ _ _ SA); lia| |done|].
  - rewrite zlen_take_le by done. lia.
  - rewrite zlen_take_le by done. apply written_view; [done|by eapply wfile_clusters|lia|lia|done].
Qed.

(** Storing the next [n] bytes ends the round. *)
Lemma mid_store v0 fp0 cl0 buff k fp cl v v' ds n :
  start v0 fp0 cl0 buff -> 0 <= k -> 0 < n -> k + n <= zlen buff ->
  mid v0 fp0 cl0 buff k fp cl v ->
  stored v v' cl (Z.max (f_fsize fp0) (fptr fp)) (fptr fp) (take (Z.to_nat n) (drop (Z.to_nat k) buff)) ->
  fptr fp mod (csize (fs v0) * 512) + n <= csize (fs v0) * 512 ->
  ((fptr fp + n) mod SS <> 0 -> ds = file_sector (fs v0) cl ((fptr fp + n) / SS)) ->
  writing v0 fp0 cl0 buff (write_step (set_dsect ds fp) (drop (Z.to_nat k) buff) k n) v'.
Proof.
  intros SA Hk Hn Hkn [M1 M2 M3 M4 M5 M6 M7] ST Hin Hds. pose proof (wfile_clusters _ _ _ M2) as CO.
  pose proof (sa_fit _ _ _ _ SA) as Hfit. pose proof (sa_file _ _ _ _ SA) as [_ _ Hp0].
  pose proof (vk_geo _ (sa_vol _ _ _ _ SA)) as VG. pose proof (csize_pos _ VG) as Hcs.
  destruct (written_stored v v' cl _ _ _ M1 CO ST) as [VK' WR]. pose proof (so_geo _ _ _ _ _ _ ST) as G.
  pose proof (wn_geo _ _ _ _ _ _ _ M3) as G0. pose proof (wl_ptr _ _ _ M2) as Hp. 
  assert (u32 (fptr fp + n) = fptr fp + n) as Eu by (apply u32_small; unfold is_u32; lia).
  unfold write_step. cbn [fptr set_dsect]. rewrite Eu. constructor; cbn [fst snd]; try done; [lia| |cbn; lia|].
  - rewrite drop_drop. f_equal. lia.
  - exists cl. split; [|split].
    + destruct M2 as [F1 F2 F3]. constructor; rewrite ?(chain_sectors_geo _ _ _ G); cbn; try done.
      * destruct F1 as [?|[? Hch]]; [by left|right]. split; [done|].
        eapply chain_ext; [apply (geo_fields _ _ G)| |exact Hch]. intros x Hx. by eapply stored_entries.
      * rewrite (chain_sectors_geo _ _ _ G0) in *. unfold chain_sectors in *.
        pose proof (Z.div_mod (fptr fp) (csize (fs v0) * 512) ltac:(lia)) as Ed. unfold SS in *.
        assert (fptr fp / (csize (fs v0) * 512) < zlen cl) by (apply Z.div_lt_upper_bound; lia). nia.
    + split; cbn; [|exact Hds]. intros _. rewrite M7. change SS with 512. f_equal. f_equal. symmetry. apply ptr_advance; lia.
    + assert (take (Z.to_nat (k + n)) buff = take (Z.to_nat k) buff ++ take (Z.to_nat n) (drop (Z.to_nat k) buff)) as ->.
      { replace (Z.to_nat (k + n)) with (Z.to_nat k + Z.to_nat n)%nat by lia.
        pose proof (slice_app buff 0 (Z.to_nat k) (Z.to_nat n)) as E. unfold slice in E. by rewrite drop_0 in E. }
      apply (written_trans v0 cl0 _ _ _ v cl (Z.max (f_fsize fp0) (fptr fp))); [done|lia|rewrite zlen_take_le; lia|done|].
      rewrite zlen_take_le by lia. by rewrite <- M4.
Qed.

(** The sector of the pointer. *)
Lemma mid_sector v0 fp0 cl0 buff k fp cl v :
  start v0 fp0 cl0 buff -> mid v0 fp0 cl0 buff k fp cl v ->
  let s := file_sector (fs v0) cl (fptr fp / SS) in
  data_sector (fs v) s /\ ready (disk v) s /\ ~ mirror (fs v) s /\ 0 <= s < 0xFFFFFFFF /\
  file_sector (fs v) cl (fptr fp / SS) = s /\ 0 <= fptr fp / SS < chain_sectors (fs v) cl.
Proof.
  intros SA [M1 M2 M3 M4 M5 M6 M7] s. pose proof (wn_geo _ _ _ _ _ _ _ M3) as G. pose proof (wl_ptr _ _ _ M2) as Hp.
  rewrite <- (chain_sectors_geo _ _ _ G) in M6.
  assert (0 <= fptr fp / SS < chain_sectors (fs v) cl) as Hq by (apply sector_in_range; lia).
  assert (file_sector (fs v) cl (fptr fp / SS) = s) as Es by (apply geo_file_sector; done).
  assert (data_sector (fs v) s) as Hd by (rewrite <- Es; apply file_sector_data; [apply M1|by eapply wfile_clusters|done]).
  destruct (data_off_fat v s M1 Hd) as (A1 & A2 & A3 & A4). done.
Qed.

(** What a round establishes when it goes round again. *)
Definition next_round v0 fp0 cl0 buff (wbuff : list Z) (r : FIL * list Z * Z + FRESULT * FIL * Z) v' : Prop :=
  match r with
  | inl st => writing v0 fp0 cl0 buff st v' /\ zlen (snd (fst st)) < zlen wbuff
  | inr _ => False
  end.

(** The bounds of a piece of the current sector. *)
Lemma piece_in_cluster v0 fp0 cl0 buff fp wbuff :
  start v0 fp0 cl0 buff -> 0 <= fptr fp -> 0 < zlen wbuff ->
  fptr fp mod (csize (fs v0) * 512) + piece fp wbuff <= csize (fs v0) * 512.
Proof.
  intros SA Hp Hl. destruct (piece_spec fp wbuff Hl) as (P1 & P2 & _). pose proof (csize_pos _ (vk_geo _ (sa_vol _ _ _ _ SA))) as Hcs.
  pose proof (Z.rem_mul_r (fptr fp) 512 (csize (fs v0)) ltac:(lia) ltac:(lia)) as Er. rewrite (Z.mul_comm 512) in Er.
  rewrite Er. pose proof (Z.mod_pos_bound (fptr fp / 512) (csize (fs v0)) ltac:(lia)). change SS with 512 in *. lia.
Qed.

(** A piece stored through the window, from old contents [w]. *)
Lemma mid_piece v0 fp0 cl0 buff k fp cl v w v' :
  start v0 fp0 cl0 buff -> 0 <= k < zlen buff -> mid v0 fp0 cl0 buff k fp cl v ->
  let wbuff := drop (Z.to_nat k) buff in
  let s := file_sector (fs v0) cl (fptr fp / SS) in
  length w = 512%nat -> (w = lsec v s \/ (fptr fp mod SS = 0 /\ f_fsize fp <= fptr fp)) ->
  win_written v s (fptr fp mod SS) w (take (Z.to_nat (piece fp wbuff)) wbuff) v' ->
  next_round v0 fp0 cl0 buff wbuff (inl (write_step (set_dsect s fp) wbuff k (piece fp wbuff))) v'.
Proof.
  intros SA Hk MD wbuff s Hw Hcase (W' & G & R & A & Hl). destruct (mid_sector _ _ _ _ _ _ _ _ SA MD) as (_ & _ & _ & _ & Es & Hq).
  fold s in Es. assert (zlen wbuff = zlen buff - k) as El by (unfold wbuff, zlen in *; rewrite length_drop; lia).
  destruct (piece_spec fp wbuff ltac:(lia)) as (P1 & P2 & P3). pose proof (wl_ptr _ _ _ (md_file _ _ _ _ _ _ _ _ MD)) as Hp.
  pose proof (wl_size _ _ _ (md_file _ _ _ _ _ _ _ _ MD)) as Hs. destruct (md_same _ _ _ _ _ _ _ _ MD) as (Ez & _).
  destruct (sector_split (fptr fp)) as [Ed Bd]. split.
  - apply (mid_store v0 fp0 cl0 buff k fp cl v); try done; try lia.
    + apply (stored_sector v v' cl _ _ _ w); try done; fold wbuff; rewrite ?P3, ?Es; try done; try lia.
      * apply MD.
      * by eapply wfile_clusters, MD.
      * change SS with 512 in *. nia.
      * destruct Hcase as [?|[? ?]]; [by left|right]. lia.
    + by apply (piece_in_cluster v0 fp0 cl0 buff); [|lia|lia].
    + intros Hm. unfold s. f_equal. change SS with 512 in *. Z.div_mod_to_equations. lia.
  - unfold write_step. cbn. unfold zlen in *. rewrite length_drop. lia.
Qed.

Lemma wp_round_window v0 fp0 cl0 buff k fp cl v :
  start v0 fp0 cl0 buff -> 0 <= k < zlen buff -> mid v0 fp0 cl0 buff k fp cl v ->
  dsect fp = file_sector (fs v0) cl (fptr fp / SS) ->
  let wbuff := drop (Z.to_nat k) buff in
  wp (write_partial fp wbuff k) (next_round v0 fp0 cl0 buff wbuff) v.
Proof.
  intros SA Hk MD Hd wbuff. destruct (mid_sector _ _ _ _ _ _ _ _ SA MD) as (_ & S1 & S2 & S3 & _).
  pose proof (vk_wf _ (md_vol _ _ _ _ _ _ _ _ MD)) as W.
  apply (wp_write_partial v fp wbuff k _ _ W Hd); try done.
  - apply Forall_drop, SA.
  - unfold wbuff, zlen in *. rewrite length_drop. lia.
  - intros v' WW. replace fp with (set_dsect (file_sector (fs v0) cl (fptr fp / SS)) fp) at 1 by (rewrite <- Hd; by destruct fp).
    eapply (mid_piece v0 fp0 cl0 buff k fp cl v); try done; [by apply lsec_length|by left].
Qed.

(** The growing edge. *)
Lemma wp_round_edge v0 fp0 cl0 buff k fp cl v :
  start v0 fp0 cl0 buff -> 0 <= k < zlen buff -> mid v0 fp0 cl0 buff k fp cl v ->
  fptr fp mod SS = 0 -> f_fsize fp <= fptr fp ->
  let wbuff := drop (Z.to_nat k) buff in
  let s := file_sector (fs v0) cl (fptr fp / SS) in
  wp (let! bad := (let! res := sync_window in
                   if negb (is_ok res) then ret true else setfs (set_winsect s) ;;; ret false) in
      if bad : bool then let! r := abort FR_DISK_ERR fp k in ret (inr r)
      else write_partial (set_dsect s fp) wbuff k)
     (next_round v0 fp0 cl0 buff wbuff) v.
Proof.
  intros SA Hk MD Hm Hz wbuff s. destruct (mid_sector _ _ _ _ _ _ _ _ SA MD) as (_ & S1 & S2 & S3 & _).
  pose proof (vk_wf _ (md_vol _ _ _ _ _ _ _ _ MD)) as W. fold s in S1, S2, S3.
  assert (zlen wbuff = zlen buff - k) as El by (unfold wbuff, zlen in *; rewrite length_drop; lia).
  destruct (piece_spec fp wbuff ltac:(lia)) as (P1 & P2 & P3).
  wp_step. wp_step. apply wp_sync_window; [done|]. intros d' E1 _ R1. change (is_ok FR_OK) with true. cbn [negb].
  wp_step. apply wp_setfs, wp_ret. cbn [fs disk]. apply wp_write_partial_at; [done|].
  change (piece (set_dsect s fp) wbuff) with (piece fp wbuff). cbn [fptr set_dsect].
  apply (mid_piece v0 fp0 cl0 buff k fp cl v (win (fs v))); try done; [apply W|by right|].
  refine (win_takeover v d' s (fptr fp mod SS) _ W E1 R1 S1 S2 S3 _ _ _); [apply Forall_take, Forall_drop, SA|lia|].
  fold wbuff. rewrite P3. change SS with 512 in *. lia.
Qed.

(** Whole sectors. *)
Lemma wp_round_direct v0 fp0 cl0 buff k fp cl v :
  start v0 fp0 cl0 buff -> 0 <= k < zlen buff -> mid v0 fp0 cl0 buff k fp cl v -> fptr fp mod SS = 0 ->
  let wbuff := drop (Z.to_nat k) buff in
  let csect := fptr fp / SS mod csize (fs v0) in
  let cc := if csect + zlen wbuff / SS >? csize (fs v0) then csize (fs v0) - csect else zlen wbuff / SS in
  zlen wbuff / SS <> 0 ->
  wp (let! ok := write_direct wbuff (file_sector (fs v0) cl (fptr fp / SS)) cc in
      if ok : bool then ret (inl (write_step fp wbuff k (SS * cc)))
      else let! r := abort FR_DISK_ERR fp k in ret (inr r))
     (next_round v0 fp0 cl0 buff wbuff) v.
Proof.
  intros SA Hk MD Hm wbuff csect cc Hne. destruct (mid_sector _ _ _ _ _ _ _ _ SA MD) as (S0 & _ & _ & S3 & Es & Hq).
  pose proof (vk_geo _ (sa_vol _ _ _ _ SA)) as VG. pose proof (csize_pos _ VG) as Hcs.
  pose proof MD as [M1 M2 M3 M4 M5 M6 M7]. pose proof (wfile_clusters _ _ _ M2) as CO.
  pose proof (wn_geo _ _ _ _ _ _ _ M3) as G0. destruct (geo_fields _ _ G0) as (_ & Ec & _).
  assert (zlen wbuff = zlen buff - k) as El by (unfold wbuff, zlen in *; rewrite length_drop; lia).
  pose proof (Z.mod_pos_bound (fptr fp / SS) (csize (fs v0)) ltac:(lia)) as Bc. fold csect in Bc.
  assert (0 < cc /\ csect + cc <= csize (fs v0) /\ cc * 512 <= zlen wbuff) as (C1 & C2 & C3).
  { assert (0 < zlen wbuff / SS /\ zlen wbuff / SS * 512 <= zlen wbuff) as [B1 B2].
    { unfold SS in *. Z.div_mod_to_equations. lia. }
    unfold cc. destruct (Z.gtb_spec (csect + zlen wbuff / SS) (csize (fs v0))); lia. }
  destruct (sector_split (fptr fp)) as [Ed _]. rewrite Hm in Ed.
  assert (fptr fp / SS + cc <= chain_sectors (fs v) cl) as Hlast.
  { unfold chain_sectors in *. rewrite Ec in *. pose proof (Z.div_mod (fptr fp / SS) (csize (fs v0)) ltac:(lia)) as Ed'.
    fold csect in Ed'. assert (fptr fp / SS / csize (fs v0) < zlen cl) by (apply Z.div_lt_upper_bound; lia). nia. }
  assert (forall x, file_sector (fs v0) cl (fptr fp / SS) <= x < file_sector (fs v0) cl (fptr fp / SS) + cc ->
            ready (disk v) x /\ ~ mirror (fs v) x /\ 0 <= x < 0xFFFFFFFF) as Hx.
  { intros x Hx. assert (data_sector (fs v) x) as Hd.
    { replace x with (file_sector (fs v) cl (fptr fp / SS + (x - file_sector (fs v0) cl (fptr fp / SS)))).
      - apply file_sector_data; [apply M1|apply CO|lia].
      - rewrite file_sector_run, Es by (rewrite ?Ec; fold csect; lia). lia. }
    by destruct (data_off_fat v x M1 Hd) as (A1 & _ & A3 & A4). }
  pose proof (Hx (file_sector (fs v0) cl (fptr fp / SS) + cc - 1) ltac:(lia)) as (_ & _ & X2).
  wp_step. apply wp_write_direct; [apply M1|exact C1|lia|lia|exact C3|apply Forall_drop, SA|intros x Hxx; split; by apply Hx|].
  intros v' (W' & G & R & A & Hl). apply wp_ret.
  pose proof (wl_ptr _ _ _ M2) as Hp. pose proof (wl_size _ _ _ M2) as Hs. destruct M5 as (Ez & _).
  assert (zlen (take (Z.to_nat (SS * cc)) wbuff) = cc * 512) as Et by (unfold SS in *; rewrite zlen_take_le by lia; lia).
  split.
  - replace fp with (set_dsect (dsect fp) fp) at 1 by (by destruct fp).
    apply (mid_store v0 fp0 cl0 buff k fp cl v); try done; try (unfold SS; lia).
    + apply (stored_run v v' cl _ _ cc); try done; fold wbuff; rewrite ?Et, ?Ec; try done; try (change SS with 512 in *; lia).
      cbv zeta. rewrite Es. intros x Hmx. rewrite Hl by exact Hmx.
      destruct (Z.leb_spec (file_sector (fs v0) cl (fptr fp / SS)) x),
        (Z.ltb_spec x (file_sector (fs v0) cl (fptr fp / SS) + cc)); cbn [andb]; try done.
      symmetry. rewrite (Z.mul_comm SS). apply run_slice; lia.
    + pose proof (Z.rem_mul_r (fptr fp) 512 (csize (fs v0)) ltac:(lia) ltac:(lia)) as Er. rewrite (Z.mul_comm 512) in Er.
      rewrite Er. change SS with 512 in *. rewrite Hm. fold csect. lia.
    + intros Hne'. exfalso. apply Hne'. rewrite (Z.mul_comm SS), Z.mod_add; done.
  - unfold write_step. cbn [fst snd]. unfold zlen, SS in *. rewrite length_drop. lia.
Qed.

(** Behind the choice of the cluster. *)
Lemma wp_write_sector v0 fp0 cl0 buff k fp cl v :
  start v0 fp0 cl0 buff -> 0 <= k < zlen buff -> mid v0 fp0 cl0 buff k fp cl v -> fptr fp mod SS = 0 ->
  let wbuff := drop (Z.to_nat k) buff in
  wp (write_sector fp (fptr fp / SS mod csize (fs v0)) (csize (fs v0)) wbuff k) (next_round v0 fp0 cl0 buff wbuff) v.
Proof.
  intros SA Hk MD Hm wbuff. pose proof (vk_geo _ (sa_vol _ _ _ _ SA)) as VG. pose proof (csize_pos _ VG) as Hcs.
  pose proof MD as [M1 M2 M3 M4 M5 M6 M7]. unfold write_sector. wp_step. apply wp_getfs. wp_step.
  assert (wp (if winsect (fs v) =? dsect fp then let! res := sync_window in ret (negb (is_ok res)) else ret false)
    (fun bad v1 => bad = false /\ vol_ok v1 /\ same_view v v1) v) as Hsync.
  { destruct (_ =? _); [|by apply wp_ret]. wp_step. apply wp_sync_window; [apply M1|]. intros d' E1 _ R1. apply wp_ret.
    destruct (sync_window_view v d' (vk_wf _ M1) E1 R1) as [W' V']. split; [done|]. split; [|done]. by apply (vol_ok_view v). }
  eapply wp_mono; [exact Hsync|]. intros bad v1 (-> & VK1 & V1). apply (mid_view _ _ _ _ _ _ _ v v1) in MD as MD1; [|done|lia|done|done].
  clear Hsync. pose proof (wl_ptr _ _ _ M2) as Hp. pose proof MD1 as [N1 N2 N3 N4 N5 N6 N7].
  destruct (mid_sector _ _ _ _ _ _ _ _ SA MD1) as (_ & _ & _ & S3 & Es & Hq).
  wp_step. unfold cur_sector. wp_step. apply wp_getfs. apply wp_ret. unfold id.
  pose proof (wn_geo _ _ _ _ _ _ _ N3) as G1. destruct (geo_fields _ _ G1) as (_ & Ec & _ & _ & _ & _ & _ & Eb).
  assert ((Z.to_nat (fptr fp / (csize (fs v0) * 512)) < length cl)%nat) as Hkk by (apply ptr_in_chain; lia).
  assert (valid_clust (fs v1) (f_clust fp)) as Hv.
  { rewrite N7. pose proof (wfile_clusters _ _ _ N2) as [CO _]. rewrite Forall_forall in CO. by apply CO, list_elem_of_In, nth_In. }
  destruct (clust2sect_spec (fs v1) (f_clust fp) (vk_geo _ N1) Hv) as [Ecs Hpos].
  rewrite (proj2 (Z.eqb_neq (clust2sect _ _) 0)) by lia.
  assert (clust2sect (fs v1) (f_clust fp) + fptr fp / SS mod csize (fs v0) = file_sector (fs v0) cl (fptr fp / SS)) as Esec.
  { rewrite Ecs, Ec, Eb, N7. unfold file_sector. change SS with 512.
    by rewrite (proj1 (ptr_split (fptr fp) (csize (fs v0)) ltac:(lia) ltac:(lia) Hm)). }
  rewrite Esec, u32_small by (unfold is_u32; lia). cbv zeta.
  destruct (nz (zlen wbuff / SS)) eqn:Ecc.
  - apply nz_true in Ecc. by apply (wp_round_direct v0 fp0 cl0 buff k fp cl v1).
  - destruct (Z.geb_spec (fptr fp) (f_fsize fp)) as [Hge|Hlt].
    + by apply (wp_round_edge v0 fp0 cl0 buff k fp cl v1).
    + wp_step. apply wp_ret. apply (wp_round_window v0 fp0 cl0 buff k _ cl v1); try done.
      constructor; try done. destruct N2. by constructor.
Qed.

(** ** The loop *)

Lemma written_nil_off v0 cl0 size off off' v cl :
  off' <= Z.max size off -> written v0 cl0 size off [] v cl -> written v0 cl0 size off' [] v cl.
Proof.
  intros Ho [A1 A2 A3 A4 A5 A6 A7]. constructor; try done. intros j Hj. change (zlen (@nil Z)) with 0 in *.
  rewrite A7 by lia. assert (forall o, (o <=? j) && (j <? o + 0) = false) as E.
  { intros o. destruct (Z.leb_spec o j), (Z.ltb_spec j (o + 0)); done || lia. }
  by rewrite !E.
Qed.

Lemma at_ptr_geo f f' fp cl : geo f' = geo f -> at_ptr f fp cl -> at_ptr f' fp cl.
Proof.
  intros G [A1 A2]. destruct (geo_fields _ _ G) as (_ & E2 & _). split; [by rewrite E2|].
  by rewrite (geo_file_sector _ _ _ _ G).
Qed.

(** Inside a cluster the current cluster is the pointer's. *)
Lemma writing_mid v0 fp0 cl0 buff fp k v cl :
  start v0 fp0 cl0 buff -> writing v0 fp0 cl0 buff (fp, drop (Z.to_nat k) buff, k) v ->
  wfile v fp cl -> at_ptr (fs v0) fp cl -> written v0 cl0 (f_fsize fp0) (fptr fp0) (take (Z.to_nat k) buff) v cl ->
  fptr fp mod (csize (fs v0) * 512) <> 0 -> mid v0 fp0 cl0 buff k fp cl v.
Proof.
  intros SA [R1 R2 R3 R4 R5 _] FO [AP _] WR Hm. cbn [fst snd] in *.
  pose proof (csize_pos _ (vk_geo _ (sa_vol _ _ _ _ SA))) as Hcs. pose proof (wl_ptr _ _ _ FO) as Hp.
  rewrite (chain_sectors_geo _ _ _ (wn_geo _ _ _ _ _ _ _ WR)) in Hp.
  assert (fptr fp <> 0) as Hp0 by (intros E; rewrite E, Z.mod_0_l in Hm by lia; done).
  constructor; try done.
  - destruct (Z.eq_dec (fptr fp) (chain_sectors (fs v0) cl * SS)) as [E|]; [|lia]. exfalso. apply Hm. rewrite E.
    unfold chain_sectors, SS. replace (zlen cl * csize (fs v0) * 512) with (zlen cl * (csize (fs v0) * 512)) by lia.
    apply Z.mod_mul. lia.
  - rewrite AP by lia. change SS with 512. rewrite ptr_clust by lia. by rewrite (proj2 (Z.eqb_neq _ 0) Hm).
Qed.

(** After the choice of a cluster. *)
Lemma moved_mid v0 fp0 cl0 buff fp k v cl v' fp' cl' :
  start v0 fp0 cl0 buff -> writing v0 fp0 cl0 buff (fp, drop (Z.to_nat k) buff, k) v ->
  wfile v fp cl -> written v0 cl0 (f_fsize fp0) (fptr fp0) (take (Z.to_nat k) buff) v cl ->
  moved v fp cl v' fp' cl' -> mid v0 fp0 cl0 buff k fp' cl' v' /\ fptr fp' = fptr fp /\ f_fsize fp' = f_fsize fp.
Proof.
  intros SA [R1 R2 R3 R4 R5 _] FO WR [V1 V2 V3 V4 (sc & ->)]. cbn [fst snd] in *. split; [|done].
  pose proof (wn_geo _ _ _ _ _ _ _ WR) as G. destruct (geo_fields _ _ G) as (_ & Ec & _).
  rewrite (chain_sectors_geo _ _ _ G) in V4. pose proof (wl_ptr _ _ _ FO) as Hp. pose proof (wl_size _ _ _ FO) as Hs.
  destruct R5 as (Ez & R5). pose proof (sa_file _ _ _ _ SA) as [_ _ Hp0].
  constructor; try done; [|by cbn; rewrite Ec].
  rewrite <- (app_nil_r (take _ _)).
  apply (written_trans v0 cl0 _ _ _ v cl (chain_sectors (fs v) cl * SS)); [apply SA|lia|rewrite zlen_take_le by done; lia|done|].
  rewrite zlen_take_le by done. eapply written_nil_off; [|exact V2]. lia.
Qed.

Lemma writing_view v0 fp0 cl0 buff st v v' :
  start v0 fp0 cl0 buff -> vol_ok v' -> same_view v v' -> writing v0 fp0 cl0 buff st v -> writing v0 fp0 cl0 buff st v'.
Proof.
  intros SA VK' V [R1 R2 R3 R4 R5 (cl & FO & AP & WR)]. constructor; try done. exists cl.
  split; [by apply (wfile_view v)|]. split; [done|]. rewrite <- (app_nil_r (take _ _)).
  pose proof (wl_size _ _ _ FO) as Hs. pose proof (wl_ptr _ _ _ FO) as Hp. destruct R5 as (Esz & _).
  pose proof (sa_file _ _ _ _ SA) as [_ _ Hp0].
  apply (written_trans v0 cl0 _ _ _ v cl (chain_sectors (fs v) cl * SS)); [apply SA|lia|rewrite zlen_take_le by done; lia|done|].
  rewrite zlen_take_le by done. apply written_view; [done|by eapply wfile_clusters|lia|lia|done].
Qed.

(** The result of a write: [bw] bytes are stored, and fewer than given only
    when the volume has no free cluster left. *)
Definition finished v0 (fp0 : FIL) cl0 (buff : list Z) (r : FRESULT * FIL * Z) v : Prop :=
  let '(res, fp, bw) := r in
  res = FR_OK /\ 0 <= bw <= zlen buff /\ vol_ok v /\ fptr fp = fptr fp0 + bw /\
  f_fsize fp = Z.max (f_fsize fp0) (fptr fp0 + bw) /\ flag fp = Z.lor (flag fp0) FA__WRITTEN /\
  err fp = err fp0 /\ f_fs fp = f_fs fp0 /\ f_id fp = f_id fp0 /\ dir_sect fp = dir_sect fp0 /\ dir_ptr fp = dir_ptr fp0 /\
  (bw < zlen buff -> forall c, valid_clust (fs v) c -> fat_entry v c <> 0) /\
  exists cl, wfile v fp cl /\ at_ptr (fs v) fp cl /\
    written v0 cl0 (f_fsize fp0) (fptr fp0) (take (Z.to_nat bw) buff) v cl.

Lemma writing_end v0 fp0 cl0 buff fp wbuff bw v :
  writing v0 fp0 cl0 buff (fp, wbuff, bw) v ->
  (bw < zlen buff -> forall c, valid_clust (fs v) c -> fat_entry v c <> 0) ->
  finished v0 fp0 cl0 buff (write_end fp bw) v.
Proof.
  intros [R1 R2 R3 R4 (E1 & E2 & E3 & E4 & E5 & E6 & E7) (cl & FO & AP & WR)] Hfull. cbn [fst snd] in *. unfold write_end, finished.
  set (fp' := if fptr fp >? f_fsize fp then set_f_fsize (fptr fp) fp else fp).
  assert (f_fsize fp' = Z.max (f_fsize fp0) (fptr fp0 + bw) /\ fptr fp' = fptr fp /\ f_sclust fp' = f_sclust fp /\
    f_clust fp' = f_clust fp /\ dsect fp' = dsect fp /\ flag fp' = flag fp /\ err fp' = err fp /\ f_fs fp' = f_fs fp /\
    f_id fp' = f_id fp /\ dir_sect fp' = dir_sect fp /\ dir_ptr fp' = dir_ptr fp) as (F1&F2&F3&F4&F5&F6&F7&F8&F9&F10&F11).
  { unfold fp'. destruct (Z.gtb_spec (fptr fp) (f_fsize fp)); cbn; repeat split; lia. }
  clearbody fp'. destruct fp'. cbn in *. subst. rewrite E2, E3, E4, E5, E6, E7. do 12 (split; [done || lia|]).
  exists cl. pose proof FO as [C1 C2 C3]. pose proof (wn_geo _ _ _ _ _ _ _ WR) as G. split; [|split; [|done]].
  - constructor; cbn; try done. lia.
  - apply (at_ptr_geo (fs v0)); [done|]. destruct AP as [A1 A2]. by split; cbn.
Qed.

Lemma wp_write_round v0 fp0 cl0 buff st v :
  start v0 fp0 cl0 buff -> writing v0 fp0 cl0 buff st v -> 0 < zlen (snd (fst st)) ->
  wp (write_body st)
    (fun r v' => match r with
                 | inl st' => writing v0 fp0 cl0 buff st' v' /\ zlen (snd (fst st')) < zlen (snd (fst st))
                 | inr r => finished v0 fp0 cl0 buff r v'
                 end) v.
Proof.
  intros SA WT Hne. destruct st as [[fp wbuff] k]. pose proof WT as [R1 R2 R3 R4 R5 (cl & FO & AP & WR)]. cbn [fst snd] in *.
  subst wbuff. assert (0 <= k < zlen buff) as Hk by (unfold zlen in *; rewrite length_drop in Hne; lia).
  pose proof (csize_pos _ (vk_geo _ (sa_vol _ _ _ _ SA))) as Hcs. pose proof (wl_ptr _ _ _ FO) as Hp.
  assert (forall m, wp m (next_round v0 fp0 cl0 buff (drop (Z.to_nat k) buff)) v ->
    wp m (fun r v' => match r with
                 | inl st' => writing v0 fp0 cl0 buff st' v' /\ zlen (snd (fst st')) < zlen (drop (Z.to_nat k) buff)
                 | inr r => finished v0 fp0 cl0 buff r v' end) v) as Hnext.
  { intros m Hw. eapply wp_mono; [exact Hw|]. by intros [st'|r] v'. }
  unfold write_body. rewrite (proj2 (Z.eqb_neq (zlen _) 0)) by lia.
  pose proof (wn_geo _ _ _ _ _ _ _ WR) as G. destruct (geo_fields _ _ G) as (_ & Ec & _).
  destruct (Z.eqb_spec (fptr fp mod SS) 0) as [Em|Em].
  2: { apply Hnext, (wp_round_window v0 fp0 cl0 buff k fp cl v); try done; [|by apply AP].
       apply writing_mid; try done. intros E. apply Em. change SS with 512.
       apply (Z.mod_divide (fptr fp) 512); [lia|]. apply (Z.mod_divide (fptr fp)) in E; [|lia].
       etransitivity; [|exact E]. by exists (csize (fs v0)). }
  wp_step. apply wp_getfs. rewrite Ec. destruct (ptr_split (fptr fp) (csize (fs v0)) ltac:(lia) ltac:(lia) Em) as [_ Sp].
  rewrite csize_mask by (apply SA || (apply Z.div_pos; [lia|done])).
  pose proof (Z.mod_pos_bound (fptr fp / SS) (csize (fs v0)) ltac:(lia)) as Bc. rewrite u8_small by (unfold is_byte; lia).
  wp_step. destruct (Z.eqb_spec (fptr fp / SS mod csize (fs v0)) 0) as [Ez|Ez].
  - apply (wp_write_clust v fp cl); try done; [by apply (at_ptr_geo (fs v0))|rewrite Ec; by apply Sp| |].
    + intros v' VK' V' Hno. apply wp_ret. eapply writing_end; [by apply (writing_view _ _ _ _ _ v)|].
      intros _ c Hc. rewrite (fat_entry_view v v'); [apply Hno|apply R1|apply R1|done|];
        unfold valid_clust in *; destruct (view_fields v v' V') as [<- _]; done.
    + intros v' cl' fp' MV. destruct (moved_mid v0 fp0 cl0 buff fp k v cl v' fp' cl' SA WT FO WR MV) as (MD & Ep & Es).
      eapply wp_mono; [rewrite <- Ep; apply (wp_write_sector v0 fp0 cl0 buff k fp' cl' v'); try done; by rewrite Ep|].
      by intros [st'|r] v2.
  - apply wp_ret. apply Hnext, (wp_write_sector v0 fp0 cl0 buff k fp cl v); try done.
    apply writing_mid; try done. intros E. apply Ez. by apply Sp.
Qed.

Lemma wp_write_file v fp cl buff :
  start v fp cl buff -> wp (write_file fp buff) (finished v fp cl buff) v.
Proof.
  intros SA. pose proof SA as [A1 A2 A3 A4 A5 A6]. pose proof (wl_ptr _ _ _ A2) as Hp. pose proof (zlen_nonneg buff) as Hb.
  pose proof (wl_size _ _ _ A2) as Hs.
  unfold write_file. rewrite u32_small by (unfold is_u32; lia). rewrite (proj2 (Z.ltb_ge _ _)) by lia.
  apply (wp_loop (writing v fp cl buff) (fun st _ => length (snd (fst st)))).
  - intros st v1 WT. destruct (Z.eq_dec (zlen (snd (fst st))) 0) as [E0|E0].
    + destruct st as [[fp1 wbuff] k]. cbn in E0. unfold write_body. rewrite E0. cbn [Z.eqb]. apply wp_ret.
      apply (writing_end v fp cl buff fp1 wbuff); [done|]. intros Hk. exfalso. destruct WT as [_ R2 R3 _ _ _]. cbn in *.
      subst wbuff. unfold zlen in *. rewrite length_drop in E0. lia.
    + eapply wp_mono; [apply (wp_write_round v fp cl buff); try done; pose proof (zlen_nonneg (snd (fst st))); lia|].
      intros [st'|r] v' Hr; [|done]. destruct Hr as [Hr Hlt]. split; [done|]. unfold zlen in Hlt. lia.
  - constructor; cbn [fst snd]; try done; [lia|]. exists cl. split; [done|]. split; [done|].
    change (take (Z.to_nat 0) buff) with (@nil Z). apply written_view; [done|by eapply wfile_clusters|lia|lia|done].
  - cbn. lia.
Qed.

(** ** The function on an open file *)

(** [fp] is open on the object [f] and ready to take [buff]. *)
Record writable (s : ff D) (fp : FIL) (f : FATFS) cl (buff : list Z) : Prop := {
  wb_obj : objs s !! f_fs fp = Some f;
  wb_ptr : f_fs fp <> 0;
  wb_id : fs_id f = f_id fp;
  wb_size : f_fsize fp < 2 ^ 32;
  wb_start : start (Build_vol f (dev s)) fp cl buff
}.

Lemma wfile_file_ok v fp cl :
  vol_ok v -> wfile v fp cl -> at_ptr (fs v) fp cl -> fptr fp <= f_fsize fp < 2 ^ 32 -> file_ok v fp cl.
Proof.
  intros VK FO [A1 A2] Hp. pose proof (wfile_clusters _ _ _ FO) as [CO _]. destruct FO as [F1 F2 F3].
  constructor; try done; [|lia|lia|].
  - destruct F1 as [[? _]|[_ ?]]; [by left|by right].
  - intros q Hq. destruct (data_off_fat v _ VK (file_sector_data _ _ _ (vk_geo v VK) CO Hq)) as (B1 & _ & B3 & B4). done.
Qed.

Lemma writable_opened s fp f cl buff : writable s fp f cl buff -> opened s fp f cl.
Proof.
  intros [W1 W2 W3 W4 SA]. destruct SA as [A1 A2 A3 A4 A5 A6].
  constructor; try done; [apply A1|apply A1|]. by apply wfile_file_ok.
Qed.

Lemma start_view v v' fp cl buff :
  wf v' -> same_view v v' -> same_alloc (fs v) (fs v') -> start v fp cl buff -> start v' fp cl buff.
Proof.
  intros W' V A [A1 A2 A3 A4 A5 A6]. constructor; try done; [by apply (vol_ok_view v)|by apply (wfile_view v)|].
  apply (at_ptr_geo (fs v)); [apply V|done].
Qed.

(** A write whose first volume state has the same view. *)
Lemma written_pre v v1 cl size off data v' cl' :
  vol_ok v -> clusters_ok (fs v) cl -> size <= chain_sectors (fs v) cl * SS -> 0 <= off <= chain_sectors (fs v) cl * SS ->
  off <= size -> same_view v v1 -> written v1 cl size off data v' cl' -> written v cl size off data v' cl'.
Proof.
  intros VK CO Hs Ho Hos V WR. change data with ([] ++ data).
  apply (written_trans v cl _ _ [] v1 cl size); [apply VK|lia|change (zlen (@nil Z)) with 0; lia|by apply written_view; [..|lia|]|].
  change (zlen (@nil Z)) with 0. by rewrite Z.add_0_r.
Qed.

Lemma wp_f_write s fp f cl buff :
  writable s fp f cl buff -> online (dev s) (drv f) -> err fp = FR_OK -> has (flag fp) FA_WRITE = true ->
  wp (f_write fp buff)
    (fun r s' => exists f', objs s' !! f_fs fp = Some f' /\ fs_id f' = fs_id f /\ drv f' = drv f /\
                   finished (Build_vol f (dev s)) fp cl buff r (Build_vol f' (dev s'))) s.
Proof.
  intros WB On Ee Hw. pose proof (writable_opened _ _ _ _ _ WB) as O. pose proof (wb_start _ _ _ _ _ WB) as SA.
  unfold f_write. wp_step. apply (wp_file_guard s fp f cl FA_WRITE); [done|done|done|by right|].
  intros s1 O1 V1. apply (wp_on_fs s1 _ f); [apply O1|].
  assert (start (Build_vol f (dev s1)) fp cl buff) as SA1 by (apply (start_view (Build_vol f (dev s))); [apply O1|done|done|done]).
  eapply wp_mono; [by apply (wp_write_file _ fp cl buff)|]. intros [[res fp'] bw] v' Hf. destruct v' as [f' d'].
  exists f'. cbn [fs disk objs dev]. split; [apply lookup_insert_eq|].
  destruct Hf as (H1 & H2 & H3 & H4 & H5 & H6 & H7 & H8 & H9 & H10 & H11 & H12 & cl' & H13 & H14 & H15).
  pose proof (wn_geo _ _ _ _ _ _ _ H15) as G. cbn in G.
  split; [unfold geo in G; congruence|]. split; [unfold geo in G; congruence|].
  unfold finished. do 12 (split; [done|]). exists cl'. split; [done|]. split; [done|].
  pose proof SA as [A1 A2 A3 A4 A5 A6]. pose proof (wl_size _ _ _ A2). pose proof (wl_ptr _ _ _ A2).
  apply (written_pre _ (Build_vol f (dev s1))); try done; [by eapply wfile_clusters|lia].
Qed.

Lemma finished_opened (s s' : ff D) fp f f' cl buff res fp' bw :
  writable s fp f cl buff -> objs s' !! f_fs fp = Some f' -> fs_id f' = fs_id f ->
  finished (Build_vol f (dev s)) fp cl buff (res, fp', bw) (Build_vol f' (dev s')) ->
  exists cl', opened s' fp' f' cl' /\
    written (Build_vol f (dev s)) cl (f_fsize fp) (fptr fp) (take (Z.to_nat bw) buff) (Build_vol f' (dev s')) cl'.
Proof.
  intros [W1 W2 W3 W4 SA] Ho Hi (H1 & H2 & H3 & H4 & H5 & H6 & H7 & H8 & H9 & H10 & H11 & H12 & cl' & H13 & H14 & H15).
  exists cl'. split; [|done]. pose proof (sa_fit _ _ _ _ SA). pose proof (wl_ptr _ _ _ (sa_file _ _ _ _ SA)).
  constructor; rewrite ?H8, ?H9; try done; [congruence|apply H3|apply H3|].
  apply wfile_file_ok; try done. lia.
Qed.

(** The bytes written, read as data of the file. *)
Lemma written_data v0 cl0 size off data v cl :
  0 <= off -> written v0 cl0 size off data v cl -> file_data v cl off (zlen data) = data.
Proof.
  intros H0 WR. unfold file_data. apply list_eq. intros i. rewrite list_lookup_fmap.
  destruct (decide (Z.of_nat i < zlen data)) as [Hi|Hi].
  - rewrite lookup_seqZ_lt by done. cbn. rewrite (wn_bytes _ _ _ _ _ _ _ WR) by lia.
    rewrite (proj2 (Z.leb_le off _)), (proj2 (Z.ltb_lt _ (off + _))) by lia. cbn [andb].
    replace (off + Z.of_nat i - off) with (Z.of_nat i) by lia. symmetry. unfold zlen in Hi.
    destruct (lookup_lt_is_Some_2 data i ltac:(lia)) as [x Hx]. by rewrite (lookup_getb _ _ _ Hx).
  - rewrite lookup_seqZ_ge by lia. symmetry. apply lookup_ge_None_2. unfold zlen in Hi. lia.
Qed.

Lemma has_lor_written x m : Z.land FA__WRITTEN m = 0 -> has (Z.lor x FA__WRITTEN) m = has x m.
Proof. intros E. unfold has. by rewrite Z.land_lor_distr_l, E, Z.lor_0_r. Qed.

(** C4. [f_write] stores the bytes it counts: it returns [FR_OK] and a number
    [bw] of bytes, short of the buffer only when no cluster of the volume is
    free any more; the file then has exactly those bytes at the old pointer,
    its other bytes as before and the size that covers them; the chain has
    grown by clusters that were free, and no other FAT entry and no sector
    outside the file and the FATs has changed. *)
Theorem f_write_correct s fp f cl buff :
  writable s fp f cl buff -> online (dev s) (drv f) -> err fp = FR_OK -> has (flag fp) FA_WRITE = true ->
  wp (f_write fp buff)
    (fun r s' => exists f', objs s' !! f_fs fp = Some f' /\ fs_id f' = fs_id f /\ drv f' = drv f /\
                   finished (Build_vol f (dev s)) fp cl buff r (Build_vol f' (dev s'))) s.
Proof. apply wp_f_write. Qed.

(** C3. What was written is read back: after [f_write], [f_lseek] to the old
    position and [f_read] of the number of bytes written return exactly those
    bytes, through cluster allocation, the window and direct transfers. *)
Theorem f_write_read_back s fp f cl buff :
  writable s fp f cl buff -> (forall d, online d (drv f)) -> err fp = FR_OK ->
  has (flag fp) FA_READ = true -> has (flag fp) FA_WRITE = true ->
  wp (let! (r1, fp1, bw) := f_write fp buff in
      let! (r2, fp2) := f_lseek fp1 (fptr fp) in
      let! (r3, fp3, out) := f_read fp2 bw in ret (r1, r2, r3, bw, out))
    (fun '(r1, r2, r3, bw, out) s' =>
       r1 = FR_OK /\ r2 = FR_OK /\ r3 = FR_OK /\ 0 <= bw <= zlen buff /\ out = take (Z.to_nat bw) buff /\
       (bw < zlen buff -> exists f', objs s' !! f_fs fp = Some f' /\
          forall c, valid_clust f' c -> fat_entry (Build_vol f' (dev s')) c <> 0)) s.
Proof.
  intros WB On Ee Hrd Hwr. wp_step. eapply wp_mono; [by apply (wp_f_write s fp f cl)|].
  intros [[r1 fp1] bw] s1 (f1 & Ho1 & Hi1 & Hd1 & Hf). destruct (finished_opened s s1 fp f f1 cl buff r1 fp1 bw WB Ho1 Hi1 Hf) as (cl1 & O1 & WR).
  destruct Hf as (-> & Hbw & VK1 & Ep & Ez & Ef & Eerr & Efs & _ & _ & _ & Hfull & _).
  pose proof (sa_ptr _ _ _ _ (wb_start _ _ _ _ _ WB)) as Hp1. pose proof (wl_ptr _ _ _ (sa_file _ _ _ _ (wb_start _ _ _ _ _ WB))) as Hp0.
  wp_step. apply (wp_f_lseek s1 fp1 f1 cl1); [done|by rewrite Hd1|by rewrite Eerr|right; split; apply VK1|lia|lia|].
  intros fp2 s2 f2 O2 V2 SF2 Ep2. pose proof SF2 as (Ez2 & _ & Ef2 & Eerr2 & Efs2 & _).
  assert (drv f2 = drv f) as Hd2 by (destruct V2 as [G _]; cbn in G; unfold geo in G; congruence).
  wp_step. apply (wp_f_read s2 fp2 f2 cl1); [done|by rewrite Hd2|congruence|by rewrite Ef2, Ef, has_lor_written|lia|].
  intros fp3 s3 f3 O3 V3 SF3 Ep3 _. apply wp_ret. do 4 (split; [done|]). rewrite Ez2, Ep2, Ez.
  pose proof (fo_size _ _ _ (op_file _ _ _ _ O1)) as [Hsz _]. split.
  - rewrite (file_data_view (Build_vol f1 (dev s1)) _ fp1) by (done || apply O1 || lia).
    rewrite <- (written_data _ _ _ _ _ _ _ (proj1 Hp0) WR). rewrite zlen_take_le by done. f_equal; lia.
  - intros Hlt. exists f3. destruct SF3 as (_ & _ & _ & _ & Efs3 & _). split.
    + rewrite <- Efs, <- Efs2, <- Efs3. apply O3.
    + assert (same_view (Build_vol f1 (dev s1)) (Build_vol f3 (dev s3))) as V13 by (by transitivity (Build_vol f2 (dev s2))).
      intros c Hc. assert (valid_clust f1 c) as Hc1 by (unfold valid_clust in *; destruct (view_fields _ _ V13) as [E _]; cbn in E; by rewrite <- E).
      rewrite (fat_entry_view (Build_vol f1 (dev s1))); [by apply Hfull|apply VK1|apply VK1|done|done].
Qed.
End Theory.

(** ** A write that extends a file

    The file of [text_vol] opened for reading and writing, with the pointer at
    its end: 500 bytes fill the second cluster and go on in a new one. *)
Definition text_end : FIL :=
  {| f_fs := 1; f_id := 1; flag := Z.lor FA_READ FA_WRITE; err := FR_OK; fptr := 600; f_fsize := 600; f_sclust := 2;
     f_clust := 3; dsect := 5; dir_sect := 3; dir_ptr := 0 |}.

Lemma text_vol_ok : vol_ok text_vol.
Proof.
  constructor; [exact text_wf|exact demo_vol_geo| |done|done|].
  - intros c Hc. assert (2 <= c < 10) as Hc' by exact Hc.
    assert ((c <? 2) || negb (fat_entry text_vol c =? 1) = true) as E.
    { apply (forall_range 10 (fun c => (c <? 2) || negb (fat_entry text_vol c =? 1))); [by vm_compute|lia]. }
    rewrite (proj2 (Z.ltb_ge c 2)) in E by lia. cbn [orb] in E. apply negb_true_iff in E. by apply Z.eqb_neq in E.
  - intros s Hs. assert (4 <= s < 12) as Hs' by exact Hs. change (0 <= s < 12). lia.
Qed.

Lemma text_writable : writable text_ff text_end demo_fs [2; 3] (seqZ 1 200 ++ replicate 300 7).
Proof.
  constructor; try done. constructor; try done; [exact text_vol_ok| |].
  - constructor; [right; split; [done|exact text_chain]|by split|by split].
  - apply Forall_forall. intros x Hx. apply elem_of_app in Hx as [Hx|Hx].
    + apply elem_of_seqZ in Hx. unfold is_byte. lia.
    + apply elem_of_replicate in Hx as [-> _]. done.
Qed.

Lemma f_write_correct_witness :
  wp (f_write text_end (seqZ 1 200 ++ replicate 300 7))
    (fun r s' => exists f', objs s' !! 1 = Some f' /\ fs_id f' = fs_id demo_fs /\ drv f' = drv demo_fs /\
                   finished text_vol text_end [2; 3] (seqZ 1 200 ++ replicate 300 7) r (Build_vol f' (dev s'))) text_ff.
Proof.
  apply (f_write_correct text_ff text_end demo_fs [2; 3]); [exact text_writable|apply ram_online|reflexivity|reflexivity].
Defined.

Lemma f_write_read_back_witness :
  wp (let! (r1, fp1, bw) := f_write text_end (seqZ 1 200 ++ replicate 300 7) in
      let! (r2, fp2) := f_lseek fp1 600 in
      let! (r3, fp3, out) := f_read fp2 bw in ret (r1, r2, r3, bw, out))
    (fun '(r1, r2, r3, bw, out) s' =>
       r1 = FR_OK /\ r2 = FR_OK /\ r3 = FR_OK /\ 0 <= bw <= zlen (seqZ 1 200 ++ replicate 300 7) /\
       out = take (Z.to_nat bw) (seqZ 1 200 ++ replicate 300 7) /\
       (bw < zlen (seqZ 1 200 ++ replicate 300 7) -> exists f', objs s' !! 1 = Some f' /\
          forall c, valid_clust f' c -> fat_entry (Build_vol f' (dev s')) c <> 0)) text_ff.
Proof.
  apply (f_write_read_back text_ff text_end demo_fs [2; 3]);
    [exact text_writable|intros; apply ram_online|reflexivity|reflexivity|reflexivity].
Defined.
