(* ===== verification/FatSync.v ===== *)
(** * FatFs: flushing and closing a file

    Theory of [f_sync] and [f_close] ([ff.c] lines 2764-2841, definitions in
    [FatFile]): what is on the device when they return. *)

From S2P Require Import Prelude FatBase FatAccess FatName FatDir FatVolume FatFile FatWrite.

(** Decide the comparisons of positions. *)
Ltac eqb_lia :=
  repeat match goal with
  | |- context [?a =? ?b] => first [rewrite (proj2 (Z.eqb_eq a b)) by lia | rewrite (proj2 (Z.eqb_neq a b)) by lia]
  end.

(** The positions of an entry's fields. *)
Ltac entry_fields := unfold DIR_LstAccDate, DIR_WrtTime, DIR_CrtTime, DIR_FileSize, DIR_Attr, DIR_FstClusHI, DIR_FstClusLO in *.

Section Theory.
Context {D : Type} `{L : DiskLaws D}.
Implicit Types (v : vol D) (f : FATFS).

(** The FSINFO sector, which FAT32 volumes rewrite when the counts changed. *)
Definition fsinfo_sector f : Z := volbase f + 1.

Definition fsinfo_ok v : Prop :=
  fs_type (fs v) = FS_FAT32 ->
  ready (disk v) (fsinfo_sector (fs v)) /\ ~ mirror (fs v) (fsinfo_sector (fs v)) /\
  0 <= fsinfo_sector (fs v) < 0xFFFFFFFF.

(** The device agrees with the logical disk, and the window is clean. *)
Record flushed v v' : Prop := {
  fl_wf : wf v';
  fl_geo : geo (fs v') = geo (fs v);
  fl_clean : wflag (fs v') = 0;
  fl_last : last_clust (fs v') = last_clust (fs v);
  fl_free : free_clust (fs v') = free_clust (fs v);
  fl_ready : forall x, ready (disk v) x -> ready (disk v') x;
  fl_sectors : forall x, ~ mirror (fs v) x ->
    (fs_type (fs v) = FS_FAT32 -> x <> fsinfo_sector (fs v)) -> sector (disk v') x = lsec v x
}.

(** The bytes of the FSINFO sector. *)
Definition fsinfo_bytes (fc lc : Z) (w : list Z) : list Z :=
  ST_DWORD FSI_Nxt_Free lc (ST_DWORD FSI_Free_Count fc (ST_DWORD FSI_StrucSig 0x61417272
    (ST_DWORD FSI_LeadSig 0x41615252 (ST_WORD BS_55AA 0xAA55 (mem_set 0 0 SS w))))).

Lemma fsinfo_bytes_ok fc lc w : length w = 512%nat ->
  length (fsinfo_bytes fc lc w) = 512%nat /\ Forall is_byte (fsinfo_bytes fc lc w).
Proof.
  intros Hl. assert (mem_set 0 0 SS w = replicate 512 0) as E.
  { unfold mem_set, splice. change (Z.to_nat 0) with 0%nat. change (Z.to_nat SS) with 512%nat.
    rewrite take_0, app_nil_l, length_replicate, drop_ge, app_nil_r by lia. done. }
  unfold fsinfo_bytes. rewrite E. split.
  - by rewrite !ST_DWORD_length, ST_WORD_length, length_replicate.
  - repeat apply ST_DWORD_bytes. apply ST_WORD_bytes. by apply Forall_replicate.
Qed.

(** Two changes of the window are one. *)
Lemma wp_upd_win_comp {A} g1 g2 (k : M (vol D) A) (Q : A -> vol D -> Prop) v :
  wp (upd_win (fun w => g2 (g1 w)) ;;; k) Q v -> wp (upd_win g1 ;;; upd_win g2 ;;; k) Q v.
Proof. by destruct v as [[] ?]. Qed.

Lemma flush_ioctl v0 v (Q : FRESULT -> vol D -> Prop) :
  flushed v0 v -> (forall v', flushed v0 v' -> Q FR_OK v') ->
  wp (let! d := getfs drv in let! r := io (disk_ioctl d CTRL_SYNC) in
      ret (if negb (is_res_ok r) then FR_DISK_ERR else FR_OK)) Q v.
Proof.
  intros [F1 F2 F3 F6 F7 F4 F5] HQ. wp_step. apply wp_getfs. wp_step. apply wp_io. eapply wp_mono; [apply disk_ioctl_law|].
  intros r d' (-> & E & R). apply wp_ret. change (is_res_ok RES_OK) with true. cbn [negb].
  destruct v as [f d]. destruct (same_sectors_view f d d' F1 E R) as [W' _]. apply HQ.
  constructor; cbn in *; try done; [auto|]. intros x Hm Hx. rewrite E. by apply F5.
Qed.

Lemma wp_sync_fs v (Q : FRESULT -> vol D -> Prop) :
  wf v -> fsinfo_ok v -> (forall v', flushed v v' -> Q FR_OK v') -> wp sync_fs Q v.
Proof.
  intros W FI HQ. unfold sync_fs. wp_step. apply wp_sync_window; [done|]. intros d1 E1 _ R1.
  destruct (sync_window_view v d1 W E1 R1) as [W1 V1]. change (is_ok FR_OK) with true. cbv iota.
  assert (flushed v (Build_vol (set_wflag 0 (fs v)) d1)) as FL1 by (constructor; try done; intros x Hm _; by apply E1).
  do 2 (wp_step; apply wp_getfs). cbn [fs]. wp_step.
  destruct ((fs_type (set_wflag 0 (fs v)) =? FS_FAT32) && (fsi_flag (set_wflag 0 (fs v)) =? 1)) eqn:Eb.
  2: { apply wp_ret. by apply (flush_ioctl v). }
  apply andb_true_iff in Eb as [Et _]. apply Z.eqb_eq in Et. destruct (FI Et) as (I1 & I2 & I3).
  do 2 (wp_step; apply wp_getfs). cbn [fs].
  change (free_clust (set_wflag 0 (fs v))) with (free_clust (fs v)). change (last_clust (set_wflag 0 (fs v))) with (last_clust (fs v)).
  do 5 apply wp_upd_win_comp. wp_step. apply wp_upd_win. wp_step. apply wp_getfs. wp_step. apply wp_setfs.
  do 3 (wp_step; apply wp_getfs). cbn [fs disk]. change (win (set_wflag 0 (fs v))) with (win (fs v)).
  destruct (fsinfo_bytes_ok (free_clust (fs v)) (last_clust (fs v)) (win (fs v)) (wf_len v W)) as [B1 B2].
  unfold fsinfo_bytes in B1, B2. set (bytes := ST_DWORD FSI_Nxt_Free _ _) in *. clearbody bytes.
  change (volbase (set_win bytes (set_wflag 0 (fs v))) + 1) with (fsinfo_sector (fs v)).
  rewrite (u32_small (fsinfo_sector _)) by (unfold is_u32; lia).
  set (f1 := set_winsect (fsinfo_sector (fs v)) (set_win bytes (set_wflag 0 (fs v)))).
  change (win f1) with bytes. change (winsect f1) with (fsinfo_sector (fs v)).
  wp_step. apply wp_write1; [done|done|cbn [disk]; auto|]. intros d2 E2 R2. cbn [disk] in E2, R2.
  apply wp_setfs. cbn [fs disk]. apply (flush_ioctl v); [|done]. constructor; try done; cbn [fs disk]; [| |].
  - destruct W1 as [X1 X2 X3 X4 X5 X6 X7]. constructor; cbn -[fsinfo_sector] in *; try done.
    + intros _. right. rewrite E2, Z.eqb_refl. split; [|done]. done.
    + intros s Hs. by apply R2, X7.
  - auto.
  - intros x Hm Hx. rewrite E2. rewrite (proj2 (Z.eqb_neq _ _)) by (by apply Hx). by apply E1.
Qed.

(** ** The directory entry *)

(** The entry at [off] of a directory sector with the size and start cluster of
    the file. *)
Definition sync_entry (fp : FIL) (w : list Z) : list Z :=
  let off := dir_ptr fp in
  ST_WORD (off + DIR_LstAccDate) 0 (ST_DWORD (off + DIR_WrtTime) GET_FATTIME (st_clust off (f_sclust fp)
    (ST_DWORD (off + DIR_FileSize) (f_fsize fp) (setb w (off + DIR_Attr) (Z.lor (getb w (off + DIR_Attr)) AM_ARC))))).

Lemma lor_byte x y : is_byte x -> is_byte y -> is_byte (Z.lor x y).
Proof.
  intros Hx Hy. pose proof (forall_range2 256 256 (fun x y => (0 <=? Z.lor x y) && (Z.lor x y <? 256))) as Hr.
  assert (((0 <=? Z.lor x y) && (Z.lor x y <? 256)) = true) as E by (apply Hr; [by vm_compute|done|done]).
  apply andb_true_iff in E as [E1 E2]. apply Z.leb_le in E1. apply Z.ltb_lt in E2. done.
Qed.

Lemma sync_entry_shape fp w :
  length w = 512%nat -> Forall is_byte w ->
  length (sync_entry fp w) = 512%nat /\ Forall is_byte (sync_entry fp w).
Proof.
  intros Hl Hb. unfold sync_entry, st_clust. split.
  - by rewrite !ST_WORD_length, !ST_DWORD_length, !ST_WORD_length, ST_DWORD_length, length_setb.
  - repeat first [apply ST_WORD_bytes|apply ST_DWORD_bytes]. apply setb_bytes; [done|].
    apply lor_byte; [by apply getb_byte|done].
Qed.

(** The bytes of the entry after the update. *)
Lemma sync_entry_getb fp w j :
  length w = 512%nat -> 0 <= dir_ptr fp -> dir_ptr fp + 32 <= 512 -> 0 <= j ->
  getb (sync_entry fp w) j =
    let k := j - dir_ptr fp in
    if k =? 19 then 0 else if k =? 18 then 0
    else if k =? 25 then GET_FATTIME / 2 ^ 24 mod 2 ^ 8 else if k =? 24 then GET_FATTIME / 2 ^ 16 mod 2 ^ 8
    else if k =? 23 then GET_FATTIME / 2 ^ 8 mod 2 ^ 8 else if k =? 22 then GET_FATTIME mod 2 ^ 8
    else if k =? 21 then f_sclust fp / 2 ^ 16 / 2 ^ 8 mod 2 ^ 8 else if k =? 20 then f_sclust fp / 2 ^ 16 mod 2 ^ 8
    else if k =? 27 then f_sclust fp / 2 ^ 8 mod 2 ^ 8 else if k =? 26 then f_sclust fp mod 2 ^ 8
    else if k =? 31 then f_fsize fp / 2 ^ 24 mod 2 ^ 8 else if k =? 30 then f_fsize fp / 2 ^ 16 mod 2 ^ 8
    else if k =? 29 then f_fsize fp / 2 ^ 8 mod 2 ^ 8 else if k =? 28 then f_fsize fp mod 2 ^ 8
    else if k =? 11 then Z.lor (getb w (dir_ptr fp + 11)) AM_ARC else getb w j.
Proof.
  intros Hl H0 H1 Hj. set (off := dir_ptr fp) in *. unfold sync_entry, st_clust. fold off. entry_fields.
  assert (forall l : list Z, length l = 512%nat -> zlen l = 512) as Hz by (unfold zlen; lia).
  rewrite ST_WORD_getb by (rewrite ?Hz; rewrite ?ST_DWORD_length, ?ST_WORD_length, ?ST_DWORD_length, ?length_setb; lia).
  rewrite ST_DWORD_getb by (rewrite ?Hz; rewrite ?ST_WORD_length, ?ST_DWORD_length, ?length_setb; lia).
  rewrite ST_WORD_getb by (rewrite ?Hz; rewrite ?ST_WORD_length, ?ST_DWORD_length, ?length_setb; lia).
  rewrite ST_WORD_getb by (rewrite ?Hz; rewrite ?ST_DWORD_length, ?length_setb; lia).
  rewrite ST_DWORD_getb by (rewrite ?Hz; rewrite ?length_setb; lia).
  rewrite getb_setb by (rewrite ?Hz by done; lia). rewrite shiftr_div by lia. cbv zeta.
  assert (forall a, (j =? off + a) = (j - off =? a)) as Ha
    by (intros a; destruct (Z.eqb_spec j (off + a)), (Z.eqb_spec (j - off) a); done || lia).
  rewrite <- !Z.add_assoc. rewrite !Ha. cbn [Z.add Pos.add Pos.succ Pos.add_carry]. done.
Qed.

Lemma sync_entry_size fp w :
  length w = 512%nat -> Forall is_byte w -> 0 <= dir_ptr fp -> dir_ptr fp + 32 <= 512 -> 0 <= f_fsize fp < 2 ^ 32 ->
  LD_DWORD (sync_entry fp w) (dir_ptr fp + DIR_FileSize) = f_fsize fp.
Proof.
  intros Hl Hb H0 H1 Hs. destruct (sync_entry_shape fp w Hl Hb) as [_ Hb']. rewrite LD_DWORD_spec by done.
  entry_fields. rewrite !sync_entry_getb by (done || lia). cbv zeta. eqb_lia. Z.div_mod_to_equations. lia.
Qed.

Lemma sync_entry_clust f fp w :
  length w = 512%nat -> Forall is_byte w -> 0 <= dir_ptr fp -> dir_ptr fp + 32 <= 512 -> 0 <= f_sclust fp < 2 ^ 32 ->
  (fs_type f <> FS_FAT32 -> f_sclust fp < 2 ^ 16) ->
  ld_clust f (sync_entry fp w) (dir_ptr fp) = f_sclust fp.
Proof.
  intros Hl Hb H0 H1 Hs Ht. destruct (sync_entry_shape fp w Hl Hb) as [_ Hb']. unfold ld_clust.
  assert (LD_WORD (sync_entry fp w) (dir_ptr fp + DIR_FstClusLO) = f_sclust fp mod 2 ^ 16) as ->.
  { rewrite LD_WORD_spec by done. entry_fields. rewrite !sync_entry_getb by (done || lia). cbv zeta. eqb_lia.
    Z.div_mod_to_equations. lia. }
  destruct (Z.eqb_spec (fs_type f) FS_FAT32) as [E|E].
  - assert (LD_WORD (sync_entry fp w) (dir_ptr fp + DIR_FstClusHI) = f_sclust fp / 2 ^ 16) as ->.
    { rewrite LD_WORD_spec by done. entry_fields. rewrite !sync_entry_getb by (done || lia). cbv zeta. eqb_lia.
      Z.div_mod_to_equations. lia. }
    rewrite shiftl_mul by lia. rewrite u32_small by (unfold is_u32; Z.div_mod_to_equations; lia).
    rewrite lor_add_comm; [|lia|apply Z.mod_pos_bound; lia]. pose proof (Z.div_mod (f_sclust fp) (2 ^ 16) ltac:(lia)). lia.
  - specialize (Ht E). apply Z.mod_small. lia.
Qed.

(** ** Flushing a file *)

(** The directory entry of [fp] is accessible. *)
Record has_entry v (fp : FIL) : Prop := {
  he_sector : ready (disk v) (dir_sect fp) /\ ~ mirror (fs v) (dir_sect fp) /\ 0 <= dir_sect fp < 0xFFFFFFFF;
  he_fsinfo : fs_type (fs v) = FS_FAT32 -> dir_sect fp <> fsinfo_sector (fs v);
  he_offset : 0 <= dir_ptr fp /\ dir_ptr fp + 32 <= 512;
  he_size : 0 <= f_fsize fp < 2 ^ 32;
  he_clust : 0 <= f_sclust fp < 2 ^ 32 /\ (fs_type (fs v) <> FS_FAT32 -> f_sclust fp < 2 ^ 16)
}.

(** The device after the flush. *)
Record durable v (fp : FIL) v' : Prop := {
  du_wf : wf v';
  du_geo : geo (fs v') = geo (fs v);
  du_clean : wflag (fs v') = 0;
  du_last : last_clust (fs v') = last_clust (fs v);
  du_free : free_clust (fs v') = free_clust (fs v);
  du_size : LD_DWORD (sector (disk v') (dir_sect fp)) (dir_ptr fp + DIR_FileSize) = f_fsize fp;
  du_clust : ld_clust (fs v') (sector (disk v') (dir_sect fp)) (dir_ptr fp) = f_sclust fp;
  du_ready : forall x, ready (disk v) x -> ready (disk v') x;
  du_attr : getb (sector (disk v') (dir_sect fp)) (dir_ptr fp + DIR_Attr) = Z.lor (getb (lsec v (dir_sect fp)) (dir_ptr fp + DIR_Attr)) AM_ARC;
  du_entry : forall j, 0 <= j -> j < dir_ptr fp + 11 \/ dir_ptr fp + 32 <= j ->
    getb (sector (disk v') (dir_sect fp)) j = getb (lsec v (dir_sect fp)) j;
  du_other : forall x, ~ mirror (fs v) x -> (fs_type (fs v) = FS_FAT32 -> x <> fsinfo_sector (fs v)) -> x <> dir_sect fp ->
    sector (disk v') x = lsec v x
}.

Lemma wp_sync_file v fp (Q : FRESULT * FIL -> vol D -> Prop) :
  wf v -> fsinfo_ok v -> has_entry v fp -> has (flag fp) FA__WRITTEN = true ->
  (forall v', durable v fp v' -> Q (FR_OK, set_flag (Z.land (flag fp) (Z.lnot FA__WRITTEN)) fp) v') ->
  wp (sync_file fp) Q v.
Proof.
  intros W FI [(H1 & H2 & H3) H4 [H5 H6] H7 [H8 H9]] Hfl HQ. unfold sync_file. rewrite Hfl. wp_step.
  apply wp_move_window; [done..|]. intros v1 W1 V1 Es Ew A1 A2 A3. change (is_ok FR_OK) with true. cbv iota zeta.
  do 4 apply wp_upd_win_comp. wp_step. apply wp_upd_win. wp_step. apply wp_setfs. cbn [fs disk].
  change (wp (let! res := sync_fs in ret (res, set_flag (Z.land (flag fp) (Z.lnot FA__WRITTEN)) fp)) Q (poke (sync_entry fp) v1)).
  pose proof (at_sector_view v v1 _ V1 H1 H2 H3 Es Ew) as At. pose proof V1 as (G1 & S1 & R1).
  assert (lsec v1 (dir_sect fp) = lsec v (dir_sect fp)) as El by (by apply S1).
  pose proof (lsec_length v (dir_sect fp) W) as Ll. pose proof (lsec_bytes v (dir_sect fp) W) as Lb.
  destruct (sync_entry_shape fp _ Ll Lb) as [B1 B2].
  assert (fsinfo_sector (fs v1) = fsinfo_sector (fs v)) as Ei by (unfold geo in G1; unfold fsinfo_sector; congruence).
  wp_step. apply wp_sync_fs.
  - apply (poke_wf _ v1 (dir_sect fp)); rewrite ?El; done.
  - intros Et. change (fsinfo_sector (fs (poke (sync_entry fp) v1))) with (fsinfo_sector (fs v1)). rewrite Ei.
    destruct FI as (I1 & I2 & I3); [rewrite <- Et; unfold geo in G1; cbn; congruence|].
    split; [by apply R1|]. split; [|done]. change (~ mirror (fs v1) (fsinfo_sector (fs v))). by rewrite (geo_mirror _ _ _ G1).
  - intros v2 [F1 F2 F3 F6 F7 F4 F5]. apply wp_ret, HQ. change (geo (fs (poke (sync_entry fp) v1))) with (geo (fs v1)) in F2.
    assert (geo (fs v2) = geo (fs v)) as G2 by congruence.
    assert (forall x, ~ mirror (fs v) x -> (fs_type (fs v) = FS_FAT32 -> x <> fsinfo_sector (fs v)) ->
      sector (disk v2) x = if x =? dir_sect fp then sync_entry fp (lsec v (dir_sect fp)) else lsec v x) as Hsec.
    { intros x Hm Hx. rewrite F5; [|by change (~ mirror (fs v1) x); rewrite (geo_mirror _ _ _ G1)|].
      2: { change (fs_type (fs v1) = FS_FAT32 -> x <> fsinfo_sector (fs v1)). destruct (geo_fields _ _ G1) as (-> & _). by rewrite Ei. }
      rewrite (poke_lsec _ v1 _ _ At), El. destruct (x =? dir_sect fp); [done|]. by apply S1. }
    assert (sector (disk v2) (dir_sect fp) = sync_entry fp (lsec v (dir_sect fp))) as Ee by (rewrite Hsec, Z.eqb_refl by done; done).
    constructor; try done; rewrite ?Ee; [by rewrite F6, <- A1|by rewrite F7, <- A2| | | | | |].
    + by apply sync_entry_size.
    + apply sync_entry_clust; try done. destruct (geo_fields _ _ G2) as (-> & _). done.
    + intros x Hx. by apply F4, R1.
    + change DIR_Attr with 11. rewrite sync_entry_getb by (done || lia). cbv zeta. replace (dir_ptr fp + 11 - dir_ptr fp) with 11 by lia. done.
    + intros j Hj Ho. rewrite sync_entry_getb by done. cbv zeta. eqb_lia. done.
    + intros x Hm Hx Hne. rewrite Hsec by done. by rewrite (proj2 (Z.eqb_neq _ _)).
Qed.

Lemma wp_f_sync s fp f (Q : FRESULT * FIL -> ff D -> Prop) :
  objs s !! f_fs fp = Some f -> f_fs fp <> 0 -> fs_id f = f_id fp -> fs_type f <> 0 -> wf (Build_vol f (dev s)) ->
  fsinfo_ok (Build_vol f (dev s)) -> has_entry (Build_vol f (dev s)) fp -> online (dev s) (drv f) ->
  has (flag fp) FA__WRITTEN = true ->
  (forall s' f', objs s' !! f_fs fp = Some f' -> durable (Build_vol f (dev s)) fp (Build_vol f' (dev s')) ->
     Q (FR_OK, set_flag (Z.land (flag fp) (Z.lnot FA__WRITTEN)) fp) s') ->
  wp (f_sync fp) Q s.
Proof.
  intros Ho Hp Hi Ht W FI HE On Hfl HQ. unfold f_sync. wp_step. apply (wp_validate s _ _ f); try done. intros d' W' V' E'.
  pose proof V' as (_ & S' & R'). change (is_ok FR_OK) with true. cbv iota.
  apply (wp_on_fs _ _ f); [apply lookup_insert_eq|]. cbn [dev objs FatFs0 Fsid].
  apply wp_sync_file; try done.
  - intros Et. destruct (FI Et) as (I1 & I2 & I3). split; [by apply R'|done].
  - destruct HE as [(H1 & H2 & H3) H4 H5 H6 H7]. constructor; try done. split; [by apply R'|done].
  - intros v2 [D1 D2 D3 DL DF D4 D5 D8 D9 D6 D7]. destruct v2 as [f2 d2]. apply (HQ _ f2); cbn [objs dev]; [by rewrite lookup_insert_eq|].
    assert (forall x, lsec (Build_vol f d') x = lsec (Build_vol f (dev s)) x) as El by (intros x; unfold lsec; cbn; by rewrite E').
    constructor; try done.
    + intros x Hx. by apply D8, R'.
    + cbn [disk] in D9 |- *. by rewrite D9, El.
    + intros j Hj Ho'. rewrite D6 by done. by rewrite El.
    + intros x Hm Hx Hne. rewrite D7 by done. apply El.
Qed.

Lemma wp_f_close s fp f :
  objs s !! f_fs fp = Some f -> f_fs fp <> 0 -> fs_id f = f_id fp -> fs_type f <> 0 -> wf (Build_vol f (dev s)) ->
  fsinfo_ok (Build_vol f (dev s)) -> has_entry (Build_vol f (dev s)) fp -> (forall d, online d (drv f)) ->
  has (flag fp) FA__WRITTEN = true ->
  wp (f_close fp)
    (fun '(res, fp') s' => res = FR_OK /\ f_fs fp' = 0 /\
       exists f', objs s' !! f_fs fp = Some f' /\ durable (Build_vol f (dev s)) fp (Build_vol f' (dev s'))) s.
Proof.
  intros Ho Hp Hi Ht W FI HE On Hfl. unfold f_close. wp_step. apply (wp_f_sync s fp f); try done.
  intros s1 f1 Ho1 DU. pose proof (du_geo _ _ _ DU) as G. cbn in G. change (is_ok FR_OK) with true. cbv iota. wp_step.
  assert (fs_type f1 = fs_type f /\ fs_id f1 = fs_id f /\ drv f1 = drv f) as (E1 & E2 & E3) by (unfold geo in G; repeat split; congruence).
  apply (wp_validate s1 _ _ f1); try done; [by rewrite E1|by rewrite E2|apply DU|by rewrite E3|].
  intros d' W' V' E'. apply wp_ret. change (is_ok FR_OK) with true. cbv iota. split; [done|]. split; [done|].
  exists f1. cbn [objs dev f_fs set_flag]. split; [apply lookup_insert_eq|].
  destruct DU as [D1 D2 D3 DL DF D4 D5 D8 D9 D6 D7]. cbn [fs disk] in *. constructor; cbn [fs disk]; rewrite ?E'; try done.
  { intros x Hx. by apply V', D8. }
  intros x Hm Hx Hne. rewrite E'. by apply D7.
Qed.

(** C6. Closing makes a written file durable: [f_close] returns [FR_OK],
    invalidates the object, and leaves a clean window and a device on which
    the directory entry of the file holds its size and start cluster with its
    name unchanged, and every sector but the entry's, the second FAT copy's
    and the FSINFO sector of FAT32 is what the file system last wrote. *)
Theorem f_close_durable s fp f :
  objs s !! f_fs fp = Some f -> f_fs fp <> 0 -> fs_id f = f_id fp -> fs_type f <> 0 -> wf (Build_vol f (dev s)) ->
  fsinfo_ok (Build_vol f (dev s)) -> has_entry (Build_vol f (dev s)) fp -> (forall d, online d (drv f)) ->
  has (flag fp) FA__WRITTEN = true ->
  wp (f_close fp)
    (fun '(res, fp') s' => res = FR_OK /\ f_fs fp' = 0 /\
       exists f', objs s' !! f_fs fp = Some f' /\ durable (Build_vol f (dev s)) fp (Build_vol f' (dev s'))) s.
Proof. apply wp_f_close. Qed.
End Theory.

(** ** Closing a file on a small volume *)

Lemma text_has_entry : has_entry text_vol (text_file (Z.lor FA_WRITE FA__WRITTEN)).
Proof.
  constructor; try done. split; [done|]. split; [|done]. unfold mirror.
  change (~ (1 + 1 <= 3 < 1 + 2 * 1)). lia.
Qed.

Lemma f_close_durable_witness :
  wp (f_close (text_file (Z.lor FA_WRITE FA__WRITTEN)))
    (fun '(res, fp') s' => res = FR_OK /\ f_fs fp' = 0 /\
       exists f', objs s' !! 1 = Some f' /\
         durable text_vol (text_file (Z.lor FA_WRITE FA__WRITTEN)) (Build_vol f' (dev s'))) text_ff.
Proof.
  apply (f_close_durable text_ff (text_file (Z.lor FA_WRITE FA__WRITTEN)) demo_fs);
    [reflexivity|discriminate|reflexivity|discriminate|exact text_wf|discriminate|exact text_has_entry|
     intros; apply ram_online|reflexivity].
Defined.
