(* ===== verification/FatApi.v ===== *)
(** * FatFs directory and path functions ([ff.c] lines 3143-3418, 3483-3780)

    Directory listing, wildcard search, status, free space, and the functions
    that change the tree: [f_unlink], [f_mkdir], [f_chmod], [f_rename],
    [f_utime]. *)

From S2P Require Import Prelude FatBase FatAccess FatName FatDir FatVolume FatFile FatWrite.

Section Api.
Context {D : Type} `{DiskIO D}.

(** The common frame of the path functions: find the volume, run [k] on it. *)
Definition with_volume {A} (path : option (list Z)) (wmode : Z) (dflt : A)
    (k : Z -> list Z -> M (vol D) (FRESULT * A)) : M (ff D) (FRESULT * A) :=
  let! (res, p, path) := find_volume path wmode in
  if is_ok res then on_fs p (k p (default [] path)) else ret (res, dflt).

Definition is_null {A} (o : option A) : bool := match o with None => true | Some _ => false end.

(** ** Directories *)

Definition opendir_vol (dp : DIR) (path : list Z) : M (vol D) (FRESULT * DIR) :=
  let! (res, dp) := follow_path dp path in
  let! (res, dp) :=
    (if is_ok res then
       let! f := getfs id in
       let! (res, dp) :=
         (match dir dp with
          | None => ret (res, dp)
          | Some off =>
              let! a := win_byte off DIR_Attr in
              if has a AM_DIR then ret (res, set_sclust (ld_clust f (win f) off) dp)
              else ret (FR_NO_PATH, dp)
          end) in
       if is_ok res then dir_sdi (set_d_id (fs_id f) dp) 0 else ret (res, dp)
     else ret (res, dp)) in
  ret ((if res_eq res FR_NO_FILE then FR_NO_PATH else res), dp).

Definition f_opendir (dp : DIR) (path : option (list Z)) : M (ff D) (FRESULT * DIR) :=
  let! (res, p, path) := find_volume path 0 in
  let! (res, dp) :=
    (if is_ok res then on_fs p (opendir_vol (set_fn blank_sfn (set_d_fs p dp)) (default [] path))
     else ret (res, dp)) in
  ret (res, if is_ok res then dp else set_d_fs 0 dp).

Definition f_closedir (dp : DIR) : M (ff D) (FRESULT * DIR) :=
  let! res := validate (d_fs dp) (d_id dp) in
  ret (res, if is_ok res then set_d_fs 0 dp else dp).

(** Lines 3245-3258. *)
Definition readdir_vol (dp : DIR) (fno : FILINFO) : M (vol D) (FRESULT * DIR * FILINFO) :=
  let! (res, dp) := dir_read (set_fn blank_sfn dp) 0 in
  let eot := res_eq res FR_NO_FILE in
  let dp := if eot then set_sect 0 dp else dp in
  let res := if eot then FR_OK else res in
  if is_ok res then
    let! fno := get_fileinfo dp fno in
    let! (res, dp) := dir_next dp false in
    if res_eq res FR_NO_FILE then ret (FR_OK, set_sect 0 dp, fno) else ret (res, dp, fno)
  else ret (res, dp, fno).

Definition f_readdir (dp : DIR) (fno : option FILINFO) : M (ff D) (FRESULT * DIR * option FILINFO) :=
  let! res := validate (d_fs dp) (d_id dp) in
  if is_ok res then
    match fno with
    | None => let! (res, dp) := on_fs (d_fs dp) (dir_sdi dp 0) in ret (res, dp, None)
    | Some fno =>
        let! (res, dp, fno) := on_fs (d_fs dp) (readdir_vol dp fno) in ret (res, dp, Some fno)
    end
  else ret (res, dp, fno).

(** Each round of the search moves the directory index on, so a search ends
    within 65536 rounds. *)
Definition findnext_body (st : DIR * option FILINFO)
    : M (ff D) (DIR * option FILINFO + FRESULT * DIR * option FILINFO) :=
  let '(dp, fno) := st in
  let! (res, dp, fno) := f_readdir dp fno in
  if negb (is_ok res) || match fno with None => true | Some i => peek (fname i) =? 0 end
     || match fno with None => true | Some i => pattern_matching (pat dp) (fname i) 0 false end
  then ret (inr (res, dp, fno))
  else ret (inl (dp, fno)).

Definition f_findnext (dp : DIR) (fno : option FILINFO) : M (ff D) (FRESULT * DIR * option FILINFO) :=
  loop DIR_FUEL findnext_body (dp, fno).

Definition f_findfirst (dp : DIR) (fno : option FILINFO) (path : option (list Z)) (pattern : list Z)
    : M (ff D) (FRESULT * DIR * option FILINFO) :=
  let! (res, dp) := f_opendir (set_pat pattern dp) path in
  if is_ok res then f_findnext dp fno else ret (res, dp, fno).

Definition f_stat (path : option (list Z)) (fno : option FILINFO) : M (ff D) (FRESULT * option FILINFO) :=
  with_volume path 0 fno (fun p path =>
    let! (res, dj) := follow_path (new_dir p) path in
    if is_ok res then
      if is_null (dir dj) then ret (FR_INVALID_NAME, fno)
      else match fno with
           | None => ret (res, fno)
           | Some i => let! i := get_fileinfo dj i in ret (res, Some i)
           end
    else ret (res, fno)).

(** ** Free space *)

Definition count12_body (st : Z * Z) : M (vol D) (Z * Z + FRESULT * Z) :=
  let '(clst, n) := st in
  let! stat := get_fat clst in
  if stat =? 0xFFFFFFFF then ret (inr (FR_DISK_ERR, n))
  else if stat =? 1 then ret (inr (FR_INT_ERR, n))
  else
    let n := if stat =? 0 then n + 1 else n in
    let! nfe := getfs n_fatent in
    if clst + 1 <? nfe then ret (inl (clst + 1, n)) else ret (inr (FR_OK, n)).

(** State: [clst], [sect], [i], the offset [p] and [n]. *)
Definition count_body (fat : Z) (st : Z * Z * Z * Z * Z) : M (vol D) (Z * Z * Z * Z * Z + FRESULT * Z) :=
  let '(clst, sect, i, p, n) := st in
  let! (res, sect, i, p) :=
    (if i =? 0 then let! res := move_window sect in
                    ret (res, u32 (sect + 1), (if is_ok res then SS else i), (if is_ok res then 0 else p))
     else ret (FR_OK, sect, i, p)) in
  if negb (is_ok res) then ret (inr (res, n))
  else
    let! w := getfs win in
    let '(n, p, i) :=
      if fat =? FS_FAT16 then ((if LD_WORD w p =? 0 then n + 1 else n), p + 2, i - 2)
      else ((if Z.land (LD_DWORD w p) 0x0FFFFFFF =? 0 then n + 1 else n), p + 4, i - 4) in
    if clst - 1 =? 0 then ret (inr (FR_OK, n)) else ret (inl (clst - 1, sect, i, p, n)).

(** Lines 3377-3415: yields the result and [*nclst]. *)
Definition getfree_vol : M (vol D) (FRESULT * Z) :=
  let! f := getfs id in
  if free_clust f <=? u32 (n_fatent f - 2) then ret (FR_OK, free_clust f)
  else
    let! (res, n) :=
      (if fs_type f =? FS_FAT12 then loop (Z.to_nat (n_fatent f)) count12_body (2, 0)
       else loop (Z.to_nat (n_fatent f)) (count_body (fs_type f)) (n_fatent f, fatbase f, 0, 0, 0)) in
    setfs (set_free_clust n) ;;;
    setfs (fun f => set_fsi_flag (Z.lor (fsi_flag f) 1) f) ;;;
    ret (res, n).

(** Yields the result, [*nclst] and [*fatfs]; [nclst0] is the caller's value. *)
Definition f_getfree (path : option (list Z)) (nclst0 : Z) : M (ff D) (FRESULT * Z * Z) :=
  let! (res, p, path) := find_volume path 0 in
  if is_ok res then let! (res, n) := on_fs p getfree_vol in ret (res, n, p)
  else ret (res, nclst0, p).

(** ** Changes of the tree *)

(** Lines 3514-3530: a sub-directory must be empty. *)
Definition check_empty (dj : DIR) (dclst : Z) : M (vol D) FRESULT :=
  let! (res, sdj) := dir_sdi (set_sclust dclst dj) 2 in
  if is_ok res then
    let! (res, _) := dir_read sdj 0 in
    let res := if is_ok res then FR_DENIED else res in
    ret (if res_eq res FR_NO_FILE then FR_OK else res)
  else ret res.

Definition unlink_vol (p : Z) (path : list Z) : M (vol D) (FRESULT * unit) :=
  let! (res, dj) := follow_path (new_dir p) path in
  if is_ok res then
    let! f := getfs id in
    let off := default 0 (dir dj) in
    let! a := win_byte off DIR_Attr in
    let res := if is_null (dir dj) then FR_INVALID_NAME
               else if has a AM_RDO then FR_DENIED else FR_OK in
    let dclst := if is_ok res then ld_clust f (win f) off else 0 in
    let! res := (if is_ok res && nz dclst && has a AM_DIR then check_empty dj dclst else ret res) in
    if is_ok res then
      let! (res, _) := dir_remove dj in
      let! res := (if is_ok res && nz dclst then remove_chain dclst else ret res) in
      let! res := (if is_ok res then sync_fs else ret res) in
      ret (res, tt)
    else ret (res, tt)
  else ret (res, tt).

Definition f_unlink (path : option (list Z)) : M (ff D) (FRESULT * unit) :=
  with_volume path 1 tt unlink_vol.

(** Lines 3582-3592: the dot entries in the window. *)
Definition dot_entries (f : FATFS) (dcl pcl : Z) (w : list Z) : list Z :=
  let w := mem_set 0 0 SS w in
  let w := mem_set DIR_Name 32 11 w in
  let w := setb w DIR_Name 46 in
  let w := setb w DIR_Attr AM_DIR in
  let w := ST_DWORD DIR_WrtTime GET_FATTIME w in
  let w := st_clust 0 dcl w in
  let w := mem_cpy SZ_DIRE (take 32 w) SZ_DIRE w in
  let w := setb w (SZ_DIRE + 1) 46 in
  let pcl := if (fs_type f =? FS_FAT32) && (pcl =? dirbase f) then 0 else pcl in
  st_clust SZ_DIRE pcl w.

(** [for (n = csize; n; n--) { winsect = dsc++; ... }] *)
Fixpoint write_table (n : nat) (dsc : Z) : M (vol D) FRESULT :=
  match n with
  | O => ret FR_OK
  | S n =>
      setfs (set_winsect dsc) ;;; setfs (set_wflag 1) ;;;
      let! res := sync_window in
      if negb (is_ok res) then ret res
      else upd_win (mem_set 0 0 SS) ;;; write_table n (u32 (dsc + 1))
  end.

Definition mkdir_vol (p : Z) (path : list Z) : M (vol D) (FRESULT * unit) :=
  let! (res, dj) := follow_path (new_dir p) path in
  let res := if is_ok res then FR_EXIST else res in
  if res_eq res FR_NO_FILE then
    let! dcl := create_chain 0 in
    let res := if dcl =? 0 then FR_DENIED else if dcl =? 1 then FR_INT_ERR
               else if dcl =? 0xFFFFFFFF then FR_DISK_ERR else FR_OK in
    let! res := (if is_ok res then sync_window else ret res) in
    let! res := (if is_ok res then
                   let! f := getfs id in
                   upd_win (dot_entries f dcl (sclust dj)) ;;;
                   write_table (Z.to_nat (csize f)) (clust2sect f dcl)
                 else ret res) in
    let! (res, dj) := (if is_ok res then dir_register dj else ret (res, dj)) in
    if negb (is_ok res) then remove_chain dcl ;;; ret (res, tt)
    else
      let off := default 0 (dir dj) in
      set_win_byte off DIR_Attr AM_DIR ;;;
      upd_win (ST_DWORD (off + DIR_WrtTime) GET_FATTIME) ;;;
      upd_win (st_clust off dcl) ;;;
      setfs (set_wflag 1) ;;;
      let! res := sync_fs in
      ret (res, tt)
  else ret (res, tt).

Definition f_mkdir (path : option (list Z)) : M (ff D) (FRESULT * unit) :=
  with_volume path 1 tt mkdir_vol.

(** A change [g] of the entry a path names, flushed to the disk. *)
Definition update_entry (g : Z -> list Z -> list Z) (p : Z) (path : list Z) : M (vol D) (FRESULT * unit) :=
  let! (res, dj) := follow_path (new_dir p) path in
  if is_ok res then
    match dir dj with
    | None => ret (FR_INVALID_NAME, tt)
    | Some off =>
        upd_win (g off) ;;;
        setfs (set_wflag 1) ;;;
        let! res := sync_fs in
        ret (res, tt)
    end
  else ret (res, tt).

Definition chmod_entry (attr mask off : Z) (w : list Z) : list Z :=
  let mask := Z.land mask (Z.lor (Z.lor (Z.lor AM_RDO AM_HID) AM_SYS) AM_ARC) in
  setb w (off + DIR_Attr)
    (u8 (Z.lor (Z.land attr mask) (Z.land (getb w (off + DIR_Attr)) (u8 (Z.lnot mask))))).

Definition f_chmod (path : option (list Z)) (attr mask : Z) : M (ff D) (FRESULT * unit) :=
  with_volume path 1 tt (update_entry (chmod_entry attr mask)).

Definition utime_entry (fno : FILINFO) (off : Z) (w : list Z) : list Z :=
  ST_WORD (off + DIR_WrtDate) (fdate fno) (ST_WORD (off + DIR_WrtTime) (ftime fno) w).

Definition f_utime (path : option (list Z)) (fno : FILINFO) : M (ff D) (FRESULT * unit) :=
  with_volume path 1 tt (update_entry (utime_entry fno)).

(** Lines 3711-3723: the [..] entry of a directory that moves. *)
Definition fix_dotdot (djo djn : DIR) (off : Z) : M (vol D) FRESULT :=
  let! f := getfs id in
  if has (getb (win f) (off + DIR_Attr)) AM_DIR && negb (sclust djo =? sclust djn) then
    let dw := clust2sect f (ld_clust f (win f) off) in
    if dw =? 0 then ret FR_INT_ERR
    else
      let! res := move_window dw in
      let! w := getfs win in
      when (is_ok res && (getb w (SZ_DIRE + 1) =? 46))
        (upd_win (st_clust SZ_DIRE (sclust djn)) ;;; setfs (set_wflag 1)) ;;;
      ret res
  else ret FR_OK.

(** Lines 3704-3730. *)
Definition rename_move (djo djn : DIR) (buf : list Z) : M (vol D) FRESULT :=
  let! (res, djn) := dir_register djn in
  if is_ok res then
    let off := default 0 (dir djn) in
    upd_win (mem_cpy (off + 13) (drop 2 buf) 19) ;;;
    set_win_byte off DIR_Attr (Z.lor (getb buf 0) AM_ARC) ;;;
    setfs (set_wflag 1) ;;;
    let! res := fix_dotdot djo djn off in
    if is_ok res then
      let! (res, _) := dir_remove djo in
      if is_ok res then sync_fs else ret res
    else ret res
  else ret res.

Definition rename_vol (path_new : option (list Z)) (p : Z) (path_old : list Z) : M (vol D) (FRESULT * unit) :=
  let! (res, djo) := follow_path (new_dir p) path_old in
  if is_ok res then
    match dir djo with
    | None => ret (FR_NO_FILE, tt)
    | Some off =>
        let! w := getfs win in
        let buf := slice w (Z.to_nat (off + DIR_Attr)) 21 in
        let (vl, path_new) := get_ldnumber path_new in
        let! (res, djn) := (if vl >=? 0 then follow_path djo (default [] path_new)
                            else ret (FR_INVALID_DRIVE, djo)) in
        let res := if is_ok res then FR_EXIST else res in
        if res_eq res FR_NO_FILE then
          let! res := rename_move djo djn buf in ret (res, tt)
        else ret (res, tt)
    end
  else ret (res, tt).

Definition f_rename (path_old path_new : option (list Z)) : M (ff D) (FRESULT * unit) :=
  with_volume path_old 1 tt (rename_vol path_new).
End Api.

(** ** Counting free clusters *)

Section Theory.
Context {D : Type} `{L : DiskLaws D}.
Implicit Types (v : vol D) (f : FATFS).

(** The number of zero entries among [c, c + n). *)
Definition zeros v (c n : Z) : Z := zlen (filter (fun x => fat_entry v x = 0) (seqZ c n)).
Definition free_count v : Z := zeros v 2 (n_fatent (fs v) - 2).

Lemma zeros_snoc v c n : 0 <= n -> zeros v c (n + 1) = zeros v c n + (if fat_entry v (c + n) =? 0 then 1 else 0).
Proof.
  intros Hn. unfold zeros. rewrite seqZ_app by lia. change (seqZ ?x 1) with [x]. rewrite filter_app, zlen_app. f_equal.
  rewrite filter_cons. destruct (Z.eqb_spec (fat_entry v (c + n)) 0), (decide (fat_entry v (c + n) = 0)); done.
Qed.

Lemma zeros_app v c n m : 0 <= n -> 0 <= m -> zeros v c (n + m) = zeros v c n + zeros v (c + n) m.
Proof. intros. unfold zeros. by rewrite seqZ_app, filter_app, zlen_app. Qed.

Lemma wp_count12 v :
  wf v -> fat_geo (fs v) -> fat_sane v -> 2 < n_fatent (fs v) ->
  wp (loop (Z.to_nat (n_fatent (fs v))) count12_body (2, 0))
    (fun r v' => r = (FR_OK, free_count v) /\ wf v' /\ same_view v v' /\ same_alloc (fs v) (fs v')) v.
Proof.
  intros W FG Sa Hn. pose proof (fg_bound _ FG) as Hb.
  apply (wp_loop (fun st v' => wf v' /\ same_view v v' /\ same_alloc (fs v) (fs v') /\
            2 <= fst st < n_fatent (fs v) /\ snd st = zeros v 2 (fst st - 2))
         (fun st _ => Z.to_nat (n_fatent (fs v) - fst st))).
  - intros [clst n] v1 (W1 & V1 & A1 & Hc & En). cbn [fst snd] in *. unfold count12_body.
    pose proof (proj1 (view_fields v v1 V1)) as E1.
    wp_step. apply wp_get_fat; [done|by eapply geo_fat_geo; [apply V1|]|by unfold valid_clust; rewrite E1|].
    intros v2 W2 V2 A2. assert (valid_clust (fs v) clst) as Hv by done. rewrite (fat_entry_view v v1) by done.
    pose proof (fat_entry_range v clst W FG) as Hr. pose proof (fat_mod_le (fs v)) as Hm.
    rewrite (proj2 (Z.eqb_neq (fat_entry v clst) 0xFFFFFFFF)), (proj2 (Z.eqb_neq (fat_entry v clst) 1)) by (lia || by apply Sa).
    assert (same_view v v2 /\ same_alloc (fs v) (fs v2)) as [V02 A02] by (by split; etransitivity).
    assert ((if fat_entry v clst =? 0 then n + 1 else n) = zeros v 2 (clst + 1 - 2)) as ->.
    { replace (clst + 1 - 2) with (clst - 2 + 1) by lia. rewrite zeros_snoc by lia.
      replace (2 + (clst - 2)) with clst by lia. rewrite <- En. destruct (_ =? 0); lia. }
    wp_step. apply wp_getfs. rewrite (proj1 (view_fields v v2 V02)).
    destruct (Z.ltb_spec (clst + 1) (n_fatent (fs v))); apply wp_ret; cbn [fst snd].
    + split; [|lia]. do 3 (split; [done|]). split; [lia|done].
    + split; [|done]. unfold free_count. do 2 f_equal. lia.
  - cbn. split; [done|]. split; [done|]. split; [done|]. split; [lia|done].
  - cbn. lia.
Qed.

(** FAT16 and FAT32: the size of an entry and the entry in its sector. *)
Definition entry_size f : Z := if fs_type f =? FS_FAT16 then 2 else 4.

Lemma entry_zero v c w :
  wf v -> fat_geo (fs v) -> fs_type (fs v) <> FS_FAT12 -> 0 <= c < n_fatent (fs v) ->
  let i := c * entry_size (fs v) in
  w = lsec v (fatbase (fs v) + i / SS) ->
  (if fs_type (fs v) =? FS_FAT16 then LD_WORD w (i mod SS) =? 0
   else Z.land (LD_DWORD w (i mod SS)) 0x0FFFFFFF =? 0) = (fat_entry v c =? 0).
Proof.
  intros W FG Ht Hc i Ew. pose proof (lsec_bytes v (fatbase (fs v) + i / SS) W) as Hby. rewrite <- Ew in Hby.
  unfold fat_entry. rewrite (proj2 (Z.eqb_neq (fs_type (fs v)) FS_FAT12) Ht).
  unfold i, entry_size in *. destruct (Z.eqb_spec (fs_type (fs v)) FS_FAT16) as [E|E].
  - rewrite LD_WORD_spec by done. unfold fat_byte.
    assert ((c * 2 + 1) / SS = c * 2 / SS /\ (c * 2 + 1) mod SS = c * 2 mod SS + 1) as [-> ->]
      by (unfold SS; Z.div_mod_to_equations; lia).
    by rewrite <- Ew.
  - rewrite (land_mask_low _ 28) by done. rewrite LD_DWORD_spec by done. unfold fat_byte.
    assert (forall k, 0 <= k <= 3 -> (c * 4 + k) / SS = c * 4 / SS /\ (c * 4 + k) mod SS = c * 4 mod SS + k) as Hk
      by (intros k Hk; unfold SS; Z.div_mod_to_equations; lia).
    rewrite (proj1 (Hk 1 ltac:(lia))), (proj2 (Hk 1 ltac:(lia))), (proj1 (Hk 2 ltac:(lia))), (proj2 (Hk 2 ltac:(lia))),
      (proj1 (Hk 3 ltac:(lia))), (proj2 (Hk 3 ltac:(lia))). by rewrite <- Ew.
Qed.

(** The scan of the FAT16 and FAT32 loop after the entries below
    [n_fatent - clst]. *)
Record scanned v (st : Z * Z * Z * Z * Z) v' : Prop := {
  sc_wf : wf v';
  sc_view : same_view v v';
  sc_alloc : same_alloc (fs v) (fs v');
  sc_state : let '(clst, sect, i, p, n) := st in
    let j := (n_fatent (fs v) - clst) * entry_size (fs v) in
    0 < clst <= n_fatent (fs v) /\ n = zeros v 0 (n_fatent (fs v) - clst) /\
    ((i = 0 /\ j mod SS = 0 /\ sect = fatbase (fs v) + j / SS) \/
     (i = SS - j mod SS /\ i <> SS /\ p = j mod SS /\ sect = fatbase (fs v) + j / SS + 1 /\
      win (fs v') = lsec v (fatbase (fs v) + j / SS)))
}.

Lemma entry_size_cases f : fs_type f <> FS_FAT12 -> fat_geo f ->
  (entry_size f = 2 \/ entry_size f = 4) /\ n_fatent f * entry_size f <= fsize f * SS.
Proof.
  intros Ht [Hty _ Hneed]. unfold entry_size, fat_need in *. rewrite (proj2 (Z.eqb_neq _ FS_FAT12) Ht) in Hneed.
  destruct (fs_type f =? FS_FAT16); auto.
Qed.

(** The head of a round: the sector of the next entry is in the window. *)
Lemma wp_count_fetch v clst sect i p n v1 (Q : FRESULT * Z * Z * Z -> vol D -> Prop) :
  wf v -> fat_geo (fs v) -> fs_type (fs v) <> FS_FAT12 -> scanned v (clst, sect, i, p, n) v1 ->
  let j := (n_fatent (fs v) - clst) * entry_size (fs v) in
  (forall v', wf v' -> same_view v v' -> same_alloc (fs v) (fs v') -> win (fs v') = lsec v (fatbase (fs v) + j / SS) ->
     Q (FR_OK, fatbase (fs v) + j / SS + 1, SS - j mod SS, j mod SS) v') ->
  wp (if i =? 0 then let! res := move_window sect in
                     ret (res, u32 (sect + 1), (if is_ok res then SS else i), (if is_ok res then 0 else p))
      else ret (FR_OK, sect, i, p)) Q v1.
Proof.
  intros W FG Ht [S1 S2 S3 (Hc & En & S4)] j HQ. destruct (entry_size_cases _ Ht FG) as [Hes Hneed].
  fold j in S4. destruct (sector_split j) as [_ Bj]. destruct S4 as [(-> & Em & ->)|(-> & Hi & -> & -> & Ew)].
  - cbn [Z.eqb]. destruct (fat_sector_ok v j W) as (R1 & R2 & R3); [unfold j; nia|].
    wp_step. apply wp_move_window; [done|by apply S2|by rewrite (geo_mirror _ _ _ (proj1 S2))|done|].
    intros v2 W2 V2 _ Ew A1 A2 A3. apply wp_ret. change (is_ok FR_OK) with true. cbv iota.
    rewrite u32_small by (unfold is_u32; lia). rewrite Em in HQ. rewrite Z.sub_0_r in HQ.
    apply HQ; [done|by transitivity v1|by transitivity (fs v1)|]. rewrite Ew. by apply S2.
  - rewrite (proj2 (Z.eqb_neq _ 0)) by lia. apply wp_ret. by apply HQ.
Qed.

Lemma wp_count_round v st v1 :
  wf v -> fat_geo (fs v) -> fs_type (fs v) <> FS_FAT12 -> scanned v st v1 ->
  wp (count_body (fs_type (fs v)) st)
    (fun r v' => match r with
                 | inl st' => scanned v st' v' /\ fst (fst (fst (fst st'))) < fst (fst (fst (fst st))) /\
                              0 < fst (fst (fst (fst st')))
                 | inr r => r = (FR_OK, zeros v 0 (n_fatent (fs v))) /\ wf v' /\ same_view v v' /\ same_alloc (fs v) (fs v')
                 end) v1.
Proof.
  intros W FG Ht SC. destruct st as [[[[clst sect] i] p] n]. pose proof SC as [S1 S2 S3 (Hc & En & _)].
  destruct (entry_size_cases _ Ht FG) as [Hes Hneed]. unfold count_body. wp_step.
  apply (wp_count_fetch v clst sect i p n v1); try done. intros v2 W2 V2 A2 Ew. set (c := n_fatent (fs v) - clst) in *.
  change (is_ok FR_OK) with true. cbn [negb]. wp_step. apply wp_getfs.
  pose proof (entry_zero v c (win (fs v2)) W FG Ht ltac:(lia) Ew) as Ez. cbv zeta in Ez.
  set (j := c * entry_size (fs v)) in *. destruct (sector_split j) as [Dj Bj].
  assert ((if fs_type (fs v) =? FS_FAT16
           then ((if LD_WORD (win (fs v2)) (j mod SS) =? 0 then n + 1 else n), j mod SS + 2, SS - j mod SS - 2)
           else ((if Z.land (LD_DWORD (win (fs v2)) (j mod SS)) 0x0FFFFFFF =? 0 then n + 1 else n), j mod SS + 4, SS - j mod SS - 4)) =
          (zeros v 0 (c + 1), j mod SS + entry_size (fs v), SS - j mod SS - entry_size (fs v))) as ->.
  { rewrite zeros_snoc, Z.add_0_l, <- Ez, <- En by lia. unfold entry_size.
    destruct (fs_type (fs v) =? FS_FAT16); destruct (_ =? 0); rewrite ?Z.add_0_r; done. }
  destruct (Z.eqb_spec (clst - 1) 0) as [E|E]; apply wp_ret.
  - split; [|done]. do 2 f_equal. lia.
  - split; [|cbn; lia]. constructor; try done.
    assert (n_fatent (fs v) - (clst - 1) = c + 1) as -> by lia. split; [lia|]. split; [done|].
    replace ((c + 1) * entry_size (fs v)) with (j + entry_size (fs v)) by lia.
    assert (j mod entry_size (fs v) = 0) as Hj by (apply Z.mod_mul; lia).
    destruct (Z.eq_dec (j mod SS + entry_size (fs v)) SS) as [Ef|Ef]; [left|right].
    + split; [lia|]. unfold SS in *. destruct Hes as [Hx|Hx]; rewrite Hx in *; Z.div_mod_to_equations; lia.
    + assert ((j + entry_size (fs v)) / SS = j / SS /\ (j + entry_size (fs v)) mod SS = j mod SS + entry_size (fs v)) as [-> ->].
      { unfold SS in *. destruct Hes as [Hx|Hx]; rewrite Hx in *; Z.div_mod_to_equations; lia. }
      split; [lia|]. split; [lia|]. done.
Qed.

Lemma wp_count v :
  wf v -> fat_geo (fs v) -> fs_type (fs v) <> FS_FAT12 ->
  wp (loop (Z.to_nat (n_fatent (fs v))) (count_body (fs_type (fs v))) (n_fatent (fs v), fatbase (fs v), 0, 0, 0))
    (fun r v' => r = (FR_OK, zeros v 0 (n_fatent (fs v))) /\ wf v' /\ same_view v v' /\ same_alloc (fs v) (fs v')) v.
Proof.
  intros W FG Ht. pose proof (fg_bound _ FG) as Hb.
  apply (wp_loop (fun st v' => scanned v st v' /\ 0 < fst (fst (fst (fst st))))
         (fun st _ => Z.to_nat (fst (fst (fst (fst st))) - 1))).
  - intros st v1 [SC Hp]. eapply wp_mono; [by apply (wp_count_round v)|]. intros [st'|r] v' Hr; [|done].
    destruct Hr as (? & ? & ?). split; [done|lia].
  - split; [|cbn; lia]. constructor; try done. rewrite Z.sub_diag. split; [lia|]. split; [done|]. left.
    split; [done|]. split; [done|]. change (0 * _ / SS) with 0. lia.
  - cbn. lia.
Qed.

Lemma wp_getfree v :
  wf v -> fat_geo (fs v) -> fat_sane v -> 2 < n_fatent (fs v) ->
  (fs_type (fs v) <> FS_FAT12 -> fat_entry v 0 <> 0 /\ fat_entry v 1 <> 0) -> n_fatent (fs v) - 2 < free_clust (fs v) ->
  wp getfree_vol
    (fun r v' => r = (FR_OK, free_count v) /\ wf v' /\ same_view v v' /\ free_clust (fs v') = free_count v) v.
Proof.
  intros W FG Sa Hn Hrsv Hfc. pose proof (fg_bound _ FG) as Hb. unfold getfree_vol. wp_step. apply wp_getfs. unfold id.
  rewrite u32_small by (unfold is_u32; lia). rewrite (proj2 (Z.leb_gt _ _)) by lia. wp_step.
  eapply (wp_mono _ (fun r v' => r = (FR_OK, free_count v) /\ wf v' /\ same_view v v' /\ same_alloc (fs v) (fs v'))).
  - destruct (Z.eqb_spec (fs_type (fs v)) FS_FAT12) as [E|E]; [by apply wp_count12|].
    eapply wp_mono; [by apply wp_count|]. intros r v' (-> & R). split; [|done]. f_equal.
    destruct (Hrsv E) as [E0 E1]. replace (n_fatent (fs v)) with (2 + (n_fatent (fs v) - 2)) by lia.
    rewrite zeros_app by lia. unfold free_count. rewrite Z.add_0_l.
    replace (zeros v 0 2) with 0; [f_equal; lia|].
    change 2 with (0 + 1 + 1). rewrite !zeros_snoc by lia. change (0 + (0 + 1)) with 1. change (0 + 0) with 0.
    by rewrite (proj2 (Z.eqb_neq _ 0) E0), (proj2 (Z.eqb_neq _ 0) E1).
  - intros [res n] v' ([= -> ->] & W' & V' & A'). wp_step. apply wp_setfs. wp_step. apply wp_setfs, wp_ret. cbn [fs disk].
    match goal with |- _ /\ wf (Build_vol ?f _) /\ _ => destruct (hints_only v' f W') as [W2 V2]; [done..|] end.
    split; [done|]. split; [done|]. split; [by transitivity v'|done].
Qed.

Lemma free_count_bound v : 2 <= n_fatent (fs v) -> 0 <= free_count v <= n_fatent (fs v) - 2.
Proof.
  intros Hn. unfold free_count, zeros, zlen. split; [lia|].
  pose proof (length_filter (fun x => fat_entry v x = 0) (seqZ 2 (n_fatent (fs v) - 2))) as Hl. rewrite length_seqZ in Hl. lia.
Qed.

(** The free space is counted exactly in all three formats: on a volume
    whose count is unknown the scan of [f_getfree] returns [FR_OK] and the
    number of clusters whose FAT entry is zero (FAT16 and FAT32 scan the two
    reserved entries too, which are not zero), and a second call returns the
    same number from the cached count; the disk is not changed. *)
Theorem getfree_counts_free_clusters v :
  wf v -> fat_geo (fs v) -> fat_sane v -> 2 < n_fatent (fs v) ->
  (fs_type (fs v) <> FS_FAT12 -> fat_entry v 0 <> 0 /\ fat_entry v 1 <> 0) -> n_fatent (fs v) - 2 < free_clust (fs v) ->
  wp (let! r1 := getfree_vol in let! r2 := getfree_vol in ret (r1, r2))
    (fun '(r1, r2) v' => r1 = (FR_OK, free_count v) /\ r2 = (FR_OK, free_count v) /\ wf v' /\ same_view v v') v.
Proof.
  intros W FG Sa Hn Hrsv Hfc. pose proof (fg_bound _ FG) as Hb. pose proof (free_count_bound v ltac:(lia)) as Hf.
  wp_step. eapply wp_mono; [by apply wp_getfree|]. intros r v1 (-> & W1 & V1 & E1).
  pose proof (proj1 (view_fields v v1 V1)) as En.
  wp_step. unfold getfree_vol. wp_step. apply wp_getfs. unfold id. rewrite E1, En, u32_small by (unfold is_u32; lia).
  rewrite (proj2 (Z.leb_le _ _)) by lia. apply wp_ret, wp_ret. done.
Qed.
End Theory.

(** ** Counting on small volumes *)

Definition uncounted : vol ramdisk := {| fs := set_free_clust 0xFFFFFFFF demo_fs; disk := demo_disk |}.

Lemma getfree_counts_free_clusters_witness :
  wp (let! r1 := getfree_vol in let! r2 := getfree_vol in ret (r1, r2))
    (fun '(r1, r2) v' => r1 = (FR_OK, free_count uncounted) /\ r2 = (FR_OK, free_count uncounted) /\
                         wf v' /\ same_view uncounted v') uncounted.
Proof.
  apply (getfree_counts_free_clusters uncounted);
    [by apply (hints_only demo (set_free_clust 0xFFFFFFFF demo_fs) demo_wf)|by apply (geo_fat_geo demo_fs); [|exact demo_geo]|exact demo_sane|done|done|done].
Defined.

Example uncounted_free : free_count uncounted = 6.
Proof. vm_compute. reflexivity. Qed.

(** The entry of cluster 4 holds the illegal value 1. *)
Definition damaged : vol ramdisk :=
  {| fs := set_free_clust 0xFFFFFFFF demo_fs;
     disk := {| blocks := {[ 1 := [0xF8; 0xFF; 0xFF; 0x03; 0xF0; 0xFF; 0x01] ]}; nblocks := 12 |} |}.

(** A scan that stops at an error leaves its partial count as the volume's
    free-cluster count: on a FAT12 volume with five free clusters and one
    illegal entry the first call reports [FR_INT_ERR], and the next one returns
    [FR_OK] with zero free clusters. *)
Theorem getfree_caches_partial_count :
  free_count damaged = 5 /\
  exists v', (let! r1 := getfree_vol in let! r2 := getfree_vol in ret (r1, r2)) damaged =
             Some (((FR_INT_ERR, 0), (FR_OK, 0)), v').
Proof. split; [vm_compute; reflexivity|]. eexists. vm_compute. reflexivity. Qed.
