(* ===== verification/FatStr.v ===== *)
(** * FatFs string functions ([ff.c] lines 4340-4632)

    Line input and buffered character output on top of [f_read] and
    [f_write] ([_USE_STRFUNC] is 1: no CR/LF conversion). *)

From S2P Require Import Prelude FatBase FatAccess FatName FatDir FatVolume FatFile FatWrite.

Section Str.
Context {D : Type} `{DiskIO D}.

(** ** Input *)

(** State: the file object and the characters stored so far. *)
Definition gets_body (len : Z) (st : FIL * list Z) : M (ff D) (FIL * list Z + FIL * list Z) :=
  let '(fp, out) := st in
  if zlen out <? len - 1 then
    let! (_, fp, s) := f_read fp 1 in
    if negb (zlen s =? 1) then ret (inr (fp, out))
    else
      let c := getb s 0 in
      let out := out ++ [c] in
      if c =? 10 then ret (inr (fp, out)) else ret (inl (fp, out))
  else ret (inr (fp, out)).

(** Yields the string, or [None] for a null pointer. *)
Definition f_gets (len : Z) (fp : FIL) : M (ff D) (FIL * option (list Z)) :=
  let! (fp, out) := loop (S (Z.to_nat len)) (gets_body len) (fp, []) in
  ret (fp, if zlen out =? 0 then None else Some out).

(** ** Output *)

(** [buf] holds the [idx] characters that are buffered when [idx] is not
    negative. *)
Record putbuff := { pb_fp : FIL; idx : Z; nchr : Z; pb_buf : list Z }.

Definition putc_bfd (pb : putbuff) (c : Z) : M (ff D) putbuff :=
  let i := idx pb in
  if i <? 0 then ret pb
  else
    let buf := take (Z.to_nat i) (pb_buf pb) ++ [u8 c] in
    let i := i + 1 in
    if i >=? 64 - 3 then
      let! (_, fp, bw) := f_write (pb_fp pb) buf in
      ret {| pb_fp := fp; idx := if bw =? i then 0 else -1; nchr := nchr pb + 1; pb_buf := buf |}
    else ret {| pb_fp := pb_fp pb; idx := i; nchr := nchr pb + 1; pb_buf := buf |}.

Definition put_init (fp : FIL) : putbuff := {| pb_fp := fp; idx := 0; nchr := 0; pb_buf := [] |}.

Fixpoint puts_bfd (pb : putbuff) (str : list Z) : M (ff D) putbuff :=
  match str with
  | [] => ret pb
  | c :: str => let! pb := putc_bfd pb c in puts_bfd pb str
  end.

(** The flush at the end of the functions; -1 is [EOF]. *)
Definition put_flush (pb : putbuff) : M (ff D) (FIL * Z) :=
  if idx pb >=? 0 then
    let! (res, fp, nw) := f_write (pb_fp pb) (take (Z.to_nat (idx pb)) (pb_buf pb)) in
    ret (fp, if is_ok res && (idx pb =? nw) then nchr pb else -1)
  else ret (pb_fp pb, -1).

Definition f_putc (c : Z) (fp : FIL) : M (ff D) (FIL * Z) :=
  let! pb := putc_bfd (put_init fp) c in put_flush pb.

Definition f_puts (str : list Z) (fp : FIL) : M (ff D) (FIL * Z) :=
  let! pb := puts_bfd (put_init fp) str in put_flush pb.

(** ** Formatted output *)

(** The variable arguments. *)
Inductive va_arg := AStr (s : list Z) | AInt (n : Z).

Definition IsDigit (c : Z) : bool := (48 <=? c) && (c <=? 57).

(** [while (IsDigit(c)) { w = w * 10 + c - '0'; c = *fmt++; }] *)
Fixpoint parse_width (c : Z) (fmt : list Z) (w : Z) : Z * list Z * Z :=
  match fmt with
  | [] => if IsDigit c then (0, [], u32 (w * 10 + c - 48)) else (c, fmt, w)
  | c' :: fmt' => if IsDigit c then parse_width c' fmt' (u32 (w * 10 + c - 48)) else (c, fmt, w)
  end.

(** Digits of [v] in base [r], least significant first, at most [k]. *)
Fixpoint digits (k : nat) (v r c : Z) : list Z :=
  match k with
  | O => []
  | S k =>
      let d := v mod r in
      let d := if d >? 9 then d + (if c =? 120 then 0x27 else 0x07) else d in
      (d + 48) :: (if v / r =? 0 then [] else digits k (v / r) r c)
  end.

(** The characters a numeric conversion puts (lines 4608-4623): [f] are the
    flags (1: zero padding, 2: left justified), [d] the upper-cased type. *)
Definition format_number (f w r c d v : Z) : list Z :=
  let neg := (d =? 68) && has v 0x80000000 in
  let v := if neg then u32 (0 - v) else v in
  let s := digits 16 v r c ++ (if neg then [45] else []) in
  let blank := if has f 1 then 48 else 32 in
  let gap := replicate (Z.to_nat (w - zlen s)) blank in
  if has f 2 then rev s ++ gap else gap ++ rev s.

Definition format_string (f w : Z) (p : list Z) : list Z :=
  let gap := replicate (Z.to_nat (w - zlen p)) 32 in
  if has f 2 then p ++ gap else gap ++ p.

(** A conversion specification behind ['%']: flags, width, size and type. *)
Record spec := { sp_f : Z; sp_w : Z; sp_c : Z; sp_rest : list Z }.

Definition parse_spec (fmt : list Z) : spec :=
  let c := peek fmt in let fmt := next fmt in
  let '(f, c, fmt) :=
    if c =? 48 then (1, peek fmt, next fmt)
    else if c =? 45 then (2, peek fmt, next fmt) else (0, c, fmt) in
  let '(c, fmt, w) := parse_width c fmt 0 in
  let '(f, c, fmt) :=
    if (c =? 108) || (c =? 76) then (Z.lor f 4, peek fmt, next fmt) else (f, c, fmt) in
  {| sp_f := f; sp_w := w; sp_c := c; sp_rest := fmt |}.

(** The characters put for a specification and the arguments left; [None] when
    the arguments do not fit (undefined in C). *)
Definition convert (sp : spec) (args : list va_arg) : option (list Z * list va_arg) :=
  let c := sp_c sp in
  let d := if IsLower c then c - 0x20 else c in
  if d =? 83 then                                       (* 'S' *)
    match args with AStr p :: args => Some (format_string (sp_f sp) (sp_w sp) p, args) | _ => None end
  else if d =? 67 then                                  (* 'C' *)
    match args with AInt n :: args => Some ([u8 n], args) | _ => None end
  else
    let r := if d =? 66 then 2 else if d =? 79 then 8 else if (d =? 68) || (d =? 85) then 10
             else if d =? 88 then 16 else 0 in
    if r =? 0 then Some ([c], args)
    else match args with
         | AInt n :: args => Some (format_number (sp_f sp) (sp_w sp) r c d (u32 n), args)
         | _ => None
         end.

(** The text of a format; it ends at a specification cut off by the end of the
    format string. *)
Fixpoint format_text (fuel : nat) (fmt : list Z) (args : list va_arg) : option (list Z) :=
  match fuel with
  | O => None
  | S fuel =>
      match fmt with
      | [] => Some []
      | c :: fmt =>
          if negb (c =? 37) then (fun t => c :: t) <$> format_text fuel fmt args
          else
            let sp := parse_spec fmt in
            if sp_c sp =? 0 then Some []
            else match convert sp args with
                 | None => None
                 | Some (t, args) => (fun t' => t ++ t') <$> format_text fuel (sp_rest sp) args
                 end
      end
  end.

(** Every character goes through [putc_bfd] in order. *)
Definition f_printf (fp : FIL) (fmt : list Z) (args : list va_arg) : M (ff D) (FIL * Z) :=
  match format_text (S (length fmt)) fmt args with
  | None => fault
  | Some text => let! pb := puts_bfd (put_init fp) text in put_flush pb
  end.
End Str.

(** ** Buffered output *)

Section Theory.
Context {D : Type} `{L : DiskLaws D}.
Implicit Types (v : vol D) (f : FATFS) (cl : list Z).

(** [data] has been appended at the pointer of the file [fp0] of the state
    [s0]; [fp] is its object now. *)
Record appended (s0 : ff D) (fp0 : FIL) (f0 : FATFS) cl0 (data : list Z) (fp : FIL) (s : ff D) : Prop := {
  ap_state : exists f cl, objs s !! f_fs fp0 = Some f /\ fs_id f = fs_id f0 /\ drv f = drv f0 /\
    vol_ok (Build_vol f (dev s)) /\ wfile (Build_vol f (dev s)) fp cl /\ at_ptr f fp cl /\
    written (Build_vol f0 (dev s0)) cl0 (f_fsize fp0) (fptr fp0) data (Build_vol f (dev s)) cl;
  ap_ptr : fptr fp = fptr fp0 + zlen data;
  ap_size : f_fsize fp = Z.max (f_fsize fp0) (fptr fp0 + zlen data);
  ap_obj : f_fs fp = f_fs fp0 /\ f_id fp = f_id fp0 /\ err fp = err fp0;
  ap_flag : has (flag fp) FA_WRITE = has (flag fp0) FA_WRITE
}.

(** The volume of the state has no free cluster. *)
Definition full_volume (s : ff D) (p : Z) : Prop :=
  exists f, objs s !! p = Some f /\ forall c, valid_clust f c -> fat_entry (Build_vol f (dev s)) c <> 0.

Lemma appended_start s0 fp0 f0 cl0 buff : writable s0 fp0 f0 cl0 buff -> appended s0 fp0 f0 cl0 [] fp0 s0.
Proof.
  intros [W1 W2 W3 W4 [A1 A2 A3 A4 A5 A6]]. pose proof (wl_ptr _ _ _ A2). pose proof (wl_size _ _ _ A2).
  constructor; change (zlen (@nil Z)) with 0; try done; [|lia|lia].
  exists f0, cl0. do 6 (split; [done|]). apply written_view; [done|by eapply wfile_clusters|lia|lia|done].
Qed.

(** One [f_write] behind what has been appended. *)
Lemma wp_append s0 fp0 f0 cl0 buff data fp s d :
  writable s0 fp0 f0 cl0 buff -> (forall d, online d (drv f0)) -> err fp0 = FR_OK -> has (flag fp0) FA_WRITE = true ->
  appended s0 fp0 f0 cl0 data fp s -> Forall is_byte d -> fptr fp0 + zlen data + zlen d < 2 ^ 32 ->
  wp (f_write fp d)
    (fun '(res, fp', bw) s' =>
       res = FR_OK /\ ((bw = zlen d /\ appended s0 fp0 f0 cl0 (data ++ d) fp' s') \/
                       (0 <= bw < zlen d /\ full_volume s' (f_fs fp0)))) s.
Proof.
  intros WB On Ee Hw [(f & cl & Ho & Hi & Hd & VK & FO & AP & WR) P1 P2 (P3 & P4 & P5) P6] Hb Hfit.
  pose proof WB as [W1 W2 W3 W4 [A1 A2 A3 A4 A5 A6]]. pose proof (zlen_nonneg d) as Hn. pose proof (zlen_nonneg data) as Hn2.
  assert (writable s fp f cl d) as WB1.
  { constructor; rewrite ?P3, ?P4; try done; [congruence|lia|]. constructor; try done; lia. }
  eapply wp_mono; [apply (wp_f_write s fp f cl d); try done; [by rewrite Hd|by rewrite P5|by rewrite P6]|].
  intros [[res fp'] bw] s' (f' & Ho' & Hi' & Hd' & (-> & Hbw & VK' & Q1 & Q2 & Q3 & Q4 & Q5 & Q6 & _ & _ & Hfull & cl' & FO' & AP' & WR')).
  rewrite P3 in *. split; [done|]. destruct (Z.eq_dec bw (zlen d)) as [->|Hne]; [left|right].
  - split; [done|]. rewrite take_ge in WR' by (unfold zlen; lia). constructor; rewrite ?zlen_app.
    + exists f', cl'. split; [done|]. split; [congruence|]. split; [congruence|]. do 3 (split; [done|]).
      apply (written_trans _ _ _ _ _ (Build_vol f (dev s)) cl (f_fsize fp)); [apply A1|pose proof (wl_ptr _ _ _ A2); lia|lia|done|].
      by rewrite <- P1.
    + lia.
    + rewrite Q2, P2, P1. lia.
    + split; [congruence|]. split; congruence.
    + rewrite Q3, has_lor_written by done. done.
  - split; [lia|]. exists f'. split; [done|]. apply Hfull. lia.
Qed.

(** *** The functions that put characters

    A file open for writing with room for [text] in its 32-bit size. *)
Section Put.
Context (s0 : ff D) (fp0 : FIL) (f0 : FATFS) (cl0 text : list Z).
Hypothesis WB : writable s0 fp0 f0 cl0 text.
Hypothesis On : forall d, online d (drv f0).
Hypothesis Ee : err fp0 = FR_OK.
Hypothesis Hw : has (flag fp0) FA_WRITE = true.

(** The buffer after the characters [str]: part is in the file, the rest in
    the buffer; or a write came up short and the error sticks. *)
Definition putting (str : list Z) (pb : putbuff) (s : ff D) : Prop :=
  (idx pb = -1 /\ full_volume s (f_fs fp0)) \/
  (0 <= idx pb < 61 /\ nchr pb = zlen str /\ (Z.to_nat (idx pb) <= length (pb_buf pb))%nat /\
   exists flushed, str = flushed ++ take (Z.to_nat (idx pb)) (pb_buf pb) /\ appended s0 fp0 f0 cl0 flushed (pb_fp pb) s).

Lemma wp_putc_bfd str pb c s :
  putting str pb s -> Forall is_byte (str ++ [c]) -> fptr fp0 + zlen (str ++ [c]) < 2 ^ 32 ->
  wp (putc_bfd pb c) (putting (str ++ [c])) s.
Proof.
  intros PT Hb Hfit. unfold putc_bfd. destruct PT as [[E FV]|(Hi & En & Hl & fl & Es & AP)].
  { rewrite (proj2 (Z.ltb_lt (idx pb) 0)) by lia. apply wp_ret. by left. }
  rewrite (proj2 (Z.ltb_ge (idx pb) 0)) by lia. set (old := take (Z.to_nat (idx pb)) (pb_buf pb)) in *.
  apply Forall_app in Hb as [Hb1 Hb2]. assert (is_byte c) as Hc by (by inversion Hb2). rewrite u8_small by done.
  assert (zlen (old ++ [c]) = idx pb + 1) as Elen.
  { unfold old, zlen in *. rewrite length_app, length_take. cbn [length]. lia. }
  assert (fl ++ (old ++ [c]) = str ++ [c]) as Eapp by (by rewrite Es, <- app_assoc).
  destruct (Z.geb_spec (idx pb + 1) (64 - 3)) as [Hge|Hlt].
  - wp_step. eapply wp_mono.
    { apply (wp_append s0 fp0 f0 cl0 text fl (pb_fp pb) s); try done.
      - apply Forall_app. split; [|done]. rewrite Es in Hb1. by apply Forall_app in Hb1 as [_ ?].
      - rewrite <- Eapp, zlen_app in Hfit. lia. }
    intros [[res fp'] bw] s' [_ [[-> AP']|[Hbw FV]]]; apply wp_ret.
    + rewrite Elen, Z.eqb_refl. right. cbn. split; [lia|]. split; [rewrite zlen_app; unfold zlen in *; cbn; lia|]. split; [lia|].
      exists (str ++ [c]). split; [by rewrite app_nil_r|by rewrite <- Eapp].
    + rewrite (proj2 (Z.eqb_neq bw _)) by lia. by left.
  - apply wp_ret. right. cbn [idx nchr pb_buf pb_fp]. split; [lia|]. split; [rewrite zlen_app; unfold zlen in *; cbn; lia|].
    unfold zlen in Elen. split; [lia|]. exists fl. split; [|done]. rewrite take_ge by lia. done.
Qed.

Lemma wp_puts_bfd rest : forall str pb s,
  putting str pb s -> Forall is_byte (str ++ rest) -> fptr fp0 + zlen (str ++ rest) < 2 ^ 32 ->
  wp (puts_bfd pb rest) (putting (str ++ rest)) s.
Proof.
  induction rest as [|c rest IH]; intros str pb s PT Hb Hfit; cbn [puts_bfd].
  - apply wp_ret. by rewrite app_nil_r.
  - assert (str ++ c :: rest = (str ++ [c]) ++ rest) as E by (by rewrite <- app_assoc). rewrite E in *.
    wp_step. pose proof Hb as Hb'. apply Forall_app in Hb' as [Hb1 _]. eapply wp_mono.
    { apply wp_putc_bfd; [exact PT|done|]. rewrite zlen_app in Hfit. pose proof (zlen_nonneg rest). lia. }
    intros pb' s' PT'. by apply IH.
Qed.

(** All characters are in the file, or the volume is full. *)
Definition put_done (str : list Z) (r : FIL * Z) (s : ff D) : Prop :=
  (snd r = zlen str /\ appended s0 fp0 f0 cl0 str (fst r) s) \/ (snd r = -1 /\ full_volume s (f_fs fp0)).

Lemma wp_put_flush str pb s :
  putting str pb s -> Forall is_byte str -> fptr fp0 + zlen str < 2 ^ 32 ->
  wp (put_flush pb) (put_done str) s.
Proof.
  intros PT Hb Hfit. unfold put_flush. destruct PT as [[E FV]|(Hi & En & Hl & fl & Es & AP)].
  { destruct (Z.geb_spec (idx pb) 0); [lia|]. apply wp_ret. by right. }
  destruct (Z.geb_spec (idx pb) 0); [|lia]. set (old := take (Z.to_nat (idx pb)) (pb_buf pb)) in *.
  assert (zlen old = idx pb) as El by (unfold old, zlen in *; rewrite length_take; lia). wp_step. eapply wp_mono.
  { apply (wp_append s0 fp0 f0 cl0 text fl (pb_fp pb) s); try done.
    - rewrite Es in Hb. by apply Forall_app in Hb as [_ ?].
    - rewrite Es, zlen_app in Hfit. lia. }
  intros [[res fp'] bw] s' [-> [[-> AP']|[Hbw FV]]]; apply wp_ret; change (is_ok FR_OK) with true; cbn [andb].
  - rewrite El, Z.eqb_refl. left. split; [exact En|]. cbn [fst]. rewrite Es. exact AP'.
  - rewrite (proj2 (Z.eqb_neq _ bw)) by lia. by right.
Qed.

Lemma wp_put_all : wp (let! pb := puts_bfd (put_init fp0) text in put_flush pb) (put_done text) s0.
Proof.
  pose proof (wb_start _ _ _ _ _ WB) as [A1 A2 A3 A4 A5 A6]. wp_step.
  eapply wp_mono; [apply (wp_puts_bfd text [])|]; [|done|done|].
  - right. cbn. split; [lia|]. split; [done|]. split; [lia|]. exists []. split; [done|]. by eapply appended_start.
  - intros pb s PT. by apply wp_put_flush.
Qed.
End Put.

(** [f_puts] writes the whole string, chunked through its 64-byte buffer,
    at the file pointer and returns its length; it returns [EOF] only when the
    volume has no free cluster left. *)
Theorem f_puts_correct s fp f cl str :
  writable s fp f cl str -> (forall d, online d (drv f)) -> err fp = FR_OK -> has (flag fp) FA_WRITE = true ->
  wp (f_puts str fp) (put_done s fp f cl str) s.
Proof. apply wp_put_all. Qed.

(** [f_printf] writes exactly the formatted text, whenever the arguments
    fit the format, and returns its length; it returns [EOF] only when the
    volume has no free cluster left. *)
Theorem f_printf_correct s fp f cl fmt args text :
  format_text (S (length fmt)) fmt args = Some text ->
  writable s fp f cl text -> (forall d, online d (drv f)) -> err fp = FR_OK -> has (flag fp) FA_WRITE = true ->
  wp (f_printf fp fmt args) (put_done s fp f cl text) s.
Proof. intros E WB On Ee Hw. unfold f_printf. rewrite E. by apply wp_put_all. Qed.
End Theory.

(** ** Numbers as text *)

(** The value of a digit character, in either case of letters. *)
Definition digit_value (x : Z) : Z := if x <=? 57 then x - 48 else if x <=? 70 then x - 55 else x - 87.

(** The value of a numeral, least significant digit first, and of a text that
    may start with a minus sign. *)
Fixpoint le_value (r : Z) (l : list Z) : Z :=
  match l with [] => 0 | x :: l => digit_value x + r * le_value r l end.
Definition read_int (r : Z) (t : list Z) : Z :=
  match t with
  | x :: t' => if x =? 45 then - le_value r (rev t') else le_value r (rev t)
  | [] => 0
  end.

Definition digit_char (c d : Z) : Z := (if d >? 9 then d + (if c =? 120 then 0x27 else 0x07) else d) + 48.

Lemma digit_char_value c d : 0 <= d < 16 -> digit_value (digit_char c d) = d /\ 48 <= digit_char c d.
Proof.
  intros Hd. unfold digit_value, digit_char. destruct (Z.gtb_spec d 9).
  - destruct (c =? 120); destruct (Z.leb_spec (d + 0x27 + 48) 57), (Z.leb_spec (d + 0x27 + 48) 70),
      (Z.leb_spec (d + 0x07 + 48) 57), (Z.leb_spec (d + 0x07 + 48) 70); lia.
  - rewrite (proj2 (Z.leb_le _ 57)) by lia. lia.
Qed.

Lemma digits_value k v r c :
  2 <= r <= 16 -> 0 <= v < r ^ Z.of_nat k -> (0 < k)%nat ->
  le_value r (digits k v r c) = v /\ Forall (fun x => 48 <= x) (digits k v r c) /\ digits k v r c <> [].
Proof.
  intros Hr. revert v. induction k as [|k IH]; intros v Hv Hk; [lia|]. cbn [digits].
  pose proof (Z.mod_pos_bound v r ltac:(lia)) as Bm. pose proof (Z.div_mod v r ltac:(lia)) as Ed.
  destruct (digit_char_value c (v mod r) ltac:(lia)) as [D1 D2]. fold (digit_char c (v mod r)).
  destruct (Z.eqb_spec (v / r) 0) as [E|E].
  - cbn [le_value]. split; [rewrite D1; lia|]. split; [by constructor|done].
  - assert (0 < v / r) by (pose proof (Z.div_pos v r); lia).
    assert (0 < k)%nat as Hk'.
    { destruct k; [|lia]. rewrite Z.pow_1_r in Hv. rewrite Z.div_small in E by lia. done. }
    destruct (IH (v / r)) as (V1 & V2 & _); [|done|].
    { split; [lia|]. apply Z.div_lt_upper_bound; [lia|]. rewrite Nat2Z.inj_succ, Z.pow_succ_r in Hv by lia. lia. }
    cbn [le_value]. split; [rewrite D1, V1; lia|]. split; [by constructor|done].
Qed.

Lemma read_int_digits r l : Forall (fun x => 48 <= x) l -> read_int r (rev l) = le_value r l.
Proof.
  intros Hl. unfold read_int. assert (Forall (fun x => 48 <= x) (rev l)) as Hr by (by apply Forall_rev).
  destruct (rev l) as [|x t] eqn:E.
  - apply (f_equal (@rev Z)) in E. rewrite rev_involutive in E. by rewrite E.
  - inversion Hr; subst. rewrite (proj2 (Z.eqb_neq x 45)) by lia. by rewrite <- E, rev_involutive.
Qed.

Lemma read_int_neg r l : read_int r (rev (l ++ [45])) = - le_value r l.
Proof. rewrite rev_app_distr. cbn. by rewrite rev_involutive. Qed.

(** The integer conversions: type character, radix and whether it is signed. *)
Definition int_types : list (Z * Z * bool) :=
  [(100, 10, true); (68, 10, true); (117, 10, false); (85, 10, false); (111, 8, false); (79, 8, false);
   (120, 16, false); (88, 16, false)].

Lemma sign_bit v : 0 <= v < 2 ^ 32 -> has v 0x80000000 = (2 ^ 31 <=? v).
Proof.
  intros Hv. unfold has. change 0x80000000 with (1 * 2 ^ 31). rewrite land_high by lia.
  rewrite land_1_odd. destruct (Z.leb_spec (2 ^ 31) v).
  - replace (v / 2 ^ 31) with 1; [done|]. apply (Z.div_unique _ _ _ (v - 2 ^ 31)); lia.
  - rewrite Z.div_small by lia. done.
Qed.

Lemma pow_32_le r : 8 <= r <= 16 -> 2 ^ 32 <= r ^ Z.of_nat 16.
Proof. intros Hr. transitivity (8 ^ 16); [done|]. apply Z.pow_le_mono_l. lia. Qed.

(** A number without width and flags. *)
Lemma format_number_value r c d n :
  8 <= r <= 16 -> (d = 68 -> -2 ^ 31 <= n < 2 ^ 31) ->
  read_int r (format_number 0 0 r c d (u32 n)) = if d =? 68 then n else u32 n.
Proof.
  intros Hr Hn. pose proof (u32_range n) as Hu. unfold is_u32 in Hu. pose proof (pow_32_le r Hr) as Hp. unfold format_number.
  change (has 0 2) with false. cbv iota. rewrite sign_bit by lia.
  assert (forall l : list Z, replicate (Z.to_nat (0 - zlen l)) (if has 0 1 then 48 else 32) = []) as Hg
    by (intros l; replace (Z.to_nat (0 - zlen l)) with 0%nat by (unfold zlen; lia); done).
  rewrite Hg. cbn [app]. destruct (Z.eqb_spec d 68) as [Ed|Ed]; cbn [andb].
  - specialize (Hn Ed). destruct (Z.leb_spec (2 ^ 31) (u32 n)) as [Hs|Hs].
    + assert (u32 n = n + 2 ^ 32) as En by (unfold u32 in *; destruct (Z.leb_spec 0 n); [rewrite Z.mod_small in Hs; lia|];
        rewrite <- (Z.mod_add n 1) by lia; rewrite Z.mod_small; lia).
      assert (u32 (0 - u32 n) = - n) as -> by (rewrite En; unfold u32; rewrite <- (Z.mod_add _ 1) by lia; rewrite Z.mod_small; lia).
      destruct (digits_value 16 (- n) r c ltac:(lia) ltac:(lia) ltac:(lia)) as (V1 & _). rewrite read_int_neg, V1. lia.
    + assert (u32 n = n) as -> by (unfold u32 in *; destruct (Z.leb_spec 0 n); [rewrite Z.mod_small; lia|];
        rewrite <- (Z.mod_add n 1) in Hs by lia; rewrite Z.mod_small in Hs; lia).
      destruct (digits_value 16 n r c ltac:(lia)) as (V1 & V2 & _); [|lia|].
      { unfold u32 in Hs. destruct (Z.leb_spec 0 n); [lia|]. rewrite <- (Z.mod_add n 1) in Hs by lia. rewrite Z.mod_small in Hs; lia. }
      by rewrite app_nil_r, read_int_digits.
  - destruct (digits_value 16 (u32 n) r c ltac:(lia) ltac:(lia) ltac:(lia)) as (V1 & V2 & _).
    by rewrite app_nil_r, read_int_digits.
Qed.

(** The text of an integer conversion reads back as the argument: for the
    types d, u, o and x in either case the format of one conversion produces a
    numeral of that radix whose value is the argument, with its sign for d and
    modulo 2^32 otherwise. *)
Theorem printf_integer_roundtrip c r sg n :
  In (c, r, sg) int_types -> (if sg then -2 ^ 31 <= n < 2 ^ 31 else True) ->
  exists t, format_text 3 [37; c] [AInt n] = Some t /\ read_int r t = if sg then n else u32 n.
Proof.
  intros Hin Hn. exists (format_number 0 0 r c (if IsLower c then c - 0x20 else c) (u32 n) ++ []).
  assert (format_text 3 [37; c] [AInt n] = Some (format_number 0 0 r c (if IsLower c then c - 0x20 else c) (u32 n) ++ [])
          /\ 8 <= r <= 16 /\ ((if IsLower c then c - 0x20 else c) =? 68) = sg) as (E & Hr & Es).
  { unfold int_types in Hin. cbn [In] in Hin.
    repeat (destruct Hin as [[= <- <- <-]|Hin]; [split; [reflexivity|]; split; [lia|reflexivity]|]). done. }
  split; [done|]. rewrite app_nil_r, format_number_value; [by rewrite Es|done|].
  intros Ed. rewrite Ed in Es. cbn in Es. by subst sg.
Qed.

Lemma printf_integer_roundtrip_witness :
  exists t, format_text 3 [37; 100] [AInt (-1234)] = Some t /\ read_int 10 t = -1234.
Proof. apply (printf_integer_roundtrip 100 10 true (-1234)); [cbn; auto|lia]. Defined.

(** ["%d %s\n"] of -42 and ["ok"]. *)
Example printf_text :
  format_text 8 [37; 100; 32; 37; 115; 10] [AInt (-42); AStr [111; 107]] = Some [45; 52; 50; 32; 111; 107; 10].
Proof. reflexivity. Qed.

(** ** Lines *)

(** The first line of a text, with its newline. *)
Fixpoint line (l : list Z) : list Z :=
  match l with
  | [] => []
  | c :: l => if c =? 10 then [c] else c :: line l
  end.

Lemma line_app l1 l2 : 10 ∉ l1 -> line (l1 ++ l2) = l1 ++ line l2.
Proof.
  induction l1 as [|c l1 IH]; intros Hn; [done|]. apply not_elem_of_cons in Hn as [Hc Hn]. cbn.
  rewrite (proj2 (Z.eqb_neq c 10)) by done. by rewrite IH.
Qed.

Section Lines.
Context {D : Type} `{L : DiskLaws D}.
Implicit Types (v : vol D) (cl : list Z).

(** [k] characters of the line are stored. *)
Record getting (s0 : ff D) (fp0 : FIL) (f0 : FATFS) cl (m : Z) (st : FIL * list Z) (s : ff D) : Prop := {
  gt_count : 0 <= zlen (snd st) <= m;
  gt_out : snd st = file_data (Build_vol f0 (dev s0)) cl (fptr fp0) (zlen (snd st));
  gt_line : 10 ∉ snd st;
  gt_ptr : fptr (fst st) = fptr fp0 + zlen (snd st);
  gt_same : same_file fp0 (fst st);
  gt_state : exists f, opened s (fst st) f cl /\ same_view (Build_vol f0 (dev s0)) (Build_vol f (dev s))
}.

(** The result of [f_gets]. *)
Definition got (s0 : ff D) (fp0 : FIL) (f0 : FATFS) cl (m : Z) (r : FIL * list Z) (s : ff D) : Prop :=
  let out := line (file_data (Build_vol f0 (dev s0)) cl (fptr fp0) m) in
  snd r = out /\ fptr (fst r) = fptr fp0 + zlen out /\ same_file fp0 (fst r) /\
  exists f, opened s (fst r) f cl /\ same_view (Build_vol f0 (dev s0)) (Build_vol f (dev s)).

(** All [m] characters are stored and none is a newline. *)
Lemma getting_end s0 fp0 f0 cl m st s :
  getting s0 fp0 f0 cl m st s -> zlen (snd st) = m -> got s0 fp0 f0 cl m st s.
Proof.
  intros [G1 G2 G3 G4 G5 G6] E. unfold got. rewrite <- E, <- G2. rewrite <- (app_nil_r (snd st)), line_app by done.
  cbn [line]. by rewrite !app_nil_r.
Qed.

Lemma wp_gets_round s0 fp0 f0 cl len st s :
  opened s0 fp0 f0 cl -> (forall d, online d (drv f0)) -> err fp0 = FR_OK -> has (flag fp0) FA_READ = true ->
  let m := Z.max 0 (Z.min (len - 1) (f_fsize fp0 - fptr fp0)) in
  getting s0 fp0 f0 cl m st s ->
  wp (gets_body len st)
    (fun r s' => match r with
                 | inl st' => getting s0 fp0 f0 cl m st' s' /\ zlen (snd st') = zlen (snd st) + 1
                 | inr r => got s0 fp0 f0 cl m r s'
                 end) s.
Proof.
  intros O On Ee Hr m GT. destruct st as [fp out]. pose proof GT as [G1 G2 G3 G4 G5 (f & Of & V)]. cbn [fst snd] in *.
  pose proof (fo_ptr _ _ _ (op_file _ _ _ _ O)) as Hp. pose proof (fo_size _ _ _ (op_file _ _ _ _ O)) as [Hsz _].
  unfold gets_body. destruct (Z.ltb_spec (zlen out) (len - 1)) as [Hlt|Hge].
  2: { apply wp_ret. apply getting_end; [done|]. cbn. unfold m in *. lia. }
  destruct G5 as (Ez & Es & Ef & Eerr & Eobj). assert (drv f = drv f0) as Ed by (destruct V as [G _]; cbn in G; unfold geo in G; congruence).
  wp_step. apply (wp_f_read s fp f cl 1); [done|by rewrite Ed|by rewrite Eerr|by rewrite Ef|lia|].
  intros fp' s' f' O' V' SF' Ep _. set (n := Z.min 1 (f_fsize fp - fptr fp)) in *.
  assert (n = 0 \/ n = 1) as Hn by (unfold n; lia).
  assert (same_file fp0 fp') as SF0 by (transitivity fp; [done|exact SF']).
  assert (same_view (Build_vol f0 (dev s0)) (Build_vol f' (dev s'))) as V0' by (by etransitivity).
  rewrite (file_data_view (Build_vol f0 (dev s0)) _ fp0) by (done || apply O || lia).
  unfold zlen at 1. rewrite file_data_length. destruct Hn as [En|En]; rewrite En in *; cbn [Z.to_nat].
  { apply wp_ret. apply getting_end; [|cbn; unfold m in *; lia]. constructor; cbn [fst snd]; try done; [lia|by exists f']. }
  change (Z.of_nat (Pos.to_nat 1)) with 1. cbn [Z.eqb Pos.eqb negb].
  set (c := getb (file_data (Build_vol f0 (dev s0)) cl (fptr fp) 1) 0).
  assert (file_data (Build_vol f0 (dev s0)) cl (fptr fp) 1 = [c]) as Ec by done.
  assert (out ++ [c] = file_data (Build_vol f0 (dev s0)) cl (fptr fp0) (zlen out + 1)) as Eo.
  { rewrite <- file_data_app, <- G2, <- G4, Ec by lia. done. }
  assert (zlen (out ++ [c]) = zlen out + 1) as El by (rewrite zlen_app; done).
  destruct (Z.eqb_spec c 10) as [E10|E10]; apply wp_ret.
  - unfold got. cbn [fst snd]. assert (zlen out + 1 <= m) as Hm by (unfold m; lia).
    replace m with (zlen out + 1 + (m - (zlen out + 1))) by lia. rewrite <- file_data_app, <- Eo, <- app_assoc by lia.
    rewrite line_app by done. cbn [app line]. rewrite E10. cbn [Z.eqb Pos.eqb]. rewrite E10 in El.
    split; [done|]. split; [rewrite El; lia|]. split; [done|by exists f'].
  - split; [|exact El]. constructor; cbn [fst snd]; rewrite ?El; try done; [unfold m in *; lia| |lia|by exists f'].
    intros Hin. apply elem_of_app in Hin as [?|Hin]; [done|]. apply list_elem_of_singleton in Hin. congruence.
Qed.

(** [f_gets] returns the next line of the file: the bytes from the pointer
    up to and including the first newline, at most [len - 1] of them and none
    behind the end of the file, or a null pointer when there is none; the
    pointer moves behind them. *)
Theorem f_gets_correct s fp f cl len :
  opened s fp f cl -> (forall d, online d (drv f)) -> err fp = FR_OK -> has (flag fp) FA_READ = true ->
  let m := Z.max 0 (Z.min (len - 1) (f_fsize fp - fptr fp)) in
  let out := line (file_data (Build_vol f (dev s)) cl (fptr fp) m) in
  wp (f_gets len fp)
    (fun '(fp', r) s' => r = (if zlen out =? 0 then None else Some out) /\ fptr fp' = fptr fp + zlen out /\
       exists f', opened s' fp' f' cl /\ same_view (Build_vol f (dev s)) (Build_vol f' (dev s'))) s.
Proof.
  intros O On Ee Hr m out. unfold f_gets. wp_step. eapply wp_mono.
  { apply (wp_loop (getting s fp f cl m) (fun st _ => Z.to_nat (len - zlen (snd st))) (gets_body len) (got s fp f cl m)).
    - intros st s1 GT. eapply wp_mono; [by apply (wp_gets_round s fp f cl)|].
      intros [st'|r] s' Hst; [|done]. destruct Hst as [Hst E]. split; [done|]. destruct Hst as [C1 _ _ _ _ _].
      pose proof (zlen_nonneg (snd st)). unfold m in *. lia.
    - constructor; cbn; try done; [unfold m, zlen; cbn; lia|apply not_elem_of_nil|unfold zlen; cbn; lia|by exists f].
    - cbn. unfold zlen. cbn. lia. }
  intros [fp' r] s' (E1 & E2 & _ & E3). apply wp_ret. cbn in E1, E2. fold out in E1, E2. subst r. done.
Qed.
End Lines.

(** ** Text in a small file *)

Lemma f_puts_correct_witness :
  wp (f_puts (seqZ 1 200 ++ replicate 300 7) text_end)
     (put_done text_ff text_end demo_fs [2; 3] (seqZ 1 200 ++ replicate 300 7)) text_ff.
Proof.
  apply (f_puts_correct text_ff text_end demo_fs [2; 3]);
    [exact text_writable|intros; apply ram_online|reflexivity|reflexivity].
Defined.

Lemma text_writable_short t : Forall is_byte t -> zlen t < 1000 -> writable text_ff text_end demo_fs [2; 3] t.
Proof.
  intros Hb Hl. destruct text_writable as [W1 W2 W3 W4 [A1 A2 A3 A4 A5 A6]]. constructor; try done. constructor; try done.
  change (600 + zlen t < 2 ^ 32). lia.
Qed.

Lemma f_printf_correct_witness :
  wp (f_printf text_end [37; 100; 10] [AInt (-42)]) (put_done text_ff text_end demo_fs [2; 3] [45; 52; 50; 10]) text_ff.
Proof.
  apply (f_printf_correct text_ff text_end demo_fs [2; 3] [37; 100; 10] [AInt (-42)] [45; 52; 50; 10]);
    [reflexivity| |intros; apply ram_online|reflexivity|reflexivity].
  apply text_writable_short; [repeat constructor; done|done].
Defined.

(** The byte 10 is the tenth of the file; the line from offset 10 on goes to
    the next one. *)
Lemma f_gets_correct_witness :
  let out := line (file_data text_vol [2; 3] 10 (Z.max 0 (Z.min (300 - 1) (600 - 10)))) in
  wp (f_gets 300 (text_file FA_READ))
    (fun '(fp', r) s' => r = (if zlen out =? 0 then None else Some out) /\ fptr fp' = 10 + zlen out /\
       exists f', opened s' fp' f' [2; 3] /\ same_view text_vol (Build_vol f' (dev s'))) text_ff.
Proof.
  apply (f_gets_correct text_ff (text_file FA_READ) demo_fs [2; 3] 300);
    [apply text_opened|intros; apply ram_online|reflexivity|reflexivity].
Defined.

Example text_line : line (file_data text_vol [2; 3] 10 299) = seqZ 11 240 ++ seqZ 0 11.
Proof. vm_compute. reflexivity. Qed.
