(* ===== verification/FatSession.v ===== *)
(** * FatFs: sessions on an open file

    Theory of [f_lseek] in a file opened for writing, where the chain grows
    when the target lies behind it ([ff.c] lines 3058-3133), and the refinement
    of an abstract file, an array of bytes with a position, by any sequence of
    [f_read], [f_write] and [f_lseek] calls. *)

From S2P Require Import Prelude FatBase FatAccess FatName FatDir FatVolume FatFile FatWrite.

Section Theory.
Context {D : Type} `{L : DiskLaws D}.
Implicit Types (v : vol D) (f : FATFS) (cl : list Z).

(** No cluster of the volume is free. *)
Definition no_free v : Prop := forall c, valid_clust (fs v) c -> fat_entry v c <> 0.

Lemma no_free_view v v' : vol_ok v -> same_view v v' -> no_free v -> no_free v'.
Proof.
  intros VK V Hno c Hc. assert (valid_clust (fs v) c) as Hc' by (unfold valid_clust in *; by rewrite <- (proj1 (view_fields v v' V))).
  rewrite (fat_entry_view v v'); [by apply Hno|apply VK|apply VK|done|done].
Qed.

(** ** Seeking with write access *)

(** The seek stands at cluster [k] of the chain with [ofs] bytes to go; the
    chain may have grown. *)
Record growing v0 (fp0 : FIL) cl0 (target : Z) (st : FIL * Z * Z) v cl (k : Z) : Prop := {
  gr_vol : vol_ok v;
  gr_written : written v0 cl0 (f_fsize fp0) 0 [] v cl;
  gr_chain : chain v (f_sclust (fst (fst st))) cl;
  gr_index : 0 <= k < zlen cl;
  gr_clust : f_clust (fst (fst st)) = nth (Z.to_nat k) cl 0;
  gr_ptr : fptr (fst (fst st)) = k * (csize (fs v0) * 512);
  gr_left : k * (csize (fs v0) * 512) + snd st <= target /\ 0 < snd st;
  gr_fits : f_fsize fp0 <= chain_sectors (fs v0) cl * SS;
  gr_same : same_handle fp0 (fst (fst st))
}.

(** Before the target is reached, the cluster variable follows the object. *)
Definition on_course v0 fp0 cl0 target st v : Prop :=
  exists cl k, growing v0 fp0 cl0 target st v cl k /\
    snd (fst st) = nth (Z.to_nat k) cl 0 /\ k * (csize (fs v0) * 512) + snd st = target.

(** The loop has ended in the target's cluster, or behind the last cluster of
    a full volume. *)
Definition arrived v0 fp0 cl0 target st v : Prop :=
  exists cl k, growing v0 fp0 cl0 target st v cl k /\ snd st <= csize (fs v0) * 512 /\
    (snd st mod SS <> 0 -> snd (fst st) = nth (Z.to_nat k) cl 0) /\
    (k * (csize (fs v0) * 512) + snd st = target \/
     (k * (csize (fs v0) * 512) + snd st = zlen cl * (csize (fs v0) * 512) /\ no_free v)).

Lemma same_handle_trans fp fp' fp'' : same_handle fp fp' -> same_handle fp' fp'' -> same_handle fp fp''.
Proof. intros (?&?&?&?&?&?&?) (?&?&?&?&?&?&?). repeat split; congruence. Qed.

Lemma written_grow v0 cl0 size v1 cl1 v2 cl2 :
  vol_geo (fs v0) -> 0 <= size <= chain_sectors (fs v1) cl1 * SS ->
  written v0 cl0 size 0 [] v1 cl1 -> written v1 cl1 (chain_sectors (fs v1) cl1 * SS) 0 [] v2 cl2 ->
  written v0 cl0 size 0 [] v2 cl2.
Proof.
  intros VG Hs W1 W2. change (@nil Z) with (@nil Z ++ []).
  apply (written_trans v0 cl0 size 0 [] v1 cl1 (chain_sectors (fs v1) cl1 * SS)); try done.
  change (zlen (@nil Z)) with 0. lia.
Qed.

Lemma growing_view v0 fp0 cl0 target fp c ofs c' ofs' v cl k v' :
  vol_geo (fs v0) -> 0 <= f_fsize fp0 -> growing v0 fp0 cl0 target (fp, c, ofs) v cl k -> vol_ok v' -> same_view v v' ->
  k * (csize (fs v0) * 512) + ofs' <= target -> 0 < ofs' ->
  growing v0 fp0 cl0 target (fp, c', ofs') v' cl k.
Proof.
  intros VG Hz [G1 G2 G3 G4 G5 G6 G7 G8 G9] VK V Hle Hpos. cbn [fst snd] in *.
  pose proof (wn_geo _ _ _ _ _ _ _ G2) as G. pose proof (chain_clusters _ _ _ G3) as CO.
  assert (0 <= chain_sectors (fs v) cl) by (rewrite (chain_sectors_geo _ _ _ G); unfold chain_sectors; pose proof (csize_pos _ VG); nia).
  constructor; try done.
  - apply (written_grow v0 cl0 _ v cl); [done|rewrite (chain_sectors_geo _ _ _ G); lia|done|].
    apply written_view; try done. unfold SS; lia.
  - by eapply chain_view; [apply G1|apply G1|..].
Qed.

Lemma wp_grow_round v0 fp0 cl0 target st v :
  vol_geo (fs v0) -> 0 <= f_fsize fp0 -> target < 2 ^ 32 -> has (flag fp0) FA_WRITE = true ->
  on_course v0 fp0 cl0 target st v ->
  wp (seek_body (csize (fs v0) * 512) st)
    (fun r v' => match r with
                 | inl st' => on_course v0 fp0 cl0 target st' v' /\ snd st' <= snd st - 512
                 | inr (inl _) => False
                 | inr (inr st') => arrived v0 fp0 cl0 target st' v'
                 end) v.
Proof.
  intros VG Hz Ht Hw (cl & k & GR & Ec & El). destruct st as [[fp c] ofs]. pose proof GR as [G1 G2 G3 G4 G5 G6 G7 G8 G9].
  cbn [fst snd] in *. pose proof (csize_pos _ VG) as Hcs. pose proof G9 as (_ & E2 & _).
  pose proof (wn_geo _ _ _ _ _ _ _ G2) as G. destruct (geo_fields _ _ G) as (_ & C2 & _ & C4 & _).
  unfold seek_body. destruct (Z.gtb_spec ofs (csize (fs v0) * 512)) as [Hgt|Hle].
  2: { apply wp_ret. exists cl, k. cbn [fst snd]. auto. }
  rewrite E2, Hw. cbv iota. wp_step. set (fp' := set_fptr ((k + 1) * (csize (fs v0) * 512)) fp).
  assert (cl <> []) as Hne by (intros ->; unfold zlen in G4; cbn in G4; lia).
  assert (wfile v fp' cl) as FO.
  { constructor; cbn; [by right| |]; rewrite (chain_sectors_geo _ _ _ G).
    - destruct G9 as (-> & _). done.
    - unfold chain_sectors, SS. nia. }
  assert (fptr fp' mod (csize (fs v) * 512) = 0) as Hm by (cbn; rewrite C2; apply Z.mod_mul; lia).
  assert ((fptr fp' - 1) / (csize (fs v) * 512) = k) as Ek.
  { cbn. rewrite C2. symmetry. apply (Z.div_unique _ _ _ (csize (fs v0) * 512 - 1)); lia. }
  rewrite Ec, <- G5. change (f_clust fp) with (f_clust fp').
  eapply wp_mono; [apply (wp_write_next v fp' cl); try done|].
  { split; [|intros Hx; exfalso; apply Hx]. 
    - intros _. change SS with 512. rewrite Ek. cbn. done.
    - cbn. unfold SS. rewrite (Z.mul_comm (csize (fs v0))), Z.mul_assoc, (Z.mul_comm _ 512), <- Z.mul_assoc, (Z.mul_comm 512).
      apply Z.mod_mul. lia. }
  { cbn. nia. }
  intros r v' [(-> & VK' & V' & Ep & Hno)|(Hr & cl' & MV)].
  - cbn [andb Z.eqb]. apply wp_ret. exists cl, k. cbn [fst snd].
    split; [apply (growing_view _ _ _ _ fp c ofs _ _ v); try done; lia|]. split; [lia|]. split.
    + intros Hx. exfalso. apply Hx. apply Z.mod_mul. done.
    + right. cbn in Ep. rewrite C2 in Ep. split; [lia|]. by apply (no_free_view v).
  - destruct MV as [M1 M2 M3 M4 (sc & M5)]. cbn [fptr] in M4, M5. 
    assert (r = nth (Z.to_nat (k + 1)) cl' 0) as Er.
    { apply (f_equal f_clust) in M5. cbn in M5. by rewrite C2, Z.div_mul in M5 by lia. }
    rewrite (proj2 (Z.eqb_neq r 0)), (proj2 (Z.eqb_neq r 0xFFFFFFFF)) by lia. cbn [andb]. wp_step. apply wp_getfs.
    destruct (chain_head _ _ _ G3 Hne) as [[S1 _] _].
    assert (f_sclust (with_clust fp' (if f_sclust fp' =? 0 then r else f_sclust fp') r) = f_sclust fp) as Es
      by (cbn; by rewrite (proj2 (Z.eqb_neq (f_sclust fp) 0)) by lia).
    pose proof (wn_geo _ _ _ _ _ _ _ M2) as G'. assert (geo (fs v') = geo (fs v0)) as G0 by congruence.
    destruct (geo_fields _ _ G0) as (_ & _ & _ & D4 & _).
    assert (k + 1 < zlen cl') as Hk'.
    { cbn in M4. unfold chain_sectors, SS in M4. rewrite C2 in M4. nia. }
    destruct M3 as [[[-> _]|[Hne' Hch']] M3 _]; [unfold zlen in Hk'; cbn in Hk'; lia|]. rewrite Es in Hch'.
    assert (valid_clust (fs v') r) as [R1 R2].
    { rewrite Er. unfold zlen in Hk'. apply (chain_nth v' _ cl' _ Hch'). lia. }
    rewrite (proj2 (Z.leb_gt _ 1)) by lia. cbn [orb]. destruct (Z.geb_spec r (n_fatent (fs v'))); [lia|]. apply wp_ret.
    split; [|cbn; lia]. exists cl', (k + 1). cbn [fst snd]. split; [|split; [done|lia]].
    constructor; cbn [fst snd]; try done; [| | |lia|].
    + apply (written_grow v0 cl0 _ v cl); try done. rewrite (chain_sectors_geo _ _ _ G). done.
    + lia.
    + cbn. rewrite G6, u32_small by (unfold is_u32; nia). lia.
    + cbn in M3. rewrite (chain_sectors_geo _ _ _ G0) in M3. destruct G9 as (<- & _). lia.

Qed.

(** The last lines of the function: the sector of the pointer and the size. *)
Lemma seek_end_grow fp nsect :
  exists fp', seek_end fp nsect = (FR_OK, fp') /\ fptr fp' = fptr fp /\ f_clust fp' = f_clust fp /\
    f_sclust fp' = f_sclust fp /\ f_fsize fp' = Z.max (f_fsize fp) (fptr fp) /\
    flag fp' = (if fptr fp >? f_fsize fp then Z.lor (flag fp) FA__WRITTEN else flag fp) /\ err fp' = err fp /\
    f_fs fp' = f_fs fp /\ f_id fp' = f_id fp /\ dir_sect fp' = dir_sect fp /\ dir_ptr fp' = dir_ptr fp /\
    (fptr fp mod SS <> 0 -> dsect fp' = nsect).
Proof.
  unfold seek_end. eexists. split; [done|].
  destruct (nz (fptr fp mod SS) && negb (nsect =? dsect fp)) eqn:Eb; cbn [fptr f_fsize set_dsect];
    destruct (Z.gtb_spec (fptr fp) (f_fsize fp)); cbn; repeat split; try lia;
    intros Hm; rewrite (proj2 (nz_true _) Hm) in Eb; cbn in Eb; destruct (Z.eqb_spec nsect (dsect fp)); done.
Qed.

(** What a seek with write access has done. *)
Definition sought v0 (fp0 : FIL) cl0 (ofs : Z) (r : FRESULT * FIL) v : Prop :=
  let '(res, fp) := r in
  res = FR_OK /\ vol_ok v /\ 0 <= fptr fp <= ofs /\ (fptr fp < ofs -> f_fsize fp0 <= fptr fp /\ no_free v) /\
  f_fsize fp = Z.max (f_fsize fp0) (fptr fp) /\ has (flag fp) FA_READ = has (flag fp0) FA_READ /\
  has (flag fp) FA_WRITE = has (flag fp0) FA_WRITE /\
  err fp = err fp0 /\ f_fs fp = f_fs fp0 /\ f_id fp = f_id fp0 /\ dir_sect fp = dir_sect fp0 /\ dir_ptr fp = dir_ptr fp0 /\
  exists cl, wfile v fp cl /\ at_ptr (fs v) fp cl /\ written v0 cl0 (f_fsize fp0) 0 [] v cl.

Lemma has_written (b : bool) x m : Z.land FA__WRITTEN m = 0 -> has (if b then Z.lor x FA__WRITTEN else x) m = has x m.
Proof. intros E. destruct b; [by apply has_lor_written|done]. Qed.

(** The object at a position [p] of the chain. *)
Lemma sought_at v0 fp0 cl0 ofs v cl k p fp nsect :
  vol_geo (fs v0) -> 0 <= f_fsize fp0 <= chain_sectors (fs v0) cl * SS -> vol_ok v ->
  written v0 cl0 (f_fsize fp0) 0 [] v cl -> chain v (f_sclust fp) cl ->
  0 <= k < zlen cl -> k * (csize (fs v0) * 512) < p <= (k + 1) * (csize (fs v0) * 512) ->
  f_clust fp = nth (Z.to_nat k) cl 0 -> fptr fp = p -> same_handle fp0 fp ->
  (p mod SS <> 0 -> nsect = file_sector (fs v0) cl (p / SS)) -> p <= ofs ->
  (p < ofs -> p = zlen cl * (csize (fs v0) * 512) /\ no_free v) ->
  sought v0 fp0 cl0 ofs (seek_end fp nsect) v.
Proof.
  intros VG Hz VK WR Hch Hk Hp Ec Ep (E1 & E2 & E3 & E4 & E5 & E6 & E7) Hns Hle Hshort.
  destruct (seek_end_grow fp nsect) as (fp' & -> & F1 & F2 & F3 & F4 & F5 & F6 & F7 & F8 & F9 & F10 & F11).
  pose proof (csize_pos _ VG) as Hcs. pose proof (wn_geo _ _ _ _ _ _ _ WR) as G.
  destruct (geo_fields _ _ G) as (_ & C2 & _ & C4 & _). unfold chain_sectors, SS in Hz. rewrite E1, Ep in F4.
  rewrite Ep in *. unfold sought. rewrite F1, F4, F5, F6, F7, F8, F9, F10, !has_written, E2 by done.
  split; [done|]. split; [done|]. split; [nia|]. split.
  { intros Hlt. destruct (Hshort Hlt) as [-> ?]. split; [nia|done]. }
  do 8 (split; [done|]). exists cl. split; [|split; [|done]].
  - constructor; rewrite ?F1, ?F3, ?F4, ?(chain_sectors_geo _ _ _ G).
    + right. split; [|done]. intros ->. unfold zlen in Hk. cbn in Hk. lia.
    + unfold chain_sectors, SS. nia.
    + unfold chain_sectors, SS. nia.
  - split; rewrite F1.
    + intros _. rewrite F2, Ec, C2. change SS with 512. do 2 f_equal.
      apply (Z.div_unique _ _ _ (p - 1 - k * (csize (fs v0) * 512))); lia.
    + intros Hm. rewrite F11, (geo_file_sector _ _ _ _ G) by done. by apply Hns.
Qed.

Lemma wp_grow_loop v0 fp0 cl0 target fp c ofs v :
  vol_geo (fs v0) -> 0 <= f_fsize fp0 -> target < 2 ^ 32 -> has (flag fp0) FA_WRITE = true ->
  on_course v0 fp0 cl0 target (fp, c, ofs) v ->
  wp (loop (S (Z.to_nat (ofs / SS))) (seek_body (csize (fs v0) * 512)) (fp, c, ofs))
    (fun r v' => match r with inl _ => False | inr st => arrived v0 fp0 cl0 target st v' end) v.
Proof.
  intros VG Hz Ht Hw OC.
  apply (wp_loop (on_course v0 fp0 cl0 target) (fun st _ => Z.to_nat (snd st / SS))); [|done|cbn; lia].
  intros st v1 OC1. eapply wp_mono; [by apply (wp_grow_round v0 fp0 cl0 target)|].
  intros [st'|[?|st']] v' Hr; [|done|done]. destruct Hr as [Hr Hlt]. split; [done|].
  destruct Hr as (cl & k & GR & _). destruct (gr_left _ _ _ _ _ _ _ _ GR). unfold SS. Z.div_mod_to_equations. lia.
Qed.

(** The pointer's sector from the cluster the loop ended in. *)
Lemma arrived_sector v0 v cl (k ofs : Z) :
  vol_ok v -> vol_geo (fs v0) -> geo (fs v) = geo (fs v0) -> clusters_ok (fs v) cl ->
  0 <= k < zlen cl -> 0 < ofs <= csize (fs v0) * 512 -> ofs mod SS <> 0 ->
  clust2sect (fs v) (nth (Z.to_nat k) cl 0) <> 0 /\
  u32 (clust2sect (fs v) (nth (Z.to_nat k) cl 0) + ofs / SS) =
    file_sector (fs v0) cl ((k * (csize (fs v0) * 512) + ofs) / SS).
Proof.
  intros VK VG G CO Hk Hofs Hm. pose proof (csize_pos _ VG) as Hcs. destruct (geo_fields _ _ G) as (_ & C2 & _ & C4 & _ & _ & _ & C8).
  assert (valid_clust (fs v) (nth (Z.to_nat k) cl 0)) as Hv.
  { destruct CO as [CO _]. rewrite Forall_forall in CO. apply CO, list_elem_of_In, nth_In. unfold zlen in Hk. lia. }
  destruct (clust2sect_spec (fs v) _ (vk_geo v VK) Hv) as [Ecs Hpos]. split; [lia|].
  assert (ofs < csize (fs v0) * 512) as Hlt.
  { destruct (Z.eq_dec ofs (csize (fs v0) * 512)) as [E|]; [|lia]. rewrite E in Hm. unfold SS in Hm. by rewrite Z.mod_mul in Hm. }
  assert (0 <= ofs / SS < csize (fs v0)) as Hos.
  { unfold SS in *. split; [apply Z.div_pos; lia|apply Z.div_lt_upper_bound; lia]. }
  set (q := (k * (csize (fs v0) * 512) + ofs) / SS).
  assert (q = k * csize (fs v0) + ofs / SS) as Eq.
  { unfold q, SS. replace (k * (csize (fs v0) * 512) + ofs) with (ofs + k * csize (fs v0) * 512) by lia. rewrite Z.div_add by lia. lia. }
  assert (q / csize (fs v0) = k /\ q mod csize (fs v0) = ofs / SS) as [Q1 Q2].
  { rewrite Eq. split; [symmetry; apply (Z.div_unique _ _ _ (ofs / SS)); lia|symmetry; apply (Z.mod_unique _ _ k); lia]. }
  assert (0 <= q < chain_sectors (fs v) cl) as Hq by (unfold chain_sectors; rewrite C2, Eq; nia).
  destruct (data_off_fat v _ VK (file_sector_data _ _ _ (vk_geo v VK) (proj1 CO) Hq)) as (_ & _ & R3 & _).
  rewrite (geo_file_sector _ _ _ _ G) in R3. unfold file_sector in *. rewrite Q1, Q2 in *.
  rewrite Ecs, C2, C8. apply u32_small. unfold is_u32. lia.
Qed.

Lemma wp_grow_follow v0 fp0 cl0 target fp c ofs v :
  vol_geo (fs v0) -> 0 <= f_fsize fp0 -> target < 2 ^ 32 -> has (flag fp0) FA_WRITE = true ->
  on_course v0 fp0 cl0 target (fp, c, ofs) v ->
  wp (seek_follow fp c ofs (csize (fs v0) * 512)) (sought v0 fp0 cl0 target) v.
Proof.
  intros VG Hz Ht Hw OC. unfold seek_follow. assert (c <> 0) as Hc.
  { destruct OC as (cl & k & [_ _ G3 G4 _ _ _ _ _] & Ec & _). cbn [fst snd] in *. unfold zlen in G4.
    destruct (chain_nth v _ cl (Z.to_nat k) G3 ltac:(lia)). lia. }
  rewrite (proj2 (Z.eqb_neq c 0) Hc). cbn [negb]. wp_step.
  eapply wp_mono; [by apply (wp_grow_loop v0 fp0 cl0 target)|].
  intros [?|[[fp1 c1] ofs1]] v1 Hr; [done|]. destruct Hr as (cl & k & GR & Hle & Hcl & Hend). cbn [fst snd] in *.
  pose proof GR as [G1 G2 G3 G4 G5 G6 [G7 G7'] G8 G9]. cbn [fst snd] in *. pose proof (csize_pos _ VG) as Hcs.
  pose proof (wn_geo _ _ _ _ _ _ _ G2) as G. rewrite G6. rewrite u32_small by (unfold is_u32; nia).
  set (p := k * (csize (fs v0) * 512) + ofs1) in *.
  assert (forall nsect, (p mod SS <> 0 -> nsect = file_sector (fs v0) cl (p / SS)) ->
    sought v0 fp0 cl0 target (seek_end (set_fptr p fp1) nsect) v1) as Hfin.
  { intros nsect Hns. apply (sought_at v0 fp0 cl0 target v1 cl k p); try done; [unfold p; lia|].
    intros Hlt. destruct Hend as [?|?]; [lia|done]. }
  assert (p mod SS = ofs1 mod SS) as Em.
  { unfold p, SS. replace (k * (csize (fs v0) * 512) + ofs1) with (ofs1 + k * csize (fs v0) * 512) by lia. by rewrite Z.mod_add. }
  destruct (nz (ofs1 mod SS)) eqn:En.
  - apply nz_true in En. wp_step. apply wp_getfs. unfold id. rewrite (Hcl En).
    destruct (arrived_sector v0 v1 cl k ofs1) as [A1 A2]; try done; [by eapply chain_clusters|].
    rewrite (proj2 (Z.eqb_neq (clust2sect _ _) 0)) by done. apply wp_ret. apply Hfin. by intros _.
  - apply nz_false in En. apply wp_ret. apply Hfin. intros Hx. by rewrite Em in Hx.
Qed.

Lemma written_refl v cl size : vol_ok v -> clusters_ok (fs v) cl -> 0 <= size <= chain_sectors (fs v) cl * SS ->
  written v cl size 0 [] v cl.
Proof. intros VK CO Hs. apply written_view; try done; lia. Qed.

(** The start cluster, allocated when the file has none. *)
Lemma wp_first_clust v fp cl :
  vol_ok v -> wfile v fp cl ->
  wp (if f_sclust fp =? 0 then create_chain 0 else ret (f_sclust fp))
    (fun c v' => (c = 0 /\ cl = [] /\ f_sclust fp = 0 /\ vol_ok v' /\ same_view v v' /\ no_free v') \/
       (2 <= c < 2 ^ 28 /\ vol_ok v' /\ (f_sclust fp = 0 \/ f_sclust fp = c) /\ exists cl', cl' <> [] /\ chain v' c cl' /\
          nth 0 cl' 0 = c /\ f_fsize fp <= chain_sectors (fs v) cl' * SS /\ written v cl (f_fsize fp) 0 [] v' cl')) v.
Proof.
  intros VK [F1 F2 F3]. pose proof (fg_bound _ (vg_fat _ (vk_geo v VK))) as Hn. destruct F1 as [[-> E0]|[Hne Hc]].
  - rewrite E0. cbn [Z.eqb]. eapply wp_mono; [apply create_chain_spec; [apply VK|apply VK|apply VK|apply VK|by left]|].
    cbv zeta. intros r v' [W' Hr]. cbn [Z.eqb orb] in Hr. destruct Hr as [(-> & V' & A' & Hno)|[Al _]].
    + left. assert (vol_ok v') as VK' by (by apply (vol_ok_view v)). repeat (split; [done|]). by apply (no_free_view v).
    + right. destruct (al_valid _ _ _ _ Al) as [R1 R2].
      destruct (written_alloc v v' 0 [] r VK ltac:(by left) Al) as (VK' & WR & _ & Hch). specialize (Hch eq_refl).
      split; [lia|]. split; [done|]. split; [by left|]. exists [r]. split; [done|]. split; [done|]. split; [done|].
      unfold chain_sectors, SS, zlen in *. cbn in F2. split; [pose proof (csize_pos _ (vk_geo v VK)); cbn; lia|].
      replace (f_fsize fp) with 0 by lia. exact WR.
  - destruct (chain_head _ _ _ Hc Hne) as [[V1 V2] Hhd]. rewrite (proj2 (Z.eqb_neq (f_sclust fp) 0)) by lia.
    apply wp_ret. right. split; [lia|]. split; [done|]. split; [by right|]. exists cl. split; [done|]. split; [done|].
    split; [by destruct cl|]. split; [lia|]. apply written_refl; [done|by eapply chain_clusters|lia].
Qed.

(** The pointer at zero. *)
Lemma sought_zero v0 fp0 cl0 ofs v cl fp :
  vol_ok v -> wfile v fp cl -> fptr fp = 0 -> same_handle fp0 fp -> written v0 cl0 (f_fsize fp0) 0 [] v cl ->
  0 <= ofs -> (0 < ofs -> f_fsize fp0 <= 0 /\ no_free v) -> sought v0 fp0 cl0 ofs (seek_end fp 0) v.
Proof.
  intros VK [F1 F2 F3] Ep (E1 & E2 & E3 & E4 & E5 & E6 & E7) WR Ho Hshort.
  destruct (seek_end_grow fp 0) as (fp' & -> & D1 & D2 & D3 & D4 & D5 & D6 & D7 & D8 & D9 & D10 & D11).
  rewrite Ep in *. unfold sought. rewrite D1, D4, D5, D6, D7, D8, D9, D10, E1, !has_written, E2 by done.
  do 12 (split; [done|]). exists cl. split; [|split; [split; rewrite D1; [lia|done]|done]].
  constructor; rewrite ?D1, ?D3, ?D4; try done; lia.
Qed.

Lemma wp_grow_file v fp cl ofs :
  vol_ok v -> wfile v fp cl -> at_ptr (fs v) fp cl -> fptr fp <= f_fsize fp < 2 ^ 32 -> 0 <= ofs < 2 ^ 32 ->
  has (flag fp) FA_WRITE = true ->
  wp (seek_file fp ofs) (sought v fp cl ofs) v.
Proof.
  intros VK FO [AP _] Hp Ho Hw. pose proof FO as [F1 F2 F3]. pose proof (vk_geo v VK) as VG. pose proof (csize_pos _ VG) as Hcs.
  pose proof (wfile_clusters _ _ _ FO) as CO. assert (written v cl (f_fsize fp) 0 [] v cl) as WR by (by apply written_refl).
  unfold seek_file. rewrite Hw. cbn [negb]. rewrite andb_false_r.
  destruct (nz ofs) eqn:Ez.
  2: { apply nz_false in Ez as ->. apply wp_ret. apply (sought_zero v fp cl 0 v cl); try done.
       constructor; try done; cbn; lia. }
  apply nz_true in Ez. wp_step. apply wp_getfs. rewrite u32_small by (unfold is_u32, SS; lia). change SS with 512.
  set (bcs := csize (fs v) * 512).
  destruct ((fptr fp >? 0) && ((ofs - 1) / bcs >=? (fptr fp - 1) / bcs)) eqn:Eb.
  - apply andb_true_iff in Eb as [E1 E2]. apply Z.gtb_lt in E1. apply Z.geb_le in E2.
    apply wp_grow_follow; [done|lia|lia|done|].
    destruct (vg_csize _ VG) as (m & Hm & Ecs).
    assert (bcs = 2 ^ (m + 9)) as Ebcs by (unfold bcs; rewrite Ecs, Z.pow_add_r by lia; done).
    cbn [fptr set_fptr f_clust]. rewrite Ebcs, land_align by lia. rewrite <- Ebcs.
    pose proof (Z.div_mod (fptr fp - 1) bcs ltac:(unfold bcs; lia)) as Ed.
    pose proof (Z.mod_pos_bound (fptr fp - 1) bcs ltac:(unfold bcs; lia)) as Bm.
    set (k := (fptr fp - 1) / bcs) in *. assert (0 <= k) as Hk by (apply Z.div_pos; unfold bcs; lia).
    pose proof (Z.div_mod (ofs - 1) bcs ltac:(unfold bcs; lia)) as Et.
    pose proof (Z.mod_pos_bound (ofs - 1) bcs ltac:(unfold bcs; lia)) as Bt.
    exists cl, k. cbn [fst snd]. fold bcs. unfold chain_sectors, SS in F3.
    assert (f_clust fp = nth (Z.to_nat k) cl 0) as Ec by (rewrite AP by lia; done).
    destruct F1 as [[-> _]|[_ Hch]]; [unfold zlen in F3; cbn in F3; lia|].
    split; [|split; [done|lia]]. constructor; cbn [fst snd fptr f_clust set_fptr f_sclust]; fold bcs; try done; [nia|lia|nia|lia].
  - wp_step. cbn [f_sclust set_fptr]. eapply wp_mono; [by apply (wp_first_clust v fp cl)|].
    intros c v' [(-> & -> & E0 & VK' & V' & Hno)|(Hc & VK' & Esc & cl' & Hne' & Hch' & Hhd & Hfit & WR')].
    + rewrite E0. cbn [Z.eqb andb]. unfold seek_follow. cbn [Z.eqb negb]. apply wp_ret.
      unfold chain_sectors, zlen in F2. cbn in F2. apply (sought_zero v fp [] ofs v' []); try done; [| |lia|intros _; split; [lia|done]].
      2: { apply written_view; try done; unfold chain_sectors, zlen; cbn; lia. }
      constructor; [by left|..]; unfold chain_sectors, zlen; cbn; lia.
    + rewrite (proj2 (Z.eqb_neq c 1)), (proj2 (Z.eqb_neq c 0xFFFFFFFF)), !andb_false_r by lia.
      apply wp_grow_follow; [done|lia|lia|done|]. exists cl', 0. cbn [fst snd].
      assert (0 < zlen cl') by (unfold zlen; destruct cl'; [done|cbn; lia]).
      split; [|split; [done|lia]]. constructor; cbn [fst snd]; try done; try lia.
      * destruct Esc as [->|Esc]; [by cbn|]. by rewrite (proj2 (Z.eqb_neq (f_sclust fp) 0)), <- Esc in * by lia.
      * by destruct (f_sclust fp =? 0).
      * by destruct (f_sclust fp =? 0).
Qed.

Lemma wp_f_lseek_write s fp f cl ofs :
  opened s fp f cl -> vol_ok (Build_vol f (dev s)) -> wfile (Build_vol f (dev s)) fp cl -> at_ptr f fp cl ->
  online (dev s) (drv f) -> err fp = FR_OK -> has (flag fp) FA_WRITE = true -> 0 <= ofs < 2 ^ 32 ->
  wp (f_lseek fp ofs)
    (fun r s' => exists f', objs s' !! f_fs fp = Some f' /\ sought (Build_vol f (dev s)) fp cl ofs r (Build_vol f' (dev s'))) s.
Proof.
  intros O VK FO AP On Ee Hw Ho. pose proof (fo_ptr _ _ _ (op_file _ _ _ _ O)) as Hp. pose proof (fo_size _ _ _ (op_file _ _ _ _ O)) as [Hz Hz2].
  unfold f_lseek. wp_step. apply (wp_file_guard s fp f cl 0); [done|done|done|by left|]. intros s1 O1 V1.
  apply (wp_on_fs s1 _ f); [apply O1|].
  assert (vol_ok (Build_vol f (dev s1))) as VK1 by (apply (vol_ok_view (Build_vol f (dev s))); [done|apply O1|done|done]).
  eapply wp_mono; [apply (wp_grow_file _ fp cl ofs); try done; [by apply (wfile_view (Build_vol f (dev s)))|lia]|].
  intros [res fp'] [f' d'] SO. exists f'. cbn [objs dev fs disk]. split; [apply lookup_insert_eq|].
  destruct SO as (H1 & H2 & H3 & H4 & H5 & H6 & H7 & H8 & H9 & H10 & H11 & H12 & cl' & H13 & H14 & H15).
  unfold sought. do 12 (split; [done|]). exists cl'. split; [done|]. split; [done|].
  pose proof (wfile_clusters _ _ _ FO) as CO. apply (written_pre _ (Build_vol f (dev s1))); try done; cbn [fs] in *; unfold SS in *; lia.
Qed.

(** ** The contents of a file as a list *)

Lemma file_data_ext v cl v' cl' off n :
  (forall j, off <= j < off + n -> file_byte v' cl' j = file_byte v cl j) -> file_data v' cl' off n = file_data v cl off n.
Proof.
  intros E. unfold file_data. apply list_fmap_ext. intros i x Hx. apply lookup_seqZ in Hx as [-> Hi]. apply E. lia.
Qed.

Lemma zlen_file_data v cl off n : 0 <= n -> zlen (file_data v cl off n) = n.
Proof. intros Hn. unfold zlen. rewrite file_data_length. lia. Qed.

(** The contents split at an offset. *)
Lemma file_data_split v cl off n m : 0 <= n <= m -> file_data v cl off m = file_data v cl off n ++ file_data v cl (off + n) (m - n).
Proof. intros Hn. rewrite file_data_app by lia. f_equal. lia. Qed.

Lemma file_data_take v cl off n m : 0 <= n -> take (Z.to_nat n) (file_data v cl off m) = file_data v cl off (Z.min n m).
Proof.
  intros Hn. destruct (Z.le_gt_cases n m) as [Hle|Hgt].
  - rewrite Z.min_l, (file_data_split v cl off n m) by lia. apply take_app_length'. rewrite file_data_length. lia.
  - rewrite Z.min_r by lia. apply take_ge. rewrite file_data_length. lia.
Qed.

Lemma file_data_drop v cl off n m : 0 <= n <= m -> drop (Z.to_nat n) (file_data v cl off m) = file_data v cl (off + n) (m - n).
Proof. intros Hn. rewrite (file_data_split v cl off n m) by lia. apply drop_app_length'. rewrite file_data_length. lia. Qed.

(** Writing is splicing. *)
Lemma written_splice v0 cl0 size p data v cl :
  0 <= p <= size -> written v0 cl0 size p data v cl ->
  file_data v cl 0 (Z.max size (p + zlen data)) = splice (file_data v0 cl0 0 size) (Z.to_nat p) data.
Proof.
  intros Hp WR. pose proof (zlen_nonneg data) as Hl. pose proof (wn_bytes _ _ _ _ _ _ _ WR) as HB.
  set (n := Z.max size (p + zlen data)) in *.
  assert (forall j, 0 <= j < n -> j < p \/ p + zlen data <= j -> file_byte v cl j = file_byte v0 cl0 j) as Hout.
  { intros j Hj Hd. rewrite HB by done. destruct (Z.leb_spec p j), (Z.ltb_spec j (p + zlen data)); done || lia. }
  rewrite (file_data_split v cl 0 p n), (file_data_split v cl (0 + p) (zlen data) (n - p)) by lia. unfold splice. f_equal; [|f_equal].
  - rewrite file_data_take, Z.min_l by lia. apply file_data_ext. intros j Hj. apply Hout; lia.
  - rewrite Z.add_0_l. apply (written_data v0 cl0 size); [lia|done].
  - unfold zlen in *. replace (Z.to_nat p + length data)%nat with (Z.to_nat (p + zlen data)) by (unfold zlen; lia).
    destruct (Z.le_gt_cases (p + zlen data) size) as [Hle|Hgt].
    + rewrite file_data_drop by (unfold zlen in *; lia). unfold zlen in *. replace (n - p - Z.of_nat (length data)) with (size - (p + Z.of_nat (length data))) by lia.
      rewrite Z.add_0_l. apply file_data_ext. intros j Hj. apply Hout; lia.
    + rewrite drop_ge by (rewrite file_data_length; lia). apply nil_length_inv. rewrite file_data_length. unfold zlen in *. lia.
Qed.

(** A seek behind the end appends bytes. *)
Lemma written_extend v0 cl0 size v cl n :
  0 <= size <= n -> written v0 cl0 size 0 [] v cl ->
  file_data v cl 0 n = file_data v0 cl0 0 size ++ file_data v cl size (n - size).
Proof.
  intros Hn WR. rewrite (file_data_split v cl 0 size n) by lia. rewrite Z.add_0_l. f_equal.
  apply file_data_ext. intros j Hj. rewrite (wn_bytes _ _ _ _ _ _ _ WR) by lia.
  change (zlen (@nil Z)) with 0. destruct (Z.leb_spec 0 j), (Z.ltb_spec j (0 + 0)); done || lia.
Qed.

(** Of a write, what it did to the rest of the volume. *)
Definition only_grown v0 cl0 v cl : Prop := written v0 cl0 0 0 [] v cl.

Lemma written_grown v0 cl0 size off data v cl : written v0 cl0 size off data v cl -> only_grown v0 cl0 v cl.
Proof. intros [W1 W2 W3 W4 W5 W6 W7 W8]. constructor; try done. intros j Hj. change (zlen (@nil Z)) with 0 in Hj. lia. Qed.

Lemma only_grown_trans v0 cl0 v1 cl1 v2 cl2 :
  vol_geo (fs v0) -> only_grown v0 cl0 v1 cl1 -> only_grown v1 cl1 v2 cl2 -> only_grown v0 cl0 v2 cl2.
Proof. intros VG W1 W2. change (@nil Z) with (@nil Z ++ []). by apply (written_trans v0 cl0 0 0 [] v1 cl1 0). Qed.

(** On a full volume nothing becomes free. *)
Lemma no_free_grown v cl v' fp' cl' :
  vol_ok v -> vol_ok v' -> only_grown v cl v' cl' -> wfile v' fp' cl' -> no_free v -> no_free v'.
Proof.
  intros VK VK' [W1 W2 W3 W4 W5 W6 W7 _] [F1 _ _] Hno c Hc. destruct (geo_fields _ _ W1) as (_ & _ & _ & E4 & _).
  assert (valid_clust (fs v) c) as Hc' by (unfold valid_clust in *; by rewrite <- E4).
  destruct (decide (c ∈ cl')) as [Hin|Hin]; [|rewrite W5 by done; by apply Hno].
  destruct F1 as [[-> _]|[_ Hch]]; [by apply not_elem_of_nil in Hin|].
  apply list_elem_of_lookup_1 in Hin as [k Hk]. pose proof (lookup_lt_Some _ _ _ Hk) as Hlt.
  destruct (chain_next v' _ cl' k Hch Hlt) as [Hge _]. rewrite (nth_lookup_Some _ _ _ _ Hk) in Hge. lia.
Qed.

(** ** The abstract file

    An array of bytes with a position; [room] is false once an operation was
    cut short because the volume had no free cluster left. *)
Record afile := AFile { content : list Z; pos : Z; room : bool }.

Inductive fop :=
  | Read (btr : Z)
  | Write (buff : list Z)
  | Seek (ofs : Z).

Inductive reply :=
  | Got (res : FRESULT) (out : list Z)
  | Put (res : FRESULT) (bw : Z)
  | At (res : FRESULT) (p : Z).

(** The contract of the three functions.  A write may be short, a seek behind
    the end extends the file (by bytes the contract leaves open) and may be
    short at the end of the file; both only by giving up [room]. *)
Inductive spec_step : fop -> afile -> reply -> afile -> Prop :=
  | spec_read btr c p rm :
      spec_step (Read btr) (AFile c p rm)
        (Got FR_OK (take (Z.to_nat btr) (drop (Z.to_nat p) c))) (AFile c (p + Z.min btr (zlen c - p)) rm)
  | spec_write buff bw c p rm :
      0 <= bw <= zlen buff ->
      spec_step (Write buff) (AFile c p rm) (Put FR_OK bw)
        (AFile (splice c (Z.to_nat p) (take (Z.to_nat bw) buff)) (p + bw) (rm && (bw =? zlen buff)))
  | spec_seek ofs p' tail c p rm :
      0 <= p' <= ofs -> zlen (c ++ tail) = Z.max (zlen c) p' -> (p' < ofs -> zlen c <= p') ->
      spec_step (Seek ofs) (AFile c p rm) (At FR_OK p') (AFile (c ++ tail) p' (rm && (p' =? ofs))).

Inductive spec_run : list fop -> afile -> list reply -> afile -> Prop :=
  | spec_nil a : spec_run [] a [] a
  | spec_cons o ops a r a1 rs a' : spec_step o a r a1 -> spec_run ops a1 rs a' -> spec_run (o :: ops) a (r :: rs) a'.

(** The calls of a client. *)
Definition exec (o : fop) (fp : FIL) : M (ff D) (reply * FIL) :=
  match o with
  | Read btr => let! (res, fp, out) := f_read fp btr in ret (Got res out, fp)
  | Write buff => let! (res, fp, bw) := f_write fp buff in ret (Put res bw, fp)
  | Seek ofs => let! (res, fp) := f_lseek fp ofs in ret (At res (fptr fp), fp)
  end.

Fixpoint session (ops : list fop) (fp : FIL) : M (ff D) (list reply * FIL) :=
  match ops with
  | [] => ret ([], fp)
  | o :: ops => let! (r, fp) := exec o fp in let! (rs, fp) := session ops fp in ret (r :: rs, fp)
  end.

(** The arguments are in range and the file stays below 4 GB. *)
Definition op_fits (o : fop) (size : Z) : bool :=
  match o with
  | Read btr => 0 <=? btr
  | Write buff => forallb (fun b => (0 <=? b) && (b <? 256)) buff && (size + zlen buff <? 2 ^ 32)
  | Seek ofs => (0 <=? ofs) && (ofs <? 2 ^ 32)
  end.
Definition op_size (o : fop) (size : Z) : Z :=
  match o with Read _ => size | Write buff => size + zlen buff | Seek ofs => Z.max size ofs end.
Fixpoint fits (ops : list fop) (size : Z) : bool :=
  match ops with [] => true | o :: ops => op_fits o size && fits ops (op_size o size) end.

(** The open file [fp] stands for the abstract file [a]; since the state [v0]
    with the clusters [cl0], nothing outside the file has changed. *)
Record represents v0 cl0 (s : ff D) (fp : FIL) (a : afile) f cl : Prop := {
  re_obj : objs s !! f_fs fp = Some f;
  re_ptr : f_fs fp <> 0;
  re_id : fs_id f = f_id fp;
  re_online : forall d, online d (drv f);
  re_err : err fp = FR_OK;
  re_read : has (flag fp) FA_READ = true;
  re_write : has (flag fp) FA_WRITE = true;
  re_vol : vol_ok (Build_vol f (dev s));
  re_file : wfile (Build_vol f (dev s)) fp cl;
  re_at : at_ptr f fp cl;
  re_size : fptr fp <= f_fsize fp < 2 ^ 32;
  re_content : content a = file_data (Build_vol f (dev s)) cl 0 (f_fsize fp);
  re_pos : pos a = fptr fp;
  re_room : room a = false -> no_free (Build_vol f (dev s));
  re_frame : only_grown v0 cl0 (Build_vol f (dev s)) cl
}.

Lemma represents_opened v0 cl0 s fp a f cl : represents v0 cl0 s fp a f cl -> opened s fp f cl.
Proof.
  intros [R1 R2 R3 R4 R5 R6 R7 R8 R9 R10 R11 R12 R13 R14 R15].
  constructor; try done; [apply R8|apply R8|]. by apply wfile_file_ok.
Qed.

Lemma represents_size v0 cl0 s fp a f cl : represents v0 cl0 s fp a f cl ->
  zlen (content a) = f_fsize fp /\ 0 <= pos a <= f_fsize fp /\ f_fsize fp <= chain_sectors f cl * SS.
Proof.
  intros R. pose proof (re_size _ _ _ _ _ _ _ R). destruct (re_file _ _ _ _ _ _ _ R) as [_ F2 F3]. cbn [fs] in *.
  rewrite (re_content _ _ _ _ _ _ _ R), (re_pos _ _ _ _ _ _ _ R), zlen_file_data by lia. lia.
Qed.

Lemma geo_same_drv f f' : geo f' = geo f -> drv f' = drv f /\ fs_id f' = fs_id f.
Proof. intros G. unfold geo in G. split; congruence. Qed.

Lemma file_at_ptr v fp cl : file_ok v fp cl -> at_ptr (fs v) fp cl.
Proof. intros [O1 O2 O3 O4 O5 O6]. split; done. Qed.

Lemma step_read v0 cl0 s fp a f cl btr :
  vol_geo (fs v0) -> represents v0 cl0 s fp a f cl -> 0 <= btr ->
  wp (exec (Read btr) fp)
    (fun '(r, fp') s' => exists a' f' cl', spec_step (Read btr) a r a' /\ represents v0 cl0 s' fp' a' f' cl') s.
Proof.
  intros VG0 R Hb. pose proof (represents_opened _ _ _ _ _ _ _ R) as O. destruct (represents_size _ _ _ _ _ _ _ R) as (Hz & Hp & Hfit).
  pose proof R as [R1 R2 R3 R4 R5 R6 R7 R8 R9 R10 R11 R12 R13 R14 R15].
  unfold exec. wp_step. apply (wp_f_read s fp f cl); try done. intros fp' s' f' O' V' SF Ep A'. apply wp_ret.
  assert (vol_ok (Build_vol f' (dev s'))) as VK' by (apply (vol_ok_view (Build_vol f (dev s))); [done|apply O'|done|done]).
  destruct a as [c p rm]. cbn [content pos room] in *. exists (AFile c (p + Z.min btr (zlen c - p)) rm), f', cl. split.
  - replace (file_data _ cl (fptr fp) _) with (take (Z.to_nat btr) (drop (Z.to_nat p) c)); [constructor|].
    rewrite R12, R13, file_data_drop, file_data_take by lia. done.
  - pose proof SF as (E1 & E2 & E3 & E4 & E5 & E6 & _). destruct (geo_same_drv _ _ (proj1 V')) as [Ed Ei]. cbn in Ed, Ei.
    constructor; cbn [content pos room]; rewrite ?E1, ?E3, ?E4, ?E5, ?E6, ?Ed, ?Ei; try done.
    + rewrite <- E5. apply O'.
    + destruct (wfile_view _ _ fp cl R8 V' R9) as [F1 F2 F3]. constructor; rewrite ?E1, ?E2; try done. rewrite Ep. lia.
    + exact (file_at_ptr _ _ _ (op_file _ _ _ _ O')).
    + rewrite Ep. lia.
    + rewrite R12. symmetry. apply (file_data_view _ _ fp); [done|apply O|lia|cbn [fs]; lia].
    + rewrite Ep, R13. lia.
    + intros Hrm. apply (no_free_view (Build_vol f (dev s))); auto.
    + apply (only_grown_trans _ _ (Build_vol f (dev s)) cl); [done|done|].
      apply written_view; try done; [by eapply wfile_clusters|cbn [fs]; lia|cbn [fs]; lia].
Qed.

(** What a write or a seek leaves of the representation. *)
Lemma represents_after v0 cl0 (s s' : ff D) fp a f cl fp' a' f' cl' size off data :
  vol_geo (fs v0) -> represents v0 cl0 s fp a f cl ->
  objs s' !! f_fs fp = Some f' -> vol_ok (Build_vol f' (dev s')) ->
  written (Build_vol f (dev s)) cl size off data (Build_vol f' (dev s')) cl' ->
  err fp' = err fp -> f_fs fp' = f_fs fp -> f_id fp' = f_id fp ->
  has (flag fp') FA_READ = has (flag fp) FA_READ -> has (flag fp') FA_WRITE = has (flag fp) FA_WRITE ->
  wfile (Build_vol f' (dev s')) fp' cl' -> at_ptr f' fp' cl' -> fptr fp' <= f_fsize fp' < 2 ^ 32 ->
  content a' = file_data (Build_vol f' (dev s')) cl' 0 (f_fsize fp') -> pos a' = fptr fp' ->
  (room a' = false -> room a = false \/ no_free (Build_vol f' (dev s'))) ->
  represents v0 cl0 s' fp' a' f' cl'.
Proof.
  intros VG0 [R1 R2 R3 R4 R5 R6 R7 R8 R9 R10 R11 R12 R13 R14 R15] Ho VK' WR E1 E2 E3 E4 E5 FO' AP' Hp' Ec Epos Hrm.
  pose proof (written_grown _ _ _ _ _ _ _ WR) as OG. destruct (geo_same_drv _ _ (wn_geo _ _ _ _ _ _ _ WR)) as [Ed Ei]. cbn in Ed, Ei.
  constructor; rewrite ?E1, ?E2, ?E3, ?E4, ?E5, ?Ed, ?Ei; try done.
  - intros Hr. destruct (Hrm Hr) as [Hr'|?]; [|done]. by eapply (no_free_grown _ cl _ fp' cl' R8); auto.
  - by apply (only_grown_trans _ _ (Build_vol f (dev s)) cl).
Qed.

Lemma forallb_bytes buff : forallb (fun b => (0 <=? b) && (b <? 256)) buff = true -> Forall is_byte buff.
Proof.
  intros E. apply Forall_forall. intros x Hx. apply list_elem_of_In in Hx. rewrite forallb_forall in E.
  specialize (E x Hx). apply andb_true_iff in E as [E1%Z.leb_le E2%Z.ltb_lt]. unfold is_byte. lia.
Qed.

Lemma step_write v0 cl0 s fp a f cl buff :
  vol_geo (fs v0) -> represents v0 cl0 s fp a f cl -> Forall is_byte buff -> zlen (content a) + zlen buff < 2 ^ 32 ->
  wp (exec (Write buff) fp)
    (fun '(r, fp') s' => exists a' f' cl', spec_step (Write buff) a r a' /\ represents v0 cl0 s' fp' a' f' cl' /\
       zlen (content a') <= zlen (content a) + zlen buff) s.
Proof.
  intros VG0 R Hb Hfit. destruct (represents_size _ _ _ _ _ _ _ R) as (Hz & Hp & Hcs).
  pose proof R as [R1 R2 R3 R4 R5 R6 R7 R8 R9 R10 R11 R12 R13 R14 R15].
  assert (writable s fp f cl buff) as WB by (do 2 (constructor; try done; try lia)).
  unfold exec. wp_step. eapply wp_mono; [by apply (wp_f_write s fp f cl)|].
  intros [[res fp'] bw] s' (f' & Ho & Hi & Hd & Hf).
  destruct Hf as (-> & Hbw & VK' & Ep & Ez & Ef & Eerr & Efs & Eid & _ & _ & Hfull & cl' & FO' & AP' & WR).
  apply wp_ret. destruct a as [c p rm]. cbn [content pos room] in *.
  exists (AFile (splice c (Z.to_nat p) (take (Z.to_nat bw) buff)) (p + bw) (rm && (bw =? zlen buff))), f', cl'.
  assert (splice c (Z.to_nat p) (take (Z.to_nat bw) buff) = file_data (Build_vol f' (dev s')) cl' 0 (f_fsize fp')) as Ec.
  { rewrite R12, R13, Ez, <- (written_splice _ cl _ _ _ (Build_vol f' (dev s')) cl') by (done || lia). by rewrite zlen_take_le. }
  split; [by constructor|]. split.
  - eapply (represents_after v0 cl0 s s' fp (AFile c p rm)); try done.
    + by rewrite Ef, has_lor_written.
    + by rewrite Ef, has_lor_written.
    + lia.
    + cbn. lia.
    + cbn. intros [?|Hs%Z.eqb_neq]%andb_false_iff; [by left|right]. unfold no_free. apply Hfull. lia.
  - cbn [content]. rewrite Ec, zlen_file_data by lia. lia.
Qed.

Lemma step_seek v0 cl0 s fp a f cl ofs :
  vol_geo (fs v0) -> represents v0 cl0 s fp a f cl -> 0 <= ofs < 2 ^ 32 ->
  wp (exec (Seek ofs) fp)
    (fun '(r, fp') s' => exists a' f' cl', spec_step (Seek ofs) a r a' /\ represents v0 cl0 s' fp' a' f' cl' /\
       zlen (content a') <= Z.max (zlen (content a)) ofs) s.
Proof.
  intros VG0 R Ho. pose proof (represents_opened _ _ _ _ _ _ _ R) as O. destruct (represents_size _ _ _ _ _ _ _ R) as (Hz & Hp & Hcs).
  pose proof R as [R1 R2 R3 R4 R5 R6 R7 R8 R9 R10 R11 R12 R13 R14 R15].
  unfold exec. wp_step. eapply wp_mono; [by apply (wp_f_lseek_write s fp f cl ofs)|].
  intros [res fp'] s' (f' & Hobj & SO).
  destruct SO as (-> & VK' & Hp' & Hshort & Ez & Er & Ew & Eerr & Efs & Eid & _ & _ & cl' & FO' & AP' & WR).
  apply wp_ret. destruct a as [c p rm]. cbn [content pos room] in *.
  pose proof (written_extend _ _ (f_fsize fp) _ _ (f_fsize fp') ltac:(lia) WR) as Ec. rewrite <- R12 in Ec.
  set (tail := file_data (Build_vol f' (dev s')) cl' (f_fsize fp) (f_fsize fp' - f_fsize fp)) in *.
  exists (AFile (c ++ tail) (fptr fp') (rm && (fptr fp' =? ofs))), f', cl'.
  assert (zlen (c ++ tail) = f_fsize fp') as El by (rewrite <- Ec, zlen_file_data by lia; done).
  split; [constructor; [lia|lia|rewrite Hz; apply Hshort]|]. split.
  - eapply (represents_after v0 cl0 s s' fp (AFile c p rm)); try done.
    + lia.
    + cbn. intros [?|Hs%Z.eqb_neq]%andb_false_iff; [by left|right]. apply Hshort. lia.
  - cbn [content]. lia.
Qed.

Lemma fits_mono ops size size' : size <= size' -> fits ops size' = true -> fits ops size = true.
Proof.
  revert size size'. induction ops as [|o ops IH]; intros size size' Hle; [done|]. cbn.
  intros [H1 H2]%andb_true_iff. apply andb_true_iff. split.
  - destruct o; cbn in *; [done| |done]. apply andb_true_iff in H1 as [H1 H3]. rewrite H1. apply Z.ltb_lt in H3. apply Z.ltb_lt. lia.
  - apply (IH _ (op_size o size')); [|done]. destruct o; cbn; lia.
Qed.

Lemma step_refines v0 cl0 s fp a f cl o :
  vol_geo (fs v0) -> represents v0 cl0 s fp a f cl -> op_fits o (zlen (content a)) = true ->
  wp (exec o fp)
    (fun '(r, fp') s' => exists a' f' cl', spec_step o a r a' /\ represents v0 cl0 s' fp' a' f' cl' /\
       zlen (content a') <= op_size o (zlen (content a))) s.
Proof.
  intros VG0 R Hf. destruct o; cbn in Hf.
  - apply Z.leb_le in Hf. eapply wp_mono; [by apply (step_read v0 cl0 s fp a f cl)|].
    intros [r fp'] s' (a' & f' & cl' & St & R'). exists a', f', cl'. split; [done|]. split; [done|].
    inversion St; subst. cbn. lia.
  - apply andb_true_iff in Hf as [Hb%forallb_bytes Hl%Z.ltb_lt]. by apply (step_write v0 cl0 s fp a f cl).
  - apply andb_true_iff in Hf as [H1%Z.leb_le H2%Z.ltb_lt]. by apply (step_seek v0 cl0 s fp a f cl).
Qed.

(** C1. Refinement: every sequence of [f_read], [f_write] and [f_lseek] calls
    on an open file returns, and its replies are those of the abstract file, an
    array of bytes with a position; a call is cut short only when the volume
    has no free cluster, and no FAT entry and no sector outside the file and
    the FATs changes. *)
Theorem session_refines ops v0 cl0 s fp a f cl :
  vol_geo (fs v0) -> represents v0 cl0 s fp a f cl -> fits ops (zlen (content a)) = true ->
  wp (session ops fp)
    (fun '(rs, fp') s' => exists a' f' cl', spec_run ops a rs a' /\ represents v0 cl0 s' fp' a' f' cl') s.
Proof.
  intros VG0. revert s fp a f cl. induction ops as [|o ops IH]; intros s fp a f cl R Hf; cbn [session].
  - apply wp_ret. exists a, f, cl. split; [constructor|done].
  - cbn [fits] in Hf. apply andb_true_iff in Hf as [H1 H2]. wp_step. eapply wp_mono; [by apply (step_refines v0 cl0 s fp a f cl)|].
    intros [r fp1] s1 (a1 & f1 & cl1 & St & R1 & Hl). wp_step.
    eapply wp_mono; [apply (IH s1 fp1 a1 f1 cl1 R1); by eapply fits_mono|].
    intros [rs fp'] s' (a' & f' & cl' & Run & R'). apply wp_ret. exists a', f', cl'. split; [by econstructor|done].
Qed.
End Theory.

(** ** A session on a small volume

    The file of [text_vol] is opened at its end, extended by a write, read from
    a position in the middle and extended by a seek. *)
Definition text_ops : list fop := [Write (replicate 300 7); Seek 500; Read 200; Seek 1500; Write [1; 2; 3]].
Definition text_content : list Z := file_data text_vol [2; 3] 0 600.

Lemma text_represents : represents text_vol [2; 3] text_ff text_end (AFile text_content 600 true) demo_fs [2; 3].
Proof.
  pose proof (wb_start _ _ _ _ _ text_writable) as SA. constructor; try done.
  - exact text_vol_ok.
  - apply SA.
  - apply written_view; [exact text_vol_ok|eapply wfile_clusters, SA|done|done|done].
Qed.

Lemma session_refines_witness :
  wp (session text_ops text_end)
    (fun '(rs, fp') s' => exists a' f' cl', spec_run text_ops (AFile text_content 600 true) rs a' /\
       represents text_vol [2; 3] s' fp' a' f' cl') text_ff.
Proof.
  apply (session_refines text_ops text_vol [2; 3] text_ff text_end _ demo_fs [2; 3]);
    [exact demo_vol_geo|exact text_represents|vm_compute; reflexivity].
Defined.
