(* ===== verification/FatPath.v ===== *)
(** * FatFs: paths and opening files

    Theory of [follow_path] and [f_open] (definitions in [FatDir], [FatVolume]
    and [FatFile]): a path is a list of names, the directories of a volume are
    a graph of tables, and [walk] is what a path leads to. *)

From S2P Require Import Prelude FatBase FatAccess FatName FatDir FatVolume FatFile FatWrite.

(** ** Path texts *)

(** A name with the separators in front of it. *)
Record segment := Segment { seps : list Z; body : list Z; ext : list Z; dot : bool }.

Definition seg_ok (g : segment) : bool :=
  forallb is_sep (seps g) && forallb legal (body g) && forallb legal (ext g) &&
  (1 <=? zlen (body g)) && (zlen (body g) <=? 8) && (zlen (ext g) <=? 3) && (dot g || (zlen (ext g) =? 0)).

Definition seg_text (g : segment) : list Z := body g ++ (if dot g then 46 :: ext g else []).
Definition seg_name (g : segment) : list Z := dir_form (body g) (ext g).

(** The text of a path, which a character up to the blank or the end of the
    string ends. *)
Fixpoint path_text (gs : list segment) (r : list Z) : list Z :=
  match gs with
  | [] => r
  | g :: gs => seps g ++ seg_text g ++ path_text gs r
  end.

(** All names but the first have a separator. *)
Definition path_ok (gs : list segment) (r : list Z) : bool :=
  negb (zlen gs =? 0) && forallb seg_ok gs && forallb (fun g => negb (zlen (seps g) =? 0)) (List.tl gs) && (peek r <=? 32).

Definition unsep (g : segment) : segment := Segment (List.tl (seps g)) (body g) (ext g) (dot g).

Lemma seg_ok_unsep g : seg_ok g = true -> seg_ok (unsep g) = true.
Proof.
  unfold seg_ok, unsep. cbn. destruct (seps g); [done|]. cbn. intros H. rewrite !andb_true_iff in *. tauto.
Qed.

Lemma path_next g gs r : seps g <> [] -> next (path_text (g :: gs) r) = path_text (unsep g :: gs) r.
Proof. destruct g as [[|c s] b x d]; [done|]. done. Qed.

Lemma seg_ok_elim g : seg_ok g = true ->
  forallb is_sep (seps g) = true /\ forallb legal (body g) = true /\ forallb legal (ext g) = true /\
  (1 <= length (body g) <= 8)%nat /\ (length (ext g) <= 3)%nat /\ (ext g <> [] -> dot g = true).
Proof.
  unfold seg_ok, zlen. rewrite !andb_true_iff, !Z.leb_le, orb_true_iff, Z.eqb_eq.
  intros ((((((H1 & H2) & H3) & H4) & H5) & H6) & H7). do 3 (split; [done|]). split; [lia|]. split; [lia|].
  intros Hne. destruct H7 as [?|H7]; [done|]. destruct (ext g); [done|]. cbn in H7. lia.
Qed.

Lemma legal_char c : legal c = true -> 32 < c < 128 /\ is_sep c = false /\ c <> 58.
Proof.
  unfold legal. rewrite !andb_true_iff, !negb_true_iff. intros ((((H1 & H2) & H3) & H4) & H5). split; [lia|]. split; [done|].
  intros ->. by vm_compute in H5.
Qed.

Lemma length_seg_name g : seg_ok g = true -> length (seg_name g) = 11%nat.
Proof.
  intros Hg. destruct (seg_ok_elim g Hg) as (_ & _ & _ & H1 & H2 & _). unfold seg_name, dir_form.
  by rewrite length_app, !length_padded by lia.
Qed.

(** A segment is parsed into its name; the flag tells whether it is the last. *)
Lemma create_name_seg nm g gs r :
  length nm = 12%nat -> path_ok (g :: gs) r = true ->
  exists fl, create_name nm (path_text (g :: gs) r) = (FR_OK, seg_name g ++ [fl], next (path_text gs r)) /\
             has fl NS_LAST = bool_decide (gs = []) /\ is_byte fl.
Proof.
  intros Hn H. unfold path_ok in H. rewrite !andb_true_iff in H. destruct H as (((_ & Hs) & Ht) & Hr).
  cbn [forallb List.tl] in Hs, Ht. apply andb_true_iff in Hs as [Hg Hgs]. destruct (seg_ok_elim g Hg) as (H1 & H2 & H3 & H4 & H5 & H6).
  exists (name_flags (peek (path_text gs r)) (body g) (ext g)). cbn [path_text]. unfold seg_text. rewrite <- app_assoc.
  split; [|split; [|unfold name_flags, is_byte; destruct (peek (path_text gs r) <=? 32), (all_lower (ext g)), (all_lower (body g)); done]].
  - apply create_name_run; try done. destruct gs as [|g' gs].
    + cbn. right. by rewrite Hr.
    + right. cbn [forallb] in Ht, Hgs. apply andb_true_iff in Ht as [Ht _]. apply andb_true_iff in Hgs as [Hg' _].
      destruct (seg_ok_elim g' Hg') as (H7 & _). cbn [path_text]. destruct (seps g') as [|c s]; [done|].
      cbn in H7 |- *. apply andb_true_iff in H7 as [-> _]. by rewrite orb_true_r.
  - unfold name_flags. destruct gs as [|g' gs].
    + cbn [path_text]. rewrite Hr. rewrite bool_decide_true by done. by destruct (all_lower _), (all_lower _).
    + cbn [forallb] in Ht, Hgs. apply andb_true_iff in Ht as [Ht _]. apply andb_true_iff in Hgs as [Hg' _].
      destruct (seg_ok_elim g' Hg') as (H7 & _). cbn [path_text]. rewrite bool_decide_false by done.
      destruct (seps g') as [|c s]; [done|]. cbn in H7 |- *. apply andb_true_iff in H7 as [H7 _].
      unfold is_sep in H7. destruct (Z.leb_spec c 32); [lia|]. by destruct (all_lower _), (all_lower _).
Qed.

Lemma path_ok_tail g g' gs r : path_ok (g :: g' :: gs) r = true -> seps g' <> [] /\ path_ok (unsep g' :: gs) r = true.
Proof.
  unfold path_ok. cbn [forallb List.tl]. rewrite !andb_true_iff. intros (((_ & H1 & H2 & H3) & H4 & H5) & H6). split.
  - intros E. by rewrite E in H4.
  - by rewrite seg_ok_unsep.
Qed.

Lemma path_length gs r : path_ok gs r = true -> (length gs <= length (path_text gs r))%nat.
Proof.
  intros H. unfold path_ok in H. rewrite !andb_true_iff in H. destruct H as (((_ & Hs) & _) & _).
  induction gs as [|g gs IH]; [cbn; lia|]. cbn [forallb] in Hs. apply andb_true_iff in Hs as [Hg Hs].
  destruct (seg_ok_elim g Hg) as (_ & _ & _ & H4 & _). specialize (IH Hs). cbn [path_text]. unfold seg_text.
  rewrite !length_app. cbn [length]. lia.
Qed.

(** The drive number of a path is 0, written or not. *)
Definition drive_text (b : bool) : list Z := if b then [48; 58] else [].

Lemma find_colon_app l r : forallb (fun c => (c >=? 33) && negb (c =? 58)) l = true ->
  find_colon (l ++ r) = let (n, x) := find_colon r in ((length l + n)%nat, x).
Proof.
  induction l as [|c l IH]; cbn; [by destruct (find_colon r)|]. intros H. apply andb_true_iff in H as [-> H].
  rewrite IH by done. by destruct (find_colon r).
Qed.

Lemma path_no_colon gs r : forallb seg_ok gs = true -> peek r <= 32 -> peek (snd (find_colon (path_text gs r))) <> 58.
Proof.
  intros Hs Hr. induction gs as [|g gs IH].
  - cbn. destruct r as [|c r]; [done|]. cbn in Hr |- *. destruct (Z.geb_spec c 33); [lia|]. cbn. lia.
  - cbn [forallb] in Hs. apply andb_true_iff in Hs as [Hg Hs]. destruct (seg_ok_elim g Hg) as (H1 & H2 & H3 & _).
    specialize (IH Hs). cbn [path_text]. unfold seg_text. rewrite !find_colon_app.
    + by destruct (find_colon (path_text gs r)).
    + assert (forall l, forallb legal l = true -> forallb (fun c => (c >=? 33) && negb (c =? 58)) l = true) as Hl.
      { intros l Hl. rewrite forallb_forall in Hl |- *. intros c Hc. destruct (legal_char c (Hl c Hc)) as (? & _ & ?).
        apply andb_true_iff. split; [apply Z.geb_le; lia|]. by apply negb_true_iff, Z.eqb_neq. }
      rewrite forallb_app, Hl by done. destruct (dot g); [|done]. cbn. by apply Hl.
    + rewrite forallb_forall in H1 |- *. intros c Hc. specialize (H1 c Hc). unfold is_sep in H1.
      apply andb_true_iff. split; [apply Z.geb_le; lia|]. apply negb_true_iff, Z.eqb_neq. lia.
Qed.

Lemma path_drive b gs r : path_ok gs r = true ->
  get_ldnumber (Some (drive_text b ++ path_text gs r)) = (0, Some (path_text gs r)).
Proof.
  intros H. unfold path_ok in H. rewrite !andb_true_iff in H. destruct H as (((_ & Hs) & _) & Hr). apply Z.leb_le in Hr.
  unfold get_ldnumber. destruct b; cbn [drive_text app].
  - by cbn.
  - pose proof (path_no_colon gs r Hs Hr) as Hc. destruct (find_colon (path_text gs r)) as [n x]. cbn [snd] in Hc.
    by rewrite (proj2 (Z.eqb_neq _ _) Hc).
Qed.

(** ** The directories of a volume *)

(** Where a path leads: a directory with start cluster [sc] and table [T], with
    the entry of the last name in it or without, or nowhere, because a name
    before the last is missing or is not a directory. *)
Inductive place := NoPath | Slot (sc : Z) (T : table) (o : option nat).

Section Theory.
Context {D : Type} `{L : DiskLaws D}.
Implicit Types (v : vol D) (f : FATFS) (T : table).

Definition is_dir (e : list Z) : bool := has (getb e DIR_Attr) AM_DIR.

(** From the directory [sc], the names lead through the tables [Ts] to a
    place. *)
Inductive walk v : Z -> list (list Z) -> list table -> place -> Prop :=
  | walk_last sc n T : table_ok v sc T -> walk v sc [n] [] (Slot sc T (find_entry n (entries v T)))
  | walk_down sc n n' ns T k e Ts p :
      table_ok v sc T -> find_entry n (entries v T) = Some k -> entries v T !! k = Some e -> is_dir e = true ->
      walk v (ld_clust (fs v) e 0) (n' :: ns) Ts p -> walk v sc (n :: n' :: ns) (T :: Ts) p
  | walk_missing sc n n' ns T : table_ok v sc T -> find_entry n (entries v T) = None -> walk v sc (n :: n' :: ns) [T] NoPath
  | walk_not_dir sc n n' ns T k e : table_ok v sc T -> find_entry n (entries v T) = Some k -> entries v T !! k = Some e ->
      is_dir e = false -> walk v sc (n :: n' :: ns) [T] NoPath.

Lemma find_entry_take n x es : length n = 11%nat -> find_entry (n ++ x) es = find_entry n es.
Proof.
  intros Hn. induction es as [|e es IH]; [done|]. cbn [find_entry]. rewrite IH. unfold names.
  by rewrite take_app_le by lia.
Qed.

Lemma find_entry_lookup n es k : find_entry n es = Some k -> exists e, es !! k = Some e /\ names n e = true /\ getb e DIR_Name <> 0.
Proof.
  revert k. induction es as [|e es IH]; intros k; [done|]. cbn [find_entry].
  destruct (Z.eqb_spec (getb e DIR_Name) 0) as [|H0]; [done|]. destruct (names n e) eqn:En; [intros [= <-]; by exists e|].
  destruct (find_entry n es) as [j|]; [|done]. intros [= <-]. destruct (IH j eq_refl) as (e' & ? & ? & ?). by exists e'.
Qed.

(** The start cluster in an entry is read from the window. *)
Lemma entry_clust v T k : wf v ->
  ld_clust (fs v) (lsec v (tbl_sector (fs v) T k)) (k mod 16 * 32) = ld_clust (fs v) (entry v T k) 0.
Proof.
  intros W. unfold ld_clust, LD_WORD. change (DIR_FstClusLO) with 26. change DIR_FstClusHI with 20.
  rewrite !entry_getb by (done || lia). by rewrite !Z.add_assoc, !Z.add_0_r.
Qed.

Lemma ld_clust_type f f' w off : fs_type f' = fs_type f -> ld_clust f' w off = ld_clust f w off.
Proof. unfold ld_clust. by intros ->. Qed.

(** What [follow_path] reports for a path that ends with the name [n]. *)
Definition reached v (n : list Z) (p : place) (r : FRESULT * DIR) v' : Prop :=
  wf v' /\ same_view v v' /\ same_alloc (fs v) (fs v') /\
  match p with
  | NoPath => fst r = FR_NO_PATH
  | Slot sc T o => sclust (snd r) = sc /\ (exists x, fn (snd r) = n ++ [x] /\ is_byte x) /\
      match o with
      | Some k => fst r = FR_OK /\ positioned (fs v) T (snd r) (Z.of_nat k) /\
                  at_sector v' (tbl_sector (fs v) T (Z.of_nat k)) /\ win (fs v') = lsec v (tbl_sector (fs v) T (Z.of_nat k))
      | None => fst r = FR_NO_FILE
      end
  end.

Lemma entries_view v v' sc T : same_view v v' -> table_ok v sc T -> entries v' T = entries v T.
Proof.
  intros V TO. unfold entries. destruct (geo_tbl _ _ T (proj1 V)) as (_ & _ & ->). apply list_fmap_ext. intros i x Hx.
  apply lookup_seqZ in Hx as [-> Hx]. apply (entry_view v v' sc); [done|done|lia].
Qed.

(** One name of a path. *)
Lemma walk_step v sc n ns Ts p : walk v sc (n :: ns) Ts p -> exists T, table_ok v sc T /\
  match ns, find_entry n (entries v T) with
  | [], o => p = Slot sc T o
  | _, None => p = NoPath
  | _, Some k => if is_dir (entry v T (Z.of_nat k))
                 then exists Ts', walk v (ld_clust (fs v) (entry v T (Z.of_nat k)) 0) ns Ts' p else p = NoPath
  end.
Proof.
  intros Wk. inversion Wk as [? ? T TO|? ? ? ? T k e Ts' ? TO E1 E2 E3 Wk'|? ? ? ? T TO E1|? ? ? ? T k e TO E1 E2 E3]; subst;
    exists T; (split; [done|]); [done|..]; rewrite E1; try done;
    rewrite entries_lookup in E2; (destruct (decide _); [|done]); injection E2 as <-; rewrite E3; by eauto.
Qed.

Lemma follow_loop v r fuel : forall gs dp Ts p v1,
  wf v -> vol_geo (fs v) -> wf v1 -> same_view v v1 -> same_alloc (fs v) (fs v1) -> length (fn dp) = 12%nat ->
  path_ok gs r = true -> walk v (sclust dp) (seg_name <$> gs) Ts p -> (length gs <= fuel)%nat ->
  wp (loop fuel follow_body (dp, path_text gs r)) (reached v (List.last (seg_name <$> gs) []) p) v1.
Proof.
  induction fuel as [|fuel IH]; intros [|g gs] dp Ts p v1 W VG W1 V1 A1 Hn Hp Wk Hf; try done; [cbn in Hf; lia|]. apply wp_loop_unfold. unfold follow_body at 1.
  destruct (create_name_seg (fn dp) g gs r Hn Hp) as (fl & -> & Hfl & Bfl). change (is_ok FR_OK) with true. cbn [negb].
  assert (seg_ok g = true) as Hg by (unfold path_ok in Hp; cbn in Hp; rewrite !andb_true_iff in Hp; tauto).
  pose proof (length_seg_name g Hg) as Hl. pose proof (vg_fat _ VG) as FG.
  destruct (walk_step v (sclust dp) _ _ Ts p Wk) as (T & TO & HW).
  assert (table_ok v1 (sclust (set_fn (seg_name g ++ [fl]) dp)) T) as TO1 by (by apply (table_view v)).
  wp_step. eapply wp_mono.
  { apply (wp_dir_find v1 T); [done|by eapply geo_vol_geo; [apply V1|]|done|]. cbn. rewrite length_app. cbn. lia. }
  pose proof (entries_view v v1 _ T V1 TO) as Ee.
  intros [res dp2] v2 (W2 & V2 & A2 & Sd & HF). cbn [fst snd fn set_fn] in *. rewrite Ee, find_entry_take in HF by done.
  assert (same_view v v2 /\ same_alloc (fs v) (fs v2)) as [V02 A02] by (split; [by transitivity v1|by transitivity (fs v1)]).
  destruct Sd as (D1 & D2 & _). cbn in D1, D2. rewrite D2.
  assert (getb (seg_name g ++ [fl]) NSFLAG = fl) as ->.
  { unfold getb, NSFLAG. change (Z.to_nat 11) with 11%nat. rewrite app_nth2 by lia. by rewrite Hl. }
  rewrite Hfl. destruct (geo_tbl _ _ T (proj1 V1)) as (F1 & _ & _).
  destruct (find_entry (seg_name g) (entries v T)) as [k|] eqn:Ef; cbn in HF.
  2: { subst res. change (is_ok FR_NO_FILE) with false. cbn [negb]. apply wp_ret. destruct gs as [|g' gs].
       - rewrite bool_decide_true by done. cbn in HW. subst p. cbn. do 3 (split; [done|]). split; [done|]. split; [by exists fl|done].
       - rewrite bool_decide_false by done. cbn in HW. by subst p. }
  destruct HF as (-> & PO & At & Ew). rewrite F1 in At, Ew. change (is_ok FR_OK) with true. cbn [negb].
  assert (positioned (fs v) T dp2 (Z.of_nat k)) as PO' by (apply (positioned_geo (fs v1)); [symmetry; apply V1|done]).
  rewrite (proj1 (proj2 V1)) in Ew by (apply (to_sectors v _ _ TO); apply PO').
  destruct gs as [|g' gs].
  { rewrite bool_decide_true by done. apply wp_ret. cbn in HW. subst p. cbn. do 3 (split; [done|]). split; [done|]. split; [by exists fl|done]. }
  rewrite bool_decide_false by done. wp_step. apply (entry_byte_spec v v2 T dp2 (Z.of_nat k)); [done|done|done|by unfold DIR_Attr|].
  cbn [fmap list_fmap] in HW. fold (is_dir (entry v T (Z.of_nat k))).
  destruct (is_dir (entry v T (Z.of_nat k))); cbn [negb]; [destruct HW as [Ts' Wk']|apply wp_ret; by subst p].
  wp_step. apply wp_getfs, wp_ret. unfold id. destruct (path_ok_tail g g' gs r Hp) as [Hs' Hp']. rewrite path_next by done.
  rewrite Ew, (po_dir _ _ _ _ PO'). cbn [default]. rewrite (ld_clust_type (fs v)) by (apply (geo_fields _ _ (proj1 V02))). rewrite entry_clust by done.
  assert (seg_name (unsep g') = seg_name g') as En by done.
  change (List.last (seg_name <$> g :: g' :: gs) []) with (List.last (seg_name <$> unsep g' :: gs) []).
  apply (IH (unsep g' :: gs) _ Ts'); try done; [|cbn in *; lia].
  cbn. rewrite D2, length_app. cbn. lia.
Qed.

Lemma wp_follow_path v dp gs r Ts p :
  wf v -> vol_geo (fs v) -> length (fn dp) = 12%nat -> path_ok gs r = true -> walk v 0 (seg_name <$> gs) Ts p ->
  wp (follow_path dp (path_text gs r)) (reached v (List.last (seg_name <$> gs) []) p) v.
Proof.
  intros W VG Hn Hp Wk. destruct gs as [|g gs]; [done|].
  assert (seg_ok g = true) as Hg by (unfold path_ok in Hp; cbn in Hp; rewrite !andb_true_iff in Hp; tauto).
  destruct (seg_ok_elim g Hg) as (H1 & H2 & _ & H4 & _).
  assert (forall g', path_ok (g' :: gs) r = true -> seg_name g' = seg_name g -> (peek (path_text (g' :: gs) r) <? 32) = false ->
    wp (if peek (path_text (g' :: gs) r) <? 32 then let! (res, dp) := dir_sdi (set_sclust 0 dp) 0 in ret (res, set_dir None dp)
        else loop (S (length (path_text (g' :: gs) r))) follow_body (set_sclust 0 dp, path_text (g' :: gs) r))
       (reached v (List.last (seg_name <$> g :: gs) []) p) v) as K.
  { intros g' Hp' En ->. pose proof (path_length _ _ Hp'). cbn [fmap list_fmap] in Wk |- *. rewrite <- En in Wk |- *.
    apply (follow_loop v r _ (g' :: gs) (set_sclust 0 dp) Ts); try done. lia. }
  assert (forall x, (peek (body g ++ x) <? 32) = false /\ is_sep (peek (body g ++ x)) = false) as Hb.
  { intros x. destruct (body g) as [|c b]; [cbn in H4; lia|]. cbn in H2 |- *. apply andb_true_iff in H2 as [H2 _].
    destruct (legal_char c H2) as (? & ? & _). split; [apply Z.ltb_ge; lia|done]. }
  unfold follow_path. cbn [path_text]. unfold seg_text. rewrite <- app_assoc. destruct (seps g) as [|c cs] eqn:Es.
  - cbn [app]. destruct (Hb ((if dot g then 46 :: ext g else []) ++ path_text gs r)) as [Hb1 Hb2]. rewrite Hb2.
    pose proof (K g Hp eq_refl) as K'. cbn [path_text] in K'. unfold seg_text in K'. rewrite Es, <- app_assoc in K'. by apply K'.
  - cbn in H1. apply andb_true_iff in H1 as [Hc Hcs]. cbn [app peek next]. rewrite Hc.
    assert (path_ok (unsep g :: gs) r = true) as Hp'.
    { unfold path_ok in *. cbn [forallb List.tl] in *. rewrite !andb_true_iff in *. rewrite seg_ok_unsep by done. tauto. }
    pose proof (K (unsep g) Hp' eq_refl) as K'. cbn [path_text unsep seps] in K'. unfold seg_text in K'. cbn [body dot ext] in K'.
    rewrite Es, <- app_assoc in K'. cbn [List.tl] in K'. apply K'. destruct cs as [|c' cs]; [apply Hb|].
    cbn in Hcs |- *. apply andb_true_iff in Hcs as [Hc' _]. unfold is_sep in Hc'. apply Z.ltb_ge. lia.
Qed.

(** *** Paths in a changed volume *)

Lemma walk_slot v sc ns Ts p : walk v sc ns Ts p ->
  match p with
  | NoPath => True
  | Slot sc' T o => table_ok v sc' T /\ o = find_entry (List.last ns []) (entries v T)
  end.
Proof. induction 1 as [| ? ? ? ? ? ? ? ? [|? ? ?] ? ? ? ? ? IH| |]; done. Qed.

Definition relocate v (ns : list (list Z)) (p : place) : place :=
  match p with
  | NoPath => NoPath
  | Slot sc T _ => Slot sc T (find_entry (List.last ns []) (entries v T))
  end.

Definition last_table (p : place) : list table := match p with NoPath => [] | Slot _ T _ => [T] end.

(** A path leads to the same directory as long as the tables on the way keep
    their entries. *)
Lemma walk_keep v v' sc ns Ts p :
  walk v sc ns Ts p -> fs_type (fs v') = fs_type (fs v) -> (forall sc' T, T ∈ Ts ++ last_table p -> table_ok v sc' T -> table_ok v' sc' T) ->
  (forall T, T ∈ Ts -> entries v' T = entries v T) -> walk v' sc ns Ts (relocate v' ns p).
Proof.
  intros Wk Et. induction Wk as [sc n T TO|sc n n' ns T k e Ts p TO E1 E2 E3 Wk IH|sc n n' ns T TO E1|sc n n' ns T k e TO E1 E2 E3]; intros HT HE.
  - apply walk_last. apply HT; [by left|done].
  - rewrite <- (HE T) in E1, E2 by left. replace (relocate v' (n :: n' :: ns) p) with (relocate v' (n' :: ns) p) by (by destruct p).
    apply (walk_down _ _ _ _ _ _ k e); try done; [apply HT; [by left|done]|]. rewrite (ld_clust_type (fs v)) by done.
    apply IH; [intros sc' T' HT'; apply HT; by right|]. intros T' HT'. apply HE. by right.
  - rewrite <- (HE T) in E1 by left. apply walk_missing; [apply HT; [by left|done]|done].
  - rewrite <- (HE T) in E1, E2 by left. apply (walk_not_dir _ _ _ _ _ _ k e); try done. apply HT; [by left|done].
Qed.

Lemma walk_tables v sc ns Ts p T : walk v sc ns Ts p -> T ∈ Ts -> exists sc', table_ok v sc' T.
Proof.
  induction 1 as [|? ? ? ? ? ? ? ? ? TO ? ? ? ? IH| |]; intros HT; [by apply not_elem_of_nil in HT|..].
  - apply elem_of_cons in HT as [->|HT]; [by eexists|auto].
  - apply list_elem_of_singleton in HT as ->. by eexists.
  - apply list_elem_of_singleton in HT as ->. by eexists.
Qed.

Lemma walk_view v v' sc ns Ts p : wf v -> fat_geo (fs v) -> same_view v v' -> walk v sc ns Ts p -> walk v' sc ns Ts p.
Proof.
  intros W FG V Wk. assert (relocate v' ns p = p) as E.
  { pose proof (walk_slot _ _ _ _ _ Wk) as H'. destruct p as [|sc' T o]; [done|]. destruct H' as [TO ->]. cbn. by rewrite (entries_view v v' sc'). }
  rewrite <- E. apply (walk_keep v); [done|apply (geo_fields _ _ (proj1 V))| |].
  - intros sc' T _. by apply table_view.
  - intros T HT. destruct (walk_tables _ _ _ _ _ _ Wk HT) as [sc' TO]. by apply (entries_view v v' sc').
Qed.

(** ** The volume of a path *)

(** The drive answers a status request with [st]. *)
Definition status (d : D) (dv st : Z) : Prop :=
  wp (disk_status dv)
     (fun st' d' => st' = st /\ (forall x, sector d' x = sector d x) /\ (forall x, ready d x -> ready d' x)) d.

Lemma status_online d dv st : status d dv st -> has st STA_NOINIT = false -> online d dv.
Proof. intros S Hi. eapply wp_mono; [exact S|]. by intros st' d' (-> & E & R). Qed.

(** The object [f] at [p] is the mounted volume of the module. *)
Record mounted (s : ff D) (p : Z) f : Prop := {
  mt_reg : FatFs0 s = p;
  mt_ptr : p <> 0;
  mt_obj : objs s !! p = Some f;
  mt_wf : wf (Build_vol f (dev s));
  mt_geo : vol_geo f
}.

Lemma mounted_after (s : ff D) p f v : mounted s p f -> wf v -> geo (fs v) = geo f ->
  mounted (Build_ff (<[p := fs v]> (objs s)) (FatFs0 s) (Fsid s) (disk v)) p (fs v).
Proof.
  intros [M1 M2 M3 M4 M5] W G. destruct v as [f' d']. constructor; cbn [FatFs0 objs dev fs disk]; try done.
  - apply lookup_insert_eq.
  - by eapply geo_vol_geo.
Qed.

Lemma wp_find_volume s p f path path' wmode st (Q : FRESULT * Z * option (list Z) -> ff D -> Prop) :
  mounted s p f -> get_ldnumber path = (0, path') -> status (dev s) (drv f) st -> has st STA_NOINIT = false ->
  (forall s', mounted s' p f -> same_view (Build_vol f (dev s)) (Build_vol f (dev s')) ->
     Q (if nz wmode && has st STA_PROTECT then FR_WRITE_PROTECTED else FR_OK, p, path') s') ->
  wp (find_volume path wmode) Q s.
Proof.
  intros MT Ep St Hi HQ. pose proof MT as [M1 M2 M3 M4 M5]. unfold find_volume. rewrite Ep. cbn [Z.ltb Z.compare]. wp_step. wp_step.
  rewrite M1. rewrite (proj2 (Z.eqb_neq p 0) M2). wp_step. apply (wp_on_fs s p f); [done|]. unfold check_mounted.
  wp_step. apply wp_getfs. unfold id. cbn [fs]. rewrite (proj2 (nz_true _) (geo_mounted f M5)).
  wp_step. apply wp_io. eapply wp_mono; [exact St|]. intros st' d' (-> & E & R). rewrite Hi. cbn [negb]. do 2 apply wp_ret.
  cbn [fs disk]. destruct (same_sectors_view f (dev s) d' M4 E R) as [W' V']. apply HQ; [|done].
  by apply (mounted_after s p f (Build_vol f d')).
Qed.

(** ** Opening a file that exists *)

Definition start_clust f (e : list Z) : Z := ld_clust f e 0.
Definition file_size (e : list Z) : Z := LD_DWORD e DIR_FileSize.

Lemma entry_size v T k : wf v ->
  LD_DWORD (lsec v (tbl_sector (fs v) T k)) (k mod 16 * 32 + DIR_FileSize) = file_size (entry v T k).
Proof.
  intros W. unfold file_size, LD_DWORD. change DIR_FileSize with 28.
  rewrite !entry_getb by (done || lia). by rewrite !Z.add_assoc.
Qed.

(** A file object for entry [k] of the table [T], at the start of the file. *)
Record handle f (p : Z) T (k : nat) (mode : Z) (e : list Z) (fp : FIL) : Prop := {
  hd_fs : f_fs fp = p;
  hd_id : f_id fp = fs_id f;
  hd_flag : flag fp = mode;
  hd_err : err fp = FR_OK;
  hd_ptr : fptr fp = 0;
  hd_size : f_fsize fp = file_size e;
  hd_clust : f_sclust fp = start_clust f e;
  hd_sect : dir_sect fp = tbl_sector f T (Z.of_nat k);
  hd_off : dir_ptr fp = Z.of_nat k mod 16 * 32
}.

Lemma handle_geo f f' p T k mode e fp : geo f' = geo f -> handle f p T k mode e fp -> handle f' p T k mode e fp.
Proof.
  intros G [H1 H2 H3 H4 H5 H6 H7 H8 H9]. destruct (geo_tbl _ _ T G) as (F1 & _ & _). destruct (geo_fields _ _ G) as (Et & _).
  constructor; try done; [unfold geo in G; congruence| |by rewrite F1]. rewrite H7. symmetry. by apply ld_clust_type.
Qed.

(** What opening a file without creating it reports. *)
Definition open_result (e : list Z) (mode : Z) : FRESULT :=
  if is_dir e then FR_NO_FILE
  else if has mode FA_WRITE && has (getb e DIR_Attr) AM_RDO then FR_DENIED else FR_OK.

Definition open_post v (pa : Z) (mode : Z) (fp : FIL) (p : place) (r : FRESULT * FIL) v' : Prop :=
  wf v' /\ same_view v v' /\ same_alloc (fs v) (fs v') /\
  match p with
  | NoPath => r = (FR_NO_PATH, fp)
  | Slot _ _ None => r = (FR_NO_FILE, fp)
  | Slot _ T (Some k) =>
      let e := entry v T (Z.of_nat k) in
      fst r = open_result e mode /\
      (if is_ok (open_result e mode) then handle (fs v) pa T k mode e (snd r) else snd r = fp)
  end.

(** The last fields of a file object are read from the window. *)
Lemma handle_win v v' pa T k fl fp :
  wf v -> same_view v v' -> at_sector v' (tbl_sector (fs v) T (Z.of_nat k)) -> win (fs v') = lsec v (tbl_sector (fs v) T (Z.of_nat k)) ->
  let off := Z.of_nat k mod 16 * 32 in
  handle (fs v) pa T k fl (entry v T (Z.of_nat k))
    {| f_fs := pa; f_id := fs_id (fs v'); flag := fl; err := FR_OK; fptr := 0;
       f_fsize := LD_DWORD (win (fs v')) (off + DIR_FileSize); f_sclust := ld_clust (fs v') (win (fs v')) off;
       f_clust := f_clust fp; dsect := 0; dir_sect := winsect (fs v'); dir_ptr := off |}.
Proof.
  intros W V At Ew off. destruct (geo_fields _ _ (proj1 V)) as (Et & _). constructor; cbn; try done.
  - destruct V as [G _]. unfold geo in G. congruence.
  - rewrite Ew. by apply entry_size.
  - rewrite Ew, (ld_clust_type (fs v)) by done. by apply entry_clust.
  - apply At.
Qed.

Lemma wp_open_existing v pa gs r Ts p mode fp :
  wf v -> vol_geo (fs v) -> path_ok gs r = true -> walk v 0 (seg_name <$> gs) Ts p -> has mode FA_CREATE = false ->
  wp (open_file pa (path_text gs r) mode fp) (open_post v pa mode fp p) v.
Proof.
  intros W VG Hp Wk Hm. unfold open_file. wp_step. eapply wp_mono; [by apply (wp_follow_path v (new_dir pa) gs r Ts p)|].
  assert (has mode FA_CREATE_ALWAYS = false) as Hca.
  { unfold has in *. apply nz_false in Hm. apply nz_false. rewrite <- (Z.land_0_l FA_CREATE_ALWAYS), <- Hm, <- Z.land_assoc. done. }
  intros [res dj] v1 (W1 & V1 & A1 & HR). cbn [fst snd] in HR. unfold open_post. rewrite Hm.
  destruct p as [|sc T o].
  { subst res. change (is_ok FR_NO_PATH) with false. cbn [andb]. unfold open_existing. change (is_ok FR_NO_PATH) with false. wp_step.
    apply wp_ret. change (is_ok FR_NO_PATH) with false. by apply wp_ret. }
  destruct HR as (_ & _ & HR). destruct o as [k|].
  2: { subst res. change (is_ok FR_NO_FILE) with false. cbn [andb]. unfold open_existing. change (is_ok FR_NO_FILE) with false. wp_step.
       apply wp_ret. change (is_ok FR_NO_FILE) with false. by apply wp_ret. }
  destruct HR as (-> & PO & At & Ew). rewrite (po_dir _ _ _ _ PO). change (is_ok FR_OK) with true. cbn [andb].
  unfold open_existing. rewrite (po_dir _ _ _ _ PO). change (is_ok FR_OK) with true. cbn [default]. wp_step. wp_step. unfold win_byte. wp_step. apply wp_getfs, wp_ret.
  rewrite Ew, <- entry_getb by (done || by unfold DIR_Attr). apply wp_ret. fold (is_dir (entry v T (Z.of_nat k))).
  fold (open_result (entry v T (Z.of_nat k)) mode).
  destruct (open_result (entry v T (Z.of_nat k)) mode) eqn:Er; change (is_ok FR_OK) with true; cbn [is_ok];
    try (apply wp_ret; by cbn).
  rewrite Hca. wp_step. apply wp_getfs, wp_ret. do 3 (split; [done|]). split; [done|]. by apply (handle_win v v1).
Qed.

(** *** The function *)

(** The bits of the mode that [f_open] looks at. *)
Definition mode_bits (mode : Z) : Z := Z.land mode (Z.lor (Z.lor FA_READ FA_WRITE) FA_CREATE).
Definition for_writing (mode : Z) : bool := has (mode_bits mode) (Z.lor FA_WRITE FA_CREATE).

Lemma mode_facts (P : Z -> bool) : forallb P (seqZ 0 32) = true -> forall mode, P (mode_bits mode) = true.
Proof.
  intros H' mode. unfold mode_bits. change (Z.lor (Z.lor FA_READ FA_WRITE) FA_CREATE) with (2 ^ 5 - 1). rewrite land_mask by lia.
  rewrite forallb_forall in H'. apply H', list_elem_of_In, elem_of_seqZ. pose proof (Z.mod_pos_bound mode (2 ^ 5)). lia.
Qed.

Lemma mode_write mode : nz (u8 (Z.land (mode_bits mode) (Z.lnot FA_READ))) = for_writing mode.
Proof.
  apply eqb_prop. apply (mode_facts (fun m => eqb (nz (u8 (Z.land m (Z.lnot FA_READ)))) (has m (Z.lor FA_WRITE FA_CREATE)))). done.
Qed.

Lemma mode_has mode x : Z.land (Z.lor (Z.lor FA_READ FA_WRITE) FA_CREATE) x = x -> has (mode_bits mode) x = has mode x.
Proof. intros E. unfold has, mode_bits. by rewrite <- Z.land_assoc, E. Qed.

(** [f_open] finds the volume and runs on it. *)
Lemma wp_f_open s p f b gs r mode st fp (Q : FRESULT * FIL -> ff D -> Prop) :
  mounted s p f -> status (dev s) (drv f) st -> has st STA_NOINIT = false -> path_ok gs r = true ->
  (for_writing mode && has st STA_PROTECT = true -> forall s', mounted s' p f ->
     same_view (Build_vol f (dev s)) (Build_vol f (dev s')) -> Q (FR_WRITE_PROTECTED, set_f_fs 0 fp) s') ->
  (for_writing mode && has st STA_PROTECT = false -> forall s', mounted s' p f ->
     same_view (Build_vol f (dev s)) (Build_vol f (dev s')) ->
     wp (open_file p (path_text gs r) (mode_bits mode) (set_f_fs 0 fp))
        (fun a v => Q a (Build_ff (<[p := fs v]> (objs s')) (FatFs0 s') (Fsid s') (disk v))) (Build_vol f (dev s'))) ->
  wp (f_open fp (Some (drive_text b ++ path_text gs r)) mode) Q s.
Proof.
  intros MT St Hi Hp HQ1 HQ2. unfold f_open. wp_step. fold (mode_bits mode).
  eapply (wp_find_volume s p f); [done|by apply path_drive|done|done|]. intros s' MT' V'.
  rewrite mode_write. destruct (for_writing mode && has st STA_PROTECT) eqn:Ew.
  - change (is_ok FR_WRITE_PROTECTED) with false. apply wp_ret. by apply HQ1.
  - change (is_ok FR_OK) with true. cbv iota. apply (wp_on_fs s' p f); [apply MT'|]. cbn [default]. by apply HQ2.
Qed.

(** The file that an entry describes lies on the clusters [cl]. *)
Definition entry_file v (e : list Z) (cl : list Z) : Prop :=
  (cl = [] /\ start_clust (fs v) e = 0 \/ cl <> [] /\ chain v (start_clust (fs v) e) cl) /\
  file_size e <= chain_sectors (fs v) cl * SS.

Lemma file_size_range e : 0 <= file_size e < 2 ^ 32.
Proof. apply (LD_DWORD_range e DIR_FileSize). Qed.

Lemma handle_wfile v v' p T k mode e fp cl :
  vol_ok v -> same_view v v' -> handle (fs v) p T k mode e fp -> entry_file v e cl -> wfile v' fp cl /\ at_ptr (fs v') fp cl.
Proof.
  intros VK V [H1 H2 H3 H4 H5 H6 H7 H8 H9] [Hc Hs]. pose proof (file_size_range e) as Hr.
  split.
  - apply (wfile_view v); [done|done|]. constructor; rewrite ?H5, ?H6, ?H7; [done|lia|]. unfold file_size in *. lia.
  - split; rewrite H5; [lia|]. by rewrite Z.mod_0_l.
Qed.

Lemma handle_file_ok v p T k mode e fp cl :
  vol_ok v -> handle (fs v) p T k mode e fp -> entry_file v e cl -> file_ok v fp cl.
Proof.
  intros VK Hd He. destruct (handle_wfile _ _ _ _ _ _ _ _ _ VK (reflexivity v) Hd He) as [WF AT].
  pose proof Hd as [H1 H2 H3 H4 H5 H6 H7 H8 H9]. pose proof (file_size_range e) as Hr. apply wfile_file_ok; [done..|]. rewrite H5, H6. lia.
Qed.

Lemma handle_opened v (s : ff D) p f T k mode e fp cl :
  vol_ok v -> mounted s p f -> same_view v (Build_vol f (dev s)) ->
  handle (fs v) p T k mode e fp -> entry_file v e cl -> opened s fp f cl.
Proof.
  intros VK [M1 M2 M3 M4 M5] V Hd He. pose proof Hd as [H1 H2 H3 H4 H5 H6 H7 H8 H9].
  constructor; rewrite ?H1, ?H2; try done; [destruct V as [G _]; unfold geo in G; cbn in G; congruence|].
  apply (file_ok_view v); [apply VK|apply VK|done|by eapply handle_file_ok].
Qed.

(** What opening reports for a place, without creating files. *)
Definition place_result v (st mode : Z) (pl : place) : FRESULT :=
  if for_writing mode && has st STA_PROTECT then FR_WRITE_PROTECTED
  else match pl with
       | NoPath => FR_NO_PATH
       | Slot _ _ None => FR_NO_FILE
       | Slot _ T (Some k) => open_result (entry v T (Z.of_nat k)) mode
       end.

(** The entry of a place, when there is one. *)
Definition place_entry v (pl : place) : list Z :=
  match pl with Slot _ T (Some k) => entry v T (Z.of_nat k) | _ => [] end.

Lemma open_result_bits e mode : open_result e (mode_bits mode) = open_result e mode.
Proof. unfold open_result. by rewrite mode_has. Qed.

(** [f_open] of a path reports what the directories say, and an open file
    object describes the entry. *)
Lemma wp_f_open_existing s p f b gs r Ts pl mode st fp (Q : FRESULT * FIL -> ff D -> Prop) :
  let v := Build_vol f (dev s) in
  mounted s p f -> status (dev s) (drv f) st -> has st STA_NOINIT = false -> path_ok gs r = true ->
  walk v 0 (seg_name <$> gs) Ts pl -> has mode FA_CREATE = false ->
  (forall fp' s' f', mounted s' p f' -> same_view v (Build_vol f' (dev s')) -> same_alloc f f' ->
     (if is_ok (place_result v st mode pl)
      then exists sc T k, pl = Slot sc T (Some k) /\ handle f p T k (mode_bits mode) (entry v T (Z.of_nat k)) fp'
      else f_fs fp' = 0) ->
     Q (place_result v st mode pl, fp') s') ->
  wp (f_open fp (Some (drive_text b ++ path_text gs r)) mode) Q s.
Proof.
  intros v MT St Hi Hp Wk Hm HQ. unfold place_result in HQ. apply (wp_f_open s p f b gs r mode st); try done; intros E s1 M1 V1; rewrite E in HQ.
  { by apply (HQ _ s1 f). }
  eapply wp_mono.
  { apply (wp_open_existing _ p gs r Ts pl); try done; [apply M1|apply M1| |by rewrite mode_has].
    apply (walk_view v); [apply MT|apply MT|done|done]. }
  intros [res fp'] v2 (W2 & V2 & A2 & HP). cbn [fst snd] in HP.
  assert (mounted (Build_ff (<[p := fs v2]> (objs s1)) (FatFs0 s1) (Fsid s1) (disk v2)) p (fs v2)) as M2 by (eapply mounted_after; [done|done|apply V2]).
  assert (same_view v (Build_vol (fs v2) (disk v2))) as V02 by (destruct v2; by etransitivity).
  destruct pl as [|sc T [k|]]; [|cbv zeta in HP|].
  - injection HP as -> ->. by apply (HQ _ _ (fs v2)).
  - destruct HP as [-> HP]. pose proof (walk_slot _ _ _ _ _ Wk) as [TO Ef].
    assert (0 <= Z.of_nat k < tbl_size (fs v) T) as Hk.
    { destruct (find_entry_lookup _ _ _ (eq_sym Ef)) as (e & He & _). rewrite entries_lookup in He. destruct (decide _); [lia|done]. }
    rewrite (entry_view v (Build_vol f (dev s1)) sc T) in HP |- * by done. rewrite open_result_bits in HP |- *.
    apply (HQ _ _ (fs v2)); try done. destruct (is_ok _); [|by subst fp'].
    exists sc, T, k. split; [done|]. exact HP.
  - injection HP as -> ->. by apply (HQ _ _ (fs v2)).
Qed.

(** A file object that is not open is refused. *)
Lemma wp_f_read_closed (s : ff D) fp btr : f_fs fp = 0 -> wp (f_read fp btr) (fun r s' => r = (FR_INVALID_OBJECT, fp, []) /\ s' = s) s.
Proof. intros E. unfold f_read, file_guard, validate. rewrite E. done. Qed.

Lemma wp_open_read s p f b gs r Ts pl mode st fp cl btr :
  let v := Build_vol f (dev s) in
  mounted s p f -> vol_ok v -> (forall d, status d (drv f) st) -> has st STA_NOINIT = false ->
  path_ok gs r = true -> walk v 0 (seg_name <$> gs) Ts pl ->
  has mode FA_CREATE = false -> has mode FA_READ = true -> 0 <= btr ->
  let res := place_result v st mode pl in
  (res = FR_OK -> entry_file v (place_entry v pl) cl) ->
  wp (let! (r1, fp1) := f_open fp (Some (drive_text b ++ path_text gs r)) mode in
      let! (r2, fp2, out) := f_read fp1 btr in ret (r1, r2, fp2, out))
    (fun '(r1, r2, fp2, out) s' =>
       r1 = res /\
       (if is_ok res
        then r2 = FR_OK /\ out = file_data v cl 0 (Z.min btr (file_size (place_entry v pl)))
        else r2 = FR_INVALID_OBJECT /\ out = []) /\
       exists f', objs s' !! p = Some f' /\ same_view v (Build_vol f' (dev s'))) s.
Proof.
  intros v MT VK St Hi Hp Wk Hm Hr Hb res He. wp_step. apply (wp_f_open_existing s p f b gs r Ts pl mode st); try done.
  intros fp1 s1 f1 M1 V1 A1 HP. fold v res in HP |- *. wp_step. destruct (is_ok res) eqn:Eo.
  - destruct HP as (sc & T & k & -> & Hd). pose proof Hd as [H1 H2 H3 H4 H5 H6 H7 H8 H9]. assert (res = FR_OK) as Er by (by destruct res).
    pose proof (handle_opened v s1 p f1 T k _ _ fp1 cl VK M1 V1 Hd (He Er)) as O.
    assert (drv f1 = drv f) as Ed by (destruct V1 as [G _]; unfold geo in G; cbn in G; congruence).
    apply (wp_f_read s1 fp1 f1 cl); try done; [apply (status_online _ _ st); [by rewrite Ed|done]|by rewrite H3, mode_has|].
    intros fp2 s2 f2 O2 V2 SF2 _ A2. apply wp_ret. split; [done|]. rewrite H5, H6, Z.sub_0_r. cbn [place_entry].
    pose proof (handle_file_ok v p T k _ _ fp1 cl VK Hd (He Er)) as FO. pose proof (fo_size _ _ _ FO) as [Hz _]. rewrite H6 in Hz.
    split; [split; [done|by apply (file_data_view v _ fp1); try done; lia]|].
    exists f2. split; [|by etransitivity]. rewrite <- H1. destruct SF2 as (_ & _ & _ & _ & <- & _). apply O2.
  - eapply wp_mono; [by apply wp_f_read_closed|]. intros r' s' [-> ->]. apply wp_ret. split; [done|]. split; [done|]. exists f1. split; [apply M1|done].
Qed.

(** Reading a file by its path: [f_open] walks the directories that the path
    names, to any depth, and opens the file that the last entry describes;
    [f_read] then returns the first bytes of its clusters, up to the size in
    the entry.  A missing directory, a missing file, a directory in place of a
    file, a read-only file opened for writing and a write-protected drive are
    reported as such and leave an object that [f_read] refuses; the volume is
    not changed. *)
Theorem f_open_read s p f b gs r Ts pl mode st fp cl btr :
  let v := Build_vol f (dev s) in
  mounted s p f -> vol_ok v -> (forall d, status d (drv f) st) -> has st STA_NOINIT = false ->
  path_ok gs r = true -> walk v 0 (seg_name <$> gs) Ts pl ->
  has mode FA_CREATE = false -> has mode FA_READ = true -> 0 <= btr ->
  let res := place_result v st mode pl in
  (res = FR_OK -> entry_file v (place_entry v pl) cl) ->
  wp (let! (r1, fp1) := f_open fp (Some (drive_text b ++ path_text gs r)) mode in
      let! (r2, fp2, out) := f_read fp1 btr in ret (r1, r2, fp2, out))
    (fun '(r1, r2, fp2, out) s' =>
       r1 = res /\
       (if is_ok res
        then r2 = FR_OK /\ out = file_data v cl 0 (Z.min btr (file_size (place_entry v pl)))
        else r2 = FR_INVALID_OBJECT /\ out = []) /\
       exists f', objs s' !! p = Some f' /\ same_view v (Build_vol f' (dev s'))) s.
Proof. apply wp_open_read. Qed.
End Theory.

(** ** A volume with a directory

    FAT12 with the directory SUB in cluster 4 and in it the file F.TXT of 600
    bytes in the clusters 2 and 3. *)
Definition dir_entry (name : list Z) (attr cl size : Z) : list Z :=
  name ++ [attr] ++ replicate 14 0 ++ [cl mod 256; cl / 256] ++ [size mod 256; size / 256; 0; 0].
Definition tree_fat : list Z := [0xF8; 0xFF; 0xFF; 0x03; 0xF0; 0xFF; 0xFF; 0x0F; 0x00].
Definition tree_disk : ramdisk :=
  {| blocks := list_to_map [(1, tree_fat); (2, tree_fat); (3, dir_entry (string_bytes "SUB        "%string) AM_DIR 4 0); (4, seqZ 1 250 ++ seqZ 0 250);
                            (5, seqZ 100 100); (6, dir_entry (string_bytes "F       TXT"%string) AM_ARC 2 600)]; nblocks := 12 |}.
Definition tree_vol : vol ramdisk := {| fs := demo_fs; disk := tree_disk |}.
Definition tree_ff : ff ramdisk := {| objs := {[ 1 := demo_fs ]}; FatFs0 := 1; Fsid := 1; dev := tree_disk |}.

Lemma tree_wf : wf tree_vol.
Proof. constructor; cbn -[replicate]; try done; try lia. by apply Forall_replicate. Qed.

Lemma tree_vol_ok : vol_ok tree_vol.
Proof.
  constructor; [exact tree_wf|exact demo_vol_geo| |done|done|].
  - intros c Hc. assert (2 <= c < 10) as Hc' by exact Hc.
    assert ((c <? 2) || negb (fat_entry tree_vol c =? 1) = true) as E.
    { apply (forall_range 10 (fun c => (c <? 2) || negb (fat_entry tree_vol c =? 1))); [by vm_compute|lia]. }
    rewrite (proj2 (Z.ltb_ge c 2)) in E by lia. cbn [orb] in E. apply negb_true_iff in E. by apply Z.eqb_neq in E.
  - intros s Hs. assert (4 <= s < 12) as Hs' by exact Hs. change (0 <= s < 12). lia.
Qed.

Lemma tree_mounted : mounted tree_ff 1 demo_fs.
Proof. constructor; try done; [exact tree_wf|exact demo_vol_geo]. Qed.

Lemma tree_root : table_ok tree_vol 0 Static.
Proof.
  constructor; cbn; [done|lia|]. intros i Hi. assert (i / 16 = 0) as -> by (apply Z.div_small; lia). unfold mirror, in_fat. cbn. lia.
Qed.

Lemma tree_chain : chain tree_vol 2 [2; 3] /\ chain tree_vol 4 [4].
Proof.
  split.
  - constructor; [done|by vm_compute|]. replace (fat_entry tree_vol 2) with 3 by (by vm_compute).
    constructor; [done|by vm_compute|]. constructor. by vm_compute.
  - constructor; [done|by vm_compute|]. constructor. by vm_compute.
Qed.

Lemma tree_sub : table_ok tree_vol 4 (Chained [4]).
Proof.
  constructor; [split; [done|]; split; [done|]; split; [done|]; apply tree_chain|by cbn|].
  intros i Hi. change (0 <= i < 16) in Hi. assert (tbl_sector (fs tree_vol) (Chained [4]) i = 6) as ->.
  { cbn [tbl_sector tbl_clust]. change (per_clust (fs tree_vol)) with 16. by rewrite (Z.div_small i 16) by lia. }
  unfold mirror, in_fat. cbn. lia.
Qed.

Definition sub_seg : segment := Segment [47] (string_bytes "Sub"%string) [] false.
Definition f_seg : segment := Segment [92; 47] (string_bytes "f"%string) (string_bytes "txt"%string) true.

Lemma tree_walk : walk tree_vol 0 (seg_name <$> [sub_seg; f_seg]) [Static] (Slot 4 (Chained [4]) (Some 0%nat)).
Proof.
  apply (walk_down _ _ _ _ _ _ 0 (entry tree_vol Static 0)); [exact tree_root|by vm_compute|by vm_compute|by vm_compute|].
  replace (ld_clust (fs tree_vol) (entry tree_vol Static 0) 0) with 4 by (by vm_compute).
  replace (Some 0%nat) with (find_entry (seg_name f_seg) (entries tree_vol (Chained [4]))) by (by vm_compute).
  apply walk_last. exact tree_sub.
Qed.

Definition tree_place : place := Slot 4 (Chained [4]) (Some 0%nat).

Lemma f_open_read_witness :
  wp (let! (r1, fp1) := f_open (text_file 0) (Some (drive_text true ++ path_text [sub_seg; f_seg] [])) FA_READ in
      let! (r2, fp2, out) := f_read fp1 1000 in ret (r1, r2, fp2, out))
    (fun '(r1, r2, fp2, out) s' =>
       r1 = FR_OK /\ (r2 = FR_OK /\ out = file_data tree_vol [2; 3] 0 600) /\
       exists f', objs s' !! 1 = Some f' /\ same_view tree_vol (Build_vol f' (dev s'))) tree_ff.
Proof.
  pose proof (f_open_read tree_ff 1 demo_fs true [sub_seg; f_seg] [] [Static] tree_place FA_READ 0 (text_file 0) [2; 3] 1000
    tree_mounted tree_vol_ok (fun d => conj eq_refl (conj (fun _ => eq_refl) (fun _ R => R))) eq_refl eq_refl tree_walk eq_refl eq_refl) as K.
  change (Build_vol demo_fs (dev tree_ff)) with tree_vol in K. cbv zeta in K.
  replace (place_result tree_vol 0 FA_READ tree_place) with FR_OK in K by (by vm_compute).
  replace (file_size (place_entry tree_vol tree_place)) with 600 in K by (by vm_compute). apply K; [lia|].
  intros _. split; [right; split; [done|apply tree_chain]|by vm_compute].
Defined.
