(* ===== verification/FatLife.v ===== *)
(** * FatFs: the life of a file

    Theory of creating, writing, closing, reopening and removing files by
    their paths ([f_open], [f_write], [f_close], [f_read], [f_unlink]). *)

From S2P Require Import Prelude FatBase FatAccess FatName FatDir FatVolume FatFile FatWrite FatSync FatApi FatSession FatPath.

Section Theory.
Context {D : Type} `{L : DiskLaws D}.
Implicit Types (v : vol D) (f : FATFS) (T : table).

(** ** Changing one entry *)

Lemma take_getb (l l' : list Z) n : length l = length l' -> (forall j, 0 <= j < Z.of_nat n -> getb l j = getb l' j) -> take n l = take n l'.
Proof.
  intros Hl Hj. apply list_eq. intros i. destruct (decide (i < n)%nat) as [Hi|Hi].
  2: { rewrite !lookup_ge_None_2; [done|rewrite length_take; lia..]. }
  rewrite !lookup_take_lt by done. destruct (decide (i < length l)%nat) as [Hi'|Hi'].
  2: { rewrite !lookup_ge_None_2; [done|lia..]. }
  destruct (lookup_lt_is_Some_2 l i Hi') as [x Hx]. destruct (lookup_lt_is_Some_2 l' i ltac:(lia)) as [y Hy].
  specialize (Hj (Z.of_nat i) ltac:(lia)). rewrite (lookup_getb _ _ _ Hx), (lookup_getb _ _ _ Hy) in Hj. by rewrite Hx, Hy, Hj.
Qed.

(** A change of the window inside the 32 bytes of an entry. *)
Lemma window_change (w w' : list Z) (off : nat) :
  length w = 512%nat -> length w' = 512%nat -> (off + 32 <= 512)%nat ->
  (forall j, 0 <= j -> j < Z.of_nat off \/ Z.of_nat off + 32 <= j -> getb w' j = getb w j) -> w' = splice w off (slice w' off 32).
Proof.
  intros Hl Hl' Ho Hj. apply list_eq. intros i. destruct (decide (i < 512)%nat) as [Hi|Hi].
  2: { rewrite !lookup_ge_None_2; [done|rewrite length_splice; rewrite ?length_slice; lia|lia]. }
  assert (forall l : list Z, length l = 512%nat -> l !! i = Some (getb l (Z.of_nat i))) as Hg.
  { intros l E. destruct (lookup_lt_is_Some_2 l i ltac:(lia)) as [x Hx]. by rewrite (lookup_getb _ _ _ Hx). }
  rewrite !Hg by (done || (rewrite length_splice; rewrite ?length_slice; lia)). f_equal.
  assert (length (slice w' off 32) = 32%nat) as Ls by (rewrite length_slice, Hl'; lia). rewrite getb_splice by (rewrite ?Ls; lia). unfold zlen. rewrite Ls. change (Z.of_nat 32) with 32.
  destruct (Z.leb_spec (Z.of_nat off) (Z.of_nat i)), (Z.ltb_spec (Z.of_nat i) (Z.of_nat off + 32)); cbn [andb]; try (apply Hj; lia).
  rewrite getb_slice by lia. f_equal. lia.
Qed.

Lemma entry_upd_trans v v1 v2 T k e e' : 0 <= k -> entry_upd v v1 T k e -> entry_upd v1 v2 T k e' -> entry_upd v v2 T k e'.
Proof.
  intros Hk [A1 A2 A3 A4 A5 A6] [B1 B2 B3 B4 B5 B6]. destruct (geo_tbl _ _ T A2) as (F1 & _ & _). constructor; auto; [congruence|by transitivity (fs v1)| |].
  - intros s Hm Hs. rewrite B5, A5; try done; [by rewrite (geo_mirror _ _ _ A2)|by rewrite F1].
  - by rewrite B6, A6, list_insert_insert_eq.
Qed.

Lemma poke_change v sc T k (g : list Z -> list Z) :
  wf v -> vol_geo (fs v) -> table_ok v sc T -> 0 <= k < tbl_size (fs v) T -> at_sector v (tbl_sector (fs v) T k) ->
  let w := lsec v (tbl_sector (fs v) T k) in let off := k mod 16 * 32 in
  length (g w) = 512%nat -> Forall is_byte (g w) ->
  (forall j, 0 <= j -> j < off \/ off + 32 <= j -> getb (g w) j = getb w j) ->
  entry_upd v (poke g v) T k (slice (g w) (Z.to_nat off) 32) /\ at_sector (poke g v) (tbl_sector (fs v) T k).
Proof.
  intros W VG TO Hk At w off Hl Hb Hj. pose proof (Z.mod_pos_bound k 16 ltac:(lia)) as Bk. pose proof (as_win _ _ At) as Ew. fold w in Ew.
  assert (poke g v = poke (fun x => splice x (Z.to_nat off) (slice (g w) (Z.to_nat off) 32)) v) as ->.
  { unfold poke. rewrite Ew. by rewrite <- (window_change w (g w)) by (apply lsec_length, W || done || (unfold off; lia) || (intros; apply Hj; lia)). }
  assert (length (slice (g w) (Z.to_nat off) 32) = 32%nat) as Ls by (rewrite length_slice; unfold off; lia).
  split; [apply (poke_entry v sc); try done; by apply Forall_take, Forall_drop|].
  set (v' := poke _ v). destruct At as [T1 T2 T3 T4 T5]. pose proof (lsec_dirty v') as Ld. constructor; try done. rewrite <- T1. symmetry. by apply Ld.
Qed.

(** ** Creating a file *)

(** The bytes that [f_open] stores in the entry of a new or overwritten file. *)
Definition reset_entry (off : Z) (w : list Z) : list Z :=
  st_clust off 0 (ST_DWORD (off + DIR_FileSize) 0 (setb (ST_DWORD (off + DIR_CrtTime) GET_FATTIME w) (off + DIR_Attr) 0)).

Lemma reset_entry_shape off w : length w = 512%nat -> Forall is_byte w ->
  length (reset_entry off w) = 512%nat /\ Forall is_byte (reset_entry off w).
Proof.
  intros Hl Hb. unfold reset_entry, st_clust. split.
  - by rewrite !ST_WORD_length, ST_DWORD_length, length_setb, ST_DWORD_length.
  - repeat apply ST_WORD_bytes. apply ST_DWORD_bytes. apply setb_bytes; [by apply ST_DWORD_bytes|done].
Qed.

Lemma reset_entry_getb off w j : length w = 512%nat -> 0 <= off -> off + 32 <= 512 -> 0 <= j ->
  getb (reset_entry off w) j =
    let k := j - off in
    if (k =? 11) || (k =? 20) || (k =? 21) || (k =? 26) || (k =? 27) || ((28 <=? k) && (k <? 32)) then 0
    else if (14 <=? k) && (k <? 18) then GET_FATTIME / 2 ^ (8 * (k - 14)) mod 2 ^ 8 else getb w j.
Proof.
  intros Hl H0 H1 Hj. unfold reset_entry, st_clust. entry_fields.
  assert (forall l : list Z, length l = 512%nat -> zlen l = 512) as Hz by (unfold zlen; lia).
  rewrite !ST_WORD_getb by (rewrite ?Hz; rewrite ?ST_WORD_length, ?ST_DWORD_length, ?length_setb, ?ST_DWORD_length; lia).
  rewrite ST_DWORD_getb by (rewrite ?Hz; rewrite ?length_setb, ?ST_DWORD_length; lia).
  rewrite getb_setb by (rewrite ?Hz; rewrite ?ST_DWORD_length; lia). rewrite ST_DWORD_getb by (rewrite ?Hz by done; lia).
  cbv zeta.
  assert (j < off + 11 \/ off + 32 <= j \/ exists i, (i < 21)%nat /\ j = off + 11 + Z.of_nat i) as [Hr|[Hr|(i & Hi & ->)]].
  { destruct (Z.ltb_spec j (off + 11)); [by left|]. destruct (Z.ltb_spec j (off + 32)); [|by right; left]. right. right. exists (Z.to_nat (j - off - 11)). lia. }
  - eqb_lia. cbn [orb]. rewrite (proj2 (Z.leb_gt 28 _)), (proj2 (Z.leb_gt 14 _)) by lia. done.
  - eqb_lia. cbn [orb]. rewrite (proj2 (Z.ltb_ge _ 32)), (proj2 (Z.ltb_ge _ 18)), !andb_false_r by lia. done.
  - replace (off + 11 + Z.of_nat i - off) with (11 + Z.of_nat i) by lia.
    do 21 (destruct i as [|i]; [cbn [Z.of_nat Pos.of_succ_nat Pos.succ]; eqb_lia; cbn; done|]). lia.
Qed.

(** The entry of an empty file called [n]. *)
Record empty_entry f (n e : list Z) : Prop := {
  ee_name : take 11 e = n;
  ee_attr : getb e DIR_Attr = 0;
  ee_size : file_size e = 0;
  ee_clust : start_clust f e = 0
}.

Lemma reset_empty f w off n :
  length w = 512%nat -> Forall is_byte w -> 0 <= off -> off + 32 <= 512 -> take 11 (slice w (Z.to_nat off) 32) = n ->
  empty_entry f n (slice (reset_entry off w) (Z.to_nat off) 32).
Proof.
  intros Hl Hb H0 H1 Hn. destruct (reset_entry_shape off w Hl Hb) as [Rl Rb].
  assert (forall j, 0 <= j < 32 -> getb (slice (reset_entry off w) (Z.to_nat off) 32) j = getb (reset_entry off w) (off + j)) as Hg.
  { intros j Hj. rewrite getb_slice by lia. f_equal. lia. }
  assert (forall j, 0 <= j < 32 -> j = 11 \/ j = 20 \/ j = 21 \/ 26 <= j -> getb (slice (reset_entry off w) (Z.to_nat off) 32) j = 0) as Hz.
  { intros j Hj Hc. rewrite Hg, reset_entry_getb by (done || lia). cbv zeta. replace (off + j - off) with j by lia.
    destruct Hc as [->|[->|[->|Hc]]]; [done..|]. destruct (Z.eqb_spec j 26); [subst; done|]. destruct (Z.eqb_spec j 27); [subst; done|].
    rewrite (proj2 (Z.leb_le 28 j)), (proj2 (Z.ltb_lt j 32)) by lia. by rewrite orb_true_r. }
  constructor.
  - rewrite <- Hn. apply take_getb; [rewrite !length_slice; lia|]. intros j Hj. rewrite Hg, reset_entry_getb by (done || lia). cbv zeta. eqb_lia. cbn [orb].
    rewrite (proj2 (Z.leb_gt 28 _)), (proj2 (Z.leb_gt 14 _)) by lia. cbn [andb]. rewrite getb_slice by lia. f_equal. lia.
  - apply Hz; [by unfold DIR_Attr|by left].
  - unfold file_size, LD_DWORD. entry_fields. rewrite !Hz by lia. done.
  - unfold start_clust, ld_clust, LD_WORD. entry_fields. rewrite !Hz by lia. by destruct (_ =? _).
Qed.

(** Overwriting an entry without clusters. *)
Lemma wp_overwrite_empty v off (Q : FRESULT -> vol D -> Prop) :
  length (win (fs v)) = 512%nat -> 0 <= off -> off + 32 <= 512 -> ld_clust (fs v) (win (fs v)) off = 0 ->
  Q FR_OK (poke (reset_entry off) v) -> wp (overwrite off) Q v.
Proof.
  intros Hl H0 H1 Hc HQ. unfold overwrite, set_win_byte. do 2 apply wp_upd_win_comp. wp_step. apply wp_upd_win. wp_step. apply wp_getfs.
  unfold id. cbn [fs disk]. set (w' := ST_DWORD _ 0 _).
  assert (ld_clust (set_win w' (fs v)) (win (set_win w' (fs v))) off = 0) as ->.
  { assert (forall l : list Z, length l = 512%nat -> zlen l = 512) as Hz by (unfold zlen; lia).
    assert (forall j, 18 <= j < 28 -> getb w' (off + j) = getb (win (fs v)) (off + j)) as Hg.
    { intros j Hj. unfold w'. entry_fields. rewrite ST_DWORD_getb by (rewrite ?Hz; rewrite ?length_setb, ?ST_DWORD_length; lia).
      eqb_lia. rewrite getb_setb by (rewrite ?Hz; rewrite ?ST_DWORD_length; lia). eqb_lia.
      rewrite ST_DWORD_getb by (rewrite ?Hz; lia). eqb_lia. done. }
    rewrite <- Hc. unfold ld_clust, LD_WORD. entry_fields. change (win (set_win w' (fs v))) with w'. change (fs_type (set_win w' (fs v))) with (fs_type (fs v)).
    rewrite <- !Z.add_assoc. by rewrite !Hg by lia. }
  wp_step. apply wp_upd_win. wp_step. apply wp_setfs. change (nz 0) with false. cbv iota. apply wp_ret. cbn [fs disk].
  destruct v as [[] ?]. exact HQ.
Qed.

Lemma new_entry_getb n j : (11 <= length n)%nat -> 11 <= j -> getb (new_entry n) j = 0.
Proof.
  intros Hn Hj. unfold new_entry. rewrite getb_app_r by (rewrite zlen_take; unfold zlen; lia). unfold getb. rewrite nth_lookup.
  destruct (replicate 21 0 !! _) as [x|] eqn:E; [|done]. by apply lookup_replicate in E as [-> _].
Qed.

Lemma entry_upd_entry v v' T k e : entry_upd v v' T (Z.of_nat k) e -> Z.of_nat k < tbl_size (fs v) T -> entry v' T (Z.of_nat k) = e.
Proof.
  intros U Hk. pose proof (eu_entries _ _ _ _ _ U) as E. rewrite Nat2Z.id in E. pose proof (entries_lookup v' T k) as Hl.
  rewrite E, list_lookup_insert_eq in Hl by (rewrite entries_length; lia).
  destruct (geo_tbl _ _ T (eu_geo _ _ _ _ _ U)) as (_ & _ & F3). rewrite F3, decide_True in Hl by done. by injection Hl.
Qed.

(** Overwriting the entry of a new name. *)
Lemma wp_overwrite_new v v2 sc T k nm (Q : FRESULT -> vol D -> Prop) :
  wf v -> vol_geo (fs v) -> table_ok v sc T -> 0 <= Z.of_nat k < tbl_size (fs v) T -> (11 <= length nm)%nat ->
  entry_upd v v2 T (Z.of_nat k) (new_entry nm) -> at_sector v2 (tbl_sector (fs v) T (Z.of_nat k)) ->
  (forall v3 e, entry_upd v v3 T (Z.of_nat k) e -> empty_entry (fs v) (take 11 nm) e -> at_sector v3 (tbl_sector (fs v) T (Z.of_nat k)) -> Q FR_OK v3) ->
  wp (overwrite (Z.of_nat k mod 16 * 32)) Q v2.
Proof.
  intros W VG TO Hk Hn U At HQ. pose proof (Z.mod_pos_bound (Z.of_nat k) 16 ltac:(lia)) as Bk. pose proof U as [W2 G2 R2 A2 _ _].
  destruct (geo_tbl _ _ T G2) as (F1 & _ & F3). pose proof (entry_upd_entry _ _ _ _ _ U ltac:(lia)) as Ee.
  pose proof (as_win _ _ At) as Ew. set (sk := tbl_sector (fs v) T (Z.of_nat k)) in *.
  apply wp_overwrite_empty; [apply W2|lia|lia| |].
  { rewrite Ew. unfold sk. rewrite <- F1, entry_clust, Ee by done. unfold ld_clust, LD_WORD. entry_fields. rewrite !new_entry_getb by (done || lia). by destruct (_ =? _). }
  destruct (reset_entry_shape (Z.of_nat k mod 16 * 32) (lsec v2 sk)) as [Rl Rb]; [by apply lsec_length|by apply lsec_bytes|].
  destruct (poke_change v2 sc T (Z.of_nat k) (reset_entry (Z.of_nat k mod 16 * 32))) as [U3 At3]; try (rewrite F1; done); try done.
  - by eapply geo_vol_geo.
  - by eapply (entry_upd_table v v2 T); [done|apply VG|..].
  - by rewrite F3.
  - intros j Hj Ho. rewrite reset_entry_getb by (rewrite ?lsec_length by done; lia || done). cbv zeta. eqb_lia. cbn [orb].
    destruct Ho as [Ho|Ho].
    + rewrite (proj2 (Z.leb_gt 28 _)), (proj2 (Z.leb_gt 14 _)) by lia. done.
    + rewrite (proj2 (Z.ltb_ge _ 32)), (proj2 (Z.ltb_ge _ 18)), !andb_false_r by lia. done.
  - rewrite F1 in U3, At3. eapply HQ; [by eapply entry_upd_trans; [lia|..]| |done]. apply reset_empty; [by apply lsec_length|by apply lsec_bytes|lia|lia|].
    unfold sk. rewrite <- F1. fold (entry v2 T (Z.of_nat k)). rewrite Ee. unfold new_entry. by rewrite take_app_le, take_take by (rewrite length_take; lia).
Qed.

Lemma seg_name_bytes g : seg_ok g = true -> Forall is_byte (seg_name g) /\ getb (seg_name g) 0 <> 0 /\ getb (seg_name g) 0 <> DDEM.
Proof.
  intros Hg. destruct (seg_ok_elim g Hg) as (_ & H2 & H3 & H4 & H5 & _).
  assert (forall n l, forallb legal l = true -> Forall is_byte (padded n l)) as Hp.
  { intros n l Hl. apply Forall_app. split; [|by apply Forall_replicate]. apply Forall_fmap, Forall_forall. intros c Hc.
    rewrite forallb_forall in Hl. destruct (legal_char c) as (? & _ & _); [by apply Hl, list_elem_of_In|].
    cbn. unfold is_byte, upcase, IsLower. destruct ((97 <=? c) && (c <=? 122)) eqn:E; lia. }
  split; [apply Forall_app; split; by apply Hp|]. unfold seg_name, dir_form, padded. destruct (body g) as [|c l]; [cbn in H4; lia|].
  cbn in H2. apply andb_true_iff in H2 as [H2 _]. destruct (legal_char c H2) as (? & _ & _).
  change (upcase c <> 0 /\ upcase c <> DDEM). unfold upcase, IsLower, DDEM. destruct ((97 <=? c) && (c <=? 122)) eqn:E; lia.
Qed.

Lemma last_name gs r : path_ok gs r = true -> exists g, seg_ok g = true /\ List.last (seg_name <$> gs) [] = seg_name g.
Proof.
  unfold path_ok. rewrite !andb_true_iff. intros (((Hn & Hs) & _) & _). induction gs as [|g gs IH]; [done|].
  cbn [forallb] in Hs. apply andb_true_iff in Hs as [Hg Hs]. destruct gs as [|g' gs]; [by exists g|]. apply IH; [done|done].
Qed.

(** The mode of a file object after creation. *)
Definition created_mode (mode : Z) : Z := Z.lor (Z.lor mode FA_CREATE_ALWAYS) FA__WRITTEN.

(** [f_open] of a name that is not there, on the volume. *)
Lemma wp_open_new v pa gs r Ts sc T k mode fp (Q : FRESULT * FIL -> vol D -> Prop) :
  wf v -> vol_geo (fs v) -> path_ok gs r = true -> walk v 0 (seg_name <$> gs) Ts (Slot sc T None) ->
  first_free (entries v T) = Some k -> has mode FA_CREATE = true ->
  (forall v' e fp', entry_upd v v' T (Z.of_nat k) e -> empty_entry (fs v) (List.last (seg_name <$> gs) []) e ->
     handle (fs v) pa T k (created_mode mode) e fp' -> Q (FR_OK, fp') v') ->
  wp (open_file pa (path_text gs r) mode fp) Q v.
Proof.
  intros W VG Hp Wk Hff Hm HQ. pose proof (walk_slot _ _ _ _ _ Wk) as [TO _]. destruct (last_name gs r Hp) as (g & Hg & En).
  destruct (seg_name_bytes g Hg) as (Bb & _). pose proof (length_seg_name g Hg) as Ln. rewrite En in *.
  unfold open_file. wp_step. eapply wp_mono; [by apply (wp_follow_path v (new_dir pa) gs r Ts (Slot sc T None))|]. rewrite En.
  intros [res dj] v1 (W1 & V1 & A1 & Es & (x & Ef & Bx) & HR). cbn [fst snd] in *. subst res.
  change (is_ok FR_NO_FILE) with false. cbn [andb]. rewrite Hm. pose proof (geo_vol_geo _ _ (proj1 V1) VG) as VG1.
  assert (table_ok v1 (sclust dj) T) as TO1 by (rewrite Es; apply (table_view v); [done|apply VG|done|done]).
  unfold open_create. change (is_ok FR_NO_FILE) with false. change (res_eq FR_NO_FILE FR_NO_FILE) with true. cbn [negb]. wp_step. wp_step. wp_step.
  apply (wp_dir_register v1 T dj k); [done|done|done|by rewrite (entries_view v v1 sc)|rewrite Ef, length_app; cbn; lia|rewrite Ef; by apply Forall_app_2; [|constructor]|].
  intros v2 dj2 U2 Sd PO At. apply wp_ret. rewrite (po_dir _ _ _ _ PO). cbn [default]. change (is_ok FR_OK) with true.
  assert (has (Z.lor mode FA_CREATE_ALWAYS) FA_CREATE_ALWAYS = true) as Hca.
  { unfold has. rewrite Z.land_lor_distr_l, Z.land_diag. apply nz_true. intros E. apply Z.lor_eq_0_iff in E as [_ E]. done. }
  rewrite Hca. cbn [andb]. wp_step. pose proof (po_range _ _ _ _ PO) as Hk.
  apply (wp_overwrite_new v1 v2 (sclust dj) T k (fn dj)); try done; [rewrite Ef, length_app; lia|].
  intros v3 e U3 Em At3. apply wp_ret. change (is_ok FR_OK) with true. cbv iota. rewrite Hca. wp_step. apply wp_getfs, wp_ret. unfold id.
  destruct (geo_tbl _ _ T (proj1 V1)) as (F1 & _ & F3). destruct (geo_fields _ _ (proj1 V1)) as (Et & _). rewrite F3 in Hk.
  assert (entry_upd v v3 T (Z.of_nat k) e) as U by (by eapply (entry_upd_view v v1)).
  rewrite Ef, take_app_le, take_ge in Em by lia. apply (HQ v3 e); [done| |].
  - destruct Em. constructor; try done. unfold start_clust in *. by rewrite (ld_clust_type (fs v1)).
  - pose proof (eu_geo _ _ _ _ _ U) as G3. destruct (geo_tbl _ _ T G3) as (F13 & _ & _). rewrite F1, <- F13 in At3.
    pose proof (handle_win v3 v3 pa T k (created_mode mode) fp (eu_wf _ _ _ _ _ U) (reflexivity v3) At3 (as_win _ _ At3)) as Hd.
    rewrite (entry_upd_entry _ _ _ _ _ U) in Hd by lia. by eapply handle_geo; [symmetry; exact G3|].
Qed.

(** ** Directories while a file is written *)

(** The areas of a volume: the FSINFO sector lies before the FATs, the static
    root directory between the FATs and the clusters. *)
Record layout f : Prop := {
  ly_info : fs_type f = FS_FAT32 -> fsinfo_sector f < fatbase f;
  ly_root : fs_type f <> FS_FAT32 -> fatbase f <= dirbase f /\ dirbase f + n_rootdir f / 16 <= database f;
  ly_data : fatbase f + n_fats f * fsize f <= database f
}.

(** A volume that was mounted has this layout. *)
Lemma areas_layout f n : areas_ok f n -> 0 <= n_fats f * fsize f -> 0 <= n_rootdir f -> (fs_type f = FS_FAT32 -> volbase f + 1 < fatbase f) -> layout f.
Proof.
  intros (A1 & A2 & A3 & A4) Hf Hr Hi. constructor; [done| |].
  - intros Ht. rewrite A3 by done. lia.
  - assert (0 <= n_rootdir f / 16) by (apply Z.div_pos; lia). lia.
Qed.

Lemma layout_geo f f' : geo f' = geo f -> layout f -> layout f'.
Proof.
  intros G [L1 L2 L3]. destruct (geo_fields _ _ G) as (E1 & E2 & E3 & E4 & E5 & E6 & E7 & E8).
  assert (n_fats f' = n_fats f /\ volbase f' = volbase f) as [E9 E10] by (unfold geo in G; split; congruence).
  constructor; unfold fsinfo_sector in *; rewrite ?E1, ?E3, ?E5, ?E6, ?E7, ?E8, ?E9, ?E10; done.
Qed.

(** The cluster of a sector of a file. *)
Lemma file_sector_clust f cl q : 0 < csize f -> (file_sector f cl q - database f) / csize f + 2 = nth (Z.to_nat (q / csize f)) cl 0.
Proof.
  intros Hc. unfold file_sector. pose proof (Z.mod_pos_bound q (csize f) Hc) as B. set (c := nth _ cl 0).
  replace ((c - 2) * csize f + database f + q mod csize f - database f) with (q mod csize f + (c - 2) * csize f) by lia.
  rewrite Z.div_add, Z.div_small by lia. lia.
Qed.

Lemma sector_clust_in f cl q : 0 < csize f -> 0 <= q < chain_sectors f cl -> (file_sector f cl q - database f) / csize f + 2 ∈ cl.
Proof.
  intros Hc Hq. rewrite file_sector_clust by done. unfold chain_sectors, zlen in Hq. apply list_elem_of_In, nth_In.
  assert (0 <= q / csize f < Z.of_nat (length cl)) by (split; [apply Z.div_pos; lia|apply Z.div_lt_upper_bound; lia]). lia.
Qed.

(** Files on different clusters have different sectors. *)
Lemma sectors_disjoint f cl cl' q q' : 0 < csize f -> (forall c, c ∈ cl -> c ∉ cl') ->
  0 <= q < chain_sectors f cl -> 0 <= q' < chain_sectors f cl' -> file_sector f cl q <> file_sector f cl' q'.
Proof.
  intros Hc Hd Hq Hq' E. apply (Hd _ (sector_clust_in f cl q Hc Hq)). rewrite E. by apply sector_clust_in.
Qed.

(** The clusters of a chain are in use. *)
Lemma chain_used v c l x : chain v c l -> x ∈ l -> 2 <= fat_entry v x.
Proof. induction 1 as [|c l Hv He Hch IH]; intros Hx; [by apply not_elem_of_nil in Hx|]. apply elem_of_cons in Hx as [->|Hx]; [done|auto]. Qed.

(** Writing a new file leaves every other chain alone. *)
Lemma written_chain v0 size off data v cl c l :
  written v0 [] size off data v cl -> chain v0 c l -> chain v c l /\ forall x, x ∈ l -> x ∉ cl.
Proof.
  intros WR Hch. assert (forall x, x ∈ l -> x ∉ cl) as Hd.
  { intros x Hx Hin. pose proof (chain_used _ _ _ _ Hch Hx). rewrite (wn_new _ _ _ _ _ _ _ WR x Hin) in H0; [lia|apply not_elem_of_nil]. }
  split; [|done]. destruct (geo_fields _ _ (wn_geo _ _ _ _ _ _ _ WR)) as (_ & _ & _ & En & _).
  revert Hd. induction Hch as [c Hc|c l Hv He Hch IH]; intros Hd; [constructor; by rewrite En|].
  assert (fat_entry v c = fat_entry v0 c) as Ec by (apply (wn_entry _ _ _ _ _ _ _ WR); [done|apply Hd; left]).
  constructor; [unfold valid_clust; by rewrite En|by rewrite Ec|]. rewrite Ec. apply IH. intros x Hx. apply Hd. by right.
Qed.

(** The sectors of a table as those of a file. *)
Lemma tbl_file_sector f cl i : vol_geo f -> 0 <= i < tbl_size f (Chained cl) ->
  tbl_sector f (Chained cl) i = file_sector f cl (i / 16) /\ 0 <= i / 16 < chain_sectors f cl.
Proof.
  intros VG Hi. cbn [tbl_size] in Hi. unfold per_clust in Hi. split.
  - cbn [tbl_sector tbl_clust]. unfold file_sector. by rewrite per_clust_div by (done || lia).
  - unfold chain_sectors. split; [apply Z.div_pos; lia|apply Z.div_lt_upper_bound; lia].
Qed.

Lemma entries_other v v' T : geo (fs v') = geo (fs v) ->
  (forall i, 0 <= i < tbl_size (fs v) T -> lsec v' (tbl_sector (fs v) T i) = lsec v (tbl_sector (fs v) T i)) -> entries v' T = entries v T.
Proof.
  intros G HS. unfold entries. destruct (geo_tbl _ _ T G) as (F1 & _ & ->). apply list_fmap_ext. intros i x Hx.
  apply lookup_seqZ in Hx as [-> Hx]. unfold entry. rewrite F1, HS; [done|lia].
Qed.

(** The sector of an entry is not one of clusters outside the table. *)
Lemma table_sector_off v sc T i cl q :
  vol_geo (fs v) -> layout (fs v) -> table_ok v sc T -> 0 <= i < tbl_size (fs v) T -> Forall (valid_clust (fs v)) cl ->
  (forall l, T = Chained l -> forall x, x ∈ l -> x ∉ cl) -> 0 <= q < chain_sectors (fs v) cl ->
  tbl_sector (fs v) T i <> file_sector (fs v) cl q.
Proof.
  intros VG [_ Lr _] TO Hi Hv Hd Hq. pose proof (csize_pos _ VG) as Hcs. destruct T as [|l].
  - destruct (to_shape _ _ _ TO) as (_ & Ht & Hm). destruct (Lr Ht) as [_ L2]. cbn [tbl_sector tbl_size] in *.
    destruct (file_sector_data _ _ _ VG Hv Hq) as [B1 _]. assert (i / 16 < n_rootdir (fs v) / 16); [|lia].
    pose proof (Z.div_mod (n_rootdir (fs v)) 16 ltac:(lia)). apply Z.div_lt_upper_bound; lia.
  - destruct (tbl_file_sector _ l i VG Hi) as [-> Hi']. apply sectors_disjoint; [lia|by apply Hd|done|done].
Qed.

Lemma table_chain v sc l : table_ok v sc (Chained l) -> exists c, chain v c l.
Proof. intros TO. destruct (to_shape _ _ _ TO) as (_ & _ & _ & Hch). by eexists. Qed.

(** Writing a new file leaves every directory alone. *)
Lemma table_written v0 size off data v cl sc T :
  vol_ok v0 -> layout (fs v0) -> written v0 [] size off data v cl -> table_ok v0 sc T ->
  table_ok v sc T /\ entries v T = entries v0 T.
Proof.
  intros VK LY WR TO. pose proof WR as [G CO _ _ _ HO _ HR]. pose proof (vk_geo _ VK) as VG.
  destruct (geo_fields _ _ G) as (E1 & E2 & E3 & E4 & E5 & E6 & E7 & E8). destruct (geo_tbl _ _ T G) as (F1 & F2 & F3).
  assert (forall l, T = Chained l -> forall x, x ∈ l -> x ∉ cl) as Hd.
  { intros l -> . destruct (table_chain _ _ _ TO) as [c Hch]. by eapply written_chain. }
  split.
  - pose proof TO as [T1 T2 T3]. constructor; [|by rewrite F3|].
    + destruct T as [|l]; rewrite ?E1, ?E3, ?E4, ?E7; [done|]. destruct T1 as (A1 & A2 & A3 & A4). do 3 (split; [done|]). by eapply written_chain.
    + intros i. rewrite F1, F3. intros Hi. destruct (T3 i Hi) as (A1 & A2 & A3 & A4). rewrite (geo_mirror _ _ _ G), (geo_in_fat _ _ _ G). auto.
  - apply entries_other; [done|]. intros i Hi. destruct (to_sectors _ _ _ TO i Hi) as (_ & A2 & A3 & _). apply HO; [done|done|].
    intros q Hq. eapply table_sector_off; try done. apply CO.
Qed.

(** ** The directory after closing *)

(** A sector of the FATs or behind them is not the FSINFO sector. *)
Lemma off_info f s : layout f -> fatbase f <= s -> fs_type f = FS_FAT32 -> s <> fsinfo_sector f.
Proof. intros [LI _ _] Hs Ht. specialize (LI Ht). lia. Qed.

Lemma table_above_fat v sc T i : wf v -> vol_geo (fs v) -> layout (fs v) -> table_ok v sc T -> 0 <= i < tbl_size (fs v) T ->
  fatbase (fs v) <= tbl_sector (fs v) T i.
Proof.
  intros W VG LY TO Hi. destruct T as [|l].
  - destruct (to_shape _ _ _ TO) as (_ & Ht & Hm). destruct (ly_root _ LY Ht) as [L1 _]. cbn [tbl_sector]. assert (0 <= i / 16) by (apply Z.div_pos; lia). lia.
  - destruct (tbl_file_sector _ l i VG Hi) as [-> Hi']. destruct (table_chain _ _ _ TO) as [c Hch]. destruct (chain_clusters _ _ _ Hch) as [CO _].
    destruct (file_sector_data _ _ _ VG CO Hi') as [B _]. pose proof (ly_data _ LY). pose proof (wf_fat v W). destruct (wf_nfats v W) as [N|N]; rewrite N in *; lia.
Qed.

(** The entry of a closed file. *)
Record closed_entry f (e e' : list Z) (fp : FIL) : Prop := {
  ce_name : take 11 e' = take 11 e;
  ce_attr : getb e' DIR_Attr = Z.lor (getb e DIR_Attr) AM_ARC;
  ce_size : file_size e' = f_fsize fp;
  ce_clust : start_clust f e' = f_sclust fp
}.

Record closed v v' T (k : nat) (e' : list Z) : Prop := {
  cd_wf : wf v';
  cd_geo : geo (fs v') = geo (fs v);
  cd_ready : forall s, ready (disk v) s -> ready (disk v') s;
  cd_other : forall s, ~ mirror (fs v) s -> fatbase (fs v) <= s -> s <> tbl_sector (fs v) T (Z.of_nat k) -> lsec v' s = lsec v s;
  cd_entries : entries v' T = <[k := e']> (entries v T)
}.

(** A change of one sector inside one entry. *)
Lemma entries_change v v' sc T (k : nat) :
  let sk := tbl_sector (fs v) T (Z.of_nat k) in let off := Z.of_nat k mod 16 * 32 in
  wf v -> wf v' -> vol_geo (fs v) -> table_ok v sc T -> geo (fs v') = geo (fs v) -> Z.of_nat k < tbl_size (fs v) T ->
  (forall i, 0 <= i < tbl_size (fs v) T -> tbl_sector (fs v) T i <> sk -> lsec v' (tbl_sector (fs v) T i) = lsec v (tbl_sector (fs v) T i)) ->
  (forall j, 0 <= j -> j < off \/ off + 32 <= j -> getb (lsec v' sk) j = getb (lsec v sk) j) ->
  entries v' T = <[k := entry v' T (Z.of_nat k)]> (entries v T).
Proof.
  intros sk off W W' VG TO G Hk HS HB. destruct (geo_tbl _ _ T G) as (F1 & _ & F3). apply list_eq. intros j. rewrite entries_lookup, F3.
  destruct (decide (j = k)) as [->|Hne].
  - rewrite list_lookup_insert_eq by (rewrite entries_length; lia). by rewrite decide_True.
  - rewrite list_lookup_insert_ne by done. rewrite entries_lookup. destruct (decide _) as [Hj|]; [|done]. f_equal. unfold entry. rewrite F1.
    destruct (Z.eq_dec (tbl_sector (fs v) T (Z.of_nat j)) sk) as [E|E]; [|rewrite HS; [done|lia|done]]. rewrite E.
    pose proof (Z.mod_pos_bound (Z.of_nat k) 16 ltac:(lia)) as Bk. pose proof (Z.mod_pos_bound (Z.of_nat j) 16 ltac:(lia)) as Bj.
    pose proof (tbl_sector_inj v sc T (Z.of_nat j) (Z.of_nat k) VG TO ltac:(lia) ltac:(lia) E) as E16.
    pose proof (Z.div_mod (Z.of_nat j) 16 ltac:(lia)). pose proof (Z.div_mod (Z.of_nat k) 16 ltac:(lia)).
    rewrite (window_change (lsec v sk) (lsec v' sk) (Z.to_nat off)) by (by apply lsec_length || (unfold off; lia) || (intros; apply HB; lia)).
    apply slice_splice_other; rewrite length_slice, !lsec_length by done; unfold off; lia.
Qed.

(** Closing a written file updates its entry and nothing else. *)
Lemma durable_closed v fp v' sc T k :
  wf v -> vol_geo (fs v) -> layout (fs v) -> table_ok v sc T -> Z.of_nat k < tbl_size (fs v) T ->
  dir_sect fp = tbl_sector (fs v) T (Z.of_nat k) -> dir_ptr fp = Z.of_nat k mod 16 * 32 -> durable v fp v' ->
  exists e', closed v v' T k e' /\ closed_entry (fs v) (entry v T (Z.of_nat k)) e' fp.
Proof.
  intros W VG LY TO Hk Es Ep [W' G Wc _ _ D1 D2 D3 D4 D5 D6]. rewrite Es, Ep in *. pose proof (Z.mod_pos_bound (Z.of_nat k) 16 ltac:(lia)) as Bk.
  assert (forall x, lsec v' x = sector (disk v') x) as El by (intros x; by apply lsec_clean). destruct (geo_tbl _ _ T G) as (F1 & _ & F3).
  destruct (geo_fields _ _ G) as (Et & _). set (sk := tbl_sector (fs v) T (Z.of_nat k)) in *.
  assert (forall s, ~ mirror (fs v) s -> fatbase (fs v) <= s -> s <> sk -> lsec v' s = lsec v s) as Ho.
  { intros s Hm Hs Hne. rewrite El. apply D6; [done| |done]. by apply off_info. }
  assert (forall j, 0 <= j < 32 -> getb (entry v' T (Z.of_nat k)) j = getb (sector (disk v') sk) (Z.of_nat k mod 16 * 32 + j)) as Hg.
  { intros j Hj. rewrite entry_getb by done. by rewrite F1, El. }
  exists (entry v' T (Z.of_nat k)). split.
  - constructor; try done. apply (entries_change v v' sc); try done.
    + intros i Hi Hne. destruct (to_sectors _ _ _ TO i Hi) as (_ & A2 & _). apply Ho; [done|by eapply table_above_fat|done].
    + intros j Hj Hr. rewrite El. apply D5; [done|]. lia.
  - constructor.
    + apply take_getb; [unfold entry; rewrite !length_slice, !lsec_length by done; lia|].
      intros j Hj. rewrite Hg, D5, entry_getb by (done || lia). done.
    + rewrite Hg, D4, entry_getb by (done || by unfold DIR_Attr). done.
    + rewrite <- D1. unfold file_size, LD_DWORD. entry_fields. rewrite !Hg by lia. by rewrite !Z.add_assoc.
    + rewrite <- D2, (ld_clust_type (fs v)) by done. unfold start_clust, ld_clust, LD_WORD. entry_fields. rewrite !Hg by lia. by rewrite !Z.add_assoc, !Z.add_0_r.
Qed.

(** ** The drive table *)

(** The functions on files leave the drive table alone. *)
Definition keeps_drive {A} (m : M (ff D) A) : Prop := forall s a s', m s = Some (a, s') -> FatFs0 s' = FatFs0 s.

Lemma drive_ret {A} (a : A) : keeps_drive (ret a).
Proof. by intros s a' s' [= _ <-]. Qed.

Lemma drive_bind {A B} (m : M (ff D) A) (k : A -> M (ff D) B) : keeps_drive m -> (forall a, keeps_drive (k a)) -> keeps_drive (bind m k).
Proof.
  intros Hm Hk s b s'. unfold bind. destruct (m s) as [[a s1]|] eqn:E; [|done]. intros E'. by rewrite (Hk a s1 b s' E'), (Hm s a s1 E).
Qed.

Lemma drive_on_fs {A} p (m : M (vol D) A) : keeps_drive (on_fs p m).
Proof. intros s a s'. unfold on_fs. destruct (objs s !! p); [|done]. destruct (m _) as [[? ?]|]; [|done]. by intros [= _ <-]. Qed.

Lemma drive_validate p i : keeps_drive (validate p i).
Proof. unfold validate. destruct (p =? 0); [apply drive_ret|apply drive_on_fs]. Qed.

Lemma drive_f_write fp buff : keeps_drive (f_write fp buff).
Proof.
  unfold f_write, file_guard. apply drive_bind; [apply drive_bind; [apply drive_validate|intros; apply drive_ret]|].
  intros [res|]; [apply drive_ret|apply drive_on_fs].
Qed.

Lemma drive_f_close fp : keeps_drive (f_close fp).
Proof.
  unfold f_close, f_sync. apply drive_bind.
  - apply drive_bind; [apply drive_validate|]. intros res. destruct (is_ok res); [apply drive_on_fs|apply drive_ret].
  - intros [res fp']. destruct (is_ok res); [|apply drive_ret]. apply drive_bind; [apply drive_validate|intros; apply drive_ret].
Qed.

Lemma wp_drive {A} (m : M (ff D) A) (Q : A -> ff D -> Prop) s :
  keeps_drive m -> wp m Q s -> wp m (fun a s' => Q a s' /\ FatFs0 s' = FatFs0 s) s.
Proof. intros Hk. unfold wp. destruct (m s) as [[a s']|] eqn:E; [|done]. intros HQ. split; [done|]. by apply (Hk s a s'). Qed.

(** ** Create, write and close *)

Lemma vol_ok_upd v v' sc T k e : vol_ok v -> table_ok v sc T -> 0 <= k < tbl_size (fs v) T -> entry_upd v v' T k e -> vol_ok v'.
Proof.
  intros VK TO Hk [U1 U2 U3 (U4 & _ & _) U5 U6]. apply (vol_ok_entries v); try done; [|rewrite U4; apply VK].
  intros c Hc. rewrite (fat_entry_off v v' c U2); [by apply (vk_sane v VK)|apply VK|apply VK|done|].
  intros s Hs. apply U5; [apply mirror_in_fat; [apply (wf_fat v), VK|done]|]. intros ->. by apply (to_sectors v sc T TO k Hk).
Qed.

Lemma first_free_lt es k : first_free es = Some k -> (k < length es)%nat.
Proof.
  revert k. induction es as [|e es IH]; intros k; [done|]. cbn. destruct (free_entry e); [intros [= <-]; lia|].
  destruct (first_free es) as [j|]; [|done]. intros [= <-]. specialize (IH j eq_refl). lia.
Qed.

Lemma wp_create s p f b gs r Ts sc T k mode st fp (Q : FRESULT * FIL -> ff D -> Prop) :
  let v := Build_vol f (dev s) in
  mounted s p f -> status (dev s) (drv f) st -> has st STA_NOINIT = false -> has st STA_PROTECT = false -> path_ok gs r = true ->
  walk v 0 (seg_name <$> gs) Ts (Slot sc T None) -> first_free (entries v T) = Some k -> has mode FA_CREATE = true ->
  (forall s' f' e fp', mounted s' p f' -> entry_upd v (Build_vol f' (dev s')) T (Z.of_nat k) e ->
     empty_entry f (List.last (seg_name <$> gs) []) e -> handle f p T k (created_mode (mode_bits mode)) e fp' -> Q (FR_OK, fp') s') ->
  wp (f_open fp (Some (drive_text b ++ path_text gs r)) mode) Q s.
Proof.
  intros v MT St Hi Hw Hp Wk Hff Hm HQ. pose proof (walk_slot _ _ _ _ _ Wk) as [TO _].
  apply (wp_f_open s p f b gs r mode st); try done; rewrite Hw, andb_false_r; [done|]. intros _ s1 M1 V1. 
  apply (wp_open_new _ p gs r Ts sc T k); [apply M1|apply M1|done| | |by rewrite mode_has|].
  - apply (walk_view v); [apply MT|apply MT|done|done].
  - by rewrite (entries_view v _ sc).
  - intros v' e fp' U Em Hd. destruct v' as [f' d']. apply (HQ _ f' e); try done.
    + apply (mounted_after s1 p f (Build_vol f' d')); [done|apply U|apply U].
    + cbn [dev]. apply (entry_upd_view v (Build_vol f (dev s1)) _ sc); try done. apply first_free_lt in Hff. rewrite entries_length in Hff. lia.
Qed.

(** [v'] is [v] with a file called [n] that holds [data] in entry [k] of [T]:
    its entry is [e] and its clusters [cl] were free.  Every other directory,
    every other entry of the FAT and every other sector is as before. *)
Record saved v v' T (k : nat) (n data e cl : list Z) : Prop := {
  sv_vol : vol_ok v';
  sv_geo : geo (fs v') = geo (fs v);
  sv_table : forall sc' T', table_ok v sc' T' -> table_ok v' sc' T';
  sv_entries : entries v' T = <[k := e]> (entries v T);
  sv_tables : forall sc' T', table_ok v sc' T' ->
    (forall i, 0 <= i < tbl_size (fs v) T' -> tbl_sector (fs v) T' i <> tbl_sector (fs v) T (Z.of_nat k)) -> entries v' T' = entries v T';
  sv_name : take 11 e = n;
  sv_attr : getb e DIR_Attr = AM_ARC;
  sv_size : file_size e = zlen data;
  sv_file : entry_file v' e cl;
  sv_data : file_data v' cl 0 (zlen data) = data;
  sv_free : forall c, c ∈ cl -> fat_entry v c = 0;
  sv_fat : forall c, valid_clust (fs v) c -> c ∉ cl -> fat_entry v' c = fat_entry v c;
  sv_other : forall s, ~ mirror (fs v) s -> ~ in_fat (fs v) s -> fatbase (fs v) <= s -> s <> tbl_sector (fs v) T (Z.of_nat k) ->
    (forall q, 0 <= q < chain_sectors (fs v) cl -> s <> file_sector (fs v) cl q) -> lsec v' s = lsec v s
}.

Lemma closed_fat v v' sc T k e c : wf v -> fat_geo (fs v) -> table_ok v sc T -> Z.of_nat k < tbl_size (fs v) T ->
  closed v v' T k e -> valid_clust (fs v) c -> fat_entry v' c = fat_entry v c.
Proof.
  intros W FG TO Hk [C1 C2 C3 C4 C5] Hc. apply fat_entry_off; try done. intros s Hs. apply C4.
  - apply mirror_in_fat; [apply (wf_fat v W)|done].
  - unfold in_fat in Hs. lia.
  - intros ->. by apply (to_sectors v sc T TO (Z.of_nat k)); [lia|].
Qed.

Lemma closed_table v v' sc T k e sc' T' : wf v -> fat_geo (fs v) -> table_ok v sc T -> Z.of_nat k < tbl_size (fs v) T ->
  closed v v' T k e -> table_ok v sc' T' -> table_ok v' sc' T'.
Proof.
  intros W FG TO Hk [C1 C2 C3 C4 C5] TO'. apply (table_off v v'); try done. intros s Hs. apply C4.
  - apply mirror_in_fat; [apply (wf_fat v W)|done].
  - unfold in_fat in Hs. lia.
  - intros ->. by apply (to_sectors v sc T TO (Z.of_nat k)); [lia|].
Qed.

Lemma closed_file v v' sc T k e fp cl :
  vol_ok v -> layout (fs v) -> table_ok v sc T -> Z.of_nat k < tbl_size (fs v) T -> closed v v' T k e ->
  (forall l, T = Chained l -> forall x, x ∈ l -> x ∉ cl) -> wfile v fp cl -> closed_entry (fs v) (entry v T (Z.of_nat k)) e fp ->
  entry_file v' e cl /\ forall off n, 0 <= off -> off + n <= chain_sectors (fs v) cl * SS -> file_data v' cl off n = file_data v cl off n.
Proof.
  intros VK LY TO Hk CD Hd WF [E1 E2 E3 E4]. pose proof (wfile_clusters _ _ _ WF) as [CO _]. pose proof CD as [C1 C2 C3 C4 C5].
  pose proof (vk_wf _ VK) as W. pose proof (vk_geo _ VK) as VG. destruct (geo_fields _ _ C2) as (Et & _ & _ & En & _). destruct WF as [F1 F2 F3]. split.
  - split; [|rewrite E3, (chain_sectors_geo _ _ _ C2); lia]. unfold start_clust in *. rewrite (ld_clust_type (fs v)), E4 by done.
    destruct F1 as [?|[? Hch]]; [by left|right]. split; [done|]. apply (chain_ext v); [done| |done]. intros x Hx. by eapply closed_fat; [done|apply VG|..].
  - intros off n H0 Hn. unfold file_data. apply list_fmap_ext. intros i x Hx. apply lookup_seqZ in Hx as [-> Hx]. unfold file_byte.
    assert (0 <= (off + Z.of_nat i) / SS < chain_sectors (fs v) cl) as Hq by (apply sector_in_range; lia).
    destruct (data_off_fat v _ VK (file_sector_data _ _ _ VG CO Hq)) as (M1 & M2 & _). destruct (file_sector_data _ _ _ VG CO Hq) as [B _].
    rewrite (geo_file_sector _ _ _ _ C2), C4; [done|done| |].
    + pose proof (ly_data _ LY). pose proof (wf_fat v W). destruct (wf_nfats v W) as [N|N]; rewrite N in *; lia.
    + apply not_eq_sym. by apply (table_sector_off v sc); [..|lia| | |].
Qed.

Lemma saved_intro v v2 v3 v4 sc T k n data e0 e cl fp :
  vol_ok v -> layout (fs v) -> table_ok v sc T -> Z.of_nat k < tbl_size (fs v) T ->
  entry_upd v v2 T (Z.of_nat k) e0 -> empty_entry (fs v) n e0 ->
  written v2 [] 0 0 data v3 cl -> vol_ok v3 -> wfile v3 fp cl -> f_fsize fp = zlen data ->
  closed v3 v4 T k e -> closed_entry (fs v3) (entry v3 T (Z.of_nat k)) e fp -> last_clust (fs v4) = last_clust (fs v3) ->
  saved v v4 T k n data e cl.
Proof.
  intros VK LY TO Hk U2 [N1 N2 N3 N4] WR VK3 WF Ez CD CE Hl. pose proof CD as [C1 C2 C3 C4 C5]. pose proof CE as [E1 E2 E3 E4].
  pose proof U2 as [_ G2 _ _ O2 _]. pose proof (wn_geo _ _ _ _ _ _ _ WR) as G3. assert (0 <= Z.of_nat k < tbl_size (fs v) T) as Hk' by lia.
  pose proof (vol_ok_upd v v2 sc T _ e0 VK TO Hk' U2) as VK2. pose proof (layout_geo _ _ G2 LY) as LY2. pose proof (layout_geo _ _ G3 LY2) as LY3.
  assert (geo (fs v3) = geo (fs v)) as G03 by congruence. assert (geo (fs v4) = geo (fs v)) as G04 by congruence.
  assert (forall sc' T', table_ok v sc' T' -> table_ok v2 sc' T') as T02.
  { intros sc' T' TO'. apply (entry_upd_table v v2 T (Z.of_nat k) e0 sc); try done; apply VK. }
  destruct (table_written v2 _ _ _ v3 cl sc T VK2 LY2 WR (T02 _ _ TO)) as [TO3 Ee3].
  destruct (geo_tbl _ _ T G03) as (F1 & _ & F3). assert (Z.of_nat k < tbl_size (fs v3) T) as Hk3 by (by rewrite F3).
  assert (entry v3 T (Z.of_nat k) = e0) as Ek.
  { pose proof (entries_lookup v3 T k) as Hl3. rewrite Ee3, entries_lookup in Hl3. destruct (geo_tbl _ _ T G2) as (_ & _ & F32).
    rewrite F32, !decide_True in Hl3 by done. injection Hl3 as <-. by eapply entry_upd_entry. }
  assert (forall c, valid_clust (fs v) c -> fat_entry v2 c = fat_entry v c) as FE2.
  { intros c Hc. apply (fat_entry_off v v2 c G2); [apply VK|apply VK|done|]. intros x Hx. apply O2; [apply mirror_in_fat; [apply (wf_fat v), VK|done]|].
    intros ->. by apply (to_sectors v sc T TO _ Hk'). }
  assert (forall f', geo f' = geo (fs v) -> forall c, valid_clust f' c <-> valid_clust (fs v) c) as Hvv.
  { intros f' G c. destruct (geo_fields _ _ G) as (_ & _ & _ & En & _). unfold valid_clust. by rewrite En. }
  assert (forall l, T = Chained l -> forall x, x ∈ l -> x ∉ cl) as Hd.
  { intros l ->. destruct (table_chain _ _ _ (T02 _ _ TO)) as [c Hch]. by eapply written_chain. }
  destruct (closed_file v3 v4 sc T k e fp cl VK3 LY3 TO3 Hk3 CD Hd WF CE) as [EF FD].
  pose proof (wl_size _ _ _ WF) as Hz. rewrite Ez in Hz. constructor; try done.
  - apply (vol_ok_entries v3); try done; [|rewrite Hl; apply VK3]. intros c Hc. rewrite (closed_fat v3 v4 sc T k e) by (done || apply VK3). by apply (vk_sane _ VK3).
  - intros sc' T' TO'. eapply (closed_table v3); [apply VK3|apply VK3|exact TO3|done|done|]. by eapply table_written; [exact VK2|exact LY2|exact WR|apply T02].
  - by rewrite C5, Ee3, (eu_entries _ _ _ _ _ U2), Nat2Z.id, list_insert_insert_eq.
  - intros sc' T' TO' Ha. destruct (geo_tbl _ _ T' G03) as (F1' & _ & F3'). destruct (table_written v2 _ _ _ v3 cl sc' T' VK2 LY2 WR (T02 _ _ TO')) as [TO3' Ee3'].
    transitivity (entries v3 T').
    + apply entries_other; [done|]. intros i Hi. destruct (to_sectors _ _ _ TO3' i Hi) as (_ & A2 & _). apply C4; [done|by eapply table_above_fat; [apply VK3|apply VK3|..]|].
      rewrite F1', F1. apply Ha. by rewrite <- F3'.
    + rewrite Ee3'. apply entries_other; [done|]. intros i Hi. apply O2; [by apply (to_sectors _ _ _ TO' i Hi)|by apply Ha].
  - by rewrite E1, Ek.
  - by rewrite E2, Ek, N2.
  - by rewrite E3.
  - rewrite FD by lia. by eapply written_data; [|exact WR].
  - intros c Hc. pose proof (wn_clusters _ _ _ _ _ _ _ WR) as [CV _]. rewrite Forall_forall in CV. rewrite <- FE2 by (apply (Hvv (fs v2) G2), CV, Hc).
    apply (wn_new _ _ _ _ _ _ _ WR c Hc). apply not_elem_of_nil.
  - intros c Hc Hn. rewrite (closed_fat v3 v4 sc T k e) by (done || apply VK3 || by apply (Hvv (fs v3) G03)).
    rewrite (wn_entry _ _ _ _ _ _ _ WR) by (done || by apply (Hvv (fs v2) G2)). by apply FE2.
  - intros x Hm Hf Hx Hne Hq. rewrite C4, (wn_other _ _ _ _ _ _ _ WR), O2; try done; rewrite ?(geo_mirror _ _ _ G03), ?(geo_mirror _ _ _ G2), ?(geo_in_fat _ _ _ G2), ?F1; try done.
    + intros q. rewrite (geo_file_sector _ _ _ _ G2), (chain_sectors_geo _ _ _ G2). apply Hq.
    + destruct (geo_fields _ _ G03) as (_ & _ & _ & _ & _ & -> & _). done.
Qed.

(** The start of a file fits the fields of an entry. *)
Lemma wfile_sclust v fp cl : vol_geo (fs v) -> wfile v fp cl ->
  0 <= f_sclust fp < 2 ^ 32 /\ (fs_type (fs v) <> FS_FAT32 -> f_sclust fp < 2 ^ 16).
Proof.
  intros VG [[[-> ->]|[Hne Hch]] _ _]; [lia|]. destruct (chain_head _ _ _ Hch Hne) as [[V1 V2] _]. pose proof (vg_fat _ VG) as FG.
  pose proof (fg_bound _ FG). split; [lia|]. intros Ht. destruct (fg_count _ FG) as [_ HC]. unfold fat_mod in HC.
  assert (n_fatent (fs v) <= 2 ^ 16); [|lia].
  destruct (fg_type _ FG) as [E|[E|E]]; rewrite E in HC; [..|done]; by eapply Z.le_trans; [exact HC|].
Qed.

(** The object of a created file is ready for writing. *)
Lemma created_writable (s : ff D) v p f T k sc mode e n fp data :
  vol_ok v -> mounted s p f -> table_ok v sc T -> Z.of_nat k < tbl_size (fs v) T -> entry_upd v (Build_vol f (dev s)) T (Z.of_nat k) e ->
  empty_entry (fs v) n e -> handle (fs v) p T k mode e fp -> Forall is_byte data -> zlen data < 2 ^ 32 ->
  writable s fp f [] data /\ f_fsize fp = 0 /\ fptr fp = 0.
Proof.
  intros VK [M1 M2 M3 M4 M5] TO Hk U [N1 N2 N3 N4] [H1 H2 H3 H4 H5 H6 H7 H8 H9] Hb Hz. rewrite N3 in H6. rewrite N4 in H7. split; [|done].
  pose proof (eu_geo _ _ _ _ _ U) as G. cbn in G. constructor; rewrite ?H1, ?H2, ?H6; try done; [unfold geo in G; congruence|].
  constructor; rewrite ?H5, ?H6; try done.
  - eapply (vol_ok_upd v); try done. lia.
  - constructor; rewrite ?H5, ?H6, ?H7; [by left|..]; unfold chain_sectors; change (zlen (@nil Z)) with 0; lia.
  - split; rewrite H5; [lia|]. by rewrite Z.mod_0_l.
Qed.

(** The object of a written file can be closed. *)
Lemma written_has_entry v fp cl sc T k : vol_ok v -> layout (fs v) -> table_ok v sc T -> Z.of_nat k < tbl_size (fs v) T -> wfile v fp cl ->
  f_fsize fp < 2 ^ 32 -> dir_sect fp = tbl_sector (fs v) T (Z.of_nat k) -> dir_ptr fp = Z.of_nat k mod 16 * 32 -> has_entry v fp.
Proof.
  intros VK LY TO Hk WF Hz Es Ep. destruct (to_sectors _ _ _ TO (Z.of_nat k) ltac:(lia)) as (A1 & A2 & A3 & A4).
  pose proof (Z.mod_pos_bound (Z.of_nat k) 16 ltac:(lia)) as Bk. pose proof (wl_size _ _ _ WF) as [Hz0 _].
  constructor; rewrite ?Es, ?Ep; [split; [done|]; split; [done|lia]| |lia|lia|].
  - apply off_info; [done|]. eapply table_above_fat; try done; [apply VK|apply VK|lia].
  - by eapply wfile_sclust; [apply VK|].
Qed.

Definition create_write_close (fp : FIL) (path : list Z) (mode : Z) (data : list Z) : M (ff D) (FRESULT * FRESULT * FRESULT * Z * FIL) :=
  let! (r1, fp1) := f_open fp (Some path) mode in
  let! (r2, fp2, bw) := f_write fp1 data in
  let! (r3, fp3) := f_close fp2 in ret (r1, r2, r3, bw, fp3).

Lemma wp_create_write_close s p f b gs r Ts sc T k mode st fp data (Q : FRESULT * FRESULT * FRESULT * Z * FIL -> ff D -> Prop) :
  let v := Build_vol f (dev s) in
  mounted s p f -> vol_ok v -> layout f -> fsinfo_ok v -> (forall d, status d (drv f) st) -> has st STA_NOINIT = false -> has st STA_PROTECT = false ->
  path_ok gs r = true -> walk v 0 (seg_name <$> gs) Ts (Slot sc T None) -> first_free (entries v T) = Some k ->
  has mode FA_CREATE = true -> has mode FA_WRITE = true -> Forall is_byte data -> zlen data < 2 ^ 32 ->
  (forall s' f' bw fp' e cl, mounted s' p f' -> 0 <= bw <= zlen data ->
     (bw < zlen data -> no_free (Build_vol f' (dev s'))) -> f_fs fp' = 0 ->
     saved v (Build_vol f' (dev s')) T k (List.last (seg_name <$> gs) []) (take (Z.to_nat bw) data) e cl ->
     Q (FR_OK, FR_OK, FR_OK, bw, fp') s') ->
  wp (create_write_close fp (drive_text b ++ path_text gs r) mode data) Q s.
Proof.
  intros v MT VK LY FI St Hi Hw Hp Wk Hff Hm Hmw Hb Hz HQ. pose proof (walk_slot _ _ _ _ _ Wk) as [TO _].
  assert (Z.of_nat k < tbl_size (fs v) T) as Hk by (apply first_free_lt in Hff; rewrite entries_length in Hff; lia).
  assert (forall d, online d (drv f)) as On by (intros d; by apply (status_online _ _ st)).
  unfold create_write_close. wp_step. apply (wp_create s p f b gs r Ts sc T k mode st); try done.
  intros s2 f2 e0 fp1 M2 U2 Em Hd. pose proof (eu_geo _ _ _ _ _ U2) as G2. cbn in G2.
  destruct (created_writable s2 v p f2 T k sc _ e0 _ fp1 data VK M2 TO Hk U2 Em Hd Hb Hz) as (WB & Ez1 & Ep1).
  destruct (geo_same_drv _ _ G2) as [Ed2 _]. pose proof Hd as [H1 H2 H3 H4 H5 H6 H7 H8 H9]. wp_step.
  eapply wp_mono; [apply wp_drive; [apply drive_f_write|]; apply (wp_f_write s2 fp1 f2 [] data); [done|by rewrite Ed2|done|]|].
  { rewrite H3. unfold created_mode. rewrite has_lor_written by done. unfold has. rewrite Z.land_lor_distr_l.
    change (Z.land FA_CREATE_ALWAYS FA_WRITE) with 0. rewrite Z.lor_0_r. fold (has (mode_bits mode) FA_WRITE). by rewrite mode_has. }
  intros [[r2 fp2] bw] s3 [(f3 & Ho3 & Hi3 & Hd3 & Hf) K3].
  destruct Hf as (-> & Hbw & VK3 & Ep & Ez & Ef & Eerr & Efs & Eid & Eds & Edp & Hfull & cl & WF & _ & WR).
  rewrite Ez1, Ep1 in *. pose proof (wn_geo _ _ _ _ _ _ _ WR) as G3. cbn in G3. assert (geo f3 = geo f) as G03 by congruence.
  assert (table_ok (Build_vol f2 (dev s2)) sc T) as TO2 by (apply (entry_upd_table v _ T (Z.of_nat k) e0 sc); try done; [apply VK|apply VK|lia]).
  pose proof (sa_vol _ _ _ _ (wb_start _ _ _ _ _ WB)) as VK2. pose proof (layout_geo _ _ G2 LY) as LY2. pose proof (layout_geo _ _ G03 LY) as LY3.
  destruct (table_written _ _ _ _ _ _ sc T VK2 LY2 WR TO2) as [TO3 _]. destruct (geo_tbl _ _ T G03) as (F1 & _ & F3).
  assert (Z.of_nat k < tbl_size f3 T) as Hk3 by (by rewrite F3). assert (f_fsize fp2 = bw) as Ez' by lia. assert (f_fs fp2 = p) as Efp by congruence.
  assert (dir_sect fp2 = tbl_sector f3 T (Z.of_nat k)) as Es2 by (rewrite F1, Eds; done). assert (dir_ptr fp2 = Z.of_nat k mod 16 * 32) as Ep2 by congruence.
  wp_step. eapply wp_mono; [apply wp_drive; [apply drive_f_close|]; apply (wp_f_close s3 fp2 f3)|].
  - by rewrite Efs, H1 in *.
  - rewrite Efp. apply M2.
  - rewrite Hi3, Eid. apply (wb_id _ _ _ _ _ WB).
  - apply geo_mounted, VK3.
  - apply VK3.
  - intros Et. destruct (geo_fields _ _ G03) as (Et' & _). destruct (FI ltac:(cbn; by rewrite <- Et')) as (I1 & I2 & I3).
    assert (fsinfo_sector f3 = fsinfo_sector f) as Ei by (unfold fsinfo_sector; unfold geo in G03; congruence). cbn [fs disk] in *. rewrite Ei, (geo_mirror _ _ _ G03).
    split; [|done]. by apply (wn_ready _ _ _ _ _ _ _ WR), (eu_ready _ _ _ _ _ U2).
  - eapply (written_has_entry _ _ cl sc T k); try done. lia.
  - by rewrite Hd3, Ed2.
  - rewrite Ef. unfold has. rewrite Z.land_lor_distr_l, Z.land_diag. apply nz_true. intros E. apply Z.lor_eq_0_iff in E as [_ E]. done.
  - intros [r3 fp3] s4 [(-> & Ef3 & f4 & Ho4 & DU) K4]. apply wp_ret. pose proof (du_geo _ _ _ DU) as G4. cbn in G4.
    destruct (durable_closed _ fp2 _ sc T k (vk_wf _ VK3) (vk_geo _ VK3) LY3 TO3 Hk3 Es2 Ep2 DU) as (e & CD & CE).
    assert (zlen (take (Z.to_nat bw) data) = bw) as Ezt by (by apply zlen_take_le).
    assert (saved v (Build_vol f4 (dev s4)) T k (List.last (seg_name <$> gs) []) (take (Z.to_nat bw) data) e cl) as SV.
    { eapply (saved_intro v _ (Build_vol f3 (dev s3)) _ sc T k _ _ e0 e cl fp2); try done; [by rewrite Ezt|apply (du_last _ _ _ DU)]. }
    apply (HQ s4 f4 bw fp3 e cl); try done.
    + rewrite Efp in Ho4. constructor; try done; [by rewrite K4, K3; apply M2|apply M2|apply (sv_vol _ _ _ _ _ _ _ _ SV)|apply (sv_vol _ _ _ _ _ _ _ _ SV)].
    + intros Hlt c Hc. assert (valid_clust f3 c) as Hc3 by (destruct (geo_fields _ _ G4) as (_ & _ & _ & En & _); unfold valid_clust in *; cbn in *; by rewrite <- En).
      rewrite (closed_fat _ _ sc T k e c (vk_wf _ VK3) (vg_fat _ (vk_geo _ VK3)) TO3 Hk3 CD Hc3). by apply Hfull.
Qed.

(** The new file is found by its path. *)
Lemma saved_walk v v' gs r Ts sc T k data e cl :
  path_ok gs r = true -> walk v 0 (seg_name <$> gs) Ts (Slot sc T None) -> first_free (entries v T) = Some k ->
  (forall T', T' ∈ Ts -> forall i, 0 <= i < tbl_size (fs v) T' -> tbl_sector (fs v) T' i <> tbl_sector (fs v) T (Z.of_nat k)) ->
  saved v v' T k (List.last (seg_name <$> gs) []) data e cl ->
  walk v' 0 (seg_name <$> gs) Ts (Slot sc T (Some k)) /\ entry v' T (Z.of_nat k) = e.
Proof.
  intros Hp Wk Hff Ha SV. pose proof (walk_slot _ _ _ _ _ Wk) as [TO Hno]. destruct (last_name gs r Hp) as (g & Hg & En).
  destruct (seg_name_bytes g Hg) as (_ & Hn0 & _). pose proof (length_seg_name g Hg) as Ln. rewrite <- En in Hn0, Ln.
  destruct SV as [S1 S2 S3 S4 S5 S6 S7 _ _ _ _ _ _]. set (n := List.last _ _) in *. split.
  - assert (find_entry n (entries v' T) = Some k) as Ef.
    { rewrite S4. apply find_after_register; try done.
      - rewrite <- S6 in Hn0. unfold getb in *. change (Z.to_nat 0) with 0%nat in *. by destruct e.
      - unfold names. rewrite S7, S6, take_ge by lia. by rewrite bool_decide_true. }
    change (Some k) with (@Some nat k). rewrite <- Ef. apply (walk_keep v v' 0 (seg_name <$> gs) Ts (Slot sc T None) Wk); [apply (geo_fields _ _ S2)|by auto|].
    intros T' HT'. destruct (walk_tables _ _ _ _ _ _ Wk HT') as [sc' TO']. eapply S5; [done|]. by apply Ha.
  - apply first_free_lt in Hff. pose proof (entries_lookup v' T k) as Hl. rewrite S4, list_lookup_insert_eq in Hl by done.
    destruct (decide _); [|done]. by injection Hl.
Qed.

(** Creating, writing and closing a file: the three calls return [FR_OK] and
    leave a volume on which the path names a file with the bytes that were
    written (fewer than given only on a full volume), while every other entry
    of the directory, every other directory, the FAT entries of all clusters
    in use and all their sectors are what they were. *)
Theorem f_create_write_close s p f b gs r Ts sc T k mode st fp data :
  let v := Build_vol f (dev s) in
  mounted s p f -> vol_ok v -> layout f -> fsinfo_ok v -> (forall d, status d (drv f) st) -> has st STA_NOINIT = false -> has st STA_PROTECT = false ->
  path_ok gs r = true -> walk v 0 (seg_name <$> gs) Ts (Slot sc T None) -> first_free (entries v T) = Some k ->
  has mode FA_CREATE = true -> has mode FA_WRITE = true -> Forall is_byte data -> zlen data < 2 ^ 32 ->
  wp (create_write_close fp (drive_text b ++ path_text gs r) mode data)
    (fun '(r1, r2, r3, bw, fp') s' =>
       r1 = FR_OK /\ r2 = FR_OK /\ r3 = FR_OK /\ 0 <= bw <= zlen data /\
       exists f' e cl, mounted s' p f' /\ (bw < zlen data -> no_free (Build_vol f' (dev s'))) /\
         saved v (Build_vol f' (dev s')) T k (List.last (seg_name <$> gs) []) (take (Z.to_nat bw) data) e cl) s.
Proof.
  intros v MT VK LY FI St Hi Hw Hp Wk Hff Hm Hmw Hb Hz. apply (wp_create_write_close s p f b gs r Ts sc T k mode st fp data); try done.
  intros s' f' bw fp' e cl M' Hbw Hfull _ SV. do 4 (split; [done|]). exists f', e, cl. done.
Qed.

(** C2. The life of a file: after [f_open] of a new name, [f_write] and [f_close],
    [f_open] of any spelling of the same path (separators, letter case, drive
    number) and [f_read] return the bytes that were written, from the start
    and as many as asked for. *)
Theorem f_save_load s p f b gs r Ts sc T k mode st fp data b' gs' r' btr :
  let v := Build_vol f (dev s) in
  mounted s p f -> vol_ok v -> layout f -> fsinfo_ok v -> (forall d, status d (drv f) st) -> has st STA_NOINIT = false -> has st STA_PROTECT = false ->
  path_ok gs r = true -> walk v 0 (seg_name <$> gs) Ts (Slot sc T None) -> first_free (entries v T) = Some k ->
  (forall T', T' ∈ Ts -> forall i, 0 <= i < tbl_size f T' -> tbl_sector f T' i <> tbl_sector f T (Z.of_nat k)) ->
  has mode FA_CREATE = true -> has mode FA_WRITE = true -> Forall is_byte data -> zlen data < 2 ^ 32 ->
  path_ok gs' r' = true -> seg_name <$> gs' = seg_name <$> gs -> 0 <= btr ->
  wp (let! (r1, r2, r3, bw, fp1) := create_write_close fp (drive_text b ++ path_text gs r) mode data in
      let! (r4, fp2) := f_open fp1 (Some (drive_text b' ++ path_text gs' r')) FA_READ in
      let! (r5, fp3, out) := f_read fp2 btr in ret ((r1, r2, r3, r4, r5), bw, out))
    (fun '(rs, bw, out) s' =>
       rs = (FR_OK, FR_OK, FR_OK, FR_OK, FR_OK) /\ 0 <= bw <= zlen data /\
       out = take (Z.to_nat btr) (take (Z.to_nat bw) data) /\
       (bw < zlen data -> exists f', objs s' !! p = Some f' /\ no_free (Build_vol f' (dev s')))) s.
Proof.
  intros v MT VK LY FI St Hi Hw Hp Wk Hff Ha Hm Hmw Hb Hz Hp' Eg Hbt. wp_step.
  apply (wp_create_write_close s p f b gs r Ts sc T k mode st fp data); try done.
  intros s' f' bw fp' e cl M' Hbw Hfull _ SV. destruct (saved_walk _ _ gs r Ts sc T k _ e cl Hp Wk Hff Ha SV) as [Wk' Ee]. rewrite <- Eg in Wk'.
  pose proof SV as [S1 S2 _ _ _ _ S7 S8 S9 S10 _ _ _]. cbn in S2. destruct (geo_same_drv _ _ S2) as [Ed _].
  assert (place_result (Build_vol f' (dev s')) st FA_READ (Slot sc T (Some k)) = FR_OK) as Er.
  { unfold place_result, open_result, is_dir. rewrite Ee, S7. done. }
  pose proof (wp_open_read s' p f' b' gs' r' Ts (Slot sc T (Some k)) FA_READ st fp' cl btr M' S1 ltac:(by rewrite Ed) Hi Hp' Wk' eq_refl eq_refl Hbt) as K.
  cbv zeta in K. rewrite Er in K. cbn [place_entry] in K. rewrite Ee in K. specialize (K (fun _ => S9)).
  apply wp_bind_inv in K. wp_step. eapply wp_mono; [exact K|]. intros [r4 fp2] s2 K2. apply wp_bind_inv in K2. wp_step. eapply wp_mono; [exact K2|].
  intros [[r5 fp3] out] s3 K3. apply wp_ret. cbn in K3.
  destruct K3 as (-> & (-> & ->) & f2 & Ho & V2). split; [done|]. split; [done|]. split.
  - rewrite S8. set (d := take (Z.to_nat bw) data) in *. rewrite <- (file_data_take _ _ 0 btr (zlen d)) by done. by rewrite S10.
  - intros Hlt. exists f2. split; [done|]. by apply (no_free_view (Build_vol f' (dev s'))); [|done|apply Hfull].
Qed.

(** ** Removing a file *)

(** [v'] is [v] with entry [k] of [T] deleted and the clusters [cl] freed, all
    of it on the device. *)
Record removed v v' T (k : nat) (cl : list Z) : Prop := {
  rm_wf : wf v';
  rm_geo : geo (fs v') = geo (fs v);
  rm_clean : wflag (fs v') = 0;
  rm_ready : forall s, ready (disk v) s -> ready (disk v') s;
  rm_entries : entries v' T = <[k := deleted_entry]> (entries v T);
  rm_fat : forall c, valid_clust (fs v) c -> fat_entry v' c = if bool_decide (c ∈ cl) then 0 else fat_entry v c;
  rm_free : free_clust (fs v') = adjusted (zlen cl) (free_clust (fs v));
  rm_other : forall s, ~ mirror (fs v) s -> ~ in_fat (fs v) s -> fatbase (fs v) <= s -> s <> tbl_sector (fs v) T (Z.of_nat k) -> lsec v' s = lsec v s
}.

Lemma adjusted_0 x : 0 <= x < 2 ^ 32 -> adjusted 0 x = x.
Proof. intros Hx. unfold adjusted. destruct (x =? _); [done|]. rewrite Z.add_0_r. by apply u32_small. Qed.

(** [remove_chain] on the clusters of a file, if it has any. *)
Lemma wp_remove_file v c (cl : list Z) (Q : FRESULT -> vol D -> Prop) :
  wf v -> fat_geo (fs v) -> (cl = [] /\ c = 0 \/ cl <> [] /\ chain v c cl) -> 0 <= free_clust (fs v) < 2 ^ 32 ->
  free_clust (fs v) = 0xFFFFFFFF \/ free_clust (fs v) + zlen cl < 0xFFFFFFFF ->
  (forall v', wf v' -> fat_upd v v' (freed v cl) -> free_clust (fs v') = adjusted (zlen cl) (free_clust (fs v)) -> Q FR_OK v') ->
  wp (if is_ok FR_OK && nz c then remove_chain c else ret FR_OK) Q v.
Proof.
  intros W FG [[-> ->]|[Hne Hch]] H0 Hov HQ.
  - change (is_ok FR_OK && nz 0) with false. apply wp_ret, HQ; [done| |].
    + eapply fat_upd_ext; [|apply (view_fat_upd v v); done]. intros x _. unfold freed. by rewrite bool_decide_false by apply not_elem_of_nil.
    + change (zlen (@nil Z)) with 0. by rewrite adjusted_0.
  - destruct (chain_head _ _ _ Hch Hne) as [Hv _]. rewrite (proj2 (nz_true c)) by (destruct Hv; lia). cbn [is_ok andb].
    eapply wp_mono; [apply (wp_remove_chain v c cl); try done; lia|]. intros r' v' (-> & W' & U & Ef). by apply HQ.
Qed.

(** The three steps of a removal. *)
Lemma removed_intro v v2 v3 v4 sc T k (cl : list Z) :
  vol_ok v -> layout (fs v) -> table_ok v sc T -> Z.of_nat k < tbl_size (fs v) T ->
  entry_upd v v2 T (Z.of_nat k) deleted_entry -> wf v3 -> fat_upd v2 v3 (freed v2 cl) ->
  free_clust (fs v3) = adjusted (zlen cl) (free_clust (fs v2)) -> flushed v3 v4 -> removed v v4 T k cl.
Proof.
  intros VK LY TO Hk U2 W3 U3 Ef [F1 F2 F3 F4 F5 F6 F7]. pose proof U2 as [W2 G2 R2 (_ & A2 & _) O2 E2]. pose proof U3 as [G3 R3 O3 E3].
  assert (geo (fs v3) = geo (fs v)) as G03 by congruence. pose proof (layout_geo _ _ G03 LY) as LY3.
  assert (forall x, ~ mirror (fs v) x -> fatbase (fs v) <= x -> lsec v4 x = lsec v3 x) as H34.
  { intros x Hm Hx. rewrite lsec_clean by done. apply F7; [by rewrite (geo_mirror _ _ _ G03)|]. apply off_info; [done|].
    destruct (geo_fields _ _ G03) as (_ & _ & _ & _ & _ & -> & _). done. }
  assert (forall x, in_fat (fs v) x -> ~ mirror (fs v) x /\ fatbase (fs v) <= x /\ x <> tbl_sector (fs v) T (Z.of_nat k)) as Hf.
  { intros x Hx. split; [apply mirror_in_fat; [apply (wf_fat v), VK|done]|]. split; [unfold in_fat in Hx; lia|]. intros ->. by apply (to_sectors v sc T TO (Z.of_nat k)); [lia|]. }
  assert (forall x, ~ mirror (fs v) x -> ~ in_fat (fs v) x -> fatbase (fs v) <= x -> lsec v4 x = lsec v2 x) as H24.
  { intros x Hm Hn Hx. rewrite H34 by done. apply O3; [by rewrite (geo_mirror _ _ _ G2)|by rewrite (geo_in_fat _ _ _ G2)]. }
  assert (forall f', geo f' = geo (fs v) -> forall c, valid_clust f' c <-> valid_clust (fs v) c) as Hvv.
  { intros f' G c. destruct (geo_fields _ _ G) as (_ & _ & _ & En & _). unfold valid_clust. by rewrite En. }
  constructor; try done; [congruence|by auto| | | |].
  - rewrite <- (Nat2Z.id k), <- E2. destruct (geo_tbl _ _ T G2) as (F1' & _ & F3'). apply entries_other; [congruence|]. intros i. rewrite F1', F3'. intros Hi.
    destruct (to_sectors _ _ _ TO i Hi) as (_ & M1 & M2 & _). apply H24; [done|done|]. eapply table_above_fat; try done; apply VK.
  - intros c Hc. transitivity (fat_entry v3 c).
    { apply fat_entry_off; [done|eapply geo_fat_geo; [exact G03|apply VK]|done|by apply (Hvv (fs v3) G03)|].
      intros x Hx. rewrite (geo_in_fat _ _ _ G03) in Hx. destruct (Hf x Hx) as (? & ? & _). by apply H34. }
    rewrite E3 by (by apply (Hvv (fs v2) G2)). unfold freed. destruct (bool_decide _); [done|].
    apply fat_entry_off; [done|apply VK|apply VK|done|]. intros x Hx. destruct (Hf x Hx) as (? & _ & ?). by apply O2.
  - by rewrite F5, Ef, A2.
  - intros x Hm Hn Hx Hne. rewrite H24 by done. by apply O2.
Qed.

(** What removing a file reports. *)
Definition unlink_result v (st : Z) (pl : place) : FRESULT :=
  if has st STA_PROTECT then FR_WRITE_PROTECTED
  else match pl with
       | NoPath => FR_NO_PATH
       | Slot _ _ None => FR_NO_FILE
       | Slot _ T (Some k) => if has (getb (entry v T (Z.of_nat k)) DIR_Attr) AM_RDO then FR_DENIED else FR_OK
       end.

(** What a removal relies on: the entry is a file on the clusters [cl], and the
    count of free clusters does not overflow. *)
Record removable v T (k : nat) cl : Prop := {
  ra_file : is_dir (entry v T (Z.of_nat k)) = false;
  ra_chain : cl = [] /\ start_clust (fs v) (entry v T (Z.of_nat k)) = 0 \/ cl <> [] /\ chain v (start_clust (fs v) (entry v T (Z.of_nat k))) cl;
  ra_count : 0 <= free_clust (fs v) < 2 ^ 32 /\ (free_clust (fs v) = 0xFFFFFFFF \/ free_clust (fs v) + zlen cl < 0xFFFFFFFF)
}.

Definition unlinked v (pl : place) (cl : list Z) (res : FRESULT) v' : Prop :=
  match pl with
  | Slot _ T (Some k) => if is_ok res then removed v v' T k cl else wf v' /\ same_view v v'
  | _ => wf v' /\ same_view v v'
  end.

Lemma wp_unlink v pa gs r Ts pl st cl :
  vol_ok v -> layout (fs v) -> fsinfo_ok v -> path_ok gs r = true -> walk v 0 (seg_name <$> gs) Ts pl -> has st STA_PROTECT = false ->
  match pl with Slot _ T (Some k) => removable v T k cl | _ => True end ->
  wp (unlink_vol pa (path_text gs r)) (fun '(res, _) v' => res = unlink_result v st pl /\ unlinked v pl cl res v') v.
Proof.
  intros VK LY FI Hp Wk Hw HR. pose proof (vk_wf _ VK) as W. pose proof (vk_geo _ VK) as VG. pose proof (vg_fat _ VG) as FG. unfold unlink_vol, unlink_result. rewrite Hw. wp_step.
  eapply wp_mono; [by apply (wp_follow_path v (new_dir pa) gs r Ts pl)|]. intros [res dj] v1 (W1 & V1 & A1 & HP). cbn [fst snd] in HP.
  destruct pl as [|sc T [k|]]; [subst res; by apply wp_ret| |destruct HP as (_ & _ & ->); by apply wp_ret].
  destruct HP as (Es & _ & -> & PO & At & Ew). pose proof (walk_slot _ _ _ _ _ Wk) as [TO _]. pose proof (po_range _ _ _ _ PO) as Hk.
  rewrite (po_dir _ _ _ _ PO). change (is_ok FR_OK) with true. cbn [default is_null]. cbv iota. wp_step. apply wp_getfs. unfold id, win_byte. wp_step. wp_step. apply wp_getfs, wp_ret.
  rewrite Ew, <- entry_getb by (done || by unfold DIR_Attr). set (e := entry v T (Z.of_nat k)) in *.
  destruct (has (getb e DIR_Attr) AM_RDO); [change (is_ok FR_DENIED) with false; cbn [andb]; wp_step; apply wp_ret; change (is_ok FR_DENIED) with false; by apply wp_ret|].
  destruct HR as [R1 R2 [R3 R4]]. fold e in R1, R2. change (is_ok FR_OK) with true. cbv iota. unfold is_dir in R1. rewrite R1, andb_false_r. wp_step. apply wp_ret.
  change (is_ok FR_OK) with true. cbv iota. wp_step. destruct (geo_fields _ _ (proj1 V1)) as (Et & _).
  apply (wp_dir_remove v1 T dj); [done|by eapply geo_vol_geo; [apply V1|]|rewrite Es; by apply (table_view v)|rewrite (po_index _ _ _ _ PO); by destruct (geo_tbl _ _ T (proj1 V1)) as (_ & _ & ->)|].
  intros v2 dj2 U1 _. rewrite (po_index _ _ _ _ PO) in U1. assert (entry_upd v v2 T (Z.of_nat k) deleted_entry) as U2 by (by eapply (entry_upd_view v v1)).
  pose proof (eu_geo _ _ _ _ _ U2) as G2. pose proof (eu_alloc _ _ _ _ _ U2) as (_ & Ea & _). rewrite (ld_clust_type (fs v)), entry_clust by done. fold e. fold (start_clust (fs v) e).
  wp_step. apply (wp_remove_file v2 _ cl); [apply U2|by eapply geo_fat_geo| |by rewrite Ea|by rewrite Ea|].
  { destruct R2 as [?|[? Hch]]; [by left|right]. split; [done|]. apply (chain_ext v); [apply (geo_fields _ _ G2)| |done]. intros x Hx. apply fat_entry_off; try done.
    intros y Hy. apply (eu_other _ _ _ _ _ U2); [apply mirror_in_fat; [apply (wf_fat v W)|done]|]. intros ->. by apply (to_sectors v sc T TO (Z.of_nat k)). }
  intros v3 W3 U3 Ef. change (is_ok FR_OK) with true. cbv iota. wp_step. apply wp_sync_fs; [done| |].
  - assert (geo (fs v3) = geo (fs v)) as G03 by (rewrite (fu_geo _ _ _ U3); done). intros Ht. destruct (geo_fields _ _ G03) as (Et3 & _). destruct (FI ltac:(by rewrite <- Et3)) as (I1 & I2 & I3).
    assert (fsinfo_sector (fs v3) = fsinfo_sector (fs v)) as -> by (unfold fsinfo_sector; unfold geo in G03; congruence). rewrite (geo_mirror _ _ _ G03).
    split; [|done]. by apply (fu_ready _ _ _ U3), (eu_ready _ _ _ _ _ U2).
  - intros v4 FL. apply wp_ret. split; [done|]. cbn [unlinked is_ok]. eapply (removed_intro v v2 v3 v4 sc); try done. lia.
Qed.

Lemma wp_f_unlink s p f b gs r Ts pl st cl (Q : FRESULT * unit -> ff D -> Prop) :
  let v := Build_vol f (dev s) in
  mounted s p f -> vol_ok v -> layout f -> fsinfo_ok v -> status (dev s) (drv f) st -> has st STA_NOINIT = false ->
  path_ok gs r = true -> walk v 0 (seg_name <$> gs) Ts pl ->
  match pl with Slot _ T (Some k) => removable v T k cl | _ => True end ->
  (forall s' f' u, mounted s' p f' -> unlinked v pl cl (unlink_result v st pl) (Build_vol f' (dev s')) -> Q (unlink_result v st pl, u) s') ->
  wp (f_unlink (Some (drive_text b ++ path_text gs r))) Q s.
Proof.
  intros v MT VK LY FI St Hi Hp Wk HR HQ. unfold f_unlink, with_volume. wp_step. eapply (wp_find_volume s p f); [done|by apply path_drive|done|done|].
  intros s1 M1 V1. change (nz 1) with true. cbn [andb].
  destruct (has st STA_PROTECT) eqn:Ew.
  { change (is_ok FR_WRITE_PROTECTED) with false. apply wp_ret. replace FR_WRITE_PROTECTED with (unlink_result v st pl) by (unfold unlink_result; by rewrite Ew).
    apply (HQ s1 f); [done|]. unfold unlinked, unlink_result. rewrite Ew. pose proof (mt_wf _ _ _ M1). by destruct pl as [|? ? [?|]]. }
  change (is_ok FR_OK) with true. cbv iota. apply (wp_on_fs s1 p f); [apply M1|]. cbn [default]. set (v1 := Build_vol f (dev s1)).
  assert (vol_ok v1) as VK1 by (apply (vol_ok_view v); [done|apply M1|done|done]).
  assert (match pl with Slot sc T (Some k) => table_ok v sc T /\ 0 <= Z.of_nat k < tbl_size f T /\ entry v1 T (Z.of_nat k) = entry v T (Z.of_nat k) | _ => True end) as He.
  { pose proof (walk_slot _ _ _ _ _ Wk) as Hs. destruct pl as [|sc T [k|]]; [done| |done]. destruct Hs as [TO Ef]. split; [done|].
    destruct (find_entry_lookup _ _ _ (eq_sym Ef)) as (e & He & _). rewrite entries_lookup in He. destruct (decide _) as [Hlt|]; [|done]. change (fs v) with f in Hlt.
    split; [lia|]. apply (entry_view v v1 sc); [done|done|cbn [fs v]; lia]. }
  eapply wp_mono; [apply (wp_unlink v1 p gs r Ts pl st cl); try done|].
  - intros Ht. destruct (FI Ht) as (I1 & I2 & I3). split; [by apply V1|done].
  - apply (walk_view v); [apply VK|apply VK|done|done].
  - destruct pl as [|sc T [k|]]; [done| |done]. destruct He as (TO & Hk & He). destruct HR as [R1 R2 R3]. constructor; rewrite ?He; try done.
    destruct R2 as [?|[? ?]]; [by left|right]. split; [done|]. by apply (chain_view v); [apply VK|apply VK|..].
  - intros [res []] v' [-> HU]. assert (unlink_result v1 st pl = unlink_result v st pl) as Er.
    { unfold unlink_result. destruct pl as [|sc T [k|]]; [done| |done]. destruct He as (_ & _ & ->). done. }
    rewrite Er in *. destruct v' as [f' d']. apply (HQ _ f').
    + apply (mounted_after s1 p f (Build_vol f' d')); [done|..]; destruct pl as [|sc T [k|]]; cbn [unlinked] in HU; try apply HU; destruct (is_ok _); apply HU.
    + cbn [dev disk]. destruct pl as [|sc T [k|]]; cbn [unlinked] in HU |- *; [destruct HU; split; [done|by transitivity v1]| |destruct HU; split; [done|by transitivity v1]].
      destruct (is_ok _); [|destruct HU; split; [done|by transitivity v1]]. destruct He as (TO & Hk & He). destruct HU as [U1 U2 U3 U4 U5 U6 U7 U8].
      pose proof V1 as (G1 & S1 & R1). constructor; try done; [by auto|by rewrite U5, (entries_view v v1 sc)| |].
      * intros c Hc. rewrite U6 by done. rewrite (fat_entry_view v v1 c); [done|apply VK|apply VK|done|done].
      * intros x Hm Hf Hx Hne. rewrite U8 by done. by apply S1.
Qed.

(** C7. Removing a file by its path: [f_unlink] deletes exactly the entry that the
    path names and frees exactly the clusters of the file, raises the count
    of free clusters by their number and brings the change to the device; a
    missing directory or file, a read-only file and a write-protected drive
    are reported and change nothing. *)
Theorem f_unlink_correct s p f b gs r Ts pl st cl :
  let v := Build_vol f (dev s) in
  mounted s p f -> vol_ok v -> layout f -> fsinfo_ok v -> status (dev s) (drv f) st -> has st STA_NOINIT = false ->
  path_ok gs r = true -> walk v 0 (seg_name <$> gs) Ts pl ->
  match pl with Slot _ T (Some k) => removable v T k cl | _ => True end ->
  wp (f_unlink (Some (drive_text b ++ path_text gs r)))
    (fun '(res, _) s' => res = unlink_result v st pl /\
       exists f', mounted s' p f' /\ unlinked v pl cl res (Build_vol f' (dev s'))) s.
Proof.
  intros v MT VK LY FI St Hi Hp Wk HR. apply (wp_f_unlink s p f b gs r Ts pl st cl); try done. intros s' f' [] M' HU. split; [done|]. by exists f'.
Qed.
End Theory.

(** ** A new file in a directory *)

Definition new_seg : segment := Segment [47] (string_bytes "new"%string) (string_bytes "Bin"%string) true.
Definition new_seg' : segment := Segment [92] (string_bytes "NEW"%string) (string_bytes "BIN"%string) true.

Lemma tree_layout : layout demo_fs.
Proof. by constructor. Qed.

Lemma tree_walk_new : walk tree_vol 0 (seg_name <$> [sub_seg; new_seg]) [Static] (Slot 4 (Chained [4]) None).
Proof.
  apply (walk_down _ _ _ _ _ _ 0 (entry tree_vol Static 0)); [exact tree_root|by vm_compute|by vm_compute|by vm_compute|].
  replace (ld_clust (fs tree_vol) (entry tree_vol Static 0) 0) with 4 by (by vm_compute).
  replace None with (find_entry (seg_name new_seg) (entries tree_vol (Chained [4]))) by (by vm_compute).
  apply walk_last. exact tree_sub.
Qed.

Lemma tree_free : first_free (entries tree_vol (Chained [4])) = Some 1%nat.
Proof. by vm_compute. Qed.

Lemma tree_apart T' : T' ∈ [Static] -> forall i, 0 <= i < tbl_size demo_fs T' ->
  tbl_sector demo_fs T' i <> tbl_sector demo_fs (Chained [4]) (Z.of_nat 1).
Proof.
  intros ->%list_elem_of_singleton i Hi. change (0 <= i < 16) in Hi. change (3 + i / 16 <> 6). rewrite Z.div_small by lia. lia.
Qed.

Lemma ram_status (d : ramdisk) dv : status d dv 0.
Proof. done. Qed.

Lemma f_create_write_close_witness :
  wp (create_write_close (text_file 0) (drive_text false ++ path_text [sub_seg; new_seg] []) (Z.lor FA_WRITE FA_CREATE_NEW) (replicate 700 9))
    (fun '(r1, r2, r3, bw, fp') s' =>
       r1 = FR_OK /\ r2 = FR_OK /\ r3 = FR_OK /\ 0 <= bw <= zlen (replicate 700 9) /\
       exists f' e cl, mounted s' 1 f' /\ (bw < zlen (replicate 700 9) -> no_free (Build_vol f' (dev s'))) /\
         saved tree_vol (Build_vol f' (dev s')) (Chained [4]) 1 (List.last (seg_name <$> [sub_seg; new_seg]) [])
           (take (Z.to_nat bw) (replicate 700 9)) e cl) tree_ff.
Proof.
  apply (f_create_write_close tree_ff 1 demo_fs false [sub_seg; new_seg] [] [Static] 4 (Chained [4]) 1 (Z.lor FA_WRITE FA_CREATE_NEW) 0 (text_file 0) (replicate 700 9)
    tree_mounted tree_vol_ok tree_layout); [done|intros; apply ram_status|done|done|done|exact tree_walk_new|exact tree_free|done|done|by apply Forall_replicate|done].
Defined.

Lemma f_save_load_witness :
  wp (let! (r1, r2, r3, bw, fp1) := create_write_close (text_file 0) (drive_text false ++ path_text [sub_seg; new_seg] []) (Z.lor FA_WRITE FA_CREATE_NEW) (replicate 700 9) in
      let! (r4, fp2) := f_open fp1 (Some (drive_text true ++ path_text [sub_seg; new_seg'] [])) FA_READ in
      let! (r5, fp3, out) := f_read fp2 600 in ret ((r1, r2, r3, r4, r5), bw, out))
    (fun '(rs, bw, out) s' =>
       rs = (FR_OK, FR_OK, FR_OK, FR_OK, FR_OK) /\ 0 <= bw <= zlen (replicate 700 9) /\
       out = take (Z.to_nat 600) (take (Z.to_nat bw) (replicate 700 9)) /\
       (bw < zlen (replicate 700 9) -> exists f', objs s' !! 1 = Some f' /\ no_free (Build_vol f' (dev s')))) tree_ff.
Proof.
  apply (f_save_load tree_ff 1 demo_fs false [sub_seg; new_seg] [] [Static] 4 (Chained [4]) 1 (Z.lor FA_WRITE FA_CREATE_NEW) 0 (text_file 0) (replicate 700 9)
    true [sub_seg; new_seg'] [] 600 tree_mounted tree_vol_ok tree_layout);
    [done|intros; apply ram_status|done|done|done|exact tree_walk_new|exact tree_free|exact tree_apart|done|done|by apply Forall_replicate|done|done|done|lia].
Defined.

Lemma tree_removable : removable tree_vol (Chained [4]) 0 [2; 3].
Proof.
  constructor; [by vm_compute|right; split; [done|]|by split; [|right]].
  replace (start_clust _ _) with 2 by (by vm_compute). apply tree_chain.
Qed.

Lemma f_unlink_correct_witness :
  wp (f_unlink (Some (drive_text true ++ path_text [sub_seg; f_seg] [])))
    (fun '(res, _) s' => res = unlink_result tree_vol 0 tree_place /\
       exists f', mounted s' 1 f' /\ unlinked tree_vol tree_place [2; 3] res (Build_vol f' (dev s'))) tree_ff.
Proof.
  apply (f_unlink_correct tree_ff 1 demo_fs true [sub_seg; f_seg] [] [Static] tree_place 0 [2; 3] tree_mounted tree_vol_ok tree_layout);
    [done|apply ram_status|done|done|exact tree_walk|exact tree_removable].
Defined.
