(* ===== verification/StringUtil.v ===== *)
(** * Character strings: conversion, search and formatting

    [Sming/system/include/stringutil.h], [stringutil.cpp], the integer
    conversions of [stringconversion.cpp], and [m_printf.cpp].  A C string is
    the list of its characters without the terminator.  Floating point is not
    modelled: the type of doubles and [dtostrf_p] are parameters of the
    formatter. *)

From S2P Require Import Prelude.

(** ** [stringutil.h] *)

Definition hexchar (c : Z) : Z := if c <? 10 then 0x30 + c else if c <=? 15 then 0x61 + c - 10 else 0.

Definition unhex (c : Z) : Z :=
  if (0x30 <=? c) && (c <=? 0x39) then c - 0x30
  else if (0x61 <=? c) && (c <=? 0x66) then 10 + c - 0x61
  else if (0x41 <=? c) && (c <=? 0x46) then 10 + c - 0x41
  else -1.

(** [tolower] in the C locale. *)
Definition tolower (c : Z) : Z := if (0x41 <=? c) && (c <=? 0x5a) then c + 32 else c.

(** ** [strstri]

    The loop over the rest of the string, [i] characters into it, with
    [matchIndex] characters of the token matched; the result is an index. *)
Definition strstri_body (token : list Z) (st : list Z * Z * Z) : list Z * Z * Z + option Z :=
  let '(s, i, matchIndex) := st in
  match s with
  | [] => inr None
  | c :: s' =>
      if tolower c =? tolower (getb token matchIndex) then
        if zlen token <=? matchIndex + 1 then inr (Some (i - matchIndex)) else inl (s', i + 1, matchIndex + 1)
      else if nz matchIndex then inl (s, i, 0) else inl (s', i + 1, 0)
  end.
Fixpoint strstri_loop (fuel : nat) (token : list Z) (st : list Z * Z * Z) : option (option Z) :=
  match fuel with
  | O => None
  | S fuel => match strstri_body token st with inl st => strstri_loop fuel token st | inr r => Some r end
  end.
Definition strstri (s token : list Z) : option (option Z) :=
  match token with
  | [] => Some None
  | _ => strstri_loop (2 * length s + 1) token (s, 0, 0)
  end.

(** ** [stringconversion.cpp]

    The loop writes digits downwards from [buf[38]]; [i] is the index, so at
    most 38 digits are written. *)
Fixpoint put_digits (i : nat) (val base : Z) (acc : list Z) : list Z :=
  match i with
  | O => acc
  | S i' => if val =? 0 then acc else put_digits i' (val / base) base (hexchar (val mod base) :: acc)
  end.

(** Digits, sign and padding in front, as [ltoa_wp] leaves them in [buffer]. *)
Definition pad_left (width pad : Z) (s : list Z) : list Z := replicate (Z.to_nat (width - zlen s)) pad ++ s.
Definition digits_of (val base : Z) : list Z := if val =? 0 then [0x30] else put_digits 38 val base [].

(** [None]: the negation of the least [long] overflows. *)
Definition ltoa_wp (val base width pad : Z) : option (list Z) :=
  let ngt := val <? 0 in
  if val =? - 2 ^ 31 then None else
  Some (pad_left width pad ((if ngt then [0x2d] else []) ++ digits_of (if ngt then - val else val) base)).
Definition ltoa_w (val base width : Z) : option (list Z) := ltoa_wp val base width 0x20.
Definition ltoa (val base : Z) : option (list Z) := ltoa_w val base 0.

Definition ultoa_wp (val base width pad : Z) : list Z := pad_left width pad (digits_of val base).
(** The width is not passed on. *)
Definition ultoa_w (val base width : Z) : list Z := ultoa_wp val base 0 0x20.
Definition ultoa (val base : Z) : list Z := ultoa_w val base 0.

(** ** [m_printf.cpp] *)

Definition is_digit (c : Z) : bool := (0x30 <=? c) && (c <=? 0x39).
Definition is_print (c : Z) : bool := (0x20 <=? c) && (c <=? 0x7e).

(** The value and the rest of the string. *)
Fixpoint skip_atoi (s : list Z) (i : Z) : Z * list Z :=
  match s with
  | c :: s' => if is_digit c then skip_atoi s' (i * 10 + c - 0x30) else (i, s)
  | [] => (i, [])
  end.

Section Printf.
Context {double : Type} (dtostrf_p : double -> Z -> Z -> Z -> list Z).

(** The variable arguments. *)
Inductive va_arg :=
  | va_int (x : Z)
  | va_str (s : option (list Z))
  | va_ptr (p : Z)
  | va_double (d : double).

(** Flags, padding, width and precision of one conversion. *)
Record attributes := { minus : bool; pad : Z; width : Z; precision : Z }.

Fixpoint skip_flags (fmt : list Z) (m : bool) : bool * list Z :=
  match fmt with
  | f :: fmt' =>
      if f =? 0x2d then skip_flags fmt' true
      else if (f =? 0x2b) || (f =? 0x20) || (f =? 0x23) then skip_flags fmt' m
      else (m, fmt)
  | [] => (m, [])
  end.
Fixpoint skip_length (fmt : list Z) : list Z :=
  match fmt with
  | f :: fmt' => if (f =? 0x6c) || (f =? 0x68) || (f =? 0x4c) then skip_length fmt' else fmt
  | [] => []
  end.

(** Lines 118-152. *)
Definition parse_attributes (fmt : list Z) : attributes * list Z :=
  let '(m, fmt) := skip_flags fmt false in
  let '(p, fmt) := match fmt with c :: r => if c =? 0x30 then (0x30, r) else (0x20, fmt) | [] => (0x20, fmt) end in
  let '(w, fmt) := match fmt with c :: _ => if is_digit c then let '(n, r) := skip_atoi fmt 0 in (s8 n, r) else (0, fmt) | [] => (0, fmt) end in
  let '(pr, fmt) :=
    match fmt with
    | c :: r => if c =? 0x2e then
                  match r with d :: _ => if is_digit d then let '(n, r) := skip_atoi r 0 in (s8 n, r) else (-1, r) | [] => (-1, r) end
                else (-1, fmt)
    | [] => (-1, fmt)
    end in
  ({| minus := m; pad := p; width := w; precision := pr |}, skip_length fmt).

(** A number in [tempNum], a buffer of 40 characters. *)
Definition in_temp (s : list Z) (args : list va_arg) : option (list Z * list va_arg) :=
  if zlen s <? 40 then Some (s, args) else None.

(** Lines 155-214: the characters of one conversion and the remaining
    arguments.  [None] is undefined behaviour: a missing argument or one of
    another type, a number that overruns its buffer or cannot be negated. *)
Definition convert (a : attributes) (f : Z) (args : list va_arg) : option (list Z * list va_arg) :=
  if f =? 0x25 then Some ([0x25], args)
  else if f =? 0x63 then match args with va_int x :: args => Some ([u8 x], args) | _ => None end
  else if f =? 0x73 then
    match args with
    | va_str s :: args =>
        let s := default (string_bytes "(null)"%string) s in
        let len := if (precision a >=? 0) && (zlen s >? precision a) then precision a else zlen s in
        let spaces := replicate (Z.to_nat (width a - len)) 0x20 in
        Some ((if minus a then [] else spaces) ++ take (Z.to_nat len) s ++ (if minus a then spaces else []), args)
    | _ => None
    end
  else if f =? 0x70 then match args with va_ptr p :: args => in_temp (ultoa p 16) args | _ => None end
  else if (f =? 0x64) || (f =? 0x69) then
    match args with
    | va_int x :: args => match ltoa_wp (s32 x) 10 (width a) (pad a) with Some s => in_temp s args | None => None end
    | _ => None
    end
  else if f =? 0x66 then
    match args with va_double d :: args => in_temp (dtostrf_p d (width a) (precision a) (pad a)) args | _ => None end
  else
    let ubase := if f =? 0x6f then 8 else if (f =? 0x78) || (f =? 0x58) then 16 else if f =? 0x75 then 10 else 0 in
    if nz ubase then
      match args with va_int x :: args => in_temp (ultoa_wp (u32 x) ubase (width a) (pad a)) args | _ => None end
    else Some ([0x25; f], args).

(** The destination: the buffer, the next index, and the count.  A store
    outside the buffer is a fault. *)
Record dest := { buf : list Z; next : Z; count : Z }.
Definition put_char (o : dest) (c : Z) : option (list Z) :=
  if (0 <=? next o) && (next o <? zlen (buf o)) then Some (setb (buf o) (next o) c) else None.
Definition add (maxLen : Z) (o : dest) (c : Z) : option dest :=
  let n := u32 (count o + 1) in
  if n <? maxLen then (fun b => {| buf := b; next := next o + 1; count := n |}) <$> put_char o c
  else Some {| buf := buf o; next := next o; count := n |}.
Fixpoint add_all (maxLen : Z) (o : dest) (s : list Z) : option dest :=
  match s with
  | [] => Some o
  | c :: s => match add maxLen o c with Some o => add_all maxLen o s | None => None end
  end.

(** The loop; a [%] at the end of the format is undefined behaviour. *)
Fixpoint vsnprintf_loop (fuel : nat) (maxLen : Z) (fmt : list Z) (args : list va_arg) (o : dest) : option dest :=
  match fuel with
  | O => None
  | S fuel =>
      match fmt with
      | [] => Some o
      | c :: fmt =>
          if negb (c =? 0x25) then match add maxLen o c with Some o => vsnprintf_loop fuel maxLen fmt args o | None => None end
          else
            let '(a, fmt) := parse_attributes fmt in
            match fmt with
            | [] => None
            | f :: fmt =>
                match convert a f args with
                | Some (s, args) => match add_all maxLen o s with Some o => vsnprintf_loop fuel maxLen fmt args o | None => None end
                | None => None
                end
            end
      end
  end.

(** The buffer and the return value. *)
Definition m_vsnprintf (b : list Z) (maxLen : Z) (fmt : list Z) (args : list va_arg) : option (list Z * Z) :=
  match vsnprintf_loop (S (length fmt)) maxLen fmt args {| buf := b; next := 0; count := 0 |} with
  | Some o => (fun b => (b, count o)) <$> put_char o 0
  | None => None
  end.
Definition m_snprintf := m_vsnprintf.

(** What the callback of [m_setPuts] is given. *)
Definition MPRINTF_BUF_SIZE : Z := 256.
Definition m_vprintf (fmt : list Z) (args : list va_arg) : option (list Z) :=
  match m_vsnprintf (replicate (Z.to_nat MPRINTF_BUF_SIZE) 0) MPRINTF_BUF_SIZE fmt args with
  | Some (b, len) => Some (take (Z.to_nat (Z.min len MPRINTF_BUF_SIZE)) b)
  | None => None
  end.

(** ** The text the loop adds *)

Fixpoint render (fuel : nat) (fmt : list Z) (args : list va_arg) : option (list Z) :=
  match fuel with
  | O => None
  | S fuel =>
      match fmt with
      | [] => Some []
      | c :: fmt =>
          if negb (c =? 0x25) then cons c <$> render fuel fmt args
          else
            let '(a, fmt) := parse_attributes fmt in
            match fmt with
            | [] => None
            | f :: fmt =>
                match convert a f args with
                | Some (s, args) => app s <$> render fuel fmt args
                | None => None
                end
            end
      end
  end.

(** The fuel is the length of the format: a conversion never grows it. *)
Lemma skip_atoi_length s i : (length (snd (skip_atoi s i)) <= length s)%nat.
Proof. revert i. induction s as [|c s IH]; intros i; cbn; [lia|]. destruct (is_digit c); [|cbn; lia]. specialize (IH (i * 10 + c - 0x30)). lia. Qed.

Lemma skip_flags_length fmt m : (length (snd (skip_flags fmt m)) <= length fmt)%nat.
Proof.
  revert m. induction fmt as [|c fmt IH]; intros m; cbn; [lia|]. destruct (c =? 0x2d); [specialize (IH true); lia|].
  destruct (_ || _); [specialize (IH m); lia|cbn; lia].
Qed.

Lemma skip_length_length fmt : (length (skip_length fmt) <= length fmt)%nat.
Proof. induction fmt as [|c fmt IH]; cbn; [lia|]. destruct (_ || _); cbn; lia. Qed.

Lemma parse_attributes_length fmt : (length (snd (parse_attributes fmt)) <= length fmt)%nat.
Proof.
  unfold parse_attributes. pose proof (skip_flags_length fmt false) as H1. destruct (skip_flags fmt false) as [m f1]. cbn [snd] in H1.
  set (r2 := match f1 with c :: r => _ | [] => _ end). assert (length (snd r2) <= length f1)%nat as H2.
  { unfold r2. destruct f1 as [|c r]; [cbn; lia|]. destruct (c =? 0x30); cbn; lia. }
  destruct r2 as [p f2]. cbn [snd] in H2.
  set (r3 := match f2 with c :: _ => _ | [] => _ end). assert (length (snd r3) <= length f2)%nat as H3.
  { unfold r3. destruct f2 as [|c r]; [cbn; lia|]. destruct (is_digit c); [|cbn; lia].
    pose proof (skip_atoi_length (c :: r) 0) as Hs. destruct (skip_atoi (c :: r) 0). exact Hs. }
  destruct r3 as [w f3]. cbn [snd] in H3.
  set (r4 := match f3 with c :: r => _ | [] => _ end). assert (length (snd r4) <= length f3)%nat as H4.
  { unfold r4. destruct f3 as [|c r]; [cbn; lia|]. destruct (c =? 0x2e); [|cbn; lia]. destruct r as [|d r]; [cbn; lia|].
    destruct (is_digit d); [|cbn; lia]. pose proof (skip_atoi_length (d :: r) 0) as Hs. destruct (skip_atoi (d :: r) 0). cbn in *. lia. }
  destruct r4 as [pr f4]. cbn [snd] in *. pose proof (skip_length_length f4). lia.
Qed.

Lemma render_fuel fmt args n m : (length fmt < n)%nat -> (length fmt < m)%nat -> render n fmt args = render m fmt args.
Proof.
  revert fmt args m. induction n as [|n IH]; intros fmt args m Hn Hm; [lia|]. destruct m as [|m]; [lia|]. cbn.
  destruct fmt as [|c fmt]; [done|]. cbn in Hn, Hm. destruct (negb _); [by rewrite (IH fmt args m) by lia|].
  pose proof (parse_attributes_length fmt) as Hl. destruct (parse_attributes fmt) as [a f]. cbn [snd] in Hl.
  destruct f as [|x f]; [done|]. cbn in Hl. destruct (convert a x args) as [[t args']|]; [|done].
  by rewrite (IH f args' m) by lia.
Qed.

(** The destination after [t] characters. *)
Definition holds (b : list Z) (maxLen : Z) (t : list Z) : dest :=
  {| buf := splice b 0 (take (Z.to_nat (maxLen - 1)) t); next := Z.min (zlen t) (maxLen - 1); count := zlen t |}.

Lemma put_char_in o c : 0 <= next o < zlen (buf o) -> put_char o c = Some (setb (buf o) (next o) c).
Proof. intros H. unfold put_char. by rewrite (proj2 (Z.leb_le _ _)), (proj2 (Z.ltb_lt _ _)) by lia. Qed.

Lemma zlen_holds b maxLen t : 1 <= maxLen <= zlen b -> zlen (buf (holds b maxLen t)) = zlen b.
Proof. intros Hm. cbn. unfold zlen in *. rewrite length_splice; [done|]. rewrite length_take. lia. Qed.

Lemma add_holds b maxLen t c :
  1 <= maxLen <= zlen b -> zlen t + 1 < 2 ^ 32 -> add maxLen (holds b maxLen t) c = Some (holds b maxLen (t ++ [c])).
Proof.
  intros Hm Ht. pose proof (zlen_nonneg t). unfold add. rewrite u32_small by (unfold is_u32; cbn; lia). cbn [count holds].
  destruct (Z.ltb_spec (zlen t + 1) maxLen) as [Hlt|Hge].
  - rewrite put_char_in by (rewrite zlen_holds by done; cbn; lia). unfold holds. cbn [buf next count fmap option_fmap option_map]. f_equal.
    rewrite zlen_app. change (zlen [c]) with 1. rewrite Z.min_l, Z.min_l by lia. f_equal. rewrite !take_ge by (rewrite ?length_app; unfold zlen in *; cbn; lia).
    rewrite <- splice_snoc by (unfold zlen in *; lia). done.
  - unfold holds. cbn [buf next count]. rewrite zlen_app. change (zlen [c]) with 1. rewrite Z.min_r, Z.min_r by lia. do 2 f_equal. rewrite take_app_le by (unfold zlen in *; lia). done.
Qed.

Lemma add_all_holds b maxLen s : forall t,
  1 <= maxLen <= zlen b -> zlen t + zlen s < 2 ^ 32 -> add_all maxLen (holds b maxLen t) s = Some (holds b maxLen (t ++ s)).
Proof.
  induction s as [|c s IH]; intros t Hm Ht; [by rewrite app_nil_r|]. rewrite zlen_cons in Ht. cbn [add_all].
  pose proof (zlen_nonneg s). rewrite add_holds, IH by (rewrite ?zlen_app, ?zlen_cons; change (zlen (@nil Z)) with 0; lia). by rewrite <- app_assoc.
Qed.

Lemma vsnprintf_loop_render b maxLen fuel fmt args text : forall t,
  1 <= maxLen <= zlen b -> render fuel fmt args = Some text -> zlen t + zlen text < 2 ^ 32 ->
  vsnprintf_loop fuel maxLen fmt args (holds b maxLen t) = Some (holds b maxLen (t ++ text)).
Proof.
  revert fmt args text. induction fuel as [|fuel IH]; intros fmt args text t Hm Hr Ht; [done|]. cbn in Hr |- *.
  destruct fmt as [|c fmt]; [injection Hr as <-; by rewrite app_nil_r|]. destruct (negb (c =? 0x25)).
  - destruct (render fuel fmt args) as [r|] eqn:E; [|done]. injection Hr as <-. rewrite zlen_cons in Ht. pose proof (zlen_nonneg r).
    rewrite add_holds by lia. rewrite (IH _ _ r) by (done || (rewrite zlen_app; change (zlen [c]) with 1; lia)). by rewrite <- app_assoc.
  - destruct (parse_attributes fmt) as [a [|f fmt']]; [done|]. destruct (convert a f args) as [[s args']|]; [|done].
    destruct (render fuel fmt' args') as [r|] eqn:E; [|done]. injection Hr as <-. rewrite zlen_app in Ht. pose proof (zlen_nonneg r).
    rewrite add_all_holds by lia. rewrite (IH _ _ r) by (done || (rewrite zlen_app; lia)). by rewrite <- app_assoc.
Qed.

Lemma m_vsnprintf_text b maxLen fmt args text :
  render (S (length fmt)) fmt args = Some text -> zlen text < 2 ^ 32 -> 1 <= maxLen <= zlen b ->
  m_vsnprintf b maxLen fmt args = Some (splice b 0 (take (Z.to_nat (maxLen - 1)) text ++ [0]), zlen text).
Proof.
  intros Hr Ht Hm. unfold m_vsnprintf. pose proof (zlen_nonneg text).
  assert ({| buf := b; next := 0; count := 0 |} = holds b maxLen []) as ->.
  { unfold holds. rewrite take_nil, splice_nil. change (zlen (@nil Z)) with 0. by rewrite Z.min_l by lia. }
  rewrite (vsnprintf_loop_render b maxLen _ _ _ text []) by done. cbn [app]. rewrite put_char_in by (rewrite zlen_holds by done; cbn; lia).
  unfold holds. cbn [buf next count fmap option_fmap option_map]. f_equal. f_equal.
  rewrite <- splice_snoc; rewrite length_take; unfold zlen in *; [|lia]. f_equal. lia.
Qed.

(** ** What a format stands for

    Independently of the code: a format is a list of characters and
    conversions, and each conversion has its text. *)

Inductive kind := KPercent | KChar | KString | KPointer | KDecimal (i : bool) | KUnsigned | KOctal | KHex (upper : bool).
#[export] Instance kind_eq_dec : EqDecision kind.
Proof. solve_decision. Defined.
Record directive := { d_flags : list Z; d_zero : bool; d_width : Z; d_precision : option Z; d_length : list Z; d_kind : kind }.
Inductive piece := PText (c : Z) | PConv (d : directive).

(** Positional notation. *)
Definition num_digit (d : Z) : Z := nth (Z.to_nat d) (string_bytes "0123456789abcdef"%string) 0.
Fixpoint numeral_aux (k : nat) (base n : Z) : list Z :=
  match k with
  | O => []
  | S k => if n <? base then [num_digit n] else numeral_aux k base (n / base) ++ [num_digit (n mod base)]
  end.
Definition numeral (base n : Z) : list Z := numeral_aux (S (Z.to_nat (Z.log2 n))) base n.

Definition kind_char (k : kind) : Z :=
  match k with
  | KPercent => 0x25 | KChar => 0x63 | KString => 0x73 | KPointer => 0x70
  | KDecimal i => if i then 0x69 else 0x64
  | KUnsigned => 0x75 | KOctal => 0x6f | KHex upper => if upper then 0x58 else 0x78
  end.
Definition directive_text (d : directive) : list Z :=
  d_flags d ++ (if d_zero d then [0x30] else []) ++ (if d_width d =? 0 then [] else numeral 10 (d_width d)) ++
  (match d_precision d with Some n => 0x2e :: numeral 10 n | None => [] end) ++ d_length d ++ [kind_char (d_kind d)].
Fixpoint pieces_text (ps : list piece) : list Z :=
  match ps with
  | [] => []
  | PText c :: ps => c :: pieces_text ps
  | PConv d :: ps => 0x25 :: directive_text d ++ pieces_text ps
  end.

Definition piece_ok (p : piece) : Prop :=
  match p with
  | PText c => c <> 0x25 /\ c <> 0
  | PConv d =>
      Forall (fun f => f = 0x2d \/ f = 0x2b \/ f = 0x20 \/ f = 0x23) (d_flags d) /\ 0 <= d_width d < 128 /\
      (forall n, d_precision d = Some n -> 0 <= n < 128) /\ Forall (fun c => c = 0x6c \/ c = 0x68 \/ c = 0x4c) (d_length d)
  end.

(** The fields; numbers are padded on the left, also with the flag [-]. *)
Definition fill_left (c w : Z) (t : list Z) : list Z := replicate (Z.to_nat (w - zlen t)) c ++ t.
Definition fill_right (c w : Z) (t : list Z) : list Z := t ++ replicate (Z.to_nat (w - zlen t)) c.
Definition number_text (d : directive) (t : list Z) : option (list Z) :=
  let t := fill_left (if d_zero d then 0x30 else 0x20) (d_width d) t in
  if zlen t <? 40 then Some t else None.
Definition signed_numeral (x : Z) : list Z := if x <? 0 then 0x2d :: numeral 10 (- x) else numeral 10 x.
Definition conv_text (d : directive) (a : va_arg) : option (list Z) :=
  match d_kind d, a with
  | KChar, va_int x => Some [x mod 256]
  | KString, va_str s =>
      let s := default (string_bytes "(null)"%string) s in
      let s := match d_precision d with Some n => take (Z.to_nat n) s | None => s end in
      Some ((if existsb (Z.eqb 0x2d) (d_flags d) then fill_right else fill_left) 0x20 (d_width d) s)
  | KPointer, va_ptr x => if (0 <=? x) && (x <? 2 ^ 32) then Some (numeral 16 x) else None
  | KDecimal _, va_int x => if (- 2 ^ 31 <? x) && (x <? 2 ^ 31) then number_text d (signed_numeral x) else None
  | KUnsigned, va_int x => if (0 <=? x) && (x <? 2 ^ 32) then number_text d (numeral 10 x) else None
  | KOctal, va_int x => if (0 <=? x) && (x <? 2 ^ 32) then number_text d (numeral 8 x) else None
  | KHex _, va_int x => if (0 <=? x) && (x <? 2 ^ 32) then number_text d (numeral 16 x) else None
  | _, _ => None
  end.
Fixpoint meaning (ps : list piece) (args : list va_arg) : option (list Z) :=
  match ps with
  | [] => Some []
  | PText c :: ps => cons c <$> meaning ps args
  | PConv d :: ps =>
      match d_kind d, args with
      | KPercent, _ => cons 0x25 <$> meaning ps args
      | _, a :: args => match conv_text d a with Some t => app t <$> meaning ps args | None => None end
      | _, [] => None
      end
  end.

(** *** The code's numbers *)

Lemma hexchar_digit x : 0 <= x < 16 -> hexchar x = num_digit x.
Proof. intros Hx. apply Z.eqb_eq. apply (forall_range 16 (fun x => hexchar x =? num_digit x)); [vm_compute; reflexivity|done]. Qed.

Lemma put_digits_numeral base i : 2 <= base <= 16 -> forall k n acc, 0 < n < base ^ Z.of_nat i -> n < base ^ Z.of_nat k ->
  put_digits i n base acc = numeral_aux k base n ++ acc.
Proof.
  intros Hb. induction i as [|i IH]; intros k n acc Hn Hk; [cbn in Hn; lia|]. destruct k as [|k]; [cbn in Hk; lia|]. cbn [put_digits numeral_aux].
  rewrite (proj2 (Z.eqb_neq n 0)) by lia. rewrite Nat2Z.inj_succ, Z.pow_succ_r in Hn, Hk by lia. destruct (Z.ltb_spec n base) as [Hlt|Hge].
  - rewrite Z.div_small, Z.mod_small, hexchar_digit by lia. by destruct i.
  - assert (0 < n / base) by (apply Z.div_str_pos; lia). rewrite hexchar_digit by (pose proof (Z.mod_pos_bound n base); lia).
    rewrite (IH k) by (split_and?; try lia; apply Z.div_lt_upper_bound; lia). by rewrite <- app_assoc.
Qed.

Lemma numeral_small base n k : 2 <= base -> 0 <= n < base -> numeral_aux (S k) base n = [num_digit n].
Proof. intros Hb Hn. cbn. by rewrite (proj2 (Z.ltb_lt _ _)) by lia. Qed.

Lemma digits_of_numeral base n : 2 <= base <= 16 -> 0 <= n < 2 ^ 32 -> digits_of n base = numeral base n.
Proof.
  intros Hb Hn. unfold digits_of, numeral. destruct (Z.eqb_spec n 0) as [->|Hz]; [rewrite numeral_small by lia; done|].
  assert (forall k, 2 ^ Z.of_nat k <= base ^ Z.of_nat k) as Hpow by (intros k; apply Z.pow_le_mono_l; lia).
  rewrite (put_digits_numeral base 38 Hb (S (Z.to_nat (Z.log2 n))) n []); [apply app_nil_r| |].
  - split; [lia|]. specialize (Hpow 38%nat). change (2 ^ Z.of_nat 38) with 274877906944 in Hpow. lia.
  - specialize (Hpow (S (Z.to_nat (Z.log2 n)))). pose proof (Z.log2_nonneg n). rewrite Nat2Z.inj_succ, Z2Nat.id in * by done. pose proof (Z.log2_spec n). lia.
Qed.

(** *** The code's parser *)

Definition plain (r : list Z) : Prop := match r with c :: _ => is_digit c = false | [] => True end.

Lemma skip_atoi_all t : forall i r, Forall (fun c => is_digit c = true) t -> plain r ->
  skip_atoi (t ++ r) i = (foldl (fun i c => i * 10 + c - 0x30) i t, r).
Proof.
  induction t as [|c t IH]; intros i r Ht Hr; cbn [app foldl].
  - destruct r as [|c r]; [done|]. cbn in *. by rewrite Hr.
  - apply Forall_cons_1 in Ht as [Hc Ht]. cbn. rewrite Hc. by apply IH.
Qed.

Lemma numeral_width n : 0 <= n < 128 ->
  Forall (fun c => is_digit c = true) (numeral 10 n) /\ foldl (fun i c => i * 10 + c - 0x30) 0 (numeral 10 n) = n /\
  exists c t, numeral 10 n = c :: t /\ is_digit c = true /\ (n <> 0 -> c <> 0x30).
Proof.
  intros Hn. pose proof (forall_range 128 (fun n => forallb is_digit (numeral 10 n) && (foldl (fun i c => i * 10 + c - 0x30) 0 (numeral 10 n) =? n) &&
    match numeral 10 n with c :: _ => is_digit c && ((n =? 0) || negb (c =? 0x30)) | [] => false end) ltac:(vm_compute; reflexivity) n Hn) as E.
  cbv beta in E. apply andb_true_iff in E as [[E1 E2]%andb_true_iff E3]. split; [|split].
  - apply Forall_forall. intros c Hc. rewrite forallb_forall in E1. apply E1. by apply list_elem_of_In.
  - by apply Z.eqb_eq.
  - destruct (numeral 10 n) as [|c t]; [done|]. apply andb_true_iff in E3 as [E3 E4]. exists c, t. split; [done|]. split; [done|].
    intros Hz. apply orb_true_iff in E4 as [E4|E4]; [by apply Z.eqb_eq in E4|]. apply negb_true_iff in E4. by apply Z.eqb_neq.
Qed.

Lemma skip_numeral n r : 0 <= n < 128 -> plain r -> skip_atoi (numeral 10 n ++ r) 0 = (n, r).
Proof. intros Hn Hr. destruct (numeral_width n Hn) as (H1 & H2 & _). rewrite skip_atoi_all by done. by rewrite H2. Qed.

Lemma skip_flags_text fl : forall m r, Forall (fun f => f = 0x2d \/ f = 0x2b \/ f = 0x20 \/ f = 0x23) fl ->
  match r with c :: _ => c <> 0x2d /\ c <> 0x2b /\ c <> 0x20 /\ c <> 0x23 | [] => True end ->
  skip_flags (fl ++ r) m = (m || existsb (Z.eqb 0x2d) fl, r).
Proof.
  induction fl as [|f fl IH]; intros m r Hf Hr.
  - cbn [app existsb]. rewrite orb_false_r. destruct r as [|c r]; [done|]. cbn. destruct Hr as (H1 & H2 & H3 & H4).
    by rewrite !(proj2 (Z.eqb_neq c _)) by done.
  - apply Forall_cons_1 in Hf as [Hc Hf]. destruct Hc as [->|[->|[->| ->]]]; cbn; rewrite IH by done; [by rewrite orb_true_r|done..].
Qed.

Lemma skip_length_text ls k r : Forall (fun c => c = 0x6c \/ c = 0x68 \/ c = 0x4c) ls -> skip_length (ls ++ kind_char k :: r) = kind_char k :: r.
Proof.
  induction ls as [|c ls IH]; intros Hl; [by destruct k as [| | | |[]| | |[]]|].
  apply Forall_cons_1 in Hl as [Hc Hl]. destruct Hc as [->|[->| ->]]; cbn; by apply IH.
Qed.

(** A character that begins none of the parts in front of it. *)
Definition later (c : Z) : Prop := is_digit c = false /\ c <> 0x30 /\ c <> 0x2d /\ c <> 0x2b /\ c <> 0x20 /\ c <> 0x23.

Lemma length_part d r : piece_ok (PConv d) -> exists c t, d_length d ++ kind_char (d_kind d) :: r = c :: t /\ later c /\ c <> 0x2e.
Proof.
  intros (_ & _ & _ & Hl). destruct (d_length d) as [|c ls].
  - eexists _, _. split; [done|]. by destruct (d_kind d) as [| | | |[]| | |[]].
  - apply Forall_cons_1 in Hl as [Hc _]. eexists _, _. split; [done|]. by destruct Hc as [->|[->| ->]].
Qed.

Lemma parse_precision d r : piece_ok (PConv d) ->
  let fmt := (match d_precision d with Some n => 0x2e :: numeral 10 n | None => [] end) ++ d_length d ++ kind_char (d_kind d) :: r in
  (exists c t, fmt = c :: t /\ later c) /\
  match fmt with
  | c :: r => if c =? 0x2e then
                match r with d :: _ => if is_digit d then let '(n, r) := skip_atoi r 0 in (s8 n, r) else (-1, r) | [] => (-1, r) end
              else (-1, fmt)
  | [] => (-1, fmt)
  end = (default (-1) (d_precision d), d_length d ++ kind_char (d_kind d) :: r).
Proof.
  intros Hok fmt. destruct (length_part d r Hok) as (c & t & E & Hc & Hdot). destruct (d_precision d) as [n|] eqn:Ep; cbn [app] in fmt; unfold fmt.
  - destruct Hok as (_ & _ & Hp & _). specialize (Hp n Ep). split; [eexists _, _; split; [done|]; done|]. change (0x2e =? 0x2e) with true. cbv iota.
    destruct (numeral_width n Hp) as (_ & _ & x & y & En & Hx & _).
    pose proof (skip_numeral n (d_length d ++ kind_char (d_kind d) :: r) Hp) as Es. rewrite En in *. cbn [app] in *. rewrite Hx, Es by (rewrite E; apply Hc). cbn [default from_option]. unfold id.
    by rewrite s8_small by lia.
  - rewrite E. split; [eexists _, _; split; [done|]; done|]. by rewrite (proj2 (Z.eqb_neq c 0x2e)) by done.
Qed.

Lemma parse_directive d r : piece_ok (PConv d) ->
  parse_attributes (directive_text d ++ r) =
  ({| minus := existsb (Z.eqb 0x2d) (d_flags d); pad := if d_zero d then 0x30 else 0x20; width := d_width d; precision := default (-1) (d_precision d) |},
   kind_char (d_kind d) :: r).
Proof.
  intros Hok. destruct (parse_precision d r Hok) as [(c & t & Et & Hc) Hp]. destruct Hok as (Hf & Hw & _ & Hl).
  set (t3 := (match d_precision d with Some n => 0x2e :: numeral 10 n | None => [] end) ++ d_length d ++ kind_char (d_kind d) :: r) in *.
  set (t2 := (if d_width d =? 0 then [] else numeral 10 (d_width d)) ++ t3).
  assert (directive_text d ++ r = d_flags d ++ (if d_zero d then [0x30] else []) ++ t2) as -> by (unfold directive_text, t2, t3; by rewrite <- !app_assoc).
  assert (exists x y, t2 = x :: y /\ x <> 0x30 /\ x <> 0x2d /\ x <> 0x2b /\ x <> 0x20 /\ x <> 0x23 /\
    (if is_digit x then let '(n, r) := skip_atoi t2 0 in (s8 n, r) else (0, t2)) = (d_width d, t3)) as (x & y & E2 & H30 & H2d & H2b & H20 & H23 & Ew).
  { unfold t2. destruct (Z.eqb_spec (d_width d) 0) as [E0|E0].
    - cbn [app]. exists c, t. destruct Hc as (Hd & Hc). rewrite Hd, E0. repeat split; try done; apply Hc.
    - destruct (numeral_width (d_width d) Hw) as (_ & _ & x & y & En & Hx & Hnz). exists x, (y ++ t3). rewrite En. split; [done|]. split; [by apply Hnz|]. rewrite Hx, <- En.
      rewrite skip_numeral by (first [done|rewrite Et; apply Hc]). rewrite s8_small by lia. unfold is_digit in Hx. apply andb_true_iff in Hx as [Hx%Z.leb_le _]. repeat split; lia || done. }
  unfold parse_attributes. rewrite skip_flags_text; [|done|by destruct (d_zero d); cbn [app]; [|rewrite E2]]. cbn [orb].
  assert (match (if d_zero d then [0x30] else []) ++ t2 with c :: r => if c =? 0x30 then (0x30, r) else (0x20, (if d_zero d then [0x30] else []) ++ t2) | [] => (0x20, (if d_zero d then [0x30] else []) ++ t2) end
    = (if d_zero d then 0x30 else 0x20, t2)) as ->.
  { destruct (d_zero d); [done|]. cbn [app]. rewrite E2. by rewrite (proj2 (Z.eqb_neq x 0x30)) by done. }
  rewrite E2 in Ew |- *. rewrite Ew, Hp. by rewrite skip_length_text.
Qed.

(** *** The code's conversions *)

Lemma pad_left_fill w c t : pad_left w c t = fill_left c w t.
Proof. done. Qed.

Lemma numeral_len base n : 0 <= n < 2 ^ 32 -> zlen (numeral base n) < 40.
Proof.
  intros Hn. assert (forall k n, (length (numeral_aux k base n) <= k)%nat) as H.
  { induction k as [|k IH]; intros m; cbn; [lia|]. destruct (m <? base); [cbn; lia|]. rewrite length_app. specialize (IH (m / base)). cbn. lia. }
  unfold numeral, zlen. specialize (H (S (Z.to_nat (Z.log2 n))) n). pose proof (Z.log2_nonneg n).
  assert (Z.log2 n < 32) by (destruct (Z.eq_dec n 0) as [->|]; [done|apply Z.log2_lt_pow2; lia]). lia.
Qed.

Lemma in_temp_some t args t' : (if zlen t <? 40 then Some t else None) = Some t' -> in_temp t args = Some (t', args).
Proof. unfold in_temp. destruct (zlen t <? 40); [|done]. by intros [= <-]. Qed.

Lemma convert_unsigned d base x t (args : list va_arg) : 2 <= base <= 16 ->
  (if (0 <=? x) && (x <? 2 ^ 32) then number_text d (numeral base x) else None) = Some t ->
  in_temp (ultoa_wp (u32 x) base (d_width d) (if d_zero d then 0x30 else 0x20)) args = Some (t, args).
Proof.
  intros Hb E. destruct (Z.leb_spec 0 x), (Z.ltb_spec x (2 ^ 32)); try discriminate E. cbn [andb] in E.
  unfold ultoa_wp. rewrite u32_small, digits_of_numeral by (unfold is_u32; lia). by apply in_temp_some.
Qed.

Lemma convert_conv_text d a args t : piece_ok (PConv d) -> conv_text d a = Some t ->
  convert {| minus := existsb (Z.eqb 0x2d) (d_flags d); pad := if d_zero d then 0x30 else 0x20; width := d_width d; precision := default (-1) (d_precision d) |}
    (kind_char (d_kind d)) (a :: args) = Some (t, args).
Proof.
  intros (_ & Hw & Hp & _) E. unfold conv_text, number_text in E.
  destruct (d_kind d) as [| | | |i| | |up], a as [x|x|x|x]; try discriminate E; unfold convert; cbn [kind_char].
  - injection E as <-. done.
  - injection E as <-. cbn [width precision minus]. set (s := default _ x). cbv beta iota zeta. change (0x73 =? 0x25) with false. change (0x73 =? 0x63) with false. change (0x73 =? 0x73) with true. cbv iota.
    assert ((if (default (-1) (d_precision d) >=? 0) && (zlen s >? default (-1) (d_precision d)) then default (-1) (d_precision d) else zlen s) =
      zlen (match d_precision d with Some n => take (Z.to_nat n) s | None => s end)) as ->.
    { pose proof (zlen_nonneg s). destruct (d_precision d) as [n|]; cbn [default from_option]; unfold id; [|done]. specialize (Hp n eq_refl). rewrite zlen_take.
      rewrite (Z.geb_leb n), (proj2 (Z.leb_le 0 n)), Z.gtb_ltb by lia. cbn [andb]. destruct (Z.ltb_spec n (zlen s)); lia. }
    assert (take (Z.to_nat (zlen (match d_precision d with Some n => take (Z.to_nat n) s | None => s end))) s = match d_precision d with Some n => take (Z.to_nat n) s | None => s end) as ->.
    { unfold zlen. rewrite Nat2Z.id. destruct (d_precision d) as [n|]; [|apply firstn_all]. rewrite length_take. destruct (decide (Z.to_nat n <= length s)%nat); [by rewrite Nat.min_l by done|].
      rewrite Nat.min_r, !take_ge by lia. done. }
    destruct (existsb _ (d_flags d)); cbn [app]; rewrite ?app_nil_r; done.
  - destruct (Z.leb_spec 0 x), (Z.ltb_spec x (2 ^ 32)); try discriminate E. injection E as <-. cbn [Z.eqb Pos.eqb].
    unfold ultoa, ultoa_w, ultoa_wp. rewrite digits_of_numeral by lia. unfold pad_left. replace (Z.to_nat (0 - _)) with 0%nat by (pose proof (zlen_nonneg (numeral 16 x)); lia). cbn [replicate app].
    unfold in_temp. by rewrite (proj2 (Z.ltb_lt _ _)) by (by apply numeral_len).
  - destruct (Z.ltb_spec (- 2 ^ 31) x), (Z.ltb_spec x (2 ^ 31)); try discriminate E.
    assert (ltoa_wp (s32 x) 10 (d_width d) (if d_zero d then 0x30 else 0x20) = Some (fill_left (if d_zero d then 0x30 else 0x20) (d_width d) (signed_numeral x))) as El.
    { rewrite s32_small by lia. unfold ltoa_wp. rewrite (proj2 (Z.eqb_neq x _)) by lia. do 2 f_equal. unfold signed_numeral. destruct (Z.ltb_spec x 0); rewrite digits_of_numeral by lia; done. }
    destruct i; cbn [Z.eqb Pos.eqb orb width pad]; rewrite El; by apply in_temp_some.
  - by apply (convert_unsigned d 10).
  - by apply (convert_unsigned d 8).
  - destruct up; by apply (convert_unsigned d 16).
Qed.

(** The parser and the conversions together. *)
Lemma render_meaning ps : forall args text fuel, Forall piece_ok ps -> meaning ps args = Some text -> (length (pieces_text ps) < fuel)%nat ->
  render fuel (pieces_text ps) args = Some text.
Proof.
  induction ps as [|p ps IH]; intros args text fuel Hok E Hf; (destruct fuel as [|fuel]; [lia|]); [done|]. apply Forall_cons_1 in Hok as [Hp Hok].
  destruct p as [c|d]; cbn [pieces_text meaning] in *; cbn [render].
  - destruct Hp as [Hp _]. rewrite (proj2 (Z.eqb_neq c 0x25)) by done. cbn [negb]. destruct (meaning ps args) as [t|] eqn:Em; [|done]. injection E as <-. cbn in Hf. rewrite (IH args t) by (done || lia). done.
  - change (negb (0x25 =? 0x25)) with false. cbv iota. rewrite parse_directive by done. cbn [length] in Hf. rewrite length_app in Hf.
    assert (length (directive_text d) <> 0%nat) as Hd by (unfold directive_text; rewrite !length_app; cbn; lia).
    destruct (decide (d_kind d = KPercent)) as [Ek|Ek].
    + rewrite Ek in *. destruct (meaning ps args) as [t|] eqn:Em; [|done]. injection E as <-. cbn. rewrite (IH args t) by (done || lia). done.
    + assert (exists a args' t t', args = a :: args' /\ conv_text d a = Some t /\ meaning ps args' = Some t' /\ text = t ++ t') as (a & args' & t & t' & -> & Ef & Em & ->).
      { destruct (d_kind d); [done|..]; (destruct args as [|a args']; [done|]); (destruct (conv_text d a) as [t|] eqn:Ef; [|done]); (destruct (meaning ps args') as [t'|] eqn:Em; [|done]); injection E as <-; eauto 10. }
      rewrite (convert_conv_text d a args' t) by done. rewrite (IH args' t') by (done || lia). done.
Qed.

End Printf.

(** ** Searching *)

(** The token occurs at index [j], ignoring case. *)
Definition occurs_at (s token : list Z) (j : Z) : Prop :=
  0 <= j /\ j + zlen token <= zlen s /\ forall k, 0 <= k < zlen token -> tolower (getb s (j + k)) = tolower (getb token k).

Lemma strstri_loop_sound token pre fuel : forall s i m pre',
  pre = pre' ++ s -> zlen pre' = i -> 0 <= m < zlen token -> m <= i ->
  (forall k, 0 <= k < m -> tolower (getb pre (i - m + k)) = tolower (getb token k)) ->
  (2 * length s + (if nz m then 1 else 0) < fuel)%nat ->
  exists r, strstri_loop fuel token (s, i, m) = Some r /\ forall j, r = Some j -> occurs_at pre token j.
Proof.
  induction fuel as [|fuel IH]; intros s i m pre' Ep Ei Hm Hmi Hk Hf; [lia|]. cbn.
  destruct s as [|c s]; [by eexists|]. assert (getb pre i = c) as Ec.
  { rewrite Ep, getb_app_r by lia. replace (i - zlen pre') with 0 by lia. done. }
  assert (zlen pre = i + 1 + zlen s) as El by (rewrite Ep, zlen_app, zlen_cons; lia). pose proof (zlen_nonneg s).
  destruct (Z.eqb_spec (tolower c) (tolower (getb token m))) as [E|E].
  - destruct (Z.leb_spec (zlen token) (m + 1)) as [Hend|Hmore].
    + eexists. split; [done|]. intros j [= <-]. split; [lia|]. split; [lia|]. intros k Hk'.
      destruct (Z.eq_dec k m) as [->|]; [replace (i - m + m) with i by lia; by rewrite Ec|apply Hk; lia].
    + apply (IH _ _ _ (pre' ++ [c])); try lia.
      * by rewrite <- app_assoc.
      * rewrite zlen_app. change (zlen [c]) with 1. lia.
      * intros k Hk'. replace (i + 1 - (m + 1) + k) with (i - m + k) by lia.
        destruct (Z.eq_dec k m) as [->|]; [replace (i - m + m) with i by lia; by rewrite Ec|apply Hk; lia].
      * cbn [length] in Hf. destruct (nz m), (nz (m + 1)); lia.
  - destruct (nz m) eqn:Em.
    + apply (IH _ _ _ pre'); try done; try lia. change (nz 0) with false. cbn [length] in *. lia.
    + apply (IH _ _ _ (pre' ++ [c])); try lia.
      * by rewrite <- app_assoc.
      * rewrite zlen_app. change (zlen [c]) with 1. lia.
      * change (nz 0) with false. cbn [length] in *. lia.
Qed.

(** [strstri] always returns, and an index it returns is an occurrence of the
    token. *)
Theorem strstri_sound s token :
  exists r, strstri s token = Some r /\ forall j, r = Some j -> token <> [] /\ occurs_at s token j.
Proof.
  unfold strstri. destruct token as [|t token]; [by eexists|].
  destruct (strstri_loop_sound (t :: token) s (2 * length s + 1) s 0 0 []) as (r & -> & Hr);
    [done|done|rewrite zlen_cons; pose proof (zlen_nonneg token); lia|lia|intros k Hk; lia|cbn; lia|].
  exists r. split; [done|]. intros j Hj. split; [done|]. by apply Hr.
Qed.

(** It can miss an occurrence: after a partial match it goes on with the
    character that failed, not with the one behind the start of the match. *)
Example strstri_misses_occurrence :
  occurs_at (string_bytes "aaab"%string) (string_bytes "aab"%string) 1 /\
  strstri (string_bytes "aaab"%string) (string_bytes "aab"%string) = Some None.
Proof.
  split; [|vm_compute; reflexivity]. split; [done|]. split; [done|].
  intros k Hk. change (0 <= k < 3) in Hk. assert (k = 0 \/ k = 1 \/ k = 2) as [->|[->| ->]] by lia; reflexivity.
Qed.

(** ** Formatting: instances and defects *)

(** [%04d=%-6.3s%lX!] in a buffer for 12 characters. *)
Definition demo_format : list piece :=
  [PConv {| d_flags := []; d_zero := true; d_width := 4; d_precision := None; d_length := []; d_kind := KDecimal false |}; PText 0x3d;
   PConv {| d_flags := [0x2d]; d_zero := false; d_width := 6; d_precision := Some 3; d_length := []; d_kind := KString |};
   PConv {| d_flags := []; d_zero := false; d_width := 0; d_precision := None; d_length := [0x6c]; d_kind := KHex true |}; PText 0x21].
Example demo_format_text : pieces_text demo_format = string_bytes "%04d=%-6.3s%lX!"%string.
Proof. reflexivity. Qed.


(** A zero-padded negative number has its sign behind the padding. *)
Example ltoa_wp_sign_after_zeros : ltoa_wp (-42) 10 5 0x30 = Some (string_bytes "00-42"%string).
Proof. vm_compute. reflexivity. Qed.

(** A width above 39 overruns the buffer of the conversion. *)
Example wide_number_overruns : render (fun (d : unit) _ _ _ => []) 9 (string_bytes "%50d"%string) [va_int 1] = None.
Proof. vm_compute. reflexivity. Qed.

(** A text of 256 characters or more is written with its terminator. *)
Example m_vprintf_writes_terminator :
  m_vprintf (fun (d : unit) _ _ _ => []) (replicate 300 0x41) [] = Some (replicate 255 0x41 ++ [0]).
Proof. vm_compute. reflexivity. Qed.
