(* ===== verification/DateTime.v ===== *)
(** * Dates and times

    [Sming/SmingCore/DateTime.h], [DateTime.cpp] and the British locale of
    [SmingLocale.h], for the target of the framework: [time_t] and [long] have
    32 bits, the fields of a [DateTime] 8 and 16.  [None] is a loop out of fuel
    or undefined behaviour of the formatter. *)

From S2P Require Import Prelude StringUtil.

Local Delimit Scope char_scope with char.

Record DateTime := {
  Hour : Z; Minute : Z; Second : Z; Milliseconds : Z; Day : Z; DayofWeek : Z; DayofYear : Z; Month : Z; Year : Z
}.
Definition DateTime0 : DateTime :=
  {| Hour := 0; Minute := 0; Second := 0; Milliseconds := 0; Day := 0; DayofWeek := 0; DayofYear := 0; Month := 0; Year := 0 |}.

Definition SECS_PER_MIN : Z := 60.
Definition SECS_PER_HOUR : Z := 3600.
Definition SECS_PER_DAY : Z := SECS_PER_HOUR * 24.

Definition LEAP_YEAR (year : Z) : bool := Z.rem year 4 =? 0.

(** The table has twelve entries. *)
Definition monthDays : list Z := [31; 28; 31; 30; 31; 30; 31; 31; 30; 31; 30; 31].
Definition getMonthDays (month year : Z) : Z :=
  if (u8 month =? 1) && LEAP_YEAR (u8 year) then 29 else getb monthDays (u8 month).

(** ** Unix time to components *)

(** [while((days += ...) <= epoch) year++] *)
Fixpoint year_loop (fuel : nat) (year days epoch : Z) : option (Z * Z) :=
  match fuel with
  | O => None
  | S fuel =>
      let days := u32 (days + (if LEAP_YEAR year then 366 else 365)) in
      if days <=? epoch then year_loop fuel (year + 1) days epoch else Some (year, days)
  end.

(** [for(month = 0; month < 12; month++)] from [month] on, [n] rounds left. *)
Fixpoint month_loop (n : nat) (month year epoch : Z) : Z * Z :=
  match n with
  | O => (month, epoch)
  | S n =>
      let md := getMonthDays month year in
      if epoch >=? md then month_loop n (month + 1) year (epoch - md) else (month, epoch)
  end.

Record components := { psec : Z; pmin : Z; phour : Z; pday : Z; pwday : Z; pmonth : Z; pyear : Z }.

(** Year (as is), month and day of the day number [epoch]. *)
Definition date_of_day (epoch : Z) : option (Z * Z * Z) :=
  match year_loop 200 70 0 epoch with
  | None => None
  | Some (year, days) =>
      let days := u32 (days - (if LEAP_YEAR year then 366 else 365)) in
      let '(month, epoch) := month_loop 12 0 year (u32 (epoch - days)) in
      Some (s16 (year + 1900), s8 month, s8 (epoch + 1))
  end.

Definition fromUnixTime (timep : Z) : option components :=
  let epoch := u32 timep in
  match date_of_day (epoch / 60 / 60 / 24) with
  | None => None
  | Some (y, m, d) =>
      Some {| psec := s8 (epoch mod 60); pmin := s8 (epoch / 60 mod 60); phour := s8 (epoch / 60 / 60 mod 24);
              pwday := s8 (u32 (epoch / 60 / 60 / 24 + 4) mod 7); pday := d; pmonth := m; pyear := y |}
  end.

(** ** Components to Unix time *)

Definition toUnixTime (sec min hour day month year : Z) : Z :=
  let year := if year <? 69 then s16 (year + 2000) else year in
  let seconds := s32 ((year - 1970) * (SECS_PER_DAY * 365)) in
  let seconds := foldl (fun seconds i => if LEAP_YEAR i then s32 (seconds + SECS_PER_DAY) else seconds) seconds (seqZ 1970 (year - 1970)) in
  let seconds := foldl (fun seconds i => s32 (seconds + SECS_PER_DAY * getMonthDays i year)) seconds (seqZ 0 month) in
  let seconds := s32 (seconds + (day - 1) * SECS_PER_DAY) in
  let seconds := s32 (seconds + hour * SECS_PER_HOUR) in
  let seconds := s32 (seconds + min * SECS_PER_MIN) in
  s32 (seconds + sec).

(** ** The object *)

(** The loop adds the lengths of the months before [Month]. *)
Definition calcDayOfYear (dt : DateTime) : DateTime :=
  let add doy i :=
    s16 (doy + (if (i =? 8) || (i =? 3) || (i =? 5) || (i =? 10) then 30
                else if i =? 1 then (if LEAP_YEAR (Year dt) then 29 else 28) else 31)) in
  {| Hour := Hour dt; Minute := Minute dt; Second := Second dt; Milliseconds := Milliseconds dt; Day := Day dt;
     DayofWeek := DayofWeek dt; DayofYear := s16 (foldl add 0 (seqZ 0 (Month dt)) + Day dt); Month := Month dt; Year := Year dt |}.

Definition setTime (time : Z) (dt : DateTime) : option DateTime :=
  match fromUnixTime time with
  | None => None
  | Some c =>
      Some (calcDayOfYear {| Hour := phour c; Minute := pmin c; Second := psec c; Milliseconds := 0; Day := pday c;
                             DayofWeek := pwday c; DayofYear := DayofYear dt; Month := pmonth c; Year := pyear c |})
  end.

Definition setTime_parts (sec min hour day month year : Z) (dt : DateTime) : DateTime :=
  calcDayOfYear {| Hour := hour; Minute := min; Second := sec; Milliseconds := 0; Day := day; DayofWeek := DayofWeek dt;
                   DayofYear := DayofYear dt; Month := month; Year := year |}.

Definition isNull (dt : DateTime) : bool :=
  (Second dt =? 0) && (Minute dt =? 0) && (Hour dt =? 0) && (Day dt =? 0) && (Month dt =? 0) && (Year dt =? 0) &&
  (DayofWeek dt =? 0) && (Milliseconds dt =? 0).

Definition to_unix (dt : DateTime) : Z :=
  toUnixTime (s8 (Second dt + Z.quot (Milliseconds dt) 1000)) (Minute dt) (Hour dt) (Day dt) (Month dt) (Year dt).

Definition addMilliseconds (add : Z) (dt : DateTime) : option DateTime :=
  let ms := s32 (Milliseconds dt + add) in
  let cur := s32 (to_unix dt + Z.quot ms 1000) in
  match setTime cur dt with
  | None => None
  | Some dt => Some {| Hour := Hour dt; Minute := Minute dt; Second := Second dt; Milliseconds := s16 (Z.rem ms 1000); Day := Day dt;
                       DayofWeek := DayofWeek dt; DayofYear := DayofYear dt; Month := Month dt; Year := Year dt |}
  end.

Definition calcWeek (dt : DateTime) (firstDay : Z) : Z :=
  let startOfWeek := s16 (DayofYear dt - DayofWeek dt + firstDay) in
  let firstDayofWeek := Z.rem startOfWeek 7 in
  let firstDayofWeek := if firstDayofWeek <? 0 then firstDayofWeek + 7 else firstDayofWeek in
  u8 (Z.quot (startOfWeek + 7 - firstDayofWeek) 7).

(** ** Formatting *)

Definition month_names : list (list Z) :=
  string_bytes <$> ["January"; "February"; "March"; "April"; "May"; "June"; "July"; "August"; "September"; "October"; "November"; "December"]%string.
Definition day_names : list (list Z) :=
  string_bytes <$> ["Sunday"; "Monday"; "Tuesday"; "Wednesday"; "Thursday"; "Friday"; "Saturday"]%string.
Definition LOCALE_DATE : list Z := string_bytes "%d/%m/%Y"%string.
Definition LOCALE_TIME : list Z := string_bytes "%H:%M:%S"%string.
Definition LOCALE_DATE_TIME : list Z := string_bytes "%a %d %b %Y %X"%string.

(** [CStringArray(names)[i]]: null behind the end. *)
Definition name_at (names : list (list Z)) (i : Z) : option (list Z) := if i <? 0 then None else names !! Z.to_nat i.

(** [m_snprintf] into [buf[64]], and the string it leaves there; no format of
    this file converts a double. *)
Definition print (maxLen : Z) (fmt : String.string) (args : list (va_arg (double := False))) : option (list Z) :=
  match m_snprintf (fun (d : False) _ _ _ => match d return list Z with end) (replicate 64 0) maxLen (string_bytes fmt) args with
  | Some (b, _) => Some (until_nul b)
  | None => None
  end.
Definition print_int (fmt : String.string) (x : Z) : option (list Z) := print 64 fmt [va_int x].
Definition print_str (maxLen : Z) (s : option (list Z)) : option (list Z) := print maxLen "%s"%string [va_str s].

(** The conversion of one format character; [sub] is the recursive call.  The
    inner [None] is the default case. *)
Definition format_char (sub : list Z -> option (list Z)) (dt : DateTime) (f : Z) : option (option (list Z)) :=
  let eqc (c : Ascii.ascii) := f =? Z.of_nat (Ascii.nat_of_ascii c) in
  let num fmt x := Some <$> print_int fmt x in
  let via s := match sub s with Some t => Some <$> print_str 64 (Some t) | None => None end in
  if eqc "Y"%char then num "%04d"%string (Year dt)
  else if eqc "y"%char then num "%02d"%string (Z.rem (Year dt) 100)
  else if eqc "C"%char then num "%02d"%string (Z.quot (Year dt) 100)
  else if eqc "b"%char || eqc "h"%char then Some <$> print_str 4 (name_at month_names (Month dt))
  else if eqc "B"%char then Some <$> print_str 64 (name_at month_names (Month dt))
  else if eqc "m"%char then num "%02d"%string (Month dt + 1)
  else if eqc "U"%char then num "%02d"%string (calcWeek dt 0)
  else if eqc "V"%char then num "%02d"%string (calcWeek dt 1 + 1)
  else if eqc "W"%char then num "%02d"%string (calcWeek dt 1)
  else if eqc "x"%char then via LOCALE_DATE
  else if eqc "X"%char then via LOCALE_TIME
  else if eqc "j"%char then num "%03d"%string (DayofYear dt)
  else if eqc "d"%char then num "%02d"%string (Day dt)
  else if eqc "e"%char then num "% 2d"%string (Day dt)
  else if eqc "w"%char then num "%d"%string (DayofWeek dt)
  else if eqc "a"%char then Some <$> print_str 4 (name_at day_names (DayofWeek dt))
  else if eqc "A"%char then Some <$> print_str 64 (name_at day_names (DayofWeek dt))
  else if eqc "u"%char then num "%d"%string (if DayofWeek dt =? 0 then 7 else DayofWeek dt)
  else if eqc "H"%char then num "%02d"%string (Hour dt)
  else if eqc "I"%char then num "%02d"%string (if nz (Hour dt) then (if Hour dt >? 12 then Hour dt - 12 else Hour dt) else 12)
  else if eqc "M"%char then num "%02d"%string (Minute dt)
  else if eqc "S"%char then num "%02d"%string (Second dt)
  else if eqc "c"%char then via LOCALE_DATE_TIME
  else if eqc "D"%char then via (string_bytes "%m/%d/%y"%string)
  else if eqc "F"%char then via (string_bytes "%Y-%m-%d"%string)
  else if eqc "r"%char then via (string_bytes "%I:%M:%S %p"%string)
  else if eqc "R"%char then Some <$> print 64 "%02d:%02d"%string [va_int (Hour dt); va_int (Minute dt)]
  else if eqc "T"%char then via (string_bytes "%H:%M:%S"%string)
  else if eqc "p"%char then Some <$> print_str 64 (Some (string_bytes (if Hour dt <? 12 then "AM" else "PM")%string))
  else if eqc "%"%char then Some <$> print_str 64 (Some [0x25])
  else if eqc "n"%char then Some <$> print_str 64 (Some [0x0a])
  else if eqc "t"%char then Some <$> print_str 64 (Some [0x09])
  else Some None.

(** [depth] bounds the recursive calls: the formats they use nest once. *)
Fixpoint format (depth : nat) (dt : DateTime) (sFormat : list Z) : option (list Z) :=
  match depth with
  | O => None
  | S depth =>
      (fix go (s : list Z) : option (list Z) :=
         match s with
         | [] => Some []
         | c :: r =>
             if c =? 0x25 then
               match r with
               | [] => Some []
               | f :: r' =>
                   match format_char (format depth dt) dt f with
                   | None => None
                   | Some (Some t) => app t <$> go r'
                   | Some None => go r
                   end
               end
             else cons c <$> go r
         end) sFormat
  end.

Definition toShortDateString (dt : DateTime) : option (list Z) := format 4 dt (string_bytes "%d.%m.%Y"%string).
Definition toShortTimeString (dt : DateTime) (includeSeconds : bool) : option (list Z) :=
  format 4 dt (string_bytes (if includeSeconds then "%T" else "%r")%string).
Definition toFullDateTimeString (dt : DateTime) : option (list Z) := format 4 dt (string_bytes "%x %T"%string).
Definition toISO8601 (dt : DateTime) : option (list Z) := format 4 dt (string_bytes "%FT%TZ"%string).
Definition toHTTPDate (dt : DateTime) : option (list Z) := format 4 dt (string_bytes "%a, %d %b %Y %T GMT"%string).

(** ** Parsing *)

(** [strtol(ptr, &ptr, 10)]: the value and the rest. *)
Fixpoint skip_space (s : list Z) : list Z :=
  match s with c :: r => if (c =? 0x20) || ((9 <=? c) && (c <=? 13)) then skip_space r else s | [] => [] end.
Definition strtol (s : list Z) : Z * list Z :=
  let t := skip_space s in
  let '(neg, t) := match t with c :: r => if c =? 0x2d then (true, r) else if c =? 0x2b then (false, r) else (false, t) | [] => (false, t) end in
  match t with
  | c :: _ => if is_digit c then let '(n, r) := skip_atoi t 0 in (if neg then - n else n, r) else (0, s)
  | [] => (0, s)
  end.

Fixpoint index_of (c : Z) (s : list Z) (i : Z) : Z :=
  match s with [] => -1 | x :: s => if x =? c then i else index_of c s (i + 1) end.

(** The loops over the names: [strncmp(names[i], name, 3) == 0]. *)
Fixpoint find_name (names : list (list Z)) (nm : list Z) (i : Z) : Z :=
  match names with [] => i | n :: names => if bool_decide (take 3 n = nm) then i else find_name names nm (i + 1) end.
Definition three (s : list Z) : list Z := [getb s 0; getb s 1; getb s 2].

(** The result and the fields assigned so far. *)
Definition fromHttpDate (httpDate : list Z) (dt : DateTime) : bool * DateTime :=
  let first := index_of 0x2c httpDate 0 in
  if (first <? 0) || (zlen httpDate - first <? 20) then (false, dt) else
  let set h mi s ms d w mo y :=
    {| Hour := h; Minute := mi; Second := s; Milliseconds := ms; Day := d; DayofWeek := w; DayofYear := DayofYear dt; Month := mo; Year := y |} in
  let w := find_name day_names (three httpDate) 0 in
  if w >? 6 then (false, set (Hour dt) (Minute dt) (Second dt) (Milliseconds dt) (Day dt) w (Month dt) (Year dt)) else
  let '(d, ptr) := strtol (drop (Z.to_nat (first + 2)) httpDate) in
  let d := s8 d in
  if getb ptr 0 =? 0 then (false, set (Hour dt) (Minute dt) (Second dt) (Milliseconds dt) d w (Month dt) (Year dt)) else
  let ptr := drop 1 ptr in
  let mo := find_name month_names (three ptr) 0 in
  let ptr := drop 4 ptr in
  if mo >? 11 then (false, set (Hour dt) (Minute dt) (Second dt) (Milliseconds dt) d w mo (Year dt)) else
  let '(y, ptr) := strtol ptr in
  let y := s16 y in
  if getb ptr 0 =? 0 then (false, set (Hour dt) (Minute dt) (Second dt) (Milliseconds dt) d w mo y) else
  let y := if y <? 70 then s16 (y + 2000) else if y <? 100 then s16 (y + 1900) else y in
  let '(h, ptr) := strtol ptr in
  let h := s8 h in
  if negb (getb ptr 0 =? 0x3a) then (false, set h (Minute dt) (Second dt) (Milliseconds dt) d w mo y) else
  let '(mi, ptr) := strtol (drop 1 ptr) in
  let mi := s8 mi in
  if negb (getb ptr 0 =? 0x3a) then (false, set h mi (Second dt) (Milliseconds dt) d w mo y) else
  let '(s, ptr) := strtol (drop 1 ptr) in
  (true, calcDayOfYear (set h mi (s8 s) 0 d w mo y)).

(** ** The calendar

    The Gregorian calendar one day at a time: the reference for both
    conversions. *)
Definition gregorian_leap (y : Z) : bool := (y mod 4 =? 0) && (negb (y mod 100 =? 0) || (y mod 400 =? 0)).
Definition month_length (y m : Z) : Z :=
  if m =? 2 then (if gregorian_leap y then 29 else 28)
  else if (m =? 4) || (m =? 6) || (m =? 9) || (m =? 11) then 30 else 31.
Definition next_day (date : Z * Z * Z) : Z * Z * Z :=
  let '(y, m, d) := date in
  if d <? month_length y m then (y, m, d + 1) else if m <? 12 then (y, m + 1, 1) else (y + 1, 1, 1).
(** The date [n] days after 1 January 1970. *)
Definition calendar (n : nat) : Z * Z * Z := Nat.iter n next_day (1970, 1, 1).

(** *** Years *)

Definition year_days (y : Z) : Z := if LEAP_YEAR y then 366 else 365.
(** The day number of 1 January of the year 1900 + [y]. *)
Definition year_start (y : Z) : Z := 365 * (y - 70) + (y - 69) / 4.

Lemma LEAP_YEAR_mod y : 0 <= y -> LEAP_YEAR y = (y mod 4 =? 0).
Proof. intros Hy. unfold LEAP_YEAR. by rewrite Z.rem_mod_nonneg by lia. Qed.

Lemma year_start_next y : 70 <= y -> year_start (y + 1) = year_start y + year_days y.
Proof.
  intros Hy. unfold year_start, year_days. rewrite LEAP_YEAR_mod by lia. destruct (Z.eqb_spec (y mod 4) 0); Z.div_mod_to_equations; lia.
Qed.

Lemma year_days_range y : 365 <= year_days y <= 366.
Proof. unfold year_days. destruct (LEAP_YEAR y); lia. Qed.

Lemma year_loop_spec n fuel : forall y,
  70 <= y -> 0 <= year_start y <= n -> n < year_start (y + Z.of_nat fuel) -> n < 2 ^ 32 - 366 ->
  exists y', year_loop fuel y (year_start y) n = Some (y', year_start (y' + 1)) /\ y <= y' < y + Z.of_nat fuel /\
    year_start y' <= n < year_start (y' + 1).
Proof.
  induction fuel as [|fuel IH]; intros y Hy Hs Hn Hb; [rewrite Z.add_0_r in Hn; lia|].
  cbn [year_loop]. fold (year_days y). rewrite <- year_start_next by lia. pose proof (year_start_next y Hy) as En.
  pose proof (year_days_range y). rewrite u32_small by (unfold is_u32; lia). destruct (Z.leb_spec (year_start (y + 1)) n) as [Hle|Hgt].
  - destruct (IH (y + 1)) as (y' & E & H1 & H2); [lia|lia| |lia|].
    + by replace (y + 1 + Z.of_nat fuel) with (y + Z.of_nat (S fuel)) by lia.
    + exists y'. split; [done|]. split; [lia|done].
  - exists y. split; [done|]. split; [lia|lia].
Qed.

(** *** Months: a leap year and a common year, every day *)

Lemma month_loop_leap n : forall m y y' k, LEAP_YEAR (u8 y) = LEAP_YEAR (u8 y') -> month_loop n m y k = month_loop n m y' k.
Proof.
  induction n as [|n IH]; intros m y y' k E; [done|]. cbn. unfold getMonthDays. rewrite E.
  destruct (_ >=? _); [by apply IH|done].
Qed.

Definition sumZ (l : list Z) : Z := foldr Z.add 0 l.
(** What the month loop does for day [k] of a year like [y] (counting from 0). *)
Definition month_check (y k : Z) : bool :=
  let '(m, r) := month_loop 12 0 y k in
  let '(m', r') := month_loop 12 0 y (k + 1) in
  let len := getMonthDays m y in
  (0 <=? m) && (m <=? 11) && (0 <=? r) && (r <=? 30) && (sumZ ((fun i => getMonthDays i y) <$> seqZ 0 m) + r =? k) &&
  (if k + 1 =? year_days y then (m =? 11) && (r + 1 =? len)
   else if r + 1 <? len then (m' =? m) && (r' =? r + 1) else (m' =? m + 1) && (r' =? 0) && (m <? 11)).

Lemma month_check_common : forall k, 0 <= k < 365 -> month_check 70 k = true.
Proof. apply forall_range. vm_compute. reflexivity. Qed.
Lemma month_check_leap : forall k, 0 <= k < 366 -> month_check 72 k = true.
Proof. apply forall_range. vm_compute. reflexivity. Qed.

Lemma month_check_ext y y' k : LEAP_YEAR (u8 y) = LEAP_YEAR (u8 y') -> LEAP_YEAR y = LEAP_YEAR y' -> month_check y k = month_check y' k.
Proof.
  intros E1 E2. assert (forall i, getMonthDays i y = getMonthDays i y') as Eg by (intros i; unfold getMonthDays; by rewrite E1).
  unfold month_check, year_days. rewrite !(month_loop_leap 12 0 y y') by done. rewrite E2.
  destruct (month_loop 12 0 y' k) as [m r], (month_loop 12 0 y' (k + 1)) as [m' r']. rewrite Eg.
  by replace ((fun i => getMonthDays i y) <$> seqZ 0 m) with ((fun i => getMonthDays i y') <$> seqZ 0 m) by (apply list_fmap_ext; intros; by rewrite Eg).
Qed.

Lemma month_checked y k : 70 <= y < 256 -> 0 <= k < year_days y -> month_check y k = true.
Proof.
  intros Hy Hk. unfold year_days in Hk. destruct (LEAP_YEAR y) eqn:E.
  - rewrite (month_check_ext y 72); [by apply month_check_leap| |by rewrite E]. rewrite !u8_small, E by (unfold is_byte; lia). done.
  - rewrite (month_check_ext y 70); [by apply month_check_common| |by rewrite E]. rewrite !u8_small, E by (unfold is_byte; lia). done.
Qed.

(** The facts of a check, as propositions. *)
Lemma month_facts y k m r : 70 <= y < 256 -> 0 <= k < year_days y -> month_loop 12 0 y k = (m, r) ->
  0 <= m <= 11 /\ 0 <= r <= 30 /\ sumZ ((fun i => getMonthDays i y) <$> seqZ 0 m) + r = k /\
  (k + 1 = year_days y -> m = 11 /\ r + 1 = getMonthDays m y) /\
  (k + 1 < year_days y ->
     month_loop 12 0 y (k + 1) = if r + 1 <? getMonthDays m y then (m, r + 1) else (m + 1, 0)) /\
  (k + 1 < year_days y -> getMonthDays m y <= r + 1 -> m < 11).
Proof.
  intros Hy Hk E. pose proof (month_checked y k Hy Hk) as Hc. unfold month_check in Hc. rewrite E in Hc.
  destruct (month_loop 12 0 y (k + 1)) as [m' r'] eqn:E'.
  repeat match type of Hc with (_ && _) = true => apply andb_true_iff in Hc as [Hc ?] end.
  apply Z.leb_le in Hc. rewrite ?Z.leb_le, ?Z.eqb_eq in *. split; [lia|]. split; [lia|]. split; [done|].
  destruct (Z.eqb_spec (k + 1) (year_days y)) as [Eq|Hne].
  - apply andb_true_iff in H as [H4%Z.eqb_eq H5%Z.eqb_eq]. split; [done|]. split; intros; lia.
  - split; [lia|]. destruct (Z.ltb_spec (r + 1) (getMonthDays m y)) as [Hlt|Hge].
    + apply andb_true_iff in H as [->%Z.eqb_eq ->%Z.eqb_eq]. split; [done|lia].
    + apply andb_true_iff in H as [[->%Z.eqb_eq ->%Z.eqb_eq]%andb_true_iff Hl%Z.ltb_lt]. split; [done|lia].
Qed.

(** *** Days *)

(** Day [n] is day [k] of the year 1900 + [y], in month [m]. *)
Record day_at (n y k m r : Z) : Prop := {
  da_year : 70 <= y <= 138;
  da_day : n = year_start y + k;
  da_in : 0 <= k < year_days y;
  da_month : month_loop 12 0 y k = (m, r)
}.

(** The last day a signed 32-bit time reaches. *)
Definition last_day : Z := 24855.

Lemma date_of_day_spec n : 0 <= n <= last_day + 1 ->
  exists y k m r, day_at n y k m r /\ date_of_day n = Some (1900 + y, m, r + 1).
Proof.
  unfold last_day. intros Hn. change 0 with (year_start 70) in Hn.
  destruct (year_loop_spec n 200 70) as (y & E & Hy & Hs); [lia|change (year_start 70) with 0 in *; lia|change (year_start (70 + Z.of_nat 200)) with 73050; lia|lia|].
  assert (y <= 138) as Hy2.
  { destruct (Z.le_gt_cases y 138) as [|Hgt]; [done|]. unfold year_start in Hs. Z.div_mod_to_equations. lia. }
  pose proof (year_start_next y ltac:(lia)) as En. pose proof (year_days_range y).
  destruct (month_loop 12 0 y (n - year_start y)) as [m r] eqn:Em. exists y, (n - year_start y), m, r.
  assert (0 <= n - year_start y < year_days y) as Hk by lia.
  destruct (month_facts y _ m r ltac:(lia) Hk Em) as (M1 & M2 & _). split; [by constructor; [lia|lia|..]|].
  unfold date_of_day. change 0 with (year_start 70) at 1. rewrite E. fold (year_days y).
  replace (year_start (y + 1) - year_days y) with (year_start y) by lia.
  assert (0 <= year_start y) by (unfold year_start; Z.div_mod_to_equations; lia).
  rewrite (u32_small (year_start y)), (u32_small (n - year_start y)) by (unfold is_u32; lia). rewrite Em.
  unfold s16, s8. rewrite !Z.mod_small by lia. do 3 f_equal; lia.
Qed.

Lemma month_length_days y m : 70 <= y <= 138 -> 0 <= m <= 11 ->
  month_length (1900 + y) (m + 1) = getMonthDays m y /\ getMonthDays m (1900 + y) = getMonthDays m y.
Proof.
  intros Hy Hm.
  assert ((month_length (1900 + (y - 70 + 70)) (m + 1) =? getMonthDays m (y - 70 + 70)) &&
          (getMonthDays m (1900 + (y - 70 + 70)) =? getMonthDays m (y - 70 + 70)) = true) as E.
  { apply (forall_range2 69 12 (fun a m => (month_length (1900 + (a + 70)) (m + 1) =? getMonthDays m (a + 70)) &&
      (getMonthDays m (1900 + (a + 70)) =? getMonthDays m (a + 70)))); [vm_compute; reflexivity|lia|lia]. }
  replace (y - 70 + 70) with y in E by lia. apply andb_true_iff in E as [E1%Z.eqb_eq E2%Z.eqb_eq]. done.
Qed.

Lemma year_start_inj y k y' k' : 70 <= y -> 70 <= y' -> 0 <= k < year_days y -> 0 <= k' < year_days y' ->
  year_start y + k = year_start y' + k' -> y = y' /\ k = k'.
Proof.
  intros Hy Hy' Hk Hk' E. pose proof (year_start_next y Hy). pose proof (year_start_next y' Hy').
  assert (forall a b, 70 <= a -> a < b -> year_start (a + 1) <= year_start b) as Hmono.
  { intros a b Ha Hab. unfold year_start. Z.div_mod_to_equations. lia. }
  destruct (Z.lt_trichotomy y y') as [Hlt|[->|Hgt]]; [specialize (Hmono y y' Hy Hlt); lia|lia|specialize (Hmono y' y Hy' Hgt); lia].
Qed.

(** The date of the next day is the next date. *)
Lemma day_step n y k m r y' k' m' r' : day_at n y k m r -> day_at (n + 1) y' k' m' r' ->
  (1900 + y', m' + 1, r' + 1) = next_day (1900 + y, m + 1, r + 1).
Proof.
  intros [A1 A2 A3 A4] [B1 B2 B3 B4]. destruct (month_facts y k m r ltac:(lia) A3 A4) as (M1 & M2 & M3 & M4 & M5 & M6).
  unfold next_day. destruct (month_length_days y m A1 M1) as [-> _]. pose proof (year_start_next y ltac:(lia)) as En.
  destruct (Z.eq_dec (k + 1) (year_days y)) as [Eend|Hin].
  - destruct (M4 Eend) as [-> Er]. pose proof (year_days_range (y + 1)).
    destruct (year_start_inj y' k' (y + 1) 0) as [-> ->]; [lia|lia|done|lia|lia|].
    rewrite Er, Z.ltb_irrefl. cbn [Z.ltb]. change (11 + 1 <? 12) with false. cbv iota.
    assert (month_loop 12 0 (y + 1) 0 = (0, 0)) as E0.
    { cbn. unfold getMonthDays. cbn. done. }
    rewrite E0 in B4. injection B4 as <- <-. f_equal. f_equal. lia.
  - destruct (year_start_inj y' k' y (k + 1)) as [-> ->]; [lia|lia|done|lia|lia|].
    rewrite M5 in B4 by lia. destruct (Z.ltb_spec (r + 1) (getMonthDays m y)) as [Hlt|Hge].
    + injection B4 as <- <-. done.
    + specialize (M6 ltac:(lia) Hge). injection B4 as <- <-. rewrite (proj2 (Z.ltb_lt (m + 1) 12)) by lia. done.
Qed.

Lemma calendar_date n : (Z.of_nat n <= last_day + 1) ->
  exists y k m r, day_at (Z.of_nat n) y k m r /\ date_of_day (Z.of_nat n) = Some (1900 + y, m, r + 1) /\
    calendar n = (1900 + y, m + 1, r + 1).
Proof.
  induction n as [|n IH]; intros Hn.
  - destruct (date_of_day_spec 0) as (y & k & m & r & Hd & E); [done|]. exists y, k, m, r. split; [done|]. split; [done|].
    change (date_of_day 0) with (Some (1970, 0, 1)) in E. injection E as E1 <- E3. unfold calendar. cbn. f_equal; [f_equal|]; lia.
  - destruct IH as (y & k & m & r & Hd & E & Ec); [lia|].
    destruct (date_of_day_spec (Z.of_nat (S n))) as (y' & k' & m' & r' & Hd' & E'); [lia|]. exists y', k', m', r'. split; [done|]. split; [done|].
    unfold calendar. cbn [Nat.iter nat_rect]. unfold calendar in Ec. rewrite (day_step (Z.of_nat n) y k m r y' k' m' r'); [|done|by rewrite Nat2Z.inj_succ in Hd'].
    by rewrite <- Ec.
Qed.

(** *** Back to Unix time *)

Lemma s32_add a b : s32 (s32 a + b) = s32 (a + b).
Proof.
  unfold s32. f_equal. replace ((a + 2 ^ 31) mod 2 ^ 32 - 2 ^ 31 + b + 2 ^ 31) with ((a + 2 ^ 31) mod 2 ^ 32 + b) by lia.
  rewrite Z.add_mod_idemp_l by lia. f_equal. lia.
Qed.

Lemma foldl_s32 (g : Z -> Z) l : forall a, foldl (fun x i => s32 (x + g i)) (s32 a) l = s32 (a + sumZ (g <$> l)).
Proof.
  induction l as [|i l IH]; intros a; cbn; [by rewrite Z.add_0_r|]. rewrite s32_add, IH. f_equal. unfold sumZ. lia.
Qed.

(** The leap days before the year 1970 + [n]. *)
Lemma leap_days n : sumZ ((fun i => if LEAP_YEAR i then SECS_PER_DAY else 0) <$> seqZ 1970 (Z.of_nat n)) = SECS_PER_DAY * ((Z.of_nat n + 1) / 4).
Proof.
  assert (forall l k, sumZ (l ++ [k]) = sumZ l + k) as Hsnoc.
  { intros l k. induction l as [|x l IH]; cbn; [lia|]. unfold sumZ in IH. rewrite IH. lia. }
  induction n as [|n IH]; [done|]. rewrite seqZ_S, fmap_app. cbn [fmap list_fmap]. rewrite Hsnoc, IH, Nat2Z.inj_succ.
  rewrite LEAP_YEAR_mod by lia. unfold SECS_PER_DAY, SECS_PER_HOUR. destruct (Z.eqb_spec ((1970 + Z.of_nat n) mod 4) 0); Z.div_mod_to_equations; lia.
Qed.

Lemma toUnixTime_day n y k m r sec min hour : day_at n y k m r ->
  toUnixTime sec min hour (r + 1) m (1900 + y) = s32 (SECS_PER_DAY * n + SECS_PER_HOUR * hour + SECS_PER_MIN * min + sec).
Proof.
  intros [A1 A2 A3 A4]. destruct (month_facts y k m r ltac:(lia) A3 A4) as (M1 & M2 & M3 & _). unfold toUnixTime.
  rewrite (proj2 (Z.ltb_ge (1900 + y) 69)) by lia.
  replace (1900 + y - 1970) with (Z.of_nat (Z.to_nat (y - 70))) by lia. set (c := Z.to_nat (y - 70)).
  assert (forall l a, foldl (fun x i => if LEAP_YEAR i then s32 (x + SECS_PER_DAY) else x) (s32 a) l =
                      s32 (a + sumZ ((fun i => if LEAP_YEAR i then SECS_PER_DAY else 0) <$> l))) as Hl.
  { intros l. induction l as [|i l IH]; intros a; cbn; [by rewrite Z.add_0_r|]. unfold sumZ in *. cbn.
    destruct (LEAP_YEAR i); [rewrite s32_add|]; rewrite IH; f_equal; lia. }
  rewrite Hl, leap_days.
  rewrite (foldl_s32 (fun i => SECS_PER_DAY * getMonthDays i (1900 + y))).
  assert (sumZ ((fun i => SECS_PER_DAY * getMonthDays i (1900 + y)) <$> seqZ 0 m) = SECS_PER_DAY * (k - r)) as ->.
  { rewrite <- M3. clear - A1 M1.
    assert (forall l, (forall i, i ∈ l -> 0 <= i <= 11) -> sumZ ((fun i => SECS_PER_DAY * getMonthDays i (1900 + y)) <$> l) = SECS_PER_DAY * sumZ ((fun i => getMonthDays i y) <$> l)) as Hs.
    { induction l as [|i l IH]; intros Hi; [done|]. cbn. unfold sumZ in IH. rewrite IH by (intros; apply Hi; by right).
      destruct (month_length_days y i A1) as [_ ->]; [apply Hi; by left|]. lia. }
    rewrite Hs by (intros i Hi; apply elem_of_seqZ in Hi; lia). f_equal. lia. }
  rewrite !s32_add, <- !Z.add_assoc, !s32_add, <- !Z.add_assoc, !s32_add. f_equal. rewrite A2. unfold c, year_start. rewrite Z2Nat.id by lia. replace (y - 70 + 1) with (y - 69) by lia.
  unfold SECS_PER_DAY, SECS_PER_HOUR, SECS_PER_MIN. lia.
Qed.

(** C28. Unix time and the calendar: for every non-negative time, [fromUnixTime]
    returns the date of the Gregorian calendar that many days after 1 January
    1970, the day of the week, and the time of day, and [toUnixTime] of these
    components is the time again. *)
Theorem fromUnixTime_calendar t :
  0 <= t < 2 ^ 31 ->
  exists c, fromUnixTime t = Some c /\
    calendar (Z.to_nat (t / SECS_PER_DAY)) = (pyear c, pmonth c + 1, pday c) /\
    pwday c = (4 + t / SECS_PER_DAY) mod 7 /\
    0 <= phour c < 24 /\ 0 <= pmin c < 60 /\ 0 <= psec c < 60 /\
    phour c * 3600 + pmin c * 60 + psec c = t mod SECS_PER_DAY /\
    toUnixTime (psec c) (pmin c) (phour c) (pday c) (pmonth c) (pyear c) = t.
Proof.
  intros Ht. unfold fromUnixTime. rewrite u32_small by (unfold is_u32; lia).
  assert (t / 60 / 60 / 24 = t / SECS_PER_DAY) as Ed by (rewrite !Z.div_div by lia; done). rewrite Ed.
  change SECS_PER_DAY with 86400 in *. set (n := t / 86400) in *.
  assert (0 <= n <= last_day) as Hn by (unfold n, last_day; Z.div_mod_to_equations; lia).
  destruct (calendar_date (Z.to_nat n)) as (y & k & m & r & Hd & E & Ec); [lia|]. rewrite Z2Nat.id in * by lia. rewrite E.
  eexists. split; [done|]. cbn [psec pmin phour pday pwday pmonth pyear]. unfold last_day in Hn.
  pose proof (Z.div_mod t 86400 ltac:(lia)) as Et. fold n in Et.
  pose proof (Z.mod_pos_bound t 60 ltac:(lia)). pose proof (Z.mod_pos_bound (t / 60) 60 ltac:(lia)). pose proof (Z.mod_pos_bound (t / 60 / 60) 24 ltac:(lia)).
  rewrite (u32_small (n + 4)) by (unfold is_u32; lia). pose proof (Z.mod_pos_bound (n + 4) 7 ltac:(lia)).
  assert (forall x, 0 <= x < 60 -> s8 x = x) as Hs8 by (intros x Hx; unfold s8; rewrite Z.mod_small; lia).
  rewrite !Hs8 by lia. split; [done|]. split; [f_equal; lia|]. split; [lia|]. split; [lia|]. split; [lia|].
  assert (t / 60 / 60 mod 24 * 3600 + t / 60 mod 60 * 60 + t mod 60 = t mod 86400) as Ehms by (Z.div_mod_to_equations; lia).
  split; [exact Ehms|]. rewrite (toUnixTime_day n y k m r) by done.
  unfold SECS_PER_DAY, SECS_PER_HOUR, SECS_PER_MIN. replace (3600 * 24 * n + _ + _ + _) with t by lia.
  unfold s32. rewrite Z.mod_small; lia.
Qed.

Lemma fromUnixTime_calendar_witness :
  exists c, fromUnixTime 951782400 = Some c /\ calendar (Z.to_nat (951782400 / SECS_PER_DAY)) = (pyear c, pmonth c + 1, pday c) /\
    pwday c = (4 + 951782400 / SECS_PER_DAY) mod 7 /\
    0 <= phour c < 24 /\ 0 <= pmin c < 60 /\ 0 <= psec c < 60 /\
    phour c * 3600 + pmin c * 60 + psec c = 951782400 mod SECS_PER_DAY /\
    toUnixTime (psec c) (pmin c) (phour c) (pday c) (pmonth c) (pyear c) = 951782400.
Proof. apply (fromUnixTime_calendar 951782400). split; [discriminate|reflexivity]. Defined.

(** ** HTTP dates *)

(** A string printed into the buffer and read back. *)
Lemma until_nul_app text rest : Forall (fun c => c <> 0) text -> until_nul (text ++ 0 :: rest) = text.
Proof. induction 1 as [|c text Hc Ht IH]; cbn; [done|]. rewrite (proj2 (Z.eqb_neq c 0) Hc). by rewrite IH. Qed.

Lemma print_text maxLen fmt args text :
  render (fun (d : False) _ _ _ => match d return list Z with end) (S (length (string_bytes fmt))) (string_bytes fmt) args = Some text ->
  Forall (fun c => c <> 0) text -> zlen text < 2 ^ 32 -> 1 <= maxLen <= 64 ->
  print maxLen fmt args = Some (take (Z.to_nat (maxLen - 1)) text).
Proof.
  intros Hr Hn Hl Hm. unfold print, m_snprintf. rewrite (m_vsnprintf_text _ _ _ _ _ text) by done.
  unfold splice. cbn [take app]. rewrite <- app_assoc. cbn [app]. rewrite take_0. cbn [app]. rewrite until_nul_app; [done|]. by apply Forall_take.
Qed.

Definition two (x : Z) : list Z := [0x30 + x / 10; 0x30 + x mod 10].
Definition four (x : Z) : list Z := [0x30 + x / 1000; 0x30 + x / 100 mod 10; 0x30 + x / 10 mod 10; 0x30 + x mod 10].

Lemma digit_char d : 0 <= d < 10 -> hexchar d = 0x30 + d.
Proof. intros Hd. unfold hexchar. by rewrite (proj2 (Z.ltb_lt d 10)) by lia. Qed.

(** Number and padding of [%02d] and [%04d]. *)
Lemma ltoa_two x : 0 <= x < 100 -> ltoa_wp x 10 2 0x30 = Some (two x).
Proof.
  intros Hx. unfold ltoa_wp, two. rewrite (proj2 (Z.eqb_neq x (- 2 ^ 31))), (proj2 (Z.ltb_ge x 0)) by lia. f_equal. cbn [app]. unfold digits_of.
  destruct (Z.eqb_spec x 0) as [->|Hne]; [reflexivity|]. cbn [put_digits]. rewrite (proj2 (Z.eqb_neq x 0) Hne).
  assert (x / 10 / 10 = 0) as E2 by (rewrite Z.div_div by lia; apply Z.div_small; lia).
  pose proof (Z.mod_pos_bound x 10 ltac:(lia)). destruct (Z.eqb_spec (x / 10) 0) as [E1|E1].
  - rewrite E1, digit_char by lia. reflexivity.
  - rewrite E2. change (0 =? 0) with true. cbv iota. rewrite (Z.mod_small (x / 10) 10) by (Z.div_mod_to_equations; lia).
    rewrite !digit_char by (Z.div_mod_to_equations; lia). reflexivity.
Qed.

Lemma ltoa_four x : 1000 <= x < 10000 -> ltoa_wp x 10 4 0x30 = Some (four x).
Proof.
  intros Hx. unfold ltoa_wp, four. rewrite (proj2 (Z.eqb_neq x (- 2 ^ 31))), (proj2 (Z.ltb_ge x 0)) by lia. f_equal. cbn [app]. unfold digits_of.
  rewrite (proj2 (Z.eqb_neq x 0)) by lia. cbn [put_digits]. rewrite (proj2 (Z.eqb_neq x 0)) by lia.
  rewrite (proj2 (Z.eqb_neq (x / 10) 0)), (proj2 (Z.eqb_neq (x / 10 / 10) 0)), (proj2 (Z.eqb_neq (x / 10 / 10 / 10) 0)) by (Z.div_mod_to_equations; lia).
  assert (x / 10 / 10 / 10 / 10 = 0) as -> by (Z.div_mod_to_equations; lia). change (0 =? 0) with true. cbv iota.
  assert (x / 10 / 10 = x / 100 /\ x / 10 / 10 / 10 = x / 1000) as [-> ->] by (rewrite !Z.div_div by lia; done).
  rewrite (Z.mod_small (x / 1000) 10) by (Z.div_mod_to_equations; lia).
  rewrite !digit_char by (Z.div_mod_to_equations; lia). reflexivity.
Qed.

Lemma print_two x : 0 <= x < 100 -> print_int "%02d"%string x = Some (two x).
Proof.
  intros Hx. unfold print_int. rewrite (print_text _ _ _ (two x)); [done| |repeat constructor; Z.div_mod_to_equations; lia|done|lia].
  lazy -[ltoa_wp s32 in_temp]. unfold in_temp. change (s8 2) with 2. assert (s32 x = x) as -> by (unfold s32; rewrite Z.mod_small; lia).
  rewrite ltoa_two by done. done.
Qed.

Lemma print_four x : 1000 <= x < 10000 -> print_int "%04d"%string x = Some (four x).
Proof.
  intros Hx. unfold print_int. rewrite (print_text _ _ _ (four x)); [done| |repeat constructor; Z.div_mod_to_equations; lia|done|lia].
  lazy -[ltoa_wp s32 in_temp]. unfold in_temp. change (s8 4) with 4. assert (s32 x = x) as -> by (unfold s32; rewrite Z.mod_small; lia).
  rewrite ltoa_four by done. done.
Qed.

(** A name printed in full or cut to three characters. *)
Lemma print_name maxLen nm : Forall (fun c => c <> 0) nm -> zlen nm < 64 -> 1 <= maxLen <= 64 ->
  print_str maxLen (Some nm) = Some (take (Z.to_nat (maxLen - 1)) nm).
Proof.
  intros Hn Hl Hm. unfold print_str. apply print_text; [|done|lia|done].
  lazy -[zlen take replicate Z.to_nat Z.sub Z.gtb app]. change (-1 >=? 0) with false. cbn [andb].
  replace (Z.to_nat (0 - zlen nm)) with 0%nat by (pose proof (zlen_nonneg nm); lia). cbn [replicate app].
  rewrite take_ge by (unfold zlen; lia). by rewrite !app_nil_r.
Qed.

(** The steps of [format]. *)
Lemma format_plain n dt c r t : c <> 0x25 -> format (S n) dt r = Some t -> format (S n) dt (c :: r) = Some (c :: t).
Proof. intros Hc E. cbn in *. rewrite (proj2 (Z.eqb_neq c 0x25) Hc). by rewrite E. Qed.

Lemma format_conv n dt f r s t : format_char (format n dt) dt f = Some (Some s) -> format (S n) dt r = Some t ->
  format (S n) dt (0x25 :: f :: r) = Some (s ++ t).
Proof. intros Ef E. cbn in *. rewrite Ef. by rewrite E. Qed.

(** The fields of a date that HTTP can express. *)
Record valid (dt : DateTime) : Prop := {
  va_hour : 0 <= Hour dt < 24;
  va_minute : 0 <= Minute dt < 60;
  va_second : 0 <= Second dt < 60;
  va_day : 1 <= Day dt <= 31;
  va_wday : 0 <= DayofWeek dt <= 6;
  va_month : 0 <= Month dt <= 11;
  va_year : 1000 <= Year dt < 10000
}.

Definition abbr (names : list (list Z)) (i : Z) : list Z := take 3 (default [] (name_at names i)).

Lemma abbr_day i : 0 <= i <= 6 -> print_str 4 (name_at day_names i) = Some (abbr day_names i).
Proof.
  intros Hi. assert (i = 0 \/ i = 1 \/ i = 2 \/ i = 3 \/ i = 4 \/ i = 5 \/ i = 6) as Hc by lia.
  repeat (destruct Hc as [->|Hc]; [vm_compute; reflexivity|]). subst i. vm_compute. reflexivity.
Qed.

Lemma abbr_month i : 0 <= i <= 11 -> print_str 4 (name_at month_names i) = Some (abbr month_names i).
Proof.
  intros Hi. assert (i = 0 \/ i = 1 \/ i = 2 \/ i = 3 \/ i = 4 \/ i = 5 \/ i = 6 \/ i = 7 \/ i = 8 \/ i = 9 \/ i = 10 \/ i = 11) as Hc by lia.
  repeat (destruct Hc as [->|Hc]; [vm_compute; reflexivity|]). subst i. vm_compute. reflexivity.
Qed.

Definition hms (dt : DateTime) : list Z := two (Hour dt) ++ [0x3a] ++ two (Minute dt) ++ [0x3a] ++ two (Second dt).
Definition http_text (dt : DateTime) : list Z :=
  abbr day_names (DayofWeek dt) ++ [0x2c; 0x20] ++ two (Day dt) ++ [0x20] ++ abbr month_names (Month dt) ++ [0x20] ++
  four (Year dt) ++ [0x20] ++ hms dt ++ string_bytes " GMT"%string.

Lemma format_hms n dt : valid dt -> format (S n) dt (string_bytes "%H:%M:%S"%string) = Some (hms dt).
Proof.
  intros [V1 V2 V3 V4 V5 V6 V7]. unfold hms.
  apply (format_conv n dt 0x48 _ (two (Hour dt))); [change (Some <$> print_int "%02d"%string (Hour dt) = Some (Some (two (Hour dt)))); by rewrite print_two by lia|].
  apply format_plain; [done|].
  apply (format_conv n dt 0x4d _ (two (Minute dt))); [change (Some <$> print_int "%02d"%string (Minute dt) = Some (Some (two (Minute dt)))); by rewrite print_two by lia|].
  apply format_plain; [done|]. rewrite <- (app_nil_r (two (Second dt))).
  apply (format_conv n dt 0x53 _ (two (Second dt))); [change (Some <$> print_int "%02d"%string (Second dt) = Some (Some (two (Second dt)))); by rewrite print_two by lia|].
  done.
Qed.

Lemma two_nonzero x : 0 <= x < 100 -> Forall (fun c => c <> 0) (two x).
Proof. intros Hx. repeat constructor; Z.div_mod_to_equations; lia. Qed.

Lemma toHTTPDate_text dt : valid dt -> toHTTPDate dt = Some (http_text dt).
Proof.
  intros V. pose proof V as [V1 V2 V3 V4 V5 V6 V7]. unfold toHTTPDate, http_text.
  apply (format_conv 3 dt 0x61); [change (Some <$> print_str 4 (name_at day_names (DayofWeek dt)) = Some (Some (abbr day_names (DayofWeek dt)))); by rewrite abbr_day|].
  apply format_plain; [done|]. apply format_plain; [done|].
  apply (format_conv 3 dt 0x64 _ (two (Day dt))); [change (Some <$> print_int "%02d"%string (Day dt) = Some (Some (two (Day dt)))); by rewrite print_two by lia|].
  apply format_plain; [done|].
  apply (format_conv 3 dt 0x62); [change (Some <$> print_str 4 (name_at month_names (Month dt)) = Some (Some (abbr month_names (Month dt)))); by rewrite abbr_month|].
  apply format_plain; [done|].
  apply (format_conv 3 dt 0x59 _ (four (Year dt))); [change (Some <$> print_int "%04d"%string (Year dt) = Some (Some (four (Year dt)))); by rewrite print_four|].
  apply format_plain; [done|].
  apply (format_conv 3 dt 0x54 _ (hms dt)).
  { change (match format 3 dt (string_bytes "%H:%M:%S"%string) with Some t => Some <$> print_str 64 (Some t) | None => None end = Some (Some (hms dt))).
    rewrite format_hms, print_name; [done| |done|lia|done].
    unfold hms. repeat first [apply Forall_app_2|apply two_nonzero; lia|repeat constructor; done]. }
  repeat (apply format_plain; [done|]). done.
Qed.

(** *** Parsing the text *)

Lemma is_digit_at d : 0 <= d < 10 -> is_digit (0x30 + d) = true.
Proof. intros Hd. unfold is_digit. rewrite (proj2 (Z.leb_le _ _)), (proj2 (Z.leb_le _ _)) by lia. done. Qed.

(** A number of digits, behind at most one blank, up to a character that is
    none. *)
Lemma strtol_digits (sp : bool) d ds c rest :
  0 <= d < 10 -> is_digit c = false ->
  (forall i, skip_atoi (ds ++ c :: rest) i = (foldl (fun i x => i * 10 + x - 0x30) i ds, c :: rest)) ->
  strtol ((if sp then [0x20] else []) ++ (0x30 + d) :: ds ++ c :: rest) = (foldl (fun i x => i * 10 + x - 0x30) d ds, c :: rest).
Proof.
  intros Hd Hc Hs. unfold strtol. assert (skip_space ((if sp then [0x20] else []) ++ (0x30 + d) :: ds ++ c :: rest) = (0x30 + d) :: ds ++ c :: rest) as ->.
  { assert (skip_space ((0x30 + d) :: ds ++ c :: rest) = (0x30 + d) :: ds ++ c :: rest) as E.
    { cbn [skip_space]. rewrite (proj2 (Z.eqb_neq _ 0x20)), (proj2 (Z.leb_gt (0x30 + d) 13)), andb_false_r by lia. done. }
    destruct sp; [|exact E]. exact E. }
  rewrite (proj2 (Z.eqb_neq _ 0x2d)), (proj2 (Z.eqb_neq _ 0x2b)) by lia. rewrite is_digit_at by done.
  cbn [skip_atoi]. rewrite is_digit_at by done. rewrite Hs. do 2 f_equal. lia.
Qed.

Lemma skip_atoi_digits c rest : is_digit c = false -> forall ds, Forall (fun x => is_digit x = true) ds ->
  forall i, skip_atoi (ds ++ c :: rest) i = (foldl (fun i x => i * 10 + x - 0x30) i ds, c :: rest).
Proof. intros Hc ds Hd. induction Hd as [|x ds Hx Hd IH]; intros i; cbn; [by rewrite Hc|]. by rewrite Hx, IH. Qed.

Lemma strtol_two (sp : bool) x c rest : 0 <= x < 100 -> is_digit c = false ->
  strtol ((if sp then [0x20] else []) ++ two x ++ c :: rest) = (x, c :: rest).
Proof.
  intros Hx Hc. unfold two. change ([0x30 + x / 10; 0x30 + x mod 10] ++ c :: rest) with ((0x30 + x / 10) :: [0x30 + x mod 10] ++ c :: rest).
  rewrite strtol_digits; [|Z.div_mod_to_equations; lia|done|].
  - cbn. f_equal. Z.div_mod_to_equations. lia.
  - apply skip_atoi_digits; [done|]. repeat constructor. apply is_digit_at. Z.div_mod_to_equations. lia.
Qed.

Lemma strtol_two' x c rest : 0 <= x < 100 -> is_digit c = false -> strtol (two x ++ c :: rest) = (x, c :: rest).
Proof. exact (strtol_two false x c rest). Qed.

Lemma strtol_four x c rest : 1000 <= x < 10000 -> is_digit c = false -> strtol (four x ++ c :: rest) = (x, c :: rest).
Proof.
  intros Hx Hc. unfold four.
  change (_ ++ c :: rest) with ((if false then [0x20] else []) ++ (0x30 + x / 1000) :: [0x30 + x / 100 mod 10; 0x30 + x / 10 mod 10; 0x30 + x mod 10] ++ c :: rest).
  rewrite strtol_digits; [|Z.div_mod_to_equations; lia|done|].
  - cbn. f_equal. Z.div_mod_to_equations. lia.
  - apply skip_atoi_digits; [done|]. repeat constructor; apply is_digit_at; Z.div_mod_to_equations; lia.
Qed.

Lemma find_day i rest : 0 <= i <= 6 ->
  find_name day_names (three (abbr day_names i ++ rest)) 0 = i /\ index_of 0x2c (abbr day_names i ++ [0x2c; 0x20] ++ rest) 0 = 3 /\
  length (abbr day_names i) = 3%nat.
Proof.
  intros Hi. assert (i = 0 \/ i = 1 \/ i = 2 \/ i = 3 \/ i = 4 \/ i = 5 \/ i = 6) as Hc by lia.
  repeat (destruct Hc as [->|Hc]; [repeat split|]). subst i. repeat split.
Qed.

Lemma find_month i rest : 0 <= i <= 11 ->
  find_name month_names (three (abbr month_names i ++ rest)) 0 = i /\ length (abbr month_names i) = 3%nat.
Proof.
  intros Hi. assert (i = 0 \/ i = 1 \/ i = 2 \/ i = 3 \/ i = 4 \/ i = 5 \/ i = 6 \/ i = 7 \/ i = 8 \/ i = 9 \/ i = 10 \/ i = 11) as Hc by lia.
  repeat (destruct Hc as [->|Hc]; [split; reflexivity|]). subst i. split; reflexivity.
Qed.

(** C37. HTTP dates: what [toHTTPDate] prints for a date in range,
    [fromHttpDate] parses to the same day of the week, date and time, with the
    milliseconds cleared and the day of the year computed. *)
Theorem http_date_roundtrip dt dt0 :
  valid dt ->
  exists text, toHTTPDate dt = Some text /\
    fromHttpDate text dt0 =
      (true, setTime_parts (Second dt) (Minute dt) (Hour dt) (Day dt) (Month dt) (Year dt)
               {| Hour := 0; Minute := 0; Second := 0; Milliseconds := 0; Day := 0; DayofWeek := DayofWeek dt;
                  DayofYear := DayofYear dt0; Month := 0; Year := 0 |}).
Proof.
  intros V. exists (http_text dt). split; [by apply toHTTPDate_text|]. destruct V as [V1 V2 V3 V4 V5 V6 V7]. unfold http_text.
  set (tail := hms dt ++ string_bytes " GMT"%string).
  set (rest2 := two (Day dt) ++ [0x20] ++ abbr month_names (Month dt) ++ [0x20] ++ four (Year dt) ++ [0x20] ++ tail).
  unfold fromHttpDate. destruct (find_day (DayofWeek dt) ([0x2c; 0x20] ++ rest2) V5) as (F1 & _ & F3).
  destruct (find_day (DayofWeek dt) rest2 V5) as (_ & F2 & _). rewrite F2, F1. clear F1 F2.
  destruct (find_month (Month dt) ([0x20] ++ four (Year dt) ++ [0x20] ++ tail) V6) as [M1 M2].
  assert (20 <= zlen (abbr day_names (DayofWeek dt) ++ [0x2c; 0x20] ++ rest2) - 3) as Hlen.
  { unfold rest2, tail. rewrite !zlen_app. unfold zlen. rewrite F3, M2. cbn. lia. }
  rewrite (proj2 (Z.ltb_ge _ 20)) by lia. cbn [Z.ltb Z.compare orb].
  destruct (Z.gtb_spec (DayofWeek dt) 6); [lia|].
  change (Z.to_nat (3 + 2)) with 5%nat.
  assert (drop 5 (abbr day_names (DayofWeek dt) ++ [0x2c; 0x20] ++ rest2) = rest2) as ->.
  { change 5%nat with (3 + 2)%nat. rewrite <- drop_drop. rewrite drop_app_length' by done. done. }
  unfold rest2. cbn [app]. rewrite strtol_two' by (done || lia). cbn [drop]. change (getb (0x20 :: _) 0 =? 0) with false. cbv iota.
  cbn [app] in M1. rewrite !drop_0, M1. destruct (Z.gtb_spec (Month dt) 11); [lia|].
  assert (forall r, drop 4 (abbr month_names (Month dt) ++ 0x20 :: r) = r) as ->.
  { intros r. change 4%nat with (3 + 1)%nat. rewrite <- drop_drop. by rewrite drop_app_length' by done. }
  rewrite strtol_four by (done || lia). change (getb (0x20 :: _) 0 =? 0) with false. cbv iota.
  assert (s16 (Year dt) = Year dt) as -> by (unfold s16; rewrite Z.mod_small; lia).
  rewrite (proj2 (Z.ltb_ge _ 70)), (proj2 (Z.ltb_ge _ 100)) by lia. unfold tail, hms. rewrite <- !app_assoc. cbn [app].
  change (0x20 :: two (Hour dt) ++ ?r) with ((if true then [0x20] else []) ++ two (Hour dt) ++ r). rewrite (strtol_two true) by (done || lia).
  change (getb (0x3a :: _) 0) with 0x3a. cbn [Z.eqb Pos.eqb negb drop]. rewrite drop_0, strtol_two' by (done || lia).
  change (getb (0x3a :: _) 0) with 0x3a. cbn [Z.eqb Pos.eqb negb drop].
  change (string_bytes " GMT"%string) with (0x20 :: string_bytes "GMT"%string). rewrite drop_0, strtol_two' by (done || lia).
  rewrite !s8_small by lia. done.
Qed.

Example http_date_roundtrip_witness :
  let dt := {| Hour := 8; Minute := 49; Second := 37; Milliseconds := 5; Day := 6; DayofWeek := 0; DayofYear := 0; Month := 10; Year := 1994 |} in
  toHTTPDate dt = Some (string_bytes "Sun, 06 Nov 1994 08:49:37 GMT"%string) /\
  exists text, toHTTPDate dt = Some text /\
    fromHttpDate text dt =
      (true, setTime_parts 37 49 8 6 10 1994
               {| Hour := 0; Minute := 0; Second := 0; Milliseconds := 0; Day := 0; DayofWeek := 0; DayofYear := 0; Month := 0; Year := 0 |}).
Proof. split; [vm_compute; reflexivity|]. match goal with |- context [toHTTPDate ?d] => apply (http_date_roundtrip d) end. constructor; cbn; lia. Defined.
