(* ===== verification/Escape.v ===== *)
(** * URI and HTML escapes

    [Sming/Services/WebHelpers/escape.cpp].  The functions work on pointers,
    and [uri_unescape] is documented to allow source and destination in one
    buffer, so the model has one byte memory in which pointers are indices:
    every load and store is checked, and the computation faults ([None]) on an
    access outside the memory or a failed [assert]. *)

From S2P Require Import Prelude StringUtil.

(** ** Memory *)


Definition load (p : Z) : M (list Z) Z := fun m => if (0 <=? p) && (p <? zlen m) then Some (getb m p, m) else None.
Definition store (p v : Z) : M (list Z) unit := fun m => if (0 <=? p) && (p <? zlen m) then Some (tt, setb m p v) else None.
Definition assert (b : bool) : M (list Z) unit := if b then ret tt else fault.

(** [strlen], from the characters that remain. *)
Fixpoint strlen_from (r : list Z) (n : Z) : option Z :=
  match r with
  | [] => None
  | c :: r => if c =? 0 then Some n else strlen_from r (n + 1)
  end.
Definition strlen (p : Z) : M (list Z) Z := fun m =>
  if 0 <=? p then match strlen_from (drop (Z.to_nat p) m) 0 with Some n => Some (n, m) | None => None end else None.

(** A new block lies behind the memory in use, its contents are [fill]; the
    block freed here is always the last one. The null pointer is [None]. *)
Section Heap.
Context (has_room : Z -> bool) (fill : Z).

Definition malloc (n : Z) : M (list Z) (option Z) := fun m =>
  if has_room n then Some (Some (zlen m), m ++ replicate (Z.to_nat n) fill) else Some (None, m).
Definition free (p : Z) : M (list Z) unit := modify (take (Z.to_nat p)).

(** ** Characters *)

Definition isxdigit (c : Z) : bool :=
  is_digit c || ((0x41 <=? c) && (c <=? 0x46)) || ((0x61 <=? c) && (c <=? 0x66)).
Definition ishex (a b : Z) : bool := isxdigit a && isxdigit b.
Definition unhex2 (a b : Z) : Z := u8 (Z.lor (Z.shiftl (unhex a) 4) (unhex b)).

(** [\r \n + ~ ! # $ % ^ & ( ) { } [ ] = : , ; ? ' double-quote backslash] *)
Definition must_escape (c : Z) : bool :=
  existsb (Z.eqb c) [0x0d; 0x0a; 0x2b; 0x7e; 0x21; 0x23; 0x24; 0x25; 0x5e; 0x26; 0x28; 0x29; 0x7b; 0x7d; 0x5b; 0x5d;
                     0x3d; 0x3a; 0x2c; 0x3b; 0x3f; 0x27; 0x22; 0x5c].

(** ** [uri_escape_len] *)
Definition uri_escape_len_body (st : Z * Z * Z) : M (list Z) (Z * Z * Z + Z) :=
  let '(ret_, len, s) := st in
  if 0 <? len then
    let! c := load s in
    ret (inl (u32 (ret_ + (if must_escape c then 3 else 1)), len - 1, s + 1))
  else ret (inr ret_).
Definition uri_escape_len (s len : Z) : M (list Z) Z := loop (S (Z.to_nat len)) uri_escape_len_body (0, len, s).

(** ** [uri_escape]

    The loop ends with [None] when there is no room for an escape, and with
    the destination, the room and the number of source characters left
    otherwise. *)
Definition uri_escape_body (st : Z * Z * Z * Z) : M (list Z) (Z * Z * Z * Z + option (Z * Z * Z)) :=
  let '(dest, dest_len, src, src_len) := st in
  if (0 <? src_len) && (1 <? dest_len) then
    let! c := load src in
    if must_escape c then
      if dest_len <=? 3 then ret (inr None) else
      store dest 0x25 ;;;
      (let! c := load src in store (dest + 1) (hexchar (Z.shiftr c 4))) ;;;
      (let! c := load src in store (dest + 2) (hexchar (Z.land c 0x0f))) ;;;
      ret (inl (dest + 3, dest_len - 3, src + 1, src_len - 1))
    else if c =? 0x20 then
      store dest 0x2b ;;; ret (inl (dest + 1, dest_len - 1, src + 1, src_len - 1))
    else
      let! c := load src in
      store dest c ;;; ret (inl (dest + 1, dest_len - 1, src + 1, src_len - 1))
  else ret (inr (Some (dest, dest_len, src_len))).

Definition uri_escape (dest : option Z) (dest_len src src_len : Z) : M (list Z) (option Z) :=
  let! src_len := (if src_len <? 0 then strlen src else ret src_len) in
  let ret_is_allocated := match dest with None => true | Some _ => false end in
  let! dest_len := (if ret_is_allocated then let! n := uri_escape_len src src_len in ret (u32 (n + 1)) else ret dest_len) in
  let! dest := (if ret_is_allocated then malloc dest_len else ret dest) in
  match dest with
  | None => ret None
  | Some r =>
      let! res := loop (S (Z.to_nat src_len)) uri_escape_body (r, dest_len, src, src_len) in
      let failed := when ret_is_allocated (free r) ;;; ret None in
      match res with
      | None => failed
      | Some (dest, dest_len, src_len) =>
          if negb (src_len =? 0) then failed else
          assert (1 <=? dest_len) ;;;
          store dest 0 ;;;
          ret (Some r)
      end
  end.

(** ** [uri_unescape] *)
Definition uri_unescape_body (st : Z * Z * Z * Z) : M (list Z) (Z * Z * Z * Z + (Z * Z * Z)) :=
  let '(dest, dest_len, src, src_len) := st in
  if (1 <? dest_len) && (0 <? src_len) then
    let! c := load src in
    let! esc := (if (c =? 0x25) && (3 <=? src_len) then
                   let! a := load (src + 1) in let! b := load (src + 2) in ret (ishex a b)
                 else ret false) in
    if esc then
      let! a := load (src + 1) in
      let! b := load (src + 2) in
      store dest (unhex2 a b) ;;;
      ret (inl (dest + 1, dest_len - 1, src + 3, src_len - 3))
    else if c =? 0x2b then
      store dest 0x20 ;;; ret (inl (dest + 1, dest_len - 1, src + 1, src_len - 1))
    else
      store dest c ;;; ret (inl (dest + 1, dest_len - 1, src + 1, src_len - 1))
  else ret (inr (dest, dest_len, src_len)).

Definition uri_unescape (dest : option Z) (dest_len src src_len : Z) : M (list Z) (option Z) :=
  let! src_len := (if src_len <? 0 then strlen src else ret src_len) in
  let ret_is_allocated := match dest with None => true | Some _ => false end in
  let dest_len := if ret_is_allocated then src_len + 1 else dest_len in
  let! dest := (if ret_is_allocated then malloc dest_len else ret dest) in
  match dest with
  | None => ret None
  | Some r =>
      let! res := loop (S (Z.to_nat src_len)) uri_unescape_body (r, dest_len, src, src_len) in
      let '(dest, dest_len, src_len) := res in
      if negb (src_len =? 0) then when ret_is_allocated (free r) ;;; ret None else
      assert (1 <=? dest_len) ;;;
      store dest 0 ;;;
      ret (Some r)
  end.

(** ** The functions on strings *)

(** A null [str] is [None]. *)
Definition uri_unescape_inplace (str : option Z) : M (list Z) (option Z) :=
  match str with
  | None => ret None
  | Some p => let! len := strlen p in uri_unescape (Some p) (len + 1) p len ;;; ret str
  end.

(** A [String] is its buffer and length; an invalid one has no buffer. *)
Record String := { buffer : option Z; length_ : Z }.

Definition uri_unescape_inplace_str (str : String) : M (list Z) String :=
  match buffer str with
  | None => ret str
  | Some p =>
      uri_unescape (Some p) (length_ str + 1) p (length_ str) ;;;
      let! len := strlen p in
      assert (len <=? length_ str) ;;;
      store (p + len) 0 ;;;
      ret {| buffer := Some p; length_ := len |}
  end.

(** [setLength] of a new string allocates the characters and a terminator. *)
Definition uri_escape_str (src : option Z) (src_len : Z) : M (list Z) String :=
  let s := {| buffer := None; length_ := 0 |} in
  match src with
  | None => ret s
  | Some src =>
      if src_len =? 0 then ret s else
      let! dst_len := uri_escape_len src (if src_len <? 0 then u32 src_len else src_len) in
      let! p := malloc (dst_len + 1) in
      match p with
      | None => ret s
      | Some p =>
          store (p + dst_len) 0 ;;;
          uri_escape (Some p) (dst_len + 1) src src_len ;;;
          ret {| buffer := Some p; length_ := dst_len |}
      end
  end.
End Heap.

(** ** HTML *)

Definition html_entity (c : Z) : option (list Z) :=
  if c =? 0x3c then Some (string_bytes "&lt;"%string)
  else if c =? 0x3e then Some (string_bytes "&gt;"%string)
  else if c =? 0x26 then Some (string_bytes "&amp;"%string)
  else if c =? 0x22 then Some (string_bytes "&quot;"%string)
  else if c =? 0x27 then Some (string_bytes "&apos;"%string)
  else None.

Definition html_escape_len_body (st : Z * Z * Z) : M (list Z) (Z * Z * Z + Z) :=
  let '(ret_, len, s) := st in
  if negb (len =? 0) then
    let! c := load s in
    if negb (c =? 0) then
      ret (inl (ret_ + (match html_entity c with Some e => zlen e | None => 1 end), len - 1, s + 1))
    else ret (inr ret_)
  else ret (inr ret_).
Definition html_escape_len (s len : Z) : M (list Z) Z := loop (S (Z.to_nat len)) html_escape_len_body (0, len, s).

Fixpoint memcpy_lit (dest : Z) (str : list Z) : M (list Z) unit :=
  match str with
  | [] => ret tt
  | c :: str => store dest c ;;; memcpy_lit (dest + 1) str
  end.
(** [memcpy(dest, str, len2+1)] of a literal: its characters and the
    terminator. *)
Definition safe_append (dest len : Z) (str : list Z) : M (list Z) Z :=
  let len2 := zlen str in
  if len <? len2 then ret 0 else
  memcpy_lit dest (str ++ [0]) ;;;
  ret len2.

Definition html_escape_body (dest len : Z) (st : Z * Z) : M (list Z) (Z * Z + Z) :=
  let '(i, s) := st in
  if i <? len then
    let! c := load s in
    if negb (c =? 0) then
      match html_entity c with
      | Some e => let! n := safe_append (dest + i) (len - i) e in ret (inl (i + n, s + 1))
      | None => let! c := load s in store (dest + i) c ;;; ret (inl (i + 1, s + 1))
      end
    else ret (inr i)
  else ret (inr i).
(** The source is read to its terminator at most: the fuel is the memory
    behind [s]. *)
Definition html_escape (dest len s : Z) : M (list Z) unit := fun m =>
  bind (loop (S (length m)) (html_escape_body dest len) (0, s)) (fun i => store (dest + i) 0) m.

(** ** What the functions compute *)

Definition escape_char (c : Z) : list Z :=
  if must_escape c then [0x25; hexchar (Z.shiftr c 4); hexchar (Z.land c 0x0f)] else [if c =? 0x20 then 0x2b else c].
Definition escaped (s : list Z) : list Z := concat (escape_char <$> s).

Fixpoint unescaped (s : list Z) : list Z :=
  match s with
  | [] => []
  | c :: r =>
      match r with
      | a :: b :: r' =>
          if (c =? 0x25) && ishex a b then unhex2 a b :: unescaped r'
          else (if c =? 0x2b then 0x20 else c) :: unescaped r
      | _ => (if c =? 0x2b then 0x20 else c) :: unescaped r
      end
  end.

Definition html_text (s : list Z) : list Z := concat ((fun c => default [c] (html_entity c)) <$> s).

(** ** Memory lemmas *)

(** The characters [s] at address [p]. *)
Definition holds (m : list Z) (p : Z) (s : list Z) : Prop :=
  0 <= p /\ forall i x, s !! i = Some x -> m !! (Z.to_nat p + i)%nat = Some x.
(** Memory with [w] written at [p]. *)
Definition put (m : list Z) (p : Z) (w : list Z) : list Z := splice m (Z.to_nat p) w.

Lemma holds_cons m p c s : holds m p (c :: s) <-> 0 <= p /\ m !! Z.to_nat p = Some c /\ holds m (p + 1) s.
Proof.
  split.
  - intros [Hp H]. split; [done|]. split; [specialize (H 0%nat c eq_refl); by rewrite Nat.add_0_r in H|].
    split; [lia|]. intros i x Hx. specialize (H (S i) x Hx). by replace (Z.to_nat (p + 1) + i)%nat with (Z.to_nat p + S i)%nat by lia.
  - intros (Hp & H0 & _ & H). split; [done|]. intros [|i] x Hx; [cbn in Hx; injection Hx as <-; by rewrite Nat.add_0_r|].
    specialize (H i x Hx). by replace (Z.to_nat p + S i)%nat with (Z.to_nat (p + 1) + i)%nat by lia.
Qed.

Lemma holds_app m p s t : holds m p (s ++ t) <-> holds m p s /\ holds m (p + zlen s) t.
Proof.
  revert p. induction s as [|c s IH]; intros p.
  - cbn [app]. replace (p + zlen []) with p by (unfold zlen; cbn; lia). split; [|tauto]. intros H. split; [|done].
    split; [apply H|]. intros i x Hx. done.
  - cbn [app]. rewrite !holds_cons, IH. replace (p + 1 + zlen s) with (p + zlen (c :: s)) by (unfold zlen; cbn; lia). tauto.
Qed.

Lemma holds_bound m p s : holds m p s -> s <> [] -> p + zlen s <= zlen m.
Proof.
  intros [Hp H] Hs. destruct (lookup_lt_is_Some_2 s (length s - 1)) as [x Hx]; [destruct s; cbn; [done|lia]|].
  apply H, lookup_lt_Some in Hx. destruct s; [done|]. unfold zlen. cbn in *. lia.
Qed.

Lemma holds_setb m p s q v : holds m p s -> 0 <= q -> q < p \/ p + zlen s <= q -> holds (setb m q v) p s.
Proof.
  intros [Hp H] Hq Ho. split; [done|]. intros i x Hx. unfold setb. rewrite list_lookup_insert_ne; [by apply H|].
  apply lookup_lt_Some in Hx. unfold zlen in Ho. lia.
Qed.

Lemma zlen_put m p w : 0 <= p -> p + zlen w <= zlen m -> zlen (put m p w) = zlen m.
Proof. intros Hp Hw. unfold zlen, put in *. rewrite length_splice; lia. Qed.

Lemma put_nil m p : put m p [] = m.
Proof. apply splice_nil. Qed.

Lemma put_app m p w w' : 0 <= p -> p + zlen w + zlen w' <= zlen m -> put (put m p w) (p + zlen w) w' = put m p (w ++ w').
Proof.
  intros Hp Hw. unfold put, zlen in *. replace (Z.to_nat (p + Z.of_nat (length w))) with (Z.to_nat p + length w)%nat by lia.
  apply splice_splice_adj. lia.
Qed.

Lemma put_one m p v : 0 <= p < zlen m -> setb m p v = put m p [v].
Proof.
  intros Hp. unfold put, zlen in *. pose proof (splice_snoc m (Z.to_nat p) [] v) as E. cbn in E. rewrite Nat.add_0_r, splice_nil in E.
  rewrite <- E by lia. by rewrite Z2Nat.id by lia.
Qed.

Lemma put_snoc m p w v : 0 <= p -> p + zlen w < zlen m -> setb (put m p w) (p + zlen w) v = put m p (w ++ [v]).
Proof.
  intros Hp Hw. pose proof (zlen_nonneg w). rewrite put_one by (rewrite zlen_put; lia). apply put_app; [done|]. unfold zlen at 2. cbn. lia.
Qed.

Lemma holds_put_apart m p s q w : holds m p s -> 0 <= q -> q + zlen w <= zlen m -> q + zlen w <= p \/ p + zlen s <= q ->
  holds (put m q w) p s.
Proof.
  intros H Hq. induction w as [|v w IH] using rev_ind; intros Hb Ho; [by rewrite put_nil|].
  rewrite zlen_app in *. change (zlen [v]) with 1 in *. pose proof (zlen_nonneg w).
  rewrite <- put_snoc by lia. apply holds_setb; [apply IH; lia|lia|lia].
Qed.

Lemma holds_put m p w : 0 <= p -> p + zlen w <= zlen m -> holds (put m p w) p w.
Proof.
  intros Hp Hb. split; [done|]. intros i x Hx. unfold put, splice, zlen in *. rewrite lookup_app_r by (rewrite length_take; lia).
  rewrite length_take, Nat.min_l by lia. replace (Z.to_nat p + i - Z.to_nat p)%nat with i by lia. by apply lookup_app_l_Some.
Qed.

Lemma wp_load p m c (Q : Z -> list Z -> Prop) : 0 <= p -> m !! Z.to_nat p = Some c -> Q c m -> wp (load p) Q m.
Proof.
  intros Hp Hc HQ. apply lookup_lt_Some in Hc as Hl. unfold wp, load, zlen.
  rewrite (proj2 (Z.leb_le _ _)), (proj2 (Z.ltb_lt _ _)) by lia. cbn.
  pose proof (lookup_getb _ _ _ Hc) as E. rewrite Z2Nat.id in E by lia. by rewrite E.
Qed.

Lemma wp_store p v m (Q : unit -> list Z -> Prop) : 0 <= p < zlen m -> Q tt (put m p [v]) -> wp (store p v) Q m.
Proof.
  intros Hp HQ. unfold wp, store. rewrite (proj2 (Z.leb_le _ _)), (proj2 (Z.ltb_lt _ _)) by lia. cbn. by rewrite put_one.
Qed.

Lemma wp_store_next p w v m (Q : unit -> list Z -> Prop) q : q = p + zlen w -> 0 <= p -> p + zlen w < zlen m -> Q tt (put m p (w ++ [v])) ->
  wp (store q v) Q (put m p w).
Proof.
  intros -> Hp Hw HQ. pose proof (zlen_nonneg w). apply wp_store; [rewrite zlen_put; lia|].
  by rewrite put_app by (try done; change (zlen [v]) with 1; lia).
Qed.

Lemma wp_strlen p s m (Q : Z -> list Z -> Prop) : holds m p (s ++ [0]) -> Forall (fun c => c <> 0) s -> Q (zlen s) m -> wp (strlen p) Q m.
Proof.
  intros H Hs HQ. unfold wp, strlen. rewrite (proj2 (Z.leb_le _ _)) by apply H.
  assert (forall s p n, holds m p (s ++ [0]) -> Forall (fun c => c <> 0) s -> strlen_from (drop (Z.to_nat p) m) n = Some (n + zlen s)) as E.
  { clear. induction s as [|c s IH]; intros p n H Hs; cbn [app] in H; apply holds_cons in H as (Hp & Hc & H).
    - rewrite (drop_S _ _ _ Hc). cbn. f_equal. unfold zlen. cbn. lia.
    - apply Forall_cons_1 in Hs as [Hne Hs]. rewrite (drop_S _ _ _ Hc). cbn. rewrite (proj2 (Z.eqb_neq c 0) Hne).
      replace (S (Z.to_nat p)) with (Z.to_nat (p + 1)) by lia. rewrite IH by done. f_equal. unfold zlen. cbn. lia. }
  by rewrite (E s) by done.
Qed.

(** ** [uri_escape] *)

Lemma escaped_cons c s : escaped (c :: s) = escape_char c ++ escaped s.
Proof. done. Qed.

Lemma escape_char_len c : zlen (escape_char c) = if must_escape c then 3 else 1.
Proof. unfold escape_char. by destruct (must_escape c). Qed.

Lemma wp_escape_len s : forall p n m fuel (Q : Z -> list Z -> Prop), holds m p s -> (length s < fuel)%nat ->
  0 <= n -> n + 3 * zlen s < 2 ^ 32 -> Q (n + zlen (escaped s)) m ->
  wp (loop fuel uri_escape_len_body (n, zlen s, p)) Q m.
Proof.
  induction s as [|c s IH]; intros p n m [|fuel] Q H Hf Hn Hb HQ; [cbn in Hf; lia| |cbn in Hf; lia|]; apply wp_loop_unfold.
  - change (zlen (@nil Z)) with 0. cbn. apply wp_ret. by rewrite Z.add_0_r in HQ.
  - rewrite zlen_cons in *. pose proof (zlen_nonneg s). apply holds_cons in H as (Hp & Hc & H). cbn [uri_escape_len_body].
    rewrite (proj2 (Z.ltb_lt _ _)) by lia. apply wp_bind. apply (wp_load _ _ c); [done|done|]. apply wp_ret.
    rewrite escaped_cons, zlen_app, escape_char_len in HQ.
    rewrite u32_small by (unfold is_u32; destruct (must_escape c); lia). replace (1 + zlen s - 1) with (zlen s) by lia.
    apply IH; [done|cbn in Hf; lia|destruct (must_escape c); lia|destruct (must_escape c); lia|].
    by rewrite Z.add_assoc in HQ.
Qed.

(** The result of the escape loop: the whole text when it and the terminator
    fit in [dl] bytes, otherwise a failure with at most [dl] bytes touched. *)
Definition escape_post (dest dl : Z) (s : list Z) (m : list Z) (r : option (Z * Z * Z)) (m' : list Z) : Prop :=
  (zlen (escaped s) < dl /\ r = Some (dest + zlen (escaped s), dl - zlen (escaped s), 0) /\ m' = put m dest (escaped s)) \/
  (dl <= zlen (escaped s) /\ (forall d l n, r = Some (d, l, n) -> n <> 0) /\ exists w, zlen w < dl /\ m' = put m dest w).

Lemma escape_post_step dest dl c s w m r m' : w = escape_char c -> 0 <= dest -> zlen w < dl -> dest + dl <= zlen m ->
  escape_post (dest + zlen w) (dl - zlen w) s (put m dest w) r m' -> escape_post dest dl (c :: s) m r m'.
Proof.
  intros -> Hd Hw Hb H. pose proof (zlen_nonneg (escaped s)). unfold escape_post. rewrite escaped_cons, zlen_app.
  destruct H as [(H1 & -> & ->)|(H1 & H2 & w & H3 & ->)].
  - left. split; [lia|]. split; [do 3 f_equal; lia|]. by rewrite put_app by lia.
  - right. split; [lia|]. split; [done|]. exists (escape_char c ++ w). rewrite zlen_app. split; [lia|]. by rewrite put_app by lia.
Qed.

Lemma wp_escape_loop s : forall dest dl src m fuel,
  holds m src s -> (length s < fuel)%nat -> 0 <= dest -> 1 <= dl -> dest + dl <= zlen m ->
  dest + dl <= src \/ src + zlen s <= dest ->
  wp (loop fuel uri_escape_body (dest, dl, src, zlen s)) (escape_post dest dl s m) m.
Proof.
  induction s as [|c s IH]; intros dest dl src m [|fuel] H Hf Hd Hdl Hb Ha; [cbn in Hf; lia| |cbn in Hf; lia|]; apply wp_loop_unfold.
  { change (zlen (@nil Z)) with 0. cbn. apply wp_ret. left. change (zlen (escaped [])) with 0. split; [lia|].
    split; [do 3 f_equal; lia|by rewrite put_nil]. }
  cbn [uri_escape_body]. pose proof (zlen_nonneg s). apply holds_cons in H as (Hp & Hc & H). rewrite zlen_cons in *.
  rewrite (proj2 (Z.ltb_lt 0 _)) by lia. destruct (Z.ltb_spec 1 dl) as [Hl|Hl]; cbn [andb].
  2: { apply wp_ret. right. pose proof (zlen_nonneg (escaped s)). rewrite escaped_cons, zlen_app, escape_char_len.
       split; [destruct (must_escape c); lia|]. split; [intros d l n Hn; injection Hn as _ _ <-; lia|].
       exists []. rewrite put_nil. split; [unfold zlen; cbn; lia|done]. }
  assert (forall w, zlen w < dl -> holds (put m dest w) (src + 1) s /\ (zlen w < dl -> (put m dest w) !! Z.to_nat src = Some c)) as Hk.
  { intros w Hw. assert (holds (put m dest w) src (c :: s)) as Hh.
    { apply holds_put_apart; [by apply holds_cons|done|lia|rewrite zlen_cons; lia]. }
    apply holds_cons in Hh as (_ & ? & ?). done. }
  assert (forall w, w = escape_char c -> zlen w < dl ->
    wp (loop fuel uri_escape_body (dest + zlen w, dl - zlen w, src + 1, 1 + zlen s - 1)) (escape_post dest dl (c :: s) m) (put m dest w)) as Hnext.
  { intros w Ew Hw. pose proof (zlen_nonneg w). replace (1 + zlen s - 1) with (zlen s) by lia.
    eapply wp_mono; [apply IH; [by apply Hk|cbn in Hf; lia|lia|lia|rewrite zlen_put; lia|lia]|].
    intros r m' Hr. by eapply escape_post_step; eauto. }
  apply wp_bind. apply (wp_load _ _ c); [done|done|]. unfold escape_char in Hnext. destruct (must_escape c) eqn:Em.
  - destruct (Z.leb_spec dl 3) as [Hs|Hs].
    { apply wp_ret. right. rewrite escaped_cons, zlen_app, escape_char_len, Em. pose proof (zlen_nonneg (escaped s)).
      split; [lia|]. split; [done|]. exists []. rewrite put_nil. split; [unfold zlen; cbn; lia|done]. }
    apply wp_bind, wp_store; [lia|]. apply wp_bind, wp_bind. apply (wp_load _ _ c); [done|by apply Hk; change (zlen [37]) with 1; lia|].
    apply wp_store_next; [done|done|change (zlen [37]) with 1; lia|]. cbn [app].
    apply wp_bind, wp_bind. apply (wp_load _ _ c); [done|by apply Hk; unfold zlen; cbn; lia|].
    apply wp_store_next; [unfold zlen; cbn; lia|done|unfold zlen at 1; cbn; lia|]. cbn [app]. apply wp_ret.
    by apply (Hnext [37; hexchar (Z.shiftr c 4); hexchar (Z.land c 15)]).
  - destruct (c =? 0x20) eqn:E20.
    + apply wp_bind, wp_store; [lia|]. apply wp_ret. by apply (Hnext [0x2b]).
    + apply wp_bind. apply (wp_load _ _ c); [done|done|]. apply wp_bind, wp_store; [lia|]. apply wp_ret. by apply (Hnext [c]).
Qed.

(** What [uri_escape] leaves: the text and its terminator at [dest], or an
    error when they do not fit in [dl] bytes, which stay inside them. *)
Definition uri_escape_result (dest dl : Z) (s : list Z) (m : list Z) (r : option Z) (m' : list Z) : Prop :=
  if zlen (escaped s) <? dl then r = Some dest /\ m' = put m dest (escaped s ++ [0])
  else r = None /\ exists w, zlen w < dl /\ m' = put m dest w.

Section UriEscape.
Context (has_room : Z -> bool) (fill : Z).

Lemma wp_uri_escape dest dl src s m : holds m src s -> 0 <= dest -> 1 <= dl -> dest + dl <= zlen m ->
  dest + dl <= src \/ src + zlen s <= dest ->
  wp (uri_escape has_room fill (Some dest) dl src (zlen s)) (uri_escape_result dest dl s m) m.
Proof.
  intros H Hd Hdl Hb Ha. unfold uri_escape. pose proof (zlen_nonneg s). rewrite (proj2 (Z.ltb_ge _ _)) by lia.
  do 3 apply wp_bind, wp_ret. apply wp_bind. eapply wp_mono; [apply wp_escape_loop; try done; unfold zlen; lia|].
  unfold uri_escape_result. intros r m' [(H1 & -> & ->)|(H1 & H2 & w & H3 & ->)]; pose proof (zlen_nonneg (escaped s)).
  - rewrite (proj2 (Z.ltb_lt _ _)) by lia. cbn [Z.eqb negb]. apply wp_bind. rewrite (proj2 (Z.leb_le _ _)) by lia. apply wp_ret.
    apply wp_bind, wp_store_next; [done|done|lia|]. by apply wp_ret.
  - rewrite (proj2 (Z.ltb_ge _ _)) by lia. destruct r as [[[d l] n]|].
    + rewrite (proj2 (Z.eqb_neq n 0)) by (by eapply H2). apply wp_bind, wp_ret, wp_ret. eauto.
    + apply wp_bind, wp_ret, wp_ret. eauto.
Qed.
End UriEscape.

(** ** [uri_unescape] *)

Lemma unescaped_len s : zlen (unescaped s) <= zlen s.
Proof.
  remember (length s) as n eqn:En. assert (length s <= n)%nat as Hn by lia. clear En.
  revert s Hn. induction n as [|n IH]; intros [|c r] Hn; [done|cbn in Hn; lia|done|]. cbn in Hn.
  assert (zlen ((if c =? 0x2b then 0x20 else c) :: unescaped r) <= zlen (c :: r)) as H1.
  { rewrite !zlen_cons. specialize (IH r ltac:(lia)). lia. }
  cbn [unescaped]. destruct r as [|a [|b r]]; [exact H1|exact H1|]. destruct (_ && _); [|exact H1].
  rewrite !zlen_cons. specialize (IH r ltac:(cbn in Hn; lia)). lia.
Qed.

(** The result of the loop, as for the escape loop. *)
Definition unescape_post (dest dl : Z) (s : list Z) (m : list Z) (r : Z * Z * Z) (m' : list Z) : Prop :=
  (zlen (unescaped s) < dl /\ r = (dest + zlen (unescaped s), dl - zlen (unescaped s), 0) /\ m' = put m dest (unescaped s)) \/
  (dl <= zlen (unescaped s) /\ (exists d l n, r = (d, l, n) /\ n <> 0) /\ exists w, zlen w < dl /\ m' = put m dest w).

Lemma unescape_post_step dest dl s s' v m r m' : unescaped s = v :: unescaped s' -> 0 <= dest -> 1 < dl -> dest + dl <= zlen m ->
  unescape_post (dest + 1) (dl - 1) s' (put m dest [v]) r m' -> unescape_post dest dl s m r m'.
Proof.
  intros E Hd Hw Hb H. pose proof (zlen_nonneg (unescaped s')). unfold unescape_post. rewrite E, zlen_cons.
  change (dest + 1) with (dest + zlen [v]) in *.
  destruct H as [(H1 & -> & ->)|(H1 & H2 & w & H3 & ->)]; change (zlen [v]) with 1 in *.
  - left. split; [lia|]. split; [do 2 f_equal; lia|]. by rewrite put_app by (change (zlen [v]) with 1; lia).
  - right. split; [lia|]. split; [done|]. exists (v :: w). rewrite zlen_cons. split; [lia|].
    by rewrite put_app by (change (zlen [v]) with 1; lia).
Qed.

Lemma unescape_post_nil dest dl m : 1 <= dl -> unescape_post dest dl [] m (dest, dl, 0) m.
Proof.
  intros Hdl. left. change (zlen (unescaped [])) with 0. split; [lia|]. split; [do 2 f_equal; lia|by rewrite put_nil].
Qed.

Lemma unescape_post_full dest dl c r m : 1 <= dl <= 1 -> unescape_post dest dl (c :: r) m (dest, dl, zlen (c :: r)) m.
Proof.
  intros Hdl. right. split.
  - cbn [unescaped]. destruct r as [|a [|b r]]; [..|destruct (_ && _)]; rewrite zlen_cons; match goal with |- _ <= 1 + zlen ?x => pose proof (zlen_nonneg x); lia end.
  - split; [exists dest, dl, (zlen (c :: r)); split; [done|rewrite zlen_cons; pose proof (zlen_nonneg r); lia]|].
    exists []. rewrite put_nil. split; [unfold zlen; cbn; lia|done].
Qed.

(** Source and destination may overlap when the destination does not start
    behind the source: every character is read before it is overwritten. *)
Lemma wp_unescape_loop n : forall s dest dl src m fuel,
  (length s <= n)%nat -> holds m src s -> (n < fuel)%nat -> 0 <= dest -> 1 <= dl -> dest + dl <= zlen m ->
  dest <= src \/ src + zlen s <= dest ->
  wp (loop fuel uri_unescape_body (dest, dl, src, zlen s)) (unescape_post dest dl s m) m.
Proof.
  induction n as [|n IH]; intros s dest dl src m [|fuel] Hs H Hf Hd Hdl Hb Ha; try lia; apply wp_loop_unfold.
  all: destruct s as [|c r]; [change (zlen (@nil Z)) with 0; cbn [uri_unescape_body]; rewrite andb_false_r; by apply wp_ret, unescape_post_nil|cbn in Hs; try lia].
  assert (forall v pre s', c :: r = pre ++ s' -> 1 <= zlen pre -> unescaped (c :: r) = v :: unescaped s' -> 1 < dl ->
    wp (loop fuel uri_unescape_body (dest + 1, dl - 1, src + zlen pre, zlen (c :: r) - zlen pre)) (unescape_post dest dl (c :: r) m) (put m dest [v])) as Hnext.
  { intros v pre s' E Hpre Ev Hl. assert (zlen (c :: r) = zlen pre + zlen s') as Ez by (by rewrite E, zlen_app).
    replace (zlen (c :: r) - zlen pre) with (zlen s') by lia. pose proof (zlen_nonneg s'). rewrite E in H. apply holds_app in H as [Hh1 Hh2].
    eapply wp_mono; [apply IH; [unfold zlen in *; cbn in *; lia| |lia|lia|lia|rewrite zlen_put; change (zlen [v]) with 1; lia|lia]|].
    - rewrite <- put_one by lia. apply holds_setb; [done|done|lia].
    - intros x m' Hx. by eapply unescape_post_step. }
  cbn [uri_unescape_body]. rewrite (proj2 (Z.ltb_lt 0 _)), andb_true_r by (rewrite zlen_cons; pose proof (zlen_nonneg r); lia).
  destruct (Z.ltb_spec 1 dl) as [Hl|Hl]; [|apply wp_ret, unescape_post_full; lia].
  apply holds_cons in H as (Hp & Hc & H). apply wp_bind, (wp_load _ _ c); [done|done|].
  assert (unescaped (c :: r) = (if c =? 0x2b then 0x20 else c) :: unescaped r ->
    wp (if c =? 0x2b then store dest 0x20 ;;; ret (inl (dest + 1, dl - 1, src + 1, zlen (c :: r) - 1))
        else store dest c ;;; ret (inl (dest + 1, dl - 1, src + 1, zlen (c :: r) - 1)))
       (fun x s' => match x with inl a' => wp (loop fuel uri_unescape_body a') (unescape_post dest dl (c :: r) m) s'
                            | inr b => unescape_post dest dl (c :: r) m b s' end) m) as Hplain.
  { intros E. destruct (c =? 0x2b); apply wp_bind, wp_store; try lia; apply wp_ret; by apply (Hnext _ [c] r). }
  cbn [unescaped] in Hplain. destruct ((c =? 0x25) && (3 <=? zlen (c :: r))) eqn:E3.
  - apply andb_true_iff in E3 as [E25 E3%Z.leb_le]. destruct r as [|a [|b r]]; [unfold zlen in E3; cbn in E3; lia..|].
    apply holds_cons in H as (_ & Ha1 & H). apply holds_cons in H as (_ & Hb1 & H). replace (src + 1 + 1) with (src + 2) in Hb1 by lia.
    apply wp_bind, wp_bind, (wp_load _ _ a); [lia|done|]. apply wp_bind, (wp_load _ _ b); [lia|done|]. apply wp_ret.
    rewrite E25 in Hplain. cbn [andb] in Hplain. destruct (ishex a b) eqn:Eh; [|by apply Hplain].
    apply wp_bind, (wp_load _ _ a); [lia|done|]. apply wp_bind, (wp_load _ _ b); [lia|done|].
    apply wp_bind, wp_store; [lia|]. apply wp_ret. apply (Hnext _ [c; a; b] r); [done|done| |done]. cbn [unescaped]. by rewrite E25, Eh.
  - apply wp_bind, wp_ret. apply Hplain. destruct r as [|a [|b r]]; [done|done|].
    rewrite (proj2 (Z.leb_le 3 _)), andb_true_r in E3 by (rewrite !zlen_cons; pose proof (zlen_nonneg r); lia). by rewrite E3.
Qed.

Section UriUnescape.
Context (has_room : Z -> bool) (fill : Z).

Lemma wp_uri_unescape dest dl src s m : holds m src s -> 0 <= dest -> 1 <= dl -> dest + dl <= zlen m ->
  dest <= src \/ src + zlen s <= dest ->
  wp (uri_unescape has_room fill (Some dest) dl src (zlen s))
     (fun r m' => if zlen (unescaped s) <? dl then r = Some dest /\ m' = put m dest (unescaped s ++ [0])
                  else r = None /\ exists w, zlen w < dl /\ m' = put m dest w) m.
Proof.
  intros H Hd Hdl Hb Ha. unfold uri_unescape. pose proof (zlen_nonneg s). rewrite (proj2 (Z.ltb_ge _ _)) by lia.
  do 2 apply wp_bind, wp_ret. apply wp_bind. eapply wp_mono; [apply (wp_unescape_loop (length s)); try done; unfold zlen; lia|].
  intros r m' [(H1 & -> & ->)|(H1 & (d & l & n & -> & Hn) & w & H3 & ->)]; pose proof (zlen_nonneg (unescaped s)).
  - rewrite (proj2 (Z.ltb_lt _ _)) by lia. cbn [Z.eqb negb]. apply wp_bind. rewrite (proj2 (Z.leb_le _ _)) by lia. apply wp_ret.
    apply wp_bind, wp_store_next; [done|done|lia|]. by apply wp_ret.
  - rewrite (proj2 (Z.ltb_ge _ _)) by lia. rewrite (proj2 (Z.eqb_neq n 0) Hn). apply wp_bind, wp_ret, wp_ret. eauto.
Qed.

(** In place there is always room. *)
Lemma wp_uri_unescape_inplace p s m : holds m p (s ++ [0]) -> Forall (fun c => c <> 0) s ->
  wp (uri_unescape_inplace has_room fill (Some p)) (fun r m' => r = Some p /\ m' = put m p (unescaped s ++ [0])) m.
Proof.
  intros H Hs. unfold uri_unescape_inplace. apply wp_bind, (wp_strlen _ s); [done|done|].
  pose proof (holds_bound _ _ _ H ltac:(by destruct s)) as Hb. rewrite zlen_app in Hb. change (zlen [0]) with 1 in Hb.
  pose proof (zlen_nonneg s). pose proof (unescaped_len s). pose proof (proj1 H).
  apply wp_bind. eapply wp_mono; [apply wp_uri_unescape; [by apply holds_app in H as [? _]|done|lia|lia|lia]|].
  intros r m'. rewrite (proj2 (Z.ltb_lt _ _)) by lia. intros [_ ->]. by apply wp_ret.
Qed.
End UriUnescape.

(** ** Round trip *)

Lemma unescaped_plain c r : c <> 0x25 -> unescaped (c :: r) = (if c =? 0x2b then 0x20 else c) :: unescaped r.
Proof. intros Hc. cbn [unescaped]. rewrite (proj2 (Z.eqb_neq c 0x25) Hc). by destruct r as [|a [|b r]]. Qed.

Lemma unescaped_char c r : unescaped (escape_char c ++ r) = c :: unescaped r.
Proof.
  unfold escape_char. destruct (must_escape c) eqn:Em.
  - unfold must_escape in Em. apply existsb_exists in Em as (x & Hx & ->%Z.eqb_eq).
    repeat (destruct Hx as [<-|Hx]; [reflexivity|]). done.
  - assert (c <> 0x25 /\ c <> 0x2b) as [H25 H2b] by (split; intros ->; done). cbn [app].
    destruct (Z.eqb_spec c 0x20) as [->|]; [by rewrite unescaped_plain|].
    rewrite unescaped_plain by done. by rewrite (proj2 (Z.eqb_neq c 0x2b) H2b).
Qed.

Lemma unescaped_escaped s : unescaped (escaped s) = s.
Proof. induction s as [|c s IH]; [done|]. by rewrite escaped_cons, unescaped_char, IH. Qed.

Lemma escaped_nonzero s : Forall (fun c => c <> 0) s -> Forall (fun c => c <> 0) (escaped s).
Proof.
  induction 1 as [|c s Hc Hs IH]; [done|]. rewrite escaped_cons. apply Forall_app. split; [|done]. unfold escape_char.
  destruct (must_escape c) eqn:Em; [|destruct (c =? 0x20); repeat constructor; done].
  unfold must_escape in Em. apply existsb_exists in Em as (x & Hx & ->%Z.eqb_eq).
  repeat (destruct Hx as [<-|Hx]; [repeat constructor; done|]). done.
Qed.

Lemma put_outside m p w i : 0 <= p -> (Z.of_nat i < p \/ p + zlen w <= Z.of_nat i) -> p + zlen w <= zlen m -> put m p w !! i = m !! i.
Proof.
  intros Hp Hi Hb. unfold put, splice, zlen in *. destruct Hi as [Hi|Hi].
  - rewrite lookup_app_l by (rewrite length_take; lia). apply lookup_take_lt. lia.
  - rewrite lookup_app_r by (rewrite length_take; lia). rewrite length_take, Nat.min_l by lia.
    rewrite lookup_app_r by lia. rewrite lookup_drop. f_equal. lia.
Qed.

(** What [uri_escape] writes, [uri_unescape_inplace] turns back into the
    original text, in the same buffer: for every text without a zero byte and
    a destination apart from it that has room for the escaped text, the two
    calls succeed, leave the text and its terminator at the destination and
    change nothing outside the destination buffer. *)
Theorem uri_escape_roundtrip (has_room : Z -> bool) (fill : Z) (m s : list Z) (src dest dl : Z) :
  holds m src s -> Forall (fun c => c <> 0) s -> 0 <= dest -> dest + dl <= zlen m ->
  dest + dl <= src \/ src + zlen s <= dest ->
  zlen (escaped s) < dl ->
  exists m1 m2,
    uri_escape has_room fill (Some dest) dl src (zlen s) m = Some (Some dest, m1) /\ holds m1 dest (escaped s ++ [0]) /\
    uri_unescape_inplace has_room fill (Some dest) m1 = Some (Some dest, m2) /\ holds m2 dest (s ++ [0]) /\
    forall i, Z.of_nat i < dest \/ dest + dl <= Z.of_nat i -> m2 !! i = m !! i.
Proof.
  intros H Hs Hd Hb Ha Hl. pose proof (zlen_nonneg (escaped s)).
  pose proof (wp_uri_escape has_room fill dest dl src s m H Hd ltac:(lia) Hb Ha) as W. apply wp_run in W as (r & m1 & E1 & W).
  unfold uri_escape_result in W. rewrite (proj2 (Z.ltb_lt _ _)) in W by lia. destruct W as [-> ->].
  assert (zlen (escaped s ++ [0]) <= dl) as Hl' by (rewrite zlen_app; change (zlen [0]) with 1; lia).
  assert (holds (put m dest (escaped s ++ [0])) dest (escaped s ++ [0])) as Hh by (apply holds_put; lia).
  pose proof (wp_uri_unescape_inplace has_room fill dest (escaped s) _ Hh (escaped_nonzero s Hs)) as W.
  apply wp_run in W as (r & m2 & E2 & -> & ->). rewrite unescaped_escaped in *.
  assert (zlen (s ++ [0]) <= dl) as Hs'.
  { rewrite !zlen_app in *. pose proof (unescaped_len (escaped s)) as Hu. rewrite unescaped_escaped in Hu. change (zlen [0]) with 1 in *. lia. }
  eexists _, _. split; [exact E1|]. split; [done|]. split; [exact E2|].
  split; [apply holds_put; [done|rewrite zlen_put; lia]|]. intros i Hi.
  rewrite !put_outside; rewrite ?zlen_put; lia || done.
Qed.

Example uri_escape_roundtrip_witness :
  let m := string_bytes "a b&c"%string ++ replicate 9 0xff in
  exists m1 m2,
    uri_escape (fun _ => true) 0 (Some 5) 8 0 5 m = Some (Some 5, m1) /\ holds m1 5 (escaped (string_bytes "a b&c"%string) ++ [0]) /\
    uri_unescape_inplace (fun _ => true) 0 (Some 5) m1 = Some (Some 5, m2) /\ holds m2 5 (string_bytes "a b&c"%string ++ [0]) /\
    forall i, Z.of_nat i < 5 \/ 5 + 8 <= Z.of_nat i -> m2 !! i = m !! i.
Proof.
  intros m. apply (uri_escape_roundtrip (fun _ => true) 0 m (string_bytes "a b&c"%string) 0 5 8); [|repeat constructor; done|done|vm_compute; discriminate|right; done|done].
  split; [done|]. intros i x Hx. do 5 (destruct i as [|i]; [exact Hx|]). done.
Defined.

(** C39. [uri_unescape] with source and destination in one buffer or apart:
    whenever the destination does not start inside the source, the call
    writes the unescaped text and its terminator and returns the destination
    if they fit in the [dl] bytes given, and otherwise returns an error having
    written fewer than [dl] bytes; no load or store leaves the memory. *)
Theorem uri_unescape_correct (has_room : Z -> bool) (fill : Z) (m s : list Z) (src dest dl : Z) :
  holds m src s -> 0 <= dest -> 1 <= dl -> dest + dl <= zlen m -> dest <= src \/ src + zlen s <= dest ->
  exists r m', uri_unescape has_room fill (Some dest) dl src (zlen s) m = Some (r, m') /\
    if zlen (unescaped s) <? dl then r = Some dest /\ m' = put m dest (unescaped s ++ [0])
    else r = None /\ exists w, zlen w < dl /\ m' = put m dest w.
Proof. intros. apply wp_run. by apply wp_uri_unescape. Qed.

Example uri_unescape_correct_witness :
  let m := string_bytes "a%2Fb+c"%string ++ [0] in
  unescaped (string_bytes "a%2Fb+c"%string) = string_bytes "a/b c"%string /\
  exists r m', uri_unescape (fun _ => true) 0 (Some 0) 8 0 7 m = Some (r, m') /\
    if zlen (unescaped (string_bytes "a%2Fb+c"%string)) <? 8 then r = Some 0 /\ m' = put m 0 (unescaped (string_bytes "a%2Fb+c"%string) ++ [0])
    else r = None /\ exists w, zlen w < 8 /\ m' = put m 0 w.
Proof.
  intros m. split; [reflexivity|].
  apply (uri_unescape_correct (fun _ => true) 0 m (string_bytes "a%2Fb+c"%string) 0 0 8); [|done|done|done|left; done].
  split; [done|]. intros i x Hx. do 7 (destruct i as [|i]; [exact Hx|]). done.
Defined.

(** ** HTML *)

Lemma put_over m p w v w' : 0 <= p -> w' <> [] -> p + zlen w + zlen w' <= zlen m ->
  put (put m p (w ++ [v])) (p + zlen w) w' = put m p (w ++ w').
Proof.
  intros Hp Hw Hb. pose proof (zlen_nonneg w). assert (1 <= zlen w') as H1 by (destruct w'; [done|rewrite zlen_cons; pose proof (zlen_nonneg w'); lia]).
  assert (zlen (w ++ [v]) = zlen w + 1) as E1 by (by rewrite zlen_app).
  apply list_eq. intros i. destruct (decide (Z.of_nat i < p + zlen w \/ p + zlen w + zlen w' <= Z.of_nat i)) as [Hi|Hi].
  - rewrite put_outside by (rewrite ?zlen_put; lia). destruct (decide (p <= Z.of_nat i < p + zlen w)) as [Hi2|Hi2].
    + assert (exists x, w !! (i - Z.to_nat p)%nat = Some x) as [x Hx] by (apply lookup_lt_is_Some_2; unfold zlen in *; lia).
      replace i with (Z.to_nat p + (i - Z.to_nat p))%nat by lia.
      etrans; [apply (holds_put m p (w ++ [v])); [lia|lia|by apply lookup_app_l_Some]|].
      symmetry. apply (holds_put m p (w ++ w')); [lia|rewrite zlen_app; lia|by apply lookup_app_l_Some].
    + rewrite !put_outside; rewrite ?zlen_app in *; lia || done.
  - assert (exists x, w' !! (i - Z.to_nat (p + zlen w))%nat = Some x) as [x Hx] by (apply lookup_lt_is_Some_2; unfold zlen in *; lia).
    replace i with (Z.to_nat (p + zlen w) + (i - Z.to_nat (p + zlen w)))%nat at 1 by lia.
    etrans; [apply (holds_put (put m p (w ++ [v])) (p + zlen w) w'); [lia|rewrite zlen_put; lia|exact Hx]|].
    replace i with (Z.to_nat p + (length w + (i - Z.to_nat (p + zlen w))))%nat by (unfold zlen in *; lia).
    symmetry. apply (holds_put m p (w ++ w')); [lia|rewrite zlen_app; lia|].
    rewrite lookup_app_r by lia. by replace (_ + _ - _)%nat with (i - Z.to_nat (p + zlen w))%nat by lia.
Qed.

Lemma wp_memcpy_lit str : forall dest m (Q : unit -> list Z -> Prop), 0 <= dest -> dest + zlen str <= zlen m ->
  Q tt (put m dest str) -> wp (memcpy_lit dest str) Q m.
Proof.
  induction str as [|c str IH]; intros dest m Q Hd Hb HQ; [rewrite put_nil in HQ; by apply wp_ret|].
  rewrite zlen_cons in Hb. pose proof (zlen_nonneg str). cbn [memcpy_lit]. apply wp_bind, wp_store; [lia|].
  apply IH; [lia|rewrite zlen_put; change (zlen [c]) with 1; lia|].
  change (dest + 1) with (dest + zlen [c]). by rewrite put_app by (change (zlen [c]) with 1; lia).
Qed.

(** The memory while [html_escape] runs: the text so far, with or without the
    terminator of an entity behind it. *)
Definition html_so_far (m : list Z) (dest : Z) (w : list Z) (m1 : list Z) : Prop := m1 = put m dest w \/ m1 = put m dest (w ++ [0]).

Lemma html_so_far_put m dest w m1 w' : html_so_far m dest w m1 -> 0 <= dest -> w' <> [] -> dest + zlen w + zlen w' <= zlen m ->
  put m1 (dest + zlen w) w' = put m dest (w ++ w').
Proof. intros [->| ->] Hd Hw Hb; [by apply put_app|by apply put_over]. Qed.

Lemma zlen_so_far m dest w m1 : html_so_far m dest w m1 -> 0 <= dest -> dest + zlen w < zlen m -> zlen m1 = zlen m.
Proof. intros [->| ->] Hd Hb; apply zlen_put; rewrite ?zlen_app; change (zlen [0]) with 1; lia. Qed.

Lemma html_text_cons c s : html_text (c :: s) = default [c] (html_entity c) ++ html_text s.
Proof. done. Qed.

Lemma holds_so_far m dest w m1 src s : html_so_far m dest w m1 -> holds m src s -> 0 <= dest ->
  dest + zlen w < zlen m -> dest + zlen w + 1 <= src \/ src + zlen s <= dest -> holds m1 src s.
Proof.
  intros [->| ->] H Hd Hb Ha; apply holds_put_apart; try done; rewrite ?zlen_app; change (zlen [0]) with 1; lia.
Qed.

Lemma wp_html_loop dest len m src0 s0 : 0 <= dest -> dest + len < zlen m -> holds m src0 (s0 ++ [0]) ->
  dest + len < src0 \/ src0 + zlen s0 < dest -> forall s w src m1 fuel,
  Forall (fun c => c <> 0) s -> holds m src (s ++ [0]) -> src0 <= src -> src + zlen s = src0 + zlen s0 ->
  zlen w + zlen (html_text s) <= len -> html_so_far m dest w m1 -> (length s < fuel)%nat ->
  wp (loop fuel (html_escape_body dest len) (zlen w, src))
     (fun i m' => i = zlen (w ++ html_text s) /\ html_so_far m dest (w ++ html_text s) m') m1.
Proof.
  intros Hd Hb H0 Ha s. induction s as [|c s IH]; intros w src m1 [|fuel] Hs H Hge Hsrc Hlen Hm1 Hf; [cbn in Hf; lia| |cbn in Hf; lia|];
    apply wp_loop_unfold; cbn [html_escape_body]; pose proof (zlen_nonneg w).
  - rewrite app_nil_r. assert (holds m1 src [0]) as Hh.
    { eapply holds_so_far; eauto; [change (zlen (html_text [])) with 0 in *; lia|]. change (zlen (html_text [])) with 0 in *.
      rewrite ?zlen_app in *. change (zlen [0]) with 1. change (zlen (@nil Z)) with 0 in *. lia. }
    apply holds_cons in Hh as (Hp & Hc & _). destruct (zlen w <? len); [|by apply wp_ret].
    apply wp_bind, (wp_load _ _ 0); [done|done|]. by apply wp_ret.
  - rewrite html_text_cons in *. rewrite zlen_app in Hlen. rewrite zlen_cons in Hsrc. pose proof (zlen_nonneg (html_text s)). pose proof (zlen_nonneg s). apply Forall_cons_1 in Hs as [Hc0 Hs].
    assert (1 <= zlen (default [c] (html_entity c))) as He.
    { unfold html_entity. repeat match goal with |- context [if ?b then _ else _] => destruct b; [done|] end. done. }
    assert (holds m1 src ((c :: s) ++ [0])) as Hh.
    { eapply holds_so_far; eauto; [lia|]. rewrite zlen_app, zlen_cons. change (zlen [0]) with 1. lia. }
    cbn [app] in Hh, H. apply holds_cons in Hh as (Hp & Hc & _). apply holds_cons in H as (_ & _ & H).
    pose proof (zlen_so_far _ _ _ _ Hm1 Hd ltac:(lia)) as Ez.
    assert (forall e m2, e = default [c] (html_entity c) -> html_so_far m dest (w ++ e) m2 ->
      wp (loop fuel (html_escape_body dest len) (zlen w + zlen e, src + 1))
         (fun i m' => i = zlen (w ++ default [c] (html_entity c) ++ html_text s) /\ html_so_far m dest (w ++ default [c] (html_entity c) ++ html_text s) m') m2) as Hnext.
    { intros e m2 -> Hm2. rewrite <- zlen_app, app_assoc. apply IH; [done|done|lia|lia|rewrite zlen_app; lia|done|cbn in Hf; lia]. }
    rewrite (proj2 (Z.ltb_lt _ _)) by lia. apply wp_bind, (wp_load _ _ c); [done|done|].
    rewrite (proj2 (Z.eqb_neq c 0) Hc0). cbn [negb]. destruct (html_entity c) as [e|]; cbn [default id] in *.
    + apply wp_bind. unfold safe_append. rewrite (proj2 (Z.ltb_ge _ _)) by lia. apply wp_bind, wp_memcpy_lit; [lia| |].
      * rewrite zlen_app. change (zlen [0]) with 1. lia.
      * do 2 apply wp_ret. apply Hnext; [done|]. right. rewrite <- app_assoc.
        apply html_so_far_put; [done|done|by destruct e|rewrite zlen_app; change (zlen [0]) with 1; lia].
    + apply wp_bind, (wp_load _ _ c); [done|done|]. apply wp_bind, wp_store; [lia|]. apply wp_ret. apply (Hnext [c]); [done|]. left.
      apply html_so_far_put; [done|done|done|lia].
Qed.

Lemma wp_html_len s : forall p n m fuel (Q : Z -> list Z -> Prop) k, holds m p (s ++ [0]) -> Forall (fun c => c <> 0) s -> zlen s <= k ->
  (length s < fuel)%nat -> Q (n + zlen (html_text s)) m -> wp (loop fuel html_escape_len_body (n, k, p)) Q m.
Proof.
  induction s as [|c s IH]; intros p n m [|fuel] Q k H Hs Hk Hf HQ; [cbn in Hf; lia| |cbn in Hf; lia|]; apply wp_loop_unfold; cbn [html_escape_len_body].
  - cbn in H. apply holds_cons in H as (Hp & Hc & _). rewrite Z.add_0_r in HQ. destruct (k =? 0); [by apply wp_ret|].
    apply wp_bind, (wp_load _ _ 0); [done|done|]. by apply wp_ret.
  - rewrite zlen_cons in Hk. pose proof (zlen_nonneg s). cbn [app] in H. apply holds_cons in H as (Hp & Hc & H). apply Forall_cons_1 in Hs as [Hc0 Hs].
    rewrite (proj2 (Z.eqb_neq k 0)) by lia. apply wp_bind, (wp_load _ _ c); [done|done|].
    rewrite (proj2 (Z.eqb_neq c 0) Hc0). apply wp_ret. apply IH; [done|done|lia|cbn in Hf; lia|].
    rewrite html_text_cons, zlen_app, Z.add_assoc in HQ. by destruct (html_entity c).
Qed.

(** [html_escape]: with a length of at least [html_escape_len] and a
    buffer with one byte more than that, apart from the source string, every
    reserved character becomes its entity and the result is terminated;
    nothing else is written. *)
Theorem html_escape_correct (m s : list Z) (src dest len n : Z) :
  holds m src (s ++ [0]) -> Forall (fun c => c <> 0) s -> 0 <= dest -> dest + len < zlen m ->
  dest + len < src \/ src + zlen s < dest -> zlen s <= n -> zlen (html_text s) <= len ->
  html_escape_len src n m = Some (zlen (html_text s), m) /\
  html_escape dest len src m = Some (tt, put m dest (html_text s ++ [0])).
Proof.
  intros H Hs Hd Hb Ha Hn Hl. split.
  - assert (wp (html_escape_len src n) (fun r m' => r = zlen (html_text s) /\ m' = m) m) as W.
    { apply (wp_html_len s); try done. unfold zlen in Hn. lia. }
    apply wp_run in W as (r & m' & E & -> & ->). exact E.
  - assert (wp (html_escape dest len src) (fun _ m' => m' = put m dest (html_text s ++ [0])) m) as W.
    { unfold html_escape. change (wp (bind (loop (S (length m)) (html_escape_body dest len) (0, src)) (fun i => store (dest + i) 0)) (fun _ m' => m' = put m dest (html_text s ++ [0])) m).
      apply wp_bind. eapply wp_mono; [apply (wp_html_loop dest len m src s Hd Hb H Ha s [] src m (S (length m))); try done|].
      - by left; rewrite put_nil.
      - pose proof (holds_bound _ _ _ H ltac:(by destruct s)) as Hbd. rewrite zlen_app in Hbd. unfold zlen in Hbd. cbn in Hbd.
        pose proof (proj1 H). lia.
      - cbn [app]. intros i m' (-> & Hm'). pose proof (zlen_nonneg (html_text s)). apply wp_store; [rewrite (zlen_so_far _ _ _ _ Hm'); lia|].
        apply html_so_far_put; [done|done|done|change (zlen [0]) with 1; lia]. }
    apply wp_run in W as ([] & m' & E & ->). exact E.
Qed.

Example html_escape_correct_witness :
  let m := string_bytes "a<b"%string ++ [0] ++ replicate 7 0xff in
  html_escape_len 0 3 m = Some (6, m) /\ html_escape 4 6 0 m = Some (tt, string_bytes "a<b"%string ++ [0] ++ string_bytes "a&lt;b"%string ++ [0]).
Proof.
  intros m. apply (html_escape_correct m (string_bytes "a<b"%string) 0 4 6 3); [|repeat constructor; done|done|done|right; done|done|done].
  split; [done|]. intros i x Hx. do 4 (destruct i as [|i]; [exact Hx|]). done.
Defined.

(** The length given to [html_escape] leaves no room for the terminator: with
    a buffer of [len] bytes the terminator is written behind it. *)
Example html_escape_terminator_outside :
  html_escape 2 1 0 (string_bytes "a"%string ++ [0] ++ [0xff]) = None.
Proof. reflexivity. Qed.
