(* ===== verification/Streams.v ===== *)
(** * Data streams: the interface and the memory streams

    [Sming/SmingCore/Data/Stream]: the interface [IDataSourceStream] as a type
    class with its laws, [read] and [peek] on top of it, and the streams that
    keep their data in memory: [CircularBuffer], [MemoryDataStream],
    [LimitedMemoryStream] and [EndlessMemoryStream].

    A pointer into a stream's buffer is an offset; a [memcpy] outside the
    buffer is a fault ([None]).  The caller's buffer is a result: reading gives
    the returned count and the bytes that were copied. *)

From S2P Require Import Prelude.

(** ** The interface

    [readMemoryBlock bufSize s] is the returned count, the bytes copied to
    [data] and the stream afterwards; every operation may fault. *)
Class IDataSourceStream (St : Type) := {
  readMemoryBlock : Z -> St -> option (Z * list Z * St);
  seek : Z -> St -> option (bool * St);
  isFinished : St -> option bool
}.

(** [IDataSourceStream::peek] and [read]: one byte, or -1. *)
Definition peek `{IDataSourceStream St} (s : St) : option (Z * St) :=
  match readMemoryBlock 1 s with
  | Some (n, d, s) => Some (if n =? 1 then getb d 0 else -1, s)
  | None => None
  end.
Definition read `{IDataSourceStream St} (s : St) : option (Z * St) :=
  match peek s with
  | Some (res, s) =>
      if negb (res =? -1) then match seek 1 s with Some (_, s) => Some (res, s) | None => None end else Some (res, s)
  | None => None
  end.

(** ** [CircularBuffer] *)

Record CircularBuffer := { cb_buffer : list Z; cb_readPos : Z; cb_writePos : Z; cb_size : Z }.

(** The contents of a new buffer are unspecified. *)
Definition CircularBuffer_new (fill : list Z) (size : Z) : CircularBuffer :=
  {| cb_buffer := fill; cb_readPos := 0; cb_writePos := 0; cb_size := size |}.

(** What [memcpy] reads from and leaves in a buffer. *)
Definition copy_from (buf : list Z) (off n : Z) : option (list Z) :=
  if (0 <=? off) && (0 <=? n) && (off + n <=? zlen buf) then Some (slice buf (Z.to_nat off) (Z.to_nat n)) else None.
Definition copy_to (buf : list Z) (off : Z) (d : list Z) : option (list Z) :=
  if (0 <=? off) && (off + zlen d <=? zlen buf) then Some (splice buf (Z.to_nat off) d) else None.

Definition CircularBuffer_available (s : CircularBuffer) : Z :=
  if cb_readPos s <=? cb_writePos s then cb_writePos s - cb_readPos s else cb_size s - (cb_readPos s - cb_writePos s).

Definition CircularBuffer_isFinished (s : CircularBuffer) : bool := CircularBuffer_available s <? 1.

Definition CircularBuffer_room (s : CircularBuffer) : Z :=
  u32 (if cb_readPos s <=? cb_writePos s then cb_size s - (cb_writePos s - cb_readPos s) - 1 else cb_readPos s - cb_writePos s - 1).

Definition CircularBuffer_flush (s : CircularBuffer) : CircularBuffer :=
  {| cb_buffer := cb_buffer s; cb_readPos := 0; cb_writePos := 0; cb_size := cb_size s |}.

Definition CircularBuffer_wrap (s : CircularBuffer) (ptr : Z) : Z := if ptr =? cb_size s then 0 else ptr.

Definition CircularBuffer_readMemoryBlock (bufSize : Z) (s : CircularBuffer) : option (Z * list Z * CircularBuffer) :=
  let bytesAvailable := u32 (CircularBuffer_available s) in
  let sizeToRead := if u32 bufSize <? bytesAvailable then u32 bufSize else bytesAvailable in
  let topSize := cb_size s - cb_readPos s in
  if (cb_writePos s <? cb_readPos s) && (u32 topSize <? sizeToRead) then
    match copy_from (cb_buffer s) (cb_readPos s) topSize, copy_from (cb_buffer s) 0 (sizeToRead - topSize) with
    | Some d1, Some d2 => Some (u16 sizeToRead, d1 ++ d2, s)
    | _, _ => None
    end
  else
    match copy_from (cb_buffer s) (cb_readPos s) sizeToRead with
    | Some d => Some (u16 sizeToRead, d, s)
    | None => None
    end.

Definition CircularBuffer_seek (len : Z) (s : CircularBuffer) : bool * CircularBuffer :=
  if CircularBuffer_available s <? len then (false, CircularBuffer_flush s) else
  let set r := {| cb_buffer := cb_buffer s; cb_readPos := r; cb_writePos := cb_writePos s; cb_size := cb_size s |} in
  if cb_readPos s <? cb_writePos s then (true, set (cb_readPos s + len))
  else if cb_size s <? cb_readPos s + len then (true, set (len - (cb_size s - cb_readPos s)))
  else (true, set (cb_readPos s + len)).

(** [write(uint8_t)] *)
Definition CircularBuffer_write_char (charToWrite : Z) (s : CircularBuffer) : option (Z * CircularBuffer) :=
  if CircularBuffer_room s =? 0 then Some (0, s) else
  match copy_to (cb_buffer s) (cb_writePos s) [charToWrite] with
  | Some b =>
      Some (1, {| cb_buffer := b; cb_readPos := cb_readPos s; cb_writePos := CircularBuffer_wrap s (cb_writePos s + 1); cb_size := cb_size s |})
  | None => None
  end.

(** [write(const uint8_t*, size_t)] *)
Definition CircularBuffer_write (data : list Z) (s : CircularBuffer) : option (Z * CircularBuffer) :=
  let space := CircularBuffer_room s in
  let sizeToWrite := if zlen data <? space then zlen data else space in
  let topSize := cb_size s - cb_writePos s in
  let finish b w d sz :=
    match copy_to b w (take (Z.to_nat sz) d) with
    | Some b =>
        Some (sizeToWrite, {| cb_buffer := b; cb_readPos := cb_readPos s; cb_writePos := CircularBuffer_wrap s (w + sz); cb_size := cb_size s |})
    | None => None
    end in
  if (cb_readPos s <=? cb_writePos s) && (u32 topSize <? sizeToWrite) then
    match copy_to (cb_buffer s) (cb_writePos s) (take (Z.to_nat topSize) data) with
    | Some b => finish b 0 (drop (Z.to_nat topSize) data) (sizeToWrite - topSize)
    | None => None
    end
  else finish (cb_buffer s) (cb_writePos s) data sizeToWrite.

#[export] Instance CircularBuffer_stream : IDataSourceStream CircularBuffer := {
  readMemoryBlock := CircularBuffer_readMemoryBlock;
  seek len s := Some (CircularBuffer_seek len s);
  isFinished s := Some (CircularBuffer_isFinished s)
}.

(** ** [MemoryDataStream]

    [capacity] is not set by the first write.  [malloc n] and [realloc buf n]
    give a block of [n] bytes, [None] when there is no memory. *)

Record MemoryDataStream := { md_buf : option (list Z); md_pos : Z; md_size : Z; md_capacity : Z }.
Definition MemoryDataStream_new : MemoryDataStream := {| md_buf := None; md_pos := 0; md_size := 0; md_capacity := 0 |}.

Section MemoryDataStream.
Context (has_room : Z -> bool) (fill : Z).

Definition MemoryDataStream_malloc (n : Z) : option (list Z) := if has_room n then Some (replicate (Z.to_nat n) fill) else None.
Definition MemoryDataStream_realloc (buf : list Z) (n : Z) : option (list Z) :=
  if has_room n then Some (take (Z.to_nat n) (buf ++ replicate (Z.to_nat n - length buf) fill)) else None.

Definition MemoryDataStream_write (data : list Z) (s : MemoryDataStream) : option (Z * MemoryDataStream) :=
  let len := zlen data in
  let put buf cur capacity :=
    match copy_to buf (cur + len) [0] with
    | Some buf =>
        match copy_to buf cur data with
        | Some buf => Some (len, {| md_buf := Some buf; md_pos := 0; md_size := md_size s + len; md_capacity := capacity |})
        | None => None
        end
    | None => None
    end in
  match md_buf s with
  | None =>
      match MemoryDataStream_malloc (len + 1) with
      | None => Some (0, s)
      | Some buf => put buf 0 (md_capacity s)
      end
  | Some buf =>
      let cur := md_size s in
      let required := cur + len + 1 in
      if md_capacity s <? required then
        let capacity := if required <? 256 then required + 128 else required + 64 in
        match MemoryDataStream_realloc buf capacity with
        | None => Some (0, {| md_buf := md_buf s; md_pos := md_pos s; md_size := md_size s; md_capacity := capacity |})
        | Some buf => put buf cur capacity
        end
      else put buf cur (md_capacity s)
  end.
End MemoryDataStream.

Definition MemoryDataStream_available (s : MemoryDataStream) : Z := md_size s - md_pos s.

(** A negative length is a [memcpy] of almost the whole address space. *)
Definition MemoryDataStream_readMemoryBlock (bufSize : Z) (s : MemoryDataStream) : option (Z * list Z * MemoryDataStream) :=
  let available := Z.min (md_size s - md_pos s) bufSize in
  match copy_from (default [] (md_buf s)) (md_pos s) available with
  | Some d => Some (u16 available, d, s)
  | None => None
  end.

Definition MemoryDataStream_seek (len : Z) (s : MemoryDataStream) : bool * MemoryDataStream :=
  if len <? 0 then (false, s) else
  (true, {| md_buf := md_buf s; md_pos := md_pos s + len; md_size := md_size s; md_capacity := md_capacity s |}).

Definition MemoryDataStream_isFinished (s : MemoryDataStream) : bool := md_size s =? md_pos s.

#[export] Instance MemoryDataStream_stream : IDataSourceStream MemoryDataStream := {
  readMemoryBlock := MemoryDataStream_readMemoryBlock;
  seek len s := Some (MemoryDataStream_seek len s);
  isFinished s := Some (MemoryDataStream_isFinished s)
}.

(** ** [LimitedMemoryStream] *)

Record LimitedMemoryStream := { lm_buffer : list Z; lm_writePos : Z; lm_readPos : Z; lm_length : Z }.
Definition LimitedMemoryStream_new (fill : list Z) : LimitedMemoryStream :=
  {| lm_buffer := fill; lm_writePos := 0; lm_readPos := 0; lm_length := zlen fill |}.

Definition LimitedMemoryStream_available (s : LimitedMemoryStream) : Z := s32 (lm_writePos s - lm_readPos s).

Definition LimitedMemoryStream_readMemoryBlock (bufSize : Z) (s : LimitedMemoryStream) : option (Z * list Z * LimitedMemoryStream) :=
  let written := Z.min bufSize (LimitedMemoryStream_available s) in
  match copy_from (lm_buffer s) (lm_readPos s) written with
  | Some d => Some (u16 written, d, s)
  | None => None
  end.

Definition LimitedMemoryStream_seek (len : Z) (s : LimitedMemoryStream) : bool * LimitedMemoryStream :=
  if lm_length s <? u32 (lm_readPos s + len) then (false, s) else
  (true, {| lm_buffer := lm_buffer s; lm_writePos := lm_writePos s; lm_readPos := u32 (lm_readPos s + len); lm_length := lm_length s |}).

(** The size is returned also when nothing is written. *)
Definition LimitedMemoryStream_write (data : list Z) (s : LimitedMemoryStream) : option (Z * LimitedMemoryStream) :=
  let size := zlen data in
  if u32 (lm_writePos s + size) <=? lm_length s then
    match copy_to (lm_buffer s) (lm_writePos s) data with
    | Some b => Some (size, {| lm_buffer := b; lm_writePos := lm_writePos s + size; lm_readPos := lm_readPos s; lm_length := lm_length s |})
    | None => None
    end
  else Some (size, s).

Definition LimitedMemoryStream_write_char (c : Z) (s : LimitedMemoryStream) : option (Z * LimitedMemoryStream) :=
  LimitedMemoryStream_write [c] s.

Definition LimitedMemoryStream_isFinished (s : LimitedMemoryStream) : bool := lm_length s <=? lm_readPos s.

#[export] Instance LimitedMemoryStream_stream : IDataSourceStream LimitedMemoryStream := {
  readMemoryBlock := LimitedMemoryStream_readMemoryBlock;
  seek len s := Some (LimitedMemoryStream_seek len s);
  isFinished s := Some (LimitedMemoryStream_isFinished s)
}.

(** ** [EndlessMemoryStream]: a memory stream that is dropped once it is read *)

Definition EndlessMemoryStream : Type := option MemoryDataStream.

Definition EndlessMemoryStream_readMemoryBlock (bufSize : Z) (s : EndlessMemoryStream) : option (Z * list Z * EndlessMemoryStream) :=
  match s with
  | Some stream =>
      match MemoryDataStream_readMemoryBlock bufSize stream with
      | Some (n, d, stream) => Some (n, d, Some stream)
      | None => None
      end
  | None => Some (0, [], None)
  end.

Definition EndlessMemoryStream_seek (len : Z) (s : EndlessMemoryStream) : bool * EndlessMemoryStream :=
  match s with
  | None => (false, s)
  | Some stream =>
      let '(res, stream) := MemoryDataStream_seek len stream in
      (res, if MemoryDataStream_isFinished stream then None else Some stream)
  end.

Definition EndlessMemoryStream_write (has_room : Z -> bool) (fill : Z) (data : list Z) (s : EndlessMemoryStream) :
    option (Z * EndlessMemoryStream) :=
  match MemoryDataStream_write has_room fill data (default MemoryDataStream_new s) with
  | Some (n, stream) => Some (n, Some stream)
  | None => None
  end.

#[export] Instance EndlessMemoryStream_stream : IDataSourceStream EndlessMemoryStream := {
  readMemoryBlock := EndlessMemoryStream_readMemoryBlock;
  seek len s := Some (EndlessMemoryStream_seek len s);
  isFinished _ := Some false
}.

(** ** Laws of a source

    [content s l]: the bytes [l] are still to be read.  A source gives as
    many of them as are asked for, moves over them, and is finished when none
    is left. *)
Class Source (St : Type) `{IDataSourceStream St} := {
  content : St -> list Z -> Prop;
  source_read s l n : content s l -> 0 <= n < 2 ^ 16 ->
    exists s', readMemoryBlock n s = Some (Z.min n (zlen l), take (Z.to_nat n) l, s') /\ content s' l;
  source_seek s l n : content s l -> 0 <= n <= zlen l ->
    exists s', seek n s = Some (true, s') /\ content s' (drop (Z.to_nat n) l);
  source_finished s l : content s l -> isFinished s = Some (zlen l =? 0)
}.

(** [read] takes the next byte of a source. *)
Lemma source_next `{Source St} s l : content s l -> Forall is_byte l ->
  match l with
  | [] => exists s', read s = Some (-1, s') /\ content s' []
  | c :: l' => exists s', read s = Some (c, s') /\ content s' l'
  end.
Proof.
  intros Hs Hb. destruct (source_read s l 1 Hs) as (s' & E & Hs'); [lia|]. unfold read, peek. rewrite E. destruct l as [|c l].
  - cbn. eauto.
  - assert (Z.min 1 (zlen (c :: l)) = 1) as -> by (unfold zlen; cbn; lia). cbn [Z.eqb Pos.eqb]. change (getb (take (Z.to_nat 1) (c :: l)) 0) with c.
    apply Forall_cons_1 in Hb as [Hc _]. unfold is_byte in Hc. rewrite (proj2 (Z.eqb_neq c (-1))) by lia. cbn [negb].
    destruct (source_seek s' (c :: l) 1 Hs') as (s'' & -> & Hs''); [unfold zlen; cbn; lia|]. eauto.
Qed.

(** ** Buffer lemmas *)

Lemma copy_from_run buf off n : 0 <= off -> 0 <= n -> off + n <= zlen buf ->
  copy_from buf off n = Some (slice buf (Z.to_nat off) (Z.to_nat n)).
Proof. intros. unfold copy_from. by rewrite !(proj2 (Z.leb_le _ _)) by lia. Qed.

Lemma copy_to_run buf off d : 0 <= off -> off + zlen d <= zlen buf -> copy_to buf off d = Some (splice buf (Z.to_nat off) d).
Proof. intros. unfold copy_to. by rewrite !(proj2 (Z.leb_le _ _)) by lia. Qed.

Lemma zlen_splice buf off d : (off + length d <= length buf)%nat -> zlen (splice buf off d) = zlen buf.
Proof. intros. unfold zlen. by rewrite length_splice. Qed.

Lemma take_splice (b d : list Z) off : (off + length d <= length b)%nat -> take (off + length d) (splice b off d) = take off b ++ d.
Proof.
  intros H. unfold splice. rewrite app_assoc. apply take_app_length'. rewrite length_app, length_take. lia.
Qed.

Lemma drop_splice (b d : list Z) off k : (off + length d <= k)%nat -> (off <= length b)%nat -> drop k (splice b off d) = drop k b.
Proof.
  intros H Hb. unfold splice. rewrite app_assoc, drop_app_ge by (rewrite length_app, length_take; lia).
  rewrite drop_drop. f_equal. rewrite length_app, length_take. lia.
Qed.

(** A splice behind [r], seen from [r] on. *)
Lemma slice_splice (b d : list Z) off r : (r <= off)%nat -> (off + length d <= length b)%nat ->
  slice (splice b off d) r (off + length d - r) = slice b r (off - r) ++ d.
Proof.
  intros Hr Hb. unfold slice. rewrite !take_drop_commute. replace (r + (off + length d - r))%nat with (off + length d)%nat by lia.
  replace (r + (off - r))%nat with off by lia. rewrite take_splice by done. rewrite drop_app_le; [done|]. rewrite length_take. lia.
Qed.

(** ** [CircularBuffer] is a bounded queue of bytes *)

(** The bytes between the read and the write position, around the end. *)
Definition cb_contents (s : CircularBuffer) : list Z :=
  let r := Z.to_nat (cb_readPos s) in
  let w := Z.to_nat (cb_writePos s) in
  if cb_readPos s <=? cb_writePos s then slice (cb_buffer s) r (w - r) else drop r (cb_buffer s) ++ take w (cb_buffer s).

(** The read position may stay at the end of the buffer after a [seek]. *)
Record cb_ok (s : CircularBuffer) : Prop := {
  ck_size : cb_size s = zlen (cb_buffer s);
  ck_range : 1 <= cb_size s < 2 ^ 31;
  ck_read : 0 <= cb_readPos s <= cb_size s;
  ck_write : 0 <= cb_writePos s < cb_size s
}.

Lemma cb_available_spec s : cb_ok s -> CircularBuffer_available s = zlen (cb_contents s).
Proof.
  intros [H1 H2 H3 H4]. unfold CircularBuffer_available, cb_contents. rewrite H1 in *. unfold zlen in *.
  destruct (Z.leb_spec (cb_readPos s) (cb_writePos s)); [rewrite length_slice|rewrite length_app, length_drop, length_take]; lia.
Qed.

Lemma cb_available_range s : cb_ok s -> 0 <= CircularBuffer_available s < cb_size s.
Proof.
  intros [H1 H2 H3 H4]. unfold CircularBuffer_available. destruct (Z.leb_spec (cb_readPos s) (cb_writePos s)); lia.
Qed.

Lemma cb_room_spec s : cb_ok s -> CircularBuffer_room s = cb_size s - 1 - zlen (cb_contents s).
Proof.
  intros H. rewrite <- cb_available_spec by done. destruct H as [H1 H2 H3 H4]. unfold CircularBuffer_room, CircularBuffer_available.
  destruct (Z.leb_spec (cb_readPos s) (cb_writePos s)); rewrite u32_small by (unfold is_u32; lia); lia.
Qed.

Lemma cb_read_spec s n : cb_ok s -> 0 <= n < 2 ^ 16 ->
  CircularBuffer_readMemoryBlock n s = Some (Z.min n (zlen (cb_contents s)), take (Z.to_nat n) (cb_contents s), s).
Proof.
  intros H Hn. pose proof (cb_available_range s H) as Ha. unfold CircularBuffer_readMemoryBlock.
  rewrite <- cb_available_spec by done. destruct H as [H1 H2 H3 H4]. rewrite !u32_small by (unfold is_u32; lia).
  replace (if n <? CircularBuffer_available s then n else CircularBuffer_available s) with (Z.min n (CircularBuffer_available s))
    by (destruct (Z.ltb_spec n (CircularBuffer_available s)); lia).
  remember (Z.min n (CircularBuffer_available s)) as k eqn:Hk.
  rewrite (u16_small k) by lia. unfold cb_contents, CircularBuffer_available in *.
  destruct (Z.ltb_spec (cb_writePos s) (cb_readPos s)) as [Hw|Hw].
  - rewrite (proj2 (Z.leb_gt _ _)) in * by lia. cbn [andb]. destruct (Z.ltb_spec (cb_size s - cb_readPos s) k) as [Ht|Ht].
    + do 2 rewrite copy_from_run by lia. do 3 f_equal. rewrite take_app_ge by (rewrite length_drop; unfold zlen in *; lia). f_equal.
      * unfold slice. rewrite take_ge; [done|]. rewrite length_drop. unfold zlen in *. lia.
      * unfold slice. rewrite drop_0, take_take. f_equal. rewrite length_drop. unfold zlen in *. lia.
    + rewrite copy_from_run by lia. do 3 f_equal. unfold slice.
      destruct (decide (n <= cb_size s - cb_readPos s)).
      * rewrite take_app_le by (rewrite length_drop; unfold zlen in *; lia). f_equal. lia.
      * assert (cb_writePos s = 0) as Ew by lia. rewrite Ew. change (take (Z.to_nat 0) (cb_buffer s)) with (@nil Z). rewrite app_nil_r.
        rewrite !take_ge by (rewrite length_drop; unfold zlen in *; lia). done.
  - rewrite (proj2 (Z.leb_le _ _)) in * by lia. cbn [andb]. rewrite copy_from_run by lia. do 3 f_equal. unfold slice. rewrite take_take. f_equal. lia.
Qed.

Lemma cb_seek_spec s n : cb_ok s -> 0 <= n <= zlen (cb_contents s) ->
  exists s', CircularBuffer_seek n s = (true, s') /\ cb_ok s' /\ cb_size s' = cb_size s /\ cb_contents s' = drop (Z.to_nat n) (cb_contents s).
Proof.
  intros H Hn. pose proof (cb_available_range s H) as Ha. unfold CircularBuffer_seek. rewrite cb_available_spec in * by done.
  rewrite (proj2 (Z.ltb_ge _ _)) by lia. pose proof (cb_available_spec s H) as Es. destruct H as [H1 H2 H3 H4].
  unfold CircularBuffer_available in Es.
  destruct (Z.ltb_spec (cb_readPos s) (cb_writePos s)) as [Hlt|Hge]; [|destruct (Z.ltb_spec (cb_size s) (cb_readPos s + n)) as [Hb|Hb]];
    eexists; split; try done; cbn.
  - rewrite (proj2 (Z.leb_le _ _)) in Es by lia. split; [constructor; cbn; lia|]. split; [done|]. unfold cb_contents. cbn.
    rewrite !(proj2 (Z.leb_le _ _)) by lia. unfold slice. rewrite skipn_firstn_comm, drop_drop. f_equal; [lia|]. f_equal. lia.
  - destruct (Z.leb_spec (cb_readPos s) (cb_writePos s)); [lia|]. split; [constructor; cbn; lia|]. split; [done|]. unfold cb_contents. cbn.
    rewrite (proj2 (Z.leb_gt (cb_readPos s) _)) by lia. rewrite (proj2 (Z.leb_le _ _)) by lia.
    rewrite drop_app_ge by (rewrite length_drop; unfold zlen in *; lia). unfold slice. rewrite skipn_firstn_comm. rewrite length_drop.
    unfold zlen in *. f_equal; [lia|]. f_equal. lia.
  - destruct (Z.leb_spec (cb_readPos s) (cb_writePos s)) as [Hle|Hgt].
    + assert (n = 0) as -> by lia. split; [constructor; cbn; lia|]. split; [done|]. unfold cb_contents. cbn. by rewrite Z.add_0_r.
    + split; [constructor; cbn; lia|]. split; [done|]. unfold cb_contents. cbn. rewrite !(proj2 (Z.leb_gt _ _)) by lia.
      rewrite drop_app_le by (rewrite length_drop; unfold zlen in *; lia). rewrite drop_drop. do 2 f_equal. lia.
Qed.

(** Bytes appended without passing the end of the buffer. *)
Definition cb_advance (s : CircularBuffer) (d : list Z) : CircularBuffer :=
  {| cb_buffer := splice (cb_buffer s) (Z.to_nat (cb_writePos s)) d; cb_readPos := cb_readPos s;
     cb_writePos := CircularBuffer_wrap s (cb_writePos s + zlen d); cb_size := cb_size s |}.

Lemma cb_advance_spec s d : cb_ok s -> zlen d <= cb_size s - 1 - zlen (cb_contents s) -> cb_writePos s + zlen d <= cb_size s ->
  cb_ok (cb_advance s d) /\ cb_contents (cb_advance s d) = cb_contents s ++ d.
Proof.
  intros H Hd Hw. rewrite <- cb_available_spec in Hd by done. destruct H as [H1 H2 H3 H4]. unfold CircularBuffer_available in Hd.
  pose proof (zlen_nonneg d). assert (Z.to_nat (cb_writePos s) + length d <= length (cb_buffer s))%nat as Hb by (unfold zlen in *; lia).
  unfold cb_advance, CircularBuffer_wrap. split.
  { constructor; cbn; [by rewrite zlen_splice|lia|lia|destruct (Z.eqb_spec (cb_writePos s + zlen d) (cb_size s)); lia]. }
  unfold cb_contents. cbn. destruct (Z.leb_spec (cb_readPos s) (cb_writePos s)) as [Hle|Hgt].
  - rewrite <- slice_splice by (unfold zlen in *; lia). destruct (Z.eqb_spec (cb_writePos s + zlen d) (cb_size s)) as [He|Hne].
    + destruct (Z.leb_spec (cb_readPos s) 0) as [H0|H0]; [lia|]. change (take (Z.to_nat 0) _) with (@nil Z). rewrite app_nil_r.
      unfold slice. symmetry. apply take_ge. rewrite length_drop, length_splice by done. unfold zlen in *. lia.
    + rewrite (proj2 (Z.leb_le _ _)) by lia. unfold zlen in *. f_equal. lia.
  - rewrite (proj2 (Z.eqb_neq _ _)) by lia. rewrite (proj2 (Z.leb_gt _ _)) by lia.
    rewrite drop_splice by (unfold zlen in *; lia). rewrite <- app_assoc. f_equal.
    replace (Z.to_nat (cb_writePos s + zlen d)) with (Z.to_nat (cb_writePos s) + length d)%nat by (unfold zlen; lia). by apply take_splice.
Qed.

Lemma cb_write_spec s d : cb_ok s ->
  let room := cb_size s - 1 - zlen (cb_contents s) in
  exists s', CircularBuffer_write d s = Some (Z.min (zlen d) room, s') /\ cb_ok s' /\ cb_size s' = cb_size s /\
    cb_contents s' = cb_contents s ++ take (Z.to_nat room) d.
Proof.
  intros H room. pose proof (cb_available_range s H) as Ha. pose proof (zlen_nonneg d). unfold CircularBuffer_write. rewrite cb_room_spec by done. fold room.
  replace (if zlen d <? room then zlen d else room) with (Z.min (zlen d) room) by (destruct (Z.ltb_spec (zlen d) room); lia).
  rewrite cb_available_spec in Ha by done. pose proof H as [H1 H2 H3 H4]. rewrite u32_small by (unfold is_u32; lia).
  pose proof (cb_available_spec s H) as Es. unfold CircularBuffer_available in Es.
  destruct ((cb_readPos s <=? cb_writePos s) && (cb_size s - cb_writePos s <? Z.min (zlen d) room)) eqn:Ec.
  - apply andb_true_iff in Ec as [Hle%Z.leb_le Hlt%Z.ltb_lt]. rewrite (proj2 (Z.leb_le _ _)) in Es by lia.
    set (top := cb_size s - cb_writePos s) in *. assert (zlen (take (Z.to_nat top) d) = top) as Et by (rewrite zlen_take; lia).
    rewrite copy_to_run by lia.
    destruct (cb_advance_spec s (take (Z.to_nat top) d) H) as [K1 K2]; [lia|lia|].
    set (s1 := cb_advance s (take (Z.to_nat top) d)) in *.
    assert (cb_writePos s1 = 0) as Ew. { unfold s1, cb_advance, CircularBuffer_wrap. cbn. rewrite Et. replace (cb_writePos s + top) with (cb_size s) by lia. by rewrite Z.eqb_refl. }
    set (d2 := take (Z.to_nat (Z.min (zlen d) room - top)) (drop (Z.to_nat top) d)).
    assert (zlen d2 = Z.min (zlen d) room - top) as E2 by (unfold d2; rewrite zlen_take, zlen_drop; lia).
    assert (zlen (cb_contents s1) = zlen (cb_contents s) + top) as E1 by (rewrite K2, zlen_app; lia).
    destruct (cb_advance_spec s1 d2 K1) as [L1 L2]; [change (cb_size s1) with (cb_size s); lia|rewrite Ew; change (cb_size s1) with (cb_size s); lia|].
    rewrite copy_to_run; [|lia|rewrite zlen_splice by (rewrite length_take; unfold zlen in *; lia); fold d2; lia].
    exists (cb_advance s1 d2). split.
    + f_equal. f_equal. fold d2. unfold cb_advance at 1. rewrite Ew, E2. done.
    + split; [done|]. split; [done|]. rewrite L2, K2, <- app_assoc. f_equal. unfold d2.
      rewrite <- (take_drop (Z.to_nat top) (take (Z.to_nat room) d)). rewrite take_take. f_equal; [f_equal; lia|].
      rewrite skipn_firstn_comm. destruct (Z.le_gt_cases (zlen d) room); [|f_equal; lia]. rewrite !take_ge; [done|..]; rewrite length_drop; unfold zlen in *; lia.
  - set (d1 := take (Z.to_nat (Z.min (zlen d) room)) d). assert (zlen d1 = Z.min (zlen d) room) as E1 by (unfold d1; rewrite zlen_take; lia).
    assert (cb_writePos s + zlen d1 <= cb_size s) as Hfit.
    { destruct (Z.leb_spec (cb_readPos s) (cb_writePos s)); [apply Z.ltb_ge in Ec; lia|lia]. }
    destruct (cb_advance_spec s d1 H) as [K1 K2]; [lia|lia|]. rewrite copy_to_run by lia. exists (cb_advance s d1). split.
    + unfold cb_advance. rewrite E1. done.
    + split; [done|]. split; [done|]. rewrite K2. f_equal. unfold d1. destruct (Z.le_gt_cases (zlen d) room); [|f_equal; lia].
      rewrite !take_ge; [done|..]; unfold zlen in *; lia.
Qed.

Lemma cb_write_char_spec s c : cb_ok s ->
  if zlen (cb_contents s) <? cb_size s - 1 then
    exists s', CircularBuffer_write_char c s = Some (1, s') /\ cb_ok s' /\ cb_size s' = cb_size s /\ cb_contents s' = cb_contents s ++ [c]
  else CircularBuffer_write_char c s = Some (0, s).
Proof.
  intros H. unfold CircularBuffer_write_char. rewrite cb_room_spec by done. pose proof (cb_available_range s H) as Ha. rewrite cb_available_spec in Ha by done.
  pose proof H as [H1 H2 H3 H4].
  destruct (Z.ltb_spec (zlen (cb_contents s)) (cb_size s - 1)) as [Hl|Hl]; [|by rewrite (proj2 (Z.eqb_eq _ _)) by lia].
  rewrite (proj2 (Z.eqb_neq _ _)) by lia. destruct (cb_advance_spec s [c] H) as [K1 K2]; [change (zlen [c]) with 1; lia..|].
  rewrite copy_to_run by (change (zlen [c]) with 1; lia). by exists (cb_advance s [c]).
Qed.

#[export] Program Instance CircularBuffer_source : Source CircularBuffer := {
  content s l := cb_ok s /\ cb_contents s = l
}.
Next Obligation. intros s l n [H <-] Hn. exists s. split; [by apply cb_read_spec|done]. Qed.
Next Obligation.
  intros s l n [H <-] Hn. destruct (cb_seek_spec s n H Hn) as (s' & E & K & _ & Ec). exists s'. split; [|done]. cbn. by rewrite E.
Qed.
Next Obligation.
  intros s l [H <-]. cbn. f_equal. unfold CircularBuffer_isFinished. rewrite cb_available_spec by done. pose proof (zlen_nonneg (cb_contents s)).
  destruct (Z.ltb_spec (zlen (cb_contents s)) 1), (Z.eqb_spec (zlen (cb_contents s)) 0); lia || done.
Qed.

(** ** The queue a [CircularBuffer] promises *)

Inductive cb_op :=
  | Write (data : list Z)
  | WriteChar (c : Z)
  | ReadBlock (bufSize : Z)
  | Seek (len : Z)
  | Available
  | Room
  | Flush.
Inductive cb_reply := Count (n : Z) | Bytes (n : Z) (d : list Z) | Flag (b : bool) | Done.

(** A queue of at most [size] - 1 bytes: a write takes what fits, reading does
    not consume, moving past the end empties the queue. *)
Definition queue_step (size : Z) (op : cb_op) (q : list Z) : cb_reply * list Z :=
  let room := size - 1 - zlen q in
  match op with
  | Write d => (Count (Z.min (zlen d) room), q ++ take (Z.to_nat room) d)
  | WriteChar c => if 0 <? room then (Count 1, q ++ [c]) else (Count 0, q)
  | ReadBlock n => (Bytes (Z.min n (zlen q)) (take (Z.to_nat n) q), q)
  | Seek n => if n <=? zlen q then (Flag true, drop (Z.to_nat n) q) else (Flag false, [])
  | Available => (Count (zlen q), q)
  | Room => (Count room, q)
  | Flush => (Done, [])
  end.

Definition cb_exec (op : cb_op) (s : CircularBuffer) : option (cb_reply * CircularBuffer) :=
  match op with
  | Write d => match CircularBuffer_write d s with Some (n, s) => Some (Count n, s) | None => None end
  | WriteChar c => match CircularBuffer_write_char c s with Some (n, s) => Some (Count n, s) | None => None end
  | ReadBlock n => match CircularBuffer_readMemoryBlock n s with Some (n, d, s) => Some (Bytes n d, s) | None => None end
  | Seek n => let '(b, s) := CircularBuffer_seek n s in Some (Flag b, s)
  | Available => Some (Count (CircularBuffer_available s), s)
  | Room => Some (Count (CircularBuffer_room s), s)
  | Flush => Some (Done, CircularBuffer_flush s)
  end.

(** Arguments in range: block reads of a [uint16_t] count, forward seeks. *)
Definition cb_valid (op : cb_op) : Prop :=
  match op with ReadBlock n => 0 <= n < 2 ^ 16 | Seek n => 0 <= n | _ => True end.

Fixpoint queue_run (size : Z) (ops : list cb_op) (q : list Z) : list cb_reply * list Z :=
  match ops with
  | [] => ([], q)
  | op :: ops => let '(r, q) := queue_step size op q in let '(rs, q) := queue_run size ops q in (r :: rs, q)
  end.
Fixpoint cb_run (ops : list cb_op) (s : CircularBuffer) : option (list cb_reply * CircularBuffer) :=
  match ops with
  | [] => Some ([], s)
  | op :: ops =>
      match cb_exec op s with
      | Some (r, s) => match cb_run ops s with Some (rs, s) => Some (r :: rs, s) | None => None end
      | None => None
      end
  end.

Lemma cb_flush_spec s : cb_ok s -> cb_ok (CircularBuffer_flush s) /\ cb_contents (CircularBuffer_flush s) = [].
Proof. intros [H1 H2 H3 H4]. split; [constructor; cbn; lia|done]. Qed.

Lemma cb_step_refines s op : cb_ok s -> cb_valid op ->
  exists s', cb_exec op s = Some (fst (queue_step (cb_size s) op (cb_contents s)), s') /\ cb_ok s' /\ cb_size s' = cb_size s /\
    cb_contents s' = snd (queue_step (cb_size s) op (cb_contents s)).
Proof.
  intros H Hv. destruct op as [d|c|n|n| | |]; cbn [cb_exec queue_step] in *.
  - destruct (cb_write_spec s d H) as (s' & -> & K). eauto.
  - pose proof (cb_write_char_spec s c H) as K. destruct (Z.ltb_spec 0 (cb_size s - 1 - zlen (cb_contents s))), (Z.ltb_spec (zlen (cb_contents s)) (cb_size s - 1)); try lia.
    + destruct K as (s' & -> & K). eauto.
    + rewrite K. eauto.
  - rewrite cb_read_spec by done. eauto.
  - destruct (Z.leb_spec n (zlen (cb_contents s))) as [Hn|Hn].
    + destruct (cb_seek_spec s n H) as (s' & -> & K); [cbn in Hv; lia|]. eauto.
    + unfold CircularBuffer_seek. rewrite cb_available_spec by done. rewrite (proj2 (Z.ltb_lt _ _)) by lia. destruct (cb_flush_spec s H). eauto.
  - rewrite cb_available_spec by done. eauto.
  - rewrite cb_room_spec by done. eauto.
  - destruct (cb_flush_spec s H). eauto.
Qed.

Lemma cb_run_refines ops : forall s, cb_ok s -> Forall cb_valid ops ->
  exists s', cb_run ops s = Some (fst (queue_run (cb_size s) ops (cb_contents s)), s') /\ cb_ok s' /\
    cb_contents s' = snd (queue_run (cb_size s) ops (cb_contents s)).
Proof.
  induction ops as [|op ops IH]; intros s H Hv; [by exists s|]. apply Forall_cons_1 in Hv as [Hv Hvs].
  destruct (cb_step_refines s op H Hv) as (s1 & E & K & Es & Ec). cbn [cb_run queue_run]. rewrite E.
  destruct (IH s1 K Hvs) as (s2 & E2 & K2 & Ec2). rewrite Es, Ec in *. destruct (queue_step _ op _) as [r q]. cbn [fst snd] in *.
  rewrite E2. destruct (queue_run _ ops q) as [rs q']. eauto.
Qed.

(** C25. A [CircularBuffer] of any size, whatever its memory held before,
    behaves as a queue of at most [size] - 1 bytes: for every sequence of
    writes of blocks and of single characters, block reads of fewer than 65536
    bytes, forward seeks (a seek is relative), queries and flushes, no copy leaves the buffer, every reply is the one of the queue,
    and the bytes left to read are the queue. *)
Theorem circular_buffer_refines (fill : list Z) (size : Z) (ops : list cb_op) :
  1 <= size < 2 ^ 31 -> zlen fill = size -> Forall cb_valid ops ->
  exists s, cb_run ops (CircularBuffer_new fill size) = Some (fst (queue_run size ops []), s) /\ cb_ok s /\
    cb_contents s = snd (queue_run size ops []).
Proof.
  intros Hs Hf Hv. apply (cb_run_refines ops (CircularBuffer_new fill size)); [|done]. constructor; cbn; lia.
Qed.

Example circular_buffer_refines_witness :
  let ops := [Write [1; 2; 3]; Seek 2; Write [4; 5; 6]; ReadBlock 9; Seek 4; Room] in
  fst (queue_run 5 ops []) = [Count 3; Flag true; Count 3; Bytes 4 [3; 4; 5; 6]; Flag true; Count 4] /\
  exists s, cb_run ops (CircularBuffer_new [0; 0; 0; 0; 0] 5) = Some (fst (queue_run 5 ops []), s) /\ cb_ok s /\
    cb_contents s = snd (queue_run 5 ops []).
Proof. split; [reflexivity|]. apply (circular_buffer_refines [0; 0; 0; 0; 0] 5); [lia|done|repeat constructor; cbn; lia]. Defined.

(** A backward seek moves the read position in front of the buffer. *)
Example circular_buffer_seek_backwards :
  let '(res, s) := CircularBuffer_seek (-1) (CircularBuffer_new [0; 0] 2) in
  res = true /\ cb_readPos s = -1 /\ CircularBuffer_readMemoryBlock 1 s = None.
Proof. repeat split. Qed.

(** ** Reading a stream to its end

    A client that reads blocks of [bufSize] bytes and moves over what it got,
    until the stream is finished. *)
Fixpoint drain `{IDataSourceStream St} (fuel : nat) (bufSize : Z) (s : St) : option (list Z * St) :=
  match fuel with
  | O => None
  | S fuel =>
      match isFinished s with
      | None => None
      | Some true => Some ([], s)
      | Some false =>
          match readMemoryBlock bufSize s with
          | None => None
          | Some (n, d, s) =>
              match seek n s with
              | None => None
              | Some (_, s) =>
                  match drain fuel bufSize s with
                  | None => None
                  | Some (ds, s) => Some (take (Z.to_nat n) d ++ ds, s)
                  end
              end
          end
      end
  end.

Lemma source_drain `{Source St} fuel bufSize : 1 <= bufSize < 2 ^ 16 -> forall s l, content s l -> (length l < fuel)%nat ->
  exists s', drain fuel bufSize s = Some (l, s') /\ content s' [].
Proof.
  intros Hb. induction fuel as [|fuel IH]; intros s l Hs Hf; [lia|]. cbn [drain]. rewrite (source_finished s l Hs).
  destruct l as [|c l]; [exists s; done|]. assert ((zlen (c :: l) =? 0) = false) as -> by (apply Z.eqb_neq; unfold zlen; cbn; lia).
  destruct (source_read s (c :: l) bufSize Hs) as (s1 & -> & Hs1); [lia|]. set (n := Z.min bufSize (zlen (c :: l))).
  destruct (source_seek s1 (c :: l) n Hs1) as (s2 & -> & Hs2); [unfold n, zlen; cbn; lia|].
  destruct (IH s2 _ Hs2) as (s3 & -> & Hs3); [rewrite length_drop; unfold n, zlen; cbn in *; lia|].
  exists s3. split; [|done]. rewrite take_take. replace (Nat.min (Z.to_nat n) (Z.to_nat bufSize)) with (Z.to_nat n) by (unfold n; lia). by rewrite take_drop.
Qed.

(** ** [MemoryDataStream] *)

(** The bytes written so far, and the read position. *)
Record md_ok (s : MemoryDataStream) (data : list Z) : Prop := {
  mk_size : md_size s = zlen data;
  mk_pos : 0 <= md_pos s <= md_size s;
  mk_buf : match md_buf s with
           | None => data = [] /\ md_capacity s = 0
           | Some b => take (length data) b = data /\ zlen data < zlen b /\ md_capacity s <= zlen b
           end
}.

#[export] Program Instance MemoryDataStream_source : Source MemoryDataStream := {
  content s l := exists data, md_ok s data /\ l = drop (Z.to_nat (md_pos s)) data
}.
Next Obligation.
  intros s l n (data & K & ->) Hn. exists s. split; [|eauto]. cbn. unfold MemoryDataStream_readMemoryBlock. destruct K as [K1 K2 K3]. rewrite K1 in *.
  assert (zlen (default [] (md_buf s)) >= zlen data /\ take (length data) (default [] (md_buf s)) = data) as [Hb Hd].
  { destruct (md_buf s); cbn; [destruct K3 as (? & ? & _); lia || (split; [lia|done])|]. destruct K3 as [-> _]. done. }
  rewrite copy_from_run by lia. rewrite u16_small by lia. do 3 f_equal.
  - rewrite zlen_drop. lia.
  - unfold slice. rewrite <- (f_equal (drop (Z.to_nat (md_pos s))) Hd). rewrite skipn_firstn_comm, take_take. f_equal. unfold zlen in *. lia.
Qed.
Next Obligation.
  intros s l n (data & [K1 K2 K3] & ->) Hn. rewrite zlen_drop in Hn. eexists. cbn. unfold MemoryDataStream_seek. rewrite (proj2 (Z.ltb_ge _ _)) by lia.
  split; [done|]. exists data. split; [constructor; cbn; [done|lia|done]|]. cbn. rewrite drop_drop. f_equal. lia.
Qed.
Next Obligation.
  intros s l (data & [K1 K2 K3] & ->). cbn. f_equal. unfold MemoryDataStream_isFinished. rewrite zlen_drop.
  destruct (Z.eqb_spec (md_size s) (md_pos s)), (Z.eqb_spec (Z.max 0 (zlen data - Z.of_nat (Z.to_nat (md_pos s)))) 0); lia || done.
Qed.

Section MemoryDataStreamWrite.
Context (has_room : Z -> bool) (fill : Z).

(** The terminator and the bytes put into a buffer that has room. *)
Lemma md_put b data d : take (length data) b = data -> zlen data + zlen d < zlen b ->
  exists b', copy_to b (zlen data + zlen d) [0] = Some (splice b (length (data ++ d)) [0]) /\
    copy_to (splice b (length (data ++ d)) [0]) (zlen data) d = Some b' /\ take (length (data ++ d)) b' = data ++ d /\ zlen b' = zlen b.
Proof.
  intros Hd Hl. pose proof (zlen_nonneg data). pose proof (zlen_nonneg d). rewrite copy_to_run by (change (zlen [0]) with 1; lia).
  replace (Z.to_nat (zlen data + zlen d)) with (length (data ++ d)) by (rewrite length_app; unfold zlen; lia).
  assert (zlen (splice b (length (data ++ d)) [0]) = zlen b) as Ez by (apply zlen_splice; rewrite length_app; unfold zlen in *; cbn; lia).
  rewrite copy_to_run by lia. eexists. split; [done|]. split; [done|]. replace (Z.to_nat (zlen data)) with (length data) by (unfold zlen; lia). split.
  - rewrite length_app in Ez |- *. rewrite take_splice by (unfold zlen in *; lia). f_equal. unfold splice. rewrite take_app_le by (rewrite length_take; unfold zlen in *; lia).
    rewrite take_take, Nat.min_l by lia. done.
  - rewrite zlen_splice; [done|]. unfold zlen in *; lia.
Qed.

Lemma md_write_spec s data d : md_ok s data -> (forall n, has_room n = true) ->
  exists s', MemoryDataStream_write has_room fill d s = Some (zlen d, s') /\ md_ok s' (data ++ d) /\ md_pos s' = 0.
Proof.
  intros [K1 K2 K3] Hr. unfold MemoryDataStream_write. rewrite K1. pose proof (zlen_nonneg data). pose proof (zlen_nonneg d).
  assert (forall b cap, take (length data) b = data -> zlen data + zlen d < zlen b -> cap <= zlen b ->
    exists s', match copy_to b (zlen data + zlen d) [0] with
               | Some b => match copy_to b (zlen data) d with
                           | Some b => Some (zlen d, {| md_buf := Some b; md_pos := 0; md_size := zlen data + zlen d; md_capacity := cap |})
                           | None => None end
               | None => None end = Some (zlen d, s') /\ md_ok s' (data ++ d) /\ md_pos s' = 0) as Hput.
  { intros b cap Hd Hl Hc. destruct (md_put b data d Hd Hl) as (b' & -> & -> & E1 & E2). eexists. split; [done|]. split; [|done].
    constructor; cbn; [by rewrite zlen_app|lia|]. rewrite zlen_app. split; [done|]. lia. }
  destruct (md_buf s) as [b|].
  - destruct K3 as (Hd & Hl & Hc). destruct (Z.ltb_spec (md_capacity s) (zlen data + zlen d + 1)) as [Hlt|Hge]; [|apply Hput; try done; lia].
    unfold MemoryDataStream_realloc. rewrite Hr. set (cap := if _ <? 256 then _ else _).
    assert (zlen data + zlen d + 1 < cap) as Hcap by (unfold cap; destruct (Z.ltb_spec (zlen data + zlen d + 1) 256); lia).
    assert (zlen (take (Z.to_nat cap) (b ++ replicate (Z.to_nat cap - length b) fill)) = cap) as Ez.
    { rewrite zlen_take, zlen_app. unfold zlen. rewrite length_replicate. lia. }
    apply Hput; [|lia|lia]. rewrite take_take. rewrite take_app_le by (unfold zlen in *; lia). rewrite Nat.min_l by (unfold zlen in *; lia). done.
  - destruct K3 as [-> ->]. unfold MemoryDataStream_malloc. rewrite Hr. change (zlen (@nil Z)) with 0 in *. apply Hput; [done|..];
      unfold zlen; rewrite length_replicate; lia.
Qed.
End MemoryDataStreamWrite.

(** Blocks written one after the other. *)
Fixpoint MemoryDataStream_writes (has_room : Z -> bool) (fill : Z) (ds : list (list Z)) (s : MemoryDataStream) : option MemoryDataStream :=
  match ds with
  | [] => Some s
  | d :: ds =>
      match MemoryDataStream_write has_room fill d s with
      | Some (_, s) => MemoryDataStream_writes has_room fill ds s
      | None => None
      end
  end.

Lemma md_writes_spec has_room fill ds : (forall n, has_room n = true) -> forall s data, md_ok s data -> md_pos s = 0 ->
  exists s', MemoryDataStream_writes has_room fill ds s = Some s' /\ md_ok s' (data ++ concat ds) /\ md_pos s' = 0.
Proof.
  intros Hr. induction ds as [|d ds IH]; intros s data K Hp; cbn; [rewrite app_nil_r; eauto|].
  destruct (md_write_spec has_room fill s data d K Hr) as (s1 & -> & K1 & P1). destruct (IH s1 _ K1 P1) as (s2 & E & K2 & P2).
  rewrite <- app_assoc in K2. eauto.
Qed.

Lemma md_new_ok : md_ok MemoryDataStream_new [].
Proof. constructor; cbn; [done|lia|done]. Qed.

(** A [MemoryDataStream] gives back what was written to it: after any
    blocks written to a new stream while memory lasts, a reader that takes
    blocks of any size below 64K and moves over each gets the blocks'
    concatenation and then the end of the stream, without a copy outside the
    buffer. *)
Theorem memory_stream_roundtrip (has_room : Z -> bool) (fill : Z) (ds : list (list Z)) (bufSize : Z) (fuel : nat) :
  (forall n, has_room n = true) -> 1 <= bufSize < 2 ^ 16 -> (length (concat ds) < fuel)%nat ->
  exists s s', MemoryDataStream_writes has_room fill ds MemoryDataStream_new = Some s /\
    drain fuel bufSize s = Some (concat ds, s') /\ isFinished s' = Some true.
Proof.
  intros Hr Hb Hf. destruct (md_writes_spec has_room fill ds Hr _ [] md_new_ok eq_refl) as (s & E & K & P).
  destruct (source_drain fuel bufSize Hb s (concat ds)) as (s' & E' & K'); [|done|].
  - exists (concat ds). split; [done|]. by rewrite P.
  - exists s, s'. split; [done|]. split; [done|]. apply source_finished in K'. by rewrite K'.
Qed.

Example memory_stream_roundtrip_witness :
  exists s s', MemoryDataStream_writes (fun _ => true) 0 [[1; 2]; [3]; [4; 5; 6]] MemoryDataStream_new = Some s /\
    drain 7 4 s = Some ([1; 2; 3; 4; 5; 6], s') /\ isFinished s' = Some true.
Proof. apply (memory_stream_roundtrip (fun _ => true) 0 [[1; 2]; [3]; [4; 5; 6]] 4 7); [done|lia|cbn; lia]. Defined.

(** A failed [realloc] leaves the new capacity with the old buffer: a later
    write that is within that capacity is outside the buffer. *)
Example memory_stream_overflow_after_failed_realloc :
  exists s1 s2, MemoryDataStream_write (fun n => n <? 100) 0 (replicate 10 1) MemoryDataStream_new = Some (10, s1) /\
    MemoryDataStream_write (fun n => n <? 100) 0 (replicate 60 1) s1 = Some (0, s2) /\
    md_buf s2 = md_buf s1 /\
    MemoryDataStream_write (fun n => n <? 100) 0 (replicate 20 1) s2 = None.
Proof. eexists _, _. split; [reflexivity|]. split; [reflexivity|]. split; reflexivity. Qed.

(** A write after reading rewinds the stream. *)
Example memory_stream_write_rewinds :
  exists s1 s2, MemoryDataStream_write (fun _ => true) 0 [1; 2] MemoryDataStream_new = Some (2, s1) /\
    MemoryDataStream_write (fun _ => true) 0 [3] (snd (MemoryDataStream_seek 2 s1)) = Some (1, s2) /\
    drain 10 8 s2 = Some ([1; 2; 3], snd (MemoryDataStream_seek 3 s2)).
Proof. eexists _, _. split; [reflexivity|]. split; reflexivity. Qed.
