(* ===== verification/Transformer.v ===== *)
(** * Stream transformers

    [Sming/SmingCore/Data/StreamTransformer.cpp] and its three uses:
    [ChunkedStream], [Base64OutputStream] and [QuotedPrintableOutputStream].
    A transformer reads blocks from a source stream, passes each to a callback
    that writes into the [result] buffer, and queues the output in a
    [CircularBuffer].  It is proved against the laws of a source
    ([Streams.Source]) and of an encoder ([Encoder]), and the uses are proved
    to be encoders. *)

From S2P Require Import Prelude StringUtil Base64 Streams.

(** ** [StreamTransformer] *)

(** The callback with the object it belongs to: [transformCallback source]
    writes to the result buffer, which is the state, and yields the number of
    bytes.  [saveState] and [restoreState] are the virtual methods. *)
Class Transform (E : Type) := {
  transformCallback : list Z -> E -> M (list Z) (Z * E);
  saveState : E -> E;
  restoreState : E -> E
}.

Definition NETWORK_SEND_BUFFER_SIZE : Z := 1024.

Record StreamTransformer (St E : Type) := {
  sourceStream : St;
  tempStream : option CircularBuffer;
  object : E;
  result : list Z;
  blockSize : Z
}.
Arguments sourceStream {St E}.
Arguments tempStream {St E}.
Arguments object {St E}.
Arguments result {St E}.
Arguments blockSize {St E}.

(** [result] is a new block of [resultSize] bytes. *)
Definition StreamTransformer_new {St E} (stream : St) (callback : E) (result_ : list Z) (blockSize_ : Z) : StreamTransformer St E :=
  {| sourceStream := stream; tempStream := None; object := callback; result := result_; blockSize := blockSize_ |}.

(** Writing goes to the source; [write] is its method. *)
Definition StreamTransformer_write {St E} (write : list Z -> St -> option (Z * St)) (data : list Z) (t : StreamTransformer St E) :
    option (Z * StreamTransformer St E) :=
  match write data (sourceStream t) with
  | None => None
  | Some (n, source) =>
      Some (n, {| sourceStream := source; tempStream := tempStream t; object := object t; result := result t; blockSize := blockSize t |})
  end.

Section StreamTransformer.
Context {St E : Type} `{IDataSourceStream St} `{Transform E}.
(** The memory of the new [CircularBuffer]. *)
Context (cb_fill : list Z).

(** The state of the fill loop: source, queue, callback object, result. *)
Definition fill_state : Type := St * CircularBuffer * E * list Z.

(** The loop over [i] = [n], ..., 1. *)
Fixpoint fill_loop (blockSize_ bufSize : Z) (n : nat) (st : fill_state) : option fill_state :=
  match n with
  | O => Some st
  | S n' =>
      let '(source, temp, obj, res) := st in
      match readMemoryBlock (if (n =? 1)%nat then bufSize mod blockSize_ else blockSize_) source with
      | None => None
      | Some (len, data, source) =>
          if len =? 0 then Some (source, temp, obj, res) else
          match transformCallback (take (Z.to_nat len) data) (saveState obj) res with
          | None => None
          | Some ((outLength, obj), res) =>
              if CircularBuffer_room temp <? u32 outLength then Some (source, temp, restoreState obj, res) else
              match copy_from res 0 outLength with
              | None => None
              | Some out =>
                  match CircularBuffer_write out temp with
                  | None => None
                  | Some (written, temp) =>
                      if negb (written =? outLength) then Some (source, temp, restoreState obj, res) else
                      match seek len source with
                      | None => None
                      | Some (_, source) => fill_loop blockSize_ bufSize n' (source, temp, obj, res)
                      end
                  end
              end
          end
      end
  end.

(** The end of the data: the result is written without a check for room. *)
Definition fill_end (st : fill_state) : option fill_state :=
  let '(source, temp, obj, res) := st in
  match isFinished source with
  | Some true =>
      match transformCallback [] obj res with
      | None => None
      | Some ((outLength, obj), res) =>
          match copy_from res 0 outLength with
          | None => None
          | Some out =>
              match CircularBuffer_write out temp with
              | None => None
              | Some (_, temp) => Some (source, temp, obj, res)
              end
          end
      end
  | Some false => Some st
  | None => None
  end.

Definition StreamTransformer_readMemoryBlock (bufSize : Z) (t : StreamTransformer St E) :
    option (Z * list Z * StreamTransformer St E) :=
  let temp := match tempStream t with
              | None => CircularBuffer_new cb_fill (NETWORK_SEND_BUFFER_SIZE + 10)
              | Some temp => temp
              end in
  let set '(source, temp, obj, res) :=
    {| sourceStream := source; tempStream := Some temp; object := obj; result := res; blockSize := blockSize t |} in
  let read st :=
    let '(source, temp, obj, res) := st in
    match CircularBuffer_readMemoryBlock bufSize temp with
    | None => None
    | Some (n, d, temp) => Some (n, d, set (source, temp, obj, res))
    end in
  let st := (sourceStream t, temp, object t, result t) in
  if CircularBuffer_isFinished temp then
    match isFinished (sourceStream t) with
    | None => None
    | Some true => Some (0, [], set st)
    | Some false =>
        if blockSize t =? 0 then None else
        match fill_loop (blockSize t) bufSize (Z.to_nat (bufSize / blockSize t + 1)) st with
        | None => None
        | Some st => match fill_end st with Some st => read st | None => None end
        end
    end
  else read st.

(** The queue exists only after the first read. *)
Definition StreamTransformer_seek (len : Z) (t : StreamTransformer St E) : option (bool * StreamTransformer St E) :=
  match tempStream t with
  | None => None
  | Some temp =>
      let '(res, temp) := CircularBuffer_seek len temp in
      Some (res, {| sourceStream := sourceStream t; tempStream := Some temp; object := object t; result := result t; blockSize := blockSize t |})
  end.

Definition StreamTransformer_isFinished (t : StreamTransformer St E) : option bool :=
  match isFinished (sourceStream t) with
  | None => None
  | Some false => Some false
  | Some true => match tempStream t with None => None | Some temp => Some (CircularBuffer_isFinished temp) end
  end.

#[export] Instance StreamTransformer_stream : IDataSourceStream (StreamTransformer St E) := {
  readMemoryBlock := StreamTransformer_readMemoryBlock;
  seek := StreamTransformer_seek;
  isFinished := StreamTransformer_isFinished
}.
End StreamTransformer.

(** ** [ChunkedStream] *)

(** [%X] of [ets_sprintf]: upper-case hexadecimal digits. *)
Definition hex_upper_digit (d : Z) : Z := if d <? 10 then 0x30 + d else 0x41 + d - 10.
Fixpoint hex_upper (fuel : nat) (n : Z) (acc : list Z) : list Z :=
  match fuel with
  | O => acc
  | S fuel => let acc := hex_upper_digit (n mod 16) :: acc in if n <? 16 then acc else hex_upper fuel (n / 16) acc
  end.

(** [memcpy] into the target. *)
Definition put_at (off : Z) (d : list Z) : M (list Z) unit := fun buf =>
  match copy_to buf off d with Some buf => Some (tt, buf) | None => None end.

Definition crlf : list Z := [13; 10].

(** [chunkSize] has room for four digits. *)
Definition ChunkedStream_encode (source : list Z) : M (list Z) Z :=
  let sourceLength := zlen source in
  if sourceLength =? 0 then
    let end_ := string_bytes "0"%string ++ crlf ++ crlf in
    put_at 0 end_ ;;;
    ret (zlen end_)
  else
    let chunkSize := hex_upper 8 sourceLength [] in
    (if 4 <? zlen chunkSize then fault else ret tt) ;;;
    put_at 0 chunkSize ;;;
    let offset := zlen chunkSize in
    put_at offset crlf ;;;
    let offset := offset + 2 in
    put_at offset source ;;;
    let offset := offset + sourceLength in
    put_at offset crlf ;;;
    let offset := offset + 2 in
    ret offset.

(** The encoder keeps no state of its own, and [saveState] and [restoreState]
    do nothing. *)
Inductive ChunkedStream := chunked.
#[export] Instance ChunkedStream_transform : Transform ChunkedStream := {
  transformCallback source e := let! n := ChunkedStream_encode source in ret (n, e);
  saveState e := e;
  restoreState e := e
}.
Definition ChunkedStream_new {St} (stream : St) (result_ : list Z) : StreamTransformer St ChunkedStream :=
  StreamTransformer_new stream chunked result_ (zlen result_ - 12).

(** ** [Base64OutputStream] *)

Definition CHARS_PER_LINE : Z := 72.
Record Base64OutputStream := { b64_state : base64_encodestate; b64_lastState : base64_encodestate }.

Definition Base64OutputStream_encode (char_signed : bool) (source : list Z) (e : Base64OutputStream) : M (list Z) (Z * Base64OutputStream) :=
  if zlen source =? 0 then let! count := base64_encode_blockend 0 (b64_state e) in ret (count, e)
  else
    let! (count, st) := base64_encode_block char_signed source 0 (b64_state e) in
    ret (count, {| b64_state := st; b64_lastState := b64_lastState e |}).
Definition Base64OutputStream_saveState (e : Base64OutputStream) : Base64OutputStream :=
  {| b64_state := b64_state e; b64_lastState := b64_state e |}.
Definition Base64OutputStream_restoreState (e : Base64OutputStream) : Base64OutputStream :=
  {| b64_state := b64_lastState e; b64_lastState := b64_lastState e |}.

(** [char] is unsigned on the device and may be signed on a host. *)
Definition base64_transform (char_signed : bool) : Transform Base64OutputStream := {|
  transformCallback := Base64OutputStream_encode char_signed;
  saveState := Base64OutputStream_saveState;
  restoreState := Base64OutputStream_restoreState
|}.

(** The constructor initialises [state] only. *)
Definition Base64OutputStream_new {St} (stream : St) (result_ : list Z) (lastState : base64_encodestate) : StreamTransformer St Base64OutputStream :=
  StreamTransformer_new stream {| b64_state := base64_init_encodestate CHARS_PER_LINE; b64_lastState := lastState |} result_ (zlen result_ / 4).

(** ** [QuotedPrintableOutputStream] *)

Fixpoint quotedPrintableTransformer_loop (source : list Z) (count : Z) : M (list Z) Z :=
  match source with
  | [] => ret count
  | byte :: source =>
      if (byte =? 0x20) || ((33 <=? byte) && (byte <=? 126) && negb (byte =? 0x3d)) then
        put_at count [byte] ;;; quotedPrintableTransformer_loop source (count + 1)
      else
        put_at count [0x3d] ;;;
        put_at (count + 1) [hex_upper_digit (Z.land (Z.shiftr byte 4) 0x0f)] ;;;
        put_at (count + 2) [hex_upper_digit (Z.land byte 0x0f)] ;;;
        quotedPrintableTransformer_loop source (count + 3)
  end.
Definition quotedPrintableTransformer (source : list Z) : M (list Z) Z := quotedPrintableTransformer_loop source 0.

Inductive QuotedPrintable := quoted_printable.
#[export] Instance QuotedPrintable_transform : Transform QuotedPrintable := {
  transformCallback source e := let! n := quotedPrintableTransformer source in ret (n, e);
  saveState e := e;
  restoreState e := e
}.
Definition QuotedPrintableOutputStream_new {St} (stream : St) (result_ : list Z) : StreamTransformer St QuotedPrintable :=
  StreamTransformer_new stream quoted_printable result_ (zlen result_ / 2).

(** ** Encoders

    [enc c d] is the output for the block [d] in state [c], and the next
    state; the empty block is the end of the data.  Saving before a block and
    restoring after it gives the state back. *)
Class Encoder (E C : Type) (T : Transform E) := {
  core : E -> C;
  enc : C -> list Z -> list Z * C;
  enc_block e d buf : zlen d < 2 ^ 16 -> zlen (fst (enc (core e) d)) <= zlen buf ->
    exists e', transformCallback d (saveState e) buf = Some ((zlen (fst (enc (core e) d)), e'), splice buf 0 (fst (enc (core e) d))) /\
      core e' = snd (enc (core e) d) /\ core (restoreState e') = core e;
  enc_last e buf : zlen (fst (enc (core e) [])) <= zlen buf ->
    exists e', transformCallback [] e buf = Some ((zlen (fst (enc (core e) [])), e'), splice buf 0 (fst (enc (core e) [])))
}.
Arguments enc {E C T _}.
Arguments core {E C T _}.

Section Transformer.
Context {St E C : Type} `{Source St} `{T : Transform E} `{!Encoder E C T}.
Context (cb_fill : list Z) (resultSize bs bufSize : Z).

(** The output of blocks one after the other. *)
Fixpoint enc_blocks (c : C) (blocks : list (list Z)) : list Z * C :=
  match blocks with
  | [] => ([], c)
  | b :: blocks => let '(o, c') := enc c b in let '(os, c'') := enc_blocks c' blocks in (o ++ os, c'')
  end.
Definition enc_end (c : C) : list Z := fst (enc c []).

(** The configuration: blocks of 1 to [bs] bytes, whose output is not empty
    and fits in the result buffer, which itself fits in the queue. *)
Definition queue_size : Z := NETWORK_SEND_BUFFER_SIZE + 10.
Record configured : Prop := {
  cf_bs : 1 <= bs < 2 ^ 16;
  cf_buf : 1 <= bufSize < 2 ^ 16;
  cf_fill : zlen cb_fill = queue_size;
  cf_result : resultSize < queue_size;
  cf_out c d : 1 <= zlen d <= bs -> 1 <= zlen (fst (enc c d)) <= resultSize;
  cf_end c : zlen (enc_end c) <= resultSize
}.
Definition is_block (b : list Z) : Prop := 1 <= zlen b <= bs.

(** The state of the fill loop: what the source still has, what is queued,
    the encoder's state. *)
Definition fill_ok (st : fill_state (St := St) (E := E)) (l q : list Z) (c : C) : Prop :=
  let '(source, temp, obj, res) := st in
  content source l /\ cb_ok temp /\ cb_size temp = queue_size /\ cb_contents temp = q /\ core obj = c /\ zlen res = resultSize.

Lemma slice_splice_0 (buf o : list Z) : zlen o <= zlen buf -> copy_from (splice buf 0 o) 0 (zlen o) = Some o.
Proof.
  intros Hl. unfold zlen in Hl. rewrite copy_from_run; [|lia|apply zlen_nonneg|rewrite zlen_splice by lia; unfold zlen; lia].
  f_equal. unfold slice. rewrite drop_0. replace (Z.to_nat (zlen o)) with (length o) by (unfold zlen; lia). apply take_splice_0.
Qed.

Lemma enc_blocks_cons c b blocks :
  enc_blocks c (b :: blocks) = (fst (enc c b) ++ fst (enc_blocks (snd (enc c b)) blocks), snd (enc_blocks (snd (enc c b)) blocks)).
Proof. cbn. destruct (enc c b) as [o c']. cbn. by destruct (enc_blocks c' blocks). Qed.

(** What the fill loop does in [n] rounds: it takes some blocks off the source
    and queues their output, at least one if it can. *)
Definition fill_post (n : nat) (l q : list Z) (c : C) (st' : fill_state) : Prop :=
  exists blocks l', concat blocks ++ l' = l /\ Forall is_block blocks /\
    fill_ok st' l' (q ++ fst (enc_blocks c blocks)) (snd (enc_blocks c blocks)) /\
    (length blocks <= n)%nat /\
    zlen (concat blocks) <= (if (n =? 0)%nat then 0 else bs * (Z.of_nat n - 1) + bufSize mod bs) /\
    (q = [] -> l <> [] -> (0 < n)%nat -> (n = 1%nat -> 1 <= bufSize mod bs) -> blocks <> []).

Lemma fill_post_stop n l q c st : 1 <= bs -> fill_ok st l q c ->
  (q = [] -> l <> [] -> (0 < n)%nat -> (n = 1%nat -> 1 <= bufSize mod bs) -> False) -> fill_post n l q c st.
Proof.
  intros Hbs Hst Hno. pose proof (Z.mod_pos_bound bufSize bs ltac:(lia)). exists [], l. cbn [enc_blocks fst snd concat app]. rewrite app_nil_r.
  split; [done|]. split; [done|]. split; [done|]. split; [cbn; lia|]. split; [|intros; exfalso; eauto].
  change (zlen (@nil Z)) with 0. destruct n as [|n]; cbn [Nat.eqb]; nia.
Qed.

Lemma fill_post_step n d l q c st : is_block d -> zlen d <= (if (S n =? 1)%nat then bufSize mod bs else bs) ->
  fill_post n l (q ++ fst (enc c d)) (snd (enc c d)) st -> fill_post (S n) (d ++ l) q c st.
Proof.
  intros Hd Hl (blocks & l' & B1 & B2 & B3 & B4 & B5 & _). exists (d :: blocks), l'. rewrite enc_blocks_cons. cbn [fst snd concat].
  rewrite <- app_assoc, B1. rewrite <- app_assoc in B3. split; [done|]. split; [by constructor|]. split; [done|]. split; [cbn; lia|].
  split; [|done]. rewrite zlen_app. destruct n as [|n]; cbn [Nat.eqb] in *; lia.
Qed.

Lemma fill_loop_spec (K : configured) n : forall st l q c, fill_ok st l q c -> zlen q < queue_size ->
  exists st', fill_loop bs bufSize n st = Some st' /\ fill_post n l q c st'.
Proof.
  destruct K as [K1 K2 K3 K4 K5 K6]. pose proof (Z.mod_pos_bound bufSize bs ltac:(lia)) as Hm.
  induction n as [|n IH]; intros st l q c Hst Hq.
  { exists st. split; [done|]. apply fill_post_stop; [lia|done|lia]. }
  destruct st as [[[source temp] obj] res]. pose proof Hst as (S1 & S2 & S3 & S4 & S5 & S6). cbn [fill_loop].
  set (ask := if (S n =? 1)%nat then bufSize mod bs else bs). assert (0 <= ask <= bs) as Hask by (unfold ask; destruct (S n =? 1)%nat; lia).
  destruct (source_read source l ask S1) as (source1 & -> & S1'); [lia|]. set (len := Z.min ask (zlen l)).
  pose proof (zlen_nonneg l). destruct (Z.eqb_spec len 0) as [E0|E0].
  { eexists. split; [done|]. apply fill_post_stop; [lia|done|]. intros -> Hl _ Hn1. assert (1 <= zlen l) by (destruct l; [done|unfold zlen; cbn; lia]).
    unfold len, ask in E0. destruct (Nat.eqb_spec (S n) 1) as [E1|E1]; [specialize (Hn1 E1); lia|lia]. }
  set (d := take (Z.to_nat ask) l). assert (zlen d = len) as Ed by (unfold d, len; rewrite zlen_take; lia).
  assert (take (Z.to_nat len) d = d) as -> by (apply take_ge; unfold zlen in *; lia).
  assert (l = d ++ drop (Z.to_nat len) l) as El.
  { assert (d = take (Z.to_nat len) l) as -> by (unfold d, len; destruct (Z.le_gt_cases (zlen l) ask); [rewrite !take_ge; unfold zlen in *; lia || done|f_equal; lia]).
    by rewrite take_drop. }
  assert (is_block d) as Hd by (unfold is_block; lia).
  destruct (K5 (core obj) d Hd) as [O1 O2]. destruct (enc_block obj d res) as (e' & -> & C1 & C2); [lia|lia|].
  rewrite S5 in *. set (o := fst (enc c d)) in *. rewrite u32_small by (unfold is_u32, queue_size, NETWORK_SEND_BUFFER_SIZE in *; lia).
  rewrite cb_room_spec by done. rewrite S3, S4. assert (zlen (splice res 0 o) = resultSize) as Er by (rewrite zlen_splice; unfold zlen in *; lia).
  destruct (Z.ltb_spec (queue_size - 1 - zlen q) (zlen o)) as [Hno|Hroom].
  { eexists. split; [done|]. apply fill_post_stop; [lia|done|]. intros -> _ _ _. change (zlen (@nil Z)) with 0 in Hno. lia. }
  rewrite slice_splice_0 by lia. destruct (cb_write_spec temp o S2) as (temp1 & -> & T1 & T2 & T3). rewrite S3, S4 in *.
  rewrite take_ge in T3 by (unfold zlen in *; lia). rewrite Z.min_l by lia. rewrite Z.eqb_refl. cbn [negb].
  destruct (source_seek source1 l len S1') as (source2 & -> & S1''); [lia|].
  destruct (IH (source2, temp1, e', splice res 0 o) (drop (Z.to_nat len) l) (q ++ o) (snd (enc c d))) as (st' & Ef & P); [done|rewrite zlen_app; lia|].
  exists st'. split; [done|]. rewrite El. apply fill_post_step; [done|rewrite Ed; unfold len; fold ask; lia|done].
Qed.

(** Every fill leaves room for the closing bytes. *)
Definition fits : Prop :=
  forall c blocks, Forall is_block blocks -> zlen (concat blocks) <= bufSize -> Z.of_nat (length blocks) <= bufSize / bs + 1 ->
    zlen (fst (enc_blocks c blocks)) + zlen (enc_end (snd (enc_blocks c blocks))) <= queue_size - 1.

(** The output for the data [l] in state [c]: the output of some division of
    [l] into blocks, and of the closing bytes as many as the queue had room
    for. *)
Definition output (l : list Z) (c : C) (out : list Z) : Prop :=
  if zlen l =? 0 then out = [] else
  exists blocks k, concat blocks = l /\ Forall is_block blocks /\
    out = fst (enc_blocks c blocks) ++ take k (enc_end (snd (enc_blocks c blocks))) /\
    (fits -> out = fst (enc_blocks c blocks) ++ enc_end (snd (enc_blocks c blocks))).

(** A transformer with [q] queued and [l] still to be read. *)
Definition t_ok (t : StreamTransformer St E) (l q : list Z) (c : C) : Prop :=
  exists temp, tempStream t = Some temp /\ fill_ok (sourceStream t, temp, object t, result t) l q c /\ blockSize t = bs.

Lemma enc_blocks_app c b1 b2 :
  enc_blocks c (b1 ++ b2) = (fst (enc_blocks c b1) ++ fst (enc_blocks (snd (enc_blocks c b1)) b2), snd (enc_blocks (snd (enc_blocks c b1)) b2)).
Proof.
  revert c. induction b1 as [|b b1 IH]; intros c; [cbn; by rewrite <- surjective_pairing|]. cbn [app]. rewrite !enc_blocks_cons, IH. cbn [fst snd].
  by rewrite app_assoc.
Qed.

Lemma zlen_eqb_nil {A} (l : list A) : (zlen l =? 0) = true <-> l = [].
Proof.
  rewrite Z.eqb_eq. unfold zlen. split; [|by intros ->]. intros E0. apply nil_length_inv. lia.
Qed.

(** The end of the data, once the source is finished. *)
Lemma fill_end_spec (K : configured) st l q c : fill_ok st l q c -> zlen q < queue_size ->
  exists st' c', fill_end st = Some st' /\
    fill_ok st' l (if zlen l =? 0 then q ++ take (Z.to_nat (queue_size - 1 - zlen q)) (enc_end c) else q) c' /\ (l <> [] -> c' = c).
Proof.
  destruct st as [[[source temp] obj] res]. intros (S1 & S2 & S3 & S4 & S5 & S6) Hq. unfold fill_end. rewrite (source_finished source l S1).
  destruct (zlen l =? 0) eqn:El; [|exists (source, temp, obj, res), c; done]. pose proof (cf_end K c) as Hend. unfold enc_end in *.
  destruct (enc_last obj res) as (e' & ->); [rewrite S5; lia|]. rewrite S5. set (o := fst (enc c [])) in *.
  rewrite slice_splice_0 by lia. destruct (cb_write_spec temp o S2) as (temp1 & -> & T1 & T2 & T3). rewrite S3, S4 in *.
  exists (source, temp1, e', splice res 0 o), (core e'). split; [done|]. split.
  - repeat (split; [done|]). rewrite zlen_splice; [done|]. unfold zlen in *. lia.
  - apply zlen_eqb_nil in El. done.
Qed.

Lemma fill_round (K : configured) st l c : fill_ok st l [] c -> l <> [] ->
  exists st1 st2 l' q' c', fill_loop bs bufSize (Z.to_nat (bufSize / bs + 1)) st = Some st1 /\ fill_end st1 = Some st2 /\ fill_ok st2 l' q' c' /\
    (length l' < length l)%nat /\ 1 <= zlen q' < queue_size /\
    forall out, output l' c' out -> output l c (q' ++ out).
Proof.
  intros Hst Hl. pose proof (cf_bs K). pose proof (cf_buf K).
  assert (0 <= bufSize / bs) as Hdiv by (apply Z.div_pos; lia). pose proof (Z.div_mod bufSize bs ltac:(lia)) as Edm.
  destruct (fill_loop_spec K (Z.to_nat (bufSize / bs + 1)) st l [] c Hst ltac:(done)) as (st1 & E1 & blocks & l' & B1 & B2 & B3 & B4 & B5 & B6).
  specialize (B6 eq_refl Hl ltac:(lia) ltac:(intros; nia)). rewrite (proj2 (Nat.eqb_neq _ 0)) in B5 by lia. cbn [app] in B3.
  set (q := fst (enc_blocks c blocks)) in *. set (c1 := snd (enc_blocks c blocks)) in *.
  assert (zlen q < queue_size) as Hq.
  { destruct st1 as [[[? temp] ?] ?]. destruct B3 as (_ & T1 & T2 & T3 & _). pose proof (cb_available_range temp T1) as Ha. rewrite cb_available_spec, T2, T3 in Ha by done. lia. }
  destruct (fill_end_spec K st1 l' q c1 B3 Hq) as (st2 & c2 & E2 & B7 & B8). eexists st1, st2, l', _, c2. split; [done|]. split; [done|]. split; [exact B7|].
  assert (1 <= zlen (concat blocks) /\ 1 <= zlen q) as [Hb1 Hq1].
  { destruct blocks as [|b blocks]; [done|]. apply Forall_cons_1 in B2 as [Hb _]. pose proof (cf_out K c b Hb). unfold q. rewrite enc_blocks_cons. cbn [fst concat].
    unfold is_block in Hb. rewrite !zlen_app. pose proof (zlen_nonneg (concat blocks)). pose proof (zlen_nonneg (fst (enc_blocks (snd (enc c b)) blocks))). lia. }
  split; [rewrite <- B1, length_app; unfold zlen in Hb1; lia|]. split.
  { destruct (zlen l' =? 0); [|lia]. rewrite zlen_app, zlen_take. pose proof (zlen_nonneg (enc_end c1)). lia. }
  intros out Hout. unfold output in *. rewrite (proj2 (Z.eqb_neq (zlen l) 0)) by (destruct l; [done|unfold zlen; cbn; lia]).
  destruct (zlen l' =? 0) eqn:El.
  - apply zlen_eqb_nil in El as ->. subst out. rewrite app_nil_r in *. exists blocks, (Z.to_nat (queue_size - 1 - zlen q)). fold q c1.
    split; [done|]. split; [done|]. split; [done|]. intros Hf. f_equal. apply take_ge. specialize (Hf c blocks B2 ltac:(nia) ltac:(lia)). fold q c1 in Hf.
    unfold zlen in *. lia.
  - destruct Hout as (blocks' & k & D1 & D2 & D3 & D4). rewrite B8 in D3, D4 by (intros ->; done). exists (blocks ++ blocks'), k.
    rewrite concat_app, D1, enc_blocks_app. cbn [fst snd]. fold q c1. split; [done|]. split; [by apply Forall_app|].
    rewrite <- !app_assoc. split; [by rewrite D3|]. intros Hf. by rewrite D4.
Qed.

(** What a queue without data holds. *)
Lemma cb_finished temp q : cb_ok temp -> cb_contents temp = q -> CircularBuffer_isFinished temp = (zlen q =? 0).
Proof.
  intros Hok <-. unfold CircularBuffer_isFinished. rewrite cb_available_spec by done. pose proof (zlen_nonneg (cb_contents temp)).
  destruct (Z.ltb_spec (zlen (cb_contents temp)) 1), (Z.eqb_spec (zlen (cb_contents temp)) 0); lia || done.
Qed.

Lemma t_read (K : configured) t l q c : t_ok t l q c -> q <> [] \/ l <> [] ->
  exists t' l' q' c', StreamTransformer_readMemoryBlock cb_fill bufSize t = Some (Z.min bufSize (zlen q'), take (Z.to_nat bufSize) q', t') /\
    t_ok t' l' q' c' /\ 1 <= zlen q' < queue_size /\
    ((l' = l /\ q' = q) \/ (q = [] /\ (length l' < length l)%nat)) /\
    forall out out', output l' c' out -> q' ++ out = q ++ out' -> output l c out'.
Proof.
  intros (temp & Et & Hf & Hb) Hne. pose proof Hf as (S1 & S2 & S3 & S4 & S5 & S6). pose proof (cf_buf K).
  unfold StreamTransformer_readMemoryBlock. rewrite Et, (cb_finished temp q S2 S4), Hb.
  assert (zlen q < queue_size) as Hq by (pose proof (cb_available_range temp S2) as Ha; rewrite cb_available_spec, S3, S4 in Ha by done; lia).
  assert (forall st l1 q1 c1, fill_ok st l1 q1 c1 -> exists t',
    (let '(source, temp, obj, res) := st in
     match CircularBuffer_readMemoryBlock bufSize temp with
     | None => None
     | Some (n, d, temp) => Some (n, d, {| sourceStream := source; tempStream := Some temp; object := obj; result := res; blockSize := bs |})
     end) = Some (Z.min bufSize (zlen q1), take (Z.to_nat bufSize) q1, t') /\ t_ok t' l1 q1 c1) as Hread.
  { intros [[[source1 temp1] obj1] res1] l1 q1 c1 Hf1. pose proof Hf1 as (_ & T2 & _ & T4 & _). rewrite cb_read_spec, T4 by (done || lia).
    eexists. split; [done|]. by exists temp1. }
  destruct (zlen q =? 0) eqn:Eq.
  - apply zlen_eqb_nil in Eq as ->. destruct Hne as [?|Hl]; [done|]. rewrite (source_finished _ l S1).
    assert ((zlen l =? 0) = false) as -> by (apply not_true_iff_false; rewrite zlen_eqb_nil; done).
    rewrite (proj2 (Z.eqb_neq bs 0)) by (pose proof (cf_bs K); lia).
    destruct (fill_round K _ l c Hf Hl) as (st1 & st2 & l' & q' & c' & -> & -> & Hf2 & Hlen & Hq' & Hout).
    destruct (Hread st2 l' q' c' Hf2) as (t' & E1 & Ht'). exists t', l', q', c'. split; [exact E1|]. split; [done|]. split; [done|].
    split; [by right|]. intros out out' Ho Eo. cbn [app] in Eo. subst out'. by apply Hout.
  - destruct (Hread _ l q c Hf) as (t' & E1 & Ht'). exists t', l, q, c. split; [exact E1|]. split; [done|].
    apply Z.eqb_neq in Eq. pose proof (zlen_nonneg q). split; [lia|]. split; [by left|]. intros out out' Ho Eo. by apply app_inv_head in Eo as <-.
Qed.

Lemma t_seek t l q c n : t_ok t l q c -> 0 <= n <= zlen q ->
  exists t', StreamTransformer_seek n t = Some (true, t') /\ t_ok t' l (drop (Z.to_nat n) q) c.
Proof.
  intros (temp & Et & (S1 & S2 & S3 & S4 & S5 & S6) & Hb) Hn. unfold StreamTransformer_seek. rewrite Et. rewrite <- S4 in Hn.
  destruct (cb_seek_spec temp n S2 Hn) as (temp1 & -> & T1 & T2 & T3). eexists. split; [done|]. exists temp1. split; [done|]. split; [|done].
  repeat (split; [done || congruence|]). done.
Qed.

Lemma t_drain (K : configured) fuel : forall t l q c, t_ok t l q c ->
  (Z.to_nat queue_size * length l + length q < fuel)%nat ->
  exists out t', drain (H := StreamTransformer_stream cb_fill) fuel bufSize t = Some (q ++ out, t') /\ output l c out.
Proof.
  induction fuel as [|fuel IH]; intros t l q c Ht Hf; [lia|]. cbn [drain isFinished readMemoryBlock seek StreamTransformer_stream].
  pose proof Ht as (temp & Et & (S1 & S2 & S3 & S4 & S5 & S6) & Hb). unfold StreamTransformer_isFinished. rewrite (source_finished _ l S1), Et.
  rewrite (cb_finished temp q S2 S4). assert (l = [] /\ q = [] \/ (q <> [] \/ l <> [])) as [[-> ->]|Hne].
  { destruct l; [|by right; right]. destruct q; [by left|by right; left]. }
  { exists [], t. done. }
  assert ((if zlen l =? 0 then Some (zlen q =? 0) else Some false) = Some false) as ->.
  { destruct (zlen l =? 0) eqn:El; [|done]. apply zlen_eqb_nil in El. f_equal. apply not_true_iff_false. rewrite zlen_eqb_nil. intros ->. by destruct Hne. }
  destruct (t_read K t l q c Ht Hne) as (t1 & l' & q' & c' & -> & Ht1 & Hq' & Hprog & Hout). pose proof (cf_buf K).
  destruct (t_seek t1 l' q' c' (Z.min bufSize (zlen q')) Ht1) as (t2 & -> & Ht2); [lia|].
  destruct (IH t2 l' (drop (Z.to_nat (Z.min bufSize (zlen q'))) q') c' Ht2) as (out & t3 & -> & Ho).
  { rewrite length_drop. destruct Hprog as [[-> ->]|[-> Hl]]; unfold zlen in *; [lia|].
    assert (Z.to_nat queue_size * S (length l') <= Z.to_nat queue_size * length l)%nat by (apply Nat.mul_le_mono_l; lia). lia. }
  assert (take (Z.to_nat (Z.min bufSize (zlen q'))) (take (Z.to_nat bufSize) q') ++ drop (Z.to_nat (Z.min bufSize (zlen q'))) q' ++ out = q' ++ out) as Ecat.
  { rewrite take_take. replace (Nat.min (Z.to_nat (Z.min bufSize (zlen q'))) (Z.to_nat bufSize)) with (Z.to_nat (Z.min bufSize (zlen q'))) by lia.
    by rewrite app_assoc, take_drop. }
  rewrite Ecat. destruct Hprog as [[-> ->]|[-> Hl]].
  - exists out, t3. split; [done|]. by eapply Hout.
  - exists (q' ++ out), t3. split; [done|]. by eapply Hout.
Qed.

(** The first read creates the queue. *)
Lemma new_drain (K : configured) fuel source obj res l : content source l -> l <> [] -> zlen res = resultSize ->
  (Z.to_nat queue_size * length l < fuel)%nat ->
  exists out t', drain (H := StreamTransformer_stream cb_fill) fuel bufSize (StreamTransformer_new source obj res bs) = Some (out, t') /\ output l (core obj) out.
Proof.
  intros S1 Hl Hr Hf. pose (t0 := {| sourceStream := source; tempStream := Some (CircularBuffer_new cb_fill queue_size); object := obj; result := res; blockSize := bs |}).
  assert (t_ok t0 l [] (core obj)) as Ht0.
  { exists (CircularBuffer_new cb_fill queue_size). split; [done|]. split; [|done]. split; [done|]. split; [|done].
    pose proof (cf_fill K). constructor; cbn; unfold queue_size, NETWORK_SEND_BUFFER_SIZE in *; lia. }
  destruct (t_drain K fuel t0 l [] (core obj) Ht0) as (out & t' & E1 & Ho); [cbn; lia|]. exists out, t'. split; [|done].
  cbn [app] in E1. rewrite <- E1. destruct fuel as [|fuel]; [lia|]. cbn [drain isFinished readMemoryBlock seek StreamTransformer_stream].
  unfold StreamTransformer_isFinished. cbn [sourceStream StreamTransformer_new t0]. rewrite (source_finished source l S1).
  assert ((zlen l =? 0) = false) as -> by (apply not_true_iff_false; rewrite zlen_eqb_nil; done). done.
Qed.
End Transformer.

(** ** [ChunkedStream] is an encoder *)

Definition chunk (d : list Z) : list Z :=
  if zlen d =? 0 then string_bytes "0"%string ++ crlf ++ crlf else hex_upper 8 (zlen d) [] ++ crlf ++ d ++ crlf.

Lemma put_at_first buf d : zlen d <= zlen buf -> put_at 0 d buf = Some (tt, splice buf 0 d).
Proof. intros. unfold put_at. by rewrite copy_to_run by lia. Qed.

Lemma put_at_next buf w d off : off = zlen w -> zlen w + zlen d <= zlen buf -> put_at off d (splice buf 0 w) = Some (tt, splice buf 0 (w ++ d)).
Proof.
  intros -> Hb. pose proof (zlen_nonneg w). unfold put_at. rewrite copy_to_run; [|done|rewrite zlen_splice; unfold zlen in *; lia].
  do 2 f_equal. replace (Z.to_nat (zlen w)) with (0 + length w)%nat by (unfold zlen; lia). apply splice_splice_adj. unfold zlen in *. lia.
Qed.

Lemma hex_upper_len fuel : forall n acc, 0 <= n -> zlen acc <= zlen (hex_upper fuel n acc) <= zlen acc + Z.of_nat fuel.
Proof.
  induction fuel as [|fuel IH]; intros n acc Hn; cbn [hex_upper]; [lia|]. destruct (n <? 16); [unfold zlen; cbn; lia|].
  specialize (IH (n / 16) (hex_upper_digit (n mod 16) :: acc) ltac:(apply Z.div_pos; lia)). unfold zlen in *. cbn in *. lia.
Qed.

Lemma hex_upper_four n : 0 <= n < 2 ^ 16 -> 1 <= zlen (hex_upper 8 n []) <= 4.
Proof.
  intros Hn. assert (hex_upper 8 n [] = hex_upper 4 n []) as ->.
  { cbn [hex_upper]. destruct (Z.ltb_spec n 16); [done|]. destruct (Z.ltb_spec (n / 16) 16); [done|]. destruct (Z.ltb_spec (n / 16 / 16) 16); [done|].
    destruct (Z.ltb_spec (n / 16 / 16 / 16) 16) as [|Hge]; [done|]. rewrite !Z.div_div in Hge by lia. cbn in Hge. Z.div_mod_to_equations. lia. }
  split; [|pose proof (hex_upper_len 4 n [] ltac:(lia)); unfold zlen in *; cbn in *; lia]. cbn [hex_upper]. destruct (n <? 16); [unfold zlen; cbn; lia|].
  match goal with |- 1 <= zlen (if _ then ?a else ?b) => assert (1 <= zlen a) by (unfold zlen; cbn; lia) end.
  pose proof (hex_upper_len 3 (n / 16) [hex_upper_digit (n mod 16)] ltac:(apply Z.div_pos; lia)) as Hl. cbn [hex_upper] in Hl. change (zlen [_]) with 1 in Hl. lia.
Qed.

Lemma chunk_len d : zlen d < 2 ^ 16 -> zlen (chunk d) <= zlen d + 8 /\ 1 <= zlen (chunk d).
Proof.
  intros Hd. pose proof (zlen_nonneg d). unfold chunk. destruct (Z.eqb_spec (zlen d) 0) as [->|]; [split; vm_compute; discriminate|].
  pose proof (hex_upper_four (zlen d) ltac:(lia)). rewrite !zlen_app. change (zlen crlf) with 2. lia.
Qed.

Lemma ChunkedStream_encode_spec d buf : zlen d < 2 ^ 16 -> zlen (chunk d) <= zlen buf ->
  ChunkedStream_encode d buf = Some (zlen (chunk d), splice buf 0 (chunk d)).
Proof.
  intros Hd Hb. pose proof (zlen_nonneg d). unfold ChunkedStream_encode, chunk in *. destruct (Z.eqb_spec (zlen d) 0) as [|Hne].
  { unfold bind. by rewrite put_at_first. }
  pose proof (hex_upper_four (zlen d) ltac:(lia)) as Hh. set (h := hex_upper 8 (zlen d) []) in *. rewrite !zlen_app in *. change (zlen crlf) with 2 in *.
  rewrite (proj2 (Z.ltb_ge 4 _)) by lia. unfold bind, ret at 1. rewrite put_at_first by lia.
  rewrite put_at_next by (done || (change (zlen crlf) with 2; lia)).
  rewrite put_at_next by (rewrite ?zlen_app; change (zlen crlf) with 2; lia).
  rewrite put_at_next by (rewrite ?zlen_app; change (zlen crlf) with 2; lia).
  unfold ret. rewrite <- !app_assoc. do 2 f_equal. lia.
Qed.

#[export] Program Instance ChunkedStream_encoder : Encoder ChunkedStream unit ChunkedStream_transform := {
  core _ := tt;
  enc _ d := (chunk d, tt)
}.
Next Obligation. intros e d buf Hd Hb. exists e. cbn in *. unfold bind. by rewrite ChunkedStream_encode_spec. Qed.
Next Obligation. intros e buf Hb. exists e. cbn in *. unfold bind. by rewrite ChunkedStream_encode_spec. Qed.

(** *** The receiver: chunks of hexadecimal size up to the empty chunk *)

Definition hex_value (c : Z) : option Z :=
  if (0x30 <=? c) && (c <=? 0x39) then Some (c - 0x30)
  else if (0x41 <=? c) && (c <=? 0x46) then Some (c - 0x41 + 10)
  else if (0x61 <=? c) && (c <=? 0x66) then Some (c - 0x61 + 10)
  else None.
Fixpoint parse_hex (s : list Z) (v : Z) : Z * list Z :=
  match s with
  | c :: s' => match hex_value c with Some d => parse_hex s' (v * 16 + d) | None => (v, s) end
  | [] => (v, [])
  end.
Definition strip_crlf (s : list Z) : option (list Z) :=
  match s with a :: b :: r => if (a =? 13) && (b =? 10) then Some r else None | _ => None end.
Fixpoint dechunk (fuel : nat) (s : list Z) : option (list Z) :=
  match fuel with
  | O => None
  | S fuel =>
      let '(n, r) := parse_hex s 0 in
      match strip_crlf r with
      | None => None
      | Some r =>
          if n =? 0 then match strip_crlf r with Some [] => Some [] | _ => None end
          else match strip_crlf (drop (Z.to_nat n) r) with
               | None => None
               | Some r' => match dechunk fuel r' with Some d => Some (take (Z.to_nat n) r ++ d) | None => None end
               end
      end
  end.

Lemma hex_value_digit d : 0 <= d < 16 -> hex_value (hex_upper_digit d) = Some d.
Proof.
  intros Hd. assert (match hex_value (hex_upper_digit d) with Some x => x =? d | None => false end = true) as E.
  { apply (forall_range 16 (fun d => match hex_value (hex_upper_digit d) with Some x => x =? d | None => false end)); [reflexivity|done]. }
  destruct (hex_value _); [|done]. by apply Z.eqb_eq in E as ->.
Qed.

Lemma parse_hex_upper fuel : forall n acc, 0 <= n < 16 ^ Z.of_nat fuel -> (0 < fuel)%nat -> parse_hex (hex_upper fuel n acc) 0 = parse_hex acc n.
Proof.
  induction fuel as [|fuel IH]; intros n acc Hn Hf; [lia|]. cbn [hex_upper]. pose proof (Z.mod_pos_bound n 16 ltac:(lia)).
  destruct (Z.ltb_spec n 16) as [Hlt|Hge].
  - cbn [parse_hex]. rewrite hex_value_digit by done. f_equal. rewrite Z.mod_small; lia.
  - destruct fuel as [|fuel]; [cbn in Hn; lia|]. rewrite IH; [| |lia].
    + cbn [parse_hex]. rewrite hex_value_digit by done. f_equal. pose proof (Z.div_mod n 16). lia.
    + rewrite Nat2Z.inj_succ, Z.pow_succ_r in Hn by lia. split; [apply Z.div_pos; lia|]. apply Z.div_lt_upper_bound; lia.
Qed.

Lemma parse_hex_app fuel n rest : 0 <= n < 16 ^ Z.of_nat fuel -> (0 < fuel)%nat -> parse_hex (hex_upper fuel n [] ++ 13 :: rest) 0 = (n, 13 :: rest).
Proof.
  intros Hn Hf. assert (forall acc, hex_upper fuel n acc = hex_upper fuel n [] ++ acc) as Happ.
  { clear. revert n. induction fuel as [|fuel IH]; intros n acc; [done|]. cbn [hex_upper]. destruct (n <? 16); [done|].
    rewrite IH, (IH _ [_]), <- app_assoc. done. }
  rewrite <- Happ, parse_hex_upper by done. done.
Qed.

Lemma dechunk_chunk fuel d rest l : 1 <= zlen d < 2 ^ 16 -> dechunk fuel rest = Some l -> dechunk (S fuel) (chunk d ++ rest) = Some (d ++ l).
Proof.
  intros Hd E. unfold chunk. rewrite (proj2 (Z.eqb_neq _ 0)) by lia. cbn [dechunk]. rewrite <- !app_assoc. cbn [app crlf].
  rewrite parse_hex_app by (cbn; lia). cbn [strip_crlf Z.eqb Pos.eqb andb]. rewrite (proj2 (Z.eqb_neq _ 0)) by lia. replace (Z.to_nat (zlen d)) with (length d) by (unfold zlen; lia).
  rewrite drop_app_length. cbn [strip_crlf Z.eqb Pos.eqb andb]. rewrite E. by rewrite take_app_length.
Qed.

Lemma dechunk_blocks blocks : Forall (fun b => 1 <= zlen b < 2 ^ 16) blocks ->
  dechunk (S (length blocks)) (fst (enc_blocks tt blocks) ++ enc_end tt) = Some (concat blocks).
Proof.
  induction 1 as [|b blocks Hb Hbs IH]; [reflexivity|]. rewrite enc_blocks_cons. cbn [fst snd enc ChunkedStream_encoder concat length].
  rewrite <- app_assoc. apply dechunk_chunk; [done|]. exact IH.
Qed.

Lemma dechunk_mono f1 : forall f2 s l, dechunk f1 s = Some l -> (f1 <= f2)%nat -> dechunk f2 s = Some l.
Proof.
  induction f1 as [|f1 IH]; intros [|f2] s l E Hle; [done|done|lia|]. cbn [dechunk] in *. destruct (parse_hex s 0) as [n r].
  destruct (strip_crlf r) as [r1|]; [|done]. destruct (n =? 0); [done|]. destruct (strip_crlf (drop _ r1)) as [r2|]; [|done].
  destruct (dechunk f1 r2) as [d|] eqn:Ed; [|done]. by rewrite (IH f2 r2 d Ed) by lia.
Qed.

Lemma blocks_length bs blocks : Forall (is_block bs) blocks -> (length blocks <= length (concat blocks))%nat.
Proof. induction 1 as [|b blocks Hb _ IH]; cbn; [lia|]. rewrite length_app. unfold is_block, zlen in Hb. lia. Qed.

Lemma chunk_blocks_len bs blocks : bs < 2 ^ 16 -> Forall (is_block bs) blocks ->
  zlen (fst (enc_blocks tt blocks)) <= zlen (concat blocks) + 8 * Z.of_nat (length blocks).
Proof.
  intros Hbs. induction 1 as [|b blocks Hb _ IH]; [vm_compute; discriminate|]. rewrite enc_blocks_cons. cbn [fst snd enc ChunkedStream_encoder concat length].
  rewrite !zlen_app. unfold is_block in Hb. pose proof (chunk_len b ltac:(lia)). lia.
Qed.

Lemma chunked_configured cb_fill bufSize : zlen cb_fill = queue_size -> 1 <= bufSize <= 999 ->
  configured (E := ChunkedStream) cb_fill 512 500 bufSize /\ fits (E := ChunkedStream) 500 bufSize.
Proof.
  intros Hf Hb. split.
  - constructor; [lia|lia|done|done| |intros []; vm_compute; discriminate]. intros c d Hd. cbn [enc ChunkedStream_encoder fst].
    pose proof (chunk_len d ltac:(lia)). lia.
  - intros [] blocks Hbl Hl Hn. pose proof (chunk_blocks_len 500 blocks ltac:(lia) Hbl) as Hc.
    change (zlen (enc_end (E := ChunkedStream) (snd (enc_blocks tt blocks)))) with 5. unfold queue_size, NETWORK_SEND_BUFFER_SIZE.
    assert (bufSize / 500 <= 1) by (Z.div_mod_to_equations; lia). lia.
Qed.

(** C24. Chunked transfer: over any source with data, a reader that takes
    blocks of at most 999 bytes from a [ChunkedStream] of the default size
    reaches the end, no copy leaves a buffer, and what it got decodes by the
    rules of the chunked encoding to exactly the source's data. *)
Theorem chunked_stream_roundtrip {St : Type} `{Source St} (cb_fill res : list Z) (source : St) (l : list Z) (bufSize : Z) (fuel : nat) :
  zlen cb_fill = NETWORK_SEND_BUFFER_SIZE + 10 -> zlen res = 512 -> content source l -> l <> [] -> 1 <= bufSize <= 999 ->
  (1034 * length l < fuel)%nat ->
  exists out t', drain (H := StreamTransformer_stream cb_fill) fuel bufSize (ChunkedStream_new source res) = Some (out, t') /\
    dechunk (S (length l)) out = Some l.
Proof.
  intros Hfill Hres Hs Hl Hb Hfuel. destruct (chunked_configured cb_fill bufSize Hfill Hb) as [K F]. unfold ChunkedStream_new. rewrite Hres.
  destruct (new_drain cb_fill 512 500 bufSize K fuel source chunked res l Hs Hl Hres Hfuel) as (out & t' & E & Ho). exists out, t'. split; [done|].
  unfold output in Ho. assert ((zlen l =? 0) = false) as El by (apply not_true_iff_false; rewrite zlen_eqb_nil; done). rewrite El in Ho.
  destruct Ho as (blocks & k & <- & Hbl & _ & Ho). rewrite (Ho F). cbn [core ChunkedStream_encoder].
  apply (dechunk_mono (S (length blocks))); [|pose proof (blocks_length 500 blocks Hbl); lia].
  apply (dechunk_blocks blocks). eapply Forall_impl; [exact Hbl|]. unfold is_block. intros; lia.
Qed.

Example chunked_stream_roundtrip_witness :
  let body := string_bytes "chat"%string in
  let s := {| md_buf := Some (body ++ [0]); md_pos := 0; md_size := 4; md_capacity := 0 |} in
  exists out t', drain (H := StreamTransformer_stream (replicate 1034 0)) 4200 512 (ChunkedStream_new s (replicate 512 0)) = Some (out, t') /\
    dechunk 5 out = Some body.
Proof.
  intros body s. apply (chunked_stream_roundtrip (replicate 1034 0) (replicate 512 0) s body 512 4200); [done|done| |done|lia|cbn; lia].
  exists body. split; [|done]. constructor; cbn; [done|lia|done].
Defined.

(** With reads of 1024 bytes, as a TCP connection makes them, the terminating
    chunk of a body of 1013 bytes does not fit in the queue and is cut off. *)
Definition body_source (n : nat) : MemoryDataStream :=
  {| md_buf := Some (replicate n 65 ++ [0]); md_pos := 0; md_size := Z.of_nat n; md_capacity := 0 |}.
Example chunked_terminator_cut :
  match drain (H := StreamTransformer_stream (replicate 1034 0)) 4 1024 (ChunkedStream_new (body_source 1013) (replicate 512 0)) with
  | Some (out, t) => zlen out = 1033 /\ drop 1030 out = [13; 10; 48] /\ dechunk 9 out = None
  | None => False
  end.
Proof. vm_compute. repeat split. Qed.

(** An empty source: asking whether the stream is finished reads through the
    null pointer to the queue, which the first read would have created. *)
Example empty_source_not_finished : StreamTransformer_isFinished (ChunkedStream_new (body_source 0) (replicate 512 0)) = None.
Proof. reflexivity. Qed.
Example empty_source_no_terminator :
  match StreamTransformer_readMemoryBlock (replicate 1034 0) 512 (ChunkedStream_new (body_source 0) (replicate 512 0)) with
  | Some (n, d, _) => n = 0 /\ d = []
  | None => False
  end.
Proof. vm_compute. done. Qed.

(** A block of [QuotedPrintableOutputStream] may expand to three times its
    size, and the result buffer is only twice the block. *)
Example quoted_printable_overruns : quotedPrintableTransformer (replicate 171 200) (replicate 512 0) = None.
Proof. vm_compute. reflexivity. Qed.

(** ** [Base64OutputStream] is an encoder *)

Section Base64Stream.
Context (char_signed : bool).

Definition b64_enc (st : base64_encodestate) (d : list Z) : list Z * base64_encodestate :=
  if zlen d =? 0 then (Base64.enc_end st, st) else enc_stream char_signed st d.

Lemma b64_encode_spec e d buf : zlen (fst (b64_enc (b64_state e) d)) <= zlen buf ->
  Base64OutputStream_encode char_signed d e buf =
    Some ((zlen (fst (b64_enc (b64_state e) d)), {| b64_state := snd (b64_enc (b64_state e) d); b64_lastState := b64_lastState e |}),
          splice buf 0 (fst (b64_enc (b64_state e) d))).
Proof.
  intros Hb. unfold Base64OutputStream_encode, b64_enc in *. destruct (zlen d =? 0); unfold bind; cbn [fst snd] in *.
  - rewrite encode_blockend_stream by (done || lia). by destruct e.
  - unfold base64_encode_block, bind. rewrite encode_loop_stream by (done || lia). unfold ret. do 3 f_equal. lia.
Qed.

#[export] Program Instance Base64_encoder : Encoder Base64OutputStream base64_encodestate (base64_transform char_signed) := {
  core := b64_state;
  enc := b64_enc
}.
Next Obligation. intros e d buf _ Hb. eexists. cbn in *. split; [by apply (b64_encode_spec (Base64OutputStream_saveState e))|]. done. Qed.
Next Obligation. intros e buf Hb. eexists. cbn in *. by apply b64_encode_spec. Qed.

(** Three bytes give at most five characters, line breaks included. *)
Definition pending (st : base64_encodestate) : Z := match estep st with step_A => 0 | step_B => 2 | step_C => 4 end.

Lemma enc_stream_len d : forall st, 3 * zlen (fst (enc_stream char_signed st d)) + pending (snd (enc_stream char_signed st d)) <= 5 * zlen d + pending st.
Proof.
  induction d as [|p d IH]; intros st; [cbn; unfold zlen; cbn; lia|]. cbn [enc_stream].
  assert (3 * zlen (fst (enc1 char_signed st p)) + pending (snd (enc1 char_signed st p)) <= 5 + pending st) as H1.
  { unfold enc1, pending. destruct (estep st); cbn [fst snd estep]; [vm_compute; discriminate..|]. destruct (_ =? _); vm_compute; discriminate. }
  destruct (enc1 char_signed st p) as [o1 st1]. specialize (IH st1). destruct (enc_stream char_signed st1 d) as [o2 st2]. cbn [fst snd] in *.
  rewrite zlen_app. assert (zlen (p :: d) = 1 + zlen d) as -> by (unfold zlen; cbn [length]; lia). lia.
Qed.

Lemma enc_stream_nonempty d st : 1 <= zlen d -> 1 <= zlen (fst (enc_stream char_signed st d)).
Proof.
  intros Hd. destruct d as [|p d]; [done|]. cbn [enc_stream].
  assert (1 <= zlen (fst (enc1 char_signed st p))) as H1.
  { unfold enc1. destruct (estep st); cbn [fst]; [vm_compute; discriminate..|]. destruct (_ =? _); vm_compute; discriminate. }
  destruct (enc1 char_signed st p) as [o1 st1]. destruct (enc_stream char_signed st1 d) as [o2 st2]. cbn [fst] in *.
  rewrite zlen_app. pose proof (zlen_nonneg o2). lia.
Qed.

Lemma pending_nonneg st : 0 <= pending st <= 4.
Proof. unfold pending. destruct (estep st); lia. Qed.

Lemma enc_end_len st : 0 <= zlen (Base64.enc_end st) <= 3.
Proof. unfold Base64.enc_end. destruct (estep st); vm_compute; split; discriminate. Qed.

(** The blocks do not show in the output. *)
Lemma b64_blocks bs blocks : Forall (is_block bs) blocks -> forall st,
  enc_blocks (Encoder0 := Base64_encoder) st blocks = enc_stream char_signed st (concat blocks).
Proof.
  induction 1 as [|b blocks Hb _ IH]; intros st; [done|]. rewrite enc_blocks_cons. cbn [concat]. rewrite enc_stream_app, IH.
  cbn [enc Base64_encoder]. unfold b64_enc. unfold is_block in Hb. by rewrite (proj2 (Z.eqb_neq _ 0)) by lia.
Qed.

Lemma b64_configured cb_fill bufSize : zlen cb_fill = queue_size -> 1 <= bufSize <= 615 ->
  configured (T := base64_transform char_signed) cb_fill 500 125 bufSize /\ fits (T := base64_transform char_signed) 125 bufSize.
Proof.
  intros Hf Hb. split.
  - constructor; [lia|lia|done|done| |].
    + intros c d Hd. cbn [enc Base64_encoder]. unfold b64_enc. rewrite (proj2 (Z.eqb_neq _ 0)) by lia.
      pose proof (enc_stream_len d c). pose proof (enc_stream_nonempty d c ltac:(lia)). pose proof (pending_nonneg c).
      pose proof (pending_nonneg (snd (enc_stream char_signed c d))). lia.
    + intros c. pose proof (enc_end_len c). change (enc_end c) with (Base64.enc_end c). lia.
  - intros c blocks Hbl Hl Hn. rewrite (b64_blocks 125 blocks Hbl). set (st := snd _). pose proof (enc_end_len st).
    change (enc_end st) with (Base64.enc_end st). pose proof (enc_stream_len (concat blocks) c). fold st in H0. pose proof (pending_nonneg c).
    pose proof (pending_nonneg st). unfold queue_size, NETWORK_SEND_BUFFER_SIZE. lia.
Qed.
End Base64Stream.

(** Base64 output: over any source with bytes, a reader that takes blocks
    of at most 615 bytes from a [Base64OutputStream] of the default size gets
    exactly the base64 text of the source's data with a line break after every
    72 characters, however the reads divide it, whatever signedness [char] has
    and whatever the saved state was at the start; no copy leaves a buffer. *)
Theorem base64_stream_correct (char_signed : bool) {St : Type} `{Source St} (cb_fill res : list Z) (last : base64_encodestate) (source : St)
    (l : list Z) (bufSize : Z) (fuel : nat) :
  zlen cb_fill = NETWORK_SEND_BUFFER_SIZE + 10 -> zlen res = 500 -> content source l -> l <> [] -> Forall is_byte l -> zlen l < 2 ^ 31 - 1 ->
  1 <= bufSize <= 615 -> (1034 * length l < fuel)%nat ->
  exists t', drain (H := StreamTransformer_stream (H0 := base64_transform char_signed) cb_fill) fuel bufSize (Base64OutputStream_new source res last) =
    Some (b64 (CHARS_PER_LINE / 4) 0 l, t').
Proof.
  intros Hfill Hres Hs Hl Hbytes Hlen Hb Hfuel. destruct (b64_configured char_signed cb_fill bufSize Hfill Hb) as [K F].
  unfold Base64OutputStream_new. rewrite Hres. change (500 / 4) with 125.
  destruct (new_drain (T := base64_transform char_signed) cb_fill 500 125 bufSize K fuel source {| b64_state := base64_init_encodestate CHARS_PER_LINE; b64_lastState := last |} res l Hs Hl Hres Hfuel)
    as (out & t' & E & Ho). exists t'. rewrite E. do 2 f_equal.
  unfold output in Ho. assert ((zlen l =? 0) = false) as El by (apply not_true_iff_false; rewrite zlen_eqb_nil; done). rewrite El in Ho.
  destruct Ho as (blocks & k & <- & Hbl & _ & Ho). rewrite (Ho F). cbn [core Base64_encoder b64_state]. rewrite (b64_blocks char_signed 125 blocks Hbl).
  change (enc_end (T := base64_transform char_signed)) with Base64.enc_end.
  change (base64_init_encodestate CHARS_PER_LINE) with (stateA 0 0 (CHARS_PER_LINE / 4)). apply enc_stream_spec; [done|lia|lia].
Qed.

Example base64_stream_correct_witness :
  let body := string_bytes "Man"%string in
  let s := {| md_buf := Some (body ++ [0]); md_pos := 0; md_size := 3; md_capacity := 0 |} in
  exists t', drain (H := StreamTransformer_stream (H0 := base64_transform false) (replicate 1034 0)) 3200 2
      (Base64OutputStream_new s (replicate 500 0) (base64_init_encodestate 0)) = Some (string_bytes "TWFu"%string, t').
Proof.
  intros body s. apply (base64_stream_correct false (replicate 1034 0) (replicate 500 0) (base64_init_encodestate 0) s body 2 3200);
    [done|done| |done|repeat constructor; done|done|lia|cbn; lia].
  exists body. split; [|done]. constructor; cbn; [done|lia|done].
Defined.

(** With reads of 1024 bytes the padding of 763 bytes is cut off. *)
Example base64_padding_cut :
  match drain (H := StreamTransformer_stream (H0 := base64_transform false) (replicate 1034 0)) 4 1024
          (Base64OutputStream_new (body_source 763) (replicate 500 0) (base64_init_encodestate 0)) with
  | Some (out, t) => out = take 1033 (b64 18 0 (replicate 763 65)) /\ zlen (b64 18 0 (replicate 763 65)) = 1034
  | None => False
  end.
Proof. vm_compute. split; reflexivity. Qed.

(** ** [QuotedPrintableOutputStream]: the transformer *)

Definition quoted_char (c : Z) : list Z :=
  if (c =? 0x20) || ((33 <=? c) && (c <=? 126) && negb (c =? 0x3d)) then [c]
  else [0x3d; hex_upper_digit (Z.land (Z.shiftr c 4) 0x0f); hex_upper_digit (Z.land c 0x0f)].
Definition quoted (d : list Z) : list Z := concat (quoted_char <$> d).

(** The reader of quoted-printable text. *)
Fixpoint unquoted (s : list Z) : option (list Z) :=
  match s with
  | [] => Some []
  | c :: r =>
      if c =? 0x3d then
        match r with
        | a :: b :: r' =>
            match hex_value a, hex_value b, unquoted r' with Some x, Some y, Some t => Some (x * 16 + y :: t) | _, _, _ => None end
        | _ => None
        end
      else match unquoted r with Some t => Some (c :: t) | None => None end
  end.

Lemma quoted_loop_spec d : forall w buf, zlen w + zlen (quoted d) <= zlen buf ->
  quotedPrintableTransformer_loop d (zlen w) (splice buf 0 w) = Some (zlen (w ++ quoted d), splice buf 0 (w ++ quoted d)).
Proof.
  induction d as [|c d IH]; intros w buf Hb; [by rewrite app_nil_r|].
  change (quoted (c :: d)) with (quoted_char c ++ quoted d) in *. rewrite zlen_app in Hb. pose proof (zlen_nonneg (quoted d)). pose proof (zlen_nonneg w).
  cbn [quotedPrintableTransformer_loop]. unfold quoted_char in *. destruct (_ || _).
  - change (zlen [c]) with 1 in Hb. unfold bind. rewrite put_at_next by (done || (change (zlen [c]) with 1; lia)).
    rewrite app_assoc. change (zlen w + 1) with (zlen w + zlen [c]). rewrite <- zlen_app. apply IH. rewrite zlen_app. change (zlen [c]) with 1. lia.
  - set (a := hex_upper_digit (Z.land (Z.shiftr c 4) 0x0f)) in *. set (b := hex_upper_digit (Z.land c 0x0f)) in *.
    change (zlen [0x3d; a; b]) with 3 in Hb. unfold bind. rewrite put_at_next by (done || (change (zlen [0x3d]) with 1; lia)).
    rewrite put_at_next by (rewrite ?zlen_app; change (zlen [0x3d]) with 1; change (zlen [a]) with 1; lia).
    rewrite put_at_next by (rewrite ?zlen_app; change (zlen [0x3d]) with 1; change (zlen [a]) with 1; change (zlen [b]) with 1; lia).
    rewrite <- !app_assoc. cbn [app]. change (0x3d :: a :: b :: quoted d) with ([0x3d; a; b] ++ quoted d). rewrite app_assoc.
    replace (zlen w + 3) with (zlen (w ++ [0x3d; a; b])) by (rewrite zlen_app; done). apply IH. rewrite zlen_app. change (zlen [0x3d; a; b]) with 3. lia.
Qed.

Lemma unquoted_char c s : is_byte c -> unquoted (quoted_char c ++ s) = match unquoted s with Some t => Some (c :: t) | None => None end.
Proof.
  intros Hc. unfold is_byte in Hc. unfold quoted_char. destruct (_ || _) eqn:Ep.
  - cbn [app unquoted]. destruct (Z.eqb_spec c 0x3d) as [->|]; [done|done].
  - cbn [app unquoted]. change (0x3d =? 0x3d) with true. cbv iota.
    change 0x0f with (2 ^ 4 - 1). rewrite !land_mask, shiftr_div by lia.
    rewrite !hex_value_digit by (apply Z.mod_pos_bound; lia). destruct (unquoted s); [|done]. do 2 f_equal. change (2 ^ 4) with 16.
    rewrite (Z.mod_small (c / 16)) by (Z.div_mod_to_equations; lia). Z.div_mod_to_equations. lia.
Qed.

(** Quoted-printable: into a result buffer that has room for it, the
    transformer writes text that reads back as the block, and returns its
    length. *)
Theorem quoted_printable_roundtrip (d buf : list Z) :
  Forall is_byte d -> 3 * zlen d <= zlen buf ->
  exists out, quotedPrintableTransformer d buf = Some (zlen out, out ++ drop (length out) buf) /\ unquoted out = Some d /\ zlen out <= 3 * zlen d.
Proof.
  intros Hd Hb. assert (zlen (quoted d) <= 3 * zlen d) as Hl.
  { clear. induction d as [|c d IH]; [done|]. change (quoted (c :: d)) with (quoted_char c ++ quoted d). rewrite zlen_app.
    assert (zlen (c :: d) = 1 + zlen d) as -> by (unfold zlen; cbn [length]; lia). assert (zlen (quoted_char c) <= 3) by (unfold quoted_char; destruct (_ || _); vm_compute; discriminate). lia. }
  exists (quoted d). split; [|split; [|done]].
  - unfold quotedPrintableTransformer. pose proof (quoted_loop_spec d [] buf ltac:(change (zlen (@nil Z)) with 0; lia)) as E.
    rewrite splice_nil in E. exact E.
  - clear Hb Hl. induction Hd as [|c d Hc Hd IH]; [done|]. change (quoted (c :: d)) with (quoted_char c ++ quoted d). by rewrite unquoted_char, IH.
Qed.

Example quoted_printable_roundtrip_witness :
  exists out, quotedPrintableTransformer [65; 61; 10] (replicate 9 0) = Some (zlen out, out ++ drop (length out) (replicate 9 0)) /\
    unquoted out = Some [65; 61; 10] /\ zlen out <= 3 * zlen [65; 61; 10].
Proof. apply (quoted_printable_roundtrip [65; 61; 10] (replicate 9 0)); [repeat (constructor; [split; lia|]); constructor|done]. Defined.
