(* ===== verification/Containers.v ===== *)
(** * Queues, stacks and maps

    [Sming/Wiring/FIFO.h], [FILO.h], [WHashMap.h] and
    [Sming/SmingCore/Data/ObjectQueue.h].  An array is a list, an access
    outside it a fault ([None]).  A [HashMap] owns one key cell and one value
    cell per slot and gives out references to the value cells only, so its
    arrays of pointers are modelled as the lists of the cells' contents. *)

From S2P Require Import Prelude.

(** The loop [for(i = index + 1; i < size; i++) a[i - 1] = a[i]]: the cells
    behind [index] are copied down, the last one stays. *)
Definition shift_down {A} (index size_ : nat) (l : list A) : list A :=
  foldl (fun l i => match l !! i with Some x => <[(i - 1)%nat := x]> l | None => l end) l (seq (index + 1) (size_ - (index + 1))).

(** ** [FIFO] *)

Section FIFO.
Context {T : Type}.

(** [rawSize] is the length of [raw]. *)
Record FIFO := { numberOfElements : Z; nextIn : Z; nextOut : Z; raw : list T }.

Definition FIFO_rawSize (f : FIFO) : Z := zlen (raw f).
Definition FIFO_count (f : FIFO) : Z := u32 (numberOfElements f).
Definition FIFO_flush (f : FIFO) : FIFO := {| numberOfElements := 0; nextIn := 0; nextOut := 0; raw := raw f |}.
Definition FIFO_new (raw_ : list T) : FIFO := FIFO_flush {| numberOfElements := 0; nextIn := 0; nextOut := 0; raw := raw_ |}.

Definition raw_at (f : FIFO) (i : Z) : option T := if 0 <=? i then raw f !! Z.to_nat i else None.

Definition FIFO_enqueue (element : T) (f : FIFO) : option (bool * FIFO) :=
  if FIFO_rawSize f <=? FIFO_count f then Some (false, f) else
  match raw_at f (nextIn f) with
  | None => None
  | Some _ =>
      let i := nextIn f + 1 in
      Some (true, {| numberOfElements := s32 (numberOfElements f + 1); nextIn := if FIFO_rawSize f <=? i then 0 else i; nextOut := nextOut f;
                     raw := <[Z.to_nat (nextIn f) := element]> (raw f) |})
  end.

(** There is no check that the queue has an element. *)
Definition FIFO_dequeue (f : FIFO) : option (T * FIFO) :=
  match raw_at f (nextOut f) with
  | None => None
  | Some item =>
      let i := nextOut f + 1 in
      Some (item, {| numberOfElements := s32 (numberOfElements f - 1); nextIn := nextIn f; nextOut := if FIFO_rawSize f <=? i then 0 else i; raw := raw f |})
  end.

Definition FIFO_peek (f : FIFO) : option T := raw_at f (nextOut f).

(** ** [ObjectQueue]: the checks a [FIFO] leaves out; [None] is the null pointer *)

Definition ObjectQueue_peek (f : FIFO) : option (option T) :=
  if negb (FIFO_count f =? 0) then match FIFO_peek f with Some x => Some (Some x) | None => None end else Some None.
Definition ObjectQueue_dequeue (f : FIFO) : option (option T * FIFO) :=
  if negb (FIFO_count f =? 0) then match FIFO_dequeue f with Some (x, f) => Some (Some x, f) | None => None end else Some (None, f).
End FIFO.
Arguments FIFO : clear implicits.

(** ** [FILO] *)

Section FILO.
Context {T : Type}.

Record FILO := { filo_count : Z; filo_raw : list T }.
Definition FILO_flush (f : FILO) : FILO := {| filo_count := 0; filo_raw := filo_raw f |}.
Definition FILO_push (element : T) (f : FILO) : bool * FILO :=
  if zlen (filo_raw f) <=? u32 (filo_count f) then (false, f) else
  (true, {| filo_count := filo_count f + 1; filo_raw := <[Z.to_nat (filo_count f) := element]> (filo_raw f) |}).
(** An empty stack gives whatever [raw[0]] holds. *)
Definition FILO_pop (f : FILO) : option (T * FILO) :=
  if 0 <? filo_count f then
    match filo_raw f !! Z.to_nat (filo_count f - 1) with
    | Some x => Some (x, {| filo_count := filo_count f - 1; filo_raw := filo_raw f |})
    | None => None
    end
  else match filo_raw f !! 0%nat with Some x => Some (x, f) | None => None end.
Definition FILO_peek (f : FILO) : option T :=
  if 0 <? filo_count f then filo_raw f !! Z.to_nat (filo_count f - 1) else filo_raw f !! 0%nat.
End FILO.
Arguments FILO : clear implicits.

(** ** [HashMap] *)

Section HashMap.
Context {K V : Type}.
(** The comparison of keys: [cb_comparator] if there is one, [==] otherwise;
    the values a new key and a new value cell hold. *)
Context (same : K -> K -> bool) (new_K : K) (new_V : V).

(** [keys] and [values] have [size] cells, of which [currentIndex] are used;
    a null pointer is the empty list. *)
Record HashMap := { keys : list K; values : list V; nil : V; currentIndex : Z; size : Z }.

(** The member [nil] of a new map: what the default constructor of [V] makes;
    a primitive one is not initialised and holds any value. *)
Definition HashMap_new (nil0 : V) : HashMap := {| keys := []; values := []; nil := nil0; currentIndex := 0; size := 0 |}.
Definition HashMap_count (h : HashMap) : Z := currentIndex h.

Fixpoint index_from (key : K) (ks : list K) (i : Z) : Z :=
  match ks with
  | [] => -1
  | k :: ks => if same key k then i else index_from key ks (i + 1)
  end.
Definition HashMap_indexOf (key : K) (h : HashMap) : Z := index_from key (take (Z.to_nat (currentIndex h)) (keys h)) 0.
Definition HashMap_contains (key : K) (h : HashMap) : bool := 0 <=? HashMap_indexOf key h.

(** [assert(idx < count())] *)
Definition HashMap_keyAt (idx : Z) (h : HashMap) : option K :=
  if idx <? HashMap_count h then keys h !! Z.to_nat idx else None.
Definition HashMap_valueAt (idx : Z) (h : HashMap) : option V :=
  if idx <? HashMap_count h then values h !! Z.to_nat idx else None.

(** [operator[] const] *)
Definition HashMap_get (key : K) (h : HashMap) : option V :=
  let i := HashMap_indexOf key h in
  if 0 <=? i then HashMap_valueAt i h else Some (nil h).

(** [new] is taken to succeed: the code has no path for a failure. *)
Definition HashMap_allocate (newSize : Z) (h : HashMap) : HashMap :=
  if newSize <=? size h then h else
  {| keys := take (Z.to_nat (size h)) (keys h) ++ replicate (Z.to_nat (newSize - size h)) new_K;
     values := take (Z.to_nat (size h)) (values h) ++ replicate (Z.to_nat (newSize - size h)) new_V;
     nil := nil h; currentIndex := currentIndex h; size := u16 newSize |}.

(** [operator[]]: the index of the value cell the reference is to. *)
Definition HashMap_at (key : K) (h : HashMap) : option (Z * HashMap) :=
  let i := HashMap_indexOf key h in
  if 0 <=? i then Some (i, h) else
  let h := if size h <=? currentIndex h then HashMap_allocate (currentIndex h + 1) h else h in
  let c := Z.to_nat (currentIndex h) in
  if (c <? length (keys h))%nat && (c <? length (values h))%nat then
    let h := {| keys := <[c := key]> (keys h); values := <[c := nil h]> (values h); nil := nil h;
                currentIndex := u16 (currentIndex h + 1); size := size h |} in
    Some (currentIndex h - 1, h)
  else None.

(** [map[key] = value] *)
Definition HashMap_set (key : K) (value : V) (h : HashMap) : option HashMap :=
  match HashMap_at key h with
  | None => None
  | Some (i, h) => Some {| keys := keys h; values := <[Z.to_nat i := value]> (values h); nil := nil h; currentIndex := currentIndex h; size := size h |}
  end.

Definition HashMap_removeAt (index : Z) (h : HashMap) : HashMap :=
  if currentIndex h <=? index then h else
  let sh {A} (l : list A) := shift_down (Z.to_nat index) (Z.to_nat (size h)) l in
  {| keys := sh (keys h); values := sh (values h); nil := nil h; currentIndex := u16 (currentIndex h - 1); size := size h |}.

Definition HashMap_remove (key : K) (h : HashMap) : HashMap :=
  let index := HashMap_indexOf key h in
  if 0 <=? index then HashMap_removeAt index h else h.

Definition HashMap_clear (h : HashMap) : HashMap := {| keys := []; values := []; nil := nil h; currentIndex := 0; size := 0 |}.

Fixpoint HashMap_setMultiple_loop (n : nat) (i : Z) (map h : HashMap) : option HashMap :=
  match n with
  | O => Some h
  | S n =>
      match HashMap_keyAt i map, HashMap_valueAt i map with
      | Some k, Some v => match HashMap_set k v h with Some h => HashMap_setMultiple_loop n (i + 1) map h | None => None end
      | _, _ => None
      end
  end.
Definition HashMap_setMultiple (map h : HashMap) : option HashMap := HashMap_setMultiple_loop (Z.to_nat (HashMap_count map)) 0 map h.

Definition HashMap_setNullValue (nullv : V) (h : HashMap) : HashMap :=
  {| keys := keys h; values := values h; nil := nullv; currentIndex := currentIndex h; size := size h |}.
End HashMap.
Arguments HashMap : clear implicits.

(** ** A queue refines a bounded list *)

Lemma mod_wrap x R : 0 <= x < 2 * R -> x mod R = if x <? R then x else x - R.
Proof.
  intros Hx. destruct (Z.ltb_spec x R); [apply Z.mod_small; lia|]. symmetry. apply (Z.mod_unique x R 1); lia.
Qed.

Section Queue.
Context {T : Type}.
Implicit Types (f : FIFO T) (l : list T).

(** The elements [l], the oldest at [nextOut]. *)
Record fifo_ok f l : Prop := {
  fo_size : 1 <= FIFO_rawSize f < 2 ^ 31;
  fo_count : numberOfElements f = zlen l;
  fo_fits : zlen l <= FIFO_rawSize f;
  fo_out : 0 <= nextOut f < FIFO_rawSize f;
  fo_in : nextIn f = (nextOut f + zlen l) mod FIFO_rawSize f;
  fo_elems i x : l !! i = Some x -> raw f !! Z.to_nat ((nextOut f + Z.of_nat i) mod FIFO_rawSize f) = Some x
}.

Lemma raw_at_run f i : 0 <= i < FIFO_rawSize f -> exists x, raw_at f i = Some x /\ raw f !! Z.to_nat i = Some x.
Proof.
  intros Hi. unfold raw_at. rewrite (proj2 (Z.leb_le _ _)) by lia. unfold FIFO_rawSize, zlen in Hi.
  destruct (lookup_lt_is_Some_2 (raw f) (Z.to_nat i)) as [x ->]; [lia|]. eauto.
Qed.

Lemma wrap_next i R : 0 <= i < R -> (if R <=? i + 1 then 0 else i + 1) = (i + 1) mod R.
Proof. intros Hi. rewrite mod_wrap by lia. destruct (Z.leb_spec R (i + 1)), (Z.ltb_spec (i + 1) R); lia. Qed.

Lemma s32_id x : - 2 ^ 31 <= x < 2 ^ 31 -> s32 x = x.
Proof. intros Hx. unfold s32. rewrite Z.mod_small; lia. Qed.

Lemma fifo_count_spec f l : fifo_ok f l -> FIFO_count f = zlen l.
Proof. intros K. unfold FIFO_count. rewrite (fo_count _ _ K). apply u32_small. unfold is_u32. pose proof (fo_fits _ _ K). pose proof (fo_size _ _ K). pose proof (zlen_nonneg l). lia. Qed.

Lemma fifo_enqueue_spec f l x : fifo_ok f l ->
  if zlen l <? FIFO_rawSize f then
    exists f', FIFO_enqueue x f = Some (true, f') /\ fifo_ok f' (l ++ [x]) /\ FIFO_rawSize f' = FIFO_rawSize f
  else FIFO_enqueue x f = Some (false, f).
Proof.
  intros K. unfold FIFO_enqueue. rewrite (fifo_count_spec f l K). destruct K as [K1 K2 K3 K4 K5 K6]. pose proof (zlen_nonneg l).
  destruct (Z.ltb_spec (zlen l) (FIFO_rawSize f)) as [Hl|Hl]; [|by rewrite (proj2 (Z.leb_le _ _)) by lia].
  rewrite (proj2 (Z.leb_gt _ _)) by lia. set (R := FIFO_rawSize f) in *.
  assert (0 <= nextIn f < R) as Hin by (rewrite K5; apply Z.mod_pos_bound; lia).
  destruct (raw_at_run f (nextIn f) Hin) as (y & -> & _).
  assert (forall g, raw g = <[Z.to_nat (nextIn f):=x]> (raw f) -> FIFO_rawSize g = R) as HR by (intros g Eg; unfold FIFO_rawSize, zlen; by rewrite Eg, length_insert).
  eexists. split; [done|]. split; [|by apply HR]. constructor; rewrite ?HR by done; cbn [numberOfElements nextIn nextOut raw]; rewrite ?zlen_app; change (zlen [x]) with 1; try lia.
  - rewrite s32_id; lia.
  - rewrite wrap_next by lia. rewrite K5, Z.add_mod_idemp_l by lia. f_equal. lia.
  - intros i y' Hy. destruct (decide (i = length l)) as [->|Hne].
    + rewrite lookup_app_r, Nat.sub_diag in Hy by lia. injection Hy as <-. fold (zlen l). rewrite <- K5.
      apply list_lookup_insert_eq. unfold R, FIFO_rawSize, zlen in *. lia.
    + assert (i < length l)%nat as Hil by (apply lookup_lt_Some in Hy; rewrite length_app in Hy; cbn in Hy; lia).
      rewrite lookup_app_l in Hy by done. rewrite list_lookup_insert_ne; [by apply K6|]. rewrite K5, !mod_wrap by (unfold zlen in *; lia). unfold zlen in *.
      destruct (Z.ltb_spec (nextOut f + Z.of_nat (length l)) R), (Z.ltb_spec (nextOut f + Z.of_nat i) R); lia.
Qed.

Lemma fifo_peek_spec f x l : fifo_ok f (x :: l) -> FIFO_peek f = Some x.
Proof.
  intros [K1 K2 K3 K4 K5 K6]. unfold FIFO_peek. destruct (raw_at_run f (nextOut f) K4) as (y & -> & E). specialize (K6 0%nat x eq_refl).
  rewrite Z.add_0_r, Z.mod_small in K6 by lia. congruence.
Qed.

Lemma fifo_dequeue_spec f x l : fifo_ok f (x :: l) -> exists f', FIFO_dequeue f = Some (x, f') /\ fifo_ok f' l /\ FIFO_rawSize f' = FIFO_rawSize f.
Proof.
  intros K. pose proof (fifo_peek_spec f x l K) as Hp. unfold FIFO_dequeue, FIFO_peek in *. rewrite Hp. destruct K as [K1 K2 K3 K4 K5 K6].
  eexists. split; [done|]. split; [|done]. assert (zlen (x :: l) = 1 + zlen l) as Ez by (unfold zlen; cbn [length]; lia). rewrite Ez in *. pose proof (zlen_nonneg l).
  set (R := FIFO_rawSize f) in *.
  constructor; match goal with |- context [FIFO_rawSize ?g] => change (FIFO_rawSize g) with R | _ => idtac end; cbn [numberOfElements nextIn nextOut raw]; try lia.
  - rewrite s32_id; lia.
  - rewrite wrap_next by lia. apply Z.mod_pos_bound. lia.
  - rewrite wrap_next by lia. rewrite Z.add_mod_idemp_l by lia. rewrite K5. f_equal. lia.
  - intros i y Hy. rewrite wrap_next by lia. rewrite Z.add_mod_idemp_l by lia. specialize (K6 (S i) y Hy).
    by replace (nextOut f + 1 + Z.of_nat i) with (nextOut f + Z.of_nat (S i)) by lia.
Qed.

Lemma fifo_flush_spec f l : fifo_ok f l -> fifo_ok (FIFO_flush f) [] /\ FIFO_rawSize (FIFO_flush f) = FIFO_rawSize f.
Proof. intros [K1 K2 K3 K4 K5 K6]. split; [|done]. constructor; try done; cbn; unfold FIFO_rawSize, zlen in *; cbn in *; lia. Qed.

(** *** Sequences of operations *)

Inductive q_op := Enqueue (x : T) | Dequeue | Peek | Count | Flush.
Inductive q_reply := QBool (b : bool) | QItem (x : option T) | QCount (n : Z) | QDone.

Definition list_step (cap : Z) (op : q_op) (l : list T) : q_reply * list T :=
  match op with
  | Enqueue x => if zlen l <? cap then (QBool true, l ++ [x]) else (QBool false, l)
  | Dequeue => (QItem (head l), tail l)
  | Peek => (QItem (head l), l)
  | Count => (QCount (zlen l), l)
  | Flush => (QDone, [])
  end.
Definition ObjectQueue_step (op : q_op) (f : FIFO T) : option (q_reply * FIFO T) :=
  match op with
  | Enqueue x => match FIFO_enqueue x f with Some (b, f) => Some (QBool b, f) | None => None end
  | Dequeue => match ObjectQueue_dequeue f with Some (x, f) => Some (QItem x, f) | None => None end
  | Peek => match ObjectQueue_peek f with Some x => Some (QItem x, f) | None => None end
  | Count => Some (QCount (FIFO_count f), f)
  | Flush => Some (QDone, FIFO_flush f)
  end.
Fixpoint list_run (cap : Z) (ops : list q_op) (l : list T) : list q_reply * list T :=
  match ops with
  | [] => ([], l)
  | op :: ops => let '(r, l) := list_step cap op l in let '(rs, l) := list_run cap ops l in (r :: rs, l)
  end.
Fixpoint ObjectQueue_run (ops : list q_op) (f : FIFO T) : option (list q_reply * FIFO T) :=
  match ops with
  | [] => Some ([], f)
  | op :: ops =>
      match ObjectQueue_step op f with
      | Some (r, f) => match ObjectQueue_run ops f with Some (rs, f) => Some (r :: rs, f) | None => None end
      | None => None
      end
  end.

Lemma queue_step_refines f l op : fifo_ok f l ->
  exists f', ObjectQueue_step op f = Some (fst (list_step (FIFO_rawSize f) op l), f') /\
    fifo_ok f' (snd (list_step (FIFO_rawSize f) op l)) /\ FIFO_rawSize f' = FIFO_rawSize f.
Proof.
  intros K. destruct op as [x| | | |]; cbn [ObjectQueue_step list_step].
  - pose proof (fifo_enqueue_spec f l x K) as E. destruct (_ <? _); [destruct E as (f' & -> & E)|rewrite E]; eauto.
  - unfold ObjectQueue_dequeue. rewrite (fifo_count_spec f l K). destruct l as [|x l]; [eauto|].
    assert ((zlen (x :: l) =? 0) = false) as -> by (apply Z.eqb_neq; unfold zlen; cbn; lia). cbn [negb].
    destruct (fifo_dequeue_spec f x l K) as (f' & -> & E). eauto.
  - unfold ObjectQueue_peek. rewrite (fifo_count_spec f l K). destruct l as [|x l]; [eauto|].
    assert ((zlen (x :: l) =? 0) = false) as -> by (apply Z.eqb_neq; unfold zlen; cbn; lia). cbn [negb].
    rewrite (fifo_peek_spec f x l K). eauto.
  - rewrite (fifo_count_spec f l K). eauto.
  - destruct (fifo_flush_spec f l K). eauto.
Qed.

Lemma queue_run_refines ops : forall f l, fifo_ok f l ->
  exists f', ObjectQueue_run ops f = Some (fst (list_run (FIFO_rawSize f) ops l), f') /\ fifo_ok f' (snd (list_run (FIFO_rawSize f) ops l)).
Proof.
  induction ops as [|op ops IH]; intros f l K; [by exists f|]. cbn [ObjectQueue_run list_run].
  destruct (queue_step_refines f l op K) as (f1 & -> & K1 & ER). destruct (IH f1 _ K1) as (f2 & E2 & K2). rewrite ER in *.
  destruct (list_step _ op l) as [r l1]. cbn [fst snd] in *. rewrite E2. destruct (list_run _ ops l1) as [rs l2]. eauto.
Qed.
End Queue.
Arguments q_op : clear implicits.
Arguments q_reply : clear implicits.

(** An [ObjectQueue] is a first-in first-out queue of at most [rawSize]
    elements, whatever its array held before: for every sequence of
    enqueue, dequeue, peek, count and flush calls each reply is that of a list
    bounded by [rawSize], an empty queue gives null pointers, and no access
    leaves the array. *)
Theorem object_queue_refines {T : Type} (raw_ : list T) (ops : list (q_op T)) :
  1 <= zlen raw_ < 2 ^ 31 ->
  exists f, ObjectQueue_run ops (FIFO_new raw_) = Some (fst (list_run (zlen raw_) ops []), f) /\ fifo_ok f (snd (list_run (zlen raw_) ops [])).
Proof.
  intros Hr. apply (queue_run_refines ops (FIFO_new raw_)). constructor; try done; cbn; unfold FIFO_rawSize, zlen in *; cbn; lia.
Qed.

Example object_queue_refines_witness :
  let ops := [Enqueue 1; Enqueue 2; Enqueue 3; Dequeue; Enqueue 4; Count; Dequeue; Peek; Dequeue; Dequeue] in
  fst (list_run 2 ops []) =
    [QBool true; QBool true; QBool false; QItem (Some 1); QBool true; QCount 2; QItem (Some 2); QItem (Some 4); QItem (Some 4); QItem None] /\
  exists f, ObjectQueue_run ops (FIFO_new [0; 0]) = Some (fst (list_run 2 ops []), f) /\ fifo_ok f (snd (list_run 2 ops [])).
Proof. split; [reflexivity|]. apply (object_queue_refines [0; 0]). unfold zlen. cbn. lia. Defined.

(** [FIFO::dequeue] on an empty queue makes the count negative, which is a
    large unsigned count: the queue refuses every element from then on. *)
Example fifo_underflow_blocks :
  match FIFO_dequeue (FIFO_new [0; 0; 0]) with
  | Some (_, f) => numberOfElements f = -1 /\ FIFO_count f = 2 ^ 32 - 1 /\ FIFO_enqueue 7 f = Some (false, f)
  | None => False
  end.
Proof. repeat split. Qed.

(** ** A [HashMap] refines a finite map

    The comparison of keys decides equality of [canon], which is the identity
    for [==] and, for instance, lower-casing for a comparison that ignores
    case. *)

Section Map.
Context {K V C : Type} `{Countable C}.
Context (same : K -> K -> bool) (canon : K -> C) (new_K : K) (new_V : V).
Hypothesis same_canon : forall a b, same a b = true <-> canon a = canon b.
Implicit Types (h : HashMap K V) (l : list (K * V)).

(** The entries in use. *)
Record hm_ok h l : Prop := {
  ho_keys : size h = zlen (keys h);
  ho_values : size h = zlen (values h);
  ho_size : size h < 2 ^ 16;
  ho_index : currentIndex h = zlen l;
  ho_fits : zlen l <= size h;
  ho_k : take (length l) (keys h) = l.*1;
  ho_v : take (length l) (values h) = l.*2;
  ho_nodup : NoDup (canon <$> l.*1)
}.
Definition to_map l : gmap C V := list_to_map ((fun e => (canon e.1, e.2)) <$> l).

Lemma same_false a b : same a b = false <-> canon a <> canon b.
Proof. rewrite <- same_canon. by destruct (same a b). Qed.

(** The index of the first key that matches. *)
Lemma index_from_spec k l : forall i,
  (index_from same k l.*1 i = -1 /\ canon k ∉ (canon <$> l.*1)) \/
  (exists l1 k' v' l2, l = l1 ++ (k', v') :: l2 /\ canon k' = canon k /\ (canon k ∉ (canon <$> l1.*1)) /\ index_from same k l.*1 i = i + zlen l1).
Proof.
  induction l as [|[k' v'] l IH]; intros i; cbn; [left; split; [done|apply not_elem_of_nil]|].
  destruct (same k k') eqn:E.
  - right. exists [], k', v', l. apply same_canon in E. split; [done|]. split; [done|]. split; [apply not_elem_of_nil|]. unfold zlen. cbn. lia.
  - apply same_false in E. destruct (IH (i + 1)) as [[-> Hn]|(l1 & k1 & v1 & l2 & -> & E1 & Hn & ->)].
    + left. split; [done|]. by apply not_elem_of_cons.
    + right. exists ((k', v') :: l1), k1, v1, l2. split; [done|]. split; [done|]. split; [cbn; by apply not_elem_of_cons|]. unfold zlen. cbn. lia.
Qed.

Lemma hm_indexOf h l k : hm_ok h l -> HashMap_indexOf same k h = index_from same k l.*1 0.
Proof. intros [K1 K2 K3 K4 K5 K6 K7 K8]. unfold HashMap_indexOf. rewrite K4. unfold zlen. by rewrite Nat2Z.id, K6. Qed.

(** Lookups in the map of the entries. *)
Lemma canon_keys l : ((fun e => (canon e.1, e.2)) <$> l).*1 = canon <$> l.*1.
Proof. induction l as [|e l IH]; [done|]. cbn. by f_equal. Qed.

Lemma to_map_none l k : k ∉ (canon <$> l.*1) -> to_map l !! k = None.
Proof. intros Hk. apply not_elem_of_list_to_map_1. by rewrite canon_keys. Qed.

Lemma to_map_app l1 k v l2 : canon k ∉ (canon <$> l1.*1) -> to_map (l1 ++ (k, v) :: l2) !! canon k = Some v.
Proof.
  intros Hn. unfold to_map. rewrite fmap_app, list_to_map_app. cbn. rewrite lookup_union_r by by apply to_map_none. by rewrite lookup_insert_eq.
Qed.

Lemma to_map_set l1 k k' v v' l2 : canon k' = canon k -> canon k ∉ (canon <$> l1.*1) ->
  to_map (l1 ++ (k', v) :: l2) = <[canon k := v]> (to_map (l1 ++ (k', v') :: l2)).
Proof.
  intros E Hn. unfold to_map. rewrite !fmap_app, !list_to_map_app. cbn. rewrite E. rewrite insert_union_r by by apply to_map_none.
  by rewrite insert_insert_eq.
Qed.

Lemma to_map_snoc l k v : canon k ∉ (canon <$> l.*1) -> to_map (l ++ [(k, v)]) = <[canon k := v]> (to_map l).
Proof.
  intros Hn. unfold to_map. rewrite fmap_app, list_to_map_app. cbn. rewrite <- insert_union_r by by apply to_map_none. by rewrite map_union_empty.
Qed.

Lemma to_map_delete l1 k k' v' l2 : canon k' = canon k -> NoDup (canon <$> (l1 ++ (k', v') :: l2).*1) -> to_map (l1 ++ l2) = delete (canon k) (to_map (l1 ++ (k', v') :: l2)).
Proof.
  intros E Hd. rewrite !fmap_app in Hd. cbn in Hd. rewrite E in Hd. apply NoDup_app in Hd as (_ & Hd1 & Hd2). apply NoDup_cons in Hd2 as [Hn2 _].
  assert (canon k ∉ (canon <$> l1.*1)) as Hn1 by (intros Hk; apply (Hd1 _ Hk), elem_of_cons; by left).
  unfold to_map. rewrite !fmap_app, !list_to_map_app. cbn. rewrite E. rewrite delete_union, delete_insert_eq.
  rewrite !delete_id by by apply to_map_none. done.
Qed.

Lemma to_map_size l : NoDup (canon <$> l.*1) -> base.size (to_map l) = length l.
Proof. intros Hd. unfold to_map. rewrite map_size_list_to_map by by rewrite canon_keys. apply length_fmap. Qed.

(** *** Cells copied down *)

Lemma shift_lookup {A} (l : list A) j m : forall i, (j + 1 + m <= length l)%nat ->
  let r := foldl (fun c i => match c !! i with Some x => <[(i - 1)%nat := x]> c | None => c end) l (seq (j + 1) m) in
  length r = length l /\ r !! i = if decide (j <= i < j + m)%nat then l !! (S i) else l !! i.
Proof.
  induction m as [|m IH]; intros i Hm.
  - cbn. split; [done|]. destruct (decide _); [lia|done].
  - rewrite seq_S, foldl_app. cbn [foldl]. pose proof (IH i ltac:(lia)) as [IL Ii]. pose proof (IH (j + 1 + m)%nat ltac:(lia)) as [_ Ij].
    set (r := foldl _ l (seq (j + 1) m)) in *. cbv zeta. destruct (decide (j <= j + 1 + m < j + m)%nat); [lia|].
    destruct (lookup_lt_is_Some_2 l (j + 1 + m)) as [x Hx]; [lia|]. rewrite Ij, Hx. split; [by rewrite length_insert|].
    destruct (decide (i = (j + m)%nat)) as [->|Hne].
    + replace (j + 1 + m - 1)%nat with (j + m)%nat by lia. rewrite list_lookup_insert_eq by lia. rewrite decide_True by lia.
      rewrite <- Hx. f_equal. lia.
    + rewrite list_lookup_insert_ne by lia. rewrite Ii. destruct (decide (j <= i < j + m)%nat), (decide (j <= i < j + S m)%nat); lia || done.
Qed.

Lemma shift_take {A} (l l1 l2 : list A) x n m : take n l = l1 ++ x :: l2 -> (n <= m)%nat -> (m <= length l)%nat -> n = (length l1 + S (length l2))%nat ->
  length (shift_down (length l1) m l) = length l /\
  take (n - 1) (shift_down (length l1) m l) = l1 ++ l2.
Proof.
  intros Et Hn Hm En. unfold shift_down. pose proof (fun i => shift_lookup l (length l1) (m - (length l1 + 1)) i ltac:(lia)) as Hs. cbv zeta in Hs.
  split; [apply (Hs 0%nat)|]. apply list_eq. intros i. destruct (decide (i < n - 1)%nat) as [Hi|Hi].
  - rewrite lookup_take_lt by done. destruct (Hs i) as [_ ->]. destruct (decide _) as [Hc|Hc].
    + rewrite <- (lookup_take_lt l n (S i)) by lia. rewrite Et, !lookup_app_r by lia. by replace (S i - length l1)%nat with (S (i - length l1)) by lia.
    + rewrite <- (lookup_take_lt l n i) by lia. rewrite Et, !lookup_app_l by lia. done.
  - rewrite lookup_take_ge by lia. symmetry. apply lookup_ge_None_2. rewrite length_app. lia.
Qed.

(** *** The operations on the entries *)

Lemma hm_at_found h l1 k k' v' l2 : hm_ok h (l1 ++ (k', v') :: l2) -> canon k' = canon k -> index_from same k (l1 ++ (k', v') :: l2).*1 0 = zlen l1 ->
  HashMap_at same new_K new_V k h = Some (zlen l1, h).
Proof.
  intros Hh E Ei. unfold HashMap_at. rewrite (hm_indexOf h _ k Hh), Ei. by rewrite (proj2 (Z.leb_le _ _)) by apply zlen_nonneg.
Qed.

Lemma zlen_one {A} (x : A) : zlen (replicate 1 x) = 1.
Proof. done. Qed.

(** Room for one more entry. *)
Lemma hm_allocate h l : hm_ok h l -> zlen l < 2 ^ 16 - 1 ->
  let h' := if size h <=? currentIndex h then HashMap_allocate new_K new_V (currentIndex h + 1) h else h in
  hm_ok h' l /\ zlen l < size h' /\ nil h' = nil h.
Proof.
  intros Hh Hl. pose proof Hh as [K1 K2 K3 K4 K5 K6 K7 K8]. cbv zeta. destruct (Z.leb_spec (size h) (currentIndex h)) as [Hle|Hgt]; [|split; [done|split; [lia|done]]].
  unfold HashMap_allocate. rewrite (proj2 (Z.leb_gt _ _)) by lia. pose proof (zlen_nonneg l).
  rewrite !take_ge by (unfold zlen in *; lia). replace (currentIndex h + 1 - size h) with 1 by lia. change (Z.to_nat 1) with 1%nat.
  assert (u16 (currentIndex h + 1) = zlen l + 1) as Eu by (rewrite K4; apply Z.mod_small; lia).
  split; [|cbn; split; [lia|done]]. constructor; cbn [keys values size currentIndex]; rewrite ?Eu, ?zlen_app, ?zlen_one; try lia; try done.
  - rewrite take_app_le by (unfold zlen in *; lia). done.
  - rewrite take_app_le by (unfold zlen in *; lia). done.
Qed.

Lemma take_insert_snoc {A} (x : A) (c : list A) n : (n < length c)%nat -> take (S n) (<[n := x]> c) = take n c ++ [x].
Proof.
  intros Hn. rewrite (take_S_r _ _ x) by (by apply list_lookup_insert_eq). f_equal. by rewrite take_insert_ge.
Qed.

Lemma hm_at_new h l k : hm_ok h l -> zlen l < 2 ^ 16 - 1 -> canon k ∉ (canon <$> l.*1) -> index_from same k l.*1 0 = -1 ->
  exists h', HashMap_at same new_K new_V k h = Some (zlen l, h') /\ hm_ok h' (l ++ [(k, nil h)]) /\ nil h' = nil h.
Proof.
  intros Hh Hl Hn Ei. unfold HashMap_at. rewrite (hm_indexOf h l k Hh), Ei. cbn [Z.leb Z.compare].
  destruct (hm_allocate h l Hh Hl) as (Hh1 & Hs & En). set (h1 := if size h <=? currentIndex h then HashMap_allocate new_K new_V (currentIndex h + 1) h else h) in *. destruct Hh1 as [K1 K2 K3 K4 K5 K6 K7 K8]. pose proof (zlen_nonneg l).
  rewrite K4. replace (Z.to_nat (zlen l)) with (length l) by (unfold zlen; lia).
  rewrite !(proj2 (Nat.ltb_lt _ _)) by (unfold zlen in *; lia). cbn [andb].
  assert (u16 (zlen l + 1) = zlen l + 1) as Eu by (apply Z.mod_small; lia). eexists. split; [cbn [currentIndex]; rewrite Eu; repeat f_equal; lia|].
  split; [|done]. assert (length (l ++ [(k, nil h)]) = S (length l)) as El by (rewrite length_app; cbn; lia).
  constructor; cbn [keys values size currentIndex]; rewrite ?zlen_app; try change (zlen [(k, nil h)]) with 1; rewrite ?El.
  - rewrite K1. unfold zlen. by rewrite length_insert.
  - rewrite K2. unfold zlen. by rewrite length_insert.
  - done.
  - done.
  - lia.
  - rewrite take_insert_snoc by (unfold zlen in *; lia). by rewrite K6, fmap_app.
  - rewrite take_insert_snoc by (unfold zlen in *; lia). by rewrite K7, fmap_app, En.
  - rewrite !fmap_app. apply NoDup_app. split; [done|]. split; [|apply NoDup_singleton]. intros c Hc Hc'. cbn in Hc'. apply list_elem_of_singleton in Hc' as ->. done.
Qed.

(** The value cell at [i] assigned. *)
Lemma hm_assign h l1 k v v' l2 : hm_ok h (l1 ++ (k, v') :: l2) ->
  hm_ok {| keys := keys h; values := <[Z.to_nat (zlen l1) := v]> (values h); nil := nil h; currentIndex := currentIndex h; size := size h |} (l1 ++ (k, v) :: l2).
Proof.
  intros [K1 K2 K3 K4 K5 K6 K7 K8]. assert (length (l1 ++ (k, v) :: l2) = length (l1 ++ (k, v') :: l2)) as El by (rewrite !length_app; done).
  rewrite !fmap_app in *. cbn in *. constructor; cbn [keys values size currentIndex]; rewrite ?El, ?fmap_app; unfold zlen in *; rewrite ?El, ?length_insert; try done.
  rewrite Nat2Z.id, take_insert_lt by (rewrite length_app; cbn; lia). rewrite K7, insert_app_r_alt by (rewrite length_fmap; lia).
  by rewrite length_fmap, Nat.sub_diag.
Qed.

Lemma hm_set_spec h l k v : hm_ok h l -> zlen l < 2 ^ 16 - 1 ->
  exists h' l', HashMap_set same new_K new_V k v h = Some h' /\ hm_ok h' l' /\ nil h' = nil h /\ zlen l' <= zlen l + 1 /\ to_map l' = <[canon k := v]> (to_map l).
Proof.
  intros Hh Hl. unfold HashMap_set. destruct (index_from_spec k l 0) as [[Ei Hn]|(l1 & k' & v' & l2 & -> & E & Hn & Ei)].
  - destruct (hm_at_new h l k Hh Hl Hn Ei) as (h1 & -> & Hh1 & En). eexists _, (l ++ [(k, v)]). split; [done|].
    split; [by apply hm_assign with (v' := nil h) (l2 := [])|]. split; [done|]. rewrite zlen_app. split; [done|]. by apply to_map_snoc.
  - rewrite Z.add_0_l in Ei. rewrite (hm_at_found h l1 k k' v' l2 Hh E Ei). eexists _, (l1 ++ (k', v) :: l2). split; [done|].
    split; [by apply hm_assign with (v' := v')|]. split; [done|]. split; [rewrite !zlen_app; unfold zlen; cbn; lia|]. by apply to_map_set.
Qed.

Lemma hm_value_at h l1 k v l2 : hm_ok h (l1 ++ (k, v) :: l2) -> values h !! length l1 = Some v.
Proof.
  intros [K1 K2 K3 K4 K5 K6 K7 K8]. rewrite <- (lookup_take_lt (values h) (length (l1 ++ (k, v) :: l2))) by (rewrite length_app; cbn; lia).
  rewrite K7, fmap_app, lookup_app_r by (rewrite length_fmap; lia). by rewrite length_fmap, Nat.sub_diag.
Qed.

Lemma hm_get_spec h l k : hm_ok h l -> HashMap_get same k h = Some (default (nil h) (to_map l !! canon k)).
Proof.
  intros Hh. unfold HashMap_get. rewrite (hm_indexOf h l k Hh). destruct (index_from_spec k l 0) as [[-> Hn]|(l1 & k' & v' & l2 & -> & E & Hn & ->)].
  - by rewrite (to_map_none l (canon k) Hn).
  - pose proof (zlen_nonneg l1). rewrite Z.add_0_l, (proj2 (Z.leb_le _ _)) by lia. rewrite <- E in *. rewrite to_map_app by done.
    unfold HashMap_valueAt, HashMap_count. rewrite (ho_index _ _ Hh). rewrite (proj2 (Z.ltb_lt _ _)) by (rewrite zlen_app; unfold zlen; cbn; lia).
    unfold zlen. rewrite Nat2Z.id. by rewrite (hm_value_at h l1 k' v' l2 Hh).
Qed.

Lemma hm_contains_spec h l k : hm_ok h l -> HashMap_contains same k h = bool_decide (is_Some (to_map l !! canon k)).
Proof.
  intros Hh. unfold HashMap_contains. rewrite (hm_indexOf h l k Hh). destruct (index_from_spec k l 0) as [[-> Hn]|(l1 & k' & v' & l2 & -> & E & Hn & ->)].
  - rewrite (to_map_none l (canon k) Hn). symmetry. apply bool_decide_false. intros [? ?]. done.
  - pose proof (zlen_nonneg l1). rewrite (proj2 (Z.leb_le _ _)) by lia. rewrite <- E in *. rewrite to_map_app by done. symmetry. by apply bool_decide_true.
Qed.

Lemma hm_remove_spec h l k : hm_ok h l ->
  exists l', hm_ok (HashMap_remove same k h) l' /\ nil (HashMap_remove same k h) = nil h /\ zlen l' <= zlen l /\ to_map l' = delete (canon k) (to_map l).
Proof.
  intros Hh. unfold HashMap_remove. rewrite (hm_indexOf h l k Hh). destruct (index_from_spec k l 0) as [[-> Hn]|(l1 & k' & v' & l2 & -> & E & Hn & ->)].
  { exists l. split; [done|]. split; [done|]. split; [lia|]. rewrite delete_id; [done|]. by apply to_map_none. }
  pose proof (zlen_nonneg l1). rewrite Z.add_0_l, (proj2 (Z.leb_le _ _)) by lia. exists (l1 ++ l2). unfold HashMap_removeAt.
  pose proof Hh as [K1 K2 K3 K4 K5 K6 K7 K8]. assert (zlen (l1 ++ (k', v') :: l2) = zlen l1 + 1 + zlen l2) as Ez by (rewrite zlen_app; unfold zlen; cbn; lia).
  assert (zlen (l1 ++ l2) = zlen l1 + zlen l2) as Ez' by apply zlen_app. pose proof (zlen_nonneg l2). rewrite Ez in *.
  rewrite (proj2 (Z.leb_gt _ _)) by lia. replace (Z.to_nat (zlen l1)) with (length l1) by (unfold zlen; lia).
  replace (Z.to_nat (size h)) with (length (keys h)) by (unfold zlen in *; lia).
  rewrite fmap_app in K6. rewrite fmap_app in K7. cbn in K6, K7.
  destruct (shift_take (keys h) l1.*1 l2.*1 k' _ (length (keys h)) K6) as [Sk1 Sk2]; [rewrite length_app; unfold zlen in *; cbn; lia|done|rewrite length_app, !length_fmap; done|].
  destruct (shift_take (values h) l1.*2 l2.*2 v' _ (length (values h)) K7) as [Sv1 Sv2]; [rewrite length_app; unfold zlen in *; cbn; lia|done|rewrite length_app, !length_fmap; done|].
  rewrite !length_fmap in *. assert (length (values h) = length (keys h)) as Elen by (unfold zlen in *; lia). rewrite Elen in *.
  assert ((length (l1 ++ (k', v') :: l2) - 1)%nat = length (l1 ++ l2)) as En by (rewrite !length_app; cbn; lia). rewrite En in *.
  split; [|split; [done|split; [lia|by apply to_map_delete]]].
  constructor; cbn [keys values size currentIndex]; rewrite ?Ez'.
  - unfold zlen. rewrite Sk1. unfold zlen in *. lia.
  - unfold zlen. rewrite Sv1. unfold zlen in *. lia.
  - done.
  - rewrite K4. unfold u16. rewrite Z.mod_small; lia.
  - lia.
  - by rewrite Sk2, fmap_app.
  - by rewrite Sv2, fmap_app.
  - rewrite !fmap_app in *. cbn in K8. apply NoDup_app in K8 as (D1 & D2 & D3). apply NoDup_cons in D3 as [_ D3]. apply NoDup_app. split; [done|].
    split; [|done]. intros c Hc1 Hc2. apply (D2 c Hc1). by apply elem_of_cons; right.
Qed.

(** [operator[]] for reading: a key that is not there is added with [nil]. *)
Definition HashMap_index (k : K) (h : HashMap K V) : option (V * HashMap K V) :=
  match HashMap_at same new_K new_V k h with
  | None => None
  | Some (i, h) => match values h !! Z.to_nat i with Some v => Some (v, h) | None => None end
  end.

Lemma hm_index_spec h l k : hm_ok h l -> zlen l < 2 ^ 16 - 1 ->
  exists h' l', HashMap_index k h = Some (default (nil h) (to_map l !! canon k), h') /\ hm_ok h' l' /\ nil h' = nil h /\ zlen l' <= zlen l + 1 /\
    to_map l' = match to_map l !! canon k with Some _ => to_map l | None => <[canon k := nil h]> (to_map l) end.
Proof.
  intros Hh Hl. unfold HashMap_index. destruct (index_from_spec k l 0) as [[Ei Hn]|(l1 & k' & v' & l2 & -> & E & Hn & Ei)].
  - destruct (hm_at_new h l k Hh Hl Hn Ei) as (h1 & -> & Hh1 & En). unfold zlen at 1. rewrite Nat2Z.id, (hm_value_at h1 l k (nil h) [] Hh1).
    rewrite (to_map_none l (canon k) Hn). exists h1, (l ++ [(k, nil h)]). split; [done|]. split; [done|]. split; [done|].
    rewrite zlen_app. split; [done|]. by apply to_map_snoc.
  - rewrite Z.add_0_l in Ei. rewrite (hm_at_found h l1 k k' v' l2 Hh E Ei). unfold zlen at 1. rewrite Nat2Z.id, (hm_value_at h l1 k' v' l2 Hh).
    rewrite <- E in *. rewrite to_map_app by done. exists h, (l1 ++ (k', v') :: l2). split; [done|]. split; [done|]. split; [done|]. split; [lia|done].
Qed.

(** *** Sequences of operations *)

Inductive m_op := MSet (k : K) (v : V) | MGet (k : K) | MIndex (k : K) | MRemove (k : K) | MContains (k : K) | MCount | MClear.
Inductive m_reply := RValue (v : V) | RBool (b : bool) | RCount (n : Z) | RDone.

Definition map_step (nil_ : V) (op : m_op) (m : gmap C V) : m_reply * gmap C V :=
  match op with
  | MSet k v => (RDone, <[canon k := v]> m)
  | MGet k => (RValue (default nil_ (m !! canon k)), m)
  | MIndex k => (RValue (default nil_ (m !! canon k)), match m !! canon k with Some _ => m | None => <[canon k := nil_]> m end)
  | MRemove k => (RDone, delete (canon k) m)
  | MContains k => (RBool (bool_decide (is_Some (m !! canon k))), m)
  | MCount => (RCount (Z.of_nat (base.size m)), m)
  | MClear => (RDone, ∅)
  end.
Definition HashMap_step (op : m_op) (h : HashMap K V) : option (m_reply * HashMap K V) :=
  match op with
  | MSet k v => match HashMap_set same new_K new_V k v h with Some h => Some (RDone, h) | None => None end
  | MGet k => match HashMap_get same k h with Some v => Some (RValue v, h) | None => None end
  | MIndex k => match HashMap_index k h with Some (v, h) => Some (RValue v, h) | None => None end
  | MRemove k => Some (RDone, HashMap_remove same k h)
  | MContains k => Some (RBool (HashMap_contains same k h), h)
  | MCount => Some (RCount (HashMap_count h), h)
  | MClear => Some (RDone, HashMap_clear h)
  end.
Fixpoint map_run (nil_ : V) (ops : list m_op) (m : gmap C V) : list m_reply * gmap C V :=
  match ops with
  | [] => ([], m)
  | op :: ops => let '(r, m) := map_step nil_ op m in let '(rs, m) := map_run nil_ ops m in (r :: rs, m)
  end.
Fixpoint HashMap_run (ops : list m_op) (h : HashMap K V) : option (list m_reply * HashMap K V) :=
  match ops with
  | [] => Some ([], h)
  | op :: ops =>
      match HashMap_step op h with
      | Some (r, h) => match HashMap_run ops h with Some (rs, h) => Some (r :: rs, h) | None => None end
      | None => None
      end
  end.

Lemma hm_clear_spec h l : hm_ok h l -> hm_ok (HashMap_clear h) [].
Proof. intros _. constructor; try done. apply NoDup_nil_2. Qed.

Lemma map_step_refines h l op : hm_ok h l -> zlen l < 2 ^ 16 - 1 ->
  exists h' l', HashMap_step op h = Some (fst (map_step (nil h) op (to_map l)), h') /\ hm_ok h' l' /\ nil h' = nil h /\ zlen l' <= zlen l + 1 /\
    to_map l' = snd (map_step (nil h) op (to_map l)).
Proof.
  intros Hh Hl. destruct op as [k v|k|k|k|k| |]; cbn [HashMap_step map_step fst snd].
  - destruct (hm_set_spec h l k v Hh Hl) as (h' & l' & -> & R). eauto.
  - rewrite (hm_get_spec h l k Hh). exists h, l. repeat (split; [done || lia|]). done.
  - destruct (hm_index_spec h l k Hh Hl) as (h' & l' & -> & R). eauto.
  - destruct (hm_remove_spec h l k Hh) as (l' & R1 & R2 & R3 & R4). eexists _, l'. split; [done|]. split; [done|]. split; [done|]. split; [lia|done].
  - rewrite (hm_contains_spec h l k Hh). exists h, l. repeat (split; [done || lia|]). done.
  - unfold HashMap_count. rewrite (ho_index _ _ Hh), (to_map_size l (ho_nodup _ _ Hh)). exists h, l. repeat (split; [done || lia|]). done.
  - eexists _, []. split; [done|]. split; [by apply (hm_clear_spec h l)|]. split; [done|]. pose proof (zlen_nonneg l). split; [change (zlen (@Datatypes.nil (K * V))) with 0; lia|done].
Qed.

Lemma map_run_refines ops : forall h l, hm_ok h l -> zlen l + zlen ops < 2 ^ 16 ->
  exists h' l', HashMap_run ops h = Some (fst (map_run (nil h) ops (to_map l)), h') /\ hm_ok h' l' /\ to_map l' = snd (map_run (nil h) ops (to_map l)).
Proof.
  induction ops as [|op ops IH]; intros h l Hh Hb; [exists h, l; done|]. assert (zlen (op :: ops) = 1 + zlen ops) as Ez by (unfold zlen; cbn [length]; lia).
  rewrite Ez in Hb. pose proof (zlen_nonneg ops). cbn [HashMap_run map_run]. destruct (map_step_refines h l op Hh ltac:(lia)) as (h1 & l1 & -> & H1 & N1 & Z1 & M1).
  destruct (IH h1 l1 H1 ltac:(lia)) as (h2 & l2 & E2 & H2 & M2). rewrite N1, M1 in *. destruct (map_step _ op _) as [r m]. cbn [fst snd] in *.
  rewrite E2. destruct (map_run _ ops m) as [rs m']. eauto.
Qed.

(** C26. A [HashMap] is a finite map up to its key comparison: for every
    sequence of fewer than 65536 assignments, lookups, [operator[]] reads,
    removals, membership tests, counts and clears on a new map, each reply is
    the one of a finite map with default value [nil], no cell outside the
    arrays is used, and the entries at the end are the map's. *)
Theorem hashmap_refines (nil0 : V) (ops : list m_op) :
  zlen ops < 2 ^ 16 ->
  exists h l, HashMap_run ops (HashMap_new nil0) = Some (fst (map_run nil0 ops ∅), h) /\ hm_ok h l /\ to_map l = snd (map_run nil0 ops ∅).
Proof.
  intros Hb. apply (map_run_refines ops (HashMap_new nil0) []); [|done]. constructor; try done. apply NoDup_nil_2.
Qed.
End Map.

(** Keys compared by value. *)
Example hashmap_refines_witness :
  let ops := [MSet 1 10; MSet 2 20; MSet 1 11; MGet 1; MRemove 1; MGet 1; MIndex 3; MCount] in
  fst (map_run (C := Z) (fun k => k) 0 ops ∅) = [RDone; RDone; RDone; RValue 11; RDone; RValue 0; RValue 0; RCount 2] /\
  exists h l, HashMap_run Z.eqb 0 0 ops (HashMap_new 0) = Some (fst (map_run (C := Z) (fun k => k) 0 ops ∅), h) /\
    hm_ok (C := Z) (fun k => k) h l /\ to_map (fun k => k) l = snd (map_run (fun k => k) 0 ops ∅).
Proof.
  split; [vm_compute; reflexivity|]. apply (hashmap_refines (C := Z) Z.eqb (fun k => k) 0 0 Z.eqb_eq 0); vm_compute; reflexivity.
Defined.

(** ** A [FILO] is a bounded stack *)

Section Stack.
Context {T : Type}.
Implicit Types (f : FILO T) (l : list T).

Record filo_ok f l : Prop := {
  fl_count : filo_count f = zlen l;
  fl_fits : zlen l <= zlen (filo_raw f) < 2 ^ 31;
  fl_elems : take (length l) (filo_raw f) = reverse l
}.

Lemma filo_push_spec f l x : filo_ok f l ->
  if zlen l <? zlen (filo_raw f) then fst (FILO_push x f) = true /\ filo_ok (snd (FILO_push x f)) (x :: l) else FILO_push x f = (false, f).
Proof.
  intros [K1 K2 K3]. unfold FILO_push. pose proof (zlen_nonneg l). rewrite K1, u32_small by (unfold is_u32; lia).
  destruct (Z.ltb_spec (zlen l) (zlen (filo_raw f))); [|by rewrite (proj2 (Z.leb_le _ _)) by lia].
  rewrite (proj2 (Z.leb_gt _ _)) by lia. split; [done|]. assert (zlen (x :: l) = 1 + zlen l) as Ez by (unfold zlen; cbn [length]; lia).
  constructor; cbn [snd filo_count filo_raw]; rewrite ?Ez; [lia|unfold zlen in *; rewrite length_insert; lia|].
  replace (Z.to_nat (zlen l)) with (length l) by (unfold zlen; lia). cbn [length]. rewrite take_insert_snoc by (unfold zlen in *; lia).
  by rewrite K3, reverse_cons.
Qed.

Lemma filo_pop_spec f x l : filo_ok f (x :: l) -> FILO_peek f = Some x /\ exists f', FILO_pop f = Some (x, f') /\ filo_ok f' l.
Proof.
  intros [K1 K2 K3]. assert (zlen (x :: l) = 1 + zlen l) as Ez by (unfold zlen; cbn [length]; lia). rewrite Ez in *. pose proof (zlen_nonneg l).
  assert (filo_raw f !! length l = Some x) as Ex.
  { rewrite <- (lookup_take_lt (filo_raw f) (length (x :: l))) by (cbn; lia). rewrite K3, reverse_cons.
    rewrite lookup_app_r by (rewrite length_reverse; lia). by rewrite length_reverse, Nat.sub_diag. }
  unfold FILO_peek, FILO_pop. rewrite K1, (proj2 (Z.ltb_lt _ _)) by lia. replace (Z.to_nat (1 + zlen l - 1)) with (length l) by (unfold zlen; lia). rewrite Ex.
  split; [done|]. eexists. split; [done|]. constructor; cbn [filo_count filo_raw]; [lia|lia|].
  cbn [length] in K3. rewrite (take_S_r _ _ x Ex), reverse_cons in K3. by apply app_inj_tail in K3 as [? _].
Qed.
End Stack.
