(* ===== verification/Vector.v ===== *)
(** * Vectors

    [Sming/Wiring/WVector.h].  A vector keeps an array of pointers to elements
    it owns, so the model has a heap of elements: [new] gives a fresh pointer,
    [delete] of a pointer that is not live and reading through one are faults
    ([None]), as is [abort].  A slot that was never written holds [None].
    Allocating an array may fail; allocating an element is taken to succeed,
    since its constructor runs on the result unchecked. *)

From stdpp Require Import sorting.
From S2P Require Import Prelude Containers.

Section Vector.
Context {A : Type}.
(** [operator==] of the elements, and the array sizes that can be allocated. *)
Context (eqb : A -> A -> bool) (array_room : Z -> bool).

Record Vector := { _size : Z; _capacity : Z; _increment : Z; _data : option (list (option positive)) }.

(** ** Memory *)

Definition new_array (n : Z) : option (list (option positive)) := if array_room n then Some (replicate (Z.to_nat n) None) else None.
Definition new_element (obj : A) : M (gmap positive A) positive := fun h => let p := fresh (dom h) in Some (p, <[p := obj]> h).
Definition delete_element (p : positive) : M (gmap positive A) unit := fun h =>
  match h !! p with Some _ => Some (tt, base.delete p h) | None => None end.
Definition deref (p : positive) : M (gmap positive A) A := fun h => match h !! p with Some a => Some (a, h) | None => None end.
Definition assign (p : positive) (a : A) : M (gmap positive A) unit := fun h =>
  match h !! p with Some _ => Some (tt, <[p := a]> h) | None => None end.
(** [_data[i]], a pointer that is used. *)
Definition ptr_at (d : list (option positive)) (i : nat) : M (gmap positive A) positive := match d !! i with Some (Some p) => ret p | _ => fault end.
(** [_data[i] = x] *)
Definition set_ptr (i : nat) (x : option positive) (d : list (option positive)) : M (gmap positive A) (list (option positive)) := if (i <? length d)%nat then ret (<[i := x]> d) else fault.
Definition data_of (v : Vector) : list (option positive) := default [] (_data v).

(** ** Construction *)

Definition Vector_new (initialCapacity capacityIncrement : Z) : Vector :=
  match new_array initialCapacity with
  | Some d => {| _size := 0; _capacity := initialCapacity; _increment := capacityIncrement; _data := Some d |}
  | None => {| _size := 0; _capacity := 0; _increment := 0; _data := None |}
  end.

(** [delete _data[i]] for [n] slots from [i] on. *)
Fixpoint delete_range (d : list (option positive)) (n i : nat) : M (gmap positive A) unit :=
  match n with
  | O => ret tt
  | S n => (let! p := ptr_at d i in delete_element p) ;;; delete_range d n (S i)
  end.
Definition removeAllElements (v : Vector) : M (gmap positive A) Vector :=
  delete_range (data_of v) (Z.to_nat (_size v)) 0 ;;;
  ret {| _size := 0; _capacity := _capacity v; _increment := _increment v; _data := _data v |}.

(** The loop of [copyFrom]: copies of [n] elements from [i] on. *)
Fixpoint copy_elements (src : list (option positive)) (n i : nat) (d : list (option positive)) : M (gmap positive A) (list (option positive)) :=
  match n with
  | O => ret d
  | S n =>
      let! p := ptr_at src i in
      let! a := deref p in
      let! q := new_element a in
      let! d := set_ptr i (Some q) d in
      copy_elements src n (S i) d
  end.
Definition copyFrom (v rhv : Vector) : M (gmap positive A) Vector :=
  (if negb (bool_decide (_data v = None)) then removeAllElements v ;;; ret tt else ret tt) ;;;
  match new_array (_capacity rhv) with
  | None => ret {| _size := 0; _capacity := 0; _increment := 0; _data := None |}
  | Some d =>
      let! d := copy_elements (data_of rhv) (Z.to_nat (_size rhv)) 0 d in
      ret {| _size := _size rhv; _capacity := _capacity rhv; _increment := _increment rhv; _data := Some d |}
  end.
(** The destructor frees the elements and the array. *)
Definition Vector_destroy (v : Vector) : M (gmap positive A) unit := removeAllElements v ;;; ret tt.

(** ** Queries *)

Definition Vector_capacity (v : Vector) : Z := _capacity v.
Definition Vector_size (v : Vector) : Z := _size v.
Definition isEmpty (v : Vector) : bool := _size v =? 0.

Definition elementAt (index : Z) (v : Vector) : M (gmap positive A) A :=
  if (_size v <=? index) || bool_decide (_data v = None) then fault else
  let! p := ptr_at (data_of v) (Z.to_nat index) in deref p.
Definition firstElement (v : Vector) : M (gmap positive A) A :=
  if (_size v =? 0) || bool_decide (_data v = None) then fault else
  let! p := ptr_at (data_of v) 0 in deref p.
Definition lastElement (v : Vector) : M (gmap positive A) A :=
  if (_size v =? 0) || bool_decide (_data v = None) then fault else
  let! p := ptr_at (data_of v) (Z.to_nat (_size v - 1)) in deref p.

Fixpoint indexOf_loop (elem : A) (d : list (option positive)) (n i : nat) : M (gmap positive A) Z :=
  match n with
  | O => ret (-1)
  | S n =>
      let! p := ptr_at d i in
      let! a := deref p in
      if eqb a elem then ret (Z.of_nat i) else indexOf_loop elem d n (S i)
  end.
Definition indexOf (elem : A) (v : Vector) : M (gmap positive A) Z := indexOf_loop elem (data_of v) (Z.to_nat (_size v)) 0.
Definition contains (elem : A) (v : Vector) : M (gmap positive A) bool := let! i := indexOf elem v in ret (0 <=? i).

Fixpoint lastIndexOf_loop (elem : A) (d : list (option positive)) (i : nat) : M (gmap positive A) Z :=
  match i with
  | O => ret (-1)
  | S i =>
      let! p := ptr_at d i in
      let! a := deref p in
      if eqb a elem then ret (Z.of_nat i) else lastIndexOf_loop elem d i
  end.
Definition lastIndexOf (elem : A) (v : Vector) : M (gmap positive A) Z := lastIndexOf_loop elem (data_of v) (Z.to_nat (_size v)).

(** [copyInto]: the elements copied out. *)
Fixpoint copyInto_loop (d : list (option positive)) (n i : nat) : M (gmap positive A) (list A) :=
  match n with
  | O => ret []
  | S n => let! p := ptr_at d i in let! a := deref p in let! r := copyInto_loop d n (S i) in ret (a :: r)
  end.
Definition copyInto (v : Vector) : M (gmap positive A) (list A) := copyInto_loop (data_of v) (Z.to_nat (_size v)) 0.

(** ** Changes *)

Definition ensureCapacity (minCapacity : Z) (v : Vector) : Vector :=
  if _capacity v <? minCapacity then
    match new_array minCapacity with
    | Some temp =>
        let n := Z.to_nat (_size v) in
        {| _size := _size v; _capacity := minCapacity; _increment := _increment v; _data := Some (take n (data_of v) ++ drop n temp) |}
    | None => v
    end
  else v.

Definition addElement_ptr (objp : positive) (v : Vector) : M (gmap positive A) Vector :=
  let v := if _size v =? _capacity v then ensureCapacity (u32 (_capacity v + _increment v)) v else v in
  if _size v <? _capacity v then
    let! d := set_ptr (Z.to_nat (_size v)) (Some objp) (data_of v) in
    ret {| _size := _size v + 1; _capacity := _capacity v; _increment := _increment v; _data := Some d |}
  else ret v.
Definition addElement (obj : A) (v : Vector) : M (gmap positive A) Vector :=
  let v := if _size v =? _capacity v then ensureCapacity (u32 (_capacity v + _increment v)) v else v in
  if _size v <? _capacity v then
    let! p := new_element obj in
    let! d := set_ptr (Z.to_nat (_size v)) (Some p) (data_of v) in
    ret {| _size := _size v + 1; _capacity := _capacity v; _increment := _increment v; _data := Some d |}
  else ret v.

(** [for(i = index; i <= _size; i++)], [k] = [_size] - [i] rounds to go after
    this one. *)
Fixpoint insert_loop (k i : nat) (newItem : option positive) (d : list (option positive)) : M (gmap positive A) (list (option positive)) :=
  let tmp := default None (d !! i) in
  let! d := set_ptr i newItem d in
  match k with
  | O => ret d
  | S k => insert_loop k (S i) tmp d
  end.
Definition insertElementAt (obj : A) (index : Z) (v : Vector) : M (gmap positive A) Vector :=
  if index =? _size v then addElement obj v
  else if _size v <? index then ret v else
  let v := if _size v =? _capacity v then ensureCapacity (u32 (_capacity v + _increment v)) v else v in
  if _size v <? _capacity v then
    let! newItem := new_element obj in
    let! d := insert_loop (Z.to_nat (_size v - index)) (Z.to_nat index) (Some newItem) (data_of v) in
    ret {| _size := _size v + 1; _capacity := _capacity v; _increment := _increment v; _data := Some d |}
  else ret v.

Definition removeElementAt (index : Z) (v : Vector) : M (gmap positive A) Vector :=
  if _size v <=? index then ret v else
  (let! p := ptr_at (data_of v) (Z.to_nat index) in delete_element p) ;;;
  ret {| _size := _size v - 1; _capacity := _capacity v; _increment := _increment v;
         _data := Some (shift_down (Z.to_nat index) (Z.to_nat (_size v)) (data_of v)) |}.

Fixpoint removeElement_loop (obj : A) (v : Vector) (n i : nat) : M (gmap positive A) (bool * Vector) :=
  match n with
  | O => ret (false, v)
  | S n =>
      let! p := ptr_at (data_of v) i in
      let! a := deref p in
      if eqb a obj then let! v := removeElementAt (Z.of_nat i) v in ret (true, v) else removeElement_loop obj v n (S i)
  end.
Definition removeElement (obj : A) (v : Vector) : M (gmap positive A) (bool * Vector) := removeElement_loop obj v (Z.to_nat (_size v)) 0.

Definition setElementAt (obj : A) (index : Z) (v : Vector) : M (gmap positive A) unit :=
  if _size v <=? index then ret tt else let! p := ptr_at (data_of v) (Z.to_nat index) in assign p obj.

Definition setSize (newSize : Z) (v : Vector) : M (gmap positive A) Vector :=
  if _capacity v <? newSize then ret (ensureCapacity newSize v)
  else if newSize <? _size v then
    delete_range (data_of v) (Z.to_nat (_size v - newSize)) (Z.to_nat newSize) ;;;
    ret {| _size := newSize; _capacity := _capacity v; _increment := _increment v; _data := _data v |}
  else ret v.

Definition trimToSize (v : Vector) : Vector :=
  if negb (_size v =? _capacity v) then
    match new_array (_size v) with
    | None => v
    | Some _ => {| _size := _size v; _capacity := _size v; _increment := _increment v; _data := Some (take (Z.to_nat (_size v)) (data_of v)) |}
    end
  else v.

(** ** Insertion sort *)

(** The inner loop, [i] = [n] - 1: greater elements move up one slot; the
    result is [i] + 1. *)
Fixpoint sort_inner (cmp : A -> A -> Z) (key : positive) (n : nat) (d : list (option positive)) : M (gmap positive A) (nat * list (option positive)) :=
  match n with
  | O => ret (0%nat, d)
  | S i =>
      let! p := ptr_at d i in
      let! a := deref p in
      let! b := deref key in
      if 0 <? cmp a b then let! d := set_ptr (S i) (Some p) d in sort_inner cmp key i d else ret (n, d)
  end.
Fixpoint sort_outer (cmp : A -> A -> Z) (n j : nat) (d : list (option positive)) : M (gmap positive A) (list (option positive)) :=
  match n with
  | O => ret d
  | S n =>
      let! key := ptr_at d j in
      let! (i, d) := sort_inner cmp key j d in
      let! d := set_ptr i (Some key) d in
      sort_outer cmp n (S j) d
  end.
Definition sort (cmp : A -> A -> Z) (v : Vector) : M (gmap positive A) Vector :=
  let! d := sort_outer cmp (Z.to_nat (_size v) - 1) 1 (data_of v) in
  ret {| _size := _size v; _capacity := _capacity v; _increment := _increment v; _data := match _data v with None => None | Some _ => Some d end |}.
End Vector.

(** ** Ownership

    The heap [h] is the heap [h0] of others with the cells [pl] (pointer and
    element) of the vector. *)

Section Owns.
Context {A : Type}.
Implicit Types (h : gmap positive A) (pl : list (positive * A)).

Record owns h h0 pl : Prop := {
  ow_nodup : NoDup pl.*1;
  ow_cells p a : (p, a) ∈ pl -> h !! p = Some a;
  ow_apart p : p ∈ pl.*1 -> h0 !! p = None;
  ow_frame q : q ∉ pl.*1 -> h !! q = h0 !! q
}.

Lemma owns_nil h0 : owns h0 h0 [].
Proof. constructor; [apply NoDup_nil_2|intros p a Hp; by apply elem_of_nil in Hp|intros p Hp; by apply elem_of_nil in Hp|done]. Qed.

Lemma owns_only h h0 : owns h h0 [] -> h = h0.
Proof. intros [_ _ _ Hf]. apply map_eq. intros q. apply Hf. apply not_elem_of_nil. Qed.

Lemma owns_perm h h0 pl pl' : owns h h0 pl -> pl ≡ₚ pl' -> owns h h0 pl'.
Proof.
  intros [O1 O2 O3 O4] Hp. assert (pl.*1 ≡ₚ pl'.*1) as Hp1 by (by apply Permutation_map). constructor.
  - by rewrite <- Hp1.
  - intros p a Hin. apply O2. by rewrite Hp.
  - intros p Hin. apply O3. by rewrite Hp1.
  - intros q Hq. apply O4. by rewrite Hp1.
Qed.

Lemma owns_cons_new h h0 pl p a : owns h h0 pl -> h !! p = None -> owns (<[p := a]> h) h0 ((p, a) :: pl).
Proof.
  intros [O1 O2 O3 O4] Hp. assert (p ∉ pl.*1) as Hn.
  { intros Hin. apply list_elem_of_fmap in Hin as ([p' a'] & E & Hin). cbn in E. subst p'. by rewrite (O2 _ _ Hin) in Hp. }
  constructor; cbn.
  - by apply NoDup_cons.
  - intros q b Hin. apply elem_of_cons in Hin as [[= -> ->]|Hin]; [by rewrite lookup_insert_eq|].
    rewrite lookup_insert_ne; [by apply O2|]. intros <-. apply Hn. apply list_elem_of_fmap. by exists (p, b).
  - intros q Hin. apply elem_of_cons in Hin as [->|Hin]; [|by apply O3]. by rewrite <- O4.
  - intros q Hq. apply not_elem_of_cons in Hq as [Hne Hq]. rewrite lookup_insert_ne by done. by apply O4.
Qed.

Lemma owns_cons_delete h h0 pl p a : owns h h0 ((p, a) :: pl) -> owns (delete p h) h0 pl.
Proof.
  intros [O1 O2 O3 O4]. cbn in *. apply NoDup_cons in O1 as [Hn O1]. constructor.
  - done.
  - intros q b Hin. rewrite lookup_delete_ne; [apply O2; by apply elem_of_cons; right|]. intros <-. apply Hn. apply list_elem_of_fmap. by exists (p, b).
  - intros q Hin. apply O3. by apply elem_of_cons; right.
  - intros q Hq. destruct (decide (q = p)) as [->|Hne]; [rewrite lookup_delete_eq; symmetry; apply O3; by apply elem_of_cons; left|].
    rewrite lookup_delete_ne by done. apply O4. by apply not_elem_of_cons.
Qed.

Lemma owns_cons_assign h h0 pl p a b : owns h h0 ((p, a) :: pl) -> owns (<[p := b]> h) h0 ((p, b) :: pl).
Proof.
  intros [O1 O2 O3 O4]. cbn in *. pose proof (proj1 (proj1 (NoDup_cons _ _) O1)) as Hn. constructor; cbn; [done| |done|].
  - intros q c Hin. apply elem_of_cons in Hin as [[= -> ->]|Hin]; [by rewrite lookup_insert_eq|].
    rewrite lookup_insert_ne; [apply O2; by apply elem_of_cons; right|]. intros <-. apply Hn. apply list_elem_of_fmap. by exists (p, c).
  - intros q Hq. rewrite lookup_insert_ne; [by apply O4|]. intros <-. apply Hq. by apply elem_of_cons; left.
Qed.

(** The same in the middle of the list. *)
Lemma owns_new h h0 pl1 pl2 p a : owns h h0 (pl1 ++ pl2) -> h !! p = None -> owns (<[p := a]> h) h0 (pl1 ++ (p, a) :: pl2).
Proof. intros Ho Hp. eapply owns_perm; [by apply owns_cons_new|]. by rewrite Permutation_middle. Qed.

Lemma owns_delete h h0 pl1 pl2 p a : owns h h0 (pl1 ++ (p, a) :: pl2) -> owns (delete p h) h0 (pl1 ++ pl2).
Proof. intros Ho. eapply owns_cons_delete, owns_perm; [exact Ho|]. by rewrite Permutation_middle. Qed.

Lemma owns_assign h h0 pl1 pl2 p a b : owns h h0 (pl1 ++ (p, a) :: pl2) -> owns (<[p := b]> h) h0 (pl1 ++ (p, b) :: pl2).
Proof.
  intros Ho. eapply owns_perm; [eapply owns_cons_assign, owns_perm; [exact Ho|]|]; [by rewrite Permutation_middle|]. by rewrite Permutation_middle.
Qed.

Lemma owns_lookup h h0 pl p a : owns h h0 pl -> (p, a) ∈ pl -> h !! p = Some a.
Proof. intros Ho. apply Ho. Qed.

Lemma owns_mid h h0 pl1 pl2 p a : owns h h0 (pl1 ++ (p, a) :: pl2) -> h !! p = Some a.
Proof. intros Ho. apply (owns_lookup _ _ _ _ _ Ho). apply elem_of_app. right. by apply elem_of_cons; left. Qed.

(** [new], [delete], reading and assigning. *)
Lemma new_run h a : new_element a h = Some (fresh (dom h), <[fresh (dom h) := a]> h) /\ h !! fresh (dom h) = None.
Proof. split; [done|]. apply not_elem_of_dom. apply is_fresh. Qed.

Lemma deref_run h h0 pl1 pl2 p a : owns h h0 (pl1 ++ (p, a) :: pl2) -> deref p h = Some (a, h).
Proof. intros Ho. unfold deref. by rewrite (owns_mid _ _ _ _ _ _ Ho). Qed.

Lemma delete_run h h0 pl1 pl2 p a : owns h h0 (pl1 ++ (p, a) :: pl2) -> delete_element p h = Some (tt, delete p h).
Proof. intros Ho. unfold delete_element. by rewrite (owns_mid _ _ _ _ _ _ Ho). Qed.

Lemma assign_run h h0 pl1 pl2 p a b : owns h h0 (pl1 ++ (p, a) :: pl2) -> assign p b h = Some (tt, <[p := b]> h).
Proof. intros Ho. unfold assign. by rewrite (owns_mid _ _ _ _ _ _ Ho). Qed.

(** The pointers of [pl] in the first slots of [d]. *)
Definition points (d : list (option positive)) pl : Prop := take (length pl) d = Some <$> pl.*1.

Lemma points_lookup d pl1 pl2 p a : points d (pl1 ++ (p, a) :: pl2) -> d !! length pl1 = Some (Some p).
Proof.
  intros Hd. unfold points in Hd. rewrite <- (lookup_take_lt d (length (pl1 ++ (p, a) :: pl2))) by (rewrite length_app; cbn; lia).
  rewrite Hd, !fmap_app. rewrite lookup_app_r by (rewrite !length_fmap; lia). by rewrite !length_fmap, Nat.sub_diag.
Qed.

Lemma ptr_run d pl1 pl2 p a h : points d (pl1 ++ (p, a) :: pl2) -> ptr_at d (length pl1) h = Some (p, h).
Proof. intros Hd. unfold ptr_at. by rewrite (points_lookup _ _ _ _ _ Hd). Qed.

Lemma points_take d pl1 pl2 : points d (pl1 ++ pl2) -> points d pl1.
Proof.
  unfold points. intros Hd. apply (f_equal (take (length pl1))) in Hd. rewrite take_take, length_app, Nat.min_l in Hd by lia.
  rewrite Hd, !fmap_app. apply take_app_length'. by rewrite !length_fmap.
Qed.

Lemma points_length d pl : points d pl -> (length pl <= length d)%nat.
Proof. unfold points. intros Hd. apply (f_equal length) in Hd. rewrite length_take, !length_fmap in Hd. lia. Qed.

Lemma set_ptr_run i x (d : list (option positive)) h : (i < length d)%nat -> set_ptr i x d h = Some (<[i := x]> d, h).
Proof. intros Hi. unfold set_ptr. by rewrite (proj2 (Nat.ltb_lt _ _)). Qed.

Lemma points_insert_end d pl p a : points d pl -> (length pl < length d)%nat -> points (<[length pl := Some p]> d) (pl ++ [(p, a)]).
Proof.
  intros Hd Hl. unfold points in *. rewrite length_app. replace (length pl + length [(p, a)])%nat with (S (length pl)) by (cbn; lia).
  rewrite take_insert_snoc by done. by rewrite Hd, !fmap_app.
Qed.
End Owns.

(** ** The vector as a list with a capacity *)

Section Spec.
Context {A : Type} (eqb : A -> A -> bool) (array_room : Z -> bool) (cmp : A -> A -> Z).
Implicit Types (h : gmap positive A) (pl : list (positive * A)) (v : Vector).

Record avec := { el : list A; cap : Z; inc : Z }.

Definition a_ensure (n : Z) (a : avec) : avec :=
  if (cap a <? n) && array_room n then {| el := el a; cap := n; inc := inc a |} else a.
Definition a_grow (a : avec) : avec := if zlen (el a) =? cap a then a_ensure (u32 (cap a + inc a)) a else a.
Definition with_el (a : avec) (l : list A) : avec := {| el := l; cap := cap a; inc := inc a |}.

Fixpoint first_index (x : A) (l : list A) (i : Z) : Z :=
  match l with [] => -1 | a :: l => if eqb a x then i else first_index x l (i + 1) end.
Fixpoint last_index (x : A) (l : list A) (i : Z) : Z :=
  match l with
  | [] => -1
  | a :: l => let r := last_index x l (i + 1) in if 0 <=? r then r else if eqb a x then i else -1
  end.

(** Insertion before the elements at the end that are greater. *)
Fixpoint place_rev (x : A) (r : list A) : list A :=
  match r with [] => [x] | a :: r' => if 0 <? cmp a x then a :: place_rev x r' else x :: r end.
Definition place (l : list A) (x : A) : list A := reverse (place_rev x (reverse l)).
Definition sorted_list (l : list A) : list A := foldl place [] l.

Inductive v_op :=
  | Add (x : A) | InsertAt (x : A) (i : Z) | RemoveAt (i : Z) | RemoveElement (x : A) | SetAt (x : A) (i : Z)
  | SetSize (n : Z) | Ensure (n : Z) | Trim | Clear | Sort
  | At (i : Z) | First | Last | IndexOf (x : A) | LastIndexOf (x : A) | Size | CopyOut.
Inductive v_reply := VDone | VBool (b : bool) | VIndex (i : Z) | VElem (x : A) | VList (l : list A).

Definition at_or_abort (i : Z) (l : list A) : option v_reply :=
  match l !! Z.to_nat i with Some x => Some (VElem x) | None => None end.

(** [None] is a call of [abort]. *)
Definition a_step (op : v_op) (a : avec) : option (v_reply * avec) :=
  let l := el a in
  let push x := let a := a_grow a in if zlen l <? cap a then with_el a (l ++ [x]) else a in
  match op with
  | Add x => Some (VDone, push x)
  | InsertAt x i =>
      Some (VDone,
        if i =? zlen l then push x else if zlen l <? i then a else
        let a := a_grow a in if zlen l <? cap a then with_el a (take (Z.to_nat i) l ++ x :: drop (Z.to_nat i) l) else a)
  | RemoveAt i => Some (VDone, with_el a (if zlen l <=? i then l else delete (Z.to_nat i) l))
  | RemoveElement x =>
      let i := first_index x l 0 in
      Some (VBool (0 <=? i), with_el a (if 0 <=? i then delete (Z.to_nat i) l else l))
  | SetAt x i => Some (VDone, with_el a (if zlen l <=? i then l else <[Z.to_nat i := x]> l))
  | SetSize n => Some (VDone, if cap a <? n then a_ensure n a else with_el a (take (Z.to_nat n) l))
  | Ensure n => Some (VDone, a_ensure n a)
  | Trim => Some (VDone, if negb (zlen l =? cap a) && array_room (zlen l) then {| el := l; cap := zlen l; inc := inc a |} else a)
  | Clear => Some (VDone, with_el a [])
  | Sort => Some (VDone, with_el a (sorted_list l))
  | At i => match at_or_abort i l with Some r => Some (r, a) | None => None end
  | First => match at_or_abort 0 l with Some r => Some (r, a) | None => None end
  | Last => match at_or_abort (zlen l - 1) l with Some r => Some (r, a) | None => None end
  | IndexOf x => Some (VIndex (first_index x l 0), a)
  | LastIndexOf x => Some (VIndex (last_index x l 0), a)
  | Size => Some (VIndex (zlen l), a)
  | CopyOut => Some (VList l, a)
  end.

Definition v_step (op : v_op) (v : Vector) : M (gmap positive A) (v_reply * Vector) :=
  match op with
  | Add x => let! v := addElement array_room x v in ret (VDone, v)
  | InsertAt x i => let! v := insertElementAt array_room x i v in ret (VDone, v)
  | RemoveAt i => let! v := removeElementAt i v in ret (VDone, v)
  | RemoveElement x => let! (b, v) := removeElement eqb x v in ret (VBool b, v)
  | SetAt x i => setElementAt x i v ;;; ret (VDone, v)
  | SetSize n => let! v := setSize array_room n v in ret (VDone, v)
  | Ensure n => ret (VDone, ensureCapacity array_room n v)
  | Trim => ret (VDone, trimToSize array_room v)
  | Clear => let! v := removeAllElements v in ret (VDone, v)
  | Sort => let! v := sort cmp v in ret (VDone, v)
  | At i => let! x := elementAt i v in ret (VElem x, v)
  | First => let! x := firstElement v in ret (VElem x, v)
  | Last => let! x := lastElement v in ret (VElem x, v)
  | IndexOf x => let! i := indexOf eqb x v in ret (VIndex i, v)
  | LastIndexOf x => let! i := lastIndexOf eqb x v in ret (VIndex i, v)
  | Size => ret (VIndex (Vector_size v), v)
  | CopyOut => let! l := copyInto v in ret (VList l, v)
  end.

(** Indices and sizes are unsigned. *)
Definition v_valid (op : v_op) : Prop :=
  match op with
  | InsertAt _ i | RemoveAt i | SetAt _ i | At i => 0 <= i
  | SetSize n | Ensure n => 0 <= n < 2 ^ 32
  | _ => True
  end.

(** The vector's cells are the list, and the rest of the heap is untouched. *)
Record v_ok h0 v pl h : Prop := {
  vo_owns : owns h h0 pl;
  vo_points : points (data_of v) pl;
  vo_size : _size v = zlen pl;
  vo_cap : _capacity v = zlen (data_of v);
  vo_range : _capacity v < 2 ^ 32
}.
Definition abs v pl : avec := {| el := pl.*2; cap := _capacity v; inc := _increment v |}.

(** What a step has to give. *)
Definition step_ok h0 (m : M (gmap positive A) (v_reply * Vector)) (h : gmap positive A) (res : option (v_reply * avec)) : Prop :=
  match res with
  | None => m h = None
  | Some (r, a) => exists v' pl' h', m h = Some ((r, v'), h') /\ v_ok h0 v' pl' h' /\ abs v' pl' = a
  end.

Lemma v_bound h0 v pl h : v_ok h0 v pl h -> zlen pl <= _capacity v.
Proof. intros [V1 V2 V3 V4 V5]. apply points_length in V2. rewrite V4. unfold zlen. lia. Qed.

Lemma ensure_spec h0 v pl h n : v_ok h0 v pl h -> n < 2 ^ 32 ->
  v_ok h0 (ensureCapacity array_room n v) pl h /\ abs (ensureCapacity array_room n v) pl = a_ensure n (abs v pl) /\ _size (ensureCapacity array_room n v) = zlen pl.
Proof.
  intros Hv Hn. pose proof (v_bound h0 v pl h Hv) as Hb. pose proof Hv as [V1 V2 V3 V4 V5]. unfold ensureCapacity, a_ensure, new_array. cbn [cap abs].
  destruct (Z.ltb_spec (_capacity v) n) as [Hlt|]; [|done]. destruct (array_room n); [|done]. cbn [andb]. split; [|done].
  pose proof (zlen_nonneg pl). pose proof (points_length _ _ V2) as Hpl. constructor; cbn; [done| |done| |done].
  - unfold points. rewrite V3. unfold zlen. rewrite Nat2Z.id. rewrite take_app_le by (rewrite length_take; lia). rewrite take_take, Nat.min_id. exact V2.
  - rewrite zlen_app. unfold zlen in *. rewrite length_take, length_drop, length_replicate. lia.
Qed.

Lemma grow_spec h0 v pl h : v_ok h0 v pl h ->
  let v' := if _size v =? _capacity v then ensureCapacity array_room (u32 (_capacity v + _increment v)) v else v in
  v_ok h0 v' pl h /\ abs v' pl = a_grow (abs v pl) /\ _size v' = zlen pl.
Proof.
  intros Hv. unfold a_grow. cbn [abs el cap]. rewrite zlen_fmap, (vo_size _ _ _ _ Hv).
  destruct (zlen pl =? _capacity v); [|split; [done|]; split; [done|apply Hv]]. apply ensure_spec; [done|]. apply u32_range.
Qed.

Lemma add_spec h0 v pl h x : v_ok h0 v pl h -> step_ok h0 (v_step (Add x) v) h (a_step (Add x) (abs v pl)).
Proof.
  intros Hv. unfold step_ok, v_step, a_step, addElement, bind. destruct (grow_spec h0 v pl h Hv) as (Hv' & Ea & Es). cbn [abs el] in *. rewrite zlen_fmap.
  set (v1 := if _ =? _ then _ else _) in *. rewrite <- Ea, Es. cbn [abs cap]. pose proof Hv' as [V1 V2 V3 V4 V5].
  destruct (Z.ltb_spec (zlen pl) (_capacity v1)) as [Hlt|]; [|exists v1, pl, h; done].
  destruct (new_run h x) as [-> Hf]. replace (Z.to_nat (zlen pl)) with (length pl) by (unfold zlen; lia). rewrite set_ptr_run by (unfold zlen in *; lia).
  eexists _, (pl ++ [(_, x)]), _. split; [done|]. split.
  - constructor; cbn; [|by apply points_insert_end; [|unfold zlen in *; lia]|by rewrite zlen_app|unfold zlen in *; by rewrite length_insert|done].
    apply (owns_new h h0 pl [] _ x); [by rewrite app_nil_r|done].
  - unfold abs, with_el. cbn. by rewrite fmap_app.
Qed.

(** A list cut at an index. *)
Lemma cut_at pl i : 0 <= i < zlen pl -> exists pl1 p a pl2, pl = pl1 ++ (p, a) :: pl2 /\ length pl1 = Z.to_nat i.
Proof.
  intros Hi. destruct (lookup_lt_is_Some_2 pl (Z.to_nat i)) as [[p a] E]; [unfold zlen in Hi; lia|]. exists (take (Z.to_nat i) pl), p, a, (drop (S (Z.to_nat i)) pl).
  split; [by rewrite take_drop_middle|]. rewrite length_take. unfold zlen in Hi. lia.
Qed.

Lemma insert_mid {B} (l1 l2 : list B) x y : <[length l1 := y]> (l1 ++ x :: l2) = l1 ++ y :: l2.
Proof. rewrite insert_app_r_alt by lia. by rewrite Nat.sub_diag. Qed.

Lemma removeAt_run h0 v pl1 p a pl2 h : v_ok h0 v (pl1 ++ (p, a) :: pl2) h ->
  exists v', removeElementAt (zlen pl1) v h = Some (v', delete p h) /\ v_ok h0 v' (pl1 ++ pl2) (delete p h) /\
    _capacity v' = _capacity v /\ _increment v' = _increment v.
Proof.
  intros Hv. pose proof (v_bound _ _ _ _ Hv) as Hb. destruct Hv as [V1 V2 V3 V4 V5]. unfold removeElementAt, bind. pose proof (zlen_nonneg pl1). pose proof (zlen_nonneg pl2).
  assert (zlen (pl1 ++ (p, a) :: pl2) = zlen pl1 + 1 + zlen pl2) as Ez by (rewrite zlen_app; unfold zlen; cbn; lia).
  rewrite V3, Ez. rewrite (proj2 (Z.leb_gt _ _)) by lia. replace (Z.to_nat (zlen pl1)) with (length pl1) by (unfold zlen; lia).
  rewrite (ptr_run _ _ _ _ _ h V2), (delete_run _ _ _ _ _ _ V1). eexists. split; [done|]. split; [|done].
  pose proof V2 as V2'. unfold points in V2'. rewrite !fmap_app in V2'. cbn in V2'.
  destruct (shift_take (data_of v) _ _ _ _ (length (pl1 ++ (p, a) :: pl2)) V2') as [S1 S2]; [done|by apply points_length|rewrite length_app, !length_fmap; done|].
  rewrite !length_fmap in *. replace (Z.to_nat (zlen pl1 + 1 + zlen pl2)) with (length (pl1 ++ (p, a) :: pl2)) by (rewrite length_app; unfold zlen; cbn; lia).
  constructor; cbn.
  - by eapply owns_delete.
  - unfold points. rewrite !fmap_app. replace (length (pl1 ++ pl2)) with (length (pl1 ++ (p, a) :: pl2) - 1)%nat by (rewrite !length_app; cbn; lia). exact S2.
  - rewrite zlen_app. lia.
  - rewrite V4. unfold zlen. by rewrite S1.
  - done.
Qed.

Lemma removeAt_spec h0 v pl h i : v_ok h0 v pl h -> 0 <= i -> step_ok h0 (v_step (RemoveAt i) v) h (a_step (RemoveAt i) (abs v pl)).
Proof.
  intros Hv Hi. unfold step_ok, v_step, a_step. cbn [abs el]. rewrite zlen_fmap. destruct (Z.leb_spec (zlen pl) i) as [Hge|Hlt].
  - exists v, pl, h. split; [|done]. unfold bind, removeElementAt. rewrite (vo_size _ _ _ _ Hv), (proj2 (Z.leb_le _ _)) by lia. done.
  - destruct (cut_at pl i ltac:(lia)) as (pl1 & p & a & pl2 & -> & Ei). assert (i = zlen pl1) as -> by (unfold zlen; lia).
    destruct (removeAt_run h0 v pl1 p a pl2 h Hv) as (v' & E & Hv' & Ec & Einc). exists v', (pl1 ++ pl2), (delete p h).
    unfold bind. rewrite E. split; [done|]. split; [done|]. unfold abs, with_el. cbn. rewrite Ec, Einc. f_equal. rewrite !fmap_app. cbn.
    unfold zlen. rewrite Nat2Z.id, <- (length_fmap snd pl1). by rewrite delete_middle.
Qed.

Lemma set_spec h0 v pl h x i : v_ok h0 v pl h -> 0 <= i -> step_ok h0 (v_step (SetAt x i) v) h (a_step (SetAt x i) (abs v pl)).
Proof.
  intros Hv Hi. unfold step_ok, v_step, a_step, setElementAt, bind. cbn [abs el]. rewrite zlen_fmap. rewrite (vo_size _ _ _ _ Hv).
  destruct (Z.leb_spec (zlen pl) i) as [Hge|Hlt]; [exists v, pl, h; done|].
  destruct (cut_at pl i ltac:(lia)) as (pl1 & p & a & pl2 & -> & Ei). rewrite <- Ei. destruct Hv as [V1 V2 V3 V4 V5].
  rewrite (ptr_run _ _ _ _ _ h V2), (assign_run _ _ _ _ _ _ x V1). exists v, (pl1 ++ (p, x) :: pl2), (<[p := x]> h). split; [done|]. split.
  - constructor; [by eapply owns_assign| |by rewrite V3, !zlen_app; unfold zlen|done|done].
    unfold points in *. rewrite !length_app, !fmap_app in *. exact V2.
  - unfold abs, with_el. cbn. f_equal. rewrite !fmap_app. cbn. rewrite <- (length_fmap snd pl1). by rewrite insert_mid.
Qed.

Lemma at_run h0 v pl1 p a pl2 h : v_ok h0 v (pl1 ++ (p, a) :: pl2) h -> (let! p := ptr_at (data_of v) (length pl1) in deref p) h = Some (a, h).
Proof. intros [V1 V2 V3 V4 V5]. unfold bind. by rewrite (ptr_run _ _ _ _ _ h V2), (deref_run _ _ _ _ _ _ V1). Qed.

(** An element, or [abort]. *)
Lemma element_spec h0 v pl h i (guard : bool) (m : M (gmap positive A) A) : v_ok h0 v pl h -> 0 <= i \/ zlen pl = 0 -> (guard = true <-> zlen pl <= i \/ zlen pl = 0) ->
  m = (if guard || bool_decide (_data v = None) then fault else let! p := ptr_at (data_of v) (Z.to_nat i) in deref p) ->
  step_ok h0 (let! x := m in ret (VElem x, v)) h (match at_or_abort i (el (abs v pl)) with Some r => Some (r, abs v pl) | None => None end).
Proof.
  intros Hv Hi Hg ->. cbn [abs el]. unfold at_or_abort. destruct guard.
  - cbn [orb]. assert (pl.*2 !! Z.to_nat i = None) as ->; [|done]. apply lookup_ge_None_2. rewrite length_fmap. destruct (proj1 Hg eq_refl); unfold zlen in *; lia.
  - assert (0 <= i < zlen pl) as Hr by (destruct (Z.le_gt_cases (zlen pl) i); [by assert (false = true) by (apply Hg; auto)|]; destruct (Z.eq_dec (zlen pl) 0); [by assert (false = true) by (apply Hg; auto)|]; lia).
    destruct (cut_at pl i Hr) as (pl1 & p & a & pl2 & -> & Ei). rewrite bool_decide_false.
    + cbn [orb]. rewrite <- Ei. rewrite fmap_app, lookup_app_r by (rewrite length_fmap; lia). rewrite length_fmap, Nat.sub_diag. cbn.
      eexists v, (pl1 ++ (p, a) :: pl2), h. split; [|done]. unfold bind at 1. by rewrite (at_run _ _ _ _ _ _ _ Hv).
    + intros E. pose proof (points_length _ _ (vo_points _ _ _ _ Hv)) as Hl. unfold data_of in Hl. rewrite E, length_app in Hl. cbn in Hl. lia.
Qed.

Lemma insert_loop_run k : forall i x (d : list (option positive)) h, (i + k < length d)%nat ->
  insert_loop k i x d h = Some (take i d ++ x :: take k (drop i d) ++ drop (i + k + 1) d, h).
Proof.
  induction k as [|k IH]; intros i x d h Hl; cbn [insert_loop]; unfold bind; rewrite set_ptr_run by lia.
  - unfold ret. do 2 f_equal. rewrite insert_take_drop by lia. by replace (i + 0 + 1)%nat with (S i) by lia.
  - destruct (lookup_lt_is_Some_2 d i) as [y Hy]; [lia|]. rewrite Hy. cbn [default]. rewrite IH by (rewrite length_insert; lia). do 2 f_equal.
    rewrite take_insert_snoc by lia. rewrite <- app_assoc. cbn [app]. do 2 f_equal.
    rewrite (drop_S d y i Hy). cbn [take]. rewrite !drop_insert_lt by lia. cbn [app]. by replace (S i + k + 1)%nat with (i + S k + 1)%nat by lia.
Qed.

Lemma points_app d pl1 pl2 : points d (pl1 ++ pl2) ->
  take (length pl1) d = Some <$> pl1.*1 /\ take (length pl2) (drop (length pl1) d) = Some <$> pl2.*1.
Proof.
  intros Hd. split; [by apply (points_take d pl1 pl2)|]. unfold points in Hd. rewrite length_app in Hd. rewrite take_drop_commute, Hd, !fmap_app.
  apply drop_app_length'. by rewrite !length_fmap.
Qed.

Lemma insertAt_spec h0 v pl h x i : v_ok h0 v pl h -> 0 <= i -> step_ok h0 (v_step (InsertAt x i) v) h (a_step (InsertAt x i) (abs v pl)).
Proof.
  intros Hv Hi. pose proof (add_spec h0 v pl h x Hv) as Hadd. unfold step_ok, v_step, a_step, insertElementAt in *. cbn [abs el] in *. rewrite !zlen_fmap in *.
  rewrite (vo_size _ _ _ _ Hv) in *. destruct (Z.eqb_spec i (zlen pl)) as [->|Hne]; [exact Hadd|]. clear Hadd.
  destruct (Z.ltb_spec (zlen pl) i) as [Hgt|Hle]; [exists v, pl, h; done|].
  pose proof (grow_spec h0 v pl h Hv) as G. cbv zeta in G. rewrite (vo_size _ _ _ _ Hv) in G. destruct G as (Hv' & Ea & Es). set (v1 := if zlen pl =? _ then _ else _) in *.
  change {| el := pl.*2; cap := _capacity v; inc := _increment v |} with (abs v pl). rewrite <- Ea, Es. cbn [abs cap]. pose proof Hv' as [V1 V2 V3 V4 V5].
  destruct (Z.ltb_spec (zlen pl) (_capacity v1)) as [Hlt|]; [|exists v1, pl, h; done].
  unfold bind. destruct (new_run h x) as [-> Hf]. set (p := fresh (dom h)) in *.
  assert (length (take (Z.to_nat i) pl) = Z.to_nat i) as E1 by (rewrite length_take; unfold zlen in *; lia).
  assert (length (drop (Z.to_nat i) pl) = Z.to_nat (zlen pl - i)) as E2 by (rewrite length_drop; unfold zlen in *; lia).
  assert (points (data_of v1) (take (Z.to_nat i) pl ++ drop (Z.to_nat i) pl)) as V2' by (by rewrite take_drop).
  destruct (points_app _ _ _ V2') as [P1 P2]. rewrite E1, E2 in *. rewrite insert_loop_run by (unfold zlen in *; lia).
  eexists _, (take (Z.to_nat i) pl ++ (p, x) :: drop (Z.to_nat i) pl), _. split; [done|]. split.
  - constructor; cbn.
    + apply owns_new; [by rewrite take_drop|done].
    + unfold points. rewrite P1, P2, !fmap_app. cbn [fmap list_fmap]. rewrite (app_comm_cons _ _ (Some p)), app_assoc. apply take_app_length'.
      rewrite !length_app. cbn [length]. rewrite !length_fmap. done.
    + rewrite zlen_app. unfold zlen in *. cbn [length]. lia.
    + unfold zlen in *. rewrite !length_app. cbn [length]. rewrite length_app, !length_take, !length_drop. lia.
    + done.
  - unfold abs, with_el. cbn. f_equal. rewrite fmap_app, fmap_cons, fmap_take, fmap_drop. done.
Qed.

Lemma delete_range_run d h0 : forall pl2 pl1 h, owns h h0 (pl1 ++ pl2) -> points d (pl1 ++ pl2) ->
  exists h', delete_range d (length pl2) (length pl1) h = Some (tt, h') /\ owns h' h0 pl1.
Proof.
  assert (forall pl2 pl1 dead h, owns h h0 (pl1 ++ pl2) -> points d (pl1 ++ dead ++ pl2) ->
    exists h', delete_range d (length pl2) (length pl1 + length dead) h = Some (tt, h') /\ owns h' h0 pl1) as G.
  { induction pl2 as [|[p a] pl2 IH]; intros pl1 dead h Ho Hd; [exists h; rewrite app_nil_r in Ho; done|].
    cbn [length delete_range]. unfold bind at 1 2. rewrite app_assoc in Hd. rewrite <- length_app. rewrite (ptr_run _ _ _ _ _ h Hd), (delete_run _ _ _ _ _ _ Ho).
    destruct (IH pl1 (dead ++ [(p, a)]) (delete p h)) as (h' & E & Ho').
    - by eapply owns_delete.
    - rewrite <- !app_assoc in Hd |- *. exact Hd.
    - exists h'. rewrite !length_app in *. cbn [length] in E. replace (S (length pl1 + length dead)) with (length pl1 + (length dead + 1))%nat by lia. done. }
  intros pl2 pl1 h Ho Hd. destruct (G pl2 pl1 [] h Ho Hd) as (h' & E & Ho'). rewrite Nat.add_0_r in E. eauto.
Qed.

Lemma clear_run h0 v pl h : v_ok h0 v pl h -> exists v' h', removeAllElements v h = Some (v', h') /\ v_ok h0 v' [] h' /\ abs v' [] = with_el (abs v pl) [].
Proof.
  intros Hv. pose proof (v_bound _ _ _ _ Hv). destruct Hv as [V1 V2 V3 V4 V5]. unfold removeAllElements, bind. rewrite V3. unfold zlen. rewrite Nat2Z.id.
  destruct (delete_range_run (data_of v) h0 pl [] h V1 V2) as (h' & E & Ho). cbn [length] in E. rewrite E. eexists _, h'. split; [done|]. split; [|done].
  constructor; cbn; [done|done|done|done|done].
Qed.

Lemma setSize_spec h0 v pl h n : v_ok h0 v pl h -> 0 <= n < 2 ^ 32 -> step_ok h0 (v_step (SetSize n) v) h (a_step (SetSize n) (abs v pl)).
Proof.
  intros Hv Hn. pose proof (v_bound _ _ _ _ Hv) as Hb. unfold step_ok, v_step, a_step, setSize, bind. cbn [abs el cap].
  destruct (Z.ltb_spec (_capacity v) n) as [Hlt|Hge].
  { destruct (ensure_spec h0 v pl h n Hv) as (Hv' & Ea & _); [lia|]. eexists _, pl, h. done. }
  pose proof Hv as [V1 V2 V3 V4 V5]. rewrite V3. destruct (Z.ltb_spec n (zlen pl)) as [Hl|Hl].
  - assert (length (take (Z.to_nat n) pl) = Z.to_nat n) as E1 by (rewrite length_take; unfold zlen in *; lia).
    assert (length (drop (Z.to_nat n) pl) = Z.to_nat (zlen pl - n)) as E2 by (rewrite length_drop; unfold zlen in *; lia).
    destruct (delete_range_run (data_of v) h0 (drop (Z.to_nat n) pl) (take (Z.to_nat n) pl) h) as (h' & E & Ho); [by rewrite take_drop..|].
    rewrite E1, E2 in E. rewrite E. eexists _, (take (Z.to_nat n) pl), h'. split; [done|]. split.
    + constructor; cbn; [done| |unfold zlen; lia|done|done]. apply (points_take _ _ (drop (Z.to_nat n) pl)). by rewrite take_drop.
    + unfold abs, with_el. cbn. by rewrite fmap_take.
  - exists v, pl, h. split; [done|]. split; [done|]. unfold abs, with_el. cbn. rewrite take_ge; [done|]. rewrite length_fmap. unfold zlen in *. lia.
Qed.

Lemma trim_spec h0 v pl h : v_ok h0 v pl h -> step_ok h0 (v_step Trim v) h (a_step Trim (abs v pl)).
Proof.
  intros Hv. pose proof (v_bound _ _ _ _ Hv) as Hb. unfold step_ok, v_step, a_step, trimToSize, new_array. cbn [abs el cap]. rewrite zlen_fmap.
  pose proof Hv as [V1 V2 V3 V4 V5]. rewrite V3. destruct (negb (zlen pl =? _capacity v)); [|exists v, pl, h; done]. cbn [andb].
  destruct (array_room (zlen pl)); [|exists v, pl, h; done]. eexists _, pl, h. split; [done|]. split; [|done].
  pose proof (points_length _ _ V2). unfold zlen. rewrite Nat2Z.id. constructor; cbn; [done| |done| |unfold zlen in *; lia].
  - unfold points. rewrite take_take, Nat.min_id. exact V2.
  - unfold zlen. rewrite length_take. lia.
Qed.

(** *** Searching *)

Lemma indexOf_loop_run x d h0 h : forall pl2 pl1, owns h h0 (pl1 ++ pl2) -> points d (pl1 ++ pl2) ->
  indexOf_loop eqb x d (length pl2) (length pl1) h = Some (first_index x pl2.*2 (zlen pl1), h).
Proof.
  induction pl2 as [|[p a] pl2 IH]; intros pl1 Ho Hd; [done|]. cbn [length indexOf_loop]. unfold bind.
  rewrite (ptr_run _ _ _ _ _ h Hd), (deref_run _ _ _ _ _ _ Ho). cbn [fmap list_fmap first_index snd]. destruct (eqb a x); [done|].
  specialize (IH (pl1 ++ [(p, a)])). rewrite <- app_assoc in IH. specialize (IH Ho Hd). rewrite length_app, zlen_app in IH. cbn [length] in IH.
  by replace (length pl1 + 1)%nat with (S (length pl1)) in IH by lia.
Qed.

Lemma last_index_snoc x l : forall a i, 0 <= i -> last_index x (l ++ [a]) i = if eqb a x then i + zlen l else last_index x l i.
Proof.
  induction l as [|b l IH]; intros a i Hi; cbn [app last_index].
  - cbn. unfold zlen. cbn. destruct (eqb a x); [lia|done].
  - rewrite IH by lia. assert (zlen (b :: l) = 1 + zlen l) as Ez by (unfold zlen; cbn [length]; lia). pose proof (zlen_nonneg l). destruct (eqb a x); [|done].
    rewrite (proj2 (Z.leb_le _ _)) by lia. lia.
Qed.

Lemma lastIndexOf_loop_run x d h0 h : forall pl1 pl2, owns h h0 (pl1 ++ pl2) -> points d (pl1 ++ pl2) ->
  lastIndexOf_loop eqb x d (length pl1) h = Some (last_index x pl1.*2 0, h).
Proof.
  induction pl1 as [|[p a] pl1 IH] using rev_ind; intros pl2 Ho Hd; [done|]. rewrite <- app_assoc in Ho, Hd. cbn [app] in Ho, Hd.
  rewrite length_app. cbn [length]. rewrite Nat.add_1_r. cbn [lastIndexOf_loop]. unfold bind.
  rewrite (ptr_run _ _ _ _ _ h Hd), (deref_run _ _ _ _ _ _ Ho). rewrite fmap_app. cbn [fmap list_fmap snd]. rewrite last_index_snoc by lia.
  rewrite zlen_fmap. destruct (eqb a x); [done|]. by apply (IH ((p, a) :: pl2)).
Qed.

Lemma copyInto_loop_run d h0 h : forall pl2 pl1, owns h h0 (pl1 ++ pl2) -> points d (pl1 ++ pl2) ->
  copyInto_loop d (length pl2) (length pl1) h = Some (pl2.*2, h).
Proof.
  induction pl2 as [|[p a] pl2 IH]; intros pl1 Ho Hd; [done|]. cbn [length copyInto_loop]. unfold bind.
  rewrite (ptr_run _ _ _ _ _ h Hd), (deref_run _ _ _ _ _ _ Ho). specialize (IH (pl1 ++ [(p, a)])). rewrite <- app_assoc in IH. specialize (IH Ho Hd).
  rewrite length_app in IH. cbn [length] in IH. replace (length pl1 + 1)%nat with (S (length pl1)) in IH by lia. by rewrite IH.
Qed.

Lemma first_index_range x l : forall i, 0 <= i -> first_index x l i = -1 \/ i <= first_index x l i < i + zlen l.
Proof.
  induction l as [|a l IH]; intros i Hi; cbn [first_index]; [by left|]. assert (zlen (a :: l) = 1 + zlen l) as Ez by (unfold zlen; cbn [length]; lia). pose proof (zlen_nonneg l).
  destruct (eqb a x); [right; lia|]. destruct (IH (i + 1)); [lia|by left|right; lia].
Qed.

Lemma removeElement_loop_run x h0 v h pl : v_ok h0 v pl h -> forall pl2 pl1, pl = pl1 ++ pl2 ->
  let i := first_index x pl2.*2 (zlen pl1) in
  exists v' pl' h', removeElement_loop eqb x v (length pl2) (length pl1) h = Some ((0 <=? i, v'), h') /\ v_ok h0 v' pl' h' /\
    abs v' pl' = with_el (abs v pl) (if 0 <=? i then delete (Z.to_nat i) pl.*2 else pl.*2).
Proof.
  intros Hv. induction pl2 as [|[p a] pl2 IH]; intros pl1 E; cbv zeta; [exists v, pl, h; done|]. cbn [length removeElement_loop]. unfold bind. rewrite E in Hv.
  pose proof Hv as [V1 V2 _ _ _]. rewrite (ptr_run _ _ _ _ _ h V2), (deref_run _ _ _ _ _ _ V1). cbn [fmap list_fmap first_index snd].
  destruct (eqb a x).
  - destruct (removeAt_run h0 v pl1 p a pl2 h Hv) as (v' & Er & Hv' & Ec & Einc). unfold zlen in *. rewrite Er.
    exists v', (pl1 ++ pl2), (delete p h). rewrite (proj2 (Z.leb_le _ _)) by lia. split; [done|]. split; [done|].
    unfold abs, with_el. cbn. rewrite Ec, Einc. f_equal. rewrite Nat2Z.id, E, !fmap_app. cbn. rewrite <- (length_fmap snd pl1). by rewrite delete_middle.
  - specialize (IH (pl1 ++ [(p, a)])). rewrite <- app_assoc in IH. specialize (IH E). rewrite length_app, zlen_app in IH. cbn [length] in IH.
    replace (length pl1 + 1)%nat with (S (length pl1)) in IH by lia. exact IH.
Qed.

(** *** Sorting *)

Lemma place_snoc l a x : place (l ++ [a]) x = if 0 <? cmp a x then place l x ++ [a] else l ++ [a; x].
Proof.
  unfold place. rewrite reverse_snoc. cbn [place_rev]. destruct (0 <? cmp a x); [by rewrite reverse_cons|].
  by rewrite !reverse_cons, reverse_involutive, <- app_assoc.
Qed.

(** The inner loop: the key goes where [place] puts it, [moved] are the
    elements already moved up. *)
Lemma sort_inner_run h key kx : h !! key = Some kx -> forall acc moved d y rest,
  (forall p a, (p, a) ∈ acc -> h !! p = Some a) -> d = (Some <$> acc.*1) ++ y :: (Some <$> moved.*1) ++ rest ->
  exists i d', sort_inner cmp key (length acc) d h = Some ((i, d'), h) /\ (i < length d')%nat /\ length d' = length d /\
    exists acc1 acc2, acc = acc1 ++ acc2 /\ <[i := Some key]> d' = (Some <$> (acc1 ++ (key, kx) :: acc2 ++ moved).*1) ++ rest /\
      place acc.*2 kx = acc1.*2 ++ kx :: acc2.*2.
Proof.
  intros Hk. induction acc as [|[p a] acc IH] using rev_ind; intros moved d y rest Ho ->.
  - exists 0%nat. eexists. split; [done|]. split; [cbn; lia|]. split; [done|]. exists [], []. split; [done|]. split; [|done]. done.
  - rewrite length_app, Nat.add_1_r. cbn [sort_inner].
    set (d := (Some <$> (acc ++ [(p, a)]).*1) ++ y :: (Some <$> moved.*1) ++ rest).
    assert (d = (Some <$> acc.*1) ++ Some p :: y :: (Some <$> moved.*1) ++ rest) as Ed by (unfold d; rewrite !fmap_app, <- app_assoc; done).
    unfold bind at 1 2 3. unfold ptr_at. rewrite Ed, lookup_app_r by (rewrite !length_fmap; lia). rewrite !length_fmap, Nat.sub_diag. cbn [lookup list_lookup].
    unfold ret at 1. unfold deref at 1 2. rewrite (Ho p a) by (apply elem_of_app; right; by apply list_elem_of_singleton). rewrite Hk. rewrite fmap_app. cbn [fmap list_fmap snd]. rewrite place_snoc.
    destruct (0 <? cmp a kx).
    + unfold bind. rewrite set_ptr_run by (rewrite length_app, !length_fmap; cbn; lia).
      destruct (IH ((p, a) :: moved) (<[S (length acc) := Some p]> ((Some <$> acc.*1) ++ Some p :: y :: (Some <$> moved.*1) ++ rest)) (Some p) rest) as (i & d' & E & Hi & Hl & acc1 & acc2 & Eacc & Ed' & Ep).
      { intros q b Hq. apply Ho. apply elem_of_app. by left. }
      { rewrite insert_app_r_alt by (rewrite !length_fmap; lia). rewrite !length_fmap. replace (S (length acc) - length acc)%nat with 1%nat by lia. done. }
      exists i, d'. rewrite E. split; [done|]. split; [done|]. split; [by rewrite Hl, length_insert|]. exists acc1, (acc2 ++ [(p, a)]). split; [by rewrite Eacc, <- app_assoc|].
      split; [by rewrite Ed', <- app_assoc|]. rewrite Ep, fmap_app, <- app_assoc. done.
    + exists (S (length acc)), d. rewrite <- Ed. split; [done|]. assert (S (length acc) < length d)%nat as Hlen by (unfold d; rewrite length_app, !length_fmap, length_app; cbn; lia).
      split; [done|]. split; [done|]. exists (acc ++ [(p, a)]), []. split; [by rewrite app_nil_r|]. split; [|by rewrite fmap_app, <- app_assoc].
      unfold d. rewrite insert_app_r_alt by (rewrite !length_fmap, length_app; cbn; lia). rewrite !length_fmap, length_app. cbn [length].
      replace (S (length acc) - (length acc + 1))%nat with 0%nat by lia. cbn. rewrite !fmap_app. cbn. rewrite <- !app_assoc. done.
Qed.

Lemma sort_outer_run h0 h : forall todo acc d rest, owns h h0 (acc ++ todo) -> d = (Some <$> (acc ++ todo).*1) ++ rest ->
  exists d' pl', sort_outer cmp (length todo) (length acc) d h = Some (d', h) /\ owns h h0 pl' /\ d' = (Some <$> pl'.*1) ++ rest /\
    pl'.*2 = foldl place acc.*2 todo.*2 /\ pl' ≡ₚ acc ++ todo.
Proof.
  induction todo as [|[p a] todo IH]; intros acc d rest Ho Ed.
  { exists d, acc. rewrite app_nil_r in *. done. }
  cbn [length sort_outer]. unfold bind at 1 2. assert (points d (acc ++ (p, a) :: todo)) as Hd.
  { unfold points. rewrite Ed. apply take_app_length'. by rewrite !length_fmap. }
  rewrite (ptr_run _ _ _ _ _ h Hd).
  destruct (sort_inner_run h p a (owns_mid _ _ _ _ _ _ Ho) acc [] d (Some p) ((Some <$> todo.*1) ++ rest)) as (i & d1 & E & Hi & Hl & acc1 & acc2 & Eacc & Ed1 & Ep).
  { intros q b Hq. apply (owns_lookup _ _ _ _ _ Ho). apply elem_of_app. by left. }
  { rewrite Ed, !fmap_app, <- app_assoc. done. }
  rewrite E. unfold bind. rewrite set_ptr_run by done. rewrite app_nil_r in Ed1. cbn [fmap list_fmap foldl snd]. rewrite Ep.
  assert (acc1 ++ (p, a) :: acc2 ++ todo ≡ₚ acc ++ (p, a) :: todo) as Hperm.
  { rewrite Eacc, <- app_assoc. apply Permutation_app_head. apply (Permutation_middle acc2 todo (p, a)). }
  destruct (IH (acc1 ++ (p, a) :: acc2) (<[i := Some p]> d1) rest) as (d' & pl' & E' & Ho' & Ed' & Ep' & El').
  { rewrite <- app_assoc. eapply owns_perm; [exact Ho|]. by rewrite <- Hperm. }
  { by rewrite Ed1, app_assoc, <- !fmap_app. }
  exists d', pl'. replace (S (length acc)) with (length (acc1 ++ (p, a) :: acc2)) by (rewrite Eacc, !length_app; cbn; lia). split; [done|].
  split; [done|]. split; [done|]. split; [by rewrite Ep', fmap_app|]. by rewrite El', <- app_assoc, <- Hperm.
Qed.

Lemma sort_run h0 v pl h : v_ok h0 v pl h ->
  exists v' pl', sort cmp v h = Some (v', h) /\ v_ok h0 v' pl' h /\ abs v' pl' = with_el (abs v pl) (sorted_list pl.*2) /\ pl' ≡ₚ pl.
Proof.
  intros Hv. pose proof Hv as [V1 V2 V3 V4 V5]. unfold sort, bind. rewrite V3. pose proof (points_length _ _ V2) as Hl. destruct pl as [|[p a] pl].
  { cbn. eexists _, []. split; [done|]. split; [|done]. constructor; cbn; [done|done|done| |done]. rewrite V4. unfold data_of. by destruct (_data v). }
  assert (data_of v = (Some <$> ([(p, a)] ++ pl).*1) ++ drop (length ((p, a) :: pl)) (data_of v)) as Ed.
  { rewrite <- (take_drop (length ((p, a) :: pl)) (data_of v)) at 1. f_equal. exact V2. }
  destruct (sort_outer_run h0 h pl [(p, a)] (data_of v) _ V1 Ed) as (d' & pl' & E & Ho & Ed' & Ep & Hperm). cbn [length] in E. pose proof (Permutation_length Hperm) as El.
  replace (Z.to_nat (zlen ((p, a) :: pl)) - 1)%nat with (length pl) by (unfold zlen; cbn [length]; lia). rewrite E.
  assert (exists d0, _data v = Some d0) as [d0 E0] by (unfold data_of in Hl; destruct (_data v); [eauto|cbn in Hl; lia]). rewrite E0.
  eexists _, pl'. split; [done|]. cbn [app] in El. split; [|split; [|done]].
  - constructor; cbn; [done| |unfold zlen; by rewrite El| |done].
    + unfold points. rewrite Ed'. apply take_app_length'. by rewrite !length_fmap.
    + rewrite V4, Ed'. unfold zlen. rewrite length_app, !length_fmap, length_drop, El. lia.
  - unfold abs, with_el. cbn. f_equal. rewrite Ep. unfold sorted_list. cbn. done.
Qed.

(** *** Sequences of operations *)

Lemma v_step_refines h0 v pl h op : v_ok h0 v pl h -> v_valid op -> step_ok h0 (v_step op v) h (a_step op (abs v pl)).
Proof.
  intros Hv Hval. pose proof Hv as [V1 V2 V3 V4 V5]. assert (Z.to_nat (_size v) = length pl) as En by (rewrite V3; unfold zlen; lia).
  destruct op as [x|x i|i|x|x i|n|n| | | |i| | |x|x| |]; cbn [v_valid] in Hval.
  - by apply add_spec.
  - by apply insertAt_spec.
  - by apply removeAt_spec.
  - unfold step_ok, v_step, a_step, removeElement, bind. rewrite En. destruct (removeElement_loop_run x h0 v h pl Hv pl [] eq_refl) as (v' & pl' & h' & E & R).
    cbn [length] in E. change (zlen (@Datatypes.nil (positive * A))) with 0 in *. rewrite E. by exists v', pl', h'.
  - by apply set_spec.
  - by apply setSize_spec.
  - unfold step_ok, v_step, a_step. destruct (ensure_spec h0 v pl h n Hv) as (Hv' & Ea & _); [lia|]. by eexists _, pl, h.
  - by apply trim_spec.
  - unfold step_ok, v_step, a_step, bind. destruct (clear_run h0 v pl h Hv) as (v' & h' & -> & R). by exists v', [], h'.
  - unfold step_ok, v_step, a_step, bind. destruct (sort_run h0 v pl h Hv) as (v' & pl' & -> & R1 & R2 & _). by exists v', pl', h.
  - apply (element_spec h0 v pl h i (_size v <=? i)); [done|by left| |done]. rewrite V3, Z.leb_le. pose proof (zlen_nonneg pl). lia.
  - apply (element_spec h0 v pl h 0 (_size v =? 0)); [done|by left| |done]. rewrite V3, Z.eqb_eq. pose proof (zlen_nonneg pl). lia.
  - assert (el (abs v pl) = pl.*2) as El by done. unfold a_step. rewrite El, zlen_fmap. rewrite <- El.
    apply (element_spec h0 v pl h (zlen pl - 1) (_size v =? 0)); [done|pose proof (zlen_nonneg pl); lia| |].
    + rewrite V3, Z.eqb_eq. pose proof (zlen_nonneg pl). lia.
    + unfold lastElement. by rewrite V3.
  - unfold step_ok, v_step, a_step, indexOf, bind. pose proof (indexOf_loop_run x (data_of v) h0 h pl [] V1 V2) as E. cbn [length] in E. rewrite En, E. by exists v, pl, h.
  - unfold step_ok, v_step, a_step, lastIndexOf, bind. rewrite En, (lastIndexOf_loop_run x (data_of v) h0 h pl []) by (by rewrite app_nil_r). by exists v, pl, h.
  - unfold step_ok, v_step, a_step, Vector_size. cbn [abs el]. rewrite V3, zlen_fmap. by exists v, pl, h.
  - unfold step_ok, v_step, a_step, copyInto, bind. pose proof (copyInto_loop_run (data_of v) h0 h pl [] V1 V2) as E. cbn [length] in E. rewrite En, E. by exists v, pl, h.
Qed.

Fixpoint a_run (ops : list v_op) (a : avec) : option (list v_reply * avec) :=
  match ops with
  | [] => Some ([], a)
  | op :: ops =>
      match a_step op a with
      | None => None
      | Some (r, a) => match a_run ops a with Some (rs, a) => Some (r :: rs, a) | None => None end
      end
  end.
Fixpoint v_run (ops : list v_op) (v : Vector) : M (gmap positive A) (list v_reply * Vector) :=
  match ops with
  | [] => ret ([], v)
  | op :: ops => let! (r, v) := v_step op v in let! (rs, v) := v_run ops v in ret (r :: rs, v)
  end.

Lemma v_run_refines h0 ops : forall v pl h, v_ok h0 v pl h -> Forall v_valid ops ->
  match a_run ops (abs v pl) with
  | None => v_run ops v h = None
  | Some (rs, a) => exists v' pl' h', v_run ops v h = Some ((rs, v'), h') /\ v_ok h0 v' pl' h' /\ abs v' pl' = a
  end.
Proof.
  induction ops as [|op ops IH]; intros v pl h Hv Hval; cbn [a_run v_run]; [by exists v, pl, h|]. apply Forall_cons_1 in Hval as [Hval Hvals].
  pose proof (v_step_refines h0 v pl h op Hv Hval) as Hs. unfold step_ok in Hs. destruct (a_step op (abs v pl)) as [[r a]|].
  - destruct Hs as (v1 & pl1 & h1 & E1 & Hv1 & <-). specialize (IH v1 pl1 h1 Hv1 Hvals). unfold bind. rewrite E1.
    destruct (a_run ops (abs v1 pl1)) as [[rs a]|]; [|by rewrite IH]. destruct IH as (v2 & pl2 & h2 & -> & R). by exists v2, pl2, h2.
  - unfold bind. by rewrite Hs.
Qed.

Lemma new_ok h0 c i : 0 <= c < 2 ^ 32 ->
  v_ok h0 (Vector_new array_room c i) [] h0 /\
  abs (Vector_new array_room c i) [] = {| el := []; cap := if array_room c then c else 0; inc := if array_room c then i else 0 |}.
Proof.
  intros Hc. unfold Vector_new, new_array. destruct (array_room c); (split; [|done]); constructor; cbn; try apply owns_nil; try done; [|lia].
  unfold zlen. rewrite length_replicate. lia.
Qed.

(** C23. A [Vector] is a growing list that owns its elements: in any heap, for
    every sequence of additions, insertions, removals, assignments, resizes,
    trims, sorts, searches and element accesses on a new vector, the run stops
    only where the list has no such element (the [abort] of an element
    access); otherwise every reply is the list's, the array's slots in use
    point to distinct live cells that hold the list, capacity grows as
    specified, no pointer is freed twice or used after it is freed, and
    destroying the vector gives back exactly the heap it started from. *)
Theorem vector_refines (h0 : gmap positive A) (initialCapacity increment : Z) (ops : list v_op) :
  0 <= initialCapacity < 2 ^ 32 -> Forall v_valid ops ->
  let c := if array_room initialCapacity then initialCapacity else 0 in
  let i := if array_room initialCapacity then increment else 0 in
  match a_run ops {| el := []; cap := c; inc := i |} with
  | None => v_run ops (Vector_new array_room initialCapacity increment) h0 = None
  | Some (rs, a) =>
      exists v pl h, v_run ops (Vector_new array_room initialCapacity increment) h0 = Some ((rs, v), h) /\ v_ok h0 v pl h /\ abs v pl = a /\
        Vector_destroy v h = Some (tt, h0)
  end.
Proof.
  intros Hc Hv c i. destruct (new_ok h0 initialCapacity increment Hc) as [Hn Ea]. fold c i in Ea.
  pose proof (v_run_refines h0 ops _ [] h0 Hn Hv) as R. rewrite Ea in R. destruct (a_run ops _) as [[rs a]|]; [|done].
  destruct R as (v & pl & h & E & Hok & Eabs). exists v, pl, h. split; [done|]. split; [done|]. split; [done|].
  destruct (clear_run h0 v pl h Hok) as (v' & h' & E' & Hok' & _). unfold Vector_destroy, bind. rewrite E'. unfold ret. do 2 f_equal.
  by apply owns_only, Hok'.
Qed.

(** *** What sorting gives *)

Lemma place_rev_perm x r : place_rev x r ≡ₚ x :: r.
Proof. induction r as [|a r IH]; cbn; [done|]. destruct (0 <? cmp a x); [|done]. rewrite IH. apply perm_swap. Qed.

Lemma place_perm l x : place l x ≡ₚ l ++ [x].
Proof. unfold place. rewrite reverse_Permutation, place_rev_perm, reverse_Permutation. by rewrite Permutation_cons_append. Qed.

Lemma foldl_place_perm l : forall acc, foldl place acc l ≡ₚ acc ++ l.
Proof.
  induction l as [|x l IH]; intros acc; cbn; [by rewrite app_nil_r|]. rewrite IH, place_perm, <- app_assoc. done.
Qed.

(** A comparison that is total and transitive. *)
Definition total_order : Prop := (forall a b, 0 < cmp a b -> cmp b a <= 0) /\ (forall a b c, cmp a b <= 0 -> cmp b c <= 0 -> cmp a c <= 0).
Definition le_cmp (a b : A) : Prop := cmp a b <= 0.
Definition ge_cmp (a b : A) : Prop := cmp b a <= 0.

Lemma place_rev_sorted (T : total_order) x r : StronglySorted ge_cmp r -> StronglySorted ge_cmp (place_rev x r).
Proof.
  destruct T as [T1 T2]. induction 1 as [|a r Hr IH Ha]; cbn; [by repeat constructor|]. destruct (Z.ltb_spec 0 (cmp a x)) as [Hgt|Hle].
  - constructor; [done|]. rewrite place_rev_perm. constructor; [by apply T1|done].
  - constructor; [by constructor|]. constructor; [done|]. eapply Forall_impl; [exact Ha|]. intros b Hb. by eapply T2.
Qed.

Lemma sorted_reverse l : StronglySorted ge_cmp (reverse l) -> StronglySorted le_cmp l.
Proof.
  induction l as [|a l IH]; intros Hs; [constructor|]. rewrite reverse_cons in Hs. apply StronglySorted_app in Hs as (H1 & H2 & _).
  constructor; [by apply IH|]. apply Forall_forall. intros b Hb. apply (H1 b a); [by apply elem_of_reverse|by apply list_elem_of_singleton].
Qed.

Lemma foldl_place_sorted (T : total_order) l : forall acc, StronglySorted ge_cmp (reverse acc) -> StronglySorted le_cmp (foldl place acc l).
Proof.
  induction l as [|x l IH]; intros acc Ha; cbn; [by apply sorted_reverse|]. apply IH. unfold place. rewrite reverse_involutive. by apply place_rev_sorted.
Qed.
End Spec.
Arguments v_op : clear implicits.
Arguments v_reply : clear implicits.

(** [Vector::sort] sorts: with a comparison function that is total and
    transitive, a vector's cells after the call hold a permutation of the
    elements before it, in ascending order, and the elements themselves are
    neither copied nor freed (the heap is unchanged). *)
Theorem vector_sort_sorts {A : Type} (cmp : A -> A -> Z) (h0 h : gmap positive A) (v : Vector) (pl : list (positive * A)) :
  total_order cmp -> v_ok h0 v pl h ->
  exists v' pl', sort cmp v h = Some (v', h) /\ v_ok h0 v' pl' h /\ pl' ≡ₚ pl /\ StronglySorted (le_cmp cmp) pl'.*2.
Proof.
  intros T Hv. destruct (sort_run cmp h0 v pl h Hv) as (v' & pl' & E & Hv' & Ea & Hp). exists v', pl'. split; [done|]. split; [done|]. split; [done|].
  apply (f_equal el) in Ea. cbn in Ea. rewrite Ea. apply (foldl_place_sorted cmp T). constructor.
Qed.

(** Both theorems on a vector of three numbers in an empty heap. *)
Example vector_refines_witness :
  let ops := [Add 3; Add 1; InsertAt 2 0; SetAt 5 1; Sort; IndexOf 5; RemoveAt 0; CopyOut] in
  a_run Z.eqb (fun _ => true) Z.sub ops {| el := []; cap := 2; inc := 2 |} =
    Some ([VDone; VDone; VDone; VDone; VDone; VIndex 2; VDone; VList [2; 5]], {| el := [2; 5]; cap := 4; inc := 2 |}) /\
  match a_run Z.eqb (fun _ => true) Z.sub ops {| el := []; cap := 2; inc := 2 |} with
  | None => v_run Z.eqb (fun _ => true) Z.sub ops (Vector_new (fun _ => true) 2 2) ∅ = None
  | Some (rs, a) =>
      exists v pl h, v_run Z.eqb (fun _ => true) Z.sub ops (Vector_new (fun _ => true) 2 2) ∅ = Some ((rs, v), h) /\ v_ok ∅ v pl h /\ abs v pl = a /\
        Vector_destroy v h = Some (tt, ∅)
  end.
Proof.
  intros ops. split; [reflexivity|]. apply (vector_refines Z.eqb (fun _ => true) Z.sub ∅ 2 2 ops); [lia|]. repeat constructor; cbn; lia.
Defined.

Example vector_sort_sorts_witness :
  let v := {| _size := 2; _capacity := 2; _increment := 1; _data := Some [Some 1%positive; Some 2%positive] |} in
  let h := <[1%positive := 9]> (<[2%positive := 4]> ∅) : gmap positive Z in
  exists v' pl', sort Z.sub v h = Some (v', h) /\ v_ok ∅ v' pl' h /\ pl' ≡ₚ [(1%positive, 9); (2%positive, 4)] /\ StronglySorted (le_cmp Z.sub) pl'.*2.
Proof.
  intros v h. apply (vector_sort_sorts Z.sub ∅ h v [(1%positive, 9); (2%positive, 4)]).
  - split; intros; lia.
  - constructor; [|done|done|done|done].
    apply (owns_cons_new (<[2%positive := 4]> ∅) ∅ [(2%positive, 4)]); [|done]. apply (owns_cons_new ∅ ∅ []); [apply owns_nil|done].
Defined.

(** ** Copies *)

Section Copy.
Context {A : Type} (array_room : Z -> bool).
Implicit Types (h : gmap positive A) (pl : list (positive * A)) (v : Vector).

Lemma copy_elements_run src h0 hs pl : owns hs h0 pl -> points src pl -> forall pl2 pl1 cp d h,
  pl = pl1 ++ pl2 -> owns h hs cp -> points d cp -> length cp = length pl1 -> (length pl <= length d)%nat ->
  exists d' cp' h', copy_elements src (length pl2) (length pl1) d h = Some (d', h') /\ owns h' hs cp' /\ points d' cp' /\ length d' = length d /\
    cp'.*2 = cp.*2 ++ pl2.*2.
Proof.
  intros Hsrc Hps. induction pl2 as [|[p a] pl2 IH]; intros pl1 cp d h E Ho Hd Hl Hlen.
  { exists d, cp, h. rewrite app_nil_r. done. }
  assert (h !! p = Some a) as Hpa.
  { subst pl. rewrite (ow_frame _ _ _ Ho); [by apply (owns_mid _ _ _ _ _ _ Hsrc)|]. intros Hin. apply (ow_apart _ _ _ Ho) in Hin.
    by rewrite (owns_mid _ _ _ _ _ _ Hsrc) in Hin. }
  cbn [length copy_elements]. unfold bind. rewrite E in Hps. rewrite (ptr_run _ _ _ _ _ h Hps). unfold deref. rewrite Hpa. destruct (new_run h a) as [-> Hf].
  assert (length pl1 < length d)%nat as Hi by (rewrite E, length_app in Hlen; cbn in Hlen; lia).
  rewrite set_ptr_run by done. set (q := fresh (dom h)) in *. rewrite E in IH.
  destruct (IH (pl1 ++ [(p, a)]) (cp ++ [(q, a)]) (<[length pl1 := Some q]> d) (<[q := a]> h)) as (d' & cp' & h' & E' & O' & P' & L' & F').
  - by rewrite <- app_assoc.
  - apply owns_new; [by rewrite app_nil_r|done].
  - rewrite <- Hl. apply points_insert_end; [done|lia].
  - rewrite !length_app. cbn. lia.
  - rewrite length_insert, <- E. done.
  - exists d', cp', h'. rewrite length_app in E'. cbn [length] in E'. replace (length pl1 + 1)%nat with (S (length pl1)) in E' by lia. split; [done|].
    split; [done|]. split; [done|]. split; [by rewrite L', length_insert|]. rewrite F', fmap_app, <- app_assoc. done.
Qed.
End Copy.

(** The copy constructor makes a deep copy: if the array can be
    allocated, the new vector has the same elements in the same order, in cells
    of its own, and the original and the rest of the heap are untouched, so
    destroying the copy gives back the heap before it. *)
Theorem vector_copy_deep {A : Type} (array_room : Z -> bool) (h0 h : gmap positive A) (rhv : Vector) (pl : list (positive * A)) :
  v_ok h0 rhv pl h -> array_room (_capacity rhv) = true ->
  exists v' pl' h', copyFrom array_room {| _size := 0; _capacity := 0; _increment := 0; _data := None |} rhv h = Some (v', h') /\
    v_ok h v' pl' h' /\ pl'.*2 = pl.*2 /\ _capacity v' = _capacity rhv /\ Vector_destroy v' h' = Some (tt, h).
Proof.
  intros Hv Hroom. pose proof (v_bound _ _ _ _ Hv) as Hb. pose proof Hv as [V1 V2 V3 V4 V5]. pose proof (zlen_nonneg pl).
  assert (length (replicate (Z.to_nat (_capacity rhv)) (@None positive)) = Z.to_nat (_capacity rhv)) as Er by apply length_replicate.
  destruct (copy_elements_run (data_of rhv) h0 h pl V1 V2 pl [] [] (replicate (Z.to_nat (_capacity rhv)) None) h eq_refl (owns_nil h)) as (d & cp & h' & E & O & P & L & F);
    [done|done|rewrite Er; unfold zlen in *; lia|].
  assert (length cp = length pl) as El by (rewrite <- (length_fmap snd cp), F; cbn; apply length_fmap).
  unfold copyFrom, new_array, bind. rewrite bool_decide_true by done. cbn [negb]. unfold ret at 1. rewrite Hroom, V3. unfold zlen at 1. rewrite Nat2Z.id.
  cbn [length] in E. rewrite E. eexists _, cp, h'. split; [done|].
  assert (v_ok h {| _size := zlen pl; _capacity := _capacity rhv; _increment := _increment rhv; _data := Some d |} cp h') as Hok.
  { constructor; cbn; [done|done|unfold zlen; by rewrite El|unfold zlen in *; rewrite L, Er; lia|done]. }
  split; [exact Hok|]. split; [exact F|]. split; [done|].
  destruct (clear_run _ _ _ _ Hok) as (v'' & h'' & E' & Hok' & _). unfold Vector_destroy, bind. unfold ret in *. rewrite E'. do 2 f_equal.
  by apply owns_only, Hok'.
Qed.

Example vector_copy_deep_witness :
  let v := {| _size := 1; _capacity := 2; _increment := 1; _data := Some [Some 1%positive; None] |} in
  let h := <[1%positive := 9]> ∅ : gmap positive Z in
  exists v' pl' h', copyFrom (fun _ => true) {| _size := 0; _capacity := 0; _increment := 0; _data := None |} v h = Some (v', h') /\
    v_ok h v' pl' h' /\ pl'.*2 = [9] /\ _capacity v' = 2 /\ Vector_destroy v' h' = Some (tt, h).
Proof.
  intros v h. apply (vector_copy_deep (fun _ => true) ∅ h v [(1%positive, 9)]); [|done].
  constructor; [|done|done|done|done]. apply (owns_cons_new ∅ ∅ []); [apply owns_nil|done].
Defined.
