(* ===== verification/Esptool.v ===== *)
(** * esptool2: firmware images from ELF files

    [tools/esptool2/esptool2_elf.c], [esptool2_elf.h], [elf.h] and
    [esptool2.c]: the ELF reader, the image writer and the command line.

    The C library is modelled on a store of files by path: a [FILE] opened by
    the tool is its path, so an input that is also the output is one file.  The
    host is little-endian (the tool writes its structures as they lie in
    memory).  Whether [malloc] and [fopen] for writing succeed and how many
    bytes the output device takes are parameters.  [None] is undefined
    behaviour: a section entry that was never read, a name that runs out of the
    string table or of the 31-byte buffer.  Messages are not modelled. *)

From S2P Require Import Prelude.

Abbreviation path := (list Z).

(** What the host decides. *)
Class Host := {
  malloc_ok : Z -> bool;
  may_write : path -> bool;
  capacity : Z
}.

(** The store of files. *)
Abbreviation store := (@gmap (list Z) list_eq_dec list_countable (list Z)).

(** ** Structures *)

Definition le16 (b : list Z) (o : Z) : Z := getb b o + getb b (o + 1) * 2 ^ 8.
Definition le32 (b : list Z) (o : Z) : Z :=
  getb b o + getb b (o + 1) * 2 ^ 8 + getb b (o + 2) * 2 ^ 16 + getb b (o + 3) * 2 ^ 24.
Definition le32_bytes (x : Z) : list Z := [u8 x; u8 (x / 2 ^ 8); u8 (x / 2 ^ 16); u8 (x / 2 ^ 24)].

Record Elf32_Ehdr := {
  e_ident : list Z; e_type : Z; e_machine : Z; e_version : Z; e_entry : Z; e_phoff : Z; e_shoff : Z; e_flags : Z;
  e_ehsize : Z; e_phentsize : Z; e_phnum : Z; e_shentsize : Z; e_shnum : Z; e_shstrndx : Z
}.
Definition sizeof_Ehdr : Z := 52.
Definition load_Ehdr (b : list Z) : Elf32_Ehdr :=
  {| e_ident := slice b 0 16; e_type := le16 b 16; e_machine := le16 b 18; e_version := le32 b 20; e_entry := le32 b 24;
     e_phoff := le32 b 28; e_shoff := le32 b 32; e_flags := le32 b 36; e_ehsize := le16 b 40; e_phentsize := le16 b 42;
     e_phnum := le16 b 44; e_shentsize := le16 b 46; e_shnum := le16 b 48; e_shstrndx := le16 b 50 |}.

Record Elf32_Shdr := {
  sh_name : Z; sh_type : Z; sh_flags : Z; sh_addr : Z; sh_offset : Z; sh_size : Z; sh_link : Z; sh_info : Z;
  sh_addralign : Z; sh_entsize : Z
}.
Definition sizeof_Shdr : Z := 40.
Definition load_Shdr (b : list Z) : Elf32_Shdr :=
  {| sh_name := le32 b 0; sh_type := le32 b 4; sh_flags := le32 b 8; sh_addr := le32 b 12; sh_offset := le32 b 16;
     sh_size := le32 b 20; sh_link := le32 b 24; sh_info := le32 b 28; sh_addralign := le32 b 32; sh_entsize := le32 b 36 |}.

(** [name] is a pointer into [strings]: its offset. *)
Record MyElf_Section := { offset : Z; address : Z; size : Z; name : Z }.

(** An entry of [sections] is [None] until it is written. *)
Record MyElf_File := { fd : path; header : Elf32_Ehdr; strings : list Z; sections : list (option MyElf_Section) }.
Definition sizeof_MyElf_Section : Z := 24.
Definition sizeof_MyElf_File : Z := 80.

Record Section_Header := { sec_addr : Z; sec_size : Z }.
Definition store_Section_Header (h : Section_Header) : list Z := le32_bytes (sec_addr h) ++ le32_bytes (sec_size h).
Record Image_Header := { magic : Z; count : Z; byte2 : Z; byte3 : Z; entry : Z }.
Definition store_Image_Header (h : Image_Header) : list Z := [magic h; count h; byte2 h; byte3 h] ++ le32_bytes (entry h).

Definition IMAGE_PADDING : Z := 16.
Definition SECTION_PADDING : Z := 4.
Definition CHECKSUM_INIT : Z := 0xEF.
Definition BIN_MAGIC_IROM : Z := 0xEA.
Definition BIN_MAGIC_FLASH : Z := 0xE9.

(** ** The C library *)

(** [fseek(fd, off, SEEK_SET) || fread(p, 1, n, fd) != n]: the bytes, or
    nothing when the file is too short. *)
Definition fread_at (bytes : list Z) (off n : Z) : option (list Z) :=
  let b := slice bytes (Z.to_nat off) (Z.to_nat n) in
  if zlen b =? n then Some b else None.

(** [!strcmp(name, mem)] for a string [name] without its terminator. *)
Fixpoint strcmp_eq (name mem : list Z) : option bool :=
  match mem with
  | [] => None
  | c :: mem' =>
      match name with
      | [] => Some (c =? 0)
      | n :: name' => if c =? n then strcmp_eq name' mem' else Some false
      end
  end.

(** [strlen] and the string: the bytes before the terminator. *)
Fixpoint cstring (mem : list Z) : option (list Z) :=
  match mem with
  | [] => None
  | c :: mem' => if c =? 0 then Some [] else (fun s => c :: s) <$> cstring mem'
  end.

Section Tool.
Context {HO : Host}.

Definition fread_file (p : path) (off n : Z) : M store (option (list Z)) :=
  let! st := get in
  ret (match st !! p with Some bytes => fread_at bytes off n | None => None end).

(** [fopen(p, "wb")]. *)
Definition fopen_wb (p : path) : M store bool :=
  if may_write p then modify (<[p := []]>) ;;; ret true else ret false.

(** [fwrite(data, 1, n, f)]: the number of bytes the device took. *)
Definition fwrite (p : path) (data : list Z) : M store Z :=
  let! st := get in
  match st !! p with
  | Some bytes =>
      let taken := take (Z.to_nat (capacity - zlen bytes)) data in
      modify (<[p := bytes ++ taken]>) ;;; ret (zlen taken)
  | None => fault
  end.

Definition ftell (p : path) : M store Z :=
  let! st := get in match st !! p with Some bytes => ret (zlen bytes) | None => fault end.

Definition remove (p : path) : M store unit := modify (delete p).

(** ** [esptool2_elf.c] *)

(** The sections [0 .. e_shnum - 2]. *)
Fixpoint find_section (strings : list Z) (secs : list (option MyElf_Section)) (nm : list Z) : M store (option MyElf_Section) :=
  match secs with
  | [] => ret None
  | None :: _ => fault
  | Some s :: secs =>
      match strcmp_eq nm (drop (Z.to_nat (name s)) strings) with
      | None => fault
      | Some true => ret (Some s)
      | Some false => find_section strings secs nm
      end
  end.
Definition GetElfSection (elf : MyElf_File) (nm : list Z) : M store (option MyElf_Section) :=
  find_section (strings elf) (take (Z.to_nat (e_shnum (header elf) - 1)) (sections elf)) nm.

Definition GetElfSectionData (elf : MyElf_File) (section : MyElf_Section) : M store (option (list Z)) :=
  if nz (size section) && nz (offset section) then
    if malloc_ok (size section) then fread_file (fd elf) (offset section) (size section) else ret None
  else ret None.

(** The loop over the section headers: [break] leaves the rest of the [n]
    entries as [malloc] gave them. *)
Fixpoint load_sections (p : path) (h : Elf32_Ehdr) (i n : nat) : M store (list (option MyElf_Section)) :=
  match n with
  | O => ret [None]
  | S n =>
      let! r := fread_file p (u32 (e_shoff h + e_shentsize h * Z.of_nat i)) sizeof_Shdr in
      match r with
      | None => ret (replicate (S (S n)) None)
      | Some b =>
          let t := load_Shdr b in
          let! rest := load_sections p h (S i) n in
          ret (Some {| address := sh_addr t; offset := sh_offset t; size := sh_size t; name := sh_name t |} :: rest)
      end
  end.

Definition LoadElf (infile : path) : M store (option MyElf_File) :=
  if negb (malloc_ok sizeof_MyElf_File) then ret None else
  let! hd := fread_file infile 0 sizeof_Ehdr in
  match hd with
  | None => ret None
  | Some hb =>
      let h := load_Ehdr hb in
      if negb (bool_decide (take 4 (e_ident h) = 0x7f :: string_bytes "ELF"%string)) then ret None
      else if e_shstrndx h =? 0 then ret None
      else
        let! th := fread_file infile (u32 (e_shoff h + e_shentsize h * e_shstrndx h)) sizeof_Shdr in
        match th with
        | None => ret None
        | Some tb =>
            let temp := load_Shdr tb in
            if sh_size temp =? 0 then ret None
            else if negb (malloc_ok (sh_size temp)) then ret None
            else
              let! strs := fread_file infile (sh_offset temp) (sh_size temp) in
              match strs with
              | None => ret None
              | Some strs =>
                  if negb (malloc_ok (sizeof_MyElf_Section * e_shnum h)) then ret None
                  else
                    let! secs := load_sections infile h 1 (Z.to_nat (e_shnum h - 1)) in
                    ret (Some {| fd := infile; header := h; strings := strs; sections := secs |})
              end
        end
  end.

(** ** [esptool2.c]: images *)

(** [while] over the bytes: the checksum of a section. *)
Definition xor_bytes (chksum : Z) (data : list Z) : Z := foldl Z.lxor chksum data.

(** The pad of a section of [sz] bytes to a multiple of [padto]. *)
Definition section_pad (sz padto : Z) : Z :=
  if nz padto then (if sz mod padto >? 0 then padto - sz mod padto else 0) else 0.

(** [chksum] is the variable a non-null pointer designates; the result is
    success and its new value. *)
Definition WriteElfSection (elf : MyElf_File) (outfile : path) (nm : list Z) (headed zeroaddr : bool) (padto : Z)
    (chksum : option Z) : M store (bool * option Z) :=
  let! sect := GetElfSection elf nm in
  match sect with
  | None => ret (false, chksum)
  | Some sect =>
      let pad := section_pad (size sect) padto in
      let sechead := {| sec_addr := if zeroaddr then 0 else address sect; sec_size := u32 (size sect + pad) |} in
      let! bindata := GetElfSectionData elf sect in
      match bindata with
      | None => ret (false, chksum)
      | Some bindata =>
          let! ok1 := (if headed then let! n := fwrite outfile (store_Section_Header sechead) in ret (n =? 8) else ret true) in
          if negb ok1 then ret (false, chksum) else
          let! n2 := fwrite outfile bindata in
          if negb (n2 =? size sect) then ret (false, chksum) else
          let! ok3 := (if pad >? 0 then let! n := fwrite outfile (replicate (Z.to_nat pad) 0) in ret (n =? pad) else ret true) in
          if negb ok3 then ret (false, chksum) else
          ret (true, (fun c => xor_bytes c bindata) <$> chksum)
      end
  end.

Definition irom0_text : list Z := string_bytes ".irom0.text"%string.

Definition ExportElfSection (infile outfile : path) (nm : list Z) : M store bool :=
  let! elf := LoadElf infile in
  match elf with
  | None => ret false
  | Some elf =>
      let! ok := fopen_wb outfile in
      if negb ok then ret false else
      let! (r, _) := WriteElfSection elf outfile nm false false 0 None in
      ret r
  end.

(** The loop over the named sections of an image. *)
Fixpoint write_sections (elf : MyElf_File) (outfile : path) (names : list (list Z)) (chksum : Z) : M store (bool * Z) :=
  match names with
  | [] => ret (true, chksum)
  | nm :: names =>
      let! (r, c) := WriteElfSection elf outfile nm true false SECTION_PADDING (Some chksum) in
      let c := default chksum c in
      if r then write_sections elf outfile names c else ret (false, c)
  end.

(** Lines 304-316: the header of boot v1.2 and the library. *)
Definition write_boot2 (elf : MyElf_File) (outfile : path) (imghead : Image_Header) (iromchksum : bool) (chksum : Z)
  : M store (bool * Z) :=
  let! n := fwrite outfile (store_Image_Header imghead) in
  if negb (n =? 8) then ret (false, chksum) else
  let! (r, c) := WriteElfSection elf outfile irom0_text true true IMAGE_PADDING (if iromchksum then Some chksum else None) in
  ret (r, default chksum c).

(** Lines 354-375: [0xff] up to the position of the library, and the library. *)
Definition write_boot1 (elf : MyElf_File) (outfile : path) : M store bool :=
  let! pos := ftell outfile in
  let len := s32 (0x10000 - pos) in
  if negb ((0 <=? len) && malloc_ok len) then ret false else
  let! n := fwrite outfile (replicate (Z.to_nat len) 0xff) in
  if negb (n =? len) then ret false else
  let! (r, _) := WriteElfSection elf outfile irom0_text false false 0 None in
  ret r.

(** Lines 334-352: the padding and the checksum. *)
Definition write_trailer (outfile : path) (chksum : Z) : M store bool :=
  let! pos := ftell outfile in
  let pad := Z.rem (s32 (pos + 1)) IMAGE_PADDING in
  let! ok := (if pad >? 0 then
                let! n := fwrite outfile (replicate (Z.to_nat (IMAGE_PADDING - pad)) 0) in ret (n =? IMAGE_PADDING - pad)
              else ret true) in
  if negb ok then ret false else
  let! n := fwrite outfile [chksum] in
  ret (n =? 1).

(** Lines 294-298 with the two fields each header sets. *)
Definition image_header (elf : MyElf_File) (m c md ck sz : Z) : Image_Header :=
  {| magic := m; count := c; byte2 := md; byte3 := Z.land (Z.lor (Z.shiftl sz 4) ck) 0xff; entry := e_entry (header elf) |}.

Definition CreateBinFile (elffile imagefile : path) (bootver mode clock sz : Z) (iromchksum : bool) (names : list (list Z))
  : M store bool :=
  let! elf := LoadElf elffile in
  match elf with
  | None => ret false
  | Some elf =>
      let! ok := fopen_wb imagefile in
      if negb ok then ret false else
      let imghead m c := image_header elf m c mode clock sz in
      let! (r, chksum) :=
        (if bootver =? 2 then write_boot2 elf imagefile (imghead BIN_MAGIC_IROM 4) iromchksum CHECKSUM_INIT
         else ret (true, CHECKSUM_INIT)) in
      if negb r then ret false else
      let! n := fwrite imagefile (store_Image_Header (imghead BIN_MAGIC_FLASH (u8 (zlen names)))) in
      if negb (n =? 8) then ret false else
      let! (r, chksum) := write_sections elf imagefile names chksum in
      if negb r then ret false else
      let! r := write_trailer imagefile chksum in
      if negb r then ret false else
      if bootver =? 1 then write_boot1 elf imagefile else ret true
  end.

(** ** [esptool2.c]: C headers *)

(** Digits of [n] in base [b], most significant first. *)
Fixpoint digits (fuel : nat) (b n : Z) (acc : list Z) : list Z :=
  match fuel with
  | O => acc
  | S fuel =>
      let d := n mod b in
      let acc := (if d <? 10 then 0x30 + d else 0x61 + (d - 10)) :: acc in
      if n / b =? 0 then acc else digits fuel b (n / b) acc
  end.
(** [%0<w>x] of an unsigned and [%d] of an int. *)
Definition fmt_hex (w : nat) (n : Z) : list Z := let d := digits 8 16 n [] in replicate (w - length d) 0x30 ++ d.
Definition fmt_dec (n : Z) : list Z := if n <? 0 then 0x2d :: digits 10 10 (- n) [] else digits 10 10 n [].

Definition fprintf (p : path) (s : list Z) : M store unit := let! _ := fwrite p s in ret tt.

(** [strncpy(name, sect->name, 31)] and [strlen(name)]: a name of 31 bytes or
    more has no terminator in the buffer. *)
Definition fixed_name (elf : MyElf_File) (sect : MyElf_Section) : option (list Z) :=
  match cstring (drop (Z.to_nat (name sect)) (strings elf)) with
  | Some s => if (length s <? 31)%nat then Some ((fun c => if c =? 0x2e then 0x5f else c) <$> s) else None
  | None => None
  end.

(** The bytes of the data block, sixteen in a line. *)
Fixpoint write_data (p : path) (j : Z) (data : list Z) : M store unit :=
  match data with
  | [] => ret tt
  | b :: data =>
      fprintf p ((if j mod 16 =? 0 then [0x0d; 0x0a; 0x20; 0x20] else [0x20]) ++ string_bytes "0x"%string ++ fmt_hex 2 b ++ [0x2c]) ;;;
      write_data p (j + 1) data
  end.

Definition crlf : list Z := [0x0d; 0x0a].

Fixpoint write_blocks (elf : MyElf_File) (p : path) (names : list (list Z)) : M store bool :=
  match names with
  | [] => ret true
  | nm :: names =>
      let! sect := GetElfSection elf nm in
      match sect with
      | None => ret false
      | Some sect =>
          match fixed_name elf sect with
          | None => fault
          | Some id =>
              fprintf p (crlf ++ string_bytes "const uint32 "%string ++ id ++ string_bytes "_addr = 0x"%string ++ fmt_hex 8 (address sect) ++ [0x3b] ++
                         crlf ++ string_bytes "const uint32 "%string ++ id ++ string_bytes "_len = "%string ++ fmt_dec (s32 (size sect)) ++ [0x3b] ++
                         crlf ++ string_bytes "const uint8  "%string ++ id ++ string_bytes "_data[] = {"%string) ;;;
              let! bindata := GetElfSectionData elf sect in
              match bindata with
              | None => ret false
              | Some bindata =>
                  write_data p 0 bindata ;;;
                  fprintf p (crlf ++ string_bytes "};"%string ++ crlf) ;;;
                  write_blocks elf p names
              end
          end
      end
  end.

Definition CreateHeaderFile (elffile imagefile : path) (names : list (list Z)) : M store bool :=
  let! elf := LoadElf elffile in
  match elf with
  | None => ret false
  | Some elf =>
      let! ok := fopen_wb imagefile in
      if negb ok then ret false else
      fprintf imagefile (string_bytes "const uint32 entry_addr = 0x"%string ++ fmt_hex 8 (e_entry (header elf)) ++ [0x3b] ++ crlf) ;;;
      write_blocks elf imagefile names
  end.

(** ** [esptool2.c]: the command line *)

Record options := {
  binfile : bool; libfile : bool; headerfile : bool; paramerror : bool; iromchksum : bool; quieton : bool; debugon : bool;
  bootver : Z; mode : Z; flash_size : Z; clock : Z; opts : Z
}.
Definition options0 : options :=
  {| binfile := false; libfile := false; headerfile := false; paramerror := false; iromchksum := false; quieton := false;
     debugon := false; bootver := 0; mode := 0; flash_size := 0; clock := 0; opts := 0 |}.
Definition set_build (b l h : bool) (o : options) : options :=
  {| binfile := binfile o || b; libfile := libfile o || l; headerfile := headerfile o || h; paramerror := paramerror o;
     iromchksum := iromchksum o; quieton := quieton o; debugon := debugon o; bootver := bootver o; mode := mode o;
     flash_size := flash_size o; clock := clock o; opts := opts o + 1 |}.
Definition set_flags (pe ic q d : bool) (o : options) : options :=
  {| binfile := binfile o; libfile := libfile o; headerfile := headerfile o; paramerror := paramerror o || pe;
     iromchksum := iromchksum o || ic; quieton := quieton o || q; debugon := debugon o || d; bootver := bootver o;
     mode := mode o; flash_size := flash_size o; clock := clock o; opts := opts o |}.
Definition set_spi (bv md sz ck : option Z) (o : options) : options :=
  {| binfile := binfile o; libfile := libfile o; headerfile := headerfile o; paramerror := paramerror o;
     iromchksum := iromchksum o; quieton := quieton o; debugon := debugon o; bootver := default (bootver o) bv;
     mode := default (mode o) md; flash_size := default (flash_size o) sz; clock := default (clock o) ck; opts := opts o |}.

(** One option; [None] when the argument is none. *)
Definition parse_option (a : list Z) (o : options) : option options :=
  let eqs (s : String.string) := bool_decide (a = string_bytes s) in
  if eqs "-bin"%string then Some (set_build true false false o)
  else if eqs "-lib"%string then Some (set_build false true false o)
  else if eqs "-header"%string then Some (set_build false false true o)
  else if eqs "-quiet"%string then Some (set_flags false false true false o)
  else if eqs "-debug"%string then Some (set_flags false false false true o)
  else if eqs "-boot0"%string then Some (set_spi (Some 0) None None None o)
  else if eqs "-boot1"%string then Some (set_spi (Some 1) None None None o)
  else if eqs "-boot2"%string then Some (set_spi (Some 2) None None None o)
  else if eqs "-qio"%string then Some (set_spi None (Some 0) None None o)
  else if eqs "-qout"%string then Some (set_spi None (Some 1) None None o)
  else if eqs "-dio"%string then Some (set_spi None (Some 2) None None o)
  else if eqs "-dout"%string then Some (set_spi None (Some 3) None None o)
  else if eqs "-256"%string then Some (set_spi None None (Some 1) None o)
  else if eqs "-512"%string then Some (set_spi None None (Some 0) None o)
  else if eqs "-1024"%string then Some (set_spi None None (Some 2) None o)
  else if eqs "-2048"%string then Some (set_spi None None (Some 3) None o)
  else if eqs "-4096"%string then Some (set_spi None None (Some 4) None o)
  else if eqs "-20"%string then Some (set_spi None None None (Some 2) o)
  else if eqs "-26.7"%string then Some (set_spi None None None (Some 1) o)
  else if eqs "-40"%string then Some (set_spi None None None (Some 0) o)
  else if eqs "-80"%string then Some (set_spi None None None (Some 15) o)
  else if eqs "-iromchksum"%string then Some (set_flags false true false false o)
  else None.

(** The loop: the options and the arguments behind them. *)
Fixpoint parse_options (args : list (list Z)) (o : options) : options * list (list Z) :=
  match args with
  | [] => (o, [])
  | a :: rest =>
      match parse_option a o with
      | Some o => parse_options rest o
      | None =>
          if bool_decide (a = string_bytes "--"%string) then (o, rest)
          else if getb a 0 =? 0x2d then (set_flags true false false false o, args)
          else (o, args)
      end
  end.

(** [main] with the arguments behind the program's name; the exit code. *)
Definition main (args : list (list Z)) : M store Z :=
  let '(o, rest) := parse_options args options0 in
  if paramerror o then ret (-1)
  else if zlen args <? 1 then ret (-1)
  else if negb (opts o =? 1) then ret (-1)
  else if quieton o && debugon o then ret (-1)
  else if (libfile o && (zlen rest <? 2)) || ((binfile o || headerfile o) && (zlen rest <? 3)) then ret (-1)
  else if libfile o && (zlen rest >? 2) then ret (-1)
  else
    match rest with
    | infile :: outfile :: names =>
        let! r :=
          (if binfile o then CreateBinFile infile outfile (bootver o) (mode o) (clock o) (flash_size o) (iromchksum o) names
           else if headerfile o then CreateHeaderFile infile outfile names
           else ExportElfSection infile outfile irom0_text) in
        if r then ret 0 else (remove outfile ;;; ret (-1))
    | _ => fault
    end.

(** ** What the writer appends *)

Implicit Types (out p : path) (st : store) (bytes data nm : list Z) (elf : MyElf_File) (sect : MyElf_Section).

(** The section [sect] of [elf] by its name, with its bytes. *)
Definition section_of (st : store) (elf : MyElf_File) (nm : list Z) (sect : MyElf_Section) (data : list Z) : Prop :=
  GetElfSection elf nm st = Some (Some sect, st) /\ GetElfSectionData elf sect st = Some (Some data, st).

Definition section_image (headed zeroaddr : bool) (padto : Z) (sect : MyElf_Section) (data : list Z) : list Z :=
  (if headed then store_Section_Header {| sec_addr := if zeroaddr then 0 else address sect;
                                          sec_size := u32 (size sect + section_pad (size sect) padto) |} else []) ++
  data ++ replicate (Z.to_nat (section_pad (size sect) padto)) 0.

Lemma wp_fwrite out bytes data (Q : Z -> store -> Prop) st :
  st !! out = Some bytes -> zlen bytes + zlen data <= capacity ->
  Q (zlen data) (<[out := bytes ++ data]> st) -> wp (fwrite out data) Q st.
Proof.
  intros Ho Hc HQ. unfold fwrite. wp_step. wp_step. rewrite Ho. wp_step. wp_step. apply wp_ret.
  rewrite take_ge by (unfold zlen in *; lia). done.
Qed.

Lemma find_section_pure strs secs nm st r st' : find_section strs secs nm st = Some (r, st') -> st' = st /\ forall st2, find_section strs secs nm st2 = Some (r, st2).
Proof.
  induction secs as [|[sc|] secs IH]; cbn; [by intros [= <- <-]| |done].
  destruct (strcmp_eq nm _) as [[|]|]; [by intros [= <- <-]|exact IH|done].
Qed.

Lemma GetElfSectionData_local elf sect st st2 d :
  GetElfSectionData elf sect st = Some (d, st) -> st2 !! fd elf = st !! fd elf -> GetElfSectionData elf sect st2 = Some (d, st2).
Proof.
  unfold GetElfSectionData, fread_file, ret, bind, get. intros E1 E2.
  destruct (_ && _); [|by injection E1 as <-]. destruct (malloc_ok _); [|by injection E1 as <-]. rewrite E2. by injection E1 as <-.
Qed.

Lemma section_of_store st st2 elf nm sect data :
  section_of st elf nm sect data -> st2 !! fd elf = st !! fd elf -> section_of st2 elf nm sect data.
Proof.
  intros [H1 H2] E. split; [|by eapply GetElfSectionData_local]. apply find_section_pure in H1 as [_ H1]. apply H1.
Qed.

Lemma section_of_length st elf nm sect data : section_of st elf nm sect data -> zlen data = size sect.
Proof.
  intros [_ H2]. unfold GetElfSectionData, fread_file, ret, bind, get in H2.
  destruct (_ && _); [|done]. destruct (malloc_ok _); [|done]. destruct (st !! fd elf) as [b|]; [|done].
  unfold fread_at in H2. destruct (Z.eqb_spec (zlen (slice b (Z.to_nat (offset sect)) (Z.to_nat (size sect)))) (size sect)); [|done].
  by injection H2 as <-.
Qed.

Lemma section_pad_range sz padto : 0 <= padto -> 0 <= section_pad sz padto.
Proof.
  intros Hp. unfold section_pad. destruct (nz padto) eqn:E; [|done]. apply nz_true in E.
  pose proof (Z.mod_pos_bound sz padto). destruct (_ >? 0); lia.
Qed.

Lemma wp_WriteElfSection elf out nm (headed zeroaddr : bool) (padto : Z) (chk : option Z) sect data bytes st (Q : bool * option Z -> store -> Prop) :
  section_of st elf nm sect data -> st !! out = Some bytes -> 0 <= padto ->
  zlen bytes + zlen (section_image headed zeroaddr padto sect data) <= capacity ->
  Q (true, (fun c => xor_bytes c data) <$> chk) (<[out := bytes ++ section_image headed zeroaddr padto sect data]> st) ->
  wp (WriteElfSection elf out nm headed zeroaddr padto chk) Q st.
Proof.
  intros Hs Ho Hpad Hc HQ. pose proof (section_of_length _ _ _ _ _ Hs) as Hl. destruct Hs as [H1 H2].
  pose proof (section_pad_range (size sect) padto Hpad) as Hp.
  unfold section_image in *. set (pad := section_pad (size sect) padto) in *.
  set (hd := if headed then _ else _) in *. rewrite !zlen_app in Hc.
  unfold WriteElfSection. apply wp_bind. apply (wp_exact _ _ _ _ _ H1).
  pose proof (zlen_nonneg hd). pose proof (zlen_nonneg data). pose proof (zlen_nonneg (replicate (Z.to_nat pad) 0)).
  apply wp_bind. apply (wp_exact _ _ _ _ _ H2). fold pad. apply wp_bind.
  apply (wp_mono _ (fun ok st' => ok = true /\ st' = <[out := bytes ++ hd]> st)).
  { unfold hd in *. destruct headed.
    - apply wp_bind. apply (wp_fwrite out bytes); [done|lia|]. by apply wp_ret.
    - apply wp_ret. rewrite app_nil_r. by rewrite insert_id. }
  intros ? ? [-> ->]. cbn [negb]. apply wp_bind. apply (wp_fwrite out (bytes ++ hd)); [apply lookup_insert_eq|rewrite zlen_app; lia|].
  rewrite Hl, Z.eqb_refl. cbn [negb]. rewrite insert_insert_eq. apply wp_bind.
  apply (wp_mono _ (fun ok st' => ok = true /\ st' = <[out := ((bytes ++ hd) ++ data) ++ replicate (Z.to_nat pad) 0]> st)).
  { destruct (Z.gtb_spec pad 0) as [Hgt|Hle].
    - apply wp_bind. apply (wp_fwrite out ((bytes ++ hd) ++ data)); [apply lookup_insert_eq|rewrite !zlen_app; lia|].
      apply wp_ret. split; [|apply insert_insert_eq]. unfold zlen. rewrite length_replicate. apply Z.eqb_eq. lia.
    - apply wp_ret. replace pad with 0 by lia. cbn. by rewrite app_nil_r. }
  intros ? ? [-> ->]. cbn [negb]. apply wp_ret. rewrite <- !app_assoc. exact HQ.
Qed.

(** ** The image as a whole *)

Implicit Types (secs : list (MyElf_Section * list Z)) (names : list (list Z)).

(** The named sections of the file. *)
Definition sections_of st elf names secs : Prop :=
  Forall2 (fun nm sd => section_of st elf nm (fst sd) (snd sd)) names secs.
Definition image_sections secs : list Z :=
  concat ((fun sd => section_image true false SECTION_PADDING (fst sd) (snd sd)) <$> secs).
Definition checksum (chk : Z) (blocks : list (list Z)) : Z := foldl xor_bytes chk blocks.

(** Behind [n] bytes: zeros up to the last byte of a block of sixteen. *)
Definition trailer (n chk : Z) : list Z := replicate (Z.to_nat ((15 - n) mod 16)) 0 ++ [chk].

Lemma sections_of_store st st2 elf names secs :
  sections_of st elf names secs -> st2 !! fd elf = st !! fd elf -> sections_of st2 elf names secs.
Proof. intros Hs E. eapply Forall2_impl; [exact Hs|]. intros nm sd Hsd. exact (section_of_store _ _ _ _ _ _ Hsd E). Qed.

Lemma wp_write_sections elf out names secs chk bytes st (Q : bool * Z -> store -> Prop) :
  sections_of st elf names secs -> out <> fd elf -> st !! out = Some bytes ->
  zlen bytes + zlen (image_sections secs) <= capacity ->
  Q (true, checksum chk secs.*2) (<[out := bytes ++ image_sections secs]> st) ->
  wp (write_sections elf out names chk) Q st.
Proof.
  intros Hs Hne. revert secs chk bytes st Hs. induction names as [|nm names IH]; intros secs chk bytes st Hs Ho Hc HQ.
  - apply Forall2_nil_inv_l in Hs as ->. cbn. apply wp_ret. cbn in HQ. by rewrite app_nil_r, insert_id in HQ.
  - apply Forall2_cons_inv_l in Hs as ([sect data] & secs' & Hsd & Hs & ->). cbn [fst snd] in Hsd.
    unfold image_sections in Hc, HQ. cbn [fmap list_fmap concat fst snd] in Hc, HQ. fold (image_sections secs') in Hc, HQ.
    rewrite zlen_app in Hc. pose proof (zlen_nonneg (image_sections secs')).
    cbn [write_sections]. apply wp_bind. eapply wp_WriteElfSection; [done|done|done|lia|]. cbn [default fmap option_fmap option_map from_option].
    eapply (IH secs'); [|apply lookup_insert_eq|rewrite zlen_app; lia|].
    + eapply sections_of_store; [done|]. by rewrite lookup_insert_ne.
    + rewrite insert_insert_eq, <- app_assoc. exact HQ.
Qed.

Lemma wp_write_trailer out chk bytes st (Q : bool -> store -> Prop) :
  st !! out = Some bytes -> zlen bytes + 16 <= capacity -> zlen bytes < 2 ^ 31 - 1 ->
  Q true (<[out := bytes ++ trailer (zlen bytes) chk]> st) ->
  wp (write_trailer out chk) Q st.
Proof.
  intros Ho Hc Hlt HQ. pose proof (zlen_nonneg bytes) as Hn. unfold write_trailer, ftell. apply wp_bind, wp_bind, wp_get. rewrite Ho.
  apply wp_ret. rewrite s32_small by lia. rewrite Z.rem_mod_nonneg by (unfold IMAGE_PADDING; lia). apply wp_bind.
  set (n := zlen bytes) in *. unfold trailer in HQ.
  assert ((15 - n) mod 16 = if (n + 1) mod IMAGE_PADDING >? 0 then IMAGE_PADDING - (n + 1) mod IMAGE_PADDING else 0) as Epad.
  { unfold IMAGE_PADDING. destruct (Z.gtb_spec ((n + 1) mod 16) 0); Z.div_mod_to_equations; lia. }
  pose proof (Z.mod_pos_bound (15 - n) 16 ltac:(lia)) as Hb. rewrite app_assoc in HQ.
  apply (wp_mono _ (fun ok st' => ok = true /\ st' = <[out := bytes ++ replicate (Z.to_nat ((15 - n) mod 16)) 0]> st)).
  { rewrite Epad. destruct (_ >? 0) eqn:E.
    - apply wp_bind. apply (wp_fwrite out bytes); [done|unfold zlen in *; rewrite length_replicate; lia|].
      apply wp_ret. split; [|done]. unfold zlen. rewrite length_replicate. apply Z.eqb_eq. lia.
    - apply wp_ret. cbn. by rewrite app_nil_r, insert_id. }
  intros ? ? [-> ->]. cbn [negb]. apply wp_bind.
  apply (wp_fwrite out (bytes ++ replicate (Z.to_nat ((15 - n) mod 16)) 0)); [apply lookup_insert_eq| |].
  - rewrite zlen_app. unfold zlen at 2 3. rewrite length_replicate. cbn. fold n. lia.
  - rewrite insert_insert_eq. apply wp_ret. exact HQ.
Qed.

(** The three parts: the library of boot v1.2 in front, the program with its
    trailer, the library of boot v1.1 behind. *)
Definition image_front elf (bv md ck sz : Z) (irom : MyElf_Section * list Z) : list Z :=
  if bv =? 2 then store_Image_Header (image_header elf BIN_MAGIC_IROM 4 md ck sz) ++
                  section_image true true IMAGE_PADDING (fst irom) (snd irom) else [].
Definition image_program elf (md ck sz : Z) secs : list Z :=
  store_Image_Header (image_header elf BIN_MAGIC_FLASH (u8 (zlen secs)) md ck sz) ++ image_sections secs.
Definition image_back (bv n : Z) (irom : MyElf_Section * list Z) : list Z :=
  if bv =? 1 then replicate (Z.to_nat (0x10000 - n)) 0xff ++ section_image false false 0 (fst irom) (snd irom) else [].
Definition image_checksum (bv : Z) (ic : bool) (irom : MyElf_Section * list Z) secs : Z :=
  checksum CHECKSUM_INIT ((if (bv =? 2) && ic then [snd irom] else []) ++ secs.*2).
Definition image elf (bv md ck sz : Z) (ic : bool) (irom : MyElf_Section * list Z) secs : list Z :=
  let front := image_front elf bv md ck sz irom in
  let prog := image_program elf md ck sz secs in
  let main := front ++ prog ++ trailer (zlen front + zlen prog) (image_checksum bv ic irom secs) in
  main ++ image_back bv (zlen main) irom.

(** The room the image needs. *)
Definition image_fits elf (bv md ck sz : Z) (ic : bool) (irom : MyElf_Section * list Z) secs : Prop :=
  let n := zlen (image_front elf bv md ck sz irom) + zlen (image_program elf md ck sz secs) in
  n < 2 ^ 31 - 1 /\ n + 16 <= capacity /\ zlen (image elf bv md ck sz ic irom secs) <= capacity /\
  (bv = 1 -> n + 16 <= 0x10000 /\ forall x, 0 <= x <= 0x10000 -> malloc_ok x = true).

Lemma zlen_trailer n c : zlen (trailer n c) = (15 - n) mod 16 + 1.
Proof.
  unfold trailer. rewrite zlen_app. unfold zlen. rewrite length_replicate. pose proof (Z.mod_pos_bound (15 - n) 16). cbn. lia.
Qed.

Lemma wp_write_boot1 elf out irom bytes st (Q : bool -> store -> Prop) :
  section_of st elf irom0_text (fst irom) (snd irom) -> out <> fd elf -> st !! out = Some bytes ->
  zlen bytes <= 0x10000 -> (forall x, 0 <= x <= 0x10000 -> malloc_ok x = true) ->
  zlen bytes + zlen (image_back 1 (zlen bytes) irom) <= capacity ->
  Q true (<[out := bytes ++ image_back 1 (zlen bytes) irom]> st) -> wp (write_boot1 elf out) Q st.
Proof.
  intros Hs Hne Ho Hl Hm Hc HQ. pose proof (zlen_nonneg bytes) as Hn. unfold write_boot1, ftell. apply wp_bind, wp_bind, wp_get. rewrite Ho.
  apply wp_ret. rewrite s32_small by lia. rewrite (proj2 (Z.leb_le 0 _)), Hm by lia. cbn [andb negb].
  unfold image_back in *. cbn [Z.eqb Pos.eqb] in *. set (ff := replicate _ 0xff) in *.
  assert (zlen ff = 0x10000 - zlen bytes) as Ef by (unfold ff, zlen; rewrite length_replicate; unfold zlen in *; lia).
  rewrite zlen_app in Hc. pose proof (zlen_nonneg (section_image false false 0 (fst irom) (snd irom))).
  apply wp_bind. apply (wp_fwrite out bytes); [done|lia|]. rewrite Ef, Z.eqb_refl. cbn [negb]. apply wp_bind.
  eapply wp_WriteElfSection; [eapply section_of_store; [done|by rewrite lookup_insert_ne]|apply lookup_insert_eq|done|rewrite zlen_app; lia|].
  apply wp_ret. rewrite insert_insert_eq, <- app_assoc. exact HQ.
Qed.

Lemma wp_write_boot2 elf out hd (ic : bool) irom chk bytes st (Q : bool * Z -> store -> Prop) :
  section_of st elf irom0_text (fst irom) (snd irom) -> out <> fd elf -> st !! out = Some bytes ->
  let add := store_Image_Header hd ++ section_image true true IMAGE_PADDING (fst irom) (snd irom) in
  zlen bytes + zlen add <= capacity ->
  Q (true, if ic then xor_bytes chk (snd irom) else chk) (<[out := bytes ++ add]> st) ->
  wp (write_boot2 elf out hd ic chk) Q st.
Proof.
  intros Hs Hne Ho add Hc HQ. unfold add in *. rewrite zlen_app in Hc.
  pose proof (zlen_nonneg (section_image true true IMAGE_PADDING (fst irom) (snd irom))).
  unfold write_boot2. apply wp_bind. apply (wp_fwrite out bytes); [done|lia|]. cbn [zlen Z.eqb negb].
  change (negb (zlen (store_Image_Header hd) =? 8)) with false. cbv iota. apply wp_bind.
  eapply wp_WriteElfSection; [eapply section_of_store; [done|by rewrite lookup_insert_ne]|apply lookup_insert_eq|done|rewrite zlen_app; lia|].
  apply wp_ret. rewrite insert_insert_eq, <- app_assoc. destruct ic; exact HQ.
Qed.

Lemma wp_CreateBinFile elffile out (bv md ck sz : Z) (ic : bool) names secs irom elf st (Q : bool -> store -> Prop) :
  LoadElf elffile st = Some (Some elf, st) -> may_write out = true -> out <> elffile -> fd elf = elffile ->
  sections_of st elf names secs ->
  (bv = 1 \/ bv = 2 -> section_of st elf irom0_text (fst irom) (snd irom)) ->
  image_fits elf bv md ck sz ic irom secs ->
  Q true (<[out := image elf bv md ck sz ic irom secs]> st) ->
  wp (CreateBinFile elffile out bv md ck sz ic names) Q st.
Proof.
  intros HL Hw Hne Hfd Hs Hi (F1 & F2 & F3 & F4) HQ. rewrite <- Hfd in Hne.
  unfold CreateBinFile. apply wp_bind. apply (wp_exact _ _ _ _ _ HL). apply wp_bind.
  unfold fopen_wb. rewrite Hw. apply wp_bind, wp_modify, wp_ret. cbn [negb]. cbv zeta.
  set (st1 := <[out := []]> st). assert (st1 !! fd elf = st !! fd elf) as E1 by (unfold st1; by rewrite lookup_insert_ne).
  unfold image in HQ, F3. set (front := image_front elf bv md ck sz irom) in *. set (prog := image_program elf md ck sz secs) in *.
  set (chk0 := checksum CHECKSUM_INIT (if (bv =? 2) && ic then [snd irom] else [])).
  assert (image_checksum bv ic irom secs = checksum chk0 secs.*2) as Echk by (unfold image_checksum, checksum, chk0; apply foldl_app).
  rewrite !zlen_app in F3. pose proof (zlen_nonneg front). pose proof (zlen_nonneg prog).
  pose proof (zlen_nonneg (trailer (zlen front + zlen prog) (image_checksum bv ic irom secs))).
  apply wp_bind. apply (wp_mono _ (fun r st' => r = (true, chk0) /\ st' = <[out := front]> st)).
  { unfold front, image_front, chk0 in *. destruct (Z.eqb_spec bv 2) as [->|].
    - eapply wp_write_boot2; [eapply section_of_store; [apply Hi; by right|done]|done|apply lookup_insert_eq|change (zlen (@nil Z)) with 0; cbv zeta; lia|].
      split; [by destruct ic|]. unfold st1. by rewrite insert_insert_eq.
    - by apply wp_ret. }
  intros ? ? [-> ->]. cbn [negb]. apply wp_bind.
  assert (Forall2 (fun nm sd => section_of st elf nm (fst sd) (snd sd)) names secs) as Hs' by done. apply Forall2_length in Hs'.
  replace (zlen names) with (zlen secs) by (unfold zlen; lia).
  unfold prog, image_program in F1, F2, HQ. rewrite zlen_app in F1, F2.
  set (hd := store_Image_Header (image_header elf BIN_MAGIC_FLASH (u8 (zlen secs)) md ck sz)) in *.
  pose proof (zlen_nonneg (image_sections secs)).
  apply (wp_fwrite out front); [apply lookup_insert_eq|lia|]. change (zlen hd =? 8) with true. cbn [negb]. apply wp_bind.
  rewrite insert_insert_eq.
  eapply wp_write_sections; [eapply sections_of_store; [done|by rewrite lookup_insert_ne]|done|apply lookup_insert_eq|rewrite zlen_app; lia|].
  cbn [negb]. rewrite insert_insert_eq, <- Echk. apply wp_bind.
  eapply wp_write_trailer; [apply lookup_insert_eq|rewrite !zlen_app; lia|rewrite !zlen_app; lia|].
  cbn [negb]. rewrite insert_insert_eq.
  assert (((front ++ hd) ++ image_sections secs) ++ trailer (zlen ((front ++ hd) ++ image_sections secs)) (image_checksum bv ic irom secs) =
          front ++ prog ++ trailer (zlen front + zlen prog) (image_checksum bv ic irom secs)) as ->.
  { unfold prog, image_program. fold hd. rewrite <- !app_assoc, !zlen_app. done. }
  fold prog in HQ. destruct (Z.eqb_spec bv 1) as [->|Hb].
  - destruct (F4 eq_refl) as [F5 F6]. pose proof (zlen_trailer (zlen front + zlen prog) (image_checksum 1 ic irom secs)) as Et.
    pose proof (Z.mod_pos_bound (15 - (zlen front + zlen prog)) 16 ltac:(lia)).
    eapply wp_write_boot1; [eapply section_of_store; [apply Hi; by left|by rewrite lookup_insert_ne]|done|apply lookup_insert_eq| |done| |].
    + rewrite !zlen_app. lia.
    + rewrite !zlen_app. lia.
    + rewrite insert_insert_eq. exact HQ.
  - apply wp_ret. unfold image_back in HQ. rewrite (proj2 (Z.eqb_neq bv 1) Hb), app_nil_r in HQ. exact HQ.
Qed.

(** ** Reading an image back

    The format as a boot loader reads it: a header with the number of segments
    and the entry point, the segments with their address and size, and the
    checksum in the last byte of the sixteen it falls into. *)
Fixpoint parse_segments (n : nat) (b : list Z) : option (list (Z * list Z) * list Z) :=
  match n with
  | O => Some ([], b)
  | S n =>
      let d := take (Z.to_nat (le32 b 4)) (drop 8 b) in
      if (zlen b <? 8) || (zlen d <? le32 b 4) then None
      else
        match parse_segments n (drop (8 + Z.to_nat (le32 b 4)) b) with
        | Some (segs, rest) => Some ((le32 b 0, d) :: segs, rest)
        | None => None
        end
  end.

Definition load_image (chk0 : Z) (b : list Z) : option (Z * list (Z * list Z)) :=
  if (zlen b <? 8) || negb (getb b 0 =? BIN_MAGIC_FLASH) then None
  else
    match parse_segments (Z.to_nat (getb b 1)) (drop 8 b) with
    | Some (segs, rest) =>
        let i := (15 - (zlen b - zlen rest)) mod 16 in
        if (i <? zlen rest) && (getb rest i =? checksum chk0 segs.*2) then Some (le32 b 4, segs) else None
    | None => None
    end.

(** A section as a segment: its bytes and the zeros behind them. *)
Definition segment (sd : MyElf_Section * list Z) : Z * list Z :=
  (address (fst sd), snd sd ++ replicate (Z.to_nat (section_pad (size (fst sd)) SECTION_PADDING)) 0).

Lemma le32_le32_bytes x l o : is_u32 x -> drop (Z.to_nat o) l = le32_bytes x ++ drop (Z.to_nat o + 4) l -> 0 <= o -> le32 l o = x.
Proof.
  intros Hx El Ho. assert (forall i, 0 <= i < 4 -> getb l (o + i) = getb (le32_bytes x) i) as Hg.
  { intros i Hi. unfold getb. replace (Z.to_nat (o + i)) with (Z.to_nat o + Z.to_nat i)%nat by lia.
    rewrite <- (app_nth1 (le32_bytes x) (drop (Z.to_nat o + 4) l) 0) by (cbn; lia). rewrite <- El.
    rewrite !nth_lookup, lookup_drop. done. }
  unfold le32. rewrite <- (Z.add_0_r o) at 1. rewrite !Hg by lia.
  change (u8 x + u8 (x / 2 ^ 8) * 2 ^ 8 + u8 (x / 2 ^ 16) * 2 ^ 16 + u8 (x / 2 ^ 24) * 2 ^ 24 = x).
  unfold u8, is_u32 in *. change (2 ^ 8) with 256. change (2 ^ 16) with 65536. change (2 ^ 24) with 16777216. change (2 ^ 32) with 4294967296 in Hx.
  Z.div_mod_to_equations. lia.
Qed.

(** A section that fits the format. *)
Definition section_ok (sd : MyElf_Section * list Z) : Prop :=
  is_u32 (address (fst sd)) /\ zlen (snd sd) = size (fst sd) /\ size (fst sd) < 2 ^ 32 - 16.

Lemma section_pad_bound sz padto : 0 < padto -> section_pad sz padto < padto /\ (sz + section_pad sz padto) mod padto = 0.
Proof.
  intros Hp. unfold section_pad. rewrite (proj2 (nz_true padto)) by lia. pose proof (Z.mod_pos_bound sz padto Hp).
  pose proof (Z.div_mod sz padto ltac:(lia)) as E. destruct (Z.gtb_spec (sz mod padto) 0) as [Hgt|Hle]; (split; [lia|]).
  - replace (sz + (padto - sz mod padto)) with ((sz / padto + 1) * padto) by lia. apply Z.mod_mul. lia.
  - rewrite Z.add_0_r. lia.
Qed.

Lemma parse_image_sections secs rest :
  Forall section_ok secs -> parse_segments (length secs) (image_sections secs ++ rest) = Some (segment <$> secs, rest).
Proof.
  induction secs as [|[sect data] secs IH]; intros Hok; [done|]. apply Forall_cons in Hok as [(Ha & Hl & Hs) Hok]. cbn [fst snd] in *.
  unfold image_sections. cbn [fmap list_fmap concat fst snd length parse_segments]. fold (image_sections secs).
  unfold section_image, segment. cbn [fst snd]. destruct (section_pad_bound (size sect) SECTION_PADDING) as [Hp _]; [done|].
  pose proof (section_pad_range (size sect) SECTION_PADDING ltac:(done)) as Hp0.
  set (pad := section_pad (size sect) SECTION_PADDING) in *. pose proof (zlen_nonneg data). change (pad < 4) in Hp.
  rewrite (u32_small (size sect + pad)) by (unfold is_u32; lia). unfold store_Section_Header. cbn [sec_addr sec_size].
  set (d := data ++ replicate (Z.to_nat pad) 0). assert (length d = Z.to_nat (size sect + pad)) as Ed.
  { unfold d, zlen in *. rewrite length_app, length_replicate. lia. }
  set (b := (((le32_bytes (address sect) ++ le32_bytes (size sect + pad)) ++ d) ++ image_sections secs) ++ rest).
  assert (b = le32_bytes (address sect) ++ le32_bytes (size sect + pad) ++ d ++ image_sections secs ++ rest) as Eb
    by (unfold b; by rewrite <- !app_assoc).
  assert (le32 b 0 = address sect) as E0 by (apply le32_le32_bytes; [done|by rewrite Eb|lia]).
  assert (le32 b 4 = size sect + pad) as E4 by (apply le32_le32_bytes; [unfold is_u32; lia|by rewrite Eb|lia]).
  rewrite E0, E4. assert (take (Z.to_nat (size sect + pad)) (drop 8 b) = d) as ->.
  { rewrite Eb. change (drop 8 _) with (d ++ image_sections secs ++ rest). by apply take_app_length'. }
  assert (drop (8 + Z.to_nat (size sect + pad)) b = image_sections secs ++ rest) as ->.
  { rewrite <- drop_drop. rewrite Eb. change (drop 8 _) with (d ++ image_sections secs ++ rest). by apply drop_app_length'. }
  rewrite IH by done. assert (8 <= zlen b) as Hb8 by (rewrite Eb, !zlen_app; pose proof (zlen_nonneg d); pose proof (zlen_nonneg (image_sections secs)); pose proof (zlen_nonneg rest); change (zlen (le32_bytes (address sect))) with 4; change (zlen (le32_bytes (size sect + pad))) with 4; lia).
  rewrite (proj2 (Z.ltb_ge (zlen b) 8)), (proj2 (Z.ltb_ge (zlen d) _)) by (unfold zlen in *; lia). done.
Qed.

Lemma xor_bytes_zeros c n : xor_bytes c (replicate n 0) = c.
Proof. unfold xor_bytes. induction n; cbn; [done|]. by rewrite Z.lxor_0_r. Qed.

Lemma checksum_segments c secs : checksum c (segment <$> secs).*2 = checksum c secs.*2.
Proof.
  unfold checksum. revert c. induction secs as [|[sect data] secs IH]; intros c; [done|]. cbn. rewrite IH. f_equal.
  unfold xor_bytes. rewrite foldl_app. apply xor_bytes_zeros.
Qed.

Lemma load_program elf md ck sz secs (front post : list Z) c0 :
  is_u32 (e_entry (header elf)) -> Forall section_ok secs -> zlen secs <= 255 -> zlen front mod 16 = 0 ->
  let prog := image_program elf md ck sz secs in
  load_image c0 (prog ++ trailer (zlen front + zlen prog) (checksum c0 secs.*2) ++ post) = Some (e_entry (header elf), segment <$> secs).
Proof.
  intros He Hok Hn Hf prog. unfold load_image. set (tl := trailer _ _ ++ post). unfold prog, image_program.
  rewrite u8_small by (unfold is_byte; pose proof (zlen_nonneg secs); lia).
  set (hd := image_header elf BIN_MAGIC_FLASH (zlen secs) md ck sz). set (b := (store_Image_Header hd ++ image_sections secs) ++ tl).
  assert (b = [BIN_MAGIC_FLASH; zlen secs; md; byte3 hd] ++ le32_bytes (e_entry (header elf)) ++ image_sections secs ++ tl) as Eb
    by (unfold b; by rewrite <- !app_assoc).
  assert (le32 b 4 = e_entry (header elf)) as -> by (apply le32_le32_bytes; [done|by rewrite Eb|lia]).
  assert (getb b 0 = BIN_MAGIC_FLASH /\ getb b 1 = zlen secs /\ drop 8 b = image_sections secs ++ tl) as (-> & -> & ->) by (by rewrite Eb).
  assert (zlen b = zlen prog + zlen tl) as El by (unfold b, prog, image_program; rewrite u8_small by (unfold is_byte; pose proof (zlen_nonneg secs); lia); by rewrite zlen_app).
  assert (8 <= zlen prog) as Hp8.
  { unfold prog, image_program. rewrite zlen_app. change (zlen (store_Image_Header _)) with 8. pose proof (zlen_nonneg (image_sections secs)). lia. }
  pose proof (zlen_nonneg tl). rewrite (proj2 (Z.ltb_ge (zlen b) 8)), Z.eqb_refl by lia. cbn [negb orb].
  replace (Z.to_nat (zlen secs)) with (length secs) by (unfold zlen; lia). rewrite parse_image_sections by done.
  replace (zlen b - zlen tl) with (zlen prog) by lia.
  assert ((15 - zlen prog) mod 16 = (15 - (zlen front + zlen prog)) mod 16) as Ei.
  { pose proof (Z.div_mod (zlen front) 16 ltac:(lia)) as E. replace (15 - zlen prog) with (15 - (zlen front + zlen prog) + zlen front / 16 * 16) by lia.
    by rewrite Z.mod_add. }
  pose proof (Z.mod_pos_bound (15 - (zlen front + zlen prog)) 16 ltac:(lia)) as Hb.
  assert (zlen tl = (15 - (zlen front + zlen prog)) mod 16 + 1 + zlen post) as Et.
  { unfold tl. rewrite zlen_app, zlen_trailer. done. }
  pose proof (zlen_nonneg post). rewrite Ei, (proj2 (Z.ltb_lt _ (zlen tl))) by lia. cbn [andb].
  assert (getb tl ((15 - (zlen front + zlen prog)) mod 16) = checksum c0 secs.*2) as ->.
  { unfold tl, trailer. rewrite <- app_assoc, getb_app_r; rewrite zlen_replicate, Z2Nat.id by lia; [|lia].
    by rewrite Z.sub_diag. }
  by rewrite checksum_segments, Z.eqb_refl.
Qed.

Lemma front_aligned elf bv md ck sz irom : zlen (snd irom) = size (fst irom) -> zlen (image_front elf bv md ck sz irom) mod 16 = 0.
Proof.
  intros Hl. unfold image_front, section_image. destruct (bv =? 2); [|done]. rewrite !zlen_app, zlen_replicate.
  destruct (section_pad_bound (size (fst irom)) IMAGE_PADDING) as [_ Hp]; [done|]. pose proof (section_pad_range (size (fst irom)) IMAGE_PADDING ltac:(done)).
  change (zlen (store_Image_Header _)) with 8. change (zlen (store_Section_Header _)) with 8. rewrite Z2Nat.id, Hl by lia.
  change IMAGE_PADDING with 16 in *. replace (8 + (8 + (size (fst irom) + section_pad (size (fst irom)) 16)))
    with (size (fst irom) + section_pad (size (fst irom)) 16 + 1 * 16) by lia. by rewrite Z.mod_add.
Qed.

(** C27. From ELF sections to an image and back: for a file whose named sections
    exist, [CreateBinFile] succeeds, changes nothing but the output file, and
    what it leaves there is, behind the library of a boot v1.2 image, an image
    that a boot loader reads as the entry point of the ELF file and exactly
    those sections, in order, with a checksum that matches. *)
Theorem CreateBinFile_roundtrip elffile out bv md ck sz ic names secs irom elf st :
  LoadElf elffile st = Some (Some elf, st) -> fd elf = elffile -> may_write out = true -> out <> elffile ->
  sections_of st elf names secs ->
  (bv = 1 \/ bv = 2 -> section_of st elf irom0_text (fst irom) (snd irom)) ->
  image_fits elf bv md ck sz ic irom secs ->
  is_u32 (e_entry (header elf)) -> Forall section_ok secs -> zlen secs <= 255 ->
  wp (CreateBinFile elffile out bv md ck sz ic names)
    (fun r st' => r = true /\ exists front body, st' = <[out := front ++ body]> st /\ front = image_front elf bv md ck sz irom /\
       load_image (if (bv =? 2) && ic then xor_bytes CHECKSUM_INIT (snd irom) else CHECKSUM_INIT) body =
         Some (e_entry (header elf), segment <$> secs)) st.
Proof.
  intros HL Hfd Hw Hne Hs Hi Hfit He Hok Hn. eapply wp_CreateBinFile; try done. split; [done|].
  set (front := image_front elf bv md ck sz irom). assert (zlen front mod 16 = 0) as Hf.
  { unfold front. destruct (Z.eq_dec bv 2) as [->|Hb].
    - apply front_aligned, (section_of_length st elf irom0_text), Hi. by right.
    - unfold image_front. by rewrite (proj2 (Z.eqb_neq bv 2) Hb). }
  unfold image. fold front. set (prog := image_program elf md ck sz secs). rewrite <- !app_assoc. do 2 eexists. split; [done|].
  split; [done|]. rewrite app_assoc. rewrite <- app_assoc.
  assert (image_checksum bv ic irom secs = checksum (if (bv =? 2) && ic then xor_bytes CHECKSUM_INIT (snd irom) else CHECKSUM_INIT) secs.*2) as ->.
  { unfold image_checksum, checksum. rewrite foldl_app. by destruct ((bv =? 2) && ic). }
  by apply load_program.
Qed.

(** ** What the tool touches *)

Definition only out st st' : Prop := forall p, p <> out -> st' !! p = st !! p.
(** The computation returns and changes no file but the open file [out]. *)
Definition keeps {A} out (m : M store A) : Prop :=
  forall st, is_Some (st !! out) -> wp m (fun _ st' => only out st st' /\ is_Some (st' !! out)) st.

Lemma keeps_ret {A} out (a : A) : keeps out (ret a).
Proof. intros st Hs. apply wp_ret. done. Qed.

Lemma keeps_bind {A B} out (m : M store A) (k : A -> M store B) : keeps out m -> (forall a, keeps out (k a)) -> keeps out (bind m k).
Proof.
  intros Hm Hk st Hs. apply wp_bind. eapply wp_mono; [by apply Hm|]. intros a st1 [O1 S1].
  eapply wp_mono; [by apply Hk|]. intros b st2 [O2 S2]. split; [|done]. intros p Hp. rewrite O2, O1; done.
Qed.

Lemma keeps_fwrite out data : keeps out (fwrite out data).
Proof.
  intros st [bytes Hs]. unfold fwrite. apply wp_bind, wp_get. rewrite Hs. apply wp_bind, wp_modify, wp_ret. split.
  - intros p Hp. by rewrite lookup_insert_ne.
  - eexists. apply lookup_insert_eq.
Qed.

Lemma keeps_ftell out : keeps out (ftell out).
Proof. intros st [bytes Hs]. unfold ftell. apply wp_bind, wp_get. rewrite Hs. apply wp_ret. split; [done|by eexists]. Qed.

Lemma keeps_pure {A} out (m : M store A) : (forall st, wp m (fun _ st' => st' = st) st) -> keeps out m.
Proof. intros Hm st Hs. eapply wp_mono; [apply Hm|]. intros a ? ->. done. Qed.

Lemma pure_fread p off n st : wp (fread_file p off n) (fun _ st' => st' = st) st.
Proof. unfold fread_file. apply wp_bind, wp_get. by apply wp_ret. Qed.

Lemma pure_data elf sect st : wp (GetElfSectionData elf sect) (fun _ st' => st' = st) st.
Proof.
  unfold GetElfSectionData. destruct (_ && _); [|by apply wp_ret]. destruct (malloc_ok _); [apply pure_fread|by apply wp_ret].
Qed.

(** Every section the loop looks at was read, and its name ends inside the
    string table and fits the buffer of the header writer. *)
Definition sound elf : Prop :=
  Forall (fun o => exists sect nm, o = Some sect /\ cstring (drop (Z.to_nat (name sect)) (strings elf)) = Some nm /\ (length nm < 31)%nat)
    (take (Z.to_nat (e_shnum (header elf) - 1)) (sections elf)).
Definition no_nul nm : Prop := Forall (fun c => c <> 0) nm.

Lemma strcmp_total nm mem s : no_nul nm -> cstring mem = Some s -> is_Some (strcmp_eq nm mem).
Proof.
  intros Hn. revert mem s. induction Hn as [|n nm Hn0 Hn IH]; intros [|c mem] s Hs; cbn in *; [done|by eexists|done|].
  destruct (Z.eqb_spec c n) as [->|]; [|by eexists]. rewrite (proj2 (Z.eqb_neq n 0) Hn0) in Hs.
  destruct (cstring mem) as [s'|] eqn:E; [|done]. by eapply IH.
Qed.

Lemma wp_GetElfSection elf nm st : sound elf -> no_nul nm ->
  wp (GetElfSection elf nm) (fun r st' => st' = st /\ forall sect, r = Some sect -> is_Some (fixed_name elf sect)) st.
Proof.
  intros Hs Hn. unfold GetElfSection. unfold sound in Hs. induction Hs as [|o secs (sect & s & -> & Hc & Hl) Hs IH]; [by apply wp_ret|].
  cbn [find_section]. destruct (strcmp_total nm _ s Hn Hc) as [[|] ->]; [|exact IH]. apply wp_ret. split; [done|].
  intros sect' [= <-]. unfold fixed_name. rewrite Hc, (proj2 (Nat.ltb_lt _ _) Hl). by eexists.
Qed.

Lemma keeps_section {A} out elf nm (k : option MyElf_Section -> M store A) : sound elf -> no_nul nm ->
  (forall r, (forall sect, r = Some sect -> is_Some (fixed_name elf sect)) -> keeps out (k r)) -> keeps out (bind (GetElfSection elf nm) k).
Proof.
  intros Hs Hn Hk st Ho. apply wp_bind. eapply wp_mono; [by apply wp_GetElfSection|]. intros r ? [-> Hr]. by apply Hk.
Qed.

Ltac keep := repeat first
  [ apply keeps_ret | apply keeps_fwrite | apply keeps_ftell | apply keeps_pure, pure_data
  | progress intros
  | match goal with
    | |- keeps _ (bind _ _) => apply keeps_bind
    | |- keeps _ (let '(_, _) := ?x in _) => destruct x
    | |- keeps _ (if ?b then _ else _) => destruct b
    | |- keeps _ (match ?x with Some _ => _ | None => _ end) => destruct x
    end ].

Lemma keeps_WriteElfSection out elf nm headed zeroaddr padto chk : sound elf -> no_nul nm -> keeps out (WriteElfSection elf out nm headed zeroaddr padto chk).
Proof. intros Hs Hn. unfold WriteElfSection. apply keeps_section; [done..|]. keep. Qed.

Lemma no_nul_irom : no_nul irom0_text.
Proof. repeat (constructor; [done|]). constructor. Qed.

Lemma keeps_write_sections out elf names chk : sound elf -> Forall no_nul names -> keeps out (write_sections elf out names chk).
Proof.
  intros Hs Hn. revert chk. induction Hn as [|nm names Hn Hns IH]; intros chk; cbn [write_sections]; [apply keeps_ret|].
  apply keeps_bind; [by apply keeps_WriteElfSection|]. intros [[|] c]; [apply IH|apply keeps_ret].
Qed.

Lemma keeps_write_data out j data : keeps out (write_data out j data).
Proof. revert j. induction data as [|b data IH]; intros j; cbn [write_data]; unfold fprintf; keep. apply IH. Qed.

Lemma keeps_write_blocks out elf names : sound elf -> Forall no_nul names -> keeps out (write_blocks elf out names).
Proof.
  intros Hs Hn. induction Hn as [|nm names Hn Hns IH]; cbn [write_blocks]; [apply keeps_ret|].
  apply keeps_section; [done..|]. intros [sect|] Hr; [|apply keeps_ret]. destruct (Hr sect eq_refl) as [id ->].
  unfold fprintf. keep; [apply keeps_write_data|exact IH].
Qed.

(** Reading an ELF file changes nothing. *)
Lemma pure_load_sections p h i n st : wp (load_sections p h i n) (fun _ st' => st' = st) st.
Proof.
  revert i. induction n as [|n IH]; intros i; cbn [load_sections]; [by apply wp_ret|]. apply wp_bind.
  eapply wp_mono; [apply pure_fread|]. intros [b|] ? ->; [|by apply wp_ret]. apply wp_bind.
  eapply wp_mono; [apply IH|]. intros r ? ->. by apply wp_ret.
Qed.

Lemma pure_LoadElf infile st : wp (LoadElf infile) (fun _ st' => st' = st) st.
Proof.
  unfold LoadElf.
  repeat first
    [ by apply wp_ret
    | apply wp_bind; eapply wp_mono; [apply pure_fread || apply pure_load_sections|]; intros ? ? ->
    | match goal with
      | |- wp (if ?b then _ else _) _ _ => destruct b
      | |- wp (match ?x with Some _ => _ | None => _ end) _ _ => destruct x
      end ].
Qed.

(** A builder: it may fail before it opens its output. *)
Lemma wp_build infile out (k : MyElf_File -> M store bool) st :
  (forall elf, LoadElf infile st = Some (Some elf, st) -> keeps out (k elf)) ->
  wp (let! oelf := LoadElf infile in
      match oelf with
      | None => ret false
      | Some elf => let! ok := fopen_wb out in if negb ok then ret false else k elf
      end) (fun r st' => only out st st' /\ (r = true -> is_Some (st' !! out))) st.
Proof.
  intros Hk. apply wp_bind. pose proof (pure_LoadElf infile st) as HL. apply wp_run in HL as (elf & ? & HL & ->).
  apply (wp_exact _ _ _ _ _ HL). destruct elf as [elf|]; [|by apply wp_ret]. apply wp_bind. unfold fopen_wb.
  destruct (may_write out); [|by apply wp_ret, wp_ret]. apply wp_bind, wp_modify, wp_ret. cbn [negb].
  eapply wp_mono; [apply Hk; [done|eexists; apply lookup_insert_eq]|]. intros r st' [O S]. split; [|done].
  intros p Hp. rewrite O by done. by apply lookup_insert_ne.
Qed.

Lemma builds_bin infile out bv md ck sz ic names st :
  (forall elf, LoadElf infile st = Some (Some elf, st) -> sound elf) -> Forall no_nul names ->
  wp (CreateBinFile infile out bv md ck sz ic names) (fun r st' => only out st st' /\ (r = true -> is_Some (st' !! out))) st.
Proof.
  intros Hs Hn. apply wp_build. intros elf HL. specialize (Hs elf HL). pose proof no_nul_irom as Hi.
  unfold write_boot2, write_boot1, write_trailer.
  repeat first [apply keeps_WriteElfSection; [done|done] | apply keeps_write_sections; [done|done] | progress keep].
Qed.

(** A build type was chosen when the count says so. *)
Definition chosen (o : options) : Prop := opts o = 0 \/ binfile o || libfile o || headerfile o = true.

Lemma parse_option_chosen a o o' : parse_option a o = Some o' -> chosen o -> chosen o'.
Proof.
  unfold parse_option, chosen. intros E Ho.
  repeat (destruct (bool_decide _) in E; [injection E as <-; cbn;
    first [exact Ho | right; destruct (binfile o), (libfile o), (headerfile o); reflexivity]|]). done.
Qed.

Lemma parse_options_spec args o : chosen o -> Forall no_nul args ->
  let '(o', rest) := parse_options args o in chosen o' /\ Forall no_nul rest /\ incl rest args.
Proof.
  intros Ho Hn. revert o Ho. induction Hn as [|a args Ha Hn IH]; intros o Ho; cbn [parse_options];
    [split; [done|split; [constructor|apply incl_refl]]|].
  destruct (parse_option a o) as [o'|] eqn:E.
  - specialize (IH o' (parse_option_chosen _ _ _ E Ho)). destruct (parse_options args o') as [o2 rest].
    destruct IH as (? & ? & ?). split; [done|]. split; [done|by apply incl_tl].
  - destruct (bool_decide _); [split; [done|]; split; [done|apply incl_tl, incl_refl]|].
    destruct (_ =? _); (split; [done|]; split; [by constructor|apply incl_refl]).
Qed.

(** [esptool2] changes no file but its output, exits with [0] only when the
    output exists, and with [-1] otherwise, leaving either every file as it was
    (bad arguments) or no output file behind. *)
Theorem main_safe args st :
  Forall no_nul args ->
  (forall infile elf, infile ∈ args -> LoadElf infile st = Some (Some elf, st) -> sound elf) ->
  wp (main args) (fun r st' => exists out, only out st st' /\
    ((r = 0 /\ is_Some (st' !! out)) \/ (r = -1 /\ (st' = st \/ (out ∈ args /\ st' !! out = None))))) st.
Proof.
  intros Hn Hs. unfold main. pose proof (parse_options_spec args options0 ltac:(by left) Hn) as Hp.
  destruct (parse_options args options0) as [o rest]. destruct Hp as (Hch & Hr1 & Hr2).
  assert (wp (S := store) (ret (-1)) (fun r st' => exists out, only out st st' /\
    ((r = 0 /\ is_Some (st' !! out)) \/ (r = -1 /\ (st' = st \/ (out ∈ args /\ st' !! out = None))))) st) as Hbad.
  { apply wp_ret. exists []. split; [done|]. right. auto. }
  destruct (paramerror o); [done|]. destruct (_ <? 1); [done|]. destruct (Z.eqb_spec (opts o) 1) as [Eo|]; [cbn [negb]|done].
  destruct (quieton o && debugon o); [done|].
  destruct ((libfile o && (zlen rest <? 2)) || ((binfile o || headerfile o) && (zlen rest <? 3))) eqn:El; [done|].
  destruct (libfile o && (zlen rest >? 2)); [done|].
  assert (2 <= zlen rest) as Hl2.
  { destruct Hch as [?|Hch]; [lia|]. destruct (Z.ltb_spec (zlen rest) 2), (Z.ltb_spec (zlen rest) 3); try lia.
    destruct (binfile o), (libfile o), (headerfile o); done. }
  destruct rest as [|infile [|out names]]; [unfold zlen in Hl2; cbn in Hl2; lia..|].
  apply Forall_cons in Hr1 as [_ [_ Hr1]%Forall_cons]. 
  assert (infile ∈ args /\ out ∈ args) as [Hi Ho] by (split; apply list_elem_of_In, Hr2; cbn; auto).
  apply wp_bind. eapply wp_mono.
  { instantiate (1 := fun r st' => only out st st' /\ (r = true -> is_Some (st' !! out))).
    destruct (binfile o); [apply builds_bin; [intros elf HL; exact (Hs infile elf Hi HL)|done]|].
    destruct (headerfile o); apply wp_build; intros elf HL; specialize (Hs infile elf Hi HL).
    - unfold fprintf. keep. by apply keeps_write_blocks.
    - apply keeps_bind; [apply keeps_WriteElfSection; [done|exact no_nul_irom]|]. keep. }
  intros [|] st' [O S]; [apply wp_ret; exists out; split; [done|left; auto]|]. unfold remove. apply wp_bind, wp_modify, wp_ret.
  exists out. split; [intros p Hp; by rewrite lookup_delete_ne, O|]. right. split; [done|]. right. split; [done|]. apply lookup_delete_eq.
Qed.
End Tool.

(** ** A small ELF file

    Two sections, [.text] and [.irom0.text], and the string table. *)
Definition demo_host : Host := {| malloc_ok := fun _ => true; may_write := fun _ => true; capacity := 2 ^ 20 |}.
Definition demo_strings : list Z :=
  [0] ++ string_bytes ".text"%string ++ [0] ++ irom0_text ++ [0] ++ string_bytes ".shstrtab"%string ++ [0].
Definition le16_bytes (x : Z) : list Z := [u8 x; u8 (x / 2 ^ 8)].
Definition demo_shdr (nm addr off sz : Z) : list Z :=
  le32_bytes nm ++ le32_bytes 1 ++ le32_bytes 0 ++ le32_bytes addr ++ le32_bytes off ++ le32_bytes sz ++ replicate 16 0.
Definition demo_ehdr : list Z :=
  [0x7f] ++ string_bytes "ELF"%string ++ replicate 12 0 ++ le16_bytes 2 ++ le16_bytes 94 ++ le32_bytes 1 ++ le32_bytes 0x40100000 ++
  le32_bytes 0 ++ le32_bytes 89 ++ le32_bytes 0 ++ le16_bytes 52 ++ le16_bytes 0 ++ le16_bytes 0 ++ le16_bytes 40 ++ le16_bytes 4 ++ le16_bytes 3.
Definition demo_elf : list Z :=
  demo_ehdr ++ [1; 2; 3; 4; 5] ++ [9; 8; 7] ++ demo_strings ++ demo_shdr 0 0 0 0 ++ demo_shdr 1 0x40100000 52 5 ++
  demo_shdr 7 0x40210000 57 3 ++ demo_shdr 19 0 60 29.
Definition demo_in : path := string_bytes "app.out"%string.
Definition demo_out : path := string_bytes "app.bin"%string.
Definition demo_store : store := {[ demo_in := demo_elf ]}.
Definition demo_text : MyElf_Section := {| offset := 52; address := 0x40100000; size := 5; name := 1 |}.
Definition demo_irom : MyElf_Section := {| offset := 57; address := 0x40210000; size := 3; name := 7 |}.
Definition demo_file : MyElf_File :=
  {| fd := demo_in; header := load_Ehdr demo_ehdr; strings := demo_strings;
     sections := [Some demo_text; Some demo_irom; Some {| offset := 60; address := 0; size := 29; name := 19 |}; None] |}.

Lemma demo_load : LoadElf (HO := demo_host) demo_in demo_store = Some (Some demo_file, demo_store).
Proof. vm_compute. reflexivity. Qed.

Lemma demo_section_irom : section_of (HO := demo_host) demo_store demo_file irom0_text demo_irom [9; 8; 7].
Proof. split; vm_compute; reflexivity. Qed.

Lemma CreateBinFile_roundtrip_witness :
  wp (CreateBinFile (HO := demo_host) demo_in demo_out 2 0 0 4 true [string_bytes ".text"%string])
    (fun r st' => r = true /\ exists front body, st' = <[demo_out := front ++ body]> demo_store /\
       front = image_front demo_file 2 0 0 4 (demo_irom, [9; 8; 7]) /\
       load_image (xor_bytes CHECKSUM_INIT [9; 8; 7]) body = Some (0x40100000, [(0x40100000, [1; 2; 3; 4; 5; 0; 0; 0])])) demo_store.
Proof.
  apply (CreateBinFile_roundtrip (HO := demo_host) demo_in demo_out 2 0 0 4 true [string_bytes ".text"%string] [(demo_text, [1; 2; 3; 4; 5])]
           (demo_irom, [9; 8; 7]) demo_file demo_store).
  - exact demo_load.
  - reflexivity.
  - reflexivity.
  - discriminate.
  - constructor; [split; vm_compute; reflexivity|constructor].
  - intros _. exact demo_section_irom.
  - repeat split; try (vm_compute; congruence); discriminate.
  - split; vm_compute; congruence.
  - repeat constructor; vm_compute; congruence.
  - vm_compute. congruence.
Defined.

(** The whole command line on it. *)
Definition demo_args : list (list Z) :=
  [string_bytes "-bin"%string; string_bytes "-boot2"%string; string_bytes "-4096"%string; demo_in; demo_out; string_bytes ".text"%string].

Example main_creates_image :
  match main (HO := demo_host) demo_args demo_store with
  | Some (0, st') => st' !! demo_out = Some (image demo_file 2 0 0 4 false (demo_irom, [9; 8; 7]) [(demo_text, [1; 2; 3; 4; 5])])
  | _ => False
  end.
Proof. vm_compute. reflexivity. Qed.

Lemma main_safe_witness :
  wp (main (HO := demo_host) demo_args) (fun r st' => exists out, only out demo_store st' /\
    ((r = 0 /\ is_Some (st' !! out)) \/ (r = -1 /\ (st' = demo_store \/ (out ∈ demo_args /\ st' !! out = None))))) demo_store.
Proof.
  apply (main_safe (HO := demo_host) demo_args demo_store).
  - repeat (constructor; [repeat (constructor; [discriminate|]); constructor|]). constructor.
  - intros infile elf Hin HL. destruct (decide (infile = demo_in)) as [->|Hne].
    + rewrite demo_load in HL. injection HL as <-.
      repeat (constructor; [do 2 eexists; split; [reflexivity|]; split; [vm_compute; reflexivity|cbn; lia]|]). constructor.
    + exfalso. unfold LoadElf, fread_file, bind, get, ret, demo_store in HL. cbn [malloc_ok demo_host negb] in HL.
      rewrite lookup_singleton_ne in HL by done. discriminate.
Defined.
