(* ===== verification/SerialBuffer.v ===== *)
(** * The serial buffer

    [Sming/system/include/SerialBuffer.h]: the ring buffer between a task and
    the interrupt service routine of a UART.  One byte of the array stays
    free, so that equal positions mean an empty buffer.  It refines a bounded
    queue of bytes; [Uart] and [UartTask] build on the lemmas of this file. *)

From S2P Require Import Prelude.

(** ** The code *)

(** A null pointer is [None]; an access outside the array is a fault. *)
Record SerialBuffer := { sb_size : Z; sb_readPos : Z; sb_writePos : Z; sb_buffer : option (list Z) }.

Definition SerialBuffer_new : SerialBuffer := {| sb_size := 0; sb_readPos := 0; sb_writePos := 0; sb_buffer := None |}.
Definition set_readPos (p : Z) (s : SerialBuffer) : SerialBuffer :=
  {| sb_size := sb_size s; sb_readPos := p; sb_writePos := sb_writePos s; sb_buffer := sb_buffer s |}.
Definition set_writePos (p : Z) (s : SerialBuffer) : SerialBuffer :=
  {| sb_size := sb_size s; sb_readPos := sb_readPos s; sb_writePos := p; sb_buffer := sb_buffer s |}.

Definition getNextPos (s : SerialBuffer) (pos : Z) : Z := let n := u32 (pos + 1) in if n =? sb_size s then 0 else n.
Definition getPrevPos (s : SerialBuffer) (pos : Z) : Z := u32 ((if nz pos then pos else sb_size s) - 1).

(** The differences are [int], the results [size_t]. *)
Definition available (s : SerialBuffer) : Z :=
  let r := s32 (sb_writePos s - sb_readPos s) in u32 (if r <? 0 then s32 (r + sb_size s) else r).
Definition getFreeSpace (s : SerialBuffer) : Z :=
  let r := s32 (sb_readPos s - sb_writePos s - 1) in u32 (if r <? 0 then s32 (r + sb_size s) else r).
Definition sb_isEmpty (s : SerialBuffer) : bool := sb_writePos s =? sb_readPos s.

(** [buffer[i]], read and written. *)
Definition byte_at (s : SerialBuffer) (i : Z) : option Z :=
  match sb_buffer s with Some b => if (0 <=? i) && (i <? zlen b) then Some (getb b i) else None | None => None end.
Definition set_byte (i c : Z) : M SerialBuffer unit := fun s =>
  match sb_buffer s with
  | Some b =>
      if (0 <=? i) && (i <? zlen b)
      then Some (tt, {| sb_size := sb_size s; sb_readPos := sb_readPos s; sb_writePos := sb_writePos s; sb_buffer := Some (setb b i c) |})
      else None
  | None => None
  end.

Definition no_data (s : SerialBuffer) : bool := match sb_buffer s with None => true | Some _ => sb_isEmpty s end.

Definition peekChar (s : SerialBuffer) : option Z := if no_data s then Some (-1) else byte_at s (sb_readPos s).
Definition peekLastChar (s : SerialBuffer) : option Z :=
  if no_data s then Some (-1) else byte_at s (getPrevPos s (sb_writePos s)).

Definition readChar : M SerialBuffer Z := fun s =>
  if no_data s then Some (-1, s) else
  match byte_at s (sb_readPos s) with
  | Some c => Some (c, set_readPos (getNextPos s (sb_readPos s)) s)
  | None => None
  end.

Definition writeChar (c : Z) : M SerialBuffer Z :=
  let! s := get in
  let nextPos := getNextPos s (sb_writePos s) in
  if nextPos =? sb_readPos s then ret 0 else
  set_byte (sb_writePos s) c ;;;
  modify (set_writePos nextPos) ;;;
  ret 1.

(** [offset] and [pos] wrap around: [offset = -pos] makes the sum start at 0. *)
Definition find_body (c : Z) (s : SerialBuffer) (avail : Z) (st : Z * Z) : option (Z * Z + Z) :=
  let '(offset, pos) := st in
  if negb (pos <? avail) then Some (inr (-1)) else
  match byte_at s (u32 (offset + pos)) with
  | None => None
  | Some x =>
      if x =? c then Some (inr pos) else
      let pos := u32 (pos + 1) in
      if u32 (pos + offset) =? sb_writePos s then Some (inr (-1)) else
      Some (inl (if u32 (pos + offset) =? sb_size s then u32 (- pos) else offset, pos))
  end.
Fixpoint find_loop (fuel : nat) (c : Z) (s : SerialBuffer) (avail : Z) (st : Z * Z) : option Z :=
  match fuel with
  | O => None
  | S fuel =>
      match find_body c s avail st with
      | None => None
      | Some (inr r) => Some r
      | Some (inl st) => find_loop fuel c s avail st
      end
  end.
Definition find (c : Z) (s : SerialBuffer) : option Z :=
  find_loop (S (Z.to_nat (available s))) c s (available s) (sb_readPos s, 0).

(** [avail] bytes at most are moved to the new array. *)
Fixpoint resize_loop (avail : nat) (newSize : Z) (new_buf : list Z) (new_wpos : Z) : M SerialBuffer (list Z * Z) :=
  match avail with
  | O => ret (new_buf, new_wpos)
  | S avail =>
      if new_wpos <? newSize then
        let! c := readChar in resize_loop avail newSize (setb new_buf new_wpos (u8 c)) (new_wpos + 1)
      else ret (new_buf, new_wpos)
  end.

(** [new_array] is what [new] returns. *)
Definition resize (new_array : Z -> option (list Z)) (newSize : Z) : M SerialBuffer Z :=
  let! s := get in
  if sb_size s =? newSize then ret (sb_size s) else
  match new_array newSize with
  | None => ret (sb_size s)
  | Some new_buf =>
      let! (b, w) := resize_loop (Z.to_nat (available s)) newSize new_buf 0 in
      modify (fun _ => {| sb_size := newSize; sb_readPos := 0; sb_writePos := w; sb_buffer := Some b |}) ;;;
      ret newSize
  end.

Definition clear (s : SerialBuffer) : SerialBuffer := set_readPos 0 (set_writePos 0 s).

(** ** The buffer as a queue *)

Record sb_ok (s : SerialBuffer) (b : list Z) : Prop := {
  so_buffer : sb_buffer s = Some b;
  so_size : sb_size s = zlen b;
  so_range : 1 <= sb_size s < 2 ^ 31;
  so_read : 0 <= sb_readPos s < sb_size s;
  so_write : 0 <= sb_writePos s < sb_size s
}.

(** The bytes from the read position to the write position, around the end. *)
Definition stored (s : SerialBuffer) : Z := (sb_writePos s - sb_readPos s) mod sb_size s.
Definition cell (b : list Z) (n r i : Z) : Z := getb b ((r + i) mod n).
Definition queued (s : SerialBuffer) (b : list Z) : list Z := cell b (sb_size s) (sb_readPos s) <$> seqZ 0 (stored s).

(** A remainder within one turn. *)
Lemma mod_turn x n : 0 < n -> - n <= x < n -> x mod n = if x <? 0 then x + n else x.
Proof.
  intros Hn Hx. destruct (Z.ltb_spec x 0); [|by apply Z.mod_small; lia]. symmetry. apply (Z.mod_unique x n (-1)); lia.
Qed.

Lemma stored_range s b : sb_ok s b -> 0 <= stored s < sb_size s.
Proof. intros []. apply Z.mod_pos_bound. lia. Qed.

Lemma zlen_queued s b : sb_ok s b -> zlen (queued s b) = stored s.
Proof. intros H. pose proof (stored_range s b H). unfold queued. rewrite zlen_fmap. unfold zlen. rewrite length_seqZ. lia. Qed.

Lemma available_spec s b : sb_ok s b -> available s = stored s.
Proof.
  intros []. unfold available, stored. rewrite mod_turn, s32_small by lia.
  destruct (Z.ltb_spec (sb_writePos s - sb_readPos s) 0); [rewrite s32_small by lia|]; rewrite u32_small; unfold is_u32; lia.
Qed.

Lemma getFreeSpace_spec s b : sb_ok s b -> getFreeSpace s = sb_size s - 1 - stored s.
Proof.
  intros []. unfold getFreeSpace, stored. rewrite mod_turn, s32_small by lia.
  destruct (Z.ltb_spec (sb_writePos s - sb_readPos s) 0); destruct (Z.ltb_spec (sb_readPos s - sb_writePos s - 1) 0);
    rewrite ?s32_small by lia; rewrite u32_small; unfold is_u32; lia.
Qed.

Lemma isEmpty_spec s b : sb_ok s b -> sb_isEmpty s = (stored s =? 0).
Proof.
  intros []. unfold sb_isEmpty, stored. rewrite mod_turn by lia.
  destruct (Z.ltb_spec (sb_writePos s - sb_readPos s) 0); destruct (Z.eqb_spec (sb_writePos s) (sb_readPos s)); lia.
Qed.

Lemma no_data_spec s b : sb_ok s b -> no_data s = (stored s =? 0).
Proof. intros H. unfold no_data. rewrite (so_buffer _ _ H). by eapply isEmpty_spec. Qed.

Lemma getNextPos_spec s b p : sb_ok s b -> 0 <= p < sb_size s -> getNextPos s p = (p + 1) mod sb_size s.
Proof.
  intros [] Hp. unfold getNextPos. rewrite u32_small by (unfold is_u32; lia).
  destruct (Z.eqb_spec (p + 1) (sb_size s)) as [->|]; [by rewrite Z.mod_same by lia|]. rewrite Z.mod_small; lia.
Qed.

Lemma byte_at_spec s b i : sb_ok s b -> 0 <= i < sb_size s -> byte_at s i = Some (getb b i).
Proof.
  intros H Hi. unfold byte_at. rewrite (so_buffer _ _ H). rewrite (so_size _ _ H) in Hi.
  by rewrite (proj2 (Z.leb_le _ _)), (proj2 (Z.ltb_lt _ _)) by lia.
Qed.

Lemma stored_zero s b : sb_ok s b -> stored s = 0 -> queued s b = [].
Proof. intros _ E. unfold queued. by rewrite E. Qed.

(** The first byte and the rest. *)
Lemma queued_pop s b : sb_ok s b -> stored s <> 0 ->
  let s' := set_readPos ((sb_readPos s + 1) mod sb_size s) s in
  sb_ok s' b /\ stored s' = stored s - 1 /\ queued s b = getb b (sb_readPos s) :: queued s' b.
Proof.
  intros H Hne. pose proof (stored_range s b H) as Hr. destruct H as [H1 H2 H3 H4 H5]. cbv zeta.
  assert (stored (set_readPos ((sb_readPos s + 1) mod sb_size s) s) = stored s - 1) as Es.
  { unfold stored in *. cbn. rewrite Zminus_mod_idemp_r. replace (sb_writePos s - (sb_readPos s + 1)) with (sb_writePos s - sb_readPos s + -1) by lia.
    rewrite <- Zplus_mod_idemp_l. rewrite Z.mod_small; lia. }
  split; [constructor; cbn; try done; apply Z.mod_pos_bound; lia|]. split; [done|]. unfold queued. rewrite Es. cbn.
  rewrite seqZ_cons by lia. rewrite fmap_cons. f_equal; [unfold cell; by rewrite Z.add_0_r, Z.mod_small by lia|].
  change (Z.succ 0) with (1 + 0). rewrite <- (fmap_add_seqZ 1 0), <- list_fmap_compose. replace (Z.pred (stored s)) with (stored s - 1) by lia.
  apply list_fmap_ext. intros _ i _. unfold cell, compose. cbn. f_equal. rewrite Zplus_mod_idemp_l. f_equal. lia.
Qed.

Lemma readChar_spec s b : sb_ok s b ->
  match queued s b with
  | [] => readChar s = Some (-1, s)
  | c :: q => exists s', readChar s = Some (c, s') /\ sb_ok s' b /\ queued s' b = q /\ sb_size s' = sb_size s /\ sb_writePos s' = sb_writePos s
  end.
Proof.
  intros H. unfold readChar. rewrite (no_data_spec s b H). destruct (Z.eqb_spec (stored s) 0) as [E|E].
  - by rewrite (stored_zero s b H E).
  - pose proof (queued_pop s b H E) as (H' & _ & ->). destruct H as [H1 H2 H3 H4 H5].
    rewrite (byte_at_spec s b) by (done || constructor; done). rewrite (getNextPos_spec s b) by (done || constructor; done). eauto 10.
Qed.

Lemma write_place s b : sb_ok s b -> (sb_readPos s + stored s) mod sb_size s = sb_writePos s.
Proof.
  intros [H1 H2 H3 H4 H5]. unfold stored. rewrite Zplus_mod_idemp_r. replace (sb_readPos s + (sb_writePos s - sb_readPos s)) with (sb_writePos s) by lia.
  by apply Z.mod_small.
Qed.

(** The byte at the write position is not stored yet. *)
Lemma cell_setb s b c i : sb_ok s b -> 0 <= i < stored s ->
  cell (setb b (sb_writePos s) c) (sb_size s) (sb_readPos s) i = cell b (sb_size s) (sb_readPos s) i.
Proof.
  intros H Hi. pose proof (write_place s b H) as Ew. pose proof (stored_range s b H) as Hr. destruct H as [H1 H2 H3 H4 H5]. unfold cell.
  apply getb_setb_ne; [lia|apply Z.mod_pos_bound; lia|]. rewrite <- Ew. intros E.
  assert ((stored s - i) mod sb_size s = 0) as E0.
  { replace (stored s - i) with (sb_readPos s + stored s - (sb_readPos s + i)) by lia. rewrite Zminus_mod, E, Z.sub_diag. by apply Z.mod_0_l; lia. }
  rewrite Z.mod_small in E0 by lia. lia.
Qed.

Lemma queued_setb s b c : sb_ok s b ->
  let s' := {| sb_size := sb_size s; sb_readPos := sb_readPos s; sb_writePos := sb_writePos s; sb_buffer := Some (setb b (sb_writePos s) c) |} in
  sb_ok s' (setb b (sb_writePos s) c) /\ queued s' (setb b (sb_writePos s) c) = queued s b.
Proof.
  intros H. split; [destruct H; constructor; cbn; rewrite ?zlen_setb; done|]. unfold queued. apply list_fmap_ext. intros j i Hi.
  apply list_elem_of_lookup_2, elem_of_seqZ in Hi. apply (cell_setb s b); [done|]. change (stored _) with (stored s) in Hi. lia.
Qed.

Lemma stored_push s b c : sb_ok s b -> stored s < sb_size s - 1 ->
  let s' := {| sb_size := sb_size s; sb_readPos := sb_readPos s; sb_writePos := (sb_writePos s + 1) mod sb_size s;
               sb_buffer := Some (setb b (sb_writePos s) c) |} in
  sb_ok s' (setb b (sb_writePos s) c) /\ queued s' (setb b (sb_writePos s) c) = queued s b ++ [c].
Proof.
  intros H Hlt. pose proof (stored_range s b H) as Hr. destruct H as [H1 H2 H3 H4 H5]. cbv zeta.
  set (s' := {| sb_size := sb_size s |}). assert (stored s' = stored s + 1) as Es.
  { unfold stored in *. subst s'. cbn. rewrite Zminus_mod_idemp_l. replace (sb_writePos s + 1 - sb_readPos s) with (sb_writePos s - sb_readPos s + 1) by lia.
    rewrite <- Zplus_mod_idemp_l. rewrite Z.mod_small; lia. }
  split; [constructor; subst s'; cbn; rewrite ?zlen_setb; try done; apply Z.mod_pos_bound; lia|].
  unfold queued. rewrite Es, seqZ_app by lia. rewrite fmap_app. pose proof (write_place s b ltac:(constructor; done)) as Ew. f_equal.
  - apply list_fmap_ext. intros j i Hi. apply list_elem_of_lookup_2, elem_of_seqZ in Hi. apply (cell_setb s b); [constructor; done|lia].
  - rewrite Z.add_0_l, seqZ_cons by lia. cbn. unfold cell. rewrite Ew. by rewrite getb_setb_eq by lia.
Qed.

Lemma full_test s b : sb_ok s b -> ((sb_writePos s + 1) mod sb_size s =? sb_readPos s) = negb (stored s <? sb_size s - 1).
Proof.
  intros [H1 H2 H3 H4 H5]. unfold stored. rewrite (mod_turn (sb_writePos s - sb_readPos s)) by lia.
  replace ((sb_writePos s + 1) mod sb_size s) with (if sb_writePos s + 1 =? sb_size s then 0 else sb_writePos s + 1)
    by (destruct (Z.eqb_spec (sb_writePos s + 1) (sb_size s)) as [->|]; [by rewrite Z.mod_same by lia|rewrite Z.mod_small; lia]).
  repeat case_match; repeat match goal with H : (_ <? _) = _ |- _ => revert H | H : (_ =? _) = _ |- _ => revert H end; intros;
    apply eq_true_iff_eq; rewrite negb_true_iff, Z.eqb_eq, Z.ltb_ge; lia.
Qed.

(** The write is refused when one byte is left. *)
Lemma writeChar_spec s b c : sb_ok s b ->
  exists b' s', writeChar c s = Some (if stored s <? sb_size s - 1 then 1 else 0, s') /\ sb_ok s' b' /\ sb_size s' = sb_size s /\
    queued s' b' = if stored s <? sb_size s - 1 then queued s b ++ [c] else queued s b.
Proof.
  intros H. pose proof (stored_range s b H) as Hr. unfold writeChar, bind, get. rewrite (getNextPos_spec s b) by (done || apply H).
  rewrite (full_test s b) by done.
  destruct (Z.ltb_spec (stored s) (sb_size s - 1)) as [Hlt|Hge]; cbn [negb].
  - destruct (stored_push s b c H Hlt) as [H' E']. destruct H as [H1 H2 H3 H4 H5]. unfold set_byte. rewrite H1.
    rewrite (proj2 (Z.leb_le _ _)), (proj2 (Z.ltb_lt _ _)) by lia. cbn. eauto 10.
  - exists b, s. done.
Qed.

(** The index of the first [c], counted from [i]. *)
Fixpoint char_index (c : Z) (l : list Z) (i : Z) : Z :=
  match l with
  | [] => -1
  | x :: l => if x =? c then i else char_index c l (i + 1)
  end.

Lemma next_place x n : 0 < n -> (x + 1) mod n = if x mod n + 1 =? n then 0 else x mod n + 1.
Proof.
  intros Hn. pose proof (Z.mod_pos_bound x n Hn). rewrite <- Zplus_mod_idemp_l.
  destruct (Z.eqb_spec (x mod n + 1) n) as [->|]; [by apply Z.mod_same; lia|apply Z.mod_small; lia].
Qed.

Lemma find_loop_spec c s b : sb_ok s b -> forall n fuel offset pos, (n < fuel)%nat -> 0 <= pos -> Z.of_nat n = stored s - pos ->
  (n <> O -> u32 (offset + pos) = (sb_readPos s + pos) mod sb_size s) ->
  find_loop fuel c s (stored s) (offset, pos) = Some (char_index c (cell b (sb_size s) (sb_readPos s) <$> seqZ pos (Z.of_nat n)) pos).
Proof.
  intros H. pose proof (stored_range s b H) as Hr. assert (1 <= sb_size s < 2 ^ 31) as Hs by apply H. induction n as [|n IH]; intros [|fuel] offset pos Hf Hp Hn Ho; try lia;
    cbn [find_loop]; unfold find_body; [by rewrite (proj2 (Z.ltb_ge _ _)) by lia|]. rewrite (proj2 (Z.ltb_lt _ _)) by lia. cbn [negb].
  rewrite Ho by lia. pose proof (Z.mod_pos_bound (sb_readPos s + pos) (sb_size s) ltac:(lia)) as Hm.
  rewrite (byte_at_spec s b) by done. rewrite seqZ_cons by lia. cbn [fmap list_fmap char_index].
  change (getb b ((sb_readPos s + pos) mod sb_size s)) with (cell b (sb_size s) (sb_readPos s) pos).
  destruct (cell b (sb_size s) (sb_readPos s) pos =? c); [done|]. rewrite (u32_small (pos + 1)) by (unfold is_u32; lia).
  assert (u32 (pos + 1 + offset) = (sb_readPos s + pos) mod sb_size s + 1) as E1.
  { rewrite <- Ho by lia. unfold u32 in *. replace (pos + 1 + offset) with (offset + pos + 1) by lia. rewrite <- Zplus_mod_idemp_l, Ho by lia.
    rewrite Z.mod_small; lia. }
  rewrite E1. replace (Z.pred (Z.of_nat (S n))) with (Z.of_nat n) by lia. change (Z.succ pos) with (pos + 1).
  pose proof (next_place (sb_readPos s + pos) (sb_size s) ltac:(lia)) as En.
  destruct (Z.eqb_spec ((sb_readPos s + pos) mod sb_size s + 1) (sb_writePos s)) as [Ew|Ew].
  - assert (pos + 1 < sb_size s) by lia. assert (n = 0%nat) as ->; [|done]. destruct H as [H1 H2 H3 H4 H5]. rewrite (proj2 (Z.eqb_neq _ _)) in En by lia. rewrite Ew in En.
    unfold stored in Hn, Hr. rewrite <- En, Zminus_mod_idemp_l in Hn. replace (sb_readPos s + pos + 1 - sb_readPos s) with (pos + 1) in Hn by lia.
    rewrite Z.mod_small in Hn; lia.
  - apply IH; [lia|lia|lia|]. intros Hn0. rewrite <- (Z.add_assoc), En in *. destruct (Z.eqb_spec ((sb_readPos s + pos) mod sb_size s + 1) (sb_size s)) as [Es|Es].
    + unfold u32. rewrite Zplus_mod_idemp_l. by replace (- (pos + 1) + (pos + 1)) with 0 by lia.
    + rewrite <- E1. f_equal. lia.
Qed.

Lemma find_spec c s b : sb_ok s b -> find c s = Some (char_index c (queued s b) 0).
Proof.
  intros H. pose proof (stored_range s b H) as Hr. unfold find. rewrite (available_spec s b H).
  rewrite (find_loop_spec c s b H (Z.to_nat (stored s))); [|lia|lia|lia|].
  - unfold queued. by rewrite Z2Nat.id by lia.
  - intros _. rewrite Z.add_0_r. destruct H as [H1 H2 H3 H4 H5]. rewrite u32_small, Z.mod_small by (unfold is_u32; lia). done.
Qed.

Lemma peekChar_spec s b : sb_ok s b -> peekChar s = Some (default (-1) (head (queued s b))).
Proof.
  intros H. unfold peekChar. rewrite (no_data_spec s b H). destruct (Z.eqb_spec (stored s) 0) as [E|E].
  - by rewrite (stored_zero s b H E).
  - pose proof (queued_pop s b H E) as (_ & _ & ->). apply byte_at_spec; [done|apply H].
Qed.

Lemma peekLastChar_spec s b : sb_ok s b -> peekLastChar s = Some (default (-1) (last (queued s b))).
Proof.
  intros H. pose proof (stored_range s b H) as Hr. unfold peekLastChar. rewrite (no_data_spec s b H). destruct (Z.eqb_spec (stored s) 0) as [E|E].
  - by rewrite (stored_zero s b H E).
  - unfold queued. assert (seqZ 0 (stored s) = seqZ 0 (stored s - 1) ++ [stored s - 1]) as ->.
    { replace (stored s) with (stored s - 1 + 1) at 1 by lia. rewrite seqZ_app by lia. by rewrite Z.add_0_l, (seqZ_cons (stored s - 1)) by lia. }
    rewrite fmap_app. cbn [fmap list_fmap]. rewrite last_snoc.
    destruct H as [H1 H2 H3 H4 H5]. unfold getPrevPos.
    assert ((sb_readPos s + (stored s - 1)) mod sb_size s = u32 ((if nz (sb_writePos s) then sb_writePos s else sb_size s) - 1)) as E1.
    { unfold stored. rewrite Z.add_sub_assoc. rewrite Zminus_mod, Zplus_mod_idemp_r, <- Zminus_mod.
      replace (sb_readPos s + (sb_writePos s - sb_readPos s) - 1) with (sb_writePos s - 1) by lia. rewrite mod_turn by lia.
      destruct (nz (sb_writePos s)) eqn:En; [apply nz_true in En|apply nz_false in En]; destruct (Z.ltb_spec (sb_writePos s - 1) 0); rewrite u32_small; unfold is_u32; lia. }
    rewrite <- E1. cbn [default from_option id]. apply byte_at_spec; [constructor; done|apply Z.mod_pos_bound; lia].
Qed.

(** ** Resizing *)

Lemma resize_loop_spec newSize : forall n s b nb w,
  sb_ok s b -> Z.of_nat n = stored s -> Forall is_byte (queued s b) -> 0 <= w -> w + Z.of_nat n <= newSize -> newSize = zlen nb ->
  exists s', resize_loop n newSize nb w s = Some ((splice nb (Z.to_nat w) (queued s b), w + Z.of_nat n), s').
Proof.
  induction n as [|n IH]; intros s b nb w H Hn Hb Hw Hle Hl; cbn [resize_loop].
  - rewrite (stored_zero s b H) by lia. rewrite splice_nil, Z.add_0_r. by eexists.
  - rewrite (proj2 (Z.ltb_lt _ _)) by lia. unfold bind. pose proof (readChar_spec s b H) as Hrd. pose proof (zlen_queued s b H) as Hq.
    destruct (queued s b) as [|c q] eqn:Eq; [unfold zlen in Hq; cbn in Hq; lia|]. destruct Hrd as (s' & -> & H' & Eq' & _).
    rewrite zlen_cons in Hq. pose proof (zlen_queued s' b H') as Hq'. rewrite Eq' in Hq'. apply Forall_cons_1 in Hb as [Hc Hb].
    destruct (IH s' b (setb nb w (u8 c)) (w + 1)) as (s'' & E); [done|lia|by rewrite Eq'|lia|lia|by rewrite zlen_setb|]. rewrite E, u8_small by done.
    exists s''. do 3 f_equal; [|lia]. rewrite Eq'. rewrite Z2Nat.inj_add by lia. rewrite Nat.add_1_r.
    rewrite <- (Z2Nat.id w) at 1 by lia. apply splice_cons. unfold zlen in *. cbn. lia.
Qed.

Section Resize.
Context (new_array : Z -> option (list Z)).
Hypothesis new_array_len : forall n l, 0 <= n -> new_array n = Some l -> zlen l = n.

(** All stored bytes are kept when they leave one byte free. *)
Lemma resize_spec s b n : sb_ok s b -> Forall is_byte (queued s b) -> 1 <= n < 2 ^ 31 -> stored s < n ->
  exists s' b', resize new_array n s = Some (sb_size s', s') /\ sb_ok s' b' /\ queued s' b' = queued s b /\
    sb_size s' = if (sb_size s =? n) || bool_decide (new_array n = None) then sb_size s else n.
Proof.
  intros H Hb Hn Hlt. pose proof (stored_range s b H) as Hr. unfold resize, bind, get.
  destruct (Z.eqb_spec (sb_size s) n) as [E|E]; [exists s, b; done|]. destruct (new_array n) as [nb|] eqn:En; [|exists s, b; done].
  rewrite (available_spec s b H). pose proof (new_array_len n nb ltac:(lia) En) as Hl.
  destruct (resize_loop_spec n (Z.to_nat (stored s)) s b nb 0) as (s' & ->); [done|lia|done|lia|lia|done|]. cbn [modify ret orb].
  rewrite Z.add_0_l, Z2Nat.id by lia. change (Z.to_nat 0) with 0%nat. pose proof (zlen_queued s b H) as Hq.
  exists {| sb_size := n; sb_readPos := 0; sb_writePos := stored s; sb_buffer := Some (splice nb 0 (queued s b)) |}, (splice nb 0 (queued s b)). split; [done|]. assert (zlen (splice nb 0 (queued s b)) = n) as Hz.
  { unfold zlen in *. rewrite length_splice; lia. }
  split; [constructor; cbn; done || lia|]. split; [|done]. remember (stored s) as k eqn:Hk. unfold queued at 1, stored, cell. cbn.
  rewrite Z.sub_0_r, (Z.mod_small k) by lia.
  apply list_eq. intros i. rewrite list_lookup_fmap. destruct (decide (i < length (queued s b))%nat) as [Hi|Hi].
  - rewrite lookup_seqZ_lt by (unfold zlen in *; lia). cbn. rewrite Z.mod_small by (unfold zlen in *; lia). destruct (lookup_lt_is_Some_2 _ _ Hi) as [x Hx].
    rewrite Hx. f_equal. rewrite Z.add_0_l. apply lookup_getb. unfold splice. rewrite take_0, app_nil_l. rewrite lookup_app_l by done. exact Hx.
  - rewrite lookup_seqZ_ge by (unfold zlen in *; lia). cbn. symmetry. apply lookup_ge_None. lia.
Qed.

(** The first allocation. *)
Lemma resize_new n : 1 <= n < 2 ^ 31 -> is_Some (new_array n) ->
  exists s b, resize new_array n SerialBuffer_new = Some (n, s) /\ sb_ok s b /\ queued s b = [] /\ sb_size s = n.
Proof.
  intros Hn [nb En]. unfold resize, bind, get. cbn [SerialBuffer_new sb_size]. rewrite (proj2 (Z.eqb_neq 0 n)) by lia. rewrite En. cbn.
  eexists _, nb. split; [done|]. split; [|done]. constructor; cbn; try done; rewrite ?(new_array_len n nb ltac:(lia) En); lia.
Qed.

(** ** Refinement of a bounded queue *)

Inductive sb_op :=
  | SWrite (c : Z) | SRead | SPeek | SPeekLast | SFind (c : Z) | SAvailable | SFree | SEmpty | SResize (n : Z) | SClear.

Definition sb_exec (op : sb_op) : M SerialBuffer Z :=
  let obs (f : SerialBuffer -> option Z) : M SerialBuffer Z := fun s => match f s with Some r => Some (r, s) | None => None end in
  match op with
  | SWrite c => writeChar c
  | SRead => readChar
  | SPeek => obs peekChar
  | SPeekLast => obs peekLastChar
  | SFind c => obs (find c)
  | SAvailable => gets available
  | SFree => gets getFreeSpace
  | SEmpty => gets (fun s => Z.b2z (sb_isEmpty s))
  | SResize n => resize new_array n
  | SClear => modify clear ;;; ret 0
  end.

(** A queue [q] of at most [cap] - 1 bytes.  It cannot be made so small that
    its bytes leave no byte free. *)
Definition queue_step (op : sb_op) (st : Z * list Z) : option (Z * (Z * list Z)) :=
  let '(cap, q) := st in
  match op with
  | SWrite c => Some (if zlen q <? cap - 1 then (1, (cap, q ++ [c])) else (0, st))
  | SRead => Some (match q with [] => (-1, st) | c :: q => (c, (cap, q)) end)
  | SPeek => Some (default (-1) (head q), st)
  | SPeekLast => Some (default (-1) (last q), st)
  | SFind c => Some (char_index c q 0, st)
  | SAvailable => Some (zlen q, st)
  | SFree => Some (cap - 1 - zlen q, st)
  | SEmpty => Some (Z.b2z (zlen q =? 0), st)
  | SResize n =>
      if (1 <=? n) && (n <? 2 ^ 31) && (zlen q <? n) then
        let cap := if (cap =? n) || bool_decide (new_array n = None) then cap else n in Some (cap, (cap, q))
      else None
  | SClear => Some (0, (cap, []))
  end.
Fixpoint queue_run (ops : list sb_op) (st : Z * list Z) : option (list Z * (Z * list Z)) :=
  match ops with
  | [] => Some ([], st)
  | op :: ops =>
      match queue_step op st with
      | None => None
      | Some (r, st) => match queue_run ops st with None => None | Some (rs, st) => Some (r :: rs, st) end
      end
  end.
Fixpoint sb_run (ops : list sb_op) : M SerialBuffer (list Z) :=
  match ops with
  | [] => ret []
  | op :: ops => let! r := sb_exec op in let! rs := sb_run ops in ret (r :: rs)
  end.

Definition op_byte (op : sb_op) : Prop := match op with SWrite c => is_byte c | _ => True end.

Definition represents (s : SerialBuffer) (st : Z * list Z) : Prop :=
  exists b, sb_ok s b /\ sb_size s = fst st /\ queued s b = snd st /\ Forall is_byte (snd st).

Lemma clear_spec s b : sb_ok s b -> sb_ok (clear s) b /\ queued (clear s) b = [].
Proof.
  intros [H1 H2 H3 H4 H5]. split; [constructor; cbn; done || lia|]. unfold queued, stored. cbn. by rewrite Z.mod_0_l by lia.
Qed.

Lemma sb_step_refines op s st r st' : represents s st -> op_byte op -> queue_step op st = Some (r, st') ->
  exists s', sb_exec op s = Some (r, s') /\ represents s' st'.
Proof.
  destruct st as [cap q]. intros (b & H & Es & Eq & Hb) Hop E. cbn [fst snd] in *. pose proof (zlen_queued s b H) as Hz. rewrite Eq in Hz.
  assert (forall x, Some (x, (cap, q)) = Some (r, st') -> exists s', Some (x, s) = Some (r, s') /\ represents s' st') as Hsame.
  { intros x [= <- <-]. exists s. split; [done|]. by exists b. }
  destruct op as [c| | | |c| | | |n|]; cbn [queue_step sb_exec] in *.
  - destruct (writeChar_spec s b c H) as (b' & s' & -> & H' & Es' & Eq'). rewrite Hz, <- Es in E. injection E as E. exists s'.
    destruct (stored s <? sb_size s - 1); injection E as <- <-; (split; [done|]); exists b'; cbn; rewrite Eq', Eq, Es'; (split; [done|]); (split; [done|]); (split; [done|]); [|done].
    apply Forall_app; eauto.
  - pose proof (readChar_spec s b H) as Hrd. rewrite Eq in Hrd. destruct q as [|c q]; [rewrite Hrd; by apply Hsame|].
    destruct Hrd as (s' & -> & H' & Eq' & Es' & _). injection E as <- <-. exists s'. split; [done|]. exists b. cbn. rewrite Es', Es, Eq'.
    do 3 (split; [done|]). by apply Forall_cons_1 in Hb as [_ ?].
  - rewrite (peekChar_spec s b H), Eq. by apply Hsame.
  - rewrite (peekLastChar_spec s b H), Eq. by apply Hsame.
  - rewrite (find_spec c s b H), Eq. by apply Hsame.
  - unfold gets. rewrite (available_spec s b H), <- Hz. by apply Hsame.
  - unfold gets. rewrite (getFreeSpace_spec s b H), Es, <- Hz. by apply Hsame.
  - unfold gets. rewrite (isEmpty_spec s b H), <- Hz. by apply Hsame.
  - destruct ((1 <=? n) && (n <? 2 ^ 31) && (zlen q <? n)) eqn:Ev; [|done]. rewrite !andb_true_iff, Z.leb_le, !Z.ltb_lt in Ev.
    destruct (resize_spec s b n H) as (s' & b' & -> & H' & Eq' & Es'); [by rewrite Eq|lia|lia|]. rewrite Es in Es'. injection E as <- <-. rewrite <- Es'. exists s'.
    split; [done|]. exists b'. cbn. by rewrite Eq', Eq.
  - destruct (clear_spec s b H) as [H' Eq']. injection E as <- <-. exists (clear s). split; [done|]. exists b. cbn. by rewrite Eq'.
Qed.

Lemma sb_run_refines ops : forall s st rs st', represents s st -> Forall op_byte ops -> queue_run ops st = Some (rs, st') ->
  exists s', sb_run ops s = Some (rs, s') /\ represents s' st'.
Proof.
  induction ops as [|op ops IH]; intros s st rs st' Hs Hb E; cbn [queue_run sb_run] in *; [injection E as <- <-; by exists s|].
  apply Forall_cons_1 in Hb as [Ho Hb]. destruct (queue_step op st) as [[r st1]|] eqn:E1; [|done].
  destruct (sb_step_refines op s st r st1 Hs Ho E1) as (s1 & Er & Hs1). destruct (queue_run ops st1) as [[rs1 st2]|] eqn:E2; [|done]. injection E as <- <-.
  destruct (IH s1 st1 rs1 st2 Hs1 Hb E2) as (s2 & Er2 & Hs2). exists s2. unfold bind. rewrite Er, Er2. done.
Qed.

(** C20. A [SerialBuffer] is a queue of at most [size] - 1 bytes: on a new
    buffer of any size, every sequence of writes, reads, peeks at both ends,
    searches, queries, clears and resizes that leave a byte free gives the
    replies of the queue, no access leaves the array, and the bytes between
    the positions are the queue. *)
Theorem serial_buffer_refines cap ops rs st :
  1 <= cap < 2 ^ 31 -> is_Some (new_array cap) -> Forall op_byte ops -> queue_run ops (cap, []) = Some (rs, st) ->
  exists s, (resize new_array cap ;;; sb_run ops) SerialBuffer_new = Some (rs, s) /\ represents s st.
Proof.
  intros Hc Ha Hb E. destruct (resize_new cap Hc Ha) as (s & b & Er & H & Eq & Es).
  destruct (sb_run_refines ops s (cap, []) rs st) as (s' & Er' & Hs'); [by exists b|done|done|]. exists s'. unfold bind at 1. by rewrite Er.
Qed.
End Resize.

Definition demo_array (n : Z) : option (list Z) := if n <? 1000 then Some (replicate (Z.to_nat n) 0xAA) else None.

Lemma demo_array_len n l : 0 <= n -> demo_array n = Some l -> zlen l = n.
Proof. unfold demo_array. intros Hn E. destruct (n <? 1000); [|done]. injection E as <-. rewrite zlen_replicate. lia. Qed.

Definition demo_ops : list sb_op :=
  [SWrite 1; SWrite 2; SRead; SWrite 3; SWrite 4; SWrite 5; SFind 4; SPeekLast; SResize 8; SWrite 6; SFree].

Lemma serial_buffer_refines_witness :
  exists s, (resize demo_array 4 ;;; sb_run demo_array demo_ops) SerialBuffer_new = Some ([1; 1; 1; 1; 1; 0; 2; 4; 8; 1; 3], s) /\
    represents s (8, [2; 3; 4; 6]).
Proof.
  apply (serial_buffer_refines demo_array demo_array_len 4 demo_ops);
    [lia|by eexists|repeat constructor; unfold is_byte; lia|vm_compute; reflexivity].
Defined.

(** Shrinking a buffer to as many bytes as it holds sets the write position
    behind the array, and the next write leaves the array. *)
Example serial_buffer_resize_overruns :
  (resize demo_array 4 ;;; sb_run demo_array [SWrite 1; SWrite 2; SWrite 3; SResize 3; SAvailable]) SerialBuffer_new <> None /\
  (resize demo_array 4 ;;; sb_run demo_array [SWrite 1; SWrite 2; SWrite 3; SResize 3; SRead; SWrite 4]) SerialBuffer_new = None.
Proof. split; [vm_compute; discriminate|vm_compute; reflexivity]. Qed.
