(* ===== verification/Uart.v ===== *)
(** * The UART driver

    [Sming/system/uart.cpp] and [Sming/system/include/espinc/uart.h].  A
    [port] is a UART object with the registers of its UART; the public
    functions work on [uarts], the objects by address, the table of instances
    and both UARTs.  Reading and writing are written as machines that make one
    access to shared state per step ([rstep], [wstep]), so that [UartTask] can
    interleave them with the interrupt service routine; run without
    interference they are [uart_read] and [uart_write]. *)

From S2P Require Import Prelude SerialBuffer.

(** ** Registers *)

Definition UART0 : Z := 0.
Definition UART1 : Z := 1.
Definition UART_NO : Z := -1.
Definition UART_COUNT : Z := 2.
Definition UART_TX_FIFO_SIZE : Z := 0x80.
Definition UART_OPT_TXWAIT : Z := 0.

Definition UITO : Z := 8.
Definition UIFR : Z := 3.
Definition UIFE : Z := 1.
Definition UIFF : Z := 0.
Definition USTXC : Z := 16.
Definition USRXC : Z := 0.
Definition UCTXRST : Z := 18.
Definition UCRXRST : Z := 17.
Definition UCTOE : Z := 31.
Definition UCTOT : Z := 24.
Definition UCFET : Z := 8.
Definition UCFFT : Z := 0.
Definition IOSWAPU0 : Z := 2.
Definition ESP8266_CLOCK : Z := 80000000.

Definition BV (n : Z) : Z := Z.shiftl 1 n.
Definition set_bits (x m : Z) : Z := Z.lor x m.
Definition clear_bits (x m : Z) : Z := Z.ldiff x m.

(** The two FIFOs, the enabled and the raised interrupts, and the control
    registers.  [stale] is what a read of the empty receive FIFO returns. *)
Record hwregs := {
  hw_tx : list Z; hw_rx : list Z; stale : Z;
  USIE : Z; raw : Z; USC0 : Z; USC1 : Z; USD : Z
}.
Definition set_tx_fifo (l : list Z) (h : hwregs) : hwregs :=
  {| hw_tx := l; hw_rx := hw_rx h; stale := stale h; USIE := USIE h; raw := raw h; USC0 := USC0 h; USC1 := USC1 h; USD := USD h |}.
Definition set_rx_fifo (l : list Z) (h : hwregs) : hwregs :=
  {| hw_tx := hw_tx h; hw_rx := l; stale := stale h; USIE := USIE h; raw := raw h; USC0 := USC0 h; USC1 := USC1 h; USD := USD h |}.
Definition set_USIE (x : Z) (h : hwregs) : hwregs :=
  {| hw_tx := hw_tx h; hw_rx := hw_rx h; stale := stale h; USIE := x; raw := raw h; USC0 := USC0 h; USC1 := USC1 h; USD := USD h |}.
Definition set_raw (x : Z) (h : hwregs) : hwregs :=
  {| hw_tx := hw_tx h; hw_rx := hw_rx h; stale := stale h; USIE := USIE h; raw := x; USC0 := USC0 h; USC1 := USC1 h; USD := USD h |}.
Definition set_USC0 (x : Z) (h : hwregs) : hwregs :=
  {| hw_tx := hw_tx h; hw_rx := hw_rx h; stale := stale h; USIE := USIE h; raw := raw h; USC0 := x; USC1 := USC1 h; USD := USD h |}.
Definition set_USC1 (x : Z) (h : hwregs) : hwregs :=
  {| hw_tx := hw_tx h; hw_rx := hw_rx h; stale := stale h; USIE := USIE h; raw := raw h; USC0 := USC0 h; USC1 := x; USD := USD h |}.
Definition set_USD (x : Z) (h : hwregs) : hwregs :=
  {| hw_tx := hw_tx h; hw_rx := hw_rx h; stale := stale h; USIE := USIE h; raw := raw h; USC0 := USC0 h; USC1 := USC1 h; USD := x |}.

(** The status register holds the counts of both FIFOs (its other bits are the
    modem lines, which are not connected); the interrupt status the raised
    interrupts that are enabled; a write to [USIC] clears. *)
Definition USS (h : hwregs) : Z := Z.lor (Z.shiftl (zlen (hw_tx h)) USTXC) (zlen (hw_rx h)).
Definition USIS (h : hwregs) : Z := Z.land (raw h) (USIE h).
Definition write_USIC (x : Z) (h : hwregs) : hwregs := set_raw (clear_bits (raw h) x) h.

Definition UART_RXCOUNT (h : hwregs) : Z := Z.land (Z.shiftr (USS h) USRXC) 0x7f.
Definition UART_TXCOUNT (h : hwregs) : Z := Z.shiftr (USS h) USTXC.
Definition UART_TXFULL (h : hwregs) : bool := 0x7f <=? UART_TXCOUNT h.

(** A write to a full FIFO is lost. *)
Definition write_USF (c : Z) (h : hwregs) : hwregs :=
  if zlen (hw_tx h) <? UART_TX_FIFO_SIZE then set_tx_fifo (hw_tx h ++ [c]) h else h.
Definition read_USF (h : hwregs) : Z * hwregs :=
  match hw_rx h with [] => (stale h, h) | c :: l => (c, set_rx_fifo l h) end.
(** Setting a reset bit of [USC0] empties the FIFO. *)
Definition write_USC0 (x : Z) (h : hwregs) : hwregs :=
  let h := if Z.testbit x UCTXRST then set_tx_fifo [] h else h in
  let h := if Z.testbit x UCRXRST then set_rx_fifo [] h else h in
  set_USC0 x h.

(** ** UART objects *)

Inductive uart_mode := UART_FULL | UART_RX_ONLY | UART_TX_ONLY.

(** [callback] identifies the user's function. *)
Record uart_t := {
  uart_nr : Z; baud_rate : Z; mode : uart_mode; options : Z; rx_pin : Z; tx_pin : Z;
  rx_buffer : option SerialBuffer; tx_buffer : option SerialBuffer; callback : option Z; param : Z
}.
Definition set_rx_buffer (b : option SerialBuffer) (u : uart_t) : uart_t :=
  {| uart_nr := uart_nr u; baud_rate := baud_rate u; mode := mode u; options := options u; rx_pin := rx_pin u; tx_pin := tx_pin u;
     rx_buffer := b; tx_buffer := tx_buffer u; callback := callback u; param := param u |}.
Definition set_tx_buffer (b : option SerialBuffer) (u : uart_t) : uart_t :=
  {| uart_nr := uart_nr u; baud_rate := baud_rate u; mode := mode u; options := options u; rx_pin := rx_pin u; tx_pin := tx_pin u;
     rx_buffer := rx_buffer u; tx_buffer := b; callback := callback u; param := param u |}.
Definition set_baud_rate (x : Z) (u : uart_t) : uart_t :=
  {| uart_nr := uart_nr u; baud_rate := x; mode := mode u; options := options u; rx_pin := rx_pin u; tx_pin := tx_pin u;
     rx_buffer := rx_buffer u; tx_buffer := tx_buffer u; callback := callback u; param := param u |}.
Definition set_pins (rx tx : Z) (u : uart_t) : uart_t :=
  {| uart_nr := uart_nr u; baud_rate := baud_rate u; mode := mode u; options := options u; rx_pin := rx; tx_pin := tx;
     rx_buffer := rx_buffer u; tx_buffer := tx_buffer u; callback := callback u; param := param u |}.

Definition uart_tx_enabled (u : uart_t) : bool := match mode u with UART_RX_ONLY => false | _ => true end.
Definition uart_rx_enabled (u : uart_t) : bool := match mode u with UART_TX_ONLY => false | _ => true end.
Definition has_option (u : uart_t) (opt : Z) : bool := nz (Z.land (options u) (BV opt)).

(** A UART object, its registers, and the calls of the callback so far with
    the status each was given. *)
Record port := { pu : uart_t; ph : hwregs; calls : list (Z * Z) }.
Definition upd_hw (f : hwregs -> hwregs) : M port unit :=
  modify (fun p => {| pu := pu p; ph := f (ph p); calls := calls p |}).
Definition upd_uart (f : uart_t -> uart_t) : M port unit :=
  modify (fun p => {| pu := f (pu p); ph := ph p; calls := calls p |}).
Definition get_USF : M port Z := fun p => let '(c, h) := read_USF (ph p) in Some (c, {| pu := pu p; ph := h; calls := calls p |}).
(** An operation on a buffer that exists. *)
Definition on_rx {A} (m : M SerialBuffer A) : M port A := fun p =>
  match rx_buffer (pu p) with
  | None => None
  | Some b => match m b with Some (a, b) => Some (a, {| pu := set_rx_buffer (Some b) (pu p); ph := ph p; calls := calls p |}) | None => None end
  end.
Definition on_tx {A} (m : M SerialBuffer A) : M port A := fun p =>
  match tx_buffer (pu p) with
  | None => None
  | Some b => match m b with Some (a, b) => Some (a, {| pu := set_tx_buffer (Some b) (pu p); ph := ph p; calls := calls p |}) | None => None end
  end.

(** ** Reading *)

Definition rx_empty (u : uart_t) : bool := match rx_buffer u with None => true | Some b => sb_isEmpty b end.

(** The program points of [uart_read], with the bytes read so far. *)
Inductive rpc :=
  | R_buffer (got : list Z)   (* read < size && !isEmpty() *)
  | R_take (got : list Z)     (* buf[read++] = readChar() *)
  | R_count (got : list Z)    (* read < size && UART_RXCOUNT != 0 *)
  | R_fifo (got : list Z)     (* buf[read++] = USF *)
  | R_load (got : list Z)     (* USIE |= ..., the load *)
  | R_enable (got : list Z) (usie : Z)
  | R_done (got : list Z).

Definition rstep (size : Z) (pc : rpc) : M port rpc :=
  match pc with
  | R_buffer got =>
      let! u := gets pu in
      match rx_buffer u with
      | None => ret (R_count got)
      | Some b => ret (if (zlen got <? size) && negb (sb_isEmpty b) then R_take got else R_count got)
      end
  | R_take got => let! c := on_rx readChar in ret (R_buffer (got ++ [u8 c]))
  | R_count got => let! h := gets ph in ret (if (zlen got <? size) && negb (UART_RXCOUNT h =? 0) then R_fifo got else R_load got)
  | R_fifo got => let! c := get_USF in ret (R_count (got ++ [u8 c]))
  | R_load got => let! h := gets ph in ret (R_enable got (USIE h))
  | R_enable got usie => upd_hw (set_USIE (set_bits usie (Z.lor (BV UIFF) (BV UITO)))) ;;; ret (R_done got)
  | R_done got => ret pc
  end.
Fixpoint rrun (fuel : nat) (size : Z) (pc : rpc) : M port (list Z) :=
  match fuel with
  | O => fault
  | S fuel => let! pc := rstep size pc in match pc with R_done got => ret got | _ => rrun fuel size pc end
  end.

(** Two steps for each byte, and one to leave each loop. *)
Definition uart_read (size : Z) : M port (list Z) :=
  let! u := gets pu in
  if negb (uart_rx_enabled u) || (size =? 0) then ret [] else rrun (Z.to_nat (2 * size + 4)) size (R_buffer []).

Definition uart_read_char : M port Z := let! d := uart_read 1 in ret (match d with c :: _ => c | [] => -1 end).

Definition uart_rx_available : M port Z :=
  let! p := get in
  if negb (uart_rx_enabled (pu p)) then ret 0 else
  ret (u32 (UART_RXCOUNT (ph p) + match rx_buffer (pu p) with Some b => available b | None => 0 end)).

Definition uart_peek_char (u : uart_t) : option Z := match rx_buffer u with Some b => peekChar b | None => Some (-1) end.
Definition uart_peek_last_char (u : uart_t) : option Z := match rx_buffer u with Some b => peekLastChar b | None => Some (-1) end.
Definition uart_rx_find (u : uart_t) (c : Z) : option Z := match rx_buffer u with Some b => find (u8 c) b | None => Some (-1) end.
Definition uart_rx_buffer_size (u : uart_t) : Z := match rx_buffer u with Some b => sb_size b | None => 0 end.
Definition uart_tx_buffer_size (u : uart_t) : Z := match tx_buffer u with Some b => sb_size b | None => 0 end.

(** ** Writing *)

Definition tx_isEmpty (u : uart_t) : bool := match tx_buffer u with None => true | Some b => sb_isEmpty b end.

(** The program points of [uart_write], with the number of bytes written. *)
Inductive wpc :=
  | W_top (written : Z)              (* if(!tx_buffer || isEmpty()) *)
  | W_full (written : Z)             (* written < size && !UART_TXFULL *)
  | W_put (written : Z)              (* USF = buf[written++] *)
  | W_room (written : Z)             (* written < size, and the test of writeChar *)
  | W_store (written nextPos : Z)    (* buffer[writePos] = c *)
  | W_commit (written nextPos : Z)   (* writePos = nextPos *)
  | W_test (written : Z)             (* written >= size || !TXWAIT *)
  | W_load (written : Z)             (* USIE |= ..., the load *)
  | W_enable (written usie : Z)
  | W_done (written : Z).

Definition wstep (buf : list Z) (pc : wpc) : M port wpc :=
  let size := zlen buf in
  match pc with
  | W_top n => let! u := gets pu in ret (if tx_isEmpty u then W_full n else W_room n)
  | W_full n => let! h := gets ph in ret (if (n <? size) && negb (UART_TXFULL h) then W_put n else W_room n)
  | W_put n => upd_hw (write_USF (getb buf n)) ;;; ret (W_full (n + 1))
  | W_room n =>
      let! u := gets pu in
      match tx_buffer u with
      | None => ret (W_test n)
      | Some b =>
          let nextPos := getNextPos b (sb_writePos b) in
          ret (if (n <? size) && negb (nextPos =? sb_readPos b) then W_store n nextPos else W_test n)
      end
  | W_store n nextPos => on_tx (let! b := get in set_byte (sb_writePos b) (getb buf n)) ;;; ret (W_commit n nextPos)
  | W_commit n nextPos => on_tx (modify (set_writePos nextPos)) ;;; ret (W_room (n + 1))
  | W_test n => let! u := gets pu in ret (if (size <=? n) || negb (has_option u UART_OPT_TXWAIT) then W_load n else W_top n)
  | W_load n => let! h := gets ph in ret (if nz n then W_enable n (USIE h) else W_done n)
  | W_enable n usie => upd_hw (set_USIE (set_bits usie (BV UIFE))) ;;; ret (W_done n)
  | W_done n => ret pc
  end.
Fixpoint wrun (fuel : nat) (buf : list Z) (pc : wpc) : M port Z :=
  match fuel with
  | O => fault
  | S fuel => let! pc := wstep buf pc in match pc with W_done n => ret n | _ => wrun fuel buf pc end
  end.

(** Three steps for a byte at most; a call that has to wait for the interrupt
    service routine runs out of fuel here. *)
Definition uart_write (buf : list Z) : M port Z :=
  let! u := gets pu in
  if negb (uart_tx_enabled u) || (zlen buf =? 0) then ret 0 else wrun (3 * length buf + 6) buf (W_top 0).
Definition uart_write_char (c : Z) : M port Z := uart_write [c].

Definition uart_tx_free : M port Z :=
  let! p := get in
  if negb (uart_tx_enabled (pu p)) then ret 0 else
  ret (u32 (u32 (UART_TX_FIFO_SIZE - UART_TXCOUNT (ph p)) + match tx_buffer (pu p) with Some b => getFreeSpace b | None => 0 end)).

(** [uart_wait_tx_empty]: one test of a loop per step; between the steps the
    task sleeps in [delay(0)]. *)
Inductive wait_pc := Wait_buffer | Wait_fifo | Wait_done.
Definition uart_wait_tx_empty (pc : wait_pc) : M port wait_pc :=
  let! p := get in
  match pc with
  | Wait_buffer => ret (if negb (uart_tx_enabled (pu p)) then Wait_done else if tx_isEmpty (pu p) then Wait_fifo else Wait_buffer)
  | Wait_fifo => ret (if UART_TXCOUNT (ph p) =? 0 then Wait_done else Wait_fifo)
  | Wait_done => ret Wait_done
  end.

(** ** The interrupt service routine *)

(** [while(space-- && UART_RXCOUNT != 0)]: the number of bytes moved. *)
Fixpoint fill_rx (space : nat) : M port Z :=
  match space with
  | O => ret 0
  | S space =>
      let! h := gets ph in
      if UART_RXCOUNT h =? 0 then ret 0 else
      let! c := get_USF in
      on_rx (writeChar (u8 c)) ;;;
      let! n := fill_rx space in
      ret (n + 1)
  end.

(** [while(avail-- && !UART_TXFULL)] *)
Fixpoint drain_tx (avail : nat) : M port unit :=
  match avail with
  | O => ret tt
  | S avail =>
      let! h := gets ph in
      if UART_TXFULL h then ret tt else
      let! c := on_tx readChar in
      upd_hw (write_USF c) ;;;
      drain_tx avail
  end.

Definition isr_rx : M port unit :=
  let! u := gets pu in
  let! n := match rx_buffer u with None => ret 0 | Some b => fill_rx (Z.to_nat (getFreeSpace b)) end in
  upd_hw (write_USIC (BV UITO)) ;;;
  when (n =? 0) (upd_hw (fun h => set_USIE (clear_bits (USIE h) (Z.lor (BV UIFF) (BV UITO))) h)).

(** The status that is left for the callback. *)
Definition isr_tx (usis : Z) : M port Z :=
  let! u := gets pu in
  let empty := upd_hw (fun h => set_USIE (clear_bits (USIE h) (BV UIFE)) h) ;;; ret usis in
  match tx_buffer u with
  | Some b =>
      if sb_isEmpty b then empty else
      drain_tx (Z.to_nat (available b)) ;;;
      let! h := gets ph in
      if nz (UART_TXCOUNT h) then ret (clear_bits usis (BV UIFE)) else empty
  | None => empty
  end.

Definition run_callback (usis : Z) : M port unit :=
  modify (fun p => {| pu := pu p; ph := ph p;
                      calls := match callback (pu p) with Some f => if nz usis then calls p ++ [(f, usis)] else calls p | None => calls p end |}).

(** [handle_uart_interrupt] for a UART that exists and is enabled. *)
Definition service (usis : Z) : M port unit :=
  when (nz (Z.land usis (Z.lor (BV UIFF) (BV UITO)))) isr_rx ;;;
  let! usis := (if nz (Z.land usis (BV UIFE)) then isr_tx usis else ret usis) in
  run_callback usis.
Definition port_interrupt : M port unit :=
  let! h := gets ph in
  let usis := USIS h in
  if usis =? 0 then ret tt else
  upd_hw (write_USIC usis) ;;;
  service usis.

(** ** The driver *)

(** [heap] holds the UART objects by address, [pins] the mode last requested
    for each pin, [intr] whether the interrupt of the UARTs is enabled. *)
Record uarts := {
  heap : gmap positive uart_t; uartInstances : Z -> option positive; hws : Z -> hwregs; isrMask : Z; intr : bool;
  s_uart_debug_nr : Z; os_print : bool; pins : gmap Z Z; IOSWAP : Z; cb_calls : list (Z * Z)
}.
Definition set_heap (h : gmap positive uart_t) (s : uarts) : uarts :=
  {| heap := h; uartInstances := uartInstances s; hws := hws s; isrMask := isrMask s; intr := intr s;
     s_uart_debug_nr := s_uart_debug_nr s; os_print := os_print s; pins := pins s; IOSWAP := IOSWAP s; cb_calls := cb_calls s |}.
Definition set_hw (nr : Z) (f : hwregs -> hwregs) (s : uarts) : uarts :=
  {| heap := heap s; uartInstances := uartInstances s; hws := fun n => if n =? Z.land nr 1 then f (hws s n) else hws s n;
     isrMask := isrMask s; intr := intr s; s_uart_debug_nr := s_uart_debug_nr s; os_print := os_print s; pins := pins s;
     IOSWAP := IOSWAP s; cb_calls := cb_calls s |}.
Definition set_isr (mask : Z) (on : bool) (s : uarts) : uarts :=
  {| heap := heap s; uartInstances := uartInstances s; hws := hws s; isrMask := mask; intr := on;
     s_uart_debug_nr := s_uart_debug_nr s; os_print := os_print s; pins := pins s; IOSWAP := IOSWAP s; cb_calls := cb_calls s |}.
Definition set_instance (nr : Z) (p : option positive) (s : uarts) : uarts :=
  {| heap := heap s; uartInstances := fun n => if n =? nr then p else uartInstances s n; hws := hws s; isrMask := isrMask s; intr := intr s;
     s_uart_debug_nr := s_uart_debug_nr s; os_print := os_print s; pins := pins s; IOSWAP := IOSWAP s; cb_calls := cb_calls s |}.
Definition set_debug_nr (nr : Z) (on : bool) (s : uarts) : uarts :=
  {| heap := heap s; uartInstances := uartInstances s; hws := hws s; isrMask := isrMask s; intr := intr s;
     s_uart_debug_nr := nr; os_print := on; pins := pins s; IOSWAP := IOSWAP s; cb_calls := cb_calls s |}.
Definition set_ioswap (x : Z) (s : uarts) : uarts :=
  {| heap := heap s; uartInstances := uartInstances s; hws := hws s; isrMask := isrMask s; intr := intr s;
     s_uart_debug_nr := s_uart_debug_nr s; os_print := os_print s; pins := pins s; IOSWAP := x; cb_calls := cb_calls s |}.
(** What is requested of [pinMode]. *)
Definition pinMode (pin m : Z) : M uarts unit := modify (fun s =>
  {| heap := heap s; uartInstances := uartInstances s; hws := hws s; isrMask := isrMask s; intr := intr s;
     s_uart_debug_nr := s_uart_debug_nr s; os_print := os_print s; pins := <[pin := m]> (pins s); IOSWAP := IOSWAP s; cb_calls := cb_calls s |}).
Definition INPUT : Z := 0x00.
Definition SPECIAL : Z := 0xF8.
Definition FUNCTION_0 : Z := 0x08.
Definition FUNCTION_4 : Z := 0x48.

(** The object at an address, and an operation on it and its registers; a
    pointer to an object that was deleted is a fault. *)
Definition deref (p : positive) : M uarts uart_t := fun s => match heap s !! p with Some u => Some (u, s) | None => None end.
Definition upd_object (p : positive) (f : uart_t -> uart_t) : M uarts unit := fun s =>
  match heap s !! p with Some u => Some (tt, set_heap (<[p := f u]> (heap s)) s) | None => None end.
Definition on_port {A} (p : positive) (m : M port A) : M uarts A := fun s =>
  match heap s !! p with
  | None => None
  | Some u =>
      match m {| pu := u; ph := hws s (Z.land (uart_nr u) 1); calls := cb_calls s |} with
      | None => None
      | Some (a, q) =>
          Some (a, {| heap := <[p := pu q]> (heap s); uartInstances := uartInstances s;
                      hws := fun n => if n =? Z.land (uart_nr u) 1 then ph q else hws s n; isrMask := isrMask s; intr := intr s;
                      s_uart_debug_nr := s_uart_debug_nr s; os_print := os_print s; pins := pins s; IOSWAP := IOSWAP s; cb_calls := calls q |})
      end
  end.

Definition uart_get_uart (nr : Z) (s : uarts) : option positive := if u8 nr <? UART_COUNT then uartInstances s (u8 nr) else None.

Definition uart_disable_interrupts : M uarts unit := modify (fun s => set_isr (isrMask s) false s).
Definition uart_restore_interrupts : M uarts unit := modify (fun s => if nz (isrMask s) then set_isr (isrMask s) true s else s).

Definition uart_set_callback (uart : option positive) (cb : option Z) (arg : Z) : M uarts unit :=
  match uart with
  | None => ret tt
  | Some p =>
      uart_disable_interrupts ;;;
      upd_object p (fun u =>
        {| uart_nr := uart_nr u; baud_rate := baud_rate u; mode := mode u; options := options u; rx_pin := rx_pin u; tx_pin := tx_pin u;
           rx_buffer := rx_buffer u; tx_buffer := tx_buffer u; callback := cb; param := arg |}) ;;;
      uart_restore_interrupts
  end.

(** The inline accessors; a null pointer has a default. *)
Definition field (uart : option positive) (f : uart_t -> Z) (d : Z) : M uarts Z :=
  match uart with Some p => let! u := deref p in ret (f u) | None => ret d end.
Definition uart_get_nr (uart : option positive) : M uarts Z := field uart uart_nr (-1).
Definition uart_get_callback_param (uart : option positive) : M uarts Z := field uart param 0.
Definition uart_get_options (uart : option positive) : M uarts Z := field uart options 0.
Definition uart_get_baudrate (uart : option positive) : M uarts Z := field uart baud_rate 0.
Definition uart_set_options (uart : option positive) (opts : Z) : M uarts unit :=
  match uart with
  | None => ret tt
  | Some p =>
      upd_object p (fun u =>
        {| uart_nr := uart_nr u; baud_rate := baud_rate u; mode := mode u; options := opts; rx_pin := rx_pin u; tx_pin := tx_pin u;
           rx_buffer := rx_buffer u; tx_buffer := tx_buffer u; callback := callback u; param := param u |})
  end.

Definition handle_uart_interrupt (nr : Z) (uart : option positive) : M uarts unit :=
  let! s := get in
  if USIS (hws s nr) =? 0 then ret tt else
  match uart with
  | Some p =>
      if nz (Z.land (isrMask s) (BV nr)) then on_port p port_interrupt
      else modify (set_hw nr (fun h => set_USIE 0 (write_USIC (USIS h) h)))
  | None => modify (set_hw nr (fun h => set_USIE 0 (write_USIC (USIS h) h)))
  end.
Definition uart_isr : M uarts unit :=
  (let! p := gets (fun s => uartInstances s UART0) in handle_uart_interrupt UART0 p) ;;;
  (let! p := gets (fun s => uartInstances s UART1) in handle_uart_interrupt UART1 p).

Definition uart_detach (nr : Z) : M uarts unit :=
  uart_disable_interrupts ;;;
  modify (fun s => set_isr (clear_bits (isrMask s) (BV nr)) (intr s) s) ;;;
  modify (set_hw nr (fun h => set_USIE 0 (write_USIC 0xffff (set_USC1 0 h)))) ;;;
  uart_restore_interrupts.
Definition uart_detach_all : M uarts unit :=
  uart_disable_interrupts ;;;
  modify (set_hw 0 (fun h => set_USIE 0 (write_USIC 0xffff (set_USC1 0 h)))) ;;;
  modify (set_hw 1 (fun h => set_USIE 0 (write_USIC 0xffff (set_USC1 0 h)))) ;;;
  modify (fun s => set_isr 0 (intr s) s).
Definition uart_stop_isr (uart : option positive) : M uarts unit :=
  match uart with None => ret tt | Some p => let! u := deref p in uart_detach (uart_nr u) end.

Definition uart_start_isr (uart : option positive) : M uarts unit :=
  match uart with
  | None => ret tt
  | Some p =>
      let! u := deref p in
      if UART_COUNT <=? uart_nr u then ret tt else
      let usc1 := if uart_rx_enabled u then Z.lor (Z.lor (Z.shiftl 127 UCFFT) (Z.shiftl 0x02 UCTOT)) (BV UCTOE) else 0 in
      let usie := if uart_rx_enabled u then Z.lor (Z.lor (BV UIFF) (BV UIFR)) (BV UITO) else 0 in
      let usc1 := if uart_tx_enabled u then Z.lor usc1 (Z.shiftl 0 UCFET) else usc1 in
      modify (set_hw (uart_nr u) (fun h => set_USIE usie (write_USIC 0xffff (set_USC1 usc1 h)))) ;;;
      let! oldmask := gets isrMask in
      modify (fun s => set_isr (Z.lor (isrMask s) (BV (uart_nr u))) (intr s || (oldmask =? 0)) s)
  end.

Definition uart_flush (uart : option positive) : M uarts unit :=
  match uart with
  | None => ret tt
  | Some p =>
      uart_disable_interrupts ;;;
      on_port p (
        upd_uart (fun u => set_rx_buffer (clear <$> rx_buffer u) u) ;;;
        upd_uart (fun u => set_tx_buffer (clear <$> tx_buffer u) u) ;;;
        upd_hw (fun h => set_USIE (clear_bits (USIE h) (BV UIFE)) h) ;;;
        let! u := gets pu in
        when (uart_rx_enabled u) (upd_hw (fun h => set_USIE (set_bits (USIE h) (Z.lor (BV UIFF) (BV UITO))) h)) ;;;
        let tmp := Z.lor (BV UCRXRST) (BV UCTXRST) in
        upd_hw (fun h => write_USC0 (set_bits (USC0 h) tmp) h) ;;;
        upd_hw (fun h => write_USC0 (clear_bits (USC0 h) tmp) h)) ;;;
      uart_restore_interrupts
  end.

Definition uart_set_baudrate_reg (nr baud : Z) : M uarts Z :=
  if (nr <? UART0) || (UART1 <? nr) || (baud =? 0) then ret 0 else
  let clkdiv := ESP8266_CLOCK / baud in
  modify (set_hw nr (set_USD clkdiv)) ;;;
  ret (if nz clkdiv then ESP8266_CLOCK / clkdiv else 0).
Definition uart_set_baudrate (uart : option positive) (baud : Z) : M uarts Z :=
  match uart with
  | None => ret 0
  | Some p =>
      let! u := deref p in
      let! b := uart_set_baudrate_reg (uart_nr u) baud in
      upd_object p (set_baud_rate b) ;;;
      ret b
  end.

(** [new] of an object, and of an array. *)
Section Allocation.
Context (new_ok : bool) (new_array : Z -> option (list Z)).

(** The pointer is the argument and part of the result. *)
Definition realloc_buffer (buffer : option SerialBuffer) (new_size : Z) : M uarts (bool * option SerialBuffer) :=
  match buffer with
  | Some b =>
      if new_size =? 0 then
        uart_disable_interrupts ;;;
        uart_restore_interrupts ;;;
        ret (true, None)
      else fun s => match resize new_array new_size b with Some (r, b) => Some ((r =? new_size, Some b), s) | None => None end
  | None =>
      if new_size =? 0 then ret (true, None) else
      if new_ok then
        fun s => match resize new_array new_size SerialBuffer_new with
                 | Some (r, b) => Some (if nz r then (true, Some b) else (false, None), s)
                 | None => None
                 end
      else ret (false, None)
  end.

Definition uart_resize_rx_buffer (uart : option positive) (new_size : Z) : M uarts Z :=
  match uart with
  | None => ret 0
  | Some p =>
      let! u := deref p in
      when (uart_rx_enabled u) (let! (_, b) := realloc_buffer (rx_buffer u) new_size in upd_object p (set_rx_buffer b)) ;;;
      let! u := deref p in
      ret (uart_rx_buffer_size u)
  end.
Definition uart_resize_tx_buffer (uart : option positive) (new_size : Z) : M uarts Z :=
  match uart with
  | None => ret 0
  | Some p =>
      let! u := deref p in
      when (uart_tx_enabled u) (let! (_, b) := realloc_buffer (tx_buffer u) new_size in upd_object p (set_tx_buffer b)) ;;;
      let! u := deref p in
      ret (uart_tx_buffer_size u)
  end.

Record uart_config := {
  cfg_nr : Z; cfg_tx_pin : Z; cfg_mode : uart_mode; cfg_options : Z; cfg_baudrate : Z; cfg_config : Z; cfg_rx_size : Z; cfg_tx_size : Z
}.

Definition new_uart (cfg : uart_config) : uart_t :=
  {| uart_nr := cfg_nr cfg; baud_rate := 0; mode := cfg_mode cfg; options := cfg_options cfg; rx_pin := 0; tx_pin := 0;
     rx_buffer := None; tx_buffer := None; callback := None; param := 0 |}.

(** The cases of [switch(cfg.uart_nr)]: the object with its buffers and pins,
    or [None] where the object is deleted. *)
Definition init_uart0 (cfg : uart_config) (u : uart_t) : M uarts (option uart_t) :=
  let u := set_pins (if uart_rx_enabled u then 3 else 255) (tx_pin u) u in
  let! (ok, b) := (if uart_rx_enabled u then realloc_buffer (rx_buffer u) (cfg_rx_size cfg) else ret (true, rx_buffer u)) in
  if negb ok then ret None else
  let u := set_rx_buffer b u in
  let! (ok, b) := (if uart_tx_enabled u then realloc_buffer (tx_buffer u) (cfg_tx_size cfg) else ret (true, tx_buffer u)) in
  if negb ok then ret None else
  let u := set_tx_buffer b u in
  uart_detach (cfg_nr cfg) ;;;
  when (uart_rx_enabled u) (pinMode (rx_pin u) SPECIAL) ;;;
  let! u := (if uart_tx_enabled u then
               if cfg_tx_pin cfg =? 2 then pinMode 2 FUNCTION_4 ;;; ret (set_pins (rx_pin u) 2 u)
               else pinMode 1 FUNCTION_0 ;;; ret (set_pins (rx_pin u) 1 u)
             else ret (set_pins (rx_pin u) 255 u)) in
  modify (fun s => set_ioswap (clear_bits (IOSWAP s) (Z.shiftl 1 IOSWAPU0)) s) ;;;
  ret (Some u).
Definition set_mode (m : uart_mode) (u : uart_t) : uart_t :=
  {| uart_nr := uart_nr u; baud_rate := baud_rate u; mode := m; options := options u; rx_pin := rx_pin u; tx_pin := tx_pin u;
     rx_buffer := rx_buffer u; tx_buffer := tx_buffer u; callback := callback u; param := param u |}.
Definition init_uart1 (cfg : uart_config) (u : uart_t) : M uarts (option uart_t) :=
  match mode u with
  | UART_RX_ONLY => ret None
  | _ =>
      let u := set_pins 255 2 (set_mode UART_TX_ONLY u) in
      let! (ok, b) := (if nz (cfg_tx_size cfg) then realloc_buffer (tx_buffer u) (cfg_tx_size cfg) else ret (true, tx_buffer u)) in
      if negb ok then ret None else
      uart_detach (cfg_nr cfg) ;;;
      pinMode 2 SPECIAL ;;;
      ret (Some (set_tx_buffer b u))
  end.

Definition uart_init_ex (cfg : uart_config) : M uarts (option positive) :=
  let! old := gets (uart_get_uart (cfg_nr cfg)) in
  match old with
  | Some _ => ret None
  | None =>
      if negb new_ok then ret None else
      let! u := (if cfg_nr cfg =? UART0 then init_uart0 cfg (new_uart cfg)
                 else if cfg_nr cfg =? UART1 then init_uart1 cfg (new_uart cfg) else ret None) in
      match u with
      | None => ret None
      | Some u =>
          let! p := gets (fun s => fresh (dom (heap s))) in
          modify (fun s => set_heap (<[p := u]> (heap s)) s) ;;;
          uart_set_baudrate (Some p) (cfg_baudrate cfg) ;;;
          modify (set_hw (cfg_nr cfg) (write_USC0 (cfg_config cfg))) ;;;
          uart_flush (Some p) ;;;
          modify (set_instance (cfg_nr cfg) (Some p)) ;;;
          uart_start_isr (Some p) ;;;
          ret (Some p)
      end
  end.
Definition uart_init (nr baudrate config : Z) (m : uart_mode) (txpin rx_size tx_size : Z) : M uarts (option positive) :=
  uart_init_ex {| cfg_nr := nr; cfg_tx_pin := txpin; cfg_mode := m; cfg_options := BV UART_OPT_TXWAIT; cfg_baudrate := baudrate;
                  cfg_config := config; cfg_rx_size := rx_size; cfg_tx_size := tx_size |}.
End Allocation.

Definition uart_set_debug (nr : Z) : M uarts unit :=
  let! p := gets (uart_get_uart nr) in
  match p with
  | None => modify (set_debug_nr UART_NO false)
  | Some _ => modify (set_debug_nr nr true)
  end.
Definition uart_get_debug (s : uarts) : Z := s_uart_debug_nr s.
Definition uart_debug_putc (c : Z) : M uarts unit :=
  let! p := gets (fun s => uart_get_uart (s_uart_debug_nr s) s) in
  match p with None => ret tt | Some p => on_port p (uart_write_char c) ;;; ret tt end.

(** The instance table keeps the address of the deleted object. *)
Definition uart_uninit (uart : option positive) : M uarts unit :=
  match uart with
  | None => ret tt
  | Some p =>
      uart_stop_isr (Some p) ;;;
      let! u := deref p in
      let! d := gets s_uart_debug_nr in
      when (uart_nr u =? d) (uart_set_debug UART_NO) ;;;
      when ((rx_pin u =? 3) || (rx_pin u =? 13)) (pinMode (rx_pin u) INPUT) ;;;
      when ((tx_pin u =? 1) || (tx_pin u =? 2) || (tx_pin u =? 15)) (pinMode (tx_pin u) INPUT) ;;;
      modify (fun s => set_heap (base.delete p (heap s)) s)
  end.

(** ** Pins *)

Definition set_rx_pin (x : Z) (u : uart_t) : uart_t := set_pins x (tx_pin u) u.
Definition set_tx_pin (x : Z) (u : uart_t) : uart_t := set_pins (rx_pin u) x u.

(** The pins become inputs, get their new numbers, and then their function. *)
Definition move_pins (p : positive) (u : uart_t) (rx tx rx_mode tx_mode : Z) : M uarts unit :=
  when (uart_tx_enabled u) (pinMode (tx_pin u) INPUT ;;; upd_object p (set_tx_pin tx)) ;;;
  when (uart_rx_enabled u) (pinMode (rx_pin u) INPUT ;;; upd_object p (set_rx_pin rx)) ;;;
  when (uart_tx_enabled u) (pinMode tx tx_mode) ;;;
  when (uart_rx_enabled u) (pinMode rx rx_mode).
Definition uart_swap (uart : option positive) (txp : Z) : M uarts unit :=
  match uart with
  | None => ret tt
  | Some p =>
      let! u := deref p in
      if uart_nr u =? UART0 then
        if (((tx_pin u =? 1) || (tx_pin u =? 2)) && uart_tx_enabled u) || ((rx_pin u =? 3) && uart_rx_enabled u) then
          move_pins p u 13 15 FUNCTION_4 FUNCTION_4 ;;;
          modify (fun s => set_ioswap (set_bits (IOSWAP s) (Z.shiftl 1 IOSWAPU0)) s)
        else
          move_pins p u 3 (if txp =? 2 then 2 else 1) SPECIAL (if txp =? 2 then FUNCTION_4 else SPECIAL) ;;;
          modify (fun s => set_ioswap (clear_bits (IOSWAP s) (Z.shiftl 1 IOSWAPU0)) s)
      else ret tt
  end.
Definition uart_set_tx (uart : option positive) (txp : Z) : M uarts unit :=
  match uart with
  | None => ret tt
  | Some p =>
      let! u := deref p in
      if (uart_nr u =? UART0) && uart_tx_enabled u then
        if (tx_pin u =? 1) && (txp =? 2) then
          pinMode (tx_pin u) INPUT ;;; upd_object p (set_tx_pin 2) ;;; pinMode 2 FUNCTION_4
        else if (tx_pin u =? 2) && negb (txp =? 2) then
          pinMode (tx_pin u) INPUT ;;; upd_object p (set_tx_pin 1) ;;; pinMode 1 SPECIAL
        else ret tt
      else ret tt
  end.
Definition uart_set_pins (uart : option positive) (tx rx : Z) : M uarts unit :=
  match uart with
  | None => ret tt
  | Some p =>
      let! u := deref p in
      if uart_nr u =? UART0 then
        (if uart_tx_enabled u && negb (tx_pin u =? tx) then
           if (rx =? 13) && (tx =? 15) then uart_swap uart 15
           else if (rx =? 3) && ((tx =? 1) || (tx =? 2)) then
             if negb (rx_pin u =? rx) then uart_swap uart tx else uart_set_tx uart tx
           else ret tt
         else ret tt) ;;;
        let! u := deref p in
        when (uart_rx_enabled u && negb (rx_pin u =? rx) && (rx =? 13) && (tx =? 15)) (uart_swap uart 15)
      else ret tt
  end.

(** ** Counts *)

Lemma RXCOUNT_spec h : zlen (hw_rx h) <= 127 -> UART_RXCOUNT h = zlen (hw_rx h).
Proof.
  intros Hr. pose proof (zlen_nonneg (hw_rx h)). unfold UART_RXCOUNT, USS. change USRXC with 0. change USTXC with 16. rewrite Z.shiftr_0_r, shiftl_mul by lia.
  rewrite (lor_add _ _ 16) by lia. rewrite (land_mask_low _ 7) by lia. change (2 ^ 16) with (2 ^ 9 * 2 ^ 7). rewrite Z.mul_assoc, Z.add_comm, Z.mod_add by lia.
  apply Z.mod_small. lia.
Qed.

Lemma TXCOUNT_spec h : zlen (hw_rx h) < 2 ^ 16 -> UART_TXCOUNT h = zlen (hw_tx h).
Proof.
  intros Hr. pose proof (zlen_nonneg (hw_rx h)). unfold UART_TXCOUNT, USS. change USTXC with 16. rewrite shiftl_mul by lia.
  rewrite (lor_add _ _ 16) by lia. rewrite shiftr_div by lia. rewrite Z.add_comm, Z.div_add by lia. rewrite Z.div_small; lia.
Qed.

(** ** The bytes of a port *)

(** A buffer that exists is sound; its bytes. *)
Definition buf_ok (b : option SerialBuffer) : Prop := match b with None => True | Some s => sb_ok s (default [] (sb_buffer s)) end.
Definition queue_of (b : option SerialBuffer) : list Z := match b with None => [] | Some s => queued s (default [] (sb_buffer s)) end.

Lemma buf_ok_intro s b : sb_ok s b -> buf_ok (Some s) /\ queue_of (Some s) = queued s b.
Proof. intros H. unfold buf_ok, queue_of. rewrite (so_buffer _ _ H). done. Qed.

Lemma buf_empty b : buf_ok b -> match b with None => true | Some s => sb_isEmpty s end = bool_decide (queue_of b = []).
Proof.
  destruct b as [s|]; [|done]. cbn. intros H. rewrite (isEmpty_spec _ _ H), <- (zlen_queued _ _ H). unfold zlen.
  destruct (queued s (default [] (sb_buffer s))); done.
Qed.

Lemma on_rx_read p : buf_ok (rx_buffer (pu p)) -> forall c q, queue_of (rx_buffer (pu p)) = c :: q ->
  exists b, on_rx readChar p = Some (c, {| pu := set_rx_buffer (Some b) (pu p); ph := ph p; calls := calls p |}) /\ buf_ok (Some b) /\ queue_of (Some b) = q.
Proof.
  intros H c q E. unfold on_rx. destruct (rx_buffer (pu p)) as [s|]; [|done]. cbn in H, E. pose proof (readChar_spec _ _ H) as Hr. rewrite E in Hr.
  destruct Hr as (s' & -> & H' & Eq & _). exists s'. split; [done|]. rewrite <- Eq. by apply buf_ok_intro.
Qed.

Lemma on_tx_read p : buf_ok (tx_buffer (pu p)) -> forall c q, queue_of (tx_buffer (pu p)) = c :: q ->
  exists b, on_tx readChar p = Some (c, {| pu := set_tx_buffer (Some b) (pu p); ph := ph p; calls := calls p |}) /\ buf_ok (Some b) /\ queue_of (Some b) = q /\
    option_map sb_writePos (tx_buffer (pu p)) = Some (sb_writePos b) /\ option_map sb_size (tx_buffer (pu p)) = Some (sb_size b) /\
    option_map sb_buffer (tx_buffer (pu p)) = Some (sb_buffer b).
Proof.
  intros H c q E. unfold on_tx. destruct (tx_buffer (pu p)) as [s|]; [|done]. cbn in H, E. pose proof (readChar_spec _ _ H) as Hr. rewrite E in Hr.
  destruct Hr as (s' & -> & H' & Eq & Es & Ew). exists s'. split; [done|]. pose proof (buf_ok_intro _ _ H') as [? Eq']. split; [done|]. split; [congruence|].
  cbn. rewrite Es, Ew, (so_buffer _ _ H'), (so_buffer _ _ H). done.
Qed.

(** ** Reading without interference *)

Record rx_ready (p : port) : Prop := {
  rr_buffer : buf_ok (rx_buffer (pu p));
  rr_bytes : Forall is_byte (queue_of (rx_buffer (pu p)) ++ hw_rx (ph p));
  rr_fifo : zlen (hw_rx (ph p)) <= 127
}.
Definition rx_data (p : port) : list Z := queue_of (rx_buffer (pu p)) ++ hw_rx (ph p).

(** What a read changes. *)
Definition only_rx (p p' : port) : Prop :=
  tx_buffer (pu p') = tx_buffer (pu p) /\ hw_tx (ph p') = hw_tx (ph p) /\ calls p' = calls p /\ mode (pu p') = mode (pu p).

Lemma rrun_fifo size : forall n fuel got p, rx_ready p -> queue_of (rx_buffer (pu p)) = [] \/ size <= zlen got -> Z.of_nat n = Z.max 0 (size - zlen got) ->
  (2 * n + 2 < fuel)%nat ->
  exists p', rrun fuel size (R_count got) p = Some (got ++ take n (rx_data p), p') /\ rx_ready p' /\ rx_data p' = drop n (rx_data p) /\ only_rx p p' /\
    USIE (ph p') = Z.lor (USIE (ph p)) (Z.lor (BV UIFF) (BV UITO)).
Proof.
  induction n as [|n IH]; intros fuel got p Hp Hq Hn Hf.
  - destruct fuel as [|[|[|fuel]]]; try lia. cbn [rrun]. unfold rstep at 1, bind at 1 2, gets, ret. cbn [fst snd]. rewrite (proj2 (Z.ltb_ge _ _)) by lia. cbn.
    rewrite app_nil_r. eexists. split; [done|]. destruct Hp as [H1 H2 H3]. done.
  - destruct Hq as [Hq|Hq]; [|lia]. destruct Hp as [H1 H2 H3]. destruct fuel as [|[|fuel]]; try lia. cbn [rrun]. unfold rstep at 1, bind at 1 2, gets, ret.
    rewrite (proj2 (Z.ltb_lt _ _)) by lia. rewrite (RXCOUNT_spec (ph p)) by done. cbn [andb]. unfold rx_data. rewrite Hq. cbn [app].
    destruct (hw_rx (ph p)) as [|c l] eqn:El.
    + cbn. destruct fuel as [|fuel]; [lia|]. cbn. rewrite app_nil_r. eexists. split; [done|]. split; [constructor; cbn; rewrite ?Hq, ?El; done|].
      cbn. rewrite Hq, El. done.
    + rewrite zlen_cons in *. pose proof (zlen_nonneg l). rewrite (proj2 (Z.eqb_neq _ _)) by lia. cbn [negb]. cbn [rrun]. unfold rstep at 1, bind at 1 2, get_USF, read_USF, ret. rewrite El.
      rewrite Hq in H2. cbn [app] in H2. apply Forall_cons_1 in H2 as [Hc Hl]. rewrite (u8_small c) by done.
      destruct (IH fuel (got ++ [c]) {| pu := pu p; ph := set_rx_fifo l (ph p); calls := calls p |}) as (p' & E & Hp' & Ed & Ho & Ei).
      * constructor; cbn; rewrite ?Hq; done || lia.
      * by left.
      * rewrite zlen_app. change (zlen [c]) with 1. lia.
      * lia.
      * exists p'. rewrite E. unfold rx_data in *. cbn in *. rewrite Hq in *. cbn in *. rewrite <- app_assoc. done.
Qed.

Lemma rrun_buffer size : forall n fuel got p, rx_ready p -> Z.of_nat n = size - zlen got -> (2 * n + 3 < fuel)%nat ->
  exists p', rrun fuel size (R_buffer got) p = Some (got ++ take n (rx_data p), p') /\ rx_ready p' /\ rx_data p' = drop n (rx_data p) /\ only_rx p p' /\
    USIE (ph p') = Z.lor (USIE (ph p)) (Z.lor (BV UIFF) (BV UITO)).
Proof.
  induction n as [|n IH]; intros fuel got p Hp Hn Hf.
  - destruct fuel as [|fuel]; [lia|]. cbn [rrun]. unfold rstep at 1, bind at 1 2, gets, ret. rewrite (proj2 (Z.ltb_ge _ _)) by lia. cbn [andb].
    destruct (rx_buffer (pu p)); (apply (rrun_fifo size 0); [done|right; lia|lia|lia]).
  - destruct fuel as [|fuel]; [lia|]. cbn [rrun]. unfold rstep at 1, bind at 1 2, gets, ret. pose proof (rr_buffer p Hp) as Hb. pose proof (buf_empty _ Hb) as He.
    destruct (queue_of (rx_buffer (pu p))) as [|c q] eqn:Eq.
    + destruct (rx_buffer (pu p)) as [s|] eqn:Es; [cbn in He; rewrite He, andb_false_r; cbn [negb]|]; (apply (rrun_fifo size (S n)); [done|left; by rewrite Es|lia|lia]).
    + destruct (rx_buffer (pu p)) as [s|] eqn:Es; [|done]. cbn in He. rewrite He. rewrite (proj2 (Z.ltb_lt _ _)) by lia. cbn [andb negb]. destruct fuel as [|fuel]; [lia|]. cbn [rrun].
      unfold rstep at 1, bind at 1 2, ret. rewrite <- Es in Eq, Hb. destruct (on_rx_read p Hb c q Eq) as (b & -> & Hb' & Eq').
      destruct Hp as [H1 H2 H3]. rewrite Eq in H2. cbn [app] in H2. apply Forall_cons_1 in H2 as [Hc Hl]. rewrite (u8_small c) by done.
      destruct (IH fuel (got ++ [c]) {| pu := set_rx_buffer (Some b) (pu p); ph := ph p; calls := calls p |}) as (p' & E & Hp' & Ed & Ho & Ei).
      * constructor; cbn [pu ph rx_buffer set_rx_buffer]; [done|by rewrite Eq'|done].
      * rewrite zlen_app. change (zlen [c]) with 1. lia.
      * lia.
      * exists p'. rewrite E. unfold rx_data in *. cbn [pu ph rx_buffer set_rx_buffer] in *. rewrite Eq' in *. rewrite Eq. cbn. rewrite <- app_assoc. done.
Qed.

(** Reading: when no interrupt comes between its accesses, [uart_read]
    returns the bytes received, in order, from the buffer and then from the
    FIFO, up to the number asked for; the rest stays, nothing else changes,
    and the receive interrupts are enabled again. *)
Theorem uart_read_correct size p :
  1 <= size -> uart_rx_enabled (pu p) = true -> rx_ready p ->
  exists p', uart_read size p = Some (take (Z.to_nat size) (rx_data p), p') /\ rx_data p' = drop (Z.to_nat size) (rx_data p) /\ rx_ready p' /\
    only_rx p p' /\ USIE (ph p') = Z.lor (USIE (ph p)) (Z.lor (BV UIFF) (BV UITO)).
Proof.
  intros Hs Hr Hp. unfold uart_read, bind at 1, gets. rewrite Hr, (proj2 (Z.eqb_neq _ _)) by lia. cbn [negb orb].
  destruct (rrun_buffer size (Z.to_nat size) (Z.to_nat (2 * size + 4)) [] p) as (p' & E & ? & ? & ? & ?); [done|change (zlen []) with 0; lia|lia|]. exists p'. done.
Qed.

Definition demo_ready : port :=
  {| pu := {| uart_nr := 0; baud_rate := 0; mode := UART_FULL; options := 0; rx_pin := 3; tx_pin := 1;
              rx_buffer := Some {| sb_size := 4; sb_readPos := 3; sb_writePos := 1; sb_buffer := Some [2; 0; 0; 1] |};
              tx_buffer := None; callback := None; param := 0 |};
     ph := {| hw_tx := []; hw_rx := [3; 4]; stale := 0; USIE := 0; raw := 0; USC0 := 0; USC1 := 0; USD := 0 |}; calls := [] |}.

Lemma uart_read_correct_witness : exists p, uart_read 3 demo_ready = Some ([1; 2; 3], p) /\ rx_data p = [4].
Proof.
  destruct (uart_read_correct 3 demo_ready) as (p & E & Ed & _); [lia|done| |by exists p].
  constructor; [by constructor| |vm_compute; discriminate]. change (Forall is_byte [1; 2; 3; 4]). repeat constructor; unfold is_byte; lia.
Defined.

(** ** A deleted UART stays registered *)

Definition no_uarts : uarts :=
  {| heap := ∅; uartInstances := fun _ => None; hws := fun _ => ph demo_ready; isrMask := 0; intr := false; s_uart_debug_nr := UART0;
     os_print := false; pins := ∅; IOSWAP := 0; cb_calls := [] |}.
Definition init0 : M uarts (option positive) := uart_init true (fun n => Some (replicate (Z.to_nat n) 0)) UART0 115200 0x1C UART_FULL 1 256 0.

Definition result {A} (m : M uarts A) : option A := match m no_uarts with Some (a, _) => Some a | None => None end.

(** After [uart_uninit] the UART cannot be initialised again, and debug output
    goes through the deleted object. *)
Example uart_uninit_keeps_instance :
  result (let! p := init0 in ret (match p with Some _ => true | None => false end)) = Some true /\
  result (let! p := init0 in uart_uninit p ;;; init0) = Some None /\
  result (let! p := init0 in uart_uninit p ;;; uart_set_debug UART0 ;;; uart_debug_putc 65) = None.
Proof. repeat split; vm_compute; reflexivity. Qed.
