(* ===== verification/UartTask.v ===== *)
(** * Transmission under interrupts

    The task that calls [uart_write] of [Uart], the interrupt service routine,
    and the UART itself, which shifts bytes out of its FIFO, receives bytes
    and raises interrupts, run interleaved: one access of the task to shared
    state, or one run of the interrupt service routine, per step.  The order
    of the bytes on the wire, progress, and a state in which the task waits
    for ever. *)

From S2P Require Import Prelude SerialBuffer Uart.

#[local] Arguments Z.testbit : simpl never.
#[local] Arguments Z.ldiff : simpl never.

(** ** The system *)

(** The port, the program point of the current [uart_write] and its argument,
    the arguments of the calls to come, the bytes accepted by the calls before,
    and the bytes that were sent. *)
Record conc := { cp : port; cpc : wpc; cbuf : list Z; crest : list (list Z); cacc : list Z; cwire : list Z }.

Definition with_port (p : port) (s : conc) : conc :=
  {| cp := p; cpc := cpc s; cbuf := cbuf s; crest := crest s; cacc := cacc s; cwire := cwire s |}.
Definition with_hw (h : hwregs) (p : port) : port := {| pu := pu p; ph := h; calls := calls p |}.

Inductive label := Task | Isr | Shift | Receive (c : Z) | Raise (r : Z).

(** [None]: the step is not possible, or faults.  A call starts with the guard
    of [uart_write].  A run of the interrupt service routine is one step: on
    the one core the task does not run meanwhile, and what the UART shifts out
    or receives during a run counts as before or after it. *)
Definition exec (l : label) (s : conc) : option conc :=
  match l with
  | Task =>
      match cpc s with
      | W_done n =>
          match crest s with
          | [] => None
          | buf :: rest =>
              Some {| cp := cp s; cpc := if negb (uart_tx_enabled (pu (cp s))) || (zlen buf =? 0) then W_done 0 else W_top 0; cbuf := buf; crest := rest;
                      cacc := cacc s ++ take (Z.to_nat n) (cbuf s); cwire := cwire s |}
          end
      | pc =>
          match wstep (cbuf s) pc (cp s) with
          | Some (pc, p) => Some {| cp := p; cpc := pc; cbuf := cbuf s; crest := crest s; cacc := cacc s; cwire := cwire s |}
          | None => None
          end
      end
  | Isr => match port_interrupt (cp s) with Some (_, p) => Some (with_port p s) | None => None end
  | Shift =>
      match hw_tx (ph (cp s)) with
      | [] => None
      | c :: t =>
          Some {| cp := with_hw (set_tx_fifo t (ph (cp s))) (cp s); cpc := cpc s; cbuf := cbuf s; crest := crest s; cacc := cacc s;
                  cwire := cwire s ++ [c] |}
      end
  | Receive c =>
      if zlen (hw_rx (ph (cp s))) <? 128 then Some (with_port (with_hw (set_rx_fifo (hw_rx (ph (cp s)) ++ [c]) (ph (cp s))) (cp s)) s) else None
  | Raise r => Some (with_port (with_hw (set_raw r (ph (cp s))) (cp s)) s)
  end.

Inductive reachable (s0 : conc) : conc -> Prop :=
  | reach_init : reachable s0 s0
  | reach_step l s s' : reachable s0 s -> exec l s = Some s' -> reachable s0 s'.

(** A list of steps. *)
Fixpoint execs (ls : list label) (s : conc) : option conc :=
  match ls with
  | [] => Some s
  | l :: ls => match exec l s with Some s => execs ls s | None => None end
  end.

Lemma execs_reachable ls : forall s0 s s', reachable s0 s -> execs ls s = Some s' -> reachable s0 s'.
Proof.
  induction ls as [|l ls IH]; intros s0 s s' Hr E; cbn in E; [by injection E as <-|].
  destruct (exec l s) as [s1|] eqn:E1; [|done]. eapply IH; [|done]. by eapply reach_step.
Qed.

(** The bytes of the current call that reached the FIFO or the buffer. *)
Definition pushed (pc : wpc) : Z :=
  match pc with
  | W_top n | W_full n | W_put n | W_room n | W_store n _ | W_commit n _ | W_test n | W_load n | W_enable n _ | W_done n => n
  end.
Definition accepted (s : conc) : list Z := cacc s ++ take (Z.to_nat (pushed (cpc s))) (cbuf s).
Definition tx_queue (p : port) : list Z := queue_of (tx_buffer (pu p)).
(** The bytes on their way. *)
Definition in_flight (s : conc) : list Z := hw_tx (ph (cp s)) ++ tx_queue (cp s).

(** ** What the interrupt service routine does to the transmit side *)

Definition ife_on (p : port) : bool := Z.testbit (USIE (ph p)) UIFE.

(** The parts of the transmit buffer that only the task changes. *)
Definition tx_shape (p : port) : option (Z * Z * option (list Z)) := option_map (fun b => (sb_size b, sb_writePos b, sb_buffer b)) (tx_buffer (pu p)).

(** [k] bytes move from the buffer to the FIFO. *)
Record moved (k : nat) (p p' : port) : Prop := {
  mv_buf : buf_ok (tx_buffer (pu p'));
  mv_fifo : hw_tx (ph p') = hw_tx (ph p) ++ take k (tx_queue p);
  mv_queue : tx_queue p' = drop k (tx_queue p);
  mv_shape : tx_shape p' = tx_shape p;
  mv_options : options (pu p') = options (pu p)
}.

Lemma moved_refl p : buf_ok (tx_buffer (pu p)) -> moved 0 p p.
Proof. intros H. constructor; try done. by rewrite take_0, app_nil_r. Qed.

Lemma moved_trans j k p1 p2 p3 : moved j p1 p2 -> moved k p2 p3 -> moved (j + k) p1 p3.
Proof.
  intros [A1 A2 A3 A4 A5] [B1 B2 B3 B4 B5]. constructor; try congruence.
  - rewrite B2, A2, A3, <- app_assoc. f_equal. rewrite take_take_drop. done.
  - by rewrite B3, A3, drop_drop.
Qed.

(** Everything else stays. *)
Definition same_rest (p p' : port) : Prop :=
  rx_buffer (pu p') = rx_buffer (pu p) /\ hw_rx (ph p') = hw_rx (ph p) /\ USIE (ph p') = USIE (ph p) /\ mode (pu p') = mode (pu p).

Lemma drain_tx_spec n : forall p, buf_ok (tx_buffer (pu p)) -> length (tx_queue p) = n -> zlen (hw_tx (ph p)) <= 127 -> zlen (hw_rx (ph p)) < 2 ^ 16 ->
  exists p', drain_tx n p = Some (tt, p') /\ moved (n `min` (127 - length (hw_tx (ph p)))) p p' /\ same_rest p p'.
Proof.
  induction n as [|n IH]; intros p Hb Hn Ht Hr; cbn [drain_tx]; [exists p; split; [done|]; split; [by apply moved_refl|done]|].
  unfold bind at 1, gets, UART_TXFULL. rewrite TXCOUNT_spec by done. unfold zlen in Ht. destruct (Z.leb_spec 127 (zlen (hw_tx (ph p)))) as [Hf|Hf]; unfold zlen in Hf.
  - exists p. split; [done|]. split; [|done]. replace (S n `min` _)%nat with 0%nat by lia. by apply moved_refl.
  - destruct (tx_queue p) as [|c q] eqn:Eq; [done|]. destruct (on_tx_read p Hb c q Eq) as (b & E & Hb' & Eq' & Ew & Es & Ed). unfold bind at 1. rewrite E.
    unfold bind at 1, upd_hw, modify. cbn [pu ph calls]. unfold write_USF. change UART_TX_FIFO_SIZE with 128. rewrite (proj2 (Z.ltb_lt _ _)) by (unfold zlen; lia).
    set (p1 := {| pu := set_tx_buffer (Some b) (pu p) |}). assert (tx_queue p1 = q) as Eq1 by done. injection Hn as Hn.
    destruct (IH p1) as (p' & E' & Hm & Hs); [done|by rewrite Eq1|cbn; unfold zlen in *; rewrite length_app; cbn; lia|done|].
    exists p'. split; [done|]. split; [|done]. assert (moved 1 p p1) as H1.
    { constructor; [done|cbn; by rewrite Eq|by rewrite Eq1, Eq| |done]. unfold tx_shape. cbn. destruct (tx_buffer (pu p)) as [b0|]; [|done]. cbn in Ew, Es, Ed |- *. congruence. }
    assert (length (hw_tx (ph p1)) = length (hw_tx (ph p)) + 1)%nat as El by (subst p1; cbn [ph hw_tx set_tx_fifo]; by rewrite length_app).
    replace (S n `min` _)%nat with (1 + n `min` (127 - length (hw_tx (ph p1))))%nat by lia. by eapply moved_trans.
Qed.

(** Receiving touches neither the transmit side nor its interrupt. *)
Record rx_only (p p' : port) : Prop := {
  ro_uart : tx_buffer (pu p') = tx_buffer (pu p) /\ options (pu p') = options (pu p) /\ mode (pu p') = mode (pu p);
  ro_fifo : hw_tx (ph p') = hw_tx (ph p);
  ro_rx : buf_ok (rx_buffer (pu p'));
  ro_len : zlen (hw_rx (ph p')) <= zlen (hw_rx (ph p));
  ro_ife : ife_on p' = ife_on p
}.

Lemma rx_only_trans p1 p2 p3 : rx_only p1 p2 -> rx_only p2 p3 -> rx_only p1 p3.
Proof. intros [(A1 & A2 & A2') A3 A4 A5 A6] [(B1 & B2 & B2') B3 B4 B5 B6]. constructor; [repeat split; congruence|congruence|done|lia|congruence]. Qed.

Lemma fill_rx_spec n : forall p, buf_ok (rx_buffer (pu p)) -> is_Some (rx_buffer (pu p)) -> exists r p', fill_rx n p = Some (r, p') /\ rx_only p p'.
Proof.
  induction n as [|n IH]; intros p Hb Hs; cbn [fill_rx]; [exists 0, p; done|]. unfold bind at 1, gets.
  destruct (UART_RXCOUNT (ph p) =? 0); [exists 0, p; done|]. unfold bind at 1, get_USF. destruct (read_USF (ph p)) as [c h] eqn:Er.
  assert (hw_tx h = hw_tx (ph p) /\ USIE h = USIE (ph p) /\ zlen (hw_rx h) <= zlen (hw_rx (ph p))) as (E1 & E2 & E3).
  { unfold read_USF in Er. destruct (hw_rx (ph p)) eqn:El; injection Er as <- <-; cbn; rewrite ?El, ?zlen_cons; repeat split; lia. }
  unfold bind at 1, on_rx. cbn [pu ph calls]. destruct (rx_buffer (pu p)) as [b|] eqn:Eb; [|by destruct Hs].
  destruct (writeChar_spec b _ (u8 c) Hb) as (l & b' & -> & Hb' & _). pose proof (buf_ok_intro _ _ Hb') as [Hb'' _].
  set (p1 := {| pu := set_rx_buffer (Some b') (pu p) |}). destruct (IH p1) as (r & p' & E & Ho); [done|by eexists|]. unfold bind. rewrite E.
  exists (r + 1), p'. split; [done|]. eapply rx_only_trans; [|done]. constructor; cbn; try done. unfold ife_on. cbn. by rewrite E2.
Qed.

Lemma isr_rx_spec p : buf_ok (rx_buffer (pu p)) -> exists p', isr_rx p = Some (tt, p') /\ rx_only p p'.
Proof.
  intros Hb. unfold isr_rx, bind at 1, gets. assert (exists r p1, match rx_buffer (pu p) with None => ret 0 | Some b => fill_rx (Z.to_nat (getFreeSpace b)) end p = Some (r, p1) /\ rx_only p p1) as (r & p1 & E & Ho).
  { destruct (rx_buffer (pu p)) as [b|] eqn:Eb; [|by exists 0, p; split; [|constructor; rewrite ?Eb]]. apply fill_rx_spec; [by rewrite Eb|by rewrite Eb; eexists]. }
  unfold bind at 1. rewrite E. unfold bind at 1, upd_hw, modify. destruct Ho as [O1 O2 O3 O4 O5]. destruct (r =? 0); cbn -[Z.testbit Z.ldiff]; (eexists; split; [done|]); constructor; cbn; try done.
  unfold ife_on in *. cbn. unfold clear_bits. rewrite Z.ldiff_spec, O5. change (Z.testbit (Z.lor (BV UIFF) (BV UITO)) UIFE) with false. apply andb_true_r.
Qed.

Lemma nz_bit x n : 0 <= n -> nz (Z.land x (BV n)) = Z.testbit x n.
Proof.
  intros Hn. unfold BV. rewrite shiftl_mul, Z.mul_1_l by done. destruct (Z.testbit x n) eqn:E.
  - apply nz_true. intros E0. assert (Z.testbit (Z.land x (2 ^ n)) n = true) as Ht by by rewrite Z.land_spec, E, Z.pow2_bits_true. by rewrite E0, Z.bits_0 in Ht.
  - apply nz_false. apply Z.bits_inj'. intros i Hi. rewrite Z.land_spec, Z.bits_0, Z.pow2_bits_eqb by done. destruct (Z.eqb_spec n i) as [->|]; [by rewrite E|apply andb_false_r].
Qed.

(** The effect of the interrupt service routine; [k] bytes move. *)
Record serviced (k : nat) (p p' : port) : Prop := {
  sv_moved : moved k p p';
  sv_rx : buf_ok (rx_buffer (pu p'));
  sv_rxlen : zlen (hw_rx (ph p')) <= zlen (hw_rx (ph p));
  sv_mode : mode (pu p') = mode (pu p);
  sv_keeps : tx_queue p' <> [] -> ife_on p' = ife_on p;
  sv_clears : ife_on p' = true -> ife_on p = true
}.

(** As many bytes as the buffer has and the FIFO takes. *)
Definition top_up (p : port) : nat := length (tx_queue p) `min` (127 - length (hw_tx (ph p))).

Lemma serviced_off p q : moved (top_up p) p q -> tx_queue q = [] -> buf_ok (rx_buffer (pu q)) -> zlen (hw_rx (ph q)) <= zlen (hw_rx (ph p)) ->
  mode (pu q) = mode (pu p) -> USIE (ph q) = USIE (ph p) ->
  serviced (top_up p) p (with_hw (set_USIE (clear_bits (USIE (ph q)) (BV UIFE)) (ph q)) q).
Proof.
  intros [M1 M2 M3 M4 M5] He Hb Hl Hm Hu. constructor; cbn; try done. unfold ife_on. cbn. rewrite Hu. unfold clear_bits. rewrite Z.ldiff_spec, andb_true_iff. tauto.
Qed.

Lemma isr_tx_spec usis p : buf_ok (tx_buffer (pu p)) -> buf_ok (rx_buffer (pu p)) -> zlen (hw_tx (ph p)) <= 127 -> zlen (hw_rx (ph p)) < 2 ^ 16 ->
  exists r p', isr_tx usis p = Some (r, p') /\ serviced (top_up p) p p'.
Proof.
  intros Hb Hrb Ht Hr. unfold isr_tx, bind at 1, gets. pose proof (buf_empty _ Hb) as He.
  destruct (decide (tx_queue p = [])) as [Eq|Eq].
  - assert (top_up p = 0%nat) as E0 by (unfold top_up; by rewrite Eq). pose proof (serviced_off p p) as Hoff. rewrite E0 in *. specialize (Hoff (moved_refl p Hb) Eq Hrb ltac:(lia) eq_refl eq_refl).
    rewrite bool_decide_true in He by done. destruct (tx_buffer (pu p)) as [b|]; [rewrite He|]; (eexists _, _; split; [done|]; exact Hoff).
  - rewrite bool_decide_false in He by done. assert (is_Some (tx_buffer (pu p))) as [b Eb] by (unfold tx_queue in Eq; destruct (tx_buffer (pu p)); [by eexists|done]). rewrite Eb in *. rewrite He.
    assert (Z.to_nat (available b) = length (tx_queue p)) as En.
    { cbn in Hb. rewrite (available_spec _ _ Hb), <- (zlen_queued _ _ Hb). unfold tx_queue. rewrite Eb. unfold zlen. cbn. lia. }
    rewrite En. unfold bind at 1. destruct (drain_tx_spec (length (tx_queue p)) p) as (q & -> & Hm & (S1 & S2 & S3 & S4)); [by rewrite Eb|done|done|done|].
    change (length (tx_queue p) `min` (127 - length (hw_tx (ph p))))%nat with (top_up p) in Hm. unfold bind at 1. rewrite TXCOUNT_spec by (rewrite S2; done).
    destruct (nz (zlen (hw_tx (ph q)))) eqn:Ez.
    + eexists _, q. split; [done|]. constructor; rewrite ?S1, ?S2; try done; unfold ife_on; rewrite S3; done.
    + apply nz_false in Ez. exfalso. pose proof (mv_fifo _ _ _ Hm) as Ef. unfold zlen in *. rewrite Ef, length_app, length_take in Ez. unfold top_up in Ez.
      destruct (tx_queue p); [done|]. cbn [length] in *. lia.
Qed.

Lemma rx_only_serviced p p' : buf_ok (tx_buffer (pu p)) -> rx_only p p' -> serviced 0 p p' /\ top_up p' = top_up p.
Proof.
  intros Hb [(R1 & R2 & R2') R3 R4 R5 R6]. assert (tx_queue p' = tx_queue p) as E by (unfold tx_queue; by rewrite R1).
  split; [|unfold top_up; by rewrite E, R3]. constructor; try done; [|by rewrite R6]. constructor; [by rewrite R1|by rewrite take_0, app_nil_r|done|unfold tx_shape; by rewrite R1|done].
Qed.

Lemma serviced_trans j k p1 p2 p3 : serviced j p1 p2 -> serviced k p2 p3 -> serviced (j + k) p1 p3.
Proof.
  intros [A1 A2 A3 A4 A5 A6] [B1 B2 B3 B4 B5 B6]. constructor; [by eapply moved_trans|done|lia|congruence| |auto].
  intros H. rewrite B5 by done. apply A5. intros E. apply H. by rewrite (mv_queue _ _ _ B1), E, drop_nil.
Qed.

Lemma port_interrupt_spec p : buf_ok (tx_buffer (pu p)) -> buf_ok (rx_buffer (pu p)) -> zlen (hw_tx (ph p)) <= 127 -> zlen (hw_rx (ph p)) <= 128 ->
  exists p', port_interrupt p = Some (tt, p') /\ serviced (if ife_on p && Z.testbit (raw (ph p)) UIFE then top_up p else 0) p p'.
Proof.
  intros Hb Hrb Ht Hr. unfold port_interrupt, bind at 1, gets. assert (serviced 0 p p) as Hrefl by (constructor; try done; by apply moved_refl).
  assert (Z.testbit (USIS (ph p)) UIFE = ife_on p && Z.testbit (raw (ph p)) UIFE) as Eu by (unfold USIS, ife_on; rewrite Z.land_spec; apply andb_comm).
  destruct (Z.eqb_spec (USIS (ph p)) 0) as [E0|E0]; [exists p; split; [done|]; by rewrite <- Eu, E0, Z.bits_0|].
  unfold bind at 1, upd_hw, modify. remember (USIS (ph p)) as usis eqn:Ei. clear Ei E0. set (p0 := {| pu := pu p |}).
  assert (serviced 0 p p0 /\ top_up p0 = top_up p) as [H0 Et] by (split; [constructor; try done; constructor; try done; cbn; by rewrite app_nil_r|done]).
  assert (exists p1, when (nz (Z.land usis (Z.lor (BV UIFF) (BV UITO)))) isr_rx p0 = Some (tt, p1) /\ serviced 0 p p1 /\ top_up p1 = top_up p) as (p1 & E1 & H1 & Et1).
  { unfold when. destruct (nz _); [|exists p0; done]. destruct (isr_rx_spec p0 Hrb) as (p1 & E & Ho). exists p1. split; [done|].
    destruct (rx_only_serviced p0 p1 Hb Ho) as [H1 Et1]. split; [exact (serviced_trans 0 0 _ _ _ H0 H1)|congruence]. }
  unfold service, bind at 1. rewrite E1. rewrite nz_bit, Eu by done.
  assert (exists r p2, (if ife_on p && Z.testbit (raw (ph p)) UIFE then isr_tx usis else ret usis) p1 = Some (r, p2) /\
            serviced (if ife_on p && Z.testbit (raw (ph p)) UIFE then top_up p else 0) p p2) as (r & p2 & E2 & H2).
  { destruct (_ && _); [|by exists usis, p1]. pose proof (mv_fifo _ _ _ (sv_moved _ _ _ H1)) as Ef. rewrite take_0, app_nil_r in Ef. pose proof (sv_rxlen _ _ _ H1) as El.
    destruct (isr_tx_spec usis p1) as (r & p2 & E & H2); [apply H1|apply H1|by rewrite Ef|lia|]. exists r, p2. split; [done|]. rewrite Et1 in H2. exact (serviced_trans 0 _ _ _ _ H1 H2). }
  unfold bind. rewrite E2. unfold run_callback, modify. eexists. split; [done|]. destruct H2 as [S1 S2 S3 S4 S5 S6]. constructor; try done. destruct S1. constructor; done.
Qed.

(** ** The invariant *)

(** The calls wait until all their bytes are accepted. *)
Definition waits (p : port) : bool := has_option (pu p) UART_OPT_TXWAIT && uart_tx_enabled (pu p).

Lemma waits_option p : waits p = true -> has_option (pu p) UART_OPT_TXWAIT = true.
Proof. unfold waits. by intros [H _]%andb_true_iff. Qed.

(** What the task knows at each program point. *)
Definition pc_ok (p : port) (buf : list Z) (pc : wpc) : Prop :=
  match pc with
  | W_full n => tx_queue p = []
  | W_put n => tx_queue p = [] /\ n < zlen buf /\ zlen (hw_tx (ph p)) < 127
  | W_store n next => n < zlen buf /\ exists b, tx_buffer (pu p) = Some b /\ next = getNextPos b (sb_writePos b) /\ zlen (tx_queue p) < sb_size b - 1
  | W_commit n next =>
      n < zlen buf /\ exists b, tx_buffer (pu p) = Some b /\ next = getNextPos b (sb_writePos b) /\ zlen (tx_queue p) < sb_size b - 1 /\
        byte_at b (sb_writePos b) = Some (getb buf n)
  | W_load n | W_done n => waits p = true -> n = zlen buf
  | W_enable n _ => n <> 0 /\ (waits p = true -> n = zlen buf)
  | W_top _ | W_room _ | W_test _ => True
  end.

(** Queued bytes have the interrupt enabled, or a call that will enable it. *)
Definition armed (p : port) (pc : wpc) : Prop :=
  tx_queue p <> [] -> ife_on p = true \/ (pushed pc <> 0 /\ forall n, pc <> W_done n).

Record tx_inv (reqs : list (list Z)) (s : conc) : Prop := {
  ti_tx : buf_ok (tx_buffer (pu (cp s)));
  ti_rx : buf_ok (rx_buffer (pu (cp s)));
  ti_txlen : zlen (hw_tx (ph (cp s))) <= 127;
  ti_rxlen : zlen (hw_rx (ph (cp s))) <= 128;
  ti_order : cwire s ++ in_flight s = accepted s;
  ti_range : 0 <= pushed (cpc s) <= zlen (cbuf s);
  ti_pc : pc_ok (cp s) (cbuf s) (cpc s);
  ti_armed : armed (cp s) (cpc s);
  ti_reqs : waits (cp s) = true -> cacc s ++ cbuf s ++ concat (crest s) = concat reqs;
  ti_off : uart_tx_enabled (pu (cp s)) = false -> cacc s = [] /\ cpc s = W_done 0
}.

Lemma take_next (buf : list Z) n : 0 <= n < zlen buf -> take (Z.to_nat (n + 1)) buf = take (Z.to_nat n) buf ++ [getb buf n].
Proof.
  intros Hn. rewrite Z2Nat.inj_add, Nat.add_1_r by lia. apply take_S_r. unfold getb.
  rewrite nth_lookup. destruct (lookup_lt_is_Some_2 buf (Z.to_nat n)) as [x Hx]; [unfold zlen in Hn; lia|]. by rewrite Hx.
Qed.

(** The state between the steps of one call. *)
Definition at_pc (p : port) (pc : wpc) (s : conc) : conc :=
  {| cp := p; cpc := pc; cbuf := cbuf s; crest := crest s; cacc := cacc s; cwire := cwire s |}.

(** A step that moves no byte. *)
Lemma inv_goto reqs s pc : tx_inv reqs s -> (forall n, cpc s <> W_done n) -> pushed pc = pushed (cpc s) -> pc_ok (cp s) (cbuf s) pc ->
  (forall n, pc = W_done n -> n = 0 \/ ife_on (cp s) = true) -> tx_inv reqs (at_pc (cp s) pc s).
Proof.
  intros [I1 I2 I3 I4 I5 I6 I7 I8 I9 I10] Hnd Hp Hok Hd. constructor; cbn; try done; [unfold accepted in *; cbn; by rewrite Hp|by rewrite Hp| |by intros [_ E]%I10; destruct (Hnd 0)].
  intros Hq. destruct (I8 Hq) as [?|[Hn Hnd']]; [by left|]. destruct (decide (pushed pc = 0)) as [E|E]; [congruence|].
  destruct pc; try (by right; split); destruct (Hd _ eq_refl) as [->|?]; [by rewrite Hp in E|by left].
Qed.

(** A byte goes straight to the FIFO. *)
Lemma inv_put reqs s n : tx_inv reqs s -> cpc s = W_put n ->
  tx_inv reqs (at_pc (with_hw (write_USF (getb (cbuf s) n) (ph (cp s))) (cp s)) (W_full (n + 1)) s).
Proof.
  intros [I1 I2 I3 I4 I5 I6 I7 I8 I9 I10] E. rewrite E in *. cbn in I6, I7. destruct I7 as (Hq & Hn & Hl). unfold write_USF. change UART_TX_FIFO_SIZE with 128.
  rewrite (proj2 (Z.ltb_lt _ _)) by lia. constructor; cbn; try done; try lia.
  - rewrite zlen_app. change (zlen [getb (cbuf s) n]) with 1. lia.
  - unfold in_flight, accepted, tx_queue in *. cbn in *. rewrite E in I5. cbn in I5. rewrite Hq in *. rewrite app_nil_r in *. rewrite take_next by lia. by rewrite !app_assoc, I5.
  - intros _. right. cbn. split; [lia|done].
  - by intros [_ ?]%I10.
Qed.

Lemma inv_store reqs s n next : tx_inv reqs s -> cpc s = W_store n next ->
  exists p, on_tx (let! b := get in set_byte (sb_writePos b) (getb (cbuf s) n)) (cp s) = Some (tt, p) /\ tx_inv reqs (at_pc p (W_commit n next) s).
Proof.
  intros [I1 I2 I3 I4 I5 I6 I7 I8 I9 I10] E. rewrite E in *. cbn in I6, I7. destruct I7 as (Hn & b & Eb & Enx & Hroom). unfold on_tx. rewrite Eb in *. cbn in I1.
  pose proof (so_buffer _ _ I1) as Ebuf. set (l := default [] (sb_buffer b)) in *. destruct (queued_setb b l (getb (cbuf s) n) I1) as [H' Eq'].
  unfold bind, get, set_byte. rewrite Ebuf. pose proof (so_size _ _ I1) as Esz. pose proof (so_write _ _ I1) as Hw.
  rewrite (proj2 (Z.leb_le _ _)), (proj2 (Z.ltb_lt _ _)) by lia. cbn [andb]. eexists. split; [done|]. set (b' := {| sb_size := sb_size b |}) in *.
  pose proof (buf_ok_intro _ _ H') as [Hok Hqo]. assert (queue_of (Some b') = queue_of (Some b)) as Eq.
  { rewrite Hqo, Eq'. cbn. by rewrite Ebuf. }
  constructor; cbn [at_pc cp cpc cbuf crest cacc cwire pu ph tx_buffer rx_buffer set_tx_buffer options]; try done.
  - unfold in_flight, tx_queue, accepted in *. cbn [at_pc cp cpc cbuf crest cacc cwire pu ph tx_buffer set_tx_buffer]. rewrite Eb, E in I5. by rewrite Eq.
  - cbn [pc_ok]. split; [done|]. exists b'. split; [done|]. split; [done|]. split; [unfold tx_queue in *; rewrite Eb in Hroom; cbn [pu tx_buffer set_tx_buffer]; by rewrite Eq|].
    rewrite (byte_at_spec b' _ _ H') by (subst b'; cbn; lia). f_equal. subst b'. cbn. apply getb_setb_eq. lia.
  - unfold armed, tx_queue in *. cbn [pu tx_buffer set_tx_buffer]. rewrite Eq. rewrite Eb in I8. intros Hq. destruct (I8 Hq) as [?|[? _]]; [by left|by right].
  - by intros [_ ?]%I10.
Qed.

Lemma inv_commit reqs s n next : tx_inv reqs s -> cpc s = W_commit n next ->
  exists p, on_tx (modify (set_writePos next)) (cp s) = Some (tt, p) /\ tx_inv reqs (at_pc p (W_room (n + 1)) s).
Proof.
  intros [I1 I2 I3 I4 I5 I6 I7 I8 I9 I10] E. rewrite E in *. cbn in I6, I7. destruct I7 as (Hn & b & Eb & Enx & Hroom & Hbyte). unfold on_tx. rewrite Eb in *. cbn in I1.
  pose proof (so_buffer _ _ I1) as Ebuf. set (l := default [] (sb_buffer b)) in *. pose proof (so_write _ _ I1) as Hw. rewrite (byte_at_spec b l) in Hbyte by done. injection Hbyte as Hbyte.
  assert (zlen (queued b l) < sb_size b - 1) as Hroom' by (unfold tx_queue in Hroom; rewrite Eb in Hroom; exact Hroom). rewrite (zlen_queued b l I1) in Hroom'.
  destruct (stored_push b l (getb (cbuf s) n) I1 Hroom') as [H' Eq']. unfold modify. eexists. split; [done|].
  assert (setb l (sb_writePos b) (getb (cbuf s) n) = l) as Eid.
  { rewrite <- Hbyte. apply list_insert_id. unfold getb. rewrite nth_lookup. pose proof (so_size _ _ I1). destruct (lookup_lt_is_Some_2 l (Z.to_nat (sb_writePos b))) as [x Hx]; [unfold zlen in *; lia|]. by rewrite Hx. }
  rewrite Eid in H', Eq'. rewrite <- (getNextPos_spec b l) in H', Eq' by done. rewrite <- Enx, <- Ebuf in H', Eq'. change {| sb_size := sb_size b; sb_readPos := sb_readPos b; sb_writePos := next; sb_buffer := sb_buffer b |} with (set_writePos next b) in *.
  pose proof (buf_ok_intro _ _ H') as [Hok Hqo]. assert (queue_of (Some (set_writePos next b)) = queue_of (Some b) ++ [getb (cbuf s) n]) as Eq by (by rewrite Hqo, Eq').
  constructor; cbn [at_pc cp cpc cbuf crest cacc cwire pu ph tx_buffer rx_buffer set_tx_buffer options pushed pc_ok]; try done; try lia.
  - unfold in_flight, tx_queue, accepted in *. cbn [at_pc cp cpc cbuf crest cacc cwire pu ph tx_buffer set_tx_buffer pushed]. rewrite Eb, E in I5. cbn [pushed] in I5.
    rewrite Eq, take_next by lia. by rewrite !app_assoc, <- I5, !app_assoc.
  - unfold armed. cbn. intros _. right. split; [lia|done].
  - by intros [_ ?]%I10.
Qed.

Lemma inv_enable reqs s n usie : tx_inv reqs s -> cpc s = W_enable n usie ->
  tx_inv reqs (at_pc (with_hw (set_USIE (set_bits usie (BV UIFE)) (ph (cp s))) (cp s)) (W_done n) s).
Proof.
  intros [I1 I2 I3 I4 I5 I6 I7 I8 I9 I10] E. rewrite E in *. cbn in I6, I7. destruct I7 as [Hn Hw]. constructor; cbn; try done.
  - unfold in_flight, accepted, tx_queue in *. cbn in *. by rewrite E in I5.
  - intros _. left. unfold ife_on. cbn. unfold set_bits. rewrite Z.lor_spec. change (Z.testbit (BV UIFE) UIFE) with true. apply orb_true_r.
  - by intros [_ ?]%I10.
Qed.

Lemma inv_task reqs s : tx_inv reqs s -> (forall n, cpc s <> W_done n) ->
  exists pc p, wstep (cbuf s) (cpc s) (cp s) = Some (pc, p) /\ tx_inv reqs (at_pc p pc s).
Proof.
  intros I Hnd. pose proof (ti_tx _ _ I) as Hb. pose proof (ti_range _ _ I) as Hr. pose proof (ti_pc _ _ I) as Hpc. pose proof (ti_rxlen _ _ I) as Hrx.
  assert (forall pc, pushed pc = pushed (cpc s) -> pc_ok (cp s) (cbuf s) pc -> (forall n, pc = W_done n -> n = 0 \/ ife_on (cp s) = true) ->
            exists pc' p, Some (pc, cp s) = Some (pc', p) /\ tx_inv reqs (at_pc p pc' s)) as Hgo.
  { intros pc H1 H2 H3. exists pc, (cp s). split; [done|]. by apply inv_goto. }
  destruct (cpc s) as [n|n|n|n|n next|n next|n|n|n usie|n] eqn:E; cbn [pushed pc_ok] in *; unfold wstep; cbn [bind gets ret].
  - unfold bind, gets, ret. pose proof (buf_empty _ Hb) as He. change (match tx_buffer (pu (cp s)) with Some s0 => sb_isEmpty s0 | None => true end) with (tx_isEmpty (pu (cp s))) in He.
    rewrite He. apply Hgo; case_bool_decide; done.
  - unfold bind, gets, ret, UART_TXFULL. rewrite TXCOUNT_spec by lia. apply Hgo.
    + destruct (_ && _); done.
    + destruct (Z.ltb_spec n (zlen (cbuf s))); [|done]. destruct (Z.leb_spec 127 (zlen (hw_tx (ph (cp s))))); done.
    + destruct (_ && _); done.
  - eexists _, _. split; [done|]. by apply inv_put.
  - unfold bind, gets, ret. destruct (tx_buffer (pu (cp s))) as [b|] eqn:Eb; [|by apply Hgo]. cbn in Hb. rewrite (getNextPos_spec b _ _ Hb) by apply Hb.
    rewrite (full_test b _ Hb), negb_involutive. apply Hgo; [by destruct (_ && _)| |by destruct (_ && _)].
    destruct (Z.ltb_spec n (zlen (cbuf s))); [|done]. destruct (Z.ltb_spec (stored b) (sb_size b - 1)); [|done]. cbn [andb pc_ok]. split; [done|]. exists b. split; [done|].
    split; [by rewrite (getNextPos_spec b _ _ Hb) by apply Hb|]. unfold tx_queue. rewrite Eb. cbn. by rewrite (zlen_queued _ _ Hb).
  - destruct (inv_store reqs s n next I E) as (p & Ep & Hi). unfold bind at 1. rewrite Ep. eexists _, _. done.
  - destruct (inv_commit reqs s n next I E) as (p & Ep & Hi). unfold bind at 1. rewrite Ep. eexists _, _. done.
  - unfold bind, gets, ret. destruct (Z.leb_spec (zlen (cbuf s)) n); cbn [orb]; [apply Hgo; cbn; try done; lia|].
    destruct (has_option (pu (cp s)) UART_OPT_TXWAIT) eqn:Ew; cbn [negb]; apply Hgo; cbn; try done. intros Hw%waits_option. by rewrite Ew in Hw.
  - unfold bind, gets, ret. destruct (nz n) eqn:En; [apply nz_true in En|apply nz_false in En]; apply Hgo; cbn; try done. intros m [= <-]. by left.
  - eexists _, _. split; [done|]. by apply inv_enable.
  - by destruct (Hnd n).
Qed.

(** ** Preservation *)

(** [pc_ok] holds on when only the interrupt service routine and the UART act. *)
Lemma pc_ok_moved p p' buf pc k : moved k p p' -> mode (pu p') = mode (pu p) -> zlen (hw_tx (ph p')) <= 127 -> pc_ok p buf pc -> pc_ok p' buf pc.
Proof.
  intros [M1 M2 M3 M4 M5] Hm Hl. assert (waits p' = waits p) as Ho by (unfold waits, has_option, uart_tx_enabled; by rewrite M5, Hm).
  assert (zlen (tx_queue p') <= zlen (tx_queue p)) as Hq by (rewrite M3, zlen_drop; pose proof (zlen_nonneg (tx_queue p)); lia).
  assert (forall b, tx_buffer (pu p) = Some b -> exists b', tx_buffer (pu p') = Some b' /\ sb_size b' = sb_size b /\ sb_writePos b' = sb_writePos b /\ sb_buffer b' = sb_buffer b) as Hb.
  { intros b Eb. unfold tx_shape in M4. rewrite Eb in M4. destruct (tx_buffer (pu p')) as [b'|]; [|done]. injection M4 as ???. eauto. }
  destruct pc as [n|n|n|n|n next|n next|n|n|n usie|n]; cbn; rewrite ?Ho; try done.
  - intros E. by rewrite M3, E, drop_nil.
  - intros (E & Hn & Hlt). rewrite M3, E, drop_nil. split; [done|]. split; [done|]. by rewrite M2, E, take_nil, app_nil_r.
  - intros (Hn & b & Eb & -> & Hr). split; [done|]. destruct (Hb b Eb) as (b' & Eb' & E1 & E2 & E3). exists b'. unfold getNextPos. rewrite E1, E2. repeat split; done || lia.
  - intros (Hn & b & Eb & -> & Hr & Hby). split; [done|]. destruct (Hb b Eb) as (b' & Eb' & E1 & E2 & E3). exists b'. unfold getNextPos, byte_at in *. rewrite E1, E2, E3. repeat split; done || lia.
Qed.

Lemma inv_isr reqs s p : tx_inv reqs s -> port_interrupt (cp s) = Some (tt, p) -> tx_inv reqs (with_port p s).
Proof.
  intros [I1 I2 I3 I4 I5 I6 I7 I8 I9 I10] E. destruct (port_interrupt_spec (cp s) I1 I2 I3 I4) as (p' & E' & Hs). rewrite E in E'. injection E' as <-.
  set (k := if ife_on (cp s) && Z.testbit (raw (ph (cp s))) UIFE then top_up (cp s) else 0%nat) in Hs. assert (k <= top_up (cp s))%nat as Hk by (subst k; destruct (_ && _); lia). destruct Hs as [S1 S2 S3 S4 S5 S6]. pose proof S1 as [M1 M2 M3 M4 M5].
  assert (zlen (hw_tx (ph p)) <= 127) as Hl.
  { rewrite M2, zlen_app, zlen_take. unfold top_up, zlen in *. lia. }
  constructor; cbn; try done; try lia.
  - unfold in_flight in *. cbn. rewrite M2, M3, <- app_assoc, take_drop. exact I5.
  - by eapply pc_ok_moved.
  - intros Hq. rewrite S5 by done. apply I8. intros E0. apply Hq. by rewrite M3, E0, drop_nil.
  - unfold waits, has_option, uart_tx_enabled in *. by rewrite M5, S4.
  - unfold uart_tx_enabled in *. by rewrite S4.
Qed.

Lemma inv_exec reqs l s s' : tx_inv reqs s -> exec l s = Some s' -> tx_inv reqs s'.
Proof.
  intros I E. destruct l as [| | |c|r]; cbn [exec] in E.
  - destruct (cpc s) as [n|n|n|n|n next|n next|n|n|n usie|n] eqn:Epc;
      try (destruct (inv_task reqs s I) as (pc & p & Ew & Hi); [by rewrite Epc|]; rewrite Epc in Ew; rewrite Ew in E; injection E as <-; exact Hi).
    destruct I as [I1 I2 I3 I4 I5 I6 I7 I8 I9 I10]. rewrite Epc in *. destruct (crest s) as [|buf rest] eqn:Er; [done|]. injection E as <-. cbn in I6, I7.
    pose proof (zlen_nonneg buf). assert (pushed (if negb (uart_tx_enabled (pu (cp s))) || (zlen buf =? 0) then W_done 0 else W_top 0) = 0) as Ep by by destruct (_ || _).
    constructor; cbn [cp cpc cbuf crest cacc cwire]; rewrite ?Ep; try done; try lia.
    + unfold in_flight, accepted in *. cbn [cp cpc cbuf crest cacc cwire]. rewrite Ep, I5, Epc. cbn. by rewrite app_nil_r.
    + destruct (uart_tx_enabled (pu (cp s))) eqn:Eo; cbn [negb orb pc_ok]; [|unfold waits; by rewrite Eo, andb_false_r]. destruct (Z.eqb_spec (zlen buf) 0); cbn; [lia|done].
    + intros Hq. destruct (I8 Hq) as [?|[_ Hd]]; [by left|by destruct (Hd n)].
    + intros Hw. rewrite <- (I9 Hw), (I7 Hw). unfold zlen. rewrite Nat2Z.id, firstn_all. cbn. by rewrite <- app_assoc.
    + intros Ho. destruct (I10 Ho) as [Ea [= ->]]. rewrite Ho. cbn. by rewrite Ea.
  - destruct (port_interrupt (cp s)) as [[[] p]|] eqn:Ep; [|done]. injection E as <-. by eapply inv_isr.
  - destruct I as [I1 I2 I3 I4 I5 I6 I7 I8 I9 I10]. destruct (hw_tx (ph (cp s))) as [|c t] eqn:Et; [done|]. injection E as <-. rewrite zlen_cons in I3. constructor; cbn; try done; try lia.
    + unfold in_flight, accepted in *. cbn. rewrite Et in I5. rewrite <- I5. by rewrite <- app_assoc.
    + destruct (cpc s); cbn in *; try done. destruct I7 as (? & ? & Hl). rewrite Et, zlen_cons in Hl. repeat split; done || lia.
  - destruct I as [I1 I2 I3 I4 I5 I6 I7 I8 I9 I10]. destruct (Z.ltb_spec (zlen (hw_rx (ph (cp s)))) 128); [|done]. injection E as <-. constructor; cbn; try done.
    rewrite zlen_app. change (zlen [c]) with 1. lia.
  - destruct I as [I1 I2 I3 I4 I5 I6 I7 I8 I9 I10]. injection E as <-. constructor; done.
Qed.

Lemma inv_reachable reqs s0 s : tx_inv reqs s0 -> reachable s0 s -> tx_inv reqs s.
Proof. intros I0. induction 1 as [|l s s' _ IH E]; [done|]. by eapply inv_exec. Qed.

Lemma accepted_prefix reqs s : tx_inv reqs s -> has_option (pu (cp s)) UART_OPT_TXWAIT = true -> accepted s `prefix_of` concat reqs.
Proof.
  intros I Hw. unfold accepted. destruct (uart_tx_enabled (pu (cp s))) eqn:Eo; [|destruct (ti_off _ _ I Eo) as [-> ->]; apply prefix_nil].
  rewrite <- (ti_reqs _ _ I) by (unfold waits; by rewrite Hw, Eo). apply prefix_app, prefix_app_r. apply prefix_take.
Qed.

(** A port before the first call: nothing to send. *)
Record idle_port (p : port) : Prop := {
  ip_tx : buf_ok (tx_buffer (pu p));
  ip_rx : buf_ok (rx_buffer (pu p));
  ip_queue : tx_queue p = [];
  ip_fifo : hw_tx (ph p) = [];
  ip_rxlen : zlen (hw_rx (ph p)) <= 128
}.
Definition start (p : port) (reqs : list (list Z)) : conc :=
  {| cp := p; cpc := W_done 0; cbuf := []; crest := reqs; cacc := []; cwire := [] |}.

Lemma start_inv p reqs : idle_port p -> tx_inv reqs (start p reqs).
Proof.
  intros [H1 H2 H3 H4 H5]. constructor; cbn; try done; rewrite ?H4; try done; try (change (zlen []) with 0; lia).
  - unfold in_flight, accepted. cbn. by rewrite H4, H3.
  - by intros Hq.
Qed.

(** C12. In every interleaving of the calls of [uart_write] with the interrupt
    service routine, the shifting out of bytes, the reception of bytes and the
    raising of any interrupts: no step of the driver faults, the task can
    always go on until its calls are done, and the bytes sent, in the FIFO and
    in the buffer are, in order, the bytes the calls accepted; where the
    driver waits for room, these are the first bytes of the data of all calls,
    so none is lost, doubled or reordered. *)
Theorem uart_tx_in_order p reqs s :
  idle_port p -> reachable (start p reqs) s ->
  cwire s ++ in_flight s = accepted s /\
  (has_option (pu (cp s)) UART_OPT_TXWAIT = true -> cwire s ++ in_flight s `prefix_of` concat reqs) /\
  is_Some (exec Isr s) /\
  (is_Some (exec Task s) \/ exists n, cpc s = W_done n /\ crest s = []).
Proof.
  intros Hp Hr. pose proof (inv_reachable reqs _ _ (start_inv p reqs Hp) Hr) as I. split; [apply I|]. split; [|split].
  - intros Hw. rewrite (ti_order _ _ I). by apply accepted_prefix.
  - destruct (port_interrupt_spec (cp s)) as (p' & E & _); try apply I. cbn [exec]. rewrite E. by eexists.
  - destruct (cpc s) as [n|n|n|n|n next|n next|n|n|n usie|n] eqn:Epc;
      try (left; destruct (inv_task reqs s I) as (pc & q & E & _); [by rewrite Epc|]; cbn [exec]; rewrite Epc in *; rewrite E; by eexists).
    cbn [exec]. rewrite Epc. destruct (crest s); [right; by exists n|left; by eexists].
Qed.

(** ** Everything accepted is sent *)

Lemma flight_step reqs l s s' : tx_inv reqs s -> l <> Task -> exec l s = Some s' ->
  cpc s' = cpc s /\ crest s' = crest s /\ accepted s' = accepted s /\ (length (in_flight s') <= length (in_flight s))%nat /\
  (l = Shift -> (length (in_flight s') < length (in_flight s))%nat).
Proof.
  intros I Hl E. destruct l as [| | |c|r]; cbn [exec] in E; [done| | | |].
  - destruct (port_interrupt (cp s)) as [[[] p]|] eqn:Ep; [|done]. injection E as <-. destruct (port_interrupt_spec (cp s)) as (p' & E' & Hs); try apply I. rewrite Ep in E'. injection E' as <-.
    destruct Hs as [[M1 M2 M3 M4 M5] _ _ _ _ _]. repeat split; try done. unfold in_flight. cbn. rewrite M2, M3, <- app_assoc, take_drop. done.
  - destruct (hw_tx (ph (cp s))) as [|c t] eqn:Et; [done|]. injection E as <-. unfold in_flight, accepted. cbn. rewrite Et. change (tx_queue (with_hw (set_tx_fifo t (ph (cp s))) (cp s))) with (tx_queue (cp s)). cbn. do 3 (split; [done|]). split; lia.
  - destruct (_ <? _); [|done]. injection E as <-. done.
  - injection E as <-. done.
Qed.

Section Fair.
Context (p : port) (reqs : list (list Z)) (tr : nat -> conc) (lab : nat -> label) (m : Z).
Hypothesis Hp : idle_port p.
Hypothesis Hstart : reachable (start p reqs) (tr 0).
Hypothesis Hdone : cpc (tr 0) = W_done m /\ crest (tr 0) = [].
Hypothesis Hrun : forall i, exec (lab i) (tr i) = Some (tr (S i)).
(** The UART keeps shifting, and an enabled interrupt for an empty FIFO is
    raised and served, unless the FIFO is no longer empty. *)
Hypothesis Hshift : forall i, hw_tx (ph (cp (tr i))) <> [] -> exists j, (i <= j)%nat /\ lab j = Shift.
Hypothesis Hirq : forall i, hw_tx (ph (cp (tr i))) = [] -> ife_on (cp (tr i)) = true ->
  exists j, (i <= j)%nat /\ (hw_tx (ph (cp (tr j))) <> [] \/ (lab j = Isr /\ Z.testbit (raw (ph (cp (tr j)))) UIFE = true)).

Lemma run_reachable i : reachable (start p reqs) (tr i).
Proof. induction i as [|i IH]; [done|]. by eapply reach_step. Qed.

Lemma run_inv i : tx_inv reqs (tr i).
Proof. eapply inv_reachable; [by apply start_inv|apply run_reachable]. Qed.

Lemma run_done i : cpc (tr i) = W_done m /\ crest (tr i) = [] /\ lab i <> Task.
Proof.
  assert (forall i, cpc (tr i) = W_done m -> crest (tr i) = [] -> lab i <> Task) as Hnt.
  { intros j E1 E2 El. pose proof (Hrun j) as E. rewrite El in E. cbn [exec] in E. by rewrite E1, E2 in E. }
  induction i as [|i (E1 & E2 & E3)]; [destruct Hdone; auto|].
  destruct (flight_step reqs (lab i) (tr i) (tr (S i)) (run_inv i) E3 (Hrun i)) as (F1 & F2 & _). rewrite E1 in F1. rewrite E2 in F2. auto.
Qed.

Lemma run_flight i j : (i <= j)%nat -> (length (in_flight (tr j)) <= length (in_flight (tr i)))%nat.
Proof.
  induction 1 as [|j _ IH]; [done|]. destruct (run_done j) as (_ & _ & Ht).
  destruct (flight_step reqs (lab j) (tr j) (tr (S j)) (run_inv j) Ht (Hrun j)) as (_ & _ & _ & F & _). lia.
Qed.

Lemma run_accepted i : accepted (tr i) = accepted (tr 0).
Proof.
  induction i as [|i IH]; [done|]. destruct (run_done i) as (_ & _ & Ht).
  destruct (flight_step reqs (lab i) (tr i) (tr (S i)) (run_inv i) Ht (Hrun i)) as (_ & _ & F & _). by rewrite F.
Qed.

(** A byte in the FIFO is shifted out. *)
Lemma fifo_progress i : hw_tx (ph (cp (tr i))) <> [] -> exists j, (i <= j)%nat /\ (length (in_flight (tr j)) < length (in_flight (tr i)))%nat.
Proof.
  intros Hne. destruct (Hshift i Hne) as (j & Hij & El). exists (S j). split; [lia|]. destruct (run_done j) as (_ & _ & Ht). pose proof (run_flight i j Hij).
  destruct (flight_step reqs (lab j) (tr j) (tr (S j)) (run_inv j) Ht (Hrun j)) as (_ & _ & _ & _ & F). specialize (F El). lia.
Qed.

Lemma flight_progress i : in_flight (tr i) <> [] -> exists j, (i <= j)%nat /\ (length (in_flight (tr j)) < length (in_flight (tr i)))%nat.
Proof.
  intros Hne. destruct (decide (hw_tx (ph (cp (tr i))) = [])) as [Ef|Ef]; [|by apply fifo_progress].
  assert (forall j, (i <= j)%nat -> hw_tx (ph (cp (tr j))) <> [] -> exists k, (i <= k)%nat /\ (length (in_flight (tr k)) < length (in_flight (tr i)))%nat) as Hnext.
  { intros j Hij Hj. destruct (fifo_progress j Hj) as (k & Hjk & Hk). exists k. pose proof (run_flight i j Hij). split; lia. }
  assert (ife_on (cp (tr i)) = true) as Hi.
  { destruct (run_done i) as (E & _ & _). destruct (ti_armed _ _ (run_inv i)) as [?|[_ Hd]]; [|done|by destruct (Hd m)].
    unfold in_flight in Hne. by rewrite Ef in Hne. }
  destruct (Hirq i Ef Hi) as (j & Hij & [Hj|[El Er]]); [by eapply Hnext|]. destruct (decide (hw_tx (ph (cp (tr j))) = [])) as [Ej|Ej]; [|by eapply Hnext].
  destruct (decide (length (in_flight (tr j)) < length (in_flight (tr i)))%nat); [by exists j|]. pose proof (run_flight i j Hij) as Hle.
  assert (tx_queue (cp (tr j)) <> []) as Hq.
  { intros E. unfold in_flight in *. rewrite Ej, E in *. cbn in *. destruct (tx_queue (cp (tr i))); [by rewrite Ef in Hne|]. rewrite Ef in *. cbn in *. lia. }
  apply (Hnext (S j)); [lia|]. pose proof (Hrun j) as E. rewrite El in E. cbn [exec] in E. destruct (port_interrupt_spec (cp (tr j))) as (q & Eq & Hs); try apply (run_inv j).
  rewrite Eq in E. injection E as <-. cbn. assert (ife_on (cp (tr j)) = true) as Hj.
  { destruct (run_done j) as (E' & _ & _). destruct (ti_armed _ _ (run_inv j) Hq) as [?|[_ Hd]]; [done|by destruct (Hd m)]. }
  rewrite Hj, Er in Hs. cbn [andb] in Hs. rewrite (mv_fifo _ _ _ (sv_moved _ _ _ Hs)), Ej. cbn. unfold top_up. rewrite Ej. cbn [length]. destruct (tx_queue (cp (tr j))); done.
Qed.

End Fair.

(** ** A call that waits for ever *)

(** The buffer is full and its interrupt is not enabled; the task goes round
    its loop. *)
Record stuck (size : Z) (q : list Z) (s : conc) : Prop := {
  st_wait : has_option (pu (cp s)) UART_OPT_TXWAIT = true;
  st_full : exists b, tx_buffer (pu (cp s)) = Some b /\ 2 <= size /\ sb_size b = size /\ tx_queue (cp s) = q /\ zlen q = size - 1;
  st_off : ife_on (cp s) = false;
  st_pc : exists n, n < zlen (cbuf s) /\ (cpc s = W_top n \/ cpc s = W_room n \/ cpc s = W_test n)
}.

Lemma stuck_exec reqs size q l s s' : tx_inv reqs s -> stuck size q s -> exec l s = Some s' -> stuck size q s'.
Proof.
  intros I [T1 (b & Eb & Hb2 & Es & Eq0 & Hfull) T3 (n & Hn & Hpc)] E. pose proof (ti_tx _ _ I) as Hb. rewrite Eb in Hb. cbn in Hb.
  assert (zlen (queued b (default [] (sb_buffer b))) = sb_size b - 1) as Hq by (unfold tx_queue in Eq0; rewrite Eb in Eq0; rewrite Es, <- Hfull, <- Eq0; done). rewrite (zlen_queued _ _ Hb) in Hq.
  assert (forall pc, pc = W_top n \/ pc = W_room n \/ pc = W_test n -> stuck size q (at_pc (cp s) pc s)) as Hgo by (intros pc Hor; constructor; cbn; eauto 10).
  destruct l as [| | |c|r].
  - destruct Hpc as [Epc|[Epc|Epc]]; cbn [exec] in E; rewrite Epc in E; unfold wstep, bind, gets, ret in E.
    + unfold tx_isEmpty in E. rewrite Eb, (isEmpty_spec _ _ Hb), (proj2 (Z.eqb_neq _ _)) in E by lia. injection E as <-. apply Hgo. auto.
    + rewrite Eb in E. rewrite (getNextPos_spec b _ _ Hb) in E by apply Hb. rewrite (full_test b _ Hb), (proj2 (Z.ltb_ge (stored b) _)) in E by lia. cbn [negb] in E.
      rewrite andb_false_r in E. injection E as <-. apply Hgo. auto.
    + rewrite T1, (proj2 (Z.leb_gt _ _)) in E by lia. injection E as <-. apply Hgo. auto.
  - cbn [exec] in E. destruct (port_interrupt_spec (cp s)) as (p' & Eq & Hs); try apply I. rewrite Eq in E. injection E as <-. rewrite T3 in Hs. cbn [andb] in Hs.
    destruct Hs as [[M1 M2 M3 M4 M5] S2 S3 S4 S5 S6]. constructor; cbn; [unfold has_option in *; by rewrite M5| | |eauto].
    + unfold tx_shape in M4. rewrite Eb in M4. destruct (tx_buffer (pu p')) as [b'|] eqn:Eb'; [|done]. injection M4 as E1 E2 E3. exists b'. rewrite E1, M3. done.
    + destruct (ife_on p'); [|done]. by rewrite (S6 eq_refl) in T3.
  - cbn [exec] in E. destruct (hw_tx (ph (cp s))); [done|]. injection E as <-. constructor; cbn; eauto 10.
  - cbn [exec] in E. destruct (_ <? _); [|done]. injection E as <-. constructor; cbn; eauto 10.
  - injection E as <-. constructor; cbn; eauto 10.
Qed.

Lemma stuck_forever reqs size q s s' : tx_inv reqs s -> stuck size q s -> reachable s s' -> (forall n, cpc s' <> W_done n) /\ tx_queue (cp s') = q.
Proof.
  intros I0 S0 Hr. assert (tx_inv reqs s' /\ stuck size q s') as [_ [_ (b & _ & _ & _ & Eq & _) _ (n & _ & Hpc)]].
  { induction Hr as [|l s1 s2 _ [I S] E]; [done|]. split; [by eapply inv_exec|by eapply stuck_exec]. }
  split; [|done]. intros k. destruct Hpc as [->|[->| ->]]; done.
Qed.

(** *** How the call gets there *)

(** The call still has bytes to place, and nothing was shifted out. *)
Definition filling (pc : wpc) : bool :=
  match pc with W_top _ | W_full _ | W_put _ | W_room _ | W_store _ _ | W_commit _ _ => true | _ => false end.

Record fill (size : Z) (buf : list Z) (s : conc) : Prop := {
  fl_inv : tx_inv [buf] s;
  fl_history : cacc s = [] /\ cwire s = [] /\ cbuf s = buf;
  fl_port : waits (cp s) = true /\ ife_on (cp s) = false;
  fl_buffer : exists b, tx_buffer (pu (cp s)) = Some b /\ sb_size b = size;
  fl_pc : filling (cpc s) = true
}.

(** Each step of the task places a byte or comes nearer to it. *)
Definition rank (len : Z) (pc : wpc) : Z :=
  6 * (len - pushed pc) + match pc with W_top _ => 5 | W_full _ => 4 | W_put _ => 3 | W_room _ => 2 | W_store _ _ => 1 | _ => 0 end.

Lemma on_tx_frame {A} (f : M SerialBuffer A) p r p' : on_tx f p = Some (r, p') ->
  waits p' = waits p /\ ife_on p' = ife_on p /\ exists b b', tx_buffer (pu p) = Some b /\ f b = Some (r, b') /\ tx_buffer (pu p') = Some b'.
Proof.
  unfold on_tx. destruct (tx_buffer (pu p)) as [b|]; [|done]. destruct (f b) as [[r' b']|] eqn:E; [|done]. intros [= <- <-].
  split; [done|]. split; [done|]. eauto.
Qed.

Lemma fill_pushed size buf s : fill size buf s -> pushed (cpc s) = zlen (hw_tx (ph (cp s))) + zlen (tx_queue (cp s)).
Proof.
  intros [I (Ea & Ew & Eb) _ _ _]. pose proof (ti_order _ _ I) as E. pose proof (ti_range _ _ I) as Hr. unfold accepted, in_flight in E.
  rewrite Ea, Ew in E. cbn [app] in E. rewrite <- zlen_app, E, zlen_take. lia.
Qed.

(** The frame of a step of the task. *)
Lemma fill_frame size buf s pc p : fill size buf s -> wstep (cbuf s) (cpc s) (cp s) = Some (pc, p) ->
  waits p = true /\ ife_on p = false /\ exists b, tx_buffer (pu p) = Some b /\ sb_size b = size.
Proof.
  intros [I _ (Hw & Hi) (b & Eb & Es) Hpc] E. assert (waits (cp s) = true /\ ife_on (cp s) = false /\ exists b, tx_buffer (pu (cp s)) = Some b /\ sb_size b = size) as H by eauto.
  destruct (cpc s) as [n|n|n|n|n next|n next|n|n|n usie|n] eqn:Epc; try discriminate Hpc; unfold wstep, bind, gets, ret in E.
  - by injection E as <- <-.
  - by injection E as <- <-.
  - unfold upd_hw, modify in E. injection E as <- <-. unfold waits, ife_on, write_USF in *. cbn. destruct (_ <? _); exact H.
  - rewrite Eb in E. by injection E as <- <-.
  - destruct (on_tx _ (cp s)) as [[[] q]|] eqn:Eo; [|done]. injection E as <- <-. destruct (on_tx_frame _ _ _ _ Eo) as (-> & -> & c & c' & Ec & Ef & Ec'). split; [done|]. split; [done|]. exists c'. split; [done|].
    rewrite Eb in Ec. injection Ec as <-. unfold bind, get, set_byte in Ef. destruct (sb_buffer b) as [l|]; [|done]. destruct (_ && _); [|done]. by injection Ef as <-.
  - destruct (on_tx _ (cp s)) as [[[] q]|] eqn:Eo; [|done]. injection E as <- <-. destruct (on_tx_frame _ _ _ _ Eo) as (-> & -> & c & c' & Ec & Ef & Ec'). split; [done|]. split; [done|]. exists c'. split; [done|].
    rewrite Eb in Ec. injection Ec as <-. by injection Ef as <-.
Qed.

Lemma fill_next size buf s : fill size buf s -> 2 <= size -> 127 + (size - 1) < zlen buf ->
  stuck size (tx_queue (cp s)) s \/ exists s', exec Task s = Some s' /\ fill size buf s' /\ 0 <= rank (zlen buf) (cpc s') < rank (zlen buf) (cpc s).
Proof.
  intros F Hs Hl. pose proof (fill_pushed _ _ _ F) as Hn. pose proof F as [I (Ea & Ew & Ebuf) (Hw & Hi) (b & Eb & Es) Hpc].
  assert (buf_ok (Some b)) as Hb by (rewrite <- Eb; apply I). cbn in Hb. assert (tx_queue (cp s) = queued b (default [] (sb_buffer b))) as Eq by (unfold tx_queue; by rewrite Eb).
  pose proof (ti_txlen _ _ I) as Hf. rewrite Eq, (zlen_queued _ _ Hb) in Hn. pose proof (stored_range _ _ Hb) as Hst.
  destruct (inv_task [buf] s I) as (pc & p & E & I'); [by intros m E; rewrite E in Hpc|]. destruct (fill_frame _ _ _ _ _ F E) as (Fw & Fi & Fb).
  assert (filling pc = true -> 0 <= rank (zlen buf) pc < rank (zlen buf) (cpc s) -> stuck size (tx_queue (cp s)) s \/ exists s', exec Task s = Some s' /\ fill size buf s' /\ 0 <= rank (zlen buf) (cpc s') < rank (zlen buf) (cpc s)) as Hgo.
  { intros Hfi Hrk. right. exists (at_pc p pc s). split; [|split; [by constructor|done]]. cbn [exec]. destruct (cpc s) eqn:Epc; try discriminate Hpc; by rewrite E. }
  destruct (cpc s) as [n|n|n|n|n next|n next|n|n|n usie|n] eqn:Epc; try discriminate Hpc; unfold wstep, bind, gets, ret in E; cbn [pushed] in Hn.
  - injection E as <- <-. apply Hgo; destruct (tx_isEmpty _); unfold rank; cbn [pushed]; done || lia.
  - injection E as <- <-. apply Hgo; destruct (_ && _); unfold rank; cbn [pushed]; done || lia.
  - injection E as <- <-. apply Hgo; unfold rank; cbn [pushed]; done || lia.
  - rewrite Eb in E. rewrite (getNextPos_spec b _ _ Hb) in E by apply Hb. rewrite (full_test b _ Hb), negb_involutive, Ebuf, (proj2 (Z.ltb_lt _ _)) in E by lia. cbn [andb] in E.
    destruct (Z.ltb_spec (stored b) (sb_size b - 1)) as [Hlt|Hge]; injection E as <- <-.
    + apply Hgo; unfold rank; cbn [pushed]; done || lia.
    + left. constructor; [by apply waits_option| |done|].
      * exists b. repeat split; try done. rewrite Eq, (zlen_queued _ _ Hb). lia.
      * exists n. split; [rewrite Ebuf; lia|auto].
  - destruct (on_tx _ (cp s)) as [[[] q]|]; [|done]. injection E as <- <-. apply Hgo; unfold rank; cbn [pushed]; done || lia.
  - destruct (on_tx _ (cp s)) as [[[] q]|]; [|done]. injection E as <- <-. apply Hgo; unfold rank; cbn [pushed]; done || lia.
Qed.

Lemma fill_stuck size buf k : forall s, fill size buf s -> 2 <= size -> 127 + (size - 1) < zlen buf -> rank (zlen buf) (cpc s) < Z.of_nat k ->
  exists n s', execs (replicate n Task) s = Some s' /\ tx_inv [buf] s' /\ stuck size (tx_queue (cp s')) s'.
Proof.
  induction k as [|k IH]; intros s F Hs Hl Hk.
  - exfalso. pose proof (ti_range _ _ (fl_inv _ _ _ F)) as Hr. destruct F as [_ (_ & _ & E) _ _ _]. rewrite E in Hr. unfold rank in Hk. destruct (cpc s); cbn [pushed] in *; lia.
  - destruct (fill_next _ _ _ F Hs Hl) as [S|(s' & E & F' & Hr)]; [exists 0%nat, s; split; [done|]; split; [apply F|done]|].
    destruct (IH s' F' Hs Hl ltac:(lia)) as (n & s2 & E2 & H2). exists (S n), s2. cbn [replicate execs]. by rewrite E.
Qed.

(** C21. On every idle port that waits for room, has a transmit buffer and has
    not yet enabled the interrupt of the empty FIFO, for every request of more
    bytes than the FIFO and the buffer hold: when the task fills both before
    the UART shifts a byte out, it comes to a state from which the call never
    returns, whatever is shifted out, received, raised and served afterwards:
    the bytes in the full buffer are never sent, because the interrupt that
    moves them to the FIFO is enabled only behind the loop. *)
Theorem uart_write_waits_forever p b buf :
  idle_port p -> has_option (pu p) UART_OPT_TXWAIT = true -> uart_tx_enabled (pu p) = true ->
  tx_buffer (pu p) = Some b -> 2 <= sb_size b -> ife_on p = false -> 127 + (sb_size b - 1) < zlen buf ->
  exists n s, execs (replicate n Task) (start p [buf]) = Some s /\ zlen (tx_queue (cp s)) = sb_size b - 1 /\
    forall s', reachable s s' -> (forall k, cpc s' <> W_done k) /\ tx_queue (cp s') = tx_queue (cp s).
Proof.
  intros Hp Hw Ho Hb Hs Hi Hl. assert (waits p = true) as Hwait by (unfold waits; by rewrite Hw, Ho).
  set (s0 := at_pc p (W_top 0) {| cp := p; cpc := W_top 0; cbuf := buf; crest := []; cacc := []; cwire := [] |}).
  assert (exec Task (start p [buf]) = Some s0) as E0 by (cbn; by rewrite Ho, (proj2 (Z.eqb_neq (zlen buf) 0)) by lia).
  assert (fill (sb_size b) buf s0) as F by (constructor; cbn; eauto; eapply inv_exec; [by apply start_inv|exact E0]).
  destruct (fill_stuck _ _ (S (Z.to_nat (rank (zlen buf) (cpc s0)))) s0 F Hs Hl ltac:(lia)) as (n & s & E & I & S). exists (Datatypes.S n), s. split; [cbn [replicate execs]; by rewrite E0|].
  split; [by destruct S as [_ (c & _ & _ & _ & _ & ?) _ _]|]. intros s' Hr. by eapply stuck_forever.
Qed.

(** ** Examples *)

Definition demo_uart (opts : Z) : uart_t :=
  {| uart_nr := 0; baud_rate := 115200; mode := UART_FULL; options := opts; rx_pin := 3; tx_pin := 1; rx_buffer := None;
     tx_buffer := Some {| sb_size := 4; sb_readPos := 0; sb_writePos := 0; sb_buffer := Some [0; 0; 0; 0] |}; callback := None; param := 0 |}.
Definition demo_hw : hwregs := {| hw_tx := []; hw_rx := []; stale := 0; USIE := 0; raw := 0; USC0 := 0; USC1 := 0; USD := 0 |}.
Definition demo_port : port := {| pu := demo_uart (BV UART_OPT_TXWAIT); ph := demo_hw; calls := [] |}.

Lemma demo_idle : idle_port demo_port.
Proof. by constructor. Qed.

Lemma uart_write_waits_forever_witness :
  exists n s, execs (replicate n Task) (start demo_port [replicate 200 0x55]) = Some s /\ zlen (tx_queue (cp s)) = 3 /\
    forall s', reachable s s' -> (forall k, cpc s' <> W_done k) /\ tx_queue (cp s') = tx_queue (cp s).
Proof.
  apply (uart_write_waits_forever demo_port {| sb_size := 4; sb_readPos := 0; sb_writePos := 0; sb_buffer := Some [0; 0; 0; 0] |} (replicate 200 0x55)); [apply demo_idle|..]; done.
Defined.

(** Two calls, interrupted. *)
Definition demo_labels : list label :=
  replicate 9 Task ++ [Raise 2; Isr; Receive 65] ++ replicate 11 Task ++ [Shift; Shift].

Lemma uart_tx_in_order_witness :
  exists s, execs demo_labels (start demo_port [[1; 2]; [3]]) = Some s /\ cwire s = [1; 2] /\ in_flight s = [3] /\
    (cwire s ++ in_flight s = accepted s /\
     (has_option (pu (cp s)) UART_OPT_TXWAIT = true -> cwire s ++ in_flight s `prefix_of` concat [[1; 2]; [3]]) /\
     is_Some (exec Isr s) /\
     (is_Some (exec Task s) \/ exists n, cpc s = W_done n /\ crest s = [])).
Proof.
  eexists. split; [vm_compute; reflexivity|]. split; [reflexivity|]. split; [reflexivity|].
  apply (uart_tx_in_order demo_port [[1; 2]; [3]]); [apply demo_idle|].
  apply (execs_reachable demo_labels) with (s := start demo_port [[1; 2]; [3]]); [apply reach_init|vm_compute; reflexivity].
Defined.

(** A run after one call: both bytes are shifted out, the interrupt is served
    and turned off, and nothing more happens. *)
Definition drain_labels : list label := [Shift; Shift; Raise 2; Isr].
Definition drain_lab (i : nat) : label := default (Raise 0) (drain_labels !! i).
Definition drain_start : conc := default (start demo_port []) (execs (replicate 11 Task) (start demo_port [[1; 2]])).
Fixpoint drain_run (i : nat) : conc :=
  match i with
  | O => drain_start
  | S i => default drain_start (exec (drain_lab i) (drain_run i))
  end.

Lemma drain_run_end i : drain_run (5 + i) = drain_run 5.
Proof. induction i as [|i IH]; [done|]. change (drain_run (5 + S i)) with (default drain_start (exec (Raise 0) (drain_run (5 + i)))). rewrite IH. vm_compute. reflexivity. Qed.

Lemma drain_run_cases i : (i < 5)%nat \/ drain_run i = drain_run 5 /\ drain_run (S i) = drain_run 5 /\ drain_lab i = Raise 0.
Proof.
  destruct (decide (i < 5)%nat); [by left|right]. replace i with (5 + (i - 5))%nat by lia. rewrite <- Nat.add_succ_r, !drain_run_end.
  split; [done|]. split; [done|]. done.
Qed.


(** Between the test of the FIFO and its read, the interrupt service routine
    may move the received bytes to the buffer: a byte that arrives then is
    read before them. *)
Example uart_read_overtakes :
  let p := {| pu := set_rx_buffer (Some {| sb_size := 4; sb_readPos := 0; sb_writePos := 0; sb_buffer := Some [0; 0; 0; 0] |}) (demo_uart 0);
              ph := set_USIE (BV UIFF) (set_raw (BV UIFF) (set_rx_fifo [1; 2] demo_hw)); calls := [] |} in
  option_map (fun '(pc, q) => (pc, rx_data q))
    ((let! pc := rstep 1 (R_buffer []) in
      let! pc := rstep 1 pc in
      port_interrupt ;;;
      upd_hw (fun h => set_rx_fifo (hw_rx h ++ [3]) h) ;;;
      rstep 1 pc) p) = Some (R_count [3], [1; 2]).
Proof. vm_compute. reflexivity. Qed.

(** A receive FIFO of 128 bytes counts as empty. *)
Example rx_count_wraps : UART_RXCOUNT (set_rx_fifo (replicate 128 0) demo_hw) = 0.
Proof. vm_compute. reflexivity. Qed.
