(* ===== verification/WString.v ===== *)
(** * The String class

    [Sming/Wiring/WString.cpp]: a heap buffer with a 16-bit capacity and a
    16-bit length.  The operations are translated with every buffer access
    checked against the allocated block; the theorems say that they implement
    byte sequences, and [replace] a leftmost replacement. *)

From S2P Require Import Prelude StringUtil.

(** ** The standard library functions the class calls *)

Definition toupper (c : Z) : Z := if (0x61 <=? c) && (c <=? 0x7a) then c - 32 else c.

(** The index of the first NUL: [None] when the memory ends before one. *)
Fixpoint nul_index (m : list Z) : option Z :=
  match m with [] => None | c :: m => if c =? 0 then Some 0 else Z.succ <$> nul_index m end.
Fixpoint prefixb (f m : list Z) : bool :=
  match f, m with
  | [], _ => true
  | x :: f, y :: m => (x =? y) && prefixb f m
  | _ :: _, [] => false
  end.
Fixpoint memmem (m f : list Z) : option Z :=
  if prefixb f m then Some 0 else match m with [] => None | _ :: m => Z.succ <$> memmem m f end.
Definition memcmp_eq (a b : list Z) : bool := bool_decide (a = b).
(** [strcmp] and [strcasecmp] through [f]; [None] when a memory ends first. *)
Fixpoint str_compare (f : Z -> Z) (a b : list Z) : option Z :=
  match a, b with
  | x :: a, y :: b => if f x =? f y then if x =? 0 then Some 0 else str_compare f a b else Some (f x - f y)
  | _, _ => None
  end.
(** The last index of [c] in a string; the terminator counts as part of it. *)
Fixpoint strrchr (m : list Z) (c : Z) : option (option Z) :=
  match m with
  | [] => None
  | x :: m =>
      if x =? 0 then Some (if c =? 0 then Some 0 else None) else
      match strrchr m c with
      | None => None
      | Some (Some i) => Some (Some (i + 1))
      | Some None => Some (if x =? c then Some 0 else None)
      end
  end.
(** [strtol] of base 10 stops at the limits of a [long]. *)
Fixpoint skip_spaces (m : list Z) : list Z := match m with [] => [] | c :: r => if isspace c then skip_spaces r else m end.
Definition clamp (x : Z) : Z := Z.max (- 2 ^ 31) (Z.min (2 ^ 31 - 1) x).
Definition atoi (m : list Z) : Z :=
  match skip_spaces m with
  | c :: r =>
      if c =? 0x2d then clamp (- fst (skip_atoi r 0)) else
      if c =? 0x2b then clamp (fst (skip_atoi r 0)) else clamp (fst (skip_atoi (c :: r) 0))
  | [] => 0
  end.

(** ** The object *)

(** [ws_block] tells the blocks the buffer has had apart: a pointer into the
    buffer dangles once the block is freed or moved. *)
Record WString := { ws_buffer : option (list Z); ws_capacity : Z; ws_len : Z; ws_block : Z }.
Definition String_null : WString := {| ws_buffer := None; ws_capacity := 0; ws_len := 0; ws_block := 0 |}.

(** The fields are 16-bit. *)
Definition set_len (n : Z) (s : WString) : WString :=
  {| ws_buffer := ws_buffer s; ws_capacity := ws_capacity s; ws_len := u16 n; ws_block := ws_block s |}.
Definition set_bytes (b : list Z) (s : WString) : WString :=
  {| ws_buffer := Some b; ws_capacity := ws_capacity s; ws_len := ws_len s; ws_block := ws_block s |}.

(** A [const char*] argument: memory elsewhere, or a place in this buffer. *)
Inductive source := Ext (m : list Z) | Own (block off : Z).
(** A [const String&] argument: another object, or this one. *)
Inductive operand := Other (s : WString) | This.

Definition in_bytes (b : list Z) (off n : Z) : bool := (0 <=? off) && (0 <=? n) && (off + n <=? zlen b).
(** [n] bytes at offset [off]; no access when [n] is 0. *)
Definition bytes_of (s : WString) (off n : Z) : option (list Z) :=
  if n =? 0 then Some [] else
  match ws_buffer s with
  | Some b => if in_bytes b off n then Some (slice b (Z.to_nat off) (Z.to_nat n)) else None
  | None => None
  end.
(** The memory from offset [off] to the end of the block. *)
Definition tail_of (s : WString) (off : Z) : option (list Z) :=
  match ws_buffer s with Some b => if in_bytes b off 0 then Some (drop (Z.to_nat off) b) else None | None => None end.
Definition lift {A} (f : WString -> option A) : M WString A := fun s => match f s with Some a => Some (a, s) | None => None end.

Definition load (i : Z) : M WString Z := fun s =>
  match ws_buffer s with Some b => if in_bytes b i 1 then Some (getb b i, s) else None | None => None end.
Definition put (off : Z) (d : list Z) : M WString unit := fun s =>
  if zlen d =? 0 then Some (tt, s) else
  match ws_buffer s with
  | Some b => if in_bytes b off (zlen d) then Some (tt, set_bytes (splice b (Z.to_nat off) d) s) else None
  | None => None
  end.
Definition store (i v : Z) : M WString unit := put i [v].

Definition read_source (src : source) (n : Z) : M WString (list Z) := fun s =>
  if n =? 0 then Some ([], s) else
  match src with
  | Ext m => if in_bytes m 0 n then Some (slice m 0 (Z.to_nat n), s) else None
  | Own blk off => if blk =? ws_block s then match bytes_of s off n with Some d => Some (d, s) | None => None end else None
  end.
Definition strlen (src : source) : M WString Z := fun s =>
  match src with
  | Ext m => match nul_index m with Some n => Some (n, s) | None => None end
  | Own blk off =>
      if blk =? ws_block s then
        match tail_of s off with
        | Some m => match nul_index m with Some n => Some (n, s) | None => None end
        | None => None
        end
      else None
  end.

Section Heap.
(** The allocator: whether a block of that size is there, whether it is
    another block than before, and what a new byte holds.  [forward] says that
    [memcpy] copies upwards, so that a copy to a lower overlapping address is
    still right; without it such a copy is undefined. *)
Context (has_room moves : Z -> bool) (fill : Z) (forward : bool).

Definition memmove_own (dst src n : Z) : M WString unit := let! d := lift (fun s => bytes_of s src n) in put dst d.
Definition memcpy_own (dst src n : Z) : M WString unit :=
  if (n =? 0) || (n <=? Z.abs (dst - src)) || (forward && (dst <=? src)) then memmove_own dst src n else fault.

(** ** Memory management *)

Definition String_invalidate : M WString unit :=
  modify (fun s => {| ws_buffer := None; ws_capacity := 0; ws_len := 0; ws_block := ws_block s + 1 |}).

Definition realloc (b : option (list Z)) (n : Z) : list Z :=
  take (Z.to_nat n) (default [] b) ++ replicate (Z.to_nat n - length (default [] b)) fill.
Definition String_changeBuffer (maxStrLen : Z) : M WString bool := fun s =>
  let n := u32 (maxStrLen + 1) in
  if has_room n then
    Some (true, {| ws_buffer := Some (realloc (ws_buffer s) n); ws_capacity := u16 maxStrLen; ws_len := ws_len s;
                   ws_block := if moves n then ws_block s + 1 else ws_block s |})
  else Some (false, s).

Definition String_reserve (size : Z) : M WString bool :=
  let! s := get in
  if match ws_buffer s with Some _ => size <=? ws_capacity s | None => false end then ret true else
  let! ok := String_changeBuffer size in
  if ok : bool then
    let! s := get in
    when (ws_len s =? 0) (store 0 0) ;;;
    ret true
  else ret false.

Definition String_setLength (size : Z) : M WString bool :=
  let! ok := String_reserve size in
  if negb ok then ret false else
  modify (set_len size) ;;;
  let! s := get in
  when (match ws_buffer s with Some _ => true | None => false end) (store (ws_len s) 0) ;;;
  ret true.

(** ** Copy and move *)

Definition String_copy (cstr : source) (length : Z) : M WString unit :=
  let! ok := String_reserve length in
  if negb ok then String_invalidate else
  modify (set_len length) ;;;
  let! d := read_source cstr length in
  put 0 d ;;;
  store length 0.

Definition ALIGNUP (n : Z) : Z := Z.land (u32 (n + 3)) (Z.lnot 3).
Definition String_copy_P (pstr : list Z) (length : Z) : M WString unit :=
  let length_aligned := ALIGNUP length in
  let! ok := String_reserve length_aligned in
  if negb ok then String_invalidate else
  let! d := read_source (Ext pstr) length_aligned in
  put 0 d ;;;
  store length 0 ;;;
  modify (set_len length).

Definition String_move (s rhs : WString) : WString * WString :=
  ({| ws_buffer := ws_buffer rhs; ws_capacity := ws_capacity rhs; ws_len := ws_len rhs; ws_block := ws_block rhs |},
   {| ws_buffer := None; ws_capacity := 0; ws_len := 0; ws_block := ws_block rhs + 1 |}).
Definition String_assign_move (rhs : operand) (s : WString) : WString * option WString :=
  match rhs with This => (s, None) | Other r => let '(s, r) := String_move s r in (s, Some r) end.

Definition buffer_source (r : WString) : source := Ext (default [] (ws_buffer r)).
Definition String_assign (rhs : operand) : M WString unit :=
  match rhs with
  | This => ret tt
  | Other r => match ws_buffer r with Some _ => String_copy (buffer_source r) (ws_len r) | None => String_invalidate end
  end.
Definition String_assign_cstr (cstr : option source) : M WString unit :=
  match cstr with Some c => let! n := strlen c in String_copy c n | None => String_invalidate end.

Definition String_setString (cstr : option source) (length : Z) : M WString unit :=
  match cstr with
  | Some c => let! n := (if length <? 0 then strlen c else ret length) in String_copy c n
  | None => ret tt
  end.
Definition String_setString_P (pstr : option (list Z)) (length : Z) : M WString unit :=
  match pstr with
  | Some p => let! n := (if length <? 0 then strlen (Ext p) else ret length) in String_copy_P p n
  | None => ret tt
  end.

(** The constructors start from a null string. *)
Definition construct (m : M WString unit) : option WString := snd <$> m String_null.
Definition String_cstr (cstr : option source) : option WString :=
  construct (match cstr with Some c => let! n := strlen c in String_copy c n | None => ret tt end).
Definition String_cstr_n (cstr : option source) (length : Z) : option WString :=
  construct (match cstr with Some c => String_copy c length | None => ret tt end).
Definition String_of_String (value : WString) : option WString := construct (String_assign (Other value)).
Definition String_char (c : Z) : option WString :=
  construct (let! ok := String_setLength 1 in if ok : bool then store 0 c else ret tt).
Definition assign_text (t : list Z) : M WString unit := String_assign_cstr (Some (Ext (t ++ [0]))).
Definition String_int (value base : Z) : option WString := t ← ltoa value base; construct (assign_text t).
Definition String_uint (value base : Z) : option WString := construct (assign_text (ultoa value base)).

(** ** Concatenation *)

Definition String_concat_n (cstr : option source) (length : Z) : M WString bool :=
  let! s := get in
  let newlen := u32 (ws_len s + length) in
  if length =? 0 then ret true else
  match cstr with
  | None => ret false
  | Some c =>
      let! ok := String_reserve newlen in
      if negb ok then ret false else
      let! s := get in
      let! d := read_source c length in
      put (ws_len s) d ;;;
      store newlen 0 ;;;
      modify (set_len newlen) ;;;
      ret true
  end.
(** The pointer and length fields of the argument, read before the call. *)
Definition String_concat (rhs : operand) : M WString bool :=
  match rhs with
  | Other r => String_concat_n (match ws_buffer r with Some b => Some (Ext b) | None => None end) (ws_len r)
  | This =>
      let! s := get in
      String_concat_n (match ws_buffer s with Some _ => Some (Own (ws_block s) 0) | None => None end) (ws_len s)
  end.
Definition String_concat_cstr (cstr : option source) : M WString bool :=
  match cstr with None => ret true | Some c => let! n := strlen c in String_concat_n (Some c) n end.
Definition String_concat_char (c : Z) : M WString bool := String_concat_n (Some (Ext [c; 0])) 1.
Definition concat_text (t : list Z) : M WString bool := let! n := strlen (Ext (t ++ [0])) in String_concat_n (Some (Ext (t ++ [0]))) n.
Definition String_concat_int (num : Z) : M WString bool := match ltoa num 10 with Some t => concat_text t | None => fault end.
Definition String_concat_uint (num : Z) : M WString bool := concat_text (ultoa num 10).

(** [operator +] on the left operand. *)
Definition or_invalidate (m : M WString bool) : M WString unit := let! ok := m in if negb ok then String_invalidate else ret tt.
Definition plus_String (rhs : operand) : M WString unit :=
  let! s := get in
  or_invalidate (match rhs with
    | Other r => String_concat_n (match ws_buffer r with Some b => Some (Ext b) | None => None end) (ws_len r)
    | This => String_concat_n (match ws_buffer s with Some _ => Some (Own (ws_block s) 0) | None => None end) (ws_len s)
    end).
Definition plus_cstr (cstr : option source) : M WString unit :=
  match cstr with
  | None => String_invalidate
  | Some c => or_invalidate (let! n := strlen c in String_concat_n (Some c) n)
  end.
Definition plus_char (c : Z) : M WString unit := or_invalidate (String_concat_char c).
Definition plus_int (num : Z) : M WString unit := or_invalidate (String_concat_int num).
Definition plus_uint (num : Z) : M WString unit := or_invalidate (String_concat_uint num).

(** ** Comparison *)

Definition resolve (s : WString) (r : operand) : WString := match r with Other r => r | This => s end.
Definition first_byte (s : WString) : option Z := match ws_buffer s with Some (c :: _) => Some c | _ => None end.
Definition String_compareTo (s r : WString) : option Z :=
  match ws_buffer s, ws_buffer r with
  | Some a, Some b => str_compare (fun c => c) a b
  | None, Some _ => if 0 <? ws_len r then c ← first_byte r; Some (0 - c) else Some 0
  | Some _, None => if 0 <? ws_len s then first_byte s else Some 0
  | None, None => Some 0
  end.
Definition String_equals (s s2 : WString) : option bool :=
  if negb (ws_len s =? ws_len s2) then Some false else
  a ← bytes_of s 0 (ws_len s); b ← bytes_of s2 0 (ws_len s); Some (memcmp_eq a b).
Definition String_equals_cstr (s : WString) (cstr : option (list Z)) : option bool :=
  if ws_len s =? 0 then
    match cstr with None => Some true | Some (c :: _) => Some (c =? 0) | Some [] => None end
  else
    match cstr with
    | None => c ← first_byte s; Some (c =? 0)
    | Some m =>
        cstrlen ← nul_index m;
        if negb (ws_len s =? cstrlen) then Some false else
        a ← bytes_of s 0 (ws_len s); Some (memcmp_eq a (take (Z.to_nat (ws_len s)) m))
    end.
(** A counted flash string and its length. *)
Definition String_equals_flash (s : WString) (fstr : list Z) : option bool :=
  if negb (ws_len s =? zlen fstr) then Some false else
  a ← bytes_of s 0 (ws_len s); Some (memcmp_eq fstr a).
Definition String_lt (s r : WString) : option bool := (fun d => d <? 0) <$> String_compareTo s r.
Definition String_gt (s r : WString) : option bool := (fun d => 0 <? d) <$> String_compareTo s r.
Definition String_le (s r : WString) : option bool := (fun d => d <=? 0) <$> String_compareTo s r.
Definition String_ge (s r : WString) : option bool := (fun d => 0 <=? d) <$> String_compareTo s r.

(** Comparing through a null pointer is a fault. *)
Definition String_equalsIgnoreCase_cstr (s : WString) (cstr : option (list Z)) : option bool :=
  match ws_buffer s, cstr with
  | None, None => Some true
  | Some b, Some m => (fun d => d =? 0) <$> str_compare tolower m b
  | _, _ => None
  end.
Definition String_equalsIgnoreCase (s : WString) (s2 : operand) : option bool :=
  if negb (ws_len s =? ws_len (resolve s s2)) then Some false else
  if ws_len s =? 0 then Some true else
  match s2 with This => Some true | Other r => String_equalsIgnoreCase_cstr s (ws_buffer r) end.
Definition String_equalsIgnoreCase_flash (s : WString) (fstr : list Z) : option bool :=
  if negb (ws_len s =? zlen fstr) then Some false else
  match ws_buffer s with Some b => (fun d => d =? 0) <$> str_compare tolower (fstr ++ [0]) b | None => None end.

Definition is_null (s : WString) : bool := match ws_buffer s with Some _ => false | None => true end.
Definition String_startsWith_at (s prefix : WString) (offset : Z) : option bool :=
  if (ws_len s <? u32 (offset + ws_len prefix)) || is_null s || is_null prefix then Some false else
  a ← bytes_of s offset (ws_len prefix); b ← bytes_of prefix 0 (ws_len prefix); Some (memcmp_eq a b).
Definition String_startsWith (s prefix : WString) : option bool :=
  if ws_len s <? ws_len prefix then Some false else String_startsWith_at s prefix 0.
Definition String_endsWith (s suffix : WString) : option bool :=
  if (ws_len s <? ws_len suffix) || is_null s || is_null suffix then Some false else
  a ← bytes_of s (ws_len s - ws_len suffix) (ws_len suffix); b ← bytes_of suffix 0 (ws_len suffix); Some (memcmp_eq a b).

(** ** Character access *)

Definition String_at (s : WString) (index : Z) : option Z :=
  if (ws_len s <=? index) || is_null s then Some 0 else fst <$> load index s.
Definition String_charAt (s : WString) (index : Z) : option Z := String_at s index.
Definition String_setCharAt (index c : Z) : M WString unit := let! s := get in if index <? ws_len s then store index c else ret tt.
(** A write through [operator[]]: outside the string it goes to a static byte. *)
Definition String_set_at (index c : Z) : M WString unit :=
  let! s := get in if (ws_len s <=? index) || is_null s then ret tt else store index c.

(** The destination buffer is returned. *)
Definition String_getBytes (s : WString) (buf : option (list Z)) (bufsize index : Z) : option (Z * option (list Z)) :=
  match buf with
  | None => Some (0, None)
  | Some b =>
      if bufsize =? 0 then Some (0, Some b) else
      if ws_len s <=? index then if in_bytes b 0 1 then Some (0, Some (setb b 0 0)) else None else
      let n := if ws_len s - index <? u32 (bufsize - 1) then ws_len s - index else u32 (bufsize - 1) in
      d ← bytes_of s index n;
      if in_bytes b 0 (n + 1) then Some (n, Some (splice b 0 (d ++ [0]))) else None
  end.

(** ** Search *)

Definition found_at (base : Z) (r : option Z) : Z := match r with Some i => base + i | None => -1 end.
Definition String_indexOf_char_from (s : WString) (ch fromIndex : Z) : option Z :=
  if ws_len s <=? fromIndex then Some (-1) else
  m ← bytes_of s fromIndex (ws_len s - fromIndex); Some (found_at fromIndex (memchr m ch)).
Definition String_indexOf_char (s : WString) (c : Z) : option Z := String_indexOf_char_from s c 0.
Definition String_indexOf_from (s s2 : WString) (fromIndex : Z) : option Z :=
  if ws_len s <=? fromIndex then Some (-1) else
  m ← bytes_of s fromIndex (ws_len s - fromIndex); f ← bytes_of s2 0 (ws_len s2); Some (found_at fromIndex (memmem m f)).
Definition String_indexOf (s s2 : WString) : option Z := String_indexOf_from s s2 0.

(** The terminator is put behind [fromIndex] for the search and taken back. *)
Definition String_lastIndexOf_char_from (ch fromIndex : Z) : M WString Z :=
  let! s := get in
  if ws_len s <=? fromIndex then ret (-1) else
  let! tempchar := load (fromIndex + 1) in
  store (fromIndex + 1) 0 ;;;
  let! temp := lift (fun s => m ← tail_of s 0; strrchr m ch) in
  store (fromIndex + 1) tempchar ;;;
  ret (match temp with Some i => i | None => -1 end).
Definition String_lastIndexOf_char (theChar : Z) : M WString Z :=
  let! s := get in String_lastIndexOf_char_from theChar (u32 (ws_len s - 1)).

Fixpoint lastIndexOf_loop (fuel : nat) (s : WString) (f : list Z) (fromIndex p found : Z) : option Z :=
  match fuel with
  | O => None
  | S fuel =>
      if negb (p <=? fromIndex) then Some found else
      m ← bytes_of s p (ws_len s - p);
      match memmem m f with
      | None => Some found
      | Some i => lastIndexOf_loop fuel s f fromIndex (p + i + 1) (if p + i <=? fromIndex then p + i else found)
      end
  end.
Definition String_lastIndexOf_from (s s2 : WString) (fromIndex : Z) : option Z :=
  if (ws_len s2 =? 0) || (ws_len s =? 0) || (ws_len s <? ws_len s2) then Some (-1) else
  let fromIndex := if ws_len s <=? fromIndex then ws_len s - 1 else fromIndex in
  f ← bytes_of s2 0 (ws_len s2);
  lastIndexOf_loop (S (Z.to_nat (ws_len s))) s f fromIndex 0 (-1).
Definition String_lastIndexOf (s s2 : WString) : option Z := String_lastIndexOf_from s s2 (u32 (ws_len s - ws_len s2)).

(** The result is a new string. *)
Definition String_substring (from to : Z) : M WString WString :=
  let! s := get in
  if is_null s then ret String_null else
  let '(from, to) := if to <? from then (to, from) else (from, to) in
  if ws_len s <? from then ret String_null else
  let to := if ws_len s <? to then ws_len s else to in
  let! temp := load to in
  store to 0 ;;;
  let! out := lift (fun s => m ← tail_of s from; construct (String_assign_cstr (Some (Ext m)))) in
  store to temp ;;;
  ret out.

(** ** Modification *)

Definition each_char_body (f : Z -> Z) (p : Z) : M WString (Z + unit) :=
  let! c := load p in
  if c =? 0 then ret (inr tt) else
  store p (f c) ;;;
  ret (inl (p + 1)).
(** The loops over a string that stop at the first NUL. *)
Definition each_char (f : Z -> Z) : M WString unit :=
  let! s := get in if is_null s then ret tt else loop (S (length (default [] (ws_buffer s)))) (each_char_body f) 0.
Definition String_replace_char (find replace : Z) : M WString unit := each_char (fun c => if c =? find then replace else c).
Definition String_toLowerCase : M WString unit := each_char tolower.
Definition String_toUpperCase : M WString unit := each_char toupper.

(** The first occurrence at or behind [readFrom], as an offset. *)
Definition find_next (f : list Z) (readFrom end_ : Z) : M WString (option Z) :=
  let! m := lift (fun s => bytes_of s readFrom (end_ - readFrom)) in
  ret ((fun i => readFrom + i) <$> memmem m f).

(** [find] and [replace] are other objects; [f] and [r] are their bytes. *)
Definition replace_same_body (f r : list Z) (end_ readFrom : Z) : M WString (Z + unit) :=
  let! foundAt := find_next f readFrom end_ in
  match foundAt with
  | None => ret (inr tt)
  | Some foundAt => put foundAt r ;;; ret (inl (foundAt + zlen r))
  end.
Definition replace_less_body (f r : list Z) (end_ : Z) (st : Z * Z) : M WString (Z * Z + Z * Z) :=
  let '(readFrom, writeTo) := st in
  let! foundAt := find_next f readFrom end_ in
  match foundAt with
  | None => ret (inr st)
  | Some foundAt =>
      let n := u32 (foundAt - readFrom) in
      memcpy_own writeTo readFrom n ;;;
      put (writeTo + n) r ;;;
      modify (fun s => set_len (ws_len s + (zlen r - zlen f)) s) ;;;
      ret (inl (foundAt + zlen f, writeTo + n + zlen r))
  end.
Definition count_body (f r : list Z) (end_ : Z) (st : Z * Z) : M WString (Z * Z + Z) :=
  let '(readFrom, size) := st in
  let! foundAt := find_next f readFrom end_ in
  match foundAt with
  | None => ret (inr size)
  | Some foundAt => ret (inl (foundAt + zlen f, u32 (size + (zlen r - zlen f))))
  end.
Definition replace_more_body (find : WString) (f r : list Z) (index : Z) : M WString (Z + unit) :=
  let! index := lift (fun s => String_lastIndexOf_from s find (u32 index)) in
  if index <? 0 then ret (inr tt) else
  let readFrom := index + zlen f in
  let! s := get in
  memmove_own (readFrom + (zlen r - zlen f)) readFrom (u32 (ws_len s - readFrom)) ;;;
  modify (fun s => set_len (ws_len s + (zlen r - zlen f)) s) ;;;
  put index r ;;;
  ret (inl (index - 1)).
(** In the last loop an index of -1 becomes 0xffffffff, which [lastIndexOf]
    reads as the end of the string. *)
Definition String_replace (find replace : WString) : M WString unit :=
  let! s := get in
  if (ws_len s =? 0) || (ws_len find =? 0) then ret tt else
  let! f := lift (fun _ => bytes_of find 0 (ws_len find)) in
  let! r := lift (fun _ => bytes_of replace 0 (ws_len replace)) in
  let diff := ws_len replace - ws_len find in
  let fuel := S (S (Z.to_nat (ws_len s))) in
  if diff =? 0 then loop fuel (replace_same_body f r (ws_len s)) 0
  else if diff <? 0 then
    let! (readFrom, writeTo) := loop fuel (replace_less_body f r (ws_len s)) (0, 0) in
    memcpy_own writeTo readFrom (ws_len s - readFrom) ;;;
    let! s := get in
    store (ws_len s) 0
  else
    let! size := loop fuel (count_body f r (ws_len s)) (0, ws_len s) in
    if size =? ws_len s then ret tt else
    let! ok := (if ws_capacity s <? size then String_changeBuffer size else ret true) in
    if negb ok then ret tt else
    loop fuel (replace_more_body find f r) (ws_len s - 1) ;;;
    let! s := get in
    store (ws_len s) 0.

Definition String_remove (index count : Z) : M WString unit :=
  let! s := get in
  if ws_len s <=? index then ret tt else
  if count <=? 0 then ret tt else
  let count := if ws_len s <? u32 (index + count) then u32 (ws_len s - index) else count in
  modify (fun s => set_len (ws_len s - count) s) ;;;
  let! s := get in
  memcpy_own index (index + count) (u32 (ws_len s - index)) ;;;
  store (ws_len s) 0.
Definition String_remove_from (index : Z) : M WString unit :=
  let! s := get in if index <? ws_len s then String_remove index (ws_len s - index) else ret tt.

Definition trim_begin_body (begin : Z) : M WString (Z + Z) :=
  let! c := load begin in ret (if isspace c then inl (begin + 1) else inr begin).
Definition trim_end_body (begin end_ : Z) : M WString (Z + Z) :=
  let! c := load end_ in ret (if isspace c && (begin <=? end_) then inl (end_ - 1) else inr end_).
Definition String_trim : M WString unit :=
  let! s := get in
  if is_null s || (ws_len s =? 0) then ret tt else
  let fuel := S (S (length (default [] (ws_buffer s)))) in
  let! begin := loop fuel trim_begin_body 0 in
  let! end_ := loop fuel (trim_end_body begin) (ws_len s - 1) in
  modify (set_len (end_ + 1 - begin)) ;;;
  let! s := get in
  when (0 <? begin) (memmove_own 0 begin (ws_len s)) ;;;
  store (ws_len s) 0.

Definition String_toInt (s : WString) : Z := match ws_buffer s with Some b => atoi b | None => 0 end.
End Heap.

(** ** Access by splitting the buffer *)

Lemma in_bytes_true b off n : 0 <= off -> 0 <= n -> off + n <= zlen b -> in_bytes b off n = true.
Proof. intros. unfold in_bytes. rewrite !andb_true_iff, !Z.leb_le. lia. Qed.

Lemma set_bytes_id s b : ws_buffer s = Some b -> set_bytes b s = s.
Proof. destruct s. cbn. by intros ->. Qed.

Lemma splice_middle (a old c d : list Z) : length old = length d -> splice (a ++ old ++ c) (length a) d = a ++ d ++ c.
Proof.
  intros E. unfold splice. rewrite take_app_length. do 2 f_equal. rewrite <- E, app_assoc, <- length_app. apply drop_app_length.
Qed.

Lemma put_middle s (a old c d : list Z) off :
  ws_buffer s = Some (a ++ old ++ c) -> zlen old = zlen d -> off = zlen a -> put off d s = Some (tt, set_bytes (a ++ d ++ c) s).
Proof.
  intros Hb E ->. unfold put. destruct (Z.eqb_spec (zlen d) 0) as [H0|H0].
  - assert (d = []) as -> by by apply zlen_zero. rewrite (zlen_zero old) in Hb by lia. by rewrite (set_bytes_id s) by done.
  - pose proof (zlen_nonneg a). pose proof (zlen_nonneg c). pose proof (zlen_nonneg d).
    rewrite Hb, in_bytes_true by (rewrite ?zlen_app; lia). do 3 f_equal.
    replace (Z.to_nat (zlen a)) with (length a) by (unfold zlen; lia). apply splice_middle. unfold zlen in E. lia.
Qed.

Lemma bytes_middle s (a m c : list Z) off n :
  ws_buffer s = Some (a ++ m ++ c) -> off = zlen a -> n = zlen m -> bytes_of s off n = Some m.
Proof.
  intros Hb -> ->. unfold bytes_of. destruct (Z.eqb_spec (zlen m) 0) as [H0|H0]; [by rewrite (zlen_zero m)|].
  pose proof (zlen_nonneg a). pose proof (zlen_nonneg c). pose proof (zlen_nonneg m).
  rewrite Hb, in_bytes_true by (rewrite ?zlen_app; lia). f_equal. unfold slice, zlen. rewrite !Nat2Z.id, drop_app_length.
  apply take_app_length.
Qed.

Lemma load_middle s (a c : list Z) x i : ws_buffer s = Some (a ++ x :: c) -> i = zlen a -> load i s = Some (x, s).
Proof.
  intros Hb ->. unfold load. pose proof (zlen_nonneg a). pose proof (zlen_nonneg c).
  rewrite Hb, in_bytes_true by (rewrite ?zlen_app, ?zlen_cons; lia). rewrite getb_app_r by lia. by rewrite Z.sub_diag.
Qed.

Lemma store_middle s (a c : list Z) x v i : ws_buffer s = Some (a ++ x :: c) -> i = zlen a -> store i v s = Some (tt, set_bytes (a ++ v :: c) s).
Proof. intros Hb Hi. by apply (put_middle s a [x] c [v]). Qed.

Lemma tail_middle s (a c : list Z) off : ws_buffer s = Some (a ++ c) -> off = zlen a -> tail_of s off = Some c.
Proof.
  intros Hb ->. unfold tail_of. pose proof (zlen_nonneg a). pose proof (zlen_nonneg c).
  rewrite Hb, in_bytes_true by (rewrite ?zlen_app; lia). unfold zlen. by rewrite Nat2Z.id, drop_app_length.
Qed.

(** ** What an object stands for

    A null string, or a sequence of bytes with a terminator behind it in a
    block one byte larger than the capacity. *)
Definition ws_rep (s : WString) (c : option (list Z)) : Prop :=
  match c with
  | None => ws_buffer s = None /\ ws_capacity s = 0 /\ ws_len s = 0
  | Some l => ws_len s = zlen l /\ ws_capacity s < 2 ^ 16 /\
              exists rest, ws_buffer s = Some (l ++ 0 :: rest) /\ ws_capacity s = zlen l + zlen rest
  end.

Lemma rep_intro b cap len blk l rest :
  b = l ++ 0 :: rest -> len = zlen l -> cap = zlen l + zlen rest -> cap < 2 ^ 16 ->
  ws_rep {| ws_buffer := Some b; ws_capacity := cap; ws_len := len; ws_block := blk |} (Some l).
Proof. intros -> -> -> H. split; [done|]. split; [done|]. by exists rest. Qed.

Lemma rep_len s c : ws_rep s c -> ws_len s = zlen (default [] c).
Proof. by destruct c as [l|]; [intros (? & _)|intros (_ & _ & ?)]. Qed.

Lemma rep_small s c : ws_rep s c -> 0 <= ws_len s <= ws_capacity s /\ ws_capacity s < 2 ^ 16.
Proof.
  destruct c as [l|].
  - intros (? & ? & rest & _ & ?). pose proof (zlen_nonneg l). pose proof (zlen_nonneg rest). lia.
  - intros (_ & -> & ->). lia.
Qed.

(** The bytes behind the first [len] of them: a block for more is [l ++ old ++ rest]. *)
Lemma split_rest (rest : list Z) n : 0 <= n <= zlen rest -> exists p q, rest = p ++ q /\ zlen p = n.
Proof. intros H. exists (take (Z.to_nat n) rest), (drop (Z.to_nat n) rest). split; [by rewrite take_drop|]. rewrite zlen_take. lia. Qed.
