(* ===== verification/WStringSpec.v ===== *)
(** * The String class: correctness

    The operations of [WString] implement byte sequences: a specification
    over [option (list Z)], where a null string is [None], and a refinement
    theorem for sequences of operations; [replace] against a leftmost
    replacement; numbers through text and back. *)

From S2P Require Import Prelude StringUtil WString.

(** ** Reference definitions on byte sequences *)

(** The text up to the first NUL, which most of the C library sees. *)
Fixpoint cstr (l : list Z) : list Z := match l with [] => [] | c :: l => if c =? 0 then [] else c :: cstr l end.
Definition cstr_map (f : Z -> Z) (l : list Z) : list Z := (f <$> cstr l) ++ drop (length (cstr l)) l.
(** Texts in order of their first different character. *)
Fixpoint text_compare (f : Z -> Z) (a b : list Z) : Z :=
  match a, b with
  | [], [] => 0
  | [], y :: _ => - f y
  | x :: _, [] => f x
  | x :: a, y :: b => if f x =? f y then text_compare f a b else f x - f y
  end.
Fixpoint last_index (c : Z) (l : list Z) : option Z :=
  match l with
  | [] => None
  | x :: l => match last_index c l with Some i => Some (i + 1) | None => if x =? c then Some 0 else None end
  end.
(** The last occurrence of [f] that starts at [n] or before. *)
Fixpoint last_occ (f l : list Z) (n : nat) : Z :=
  if prefixb f (drop n l) then Z.of_nat n else match n with O => -1 | S n => last_occ f l n end.
Definition trim_list (l : list Z) : list Z := rev (skip_spaces (rev (skip_spaces l))).

(** ** Lemmas on the C library *)

Lemma str_compare_app f a b r r' :
  (forall x, f x = 0 <-> x = 0) -> str_compare f (a ++ 0 :: r) (b ++ 0 :: r') = Some (text_compare f (cstr a) (cstr b)).
Proof.
  intros Hf. assert (f 0 = 0) as F0 by by apply Hf.
  assert (forall x, x <> 0 -> f x <> 0) as Fn by (intros x Hx E; by apply Hx, Hf).
  revert b. induction a as [|x a IH]; intros b; destruct b as [|y b]; cbn [str_compare cstr app text_compare].
  - by rewrite F0.
  - rewrite F0. destruct (Z.eqb_spec y 0) as [->|Ey]; [by rewrite F0|]. pose proof (Fn y Ey).
    destruct (Z.eqb_spec 0 (f y)); [lia|done].
  - rewrite F0. destruct (Z.eqb_spec x 0) as [->|Ex]; [by rewrite F0|]. pose proof (Fn x Ex).
    destruct (Z.eqb_spec (f x) 0); [lia|]. cbn. f_equal. lia.
  - destruct (Z.eqb_spec x 0) as [->|Ex]; destruct (Z.eqb_spec y 0) as [->|Ey]; rewrite ?Z.eqb_refl, ?F0; cbn [text_compare].
    + done.
    + pose proof (Fn y Ey). destruct (Z.eqb_spec 0 (f y)); [lia|done].
    + pose proof (Fn x Ex). destruct (Z.eqb_spec (f x) 0); [lia|]. f_equal. lia.
    + destruct (f x =? f y); [apply IH|done].
Qed.

Lemma cstr_nonzero l : Forall (fun c => c <> 0) (cstr l).
Proof. induction l as [|c l IH]; cbn; [constructor|]. destruct (Z.eqb_spec c 0); [constructor|by constructor]. Qed.

Lemma text_compare_zero f a b :
  (forall x, f x = 0 <-> x = 0) -> Forall (fun c => c <> 0) a -> Forall (fun c => c <> 0) b -> text_compare f a b = 0 <-> f <$> a = f <$> b.
Proof.
  intros Hf Ha. revert b. induction Ha as [|x a Hx _ IH]; intros b Hb; destruct Hb as [|y b Hy Hb]; cbn.
  - done.
  - split; [|done]. intros E. exfalso. apply Hy, Hf. lia.
  - split; [|done]. intros E. exfalso. by apply Hx, Hf.
  - destruct (Z.eqb_spec (f x) (f y)) as [E|E].
    + rewrite (IH b Hb). split; [by intros ->; rewrite E|by intros [=]].
    + split; [lia|by intros [=]].
Qed.

Lemma strrchr_app l r c : strrchr (l ++ 0 :: r) c = Some (if c =? 0 then Some (zlen (cstr l)) else last_index c (cstr l)).
Proof.
  induction l as [|x l IH]; cbn [strrchr cstr app last_index].
  - by destruct (c =? 0).
  - destruct (Z.eqb_spec x 0) as [->|Hx]; [by destruct (c =? 0)|]. rewrite IH. destruct (c =? 0).
    + rewrite zlen_cons. do 2 f_equal. lia.
    + cbn [last_index]. by destruct (last_index c (cstr l)).
Qed.

Lemma skip_spaces_app l r : skip_spaces (l ++ 0 :: r) = skip_spaces l ++ 0 :: r.
Proof. induction l as [|c l IH]; cbn; [done|]. by destruct (isspace c). Qed.

Lemma skip_atoi_app l r i : fst (skip_atoi (l ++ 0 :: r) i) = fst (skip_atoi l i).
Proof. revert i. induction l as [|c l IH]; intros i; cbn; [done|]. by destruct (is_digit c). Qed.

Lemma atoi_app l r : atoi (l ++ 0 :: r) = atoi l.
Proof.
  unfold atoi. rewrite skip_spaces_app. destruct (skip_spaces l) as [|c m]; [done|]. cbn [app].
  rewrite app_comm_cons, !skip_atoi_app. done.
Qed.

Lemma skip_spaces_split l : exists sp, l = sp ++ skip_spaces l /\ Forall (fun c => isspace c = true) sp /\
  (skip_spaces l = [] \/ exists c m, skip_spaces l = c :: m /\ isspace c = false).
Proof.
  induction l as [|c l (sp & E & Hs & Hh)]; cbn; [exists []; by eauto|]. destruct (isspace c) eqn:Ec.
  - exists (c :: sp). cbn. rewrite <- E. eauto.
  - exists []. split; [done|]. split; [constructor|]. right. eauto.
Qed.

(** *** Occurrences *)

Lemma memmem_first m f : match memmem m f with
  | Some i => 0 <= i <= zlen m /\ prefixb f (drop (Z.to_nat i) m) = true /\ forall j : nat, Z.of_nat j < i -> prefixb f (drop j m) = false
  | None => forall j, prefixb f (drop j m) = false
  end.
Proof.
  induction m as [|x m IH]; cbn [memmem].
  - destruct (prefixb f []) eqn:E; [split; [done|]; split; [done|lia]|]. intros j. by rewrite drop_nil.
  - destruct (prefixb f (x :: m)) eqn:E.
    + pose proof (zlen_nonneg (x :: m)). cbn. split; [lia|]. split; [done|lia].
    + destruct (memmem m f) as [i|]; cbn.
      * destruct IH as (Hi & Ho & Hb). rewrite zlen_cons. split; [lia|]. replace (Z.to_nat (Z.succ i)) with (S (Z.to_nat i)) by lia.
        split; [done|]. intros [|j] Hj; [done|]. cbn. apply Hb. lia.
      * intros [|j]; [done|]. apply IH.
Qed.

Lemma last_occ_spec f l n :
  (last_occ f l n = -1 /\ forall j, (j <= n)%nat -> prefixb f (drop j l) = false) \/
  exists i, last_occ f l n = Z.of_nat i /\ (i <= n)%nat /\ prefixb f (drop i l) = true /\ forall j, (i < j <= n)%nat -> prefixb f (drop j l) = false.
Proof.
  induction n as [|n IH]; cbn [last_occ]; destruct (prefixb f (drop _ l)) eqn:E.
  - right. exists 0%nat. split; [done|]. split; [done|]. split; [done|lia].
  - left. split; [done|]. intros j Hj. by replace j with 0%nat by lia.
  - right. exists (S n). split; [done|]. split; [done|]. split; [done|lia].
  - destruct IH as [[-> H]|(i & -> & Hi & Ho & H)]; [left|right; exists i].
    + split; [done|]. intros j Hj. destruct (decide (j = S n)) as [->|]; [done|]. apply H. lia.
    + split; [done|]. split; [lia|]. split; [done|]. intros j Hj. destruct (decide (j = S n)) as [->|]; [done|]. apply H. lia.
Qed.

Lemma last_occ_unique f l n r :
  (r = -1 /\ forall j, (j <= n)%nat -> prefixb f (drop j l) = false) \/
  (exists i, r = Z.of_nat i /\ (i <= n)%nat /\ prefixb f (drop i l) = true /\ forall j, (i < j <= n)%nat -> prefixb f (drop j l) = false) ->
  r = last_occ f l n.
Proof.
  intros Hr. destruct Hr as [[-> H]|(i & -> & Hi & Ho & H)]; destruct (last_occ_spec f l n) as [[-> H']|(i' & -> & Hi' & Ho' & H')].
  - done.
  - rewrite H in Ho'; [done|lia].
  - rewrite H' in Ho; [done|lia].
  - f_equal. destruct (decide (i < i')%nat); [rewrite H in Ho'; [done|lia]|]. destruct (decide (i' < i)%nat); [rewrite H' in Ho; [done|lia]|lia].
Qed.

Section Heap.
Context (has_room moves : Z -> bool) (fill : Z) (forward : bool).

(** ** Memory management *)

Lemma realloc_grow (b : list Z) n : zlen b <= n -> realloc fill (Some b) n = b ++ replicate (Z.to_nat n - length b) fill.
Proof. intros. unfold realloc. cbn. rewrite take_ge; [done|]. unfold zlen in *. lia. Qed.

Lemma changeBuffer_spec s l n (Q : bool -> WString -> Prop) :
  ws_rep s (Some l) -> ws_capacity s <= n < 2 ^ 16 ->
  (has_room (n + 1) = true ->
   forall s', ws_rep s' (Some l) -> ws_capacity s' = n -> ws_block s' = (if moves (n + 1) then ws_block s + 1 else ws_block s) -> Q true s') ->
  (has_room (n + 1) = false -> Q false s) -> wp (String_changeBuffer has_room moves fill n) Q s.
Proof.
  intros (Hlen & Hcap & rest & Hb & Ec) Hn Hok Hno. pose proof (zlen_nonneg l). pose proof (zlen_nonneg rest).
  unfold wp, String_changeBuffer. rewrite u32_small by (unfold is_u32; lia). destruct (has_room (n + 1)); [|by apply Hno].
  apply Hok; [done| |cbn; apply u16_small; lia|done].
  rewrite u16_small by lia. rewrite Hb, realloc_grow by (rewrite zlen_app, zlen_cons; lia).
  eapply (rep_intro _ _ _ _ _ (rest ++ replicate _ fill)); [by rewrite <- app_assoc|done| |lia].
  rewrite zlen_app, zlen_replicate, length_app. cbn [length]. unfold zlen in *. lia.
Qed.

Definition same_block (s s' : WString) : Prop := (forall n, moves n = false) -> ws_block s' = ws_block s.

Lemma reserve_spec s c n (Q : bool -> WString -> Prop) :
  ws_rep s c -> 0 <= n < 2 ^ 16 ->
  (forall s', ws_rep s' (Some (default [] c)) -> n <= ws_capacity s' -> same_block s s' -> Q true s') ->
  (forall m, has_room m = false -> Q false s) -> wp (String_reserve has_room moves fill n) Q s.
Proof.
  intros Hr Hn Hok Hno. unfold String_reserve. wp_step. wp_step. destruct c as [l|].
  - destruct Hr as (Hlen & Hcap & rest & Hb & Ec). rewrite Hb. destruct (Z.leb_spec n (ws_capacity s)).
    + apply wp_ret. apply Hok; [|lia|by intros _]. split; [done|]. split; [done|]. by exists rest.
    + wp_step. eapply changeBuffer_spec; [split; [done|]; split; [done|]; by exists rest|lia| |].
      * intros _ s' Hr' Hc' Hblk. cbv iota. wp_step. wp_step. wp_step. assert (same_block s s') as Hs by (intros Hm; by rewrite Hblk, Hm).
        pose proof Hr' as (Hlen' & Hcap' & rest' & Hb' & Ec'). destruct (Z.eqb_spec (ws_len s') 0) as [E|E].
        -- unfold when. assert (l = []) as -> by (apply zlen_zero; lia).
           eapply wp_exact; [by apply (store_middle s' [] rest' 0)|]. apply wp_ret. apply Hok; [|cbn; lia|done].
           by rewrite set_bytes_id.
        -- unfold when. apply wp_ret, wp_ret. apply Hok; [done|lia|done].
      * intros Hf. apply wp_ret. by eapply Hno.
  - destruct Hr as (Hb & Hc & Hl). rewrite Hb. wp_step.
    assert (u32 (n + 1) = n + 1) as En by (apply u32_small; unfold is_u32; lia).
    destruct (has_room (n + 1)) eqn:Hf;
      [|eapply wp_exact; [unfold String_changeBuffer; by rewrite En, Hf|]; by eapply Hno].
    eapply wp_exact; [unfold String_changeBuffer; by rewrite En, Hf|]. cbv iota. wp_step. wp_step. wp_step. cbn [ws_len]. rewrite Hl. cbn [Z.eqb when].
    rewrite Hb. unfold realloc. cbn [default from_option]. rewrite take_nil. cbn [app length]. rewrite Nat.sub_0_r.
    replace (Z.to_nat (n + 1)) with (S (Z.to_nat n)) by lia. cbn [replicate id].
    eapply wp_exact; [by apply (store_middle _ [] (replicate (Z.to_nat n) fill) fill)|]. apply wp_ret. rewrite u16_small by lia.
    apply Hok; cbn; [|lia|].
    + split; [done|]. split; [cbn; lia|]. eexists. split; [done|]. cbn. rewrite zlen_replicate. change (zlen []) with 0. lia.
    + intros Hm. cbn. by rewrite Hm.
Qed.

(** A text and its terminator written behind [a]. *)
Lemma split_hole (q : list Z) n : 0 <= n < zlen q -> exists p x rest, q = p ++ x :: rest /\ zlen p = n /\ zlen rest = zlen q - n - 1.
Proof.
  intros H. destruct (split_rest q n) as (p & r & -> & Hp); [lia|]. rewrite zlen_app in *.
  destruct r as [|x r]; [change (zlen []) with 0 in H; lia|]. exists p, x, r. rewrite zlen_cons. split; [done|]. lia.
Qed.

Lemma wp_put_text s a q d off {A} (k : M WString A) (Q : A -> WString -> Prop) :
  ws_buffer s = Some (a ++ q) -> off = zlen a -> zlen d < zlen q ->
  (forall x rest, zlen rest = zlen q - zlen d - 1 -> wp k Q (set_bytes (a ++ d ++ x :: rest) s)) -> wp (put off d ;;; k) Q s.
Proof.
  intros Hb -> Hd HQ. pose proof (zlen_nonneg d). destruct (split_hole q (zlen d)) as (p & x & rest & -> & Hp & Hr); [lia|].
  apply wp_bind. eapply wp_exact; [by apply (put_middle s a p (x :: rest) d)|]. by apply HQ.
Qed.

(** ** Arguments *)

Lemma cstr_split l rest : exists r, l ++ 0 :: rest = cstr l ++ 0 :: r.
Proof.
  induction l as [|c l [r IH]]; cbn; [by exists rest|]. destruct (Z.eqb_spec c 0) as [->|]; [by eexists|]. exists r. cbn. by rewrite IH.
Qed.

Lemma nul_index_app l rest : nul_index (l ++ 0 :: rest) = Some (zlen (cstr l)).
Proof.
  induction l as [|c l IH]; cbn; [done|]. destruct (c =? 0); [done|]. rewrite IH. cbn. rewrite zlen_cons. f_equal. lia.
Qed.

Lemma cstr_id t : Forall (fun c => c <> 0) t -> cstr t = t.
Proof. induction 1 as [|c t Hc _ IH]; cbn; [done|]. destruct (Z.eqb_spec c 0); [lia|]. by rewrite IH. Qed.

Lemma strlen_ext l rest s : strlen (Ext (l ++ 0 :: rest)) s = Some (zlen (cstr l), s).
Proof. unfold strlen. by rewrite nul_index_app. Qed.

Lemma read_ext d r s n : n = zlen d -> read_source (Ext (d ++ r)) n s = Some (d, s).
Proof.
  intros ->. unfold read_source. destruct (Z.eqb_spec (zlen d) 0) as [E|E]; [by rewrite (zlen_zero d)|].
  pose proof (zlen_nonneg d). pose proof (zlen_nonneg r). rewrite in_bytes_true by (rewrite ?zlen_app; lia).
  unfold slice, zlen. by rewrite Nat2Z.id, drop_0, take_app_length.
Qed.

(** What an operation leaves: the result asked for, or, when the allocator has
    refused a block, the other one. *)
Definition outcome {A} (good bad : A * option (list Z)) (a : A) (s : WString) : Prop :=
  (a = fst good /\ ws_rep s (snd good)) \/ ((exists m, has_room m = false) /\ a = fst bad /\ ws_rep s (snd bad)).

Lemma outcome_good {A} (a : A) c bad s : ws_rep s c -> outcome (a, c) bad a s.
Proof. by left. Qed.

(** ** Copy and concatenation *)

Lemma invalidate_rep s : ws_rep {| ws_buffer := None; ws_capacity := 0; ws_len := 0; ws_block := ws_block s + 1 |} None.
Proof. done. Qed.

Lemma rep_buffer s l : ws_rep s (Some l) -> exists q, ws_buffer s = Some q /\ zlen q = ws_capacity s + 1 /\ 0 <= ws_capacity s < 2 ^ 16.
Proof.
  intros (? & ? & rest & ? & ?). pose proof (zlen_nonneg l). pose proof (zlen_nonneg rest). eexists. split; [done|].
  rewrite zlen_app, zlen_cons. lia.
Qed.

Lemma copy_spec s c d r n :
  ws_rep s c -> n = zlen d -> n < 2 ^ 16 ->
  wp (String_copy has_room moves fill (Ext (d ++ r)) n) (outcome (tt, Some d) (tt, None)) s.
Proof.
  intros Hr -> Hd. pose proof (zlen_nonneg d). unfold String_copy. wp_step. eapply reserve_spec; [done|lia| |].
  - intros s' Hr' Hcap _. cbv iota. cbn [negb]. destruct (rep_buffer _ _ Hr') as (q & Hb & Hq & Hc). wp_step. wp_step. wp_step.
    eapply wp_exact; [by apply read_ext|]. eapply (wp_put_text _ [] q); [exact Hb|done|lia|]. intros x rest Hx.
    eapply wp_exact; [by apply (store_middle _ d rest x)|]. left. split; [done|].
    apply (rep_intro _ _ _ _ _ rest); cbn; [done|apply u16_small; lia|lia|lia].
  - intros m Hm. cbn [negb]. right. split; [by exists m|]. split; [done|]. apply invalidate_rep.
Qed.

Lemma concat_n_spec s c src d :
  ws_rep s c -> zlen (default [] c) + zlen d < 2 ^ 16 ->
  (forall s', ws_rep s' (Some (default [] c)) -> same_block s s' -> d <> [] -> read_source src (zlen d) s' = Some (d, s')) ->
  wp (String_concat_n has_room moves fill (Some src) (zlen d))
     (outcome (true, if zlen d =? 0 then c else Some (default [] c ++ d)) (false, c)) s.
Proof.
  intros Hr Hd Hsrc. pose proof (zlen_nonneg d). pose proof (zlen_nonneg (default [] c)). unfold String_concat_n. wp_step. wp_step.
  rewrite (rep_len _ _ Hr), u32_small by (unfold is_u32; lia). destruct (Z.eqb_spec (zlen d) 0) as [E|E].
  { wp_step. by left. }
  wp_step. eapply reserve_spec; [done|lia| |].
  - intros s' Hr' Hcap Hblk. cbv iota. cbn [negb]. wp_step. wp_step. wp_step. eapply wp_exact; [apply Hsrc; [done|done|]; by intros ->|].
    destruct Hr' as (Hlen & Hsm & rest & Hb & Ec). rewrite Hlen. set (l := default [] c) in *. pose proof (zlen_nonneg rest).
    eapply (wp_put_text _ l (0 :: rest)); [exact Hb|done|rewrite zlen_cons; lia|]. intros x rest' Hx. wp_step.
    eapply wp_exact; [apply (store_middle _ (l ++ d) rest' x); [cbn; by rewrite <- app_assoc|by rewrite zlen_app]|]. wp_step. wp_step. wp_step.
    left. split; [done|]. rewrite zlen_cons in Hx.
    apply (rep_intro _ _ _ _ _ rest'); cbn; rewrite ?zlen_app; [done|apply u16_small; lia|lia|lia].
  - intros m Hm. cbn [negb]. wp_step. right. split; [by exists m|]. done.
Qed.

(** ** Reading operations *)

(** The text without its terminator. *)
Definition ws_text (s : WString) (l : list Z) : Prop := ws_len s = zlen l /\ exists rest, ws_buffer s = Some (l ++ rest).
Lemma rep_text s l : ws_rep s (Some l) -> ws_text s l.
Proof. intros (? & _ & rest & ? & _). split; [done|]. by eexists. Qed.

Lemma text_bytes s l off n : ws_text s l -> 0 <= off -> 0 <= n -> off + n <= zlen l -> bytes_of s off n = Some (slice l (Z.to_nat off) (Z.to_nat n)).
Proof.
  intros (_ & rest & Hb) Ho Hn Hl. unfold slice.
  apply (bytes_middle s (take (Z.to_nat off) l) _ (drop (Z.to_nat n) (drop (Z.to_nat off) l) ++ rest)).
  - by rewrite Hb, (app_assoc (take (Z.to_nat n) _)), take_drop, app_assoc, take_drop.
  - rewrite zlen_take. lia.
  - rewrite zlen_take, zlen_drop. lia.
Qed.

Lemma text_all s l n : ws_text s l -> n = zlen l -> bytes_of s 0 n = Some l.
Proof.
  intros Ht ->. rewrite (text_bytes s l) by (done || (pose proof (zlen_nonneg l); lia)). f_equal. apply slice_all. unfold zlen. lia.
Qed.

Lemma text_from s l off : ws_text s l -> 0 <= off <= zlen l -> bytes_of s off (zlen l - off) = Some (drop (Z.to_nat off) l).
Proof.
  intros Ht Ho. rewrite (text_bytes s l) by (done || lia). f_equal. unfold slice. apply take_ge. rewrite length_drop. unfold zlen in *. lia.
Qed.

(** A null operand has no bytes. *)
Lemma rep_all s c : ws_rep s c -> bytes_of s 0 (zlen (default [] c)) = Some (default [] c).
Proof. destruct c as [l|]; intros Hr; [by apply text_all; [apply rep_text|]|done]. Qed.

Lemma compareTo_spec s r c d : ws_rep s c -> ws_rep r d ->
  String_compareTo s r = Some (text_compare (fun c => c) (cstr (default [] c)) (cstr (default [] d))).
Proof.
  intros Hs Hr. unfold String_compareTo, first_byte. destruct c as [l|], d as [m|].
  - destruct Hs as (_ & _ & rest & -> & _), Hr as (_ & _ & rest' & -> & _). by apply str_compare_app.
  - destruct Hs as (-> & _ & rest & -> & _), Hr as (-> & _). cbn [default from_option]. destruct l as [|x l]; [done|].
    rewrite zlen_cons. pose proof (zlen_nonneg l). destruct (Z.ltb_spec 0 (1 + zlen l)); [|lia]. cbn. by destruct (Z.eqb_spec x 0) as [->|].
  - destruct Hs as (-> & _), Hr as (-> & _ & rest & -> & _). cbn [default from_option]. destruct m as [|x m]; [done|].
    rewrite zlen_cons. pose proof (zlen_nonneg m). destruct (Z.ltb_spec 0 (1 + zlen m)); [|lia]. cbn. by destruct (Z.eqb_spec x 0) as [->|].
  - by destruct Hs as (-> & _), Hr as (-> & _).
Qed.

Lemma equals_spec s r c d : ws_rep s c -> ws_rep r d -> String_equals s r = Some (bool_decide (default [] c = default [] d)).
Proof.
  intros Hs Hr. unfold String_equals. rewrite (rep_len _ _ Hs), (rep_len _ _ Hr). destruct (Z.eqb_spec (zlen (default [] c)) (zlen (default [] d))) as [E|E]; cbn [negb].
  - rewrite (rep_all s c Hs). cbn. rewrite E, (rep_all r d Hr). done.
  - rewrite bool_decide_eq_false_2; [done|]. intros E'. by rewrite E' in E.
Qed.

Definition sameb (a b : list Z) : bool := bool_decide (a = b).
Lemma startsWith_at_spec s r c d off : ws_rep s c -> ws_rep r d -> 0 <= off -> off + ws_len r < 2 ^ 32 ->
  String_startsWith_at s r off =
  Some (match c, d with Some l, Some f => (off + zlen f <=? zlen l) && sameb (slice l (Z.to_nat off) (length f)) f | _, _ => false end).
Proof.
  intros Hs Hr Ho Hw. pose proof (rep_small _ _ Hr). unfold String_startsWith_at. rewrite u32_small by (unfold is_u32; lia).
  rewrite (rep_len _ _ Hs), (rep_len _ _ Hr). unfold is_null. destruct c as [l|], d as [f|].
  2,3,4: destruct Hs as [Hs1 Hs2], Hr as [Hr1 Hr2];
    try (rewrite Hs1); try (rewrite Hr1); by rewrite ?orb_true_r.
  pose proof (rep_text _ _ Hs) as Ts. pose proof (rep_text _ _ Hr) as Tr. destruct Hs as (_ & _ & q & -> & _), Hr as (_ & _ & q' & -> & _).
  cbn [default from_option]. rewrite !orb_false_r. unfold id. destruct (Z.ltb_spec (zlen l) (off + zlen f)); destruct (Z.leb_spec (off + zlen f) (zlen l)); try lia; [done|].
  pose proof (zlen_nonneg f). rewrite (text_bytes s l) by (done || lia). cbn. rewrite (text_all r f) by done. cbn. unfold zlen. by rewrite Nat2Z.id.
Qed.

Lemma endsWith_spec s r c d : ws_rep s c -> ws_rep r d ->
  String_endsWith s r =
  Some (match c, d with Some l, Some f => (zlen f <=? zlen l) && sameb (drop (length l - length f) l) f | _, _ => false end).
Proof.
  intros Hs Hr. unfold String_endsWith. rewrite (rep_len _ _ Hs), (rep_len _ _ Hr). unfold is_null. destruct c as [l|], d as [f|].
  2,3,4: destruct Hs as [Hs1 Hs2], Hr as [Hr1 Hr2];
    try (rewrite Hs1); try (rewrite Hr1); by rewrite ?orb_true_r.
  pose proof (rep_text _ _ Hs) as Ts. pose proof (rep_text _ _ Hr) as Tr. destruct Hs as (_ & _ & q & -> & _), Hr as (_ & _ & q' & -> & _).
  cbn [default from_option]. rewrite !orb_false_r. unfold id. destruct (Z.ltb_spec (zlen l) (zlen f)); destruct (Z.leb_spec (zlen f) (zlen l)); try lia; [done|].
  pose proof (zlen_nonneg f). rewrite (text_bytes s l) by (done || lia). cbn. rewrite (text_all r f) by done. cbn. f_equal. unfold sameb, memcmp_eq.
  replace (Z.to_nat (zlen l - zlen f)) with (length l - length f)%nat by (unfold zlen; lia).
  unfold slice. by rewrite take_ge by (rewrite length_drop; unfold zlen in *; lia).
Qed.

Lemma at_spec s c i : ws_rep s c -> 0 <= i -> String_at s i = Some (default 0 (default [] c !! Z.to_nat i)).
Proof.
  intros Hs Hi. unfold String_at. rewrite (rep_len _ _ Hs). destruct (Z.leb_spec (zlen (default [] c)) i) as [H|H].
  - cbn [orb]. rewrite lookup_ge_None_2; [done|]. unfold zlen in *. lia.
  - destruct c as [l|]; [|change (zlen (default [] None)) with 0 in H; lia]. destruct Hs as (_ & _ & rest & Hb & _). unfold is_null. rewrite Hb. cbn [orb].
    cbn [default from_option] in *. unfold id in *. destruct (lookup_lt_is_Some_2 l (Z.to_nat i)) as [x Hx]; [unfold zlen in *; lia|]. rewrite Hx. cbn.
    rewrite (load_middle s (take (Z.to_nat i) l) (drop (S (Z.to_nat i)) l ++ 0 :: rest) x); [done| |].
    + by rewrite Hb, app_comm_cons, app_assoc, take_drop_middle.
    + rewrite zlen_take. lia.
Qed.

Lemma indexOf_char_spec s c ch from : ws_rep s c -> 0 <= from ->
  String_indexOf_char_from s ch from = Some (found_at from (memchr (drop (Z.to_nat from) (default [] c)) ch)).
Proof.
  intros Hs Hf. unfold String_indexOf_char_from. rewrite (rep_len _ _ Hs). destruct (Z.leb_spec (zlen (default [] c)) from) as [H|H].
  - rewrite drop_ge; [done|]. unfold zlen in *. lia.
  - destruct c as [l|]; [|change (zlen (default [] None)) with 0 in H; lia]. cbn [default from_option] in *. unfold id in *.
    rewrite (text_from s l) by (first [by apply rep_text|lia]). done.
Qed.

Lemma indexOf_spec s r c d from : ws_rep s c -> ws_rep r d -> 0 <= from < zlen (default [] c) ->
  String_indexOf_from s r from = Some (found_at from (memmem (drop (Z.to_nat from) (default [] c)) (default [] d))).
Proof.
  intros Hs Hr Hf. unfold String_indexOf_from. rewrite (rep_len _ _ Hs), (rep_len _ _ Hr).
  destruct (Z.leb_spec (zlen (default [] c)) from); [lia|]. destruct c as [l|]; [|change (zlen (default [] None)) with 0 in Hf; lia].
  cbn [default from_option] in *. unfold id in *. rewrite (text_from s l) by (first [by apply rep_text|lia]). cbn.
  pose proof (rep_all _ _ Hr) as E. cbn in E. unfold id in E. by rewrite E.
Qed.

Lemma toInt_spec s c : ws_rep s c -> String_toInt s = atoi (default [] c).
Proof. destruct c as [l|]; unfold String_toInt; [intros (_ & _ & rest & -> & _); apply atoi_app|by intros (-> & _)]. Qed.

(** *** The last occurrence *)

Lemma prefixb_length f m : prefixb f m = true -> zlen f <= zlen m.
Proof.
  revert m. induction f as [|x f IH]; intros m; cbn; [intros _; apply zlen_nonneg|]. destruct m as [|y m]; [done|].
  intros [_ H]%andb_true_iff. rewrite !zlen_cons. specialize (IH _ H). lia.
Qed.

Lemma lastIndexOf_loop_spec s l f from fuel : forall p found,
  ws_text s l -> 0 <= from < zlen l -> 0 <= p <= from + 1 ->
  ((found = -1 /\ forall j, Z.of_nat j < p -> prefixb f (drop j l) = false) \/
   (exists i, found = Z.of_nat i /\ Z.of_nat i < p /\ prefixb f (drop i l) = true /\
              forall j, Z.of_nat i < Z.of_nat j < p -> prefixb f (drop j l) = false)) ->
  (Z.to_nat (from + 1 - p) < fuel)%nat ->
  lastIndexOf_loop fuel s f from p found = Some (last_occ f l (Z.to_nat from)).
Proof.
  induction fuel as [|fuel IH]; intros p found Ht Hfrom Hp Hfound Hf; [lia|]. cbn [lastIndexOf_loop].
  assert (forall q, 0 <= q -> p <= q -> (forall j, p <= Z.of_nat j < q -> prefixb f (drop j l) = false) -> from < q -> found = last_occ f l (Z.to_nat from)) as Hdone.
  { intros q Hq Hpq Hgap Hlt. apply last_occ_unique. destruct Hfound as [[-> Hn]|(k & -> & Hk & Hok & Hn)]; [left|right; exists k].
    - split; [done|]. intros j Hj. destruct (decide (Z.of_nat j < p)); [by apply Hn|apply Hgap; lia].
    - split; [done|]. split; [lia|]. split; [done|]. intros j Hj. destruct (decide (Z.of_nat j < p)); [apply Hn; lia|apply Hgap; lia]. }
  destruct (Z.leb_spec p from) as [Hle|Hgt]; cbn [negb]; [|f_equal; apply (Hdone p); [lia|lia|intros j Hj; lia|lia]].
  pose proof Ht as (-> & _). rewrite (text_from s l) by (done || lia). cbn. pose proof (memmem_first (drop (Z.to_nat p) l) f) as Hm.
  destruct (memmem (drop (Z.to_nat p) l) f) as [i|].
  - destruct Hm as (Hi & Ho & Hb). rewrite drop_drop in Ho.
    assert (forall j, p <= Z.of_nat j < p + i -> prefixb f (drop j l) = false) as Hgap.
    { intros j Hj. specialize (Hb (j - Z.to_nat p)%nat). rewrite drop_drop in Hb. replace (Z.to_nat p + (j - Z.to_nat p))%nat with j in Hb by lia. apply Hb. lia. }
    replace (Z.to_nat p + Z.to_nat i)%nat with (Z.to_nat (p + i)) in Ho by lia. destruct (Z.leb_spec (p + i) from) as [H|H].
    + apply IH; [done|done|lia| |lia]. right. exists (Z.to_nat (p + i)). split; [lia|]. split; [lia|]. split; [done|]. intros j Hj. lia.
    + destruct fuel as [|fuel]; [lia|]. cbn [lastIndexOf_loop]. destruct (Z.leb_spec (p + i + 1) from); [lia|]. cbn [negb].
      f_equal. apply (Hdone (p + i)); [lia|lia|done|lia].
  - f_equal. apply (Hdone (from + 1)); [lia|lia| |lia]. intros j Hj. specialize (Hm (j - Z.to_nat p)%nat). rewrite drop_drop in Hm.
    by replace (Z.to_nat p + (j - Z.to_nat p))%nat with j in Hm by lia.
Qed.

(** What [lastIndexOf] answers for a text [l] and a nonempty [f]. *)
Definition last_from (l f : list Z) (from : Z) : Z :=
  if (zlen f =? 0) || (zlen l =? 0) || (zlen l <? zlen f) then -1 else last_occ f l (Z.to_nat (if zlen l <=? from then zlen l - 1 else from)).

Lemma lastIndexOf_text s r l f from : ws_text s l -> ws_len r = zlen f -> bytes_of r 0 (zlen f) = Some f -> 0 <= from ->
  String_lastIndexOf_from s r from = Some (last_from l f from).
Proof.
  intros Ht Hr Hf Hfrom. unfold String_lastIndexOf_from, last_from. pose proof Ht as (-> & _). rewrite Hr. destruct (_ || _) eqn:E; [done|].
  rewrite !orb_false_iff, !Z.eqb_neq, Z.ltb_ge in E. rewrite Hf. cbn [mbind option_bind]. pose proof (zlen_nonneg l).
  set (k := if zlen l <=? from then zlen l - 1 else from). assert (0 <= k < zlen l) as Hk by (unfold k; destruct (Z.leb_spec (zlen l) from); lia).
  apply lastIndexOf_loop_spec; [done|done|lia| |lia]. left. split; [done|lia].
Qed.

Lemma lastIndexOf_spec s r c d from : ws_rep s c -> ws_rep r d -> 0 <= from ->
  String_lastIndexOf_from s r from = Some (last_from (default [] c) (default [] d) from).
Proof.
  intros Hs Hr Hfrom. destruct c as [l|].
  - apply lastIndexOf_text; [by apply rep_text|by apply rep_len|by apply rep_all|done].
  - unfold String_lastIndexOf_from, last_from. rewrite (rep_len _ _ Hs). cbn. by rewrite !orb_true_r.
Qed.

(** A position of the text, as a split of the block. *)
Lemma rep_at s l i : ws_rep s (Some l) -> 0 <= i <= zlen l ->
  exists a x q, ws_buffer s = Some (a ++ x :: q) /\ zlen a = i /\ a = take (Z.to_nat i) l.
Proof.
  intros (_ & _ & rest & Hb & _) Hi. exists (take (Z.to_nat i) l). destruct (drop (Z.to_nat i) l ++ 0 :: rest) as [|x q] eqn:E.
  - by destruct (drop (Z.to_nat i) l).
  - exists x, q. rewrite <- E, app_assoc, take_drop. split; [done|]. rewrite zlen_take. split; [lia|done].
Qed.

Lemma put_back s a x q v i :
  ws_buffer s = Some (a ++ x :: q) -> i = zlen a -> store i x (set_bytes (a ++ v :: q) s) = Some (tt, s).
Proof.
  intros Hb ->. rewrite (store_middle _ a q v x) by done. do 2 f_equal. destruct s. cbn in *. unfold set_bytes. cbn. by rewrite Hb.
Qed.

Definition last_char_from (l : list Z) (ch from : Z) : Z :=
  if zlen l <=? from then -1 else
  let t := cstr (take (Z.to_nat (from + 1)) l) in
  if ch =? 0 then zlen t else match last_index ch t with Some i => i | None => -1 end.

Lemma lastIndexOf_char_spec s c ch from : ws_rep s c -> 0 <= from ->
  String_lastIndexOf_char_from ch from s = Some (last_char_from (default [] c) ch from, s).
Proof.
  intros Hs Hf. unfold String_lastIndexOf_char_from, bind, get, last_char_from. rewrite (rep_len _ _ Hs).
  destruct (Z.leb_spec (zlen (default [] c)) from) as [H|H]; [done|].
  destruct c as [l|]; [|change (zlen (default [] None)) with 0 in H; lia]. cbn [default from_option] in *. unfold id in *.
  destruct (rep_at s l (from + 1)) as (a & x & q & Hb & Ha & El); [done|lia|].
  rewrite (load_middle s a q x) by done. rewrite (store_middle s a q x) by done. unfold lift.
  rewrite (tail_middle _ [] (a ++ 0 :: q)) by done. cbn. rewrite strrchr_app. rewrite (put_back s a x q 0) by done. cbn. rewrite <- El. do 2 f_equal.
  by destruct (ch =? 0).
Qed.

(** ** Substrings and assignment of C strings *)

Lemma assign_cstr_spec s c t r : ws_rep s c -> zlen (cstr t) < 2 ^ 16 ->
  wp (String_assign_cstr has_room moves fill (Some (Ext (t ++ 0 :: r)))) (outcome (tt, Some (cstr t)) (tt, None)) s.
Proof.
  intros Hs Ht. unfold String_assign_cstr. wp_step. eapply wp_exact; [apply strlen_ext|]. destruct (cstr_split t r) as [r' ->].
  by eapply copy_spec.
Qed.

Definition substring_of (c : option (list Z)) (from to : Z) : option (list Z) :=
  match c with
  | None => None
  | Some l =>
      let a := Z.min from to in let b := Z.min (Z.max from to) (zlen l) in
      if zlen l <? a then None else Some (cstr (slice l (Z.to_nat a) (Z.to_nat (b - a))))
  end.

Lemma cstr_length l : zlen (cstr l) <= zlen l.
Proof. induction l as [|c l IH]; cbn; [done|]. destruct (c =? 0); rewrite !zlen_cons; [change (zlen []) with 0; pose proof (zlen_nonneg l); lia|lia]. Qed.

Lemma construct_spec (m : M WString unit) c : wp m (outcome (tt, c) (tt, None)) String_null ->
  exists s, construct m = Some s /\ (ws_rep s c \/ (exists n, has_room n = false) /\ ws_rep s None).
Proof.
  unfold wp, construct. destruct (m String_null) as [[[] s]|]; [|done]. intros H. exists s. split; [done|].
  destruct H as [[_ H]|(? & _ & H)]; [by left|by right].
Qed.

Lemma substring_spec s c from to : ws_rep s c -> 0 <= from -> 0 <= to ->
  exists out, String_substring has_room moves fill from to s = Some (out, s) /\
    (ws_rep out (substring_of c from to) \/ (exists n, has_room n = false) /\ ws_rep out None).
Proof.
  intros Hs Hf Ht. unfold String_substring, bind, get, is_null. destruct c as [l|].
  2:{ destruct Hs as (-> & _). eexists. split; [done|]. by left. }
  pose proof Hs as (Hlen & _ & rest & Hb & Hc). rewrite Hb. cbn [negb].
  assert ((if to <? from then (to, from) else (from, to)) = (Z.min from to, Z.max from to)) as ->.
  { destruct (Z.ltb_spec to from); f_equal; lia. }
  rewrite Hlen. cbn [substring_of]. destruct (Z.ltb_spec (zlen l) (Z.min from to)) as [H|H]; [eexists; split; [done|by left]|].
  set (a := Z.min from to) in *. replace (if zlen l <? Z.max from to then zlen l else Z.max from to) with (Z.min (Z.max from to) (zlen l))
    by (destruct (Z.ltb_spec (zlen l) (Z.max from to)); lia).
  set (b := Z.min (Z.max from to) (zlen l)). pose proof (zlen_nonneg l). assert (0 <= a <= b /\ b <= zlen l) as Hab by lia.
  destruct (rep_at s l b) as (p & x & q & Hbuf & Hp & El); [done|lia|].
  rewrite (load_middle s p q x) by done. rewrite (store_middle s p q x) by done. unfold lift.
  assert (p = take (Z.to_nat a) l ++ slice l (Z.to_nat a) (Z.to_nat (b - a))) as Ep.
  { rewrite El. unfold slice. rewrite <- (take_drop (Z.to_nat a) (take (Z.to_nat b) l)), take_take, skipn_firstn_comm.
    f_equal; [f_equal; lia|]. f_equal. lia. }
  rewrite (tail_middle _ (take (Z.to_nat a) l) (slice l (Z.to_nat a) (Z.to_nat (b - a)) ++ 0 :: q))
    by (cbn; first [by rewrite Ep, <- app_assoc|rewrite zlen_take; lia]).
  cbn [mbind option_bind]. set (t := slice _ _ _) in *.
  destruct (construct_spec (String_assign_cstr has_room moves fill (Some (Ext (t ++ 0 :: q)))) (Some (cstr t))) as (out & -> & Hout).
  { eapply (assign_cstr_spec _ None); [done|]. pose proof (cstr_length t). assert (zlen t <= zlen l); [|pose proof (rep_small _ _ Hs); lia].
    rewrite Ep in Hp. rewrite zlen_app in Hp. pose proof (zlen_nonneg (take (Z.to_nat a) l)). lia. }
  rewrite (put_back s p x q 0) by done. eexists. split; [done|]. done.
Qed.

(** ** Modification *)

Lemma each_char_loop f t : forall a r s fuel,
  Forall (fun c => c <> 0) t -> ws_buffer s = Some (a ++ t ++ 0 :: r) -> (length t < fuel)%nat ->
  loop fuel (each_char_body f) (zlen a) s = Some (tt, set_bytes (a ++ (f <$> t) ++ 0 :: r) s).
Proof.
  induction t as [|c t IH]; intros a r s fuel Ht Hb Hf; destruct fuel as [|fuel]; cbn [length] in Hf; try lia; cbn [loop]; unfold each_char_body at 1, bind.
  - rewrite (load_middle s a r 0) by done. cbn. by rewrite set_bytes_id.
  - apply Forall_cons_1 in Ht as [Hc Ht]. rewrite (load_middle s a (t ++ 0 :: r) c) by done. destruct (Z.eqb_spec c 0); [done|].
    rewrite (store_middle s a (t ++ 0 :: r) c) by done. cbn. replace (zlen a + 1) with (zlen (a ++ [f c])) by (rewrite zlen_app; done).
    rewrite (IH (a ++ [f c]) r) by (first [done|cbn; by rewrite <- app_assoc|lia]). rewrite <- app_assoc. done.
Qed.

Lemma cstr_prefix l : l = cstr l ++ drop (length (cstr l)) l.
Proof. induction l as [|c l IH]; cbn; [done|]. destruct (c =? 0); [done|]. cbn. by rewrite <- IH. Qed.

Lemma each_char_spec s c f : ws_rep s c ->
  exists s', each_char f s = Some (tt, s') /\ ws_rep s' (cstr_map f <$> c).
Proof.
  intros Hs. unfold each_char, bind, get, is_null. destruct c as [l|].
  2:{ pose proof Hs as (-> & _). by eexists. }
  destruct Hs as (Hlen & Hcap & rest & Hb & Hc). rewrite Hb. cbn [default from_option]. unfold id.
  set (u := drop (length (cstr l)) l). assert (l = cstr l ++ u) as El by apply cstr_prefix.
  assert (exists r, u ++ 0 :: rest = 0 :: r) as [r Er].
  { destruct (cstr_split l rest) as [r E]. exists r. apply (app_inv_head (cstr l)). by rewrite app_assoc, <- El. }
  pose proof (each_char_loop f (cstr l) [] r s (S (length (l ++ 0 :: rest))) (cstr_nonzero l)) as Hl. cbn [app] in Hl.
  change (zlen []) with 0 in Hl. rewrite Hl.
  - eexists. split; [done|]. rewrite <- Er. assert (zlen (cstr_map f l) = zlen l) as Ez.
    { transitivity (zlen (cstr l ++ u)); [|by rewrite <- El]. unfold cstr_map. by rewrite !zlen_app, zlen_fmap. }
    cbn [fmap option_fmap option_map]. apply (rep_intro _ _ _ _ _ rest); cbn; [unfold cstr_map; fold u; by rewrite <- app_assoc|lia|lia|done].
  - by rewrite Hb, <- Er, app_assoc, <- El.
  - pose proof (cstr_length l). rewrite length_app. unfold zlen in *. lia.
Qed.

Lemma memmove_middle s a m c off n dst :
  ws_buffer s = Some (a ++ m ++ c) -> off = zlen a -> n = zlen m -> memmove_own dst off n s = put dst m s.
Proof. intros Hb Ho Hn. unfold memmove_own, bind, lift. by rewrite (bytes_middle s a m c). Qed.

Lemma memcpy_down dst src n s : forward = true \/ n <= src - dst -> dst <= src -> memcpy_own forward dst src n s = memmove_own dst src n s.
Proof.
  intros [Hw|Hw] Hd; unfold memcpy_own; [rewrite Hw; destruct (Z.leb_spec dst src); [|lia]; by rewrite !orb_true_r|].
  destruct (Z.leb_spec n (Z.abs (dst - src))); [|lia]. by rewrite orb_true_r.
Qed.

(** Dropping the bytes [m] of a text [a ++ m ++ z]. *)
Lemma close_gap s a m z rest len :
  ws_buffer s = Some (a ++ m ++ z ++ 0 :: rest) -> ws_capacity s = zlen (a ++ m ++ z) + zlen rest -> ws_capacity s < 2 ^ 16 ->
  ws_len s = len -> len = zlen a + zlen z -> 
  exists s1, put (zlen a) z s = Some (tt, s1) /\ ws_len s1 = len /\ exists s2, store len 0 s1 = Some (tt, s2) /\ ws_rep s2 (Some (a ++ z)).
Proof.
  intros Hb Hc Hcap Hl El. rewrite !zlen_app in Hc. pose proof (zlen_nonneg a). pose proof (zlen_nonneg z). pose proof (zlen_nonneg m). pose proof (zlen_nonneg rest).
  destruct (split_hole (m ++ z ++ 0 :: rest) (zlen z)) as (p & x & r & E & Hp & Hr); [rewrite !zlen_app, zlen_cons; lia|].
  rewrite !zlen_app, zlen_cons in Hr. rewrite E in Hb. eexists. split; [by apply (put_middle s a p (x :: r) z)|]. split; [done|].
  eexists. split; [apply (store_middle _ (a ++ z) r x); [cbn; by rewrite <- app_assoc|by rewrite zlen_app, El]|].
  apply (rep_intro _ _ _ _ _ r); cbn; rewrite ?zlen_app; [done|lia|lia|lia].
Qed.

Lemma remove_spec s c i n : forward = true \/ zlen (default [] c) - (i + n) <= n -> ws_rep s c -> 0 <= i -> 0 <= n -> i + n < 2 ^ 32 ->
  exists s', String_remove forward i n s = Some (tt, s') /\
    ws_rep s' ((fun l => take (Z.to_nat i) l ++ drop (Z.to_nat (i + n)) l) <$> c).
Proof.
  intros Hfw Hs Hi Hn Hw. unfold String_remove, bind, get. pose proof (rep_small _ _ Hs) as Hsm. rewrite (rep_len _ _ Hs) in *.
  destruct (Z.leb_spec (zlen (default [] c)) i) as [H|H].
  { eexists. split; [done|]. destruct c as [l|]; [|done]. cbn in *. unfold id in *. by rewrite take_ge, drop_ge, app_nil_r by (unfold zlen in *; lia). }
  destruct c as [l|]; [|change (zlen (default [] None)) with 0 in H; lia]. cbn [default from_option fmap option_fmap option_map] in *. unfold id in *.
  destruct (Z.leb_spec n 0) as [H0|H0].
  { eexists. split; [done|]. replace (i + n) with i by lia. by rewrite take_drop. }
  rewrite u32_small by (unfold is_u32; lia). set (k := if zlen l <? i + n then u32 (zlen l - i) else n).
  assert (k = Z.min n (zlen l - i)) as Ek by (unfold k; destruct (Z.ltb_spec (zlen l) (i + n)); [rewrite u32_small by (unfold is_u32; lia)|]; lia).
  set (a := take (Z.to_nat i) l). set (m := slice l (Z.to_nat i) (Z.to_nat k)). set (z := drop (Z.to_nat (i + k)) l).
  assert (l = a ++ m ++ z) as El.
  { unfold a, m, z, slice. replace (Z.to_nat (i + k)) with (Z.to_nat i + Z.to_nat k)%nat by lia. by rewrite <- drop_drop, take_drop, take_drop. }
  assert (drop (Z.to_nat (i + n)) l = z) as ->.
  { unfold z. destruct (decide (k = n)) as [->|]; [done|]. rewrite !drop_ge by (unfold zlen in *; lia). done. }
  assert (zlen a = i) as Ha by (unfold a; rewrite zlen_take; lia).
  assert (zlen m = k) as Hm by (unfold m, slice; rewrite zlen_take, zlen_drop; lia).
  assert (zlen l = i + k + zlen z) as Hz by (rewrite El at 1; rewrite !zlen_app; lia). pose proof (zlen_nonneg z).
  destruct Hs as (Hlen & Hcap & rest & Hb & Hc). unfold modify, set_len. cbn [ws_len]. rewrite Hlen, (u16_small (zlen l - k)), u32_small by (unfold is_u32; lia).
  rewrite memcpy_down by (destruct Hfw; [by left|lia] || lia). rewrite El, <- !app_assoc in Hb.
  rewrite (memmove_middle _ (a ++ m) z (0 :: rest)) by (first [cbn; by rewrite <- app_assoc|rewrite ?zlen_app; lia]).
  destruct (close_gap (set_len (zlen l - k) s) a m z rest (zlen l - k)) as (s1 & E1 & _ & s2 & E2 & Hr);
    [done|by rewrite <- El|done|cbn; apply u16_small; lia|lia|].
  unfold set_len in E1. rewrite u16_small in E1 by lia. rewrite Ha in E1. rewrite E1, E2. eauto.
Qed.

Lemma setCharAt_spec s c i v : ws_rep s c -> 0 <= i ->
  exists s', String_setCharAt i v s = Some (tt, s') /\ ws_rep s' ((fun l => <[Z.to_nat i := v]> l) <$> c).
Proof.
  intros Hs Hi. unfold String_setCharAt, bind, get. rewrite (rep_len _ _ Hs). destruct (Z.ltb_spec i (zlen (default [] c))) as [H|H].
  - destruct c as [l|]; [|change (zlen (default [] None)) with 0 in H; lia]. cbn [default from_option fmap option_fmap option_map] in *. unfold id in *.
    destruct Hs as (Hlen & Hcap & rest & Hb & Hc).
    destruct (lookup_lt_is_Some_2 l (Z.to_nat i)) as [x Hx]; [unfold zlen in *; lia|].
    pose proof (take_drop_middle _ _ _ Hx) as El. set (a := take (Z.to_nat i) l) in *. set (z := drop (S (Z.to_nat i)) l) in *.
    assert (length a = Z.to_nat i) as Ha by (unfold a; rewrite length_take; unfold zlen in *; lia). rewrite <- El in Hb, Hlen, Hc |- *.
    rewrite (store_middle s a (z ++ 0 :: rest) x) by (first [by rewrite Hb, <- app_assoc|unfold zlen; lia]). eexists. split; [done|].
    rewrite <- (Nat.add_0_r (Z.to_nat i)), <- Ha, insert_app_r. cbn [insert list_insert].
    rewrite zlen_app, zlen_cons in Hc, Hlen. apply (rep_intro _ _ _ _ _ rest); cbn; rewrite ?zlen_app, ?zlen_cons; [by rewrite <- app_assoc|done|done|done].
  - eexists. split; [done|]. destruct c as [l|]; [|done]. cbn in *. unfold id in *. rewrite list_insert_ge by (unfold zlen in *; lia). done.
Qed.

(** Shortening; the capacity is there. *)
Lemma setLength_spec s l n : ws_rep s (Some l) -> 0 <= n <= zlen l ->
  exists s', String_setLength has_room moves fill n s = Some (true, s') /\ ws_rep s' (Some (take (Z.to_nat n) l)).
Proof.
  intros Hs Hn. pose proof (rep_small _ _ Hs) as Hsm. unfold String_setLength, String_reserve, bind, get.
  destruct (rep_at s l n) as (a & x & q & Hb & Ha & El); [done|lia|]. pose proof Hs as (Hlen & Hcap & rest & Hb' & Hc). rewrite Hb.
  rewrite Hlen in Hsm. destruct (Z.leb_spec n (ws_capacity s)); [|lia]. unfold modify, set_len. cbn. rewrite Hb. cbn. rewrite u16_small by lia.
  rewrite (store_middle _ a q x) by done. eexists. split; [done|]. rewrite <- El.
  assert (zlen (a ++ x :: q) = ws_capacity s + 1) as Ez.
  { rewrite Hb in Hb'. injection Hb' as ->. rewrite zlen_app, zlen_cons. lia. }
  rewrite zlen_app, zlen_cons in Ez. apply (rep_intro _ _ _ _ _ q); cbn; [done|lia|lia|done].
Qed.

(** *** Trimming *)

Lemma trim_begin_loop s t : forall a y r fuel,
  Forall (fun c => isspace c = true) t -> ws_buffer s = Some (a ++ t ++ y :: r) -> isspace y = false -> (length t < fuel)%nat ->
  loop fuel trim_begin_body (zlen a) s = Some (zlen a + zlen t, s).
Proof.
  induction t as [|c t IH]; intros a y r fuel Ht Hb Hy Hf; destruct fuel as [|fuel]; cbn [length] in Hf; try lia; cbn [loop]; unfold trim_begin_body at 1, bind.
  - rewrite (load_middle s a r y) by done. cbn. rewrite Hy. change (zlen []) with 0. by rewrite Z.add_0_r.
  - apply Forall_cons_1 in Ht as [Hc Ht]. rewrite (load_middle s a (t ++ y :: r) c) by done. cbn. rewrite Hc.
    replace (zlen a + 1) with (zlen (a ++ [c])) by (rewrite zlen_app; done).
    rewrite (IH (a ++ [c]) y r) by (first [done|by rewrite <- app_assoc|lia]). rewrite zlen_app, !zlen_cons. change (zlen []) with 0. do 2 f_equal. lia.
Qed.

Lemma trim_end_loop s t : forall a y r begin fuel,
  Forall (fun c => isspace c = true) t -> ws_buffer s = Some (a ++ y :: t ++ r) -> isspace y = false -> begin <= zlen a -> (length t < fuel)%nat ->
  loop fuel (trim_end_body begin) (zlen a + zlen t) s = Some (zlen a, s).
Proof.
  induction t as [|c t IH] using rev_ind; intros a y r begin fuel Ht Hb Hy Hle Hf; destruct fuel as [|fuel]; rewrite ?length_app in Hf; cbn [length] in Hf; try lia; cbn [loop]; unfold trim_end_body at 1, bind.
  - change (zlen []) with 0. rewrite Z.add_0_r, (load_middle s a r y) by done. cbn. by rewrite Hy.
  - apply Forall_app in Ht as [Ht [Hc _]%Forall_cons_1]. rewrite (load_middle s (a ++ y :: t) r c).
    2:{ by rewrite Hb, <- !app_assoc. }
    2:{ rewrite !zlen_app, !zlen_cons. change (zlen []) with 0. lia. }
    cbn. rewrite Hc, zlen_app. change (zlen [c]) with 1. pose proof (zlen_nonneg t). destruct (Z.leb_spec begin (zlen a + (zlen t + 1))); [|lia]. cbn [andb].
    replace (zlen a + (zlen t + 1) - 1) with (zlen a + zlen t) by lia. apply (IH a y (c :: r)); [done|by rewrite Hb, <- app_assoc|done|done|lia].
Qed.

Lemma isspace_0 : isspace 0 = false.
Proof. done. Qed.

(** A text is spaces, the trimmed text and spaces. *)
Lemma trim_split l : exists sp tl, l = sp ++ trim_list l ++ tl /\ Forall (fun c => isspace c = true) sp /\ Forall (fun c => isspace c = true) tl /\
  (trim_list l = [] /\ tl = [] \/
   (exists y m, trim_list l = y :: m /\ isspace y = false) /\ exists y m, trim_list l = m ++ [y] /\ isspace y = false).
Proof.
  destruct (skip_spaces_split l) as (sp & El & Hsp & Hh). unfold trim_list. set (k := skip_spaces l) in *.
  destruct (skip_spaces_split (rev k)) as (tl & Ek & Htl & Hh'). set (j := skip_spaces (rev k)) in *.
  assert (k = rev j ++ rev tl) as Ek'. { by rewrite <- rev_app_distr, <- Ek, rev_involutive. }
  exists sp, (rev tl). split; [by rewrite <- Ek'|]. split; [done|]. split; [by apply Forall_rev|].
  destruct Hh' as [Ej|(y & m & Ej & Hy)].
  - left. split; [by rewrite Ej|]. rewrite Ej in Ek'. destruct Hh as [Ek0|(c & m & Ec & Hc)].
    + rewrite Ek0 in Ek'. by destruct (rev tl).
    + exfalso. rewrite Ec in Ek'. cbn in Ek'. apply Forall_rev in Htl. rewrite <- Ek' in Htl. apply Forall_cons_1 in Htl as [H _]. congruence.
  - right. split; [|exists y, (rev m); by rewrite Ej]. destruct Hh as [Ek0|(c & m' & Ec & Hc)].
    + rewrite Ek0, Ej in Ek'. cbn in Ek'. by destruct (rev m).
    + rewrite Ej in Ek' |- *. cbn in Ek' |- *. destruct (rev m) as [|z w] eqn:Er; cbn in *; [exists y, []; split; [done|]|exists z, (w ++ [y]); split; [done|]]; congruence.
Qed.

Lemma string_trim_spec s c : ws_rep s c -> exists s', String_trim s = Some (tt, s') /\ ws_rep s' (trim_list <$> c).
Proof.
  intros Hs. unfold String_trim, bind, get, is_null. destruct c as [l|]; [|pose proof Hs as (-> & _); eexists; by split].
  pose proof (rep_small _ _ Hs) as Hsm. pose proof Hs as (Hlen & Hcap & rest & Hb & Hc). rewrite Hb, Hlen. rewrite Hlen in Hsm. cbn [orb fmap option_fmap option_map default from_option]. unfold id.
  destruct (Z.eqb_spec (zlen l) 0) as [E|E]; [assert (l = []) as -> by (by apply zlen_zero); eexists; by split|].
  destruct (trim_split l) as (sp & tl & El & Hsp & Htl & Hcase). set (k := trim_list l) in *. set (fuel := S (S (length (l ++ 0 :: rest)))).
  assert (zlen l = zlen sp + zlen k + zlen tl) as Ez by (rewrite El at 1; rewrite !zlen_app; lia).
  pose proof (zlen_nonneg sp). pose proof (zlen_nonneg k). pose proof (zlen_nonneg tl).
  assert (length l + 1 < fuel)%nat as Hfuel by (unfold fuel; rewrite length_app; cbn; lia).
  assert (loop fuel trim_begin_body 0 s = Some (zlen sp, s)) as ->.
  { assert (exists y r, l ++ 0 :: rest = sp ++ y :: r /\ isspace y = false) as (y & r & Er & Hy).
    { rewrite El, <- !app_assoc. destruct Hcase as [[-> ->]|[(y & m & -> & Hy) _]]; [by exists 0, rest|]. cbn [app]. by eexists _, _. }
    rewrite Er in Hb. apply (trim_begin_loop s sp [] y r); [done|done|done|unfold zlen in *; lia]. }
  assert (loop fuel (trim_end_body (zlen sp)) (zlen l - 1) s = Some (zlen sp + zlen k - 1, s)) as ->.
  { destruct Hcase as [[Ek Et]|[_ (y & m & Ek & Hy)]].
    - rewrite Ek, Et in *. change (zlen []) with 0 in *. destruct (rep_at s l (zlen l - 1)) as (a & x & q & Hb' & Ha & _); [done|lia|].
      unfold fuel. cbn [loop]. unfold trim_end_body at 1, bind. rewrite (load_middle s a q x) by done. cbn. destruct (Z.leb_spec (zlen sp) (zlen l - 1)); [lia|].
      rewrite andb_false_r. do 2 f_equal. lia.
    - replace (zlen l - 1) with (zlen (sp ++ m) + zlen tl) by (rewrite Ez, Ek, !zlen_app; change (zlen [y]) with 1; lia).
      replace (zlen sp + zlen k - 1) with (zlen (sp ++ m)) by (rewrite Ek, !zlen_app; change (zlen [y]) with 1; lia).
      apply (trim_end_loop s tl (sp ++ m) y (0 :: rest)); [done| |done|rewrite zlen_app; pose proof (zlen_nonneg m); lia|unfold zlen in *; lia].
      rewrite Hb, El, Ek, <- !app_assoc. done. }
  replace (zlen sp + zlen k - 1 + 1 - zlen sp) with (zlen k) by lia. unfold modify, set_len. cbn [ws_len]. rewrite u16_small by lia.
  set (s1 := {| ws_buffer := _ |}). assert (ws_buffer s1 = Some ([] ++ sp ++ k ++ tl ++ 0 :: rest)) as Hb1 by (cbn; by rewrite Hb, El, <- !app_assoc).
  assert (exists s2, when (0 <? zlen sp) (memmove_own 0 (zlen sp) (zlen k)) s1 = Some (tt, s2) /\ ws_len s2 = zlen k /\
          exists q, ws_buffer s2 = Some (k ++ q) /\ zlen q = zlen sp + zlen tl + 1 + zlen rest /\ ws_capacity s2 = ws_capacity s) as (s2 & -> & Hl2 & q & Hb2 & Hq & Hc2).
  { destruct (Z.ltb_spec 0 (zlen sp)) as [Hpos|Hzero]; cbn [when].
    - rewrite (memmove_middle _ sp k (tl ++ 0 :: rest)) by (done || lia).
      destruct (split_rest (sp ++ k ++ tl ++ 0 :: rest) (zlen k)) as (p & q & Epq & Hp); [rewrite !zlen_app, zlen_cons; pose proof (zlen_nonneg rest); lia|].
      rewrite Epq in Hb1. eexists. split; [by apply (put_middle s1 [] p q k)|]. split; [done|]. exists q. split; [done|]. split; [|done].
      apply (f_equal zlen) in Epq. rewrite !zlen_app, zlen_cons in Epq. lia.
    - rewrite (zlen_zero sp) in Hb1 by lia. exists s1. split; [done|]. split; [done|]. exists (tl ++ 0 :: rest). split; [done|]. rewrite zlen_app, zlen_cons. split; [lia|done]. }
  destruct q as [|x q]; [change (zlen []) with 0 in Hq; pose proof (zlen_nonneg rest); lia|]. rewrite zlen_cons in Hq.
  rewrite (store_middle s2 k q x) by done. eexists. split; [done|]. apply (rep_intro _ _ _ _ _ q); [done|done|lia|lia].
Qed.

(** ** Sequences of operations *)

Inductive str_op :=
| OAssign (r : WString) | OAssignCstr (t : list Z) | OReserve (n : Z) | OSetLength (n : Z)
| OConcat (r : WString) | OConcatThis | OConcatCstr (t : list Z) | OConcatChar (c : Z)
| OCompare (r : WString) | OEquals (r : WString) | OStartsWith (r : WString) (off : Z) | OEndsWith (r : WString)
| OCharAt (i : Z) | OSetCharAt (i c : Z)
| OIndexOfChar (c from : Z) | OIndexOf (r : WString) (from : Z) | OLastIndexOfChar (c from : Z) | OLastIndexOf (r : WString) (from : Z)
| OSubstring (from to : Z)
| OReplaceChar (a b : Z) | OToLower | OToUpper | ORemove (i n : Z) | OTrim | OToInt.
Inductive str_reply := RNone | RBool (b : bool) | RInt (z : Z) | RString (s : option (list Z)).

(** The bytes a string holds; the text of a reply. *)
Definition contents (s : WString) : option (list Z) := take (Z.to_nat (ws_len s)) <$> ws_buffer s.
Definition with_bool (m : M WString bool) : M WString str_reply := let! b := m in ret (RBool b).
Definition with_unit (m : M WString unit) : M WString str_reply := m ;;; ret RNone.

Definition str_exec (op : str_op) : M WString str_reply :=
  match op with
  | OAssign r => with_unit (String_assign has_room moves fill (Other r))
  | OAssignCstr t => with_unit (String_assign_cstr has_room moves fill (Some (Ext (t ++ [0]))))
  | OReserve n => with_bool (String_reserve has_room moves fill n)
  | OSetLength n => with_bool (String_setLength has_room moves fill n)
  | OConcat r => with_bool (String_concat has_room moves fill (Other r))
  | OConcatThis => with_bool (String_concat has_room moves fill This)
  | OConcatCstr t => with_bool (String_concat_cstr has_room moves fill (Some (Ext (t ++ [0]))))
  | OConcatChar c => with_bool (String_concat_char has_room moves fill c)
  | OCompare r => lift (fun s => RInt <$> String_compareTo s r)
  | OEquals r => lift (fun s => RBool <$> String_equals s r)
  | OStartsWith r off => lift (fun s => RBool <$> String_startsWith_at s r off)
  | OEndsWith r => lift (fun s => RBool <$> String_endsWith s r)
  | OCharAt i => lift (fun s => RInt <$> String_charAt s i)
  | OSetCharAt i c => with_unit (String_setCharAt i c)
  | OIndexOfChar c from => lift (fun s => RInt <$> String_indexOf_char_from s c from)
  | OIndexOf r from => lift (fun s => RInt <$> String_indexOf_from s r from)
  | OLastIndexOfChar c from => let! i := String_lastIndexOf_char_from c from in ret (RInt i)
  | OLastIndexOf r from => lift (fun s => RInt <$> String_lastIndexOf_from s r from)
  | OSubstring from to => let! out := String_substring has_room moves fill from to in ret (RString (contents out))
  | OReplaceChar a b => with_unit (String_replace_char a b)
  | OToLower => with_unit String_toLowerCase
  | OToUpper => with_unit String_toUpperCase
  | ORemove i n => with_unit (String_remove forward i n)
  | OTrim => with_unit String_trim
  | OToInt => lift (fun s => Some (RInt (String_toInt s)))
  end.

(** The same operations on byte sequences. *)
Definition str_spec (op : str_op) (c : option (list Z)) : str_reply * option (list Z) :=
  let l := default [] c in
  let text r := default [] (contents r) in
  let appended d := (RBool true, if zlen d =? 0 then c else Some (l ++ d)) in
  match op with
  | OAssign r => (RNone, contents r)
  | OAssignCstr t => (RNone, Some t)
  | OReserve _ => (RBool true, Some l)
  | OSetLength n => (RBool true, Some (take (Z.to_nat n) l))
  | OConcat r => appended (text r)
  | OConcatThis => appended l
  | OConcatCstr t => appended t
  | OConcatChar ch => (RBool true, Some (l ++ [ch]))
  | OCompare r => (RInt (text_compare (fun c => c) (cstr l) (cstr (text r))), c)
  | OEquals r => (RBool (bool_decide (l = text r)), c)
  | OStartsWith r off =>
      (RBool (match c, contents r with Some l, Some f => (off + zlen f <=? zlen l) && sameb (slice l (Z.to_nat off) (length f)) f | _, _ => false end), c)
  | OEndsWith r =>
      (RBool (match c, contents r with Some l, Some f => (zlen f <=? zlen l) && sameb (drop (length l - length f) l) f | _, _ => false end), c)
  | OCharAt i => (RInt (default 0 (l !! Z.to_nat i)), c)
  | OSetCharAt i ch => (RNone, (fun l => <[Z.to_nat i := ch]> l) <$> c)
  | OIndexOfChar ch from => (RInt (found_at from (memchr (drop (Z.to_nat from) l) ch)), c)
  | OIndexOf r from => (RInt (if zlen l <=? from then -1 else found_at from (memmem (drop (Z.to_nat from) l) (text r))), c)
  | OLastIndexOfChar ch from => (RInt (last_char_from l ch from), c)
  | OLastIndexOf r from => (RInt (last_from l (text r) from), c)
  | OSubstring from to => (RString (substring_of c from to), c)
  | OReplaceChar a b => (RNone, cstr_map (fun x => if x =? a then b else x) <$> c)
  | OToLower => (RNone, cstr_map tolower <$> c)
  | OToUpper => (RNone, cstr_map toupper <$> c)
  | ORemove i n => (RNone, (fun l => take (Z.to_nat i) l ++ drop (Z.to_nat (i + n)) l) <$> c)
  | OTrim => (RNone, trim_list <$> c)
  | OToInt => (RInt (atoi l), c)
  end.
(** What the caller sees when a block is refused: an assignment invalidates
    the string, a substring is null, everything else leaves it alone. *)
Definition str_no_memory (op : str_op) (c : option (list Z)) : str_reply * option (list Z) :=
  match op with
  | OAssign _ | OAssignCstr _ => (RNone, None)
  | OSubstring _ _ => (RString None, c)
  | _ => (RBool false, c)
  end.

Definition good (r : WString) : Prop := ws_rep r (contents r).
(** The arguments the operations are made for: lengths that fit in 16 bits,
    indices whose sums do not wrap around, C strings without a zero in them,
    and a new length that is not longer.  Bytes are removed where what is
    behind them does not overlap its new place, or where [memcpy] copies
    overlapping ranges from front to back, which C does not promise; this
    string is appended to itself only where the block does not move. *)
Definition op_ok (op : str_op) (c : option (list Z)) : Prop :=
  let l := default [] c in
  match op with
  | OAssign r | OCompare r | OEquals r | OEndsWith r => good r
  | OAssignCstr t => zlen t < 2 ^ 16 /\ Forall (fun c => c <> 0) t
  | OReserve n => 0 <= n < 2 ^ 16
  | OSetLength n => c <> None /\ 0 <= n <= zlen l
  | OConcat r => good r /\ zlen l + ws_len r < 2 ^ 16
  | OConcatThis => (forall n, moves n = false) /\ 2 * zlen l < 2 ^ 16
  | OConcatCstr t => zlen l + zlen t < 2 ^ 16 /\ Forall (fun c => c <> 0) t
  | OConcatChar _ => zlen l + 1 < 2 ^ 16
  | OStartsWith r off => good r /\ 0 <= off /\ off + ws_len r < 2 ^ 32
  | OIndexOf r from | OLastIndexOf r from => good r /\ 0 <= from
  | OCharAt i | OSetCharAt i _ | OIndexOfChar _ i | OLastIndexOfChar _ i => 0 <= i
  | OSubstring from to => 0 <= from /\ 0 <= to
  | ORemove i n => (forward = true \/ zlen l - (i + n) <= n) /\ 0 <= i /\ 0 <= n /\ i + n < 2 ^ 32
  | OReplaceChar _ _ | OToLower | OToUpper | OTrim | OToInt => True
  end.

Lemma rep_contents s c : ws_rep s c -> contents s = c.
Proof.
  unfold contents. destruct c as [l|]; [|by intros (-> & _)]. intros (-> & _ & rest & -> & _). cbn. unfold zlen.
  by rewrite Nat2Z.id, take_app_length.
Qed.

Lemma good_rep r : good r -> ws_rep r (contents r).
Proof. done. Qed.

Lemma wp_unit s m good bad : wp m (outcome (tt, good) (tt, bad)) s -> wp (with_unit m) (outcome (RNone, good) (RNone, bad)) s.
Proof. intros H. apply wp_bind. eapply wp_mono; [exact H|]. intros [] s' [[_ ?]|(? & _ & ?)]; [by left|by right]. Qed.
Lemma wp_bool s m b good b' bad :
  wp m (outcome (b, good) (b', bad)) s -> wp (with_bool m) (outcome (RBool b, good) (RBool b', bad)) s.
Proof. intros H. apply wp_bind. eapply wp_mono; [exact H|]. intros x s' [[-> ?]|(? & -> & ?)]; [by left|by right]. Qed.
Lemma wp_done s m c bad : (exists s', m s = Some (tt, s') /\ ws_rep s' c) -> wp (with_unit m) (outcome (RNone, c) bad) s.
Proof. intros (s' & E & H). apply wp_bind. eapply wp_exact; [exact E|]. by left. Qed.
Lemma wp_query s (f : WString -> option str_reply) r c bad : ws_rep s c -> f s = Some r -> wp (lift f) (outcome (r, c) bad) s.
Proof. intros H E. unfold wp, lift. rewrite E. by left. Qed.

Lemma concat_other_spec s c r : ws_rep s c -> good r -> zlen (default [] c) + ws_len r < 2 ^ 16 ->
  wp (String_concat has_room moves fill (Other r))
     (outcome (true, if zlen (default [] (contents r)) =? 0 then c else Some (default [] c ++ default [] (contents r))) (false, c)) s.
Proof.
  intros Hs Hr Hl. pose proof (rep_len _ _ Hr) as Hlen. rewrite Hlen in Hl. unfold String_concat. rewrite Hlen. destruct (contents r) as [d|] eqn:E; unfold good in Hr; rewrite E in Hr.
  - destruct Hr as (_ & _ & rest & -> & _). cbn [default from_option] in *. unfold id in *. apply concat_n_spec; [done|done|]. intros s' _ _ _. by apply read_ext.
  - destruct Hr as (-> & _). unfold String_concat_n. wp_step. wp_step. cbn. by left.
Qed.

Lemma concat_this_spec s c : ws_rep s c -> (forall n, moves n = false) -> 2 * zlen (default [] c) < 2 ^ 16 ->
  wp (String_concat has_room moves fill This)
     (outcome (true, if zlen (default [] c) =? 0 then c else Some (default [] c ++ default [] c)) (false, c)) s.
Proof.
  intros Hs Hm Hl. unfold String_concat. wp_step. wp_step. rewrite (rep_len _ _ Hs). destruct c as [l|].
  - pose proof Hs as (_ & _ & rest & Hb & _). rewrite Hb. cbn [default from_option] in *. unfold id in *. apply concat_n_spec; [done|cbn; unfold id; lia|].
    intros s' Hr' Hblk Hne. unfold read_source. rewrite (Hblk Hm), Z.eqb_refl. rewrite (text_all s' l) by (first [by apply rep_text|done]).
    destruct (Z.eqb_spec (zlen l) 0) as [E|E]; [by apply zlen_zero in E|done].
  - destruct Hs as (Hb & Hc & Hl'). rewrite Hb. unfold String_concat_n. wp_step. wp_step. cbn. by left.
Qed.

Lemma assign_spec s c r : ws_rep s c -> good r -> wp (String_assign has_room moves fill (Other r)) (outcome (tt, contents r) (tt, None)) s.
Proof.
  intros Hs Hr. unfold String_assign, buffer_source. unfold good in Hr. pose proof (rep_small _ _ Hr). destruct (contents r) as [d|].
  - destruct Hr as (Hl & Hc & rest & Hb & _). rewrite Hb, Hl. cbn. eapply copy_spec; [done|done|lia].
  - destruct Hr as (-> & _). apply wp_modify. left. done.
Qed.

(** Every operation, on every branch. *)
Lemma str_step s c op : ws_rep s c -> op_ok op c -> wp (str_exec op) (outcome (str_spec op c) (str_no_memory op c)) s.
Proof.
  intros Hs Hok. destruct op; cbn [str_exec str_spec str_no_memory op_ok] in *.
  - by apply wp_unit, assign_spec with (c := c).
  - destruct Hok as [Ht Hn]. apply wp_unit. rewrite <- (cstr_id t Hn) at 2. by apply assign_cstr_spec with (c := c); [|rewrite cstr_id].
  - apply wp_bool. eapply reserve_spec; [done|done| |]; [intros s' Hr' _ _; by left|]. intros m Hm. right. split; [by exists m|done].
  - destruct Hok as [Hc Hn]. destruct c as [l|]; [|done]. apply wp_bool. destruct (setLength_spec s l n Hs Hn) as (s' & E & Hr').
    eapply wp_exact; [exact E|]. by left.
  - destruct Hok as [Hr Hl]. apply wp_bool. by apply concat_other_spec.
  - destruct Hok as [Hm Hl]. apply wp_bool. by apply concat_this_spec.
  - destruct Hok as [Hl Ht]. apply wp_bool. unfold String_concat_cstr. wp_step. eapply wp_exact; [apply strlen_ext|]. rewrite (cstr_id t Ht).
    apply concat_n_spec; [done|done|]. intros s' _ _ _. by apply read_ext.
  - apply wp_bool. apply (concat_n_spec s c (Ext [c0; 0]) [c0]); [done|done|]. intros s' _ _ _. by apply (read_ext [c0] [0]).
  - apply wp_query; [done|]. by erewrite compareTo_spec by (by eauto using good_rep).
  - apply wp_query; [done|]. by erewrite equals_spec by (by eauto using good_rep).
  - destruct Hok as (Hr & Ho & Hw). apply wp_query; [done|]. by erewrite startsWith_at_spec by (by eauto using good_rep).
  - apply wp_query; [done|]. by erewrite endsWith_spec by (by eauto using good_rep).
  - apply wp_query; [done|]. unfold String_charAt. by rewrite (at_spec s c).
  - by apply wp_done, setCharAt_spec.
  - apply wp_query; [done|]. by rewrite (indexOf_char_spec s c).
  - destruct Hok as [Hr Hf]. apply wp_query; [done|]. destruct (Z.leb_spec (zlen (default [] c)) from) as [H|H].
    + unfold String_indexOf_from. rewrite (rep_len _ _ Hs). by destruct (Z.leb_spec (zlen (default [] c)) from); [|lia].
    + by rewrite (indexOf_spec s r c (contents r)).
  - wp_step. eapply wp_exact; [by apply lastIndexOf_char_spec|]. by left.
  - destruct Hok as [Hr Hf]. apply wp_query; [done|]. by rewrite (lastIndexOf_spec s r c (contents r)).
  - destruct Hok as [Hf Ht]. wp_step. destruct (substring_spec s c from to Hs Hf Ht) as (out & E & Hout). eapply wp_exact; [exact E|].
    destruct Hout as [Hr|[Hm Hr]]; rewrite (rep_contents _ _ Hr); [by left|by right].
  - by apply wp_done, each_char_spec.
  - by apply wp_done, each_char_spec.
  - by apply wp_done, each_char_spec.
  - destruct Hok as (Hf & Hi & Hn & Hw). by apply wp_done, remove_spec.
  - by apply wp_done, string_trim_spec.
  - apply wp_query; [done|]. by rewrite (toInt_spec s c).
Qed.

Fixpoint str_run (ops : list str_op) : M WString (list str_reply) :=
  match ops with [] => ret [] | op :: ops => let! r := str_exec op in let! rs := str_run ops in ret (r :: rs) end.

(** A run of the specification: a step fails only when a block is refused. *)
Inductive spec_run : list str_op -> option (list Z) -> list str_reply -> option (list Z) -> Prop :=
| spec_run_nil c : spec_run [] c [] c
| spec_run_ok op ops c rs c' :
    spec_run ops (snd (str_spec op c)) rs c' -> spec_run (op :: ops) c (fst (str_spec op c) :: rs) c'
| spec_run_refused op ops c rs c' m :
    has_room m = false -> spec_run ops (snd (str_no_memory op c)) rs c' -> spec_run (op :: ops) c (fst (str_no_memory op c) :: rs) c'.
Fixpoint run_ok (ops : list str_op) (c : option (list Z)) : Prop :=
  match ops with
  | [] => True
  | op :: ops => op_ok op c /\ run_ok ops (snd (str_spec op c)) /\ ((exists m, has_room m = false) -> run_ok ops (snd (str_no_memory op c)))
  end.


(** ** Numbers *)

Lemma put_digits_value i v acc : 0 <= v < 10 ^ Z.of_nat i -> fst (skip_atoi (put_digits i v 10 acc) 0) = fst (skip_atoi acc v).
Proof.
  revert v acc. induction i as [|i IH]; intros v acc Hv; cbn [put_digits].
  - change (10 ^ Z.of_nat 0) with 1 in Hv. by replace v with 0 by lia.
  - destruct (Z.eqb_spec v 0) as [->|E]; [done|]. rewrite Nat2Z.inj_succ, Z.pow_succ_r in Hv by lia. pose proof (Z.mod_pos_bound v 10 ltac:(lia)).
    pose proof (Z.div_mod v 10 ltac:(lia)). rewrite IH by (split; [apply Z.div_pos; lia|apply Z.div_lt_upper_bound; lia]). cbn [skip_atoi].
    unfold hexchar, is_digit. destruct (Z.ltb_spec (v mod 10) 10); [|lia].
    destruct (Z.leb_spec 0x30 (0x30 + v mod 10)); [|lia]. destruct (Z.leb_spec (0x30 + v mod 10) 0x39); [|lia]. cbn [andb]. do 2 f_equal. lia.
Qed.

Lemma put_digits_shape i v acc : 0 <= v -> Forall (fun c => is_digit c = true) acc -> (acc <> [] \/ v <> 0 /\ (0 < i)%nat) ->
  Forall (fun c => is_digit c = true) (put_digits i v 10 acc) /\ put_digits i v 10 acc <> [] /\ (length (put_digits i v 10 acc) <= i + length acc)%nat.
Proof.
  revert v acc. induction i as [|i IH]; intros v acc Hv Ha Hne; cbn [put_digits].
  - split; [done|]. split; [destruct Hne as [?|?]; [done|lia]|lia].
  - destruct (Z.eqb_spec v 0) as [->|E]; [split; [done|]; split; [destruct Hne as [?|[? _]]; done|lia]|].
    pose proof (Z.mod_pos_bound v 10 ltac:(lia)) as Hm. destruct (IH (v / 10) (hexchar (v mod 10) :: acc)) as (Hd & Hn & Hl).
    + apply Z.div_pos; lia.
    + constructor; [|done]. unfold hexchar, is_digit. destruct (Z.ltb_spec (v mod 10) 10); [|lia].
      destruct (Z.leb_spec 0x30 (0x30 + v mod 10)); [|lia]. destruct (Z.leb_spec (0x30 + v mod 10) 0x39); [done|lia].
    + by left.
    + split; [done|]. split; [done|]. cbn [length] in Hl. lia.
Qed.

Lemma digits_of_10 v : 0 <= v < 2 ^ 32 -> exists c r, digits_of v 10 = c :: r /\ Forall (fun c => is_digit c = true) (c :: r) /\ (length r < 40)%nat /\
  fst (skip_atoi (c :: r) 0) = v.
Proof.
  intros Hv. unfold digits_of. destruct (Z.eqb_spec v 0) as [->|E]; [exists 0x30, []; split; [done|]; split; [by repeat constructor|]; split; [cbn; lia|done]|].
  destruct (put_digits_shape 38 v []) as (Hd & Hn & Hl); [lia|constructor|right; split; [done|lia]|].
  pose proof (put_digits_value 38 v [] ltac:(lia)) as Hval. destruct (put_digits 38 v 10 []) as [|c r] eqn:Ed; [done|].
  exists c, r. split; [done|]. split; [done|]. cbn [length] in Hl. split; [lia|]. exact Hval.
Qed.

Lemma digit_nonzero l : Forall (fun c => is_digit c = true) l -> Forall (fun c => c <> 0) l.
Proof. intros H. eapply Forall_impl; [exact H|]. by intros c Hc ->. Qed.

Lemma atoi_digits c r : is_digit c = true -> atoi (c :: r) = clamp (fst (skip_atoi (c :: r) 0)).
Proof.
  intros Hc. unfold atoi. cbn [skip_spaces]. unfold is_digit in Hc. apply andb_true_iff in Hc as [H1%Z.leb_le H2%Z.leb_le]. unfold isspace.
  destruct (Z.eqb_spec c 0x20); [lia|]. destruct (Z.leb_spec 9 c); [|lia]. destruct (Z.leb_spec c 13); [lia|]. cbn [orb andb].
  destruct (Z.eqb_spec c 0x2d); [lia|]. destruct (Z.eqb_spec c 0x2b); [lia|]. done.
Qed.

Lemma ltoa_10 n : - 2 ^ 31 < n < 2 ^ 31 -> exists t, ltoa n 10 = Some t /\ Forall (fun c => c <> 0) t /\ zlen t < 2 ^ 16 /\ atoi t = n.
Proof.
  intros Hn. unfold ltoa, ltoa_w, ltoa_wp. destruct (Z.eqb_spec n (- 2 ^ 31)); [lia|].
  destruct (digits_of_10 (Z.abs n) ltac:(lia)) as (c & r & Ed & Hd & Hl & Hv).
  assert (forall t, pad_left 0 0x20 t = t) as Hpad.
  { intros t. unfold pad_left. pose proof (zlen_nonneg t). by replace (Z.to_nat (0 - zlen t)) with 0%nat by lia. }
  eexists. split; [done|]. rewrite Hpad. destruct (Z.ltb_spec n 0) as [Hneg|Hpos].
  - replace (Z.abs n) with (- n) in * by lia. rewrite Ed. cbn [app]. split; [constructor; [lia|by apply digit_nonzero]|].
    split; [rewrite !zlen_cons; unfold zlen; lia|]. transitivity (clamp (- fst (skip_atoi (c :: r) 0))); [done|]. rewrite Hv. unfold clamp. lia.
  - replace (Z.abs n) with n in * by lia. rewrite Ed. cbn [app]. split; [by apply digit_nonzero|]. split; [rewrite zlen_cons; unfold zlen; lia|].
    apply Forall_cons_1 in Hd as [Hc _]. rewrite atoi_digits, Hv by done. unfold clamp. lia.
Qed.

(** Numbers: [String(n).toInt()] is [n], for every [int] but the least. *)
Theorem string_int_roundtrip n : (forall m, has_room m = true) -> - 2 ^ 31 < n < 2 ^ 31 ->
  exists s, String_int has_room moves fill n 10 = Some s /\ String_toInt s = n.
Proof.
  intros Hm Hn. destruct (ltoa_10 n Hn) as (t & Et & Hnz & Hl & Hv). unfold String_int. rewrite Et. cbn [mbind option_bind].
  destruct (construct_spec (assign_text has_room moves fill t) (Some (cstr t))) as (s & -> & [Hr|[[m Hf] _]]).
  - by eapply (assign_cstr_spec _ None); [|rewrite cstr_id].
  - exists s. split; [done|]. rewrite (toInt_spec _ _ Hr). cbn. by rewrite cstr_id.
  - by rewrite Hm in Hf.
Qed.
End Heap.

(** ** Instances and defects *)

(** A string literal in a heap where every block moves. *)
Definition plenty (_ : Z) : bool := true.
Definition literal (t : String.string) : WString :=
  default String_null (String_cstr plenty plenty 0xAA (Some (Ext (string_bytes t ++ [0])))).

Definition demo_ops : list str_op :=
  [OAssignCstr (string_bytes "  12 apples "%string); OTrim; OConcat (literal " or 7"%string); OToUpper; OLastIndexOf (literal "P"%string) 20;
   ORemove 3 4; OToInt; OSubstring 9 3; OCompare (literal "12 LES"%string)].

Ltac literal_good := split; [reflexivity|split; [reflexivity|exists []; split; reflexivity]].


(** What the run answers. *)
Example demo_replies :
  option_map fst (str_run plenty plenty 0xAA true demo_ops String_null) =
  Some [RNone; RNone; RBool true; RNone; RInt 5; RNone; RInt 12; RString (Some (string_bytes "ES OR "%string)); RInt (- (0x4c - 0x45))].
Proof. vm_compute. reflexivity. Qed.

Lemma string_int_roundtrip_witness : exists s, String_int plenty plenty 0xAA (-1234567) 10 = Some s /\ String_toInt s = -1234567.
Proof. apply (string_int_roundtrip plenty plenty 0xAA (-1234567)); [reflexivity|lia]. Defined.

(** The least [int] has no text. *)
Example string_int_min : String_int plenty plenty 0xAA (- 2 ^ 31) 10 = None.
Proof. vm_compute. reflexivity. Qed.

(** Appending a string to itself reads the old block after [realloc] has moved it. *)
Example string_concat_self_dangles :
  String_concat plenty plenty 0xAA This (literal "abc"%string) = None /\
  option_map (fun r => contents (snd r)) (String_concat plenty (fun _ => false) 0xAA This (literal "abc"%string)) = Some (Some (string_bytes "abcabc"%string)).
Proof. split; vm_compute; reflexivity. Qed.

(** [index + count] wraps around in [remove]. *)
Example string_remove_wraps : String_remove true 1 0xffffffff (literal "abcdef"%string) = None.
Proof. vm_compute. reflexivity. Qed.

(** [remove] relies on [memcpy] for overlapping ranges. *)
Example string_remove_overlaps : String_remove false 1 2 (literal "abcdef"%string) = None.
Proof. vm_compute. reflexivity. Qed.

(** A null string compared with a C string without case is dereferenced. *)
Example string_equalsIgnoreCase_null : String_equalsIgnoreCase_cstr String_null (Some (string_bytes "a"%string ++ [0])) = None.
Proof. vm_compute. reflexivity. Qed.

(** The length is 16-bit: a longer text is cut to its length modulo 65536. *)
Example string_length_wraps :
  option_map ws_len (String_cstr_n plenty plenty 0xAA (Some (Ext (replicate 65540 0x61))) 65540) = Some 4.
Proof. vm_compute. reflexivity. Qed.
