(* ===== verification/WStringReplace.v ===== *)
(** * The String class: replacing

    [String::replace(const String&, const String&)] against the leftmost
    replacement of a text. *)

From S2P Require Import Prelude StringUtil WString WStringSpec.

(** ** The leftmost replacement *)

(** [k] more bytes of an occurrence are skipped. *)
Fixpoint replace_skip (f r : list Z) (k : nat) (l : list Z) : list Z :=
  match l with
  | [] => []
  | x :: l' =>
      match k with
      | S k => replace_skip f r k l'
      | O => if prefixb f l then r ++ replace_skip f r (length f - 1) l' else x :: replace_skip f r O l'
      end
  end.
Definition replaced (f r l : list Z) : list Z := replace_skip f r 0 l.

(** No proper nonempty end of [f] is a beginning of [g]: an occurrence of [f]
    cannot reach into [g] from in front of it. *)
Definition clear_of (f g : list Z) : bool := forallb (fun k => negb (prefixb (drop k f) g)) (seq 1 (length f - 1)).

Lemma prefixb_app f m : prefixb f (f ++ m) = true.
Proof. induction f as [|x f IH]; cbn; [done|]. by rewrite Z.eqb_refl. Qed.

Lemma prefixb_split f m : prefixb f m = true -> m = f ++ drop (length f) m.
Proof.
  revert m. induction f as [|x f IH]; intros m; cbn; [done|]. destruct m as [|y m]; [done|].
  intros [E%Z.eqb_eq H]%andb_true_iff. subst y. f_equal. by apply IH.
Qed.

Lemma prefixb_more f m q : prefixb f m = true -> prefixb f (m ++ q) = true.
Proof. intros H. rewrite (prefixb_split _ _ H), <- app_assoc. apply prefixb_app. Qed.

Lemma prefixb_less f m q : prefixb f (m ++ q) = true -> (length f <= length m)%nat -> prefixb f m = true.
Proof.
  revert m. induction f as [|x f IH]; intros m; cbn; [done|]. destruct m as [|y m]; cbn; [lia|].
  intros [-> H]%andb_true_iff Hl. apply IH; [done|lia].
Qed.

Section Replaced.
Context (f r : list Z) (f_nonempty : f <> []).

Lemma replace_skip_drop k l : replace_skip f r k l = replaced f r (drop k l).
Proof. revert k. induction l as [|x l IH]; intros [|k]; try done. cbn. apply IH. Qed.

Lemma replaced_occ q : replaced f r (f ++ q) = r ++ replaced f r q.
Proof.
  assert (exists x g, f = x :: g) as (x & g & E) by (destruct f; [done|by eauto]).
  assert (f ++ q = x :: (g ++ q)) as Eq by by rewrite E. unfold replaced. rewrite Eq. cbn [replace_skip]. rewrite <- Eq, prefixb_app. f_equal.
  rewrite replace_skip_drop. f_equal. rewrite E. replace (length (x :: g) - 1)%nat with (length g) by (cbn; lia). by rewrite drop_app_length.
Qed.

Lemma replaced_skip x l : prefixb f (x :: l) = false -> replaced f r (x :: l) = x :: replaced f r l.
Proof. unfold replaced. cbn [replace_skip]. by intros ->. Qed.

Lemma replaced_none l : memmem l f = None -> replaced f r l = l.
Proof.
  induction l as [|x l IH]; [done|]. cbn [memmem]. destruct (prefixb f (x :: l)) eqn:E; [done|]. rewrite replaced_skip by done.
  intros H. f_equal. apply IH. by destruct (memmem l f).
Qed.

Lemma replaced_some l i : memmem l f = Some i -> exists p q, l = p ++ f ++ q /\ zlen p = i /\ replaced f r l = p ++ r ++ replaced f r q.
Proof.
  revert i. induction l as [|x l IH]; intros i; cbn [memmem].
  - by destruct f.
  - destruct (prefixb f (x :: l)) eqn:E.
    + intros [= <-]. exists [], (drop (length f) (x :: l)). pose proof (prefixb_split _ _ E) as El. split; [done|]. split; [done|].
      rewrite El at 1. by rewrite replaced_occ.
    + destruct (memmem l f) as [j|]; [|done]. intros [= <-]. destruct (IH j eq_refl) as (p & q & El & Hp & Er). exists (x :: p), q.
      split; [by rewrite El|]. rewrite zlen_cons. split; [lia|]. rewrite replaced_skip by done. cbn. by rewrite Er.
Qed.

Lemma f_pos : 0 < zlen f.
Proof. pose proof (zlen_nonneg f). destruct (Z.eq_dec (zlen f) 0) as [E|E]; [by apply zlen_zero in E|lia]. Qed.

(** ** The loops that copy downwards *)

Context (forward : bool) (Hforward : forward = true).

Lemma same_loop m : forall fuel d rem z s, (length rem <= m)%nat -> zlen r = zlen f ->
  ws_buffer s = Some (d ++ rem ++ z) -> (length rem < fuel)%nat ->
  loop fuel (replace_same_body f r (zlen d + zlen rem)) (zlen d) s = Some (tt, set_bytes (d ++ replaced f r rem ++ z) s).
Proof.
  induction m as [|m IH]; intros fuel d rem z s Hm Hr Hb Hf; (destruct fuel as [|fuel]; [lia|]); cbn [loop]; unfold replace_same_body at 1, find_next, bind, lift.
  all: replace (zlen d + zlen rem - zlen d) with (zlen rem) by lia; rewrite (bytes_middle s d rem z) by done; cbn [ret].
  all: destruct (memmem rem f) as [i|] eqn:E; [|cbn; by rewrite (replaced_none _ E), set_bytes_id].
  all: destruct (replaced_some _ _ E) as (p & q & -> & Hp & Er); rewrite !length_app in Hm, Hf; pose proof f_pos.
  { unfold zlen in *. lia. }
  cbn [fmap option_fmap option_map]. rewrite (put_middle s (d ++ p) f (q ++ z) r) by (first [by rewrite Hb, <- !app_assoc|rewrite ?zlen_app; lia]).
  cbn. replace (zlen d + i + zlen r) with (zlen ((d ++ p) ++ r)) by (rewrite !zlen_app; lia).
  replace (zlen d + zlen (p ++ f ++ q)) with (zlen ((d ++ p) ++ r) + zlen q) by (rewrite !zlen_app; lia).
  rewrite (IH fuel ((d ++ p) ++ r) q z) by (first [done|cbn; by rewrite <- !app_assoc|unfold zlen in *; lia]).
  rewrite Er, <- !app_assoc. done.
Qed.

Lemma less_loop m : forall fuel w junk rem z s, (length rem <= m)%nat -> zlen r < zlen f ->
  ws_buffer s = Some (w ++ junk ++ rem ++ z) -> ws_len s = zlen w + zlen rem -> zlen w + zlen junk + zlen rem < 2 ^ 16 -> (length rem < fuel)%nat ->
  exists w' junk' rem' s', loop fuel (replace_less_body forward f r (zlen w + zlen junk + zlen rem)) (zlen w + zlen junk, zlen w) s =
      Some ((zlen w' + zlen junk', zlen w'), s') /\
    w' ++ rem' = w ++ replaced f r rem /\ ws_buffer s' = Some (w' ++ junk' ++ rem' ++ z) /\ ws_len s' = zlen w' + zlen rem' /\
    zlen w' + zlen junk' + zlen rem' = zlen w + zlen junk + zlen rem /\ ws_capacity s' = ws_capacity s.
Proof.
  induction m as [|m IH]; intros fuel w junk rem z s Hm Hr Hb Hl Hs Hf; (destruct fuel as [|fuel]; [lia|]); cbn [loop]; unfold replace_less_body at 1, find_next, bind, lift.
  all: replace (zlen w + zlen junk + zlen rem - (zlen w + zlen junk)) with (zlen rem) by lia;
    rewrite (bytes_middle s (w ++ junk) rem z) by (first [by rewrite Hb, <- app_assoc|by rewrite zlen_app|done]); cbn [ret].
  all: destruct (memmem rem f) as [i|] eqn:E; [|cbn; exists w, junk, rem, s; by rewrite (replaced_none _ E)].
  all: destruct (replaced_some _ _ E) as (p & q & -> & Hp & Er); rewrite !length_app in Hm, Hf; rewrite !zlen_app in *; pose proof f_pos.
  { unfold zlen in *. lia. }
  pose proof (zlen_nonneg w). pose proof (zlen_nonneg junk). pose proof (zlen_nonneg p). pose proof (zlen_nonneg q). pose proof (zlen_nonneg r).
  cbn [fmap option_fmap option_map]. replace (u32 (zlen w + zlen junk + i - (zlen w + zlen junk))) with (zlen p) by (rewrite u32_small; unfold is_u32; lia).
  rewrite memcpy_down by (first [by left|lia]).
  rewrite (memmove_middle s (w ++ junk) p (f ++ q ++ z)) by (first [by rewrite Hb, <- !app_assoc|by rewrite zlen_app|done]).
  destruct (split_rest (junk ++ p) (zlen p)) as (p' & junk2 & E2 & Hp'); [rewrite zlen_app; lia|].
  rewrite (put_middle s w p' (junk2 ++ f ++ q ++ z) p) by (first [by rewrite Hb, <- !app_assoc, (app_assoc junk), E2, <- !app_assoc|done]).
  apply (f_equal zlen) in E2. rewrite !zlen_app in E2.
  destruct (split_rest (junk2 ++ f) (zlen r)) as (r' & junk3 & E3 & Hr'); [rewrite zlen_app; pose proof (zlen_nonneg junk2); lia|].
  rewrite (put_middle _ (w ++ p) r' (junk3 ++ q ++ z) r)
    by (first [cbn; by rewrite <- !app_assoc, (app_assoc junk2), E3, <- !app_assoc|by rewrite zlen_app|done]).
  apply (f_equal zlen) in E3. rewrite !zlen_app in E3. cbn. set (s2 := set_len _ _).
  replace (zlen w + zlen junk + i + zlen f) with (zlen (w ++ p ++ r) + zlen junk3) by (rewrite !zlen_app; lia).
  replace (zlen w + zlen p + zlen r) with (zlen (w ++ p ++ r)) by (rewrite !zlen_app; lia).
  replace (zlen w + zlen junk + (zlen p + (zlen f + zlen q))) with (zlen (w ++ p ++ r) + zlen junk3 + zlen q) by (rewrite !zlen_app; lia).
  destruct (IH fuel (w ++ p ++ r) junk3 q z s2) as (w' & junk' & rem' & s' & -> & Ew & Hb' & Hl' & Hz & Hc');
    [unfold zlen in *; lia|done|cbn; by rewrite <- !app_assoc|cbn; rewrite Hl, u16_small; rewrite ?zlen_app; lia|rewrite !zlen_app; lia|unfold zlen in *; lia|].
  exists w', junk', rem', s'. split; [done|]. split; [by rewrite Ew, Er, <- !app_assoc|]. split; [done|]. split; [done|]. split; [|done]. done.
Qed.

Lemma replaced_grows n l : (length l <= n)%nat -> zlen f <= zlen r -> zlen l <= zlen (replaced f r l).
Proof.
  revert l. induction n as [|n IH]; intros l Hn Hr; [destruct l; [done|cbn in Hn; lia]|].
  destruct (memmem l f) as [i|] eqn:E; [|by rewrite replaced_none].
  destruct (replaced_some _ _ E) as (p & q & -> & _ & ->). rewrite !zlen_app, !length_app in *. pose proof f_pos.
  assert (zlen q <= zlen (replaced f r q)) by (apply IH; [unfold zlen in *; lia|done]). lia.
Qed.

Lemma count_loop m : forall fuel d rem z s size, (length rem <= m)%nat -> zlen f < zlen r ->
  ws_buffer s = Some (d ++ rem ++ z) -> 0 <= size -> size + (zlen (replaced f r rem) - zlen rem) < 2 ^ 32 -> (length rem < fuel)%nat ->
  loop fuel (count_body f r (zlen d + zlen rem)) (zlen d, size) s = Some (size + (zlen (replaced f r rem) - zlen rem), s).
Proof.
  induction m as [|m IH]; intros fuel d rem z s size Hm Hr Hb H0 Hs Hf; (destruct fuel as [|fuel]; [lia|]); cbn [loop]; unfold count_body at 1, find_next, bind, lift.
  all: replace (zlen d + zlen rem - zlen d) with (zlen rem) by lia; rewrite (bytes_middle s d rem z) by done; cbn [ret].
  all: destruct (memmem rem f) as [i|] eqn:E; [|cbn; rewrite (replaced_none _ E); do 2 f_equal; lia].
  all: destruct (replaced_some _ _ E) as (p & q & -> & Hp & Er); rewrite !length_app in Hm, Hf; rewrite Er, !zlen_app in *; pose proof f_pos.
  { unfold zlen in *. lia. }
  pose proof (replaced_grows (length q) q ltac:(lia) ltac:(lia)).
  cbn [fmap option_fmap option_map]. replace (zlen d + i + zlen f) with (zlen (d ++ p ++ f)) by (rewrite !zlen_app; lia).
  replace (zlen d + (zlen p + (zlen f + zlen q))) with (zlen (d ++ p ++ f) + zlen q) by (rewrite !zlen_app; lia).
  rewrite u32_small by (unfold is_u32; lia). unfold ret.
  rewrite (IH fuel (d ++ p ++ f) q z) by (first [done|by rewrite Hb, <- !app_assoc|lia|unfold zlen in *; lia]). do 2 f_equal. lia.
Qed.

(** ** The loop that copies upwards *)

Definition starts (g q : list Z) : Prop := q = [] \/ exists q', q = g ++ q'.

Lemma clear_of_split g u f2 : clear_of f g = true -> f = u ++ f2 -> u <> [] -> f2 <> [] -> prefixb f2 g = false.
Proof.
  unfold clear_of. rewrite forallb_forall. intros H Ef Hu H2. specialize (H (length u)). rewrite Ef, drop_app_length in H.
  apply negb_true_iff, H, in_seq. rewrite length_app. destruct u; [done|]. destruct f2; [done|]. cbn. lia.
Qed.

Lemma no_straddle g u q : clear_of f g = true -> zlen f <= zlen g -> starts g q -> u <> [] -> prefixb f (u ++ q) = prefixb f u.
Proof.
  intros Hc Hg Hq Hu. destruct (prefixb f u) eqn:E; [by apply prefixb_more|]. destruct (prefixb f (u ++ q)) eqn:E'; [|done].
  destruct (decide (length f <= length u)%nat) as [Hl|Hl]; [by rewrite (prefixb_less f u q) in E|].
  pose proof (prefixb_split _ _ E') as Es. set (f2 := drop (length u) f).
  assert (f = u ++ f2 /\ exists t, q = f2 ++ t) as [Ef [t Eq]].
  { assert (u = take (length u) f) as Eu.
    { rewrite <- (take_app_length u q) at 1. rewrite Es, take_app_le by lia. done. }
    split; [rewrite Eu at 1; apply eq_sym, take_drop|]. exists (drop (length f) (u ++ q)).
    apply (app_inv_head u). rewrite Es at 1. rewrite app_assoc. f_equal. rewrite Eu at 1. apply eq_sym, take_drop. }
  assert (f2 <> []) as Hf2. { intros E2. rewrite E2, app_nil_r in Ef. rewrite Ef in Hl. lia. }
  pose proof (clear_of_split g u f2 Hc Ef Hu Hf2) as Hn. destruct Hq as [->|[q' Hq]]; [by destruct f2|].
  assert (prefixb f2 g = true); [|congruence]. apply (prefixb_less f2 g q').
  - rewrite <- Hq, Eq. apply prefixb_app.
  - apply (f_equal zlen) in Ef. rewrite zlen_app in Ef. unfold zlen in *. lia.
Qed.

Lemma starts_occ g z : starts g (g ++ z).
Proof. right. by eexists. Qed.

Lemma replaced_clear p q0 : clear_of f f = true -> starts f q0 -> (forall j, (j < length p)%nat -> prefixb f (drop j p) = false) ->
  replaced f r (p ++ q0) = p ++ replaced f r q0.
Proof.
  intros Hc Hq. induction p as [|x p IH]; intros Hn; [done|]. cbn [app]. rewrite replaced_skip.
  - f_equal. apply IH. intros j Hj. apply (Hn (S j)). cbn. lia.
  - rewrite app_comm_cons, (no_straddle f) by (done || lia). apply (Hn 0%nat). cbn. lia.
Qed.

Lemma replaced_split n p q0 : (length p <= n)%nat -> clear_of f f = true -> starts f q0 ->
  replaced f r (p ++ q0) = replaced f r p ++ replaced f r q0.
Proof.
  revert p. induction n as [|n IH]; intros p Hp Hc Hq; (destruct p as [|x p]; [done|]); cbn [length] in Hp; [lia|].
  destruct (prefixb f (x :: p)) eqn:E.
  - rewrite (prefixb_split _ _ E), <- app_assoc, !replaced_occ, <- app_assoc. f_equal. apply IH; [|done|done].
    rewrite length_drop. cbn. pose proof f_pos. unfold zlen in *. lia.
  - cbn [app]. rewrite (replaced_skip _ p) by done. rewrite replaced_skip by (rewrite app_comm_cons, (no_straddle f); done || lia).
    cbn. f_equal. apply IH; [lia|done|done].
Qed.

Lemma last_from_spec l from : l <> [] -> 0 <= from -> forall k, k = Z.to_nat (Z.min from (zlen l - 1)) ->
  (last_from l f from = -1 /\ forall j, (j <= k)%nat -> prefixb f (drop j l) = false) \/
  exists i, last_from l f from = Z.of_nat i /\ (i <= k)%nat /\ prefixb f (drop i l) = true /\ forall j, (i < j <= k)%nat -> prefixb f (drop j l) = false.
Proof.
  intros Hl Hfrom k ->. pose proof f_pos. assert (0 < zlen l). { pose proof (zlen_nonneg l). destruct (Z.eq_dec (zlen l) 0) as [E|]; [by apply zlen_zero in E|lia]. }
  unfold last_from. destruct (Z.eqb_spec (zlen f) 0); [lia|]. destruct (Z.eqb_spec (zlen l) 0); [lia|]. cbn [orb].
  destruct (Z.ltb_spec (zlen l) (zlen f)) as [H1|H1].
  - left. split; [done|]. intros j _. destruct (prefixb f (drop j l)) eqn:E; [|done]. apply prefixb_length in E. rewrite zlen_drop in E. lia.
  - replace (if zlen l <=? from then zlen l - 1 else from) with (Z.min from (zlen l - 1)) by (destruct (Z.leb_spec (zlen l) from); lia).
    apply last_occ_spec.
Qed.

(** One turn: the tail moves up and [r] takes the place of [f]. *)
Lemma more_turn s find p1 t z index i :
  ws_buffer s = Some (p1 ++ f ++ t ++ z) -> ws_len s = zlen (p1 ++ f ++ t) -> zlen f < zlen r ->
  zlen p1 + zlen r + zlen t < 2 ^ 16 -> zlen r - zlen f <= zlen z ->
  String_lastIndexOf_from s find (u32 index) = Some i -> i = zlen p1 ->
  exists z' s', replace_more_body find f r index s = Some (inl (i - 1), s') /\ ws_buffer s' = Some (p1 ++ r ++ t ++ z') /\
    zlen z' = zlen z - (zlen r - zlen f) /\ ws_len s' = zlen (p1 ++ r ++ t) /\ ws_capacity s' = ws_capacity s.
Proof.
  intros Hb Hl Hr Hs Hz Hi ->. rewrite !zlen_app in Hl. pose proof (zlen_nonneg p1). pose proof (zlen_nonneg f). pose proof (zlen_nonneg t). pose proof (zlen_nonneg z).
  unfold replace_more_body, bind, lift, get. rewrite Hi. destruct (Z.ltb_spec (zlen p1) 0); [lia|]. rewrite Hl, u32_small by (unfold is_u32; lia).
  rewrite (memmove_middle s (p1 ++ f) t z) by (first [by rewrite Hb, <- !app_assoc|rewrite ?zlen_app; lia]).
  destruct (split_rest (t ++ z) (zlen r - zlen f)) as (X & Y & E & HX); [rewrite zlen_app; lia|].
  pose proof (f_equal zlen E) as Ez. rewrite !zlen_app in Ez.
  destruct (split_rest Y (zlen t)) as (old & z' & -> & Hold); [lia|]. rewrite zlen_app in Ez.
  rewrite (put_middle s (p1 ++ f ++ X) old z' t) by (first [by rewrite Hb, E, <- !app_assoc|rewrite ?zlen_app; lia]). cbn [modify].
  rewrite (put_middle _ p1 (f ++ X) (t ++ z') r) by (first [cbn; by rewrite <- !app_assoc|rewrite ?zlen_app; lia]).
  eexists z', _. split; [done|]. split; [done|]. split; [lia|]. split; [|done]. cbn. rewrite Hl, !zlen_app, u16_small; lia.
Qed.

Context (clear_f : clear_of f f = true) (clear_r : clear_of f r = true) (longer : zlen f < zlen r).

Lemma replaced_nonempty l : l <> [] -> replaced f r l <> [].
Proof.
  intros Hl E. pose proof (replaced_grows (length l) l ltac:(lia) ltac:(lia)) as H. rewrite E in H. change (zlen []) with 0 in H.
  apply Hl, zlen_zero. pose proof (zlen_nonneg l). lia.
Qed.

Context (find : WString) (find_len : ws_len find = zlen f) (find_bytes : bytes_of find 0 (zlen f) = Some f).

(** Behind index 0 the search starts again at the end. *)
Lemma more_rescan s q : ws_text s q -> q <> [] -> memmem q f = None -> replace_more_body find f r (-1) s = Some (inr tt, s).
Proof.
  intros Ht Hq Hn. unfold replace_more_body, bind, lift. rewrite (lastIndexOf_text s find q f) by (first [done|apply u32_range]).
  destruct (last_from_spec q (u32 (-1)) Hq ltac:(apply u32_range) _ eq_refl) as [[-> _]|(i & _ & _ & Ho & _)]; [done|].
  pose proof (memmem_first q f) as Hm. rewrite Hn in Hm. by rewrite Hm in Ho.
Qed.

(** In a text [p ++ q] whose end [q] begins with [r] the last occurrence that starts in [p] lies in [p]. *)
Lemma more_search s p q : ws_text s (p ++ q) -> p <> [] -> starts r q -> zlen p < 2 ^ 16 ->
  (String_lastIndexOf_from s find (u32 (zlen p - 1)) = Some (-1) /\ forall j, (j < length p)%nat -> prefixb f (drop j p) = false) \/
  exists p1 t, p = p1 ++ f ++ t /\ String_lastIndexOf_from s find (u32 (zlen p - 1)) = Some (zlen p1) /\
    forall j, (j < length t)%nat -> prefixb f (drop j t) = false.
Proof.
  intros Ht Hp Hq Hs. assert (0 < zlen p) as Hpos. { pose proof (zlen_nonneg p). destruct (Z.eq_dec (zlen p) 0) as [E|]; [by apply zlen_zero in E|lia]. }
  rewrite u32_small by (unfold is_u32; lia). rewrite (lastIndexOf_text s find (p ++ q) f) by (done || lia).
  assert (forall j, (j < length p)%nat -> prefixb f (drop j (p ++ q)) = prefixb f (drop j p)) as Hin.
  { intros j Hj. rewrite drop_app_le by lia. apply (no_straddle r); [done|lia|done|]. intros E. apply (f_equal length) in E. rewrite length_drop in E. cbn in E. lia. }
  destruct (last_from_spec (p ++ q) (zlen p - 1) ltac:(by destruct p) ltac:(lia) (length p - 1)) as [[-> Hn]|(i & -> & Hi & Ho & Hn)].
  { rewrite zlen_app. pose proof (zlen_nonneg q). unfold zlen in *. lia. }
  - left. split; [done|]. intros j Hj. rewrite <- Hin by done. apply Hn. lia.
  - right. assert (i < length p)%nat as Hip by (unfold zlen in Hpos; lia). rewrite Hin in Ho by done. pose proof (prefixb_split _ _ Ho) as E. rewrite drop_drop in E.
    exists (take i p), (drop (i + length f) p). assert (p = take i p ++ f ++ drop (i + length f) p) as Ep by (by rewrite <- E, take_drop).
    split; [done|]. split; [f_equal; rewrite zlen_take; unfold zlen in *; lia|].
    intros j Hj. rewrite drop_drop. rewrite length_drop in Hj. rewrite <- Hin by lia. apply Hn. pose proof f_pos. unfold zlen in *. lia.
Qed.

Lemma more_loop n : forall fuel p q0 z s, (length p <= n)%nat ->
  starts f q0 -> p ++ q0 <> [] -> (prefixb f (p ++ q0) = true -> memmem (replaced f r (p ++ q0)) f = None) -> (p = [] -> prefixb f q0 = true) ->
  ws_buffer s = Some (p ++ replaced f r q0 ++ z) -> ws_len s = zlen (p ++ replaced f r q0) ->
  zlen (replaced f r (p ++ q0)) < 2 ^ 16 -> zlen (replaced f r (p ++ q0)) <= zlen (p ++ replaced f r q0 ++ z) -> (length p < fuel)%nat ->
  exists z' s', loop fuel (replace_more_body find f r) (zlen p - 1) s = Some (tt, s') /\
    ws_buffer s' = Some (replaced f r (p ++ q0) ++ z') /\ ws_len s' = zlen (replaced f r (p ++ q0)) /\
    zlen (replaced f r (p ++ q0)) + zlen z' = zlen (p ++ replaced f r q0 ++ z) /\ ws_capacity s' = ws_capacity s.
Proof.
  induction n as [|n IH]; intros fuel p q0 z s Hn Hq Hne Hagain Hp0 Hb Hl Hs Hroom Hf; (destruct fuel as [|fuel]; [lia|]).
  all: set (q := replaced f r q0) in *; assert (ws_text s (p ++ q)) as Ht by (split; [done|exists z; by rewrite Hb, app_assoc]).
  all: destruct (decide (p = [])) as [->|Hp].
  1, 3: cbn [app loop] in *; change (zlen (@nil Z) - 1) with (-1); rewrite (more_rescan s q) by (first [done|by apply replaced_nonempty|by apply Hagain, Hp0]);
    exists z, s; fold q; rewrite zlen_app; done.
  { destruct p; [done|cbn in Hn; lia]. }
  assert (starts r q) as Hqr by (unfold q; destruct Hq as [->|[q' ->]]; [by left|rewrite replaced_occ; apply starts_occ]).
  assert (zlen (p ++ q0) <= zlen (replaced f r (p ++ q0))) as Hgr by (apply (replaced_grows (length (p ++ q0))); lia).
  rewrite zlen_app in Hgr. pose proof (zlen_nonneg q0). cbn [loop].
  destruct (more_search s p q Ht Hp Hqr ltac:(lia)) as [[Hi Hno]|(p1 & t & -> & Hi & Hno)].
  - unfold replace_more_body at 1, bind, lift. rewrite Hi. cbn. exists z, s. rewrite replaced_clear by done. fold q.
    rewrite <- app_assoc. split; [done|]. split; [done|]. split; [done|]. rewrite !zlen_app. split; [lia|done].
  - set (q1 := f ++ t ++ q0). assert ((p1 ++ f ++ t) ++ q0 = p1 ++ q1) as Eq by (unfold q1; by rewrite <- !app_assoc).
    assert (replaced f r q1 = r ++ t ++ q) as Eq1 by (unfold q1; by rewrite replaced_occ, replaced_clear).
    rewrite Eq in *. assert (zlen (p1 ++ replaced f r q1) <= zlen (replaced f r (p1 ++ q1))) as Hfit.
    { rewrite (replaced_split (length p1) p1 q1) by (first [done|lia|apply starts_occ]). rewrite !zlen_app.
      pose proof (replaced_grows (length p1) p1 ltac:(lia) ltac:(lia)). lia. }
    rewrite Eq1, !zlen_app in Hfit. rewrite !zlen_app in Hroom. pose proof (zlen_nonneg q). pose proof (zlen_nonneg p1).
    destruct (more_turn s find p1 (t ++ q) z (zlen (p1 ++ f ++ t) - 1) (zlen p1)) as (z' & s' & -> & Hb' & Hz' & Hl' & Hc');
      [by rewrite Hb, <- !app_assoc|by rewrite Hl, <- !app_assoc|done|rewrite zlen_app; lia|lia|done|done|].
    destruct (IH fuel p1 q1 z' s') as (z2 & s2 & E2 & Hb2 & Hl2 & Hz2 & Hc2).
    + rewrite !length_app in Hn. pose proof f_pos. unfold zlen in *. lia.
    + apply starts_occ.
    + by destruct p1, f.
    + done.
    + intros _. apply prefixb_app.
    + by rewrite Eq1, Hb', <- !app_assoc.
    + by rewrite Eq1, Hl'.
    + done.
    + rewrite Eq1, !zlen_app. lia.
    + rewrite !length_app in Hf. pose proof f_pos. unfold zlen in *. lia.
    + exists z2, s2. split; [done|]. split; [done|]. split; [done|]. rewrite Eq1 in Hz2. rewrite !zlen_app in Hz2 |- *. split; [lia|congruence].
Qed.
End Replaced.

(** ** The operation *)

(** A replacement that is no longer than what it replaces; or a longer one
    where occurrences cannot overlap one another or reach into the inserted
    text, and, when the text begins with an occurrence, none is left at the
    end. *)
Definition replace_safe (f r l : list Z) : bool :=
  (zlen r <=? zlen f) ||
  (clear_of f f && clear_of f r && (negb (prefixb f l) || match memmem (replaced f r l) f with None => true | Some _ => false end)).

Section Operation.
Context (has_room moves : Z -> bool) (fill : Z).


Lemma replace_same_spec s l f r : ws_rep s (Some l) -> f <> [] -> zlen r = zlen f ->
  exists s', loop (S (S (Z.to_nat (zlen l)))) (replace_same_body f r (zlen l)) 0 s = Some (tt, s') /\ ws_rep s' (Some (replaced f r l)).
Proof.
  intros (Hlen & Hcap & rest & Hb & Hc) Hf Hr.
  rewrite (same_loop f r Hf (length l) _ [] l (0 :: rest)) by (first [done|unfold zlen; lia]). eexists. split; [done|].
  assert (zlen (replaced f r l) = zlen l) as Ez.
  { clear -Hf Hr. induction l as [l IH] using (induction_ltof1 _ length). destruct (memmem l f) as [i|] eqn:E; [|by rewrite replaced_none].
    destruct (replaced_some f r Hf _ _ E) as (p & q & -> & _ & ->). rewrite !zlen_app. rewrite (IH q); [lia|]. unfold ltof. rewrite !length_app.
    pose proof (f_pos f Hf). unfold zlen in *. lia. }
  apply (rep_intro _ _ _ _ _ rest); cbn; [done|lia|lia|done].
Qed.

Lemma replace_less_spec s l f r : ws_rep s (Some l) -> f <> [] -> zlen r < zlen f ->
  exists st s1 s2 s3, loop (S (S (Z.to_nat (zlen l)))) (replace_less_body true f r (zlen l)) (0, 0) s = Some (st, s1) /\
    memcpy_own true (snd st) (fst st) (zlen l - fst st) s1 = Some (tt, s2) /\ store (ws_len s2) 0 s2 = Some (tt, s3) /\ ws_rep s3 (Some (replaced f r l)).
Proof.
  intros Hs Hf Hr. pose proof (rep_small _ _ Hs) as Hsm. destruct Hs as (Hlen & Hcap & rest & Hb & Hc). rewrite Hlen in Hsm.
  destruct (less_loop f r Hf true eq_refl (length l) (S (S (Z.to_nat (zlen l)))) [] [] l (0 :: rest) s) as (w & junk & rem & s1 & El & Ew & Hb1 & Hl1 & Hz1 & Hc1);
    [done|lia|done|done|change (zlen (@nil Z)) with 0; lia|unfold zlen; lia|].
  change (zlen (@nil Z)) with 0 in *. rewrite !Z.add_0_l in *. pose proof (zlen_nonneg junk).
  destruct (close_gap s1 w junk rem rest (ws_len s1)) as (s2 & E2 & El2 & s3 & E3 & Hr3); [done|rewrite !zlen_app; lia|lia|done|done|].
  eexists _, s1, s2, s3. split; [exact El|]. cbn [fst snd]. rewrite memcpy_down by (first [by left|lia]). replace (zlen l - (zlen w + zlen junk)) with (zlen rem) by lia.
  rewrite (memmove_middle s1 (w ++ junk) rem (0 :: rest)) by (first [by rewrite Hb1, <- app_assoc|by rewrite zlen_app|done]).
  split; [done|]. rewrite El2. split; [done|]. by rewrite Ew in Hr3.
Qed.

Lemma replace_more_spec s l find f r size : ws_rep s (Some l) -> l <> [] -> f <> [] -> zlen f < zlen r -> clear_of f f = true -> clear_of f r = true ->
  ws_len find = zlen f -> bytes_of find 0 (zlen f) = Some f -> (prefixb f l = true -> memmem (replaced f r l) f = None) ->
  size = zlen (replaced f r l) -> size <= ws_capacity s ->
  exists s1 s2, loop (S (S (Z.to_nat (zlen l)))) (replace_more_body find f r) (zlen l - 1) s = Some (tt, s1) /\
    store (ws_len s1) 0 s1 = Some (tt, s2) /\ ws_rep s2 (Some (replaced f r l)).
Proof.
  intros (Hlen & Hcap & rest & Hb & Hc) Hl Hf Hr Hcf Hcr Hfl Hfb Hag -> Hsz.
  destruct (more_loop f r Hf Hcf Hcr Hr find Hfl Hfb (length l) (S (S (Z.to_nat (zlen l)))) l [] (0 :: rest) s) as (z & s1 & E & Hb1 & Hl1 & Hz1 & Hc1);
    rewrite ?app_nil_r; try done.
  - by left.
  - lia.
  - cbn [replaced replace_skip app]. rewrite zlen_app, zlen_cons. lia.
  - unfold zlen. lia.
  - rewrite app_nil_r in *. cbn [replaced replace_skip app] in Hz1. rewrite zlen_app, zlen_cons in Hz1. change (replace_skip f r 0 l) with (replaced f r l) in *.
    destruct z as [|x z]; [change (zlen []) with 0 in Hz1; lia|]. rewrite zlen_cons in Hz1.
    exists s1. rewrite Hl1. eexists. split; [done|]. split; [by apply (store_middle s1 (replaced f r l) z x)|].
    apply (rep_intro _ _ _ _ _ z); cbn; [done|done|lia|lia].
Qed.

(** C15. Replacing: where [replace_safe] holds, [replace] does not leave its block and the
    string is the leftmost replacement of every occurrence; when the block
    for a longer result is refused, it is unchanged.  A replacement that is as
    long as the text it replaces, or longer, needs nothing of [memcpy]; for a
    shorter one the code gives [memcpy] overlapping ranges, which C leaves
    undefined, and the result is that of a [memcpy] which copies them from
    front to back. *)
Theorem string_replace_correct forward s find rep l f c :
  ws_rep s (Some l) -> ws_rep find (Some f) -> ws_rep rep c -> f <> [] -> (zlen (default [] c) < zlen f -> forward = true) ->
  zlen (replaced f (default [] c) l) < 2 ^ 16 -> replace_safe f (default [] c) l = true ->
  exists s', String_replace has_room moves fill forward find rep s = Some (tt, s') /\
    (ws_rep s' (Some (replaced f (default [] c) l)) \/ (exists n, has_room n = false) /\ s' = s).
Proof.
  intros Hs Hfind Hrep Hf Hfw Hsize Hsafe. set (r := default [] c) in *. pose proof (rep_small _ _ Hs) as Hsm. pose proof (f_pos f Hf). pose proof (zlen_nonneg r).
  unfold String_replace, bind, get. pose proof Hs as (Hlen & Hcap & rest & Hb & Hc). pose proof (rep_len _ _ Hrep) as Hrl. fold r in Hrl.
  rewrite (rep_len _ _ Hfind), Hrl, Hlen. rewrite Hlen in Hsm. cbn [default from_option]. unfold id. destruct (Z.eqb_spec (zlen f) 0); [lia|]. rewrite orb_false_r.
  destruct (Z.eqb_spec (zlen l) 0) as [E|E]; [assert (l = []) as -> by (by apply zlen_zero); exists s; split; [done|by left]|].
  assert (l <> []) as Hl by (by intros ->). unfold lift at 1 2. rewrite (text_all find f) by (done || by apply rep_text). rewrite (rep_all rep c Hrep : bytes_of rep 0 (zlen r) = Some r).
  destruct (Z.eqb_spec (zlen r - zlen f) 0) as [E0|E0].
  { destruct (replace_same_spec s l f r Hs Hf ltac:(lia)) as (s' & -> & Hr'). exists s'. split; [done|by left]. }
  destruct (Z.ltb_spec (zlen r - zlen f) 0) as [E1|E1].
  { rewrite Hfw by lia. destruct (replace_less_spec s l f r Hs Hf ltac:(lia)) as (st & s1 & s2 & s3 & El & Em & Est & Hr3). rewrite El. destruct st as [rf wt].
    cbn [fst snd] in Em. rewrite Em, Est. exists s3. split; [done|by left]. }
  unfold replace_safe in Hsafe. destruct (Z.leb_spec (zlen r) (zlen f)); [lia|]. cbn [orb] in Hsafe. apply andb_true_iff in Hsafe as [[Hcf Hcr]%andb_true_iff Hag].
  pose proof (replaced_grows f r Hf (length l) l ltac:(lia) ltac:(lia)) as Hgr.
  pose proof (count_loop f r Hf (length l) (S (S (Z.to_nat (zlen l)))) [] l (0 :: rest) s (zlen l) ltac:(lia) ltac:(lia) Hb ltac:(lia) ltac:(lia) ltac:(unfold zlen; lia)) as Ecount.
  change (zlen (@nil Z)) with 0 in Ecount. rewrite Z.add_0_l in Ecount. rewrite Ecount. replace (zlen l + (zlen (replaced f r l) - zlen l)) with (zlen (replaced f r l)) by lia.
  destruct (Z.eqb_spec (zlen (replaced f r l)) (zlen l)) as [E2|E2].
  { exists s. split; [done|]. left. destruct (memmem l f) as [i|] eqn:Em; [|by rewrite replaced_none].
    exfalso. destruct (replaced_some f r Hf _ _ Em) as (p & q & El & _ & Er). rewrite Er, El, !zlen_app in E2.
    pose proof (replaced_grows f r Hf (length q) q ltac:(lia) ltac:(lia)). lia. }
  assert (prefixb f l = true -> memmem (replaced f r l) f = None) as Hag'.
  { intros Hp. rewrite Hp in Hag. by destruct (memmem (replaced f r l) f). }
  pose proof (text_all find f _ (rep_text _ _ Hfind) eq_refl) as Hfb. pose proof (rep_len _ _ Hfind : ws_len find = zlen f) as Hfl.
  destruct (Z.ltb_spec (ws_capacity s) (zlen (replaced f r l))) as [Hgrow|Hfits].
  - pose proof (changeBuffer_spec has_room moves fill s l (zlen (replaced f r l))
      (fun ok s' => if ok : bool then ws_rep s' (Some l) /\ ws_capacity s' = zlen (replaced f r l) else (exists n, has_room n = false) /\ s' = s) Hs) as Hcb.
    unfold wp in Hcb. destruct (String_changeBuffer has_room moves fill _ s) as [[[] s1]|]; [| |destruct Hcb; [lia|done|eauto]].
    + destruct Hcb as [Hr1 Hc1]; [lia|done|eauto|]. cbn [negb].
      destruct (replace_more_spec s1 l find f r _ Hr1 Hl Hf ltac:(lia) Hcf Hcr Hfl Hfb Hag' eq_refl ltac:(lia)) as (s2 & s3 & -> & -> & Hr3).
      exists s3. split; [done|by left].
    + destruct Hcb as [Hno ->]; [lia|done|eauto|]. exists s. split; [done|]. right. by split.
  - cbn [ret negb].
    destruct (replace_more_spec s l find f r _ Hs Hl Hf ltac:(lia) Hcf Hcr Hfl Hfb Hag' eq_refl Hfits) as (s2 & s3 & -> & -> & Hr3).
    exists s3. split; [done|by left].
Qed.
End Operation.

(** ** Instances and defects *)

Lemma string_replace_correct_witness : exists s',
  String_replace plenty plenty 0xAA false (literal "&"%string) (literal "&amp;"%string) (literal "a&b&c"%string) = Some (tt, s') /\
  (ws_rep s' (Some (replaced (string_bytes "&"%string) (string_bytes "&amp;"%string) (string_bytes "a&b&c"%string))) \/
   (exists n, plenty n = false) /\ s' = literal "a&b&c"%string).
Proof.
  apply (string_replace_correct plenty plenty 0xAA false (literal "a&b&c"%string) (literal "&"%string) (literal "&amp;"%string)
           (string_bytes "a&b&c"%string) (string_bytes "&"%string) (Some (string_bytes "&amp;"%string)));
    [literal_good|literal_good|literal_good|discriminate|vm_compute; discriminate|vm_compute; reflexivity|vm_compute; reflexivity].
Defined.

(** When the first occurrence is at index 0, the search of the last loop starts
    again at the end: a replacement that contains the searched text is
    replaced in turn, past the end of the block. *)
Example string_replace_overruns :
  String_replace plenty plenty 0xAA true (literal "&"%string) (literal "&amp;"%string) (literal "&x"%string) = None.
Proof. vm_compute. reflexivity. Qed.

(** An occurrence that begins in front of a replacement and ends in it is
    replaced too, without room for it. *)
Example string_replace_rematches :
  String_replace plenty plenty 0xAA true (literal "aab"%string) (literal "abxx"%string) (literal "aaab"%string) = None.
Proof. vm_compute. reflexivity. Qed.

(** Shrinking hands overlapping ranges to [memcpy]: undefined where it does not
    happen to copy from front to back. *)
Example string_replace_overlaps :
  String_replace plenty plenty 0xAA false (literal "ab"%string) (literal "c"%string) (literal "xxxab"%string) = None.
Proof. vm_compute. reflexivity. Qed.

(** Growing works from the right: of occurrences that overlap, the last one is
    replaced. *)
Example string_replace_from_right :
  option_map (fun '(_, s) => bytes_of s 0 (ws_len s)) (String_replace plenty plenty 0xAA true (literal "aa"%string) (literal "bbb"%string) (literal "aaa"%string)) =
  Some (Some (string_bytes "abbb"%string)).
Proof. vm_compute. reflexivity. Qed.
