(* ===== verification/Si2c.v ===== *)
(** * The software I2C master

    [Sming/SmingCore/core_esp8266_si2c.cpp] drives two open-drain lines.  The
    bus is the wired AND of the master and of a device, a parameter with its
    own state that senses the lines after every change and at every read of
    the input register, which is also how time passes.  The theorems run the
    master against a slave that follows the I2C protocol and stretches the
    clock: what is written arrives, what is read was sent, and every refusal is
    reported. *)

From S2P Require Import Prelude.

(** ** The bus *)

(** What a device pulls low, what it makes of the levels of SCL and SDA, and
    what it does as time passes. *)
Class I2CDevice (D : Type) := {
  scl_low : D -> bool;
  sda_low : D -> bool;
  sense : bool -> bool -> D -> D;
  tick : D -> D
}.

(** The variables of the file, the lines the master pulls low, and the device. *)
Record twi (D : Type) := {
  twi_dcount : Z; twi_sda : Z; twi_scl : Z; twi_clockStretchLimit : Z;
  drv_scl : bool; drv_sda : bool; dev : D
}.
Arguments twi_dcount {D}. Arguments twi_sda {D}. Arguments twi_scl {D}. Arguments twi_clockStretchLimit {D}.
Arguments drv_scl {D}. Arguments drv_sda {D}. Arguments dev {D}.

Section Master.
Context {D : Type} `{I2CDevice D}.

Definition line_scl (t : twi D) : bool := negb (drv_scl t) && negb (scl_low (dev t)).
Definition line_sda (t : twi D) : bool := negb (drv_sda t) && negb (sda_low (dev t)).
Definition with_lines (scl sda : bool) (d : D) (t : twi D) : twi D :=
  {| twi_dcount := twi_dcount t; twi_sda := twi_sda t; twi_scl := twi_scl t; twi_clockStretchLimit := twi_clockStretchLimit t;
     drv_scl := scl; drv_sda := sda; dev := d |}.
(** The device sees the lines. *)
Definition settle (t : twi D) : twi D := with_lines (drv_scl t) (drv_sda t) (sense (line_scl t) (line_sda t) (dev t)) t.

Definition SDA_LOW : M (twi D) unit := modify (fun t => settle (with_lines (drv_scl t) true (dev t) t)).
Definition SDA_HIGH : M (twi D) unit := modify (fun t => settle (with_lines (drv_scl t) false (dev t) t)).
Definition SCL_LOW : M (twi D) unit := modify (fun t => settle (with_lines true (drv_sda t) (dev t) t)).
Definition SCL_HIGH : M (twi D) unit := modify (fun t => settle (with_lines false (drv_sda t) (dev t) t)).
(** A read of [GPI]: the levels, and then time passes. *)
Definition pass (t : twi D) : twi D := settle (with_lines (drv_scl t) (drv_sda t) (tick (dev t)) t).
Definition SDA_READ : M (twi D) bool := let! b := gets line_sda in modify pass ;;; ret b.
Definition SCL_READ : M (twi D) bool := let! b := gets line_scl in modify pass ;;; ret b.

(** ** Configuration (a clock of 80 MHz) *)

Definition TWI_CLOCK_STRETCH_MULTIPLIER : Z := 3.
Definition set_dcount (n : Z) (t : twi D) : twi D :=
  {| twi_dcount := n; twi_sda := twi_sda t; twi_scl := twi_scl t; twi_clockStretchLimit := twi_clockStretchLimit t;
     drv_scl := drv_scl t; drv_sda := drv_sda t; dev := dev t |}.
Definition twi_setClock (freq : Z) : M (twi D) unit := modify (set_dcount (
  if freq <=? 100000 then 19 else
  if freq <=? 200000 then 8 else
  if freq <=? 300000 then 3 else
  if freq <=? 400000 then 1 else 1)).
Definition twi_setClockStretchLimit (limit : Z) : M (twi D) unit := modify (fun t =>
  {| twi_dcount := twi_dcount t; twi_sda := twi_sda t; twi_scl := twi_scl t;
     twi_clockStretchLimit := u32 (limit * TWI_CLOCK_STRETCH_MULTIPLIER);
     drv_scl := drv_scl t; drv_sda := drv_sda t; dev := dev t |}).
(** Both pins become inputs: the lines are released. *)
Definition release_pins : M (twi D) unit := modify (fun t => settle (with_lines false false (dev t) t)).
Definition twi_init (sda scl : Z) : M (twi D) unit :=
  modify (fun t => {| twi_dcount := twi_dcount t; twi_sda := u8 sda; twi_scl := u8 scl; twi_clockStretchLimit := twi_clockStretchLimit t;
                      drv_scl := drv_scl t; drv_sda := drv_sda t; dev := dev t |}) ;;;
  release_pins ;;;
  twi_setClock 100000 ;;;
  twi_setClockStretchLimit 230.
Definition twi_stop : M (twi D) unit := release_pins.

(** ** Bits *)

Fixpoint twi_delay (v : nat) : M (twi D) unit := match v with O => ret tt | S v => modify pass ;;; twi_delay v end.
Definition delay (more : Z) : M (twi D) unit := let! t := get in twi_delay (Z.to_nat (u8 (twi_dcount t + more))).

Definition twi_write_start : M (twi D) bool :=
  SCL_HIGH ;;;
  SDA_HIGH ;;;
  let! b := SDA_READ in
  if negb b then ret false else
  delay 0 ;;;
  SDA_LOW ;;;
  delay 0 ;;;
  ret true.

(** [while(SCL_READ() == 0 && (i++) < twi_clockStretchLimit)]: [turns] more
    turns. *)
Fixpoint wait_scl (turns : nat) : M (twi D) unit :=
  let! b := SCL_READ in
  if b : bool then ret tt else match turns with O => ret tt | S turns => wait_scl turns end.
Definition clock_stretching : M (twi D) unit := let! t := get in wait_scl (Z.to_nat (twi_clockStretchLimit t)).

Definition twi_write_stop : M (twi D) bool :=
  SCL_LOW ;;;
  SDA_LOW ;;;
  delay 0 ;;;
  SCL_HIGH ;;;
  clock_stretching ;;;
  delay 0 ;;;
  SDA_HIGH ;;;
  delay 0 ;;;
  ret true.

Definition twi_write_bit (bit : bool) : M (twi D) bool :=
  SCL_LOW ;;;
  (if bit then SDA_HIGH else SDA_LOW) ;;;
  delay 1 ;;;
  SCL_HIGH ;;;
  clock_stretching ;;;
  delay 0 ;;;
  ret true.

Definition twi_read_bit : M (twi D) bool :=
  SCL_LOW ;;;
  SDA_HIGH ;;;
  delay 2 ;;;
  SCL_HIGH ;;;
  clock_stretching ;;;
  let! bit := SDA_READ in
  delay 0 ;;;
  ret bit.

(** ** Bytes *)

(** [n] more bits. *)
Fixpoint write_bits (n : nat) (byte : Z) : M (twi D) unit :=
  match n with O => ret tt | S n => twi_write_bit (nz (Z.land byte 0x80)) ;;; write_bits n (u8 (Z.shiftl byte 1)) end.
Definition twi_write_byte (byte : Z) : M (twi D) bool :=
  write_bits 8 byte ;;;
  let! b := twi_read_bit in
  ret (negb b).

Fixpoint read_bits (n : nat) (byte : Z) : M (twi D) Z :=
  match n with
  | O => ret byte
  | S n => let! b := twi_read_bit in read_bits n (u8 (Z.lor (Z.shiftl byte 1) (if b : bool then 1 else 0)))
  end.
Definition twi_read_byte (nack : bool) : M (twi D) Z :=
  let! byte := read_bits 8 0 in
  twi_write_bit nack ;;;
  ret byte.

(** ** Transfers *)

Definition stop_if (sendStop : bool) : M (twi D) unit := if sendStop then twi_write_stop ;;; ret tt else ret tt.
(** [while(SDA_READ() == 0 && (i++) < 10)]. *)
Fixpoint release_sda (turns : nat) : M (twi D) unit :=
  let! b := SDA_READ in
  if b : bool then ret tt else
  match turns with
  | O => ret tt
  | S turns => SCL_LOW ;;; delay 0 ;;; SCL_HIGH ;;; delay 0 ;;; release_sda turns
  end.

(** The bytes are those of the caller's buffer. *)
Fixpoint write_all (buf : list Z) : M (twi D) bool :=
  match buf with
  | [] => ret true
  | c :: buf => let! ok := twi_write_byte c in if ok : bool then write_all buf else ret false
  end.
Definition twi_writeTo (address : Z) (buf : list Z) (sendStop : bool) : M (twi D) Z :=
  let! ok := twi_write_start in
  if negb ok then ret 4 else
  let! ok := twi_write_byte (Z.land (Z.lor (Z.shiftl address 1) 0) 0xFF) in
  if negb ok then stop_if sendStop ;;; ret 2 else
  let! ok := write_all buf in
  if negb ok then stop_if sendStop ;;; ret 3 else
  stop_if sendStop ;;;
  release_sda 10 ;;;
  ret 0.

(** The caller's buffer is threaded through; a store outside is a fault, so
    one turn more than it has room for is enough fuel. *)
Definition put_byte (buf : list Z) (i c : Z) : M (twi D) (list Z) :=
  if (0 <=? i) && (i <? zlen buf) then ret (setb buf i c) else fault.
Fixpoint read_loop (fuel : nat) (buf : list Z) (i last : Z) : M (twi D) (list Z) :=
  match fuel with
  | O => fault
  | S fuel =>
      if i <? last then
        let! c := twi_read_byte false in
        let! buf := put_byte buf i c in
        read_loop fuel buf (u32 (i + 1)) last
      else ret buf
  end.
Definition twi_readFrom (address : Z) (buf : list Z) (len : Z) (sendStop : bool) : M (twi D) (Z * list Z) :=
  let! ok := twi_write_start in
  if negb ok then ret (4, buf) else
  let! ok := twi_write_byte (Z.land (Z.lor (Z.shiftl address 1) 1) 0xFF) in
  if negb ok then stop_if sendStop ;;; ret (2, buf) else
  let! buf := read_loop (S (length buf)) buf 0 (u32 (len - 1)) in
  let! c := twi_read_byte true in
  let! buf := put_byte buf (u32 (len - 1)) c in
  stop_if sendStop ;;;
  release_sda 10 ;;;
  ret (0, buf).

(** ** Status *)

Definition I2C_OK : Z := 0.
Definition I2C_SCL_HELD_LOW : Z := 1.
Definition I2C_SCL_HELD_LOW_AFTER_READ : Z := 2.
Definition I2C_SDA_HELD_LOW : Z := 3.
Definition I2C_SDA_HELD_LOW_AFTER_INIT : Z := 4.

(** [clockCount] is never decremented. *)
Definition status_body (clockCount : Z) : M (twi D) (Z + option Z) :=
  let! sda := SDA_READ in
  if negb sda && (0 <? clockCount) then
    twi_read_bit ;;;
    let! scl := SCL_READ in
    if negb scl then ret (inr (Some I2C_SCL_HELD_LOW_AFTER_READ)) else ret (inl clockCount)
  else ret (inr None).
Definition twi_status (fuel : nat) : M (twi D) Z :=
  let! scl := SCL_READ in
  if negb scl then ret I2C_SCL_HELD_LOW else
  let! r := loop fuel status_body 20 in
  match r with
  | Some r => ret r
  | None =>
      let! sda := SDA_READ in
      if negb sda then ret I2C_SDA_HELD_LOW else
      let! ok := twi_write_start in
      ret (if negb ok then I2C_SDA_HELD_LOW_AFTER_INIT else I2C_OK)
  end.
End Master.

(** ** A slave *)

(** Between the edges of the clock: waiting for a start condition; [k] bits of
    a byte received, the address byte first; acknowledging; [k] bits of a byte
    still to send behind the one on the line; waiting for the acknowledgement
    of the master. *)
Inductive phase :=
  | Idle
  | Recv (addressed : bool) (k : nat) (sh : Z)
  | AckOut (reading : bool)
  | Send (k : nat) (byte : Z)
  | AckIn (ack : option bool).

Inductive condition := START | STOP.

(** Its address, how long it stretches the clock, how many bytes it will
    still accept, what it has got, what it will send, and the start and stop
    conditions it has seen on the bus. *)
Record slave_core := {
  s_addr : Z; s_stretch : nat; s_room : nat; s_got : list Z; s_supply : list Z; s_log : list condition; s_phase : phase; s_pull : bool
}.
Record slave := { core : slave_core; hold : nat; last_scl : bool; last_sda : bool }.

Definition go (p : phase) (pull : bool) (s : slave_core) : slave_core :=
  {| s_addr := s_addr s; s_stretch := s_stretch s; s_room := s_room s; s_got := s_got s; s_supply := s_supply s; s_log := s_log s; s_phase := p; s_pull := pull |}.
Definition logged (x : condition) (s : slave_core) : slave_core :=
  {| s_addr := s_addr s; s_stretch := s_stretch s; s_room := s_room s; s_got := s_got s; s_supply := s_supply s; s_log := s_log s ++ [x];
     s_phase := s_phase s; s_pull := s_pull s |}.
Definition keep (c : Z) (room : nat) (s : slave_core) : slave_core :=
  {| s_addr := s_addr s; s_stretch := s_stretch s; s_room := room; s_got := s_got s ++ [c]; s_supply := s_supply s; s_log := s_log s; s_phase := AckOut false; s_pull := true |}.
Definition send_next (s : slave_core) : slave_core :=
  let c := match s_supply s with c :: _ => c | [] => 0xFF end in
  {| s_addr := s_addr s; s_stretch := s_stretch s; s_room := s_room s; s_got := s_got s; s_supply := tail (s_supply s);
     s_log := s_log s; s_phase := Send 7 c; s_pull := negb (Z.testbit c 7) |}.

(** The falling edge of the clock: the slave changes what it drives. *)
Definition fall (s : slave_core) : slave_core :=
  match s_phase s with
  | Idle => go Idle false s
  | Recv false 8 sh => if sh / 2 =? s_addr s then go (AckOut (Z.odd sh)) true s else go Idle false s
  | Recv true 8 sh => match s_room s with O => go Idle false s | S room => keep sh room s end
  | Recv _ _ _ => s
  | AckOut false => go (Recv true 0 0) false s
  | AckOut true | AckIn (Some true) => send_next s
  | Send (S k) c => go (Send k c) (negb (Z.testbit c (Z.of_nat k))) s
  | Send O c => go (AckIn None) false s
  | AckIn _ => go Idle false s
  end.
(** The rising edge: it samples the line. *)
Definition rise (sda : bool) (s : slave_core) : slave_core :=
  match s_phase s with
  | Recv a k sh => go (Recv a (S k) (2 * sh + Z.b2z sda)) (s_pull s) s
  | AckIn None => go (AckIn (Some (negb sda))) (s_pull s) s
  | _ => s
  end.
(** A change of SDA while the clock is high is a start or a stop condition. *)
Definition slave_sense (scl sda : bool) (s : slave) : slave :=
  let falling := last_scl s && negb scl in
  let c :=
    if falling then fall (core s) else
    if negb (last_scl s) && scl then rise sda (core s) else
    if scl && last_sda s && negb sda then go (Recv false 0 0) false (logged START (core s)) else
    if scl && negb (last_sda s) && sda then go Idle false (logged STOP (core s)) else core s in
  {| core := c; hold := if falling then match s_phase (core s) with Idle => 0%nat | _ => s_stretch (core s) end else hold s; last_scl := scl; last_sda := sda |}.

#[export] Instance slave_device : I2CDevice slave := {
  scl_low s := negb (hold s =? 0)%nat;
  sda_low s := s_pull (core s);
  sense := slave_sense;
  tick s := {| core := core s; hold := pred (hold s); last_scl := last_scl s; last_sda := last_sda s |}
}.

(** ** One period of the clock *)

(** The bus with a high and with a low clock; [sda] is the level the master
    asks for. *)
Definition up (t : twi slave) (sda : bool) (c : slave_core) : twi slave :=
  with_lines false (negb sda) {| core := c; hold := 0; last_scl := true; last_sda := sda && negb (s_pull c) |} t.
Definition low (t : twi slave) (sda : bool) (c : slave_core) (h : nat) (x : bool) : twi slave :=
  with_lines true (negb sda) {| core := c; hold := h; last_scl := false; last_sda := x |} t.
Definition held (t : twi slave) (sda : bool) (c : slave_core) (h : nat) : twi slave :=
  with_lines false (negb sda) {| core := c; hold := h; last_scl := false; last_sda := sda && negb (s_pull c) |} t.

Lemma rise_pull b c : s_pull (rise b c) = s_pull c.
Proof. unfold rise. destruct (s_phase c) as [|a k sh|a|k x|[a|]]; done. Qed.

Lemma pass_up t b c : pass (up t b c) = up t b c.
Proof. destruct t, c as [? ? ? ? ? ? ? pull]. unfold pass, settle, up, with_lines, line_scl, line_sda. cbn. destruct b, pull; done. Qed.

Lemma delay_up t b c n : twi_delay n (up t b c) = Some (tt, up t b c).
Proof. induction n as [|n IH]; [done|]. cbn. unfold bind, modify. by rewrite pass_up. Qed.

Lemma scl_low_up t b c : exists x, SCL_LOW (up t b c) = Some (tt, low t b (fall c) (match s_phase c with Idle => 0 | _ => s_stretch c end)%nat x).
Proof. eexists. destruct t. unfold SCL_LOW, modify, settle, up, low, with_lines, line_scl, line_sda. cbn. done. Qed.

Lemma sda_low_phase t b (b' : bool) c h x :
  (if b' then SDA_HIGH else SDA_LOW : M (twi slave) unit) (low t b c h x) = Some (tt, low t b' c h (b' && negb (s_pull c))).
Proof. destruct t. unfold SDA_HIGH, SDA_LOW, modify, settle, low, with_lines, line_scl, line_sda. destruct b'; cbn; done. Qed.

Lemma delay_low t b c n : forall h x, exists x', twi_delay n (low t b c h x) = Some (tt, low t b c (h - n) x').
Proof.
  induction n as [|n IH]; intros h x; cbn [twi_delay]; [rewrite Nat.sub_0_r; by eexists|]. unfold bind, modify.
  assert (pass (low t b c h x) = low t b c (pred h) (b && negb (s_pull c))) as ->.
  { destruct t. unfold pass, settle, low, with_lines, line_scl, line_sda. cbn. by rewrite negb_involutive. }
  destruct (IH (pred h) (b && negb (s_pull c))) as [x' ->]. exists x'. do 3 f_equal. lia.
Qed.

(** What the slave makes of a period in which the master asks for [b]. *)
Definition clock (b : bool) (c : slave_core) : slave_core := rise (b && negb (s_pull (fall c))) (fall c).
(** The level at the rising edge. *)
Definition level (b : bool) (c : slave_core) : bool := b && negb (s_pull (fall c)).

Lemma scl_high_low t b c h x :
  SCL_HIGH (low t b c h x) =
  Some (tt, match h with O => up t b (rise (b && negb (s_pull c)) c) | S _ => held t b c h end).
Proof.
  destruct t. unfold SCL_HIGH, modify, settle, low, up, held, with_lines, line_scl, line_sda. destruct h as [|h]; cbn; rewrite negb_involutive; [|done].
  by rewrite rise_pull.
Qed.

Lemma wait_up t b c n : wait_scl n (up t b c) = Some (tt, up t b c).
Proof. destruct n; cbn [wait_scl]; unfold SCL_READ, bind, gets, modify; rewrite pass_up; done. Qed.

Lemma wait_held t b c h : forall n, (h <= n)%nat -> wait_scl n (held t b c (S h)) = Some (tt, up t b (rise (b && negb (s_pull c)) c)).
Proof.
  induction h as [|h IH]; intros n Hn.
  - assert (pass (held t b c 1) = up t b (rise (b && negb (s_pull c)) c)) as E.
    { destruct t. unfold pass, settle, held, up, with_lines, line_scl, line_sda. cbn. rewrite negb_involutive. by rewrite rise_pull. }
    destruct n as [|n]; cbn [wait_scl]; unfold SCL_READ, bind, gets, modify; rewrite E; cbn; [done|apply wait_up].
  - assert (pass (held t b c (S (S h))) = held t b c (S h)) as E.
    { destruct t. unfold pass, settle, held, with_lines, line_scl, line_sda. cbn. by rewrite negb_involutive. }
    destruct n as [|n]; [lia|]. cbn [wait_scl]. unfold SCL_READ, bind, gets, modify. rewrite E. cbn. apply IH. lia.
Qed.

(** The slave stretches no longer than the master waits. *)
Definition patient (t : twi slave) (c : slave_core) : Prop := Z.of_nat (s_stretch c) <= twi_clockStretchLimit t.

Lemma period t b (b' : bool) c more {A} (k : M (twi slave) A) : patient t c ->
  (SCL_LOW ;;; (if b' then SDA_HIGH else SDA_LOW : M (twi slave) unit) ;;; delay more ;;; SCL_HIGH ;;; clock_stretching ;;; k) (up t b c) = k (up t b' (clock b' c)).
Proof.
  intros Hp. unfold bind at 1. destruct (scl_low_up t b c) as [x ->]. unfold bind at 1. rewrite sda_low_phase. unfold bind at 1, delay, bind at 1, get.
  edestruct delay_low as [x' ->]. unfold bind at 1. rewrite scl_high_low. unfold bind, clock_stretching, bind, get.
  set (h := (_ - _)%nat). assert (h <= s_stretch c)%nat as Hh by (unfold h; destruct (s_phase c); lia).
  clearbody h. destruct h as [|h]; [by rewrite wait_up|]. rewrite wait_held; [done|]. unfold patient in Hp. cbn [twi_clockStretchLimit held with_lines]. lia.
Qed.

Lemma write_bit_up t b b' c : patient t c -> twi_write_bit b' (up t b c) = Some (true, up t b' (clock b' c)).
Proof. intros Hp. unfold twi_write_bit. rewrite period by done. unfold bind, delay, bind, get. by rewrite delay_up. Qed.

Lemma read_bit_up t b c : patient t c -> twi_read_bit (up t b c) = Some (level true c, up t true (clock true c)).
Proof.
  intros Hp. unfold twi_read_bit. change (@SDA_HIGH slave _) with (if true then @SDA_HIGH slave _ else @SDA_LOW slave _).
  rewrite period by done. unfold SDA_READ, bind, gets, modify. rewrite pass_up. unfold delay, bind, get, ret. rewrite delay_up. cbn. do 2 f_equal.
  unfold line_sda. cbn. unfold clock. by rewrite rise_pull.
Qed.


(** ** Bytes *)

Lemma go_stretch p b c : s_stretch (go p b c) = s_stretch c.
Proof. done. Qed.

Lemma fall_recv a k sh b c : (k < 8)%nat -> fall (go (Recv a k sh) b c) = go (Recv a k sh) b c.
Proof. intros Hk. unfold fall. cbn. do 8 (destruct k as [|k]; [by destruct a|]). lia. Qed.

Lemma clock_recv a k sh x c c0 : fall c = go (Recv a k sh) false c0 -> clock x c = go (Recv a (S k) (2 * sh + Z.b2z x)) false c0.
Proof. intros E. unfold clock. rewrite E. cbn. by rewrite andb_true_r. Qed.

(** The value of [n] bits, the most significant first, behind [sh]. *)
Fixpoint msb_bits (n : nat) (v sh : Z) : Z :=
  match n with O => sh | S n => msb_bits n (u8 (Z.shiftl v 1)) (2 * sh + Z.b2z (nz (Z.land v 0x80))) end.

Lemma msb_bits_8 v : is_byte v -> msb_bits 8 v 0 = v.
Proof. intros Hv. apply Z.eqb_eq. apply (forall_range 256 (fun v => msb_bits 8 v 0 =? v)); [vm_compute; reflexivity|done]. Qed.

Lemma patient_go t p b c : patient t (go p b c) <-> patient t c.
Proof. done. Qed.

Lemma write_bits_up t c0 a n : forall k sh v b c, patient t c -> patient t c0 ->
  fall c = go (Recv a k sh) false c0 -> (k + S n = 8)%nat ->
  exists b', write_bits (S n) v (up t b c) = Some (tt, up t b' (go (Recv a 8 (msb_bits (S n) v sh)) false c0)).
Proof.
  induction n as [|n IH]; intros k sh v b c Hp Hp0 E Hk; cbn [write_bits]; unfold bind at 1; rewrite write_bit_up by done; rewrite (clock_recv a k sh _ c c0) by done.
  - exists (nz (Z.land v 128)). cbn. by replace (S k) with 8%nat by lia.
  - destruct (IH (S k) (2 * sh + Z.b2z (nz (Z.land v 0x80))) (u8 (Z.shiftl v 1)) (nz (Z.land v 0x80)) (go (Recv a (S k) (2 * sh + Z.b2z (nz (Z.land v 0x80)))) false c0)) as [b' Eb];
      [done|done|apply fall_recv; lia|lia|]. exists b'. exact Eb.
Qed.

(** The slave behind a byte and its acknowledgement. *)
Definition taken (a : bool) (v : Z) (c0 : slave_core) : slave_core := fall (go (Recv a 8 v) false c0).

Lemma write_byte_up t a v b c c0 : patient t c -> patient t c0 -> is_byte v -> fall c = go (Recv a 0 0) false c0 ->
  twi_write_byte v (up t b c) = Some (s_pull (taken a v c0), up t true (taken a v c0)).
Proof.
  intros Hp Hp0 Hv E. unfold twi_write_byte, bind at 1. destruct (write_bits_up t c0 a 7 0 0 v b c Hp Hp0 E eq_refl) as [b' ->].
  rewrite msb_bits_8 by done. unfold bind. rewrite read_bit_up by done. unfold ret, level, clock. fold (taken a v c0). cbn [andb]. rewrite negb_involutive. do 3 f_equal.
  unfold taken, fall, keep. cbn. destruct a; [destruct (s_room c0)|destruct (v / 2 =? s_addr c0)]; done.
Qed.

Fixpoint lsb_bits (n : nat) (x acc : Z) : Z :=
  match n with O => acc | S n => lsb_bits n x (u8 (Z.lor (Z.shiftl acc 1) (if Z.testbit x (Z.of_nat n) then 1 else 0))) end.

Lemma lsb_bits_8 x : is_byte x -> lsb_bits 8 x 0 = x.
Proof. intros Hx. apply Z.eqb_eq. apply (forall_range 256 (fun x => lsb_bits 8 x 0 =? x)); [vm_compute; reflexivity|done]. Qed.

Lemma read_bits_up t c0 x k : forall acc b c, patient t c -> patient t c0 -> fall c = go (Send k x) (negb (Z.testbit x (Z.of_nat k))) c0 ->
  read_bits (S k) acc (up t b c) = Some (lsb_bits (S k) x acc, up t true (go (Send 0 x) (negb (Z.testbit x 0)) c0)).
Proof.
  induction k as [|k IH]; intros acc b c Hp Hp0 E; cbn [read_bits]; unfold bind; rewrite read_bit_up by done; unfold level, clock; rewrite E; cbn [s_pull go negb andb rise s_phase];
    rewrite negb_involutive; [done|]. apply IH; done.
Qed.

Lemma read_byte_up t x nack b c c0 : patient t c -> patient t c0 -> is_byte x -> fall c = go (Send 7 x) (negb (Z.testbit x 7)) c0 ->
  twi_read_byte nack (up t b c) = Some (x, up t nack (go (AckIn (Some (negb nack))) false c0)).
Proof.
  intros Hp Hp0 Hx E. unfold twi_read_byte, bind. rewrite (read_bits_up t c0 x 7 0 b c) by done. rewrite lsb_bits_8 by done.
  rewrite write_bit_up by done. unfold ret. do 3 f_equal. unfold clock, rise. cbn. by rewrite andb_true_r.
Qed.

(** ** Start and stop *)

Lemma write_start_up t c : s_pull c = false -> twi_write_start (up t true c) = Some (true, up t false (go (Recv false 0 0) false (logged START c))).
Proof.
  intros Hc. assert (SCL_HIGH (up t true c) = Some (tt, up t true c) /\ SDA_HIGH (up t true c) = Some (tt, up t true c) /\
    SDA_LOW (up t true c) = Some (tt, up t false (go (Recv false 0 0) false (logged START c)))) as (E1 & E2 & E3).
  { destruct t, c. cbn in Hc. rewrite Hc. unfold SCL_HIGH, SDA_HIGH, SDA_LOW, modify, settle, up, with_lines, line_scl, line_sda. cbn. done. }
  unfold twi_write_start, bind at 1. rewrite E1. unfold bind at 1. rewrite E2. unfold SDA_READ, bind, gets, modify, ret. rewrite pass_up.
  unfold line_sda at 1. cbn [dev up with_lines sda_low slave_device core drv_sda]. rewrite Hc. cbn [negb andb]. unfold delay, bind, get. rewrite delay_up, E3, delay_up. done.
Qed.

Lemma start_busy t c : s_pull c = true -> twi_write_start (up t true c) = Some (false, up t true c).
Proof.
  intros Hc. assert (SCL_HIGH (up t true c) = Some (tt, up t true c) /\ SDA_HIGH (up t true c) = Some (tt, up t true c)) as (E1 & E2).
  { destruct t, c. cbn in Hc. rewrite Hc. unfold SCL_HIGH, SDA_HIGH, modify, settle, up, with_lines, line_scl, line_sda. cbn. done. }
  unfold twi_write_start, bind at 1. rewrite E1. unfold bind at 1. rewrite E2. unfold SDA_READ, bind, gets, modify, ret. rewrite pass_up.
  unfold line_sda at 1. cbn [dev up with_lines sda_low slave_device core drv_sda]. by rewrite Hc.
Qed.

Lemma write_stop_up t b c : patient t c -> s_pull (fall c) = false ->
  twi_write_stop (up t b c) = Some (true, up t true (go Idle false (logged STOP (clock false c)))).
Proof.
  intros Hp Hf. unfold twi_write_stop. change (@SDA_LOW slave _) with (if false then @SDA_HIGH slave _ else @SDA_LOW slave _).
  rewrite period by done. unfold bind, delay, bind, get. rewrite delay_up.
  assert (SDA_HIGH (up t false (clock false c)) = Some (tt, up t true (go Idle false (logged STOP (clock false c))))) as ->.
  { assert (s_pull (clock false c) = false) as Hc by (unfold clock; by rewrite rise_pull). destruct t, (clock false c). cbn in Hc. rewrite Hc.
    unfold SDA_HIGH, modify, settle, up, with_lines, line_scl, line_sda. cbn. done. }
  rewrite delay_up. done.
Qed.

Lemma release_done t c n : s_pull c = false -> release_sda n (up t true c) = Some (tt, up t true c).
Proof.
  intros Hc. destruct n; cbn [release_sda]; unfold SDA_READ, bind, gets, modify, ret; rewrite pass_up;
    unfold line_sda at 1; cbn [dev up with_lines sda_low slave_device core drv_sda]; by rewrite Hc.
Qed.

(** ** Writing *)

(** The slave at rest behind a transfer that began with a start condition and
    ended with a stop condition. *)
Definition rest (room : nat) (got supply : list Z) (c : slave_core) : slave_core :=
  {| s_addr := s_addr c; s_stretch := s_stretch c; s_room := room; s_got := got; s_supply := supply;
     s_log := s_log c ++ [START; STOP]; s_phase := Idle; s_pull := false |}.

(** [c'] differs from [c] in what it has got. *)
Record stored_all (buf : list Z) (c c' : slave_core) : Prop := {
  sa_addr : s_addr c' = s_addr c;
  sa_stretch : s_stretch c' = s_stretch c;
  sa_supply : s_supply c' = s_supply c;
  sa_log : s_log c' = s_log c;
  sa_room : s_room c' = (s_room c - length buf)%nat;
  sa_got : s_got c' = s_got c ++ take (s_room c) buf;
  sa_phase : s_phase c' = if (length buf <=? s_room c)%nat then AckOut false else Idle;
  sa_pull : s_pull c' = (length buf <=? s_room c)%nat
}.

Lemma write_all_up t buf : forall c, patient t c -> s_phase c = AckOut false -> s_pull c = true -> Forall is_byte buf ->
  exists c', write_all buf (up t true c) = Some ((length buf <=? s_room c)%nat, up t true c') /\ stored_all buf c c'.
Proof.
  induction buf as [|v buf IH]; intros c Hp Hph Hpl Hb; cbn [write_all length].
  - exists c. split; [done|]. constructor; cbn; rewrite ?Nat.sub_0_r, ?take_nil, ?app_nil_r; done.
  - apply Forall_cons_1 in Hb as [Hv Hb]. unfold bind. rewrite (write_byte_up t true v true c c) by (try done; unfold fall; by rewrite Hph).
    unfold taken, fall. cbn [s_phase go s_room]. destruct (s_room c) as [|room] eqn:Er; cbn [s_pull go keep].
    + exists (go Idle false (go (Recv true 8 v) false c)). split; [done|]. constructor; cbn; rewrite ?Er, ?take_0, ?app_nil_r; done.
    + destruct (IH (keep v room (go (Recv true 8 v) false c))) as (c' & E & Hs); [done|done|done|done|]. cbn in E. rewrite E. exists c'. split; [done|].
      destruct Hs as [H1 H2 H3 Hlog H4 H5 H6 H7]. cbn in *. constructor; rewrite ?Er; cbn; try done. by rewrite H5, <- app_assoc.
Qed.

Lemma address_byte address rw : 0 <= address < 128 -> rw = 0 \/ rw = 1 -> Z.land (Z.lor (Z.shiftl address 1) rw) 0xFF = 2 * address + rw.
Proof.
  intros Ha Hr. apply Z.eqb_eq. destruct Hr as [->| ->]; [apply (forall_range 128 (fun a => Z.land (Z.lor (Z.shiftl a 1) 0) 255 =? 2 * a + 0))|
    apply (forall_range 128 (fun a => Z.land (Z.lor (Z.shiftl a 1) 1) 255 =? 2 * a + 1))]; done.
Qed.

(** Behind the address byte. *)
Lemma taken_address address rw c : 0 <= address < 128 -> rw = 0 \/ rw = 1 ->
  taken false (2 * address + rw) c = if address =? s_addr c then go (AckOut (rw =? 1)) true c else go Idle false c.
Proof.
  intros Ha Hr. unfold taken, fall. cbn [s_phase go s_addr]. replace ((2 * address + rw) / 2) with address by (destruct Hr as [->| ->]; Z.div_mod_to_equations; lia).
  destruct (address =? s_addr c); [|done]. rewrite Z.add_comm, Z.odd_add_mul_2. by destruct Hr as [->| ->].
Qed.

Lemma stop_up t b c : patient t c -> s_phase c = Idle \/ s_phase c = AckOut false \/ s_phase c = AckIn (Some false) ->
  stop_if true (up t b c) = Some (tt, up t true (go Idle false (logged STOP c))).
Proof.
  intros Hp Hph. unfold stop_if, bind. rewrite write_stop_up; [|done|unfold fall; by destruct Hph as [->|[->| ->]]]. cbn. do 3 f_equal.
  unfold clock, fall. by destruct Hph as [->|[->| ->]].
Qed.

Lemma twi_write_up t c address buf : patient t c -> s_pull c = false -> 0 <= address < 128 -> Forall is_byte buf ->
  twi_writeTo address buf true (up t true c) =
  if address =? s_addr c
  then Some (if (length buf <=? s_room c)%nat then 0 else 3,
             up t true (rest (s_room c - length buf) (s_got c ++ take (s_room c) buf) (s_supply c) c))
  else Some (2, up t true (rest (s_room c) (s_got c) (s_supply c) c)).
Proof.
  intros Hp Hpl Ha Hb. unfold twi_writeTo, bind at 1. rewrite write_start_up by done. cbn [negb]. unfold bind at 1.
  rewrite address_byte by auto. rewrite (write_byte_up t false _ false _ (logged START c)) by (first [done|unfold is_byte; lia]).
  rewrite taken_address by auto. cbn [s_addr logged]. destruct (Z.eqb_spec address (s_addr c)) as [Ea|Ea]; cbn [s_pull go negb].
  2:{ unfold bind at 1. rewrite stop_up by (first [done|by left]). unfold ret. do 3 f_equal. unfold rest, logged, go. cbn. by rewrite <- app_assoc. }
  change (0 =? 1) with false. unfold bind at 1. destruct (write_all_up t buf (go (AckOut false) true (logged START c))) as (c' & E & Hs); [done|done|done|done|]. rewrite E. cbn [s_room go] in *.
  destruct Hs as [H1 H2 H3 Hlog H4 H5 H6 H7]. cbn [s_room s_got s_addr s_stretch s_supply s_log logged go] in *.
  assert (patient t c') as Hp' by (unfold patient in *; rewrite H2; done).
  assert (go Idle false (logged STOP c') = rest (s_room c - length buf) (s_got c ++ take (s_room c) buf) (s_supply c) c) as Er.
  { unfold rest, logged, go. cbn. by rewrite H1, H2, H3, Hlog, H4, H5, <- app_assoc. }
  destruct (length buf <=? s_room c)%nat; cbn [negb]; unfold bind; rewrite stop_up, Er by auto; [|done]. by rewrite release_done.
Qed.

(** Writing: on a bus at rest, [twi_writeTo] sends the bytes to the slave with the
    address, which gets them in order, as far as it accepts them, however long
    (within the limit) it stretches the clock; the result tells a missing
    slave (2), a refused byte (3) and success (0) apart, and the bus is at
    rest again. *)
Theorem twi_writeTo_correct t c address buf : patient t c -> s_pull c = false -> 0 <= address < 128 -> Forall is_byte buf ->
  twi_writeTo address buf true (up t true c) =
  if address =? s_addr c
  then Some (if (length buf <=? s_room c)%nat then 0 else 3,
             up t true (rest (s_room c - length buf) (s_got c ++ take (s_room c) buf) (s_supply c) c))
  else Some (2, up t true (rest (s_room c) (s_got c) (s_supply c) c)).
Proof. apply twi_write_up. Qed.

(** ** Reading *)

(** The next bytes the slave sends; it sends ones when it has nothing left. *)
Definition next (supply : list Z) : Z := match supply with x :: _ => x | [] => 0xFF end.
Fixpoint sent (n : nat) (supply : list Z) : list Z := match n with O => [] | S n => next supply :: sent n (tail supply) end.

Lemma length_sent n supply : length (sent n supply) = n.
Proof. revert supply. induction n as [|n IH]; intros s; cbn; [done|by rewrite IH]. Qed.

Lemma tail_drop (n : nat) (l : list Z) : tail (drop n l) = drop (S n) l.
Proof. revert l. induction n as [|n IH]; intros l; destruct l; cbn; [done|done|done|]. rewrite IH. by destruct l. Qed.

Lemma sent_snoc n supply : sent (S n) supply = sent n supply ++ [next (drop n supply)].
Proof.
  revert supply. induction n as [|n IH]; intros s; [done|]. change (sent (S (S n)) s) with (next s :: sent (S n) (tail s)). rewrite IH. cbn. do 3 f_equal.
  destruct s; cbn; [by rewrite drop_nil|done].
Qed.

(** The slave sends another byte at the next falling edge. *)
Definition sending (c : slave_core) : Prop := s_phase c = AckOut true \/ s_phase c = AckIn (Some true).

Lemma send_next_go c : send_next c = go (Send 7 (next (s_supply c))) (negb (Z.testbit (next (s_supply c)) 7)) (send_next c).
Proof. done. Qed.

Lemma next_byte supply : Forall is_byte supply -> is_byte (next supply).
Proof. intros H. destruct supply as [|x s]; [done|]. by apply Forall_cons_1 in H as [Hx _]. Qed.

Lemma read_next t nack b c : patient t c -> Forall is_byte (s_supply c) -> sending c ->
  twi_read_byte nack (up t b c) = Some (next (s_supply c), up t nack (go (AckIn (Some (negb nack))) false (send_next c))).
Proof.
  intros Hp Hs Hc. apply (read_byte_up t _ nack b c (send_next c)); [done|done|by apply next_byte|].
  rewrite <- send_next_go. unfold fall. by destruct Hc as [->| ->].
Qed.

Lemma put_byte_in (t : twi slave) buf i c : 0 <= i < zlen buf -> put_byte buf i c t = Some (setb buf i c, t).
Proof. intros Hi. unfold put_byte. destruct (Z.leb_spec 0 i); [|lia]. by destruct (Z.ltb_spec i (zlen buf)); [|lia]. Qed.

Lemma read_loop_up t n : forall fuel pre old z b c, patient t c -> Forall is_byte (s_supply c) -> sending c ->
  length old = n -> (n < fuel)%nat -> zlen pre + zlen old + zlen z < 2 ^ 32 ->
  exists b' c', read_loop fuel (pre ++ old ++ z) (zlen pre) (zlen pre + Z.of_nat n) (up t b c) = Some (pre ++ sent n (s_supply c) ++ z, up t b' c') /\
    s_addr c' = s_addr c /\ s_stretch c' = s_stretch c /\ s_room c' = s_room c /\ s_got c' = s_got c /\ s_supply c' = drop n (s_supply c) /\ s_log c' = s_log c /\ sending c'.
Proof.
  induction n as [|n IH]; intros fuel pre old z b c Hp Hs Hc Ho Hf Hz; (destruct fuel as [|fuel]; [lia|]); cbn [read_loop].
  - destruct old; [|done]. destruct (Z.ltb_spec (zlen pre) (zlen pre + Z.of_nat 0)); [lia|]. exists b, c. done.
  - destruct old as [|x old]; [done|]. cbn in Ho. destruct (Z.ltb_spec (zlen pre) (zlen pre + Z.of_nat (S n))); [|lia]. rewrite zlen_cons in Hz.
    pose proof (zlen_nonneg pre). pose proof (zlen_nonneg old). pose proof (zlen_nonneg z).
    unfold bind at 1. rewrite read_next by done. unfold bind at 1. rewrite put_byte_in by (rewrite zlen_app; cbn [app]; rewrite zlen_cons, zlen_app; lia).
    assert (setb (pre ++ (x :: old) ++ z) (zlen pre) (next (s_supply c)) = (pre ++ [next (s_supply c)]) ++ old ++ z) as ->.
    { unfold setb, zlen. rewrite Nat2Z.id, <- app_assoc. rewrite <- (Nat.add_0_r (length pre)), insert_app_r. done. }
    rewrite u32_small by (unfold is_u32; lia).
    destruct (IH fuel (pre ++ [next (s_supply c)]) old z false (go (AckIn (Some (negb false))) false (send_next c))) as (b' & c' & E & G1 & G2 & G3 & G4 & G5 & Gl & G6);
      [done| |by right|lia|lia|rewrite zlen_app; change (zlen [_]) with 1; lia|].
    { cbn. destruct (s_supply c) as [|y s]; [done|]. by apply Forall_cons_1 in Hs as [_ Hs]. }
    replace (zlen (pre ++ [next (s_supply c)])) with (zlen pre + 1) in E by (rewrite zlen_app; done).
    replace (zlen pre + 1 + Z.of_nat n) with (zlen pre + Z.of_nat (S n)) in E by lia. rewrite E. exists b', c'. cbn [sent s_supply go send_next] in *.
    rewrite <- app_assoc. cbn in *. split; [done|]. split; [done|]. split; [done|]. split; [done|]. split; [done|]. split; [|split; done]. rewrite G5. destruct (s_supply c); cbn; by rewrite ?drop_nil.
Qed.

Lemma read_from_up t c address buf len : patient t c -> s_pull c = false -> 0 <= address < 128 -> Forall is_byte (s_supply c) ->
  1 <= len <= zlen buf -> zlen buf < 2 ^ 32 ->
  twi_readFrom address buf len true (up t true c) =
  if address =? s_addr c
  then Some ((0, sent (Z.to_nat len) (s_supply c) ++ drop (Z.to_nat len) buf),
             up t true (rest (s_room c) (s_got c) (drop (Z.to_nat len) (s_supply c)) c))
  else Some ((2, buf), up t true (rest (s_room c) (s_got c) (s_supply c) c)).
Proof.
  intros Hp Hpl Ha Hs Hl Hbuf. unfold twi_readFrom, bind at 1. rewrite write_start_up by done. cbn [negb]. unfold bind at 1.
  rewrite address_byte by auto. rewrite (write_byte_up t false _ false _ (logged START c)) by (first [done|unfold is_byte; lia]).
  rewrite taken_address by auto. cbn [s_addr logged]. destruct (Z.eqb_spec address (s_addr c)) as [Ea|Ea]; cbn [s_pull go negb].
  2:{ unfold bind at 1. rewrite stop_up by (first [done|by left]). unfold ret. do 3 f_equal. unfold rest, logged, go. cbn. by rewrite <- app_assoc. }
  change (1 =? 1) with true. rewrite u32_small by (unfold is_u32; lia). set (n := Z.to_nat (len - 1)).
  assert (exists old x z, buf = old ++ x :: z /\ length old = n) as (old & x & z & -> & Ho).
  { destruct (lookup_lt_is_Some_2 buf n) as [x Hx]; [unfold n, zlen in *; lia|]. exists (take n buf), x, (drop (S n) buf).
    rewrite take_drop_middle by done. split; [done|]. rewrite length_take. unfold n, zlen in *. lia. }
  rewrite zlen_app, zlen_cons in Hl, Hbuf. pose proof (zlen_nonneg z). unfold bind at 1.
  destruct (read_loop_up t n (S (length (old ++ x :: z))) [] old (x :: z) true (go (AckOut true) true (logged START c))) as (b' & c' & E & H1 & H2 & H3 & H4 & H5 & Hlog & H6);
    [done|done|by left|done|rewrite length_app; cbn; lia|rewrite zlen_cons; change (zlen (@nil Z)) with 0; unfold zlen in *; lia|].
  cbn [app] in E. change (zlen (@nil Z)) with 0 in E. rewrite Z.add_0_l in E. replace (Z.of_nat n) with (len - 1) in E by lia. rewrite E.
  cbn [s_supply go s_addr s_stretch s_room s_got s_log logged] in *.
  assert (Forall is_byte (s_supply c')) as Hs' by (rewrite H5; by apply Forall_drop).
  assert (patient t c') as Hp' by (unfold patient in *; by rewrite H2). unfold bind at 1. rewrite read_next by done.
  assert (zlen (sent n (s_supply c)) = len - 1) as Hn by (unfold zlen; rewrite length_sent; lia).
  unfold bind at 1. rewrite put_byte_in by (rewrite zlen_app, zlen_cons; lia). unfold bind at 1. rewrite stop_up by (first [done|auto]).
  unfold bind. rewrite release_done by done. unfold ret. replace (Z.to_nat len) with (S n) by lia. rewrite H5. do 2 f_equal.
  - f_equal. unfold setb. replace (Z.to_nat (len - 1)) with (length (sent n (s_supply c)) + 0)%nat by (unfold zlen in Hn; lia). rewrite insert_app_r. cbn [insert list_insert].
    rewrite sent_snoc, <- app_assoc. cbn [app]. do 2 f_equal. change (old ++ x :: z) with (old ++ [x] ++ z).
    rewrite app_assoc, drop_app_ge by (rewrite length_app; cbn; lia). rewrite length_app, Ho. by replace (S n - (n + length [x]))%nat with 0%nat by (cbn; lia).
  - f_equal. unfold rest, logged, go. cbn. by rewrite H1, H2, H3, H4, H5, Hlog, tail_drop, <- app_assoc.
Qed.

(** Reading: [twi_readFrom] fills the first [len] bytes of the buffer with the bytes
    the slave sends, and leaves the others alone; without a slave at the
    address it answers 2 and changes nothing. *)
Theorem twi_readFrom_correct t c address buf len : patient t c -> s_pull c = false -> 0 <= address < 128 -> Forall is_byte (s_supply c) ->
  1 <= len <= zlen buf -> zlen buf < 2 ^ 32 ->
  twi_readFrom address buf len true (up t true c) =
  if address =? s_addr c
  then Some ((0, sent (Z.to_nat len) (s_supply c) ++ drop (Z.to_nat len) buf),
             up t true (rest (s_room c) (s_got c) (drop (Z.to_nat len) (s_supply c)) c))
  else Some ((2, buf), up t true (rest (s_room c) (s_got c) (s_supply c) c)).
Proof. apply read_from_up. Qed.

(** ** A write without a stop condition, and a read *)

(** The clock let go of by the master; the slave holds it for [h] ticks. *)
Definition raised (t : twi slave) (b : bool) (c : slave_core) (h : nat) : twi slave :=
  match h with O => up t b (rise (b && negb (s_pull c)) c) | S _ => held t b c h end.

Lemma pass_raised t b c h : pass (raised t b c h) = raised t b c (pred h).
Proof.
  destruct h as [|[|h]]; [apply pass_up| |]; destruct t; unfold pass, settle, raised, held, up, with_lines, line_scl, line_sda; cbn; by rewrite negb_involutive, ?rise_pull.
Qed.

Lemma delay_raised t b c n : forall h, twi_delay n (raised t b c h) = Some (tt, raised t b c (h - n)).
Proof.
  induction n as [|n IH]; intros h; cbn [twi_delay]; [by rewrite Nat.sub_0_r|]. unfold bind, modify. rewrite pass_raised, IH. do 3 f_equal. lia.
Qed.

Lemma sda_read_raised t c h : s_pull c = false -> SDA_READ (raised t true c h) = Some (true, raised t true c (pred h)).
Proof.
  intros Hc. unfold SDA_READ, bind, gets, modify, ret. rewrite pass_raised. do 2 f_equal. unfold line_sda.
  destruct h; cbn; by rewrite ?rise_pull, Hc.
Qed.

(** The period of the clock in which the slave lets go of SDA: here the master
    does not wait for a stretched clock. *)
Lemma release_ack t c n : let d := Z.to_nat (u8 (twi_dcount t)) in s_phase c = AckOut false -> s_pull c = true ->
  release_sda (S n) (up t true c) = Some (tt, raised t true (fall c) (pred (s_stretch c - d - d))).
Proof.
  intros d Hph Hpl. cbn [release_sda]. unfold SDA_READ at 1, bind at 1 2 3, gets, modify at 1, ret at 1. rewrite pass_up.
  unfold line_sda at 1. cbn [dev up with_lines sda_low slave_device core drv_sda]. rewrite Hpl. cbn [negb andb].
  unfold bind at 1. destruct (scl_low_up t true c) as [x ->]. unfold bind at 1, delay at 1, bind at 1, get. rewrite Z.add_0_r.
  destruct (delay_low t true (fall c) d (s_stretch c) x) as [x' E]. rewrite Hph. cbn [twi_dcount low with_lines]. fold d. rewrite E.
  unfold bind at 1. rewrite scl_high_low. fold (raised t true (fall c) (s_stretch c - d)). unfold bind at 1, delay, bind at 1, get. rewrite Z.add_0_r.
  assert (twi_dcount (raised t true (fall c) (s_stretch c - d)) = twi_dcount t) as -> by by destruct (s_stretch c - d)%nat. fold d. rewrite delay_raised.
  assert (s_pull (fall c) = false) as Hf by (unfold fall; by rewrite Hph). destruct n; cbn [release_sda]; unfold bind at 1; by rewrite sda_read_raised.
Qed.

(** A start condition while the slave still holds the clock. *)
Lemma write_start_raised t c h : s_pull c = false -> (pred h <= Z.to_nat (u8 (twi_dcount t)))%nat ->
  twi_write_start (raised t true c h) = twi_write_start (up t true (rise true c)).
Proof.
  intros Hc Hh. rewrite write_start_up by by rewrite rise_pull. set (d := Z.to_nat (u8 (twi_dcount t))) in *.
  assert (SCL_HIGH (raised t true c h) = Some (tt, raised t true c h) /\ SDA_HIGH (raised t true c h) = Some (tt, raised t true c h)) as (E1 & E2).
  { destruct h, t, c; cbn in Hc; rewrite Hc; unfold SCL_HIGH, SDA_HIGH, modify, settle, raised, held, up, with_lines, line_scl, line_sda; cbn; rewrite ?rise_pull; done. }
  unfold twi_write_start, bind at 1. rewrite E1. unfold bind at 1. rewrite E2. unfold bind at 1. rewrite sda_read_raised by done. cbn [negb]. unfold bind at 1, delay at 1, bind at 1, get. rewrite Z.add_0_r.
  assert (twi_dcount (raised t true c (pred h)) = twi_dcount t) as -> by by destruct (pred h). fold d. rewrite delay_raised. replace (pred h - d)%nat with 0%nat by lia.
  cbn [raised]. rewrite Hc. cbn [andb negb]. unfold bind at 1.
  assert (SDA_LOW (up t true (rise true c)) = Some (tt, up t false (go (Recv false 0 0) false (logged START (rise true c))))) as ->.
  { pose proof (rise_pull true c) as Hr. rewrite Hc in Hr. destruct t, (rise true c). cbn in Hr. rewrite Hr. unfold SDA_LOW, modify, settle, up, with_lines, line_scl, line_sda. cbn. done. }
  unfold delay, bind, get. by rewrite delay_up.
Qed.

Lemma writeTo_no_stop t c buf : patient t c -> s_pull c = false -> 0 <= s_addr c < 128 -> Forall is_byte buf -> (length buf <= s_room c)%nat ->
  let d := Z.to_nat (u8 (twi_dcount t)) in
  exists c', twi_writeTo (s_addr c) buf false (up t true c) = Some (0, raised t true c' (pred (s_stretch c - d - d))) /\ s_pull c' = false /\ s_phase c' = Recv true 0 0 /\
    s_addr c' = s_addr c /\ s_stretch c' = s_stretch c /\ s_supply c' = s_supply c /\ s_room c' = (s_room c - length buf)%nat /\ s_got c' = s_got c ++ buf /\
    s_log c' = s_log c ++ [START].
Proof.
  intros Hp Hpl Ha Hb Hr d. unfold twi_writeTo, bind at 1. rewrite write_start_up by done. cbn [negb]. unfold bind at 1.
  rewrite address_byte by auto. rewrite (write_byte_up t false _ false _ (logged START c)) by (first [done|unfold is_byte; lia]).
  rewrite taken_address by auto. cbn [s_addr logged]. rewrite Z.eqb_refl. cbn [s_pull go negb]. change (0 =? 1) with false.
  unfold bind at 1. destruct (write_all_up t buf (go (AckOut false) true (logged START c))) as (c' & E & Hst); [done|done|done|done|]. rewrite E. cbn [s_room go logged] in *.
  destruct Hst as [H1 H2 H3 Hlog H4 H5 H6 H7]. cbn [s_room s_got s_addr s_stretch s_supply s_log logged go] in *. destruct (Nat.leb_spec (length buf) (s_room c)); [|lia].
  cbn [negb stop_if]. unfold bind at 1, ret at 1. unfold bind. rewrite (release_ack t c' 9) by done. rewrite H2. exists (fall c'). split; [done|].
  unfold fall. rewrite H6. cbn. rewrite H5, take_ge by lia. done.
Qed.

(** C18. The way registers of a device are read: a write of the register's
    address without a stop condition and a read, behind a second start
    condition, so that the device sees one transaction, START, START, STOP.
    The device may stretch every clock, also beyond the delay of the master,
    which waits for it, up to three delays and two polls: the clock on which it
    lets go of its acknowledgement is one the master does not wait for. *)
Theorem i2c_register_read t c reg buf len : patient t c -> s_pull c = false -> 0 <= s_addr c < 128 ->
  Forall is_byte reg -> Forall is_byte (s_supply c) -> (length reg <= s_room c)%nat -> Z.of_nat (s_stretch c) <= 3 * u8 (twi_dcount t) + 2 ->
  1 <= len <= zlen buf -> zlen buf < 2 ^ 32 ->
  exists c', (let! w := twi_writeTo (s_addr c) reg false in
     let! r := twi_readFrom (s_addr c) buf len true in
     ret (w, r)) (up t true c) =
    Some ((0, (0, sent (Z.to_nat len) (s_supply c) ++ drop (Z.to_nat len) buf)), up t true c') /\
    s_log c' = s_log c ++ [START; START; STOP] /\ s_got c' = s_got c ++ reg /\ s_supply c' = drop (Z.to_nat len) (s_supply c) /\
    s_addr c' = s_addr c /\ s_stretch c' = s_stretch c /\ s_room c' = (s_room c - length reg)%nat /\ s_phase c' = Idle /\ s_pull c' = false.
Proof.
  intros Hp Hpl Ha Hreg Hsup Hroom Hst Hl Hb.
  destruct (writeTo_no_stop t c reg) as (c' & E & G1 & Gp & G2 & G3 & G4 & G5 & G6 & Gl); [done..|]. unfold bind at 1. rewrite E. unfold bind.
  pose proof (read_from_up t (rise true c') (s_addr c) buf len) as Er. unfold twi_readFrom, bind at 1. rewrite write_start_raised by (done || lia). unfold twi_readFrom, bind at 1 in Er. rewrite Er;
    [|unfold patient, rise in *; rewrite Gp; cbn; by rewrite G3|by rewrite rise_pull|done|unfold rise; rewrite Gp; cbn; by rewrite G4|done|done].
  unfold rise. rewrite Gp. cbn [s_addr go]. rewrite G2, Z.eqb_refl. cbn [s_supply go]. rewrite G4. eexists. split; [done|]. cbn. rewrite Gl, G2, G3, G5, G6, <- app_assoc. done.
Qed.

(** ** A device that holds the data line *)

Definition dead_device : I2CDevice unit := {| scl_low _ := false; sda_low _ := true; sense _ _ d := d; tick d := d |}.

(** C22. Where a device keeps SDA low, [twi_status] never returns: the counter
    of its loop is not decremented. *)
Theorem twi_status_hangs fuel (t : twi unit) : drv_scl t = false -> twi_status (H := dead_device) fuel t = None.
Proof.
  assert (forall n (t : twi unit), twi_delay (H := dead_device) n t = Some (tt, t)) as Hd.
  { induction n as [|n IH]; intros [? ? ? ? ? ? []]; [done|]. cbn. unfold bind, modify. apply IH. }
  assert (forall n (t : twi unit), drv_scl t = false -> wait_scl (H := dead_device) n t = Some (tt, t)) as Hw.
  { intros n [? ? ? ? a b []] Ht. cbn in Ht. rewrite Ht. destruct n; done. }
  assert (forall (t : twi unit), drv_scl t = false -> exists t', status_body (H := dead_device) 20 t = Some (inl 20, t') /\ drv_scl t' = false) as Hb.
  { intros t0 Ht0. unfold status_body, twi_read_bit, SDA_READ, SCL_READ, SCL_LOW, SDA_HIGH, SCL_HIGH, clock_stretching, delay, bind, gets, modify, get, ret.
    cbn -[wait_scl twi_delay]. unfold line_sda. cbn -[wait_scl twi_delay]. rewrite andb_false_r. cbn -[wait_scl twi_delay]. rewrite !Hd. cbn -[wait_scl twi_delay].
    rewrite Hw by done. cbn -[twi_delay]. rewrite Hd. by eexists. }
  intros Ht. unfold twi_status, SCL_READ, bind at 1 2 3, gets, modify, ret. cbn -[loop]. unfold line_scl. cbn -[loop]. rewrite Ht. cbn -[loop]. unfold bind at 1.
  assert (forall fuel (t : twi unit), drv_scl t = false -> loop fuel (status_body (H := dead_device)) 20 t = None) as Hl.
  { intros n. induction n as [|k IH]; intros t0 Ht0; [done|]. cbn [loop]. destruct (Hb t0 Ht0) as (t' & -> & Ht'). by apply IH. }
  by rewrite Hl.
Qed.

(** ** Instances *)

Definition demo_slave : slave_core :=
  {| s_addr := 0x50; s_stretch := 5; s_room := 3; s_got := []; s_supply := [0xA5; 0x3C]; s_log := []; s_phase := Idle; s_pull := false |}.
Definition demo_bus : twi slave :=
  {| twi_dcount := 19; twi_sda := 2; twi_scl := 0; twi_clockStretchLimit := 690; drv_scl := false; drv_sda := false;
     dev := {| core := demo_slave; hold := 0; last_scl := true; last_sda := true |} |}.

Lemma twi_writeTo_correct_witness :
  twi_writeTo 0x50 [1; 2; 0xFF; 4] true (up demo_bus true demo_slave) =
  Some (3, up demo_bus true (rest 0 [1; 2; 0xFF] [0xA5; 0x3C] demo_slave)).
Proof.
  apply (twi_writeTo_correct demo_bus demo_slave 0x50 [1; 2; 0xFF; 4]); [unfold patient; cbn; lia|reflexivity|lia|].
  repeat constructor; unfold is_byte; lia.
Defined.

Lemma twi_readFrom_correct_witness :
  twi_readFrom 0x50 [7; 7; 7; 7] 3 true (up demo_bus true demo_slave) =
  Some ((0, [0xA5; 0x3C; 0xFF; 7]), up demo_bus true (rest 3 [] [] demo_slave)).
Proof.
  apply (twi_readFrom_correct demo_bus demo_slave 0x50 [7; 7; 7; 7] 3); [unfold patient; cbn; lia|reflexivity|lia| |unfold zlen; cbn; lia|reflexivity].
  repeat constructor; unfold is_byte; lia.
Defined.

(** A device that stretches beyond the delays of the master, and one that
    stretches one tick longer than it may, with the limit of [twi_init]. *)
Definition slow_slave (stretch : nat) : slave_core :=
  {| s_addr := 0x50; s_stretch := stretch; s_room := 3; s_got := []; s_supply := [0xA5; 0x3C]; s_log := []; s_phase := Idle; s_pull := false |}.
Definition register_read : M (twi slave) (Z * (Z * list Z)) :=
  let! w := twi_writeTo 0x50 [0x10] false in let! r := twi_readFrom 0x50 [0; 0] 2 true in ret (w, r).

Lemma i2c_register_read_witness : exists c',
  register_read (up demo_bus true (slow_slave 59)) = Some ((0, (0, [0xA5; 0x3C])), up demo_bus true c') /\
  s_log c' = [START; START; STOP] /\ s_got c' = [0x10] /\ s_supply c' = [] /\
  s_addr c' = 0x50 /\ s_stretch c' = 59%nat /\ s_room c' = 2%nat /\ s_phase c' = Idle /\ s_pull c' = false.
Proof.
  apply (i2c_register_read demo_bus (slow_slave 59) [0x10] [0; 0] 2);
    [unfold patient; cbn; lia|reflexivity|cbn; lia|repeat constructor; unfold is_byte; lia|repeat constructor; unfold is_byte; lia|cbn; lia|cbn; vm_compute; discriminate
    |unfold zlen; cbn; lia|reflexivity].
Defined.

Example i2c_register_read_stretched :
  patient demo_bus (slow_slave 60) /\
  option_map (fun '(r, t) => (r, s_log (core (dev t)))) (register_read (up demo_bus true (slow_slave 60))) <> Some ((0, (0, [0xA5; 0x3C])), [START; START; STOP]).
Proof. split; [by vm_compute|]. vm_compute. discriminate. Qed.

Lemma twi_status_hangs_witness :
  let t := {| twi_dcount := 19; twi_sda := 2; twi_scl := 0; twi_clockStretchLimit := 690; drv_scl := false; drv_sda := false; dev := tt |} in
  twi_status (H := dead_device) 1000 t = None.
Proof. apply (twi_status_hangs 1000). reflexivity. Defined.

(** A length of 0 reads on past the end of the buffer. *)
Example twi_readFrom_0_overruns : twi_readFrom 0x50 (replicate 32 0) 0 true (up demo_bus true demo_slave) = None.
Proof. vm_compute. reflexivity. Qed.
