(* ===== verification/Wire.v ===== *)
(** * The two-wire interface

    [Sming/SmingCore/Wire.cpp]: the class over the software I2C master of
    [Si2c], with its two buffers of 32 bytes.  The theorems compose the calls
    of a program with the master and the slave. *)

From S2P Require Import Prelude Si2c.

Definition BUFFER_LENGTH : Z := 32.

(** The static members, the default pins, the error flag of [Print], and the
    bus. *)
Record wire (D : Type) := {
  rxBuffer : list Z; rxBufferIndex : Z; rxBufferLength : Z;
  txAddress : Z; txBuffer : list Z; txBufferIndex : Z; txBufferLength : Z; transmitting : Z;
  default_sda_pin : Z; default_scl_pin : Z; write_error : Z; bus : twi D
}.
Arguments rxBuffer {D}. Arguments rxBufferIndex {D}. Arguments rxBufferLength {D}. Arguments txAddress {D}. Arguments txBuffer {D}.
Arguments txBufferIndex {D}. Arguments txBufferLength {D}. Arguments transmitting {D}. Arguments default_sda_pin {D}.
Arguments default_scl_pin {D}. Arguments write_error {D}. Arguments bus {D}.

Section Wire.
Context {D : Type} `{I2CDevice D}.

Definition set_bus (t : twi D) (w : wire D) : wire D :=
  {| rxBuffer := rxBuffer w; rxBufferIndex := rxBufferIndex w; rxBufferLength := rxBufferLength w; txAddress := txAddress w; txBuffer := txBuffer w;
     txBufferIndex := txBufferIndex w; txBufferLength := txBufferLength w; transmitting := transmitting w; default_sda_pin := default_sda_pin w;
     default_scl_pin := default_scl_pin w; write_error := write_error w; bus := t |}.
Definition set_rx (b : list Z) (i n : Z) (w : wire D) : wire D :=
  {| rxBuffer := b; rxBufferIndex := u8 i; rxBufferLength := u8 n; txAddress := txAddress w; txBuffer := txBuffer w;
     txBufferIndex := txBufferIndex w; txBufferLength := txBufferLength w; transmitting := transmitting w; default_sda_pin := default_sda_pin w;
     default_scl_pin := default_scl_pin w; write_error := write_error w; bus := bus w |}.
Definition set_tx (b : list Z) (i n : Z) (w : wire D) : wire D :=
  {| rxBuffer := rxBuffer w; rxBufferIndex := rxBufferIndex w; rxBufferLength := rxBufferLength w; txAddress := txAddress w; txBuffer := b;
     txBufferIndex := u8 i; txBufferLength := u8 n; transmitting := transmitting w; default_sda_pin := default_sda_pin w;
     default_scl_pin := default_scl_pin w; write_error := write_error w; bus := bus w |}.
Definition set_transmitting (on address : Z) (w : wire D) : wire D :=
  {| rxBuffer := rxBuffer w; rxBufferIndex := rxBufferIndex w; rxBufferLength := rxBufferLength w; txAddress := address; txBuffer := txBuffer w;
     txBufferIndex := txBufferIndex w; txBufferLength := txBufferLength w; transmitting := on; default_sda_pin := default_sda_pin w;
     default_scl_pin := default_scl_pin w; write_error := write_error w; bus := bus w |}.
Definition set_default_pins (sda scl : Z) (w : wire D) : wire D :=
  {| rxBuffer := rxBuffer w; rxBufferIndex := rxBufferIndex w; rxBufferLength := rxBufferLength w; txAddress := txAddress w; txBuffer := txBuffer w;
     txBufferIndex := txBufferIndex w; txBufferLength := txBufferLength w; transmitting := transmitting w; default_sda_pin := sda;
     default_scl_pin := scl; write_error := write_error w; bus := bus w |}.
Definition setWriteError (w : wire D) : wire D :=
  {| rxBuffer := rxBuffer w; rxBufferIndex := rxBufferIndex w; rxBufferLength := rxBufferLength w; txAddress := txAddress w; txBuffer := txBuffer w;
     txBufferIndex := txBufferIndex w; txBufferLength := txBufferLength w; transmitting := transmitting w; default_sda_pin := default_sda_pin w;
     default_scl_pin := default_scl_pin w; write_error := 1; bus := bus w |}.
Definition on_bus {A} (m : M (twi D) A) : M (wire D) A := zoom bus set_bus m.

Definition TwoWire_flush : M (wire D) unit :=
  modify (fun w => set_rx (rxBuffer w) 0 0 w) ;;; modify (fun w => set_tx (txBuffer w) 0 0 w).
Definition TwoWire_pins (sda scl : Z) : M (wire D) unit := modify (set_default_pins sda scl).
Definition TwoWire_begin_pins (sda scl : Z) : M (wire D) unit :=
  modify (set_default_pins sda scl) ;;;
  on_bus (twi_init sda scl) ;;;
  TwoWire_flush.
Definition TwoWire_begin : M (wire D) unit := let! w := get in TwoWire_begin_pins (default_sda_pin w) (default_scl_pin w).
Definition TwoWire_status (fuel : nat) : M (wire D) Z := on_bus (twi_status fuel).
Definition TwoWire_setClock (frequency : Z) : M (wire D) unit := on_bus (twi_setClock frequency).
Definition TwoWire_setClockStretchLimit (limit : Z) : M (wire D) unit := on_bus (twi_setClockStretchLimit limit).

Definition TwoWire_requestFrom (address size : Z) (sendStop : bool) : M (wire D) Z :=
  let size := if BUFFER_LENGTH <? size then BUFFER_LENGTH else size in
  let! w := get in
  let! (r, b) := on_bus (twi_readFrom address (rxBuffer w) size sendStop) in
  let read := if r =? 0 then size else 0 in
  modify (set_rx b 0 read) ;;;
  ret read.
(** The overloads with narrower arguments. *)
Definition TwoWire_requestFrom_quantity (address quantity : Z) : M (wire D) Z :=
  let! n := TwoWire_requestFrom (u8 address) (u8 quantity) true in ret (u8 n).
Definition TwoWire_requestFrom_u8 (address quantity sendStop : Z) : M (wire D) Z :=
  let! n := TwoWire_requestFrom (u8 address) (u8 quantity) (nz (u8 sendStop)) in ret (u8 n).
Definition TwoWire_requestFrom_int (address quantity : Z) (sendStop : option Z) : M (wire D) Z :=
  let! n := TwoWire_requestFrom (u8 address) (u32 quantity) (match sendStop with Some b => nz b | None => true end) in ret (u8 n).

Definition TwoWire_beginTransmission (address : Z) : M (wire D) unit :=
  modify (set_transmitting 1 (u8 address)) ;;;
  modify (fun w => set_tx (txBuffer w) 0 0 w).
Definition TwoWire_endTransmission (sendStop : bool) : M (wire D) Z :=
  let! w := get in
  let! r := on_bus (twi_writeTo (txAddress w) (take (Z.to_nat (txBufferLength w)) (txBuffer w)) sendStop) in
  modify (fun w => set_tx (txBuffer w) 0 0 w) ;;;
  modify (fun w => set_transmitting 0 (txAddress w) w) ;;;
  ret (u8 (s8 r)).

(** A store outside the buffer is a fault. *)
Definition TwoWire_write (data : Z) : M (wire D) Z :=
  let! w := get in
  if nz (transmitting w) then
    if BUFFER_LENGTH <=? txBufferLength w then modify setWriteError ;;; ret 0 else
    if txBufferIndex w <? zlen (txBuffer w) then
      modify (fun w => set_tx (setb (txBuffer w) (txBufferIndex w) data) (txBufferIndex w + 1) (txBufferIndex w + 1) w) ;;;
      ret 1
    else fault
  else ret 1.
Fixpoint write_loop (data : list Z) (i : Z) : M (wire D) (option Z) :=
  match data with
  | [] => ret None
  | c :: data => let! n := TwoWire_write c in if n =? 0 then ret (Some i) else write_loop data (i + 1)
  end.
Definition TwoWire_write_data (data : list Z) : M (wire D) Z :=
  let! w := get in
  if nz (transmitting w) then
    let! r := write_loop data 0 in
    ret (match r with Some i => i | None => zlen data end)
  else ret (zlen data).

Definition TwoWire_available (w : wire D) : Z := rxBufferLength w - rxBufferIndex w.
Definition TwoWire_peek (w : wire D) : Z := if rxBufferIndex w <? rxBufferLength w then getb (rxBuffer w) (rxBufferIndex w) else -1.
Definition TwoWire_read : M (wire D) Z :=
  let! w := get in
  if rxBufferIndex w <? rxBufferLength w then
    modify (fun w => set_rx (rxBuffer w) (rxBufferIndex w + 1) (rxBufferLength w) w) ;;;
    ret (getb (rxBuffer w) (rxBufferIndex w))
  else ret (-1).
End Wire.

(** ** What the buffers hold *)

Record wire_ok {D} (w : wire D) : Prop := {
  wo_rx : zlen (rxBuffer w) = BUFFER_LENGTH;
  wo_tx : zlen (txBuffer w) = BUFFER_LENGTH;
  wo_rx_index : 0 <= rxBufferIndex w <= rxBufferLength w;
  wo_rx_length : rxBufferLength w <= BUFFER_LENGTH;
  wo_tx_index : txBufferIndex w = txBufferLength w;
  wo_tx_length : 0 <= txBufferLength w <= BUFFER_LENGTH
}.
(** The bytes waiting to be sent. *)
Definition pending {D} (w : wire D) : list Z := take (Z.to_nat (txBufferLength w)) (txBuffer w).

Section Transfers.
Context {D : Type} `{I2CDevice D}.

Lemma write_one (w : wire D) c : wire_ok w -> transmitting w = 1 ->
  exists w', TwoWire_write c w = Some (if txBufferLength w <? BUFFER_LENGTH then 1 else 0, w') /\ wire_ok w' /\
    pending w' = pending w ++ (if txBufferLength w <? BUFFER_LENGTH then [c] else []) /\
    txBufferLength w' = (if txBufferLength w <? BUFFER_LENGTH then txBufferLength w + 1 else txBufferLength w) /\
    transmitting w' = 1 /\ txAddress w' = txAddress w /\ bus w' = bus w.
Proof.
  intros [O1 O2 O3 O4 O5 O6] Ht. unfold TwoWire_write, bind, get. rewrite Ht. cbn [nz Z.eqb negb]. change (nz 1) with true. unfold BUFFER_LENGTH in *.
  destruct (Z.leb_spec 32 (txBufferLength w)); destruct (Z.ltb_spec (txBufferLength w) 32); try lia.
  - eexists. split; [done|]. split; [by constructor|]. unfold pending. cbn. by rewrite app_nil_r.
  - rewrite O5, O2. destruct (Z.ltb_spec (txBufferLength w) 32); [|lia]. unfold modify, ret, set_tx. rewrite O5. rewrite u8_small by (unfold is_byte; lia).
    eexists. split; [done|]. split; [constructor; cbn; unfold BUFFER_LENGTH; rewrite ?zlen_setb; first [done|lia]|]. cbn. split; [|done].
    unfold pending. cbn. replace (Z.to_nat (txBufferLength w + 1)) with (S (Z.to_nat (txBufferLength w))) by lia. unfold setb.
    rewrite (take_S_r _ _ c) by (apply list_lookup_insert_eq; unfold zlen in O2; lia). by rewrite take_insert_ge by lia.
Qed.

Lemma write_loop_spec data : forall (w : wire D) i, wire_ok w -> transmitting w = 1 ->
  exists w', write_loop data i w = Some (if zlen data <=? BUFFER_LENGTH - txBufferLength w then None else Some (i + (BUFFER_LENGTH - txBufferLength w)), w') /\
    wire_ok w' /\ pending w' = pending w ++ take (Z.to_nat (BUFFER_LENGTH - txBufferLength w)) data /\ transmitting w' = 1 /\ txAddress w' = txAddress w /\ bus w' = bus w.
Proof.
  induction data as [|c data IH]; intros w i Hw Ht; cbn [write_loop].
  - exists w. pose proof (wo_tx_length _ Hw). destruct (Z.leb_spec (zlen (@nil Z)) (BUFFER_LENGTH - txBufferLength w)); [|change (zlen (@nil Z)) with 0 in *; lia].
    rewrite take_nil, app_nil_r. done.
  - unfold bind. destruct (write_one w c Hw Ht) as (w1 & -> & Hw1 & Hp1 & Hl1 & Ht1 & Ha1 & Hb1). pose proof (wo_tx_length _ Hw) as Hl. rewrite zlen_cons.
    pose proof (zlen_nonneg data). destruct (Z.ltb_spec (txBufferLength w) BUFFER_LENGTH) as [Hlt|Hge]; cbn [Z.eqb].
    + destruct (IH w1 (i + 1) Hw1 Ht1) as (w2 & -> & Hw2 & Hp2 & Ht2 & Ha2 & Hb2). exists w2. rewrite Hl1. split.
      { do 2 f_equal. destruct (Z.leb_spec (zlen data) (BUFFER_LENGTH - (txBufferLength w + 1))); destruct (Z.leb_spec (1 + zlen data) (BUFFER_LENGTH - txBufferLength w)); try lia; [done|f_equal; lia]. }
      split; [done|]. split; [|by rewrite Ha2, Hb2]. rewrite Hp2, Hp1, Hl1, <- app_assoc. f_equal.
      replace (Z.to_nat (BUFFER_LENGTH - txBufferLength w)) with (S (Z.to_nat (BUFFER_LENGTH - (txBufferLength w + 1)))) by lia. done.
    + exists w1. destruct (Z.leb_spec (1 + zlen data) (BUFFER_LENGTH - txBufferLength w)); [lia|]. replace (BUFFER_LENGTH - txBufferLength w) with 0 by lia.
      rewrite Z.add_0_r. split; [done|]. split; [done|]. rewrite Hp1. done.
Qed.
End Transfers.

(** C17. A transmission: between [beginTransmission] and [endTransmission] the first 32
    bytes written are kept, [write] tells how many, and the slave gets them in order, as
    far as it accepts them. *)
Theorem wire_transmission t c (w : wire slave) address data :
  wire_ok w -> bus w = up t true c -> patient t c -> s_pull c = false -> 0 <= address < 128 -> Forall is_byte data ->
  let kept := take 32 data in
  exists w', (TwoWire_beginTransmission address ;;; let! n := TwoWire_write_data data in let! r := TwoWire_endTransmission true in ret (n, r)) w =
      Some ((zlen kept, if address =? s_addr c then if (length kept <=? s_room c)%nat then 0 else 3 else 2), w') /\
    wire_ok w' /\
    bus w' = up t true (if address =? s_addr c then rest (s_room c - length kept) (s_got c ++ take (s_room c) kept) (s_supply c) c
                        else rest (s_room c) (s_got c) (s_supply c) c).
Proof.
  intros Hw Hbus Hp Hpl Ha Hd kept. unfold bind at 1, TwoWire_beginTransmission, bind at 1, modify. set (w0 := set_tx _ 0 0 _).
  assert (wire_ok w0) as Hw0 by (destruct Hw; constructor; cbn; done).
  assert (txAddress w0 = address) as Ha0 by (cbn; apply u8_small; unfold is_byte; lia).
  unfold bind at 1, TwoWire_write_data, bind at 1, get. change (nz (transmitting w0)) with true. cbv iota. unfold bind at 1.
  destruct (write_loop_spec data w0 0 Hw0 eq_refl) as (w1 & -> & Hw1 & Hp1 & Ht1 & Ha1 & Hb1). change (txBufferLength w0) with 0 in *. rewrite Z.sub_0_r in *.
  change (Z.to_nat BUFFER_LENGTH) with 32%nat in Hp1. change (pending w0) with (@nil Z) in Hp1. cbn [app] in Hp1. fold kept in Hp1.
  unfold bind, TwoWire_endTransmission, bind, get, on_bus, zoom, ret, modify. fold (pending w1). rewrite Hp1, Ha1, Ha0, Hb1.
  change (bus w0) with (bus w). rewrite Hbus.
  rewrite (twi_write_up t c address kept) by (first [done|by apply Forall_take]).
  assert ((if zlen data <=? BUFFER_LENGTH then zlen data else 0 + BUFFER_LENGTH) = zlen kept) as En.
  { unfold kept. rewrite zlen_take. unfold BUFFER_LENGTH. destruct (Z.leb_spec (zlen data) 32); lia. }
  destruct (address =? s_addr c).
  - destruct (length kept <=? s_room c)%nat; (eexists; split; [destruct (zlen data <=? BUFFER_LENGTH); rewrite <- En; reflexivity|]; split; [destruct Hw1; constructor; cbn; done|done]).
  - eexists; split; [destruct (zlen data <=? BUFFER_LENGTH); rewrite <- En; reflexivity|]; split; [destruct Hw1; constructor; cbn; done|done].
Qed.

Fixpoint read_many {D} (k : nat) : M (wire D) (list Z) :=
  match k with O => ret [] | S k => let! c := TwoWire_read in let! l := read_many k in ret (c :: l) end.

Lemma read_many_spec {D} k : forall (w : wire D) l, wire_ok w -> slice (rxBuffer w) (Z.to_nat (rxBufferIndex w)) (Z.to_nat (rxBufferLength w - rxBufferIndex w)) = l -> length l = k ->
  exists w', read_many (S k) w = Some (l ++ [-1], w') /\ bus w' = bus w /\ wire_ok w'.
Proof.
  induction k as [|k IH]; intros w l Hw Hl Hk; pose proof Hw as [O1 O2 O3 O4 O5 O6]; unfold BUFFER_LENGTH, zlen in O1.
  - destruct l; [|done]. apply (f_equal length) in Hl. unfold slice in Hl. rewrite length_take, length_drop in Hl. cbn in Hl.
    cbn [read_many]. unfold bind, TwoWire_read, bind, get. unfold BUFFER_LENGTH in *. destruct (Z.ltb_spec (rxBufferIndex w) (rxBufferLength w)); [lia|]. by exists w.
  - destruct l as [|x l]; [done|]. unfold BUFFER_LENGTH in *. assert (rxBufferIndex w < rxBufferLength w) as Hlt.
    { destruct (Z.lt_ge_cases (rxBufferIndex w) (rxBufferLength w)); [done|]. replace (Z.to_nat (rxBufferLength w - rxBufferIndex w)) with 0%nat in Hl by lia. done. }
    change (read_many (S (S k))) with (let! c := TwoWire_read in let! l := read_many (D := D) (S k) in ret (c :: l)). unfold bind at 1, TwoWire_read, bind at 1, get.
    destruct (Z.ltb_spec (rxBufferIndex w) (rxBufferLength w)); [|lia]. unfold bind at 1, modify, ret at 1.
    assert (getb (rxBuffer w) (rxBufferIndex w) = x /\ slice (rxBuffer w) (Z.to_nat (rxBufferIndex w + 1)) (Z.to_nat (rxBufferLength w - (rxBufferIndex w + 1))) = l) as [Ex El].
    { destruct (lookup_lt_is_Some_2 (rxBuffer w) (Z.to_nat (rxBufferIndex w))) as [y Hy]; [lia|].
      unfold slice in *. replace (Z.to_nat (rxBufferLength w - rxBufferIndex w)) with (S (Z.to_nat (rxBufferLength w - (rxBufferIndex w + 1)))) in Hl by lia.
      rewrite (drop_S _ y) in Hl by done. cbn in Hl. injection Hl as <- <-. split; [|do 2 f_equal; lia].
      rewrite <- (Z2Nat.id (rxBufferIndex w)) by lia. by apply lookup_getb. }
    set (w1 := set_rx _ _ _ w). assert (u8 (rxBufferIndex w + 1) = rxBufferIndex w + 1 /\ u8 (rxBufferLength w) = rxBufferLength w) as [E1 E2] by (split; apply u8_small; unfold is_byte; lia).
    destruct (IH w1 l) as (w' & E & Hb' & Hw'); [constructor; cbn; rewrite ?E1, ?E2; unfold BUFFER_LENGTH, zlen in *; first [done|lia]|cbn; by rewrite E1, E2|by injection Hk|].
    exists w'. unfold bind. rewrite E. cbn. rewrite Ex. split; [done|]. by rewrite Hb'.
Qed.

(** C16. A request: [requestFrom] answers how many bytes, at most 32, were read,
    [read] returns them in the order the slave sent them, and then -1. *)
Theorem wire_request t c (w : wire slave) size :
  wire_ok w -> bus w = up t true c -> patient t c -> s_pull c = false -> 0 <= s_addr c < 128 -> Forall is_byte (s_supply c) -> 1 <= size ->
  let n := Z.min size 32 in
  exists w', (let! k := TwoWire_requestFrom (s_addr c) size true in let! l := read_many (S (Z.to_nat n)) in ret (k, l)) w =
      Some ((n, sent (Z.to_nat n) (s_supply c) ++ [-1]), w') /\ wire_ok w' /\
    bus w' = up t true (rest (s_room c) (s_got c) (drop (Z.to_nat n) (s_supply c)) c).
Proof.
  intros Hw Hbus Hp Hpl Ha Hs Hsz n. pose proof Hw as [O1 O2 O3 O4 O5 O6]. unfold bind at 1, TwoWire_requestFrom.
  replace (if BUFFER_LENGTH <? size then BUFFER_LENGTH else size) with n by (unfold n, BUFFER_LENGTH; destruct (Z.ltb_spec 32 size); lia).
  unfold bind at 1, get, bind at 1, on_bus, zoom. rewrite Hbus. rewrite (read_from_up t c) by (first [done|unfold BUFFER_LENGTH in *; lia]).
  rewrite Z.eqb_refl. cbn [Z.eqb]. unfold bind at 1, modify, ret at 1. set (w1 := set_rx _ _ _ _).
  assert (u8 n = n) as En by (apply u8_small; unfold is_byte; lia).
  assert (wire_ok w1) as Hw1.
  { constructor; cbn; rewrite ?En; unfold BUFFER_LENGTH in *; try done; try lia; [|change (u8 0) with 0; lia].
    rewrite zlen_app, zlen_drop. unfold zlen at 1. rewrite length_sent. lia. }
  destruct (read_many_spec (Z.to_nat n) w1 (sent (Z.to_nat n) (s_supply c))) as (w' & E & Hb' & Hw'); [done| |apply length_sent|].
  { cbn. change (u8 0) with 0. rewrite En, Z.sub_0_r. unfold slice. rewrite drop_0. rewrite <- (length_sent (Z.to_nat n) (s_supply c)) at 1. apply take_app_length. }
  unfold bind. rewrite E. exists w'. split; [done|]. split; [done|]. by rewrite Hb'.
Qed.

(** ** Instances *)

Definition demo_wire : wire slave :=
  {| rxBuffer := replicate 32 0; rxBufferIndex := 0; rxBufferLength := 0; txAddress := 0; txBuffer := replicate 32 0; txBufferIndex := 0;
     txBufferLength := 0; transmitting := 0; default_sda_pin := 2; default_scl_pin := 0; write_error := 0; bus := up demo_bus true demo_slave |}.

Lemma demo_wire_ok : wire_ok demo_wire.
Proof. constructor; cbn; unfold BUFFER_LENGTH; first [done|lia]. Qed.

Lemma wire_transmission_witness : exists w',
  (TwoWire_beginTransmission 0x50 ;;; let! n := TwoWire_write_data [9; 8] in let! r := TwoWire_endTransmission true in ret (n, r)) demo_wire =
    Some ((2, 0), w') /\ wire_ok w' /\ bus w' = up demo_bus true (rest 1 [9; 8] [0xA5; 0x3C] demo_slave).
Proof.
  apply (wire_transmission demo_bus demo_slave demo_wire 0x50 [9; 8]);
    [apply demo_wire_ok|reflexivity|unfold patient; cbn; lia|reflexivity|lia|repeat constructor; unfold is_byte; lia].
Defined.

Lemma wire_request_witness : exists w',
  (let! k := TwoWire_requestFrom 0x50 3 true in let! l := read_many 4 in ret (k, l)) demo_wire = Some ((3, [0xA5; 0x3C; 0xFF; -1]), w') /\
  wire_ok w' /\ bus w' = up demo_bus true (rest 3 [] [] demo_slave).
Proof.
  apply (wire_request demo_bus demo_slave demo_wire 3);
    [apply demo_wire_ok|reflexivity|unfold patient; cbn; lia|reflexivity|cbn; lia|repeat constructor; unfold is_byte; lia|lia].
Defined.

(** A request for no byte overruns the receive buffer. *)
Example requestFrom_0_overruns : TwoWire_requestFrom 0x50 0 true demo_wire = None.
Proof. vm_compute. reflexivity. Qed.
