(* ===== verification/Sha1.v ===== *)
(** * SHA-1

    [Sming/Services/WebHelpers/aw-sha1.cpp], used by the handshake of the
    websocket server: the hash over a message in memory, with a circular
    message schedule of 16 words.  It is compared with the definition of FIPS
    180-4, which has a schedule of 80 words and a padded message. *)

From S2P Require Import Prelude.

(** ** The code *)

Definition rol (x s : Z) : Z := Z.lor (u32 (Z.shiftl x s)) (Z.shiftr x (32 - s)).
Definition word_at (w : list Z) (i : Z) : Z := getb w (Z.land i 0xf).
Definition regs : Type := Z * Z * Z * Z * Z.

Definition mix (f v i : Z) (w : list Z) (r : regs) : regs :=
  let '(a, b, c, d, e) := r in
  (u32 (f + v + rol a 5 + e + word_at w i), a, rol b 30, c, d).
Definition next_word (w : list Z) (i : Z) : list Z :=
  setb w (Z.land i 0xf) (rol (Z.lxor (Z.lxor (Z.lxor (word_at w (i + 13)) (word_at w (i + 8))) (word_at w (i + 2))) (word_at w i)) 1).

Definition f_choose (r : regs) : Z := let '(a, b, c, d, e) := r in Z.lxor d (Z.land b (Z.lxor c d)).
Definition f_parity (r : regs) : Z := let '(a, b, c, d, e) := r in Z.lxor (Z.lxor b c) d.
Definition f_majority (r : regs) : Z := let '(a, b, c, d, e) := r in Z.lor (Z.land b c) (Z.land d (Z.lor b c)).

(** One turn of a loop: in the first loop the schedule is the message. *)
Definition turn (expand : bool) (f : regs -> Z) (v : Z) (st : regs * list Z) (i : Z) : regs * list Z :=
  let '(r, w) := st in
  let w := if expand then next_word w i else w in
  (mix (f r) v i w r, w).
Definition sha1mix (r : regs) (w : list Z) : regs * list Z :=
  let st := (r, w) in
  let st := foldl (turn false f_choose 0x5a827999) st (seqZ 0 16) in
  let st := foldl (turn true f_choose 0x5a827999) st (seqZ 16 4) in
  let st := foldl (turn true f_parity 0x6ed9eba1) st (seqZ 20 20) in
  let st := foldl (turn true f_majority 0x8f1bbcdc) st (seqZ 40 20) in
  let st := foldl (turn true f_parity 0xca62c1d6) st (seqZ 60 20) in
  let '((a, b, c, d, e), w) := st in
  let '(r0, r1, r2, r3, r4) := r in
  ((u32 (r0 + a), u32 (r1 + b), u32 (r2 + c), u32 (r3 + d), u32 (r4 + e)), w).

(** Four bytes of the message, the first one the most significant. *)
Definition load_word (p : list Z) (i : Z) : Z :=
  Z.lor (Z.lor (Z.lor (getb p (i + 3)) (Z.shiftl (getb p (i + 2)) 8)) (Z.shiftl (getb p (i + 1)) 16)) (Z.shiftl (getb p i) 24).
(** The 16 turns of the inner loop from a multiple of 64. *)
Definition load_block (p : list Z) (w : list Z) (i : Z) : list Z :=
  foldl (fun w k => setb w (Z.land (Z.shiftr (i + 4 * k) 2) 0xf) (load_word p (i + 4 * k))) w (seqZ 0 16).
(** [n]: whole blocks left. *)
Fixpoint blocks (n : nat) (p : list Z) (i : Z) (st : regs * list Z) : regs * list Z :=
  match n with
  | O => st
  | S n => let '(r, w) := st in blocks n p (i + 64) (sha1mix r (load_block p w i))
  end.
Definition or_byte (w : list Z) (i c : Z) : list Z :=
  let k := Z.land (Z.shiftr i 2) 0xf in
  setb w k (Z.lor (getb w k) (Z.shiftl c (Z.shiftl (Z.land (Z.lxor 3 i) 3) 3))).

Definition SHA1_INIT : regs := (0x67452301, 0xefcdab89, 0x98badcfe, 0x10325476, 0xc3d2e1f0).
Definition out_word (x : Z) : list Z := [u8 (Z.shiftr x 0x18); u8 (Z.shiftr x 0x10); u8 (Z.shiftr x 0x08); u8 x].
Definition sha1 (p : list Z) : list Z :=
  let n := zlen p in
  let whole := Z.land n (Z.lnot 0x3f) in
  let '(r, w) := blocks (Z.to_nat (whole / 64)) p 0 (SHA1_INIT, replicate 16 0) in
  let w := replicate 16 0 in
  let w := foldl (fun w i => or_byte w i (getb p i)) w (seqZ whole (n - whole)) in
  let w := or_byte w n 0x80 in
  let '(r, w) := if 56 <? Z.land n 0x3f then (fst (sha1mix r w), replicate 16 0) else (r, w) in
  let w := setb w 15 (u32 (Z.shiftl n 3)) in
  let '(a, b, c, d, e) := fst (sha1mix r w) in
  out_word a ++ out_word b ++ out_word c ++ out_word d ++ out_word e.

(** ** FIPS 180-4 *)

Definition ROTL (n x : Z) : Z := Z.lor (u32 (Z.shiftl x n)) (Z.shiftr x (32 - n)).
Definition Ch (x y z : Z) : Z := Z.lxor (Z.land x y) (Z.ldiff z x).
Definition Parity (x y z : Z) : Z := Z.lxor (Z.lxor x y) z.
Definition Maj (x y z : Z) : Z := Z.lxor (Z.lxor (Z.land x y) (Z.land x z)) (Z.land y z).
Definition f_t (t x y z : Z) : Z := if t <? 20 then Ch x y z else if t <? 40 then Parity x y z else if t <? 60 then Maj x y z else Parity x y z.
Definition K_t (t : Z) : Z := if t <? 20 then 0x5a827999 else if t <? 40 then 0x6ed9eba1 else if t <? 60 then 0x8f1bbcdc else 0xca62c1d6.

(** The message schedule: 64 more words behind the 16 of the block. *)
Fixpoint expand (n : nat) (W : list Z) : list Z :=
  match n with
  | O => W
  | S n =>
      let t := zlen W in
      expand n (W ++ [ROTL 1 (Z.lxor (Z.lxor (Z.lxor (getb W (t - 3)) (getb W (t - 8))) (getb W (t - 14))) (getb W (t - 16)))])
  end.
Definition schedule (block : list Z) : list Z := expand 64 block.
Definition round (W : list Z) (r : regs) (t : Z) : regs :=
  let '(a, b, c, d, e) := r in
  (u32 (ROTL 5 a + f_t t b c d + e + K_t t + getb W t), a, ROTL 30 b, c, d).
Definition compress (h : regs) (block : list Z) : regs :=
  let '(a, b, c, d, e) := foldl (round (schedule block)) h (seqZ 0 80) in
  let '(h0, h1, h2, h3, h4) := h in
  (u32 (a + h0), u32 (b + h1), u32 (c + h2), u32 (d + h3), u32 (e + h4)).

(** Big-endian words; the padded message; its blocks of 16 words. *)
Definition be32 (l : list Z) : Z := getb l 0 * 2 ^ 24 + getb l 1 * 2 ^ 16 + getb l 2 * 2 ^ 8 + getb l 3.
Definition be_bytes (n : nat) (x : Z) : list Z := rev ((fun k => u8 (Z.shiftr x (8 * k))) <$> seqZ 0 (Z.of_nat n)).
Definition pad_message (m : list Z) : list Z :=
  m ++ [0x80] ++ replicate (Z.to_nat ((55 - zlen m) mod 64)) 0 ++ be_bytes 8 (8 * zlen m).
Definition block_words (l : list Z) : list Z := (fun k => be32 (drop (Z.to_nat (4 * k)) l)) <$> seqZ 0 16.
Fixpoint hash_blocks (n : nat) (m : list Z) (h : regs) : regs :=
  match n with O => h | S n => hash_blocks n (drop 64 m) (compress h (block_words (take 64 m))) end.
Definition SHA1 (m : list Z) : list Z :=
  let M := pad_message m in
  let '(a, b, c, d, e) := hash_blocks (length M / 64) M SHA1_INIT in
  be_bytes 4 a ++ be_bytes 4 b ++ be_bytes 4 c ++ be_bytes 4 d ++ be_bytes 4 e.

(** ** The schedule *)

Lemma expand_prefix n : forall W, exists z, expand n W = W ++ z.
Proof.
  induction n as [|n IH]; intros W; cbn [expand]; [exists []; by rewrite app_nil_r|].
  match goal with |- context [expand n (W ++ ?x)] => destruct (IH (W ++ x)) as [z ->]; exists (x ++ z); by rewrite <- app_assoc end.
Qed.

Lemma expand_old n W t : 0 <= t < zlen W -> getb (expand n W) t = getb W t.
Proof. intros Ht. destruct (expand_prefix n W) as [z ->]. by apply getb_app_l. Qed.

Lemma expand_step n : forall W t, 16 <= zlen W -> zlen W <= t < zlen W + Z.of_nat n ->
  getb (expand n W) t =
  ROTL 1 (Z.lxor (Z.lxor (Z.lxor (getb (expand n W) (t - 3)) (getb (expand n W) (t - 8))) (getb (expand n W) (t - 14))) (getb (expand n W) (t - 16))).
Proof.
  induction n as [|n IH]; intros W t HW Ht; [lia|]. destruct (Z.eq_dec t (zlen W)) as [->|Hne].
  - rewrite (expand_old (S n) W (zlen W - 3)), (expand_old (S n) W (zlen W - 8)), (expand_old (S n) W (zlen W - 14)), (expand_old (S n) W (zlen W - 16)) by lia. cbn [expand]. match goal with |- context [W ++ [?x]] => set (y := x) end.
    rewrite expand_old by (rewrite zlen_app; change (zlen [y]) with 1; lia). rewrite getb_app_r by lia. by rewrite Z.sub_diag.
  - cbn [expand]. apply IH; rewrite zlen_app; change (zlen [_]) with 1; lia.
Qed.

(** A loop over consecutive indices. *)
Lemma foldl_range {A} (step : A -> Z -> A) (P : Z -> A -> Prop) n : forall lo st,
  (forall i st, lo <= i < lo + Z.of_nat n -> P i st -> P (i + 1) (step st i)) -> P lo st ->
  P (lo + Z.of_nat n) (foldl step st (seqZ lo (Z.of_nat n))).
Proof.
  induction n as [|n IH]; intros lo st Hstep HP; [by rewrite Z.add_0_r|]. rewrite seqZ_cons by lia. cbn [foldl].
  replace (Z.pred (Z.of_nat (S n))) with (Z.of_nat n) by lia. replace (lo + Z.of_nat (S n)) with (Z.succ lo + Z.of_nat n) by lia.
  apply IH; [intros i st' Hi; apply Hstep; lia|]. apply (Hstep lo); [lia|done].
Qed.

Lemma foldl_snoc {A} (step : A -> Z -> A) st i : 0 <= i -> foldl step st (seqZ 0 (i + 1)) = step (foldl step st (seqZ 0 i)) i.
Proof. intros Hi. rewrite seqZ_app by lia. rewrite foldl_app, (seqZ_cons _ 1) by lia. by rewrite Z.add_0_l. Qed.

Lemma choose_Ch b c d : Z.lxor d (Z.land b (Z.lxor c d)) = Ch b c d.
Proof. unfold Ch. apply Z.bits_inj'. intros n _. rewrite !Z.lxor_spec, !Z.land_spec, !Z.ldiff_spec, !Z.lxor_spec. by destruct (Z.testbit b n), (Z.testbit c n), (Z.testbit d n). Qed.
Lemma majority_Maj b c d : Z.lor (Z.land b c) (Z.land d (Z.lor b c)) = Maj b c d.
Proof. unfold Maj. apply Z.bits_inj'. intros n _. rewrite !Z.lor_spec, !Z.lxor_spec, !Z.land_spec, !Z.lor_spec. by destruct (Z.testbit b n), (Z.testbit c n), (Z.testbit d n). Qed.

Lemma land_15 i : Z.land i 0xf = i mod 16.
Proof. by apply (land_mask_low i 4). Qed.

Lemma schedule_old block t : 0 <= t < zlen block -> getb (schedule block) t = getb block t.
Proof. apply expand_old. Qed.
Lemma schedule_step block t : zlen block = 16 -> 16 <= t < 80 ->
  getb (schedule block) t =
  ROTL 1 (Z.lxor (Z.lxor (Z.lxor (getb (schedule block) (t - 3)) (getb (schedule block) (t - 8))) (getb (schedule block) (t - 14))) (getb (schedule block) (t - 16))).
Proof. intros Hb Ht. apply expand_step; lia. Qed.

#[local] Opaque schedule.

Section Compression.
Context (h : regs) (block : list Z) (block_16 : zlen block = 16).

(** The circular schedule holds the last 16 words of the whole one. *)
Definition mixed (i : Z) (st : regs * list Z) : Prop :=
  fst st = foldl (round (schedule block)) h (seqZ 0 i) /\ zlen (snd st) = 16 /\
  forall t, 0 <= t -> i - 16 <= t < Z.max i 16 -> getb (snd st) (t mod 16) = getb (schedule block) t.

Lemma mix_round f v i w r : 0 <= i -> r = foldl (round (schedule block)) h (seqZ 0 i) -> getb w (i mod 16) = getb (schedule block) i ->
  (forall a b c d e, f (a, b, c, d, e) = f_t i b c d) -> v = K_t i -> mix (f r) v i w r = foldl (round (schedule block)) h (seqZ 0 (i + 1)).
Proof.
  intros Hi Hr Hw Hf ->. rewrite foldl_snoc, <- Hr by done. destruct r as [[[[a b] c] d] e]. unfold mix, round. rewrite Hf. unfold word_at. rewrite land_15, Hw.
  change (ROTL 5 a) with (rol a 5). change (ROTL 30 b) with (rol b 30).
  by replace (rol a 5 + f_t i b c d + e + K_t i + getb (schedule block) i) with (f_t i b c d + K_t i + rol a 5 + e + getb (schedule block) i) by lia.
Qed.

Lemma turn_first i st : 0 <= i < 16 -> mixed i st -> mixed (i + 1) (turn false f_choose 0x5a827999 st i).
Proof.
  intros Hi (Hr & Hl & Hw). destruct st as [r w]. cbn [fst snd turn] in *. split; [|split; [done|]].
  - apply mix_round; [lia|done|apply Hw; lia| |unfold K_t; by destruct (Z.ltb_spec i 20); [|lia]].
    intros a b c d e. unfold f_choose, f_t. destruct (Z.ltb_spec i 20); [|lia]. apply choose_Ch.
  - intros t Ht Ht'. apply Hw; lia.
Qed.

Lemma next_word_mixed i w : 16 <= i < 80 -> zlen w = 16 -> (forall t, 0 <= t -> i - 16 <= t < Z.max i 16 -> getb w (t mod 16) = getb (schedule block) t) ->
  zlen (next_word w i) = 16 /\ forall t, 0 <= t -> i + 1 - 16 <= t < Z.max (i + 1) 16 -> getb (next_word w i) (t mod 16) = getb (schedule block) t.
Proof.
  intros Hi Hl Hw. unfold next_word. split; [by rewrite zlen_setb|]. intros t Ht Ht'. rewrite land_15.
  pose proof (Z.mod_pos_bound i 16 ltac:(lia)). pose proof (Z.mod_pos_bound t 16 ltac:(lia)).
  destruct (Z.eq_dec t i) as [->|Hne].
  - rewrite getb_setb_eq by lia. rewrite (schedule_step block i) by lia. unfold word_at. rewrite !land_15.
    assert (forall a b, a mod 16 = b mod 16 -> 0 <= b -> i - 16 <= b < i -> getb w (a mod 16) = getb (schedule block) b) as Hab by (intros a b E Hb Hb'; rewrite E; apply Hw; lia).
    rewrite (Hab (i + 13) (i - 3)), (Hab (i + 8) (i - 8)), (Hab (i + 2) (i - 14)), (Hab i (i - 16)) by (first [lia|Z.div_mod_to_equations; lia]). done.
  - rewrite getb_setb_ne by (first [lia|intros E; apply Hne; Z.div_mod_to_equations; lia]). apply Hw; lia.
Qed.

Lemma turn_next f v i st : 16 <= i < 80 -> (forall a b c d e, f (a, b, c, d, e) = f_t i b c d) -> v = K_t i -> mixed i st -> mixed (i + 1) (turn true f v st i).
Proof.
  intros Hi Hf Hv (Hr & Hl & Hw). destruct st as [r w]. cbn [fst snd turn] in *. destruct (next_word_mixed i w Hi Hl Hw) as [Hl' Hw'].
  split; [|done]. cbn [fst snd]. apply mix_round; [lia|done|apply Hw'; lia|done|done].
Qed.

Lemma turns f v lo n st : 16 <= lo -> lo + Z.of_nat n <= 80 ->
  (forall i, lo <= i < lo + Z.of_nat n -> v = K_t i /\ forall a b c d e, f (a, b, c, d, e) = f_t i b c d) ->
  mixed lo st -> mixed (lo + Z.of_nat n) (foldl (turn true f v) st (seqZ lo (Z.of_nat n))).
Proof.
  intros Hlo Hhi Hf HP. apply (foldl_range _ mixed); [|done]. intros i st' Hi HP'. destruct (Hf i Hi) as [Hv Hff]. apply turn_next; [lia|done|done|done].
Qed.

Lemma sha1mix_compress : fst (sha1mix h block) = compress h block.
Proof.
  assert (mixed 0 (h, block)) as H0.
  { split; [done|]. split; [done|]. intros t Ht Ht'. cbn [snd]. rewrite Z.mod_small by lia. by rewrite schedule_old by lia. }
  unfold sha1mix. set (st1 := foldl (turn false f_choose 0x5a827999) (h, block) (seqZ 0 16)).
  assert (mixed 16 st1) as H1.
  { apply (foldl_range (turn false f_choose 0x5a827999) mixed 16 0); [intros i st Hi; apply turn_first; lia|done]. }
  set (st2 := foldl _ st1 _). assert (mixed 20 st2) as H2.
  { apply (turns f_choose 0x5a827999 16 4); [lia|lia| |done]. intros i Hi. unfold f_t, K_t, f_choose. destruct (Z.ltb_spec i 20); [|lia]. split; [done|]. intros. apply choose_Ch. }
  set (st3 := foldl _ st2 _). assert (mixed 40 st3) as H3.
  { apply (turns f_parity 0x6ed9eba1 20 20); [lia|lia| |done]. intros i Hi. unfold f_t, K_t. destruct (Z.ltb_spec i 20); [lia|]. destruct (Z.ltb_spec i 40); [done|lia]. }
  set (st4 := foldl _ st3 _). assert (mixed 60 st4) as H4.
  { apply (turns f_majority 0x8f1bbcdc 40 20); [lia|lia| |done]. intros i Hi. unfold f_t, K_t, f_majority. destruct (Z.ltb_spec i 20); [lia|]. destruct (Z.ltb_spec i 40); [lia|].
    destruct (Z.ltb_spec i 60); [|lia]. split; [done|]. intros. apply majority_Maj. }
  set (st5 := foldl _ st4 _). assert (mixed 80 st5) as H5.
  { apply (turns f_parity 0xca62c1d6 60 20); [lia|lia| |done]. intros i Hi. unfold f_t, K_t. destruct (Z.ltb_spec i 20); [lia|]. destruct (Z.ltb_spec i 40); [lia|].
    destruct (Z.ltb_spec i 60); [lia|done]. }
  clearbody st5. destruct H5 as [Hr _]. unfold compress. rewrite <- Hr. destruct st5 as [[[[[a b] c] d] e] w]. destruct h as [[[[h0 h1] h2] h3] h4].
  cbn [fst]. by rewrite !(Z.add_comm _ a), !(Z.add_comm _ b), !(Z.add_comm _ c), !(Z.add_comm _ d), !(Z.add_comm _ e).
Qed.
End Compression.

Lemma sha1mix_len r w : zlen w = 16 -> zlen (snd (sha1mix r w)) = 16.
Proof.
  intros Hw. assert (forall x f v n lo st, zlen (snd st) = 16 -> zlen (snd (foldl (turn x f v) st (seqZ lo (Z.of_nat n)))) = 16) as Hf.
  { intros x f v n lo st Hst. apply (foldl_range _ (fun _ st => zlen (snd st) = 16)); [|done]. intros i [r' w'] _ Hi. cbn in *. destruct x; [|done].
    unfold next_word. by rewrite zlen_setb. }
  unfold sha1mix. set (st := foldl (turn true f_parity 0xca62c1d6) _ _). assert (zlen (snd st) = 16) as Hs.
  { apply (Hf _ _ _ 20%nat), (Hf _ _ _ 20%nat), (Hf _ _ _ 20%nat), (Hf _ _ _ 4%nat), (Hf _ _ _ 16%nat). done. }
  clearbody st. destruct st as [[[[[a b] c] d] e] w']. destruct r as [[[[r0 r1] r2] r3] r4]. done.
Qed.

(** ** Words of the message *)

Lemma getb_drop (l : list Z) (n : nat) j : 0 <= j -> getb (drop n l) j = getb l (Z.of_nat n + j).
Proof. intros Hj. unfold getb. rewrite nth_skipn || rewrite <- (firstn_skipn n l) at 2. f_equal. lia. Qed.

Lemma be32_bytes b0 b1 b2 b3 : is_byte b0 -> is_byte b1 -> is_byte b2 -> is_byte b3 ->
  Z.lor (Z.lor (Z.lor b3 (Z.shiftl b2 8)) (Z.shiftl b1 16)) (Z.shiftl b0 24) = b0 * 2 ^ 24 + b1 * 2 ^ 16 + b2 * 2 ^ 8 + b3.
Proof.
  unfold is_byte. intros H0 H1 H2 H3. rewrite !shiftl_mul by lia. rewrite (lor_add_comm b2 b3 8) by lia.
  rewrite (lor_add_comm b1 _ 16) by lia. rewrite (lor_add_comm b0 _ 24) by lia. lia.
Qed.

Lemma load_word_be p i : Forall is_byte p -> 0 <= i -> load_word p i = be32 (drop (Z.to_nat i) p).
Proof.
  intros Hp Hi. unfold load_word, be32. rewrite be32_bytes by (by apply getb_byte). rewrite !getb_drop by lia. rewrite Z2Nat.id by lia. by rewrite Z.add_0_r.
Qed.

Lemma block_words_getb l k : 0 <= k < 16 -> getb (block_words l) k = be32 (drop (Z.to_nat (4 * k)) l).
Proof.
  intros Hk. unfold block_words. rewrite <- (Z2Nat.id k) at 1 by lia. apply lookup_getb. rewrite list_lookup_fmap, lookup_seqZ_lt by lia. cbn. do 3 f_equal. lia.
Qed.

Lemma zlen_block_words l : zlen (block_words l) = 16.
Proof. unfold block_words. rewrite zlen_fmap. done. Qed.

Lemma words_ext w w' : zlen w = 16 -> zlen w' = 16 -> (forall k, 0 <= k < 16 -> getb w k = getb w' k) -> w = w'.
Proof.
  intros H1 H2 H. unfold zlen in *. apply (list_eq_same_length _ _ 16); [lia|lia|]. intros i x y Hi Hx Hy.
  specialize (H (Z.of_nat i) ltac:(lia)). rewrite (lookup_getb _ _ _ Hx), (lookup_getb _ _ _ Hy) in H. done.
Qed.

Lemma be32_agree l l' : (forall j, 0 <= j < 4 -> getb l j = getb l' j) -> be32 l = be32 l'.
Proof. intros H. unfold be32. rewrite !H by lia. done. Qed.

Lemma block_words_take m : block_words (take 64 m) = block_words m.
Proof.
  apply words_ext; [apply zlen_block_words..|]. intros k Hk. rewrite !block_words_getb by done. apply be32_agree. intros j Hj. rewrite !getb_drop by lia.
  unfold getb. destruct (decide (Z.to_nat (Z.of_nat (Z.to_nat (4 * k)) + j) < length m)%nat) as [Hlt|Hge].
  - rewrite <- (take_drop 64 m) at 2. rewrite app_nth1; [done|]. rewrite length_take. lia.
  - rewrite !nth_overflow; [done|lia|rewrite length_take; lia].
Qed.

Lemma load_block_words p w i : Forall is_byte p -> zlen w = 16 -> 0 <= i -> i mod 64 = 0 -> load_block p w i = block_words (drop (Z.to_nat i) p).
Proof.
  intros Hp Hw Hi Hm. unfold load_block.
  assert (zlen (foldl (fun w k => setb w (Z.land (Z.shiftr (i + 4 * k) 2) 0xf) (load_word p (i + 4 * k))) w (seqZ 0 16)) = 16 /\
    forall k, 0 <= k < 16 -> getb (foldl (fun w k => setb w (Z.land (Z.shiftr (i + 4 * k) 2) 0xf) (load_word p (i + 4 * k))) w (seqZ 0 16)) k = load_word p (i + 4 * k)) as [Hl Hg].
  { apply (foldl_range _ (fun n w => zlen w = 16 /\ forall k, 0 <= k < n -> getb w k = load_word p (i + 4 * k)) 16 0); [|split; [done|lia]].
    intros n w' Hn [Hl Hg]. rewrite zlen_setb. split; [done|]. intros k Hk. rewrite land_15, shiftr_div by lia.
    replace ((i + 4 * n) / 2 ^ 2 mod 16) with n by (Z.div_mod_to_equations; lia).
    destruct (Z.eq_dec k n) as [->|]; [by rewrite getb_setb_eq by lia|]. rewrite getb_setb_ne by lia. apply Hg. lia. }
  apply words_ext; [done|apply zlen_block_words|]. intros k Hk. rewrite Hg, block_words_getb, load_word_be by (first [done|lia]). rewrite drop_drop. do 2 f_equal. lia.
Qed.

Lemma mix_block r p w i : Forall is_byte p -> zlen w = 16 -> 0 <= i -> i mod 64 = 0 ->
  exists w', sha1mix r (load_block p w i) = (compress r (block_words (take 64 (drop (Z.to_nat i) p))), w') /\ zlen w' = 16.
Proof.
  intros Hp Hw Hi Hm. rewrite load_block_words, block_words_take by done. set (b := block_words _). assert (zlen b = 16) as Hb by apply zlen_block_words.
  clearbody b. exists (snd (sha1mix r b)). split; [|by apply sha1mix_len]. rewrite <- sha1mix_compress by done. apply surjective_pairing.
Qed.

#[local] Opaque sha1mix compress block_words load_block.

Lemma hash_blocks_S n m h : hash_blocks (S n) m h = hash_blocks n (drop 64 m) (compress h (block_words (take 64 m))).
Proof. cbn [hash_blocks]. reflexivity. Qed.
Lemma blocks_S n p i st : blocks (S n) p i st = let '(r, w) := st in blocks n p (i + 64) (sha1mix r (load_block p w i)).
Proof. reflexivity. Qed.

#[local] Opaque blocks hash_blocks.

Lemma blocks_hash n : forall p i r w, Forall is_byte p -> zlen w = 16 -> 0 <= i -> i mod 64 = 0 ->
  fst (blocks n p i (r, w)) = hash_blocks n (drop (Z.to_nat i) p) r.
Proof.
  induction n as [|n IH]; intros p i r w Hp Hw Hi Hm; [reflexivity|]. rewrite blocks_S, hash_blocks_S.
  destruct (mix_block r p w i Hp Hw Hi Hm) as (w' & -> & Hw'). rewrite drop_drop. replace (Z.to_nat i + 64)%nat with (Z.to_nat (i + 64)) by lia.
  apply IH; [exact Hp|exact Hw'|lia|Z.div_mod_to_equations; lia].
Qed.

(** ** The last blocks *)

Lemma lane i : Z.shiftl (Z.land (Z.lxor 3 i) 3) 3 = 8 * (3 - i mod 4).
Proof.
  assert (Z.land (Z.lxor 3 i) 3 = Z.lxor 3 (i mod 4)) as ->.
  { change 4 with (2 ^ 2). rewrite <- (land_mask_low i 2 3) by lia. apply Z.bits_inj'. intros n _. rewrite !Z.land_spec, !Z.lxor_spec, !Z.land_spec. by destruct (Z.testbit 3 n), (Z.testbit i n). }
  pose proof (Z.mod_pos_bound i 4 ltac:(lia)) as H. set (r := i mod 4) in *. clearbody r.
  assert (r = 0 \/ r = 1 \/ r = 2 \/ r = 3) as [->|[->|[->| ->]]] by lia; reflexivity.
Qed.

(** A byte added to a word whose bytes from there on are 0. *)
Lemma or_lane b0 b1 b2 b3 c r : is_byte b0 -> is_byte b1 -> is_byte b2 -> is_byte b3 -> is_byte c -> 0 <= r < 4 ->
  (r <= 0 -> b0 = 0) -> (r <= 1 -> b1 = 0) -> (r <= 2 -> b2 = 0) -> b3 = 0 ->
  Z.lor (b0 * 2 ^ 24 + b1 * 2 ^ 16 + b2 * 2 ^ 8 + b3) (Z.shiftl c (8 * (3 - r))) =
  (if r =? 0 then c else b0) * 2 ^ 24 + (if r =? 1 then c else b1) * 2 ^ 16 + (if r =? 2 then c else b2) * 2 ^ 8 + (if r =? 3 then c else b3).
Proof.
  unfold is_byte. intros H0 H1 H2 H3 Hc Hr Z0 Z1 Z2 Z3. rewrite shiftl_mul by lia.
  assert (r = 0 \/ r = 1 \/ r = 2 \/ r = 3) as [->|[->|[->| ->]]] by lia; cbv beta iota delta [Z.eqb Pos.eqb].
  - rewrite Z0, Z1, Z2, Z3 by lia. change (8 * (3 - 0)) with 24. change (0 * 2 ^ 24 + 0 * 2 ^ 16 + 0 * 2 ^ 8 + 0) with 0. rewrite Z.lor_0_l. lia.
  - rewrite Z1, Z2, Z3 by lia. change (8 * (3 - 1)) with 16. replace (b0 * 2 ^ 24 + 0 * 2 ^ 16 + 0 * 2 ^ 8 + 0) with (b0 * 2 ^ 24) by lia. rewrite lor_add by lia. lia.
  - rewrite Z2, Z3 by lia. change (8 * (3 - 2)) with 8. replace (b0 * 2 ^ 24 + b1 * 2 ^ 16 + 0 * 2 ^ 8 + 0) with ((b0 * 2 ^ 8 + b1) * 2 ^ 16) by lia. rewrite lor_add by lia. lia.
  - rewrite Z3. change (8 * (3 - 3)) with 0. replace (b0 * 2 ^ 24 + b1 * 2 ^ 16 + b2 * 2 ^ 8 + 0) with ((b0 * 2 ^ 16 + b1 * 2 ^ 8 + b2) * 2 ^ 8) by lia. rewrite lor_add by lia. lia.
Qed.

Lemma or_byte_words L i c : zlen L = 64 -> 0 <= i -> Forall is_byte L -> is_byte c -> (forall t, i mod 64 <= t < 64 -> getb L t = 0) ->
  or_byte (block_words L) i c = block_words (setb L (i mod 64) c).
Proof.
  intros HL Hi Hb Hc Hz. unfold or_byte. rewrite lane, land_15, shiftr_div by lia. set (j := i mod 64) in *.
  assert (0 <= j < 64) as Hj by (apply Z.mod_pos_bound; lia).
  assert (i / 2 ^ 2 mod 16 = j / 4) as -> by (unfold j; Z.div_mod_to_equations; lia).
  assert (i mod 4 = j mod 4) as -> by (unfold j; Z.div_mod_to_equations; lia).
  assert (0 <= j / 4 < 16) as Hk by (Z.div_mod_to_equations; lia).
  apply words_ext; [rewrite zlen_setb; apply zlen_block_words|apply zlen_block_words|]. intros k Hk'. rewrite (block_words_getb (setb L j c)) by done.
  destruct (Z.eq_dec k (j / 4)) as [->|Hne].
  - rewrite getb_setb_eq by (rewrite zlen_block_words; lia). rewrite block_words_getb by done. unfold be32. rewrite !getb_drop by lia. rewrite !Z2Nat.id by lia.
    rewrite or_lane by (first [by apply getb_byte|done|apply Z.mod_pos_bound; lia|intros; apply Hz; Z.div_mod_to_equations; lia]).
    rewrite !getb_setb by lia. assert (forall t, 0 <= t < 4 -> (j mod 4 =? t) = (4 * (j / 4) + t =? j)) as Ht.
    { intros t Ht. destruct (Z.eqb_spec (j mod 4) t); destruct (Z.eqb_spec (4 * (j / 4) + t) j); try done; Z.div_mod_to_equations; lia. }
    rewrite !Ht by lia. done.
  - rewrite getb_setb_ne by lia. rewrite block_words_getb by done. apply be32_agree. intros t Ht. rewrite !getb_drop by lia. rewrite getb_setb_ne; [done|lia|lia|].
    intros E. apply Hne. rewrite E. Z.div_mod_to_equations; lia.
Qed.

(** A block that begins with [l] and is 0 behind it. *)
Definition padded (l : list Z) : list Z := l ++ replicate (64 - length l) 0.

Lemma setb_middle (l z : list Z) x c i : i = zlen l -> setb (l ++ x :: z) i c = l ++ c :: z.
Proof. intros ->. unfold setb, zlen. rewrite Nat2Z.id. rewrite <- (Nat.add_0_r (length l)), insert_app_r. done. Qed.

Lemma or_byte_padded l i c : 0 <= i -> i mod 64 = zlen l -> Forall is_byte l -> is_byte c -> or_byte (block_words (padded l)) i c = block_words (padded (l ++ [c])).
Proof.
  intros Hi Hl Hb Hc. pose proof (Z.mod_pos_bound i 64 ltac:(lia)). assert (length l < 64)%nat as Hlt by (unfold zlen in *; lia).
  assert (padded l = l ++ 0 :: replicate (63 - length l) 0) as E.
  { unfold padded. by replace (64 - length l)%nat with (S (63 - length l)) by lia. }
  rewrite or_byte_words; [|unfold padded; rewrite zlen_app, zlen_replicate; unfold zlen; lia|done| |done|].
  - rewrite Hl, E, setb_middle by done. unfold padded. rewrite <- app_assoc, length_app. cbn [length app].
    by replace (64 - (length l + 1))%nat with (63 - length l)%nat by lia.
  - unfold padded. apply Forall_app. split; [done|]. apply Forall_replicate. done.
  - intros t Ht. unfold padded. rewrite getb_app_r by lia. unfold getb. destruct (nth_in_or_default (Z.to_nat (t - zlen l)) (replicate (64 - length l) 0) 0) as [Hin|?]; [|done].
    by apply list_elem_of_In, elem_of_replicate in Hin as [? _].
Qed.

Lemma or_bytes_padded p : forall n l i, 0 <= i -> i mod 64 = zlen l -> zlen l + Z.of_nat n < 64 -> Forall is_byte l -> Forall is_byte p ->
  foldl (fun w i => or_byte w i (getb p i)) (block_words (padded l)) (seqZ i (Z.of_nat n)) = block_words (padded (l ++ slice p (Z.to_nat i) n)) \/ (zlen p < i + Z.of_nat n).
Proof.
  induction n as [|n IH]; intros l i Hi Hm Hl Hb Hp; [left; unfold slice; cbn; by rewrite app_nil_r|].
  destruct (Z.lt_ge_cases (zlen p) (i + Z.of_nat (S n))) as [?|Hlen]; [by right|left]. rewrite seqZ_cons by lia. cbn [foldl].
  rewrite or_byte_padded by (first [done|by apply getb_byte]). replace (Z.pred (Z.of_nat (S n))) with (Z.of_nat n) by lia.
  destruct (IH (l ++ [getb p i]) (Z.succ i)) as [->|?]; [lia|rewrite zlen_app; change (zlen [_]) with 1; Z.div_mod_to_equations; lia|rewrite zlen_app; change (zlen [_]) with 1; lia| |done| |lia].
  - apply Forall_app. split; [done|]. constructor; [by apply getb_byte|constructor].
  - do 2 f_equal. rewrite <- app_assoc. f_equal. unfold slice. destruct (lookup_lt_is_Some_2 p (Z.to_nat i)) as [x Hx]; [unfold zlen in *; lia|].
    rewrite (drop_S _ _ _ Hx). pose proof (lookup_getb _ _ _ Hx) as E. rewrite Z2Nat.id in E by lia. rewrite E.
    by replace (Z.to_nat (Z.succ i)) with (S (Z.to_nat i)) by lia.
Qed.

(** The length in the last word. *)
Lemma last_word A x : zlen A = 60 -> is_u32 x -> setb (block_words (A ++ replicate 4 0)) 15 x = block_words (A ++ be_bytes 4 x).
Proof.
  intros HA Hx. apply words_ext; [rewrite zlen_setb; apply zlen_block_words|apply zlen_block_words|]. intros k Hk. rewrite (block_words_getb (A ++ _)) by done.
  destruct (Z.eq_dec k 15) as [->|Hne].
  - rewrite getb_setb_eq by (rewrite zlen_block_words; lia). change (Z.to_nat (4 * 15)) with 60%nat. replace 60%nat with (length A) by (unfold zlen in HA; lia).
    rewrite drop_app_length. unfold is_u32 in Hx. change (be_bytes 4 x) with [u8 (Z.shiftr x 24); u8 (Z.shiftr x 16); u8 (Z.shiftr x 8); u8 (Z.shiftr x 0)].
    unfold be32. change (x = u8 (Z.shiftr x 24) * 2 ^ 24 + u8 (Z.shiftr x 16) * 2 ^ 16 + u8 (Z.shiftr x 8) * 2 ^ 8 + u8 (Z.shiftr x 0)).
    rewrite !Z.shiftr_div_pow2 by lia. unfold u8. change (2 ^ 24) with 16777216. change (2 ^ 16) with 65536. change (2 ^ 8) with 256. change (2 ^ 0) with 1.
    Z.div_mod_to_equations. lia.
  - rewrite getb_setb_ne by lia. rewrite block_words_getb by done. apply be32_agree. intros j Hj. rewrite !getb_drop by lia. rewrite !getb_app_l by lia. done.
Qed.

Lemma be_bytes_8 x : 0 <= x < 2 ^ 32 -> be_bytes 8 x = replicate 4 0 ++ be_bytes 4 x.
Proof.
  intros Hx. change (be_bytes 8 x) with [u8 (Z.shiftr x 56); u8 (Z.shiftr x 48); u8 (Z.shiftr x 40); u8 (Z.shiftr x 32); u8 (Z.shiftr x 24); u8 (Z.shiftr x 16); u8 (Z.shiftr x 8); u8 (Z.shiftr x 0)].
  assert (forall k, 32 <= k -> u8 (Z.shiftr x k) = 0) as Hz.
  { intros k Hk. rewrite Z.shiftr_div_pow2 by lia. rewrite Z.div_small; [done|]. split; [lia|]. apply Z.lt_le_trans with (2 ^ 32); [lia|]. apply Z.pow_le_mono_r; lia. }
  rewrite !Hz by lia. reflexivity.
Qed.

Lemma hash_blocks_app n k : forall m h, hash_blocks (n + k) m h = hash_blocks k (drop (64 * n) m) (hash_blocks n m h).
Proof.
  induction n as [|n IH]; intros m h; [rewrite Nat.mul_0_r, drop_0; reflexivity|]. cbn [Nat.add]. rewrite !hash_blocks_S, IH, drop_drop. do 2 f_equal. lia.
Qed.

Lemma hash_blocks_prefix n z : forall m h, (64 * n <= length m)%nat -> hash_blocks n (m ++ z) h = hash_blocks n m h.
Proof.
  induction n as [|n IH]; intros m h Hl; [reflexivity|]. rewrite !hash_blocks_S. rewrite take_app_le, drop_app_le by lia. apply IH. rewrite length_drop. lia.
Qed.

Lemma hash_block_1 m h : length m = 64%nat -> hash_blocks 1 m h = compress h (block_words m).
Proof. intros Hm. rewrite hash_blocks_S, take_ge by lia. reflexivity. Qed.

Lemma sha1mix_fst r w : zlen w = 16 -> fst (sha1mix r w) = compress r w.
Proof. apply sha1mix_compress. Qed.

Lemma out_word_be x : out_word x = be_bytes 4 x.
Proof. unfold out_word. change (be_bytes 4 x) with [u8 (Z.shiftr x 24); u8 (Z.shiftr x 16); u8 (Z.shiftr x 8); u8 (Z.shiftr x 0)]. by rewrite Z.shiftr_0_r. Qed.

(** The padded message is the whole blocks of [p] and a tail of one or two. *)
Section Tail.
Context (p : list Z) (p_bytes : Forall is_byte p) (p_len : 8 * zlen p < 2 ^ 32).
Abbreviation q := (Z.to_nat (zlen p / 64)).
Abbreviation rest := (drop (64 * q) p).
Abbreviation size := (be_bytes 4 (8 * zlen p)).

Lemma rest_len : zlen rest = zlen p mod 64.
Proof. unfold zlen. rewrite length_drop. pose proof (zlen_nonneg p). unfold zlen in *. Z.div_mod_to_equations. lia. Qed.

Lemma pad_message_tail z : replicate (Z.to_nat ((55 - zlen p) mod 64)) 0 ++ replicate 4 0 = z ->
  pad_message p = take (64 * q) p ++ rest ++ [0x80] ++ z ++ size.
Proof.
  intros <-. unfold pad_message. rewrite be_bytes_8 by (pose proof (zlen_nonneg p); lia). rewrite <- (take_drop (64 * q) p) at 1. by rewrite <- !app_assoc.
Qed.

Lemma zeros_split a b : replicate a 0 ++ replicate b 0 = replicate (a + b) (0 : Z).
Proof. by rewrite replicate_add. Qed.

Lemma padded_rest : padded (rest ++ [0x80]) = rest ++ [0x80] ++ replicate (63 - Z.to_nat (zlen p mod 64)) 0.
Proof. unfold padded. rewrite <- app_assoc. do 3 f_equal. rewrite length_app. cbn [length]. pose proof rest_len. unfold zlen in *. lia. Qed.

Lemma size_len : length size = 4%nat.
Proof. reflexivity. Qed.

Lemma take_len : length (take (64 * q) p) = (64 * q)%nat.
Proof. rewrite length_take. pose proof (zlen_nonneg p). unfold zlen in *. Z.div_mod_to_equations. lia. Qed.

Lemma pad_one : zlen p mod 64 <= 55 ->
  exists A, zlen A = 60 /\ padded (rest ++ [0x80]) = A ++ replicate 4 0 /\ pad_message p = take (64 * q) p ++ A ++ size.
Proof.
  intros Hm. pose proof (Z.mod_pos_bound (zlen p) 64 ltac:(lia)). pose proof rest_len as Hr.
  exists (rest ++ [0x80] ++ replicate (59 - Z.to_nat (zlen p mod 64)) 0). split; [|split].
  - rewrite !zlen_app, zlen_replicate, Hr. change (zlen [_]) with 1. lia.
  - rewrite padded_rest, <- !app_assoc, zeros_split. do 3 f_equal. lia.
  - rewrite (pad_message_tail _ eq_refl), zeros_split, <- !app_assoc. do 5 f_equal. Z.div_mod_to_equations. lia.
Qed.

Lemma pad_two : 56 <= zlen p mod 64 ->
  pad_message p = take (64 * q) p ++ padded (rest ++ [0x80]) ++ replicate 60 0 ++ size.
Proof.
  intros Hm. pose proof (Z.mod_pos_bound (zlen p) 64 ltac:(lia)). pose proof rest_len as Hr.
  rewrite (pad_message_tail _ eq_refl), zeros_split, padded_rest. rewrite <- !app_assoc. do 3 f_equal. rewrite app_assoc, zeros_split. do 2 f_equal.
  Z.div_mod_to_equations. lia.
Qed.

(** The hash after the whole blocks. *)
Lemma hash_tail k T h0 : length T = (64 * k)%nat -> pad_message p = take (64 * q) p ++ T ->
  hash_blocks (length (pad_message p) / 64) (pad_message p) h0 = hash_blocks k T (hash_blocks q p h0).
Proof.
  intros HT ->. rewrite length_app, take_len, HT. replace (64 * q + 64 * k)%nat with ((q + k) * 64)%nat by lia. rewrite Nat.div_mul by lia.
  rewrite hash_blocks_app, hash_blocks_prefix by (rewrite take_len; lia). rewrite drop_app_ge by (rewrite take_len; lia). rewrite take_len, Nat.sub_diag, drop_0.
  pose proof (hash_blocks_prefix q rest (take (64 * q) p) h0 ltac:(rewrite take_len; lia)) as E. rewrite take_drop in E. by rewrite E.
Qed.

Lemma whole_blocks : Z.land (zlen p) (Z.lnot 0x3f) = 64 * (zlen p / 64).
Proof.
  change 0x3f with (Z.ones 6). rewrite <- Z.ldiff_land, Z.ldiff_ones_r by lia. rewrite Z.shiftl_mul_pow2, Z.shiftr_div_pow2 by lia. change (2 ^ 6) with 64. lia.
Qed.

(** The words the code gathers from the bytes left. *)
Lemma gather : or_byte (foldl (fun w i => or_byte w i (getb p i)) (replicate 16 0) (seqZ (64 * (zlen p / 64)) (zlen p mod 64))) (zlen p) 0x80
  = block_words (padded (rest ++ [0x80])).
Proof.
  pose proof (zlen_nonneg p) as H0. pose proof (Z.mod_pos_bound (zlen p) 64 ltac:(lia)) as Hm.
  replace (replicate 16 0) with (block_words (padded [])) by (vm_compute; reflexivity).
  destruct (or_bytes_padded p (Z.to_nat (zlen p mod 64)) [] (64 * (zlen p / 64))) as [E|?]; [Z.div_mod_to_equations; lia|change (zlen []) with 0; Z.div_mod_to_equations; lia
    |change (zlen []) with 0; lia|constructor|done| |Z.div_mod_to_equations; lia].
  rewrite Z2Nat.id in E by lia. rewrite E, app_nil_l. unfold slice. replace (Z.to_nat (64 * (zlen p / 64))) with (64 * q)%nat by (Z.div_mod_to_equations; lia).
  rewrite take_ge by (pose proof rest_len; unfold zlen in *; lia). apply or_byte_padded; [done|by rewrite rest_len|by apply Forall_drop|done].
Qed.

Lemma zero_words : replicate 16 0 = block_words (replicate 60 0 ++ replicate 4 0).
Proof. vm_compute. reflexivity. Qed.

Lemma last_mix r A : zlen A = 60 -> fst (sha1mix r (setb (block_words (A ++ replicate 4 0)) 15 (u32 (Z.shiftl (zlen p) 3)))) = hash_blocks 1 (A ++ size) r.
Proof.
  intros HA. assert (is_u32 (8 * zlen p)) as Hu by (unfold is_u32; pose proof (zlen_nonneg p); lia). rewrite shiftl_mul by lia. rewrite (Z.mul_comm (zlen p)). change (2 ^ 3) with 8. rewrite u32_small by done.
  rewrite last_word by done. rewrite sha1mix_fst by apply zlen_block_words. rewrite hash_block_1; [done|]. rewrite length_app, size_len. unfold zlen in HA. lia.
Qed.
End Tail.

(** The last one or two blocks. *)
Definition last_blocks (p : list Z) (r : regs) (w : list Z) : regs :=
  let '(r, w) := if 56 <? zlen p mod 64 then (fst (sha1mix r w), replicate 16 0) else (r, w) in
  fst (sha1mix r (setb w 15 (u32 (Z.shiftl (zlen p) 3)))).

Lemma last_blocks_hash p : 8 * zlen p < 2 ^ 32 -> zlen p mod 64 <> 56 ->
  last_blocks p (hash_blocks (Z.to_nat (zlen p / 64)) p SHA1_INIT) (block_words (padded (drop (64 * Z.to_nat (zlen p / 64)) p ++ [0x80]))) =
  hash_blocks (length (pad_message p) / 64) (pad_message p) SHA1_INIT.
Proof.
  intros Hl Hne. generalize SHA1_INIT. intros h0. unfold last_blocks. destruct (Z.ltb_spec 56 (zlen p mod 64)).
  - assert (length (padded (drop (64 * Z.to_nat (zlen p / 64)) p ++ [0x80])) = 64%nat) as Hpl.
    { rewrite padded_rest, !length_app, length_replicate. pose proof (rest_len p). pose proof (Z.mod_pos_bound (zlen p) 64 ltac:(lia)). unfold zlen in *. cbn [length]. lia. }
    rewrite (hash_tail p 2 (padded (drop (64 * Z.to_nat (zlen p / 64)) p ++ [0x80]) ++ replicate 60 0 ++ be_bytes 4 (8 * zlen p)));
      [|by rewrite length_app, Hpl, length_app, length_replicate, size_len|by apply pad_two; [|lia]].
    rewrite zero_words, last_mix by done. rewrite sha1mix_fst by apply zlen_block_words.
    rewrite (hash_blocks_S 1), take_app_le, take_ge, drop_app_ge, Hpl, Nat.sub_diag, drop_0 by lia. reflexivity.
  - destruct (pad_one p Hl ltac:(lia)) as (A & HA & -> & HM). rewrite last_mix by done. symmetry. apply hash_tail; [|done].
    rewrite length_app, size_len. unfold zlen in HA. lia.
Qed.

(** The code against the standard. *)
Lemma sha1_hash p : Forall is_byte p -> 8 * zlen p < 2 ^ 32 -> zlen p mod 64 <> 56 -> sha1 p = SHA1 p.
Proof.
  intros Hp Hl Hne. unfold sha1, SHA1. rewrite whole_blocks. replace (64 * (zlen p / 64) / 64) with (zlen p / 64) by (Z.div_mod_to_equations; lia).
  replace (zlen p - 64 * (zlen p / 64)) with (zlen p mod 64) by (Z.div_mod_to_equations; lia).
  pose proof (blocks_hash (Z.to_nat (zlen p / 64)) p 0 SHA1_INIT (replicate 16 0) Hp eq_refl ltac:(lia) eq_refl) as Hb. rewrite Z2Nat.inj_0, drop_0 in Hb.
  destruct (blocks _ _ _ _) as [r w0]. cbn [fst] in Hb. rewrite Hb. clear Hb w0 r.
  rewrite gather by done. rewrite (land_mask_low (zlen p) 6) by done. change (2 ^ 6) with 64. rewrite <- (last_blocks_hash p Hl Hne). unfold last_blocks.
  destruct (if 56 <? zlen p mod 64 then _ else _) as [r w]. destruct (fst (sha1mix r _)) as [[[[a b] c] d] e]. by rewrite !out_word_be.
Qed.

(** C19. [sha1] computes the SHA-1 of FIPS 180-4 of every message of less than
    2^32 bits whose length is not 56 modulo 64: the circular schedule of 16
    words, the words gathered byte by byte, the padding and the length agree
    with the 80-word schedule over the padded message of the standard. *)
Theorem sha1_correct p : Forall is_byte p -> 8 * zlen p < 2 ^ 32 -> zlen p mod 64 <> 56 -> sha1 p = SHA1 p.
Proof. apply sha1_hash. Qed.

(** The test vector of the standard, abc. *)
Lemma sha1_correct_witness :
  sha1 [0x61; 0x62; 0x63] = SHA1 [0x61; 0x62; 0x63] /\
  SHA1 [0x61; 0x62; 0x63] =
    [0xA9; 0x99; 0x3E; 0x36; 0x47; 0x06; 0x81; 0x6A; 0xBA; 0x3E; 0x25; 0x71; 0x78; 0x50; 0xC2; 0x6C; 0x9C; 0xD0; 0xD8; 0x9D].
Proof.
  split; [|vm_compute; reflexivity]. apply (sha1_correct [0x61; 0x62; 0x63]); [|vm_compute; reflexivity|vm_compute; discriminate].
  repeat constructor; lia.
Defined.

(** A message whose last block has 56 bytes: there is room for the end mark
    but not for the high word of the length, which the code takes to hold the
    mark, so the hash is not the one of the standard. *)
Example sha1_56_wrong : sha1 (replicate 56 0x61) <> SHA1 (replicate 56 0x61).
Proof. vm_compute. discriminate. Qed.
