(* ===== verification/Tcp.v ===== *)
(** * TCP connections

    [Sming/SmingCore/Network/TcpConnection.cpp], without SSL: the object that
    stands between the callbacks of the TCP/IP stack and a program.  The stack
    is an interface; the virtual functions are parameters of the functions
    that call them.  The object can delete itself: an access to it afterwards
    is a fault, and so is a null pointer that is used. *)

From S2P Require Import Prelude Streams.

(** ** The stack

    [arg_of] is the argument the callbacks of a connection block get: the
    connection object, or null. *)
Class Lwip (L : Type) := {
  tcp_new : L -> option positive * L;
  tcp_sndbuf : L -> positive -> Z;
  tcp_sndqueuelen : L -> positive -> Z;
  tcp_established : L -> positive -> bool;
  tcp_write : positive -> list Z -> L -> Z * L;
  tcp_output : positive -> L -> L;
  tcp_recved : positive -> Z -> L -> L;
  tcp_connect : positive -> L -> Z * L;
  tcp_close : positive -> L -> Z * L;
  tcp_abort : positive -> L -> L;
  tcp_nagle_disable : positive -> L -> L;
  tcp_arg : positive -> bool -> L -> L;
  tcp_callbacks : positive -> bool -> L -> L;
  tcp_poll : positive -> option Z -> L -> L;
  arg_of : L -> positive -> bool;
  dns_gethostbyname : list Z -> L -> Z * L
}.

Definition ERR_OK : Z := 0.
Definition ERR_TIMEOUT : Z := -3.
Definition ERR_INPROGRESS : Z := -5.
Definition ERR_ABRT : Z := -8.
Definition USHRT_MAX : Z := 65535.
Definition NETWORK_SEND_BUFFER_SIZE : Z := 1024.

Inductive TcpConnectionEvent := eTCE_Connected | eTCE_Received | eTCE_Sent | eTCE_Poll.

(** ** The object

    [alive] is false once it is deleted; [destroyed] counts the calls of the
    delegate that is told so. *)
Record conn (L : Type) := {
  lw : L; tcp : option positive; sleep : Z; timeOut : Z; canSend : bool; autoSelfDestruct : bool; useSsl : bool;
  destroyedDelegate : bool; destroyed : nat; alive : bool
}.
Arguments lw {L}. Arguments tcp {L}. Arguments sleep {L}. Arguments timeOut {L}. Arguments canSend {L}. Arguments autoSelfDestruct {L}.
Arguments useSsl {L}. Arguments destroyedDelegate {L}. Arguments destroyed {L}. Arguments alive {L}.

Section Fields.
Context {L : Type}.
Definition set_lw (l : L) (c : conn L) : conn L :=
  {| lw := l; tcp := tcp c; sleep := sleep c; timeOut := timeOut c; canSend := canSend c; autoSelfDestruct := autoSelfDestruct c; useSsl := useSsl c;
     destroyedDelegate := destroyedDelegate c; destroyed := destroyed c; alive := alive c |}.
Definition set_tcp (p : option positive) (c : conn L) : conn L :=
  {| lw := lw c; tcp := p; sleep := sleep c; timeOut := timeOut c; canSend := canSend c; autoSelfDestruct := autoSelfDestruct c; useSsl := useSsl c;
     destroyedDelegate := destroyedDelegate c; destroyed := destroyed c; alive := alive c |}.
Definition set_sleep (n : Z) (c : conn L) : conn L :=
  {| lw := lw c; tcp := tcp c; sleep := n; timeOut := timeOut c; canSend := canSend c; autoSelfDestruct := autoSelfDestruct c; useSsl := useSsl c;
     destroyedDelegate := destroyedDelegate c; destroyed := destroyed c; alive := alive c |}.
Definition set_timeOut (n : Z) (c : conn L) : conn L :=
  {| lw := lw c; tcp := tcp c; sleep := sleep c; timeOut := n; canSend := canSend c; autoSelfDestruct := autoSelfDestruct c; useSsl := useSsl c;
     destroyedDelegate := destroyedDelegate c; destroyed := destroyed c; alive := alive c |}.
Definition set_canSend (b : bool) (c : conn L) : conn L :=
  {| lw := lw c; tcp := tcp c; sleep := sleep c; timeOut := timeOut c; canSend := b; autoSelfDestruct := autoSelfDestruct c; useSsl := useSsl c;
     destroyedDelegate := destroyedDelegate c; destroyed := destroyed c; alive := alive c |}.
Definition set_autoSelfDestruct (b : bool) (c : conn L) : conn L :=
  {| lw := lw c; tcp := tcp c; sleep := sleep c; timeOut := timeOut c; canSend := canSend c; autoSelfDestruct := b; useSsl := useSsl c;
     destroyedDelegate := destroyedDelegate c; destroyed := destroyed c; alive := alive c |}.
Definition set_useSsl (b : bool) (c : conn L) : conn L :=
  {| lw := lw c; tcp := tcp c; sleep := sleep c; timeOut := timeOut c; canSend := canSend c; autoSelfDestruct := autoSelfDestruct c; useSsl := b;
     destroyedDelegate := destroyedDelegate c; destroyed := destroyed c; alive := alive c |}.
Definition set_destroyed (d : bool) (n : nat) (a : bool) (c : conn L) : conn L :=
  {| lw := lw c; tcp := tcp c; sleep := sleep c; timeOut := timeOut c; canSend := canSend c; autoSelfDestruct := autoSelfDestruct c; useSsl := useSsl c;
     destroyedDelegate := d; destroyed := n; alive := a |}.
End Fields.

(** An object of a class derived from [TcpConnection]. *)
Class HasConn (S L : Type) := { conn_of : S -> conn L; set_conn : conn L -> S -> S }.

Section TcpConnection.
Context {S L : Type} `{Lwip L} `{HasConn S L}.

(** Access to the object, and to the stack. *)
Definition this : M S (conn L) := fun s => if alive (conn_of s) then Some (conn_of s, s) else None.
Definition upd (f : conn L -> conn L) : M S unit := this ;;; modify (fun s => set_conn (f (conn_of s)) s).
Definition stack {A} (f : L -> A * L) : M S A := fun s =>
  let c := conn_of s in let '(a, l) := f (lw c) in Some (a, set_conn (set_lw l c) s).
Definition stack_ (f : L -> L) : M S unit := stack (fun l => (tt, f l)).
Definition deref (p : option positive) : M S positive := match p with Some p => ret p | None => fault end.

Definition getAvailableWriteSize : M S Z :=
  let! c := this in
  ret (match tcp c with Some p => if canSend c then tcp_sndbuf (lw c) p else 0 | None => 0 end).

Definition initialize (pcb : option positive) : M S unit :=
  upd (set_tcp pcb) ;;;
  upd (set_sleep 0) ;;;
  upd (set_canSend true) ;;;
  let! p := deref pcb in
  stack_ (tcp_nagle_disable p) ;;;
  stack_ (tcp_arg p true) ;;;
  stack_ (tcp_callbacks p true) ;;;
  stack_ (tcp_poll p (Some 4)).

Definition closeTcpConnection (tpcb : option positive) : M S unit :=
  match tpcb with
  | None => ret tt
  | Some p =>
      stack_ (tcp_arg p false) ;;;
      stack_ (tcp_callbacks p false) ;;;
      stack_ (tcp_poll p None) ;;;
      let! err := stack (tcp_close p) in
      when (negb (err =? ERR_OK)) (stack_ (tcp_poll p (Some 4)))
  end.

Definition flush : M S unit :=
  let! c := this in
  match tcp c with
  | Some p => when (tcp_established (lw c) p) (stack_ (tcp_output p))
  | None => ret tt
  end.

Definition internalTcpConnect : M S bool :=
  let! c := this in
  let! p := deref (tcp c) in
  let! res := stack (tcp_connect p) in
  ret (res =? ERR_OK).

(** [connect] by name: the answer of the name service comes at once or later
    in [staticDnsResponse]. *)
Definition connect_name (server : list Z) (ssl : bool) : M S bool :=
  let! c := this in
  match tcp c with
  | None => let! p := stack tcp_new in initialize p
  | Some _ => ret tt
  end ;;;
  upd (set_useSsl ssl) ;;;
  upd (set_canSend false) ;;;
  let! dnslook := stack (dns_gethostbyname server) in
  if negb (dnslook =? ERR_OK) then ret (dnslook =? ERR_INPROGRESS) else internalTcpConnect.

(** [connect] by address *)
Definition connect_addr (ssl : bool) : M S bool :=
  let! c := this in
  match tcp c with
  | None => let! p := stack tcp_new in initialize p
  | Some _ => ret tt
  end ;;;
  upd (set_useSsl ssl) ;;;
  internalTcpConnect.

Definition setTimeOut (waitTimeOut : Z) : M S unit := upd (set_timeOut waitTimeOut).
Definition setDestroyedDelegate (b : bool) : M S unit := upd (fun c => set_destroyed b (destroyed c) (alive c) c).

(** [write] of bytes: how many the stack took, or -1 *)
Definition write (data : list Z) : M S Z :=
  let! available := getAvailableWriteSize in
  let len := zlen data in
  if (available <? len) && (available =? 0) then ret (-1) else
  let len := if available <? len then available else len in
  let! c := this in
  let! p := deref (tcp c) in
  let! err := stack (tcp_write p (take (Z.to_nat len) data)) in
  ret (if err =? ERR_OK then len else -1).

(** [write] of a stream.  [queuelen] is the build constant
    [TCP_SND_QUEUELEN]. *)
Section Stream.
Context {St : Type} `{IDataSourceStream St} (queuelen : Z).

Definition on_stream {A} (m : option A) : M S A := match m with Some a => ret a | None => fault end.

(** A turn of the inner loop, which leaves it with [repeat]. *)
Definition push_body (v : Z * Z * St) : M S (Z * Z * St + bool * Z * St) :=
  let '(pushCount, total, st) := v in
  let pushCount := pushCount + 1 in
  let! size := getAvailableWriteSize in
  let read := Z.min NETWORK_SEND_BUFFER_SIZE size in
  let! (available, d, st) := (if read >? 0 then on_stream (readMemoryBlock read st) else ret (0, [], st)) in
  if available >? 0 then
    let! written := write (take (Z.to_nat available) d) in
    let total := total + written in
    let! (_, st) := on_stream (seek (Z.max written 0) st) in
    let! fin := on_stream (isFinished st) in
    let repeat := (written =? available) && negb fin && (pushCount <? 25) in
    ret (if repeat then inl (pushCount, total, st) else inr (repeat, total, st))
  else ret (inr (false, total, st)).

(** A turn of the outer loop. *)
Definition has_space : M S bool :=
  let! c := this in
  let! p := deref (tcp c) in
  ret (tcp_sndqueuelen (lw c) p <? queuelen).
Definition send_body (v : Z * St) : M S (Z * St + Z * St) :=
  let '(total, st) := v in
  let! space := has_space in
  if negb space then flush ;;; ret (inr (total, st)) else
  let! (repeat, total, st) := loop 25 push_body (0, total, st) in
  let! space := has_space in
  ret (if repeat && space then inl (total, st) else inr (total, st)).

(** The inner loop ends with [repeat] false, so the outer one has one turn. *)
Definition write_stream (st : St) : M S (Z * St) :=
  let! (total, st) := loop 1 send_body (0, st) in
  flush ;;;
  ret (total, st).
End Stream.

(** *** Functions of the class that call virtual ones *)

(** [delete this] through the virtual destructor [del]. *)
Definition checkSelfFree (del : M S unit) : M S unit :=
  let! c := this in
  when (match tcp c with None => autoSelfDestruct c | Some _ => false end) del.

Definition TcpConnection_close (del : M S unit) : M S unit :=
  let! c := this in
  match tcp c with
  | None => ret tt
  | Some p =>
      stack_ (tcp_poll p (Some 1)) ;;;
      stack_ (tcp_arg p false) ;;;
      upd (set_tcp None) ;;;
      checkSelfFree del
  end.

(** The destructor; a second deletion inside it would be a fault. *)
Definition TcpConnection_destroy : M S unit :=
  upd (set_autoSelfDestruct false) ;;;
  TcpConnection_close fault ;;;
  upd (fun c => set_destroyed (destroyedDelegate c) (destroyed c + (if destroyedDelegate c then 1 else 0)) false c).

Definition TcpConnection_onReceive (onReadyToSendData : TcpConnectionEvent -> M S unit) (buf : option (list (list Z))) : M S Z :=
  match buf with
  | Some _ => let! n := getAvailableWriteSize in when (n >? 0) (onReadyToSendData eTCE_Received)
  | None => ret tt
  end ;;;
  ret ERR_OK.

Definition TcpConnection_onSent (onReadyToSendData : TcpConnectionEvent -> M S unit) (len : Z) : M S Z :=
  let! c := this in
  match tcp c with
  | Some _ => let! n := getAvailableWriteSize in when (n >? 0) (onReadyToSendData eTCE_Sent)
  | None => ret tt
  end ;;;
  ret ERR_OK.

Definition TcpConnection_onPoll (onReadyToSendData : TcpConnectionEvent -> M S unit) (close : M S unit) : M S Z :=
  let! c := this in
  if (timeOut c <=? sleep c) && negb (timeOut c =? USHRT_MAX) then close ;;; ret ERR_TIMEOUT else
  match tcp c with
  | Some _ => let! n := getAvailableWriteSize in when (n >? 0) (onReadyToSendData eTCE_Poll)
  | None => ret tt
  end ;;;
  ret ERR_OK.

Definition TcpConnection_onConnected (onReadyToSendData : TcpConnectionEvent -> M S unit) (close : M S unit) (err : Z) : M S Z :=
  upd (set_canSend true) ;;;
  (if err =? ERR_OK then onReadyToSendData eTCE_Connected else close) ;;;
  ret ERR_OK.

(** Both only print. *)
Definition TcpConnection_onError (err : Z) : M S unit := ret tt.
Definition TcpConnection_onReadyToSendData (sourceEvent : TcpConnectionEvent) : M S unit := ret tt.
End TcpConnection.

(** ** The callbacks of the stack *)

Class TcpVirtual (S : Type) := {
  onConnected : Z -> M S Z;
  onReceive : option (list (list Z)) -> M S Z;
  onSent : Z -> M S Z;
  onPoll : M S Z;
  onError : Z -> M S unit;
  v_close : M S unit;
  destroy : M S unit
}.

Section Callbacks.
Context {S L : Type} `{Lwip L} `{HasConn S L} `{TcpVirtual S}.

(** [con]: the argument is the connection; [pcb]: the connection block.  A
    chain of packet buffers is the list of their payloads. *)
Definition staticOnConnected (con : bool) (pcb : positive) (err : Z) : M S Z :=
  if negb con then stack_ (tcp_abort pcb) ;;; ret ERR_ABRT else
  let! res := onConnected err in
  checkSelfFree destroy ;;;
  ret res.

Definition staticOnReceive (con : bool) (pcb : positive) (p : option (list (list Z))) (err : Z) : M S Z :=
  let recved := match p with Some d => stack_ (tcp_recved pcb (zlen (concat d))) | None => ret tt end in
  if negb con then recved ;;; closeTcpConnection (Some pcb) ;;; ret ERR_OK else
  upd (set_sleep 0) ;;;
  if negb (err =? ERR_OK) then
    recved ;;;
    closeTcpConnection (Some pcb) ;;;
    upd (set_tcp None) ;;;
    onError err ;;;
    ret (if err =? ERR_ABRT then ERR_ABRT else ERR_OK)
  else
    recved ;;;
    let! res := onReceive p in
    match p with
    | Some _ => ret tt
    | None => v_close ;;; closeTcpConnection (Some pcb)
    end ;;;
    checkSelfFree destroy ;;;
    ret res.

Definition staticOnSent (con : bool) (len : Z) : M S Z :=
  if negb con then ret ERR_OK else
  upd (set_sleep 0) ;;;
  let! res := onSent len in
  checkSelfFree destroy ;;;
  ret res.

Definition staticOnPoll (con : bool) (pcb : positive) : M S Z :=
  if negb con then closeTcpConnection (Some pcb) ;;; ret ERR_OK else
  upd (fun c => set_sleep (u16 (sleep c + 1)) c) ;;;
  let! res := onPoll in
  checkSelfFree destroy ;;;
  ret res.

Definition staticOnError (con : bool) (err : Z) : M S unit :=
  if negb con then ret tt else
  upd (set_tcp None) ;;;
  onError err ;;;
  checkSelfFree destroy.

(** [found]: an address came back. *)
Definition staticDnsResponse (found : bool) : M S unit :=
  if found then internalTcpConnect ;;; ret tt else
  let! c := this in
  closeTcpConnection (tcp c) ;;;
  upd (set_tcp None) ;;;
  v_close.
End Callbacks.

(** ** What is relied on

    [taken l p] are the bytes the stack has taken for [p] so far: those of
    the calls of [tcp_write] that returned [ERR_OK]. *)
Class LwipLaws (L : Type) `{Lwip L} := {
  taken : L -> positive -> list Z;
  law_sndbuf l p : 0 <= tcp_sndbuf l p < 2 ^ 16;
  law_write_ok p d l l' : tcp_write p d l = (ERR_OK, l') -> taken l' p = taken l p ++ d;
  law_write_err p d l e l' : tcp_write p d l = (e, l') -> e <> ERR_OK -> taken l' p = taken l p;
  law_write_arg p d l e l' : tcp_write p d l = (e, l') -> arg_of l' p = arg_of l p;
  law_output p l : taken (tcp_output p l) p = taken l p /\ arg_of (tcp_output p l) p = arg_of l p;
  law_recved p n l : taken (tcp_recved p n l) p = taken l p /\ arg_of (tcp_recved p n l) p = arg_of l p;
  law_poll p i l : taken (tcp_poll p i l) p = taken l p /\ arg_of (tcp_poll p i l) p = arg_of l p;
  law_callbacks p b l : taken (tcp_callbacks p b l) p = taken l p /\ arg_of (tcp_callbacks p b l) p = arg_of l p;
  law_arg p b l : taken (tcp_arg p b l) p = taken l p /\ arg_of (tcp_arg p b l) p = b;
  law_abort p l : taken (tcp_abort p l) p = taken l p /\ arg_of (tcp_abort p l) p = arg_of l p;
  law_close p l : taken (snd (tcp_close p l)) p = taken l p /\ arg_of (snd (tcp_close p l)) p = arg_of l p
}.

Class HasConnLaws (S L : Type) `{HasConn S L} := {
  conn_of_set c s : conn_of (set_conn c s) = c;
  set_conn_twice c c' s : set_conn c (set_conn c' s) = set_conn c s;
  set_conn_same s : set_conn (conn_of s) s = s
}.

Lemma set_lw_twice {L} (l l' : L) c : set_lw l (set_lw l' c) = set_lw l c.
Proof. reflexivity. Qed.
Lemma set_lw_same {L} (c : conn L) : set_lw (lw c) c = c.
Proof. by destruct c. Qed.

Section Sending.
Context {S L : Type} `{LwipLaws L} `{HasConnLaws S L}.
Implicit Types s : S.

(** [s] with another stack. *)
Definition with_lw (l : L) s : S := set_conn (set_lw l (conn_of s)) s.

Lemma with_lw_conn l s : conn_of (with_lw l s) = set_lw l (conn_of s).
Proof. apply conn_of_set. Qed.
Lemma with_lw_twice l l' s : with_lw l (with_lw l' s) = with_lw l s.
Proof. unfold with_lw. by rewrite conn_of_set, set_conn_twice. Qed.
Lemma with_lw_same s : with_lw (lw (conn_of s)) s = s.
Proof. unfold with_lw. rewrite set_lw_same. apply set_conn_same. Qed.

Lemma this_run s : alive (conn_of s) = true -> this s = Some (conn_of s, s).
Proof. intros E. unfold this. by rewrite E. Qed.
Lemma stack_run {A} (f : L -> A * L) s : stack f s = Some (fst (f (lw (conn_of s))), with_lw (snd (f (lw (conn_of s)))) s).
Proof. unfold stack, with_lw. by destruct (f _). Qed.

(** An open connection on the block [p]. *)
Definition open_on (p : positive) s : Prop := alive (conn_of s) = true /\ tcp (conn_of s) = Some p.

Lemma open_with_lw p l s : open_on p s -> open_on p (with_lw l s).
Proof. unfold open_on. by rewrite with_lw_conn. Qed.

Definition write_size p s : Z := if canSend (conn_of s) then tcp_sndbuf (lw (conn_of s)) p else 0.

Lemma write_size_range p s : 0 <= write_size p s < 2 ^ 16.
Proof. unfold write_size. destruct (canSend _); [apply law_sndbuf|lia]. Qed.

Lemma getAvailableWriteSize_run p s : open_on p s -> getAvailableWriteSize s = Some (write_size p s, s).
Proof. intros [Ha Ht]. unfold getAvailableWriteSize, bind. rewrite this_run by done. rewrite Ht. reflexivity. Qed.

(** [write]: a prefix, or nothing. *)
Lemma write_run p s data : open_on p s -> data <> [] ->
  exists r l', write data s = Some (r, with_lw l' s) /\ arg_of l' p = arg_of (lw (conn_of s)) p /\
    ((r = -1 /\ taken l' p = taken (lw (conn_of s)) p) \/
     (0 < r /\ r = Z.min (write_size p s) (zlen data) /\ taken l' p = taken (lw (conn_of s)) p ++ take (Z.to_nat r) data)).
Proof.
  intros Ho Hd. assert (0 < zlen data) as Hl by (pose proof (zlen_nonneg data); destruct (Z.eq_dec (zlen data) 0) as [E|]; [by apply zlen_zero in E|lia]).
  unfold write, bind at 1. rewrite (getAvailableWriteSize_run p) by done. pose proof (write_size_range p s) as Hw.
  destruct (Z.eqb_spec (write_size p s) 0) as [E0|E0].
  - rewrite E0, (proj2 (Z.ltb_lt _ _)) by lia. cbn [andb]. exists (-1), (lw (conn_of s)). rewrite with_lw_same. split; [done|]. split; [done|]. by left.
  - rewrite andb_false_r. set (len := if write_size p s <? zlen data then write_size p s else zlen data).
    assert (len = Z.min (write_size p s) (zlen data)) as El by (unfold len; destruct (Z.ltb_spec (write_size p s) (zlen data)); lia). clearbody len.
    unfold bind at 1. rewrite this_run by apply Ho. destruct Ho as [Ha Ht]. rewrite Ht. unfold bind, deref, ret. rewrite stack_run.
    destruct (tcp_write p (take (Z.to_nat len) data) (lw (conn_of s))) as [e l'] eqn:Ew. cbn [fst snd]. exists (if e =? ERR_OK then len else -1), l'.
    split; [done|]. split; [by apply (law_write_arg _ _ _ _ _ Ew)|]. destruct (Z.eqb_spec e ERR_OK) as [->|Hne].
    + right. split; [lia|]. split; [done|]. by apply law_write_ok.
    + left. split; [done|]. by apply (law_write_err _ _ _ _ _ Ew).
Qed.

Lemma flush_run p s : open_on p s -> exists l', flush s = Some (tt, with_lw l' s) /\ taken l' p = taken (lw (conn_of s)) p /\ arg_of l' p = arg_of (lw (conn_of s)) p.
Proof.
  intros [Ha Ht]. unfold flush, bind. rewrite this_run by done. rewrite Ht. unfold when. destruct (tcp_established _ _).
  - exists (tcp_output p (lw (conn_of s))). unfold stack_. rewrite stack_run. cbn [fst snd]. split; [done|]. apply law_output.
  - exists (lw (conn_of s)). rewrite with_lw_same. done.
Qed.

Lemma upd_run f s : alive (conn_of s) = true -> upd f s = Some (tt, set_conn (f (conn_of s)) s).
Proof. intros E. unfold upd, bind. by rewrite this_run. Qed.

(** An object that does not free itself. *)
Lemma checkSelfFree_keeps del s : alive (conn_of s) = true -> autoSelfDestruct (conn_of s) = false -> checkSelfFree del s = Some (tt, s).
Proof. intros Ha Hf. unfold checkSelfFree, bind. rewrite this_run by done. rewrite Hf. by destruct (tcp _). Qed.

Lemma TcpConnection_close_run del p s : open_on p s -> autoSelfDestruct (conn_of s) = false ->
  exists l', TcpConnection_close del s = Some (tt, set_conn (set_tcp None (set_lw l' (conn_of s))) s) /\
    taken l' p = taken (lw (conn_of s)) p /\ arg_of l' p = false.
Proof.
  intros [Ha Ht] Hf. exists (tcp_arg p false (tcp_poll p (Some 1) (lw (conn_of s)))). unfold TcpConnection_close, bind at 1. rewrite this_run, Ht by done.
  unfold bind. unfold stack_. rewrite !stack_run. cbn [fst snd]. rewrite with_lw_twice, with_lw_conn. cbn [lw set_lw].
  rewrite upd_run by (by rewrite with_lw_conn). rewrite with_lw_conn. rewrite checkSelfFree_keeps by (by rewrite conn_of_set). unfold with_lw. rewrite set_conn_twice. split; [done|].
  destruct (law_arg p false (tcp_poll p (Some 1) (lw (conn_of s)))) as [-> ->]. split; [apply law_poll|done].
Qed.

Lemma closeTcpConnection_run p s : exists l', closeTcpConnection (Some p) s = Some (tt, with_lw l' s) /\
  taken l' p = taken (lw (conn_of s)) p /\ arg_of l' p = false.
Proof.
  unfold closeTcpConnection, bind, stack_. rewrite !stack_run. cbn [fst snd]. rewrite !with_lw_twice, !with_lw_conn. cbn [lw set_lw].
  set (l1 := tcp_poll p None (tcp_callbacks p false (tcp_arg p false (lw (conn_of s))))).
  assert (taken l1 p = taken (lw (conn_of s)) p /\ arg_of l1 p = false) as [Hk Ha].
  { unfold l1. destruct (law_poll p None (tcp_callbacks p false (tcp_arg p false (lw (conn_of s))))) as [-> ->].
    destruct (law_callbacks p false (tcp_arg p false (lw (conn_of s)))) as [-> ->]. apply law_arg. }
  clearbody l1. unfold when. destruct (law_close p l1) as [Hk2 Ha2]. destruct (negb _).
  - rewrite stack_run. cbn [fst snd]. rewrite with_lw_twice, with_lw_conn. cbn [lw set_lw]. eexists. split; [done|].
    destruct (law_poll p (Some 4) (tcp_close p l1).2) as [-> ->]. by rewrite Hk2, Ha2.
  - eexists. split; [done|]. by rewrite Hk2, Ha2.
Qed.

Section Stream.
Context {St : Type} `{Source St} (queuelen : Z).

(** After some bytes of [l] have gone from the stream to the stack; one more
    call of [write] may have failed. *)
Definition sent_some p (l : list Z) s (n : nat) (failed : bool) (r : Z * St) s' : Prop :=
  (n <= length l)%nat /\ fst r = Z.of_nat n - (if failed then 1 else 0) /\ content (snd r) (drop n l) /\
  exists l', s' = with_lw l' s /\ taken l' p = taken (lw (conn_of s)) p ++ take n l /\ arg_of l' p = arg_of (lw (conn_of s)) p.

Lemma sent_some_trans p l s n1 t st s1 n2 failed r s2 : sent_some p l s n1 false (t, st) s1 ->
  sent_some p (drop n1 l) s1 n2 failed r s2 -> sent_some p l s (n1 + n2) failed (t + fst r, snd r) s2.
Proof.
  intros (Hn1 & Ht & Hc & l1 & -> & Hk & Ha) (Hn2 & Hr & Hc2 & l2 & -> & Hk2 & Ha2). rewrite length_drop in Hn2. cbn [fst snd] in *.
  split; [lia|]. split; [cbn; lia|]. split; [by rewrite <- drop_drop|]. exists l2. rewrite with_lw_twice. split; [done|].
  rewrite with_lw_conn in Hk2, Ha2. cbn [lw set_lw] in *. rewrite Hk2, Hk, Ha2, Ha, <- app_assoc. split; [|done]. f_equal.
  rewrite <- (take_drop n1 (take (n1 + n2) l)), take_take, Nat.min_l, skipn_firstn_comm by lia. by replace (n1 + n2 - n1)%nat with n2 by lia.
Qed.

Lemma sent_some_refl p l s st : content st l -> sent_some p l s 0 false (0, st) s.
Proof.
  intros Hc. split; [lia|]. split; [done|]. split; [by rewrite drop_0|]. exists (lw (conn_of s)). rewrite with_lw_same. cbn. by rewrite app_nil_r.
Qed.

(** One turn sends what there is room for. *)
Lemma push_body_run p l s k total st : open_on p s -> content st l -> 0 <= k < 25 ->
  exists n failed r s' v, push_body (k, total, st) s = Some (v, s') /\ sent_some p l s n failed r s' /\
    (n = 0%nat -> failed = false -> l = [] \/ write_size p s = 0) /\
    (v = inr (false, total + fst r, snd r) \/ (failed = false /\ k + 1 < 25 /\ v = inl (k + 1, total + fst r, snd r))).
Proof.
  intros Ho Hc Hk. unfold push_body, bind at 1. rewrite (getAvailableWriteSize_run p) by done. pose proof (write_size_range p s) as Hw.
  unfold NETWORK_SEND_BUFFER_SIZE. destruct (Z.gtb_spec (Z.min 1024 (write_size p s)) 0) as [Hr|Hr].
  2: { exists 0%nat, false, (0, st), s. eexists. split; [done|]. split; [by apply sent_some_refl|]. split; [right; lia|]. left. cbn. by rewrite Z.add_0_r. }
  set (rd := Z.min 1024 (write_size p s)) in *. destruct (source_read st l rd Hc ltac:(lia)) as (st1 & E1 & Hc1).
  unfold bind at 1, on_stream at 1. rewrite E1. unfold ret at 1. pose proof (zlen_nonneg l) as Hl0.
  destruct (Z.gtb_spec (Z.min rd (zlen l)) 0) as [Hav|Hav].
  2: { exists 0%nat, false, (0, st1), s. eexists. split; [done|]. split; [by apply sent_some_refl|]. split; [intros _ _; left; apply zlen_zero; lia|]. left. cbn. by rewrite Z.add_0_r. }
  set (av := Z.min rd (zlen l)) in *. rewrite take_take, Nat.min_l by lia.
  destruct (write_run p s (take (Z.to_nat av) l) Ho) as (w & l' & Ew & Ha & Hres); [intros E; apply (f_equal zlen) in E; rewrite zlen_take in E; change (zlen (@nil Z)) with 0 in E; lia|].
  unfold bind at 1. rewrite Ew. rewrite zlen_take in Hres.
  destruct Hres as [[-> Ht]|(Hw0 & -> & Ht)].
  - destruct (source_seek st1 l 0 Hc1 ltac:(lia)) as (st2 & E2 & Hc2). change (Z.max (-1) 0) with 0. unfold bind at 1, on_stream at 1. rewrite E2. unfold ret at 1.
    unfold bind at 1, on_stream at 1. rewrite (source_finished _ _ Hc2). unfold ret at 1. rewrite (proj2 (Z.eqb_neq (-1) av)) by lia. cbn [andb].
    exists 0%nat, true, (-1, st2), (with_lw l' s). eexists. split; [done|]. split; [|split; [done|by left]]. split; [lia|]. split; [done|]. split; [done|]. exists l'. cbn. by rewrite app_nil_r.
  - replace (Z.min (write_size p s) (Z.min (Z.of_nat (Z.to_nat av)) (zlen l))) with av in * by lia.
    destruct (source_seek st1 l av Hc1 ltac:(lia)) as (st2 & E2 & Hc2). rewrite Z.max_l by lia. unfold bind at 1, on_stream at 1. rewrite E2. unfold ret at 1.
    unfold bind at 1, on_stream at 1. rewrite (source_finished _ _ Hc2). unfold ret at 1. rewrite Z.eqb_refl. cbn [andb].
    exists (Z.to_nat av), false, (av, st2), (with_lw l' s). eexists. split; [done|]. split; [|split; [lia|]].
    + split; [unfold zlen in *; lia|]. split; [cbn; lia|]. split; [done|]. exists l'. split; [done|]. split; [|done]. rewrite Ht. f_equal. rewrite take_take. f_equal. lia.
    + destruct (negb (zlen (drop (Z.to_nat av) l) =? 0)); cbn [andb]; [|by left]. destruct (Z.ltb_spec (k + 1) 25); [right|left]; done.
Qed.

Lemma push_loop_run p fuel : forall l s k total st, open_on p s -> content st l -> 0 <= k -> (Z.to_nat (25 - k) <= fuel)%nat -> k < 25 ->
  exists n failed r s', sent_some p l s n failed r s' /\ (n = 0%nat -> failed = false -> l = [] \/ write_size p s = 0) /\
    loop fuel push_body (k, total, st) s = Some ((false, total + fst r, snd r), s').
Proof.
  induction fuel as [|fuel IH]; intros l s k total st Ho Hc Hk Hf Hk25; [lia|]. cbn [loop].
  destruct (push_body_run p l s k total st Ho Hc ltac:(lia)) as (n & failed & r & s' & v & E & Hs & Hp & [->|(-> & Hk' & ->)]); rewrite E; [by exists n, failed, r, s'|].
  destruct r as [t st']. assert (open_on p s') as Ho' by (destruct Hs as (_ & _ & _ & l' & -> & _); by apply open_with_lw).
  assert (content st' (drop n l)) as Hc' by apply Hs.
  destruct (IH (drop n l) s' (k + 1) (total + t) st' Ho' Hc' ltac:(lia) ltac:(lia) Hk') as (n2 & f2 & r2 & s2 & Hs2 & Hp2 & E2).
  exists (n + n2)%nat, f2, (t + fst r2, snd r2), s2. split; [by apply (sent_some_trans p l s n t st' s')|]. cbn [fst snd]. rewrite E2. split; [|by rewrite Z.add_assoc].
  intros Hn2 _. apply Hp; [lia|done].
Qed.

Lemma has_space_run p s : open_on p s -> has_space queuelen s = Some (tcp_sndqueuelen (lw (conn_of s)) p <? queuelen, s).
Proof. intros [Ha Ht]. unfold has_space, bind. rewrite this_run by done. rewrite Ht. reflexivity. Qed.

Lemma sent_some_then_flush p l s n failed r s1 : open_on p s -> sent_some p l s n failed r s1 ->
  exists s2, flush s1 = Some (tt, s2) /\ sent_some p l s n failed r s2.
Proof.
  intros Ho (Hn & Ht & Hc & l1 & -> & Hk & Ha). destruct (flush_run p (with_lw l1 s)) as (l2 & E & Hk2 & Ha2); [by apply open_with_lw|].
  rewrite with_lw_twice in E. rewrite with_lw_conn in Hk2, Ha2. cbn [lw set_lw] in *. exists (with_lw l2 s). split; [done|]. split; [done|]. split; [done|]. split; [done|].
  exists l2. by rewrite Hk2, Ha2, Hk, Ha.
Qed.

Lemma write_stream_run p l s st : open_on p s -> content st l ->
  exists (n : nat) (failed : bool) r s', write_stream queuelen st s = Some (r, s') /\ sent_some p l s n failed r s' /\
    (n = 0%nat -> failed = false -> l = [] \/ write_size p s = 0 \/ queuelen <= tcp_sndqueuelen (lw (conn_of s)) p).
Proof.
  intros Ho Hc.
  assert (exists (n : nat) (failed : bool) r s1, loop 1 (send_body queuelen) (0, st) s = Some (r, s1) /\ sent_some p l s n failed r s1 /\
    (n = 0%nat -> failed = false -> l = [] \/ write_size p s = 0 \/ queuelen <= tcp_sndqueuelen (lw (conn_of s)) p)) as (n & failed & r & s1 & E & Hs & Hp).
  { cbn [loop]. unfold send_body at 1, bind at 1. rewrite (has_space_run p) by done. destruct (Z.ltb_spec (tcp_sndqueuelen (lw (conn_of s)) p) queuelen) as [Hq|Hq]; cbn [negb].
    - destruct (push_loop_run p 25 l s 0 0 st Ho Hc ltac:(lia) ltac:(lia) ltac:(lia)) as (n & failed & r & s1 & Hs & Hp & E).
      unfold bind at 1. rewrite E. assert (open_on p s1) as Ho1 by (destruct Hs as (_ & _ & _ & l' & -> & _); by apply open_with_lw).
      unfold bind. rewrite (has_space_run p) by done. cbn. exists n, failed, r, s1. split; [by destruct r|]. split; [done|]. intros Hn Hf. destruct (Hp Hn Hf); auto.
    - destruct (sent_some_then_flush p l s 0 false (0, st) s Ho (sent_some_refl p l s st Hc)) as (s1 & E & Hs). unfold bind, ret. rewrite E.
      exists 0%nat, false, (0, st), s1. by auto. }
  destruct (sent_some_then_flush p l s n failed r s1 Ho Hs) as (s2 & E2 & Hs2). exists n, failed, r, s2. split; [|done].
  unfold write_stream, bind. rewrite E. destruct r as [t st']. rewrite E2. reflexivity.
Qed.

(** Sending a stream: over every stream that is a source and every stack,
    [write] returns without a fault; the bytes the stack took are the next
    bytes of the stream, in order and each once, the stream is moved over
    exactly those, nothing else of the object changes, and the result is
    their number, less 1 when the stack refused the last block.  None is sent
    only where the stream is at its end, the stack has no room or refused. *)
Theorem tcp_write_stream_correct p l s st : open_on p s -> content st l ->
  exists (n : nat) (failed : bool) (total : Z) (st' : St) (s' : S), write_stream queuelen st s = Some ((total, st'), s') /\
    total = Z.of_nat n - (if failed then 1 else 0) /\ (n <= length l)%nat /\ content st' (drop n l) /\
    (exists l', s' = with_lw l' s /\ taken l' p = taken (lw (conn_of s)) p ++ take n l) /\
    (n = 0%nat -> failed = false -> l = [] \/ write_size p s = 0 \/ queuelen <= tcp_sndqueuelen (lw (conn_of s)) p).
Proof.
  intros Ho Hc. destruct (write_stream_run p l s st Ho Hc) as (n & failed & [t st'] & s' & E & (Hn & Ht & Hc2 & l' & -> & Hk & _) & Hp).
  exists n, failed, t, st', (with_lw l' s). split; [done|]. split; [done|]. split; [done|]. split; [done|]. split; [by exists l'|done].
Qed.
End Stream.
End Sending.

(** ** An instance

    A stack with one connection block: what it took, the room it has left,
    the length of its queue, and whether it takes blocks at all. *)
Record ministack := { m_taken : list Z; m_room : Z; m_queue : Z; m_refuse : bool; m_arg : bool; m_closed : bool }.
#[export] Instance ministack_lwip : Lwip ministack := {|
  tcp_new l := (Some 1%positive, l);
  tcp_sndbuf l _ := u16 (m_room l);
  tcp_sndqueuelen l _ := m_queue l;
  tcp_established _ _ := true;
  tcp_write _ d l := if m_refuse l then (-1, l) else
    (ERR_OK, {| m_taken := m_taken l ++ d; m_room := m_room l - zlen d; m_queue := m_queue l + 1; m_refuse := m_refuse l; m_arg := m_arg l; m_closed := m_closed l |});
  tcp_output _ l := l;
  tcp_recved _ _ l := l;
  tcp_connect _ l := (ERR_OK, l);
  tcp_close _ l := (ERR_OK, {| m_taken := m_taken l; m_room := m_room l; m_queue := m_queue l; m_refuse := m_refuse l; m_arg := m_arg l; m_closed := true |});
  tcp_abort _ l := l;
  tcp_nagle_disable _ l := l;
  tcp_arg _ b l := {| m_taken := m_taken l; m_room := m_room l; m_queue := m_queue l; m_refuse := m_refuse l; m_arg := b; m_closed := m_closed l |};
  tcp_callbacks _ _ l := l;
  tcp_poll _ _ l := l;
  arg_of l _ := m_arg l;
  dns_gethostbyname _ l := (ERR_OK, l)
|}.
#[export] Program Instance ministack_laws : LwipLaws ministack := {| taken l _ := m_taken l |}.
Next Obligation. intros l p. cbn. unfold u16. apply Z.mod_pos_bound. lia. Qed.
Next Obligation. intros p d l l' E. cbn in E. destruct (m_refuse l); by simplify_eq. Qed.
Next Obligation. intros p d l e l' E He. cbn in E. destruct (m_refuse l); by simplify_eq. Qed.
Next Obligation. intros p d l e l' E. cbn in E. destruct (m_refuse l); by simplify_eq. Qed.
Solve Obligations with done.

(** A plain connection. *)
#[export] Instance conn_HasConn L : HasConn (conn L) L := {| conn_of c := c; set_conn c _ := c |}.
#[export] Instance conn_HasConnLaws L : HasConnLaws (conn L) L.
Proof. done. Qed.

Definition demo_stack (room : Z) : ministack := {| m_taken := []; m_room := room; m_queue := 0; m_refuse := false; m_arg := true; m_closed := false |}.
Definition demo_conn (l : ministack) : conn ministack :=
  {| lw := l; tcp := Some 1%positive; sleep := 0; timeOut := USHRT_MAX; canSend := true; autoSelfDestruct := false; useSsl := false;
     destroyedDelegate := false; destroyed := 0; alive := true |}.
Definition demo_source (d : list Z) : MemoryDataStream := {| md_buf := Some (d ++ [0]); md_pos := 0; md_size := zlen d; md_capacity := 0 |}.

Lemma tcp_write_stream_correct_witness :
  exists (n : nat) (failed : bool) total st' s', write_stream 10 (demo_source [1; 2; 3; 4; 5]) (demo_conn (demo_stack 3)) = Some ((total, st'), s') /\
    total = Z.of_nat n - (if failed then 1 else 0) /\ m_taken (lw s') = take n [1; 2; 3; 4; 5].
Proof.
  destruct (tcp_write_stream_correct (S := conn ministack) 10 1%positive [1; 2; 3; 4; 5] (demo_conn (demo_stack 3)) (demo_source [1; 2; 3; 4; 5]))
    as (n & failed & total & st' & s' & E & Ht & Hn & _ & (l' & -> & Hk) & _).
  - done.
  - exists [1; 2; 3; 4; 5]. split; [|done]. constructor; [done|done|]. cbn. done.
  - exists n, failed, total, st', (with_lw l' (demo_conn (demo_stack 3))). split; [done|]. split; [done|]. exact Hk.
Defined.

(** Deleting itself: the disconnect of a connection that frees itself ends
    with a test of a field of the freed object, in [staticOnReceive] behind
    [close]; so does a timeout in [staticOnPoll]. *)
#[export] Instance conn_virtual L `{Lwip L} : TcpVirtual (conn L) := {|
  onConnected := TcpConnection_onConnected TcpConnection_onReadyToSendData (TcpConnection_close TcpConnection_destroy);
  onReceive := TcpConnection_onReceive TcpConnection_onReadyToSendData;
  onSent := TcpConnection_onSent TcpConnection_onReadyToSendData;
  onPoll := TcpConnection_onPoll TcpConnection_onReadyToSendData (TcpConnection_close TcpConnection_destroy);
  onError := TcpConnection_onError;
  v_close := TcpConnection_close TcpConnection_destroy;
  destroy := TcpConnection_destroy
|}.

Example tcp_disconnect_uses_freed :
  let s := set_autoSelfDestruct true (demo_conn (demo_stack 100)) in
  staticOnReceive true 1 None ERR_OK s = None /\
  (exists s', (let! _ := onReceive None in v_close) s = Some (tt, s') /\ alive s' = false) /\
  staticOnPoll true 1 (set_timeOut 1 s) = None.
Proof. split; [reflexivity|]. split; [eexists; split; reflexivity|reflexivity]. Qed.

(** The outer loop of [write] never repeats: a stream of more than 25 small
    pieces is sent in part although the stack has room. *)
Definition tiny_read : IDataSourceStream MemoryDataStream := {|
  readMemoryBlock n s := MemoryDataStream_readMemoryBlock (Z.min 1 n) s;
  seek n s := Some (MemoryDataStream_seek n s);
  isFinished s := Some (MemoryDataStream_isFinished s)
|}.
Example tcp_write_stops_after_25 :
  match write_stream (H1 := tiny_read) 100 (demo_source (replicate 40 7)) (demo_conn (demo_stack 1000)) with
  | Some ((total, st), s) => total = 25 /\ zlen (m_taken (lw s)) = 25 /\ m_room (lw s) = 975 /\ MemoryDataStream_isFinished st = false
  | None => False
  end.
Proof. vm_compute. repeat split. Qed.
