(* ===== verification/TcpClient.v ===== *)
(** * TCP clients

    [Sming/SmingCore/Network/TcpClient.cpp], without SSL: a connection with a
    queue of bytes to send, which is a [MemoryDataStream]; it is filled by
    [send] and emptied whenever the stack tells that it can take data.  The
    theorem is about every sequence of calls and callbacks. *)

From S2P Require Import Prelude Streams Tcp.

Inductive TcpClientState := eTCS_Ready | eTCS_Connecting | eTCS_Connected | eTCS_Successful | eTCS_Failed.
#[export] Instance TcpClientState_eq_dec : EqDecision TcpClientState.
Proof. solve_decision. Defined.

Definition TCP_CLIENT_TIMEOUT : Z := 70.

(** [completions] are the calls of the [completed] delegate and [received]
    those of [receive].  The last three fields are history: the bytes [send]
    has taken, the number of bytes the peer has acknowledged, and whether a
    [send] has found the stream partly transmitted. *)
Record client (L : Type) := {
  base : conn L; stream : option MemoryDataStream; state : TcpClientState; asyncCloseAfterSent : bool;
  asyncTotalSent : Z; asyncTotalLen : Z; completions : list bool; received : list (list Z);
  accepted : list Z; acked : Z; rewound : bool
}.
Arguments base {L}. Arguments stream {L}. Arguments state {L}. Arguments asyncCloseAfterSent {L}. Arguments asyncTotalSent {L}.
Arguments asyncTotalLen {L}. Arguments completions {L}. Arguments received {L}. Arguments accepted {L}. Arguments acked {L}. Arguments rewound {L}.

Section Fields.
Context {L : Type}.
Definition set_base (b : conn L) (c : client L) : client L :=
  {| base := b; stream := stream c; state := state c; asyncCloseAfterSent := asyncCloseAfterSent c; asyncTotalSent := asyncTotalSent c;
     asyncTotalLen := asyncTotalLen c; completions := completions c; received := received c; accepted := accepted c; acked := acked c; rewound := rewound c |}.
Definition set_stream (st : option MemoryDataStream) (c : client L) : client L :=
  {| base := base c; stream := st; state := state c; asyncCloseAfterSent := asyncCloseAfterSent c; asyncTotalSent := asyncTotalSent c;
     asyncTotalLen := asyncTotalLen c; completions := completions c; received := received c; accepted := accepted c; acked := acked c; rewound := rewound c |}.
Definition set_state (st : TcpClientState) (c : client L) : client L :=
  {| base := base c; stream := stream c; state := st; asyncCloseAfterSent := asyncCloseAfterSent c; asyncTotalSent := asyncTotalSent c;
     asyncTotalLen := asyncTotalLen c; completions := completions c; received := received c; accepted := accepted c; acked := acked c; rewound := rewound c |}.
Definition set_async (close : bool) (sent len : Z) (c : client L) : client L :=
  {| base := base c; stream := stream c; state := state c; asyncCloseAfterSent := close; asyncTotalSent := sent;
     asyncTotalLen := len; completions := completions c; received := received c; accepted := accepted c; acked := acked c; rewound := rewound c |}.
Definition set_logs (done : list bool) (got : list (list Z)) (c : client L) : client L :=
  {| base := base c; stream := stream c; state := state c; asyncCloseAfterSent := asyncCloseAfterSent c; asyncTotalSent := asyncTotalSent c;
     asyncTotalLen := asyncTotalLen c; completions := done; received := got; accepted := accepted c; acked := acked c; rewound := rewound c |}.
Definition set_history (acc : list Z) (n : Z) (r : bool) (c : client L) : client L :=
  {| base := base c; stream := stream c; state := state c; asyncCloseAfterSent := asyncCloseAfterSent c; asyncTotalSent := asyncTotalSent c;
     asyncTotalLen := asyncTotalLen c; completions := completions c; received := received c; accepted := acc; acked := n; rewound := r |}.
End Fields.

#[export] Instance client_HasConn L : HasConn (client L) L := {| conn_of := base; set_conn := set_base |}.
#[export] Instance client_HasConnLaws L : HasConnLaws (client L) L.
Proof. constructor; [done|done|by intros []]. Qed.

Definition isProcessing {L} (c : client L) : bool := match state c with eTCS_Connected | eTCS_Connecting => true | _ => false end.
Definition getConnectionState {L} (c : client L) : TcpClientState := state c.

Section TcpClient.
Context {L : Type} `{Lwip L} (queuelen : Z) (has_room : Z -> bool) (fill : Z).

(** The delegates of the program: what [ready] and [receive] send when they
    are called, and the result of [receive]. *)
Context (ready : TcpConnectionEvent -> list (list Z * bool)) (receive : option (list Z -> list (list Z * bool) * bool)).

(** Members of the object, which must not be deleted. *)
Definition self : M (client L) (client L) := this ;;; get.
Definition upd_self (f : client L -> client L) : M (client L) unit := this ;;; modify f.

(** A stream with data that is partly read. *)
Definition partly (st : option MemoryDataStream) : bool := match st with Some m => negb (md_pos m =? 0) | None => false end.

Definition send (data : list Z) (forceCloseAfterSent : bool) : M (client L) bool :=
  let! c := self in
  if negb (isProcessing c) then ret false else
  let m := default MemoryDataStream_new (stream c) in
  match MemoryDataStream_write has_room fill data m with
  | None => fault
  | Some (n, m) =>
      upd_self (set_stream (Some m)) ;;;
      if negb (n =? zlen data) then ret false else
      upd_self (set_async forceCloseAfterSent (asyncTotalSent c) (s16 (asyncTotalLen c + zlen data))) ;;;
      upd_self (set_history (accepted c ++ data) (acked c) (rewound c || partly (stream c))) ;;;
      ret true
  end.
Definition sendString (data : list Z) (forceCloseAfterSent : bool) : M (client L) bool := send data forceCloseAfterSent.
Fixpoint sends (l : list (list Z * bool)) : M (client L) unit :=
  match l with [] => ret tt | (d, force) :: l => send d force ;;; sends l end.

Definition pushAsyncPart : M (client L) unit :=
  let! c := self in
  match stream c with
  | None => ret tt
  | Some m =>
      let! (_, m) := write_stream queuelen m in
      upd_self (set_stream (Some m)) ;;;
      if MemoryDataStream_isFinished m then flush ;;; upd_self (set_stream None) else ret tt
  end.

Definition TcpClient_onReadyToSendData (sourceEvent : TcpConnectionEvent) : M (client L) unit :=
  TcpConnection_onReadyToSendData sourceEvent ;;;
  sends (ready sourceEvent) ;;;
  pushAsyncPart.

Definition onFinished : M (client L) unit :=
  upd_self (set_stream None) ;;;
  let! c := self in
  upd_self (set_async (asyncCloseAfterSent c) 0 0) ;;;
  upd_self (set_logs (completions c ++ [bool_decide (state c = eTCS_Successful)]) (received c)).

Definition TcpClient_destroy : M (client L) unit := upd_self (set_stream None) ;;; TcpConnection_destroy.

Definition TcpClient_close : M (client L) unit :=
  let! c := self in
  when (negb (bool_decide (state c = eTCS_Successful)) && negb (bool_decide (state c = eTCS_Failed)))
    (upd_self (set_state (if asyncTotalSent c =? asyncTotalLen c then eTCS_Successful else eTCS_Failed)) ;;;
     upd_self (set_async (asyncCloseAfterSent c) 0 0) ;;;
     onFinished) ;;;
  TcpConnection_close TcpClient_destroy.

Definition TcpClient_onError (err : Z) : M (client L) unit :=
  upd_self (set_state eTCS_Failed) ;;;
  onFinished ;;;
  TcpConnection_onError err.

Definition TcpClient_onConnected (err : Z) : M (client L) Z :=
  (if err =? ERR_OK then upd_self (set_state eTCS_Connected) else TcpClient_onError err) ;;;
  TcpConnection_onConnected TcpClient_onReadyToSendData TcpClient_close err ;;;
  ret ERR_OK.

(** The packet buffers up to an empty one; whether all were taken. *)
Fixpoint deliver (f : list Z -> list (list Z * bool) * bool) (bufs : list (list Z)) : M (client L) bool :=
  match bufs with
  | [] => ret true
  | d :: bufs =>
      if zlen d >? 0 then
        upd_self (fun c => set_logs (completions c) (received c ++ [d]) c) ;;;
        sends (fst (f d)) ;;;
        if snd (f d) then deliver f bufs else ret false
      else ret true
  end.

Definition TcpClient_onReceive (buf : option (list (list Z))) : M (client L) Z :=
  match buf with
  | None => TcpConnection_onReceive TcpClient_onReadyToSendData None
  | Some bufs =>
      let! ok := match receive with Some f => deliver f bufs | None => ret true end in
      if negb ok then TcpConnection_onReceive TcpClient_onReadyToSendData None ;;; ret ERR_ABRT else
      TcpConnection_onReceive TcpClient_onReadyToSendData buf ;;;
      ret ERR_OK
  end.

Definition TcpClient_onSent (len : Z) : M (client L) Z :=
  upd_self (fun c => set_async (asyncCloseAfterSent c) (s16 (asyncTotalSent c + len)) (asyncTotalLen c) c) ;;;
  upd_self (fun c => set_history (accepted c) (acked c + len) (rewound c) c) ;;;
  let! c := self in
  (if match stream c with None => asyncCloseAfterSent c | Some _ => false end
   then TcpConnection_onSent TcpClient_onReadyToSendData len ;;; TcpClient_close
   else TcpConnection_onSent TcpClient_onReadyToSendData len ;;; ret tt) ;;;
  ret ERR_OK.

#[export] Instance client_virtual : TcpVirtual (client L) := {|
  onConnected := TcpClient_onConnected;
  onReceive := TcpClient_onReceive;
  onSent := TcpClient_onSent;
  onPoll := TcpConnection_onPoll TcpClient_onReadyToSendData TcpClient_close;
  onError := TcpClient_onError;
  v_close := TcpClient_close;
  destroy := TcpClient_destroy
|}.

Definition TcpClient_connect_name (server : list Z) (ssl : bool) : M (client L) bool :=
  let! c := self in
  if isProcessing c then ret false else upd_self (set_state eTCS_Connecting) ;;; connect_name server ssl.
Definition TcpClient_connect_addr (ssl : bool) : M (client L) bool :=
  let! c := self in
  if isProcessing c then ret false else upd_self (set_state eTCS_Connecting) ;;; connect_addr ssl.

(** ** Runs

    Calls of the program and callbacks of the stack, in any order.  The stack
    changes by itself in between; after [Error] the connection block is gone
    and its callbacks do not come any more. *)
Inductive event :=
  | Send (data : list Z) (force : bool) | Close
  | Stack (f : L -> L)
  | Connected (err : Z) | Received (p : option (list (list Z))) (err : Z) | Sent (len : Z) | Poll | Error (err : Z).

Definition step (p : positive) (e : event) : M (client L) unit :=
  let! l := gets (fun s => lw (base s)) in
  let con := arg_of l p in
  match e with
  | Send d force => send d force ;;; ret tt
  | Close => TcpClient_close
  | Stack f => stack_ f
  | Connected err => staticOnConnected con p err ;;; ret tt
  | Received b err => staticOnReceive con p b err ;;; ret tt
  | Sent len => staticOnSent con len ;;; ret tt
  | Poll => staticOnPoll con p ;;; ret tt
  | Error err => staticOnError con err ;;; stack_ (tcp_arg p false)
  end.
Fixpoint session (p : positive) (es : list event) : M (client L) unit :=
  match es with [] => ret tt | e :: es => step p e ;;; session p es end.
End TcpClient.

(** ** The invariant *)

Section Session.
Context {L : Type} `{LwipLaws L} (queuelen : Z) (has_room : Z -> bool) (fill : Z).
Context (ready : TcpConnectionEvent -> list (list Z * bool)) (receive : option (list Z -> list (list Z * bool) * bool)).
Hypothesis memory : forall n, has_room n = true.
Context (p : positive) (before : list Z).
Implicit Types s : client L.

(** The bytes that wait in the stream. *)
Definition waiting (st : option MemoryDataStream) (pend : list Z) : Prop :=
  match st with Some m => content m pend | None => pend = [] end.

(** What has gone to the stack and what waits are what was accepted. *)
Definition in_order s : Prop := exists gone pend,
  taken (lw (base s)) p = before ++ gone /\ waiting (stream s) pend /\ (rewound s = false -> gone ++ pend = accepted s).

Record opened s : Prop := {
  o_alive : alive (base s) = true;
  o_auto : autoSelfDestruct (base s) = false;
  o_tcp : tcp (base s) = Some p;
  o_arg : arg_of (lw (base s)) p = true;
  o_state : isProcessing s = true;
  o_none : completions s = [];
  o_len : asyncTotalLen s = s16 (zlen (accepted s));
  o_sent : asyncTotalSent s = s16 (acked s);
  o_data : in_order s
}.

Record closed s : Prop := {
  c_alive : alive (base s) = true;
  c_auto : autoSelfDestruct (base s) = false;
  c_tcp : tcp (base s) = None;
  c_arg : arg_of (lw (base s)) p = false;
  c_state : isProcessing s = false;
  c_final : state s = eTCS_Successful \/ state s = eTCS_Failed;
  c_once : exists b, completions s = [b] /\ (b = true -> acked s mod 2 ^ 16 = zlen (accepted s) mod 2 ^ 16);
  c_data : exists gone, taken (lw (base s)) p = before ++ gone /\ (rewound s = false -> gone `prefix_of` accepted s)
}.

Lemma s16_eq a b : s16 a = s16 b -> a mod 2 ^ 16 = b mod 2 ^ 16.
Proof. unfold s16. intros E. rewrite <- (Z.add_simpl_r a (2 ^ 15)), <- (Z.add_simpl_r b (2 ^ 15)), !(Zminus_mod (_ + 2 ^ 15)). do 2 f_equal. lia. Qed.

Lemma s16_add a b : s16 (s16 a + b) = s16 (a + b).
Proof. unfold s16. f_equal. replace ((a + 2 ^ 15) mod 2 ^ 16 - 2 ^ 15 + b + 2 ^ 15) with ((a + 2 ^ 15) mod 2 ^ 16 + b) by lia. rewrite Zplus_mod_idemp_l. f_equal. lia. Qed.

Lemma self_run s : alive (base s) = true -> self s = Some (s, s).
Proof. intros E. unfold self, bind. by rewrite this_run. Qed.
Lemma upd_self_run f s : alive (base s) = true -> upd_self f s = Some (tt, f s).
Proof. intros E. unfold upd_self, bind. by rewrite this_run. Qed.

Lemma opened_on s : opened s -> open_on p s.
Proof. intros O. split; apply O. Qed.

Lemma send_opened s d force : opened s -> exists b s', send has_room fill d force s = Some (b, s') /\ opened s'.
Proof.
  intros O. unfold send, bind at 1. rewrite self_run by apply O. rewrite (o_state s O). cbn [negb].
  destruct (o_data s O) as (gone & pend & Ht & Hw & Ha).
  assert (exists data, md_ok (default MemoryDataStream_new (stream s)) data /\ (partly (stream s) = false -> data = pend)) as (data & Hm & Hp).
  { destruct (stream s) as [m|]; cbn in *.
    - destruct Hw as (data & Hm & ->). exists data. split; [done|]. intros E. apply negb_false_iff, Z.eqb_eq in E. by rewrite E.
    - subst pend. exists []. split; [|done]. constructor; cbn; [done|lia|done]. }
  destruct (md_write_spec has_room fill _ data d Hm memory) as (m & -> & Hm' & Hpos).
  unfold bind at 1. rewrite upd_self_run by apply O. rewrite Z.eqb_refl. cbn [negb]. unfold bind. rewrite !upd_self_run by apply O. eexists _, _. split; [done|].
  destruct O. constructor; cbn; try done.
  - rewrite o_len0, s16_add, zlen_app. done.
  - exists gone, (data ++ d). split; [done|]. split; [exists (data ++ d); split; [done|by rewrite Hpos]|]. intros E. apply orb_false_iff in E as [E1 E2].
    rewrite (Hp E2), app_assoc, (Ha E1). done.
Qed.

Lemma sends_opened l : forall s, opened s -> exists s', sends has_room fill l s = Some (tt, s') /\ opened s'.
Proof.
  induction l as [|[d force] l IH]; intros s O; cbn [sends]; [by exists s|]. destruct (send_opened s d force O) as (b & s1 & E & O1).
  unfold bind. rewrite E. by apply IH.
Qed.

(** Another stack with the same data. *)
Lemma opened_with_lw l s : opened s -> taken l p = taken (lw (base s)) p -> arg_of l p = arg_of (lw (base s)) p -> opened (with_lw l s).
Proof.
  intros [] Hk Ha. constructor; cbn; try done; [by rewrite Ha|]. destruct o_data0 as (gone & pend & Ht & ?). exists gone, pend. cbn. by rewrite Hk.
Qed.

Lemma pushAsyncPart_opened s : opened s -> exists s', pushAsyncPart queuelen s = Some (tt, s') /\ opened s'.
Proof.
  intros O. unfold pushAsyncPart, bind at 1. rewrite self_run by apply O. destruct (o_data s O) as (gone & pend & Ht & Hw & Ha).
  destruct (stream s) as [m|] eqn:Em; [|by exists s]. unfold waiting in Hw.
  destruct (write_stream_run queuelen p pend s m (opened_on s O) Hw) as (n & failed & [t m'] & s1 & E & (Hn & _ & Hc & l' & -> & Hk & Hg) & _).
  unfold bind at 1. rewrite E. cbn [snd] in Hc. set (s1 := set_stream (Some m') (with_lw l' s)).
  assert (opened s1) as O1.
  { destruct O. constructor; cbn; try done; [by rewrite Hg|]. exists (gone ++ take n pend), (drop n pend). cbn. cbn in Hk. rewrite Hk, Ht, <- app_assoc. split; [done|].
    split; [done|]. intros Er. rewrite <- (Ha Er), <- app_assoc. by rewrite take_drop. }
  unfold bind at 1. rewrite upd_self_run by apply O. fold s1. destruct (MemoryDataStream_isFinished m') eqn:Ef; [|by exists s1].
  destruct (flush_run p s1 (opened_on s1 O1)) as (l2 & E2 & Hk2 & Ha2). unfold bind. rewrite E2. pose proof (opened_with_lw l2 s1 O1 Hk2 Ha2) as O2.
  rewrite upd_self_run by apply O2. eexists. split; [done|]. destruct O2. constructor; cbn; try done. destruct o_data0 as (g & pe & Hd1 & Hd2 & Hd3).
  exists g, []. split; [done|]. split; [done|]. intros Er. transitivity (g ++ pe); [f_equal|exact (Hd3 Er)]. pose proof (source_finished m' pe Hd2) as Efin. cbn in Efin. rewrite Ef in Efin.
  injection Efin as Efin. symmetry in Efin. symmetry. by apply zlen_zero, Z.eqb_eq.
Qed.

Lemma onReady_opened e s : opened s -> exists s', TcpClient_onReadyToSendData queuelen has_room fill ready e s = Some (tt, s') /\ opened s'.
Proof.
  intros O. unfold TcpClient_onReadyToSendData, TcpConnection_onReadyToSendData, bind, ret. destruct (sends_opened (ready e) s O) as (s1 & -> & O1).
  by apply pushAsyncPart_opened.
Qed.

(** [onReadyToSendData] where the stack has room. *)
Lemma offer_opened e s : opened s ->
  exists s', (let! n := getAvailableWriteSize in when (n >? 0) (TcpClient_onReadyToSendData queuelen has_room fill ready e)) s = Some (tt, s') /\ opened s'.
Proof.
  intros O. unfold bind. rewrite (getAvailableWriteSize_run p) by by apply opened_on. unfold when. destruct (_ >? 0); [by apply onReady_opened|by exists s].
Qed.

(** ** The end of a connection *)

(** What [onFinished] leaves. *)
Definition finished_with (b : bool) s : client L :=
  set_logs (completions s ++ [b]) (received s) (set_async (asyncCloseAfterSent s) 0 0 (set_stream None s)).

Lemma onFinished_run s : alive (base s) = true -> onFinished s = Some (tt, finished_with (bool_decide (state s = eTCS_Successful)) s).
Proof.
  intros Ha. unfold onFinished, bind. rewrite upd_self_run by done. rewrite self_run by done. rewrite upd_self_run by done. by rewrite upd_self_run by done.
Qed.

Lemma in_order_prefix s : in_order s -> exists gone, taken (lw (base s)) p = before ++ gone /\ (rewound s = false -> gone `prefix_of` accepted s).
Proof. intros (gone & pend & Ht & _ & Ha). exists gone. split; [done|]. intros E. rewrite <- (Ha E). by apply prefix_app_r. Qed.

(** The object in a final state, with the connection block given up. *)
Lemma ended_closed st s s' : opened s -> st = eTCS_Successful \/ st = eTCS_Failed ->
  (st = eTCS_Successful -> asyncTotalSent s = asyncTotalLen s) ->
  base s' = set_canSend (canSend (base s')) (set_sleep (sleep (base s')) (set_tcp None (set_lw (lw (base s')) (base s)))) ->
  taken (lw (base s')) p = taken (lw (base s)) p -> arg_of (lw (base s')) p = false ->
  state s' = st -> completions s' = completions s ++ [bool_decide (st = eTCS_Successful)] ->
  (accepted s', acked s', rewound s') = (accepted s, acked s, rewound s) -> closed s'.
Proof.
  intros O Hst Hok Eb Hk Ha Es Ec Eh. injection Eh as E1 E2 E3. destruct O. constructor.
  - by rewrite Eb.
  - by rewrite Eb.
  - by rewrite Eb.
  - done.
  - unfold isProcessing. rewrite Es. destruct Hst; by subst.
  - by rewrite Es.
  - exists (bool_decide (st = eTCS_Successful)). rewrite Ec, o_none0. split; [done|]. intros E. apply bool_decide_eq_true in E. rewrite E1, E2. apply s16_eq.
    rewrite <- o_len0, <- o_sent0. by apply Hok.
  - rewrite Hk, E1, E3. by apply in_order_prefix.
Qed.

Lemma close_opened s : opened s -> exists s', TcpClient_close s = Some (tt, s') /\ closed s'.
Proof.
  intros O. unfold TcpClient_close, bind at 1. rewrite self_run by apply O. set (st := if asyncTotalSent s =? asyncTotalLen s then eTCS_Successful else eTCS_Failed).
  assert (negb (bool_decide (state s = eTCS_Successful)) && negb (bool_decide (state s = eTCS_Failed)) = true) as ->.
  { pose proof (o_state s O) as E. unfold isProcessing in E. by destruct (state s). }
  unfold bind, when. rewrite !upd_self_run by apply O. rewrite onFinished_run by apply O.
  destruct (TcpConnection_close_run TcpClient_destroy p (finished_with (bool_decide (st = eTCS_Successful)) (set_async (asyncCloseAfterSent s) 0 0 (set_state st s)))) as (l' & E & Hk & Ha);
    [split; apply O|apply O|]. cbn [conn_of client_HasConn] in E, Hk, Ha.
  eexists. split; [exact E|]. apply (ended_closed st s _ O); try done; [unfold st; destruct (_ =? _); auto|].
  unfold st. by destruct (Z.eqb_spec (asyncTotalSent s) (asyncTotalLen s)).
Qed.

Lemma opened_base b s : opened s -> alive b = true -> autoSelfDestruct b = false -> tcp b = Some p -> lw b = lw (base s) -> opened (set_base b s).
Proof.
  intros O Ha Hf Ht Hl. destruct O. constructor; cbn; try done; [by rewrite Hl|]. destruct o_data0 as (g & pe & Hd & Hw & Hr). exists g, pe. cbn. by rewrite Hl.
Qed.

Lemma onError_run err s : alive (base s) = true -> TcpClient_onError err s = Some (tt, finished_with false (set_state eTCS_Failed s)).
Proof. intros Ha. unfold TcpClient_onError, bind. rewrite upd_self_run by done. by rewrite onFinished_run. Qed.

(** [close] in a final state only gives up the connection block. *)
Lemma close_final s : alive (base s) = true -> state s = eTCS_Successful \/ state s = eTCS_Failed ->
  TcpClient_close s = TcpConnection_close TcpClient_destroy s.
Proof. intros Ha Hs. unfold TcpClient_close, bind. rewrite self_run by done. unfold when. by destruct Hs as [-> | ->]. Qed.

Definition kept s : Prop := opened s \/ closed s.

Lemma keep_alive s : kept s -> alive (base s) = true /\ autoSelfDestruct (base s) = false.
Proof. intros [O|C]; split; apply O || apply C. Qed.

Lemma onConnected_kept err s : opened s ->
  exists s', TcpClient_onConnected queuelen has_room fill ready err s = Some (ERR_OK, s') /\ kept s'.
Proof.
  intros O. unfold TcpClient_onConnected, TcpConnection_onConnected. destruct (Z.eqb_spec err ERR_OK) as [->|Hne].
  - unfold bind at 1. rewrite upd_self_run by apply O. unfold bind at 1 2 3. rewrite upd_run by apply O.
    destruct (onReady_opened eTCE_Connected (set_base (set_canSend true (base s)) (set_state eTCS_Connected s))) as (s' & E & O').
    { apply opened_base; try apply O; [|done]. destruct O. by constructor. }
    cbn [conn_of set_conn client_HasConn]. cbn in E. cbn. rewrite E. unfold ret. exists s'. split; [done|by left].
  - unfold bind at 1. rewrite onError_run by apply O. unfold bind at 1 2 3. rewrite upd_run by apply O.
    rewrite close_final; [|apply O|by right].
    destruct (TcpConnection_close_run TcpClient_destroy p (set_conn (set_canSend true (conn_of (finished_with false (set_state eTCS_Failed s)))) (finished_with false (set_state eTCS_Failed s)))) as (l' & E & Hk & Ha);
      [split; apply O|apply O|]. rewrite E. eexists. split; [done|]. right. by apply (ended_closed eTCS_Failed s _ O); auto.
Qed.

Lemma deliver_opened f bufs : forall s, opened s -> exists ok s', deliver has_room fill f bufs s = Some (ok, s') /\ opened s'.
Proof.
  induction bufs as [|d bufs IH]; intros s O; cbn [deliver]; [by exists true, s|]. destruct (zlen d >? 0); [|by exists true, s].
  unfold bind at 1. rewrite upd_self_run by apply O.
  destruct (sends_opened (fst (f d)) (set_logs (completions s) (received s ++ [d]) s)) as (s1 & E & O1); [by destruct O; constructor|].
  unfold bind at 1. rewrite E. destruct (snd (f d)); [by apply IH|by exists false, s1].
Qed.

Lemma onReceive_opened b s : opened s -> exists r s', TcpClient_onReceive queuelen has_room fill ready receive b s = Some (r, s') /\ opened s'.
Proof.
  intros O. unfold TcpClient_onReceive. destruct b as [bufs|]; [|unfold TcpConnection_onReceive, bind, ret; by eexists _, s].
  assert (exists ok s1, match receive with Some f => deliver has_room fill f bufs | None => ret true end s = Some (ok, s1) /\ opened s1) as (ok & s1 & E & O1).
  { destruct receive; [by apply deliver_opened|by exists true, s]. }
  unfold bind at 1. rewrite E. destruct ok; cbn [negb]; unfold TcpConnection_onReceive, bind, ret; [|by eexists _, s1].
  destruct (offer_opened eTCE_Received s1 O1) as (s2 & E2 & O2). unfold bind in E2. rewrite E2. by eexists _, s2.
Qed.

Lemma base_onSent_opened len s : opened s ->
  exists s', TcpConnection_onSent (TcpClient_onReadyToSendData queuelen has_room fill ready) len s = Some (ERR_OK, s') /\ opened s'.
Proof.
  intros O. unfold TcpConnection_onSent, bind at 1. rewrite this_run by apply O. cbn [conn_of client_HasConn]. rewrite (o_tcp s O).
  destruct (offer_opened eTCE_Sent s O) as (s2 & E2 & O2). unfold bind in *. rewrite E2. by exists s2.
Qed.

Lemma onSent_kept len s : opened s -> exists s', TcpClient_onSent queuelen has_room fill ready len s = Some (ERR_OK, s') /\ kept s'.
Proof.
  intros O. unfold TcpClient_onSent, bind at 1. rewrite upd_self_run by apply O. unfold bind at 1. rewrite upd_self_run by apply O. unfold bind at 1. rewrite self_run by apply O.
  match goal with |- context [bind _ _ ?x] => set (s1 := x) end.
  assert (opened s1) as O1 by (destruct O; constructor; cbn; try done; by rewrite o_sent0, s16_add).
  destruct (base_onSent_opened len s1 O1) as (s2 & E2 & O2). clearbody s1. unfold bind at 1.
  destruct (match stream s1 with None => asyncCloseAfterSent s1 | Some _ => false end); unfold bind; rewrite E2.
  - destruct (close_opened s2 O2) as (s3 & -> & C). exists s3. split; [done|by right].
  - exists s2. split; [done|by left].
Qed.

Lemma onPoll_kept s : opened s ->
  exists r s', TcpConnection_onPoll (TcpClient_onReadyToSendData queuelen has_room fill ready) TcpClient_close s = Some (r, s') /\ kept s'.
Proof.
  intros O. unfold TcpConnection_onPoll, bind at 1. rewrite this_run by apply O. cbn [conn_of client_HasConn]. destruct (_ && _).
  - unfold bind. destruct (close_opened s O) as (s' & -> & C). eexists _, s'. split; [done|by right].
  - rewrite (o_tcp s O). destruct (offer_opened eTCE_Poll s O) as (s2 & E2 & O2). unfold bind in *. rewrite E2. eexists _, s2. split; [done|by left].
Qed.

(** The callbacks while the connection is open. *)
Abbreviation V := (client_virtual queuelen has_room fill ready receive).

Lemma after_free s : kept s -> checkSelfFree (destroy (TcpVirtual := V)) s = Some (tt, s).
Proof. intros K. by apply checkSelfFree_keeps; apply keep_alive. Qed.

Lemma wake_opened n s : opened s -> opened (set_base (set_sleep n (base s)) s).
Proof. intros O. apply opened_base; try apply O; done. Qed.

Lemma recved_opened (b : option (list (list Z))) s : opened s ->
  exists s', match b with Some d => stack_ (tcp_recved p (zlen (concat d))) | None => ret tt end s = Some (tt, s') /\ opened s'.
Proof.
  intros O. destruct b as [d|]; [|by exists s]. unfold stack_. rewrite stack_run. eexists. split; [done|]. by apply opened_with_lw; try apply law_recved.
Qed.

Lemma staticOnReceive_kept b err s : opened s -> exists r s', staticOnReceive (H1 := V) true p b err s = Some (r, s') /\ kept s'.
Proof.
  intros O. unfold staticOnReceive. cbn [negb]. unfold bind at 1. rewrite upd_run by apply O. cbn [conn_of set_conn client_HasConn].
  pose proof (wake_opened 0 s O) as O0. set (s0 := set_base (set_sleep 0 (base s)) s) in *. destruct (recved_opened b s0 O0) as (s1 & E1 & O1).
  destruct (negb (err =? ERR_OK)); unfold bind at 1; rewrite E1.
  - destruct (closeTcpConnection_run p s1) as (l' & E2 & Hk & Ha). unfold bind. rewrite E2. rewrite upd_run by apply O1. cbn [onError client_virtual].
    rewrite onError_run by apply O1. eexists _, _. split; [done|]. right. by apply (ended_closed eTCS_Failed s1 _ O1); auto.
  - cbn [onReceive client_virtual]. destruct (onReceive_opened b s1 O1) as (r & s2 & E2 & O2). unfold bind at 1. rewrite E2.
    assert (exists s3, match b with Some _ => ret tt | None => v_close (TcpVirtual := V) ;;; closeTcpConnection (Some p) end s2 = Some (tt, s3) /\ kept s3) as (s3 & E3 & K3).
    { destruct b; [exists s2; split; [done|by left]|]. cbn [v_close client_virtual]. destruct (close_opened s2 O2) as (s3 & E3 & C3). unfold bind. rewrite E3.
      destruct (closeTcpConnection_run p s3) as (l' & E4 & Hk & Ha). rewrite E4. eexists. split; [done|]. right. destruct C3. constructor; cbn; try done. by rewrite Hk. }
    unfold bind at 1. rewrite E3. unfold bind. rewrite after_free by done. by eexists _, s3.
Qed.

(** ** Steps *)

Lemma closed_with_lw l s : closed s -> taken l p = taken (lw (base s)) p -> arg_of l p = false -> closed (with_lw l s).
Proof. intros [] Hk Ha. constructor; cbn; try done. by rewrite Hk. Qed.

Lemma closed_stack (f : L -> L) s : closed s -> (forall l, taken (f l) p = taken l p /\ (arg_of l p = false -> arg_of (f l) p = false)) ->
  exists s', stack_ f s = Some (tt, s') /\ closed s'.
Proof.
  intros C Hf. unfold stack_. rewrite stack_run. eexists. split; [done|]. apply closed_with_lw; [done|apply Hf|]. apply Hf. by apply C.
Qed.

(** The stack by itself takes back nothing and keeps the argument of the
    callbacks. *)
Definition fair_event (e : event) : Prop :=
  match e with Stack f => forall l, taken (f l) p = taken l p /\ arg_of (f l) p = arg_of l p | _ => True end.

Lemma step_closed e s : closed s -> fair_event e -> exists s', step queuelen has_room fill ready receive p e s = Some (tt, s') /\ closed s'.
Proof.
  intros C He. unfold step, bind at 1, gets. rewrite (c_arg s C).
  assert (exists s', closeTcpConnection (Some p) s = Some (tt, s') /\ closed s') as (s1 & E1 & C1).
  { destruct (closeTcpConnection_run p s) as (l' & -> & Hk & Ha). eexists. split; [done|]. by apply closed_with_lw. }
  destruct e as [d force| |f|err|b err|len| |err].
  - unfold send, bind. rewrite self_run by apply C. rewrite (c_state s C). by exists s.
  - rewrite close_final by apply C. unfold TcpConnection_close, bind. rewrite this_run by apply C. cbn [conn_of client_HasConn]. rewrite (c_tcp s C). by exists s.
  - apply closed_stack; [done|]. intros l. destruct (He l) as [-> ->]. done.
  - unfold staticOnConnected, bind. cbn [negb]. destruct (closed_stack (tcp_abort p) s C) as (s2 & -> & C2); [intros l; by destruct (law_abort p l) as [-> ->]|]. by exists s2.
  - unfold staticOnReceive. cbn [negb]. unfold bind. destruct b as [d|].
    + destruct (closed_stack (tcp_recved p (zlen (concat d))) s C) as (s2 & -> & C2); [intros l; by destruct (law_recved p (zlen (concat d)) l) as [-> ->]|].
      destruct (closeTcpConnection_run p s2) as (l' & -> & Hk & Ha). eexists. split; [done|]. by apply closed_with_lw.
    + unfold ret at 1. rewrite E1. by exists s1.
  - by exists s.
  - unfold staticOnPoll, bind. cbn [negb]. rewrite E1. by exists s1.
  - unfold staticOnError, bind. cbn [negb]. apply closed_stack; [done|]. intros l. by destruct (law_arg p false l) as [-> ->].
Qed.

Lemma step_opened e s : opened s -> fair_event e -> exists s', step queuelen has_room fill ready receive p e s = Some (tt, s') /\ kept s'.
Proof.
  intros O He. unfold step, bind at 1, gets. rewrite (o_arg s O). destruct e as [d force| |f|err|b err|len| |err].
  - destruct (send_opened s d force O) as (b & s' & E & O'). unfold bind. rewrite E. exists s'. split; [done|by left].
  - destruct (close_opened s O) as (s' & -> & C). exists s'. split; [done|by right].
  - unfold stack_. rewrite stack_run. eexists. split; [done|]. left. by apply opened_with_lw; try apply He.
  - unfold staticOnConnected. cbn [negb onConnected client_virtual]. destruct (onConnected_kept err s O) as (s' & E & K). unfold bind. rewrite E.
    rewrite after_free by done. by exists s'.
  - destruct (staticOnReceive_kept b err s O) as (r & s' & E & K). unfold bind. rewrite E. by exists s'.
  - unfold staticOnSent. cbn [negb onSent client_virtual]. unfold bind. rewrite upd_run by apply O. cbn [conn_of set_conn client_HasConn].
    destruct (onSent_kept len _ (wake_opened 0 s O)) as (s' & E & K). rewrite E, after_free by done. by exists s'.
  - unfold staticOnPoll. cbn [negb onPoll client_virtual]. unfold bind. rewrite upd_run by apply O. cbn [conn_of set_conn client_HasConn].
    destruct (onPoll_kept _ (wake_opened (u16 (sleep (base s) + 1)) s O)) as (r & s' & E & K). rewrite E, after_free by done. by exists s'.
  - unfold staticOnError. cbn [negb onError client_virtual]. unfold bind. rewrite upd_run by apply O. rewrite onError_run by apply O.
    rewrite checkSelfFree_keeps by apply O. unfold stack_. rewrite stack_run. eexists. split; [done|]. right.
    apply (ended_closed eTCS_Failed s _ O); try done; [by right|apply law_arg|apply law_arg].
Qed.

Lemma session_kept es : forall s, kept s -> Forall fair_event es -> exists s', session queuelen has_room fill ready receive p es s = Some (tt, s') /\ kept s'.
Proof.
  induction es as [|e es IH]; intros s K Hes; cbn [session]; [by exists s|]. apply Forall_cons in Hes as [He Hes].
  assert (exists s1, step queuelen has_room fill ready receive p e s = Some (tt, s1) /\ kept s1) as (s1 & E & K1).
  { destruct K as [O|C]; [by apply step_opened|]. destruct (step_closed e s C He) as (s1 & ? & ?). exists s1. split; [done|by right]. }
  unfold bind. rewrite E. by apply IH.
Qed.
End Session.

(** A client that has just connected, or is about to. *)
Record fresh {L} `{Lwip L} (p : positive) (s : client L) : Prop := {
  f_alive : alive (base s) = true;
  f_auto : autoSelfDestruct (base s) = false;
  f_tcp : tcp (base s) = Some p;
  f_arg : arg_of (lw (base s)) p = true;
  f_state : isProcessing s = true;
  f_stream : stream s = None;
  f_totals : (asyncTotalSent s, asyncTotalLen s) = (0, 0);
  f_logs : completions s = [];
  f_history : (accepted s, acked s, rewound s) = ([], 0, false)
}.

Definition pending_bytes {L} (s : client L) : list Z :=
  match stream s with Some m => drop (Z.to_nat (md_pos m)) (take (Z.to_nat (md_size m)) (default [] (md_buf m))) | None => [] end.

(** Every session of a client: in any order of calls of [send] and
    [close], of callbacks of the stack with errors, disconnects and timeouts,
    and of sends made inside the delegates, no step faults.  Unless a [send]
    found the stream partly transmitted, the bytes the stack took are a prefix
    of the bytes accepted by [send], each once and in order, and while the
    connection is open the rest of them waits in the stream.  The program is
    told the end of the connection exactly once, and success only if the
    number of acknowledged bytes is that of the accepted ones modulo 2^16. *)
Theorem tcp_client_session {L} `{LwipLaws L} queuelen has_room fill ready receive p (s : client L) es :
  (forall n, has_room n = true) -> fresh p s -> Forall (fair_event p) es ->
  exists s', session queuelen has_room fill ready receive p es s = Some (tt, s') /\ alive (base s') = true /\
    (rewound s' = false -> exists gone, taken (lw (base s')) p = taken (lw (base s)) p ++ gone /\ gone `prefix_of` accepted s' /\
       (tcp (base s') = Some p -> gone ++ pending_bytes s' = accepted s')) /\
    ((isProcessing s' = true /\ completions s' = []) \/
     (isProcessing s' = false /\ exists b, completions s' = [b] /\ (b = true -> acked s' mod 2 ^ 16 = zlen (accepted s') mod 2 ^ 16))).
Proof.
  intros Hm F Hes. assert (opened p (taken (lw (base s)) p) s) as O.
  { destruct F. injection f_totals0 as E1 E2. injection f_history0 as E3 E4 E5. constructor; try done; [by rewrite E2, E3|by rewrite E1, E4|].
    exists [], []. rewrite app_nil_r, f_stream0, E3. done. }
  destruct (session_kept queuelen has_room fill ready receive Hm p _ es s (or_introl O) Hes) as (s' & E & K). exists s'. split; [done|].
  split; [by apply (keep_alive p (taken (lw (base s)) p))|]. destruct K as [O'|C].
  - split; [|left; split; apply O']. intros Er. destruct (o_data _ _ s' O') as (gone & pend & Ht & Hw & Ha). specialize (Ha Er). exists gone. split; [done|].
    split; [rewrite <- Ha; by apply prefix_app_r|]. intros _. rewrite <- Ha. f_equal. unfold pending_bytes. destruct (stream s') as [m|]; [|done].
    destruct Hw as (data & [K1 K2 K3] & ->). f_equal. rewrite K1. unfold zlen. rewrite Nat2Z.id. destruct (md_buf m) as [b|]; cbn; [by destruct K3 as (-> & _)|].
    destruct K3 as [-> _]. done.
  - split; [|right; split; apply C]. intros Er. destruct (c_data _ _ s' C) as (gone & Ht & Hp). exists gone. split; [done|]. split; [by apply Hp|].
    intros E'. by rewrite (c_tcp _ _ s' C) in E'.
Qed.

(** ** Instances *)

Definition demo_client (room : Z) : client ministack :=
  {| base := demo_conn (demo_stack room); stream := None; state := eTCS_Connecting; asyncCloseAfterSent := false; asyncTotalSent := 0; asyncTotalLen := 0;
     completions := []; received := []; accepted := []; acked := 0; rewound := false |}.
Definition more_room (n : Z) (l : ministack) : ministack :=
  {| m_taken := m_taken l; m_room := m_room l + n; m_queue := 0; m_refuse := m_refuse l; m_arg := m_arg l; m_closed := m_closed l |}.
Definition demo_session (es : list event) (room : Z) : option (unit * client ministack) :=
  session 10 (fun _ => true) 0 (fun e => match e with eTCE_Connected => [([104; 105], false)] | _ => [] end)
    (Some (fun d => ([(d, false)], true))) 1 es (demo_client room).

(** An echo client: a greeting when it is connected, then what it receives;
    the peer disconnects. *)
Lemma tcp_client_session_witness :
  exists s', demo_session [Connected 0; Stack (more_room 4); Sent 2; Received (Some [[1; 2]; [3]]) 0; Sent 3; Received None 0] 2 = Some (tt, s') /\
    (exists gone, m_taken (lw (base s')) = gone /\ gone `prefix_of` accepted s') /\ accepted s' = [104; 105; 1; 2; 3] /\ completions s' = [true].
Proof.
  destruct (tcp_client_session 10 (fun _ => true) 0 (fun e => match e with eTCE_Connected => [([104; 105], false)] | _ => [] end)
    (Some (fun d => ([(d, false)], true))) 1 (demo_client 2)
    [Connected 0; Stack (more_room 4); Sent 2; Received (Some [[1; 2]; [3]]) 0; Sent 3; Received None 0]) as (s' & E & _ & Hg & _).
  - done.
  - by constructor.
  - repeat constructor.
  - exists s'. split; [exact E|]. vm_compute in E. injection E as <-. split; [|done]. destruct Hg as (gone & Ht & Hp & _); [done|]. by exists gone.
Defined.

(** A [send] while the stream is partly transmitted: [MemoryDataStream::write]
    moves the read position back to the start, and bytes that were sent are
    sent again. *)
Example tcp_client_send_repeats :
  match session 10 (fun _ => true) 0 (fun _ => []) None 1
          [Send [1; 2; 3; 4; 5] false; Connected 0; Send [6] false; Stack (more_room 100); Poll] (demo_client 3) with
  | Some (_, s) => accepted s = [1; 2; 3; 4; 5; 6] /\ m_taken (lw (base s)) = [1; 2; 3; 1; 2; 3; 4; 5; 6]
  | None => False
  end.
Proof. vm_compute. done. Qed.

(** With [forceCloseAfterSent] the first acknowledgement closes the
    connection: when the peer acknowledges in two parts, failure is told
    although the stack has taken every byte. *)
Example tcp_client_close_early :
  match session 10 (fun _ => true) 0 (fun _ => []) None 1 [Send [1; 2; 3] true; Connected 0; Sent 2; Sent 1] (demo_client 100) with
  | Some (_, s) => m_taken (lw (base s)) = accepted s /\ accepted s = [1; 2; 3] /\ completions s = [false]
  | None => False
  end.
Proof. vm_compute. done. Qed.
