(* ===== verification/TemplateStream.v ===== *)
(** * Templates

    [Sming/SmingCore/Data/Stream/TemplateStream.cpp]: a stream that reads
    another one and puts the values of variables in place of their names in
    braces.  It is compared with [expanded], which replaces the variables of a
    whole text, over every source, every template and every read size for
    which a block holds the values. *)

From S2P Require Import Prelude Streams Containers.

Definition TEMPLATE_MAX_VAR_NAME_LEN : Z := 16.
Definition LBRACE : Z := 0x7b.
Definition RBRACE : Z := 0x7d.

Inductive TemplateExpandState := eTES_Wait | eTES_Found | eTES_StartVar | eTES_SendingVar.

(** Strings are byte sequences; keys are compared with [==]. *)
Definition same_name (a b : list Z) : bool := bool_decide (a = b).
Definition TemplateVariables : Type := HashMap (list Z) (list Z).

(** The source, null in a template without one. *)
Record TemplateStream (St : Type) := {
  t_stream : option St; templateData : TemplateVariables; t_state : TemplateExpandState; varName : list Z;
  skipBlockSize : Z; varDataPos : Z; varWaitSize : Z
}.
Arguments t_stream {St}. Arguments templateData {St}. Arguments t_state {St}. Arguments varName {St}. Arguments skipBlockSize {St}.
Arguments varDataPos {St}. Arguments varWaitSize {St}.

Section TemplateStream.
Context {St : Type} `{IDataSourceStream St}.
Implicit Types t : TemplateStream St.

Definition TemplateStream_new (source : option St) : TemplateStream St :=
  {| t_stream := source; templateData := HashMap_new []; t_state := eTES_Wait; varName := []; skipBlockSize := 0; varDataPos := 0; varWaitSize := 0 |}.
Definition set_source (src : St) t : TemplateStream St :=
  {| t_stream := Some src; templateData := templateData t; t_state := t_state t; varName := varName t; skipBlockSize := skipBlockSize t;
     varDataPos := varDataPos t; varWaitSize := varWaitSize t |}.
Definition set_data (d : TemplateVariables) t : TemplateStream St :=
  {| t_stream := t_stream t; templateData := d; t_state := t_state t; varName := varName t; skipBlockSize := skipBlockSize t;
     varDataPos := varDataPos t; varWaitSize := varWaitSize t |}.
Definition set_tstate (st : TemplateExpandState) t : TemplateStream St :=
  {| t_stream := t_stream t; templateData := templateData t; t_state := st; varName := varName t; skipBlockSize := skipBlockSize t;
     varDataPos := varDataPos t; varWaitSize := varWaitSize t |}.
Definition set_var (name : list Z) (skip wait : Z) t : TemplateStream St :=
  {| t_stream := t_stream t; templateData := templateData t; t_state := t_state t; varName := name; skipBlockSize := skip;
     varDataPos := varDataPos t; varWaitSize := wait |}.
Definition set_varDataPos (n : Z) t : TemplateStream St :=
  {| t_stream := t_stream t; templateData := templateData t; t_state := t_state t; varName := varName t; skipBlockSize := skipBlockSize t;
     varDataPos := n; varWaitSize := varWaitSize t |}.

Definition setVar (name value : list Z) t : option (TemplateStream St) :=
  match HashMap_set same_name [] [] name value (templateData t) with Some d => Some (set_data d t) | None => None end.
Definition setVars (vars : TemplateVariables) t : option (TemplateStream St) :=
  match HashMap_setMultiple same_name [] [] vars (templateData t) with Some d => Some (set_data d t) | None => None end.

(** The inner loop from a brace on: [k] is [p - cur]; [inl] at a closing
    brace, [inr] where it stops without one. *)
Fixpoint name_end (d : list Z) (k : Z) : Z + Z :=
  match d with
  | [] => inr k
  | c :: d =>
      if isspace c then inr k else
      if k >? TEMPLATE_MAX_VAR_NAME_LEN then inr k else
      if c =? LBRACE then inr k else
      if c =? RBRACE then inl k else name_end d (k + 1)
  end.
(** The outer loop from the brace at [cur] on: a variable, or the last brace. *)
Fixpoint find_var (fuel : nat) (d : list Z) (cur : Z) : option ((Z * Z) + Z) :=
  match fuel with
  | O => None
  | S fuel =>
      match name_end (drop (Z.to_nat (cur + 1)) d) 1 with
      | inl k => Some (inl (cur, k))
      | inr k =>
          match memchr (drop (Z.to_nat (cur + k)) d) LBRACE with
          | Some j => find_var fuel d (cur + k + j)
          | None => Some (inr cur)
          end
      end
  end.

(** The plain text of the template. *)
Definition read_plain (bufSize : Z) t : option (Z * list Z * TemplateStream St) :=
  match t_stream t with
  | None => None
  | Some src =>
      match readMemoryBlock bufSize src with
      | None => None
      | Some (datalen, d, src) =>
          let t := set_source src t in
          if datalen =? 0 then Some (0, d, t) else
          match memchr (take (Z.to_nat datalen) d) LBRACE with
          | None => Some (u16 datalen, d, t)
          | Some cur =>
              match find_var (S (Z.to_nat datalen)) (take (Z.to_nat datalen) d) cur with
              | None => None
              | Some (inl (cur, k)) =>
                  let t := set_var (slice d (Z.to_nat (cur + 1)) (Z.to_nat (k - 1))) (k + 1) cur t in
                  Some (u16 cur, d, set_tstate (if nz cur then eTES_Found else eTES_StartVar) t)
              | Some (inr newlen) =>
                  Some (u16 (if newlen + TEMPLATE_MAX_VAR_NAME_LEN >? datalen then newlen else datalen), d, t)
              end
          end
      end
  end.

(** The caller's buffer has [bufSize] bytes: a copy of more is a fault. *)
Definition TemplateStream_readMemoryBlock (bufSize : Z) t : option (Z * list Z * TemplateStream St) :=
  if bufSize <=? 0 then Some (0, [], t) else
  match t_state t with
  | eTES_StartVar =>
      let i := HashMap_indexOf same_name (varName t) (templateData t) in
      match t_stream t with
      | None => None
      | Some src =>
          if i <? 0 then
            match readMemoryBlock (Z.min bufSize (skipBlockSize t)) src with
            | Some (n, d, src) => Some (n, d, set_source src (set_tstate eTES_Wait t))
            | None => None
            end
          else
            match HashMap_valueAt i (templateData t) with
            | None => None
            | Some value =>
                if bufSize <? zlen value then Some (0, [], t) else
                match seek (skipBlockSize t) src with
                | Some (_, src) => Some (u16 (zlen value), value, set_tstate eTES_SendingVar (set_varDataPos 0 (set_source src t)))
                | None => None
                end
            end
      end
  | eTES_SendingVar =>
      match HashMap_index same_name [] [] (varName t) (templateData t) with
      | None => None
      | Some (val, data) =>
          let t := set_data data t in
          if varDataPos t <? zlen val then
            let available := zlen val - varDataPos t in
            if bufSize <? available then None else Some (u16 available, drop (Z.to_nat (varDataPos t)) val, t)
          else read_plain bufSize (set_tstate eTES_Wait t)
      end
  | _ => read_plain bufSize t
  end.

Definition TemplateStream_seek (len : Z) t : option (bool * TemplateStream St) :=
  if len <? 0 then Some (false, t) else
  let on_source t :=
    match t_stream t with
    | Some src => match seek len src with Some (b, src) => Some (b, set_source src t) | None => None end
    | None => None
    end in
  match t_state t with
  | eTES_Found =>
      if varWaitSize t <? len then Some (false, t) else
      let t := set_var (varName t) (skipBlockSize t) (varWaitSize t - len) t in
      on_source (if varWaitSize t =? 0 then set_tstate eTES_StartVar t else t)
  | eTES_SendingVar => Some (false, set_varDataPos (varDataPos t + len) t)
  | _ => on_source t
  end.

Definition TemplateStream_isFinished t : option bool := match t_stream t with Some src => isFinished src | None => Some true end.

#[export] Instance TemplateStream_stream : IDataSourceStream (TemplateStream St) := {|
  readMemoryBlock := TemplateStream_readMemoryBlock;
  seek := TemplateStream_seek;
  isFinished := TemplateStream_isFinished
|}.
End TemplateStream.

(** ** Expanding a text

    At each opening brace, [name_end] decides whether a variable begins. *)
Fixpoint expand_from (vars : gmap (list Z) (list Z)) (skip : nat) (text : list Z) : list Z :=
  match text with
  | [] => []
  | c :: text =>
      match skip with
      | S skip => expand_from vars skip text
      | O =>
          if c =? LBRACE then
            match name_end text 1 with
            | inl k =>
                match vars !! take (Z.to_nat (k - 1)) text with
                | Some value => value ++ expand_from vars (Z.to_nat k) text
                | None => c :: expand_from vars O text
                end
            | inr _ => c :: expand_from vars O text
            end
          else c :: expand_from vars O text
      end
  end.
Definition expanded (vars : gmap (list Z) (list Z)) (text : list Z) : list Z := expand_from vars 0 text.

(** ** Scanning *)

Lemma memchr_some m c j : memchr m c = Some j -> exists n, j = Z.of_nat n /\ m !! n = Some c /\ forall i, (i < n)%nat -> m !! i <> Some c.
Proof.
  revert j. induction m as [|x m IH]; intros j E; cbn in E; [done|]. destruct (Z.eqb_spec x c) as [->|Hne].
  - injection E as <-. exists 0%nat. split; [done|]. split; [done|]. lia.
  - destruct (memchr m c) as [j'|]; [|done]. injection E as <-. destruct (IH j' eq_refl) as (n & -> & Hn & Hb). exists (S n). split; [lia|]. split; [done|].
    intros [|i] Hi; cbn; [by intros [= ?]|]. apply Hb. lia.
Qed.

Lemma memchr_none m c : memchr m c = None -> forall i, m !! i <> Some c.
Proof.
  induction m as [|x m IH]; intros E i; [done|]. cbn in E. destruct (Z.eqb_spec x c) as [->|Hne]; [done|]. destruct (memchr m c); [done|].
  destruct i as [|i]; cbn; [by intros [= ?]|by apply IH].
Qed.

Lemma name_end_found d : forall k0 k, name_end d k0 = inl k ->
  k0 <= k <= 16 /\ (Z.to_nat (k - k0) < length d)%nat /\ forall i, (i <= Z.to_nat (k - k0))%nat -> d !! i <> Some LBRACE.
Proof.
  induction d as [|c d IH]; intros k0 k E; cbn in E; [done|]. destruct (isspace c); [done|]. destruct (Z.gtb_spec k0 TEMPLATE_MAX_VAR_NAME_LEN) as [|Hk]; [done|].
  unfold TEMPLATE_MAX_VAR_NAME_LEN in *. destruct (Z.eqb_spec c LBRACE) as [|Hc]; [done|]. destruct (Z.eqb_spec c RBRACE) as [->|Hc'].
  - injection E as <-. rewrite Z.sub_diag. split; [lia|]. split; [cbn; lia|]. intros i Hi. replace i with 0%nat by lia. done.
  - destruct (IH (k0 + 1) k E) as (H1 & H2 & H3). split; [lia|]. split; [cbn; lia|]. intros [|i] Hi; cbn; [by intros [= ?]|]. apply H3. lia.
Qed.

(** The same in a block that is cut off behind [m] bytes: a name that is
    found is in the whole text, one that is not may be cut. *)
Lemma name_end_take_found d : forall m k0 k, name_end (take m d) k0 = inl k -> name_end d k0 = inl k.
Proof.
  induction d as [|c d IH]; intros [|m] k0 k E; try done. cbn in *. destruct (isspace c); [done|]. destruct (k0 >? _); [done|]. destruct (c =? LBRACE); [done|].
  destruct (c =? RBRACE); [done|]. by apply (IH m).
Qed.

Lemma name_end_take_stop d : forall m k0 k, name_end (take m d) k0 = inr k ->
  k0 <= k /\ (forall i, (i < Z.to_nat (k - k0))%nat -> d !! i <> Some LBRACE) /\
  (name_end d k0 = inr k \/ (k = k0 + Z.of_nat m /\ (m <= length d)%nat)).
Proof.
  induction d as [|c d IH]; intros m k0 k E; [rewrite take_nil in E; injection E as <-; split; [lia|]; split; [intros i _; done|by left]|].
  destruct m as [|m]; [injection E as <-; split; [lia|]; rewrite Z.sub_diag; split; [intros i; lia|right; split; lia]|].
  cbn in *. destruct (isspace c); [injection E as <-; rewrite Z.sub_diag; split; [lia|]; split; [intros i; lia|by left]|].
  destruct (k0 >? _); [injection E as <-; rewrite Z.sub_diag; split; [lia|]; split; [intros i; lia|by left]|].
  destruct (Z.eqb_spec c LBRACE) as [->|Hc]; [injection E as <-; rewrite Z.sub_diag; split; [lia|]; split; [intros i; lia|by left]|].
  destruct (c =? RBRACE); [done|]. destruct (IH m (k0 + 1) k E) as (H1 & H2 & H3). split; [lia|]. split.
  - intros [|i] Hi; cbn; [by intros [= ?]|]. apply H2. lia.
  - destruct H3 as [H3|[H3 H4]]; [by left|right; split; lia].
Qed.

Lemma name_end_take_long d : forall m k0 k, name_end d k0 = inl k -> (Z.to_nat (k - k0) < m)%nat -> name_end (take m d) k0 = inl k.
Proof.
  induction d as [|c d IH]; intros [|m] k0 k E Hm; try done; [lia|]. cbn in *. destruct (isspace c); [done|]. destruct (k0 >? _); [done|].
  destruct (c =? LBRACE); [done|]. destruct (c =? RBRACE); [done|]. apply IH; [done|]. pose proof (name_end_found _ _ _ E). lia.
Qed.

Lemma name_end_stop d k0 k : name_end d k0 = inr k -> k0 <= k /\ forall i, (i < Z.to_nat (k - k0))%nat -> d !! i <> Some LBRACE.
Proof. intros E. rewrite <- (firstn_all d) in E. destruct (name_end_take_stop d (length d) k0 k E) as (H1 & H2 & _). done. Qed.

(** No variable begins at the braces from [lo] to [hi]. *)
Definition no_var (d : list Z) (lo hi : nat) : Prop :=
  forall j, (lo <= j < hi)%nat -> d !! j = Some LBRACE -> exists k, name_end (drop (S j) d) 1 = inr k.

Lemma find_var_spec d fuel : forall cur, (length d - cur < fuel)%nat -> d !! cur = Some LBRACE ->
  exists c, (cur <= c)%nat /\ d !! c = Some LBRACE /\ no_var d cur c /\
    ((exists k, find_var fuel d (Z.of_nat cur) = Some (inl (Z.of_nat c, k)) /\ name_end (drop (S c) d) 1 = inl k) \/
     (find_var fuel d (Z.of_nat cur) = Some (inr (Z.of_nat c)) /\ no_var d cur (S c) /\ forall j, (c < j)%nat -> d !! j <> Some LBRACE)).
Proof.
  induction fuel as [|fuel IH]; intros cur Hf Hc; [lia|]. cbn [find_var]. replace (Z.to_nat (Z.of_nat cur + 1)) with (S cur) by lia.
  destruct (name_end (drop (S cur) d) 1) as [k|k] eqn:E.
  - exists cur. split; [done|]. split; [done|]. split; [intros j Hj; lia|]. left. by exists k.
  - destruct (name_end_stop _ _ _ E) as [Hk Hs]. replace (Z.to_nat (Z.of_nat cur + k)) with (cur + Z.to_nat k)%nat by lia.
    assert (forall j, (cur < j < cur + Z.to_nat k)%nat -> d !! j <> Some LBRACE) as Hgap.
    { intros j Hj. replace j with (S cur + (j - S cur))%nat by lia. rewrite <- lookup_drop. apply Hs. lia. }
    destruct (memchr (drop (cur + Z.to_nat k) d) LBRACE) as [j|] eqn:Ej.
    + destruct (memchr_some _ _ _ Ej) as (n & -> & Hn & Hb). rewrite lookup_drop in Hn. replace (Z.of_nat cur + k + Z.of_nat n) with (Z.of_nat (cur + Z.to_nat k + n)) by lia.
      pose proof (lookup_lt_Some _ _ _ Hn) as Hlt. destruct (IH (cur + Z.to_nat k + n)%nat ltac:(lia) Hn) as (c & Hle & Hc' & Hno & Hres).
      assert (forall hi, no_var d (cur + Z.to_nat k + n) hi -> no_var d cur hi) as Hext.
      { intros hi Hnv j Hj Hdj. destruct (decide (j = cur)) as [->|]; [by exists k|]. destruct (decide (j < cur + Z.to_nat k)%nat) as [?|?]; [by destruct (Hgap j ltac:(lia))|].
        destruct (decide (j < cur + Z.to_nat k + n)%nat) as [?|?]; [|apply Hnv; [lia|done]]. exfalso. apply (Hb (j - (cur + Z.to_nat k))%nat ltac:(lia)). rewrite lookup_drop.
        by replace (cur + Z.to_nat k + (j - (cur + Z.to_nat k)))%nat with j by lia. }
      exists c. split; [lia|]. split; [done|]. split; [by apply Hext|]. destruct Hres as [Hl|(Hr1 & Hr2 & Hr3)]; [by left|right]. split; [done|]. split; [by apply Hext|done].
    + exists cur. split; [done|]. split; [done|]. split; [intros j Hj; lia|]. right. split; [done|]. split.
      * intros j Hj _. replace j with cur by lia. by exists k.
      * intros j Hj. destruct (decide (j < cur + Z.to_nat k)%nat); [apply Hgap; lia|]. pose proof (memchr_none _ _ Ej (j - (cur + Z.to_nat k))%nat) as Hn. rewrite lookup_drop in Hn.
        by replace (cur + Z.to_nat k + (j - (cur + Z.to_nat k)))%nat with j in Hn by lia.
Qed.

(** ** The reference *)

Section Expanded.
Context (vars : gmap (list Z) (list Z)).

Lemma expand_skip text : forall n, expand_from vars n text = expanded vars (drop n text).
Proof. induction text as [|c text IH]; intros [|n]; try done. cbn. apply IH. Qed.

Lemma expanded_plain n : forall text, (n <= length text)%nat -> no_var text 0 n -> expanded vars text = take n text ++ expanded vars (drop n text).
Proof.
  induction n as [|n IH]; intros text Hl Hn; [done|]. destruct text as [|c text]; [cbn in Hl; lia|]. cbn in Hl. cbn [take drop app].
  rewrite <- IH; [|lia|intros j Hj Hb; apply (Hn (S j)); [lia|done]]. unfold expanded at 1. cbn [expand_from]. destruct (Z.eqb_spec c LBRACE) as [->|]; [|done].
  destruct (Hn 0%nat) as [k E]; [lia|done|]. cbn [drop] in E. rewrite drop_0 in E. by rewrite E.
Qed.

Lemma expanded_var rest k : name_end rest 1 = inl k ->
  expanded vars (LBRACE :: rest) =
  match vars !! take (Z.to_nat (k - 1)) rest with
  | Some value => value ++ expanded vars (drop (Z.to_nat k) rest)
  | None => take (Z.to_nat (k + 1)) (LBRACE :: rest) ++ expanded vars (drop (Z.to_nat (k + 1)) (LBRACE :: rest))
  end.
Proof.
  intros E. destruct (name_end_found _ _ _ E) as (Hk & Hl & Hno). unfold expanded at 1. cbn [expand_from]. rewrite Z.eqb_refl, E.
  destruct (vars !! _) as [value|]; [by rewrite expand_skip|]. replace (Z.to_nat (k + 1)) with (S (Z.to_nat k)) by lia. cbn [take drop app]. f_equal.
  apply (expanded_plain (Z.to_nat k) rest); [lia|]. intros j Hj Hb. exfalso. apply (Hno j); [lia|done].
Qed.
End Expanded.

(** ** Templates that are read in blocks

    A name has at most 14 characters, and an opening brace that does not begin
    a variable has at least 15 bytes behind it. *)
Fixpoint well_formed (text : list Z) : bool :=
  match text with
  | [] => true
  | c :: text =>
      (if c =? LBRACE then match name_end text 1 with inl k => k <=? 15 | inr _ => 15 <=? zlen text end else true) && well_formed text
  end.

Lemma well_formed_drop n : forall text, well_formed text = true -> well_formed (drop n text) = true.
Proof. induction n as [|n IH]; intros [|c text] Hw; try done. cbn in *. apply andb_prop in Hw as [_ Hw]. by apply IH. Qed.

Lemma well_formed_at text j : well_formed text = true -> text !! j = Some LBRACE ->
  match name_end (drop (S j) text) 1 with inl k => k <= 15 | inr _ => 15 <= zlen (drop (S j) text) end.
Proof.
  intros Hw Hj. pose proof (well_formed_drop j text Hw) as Hd. rewrite (drop_S _ _ _ Hj) in Hd. cbn [well_formed] in Hd. rewrite Z.eqb_refl in Hd.
  apply andb_prop in Hd as [Hd _]. destruct (name_end _ 1); by apply Z.leb_le.
Qed.

(** A brace of a block before another brace of it, or far enough from its
    end, is what it is in the whole text. *)
Lemma block_brace (text : list Z) n j hi : well_formed text = true -> (n <= length text)%nat -> text !! j = Some LBRACE -> (j < n)%nat ->
  (exists k, name_end (drop (S j) (take n text)) 1 = inr k) ->
  (hi < n)%nat /\ (j < hi)%nat /\ text !! hi = Some LBRACE \/ (j + 16 <= n)%nat ->
  exists k, name_end (drop (S j) text) 1 = inr k.
Proof.
  intros Hw Hn Hj Hjn [k E] Hcase. rewrite skipn_firstn_comm in E. destruct (name_end_take_stop _ _ _ _ E) as (Hk & Hs & [Hfull|[Hcut _]]); [by exists k|].
  destruct Hcase as [(Hhi & Hjh & Hb)|Hfar].
  - exfalso. apply (Hs (hi - S j)%nat); [lia|]. rewrite lookup_drop. by replace (S j + (hi - S j))%nat with hi by lia.
  - pose proof (well_formed_at text j Hw Hj) as Hwf. destruct (name_end (drop (S j) text) 1) as [k'|k'] eqn:E'; [|by exists k'].
    destruct (name_end_found _ _ _ E') as (Hk' & Hl & Hno). exfalso.
    rewrite (name_end_take_long _ (n - S j) 1 k' E') in E; [done|lia].
Qed.

Section Reading.
Context {St : Type} `{Source St}.
Implicit Types t : TemplateStream St.

(** [t] with a variable found behind [n] bytes. *)
Definition at_var (n : nat) (rest : list Z) (k : Z) t : TemplateStream St :=
  set_tstate (if nz (Z.of_nat n) then eTES_Found else eTES_StartVar) (set_var (take (Z.to_nat (k - 1)) rest) (k + 1) (Z.of_nat n) t).

Lemma read_plain_run bufSize t src R : t_stream t = Some src -> content src R -> R <> [] -> well_formed R = true -> 16 <= bufSize < 2 ^ 16 ->
  exists n d src' t', read_plain bufSize t = Some (Z.of_nat n, d, t') /\ take n d = take n R /\ (n <= length R)%nat /\ no_var R 0 n /\ content src' R /\
    (((0 < n)%nat /\ t' = set_source src' t) \/
     (exists k, R !! n = Some LBRACE /\ name_end (drop (S n) R) 1 = inl k /\ t' = at_var n (drop (S n) R) k (set_source src' t))).
Proof.
  intros Ht Hc HR Hw Hb. unfold read_plain. rewrite Ht. destruct (source_read src R bufSize Hc ltac:(lia)) as (src' & -> & Hc').
  assert (0 < zlen R) as HlR by (pose proof (zlen_nonneg R); destruct (Z.eq_dec (zlen R) 0) as [E|]; [by apply zlen_zero in E|lia]).
  set (dl := Z.min bufSize (zlen R)). rewrite (proj2 (Z.eqb_neq dl 0)) by lia. rewrite take_take. replace (Z.to_nat dl `min` Z.to_nat bufSize)%nat with (Z.to_nat dl) by lia.
  set (m := Z.to_nat dl). assert (m <= length R)%nat as Hm by (unfold m, dl, zlen in *; lia). assert (dl = Z.of_nat m) as Edl by lia.
  assert (length (take m R) = m) as Elen by (rewrite length_take; lia).
  assert (forall j, (j < m)%nat -> take m R !! j = R !! j) as Hlk by (intros j Hj; by apply lookup_take_lt).
  assert (forall n, (n <= m)%nat -> take n (take (Z.to_nat bufSize) R) = take n R) as Htk by (intros n Hn; rewrite take_take; f_equal; lia).
  destruct (memchr (take m R) LBRACE) as [cur|] eqn:Ec.
  - destruct (memchr_some _ _ _ Ec) as (cn & -> & Hcn & Hbefore). destruct (find_var_spec (take m R) (S m) cn ltac:(lia) Hcn) as (c & Hle & Hbc & Hno & Hres).
    pose proof (lookup_lt_Some _ _ _ Hbc) as Hcm. rewrite Elen in Hcm. rewrite Hlk in Hbc by done.
    assert (no_var R 0 c) as HnoR.
    { intros j Hj Hbj. apply (block_brace R m j c Hw Hm Hbj ltac:(lia)); [|left; split; [lia|]; split; [lia|done]]. destruct (decide (j < cn)%nat) as [Hjc|Hjc].
      - exfalso. apply (Hbefore j Hjc). by rewrite Hlk by lia.
      - apply Hno; [lia|]. by rewrite Hlk by lia. }
    destruct Hres as [(k & -> & Hk)|(-> & Hno2 & Hlast)].
    + pose proof (proj1 (proj2 (name_end_found _ _ _ Hk))) as Hin. rewrite length_drop, Elen in Hin. rewrite skipn_firstn_comm in Hk. apply name_end_take_found in Hk. destruct (name_end_found _ _ _ Hk) as (Hk1 & Hk2 & _).
      eexists c, _, src', _. rewrite u16_small by lia. split; [done|]. split; [by apply Htk; lia|]. split; [lia|]. split; [done|]. split; [done|]. right. exists k.
      split; [done|]. split; [done|]. unfold at_var. do 2 f_equal. unfold slice. replace (Z.to_nat (Z.of_nat c + 1)) with (S c) by lia.
      rewrite skipn_firstn_comm, take_take. do 2 f_equal. lia.
    + set (n := if Z.of_nat c + TEMPLATE_MAX_VAR_NAME_LEN >? dl then c else m). 
      exists n, (take (Z.to_nat bufSize) R), src', (set_source src' t). unfold TEMPLATE_MAX_VAR_NAME_LEN in *.
      assert (n <= m)%nat as Hnm by (unfold n; destruct (_ >? _); lia).
      rewrite u16_small by (destruct (_ >? _); lia). split; [unfold n; destruct (_ >? _); [done|by rewrite Edl]|]. split; [by apply Htk|]. split; [lia|].
      unfold n. destruct (Z.gtb_spec (Z.of_nat c + 16) dl) as [Hgt|Hge].
      * split; [done|]. split; [done|]. left. split; [|done]. destruct c as [|c]; [|lia]. exfalso. assert (m = length R) as EmR by (unfold m, dl, zlen in *; lia).
        destruct (Hno2 0%nat) as [k E]; [lia|by rewrite Hlk by lia|]. rewrite EmR, firstn_all in E. pose proof (well_formed_at R 0 Hw Hbc) as Hwf. rewrite E in Hwf.
        rewrite zlen_drop in Hwf. unfold zlen in *. lia.
      * split; [|split; [done|left; split; [lia|done]]]. intros j Hj Hbj. destruct (decide (j <= c)%nat) as [Hjc|Hjc].
        -- apply (block_brace R m j 0 Hw Hm Hbj ltac:(lia)); [|right; lia]. destruct (decide (j < cn)%nat) as [Hj2|Hj2]; [exfalso; apply (Hbefore j Hj2); by rewrite Hlk by lia|].
           apply Hno2; [lia|by rewrite Hlk by lia].
        -- exfalso. apply (Hlast j ltac:(lia)). by rewrite Hlk by lia.
  - exists m, (take (Z.to_nat bufSize) R), src', (set_source src' t). rewrite Edl, u16_small by lia. split; [done|]. split; [by apply Htk|]. split; [done|].
    split; [|split; [done|left; split; [lia|done]]]. intros j Hj Hbj. exfalso. apply (memchr_none _ _ Ec j). by rewrite Hlk by lia.
Qed.

(** ** The variables *)

Lemma same_name_canon a b : same_name a b = true <-> (fun x : list Z => x) a = (fun x => x) b.
Proof. apply bool_decide_eq_true. Qed.

Definition vars_of (l : list (list Z * list Z)) : gmap (list Z) (list Z) := to_map (fun x => x) l.

Lemma var_lookup h l name : hm_ok (fun x : list Z => x) h l ->
  (HashMap_indexOf same_name name h < 0 /\ vars_of l !! name = None) \/
  (exists v, 0 <= HashMap_indexOf same_name name h /\ HashMap_valueAt (HashMap_indexOf same_name name h) h = Some v /\
     vars_of l !! name = Some v /\ HashMap_index same_name [] [] name h = Some (v, h)).
Proof.
  intros Hh. pose proof (hm_indexOf same_name (fun x => x) h l name Hh) as Ei. pose proof (hm_get_spec same_name (fun x => x) same_name_canon h l name Hh) as Eg.
  destruct (index_from_spec same_name (fun x => x) same_name_canon name l 0) as [[E Hn]|(l1 & k' & v' & l2 & El & Ek & Hn & E)].
  - left. rewrite Ei, E. split; [lia|]. by apply to_map_none.
  - right. exists v'. rewrite Ei, E. pose proof (zlen_nonneg l1). split; [lia|]. subst l. cbn in Ek. subst k'.
    assert (vars_of (l1 ++ (name, v') :: l2) !! name = Some v') as Em by (by apply (to_map_app (fun x : list Z => x))).
    unfold HashMap_get in Eg. rewrite Ei, E in Eg. rewrite (proj2 (Z.leb_le _ _)) in Eg by lia. unfold vars_of in Em. rewrite Em in Eg. cbn in Eg.
    split; [done|]. split; [done|]. unfold HashMap_index. rewrite Z.add_0_l in E.
    rewrite (hm_at_found same_name (fun x => x) [] [] h l1 name name v' l2 Hh eq_refl E). unfold zlen. rewrite Nat2Z.id.
    by rewrite (hm_value_at (fun x => x) h l1 name v' l2 Hh).
Qed.

(** ** Reading to the end *)

Section Drain.
Context (bufSize : Z) (buf_size : 16 <= bufSize < 2 ^ 16).
Context (h : TemplateVariables) (l : list (list Z * list Z)) (h_ok : hm_ok (fun x : list Z => x) h l).
Context (values_fit : forall name v, vars_of l !! name = Some v -> zlen v <= bufSize).

(** Between two blocks, with [R] of the template left. *)
Definition ready_at t (R : list Z) : Prop :=
  (exists src, t_stream t = Some src /\ content src R) /\ templateData t = h /\ well_formed R = true /\
  match t_state t with
  | eTES_Wait => True
  | eTES_Found => False
  | eTES_StartVar => exists rest k, R = LBRACE :: rest /\ name_end rest 1 = inl k /\ varName t = take (Z.to_nat (k - 1)) rest /\ skipBlockSize t = k + 1
  | eTES_SendingVar => exists v, vars_of l !! varName t = Some v /\ varDataPos t = zlen v
  end.
Definition effort t (R : list Z) : nat := 2 * length R + match t_state t with eTES_StartVar => 0 | _ => 1 end.

Definition advances t R : Prop := exists n d t1 b t2 R',
  TemplateStream_readMemoryBlock bufSize t = Some (n, d, t1) /\ TemplateStream_seek n t1 = Some (b, t2) /\ ready_at t2 R' /\
  expanded (vars_of l) R = take (Z.to_nat n) d ++ expanded (vars_of l) R' /\ (effort t2 R' < effort t R)%nat.

Lemma plain_advances t R src : t_stream t = Some src -> content src R -> templateData t = h -> well_formed R = true -> R <> [] -> t_state t = eTES_Wait ->
  exists n d t1 b t2 R', read_plain bufSize t = Some (n, d, t1) /\ TemplateStream_seek n t1 = Some (b, t2) /\ ready_at t2 R' /\
    expanded (vars_of l) R = take (Z.to_nat n) d ++ expanded (vars_of l) R' /\ (effort t2 R' < 2 * length R + 1)%nat.
Proof.
  intros Ht Hc Hh Hw HR Hs. destruct (read_plain_run bufSize t src R Ht Hc HR Hw buf_size) as (n & d & src' & t1 & E & Hd & Hn & Hno & Hc' & Hcase).
  destruct (source_seek src' R (Z.of_nat n) Hc' ltac:(unfold zlen; lia)) as (src2 & E2 & Hc2). rewrite Nat2Z.id in Hc2.
  pose proof (well_formed_drop n R Hw) as Hw2. assert (expanded (vars_of l) R = take n d ++ expanded (vars_of l) (drop n R)) as Hexp by (rewrite Hd; by apply expanded_plain).
  exists (Z.of_nat n), d, t1. rewrite Nat2Z.id. unfold TemplateStream_seek. rewrite (proj2 (Z.ltb_ge _ _)) by lia. destruct Hcase as [[Hpos ->]|(k & Hb & Hk & ->)].
  - cbn. rewrite Hs, E2. eexists _, _, (drop n R). split; [done|]. split; [done|]. split; [|split; [done|]].
    + split; [by exists src2|]. split; [done|]. split; [done|]. cbn. by rewrite Hs.
    + unfold effort. cbn. rewrite Hs, length_drop. lia.
  - rewrite (drop_S _ _ _ Hb) in *. unfold at_var, nz in E |- *. destruct (Z.eqb_spec (Z.of_nat n) 0) as [E0|E0].
    + eexists _, _, (LBRACE :: drop (S n) R). split; [exact E|]. cbn. rewrite E2. split; [done|]. split; [|split; [done|]].
      * split; [by exists src2|]. split; [done|]. split; [done|]. cbn. by exists (drop (S n) R), k.
      * unfold effort. cbn. rewrite length_drop. pose proof (lookup_lt_Some _ _ _ Hb). lia.
    + eexists _, _, (LBRACE :: drop (S n) R). split; [exact E|]. cbn. rewrite Z.ltb_irrefl, Z.sub_diag. cbn. rewrite E2. split; [done|]. split; [|split; [done|]].
      * split; [by exists src2|]. split; [done|]. split; [done|]. cbn. by exists (drop (S n) R), k.
      * unfold effort. cbn. rewrite length_drop. pose proof (lookup_lt_Some _ _ _ Hb). lia.
Qed.

Lemma var_advances t R : ready_at t R -> t_state t = eTES_StartVar -> advances t R.
Proof.
  intros ((src & Ht & Hc) & Hh & Hw & Hst) Hs. rewrite Hs in Hst. destruct Hst as (rest & k & -> & Hk & Hname & Hskip).
  destruct (name_end_found _ _ _ Hk) as (Hk1 & Hk2 & _). pose proof (well_formed_at _ 0 Hw eq_refl) as Hwf. cbn [drop] in Hwf. rewrite drop_0, Hk in Hwf.
  assert (k + 1 <= zlen (LBRACE :: rest)) as Hlen by (rewrite zlen_cons; unfold zlen; lia).
  pose proof (well_formed_drop (Z.to_nat (k + 1)) _ Hw) as Hw2. pose proof (expanded_var (vars_of l) rest k Hk) as Hexp.
  unfold advances, TemplateStream_readMemoryBlock. rewrite (proj2 (Z.leb_gt bufSize 0)) by lia. rewrite Hs, Ht, Hh, Hname, Hskip.
  destruct (var_lookup h l (take (Z.to_nat (k - 1)) rest) h_ok) as [[Hi Hv]|(v & Hi & Hval & Hv & _)]; rewrite Hv in Hexp.
  - rewrite (proj2 (Z.ltb_lt _ _)) by done. rewrite Z.min_r by lia. destruct (source_read src _ (k + 1) Hc ltac:(lia)) as (src1 & -> & Hc1). rewrite Z.min_l by lia.
    destruct (source_seek src1 _ (k + 1) Hc1 ltac:(lia)) as (src2 & E2 & Hc2). eexists _, _, _. exists true, (set_source src2 (set_source src1 (set_tstate eTES_Wait t))), (drop (Z.to_nat (k + 1)) (LBRACE :: rest)).
    split; [done|]. unfold TemplateStream_seek. rewrite (proj2 (Z.ltb_ge _ _)) by lia. cbn [t_state t_stream set_source set_tstate]. rewrite E2. split; [done|]. split; [|split].
    + split; [by exists src2|]. done.
    + rewrite take_take, Nat.min_id. done.
    + unfold effort. rewrite Hs. cbn [t_state set_source set_tstate]. rewrite length_drop. unfold zlen in Hlen. lia.
  - rewrite (proj2 (Z.ltb_ge _ _)) by done. rewrite Hval. rewrite (proj2 (Z.ltb_ge _ _)) by (by apply (values_fit _ _ Hv)).
    destruct (source_seek src _ (k + 1) Hc ltac:(lia)) as (src2 & E2 & Hc2). rewrite E2. pose proof (values_fit _ _ Hv). pose proof (zlen_nonneg v). rewrite u16_small by lia.
    eexists _, _, _, _, _, (drop (Z.to_nat (k + 1)) (LBRACE :: rest)). split; [done|]. unfold TemplateStream_seek. rewrite (proj2 (Z.ltb_ge _ _)) by lia. cbn [t_state set_tstate set_varDataPos set_source]. split; [done|]. split; [|split].
    + split; [by exists src2|]. split; [done|]. split; [done|]. cbn. exists v. rewrite Hname. done.
    + rewrite Hexp. unfold zlen at 1. rewrite Nat2Z.id, firstn_all. do 2 f_equal. by replace (Z.to_nat (k + 1)) with (S (Z.to_nat k)) by lia.
    + unfold effort. rewrite Hs. cbn [t_state set_varDataPos set_tstate set_source]. rewrite length_drop. unfold zlen in Hlen. lia.
Qed.

Lemma ready_advances t R : ready_at t R -> R <> [] -> advances t R.
Proof.
  intros Hr HR. destruct (t_state t) eqn:Hs.
  - destruct Hr as ((src & Ht & Hc) & Hh & Hw & _). unfold advances, TemplateStream_readMemoryBlock, effort. rewrite (proj2 (Z.leb_gt bufSize 0)) by lia. rewrite Hs.
    by apply (plain_advances t R src).
  - destruct Hr as (_ & _ & _ & Hst). by rewrite Hs in Hst.
  - by apply var_advances.
  - destruct Hr as ((src & Ht & Hc) & Hh & Hw & Hst). rewrite Hs in Hst. destruct Hst as (v & Hv & Hpos).
    unfold advances, TemplateStream_readMemoryBlock, effort. rewrite (proj2 (Z.leb_gt bufSize 0)) by lia. rewrite Hs, Hh.
    destruct (var_lookup h l (varName t) h_ok) as [[_ Hv']|(v' & _ & _ & Hv' & ->)]; [by rewrite Hv in Hv'|]. rewrite Hv in Hv'. injection Hv' as <-.
    cbn [varDataPos set_data]. rewrite Hpos, Z.ltb_irrefl. by apply (plain_advances _ R src).
Qed.

Lemma template_drain fuel : forall t R, ready_at t R -> (effort t R < fuel)%nat ->
  exists t', drain fuel bufSize t = Some (expanded (vars_of l) R, t') /\ ready_at t' [].
Proof.
  induction fuel as [|fuel IH]; intros t R Hr Hf; [lia|]. cbn [drain readMemoryBlock seek isFinished TemplateStream_stream].
  assert (TemplateStream_isFinished t = Some (zlen R =? 0)) as ->.
  { destruct Hr as ((src & Ht & Hc) & _). unfold TemplateStream_isFinished. rewrite Ht. by apply source_finished. }
  destruct (Z.eqb_spec (zlen R) 0) as [E|E]; [apply zlen_zero in E; subst R; by exists t|].
  destruct (ready_advances t R Hr) as (n & d & t1 & b & t2 & R' & -> & -> & Hr2 & -> & He); [by intros ->|].
  destruct (IH t2 R' Hr2 ltac:(lia)) as (t' & -> & Ht'). by exists t'.
Qed.
End Drain.
End Reading.

(** A template stream over any source: read in blocks of any size from 16
    bytes that holds every value, it gives the text of the template with the
    value in the place of each variable that is set, whatever the boundaries
    of the blocks cut through; other braces and unknown names stay as they
    are. The template is [well_formed]: names of at most 14 characters, and no
    brace without a variable in its last 15 bytes. *)
Theorem template_stream_expands {St} `{Source St} bufSize fuel (t : TemplateStream St) src l text :
  16 <= bufSize < 2 ^ 16 -> t_stream t = Some src -> content src text -> t_state t = eTES_Wait ->
  hm_ok (fun x : list Z => x) (templateData t) l -> (forall name v, vars_of l !! name = Some v -> zlen v <= bufSize) ->
  well_formed text = true -> (2 * length text + 1 < fuel)%nat ->
  exists t', drain fuel bufSize t = Some (expanded (vars_of l) text, t') /\ isFinished t' = Some true.
Proof.
  intros Hb Ht Hc Hs Hh Hv Hw Hf. destruct (template_drain bufSize Hb (templateData t) l Hh Hv fuel t text) as (t' & E & Hr).
  - split; [by exists src|]. split; [done|]. split; [done|]. by rewrite Hs.
  - unfold effort. rewrite Hs. lia.
  - exists t'. split; [done|]. destruct Hr as ((src' & Ht' & Hc') & _). cbn. unfold TemplateStream_isFinished. rewrite Ht'. by rewrite (source_finished _ _ Hc').
Qed.

(** ** Instances *)

Definition text_stream (text : list Z) : MemoryDataStream := {| md_buf := Some (text ++ [0]); md_pos := 0; md_size := zlen text; md_capacity := 0 |}.
Definition with_vars (vars : list (list Z * list Z)) (text : list Z) : TemplateStream MemoryDataStream :=
  set_data {| keys := vars.*1; values := vars.*2; nil := []; currentIndex := zlen vars; Containers.size := zlen vars |} (TemplateStream_new (Some (text_stream text))).
Definition demo_vars : list (list Z * list Z) := [(string_bytes "name"%string, string_bytes "Sming"%string); (string_bytes "n"%string, [])].
Definition demo_text : list Z := string_bytes "Hi {name}{n}, {who} {name}! p { margin: 0 auto }"%string.

Lemma template_stream_expands_witness :
  exists t', drain 100 16 (with_vars demo_vars demo_text) = Some (string_bytes "Hi Sming, {who} Sming! p { margin: 0 auto }"%string, t') /\ isFinished t' = Some true.
Proof.
  change (string_bytes "Hi Sming, {who} Sming! p { margin: 0 auto }"%string) with (expanded (vars_of demo_vars) demo_text).
  apply (template_stream_expands 16 100 (with_vars demo_vars demo_text) (text_stream demo_text) demo_vars demo_text).
  - lia.
  - done.
  - exists demo_text. split; [|done]. by constructor.
  - done.
  - constructor; try done. vm_compute. repeat constructor; rewrite ?elem_of_cons, ?elem_of_nil; naive_solver.
  - intros name v E. unfold vars_of, to_map in E. apply elem_of_list_to_map_2 in E. cbn in E. rewrite !elem_of_cons, elem_of_nil in E.
    destruct E as [[= -> ->]|[[= -> ->]|[]]]; vm_compute; discriminate.
  - vm_compute. reflexivity.
  - vm_compute. lia.
Defined.

(** An opening brace in the last 15 bytes that begins no variable: the stream
    holds it back as a name that may be incomplete, for ever. *)
Example template_open_brace_stalls :
  forall fuel, drain fuel 512 (with_vars [] (string_bytes "{ x: 1 }"%string)) = None.
Proof.
  set (t := with_vars [] (string_bytes "{ x: 1 }"%string)). assert (TemplateStream_isFinished t = Some false) as E1 by (vm_compute; reflexivity).
  assert (exists d, TemplateStream_readMemoryBlock 512 t = Some (0, d, t)) as [d E2] by (eexists; vm_compute; reflexivity).
  assert (TemplateStream_seek 0 t = Some (true, t)) as E3 by (vm_compute; reflexivity). clearbody t.
  induction fuel as [|fuel IH]; [done|]. cbn [drain readMemoryBlock seek isFinished TemplateStream_stream]. by rewrite E1, E2, E3, IH.
Qed.

(** A name of 15 characters, which the scan allows, is not replaced when the
    end of a block cuts off its closing brace. *)
Example template_long_name_split :
  let name := string_bytes "fifteen_letters"%string in
  let run text := fst <$> drain 10 16 (with_vars [(name, string_bytes "v"%string)] text) in
  run (string_bytes "{fifteen_letters}."%string) = Some (string_bytes "{fifteen_letters}."%string) /\
  run (string_bytes "0123456789{fifteen_letters}."%string) = Some (string_bytes "0123456789{fifteen_letters}."%string) /\
  fst <$> drain 10 32 (with_vars [(name, string_bytes "v"%string)] (string_bytes "{fifteen_letters}."%string)) = Some (string_bytes "v."%string).
Proof. vm_compute. repeat split. Qed.

(** A value that is taken in two parts: the rest is copied without regard to
    the size of the buffer, and at the end of the template it is lost, since
    the stream is finished as soon as the value is first read. *)
Example template_value_in_parts :
  let t := with_vars [(string_bytes "n"%string, string_bytes "value"%string)] (string_bytes "{n}"%string) in
  match TemplateStream_readMemoryBlock 16 t with
  | Some (0, _, t) =>
      match TemplateStream_readMemoryBlock 16 t with
      | Some (5, d, t) =>
          match TemplateStream_seek 1 t with
          | Some (_, t) => d = string_bytes "value"%string /\ TemplateStream_isFinished t = Some true /\ TemplateStream_readMemoryBlock 3 t = None
          | None => False
          end
      | _ => False
      end
  | _ => False
  end.
Proof. vm_compute. repeat split. Qed.
