(* ===== verification/HttpHeaders.v ===== *)
(** * String arrays and HTTP headers

    [Sming/SmingCore/Data/CStringArray.cpp], strings packed one behind the
    other in one buffer, and [Sming/SmingCore/Network/Http/HttpHeaders.cpp],
    a hash map keyed by an enumeration of field names that string arrays
    extend.  Headers refine a finite map from names without regard to case. *)

From S2P Require Import Prelude StringUtil Containers.

(** ** [CStringArray]

    The inherited string is its buffer, with the terminator, and the 16-bit
    [len]; [has_room] says whether the buffer can be made that large. *)
Record CStringArray := { ca_buffer : list Z; ca_len : Z; stringCount : Z }.
Definition CStringArray_new : CStringArray := {| ca_buffer := [0]; ca_len := 0; stringCount := 0 |}.

(** The C string that begins at an offset. *)
Definition string_at (a : CStringArray) (offset : Z) : list Z := until_nul (drop (Z.to_nat offset) (ca_buffer a)).

Definition lower (s : list Z) : list Z := tolower <$> s.
(** [strcasecmp(...) == 0] *)
Definition same_nocase (a b : list Z) : bool := bool_decide (lower a = lower b).

Section CStringArray.
Context (has_room : Z -> bool).

Definition CStringArray_add (str : list Z) (a : CStringArray) : bool * CStringArray :=
  let length := zlen str in
  if negb (has_room (ca_len a + length + 1)) then (false, a) else
  let len := if nz (ca_len a) then u16 (ca_len a + 1) else ca_len a in
  let buffer := take (Z.to_nat (ca_len a)) (ca_buffer a) ++ (if nz (ca_len a) then [0] else []) ++ str ++ [0] in
  (true, {| ca_buffer := buffer; ca_len := u16 (len + length); stringCount := u32 (stringCount a + 1) |}).
End CStringArray.

Fixpoint indexOf_loop (fuel : nat) (str : list Z) (a : CStringArray) (offset index : Z) : option Z :=
  match fuel with
  | O => None
  | S fuel =>
      if offset <? ca_len a then
        let s := string_at a offset in
        if same_nocase str s then Some index else indexOf_loop fuel str a (offset + (zlen s + 1)) (index + 1)
      else Some (-1)
  end.
(** A turn moves on by at least one byte. *)
Definition CStringArray_indexOf (str : list Z) (a : CStringArray) : option Z := indexOf_loop (S (Z.to_nat (ca_len a))) str a 0 0.
Definition CStringArray_contains (str : list Z) (a : CStringArray) : option bool := (fun i => 0 <=? i) <$> CStringArray_indexOf str a.

(** [count] fills in [stringCount] of an array that was assigned. *)
Definition CStringArray_count (a : CStringArray) : Z * CStringArray :=
  let n := if (stringCount a =? 0) && (ca_len a >? 0)
           then zlen (filter (fun c => c = 0) (take (Z.to_nat (ca_len a + 1)) (ca_buffer a))) else stringCount a in
  (n, {| ca_buffer := ca_buffer a; ca_len := ca_len a; stringCount := n |}).

Fixpoint getValue_loop (fuel : nat) (a : CStringArray) (offset index : Z) : option (option (list Z)) :=
  match fuel with
  | O => None
  | S fuel =>
      if offset <? ca_len a then
        let s := string_at a offset in
        if index =? 0 then Some (Some s) else getValue_loop fuel a (offset + (zlen s + 1)) (u32 (index - 1))
      else Some None
  end.
Definition CStringArray_getValue (index : Z) (a : CStringArray) : option (option (list Z)) :=
  if index <? fst (CStringArray_count a) then getValue_loop (S (Z.to_nat (ca_len a))) a 0 index else Some None.
Definition CStringArray_clear (a : CStringArray) : CStringArray := CStringArray_new.

(** ** [HttpHeaders] *)

Definition FieldNameStrings : list (list Z) := string_bytes <$>
  ["Access-Control-Allow-Origin"%string; "Authorization"%string; "Cc"%string; "Connection"%string; "Content-Disposition"%string; "Content-Encoding"%string;
   "Content-Length"%string; "Content-Type"%string; "Content-Transfer-Encoding"%string; "Cache-Control"%string; "Date"%string; "ETag"%string; "From"%string;
   "Host"%string; "If-Match"%string; "If-Modified-Since"%string; "Last-Modified"%string; "Location"%string; "Sec-WebSocket-Accept"%string;
   "Sec-WebSocket-Version"%string; "Sec-WebSocket-Key"%string; "Sec-WebSocket-Protocol"%string; "Server"%string; "Set-Cookie"%string; "Subject"%string;
   "To"%string; "Transfer-Encoding"%string; "Upgrade"%string; "User-Agent"%string; "WWW-Authenticate"%string].
Definition HTTP_HEADER_UNKNOWN : Z := 0.
Definition HTTP_HEADER_CONTENT_LENGTH : Z := 7.
Definition HTTP_HEADER_CUSTOM : Z := 31.

Record HttpHeaders := { h_map : HashMap Z (list Z); customFieldNames : CStringArray }.
Definition HttpHeaders_new : HttpHeaders := {| h_map := HashMap_new []; customFieldNames := CStringArray_new |}.

Definition findCustomFieldName (name : list Z) (h : HttpHeaders) : option Z :=
  match CStringArray_indexOf name (customFieldNames h) with
  | Some index => Some (if 0 <=? index then HTTP_HEADER_CUSTOM + index else HTTP_HEADER_UNKNOWN)
  | None => None
  end.
(** The loop over the table, from the enumerated name [i]. *)
Fixpoint standard_field (names : list (list Z)) (name : list Z) (i : Z) : option Z :=
  match names with
  | [] => None
  | n :: names => if same_nocase name n then Some i else standard_field names name (i + 1)
  end.
Definition fromString (name : list Z) (h : HttpHeaders) : option Z :=
  match standard_field FieldNameStrings name 1 with Some i => Some i | None => findCustomFieldName name h end.

Definition toString_field (name : Z) (h : HttpHeaders) : option (list Z) :=
  if name =? HTTP_HEADER_UNKNOWN then Some [] else
  if name <? HTTP_HEADER_CUSTOM then FieldNameStrings !! Z.to_nat (name - 1) else
  default [] <$> CStringArray_getValue (name - HTTP_HEADER_CUSTOM) (customFieldNames h).
Definition header_line (name value : list Z) : list Z := name ++ string_bytes ": "%string ++ value ++ [13; 10].
(** [operator[](unsigned)] *)
Definition line_at (index : Z) (h : HttpHeaders) : option (list Z) :=
  match HashMap_keyAt index (h_map h), HashMap_valueAt index (h_map h) with
  | Some k, Some v => (fun n => header_line n v) <$> toString_field k h
  | _, _ => None
  end.

(** [headers[name]] for reading through a constant object *)
Definition get_header (name : list Z) (h : HttpHeaders) : option (list Z) :=
  match fromString name h with
  | None => None
  | Some field => if field =? HTTP_HEADER_UNKNOWN then Some (nil (h_map h)) else HashMap_get Z.eqb field (h_map h)
  end.
Definition HttpHeaders_contains (name : list Z) (h : HttpHeaders) : option bool :=
  (fun field => HashMap_contains Z.eqb field (h_map h)) <$> fromString name h.
Definition HttpHeaders_remove (name : list Z) (h : HttpHeaders) : option HttpHeaders :=
  (fun field => {| h_map := HashMap_remove Z.eqb field (h_map h); customFieldNames := customFieldNames h |}) <$> fromString name h.
Definition HttpHeaders_clear (h : HttpHeaders) : HttpHeaders :=
  {| h_map := HashMap_clear (h_map h); customFieldNames := CStringArray_clear (customFieldNames h) |}.

Section Headers.
Context (has_room : Z -> bool).

(** [headers[field] = value] and [headers[name] = value]; whether the new
    name could be stored is not looked at. *)
Definition set_field (field : Z) (value : list Z) (h : HttpHeaders) : option HttpHeaders :=
  (fun m => {| h_map := m; customFieldNames := customFieldNames h |}) <$> HashMap_set Z.eqb 0 [] field value (h_map h).
Definition set_header (name value : list Z) (h : HttpHeaders) : option HttpHeaders :=
  match fromString name h with
  | None => None
  | Some field =>
      if field =? HTTP_HEADER_UNKNOWN then
        let '(n, names) := CStringArray_count (customFieldNames h) in
        set_field (HTTP_HEADER_CUSTOM + n) value {| h_map := h_map h; customFieldNames := snd (CStringArray_add has_room name names) |}
      else set_field field value h
  end.

Fixpoint setMultiple_loop (n : nat) (i : Z) (headers h : HttpHeaders) : option HttpHeaders :=
  match n with
  | O => Some h
  | S n =>
      match HashMap_keyAt i (h_map headers), HashMap_valueAt i (h_map headers) with
      | Some k, Some v =>
          match toString_field k headers with
          | Some name => match set_header name v h with Some h => setMultiple_loop n (i + 1) headers h | None => None end
          | None => None
          end
      | _, _ => None
      end
  end.
Definition HttpHeaders_setMultiple (headers h : HttpHeaders) : option HttpHeaders :=
  setMultiple_loop (Z.to_nat (HashMap_count (h_map headers))) 0 headers h.
Definition HttpHeaders_assign (headers h : HttpHeaders) : option HttpHeaders := HttpHeaders_setMultiple headers (HttpHeaders_clear h).
End Headers.

(** ** Packed strings

    [flat ss] is the buffer: each string with its terminator. *)
Definition flat (ss : list (list Z)) : list Z := concat ((fun s => s ++ [0]) <$> ss).
(** What can be packed: not empty, without a NUL. *)
Definition packable (s : list Z) : Prop := s <> [] /\ 0 ∉ s.

Record ca_ok (a : CStringArray) (ss : list (list Z)) : Prop := {
  ca_good : Forall packable ss;
  ca_fits : zlen (flat ss) <= 2 ^ 16;
  ca_number : stringCount a = zlen ss;
  ca_bytes : match ss with [] => ca_buffer a = [0] /\ ca_len a = 0 | _ => ca_buffer a = flat ss /\ ca_len a = zlen (flat ss) - 1 end
}.

Lemma flat_app ss1 ss2 : flat (ss1 ++ ss2) = flat ss1 ++ flat ss2.
Proof. unfold flat. by rewrite fmap_app, concat_app. Qed.
Lemma flat_one s : flat [s] = s ++ [0].
Proof. unfold flat. cbn. by rewrite app_nil_r. Qed.
Lemma zlen_flat_snoc ss s : zlen (flat (ss ++ [s])) = zlen (flat ss) + zlen s + 1.
Proof. rewrite flat_app, flat_one, !zlen_app. change (zlen [0]) with 1. lia. Qed.

Lemma until_nul_stop s z : 0 ∉ s -> until_nul (s ++ 0 :: z) = s.
Proof.
  induction s as [|c s IH]; intros Hs; [done|]. apply not_elem_of_cons in Hs as [Hc Hs]. cbn. rewrite (proj2 (Z.eqb_neq c 0)) by done. by rewrite IH.
Qed.

Lemma packable_len s : packable s -> 1 <= zlen s.
Proof. intros [Hs _]. pose proof (zlen_nonneg s). destruct (Z.eq_dec (zlen s) 0) as [E|]; [by apply zlen_zero in E|lia]. Qed.

Lemma flat_len ss : Forall packable ss -> 2 * zlen ss <= zlen (flat ss).
Proof.
  induction ss as [|s ss IH] using rev_ind; intros Hg; [done|]. apply Forall_app in Hg as [Hg Hs]. apply Forall_cons in Hs as [Hs _]. rewrite zlen_flat_snoc, zlen_app.
  pose proof (packable_len s Hs). specialize (IH Hg). change (zlen [s]) with 1. lia.
Qed.

(** A position between two strings. *)
Lemma string_at_flat a pre s post : ca_ok a (pre ++ s :: post) -> string_at a (zlen (flat pre)) = s /\ zlen (flat pre) < ca_len a.
Proof.
  intros [Hg Hf Hn Hb]. assert (ca_buffer a = flat (pre ++ s :: post) /\ ca_len a = zlen (flat (pre ++ s :: post)) - 1) as [E1 E2] by (by destruct pre).
  apply Forall_app in Hg as [Hg1 Hg2]. apply Forall_cons in Hg2 as [Hs Hg3]. unfold string_at. rewrite E1, E2. cbn [app] in *.
  assert (flat (pre ++ s :: post) = flat pre ++ s ++ 0 :: flat post) as -> by (rewrite flat_app; unfold flat at 2; cbn; by rewrite <- app_assoc).
  unfold zlen at 1. rewrite Nat2Z.id, drop_app_length. split; [apply until_nul_stop; apply Hs|]. rewrite !zlen_app, zlen_cons. pose proof (packable_len s Hs). pose proof (zlen_nonneg (flat post)). lia.
Qed.

Lemma at_end a ss : ca_ok a ss -> ca_len a <= zlen (flat ss).
Proof. intros [_ _ _ Hb]. destruct ss; destruct Hb as [_ ->]; [done|lia]. Qed.

Lemma flat_pre_next pre (s : list Z) : zlen (flat (pre ++ [s])) = zlen (flat pre) + (zlen s + 1).
Proof. rewrite zlen_flat_snoc. lia. Qed.

Lemma ca_indexOf_loop_run a str fuel : forall pre post, ca_ok a (pre ++ post) -> (length post < fuel)%nat ->
  indexOf_loop fuel str a (zlen (flat pre)) (zlen pre) = Some (index_from same_nocase str post (zlen pre)).
Proof.
  induction fuel as [|fuel IH]; intros pre post Ha Hf; [lia|]. destruct post as [|s post]; cbn [indexOf_loop index_from].
  - rewrite app_nil_r in Ha. by rewrite (proj2 (Z.ltb_ge _ _)) by (by apply (at_end a pre)).
  - destruct (string_at_flat a pre s post Ha) as [-> Hlt]. rewrite (proj2 (Z.ltb_lt _ _)) by done. destruct (same_nocase str s); [done|].
    rewrite <- flat_pre_next. replace (zlen pre + 1) with (zlen (pre ++ [s])) by (rewrite zlen_app; done). apply IH; [by rewrite <- app_assoc|cbn in Hf; lia].
Qed.

Lemma enough a ss : ca_ok a ss -> (length ss < S (Z.to_nat (ca_len a)))%nat.
Proof.
  intros Ha. pose proof (flat_len ss (ca_good a ss Ha)). destruct Ha as [_ _ _ Hb]. destruct ss as [|s ss]; [cbn; lia|]. destruct Hb as [_ ->]. unfold zlen in *. cbn [length] in *. lia.
Qed.

Lemma CStringArray_indexOf_run a ss str : ca_ok a ss -> CStringArray_indexOf str a = Some (index_from same_nocase str ss 0).
Proof. intros Ha. apply (ca_indexOf_loop_run a str _ [] ss Ha (enough a ss Ha)). Qed.

Lemma CStringArray_count_run a ss : ca_ok a ss -> CStringArray_count a = (zlen ss, a).
Proof.
  intros Ha. unfold CStringArray_count. destruct a as [b n c]. cbn in *. destruct Ha as [Hg Hf Hn Hb]. cbn in *. subst c. destruct ss as [|s ss].
  - destruct Hb as [-> ->]. done.
  - rewrite (proj2 (Z.eqb_neq (zlen (s :: ss)) 0)) by (rewrite zlen_cons; pose proof (zlen_nonneg ss); lia). done.
Qed.

Lemma getValue_loop_run a fuel : forall pre post i, ca_ok a (pre ++ post) -> (length post < fuel)%nat -> 0 <= i < 2 ^ 32 ->
  getValue_loop fuel a (zlen (flat pre)) i = Some (post !! Z.to_nat i).
Proof.
  induction fuel as [|fuel IH]; intros pre post i Ha Hf Hi; [lia|]. destruct post as [|s post]; cbn [getValue_loop].
  - rewrite app_nil_r in Ha. by rewrite (proj2 (Z.ltb_ge _ _)) by (by apply (at_end a pre)).
  - destruct (string_at_flat a pre s post Ha) as [-> Hlt]. rewrite (proj2 (Z.ltb_lt _ _)) by done. destruct (Z.eqb_spec i 0) as [->|Hne]; [done|].
    rewrite <- flat_pre_next, u32_small by (unfold is_u32; lia). rewrite (IH _ post); [|by rewrite <- app_assoc|cbn in Hf; lia|lia].
    by replace (Z.to_nat i) with (S (Z.to_nat (i - 1))) by lia.
Qed.

Lemma CStringArray_getValue_run a ss i : ca_ok a ss -> 0 <= i < 2 ^ 32 -> CStringArray_getValue i a = Some (ss !! Z.to_nat i).
Proof.
  intros Ha Hi. unfold CStringArray_getValue. rewrite (CStringArray_count_run a ss Ha). cbn [fst]. destruct (Z.ltb_spec i (zlen ss)).
  - apply (getValue_loop_run a _ [] ss i Ha (enough a ss Ha) Hi).
  - symmetry. f_equal. apply lookup_ge_None_2. unfold zlen in *. lia.
Qed.

Lemma CStringArray_add_run has_room a ss s : (forall n, has_room n = true) -> ca_ok a ss -> packable s -> zlen (flat (ss ++ [s])) <= 2 ^ 16 ->
  exists a', CStringArray_add has_room s a = (true, a') /\ ca_ok a' (ss ++ [s]).
Proof.
  intros Hr Ha Hs Hfit. unfold CStringArray_add. rewrite Hr. cbn [negb]. eexists. split; [done|]. pose proof (flat_len _ (ca_good a ss Ha)) as Hl. pose proof (zlen_flat_snoc ss s) as Ez.
  pose proof (packable_len s Hs). destruct Ha as [Hg Hf Hn Hb]. constructor; cbn [stringCount ca_buffer ca_len].
  - apply Forall_app. split; [done|by constructor].
  - done.
  - rewrite Hn, zlen_app. apply u32_small. unfold is_u32. pose proof (zlen_nonneg ss). change (zlen [s]) with 1. lia.
  - destruct ss as [|s0 ss].
    + destruct Hb as [-> ->]. cbn [app]. rewrite flat_one, zlen_app. change (zlen (flat [])) with 0 in Ez. change (zlen [0]) with 1. split; [done|]. change (nz 0) with false. cbv iota.
      rewrite u16_small by lia. lia.
    + destruct Hb as [-> ->]. set (T := s0 :: ss) in *. destruct (T ++ [s]) eqn:E; [by destruct T|]. rewrite <- E in *.
      assert (1 <= zlen T) by (unfold T; rewrite zlen_cons; pose proof (zlen_nonneg ss); lia). assert (nz (zlen (flat T) - 1) = true) as -> by (apply nz_true; lia).
      assert (exists z, flat T = z ++ [0]) as [z Ezz].
      { destruct (exists_last (l := T) ltac:(done)) as (T' & x & ->). rewrite flat_app, flat_one. exists (flat T' ++ x). by rewrite <- app_assoc. }
      split.
      * rewrite flat_app, flat_one. rewrite app_assoc. f_equal. rewrite Ezz, zlen_app. change (zlen [0]) with 1. replace (Z.to_nat (zlen z + 1 - 1)) with (length z) by (unfold zlen; lia).
        by rewrite take_app_length.
      * rewrite (u16_small (zlen (flat T) - 1 + 1)), u16_small by lia. lia.
Qed.

(** ** Field names *)

Lemma same_nocase_spec a b : same_nocase a b = true <-> lower a = lower b.
Proof. apply bool_decide_eq_true. Qed.

Lemma index_from_cases (ks : list (list Z)) k : forall i,
  (index_from same_nocase k ks i = -1 /\ forall j x, ks !! j = Some x -> lower k <> lower x) \/
  (exists j x, ks !! j = Some x /\ lower k = lower x /\ index_from same_nocase k ks i = i + Z.of_nat j /\
     forall j' y, (j' < j)%nat -> ks !! j' = Some y -> lower k <> lower y).
Proof.
  induction ks as [|x ks IH]; intros i; cbn; [by left|]. unfold same_nocase at 1 3. destruct (bool_decide_reflect (lower k = lower x)) as [E|E].
  - right. exists 0%nat, x. split; [done|]. split; [done|]. split; [lia|]. lia.
  - destruct (IH (i + 1)) as [[-> Hn]|(j & y & Hj & Ey & -> & Hb)].
    + left. split; [done|]. intros [|j] y Hy; [by injection Hy as <-|by apply (Hn j)].
    + right. exists (S j), y. split; [done|]. split; [done|]. split; [lia|]. intros [|j'] z Hlt Hz; [by injection Hz as <-|]. apply (Hb j'); [lia|done].
Qed.

Lemma standard_index names k : forall i, 0 <= i ->
  standard_field names k i = let r := index_from same_nocase k names i in if 0 <=? r then Some r else None.
Proof.
  induction names as [|n names IH]; intros i Hi; cbn; [done|]. destruct (same_nocase k n); [by rewrite (proj2 (Z.leb_le _ _))|]. apply IH. lia.
Qed.

(** The enumerated value of a name, with the custom names [cs]. *)
Definition all_names (cs : list (list Z)) : list (list Z) := FieldNameStrings ++ cs.
Definition field_of (cs : list (list Z)) (name : list Z) : option Z :=
  let r := index_from same_nocase name (all_names cs) 1 in if 0 <=? r then Some r else None.

Lemma index_from_app k (l1 l2 : list (list Z)) : forall i, 0 <= i ->
  index_from same_nocase k (l1 ++ l2) i =
  let r := index_from same_nocase k l1 i in if 0 <=? r then r else index_from same_nocase k l2 (i + zlen l1).
Proof.
  induction l1 as [|x l1 IH]; intros i Hi; cbn; [by rewrite Z.add_0_r|]. destruct (same_nocase k x); [by rewrite (proj2 (Z.leb_le _ _))|].
  rewrite IH by lia. rewrite zlen_cons. cbv zeta. by replace (i + 1 + zlen l1) with (i + (1 + zlen l1)) by lia.
Qed.

Lemma fromString_run name h cs : ca_ok (customFieldNames h) cs -> fromString name h = Some (default HTTP_HEADER_UNKNOWN (field_of cs name)).
Proof.
  intros Ha. unfold fromString, findCustomFieldName, field_of, all_names. rewrite standard_index by lia. rewrite (CStringArray_indexOf_run _ cs name Ha).
  rewrite index_from_app by lia. cbv zeta. destruct (Z.leb_spec 0 (index_from same_nocase name FieldNameStrings 1)) as [H|H].
  - by rewrite (proj2 (Z.leb_le _ _)).
  - change (1 + zlen FieldNameStrings) with 31.
    destruct (index_from_cases cs name 0) as [[-> Hn]|(j & x & Hj & Ex & -> & Hb)]; destruct (index_from_cases cs name 31) as [[-> Hn']|(j' & x' & Hj' & Ex' & -> & Hb')].
    + done.
    + by destruct (Hn j' x').
    + by destruct (Hn' j x).
    + rewrite !(proj2 (Z.leb_le _ _)) by lia. cbn. unfold HTTP_HEADER_CUSTOM. destruct (decide (j < j')%nat) as [?|?]; [by destruct (Hb' j x)|].
      destruct (decide (j' < j)%nat) as [?|?]; [by destruct (Hb j' x')|]. f_equal. lia.
Qed.

Lemma field_of_spec cs name :
  match field_of cs name with
  | Some f => 1 <= f /\ exists x, all_names cs !! Z.to_nat (f - 1) = Some x /\ lower name = lower x
  | None => forall j x, all_names cs !! j = Some x -> lower name <> lower x
  end.
Proof.
  unfold field_of. cbv zeta. destruct (index_from_cases (all_names cs) name 1) as [[-> Hn]|(j & x & Hj & Ex & -> & Hb)]; [done|].
  rewrite (proj2 (Z.leb_le _ _)) by lia. split; [lia|]. exists x. by replace (Z.to_nat (1 + Z.of_nat j - 1)) with j by lia.
Qed.

Lemma field_of_lower cs a b : lower a = lower b -> field_of cs a = field_of cs b.
Proof.
  intros E. unfold field_of. assert (forall ks i, index_from same_nocase a ks i = index_from same_nocase b ks i) as H; [|by rewrite H].
  induction ks as [|x ks IH]; intros i; cbn; [done|]. unfold same_nocase at 1 3. rewrite E. by rewrite IH.
Qed.

Lemma field_of_inj cs a b f : field_of cs a = Some f -> field_of cs b = Some f -> lower a = lower b.
Proof.
  intros Ea Eb. pose proof (field_of_spec cs a) as Ha. pose proof (field_of_spec cs b) as Hb. rewrite Ea in Ha. rewrite Eb in Hb.
  destruct Ha as (_ & x & Hx & ->), Hb as (_ & y & Hy & ->). congruence.
Qed.

Lemma field_of_snoc cs n m : field_of cs n = None ->
  field_of (cs ++ [n]) m = if decide (lower m = lower n) then Some (HTTP_HEADER_CUSTOM + zlen cs) else field_of cs m.
Proof.
  intros Hn. unfold field_of at 1. cbv zeta. unfold all_names. rewrite app_assoc, index_from_app by lia. cbv zeta. fold (all_names cs).
  assert (1 + zlen (all_names cs) = 31 + zlen cs) as -> by (unfold all_names; rewrite zlen_app; change (zlen FieldNameStrings) with 30; lia).
  destruct (decide (lower m = lower n)) as [E|E].
  - rewrite (field_of_lower cs n m) in Hn by done. unfold field_of in Hn. cbv zeta in Hn. destruct (0 <=? index_from same_nocase m (all_names cs) 1); [done|].
    cbn. rewrite (proj2 (same_nocase_spec m n)) by done. pose proof (zlen_nonneg cs). rewrite (proj2 (Z.leb_le _ _)) by lia. done.
  - unfold field_of. cbv zeta. destruct (0 <=? index_from same_nocase m (all_names cs) 1) eqn:Er; [by rewrite Er|]. cbn.
    destruct (same_nocase m n) eqn:Es; [by apply same_nocase_spec in Es|]. done.
Qed.

(** ** Headers refine a finite map *)

Inductive h_op := HSet (name value : list Z) | HGet (name : list Z) | HContains (name : list Z) | HRemove (name : list Z) | HClear.
Inductive h_reply := HDone | HValue (v : list Z) | HBool (b : bool).

Definition headers_step (has_room : Z -> bool) (op : h_op) (h : HttpHeaders) : option (h_reply * HttpHeaders) :=
  match op with
  | HSet n v => (fun h => (HDone, h)) <$> set_header has_room n v h
  | HGet n => (fun v => (HValue v, h)) <$> get_header n h
  | HContains n => (fun b => (HBool b, h)) <$> HttpHeaders_contains n h
  | HRemove n => (fun h => (HDone, h)) <$> HttpHeaders_remove n h
  | HClear => Some (HDone, HttpHeaders_clear h)
  end.
(** The map is keyed by the name in lower case. *)
Definition table_step (op : h_op) (m : gmap (list Z) (list Z)) : h_reply * gmap (list Z) (list Z) :=
  match op with
  | HSet n v => (HDone, <[lower n := v]> m)
  | HGet n => (HValue (default [] (m !! lower n)), m)
  | HContains n => (HBool (bool_decide (is_Some (m !! lower n))), m)
  | HRemove n => (HDone, delete (lower n) m)
  | HClear => (HDone, ∅)
  end.
Fixpoint headers_run (has_room : Z -> bool) (ops : list h_op) (h : HttpHeaders) : option (list h_reply * HttpHeaders) :=
  match ops with
  | [] => Some ([], h)
  | op :: ops =>
      match headers_step has_room op h with
      | Some (r, h) => match headers_run has_room ops h with Some (rs, h) => Some (r :: rs, h) | None => None end
      | None => None
      end
  end.
Fixpoint table_run (ops : list h_op) (m : gmap (list Z) (list Z)) : list h_reply * gmap (list Z) (list Z) :=
  match ops with
  | [] => ([], m)
  | op :: ops => let '(r, m) := table_step op m in let '(rs, m) := table_run ops m in (r :: rs, m)
  end.

(** Names are C strings; a new one takes its length and a terminator. *)
Definition op_ok (op : h_op) : Prop := match op with HSet n _ => packable n | HGet n | HContains n | HRemove n => 0 ∉ n | HClear => True end.
Definition name_bytes (op : h_op) : Z := match op with HSet n _ => zlen n + 1 | _ => 0 end.
Definition total_bytes (ops : list h_op) : Z := foldr (fun op n => name_bytes op + n) 0 ops.

#[local] Opaque field_of.

Section Refinement.
Context (has_room : Z -> bool).
Hypothesis memory : forall n, has_room n = true.
Abbreviation ok := (hm_ok (V := list Z) (fun k : Z => k)).
Abbreviation mapped := (to_map (V := list Z) (fun k : Z => k)).

Record stands_for (h : HttpHeaders) (m : gmap (list Z) (list Z)) (l : list (Z * list Z)) (cs : list (list Z)) : Prop := {
  sf_map : ok (h_map h) l;
  sf_nil : nil (h_map h) = [];
  sf_names : ca_ok (customFieldNames h) cs;
  sf_unknown : mapped l !! HTTP_HEADER_UNKNOWN = None;
  sf_lookup : forall n, m !! lower n = field_of cs n ≫= (fun f => mapped l !! f)
}.

Lemma eqb_canon a b : (a =? b) = true <-> (fun k : Z => k) a = (fun k => k) b.
Proof. apply Z.eqb_eq. Qed.

(** The entry of the field that a name stands for; what it was does not
    matter. *)
Lemma set_field_stands f n v h m l cs : ok (h_map h) l -> nil (h_map h) = [] -> ca_ok (customFieldNames h) cs -> mapped l !! HTTP_HEADER_UNKNOWN = None ->
  (forall n', lower n' <> lower n -> m !! lower n' = field_of cs n' ≫= (fun f => mapped l !! f)) -> field_of cs n = Some f -> zlen l < 2 ^ 16 - 1 ->
  exists h' l', set_field f v h = Some h' /\ stands_for h' (<[lower n := v]> m) l' cs /\ zlen l' <= zlen l + 1.
Proof.
  intros Hm Hnil Hc Hu Hlk Hf Hl. destruct (hm_set_spec Z.eqb (fun k => k) 0 [] eqb_canon (h_map h) l f v Hm Hl) as (h' & l' & E & H1 & H2 & H3 & H4).
  unfold set_field. rewrite E. eexists _, l'. split; [done|]. split; [|done]. pose proof (field_of_spec cs n) as Hs. rewrite Hf in Hs. constructor; cbn.
  - done.
  - by rewrite H2.
  - done.
  - rewrite H4, lookup_insert_ne; [done|]. unfold HTTP_HEADER_UNKNOWN. lia.
  - intros n'. rewrite H4. destruct (decide (lower n = lower n')) as [En|En].
    + rewrite <- En, lookup_insert_eq. rewrite <- (field_of_lower cs n n' En), Hf. cbn. by rewrite lookup_insert_eq.
    + rewrite lookup_insert_ne, Hlk by congruence. destruct (field_of cs n') as [f'|] eqn:E'; [|done]. cbn. rewrite lookup_insert_ne; [done|].
      intros ->. apply En. by apply (field_of_inj cs n n' f').
Qed.

Lemma step_stands op h m l cs : stands_for h m l cs -> op_ok op -> zlen l < 2 ^ 16 - 1 -> zlen (flat cs) + name_bytes op <= 2 ^ 16 ->
  exists h' l' cs', headers_step has_room op h = Some (fst (table_step op m), h') /\ stands_for h' (snd (table_step op m)) l' cs' /\
    zlen l' <= zlen l + 1 /\ zlen (flat cs') <= zlen (flat cs) + name_bytes op.
Proof.
  intros S Hop Hl Hb. pose proof (fun n => fromString_run n h cs (sf_names _ _ _ _ S)) as Hfrom. destruct op as [n v|n|n|n|]; cbn [headers_step table_step fst snd name_bytes] in *.
  - unfold set_header. rewrite Hfrom. destruct (field_of cs n) as [f|] eqn:Ef; cbn [from_option id]; unfold id.
    + pose proof (field_of_spec cs n) as Hs. rewrite Ef in Hs. rewrite (proj2 (Z.eqb_neq f HTTP_HEADER_UNKNOWN)) by (unfold HTTP_HEADER_UNKNOWN; lia).
      destruct (set_field_stands f n v h m l cs) as (h' & l' & -> & S' & Hz); [apply S..|intros n' _; apply S|done|done|]. exists h', l', cs. split; [done|]. split; [done|]. split; [done|]. pose proof (zlen_nonneg n). lia.
    + rewrite Z.eqb_refl. rewrite (CStringArray_count_run _ cs (sf_names _ _ _ _ S)).
      destruct (CStringArray_add_run has_room (customFieldNames h) cs n memory (sf_names _ _ _ _ S) Hop) as (a' & -> & Ha'); [rewrite zlen_flat_snoc; lia|]. cbn [snd].
      destruct (set_field_stands (HTTP_HEADER_CUSTOM + zlen cs) n v {| h_map := h_map h; customFieldNames := a' |} m l (cs ++ [n])) as (h' & l' & -> & S' & Hz);
        [apply S|apply S|done|apply S| |by rewrite field_of_snoc, decide_True|done|].
      { intros n' En. rewrite field_of_snoc, decide_False by done. apply S. }
      exists h', l', (cs ++ [n]). split; [done|]. split; [done|]. split; [done|]. rewrite zlen_flat_snoc. lia.
  - unfold get_header. rewrite Hfrom. exists h, l, cs. split; [|split; [done|split; lia]]. rewrite (sf_lookup _ _ _ _ S n). destruct (field_of cs n) as [f|] eqn:Ef; cbn [from_option id]; unfold id.
    + pose proof (field_of_spec cs n) as Hs. rewrite Ef in Hs. rewrite (proj2 (Z.eqb_neq f HTTP_HEADER_UNKNOWN)) by (unfold HTTP_HEADER_UNKNOWN; lia).
      rewrite (hm_get_spec Z.eqb (fun k => k) eqb_canon (h_map h) l f (sf_map _ _ _ _ S)). by rewrite (sf_nil _ _ _ _ S).
    + rewrite Z.eqb_refl. cbn. by rewrite (sf_nil _ _ _ _ S).
  - unfold HttpHeaders_contains. rewrite Hfrom. exists h, l, cs. split; [|split; [done|split; lia]]. cbn. rewrite (hm_contains_spec Z.eqb (fun k => k) eqb_canon (h_map h) l _ (sf_map _ _ _ _ S)).
    rewrite (sf_lookup _ _ _ _ S n). destruct (field_of cs n) as [f|]; cbn; [done|]. by rewrite (sf_unknown _ _ _ _ S).
  - unfold HttpHeaders_remove. rewrite Hfrom. cbn.
    destruct (hm_remove_spec Z.eqb (fun k => k) eqb_canon (h_map h) l (default HTTP_HEADER_UNKNOWN (field_of cs n)) (sf_map _ _ _ _ S)) as (l' & H1 & H2 & H3 & H4).
    eexists _, l', cs. split; [done|]. split; [|split; lia]. destruct S. constructor; cbn; try done.
    + by rewrite H2.
    + rewrite H4. apply lookup_delete_None. auto.
    + intros n'. rewrite H4. destruct (decide (lower n = lower n')) as [En|En].
      * rewrite <- En, lookup_delete_eq, <- (field_of_lower cs n n' En). destruct (field_of cs n) as [f|]; cbn; [by rewrite lookup_delete_eq|done].
      * rewrite lookup_delete_ne, sf_lookup0 by done. destruct (field_of cs n') as [f'|] eqn:E'; [|done]. cbn. rewrite lookup_delete_ne; [done|].
        destruct (field_of cs n) as [f|] eqn:E; cbn.
        -- intros ->. apply En. by apply (field_of_inj cs n n' f').
        -- pose proof (field_of_spec cs n') as Hs. rewrite E' in Hs. unfold HTTP_HEADER_UNKNOWN. lia.
  - eexists _, [], []. split; [done|]. split; [|split; [pose proof (zlen_nonneg l); change (zlen (@Datatypes.nil (Z * list Z))) with 0; lia|pose proof (zlen_nonneg (flat cs)); change (zlen (flat [])) with 0; lia]].
    destruct S. constructor.
    + by apply (hm_clear_spec (fun k => k) (h_map h) l).
    + done.
    + constructor; [constructor|change (zlen (flat [])) with 0; lia|done|done].
    + apply lookup_empty.
    + intros n. rewrite lookup_empty. destruct (field_of [] n) as [f|]; [symmetry; apply lookup_empty|reflexivity].
Qed.

Lemma run_stands ops : forall h m l cs, stands_for h m l cs -> Forall op_ok ops -> zlen l + zlen ops < 2 ^ 16 -> zlen (flat cs) + total_bytes ops <= 2 ^ 16 ->
  exists h' l' cs', headers_run has_room ops h = Some (fst (table_run ops m), h') /\ stands_for h' (snd (table_run ops m)) l' cs'.
Proof.
  induction ops as [|op ops IH]; intros h m l cs S Hops Hl Hb; [by exists h, l, cs|]. apply Forall_cons in Hops as [Hop Hops]. rewrite zlen_cons in Hl. cbn [total_bytes foldr] in Hb.
  fold (total_bytes ops) in Hb. assert (0 <= total_bytes ops) as H0.
  { clear. induction ops as [|op ops IH]; cbn; [lia|]. fold (total_bytes ops). destruct op as [n ?| | | |]; cbn [name_bytes]; pose proof (@zlen_nonneg Z); try specialize (H n); lia. }
  pose proof (zlen_nonneg ops). destruct (step_stands op h m l cs S Hop) as (h1 & l1 & cs1 & E1 & S1 & Hl1 & Hb1); [lia|lia|].
  cbn [headers_run table_run]. rewrite E1. destruct (table_step op m) as [r m1]. cbn [fst snd] in *.
  destruct (IH h1 m1 l1 cs1 S1 Hops) as (h2 & l2 & cs2 & E2 & S2); [lia|lia|]. rewrite E2. destruct (table_run ops m1) as [rs m2]. by exists h2, l2, cs2.
Qed.
End Refinement.

(** Headers are a finite map whose keys are names without regard to case:
    over every sequence of assignments, lookups, tests, removals and clears by
    name, standard names and any number of custom ones mixed, each reply is
    that of the map, as long as the custom names fit in 65536 bytes and there
    are fewer than 65536 operations. *)
Theorem http_headers_refine has_room ops :
  (forall n, has_room n = true) -> Forall op_ok ops -> zlen ops < 2 ^ 16 -> total_bytes ops <= 2 ^ 16 ->
  exists h, headers_run has_room ops HttpHeaders_new = Some (fst (table_run ops ∅), h) /\
    forall n, 0 ∉ n -> get_header n h = Some (default [] (snd (table_run ops ∅) !! lower n)).
Proof.
  intros Hm Hops Hl Hb. destruct (run_stands has_room Hm ops HttpHeaders_new ∅ [] []) as (h & l & cs & E & S); [|done|change (zlen (@Datatypes.nil (Z * list Z))) with 0; lia|change (zlen (flat [])) with 0; lia|].
  - constructor; [by constructor; try done; apply NoDup_nil_2|done| |apply lookup_empty|].
    + constructor; [constructor|change (zlen (flat [])) with 0; lia|done|done].
    + intros n. rewrite lookup_empty. destruct (field_of [] n) as [f|]; [symmetry; apply lookup_empty|reflexivity].
  - exists h. split; [done|]. intros n _. unfold get_header. rewrite (fromString_run n h cs (sf_names _ _ _ _ S)). rewrite (sf_lookup _ _ _ _ S n).
    destruct (field_of cs n) as [f|] eqn:Ef; cbn [from_option id]; unfold id.
    + pose proof (field_of_spec cs n) as Hs. rewrite Ef in Hs. rewrite (proj2 (Z.eqb_neq f HTTP_HEADER_UNKNOWN)) by (unfold HTTP_HEADER_UNKNOWN; lia).
      rewrite (hm_get_spec Z.eqb (fun k => k) eqb_canon (h_map h) l f (sf_map _ _ _ _ S)). by rewrite (sf_nil _ _ _ _ S).
    + rewrite Z.eqb_refl. cbn. by rewrite (sf_nil _ _ _ _ S).
Qed.

Definition demo_headers : list h_op :=
  [HSet (string_bytes "Content-Type"%string) [1]; HSet (string_bytes "X-One"%string) [2]; HSet (string_bytes "X-Two"%string) [3]; HSet (string_bytes "x-one"%string) [4];
   HGet (string_bytes "X-ONE"%string); HGet (string_bytes "content-type"%string); HRemove (string_bytes "X-two"%string); HContains (string_bytes "X-Two"%string); HGet (string_bytes "Host"%string)].

Lemma http_headers_refine_witness :
  fst (table_run demo_headers ∅) = [HDone; HDone; HDone; HDone; HValue [4]; HValue [1]; HDone; HBool false; HValue []] /\
  exists h, headers_run (fun _ => true) demo_headers HttpHeaders_new = Some (fst (table_run demo_headers ∅), h).
Proof.
  split; [vm_compute; reflexivity|]. destruct (http_headers_refine (fun _ => true) demo_headers) as (h & E & _).
  - done.
  - unfold demo_headers. repeat constructor; try done; cbn; rewrite ?not_elem_of_cons; repeat split; try done; apply not_elem_of_nil.
  - vm_compute. reflexivity.
  - vm_compute. discriminate.
  - by exists h.
Defined.

(** An empty string is counted by [add] but takes no place in the array: it
    is not found, and the strings behind it have other indices. *)
Example cstring_array_loses_empty :
  let a := snd (CStringArray_add (fun _ => true) [97] (snd (CStringArray_add (fun _ => true) [] CStringArray_new))) in
  fst (CStringArray_count a) = 2 /\ CStringArray_getValue 0 a = Some (Some [97]) /\ CStringArray_getValue 1 a = Some None /\ CStringArray_indexOf [] a = Some (-1).
Proof. vm_compute. repeat split. Qed.
