(* ===== verification/MultiStream.v ===== *)
(** * Streams made of streams

    [Sming/SmingCore/Data/Stream/MultiStream.cpp], a stream that reads others
    one after the other, and [MultipartStream.cpp], which asks a producer for
    parts and puts a boundary and headers before each of them.  Reading it to
    the end gives the multipart message of the parts. *)

From S2P Require Import Prelude StringUtil Containers Streams HttpHeaders.

(** ** [MultiStream]

    [ms_more] is the state of the derived class. *)
Record MultiStream (Cur P : Type) := { ms_stream : option Cur; ms_nextStream : option Cur; ms_finished : bool; ms_more : P }.
Arguments ms_stream {Cur P}. Arguments ms_nextStream {Cur P}. Arguments ms_finished {Cur P}. Arguments ms_more {Cur P}.

Section MultiStream.
Context {Cur P : Type} `{IDataSourceStream Cur}.
Implicit Types s : MultiStream Cur P.

Definition set_streams (stream next : option Cur) s : MultiStream Cur P :=
  {| ms_stream := stream; ms_nextStream := next; ms_finished := ms_finished s; ms_more := ms_more s |}.
Definition set_finished s : MultiStream Cur P :=
  {| ms_stream := ms_stream s; ms_nextStream := ms_nextStream s; ms_finished := true; ms_more := ms_more s |}.

(** The virtual functions. *)
Context (getNextStream : MultiStream Cur P -> option Cur * MultiStream Cur P).
Context (onCompleted : MultiStream Cur P -> option (bool * MultiStream Cur P)) (onNextStream : MultiStream Cur P -> option (MultiStream Cur P)).

(** [delete stream] once it is finished. *)
Definition drop_finished s : option (MultiStream Cur P) :=
  match ms_stream s with
  | None => Some s
  | Some c => match isFinished c with Some true => Some (set_streams None (ms_nextStream s) s) | Some false => Some s | None => None end
  end.
Definition take_next s : MultiStream Cur P :=
  match ms_stream s, ms_nextStream s with None, Some c => set_streams (Some c) None s | _, _ => s end.
(** Whether there is a stream to read. *)
Definition ask_next s : option (bool * MultiStream Cur P) :=
  match ms_stream s with
  | Some _ => Some (true, s)
  | None =>
      let '(next, s) := getNextStream s in
      let s := set_streams (ms_stream s) next s in
      match next with
      | None => onCompleted (set_finished s)
      | Some _ => match onNextStream s with Some s => Some (true, s) | None => None end
      end
  end.
Definition MultiStream_readMemoryBlock (bufSize : Z) s : option (Z * list Z * MultiStream Cur P) :=
  match drop_finished s with
  | None => None
  | Some s =>
      match ask_next (take_next s) with
      | None => None
      | Some (false, s) => Some (0, [], s)
      | Some (true, s) =>
          match ms_stream s with
          | None => None
          | Some c =>
              match readMemoryBlock bufSize c with
              | Some (n, d, c) => Some (n, d, set_streams (Some c) (ms_nextStream s) s)
              | None => None
              end
          end
      end
  end.
Definition MultiStream_seek (len : Z) s : option (bool * MultiStream Cur P) :=
  match ms_stream s with
  | None => Some (false, s)
  | Some c => match seek len c with Some (b, c) => Some (b, set_streams (Some c) (ms_nextStream s) s) | None => None end
  end.
Definition MultiStream_isFinished s : option bool :=
  if ms_finished s then match ms_stream s with None => Some true | Some c => isFinished c end else Some false.

Definition MultiStream_stream : IDataSourceStream (MultiStream Cur P) := {|
  readMemoryBlock := MultiStream_readMemoryBlock;
  seek := MultiStream_seek;
  isFinished := MultiStream_isFinished
|}.

(** The functions of the base class. *)
Definition MultiStream_onCompleted s : option (bool * MultiStream Cur P) := Some (false, s).
Definition MultiStream_onNextStream s : option (MultiStream Cur P) := Some (set_streams (ms_nextStream s) None s).
End MultiStream.

(** ** [MultipartStream]

    A part's stream is the one of the producer or a [MemoryDataStream] with
    the text before it. *)
Section Either.
Context {St : Type} `{IDataSourceStream St}.
#[export] Instance either_stream : IDataSourceStream (MemoryDataStream + St) := {|
  readMemoryBlock n c :=
    match c with
    | inl m => match readMemoryBlock n m with Some (r, d, m) => Some (r, d, inl m) | None => None end
    | inr st => match readMemoryBlock n st with Some (r, d, st) => Some (r, d, inr st) | None => None end
    end;
  seek n c :=
    match c with
    | inl m => match seek n m with Some (r, m) => Some (r, inl m) | None => None end
    | inr st => match seek n st with Some (r, st) => Some (r, inr st) | None => None end
    end;
  isFinished c := match c with inl m => isFinished m | inr st => isFinished st end
|}.
End Either.

(** The producer's state, [result], [boundary] and the number of random
    numbers taken. *)
Record multipart (Q St : Type) := { mp_producer : Q; mp_headers : option HttpHeaders; mp_stream : option St; mp_boundary : list Z; mp_draws : nat }.
Arguments mp_producer {Q St}. Arguments mp_headers {Q St}. Arguments mp_stream {Q St}. Arguments mp_boundary {Q St}. Arguments mp_draws {Q St}.

Section MultipartStream.
Context {Q St : Type} `{IDataSourceStream St}.
(** The delegate, [available] of the streams, [os_random], and memory. *)
Context (producer : Q -> option HttpHeaders * option St * Q) (available : St -> Z) (os_random : nat -> Z) (has_room : Z -> bool) (fill : Z).
Abbreviation part_stream := (MemoryDataStream + St)%type.
Abbreviation MultipartStream := (MultiStream part_stream (multipart Q St)).
Implicit Types s : MultipartStream.

Definition set_more (m : multipart Q St) s : MultipartStream :=
  {| ms_stream := ms_stream s; ms_nextStream := ms_nextStream s; ms_finished := ms_finished s; ms_more := m |}.
Definition MultipartStream_new (q : Q) : MultipartStream :=
  {| ms_stream := None; ms_nextStream := None; ms_finished := false;
     ms_more := {| mp_producer := q; mp_headers := None; mp_stream := None; mp_boundary := replicate 16 0; mp_draws := 0 |} |}.

Definition MultipartStream_getNextStream s : option part_stream * MultipartStream :=
  let m := ms_more s in
  let '(headers, st, q) := producer (mp_producer m) in
  (inr <$> st, set_more {| mp_producer := q; mp_headers := headers; mp_stream := st; mp_boundary := mp_boundary m; mp_draws := mp_draws m |} s).

Definition pool : list Z := string_bytes "0123456789ABCDEFGHIJKLMNOPQRSTUVWXYZabcdefghijklmnopqrstuvwxyz"%string.
Definition getBoundary s : list Z * MultipartStream :=
  let m := ms_more s in
  if getb (mp_boundary m) 0 =? 0 then
    let b := (fun i => getb pool (os_random (mp_draws m + i)%nat mod zlen pool)) <$> seq 0 15 in
    (b, set_more {| mp_producer := mp_producer m; mp_headers := mp_headers m; mp_stream := mp_stream m; mp_boundary := b ++ [0]; mp_draws := mp_draws m + 15 |} s)
  else (until_nul (mp_boundary m), s).

(** [stream->print(text)]; a short write is not looked at. *)
Definition print (text : list Z) (m : MemoryDataStream) : option MemoryDataStream := snd <$> MemoryDataStream_write has_room fill text m.

Definition MultipartStream_onCompleted s : option (bool * MultipartStream) :=
  let '(b, s) := getBoundary s in
  match print ([13; 10; 45; 45] ++ b ++ [45; 45; 13; 10]) MemoryDataStream_new with
  | Some m => Some (true, set_streams (Some (inl m)) (ms_nextStream s) s)
  | None => None
  end.

(** The length is added where the stream knows it. *)
Definition with_length (h : HttpHeaders) (st : option St) : option HttpHeaders :=
  if HashMap_contains Z.eqb HTTP_HEADER_CONTENT_LENGTH (h_map h) then Some h else
  match st with
  | Some st => if 0 <=? available st then t ← ltoa (available st) 10; set_field HTTP_HEADER_CONTENT_LENGTH t h else Some h
  | None => Some h
  end.
Fixpoint print_headers (n : nat) (i : Z) (h : HttpHeaders) (m : MemoryDataStream) : option MemoryDataStream :=
  match n with
  | O => Some m
  | S n => t ← line_at i h; m ← print t m; print_headers n (i + 1) h m
  end.
Definition MultipartStream_onNextStream s : option MultipartStream :=
  let '(b, s) := getBoundary s in
  let r := ms_more s in
  m ← print ([13; 10; 45; 45] ++ b ++ [13; 10]) MemoryDataStream_new;
  m ← match mp_headers r with
      | None => Some m
      | Some h => h ← with_length h (mp_stream r); print_headers (Z.to_nat (HashMap_count (h_map h))) 0 h m
      end;
  m ← print [13; 10] m;
  let s := set_more {| mp_producer := mp_producer r; mp_headers := None; mp_stream := mp_stream r; mp_boundary := mp_boundary r; mp_draws := mp_draws r |} s in
  Some (set_streams (Some (inl m)) (inr <$> mp_stream r) s).

#[export] Instance MultipartStream_stream : IDataSourceStream MultipartStream :=
  MultiStream_stream MultipartStream_getNextStream MultipartStream_onCompleted MultipartStream_onNextStream.
End MultipartStream.

(** ** The message *)

#[export] Program Instance either_source {St} `{Source St} : Source (MemoryDataStream + St) := {|
  content c l := match c with inl m => content m l | inr st => content st l end
|}.
Next Obligation.
  intros St ? ? [m|st] l n Hc Hn; destruct (source_read _ l n Hc Hn) as (x & E & Hx); cbn [readMemoryBlock either_stream]; rewrite E; by eexists.
Qed.
Next Obligation.
  intros St ? ? [m|st] l n Hc Hn; destruct (source_seek _ l n Hc Hn) as (x & E & Hx); cbn [seek either_stream]; rewrite E; by eexists.
Qed.
Next Obligation. intros St ? ? [m|st] l Hc; cbn [isFinished either_stream]; by apply source_finished. Qed.

Section Message.
Context {Q St : Type} `{Source St}.
Context (producer : Q -> option HttpHeaders * option St * Q) (available : St -> Z) (os_random : nat -> Z) (has_room : Z -> bool) (fill : Z).
Hypothesis memory : forall n, has_room n = true.

(** The header lines of a part. *)
Fixpoint header_lines (n : nat) (i : Z) (h : HttpHeaders) : option (list Z) :=
  match n with
  | O => Some []
  | S n => t ← line_at i h; ts ← header_lines n (i + 1) h; Some (t ++ ts)
  end.
Definition part_lines (h : option HttpHeaders) (st : St) : option (list Z) :=
  match h with
  | None => Some []
  | Some h => h ← with_length available h (Some st); header_lines (Z.to_nat (HashMap_count (h_map h))) 0 h
  end.

(** What the producer gives: parts, with the text of their headers and the
    contents of their streams, and then no stream. *)
Inductive produces : Q -> list (list Z * list Z) -> Prop :=
  | produces_end q h q' : producer q = (h, None, q') -> produces q []
  | produces_part q h st q' lines body ps :
      producer q = (h, Some st, q') -> part_lines h st = Some lines -> content st body -> produces q' ps -> produces q ((lines, body) :: ps).

(** The message: a boundary, a part's headers, an empty line and its body;
    after the last part the closing boundary. *)
Definition dashes (b : list Z) : list Z := [13; 10; 45; 45] ++ b.
Definition part_head (b lines : list Z) : list Z := (dashes b ++ [13; 10]) ++ lines ++ [13; 10].
Definition closing (b : list Z) : list Z := dashes b ++ [45; 45; 13; 10].
Definition message (b : list Z) (ps : list (list Z * list Z)) : list Z := concat ((fun '(lines, body) => part_head b lines ++ body) <$> ps) ++ closing b.

(** The boundary, from the first 15 random numbers. *)
Definition boundary : list Z := (fun i => getb pool (os_random i mod 62)) <$> seq 0 15.

Lemma boundary_nonzero : 0 ∉ boundary.
Proof.
  unfold boundary. intros Hin. apply list_elem_of_fmap in Hin as (i & E & _). pose proof (Z.mod_pos_bound (os_random i) 62 ltac:(lia)) as Hb.
  assert (forall k, 0 <= k < 62 -> negb (getb pool k =? 0) = true) as Hp by (apply forall_range; vm_compute; reflexivity).
  specialize (Hp _ Hb). rewrite <- E in Hp. done.
Qed.

(** ** Writing the text before a part *)

Lemma print_run m data t : md_ok m data -> md_pos m = 0 -> exists m', print has_room fill t m = Some m' /\ md_ok m' (data ++ t) /\ md_pos m' = 0.
Proof. intros Hm _. destruct (md_write_spec has_room fill m data t Hm memory) as (m' & E & Hm' & Hp). exists m'. unfold print. rewrite E. done. Qed.

Lemma print_headers_run h n : forall i m data t, md_ok m data -> md_pos m = 0 -> header_lines n i h = Some t ->
  exists m', print_headers has_room fill n i h m = Some m' /\ md_ok m' (data ++ t) /\ md_pos m' = 0.
Proof.
  induction n as [|n IH]; intros i m data t Hm Hp Ht; cbn in *; [injection Ht as <-; rewrite app_nil_r; by exists m|].
  destruct (line_at i h) as [x|]; [|done]. cbn in *. destruct (header_lines n (i + 1) h) as [ts|] eqn:Et; [|done]. cbn in Ht. injection Ht as <-.
  destruct (print_run m data x Hm Hp) as (m1 & -> & Hm1 & Hp1). cbn. destruct (IH (i + 1) m1 (data ++ x) ts Hm1 Hp1 Et) as (m2 & -> & Hm2 & Hp2).
  exists m2. by rewrite <- app_assoc in Hm2.
Qed.

Lemma content_start m data : md_ok m data -> md_pos m = 0 -> content m data.
Proof. intros Hm Hp. exists data. split; [done|]. by rewrite Hp. Qed.

(** ** Reading *)

Abbreviation part_stream := (MemoryDataStream + St)%type.
Abbreviation MultipartStream := (MultiStream part_stream (multipart Q St)).
Implicit Types s : MultipartStream.

Definition holds_bytes (c : option part_stream) (l : list Z) : Prop := match c with Some c => content c l | None => l = [] end.
Definition boundary_ok (m : multipart Q St) : Prop :=
  (mp_boundary m = replicate 16 0 /\ mp_draws m = 0%nat) \/ mp_boundary m = boundary ++ [0].

(** [c] is left of the current stream, [n] of the next one, and [ps] of the
    parts; [None] once the end was written. *)
Record reading s (c n : list Z) (ps : option (list (list Z * list Z))) : Prop := {
  r_cur : holds_bytes (ms_stream s) c;
  r_next : holds_bytes (ms_nextStream s) n;
  r_bound : boundary_ok (ms_more s);
  r_parts : match ps with Some ps => ms_finished s = false /\ produces (mp_producer (ms_more s)) ps | None => ms_finished s = true /\ ms_nextStream s = None end
}.
Definition owed (c n : list Z) (ps : option (list (list Z * list Z))) : list Z := c ++ n ++ match ps with Some ps => message boundary ps | None => [] end.
Definition work s (c n : list Z) (ps : option (list (list Z * list Z))) : nat :=
  length (owed c n ps) + match ms_nextStream s with Some _ => 1 | None => 0 end + match ps with Some ps => 2 * length ps + 1 | None => 0 end.

Lemma getBoundary_run s : boundary_ok (ms_more s) ->
  exists d, getBoundary os_random s =
    (boundary, set_more {| mp_producer := mp_producer (ms_more s); mp_headers := mp_headers (ms_more s); mp_stream := mp_stream (ms_more s);
                           mp_boundary := boundary ++ [0]; mp_draws := d |} s).
Proof.
  intros [[Eb Ed]|Eb]; unfold getBoundary; rewrite Eb.
  - change (getb (replicate 16 0) 0 =? 0) with true. cbv iota. rewrite Ed. by eexists.
  - assert ((getb (boundary ++ [0]) 0 =? 0) = false) as ->.
    { apply Z.eqb_neq. intros E. apply boundary_nonzero. rewrite <- E. unfold boundary. cbn. left. }
    rewrite until_nul_stop by apply boundary_nonzero. exists (mp_draws (ms_more s)). destruct s as [? ? ? []]. cbn in *. by subst.
Qed.

Abbreviation next_stream := (MultipartStream_getNextStream producer).
Abbreviation completed := (MultipartStream_onCompleted os_random has_room fill).
Abbreviation started := (MultipartStream_onNextStream available os_random has_room fill).

(** The closing boundary. *)
Lemma completed_run s : boundary_ok (ms_more s) -> exists m s', completed s = Some (true, s') /\
  ms_stream s' = Some (inl m) /\ content m (closing boundary) /\ ms_nextStream s' = ms_nextStream s /\ ms_finished s' = ms_finished s /\ boundary_ok (ms_more s').
Proof.
  intros Hb. destruct (getBoundary_run s Hb) as (d & E). unfold MultipartStream_onCompleted. rewrite E.
  destruct (print_run MemoryDataStream_new [] ([13; 10; 45; 45] ++ boundary ++ [45; 45; 13; 10]) md_new_ok eq_refl) as (m & -> & Hm & Hp).
  eexists m, _. split; [done|]. cbn [ms_stream ms_nextStream ms_finished ms_more set_streams set_more]. split_and!; try done.
  - unfold closing, dashes. rewrite <- app_assoc. by apply content_start.
  - by right.
Qed.

(** The boundary and the headers of a part. *)
Lemma started_run s st lines : boundary_ok (ms_more s) -> mp_stream (ms_more s) = Some st -> part_lines (mp_headers (ms_more s)) st = Some lines ->
  exists m s', started s = Some s' /\ ms_stream s' = Some (inl m) /\ content m (part_head boundary lines) /\ ms_nextStream s' = Some (inr st) /\
    ms_finished s' = ms_finished s /\ boundary_ok (ms_more s') /\ mp_producer (ms_more s') = mp_producer (ms_more s).
Proof.
  intros Hb Hst Hl. destruct (getBoundary_run s Hb) as (d & E). unfold MultipartStream_onNextStream. rewrite E. cbn [ms_more set_more mp_headers mp_stream mp_boundary].
  destruct (print_run MemoryDataStream_new [] ([13; 10; 45; 45] ++ boundary ++ [13; 10]) md_new_ok eq_refl) as (m1 & E1 & Hm1 & Hp1).
  rewrite E1. cbn [mbind option_bind]. rewrite Hst.
  assert (exists m2, match mp_headers (ms_more s) with
      | None => Some m1
      | Some h => h ← with_length available h (Some st); print_headers has_room fill (Z.to_nat (HashMap_count (h_map h))) 0 h m1
      end = Some m2 /\ md_ok m2 (([] ++ [13; 10; 45; 45] ++ boundary ++ [13; 10]) ++ lines) /\ md_pos m2 = 0) as (m2 & E2 & Hm2 & Hp2).
  { unfold part_lines in Hl. destruct (mp_headers (ms_more s)) as [h|]; [|injection Hl as <-; exists m1; by rewrite app_nil_r].
    destruct (with_length available h (Some st)) as [h'|]; [|done]. cbn [mbind option_bind] in *. by apply print_headers_run. }
  rewrite E2. cbn [mbind option_bind]. destruct (print_run m2 _ [13; 10] Hm2 Hp2) as (m3 & -> & Hm3 & Hp3).
  eexists m3, _. split; [done|]. cbn [ms_stream ms_nextStream ms_finished ms_more set_streams set_more mp_producer fmap option_fmap option_map]. split_and!; try done.
  - unfold part_head, dashes. apply content_start; [|done]. rewrite <- !app_assoc in Hm3 |- *. done.
  - by right.
Qed.

(** What one call puts in place: a stream whose bytes come first of what is
    owed; the work gets less when it has none. *)
Definition advances (w : nat) (l : list Z) (r : option (bool * MultipartStream)) : Prop :=
  exists s st c n ps, r = Some (true, s) /\ ms_stream s = Some st /\ reading s c n ps /\ owed c n ps = l /\
    (work s c n ps < w \/ work s c n ps = w /\ c ≠ [])%nat.

Lemma next_part_advances s n ps : ms_stream s = None -> ms_nextStream s = None -> reading s [] n (Some ps) ->
  advances (work s [] n (Some ps)) (owed [] n (Some ps)) (ask_next next_stream completed started s).
Proof.
  intros Es En [_ Rn Rb [Rf Rp]]. unfold ask_next, MultipartStream_getNextStream. rewrite Es, En in *. cbn in Rn. subst n. inversion Rp as [? h q' E|? h st q' lines body ps' E Hl Hb Hr]; subst; rewrite E; cbn zeta.
  - edestruct completed_run as (m & s' & -> & Es' & Hm & En' & Ef & Hb); [shelve|]. cbn in Ef, En'.
    exists s', (inl m), (closing boundary), [], None. split_and!; [done|done| |unfold owed, message; cbn [app fmap list_fmap concat]; by rewrite app_nil_r|].
    + constructor; [by rewrite Es'|by rewrite En'|done|done].
    + left. unfold work. rewrite En, En'. unfold owed, message. cbn [app fmap list_fmap concat length]. rewrite app_nil_r. lia.
  - edestruct started_run as (m & s' & -> & Es' & Hm & En' & Ef & Hb' & Eq); [shelve|done|exact Hl|].
    exists s', (inl m), (part_head boundary lines), body, (Some ps'). split_and!; [done|done| |unfold owed, message; cbn [app fmap list_fmap concat]; by rewrite <- !app_assoc|].
    + constructor; [by rewrite Es'|by rewrite En'|done|rewrite Ef, Eq; split; done].
    + left. unfold work. rewrite En, En'. unfold owed, message. cbn [app fmap list_fmap concat length]. rewrite !length_app. lia.
  Unshelve. all: cbn; exact Rb.
Qed.

Lemma next_stream_advances s n ps : reading s [] n ps -> ms_stream s = None -> ps ≠ None \/ ms_nextStream s ≠ None ->
  advances (work s [] n ps) (owed [] n ps) (ask_next next_stream completed started (take_next s)).
Proof.
  intros R Es Ho. unfold take_next. rewrite Es. destruct (ms_nextStream s) as [st|] eqn:En.
  - destruct R as [_ Rn Rb Rp]. rewrite En in Rn. exists (set_streams (Some st) None s), st, n, [], ps. split_and!; [done|done| |done|].
    + constructor; cbn; [done|done|done|]. destruct ps; [done|]. by rewrite En in Rp; destruct Rp.
    + left. unfold work. cbn [ms_nextStream set_streams]. rewrite En. unfold owed. cbn [app]. lia.
  - destruct ps as [ps|]; [by apply next_part_advances|by destruct Ho].
Qed.

Lemma read_advances s c n ps : reading s c n ps -> c ≠ [] \/ ps ≠ None ->
  exists s0, drop_finished s = Some s0 /\ advances (work s c n ps) (owed c n ps) (ask_next next_stream completed started (take_next s0)).
Proof.
  intros R Ho. pose proof (r_cur _ _ _ _ R) as Rc. unfold drop_finished. destruct (decide (c = [])) as [->|Hc].
  - assert (reading (set_streams None (ms_nextStream s) s) [] n ps) as R0 by (destruct R; constructor; done).
    assert (ps ≠ None) as Hp by (destruct Ho; done). destruct (ms_stream s) as [st|] eqn:Es.
    + rewrite (source_finished st [] Rc). cbn. eexists. split; [done|]. by apply (next_stream_advances _ _ _ R0); [|left].
    + eexists. split; [done|]. by apply next_stream_advances; [| |left].
  - destruct (ms_stream s) as [st|] eqn:Es; [|done]. rewrite (source_finished st c Rc). destruct c as [|x c]; [done|]. exists s. split; [done|].
    exists s, st, (x :: c), n, ps. unfold ask_next, take_next. rewrite Es, Es. split_and!; [done|done|done|done|by right].
Qed.

(** ** Reading to the end *)

Local Instance read_stream : IDataSourceStream MultipartStream := MultipartStream_stream producer available os_random has_room fill.

Lemma reading_finished s c n ps : reading s c n ps -> isFinished s = Some (match ps with Some _ => false | None => zlen c =? 0 end).
Proof.
  intros [Rc Rn Rb Rp]. cbn. unfold MultiStream_isFinished. destruct ps as [ps|]; destruct Rp as [-> Rp]; [done|].
  destruct (ms_stream s) as [st|]; [by apply source_finished|]. by rewrite Rc.
Qed.

Lemma read_and_seek s c n ps bufSize : 1 <= bufSize < 2 ^ 16 -> reading s c n ps -> c ≠ [] \/ ps ≠ None ->
  exists k d s1 s2 c2 n2 ps2 r, readMemoryBlock bufSize s = Some (k, d, s1) /\ seek k s1 = Some (r, s2) /\ reading s2 c2 n2 ps2 /\
    owed c n ps = take (Z.to_nat k) d ++ owed c2 n2 ps2 /\ (work s2 c2 n2 ps2 < work s c n ps)%nat.
Proof.
  intros Hb R Ho. destruct (read_advances s c n ps R Ho) as (s0 & E0 & s' & st & c' & n' & ps' & E & Es & R' & El & Hw).
  destruct R' as [Rc Rn Rb Rp]. rewrite Es in Rc. cbn [holds_bytes] in Rc.
  destruct (source_read st c' bufSize Rc) as (st1 & E1 & C1); [lia|]. set (k := Z.min bufSize (zlen c')) in *.
  destruct (source_seek st1 c' k C1) as (st2 & E2 & C2); [unfold k; pose proof (zlen_nonneg c'); lia|].
  eexists k, _, _, _, (drop (Z.to_nat k) c'), n', ps', _. cbn [readMemoryBlock read_stream MultipartStream_stream MultiStream_stream seek].
  unfold MultiStream_readMemoryBlock. rewrite E0, E, Es, E1. split; [done|]. unfold MultiStream_seek. cbn [ms_stream set_streams]. rewrite E2. split; [done|].
  assert (owed c' n' ps' = take (Z.to_nat k) c' ++ owed (drop (Z.to_nat k) c') n' ps') as Ec by (unfold owed; by rewrite (app_assoc (take _ _) (drop _ _)), take_drop).
  split_and!; [constructor; done|rewrite <- El, Ec, take_take; do 2 f_equal; unfold k; lia|].
  assert (length (owed c' n' ps') = Z.to_nat k + length (owed (drop (Z.to_nat k) c') n' ps'))%nat as Hl.
  { rewrite Ec at 1. rewrite length_app, length_take. unfold k, zlen. lia. }
  unfold work in *. cbn [ms_nextStream set_streams]. destruct Hw as [Hw|[Hw Hc]]; [lia|].
  assert (1 <= Z.to_nat k)%nat by (unfold k, zlen; destruct c'; [done|cbn; lia]). lia.
Qed.

Lemma multipart_drain bufSize fuel : 1 <= bufSize < 2 ^ 16 -> forall s c n ps, reading s c n ps -> (work s c n ps < fuel)%nat ->
  exists s', drain fuel bufSize s = Some (owed c n ps, s') /\ isFinished s' = Some true.
Proof.
  intros Hb. induction fuel as [|fuel IH]; intros s c n ps R Hf; [lia|]. cbn [drain]. pose proof (reading_finished _ _ _ _ R) as Ef.
  destruct (decide (c = [] /\ ps = None)) as [[-> ->]|Ho].
  - rewrite Ef. cbn. exists s. split; [|done]. destruct R as [_ Rn _ [_ Rp]]. rewrite Rp in Rn. by cbn in Rn; subst n.
  - assert (c ≠ [] \/ ps ≠ None) as Ho' by (destruct c; [right; naive_solver|by left]).
    assert (isFinished s = Some false) as -> by (rewrite Ef; destruct ps; [done|]; destruct c; [naive_solver|done]).
    destruct (read_and_seek s c n ps bufSize Hb R Ho') as (k & d & s1 & s2 & c2 & n2 & ps2 & r & -> & -> & R2 & El & Hw).
    destruct (IH s2 c2 n2 ps2 R2) as (s' & -> & Hs'); [lia|]. exists s'. by rewrite El.
Qed.
End Message.

(** A multipart stream, read by a client that takes blocks of any size
    below 64K, gives the multipart message of the parts its producer has: for
    every part a line with the boundary, the part's header lines (with the
    length of the body where the stream knows it and the headers do not have
    it), an empty line and the body, and the closing boundary after the last
    part; then the stream is finished.  The boundary is made once, of the
    first 15 random numbers.  It holds for every stream that keeps the laws of
    a source, while memory lasts; the reader comes to the end in one call per
    byte and three per part at most. *)
Theorem multipart_stream_correct {Q St : Type} `{Source St} (producer : Q -> option HttpHeaders * option St * Q) (available : St -> Z)
    (os_random : nat -> Z) (has_room : Z -> bool) (fill bufSize : Z) (fuel : nat) (q : Q) (ps : list (list Z * list Z)) :
  (forall n, has_room n = true) -> 1 <= bufSize < 2 ^ 16 -> produces producer available q ps ->
  (length (message (boundary os_random) ps) + 2 * length ps + 1 < fuel)%nat ->
  exists s, @drain _ (MultipartStream_stream producer available os_random has_room fill) fuel bufSize (MultipartStream_new q) =
      Some (message (boundary os_random) ps, s) /\
    MultiStream_isFinished s = Some true.
Proof.
  intros Hm Hb Hp Hf. refine (multipart_drain producer available os_random has_room fill Hm bufSize fuel Hb (MultipartStream_new q) [] [] (Some ps) _ _).
  - constructor; cbn; [done|done|by left|done].
  - unfold work, owed. cbn [app ms_nextStream MultipartStream_new]. lia.
Qed.

(** Two parts: one with empty headers, that get the length of the body, and
    one without headers. *)
Definition demo_body (d : list Z) : MemoryDataStream :=
  match MemoryDataStream_write (fun _ => true) 0 d MemoryDataStream_new with Some (_, m) => m | None => MemoryDataStream_new end.
Definition demo_producer (q : nat) : option HttpHeaders * option MemoryDataStream * nat :=
  match q with
  | O => (Some HttpHeaders_new, Some (demo_body (string_bytes "hi"%string)), 1%nat)
  | S O => (None, Some (demo_body []), 2%nat)
  | S (S _) => (None, None, q)
  end.
Definition demo_parts : list (list Z * list Z) := [(string_bytes "Content-Length: 2"%string ++ [13; 10], string_bytes "hi"%string); ([], [])].

Lemma multipart_stream_correct_witness :
  let b := boundary (fun i => Z.of_nat i) in
  b = string_bytes "0123456789ABCDE"%string /\
  exists s, @drain _ (MultipartStream_stream demo_producer MemoryDataStream_available (fun i => Z.of_nat i) (fun _ => true) 0) 200 7 (MultipartStream_new 0%nat) =
      Some (message b demo_parts, s) /\ MultiStream_isFinished s = Some true.
Proof.
  split; [reflexivity|]. apply (multipart_stream_correct demo_producer); [done|lia| |vm_compute; lia].
  eapply produces_part; [reflexivity|vm_compute; reflexivity| |eapply produces_part; [reflexivity|reflexivity| |eapply produces_end; reflexivity]].
  - exists (string_bytes "hi"%string). split; [constructor; vm_compute; repeat split; intros; discriminate|reflexivity].
  - exists []. split; [constructor; vm_compute; repeat split; intros; discriminate|reflexivity].
Defined.

(** A read after the end asks the producer once more, and the closing
    boundary comes again. *)
Example multipart_read_past_end :
  let S := MultipartStream_stream (fun q : unit => (None, None, q)) MemoryDataStream_available (fun i => Z.of_nat i) (fun _ => true) 0 in
  match @drain _ S 100 50 (MultipartStream_new tt) with
  | Some (d, s) => MultiStream_isFinished s = Some true /\ exists s', @readMemoryBlock _ S 50 s = Some (zlen d, d, s')
  | None => False
  end.
Proof. vm_compute. split; [done|]. eexists. reflexivity. Qed.
