(* ===== verification/Spiffs.v ===== *)
(** * The SPIFFS file system on the flash

    [Sming/Services/SpifFS/spiffs_sming.c]: where the file system lies, the
    three functions through which it reaches the flash, formatting and
    mounting.  The file system itself is a library; its functions are the
    class [SPIFFS]. *)

From S2P Require Import Prelude Flashmem.

Definition SPIFFS_OK : Z := 0.
Definition SPIFFS_ERR_INTERNAL : Z := -10050.
Definition LOG_PAGE_SIZE : Z := 256.
Definition UINT32_MAX : Z := 2 ^ 32 - 1.

(** [spiffs_config], with [hal] for the three function pointers being set. *)
Record spiffs_config := { phys_addr : Z; phys_size : Z; phys_erase_block : Z; log_block_size : Z; log_page_size : Z; hal : bool }.
Definition spiffs_config0 : spiffs_config :=
  {| phys_addr := 0; phys_size := 0; phys_erase_block := 0; log_block_size := 0; log_page_size := 0; hal := false |}.
Definition set_hal (cfg : spiffs_config) : spiffs_config :=
  {| phys_addr := phys_addr cfg; phys_size := phys_size cfg; phys_erase_block := phys_erase_block cfg; log_block_size := log_block_size cfg;
     log_page_size := log_page_size cfg; hal := true |}.

(** The flash and the handle of the library. *)
Record storage (F H : Type) := { flash : F; handle : H }.
Arguments flash {F H}. Arguments handle {F H}.
Definition set_flash {F H} (f : F) (s : storage F H) : storage F H := {| flash := f; handle := handle s |}.

(** A [uint32_t] on this little-endian target. *)
Definition dword (b : list Z) : Z := getb b 0 + 256 * (getb b 1 + 256 * (getb b 2 + 256 * getb b 3)).

Section Hal.
Context {F : Type} `{SpiFlash F}.
(** The address of the local buffer of [flashmem.c]. *)
Context (tmpdata_addr : Z).

(** [dst] and [src] are a pointer and the bytes at it. *)
Definition api_spiffs_read (addr size dst_addr : Z) (dst : list Z) : M F (Z * list Z) :=
  let! (_, dst) := flashmem_read tmpdata_addr dst_addr dst addr size in
  ret (SPIFFS_OK, dst).
Definition api_spiffs_write (addr size src_addr : Z) (src : list Z) : M F Z :=
  let! _ := flashmem_write tmpdata_addr src_addr src addr size in
  ret SPIFFS_OK.
Definition erase_body (sect_last sect_first : Z) : M F (Z + Z) :=
  if sect_first <=? sect_last then
    let! ok := flashmem_erase_sector sect_first in
    ret (if ok then inl (u32 (sect_first + 1)) else inr SPIFFS_ERR_INTERNAL)
  else ret (inr SPIFFS_OK).
Definition api_spiffs_erase (addr size : Z) : M F Z :=
  let sect_first := flashmem_get_sector_of_address addr in
  let sect_last := sect_first in
  loop 2 (erase_body sect_last) sect_first.

(** One sector of [spiffs_format_internal]; a division by zero is a fault. *)
Definition format_body (sect_last total : Z) (v : Z * Z * Z) : M F (Z * Z * Z + bool) :=
  let '(sect_first, cur, last) := v in
  if sect_first <=? sect_last then
    let! ok := flashmem_erase_sector sect_first in
    if ok then
      if total =? 0 then fault else
      let percent := Z.quot (s32 (cur * 100)) total in
      ret (inl (u32 (sect_first + 1), s32 (cur + 1), percent))
    else ret (inr false)
  else ret (inr true).
Definition spiffs_format_internal (cfg : spiffs_config) : M F bool :=
  if phys_addr cfg =? 0 then ret false else
  let sect_first := flashmem_get_sector_of_address (phys_addr cfg) in
  let sect_last := flashmem_get_sector_of_address (u32 (phys_addr cfg + phys_size cfg)) in
  let total := s32 (sect_last - sect_first) in
  loop (Z.to_nat (sect_last - sect_first) + 2) (format_body sect_last total) (sect_first, 0, -1).
End Hal.

(** [flash_code_end] is the linker symbol and [info] the begin of the flash,
    with the size of the chip. *)
Definition INTERNAL_FLASH_SIZE (info : list Z) : Z := u32 ((flashmem_get_size_sectors info - SYS_PARAM_SEC_COUNT) * INTERNAL_FLASH_SECTOR_SIZE).
Definition spiffs_get_storage_config (flash_code_end : Z) (info : list Z) : spiffs_config :=
  let addr := flashmem_get_first_free_block_address flash_code_end in
  if addr =? 0 then spiffs_config0 else
  let addr := Z.land addr 0xFFFFF000 in
  {| phys_addr := addr; phys_size := u32 (INTERNAL_FLASH_SIZE info - addr); phys_erase_block := INTERNAL_FLASH_SECTOR_SIZE;
     log_block_size := INTERNAL_FLASH_SECTOR_SIZE * 2; log_page_size := LOG_PAGE_SIZE; hal := false |}.

(** The functions of the library that the code calls.  They run on the whole
    storage, since they call back. *)
Class SPIFFS (F H : Type) := {
  SPIFFS_mount : spiffs_config -> M (storage F H) Z;
  SPIFFS_open : list Z -> M (storage F H) Z;
  SPIFFS_write : Z -> list Z -> M (storage F H) Z;
  SPIFFS_fremove : Z -> M (storage F H) Z;
  SPIFFS_close : Z -> M (storage F H) unit;
  SPIFFS_unmount : M (storage F H) unit
}.

Section Mount.
Context {F H : Type} `{SpiFlash F} `{SPIFFS F H}.
(** The addresses of [tmpdata] and of the local [dat], what [dat] holds at
    first, the linker symbol and the begin of the flash. *)
Context (tmpdata_addr dat_addr : Z) (dat0 : list Z) (flash_code_end : Z) (info : list Z).

Definition on_flash {A} (m : M F A) : M (storage F H) A := zoom flash set_flash m.

Definition first_file : list Z := string_bytes "initialize_fs_header.dat"%string.
(** The file made and removed once on a new file system. *)
Definition write_first : M (storage F H) unit :=
  let! fd := SPIFFS_open first_file in
  SPIFFS_write fd [49] ;;;
  SPIFFS_fremove fd ;;;
  SPIFFS_close fd.
Definition mount_and_init (cfg : spiffs_config) (writeFirst : bool) : M (storage F H) unit :=
  SPIFFS_mount cfg ;;;
  when writeFirst write_first.

Definition spiffs_mount_internal (cfg : spiffs_config) : M (storage F H) unit :=
  if phys_addr cfg =? 0 then ret tt else
  let cfg := set_hal cfg in
  let! (_, dat) := on_flash (flashmem_read tmpdata_addr dat_addr dat0 (phys_addr cfg) 4) in
  let writeFirst := dword dat =? UINT32_MAX in
  when writeFirst (on_flash (spiffs_format_internal cfg) ;;; ret tt) ;;;
  mount_and_init cfg writeFirst.

Definition spiffs_mount : M (storage F H) unit := spiffs_mount_internal (spiffs_get_storage_config flash_code_end info).
Definition manual_config (addr size : Z) : spiffs_config :=
  {| phys_addr := addr; phys_size := size; phys_erase_block := INTERNAL_FLASH_SECTOR_SIZE; log_block_size := INTERNAL_FLASH_SECTOR_SIZE * 2;
     log_page_size := LOG_PAGE_SIZE; hal := false |}.
Definition spiffs_mount_manual (addr size : Z) : M (storage F H) unit := spiffs_mount_internal (manual_config addr size).
Definition spiffs_unmount : M (storage F H) unit := SPIFFS_unmount.
Definition spiffs_format : M (storage F H) bool :=
  spiffs_unmount ;;;
  let cfg := spiffs_get_storage_config flash_code_end info in
  on_flash (spiffs_format_internal cfg) ;;;
  spiffs_mount ;;;
  ret true.
Definition spiffs_format_manual (addr size : Z) : M (storage F H) bool :=
  spiffs_unmount ;;;
  let cfg := {| phys_addr := addr; phys_size := size; phys_erase_block := 0; log_block_size := 0; log_page_size := 0; hal := false |} in
  on_flash (spiffs_format_internal cfg) ;;;
  spiffs_mount_manual addr size ;;;
  ret true.
End Mount.

(** ** What formatting does *)

Section Theory.
Context {F : Type} `{L : SpiFlashLaws F}.
Implicit Types (f : F).

(** The sectors of a configuration.  The last one is the sector that holds the
    first address behind the file system. *)
Definition sect_first (cfg : spiffs_config) : Z := phys_addr cfg / SPI_FLASH_SEC_SIZE.
Definition sect_last (cfg : spiffs_config) : Z := (phys_addr cfg + phys_size cfg) / SPI_FLASH_SEC_SIZE.

(** [f'] is [f] with the sectors from [a] to before [b] erased. *)
Definition erased f (a b : Z) f' : Prop :=
  (forall x, flash_byte f' x = if (a <=? x / SPI_FLASH_SEC_SIZE) && (x / SPI_FLASH_SEC_SIZE <? b) then 255 else flash_byte f x) /\
  (forall x m, accepts f x m -> accepts f' x m).

Lemma wp_erase_sector f s (Q : bool -> F -> Prop) : 0 <= s -> accepts f (s * SPI_FLASH_SEC_SIZE) SPI_FLASH_SEC_SIZE ->
  (forall f', erased f s (s + 1) f' -> Q true f') -> wp (flashmem_erase_sector s) Q f.
Proof.
  intros Hs Ha HQ. unfold flashmem_erase_sector. wp_step. eapply wp_mono; [by apply spi_flash_erase_law|].
  intros r f' (-> & HE & HA). apply wp_ret, HQ. split; [|done]. intros x. rewrite HE.
  destruct (Z.eqb_spec (x / SPI_FLASH_SEC_SIZE) s), (Z.leb_spec s (x / SPI_FLASH_SEC_SIZE)), (Z.ltb_spec (x / SPI_FLASH_SEC_SIZE) (s + 1)); cbn; lia || done.
Qed.

Lemma erased_none f a : erased f a a f.
Proof. split; [|done]. intros x. destruct (Z.leb_spec a (x / SPI_FLASH_SEC_SIZE)), (Z.ltb_spec (x / SPI_FLASH_SEC_SIZE) a); cbn; lia || done. Qed.
Lemma erased_next f a b f1 f2 : a <= b -> erased f a b f1 -> erased f1 b (b + 1) f2 -> erased f a (b + 1) f2.
Proof.
  intros Hab [E1 A1] [E2 A2]. split; [|auto]. intros x. rewrite E2, E1.
  destruct (Z.leb_spec a (x / SPI_FLASH_SEC_SIZE)), (Z.ltb_spec (x / SPI_FLASH_SEC_SIZE) b), (Z.leb_spec b (x / SPI_FLASH_SEC_SIZE)),
    (Z.ltb_spec (x / SPI_FLASH_SEC_SIZE) (b + 1)); cbn; lia || done.
Qed.

(** The configuration lies on the chip, with the sector behind it, and is not
    smaller than a sector. *)
Definition on_chip (cfg : spiffs_config) f : Prop :=
  0 < phys_addr cfg /\ SPI_FLASH_SEC_SIZE <= phys_size cfg /\ phys_addr cfg + phys_size cfg < 2 ^ 31 /\
  accepts f (sect_first cfg * SPI_FLASH_SEC_SIZE) ((sect_last cfg + 1 - sect_first cfg) * SPI_FLASH_SEC_SIZE).

Lemma wp_format f cfg (Q : bool -> F -> Prop) : on_chip cfg f ->
  (forall f', erased f (sect_first cfg) (sect_last cfg + 1) f' -> Q true f') -> wp (spiffs_format_internal cfg) Q f.
Proof.
  intros (Ha & Hs & Hw & Hacc) HQ. unfold SPI_FLASH_SEC_SIZE in Hs. unfold spiffs_format_internal. rewrite (proj2 (Z.eqb_neq _ _)) by lia.
  unfold flashmem_get_sector_of_address, flashmem_find_sector, INTERNAL_FLASH_SECTOR_SIZE. rewrite (u32_small (phys_addr cfg + phys_size cfg)) by (unfold is_u32; lia).
  fold (sect_first cfg) (sect_last cfg).
  assert (0 <= sect_first cfg < sect_last cfg /\ sect_last cfg < 2 ^ 19) as [Hf Hl].
  { unfold sect_first, sect_last, SPI_FLASH_SEC_SIZE in *. Z.div_mod_to_equations. lia. }
  assert (s32 (sect_last cfg - sect_first cfg) = sect_last cfg - sect_first cfg) as -> by (unfold s32; rewrite Z.mod_small; lia).
  apply wp_loop with (Inv := fun '(s, cur, _) f' => sect_first cfg <= s <= sect_last cfg + 1 /\ erased f (sect_first cfg) s f')
    (measure := fun '(s, _, _) _ => Z.to_nat (sect_last cfg + 1 - s)).
  - intros [[s cur] last] f' [Hs' HE]. unfold format_body. destruct (Z.leb_spec s (sect_last cfg)) as [Hle|Hgt].
    + wp_step. apply wp_erase_sector; [lia| |].
      * apply HE. eapply accepts_sub; [exact Hacc| | |]; unfold SPI_FLASH_SEC_SIZE; lia.
      * intros f1 HE1. rewrite (proj2 (Z.eqb_neq _ _)) by lia. apply wp_ret. rewrite u32_small by (unfold is_u32; lia).
        split; [|lia]. split; [lia|]. eapply erased_next; [|exact HE|exact HE1]. lia.
    + apply wp_ret, HQ. by replace (sect_last cfg + 1) with s by lia.
  - split; [lia|]. apply erased_none.
  - lia.
Qed.

(** *** The functions the library calls *)
Context (tmpdata_addr : Z) (Htmp : word_aligned tmpdata_addr).

Lemma api_write_run f addr src_addr src : 0 <= addr -> addr + zlen src + 8 < 2 ^ 32 -> accepts f (hull_start addr) (hull_size addr (zlen src)) ->
  exists f', api_spiffs_write tmpdata_addr addr (zlen src) src_addr src f = Some (SPIFFS_OK, f') /\ programmed f addr src f'.
Proof.
  intros Ha Hw Hacc. pose proof (zlen_nonneg src).
  assert (wp (api_spiffs_write tmpdata_addr addr (zlen src) src_addr src) (fun r f' => r = SPIFFS_OK /\ programmed f addr src f') f) as HW.
  { unfold api_spiffs_write. wp_step. apply wp_flashmem_write; auto with lia. intros f' HP. apply wp_ret.
    rewrite take_ge in HP by (unfold zlen; lia). done. }
  apply wp_run in HW as (r & f' & E & -> & HP). eauto.
Qed.

Lemma api_read_run f addr dst_addr dst : 0 <= addr -> addr + zlen dst + 8 < 2 ^ 32 -> accepts f (hull_start addr) (hull_size addr (zlen dst)) ->
  exists f', api_spiffs_read tmpdata_addr addr (zlen dst) dst_addr dst f = Some ((SPIFFS_OK, flash_range f addr (zlen dst)), f') /\
    forall x, flash_byte f' x = flash_byte f x.
Proof.
  intros Ha Hw Hacc. pose proof (zlen_nonneg dst).
  assert (wp (api_spiffs_read tmpdata_addr addr (zlen dst) dst_addr dst)
    (fun r f' => r = (SPIFFS_OK, flash_range f addr (zlen dst)) /\ forall x, flash_byte f' x = flash_byte f x) f) as HR.
  { unfold api_spiffs_read. wp_step. apply wp_flashmem_read; auto with lia. intros f' HP. apply wp_ret. split; [|done]. f_equal.
    unfold splice. rewrite take_0, app_nil_l, length_flash_range. rewrite drop_ge by (unfold zlen; lia). by rewrite app_nil_r. }
  apply wp_run in HR as (r & f' & E & -> & HP). eauto.
Qed.

Lemma api_erase_run f addr size : 0 <= addr < 2 ^ 32 - SPI_FLASH_SEC_SIZE -> let s := addr / SPI_FLASH_SEC_SIZE in
  accepts f (s * SPI_FLASH_SEC_SIZE) SPI_FLASH_SEC_SIZE ->
  exists f', api_spiffs_erase addr size f = Some (SPIFFS_OK, f') /\ erased f s (s + 1) f'.
Proof.
  intros Ha s Hacc. assert (0 <= s < 2 ^ 20 - 1) as Hs by (unfold s, SPI_FLASH_SEC_SIZE in *; Z.div_mod_to_equations; lia).
  assert (wp (api_spiffs_erase addr size) (fun r f' => r = SPIFFS_OK /\ erased f s (s + 1) f') f) as HW.
  { unfold api_spiffs_erase, flashmem_get_sector_of_address, flashmem_find_sector, INTERNAL_FLASH_SECTOR_SIZE. fold s.
    apply wp_loop with (Inv := fun x f' => s <= x <= s + 1 /\ erased f s x f') (measure := fun x _ => Z.to_nat (s + 1 - x)); [|split; [lia|apply erased_none]|lia].
    intros x f' [Hx HE]. unfold erase_body. destruct (Z.leb_spec x s) as [Hle|Hgt].
    - assert (x = s) as -> by lia. wp_step. apply wp_erase_sector; [lia|by apply HE|]. intros f1 HE1. apply wp_ret. rewrite u32_small by (unfold is_u32; lia).
      split; [|lia]. split; [lia|]. eapply erased_next; [|exact HE|exact HE1]. lia.
    - apply wp_ret. split; [done|]. by replace (s + 1) with x by lia. }
  apply wp_run in HW as (r & f' & E & -> & HP). eauto.
Qed.

(** Bytes of an erased range that are programmed are the data. *)
Lemma programmed_range f a b addr d f1 f2 : erased f a b f1 -> programmed f1 addr d f2 -> Forall is_byte d ->
  a * SPI_FLASH_SEC_SIZE <= addr -> addr + zlen d <= b * SPI_FLASH_SEC_SIZE -> flash_range f2 addr (zlen d) = d.
Proof.
  intros [E1 _] [P _] Hd Ha Hb. apply (list_eq_same_length _ _ (length d)); [done|rewrite length_flash_range; unfold zlen; lia|].
  intros i x y Hi Hx Hy. apply lookup_getb in Hx. rewrite flash_range_getb in Hx by (unfold zlen; lia). subst x. rewrite P.
  rewrite (proj2 (Z.leb_le _ _)), (proj2 (Z.ltb_lt _ _)) by (unfold zlen; lia). cbn [andb]. rewrite E1.
  assert (a <= (addr + Z.of_nat i) / SPI_FLASH_SEC_SIZE < b) as Hr.
  { unfold SPI_FLASH_SEC_SIZE, zlen in *. split; [apply Z.div_le_lower_bound|apply Z.div_lt_upper_bound]; lia. }
  rewrite (proj2 (Z.leb_le _ _)), (proj2 (Z.ltb_lt _ _)) by lia. cbn [andb]. replace (addr + Z.of_nat i - addr) with (Z.of_nat i) by lia.
  rewrite (lookup_getb _ _ _ Hy). apply program_erased. by eapply Forall_lookup_1.
Qed.
End Theory.

(** Formatting gives a file system room to write in: on a chip that serves
    the sectors of the configuration and the one behind it,
    [spiffs_format_internal] succeeds, erases exactly those sectors, and data
    that [api_spiffs_write] then stores anywhere in the area, at any
    alignment, is what [api_spiffs_read] gives back. *)
Theorem spiffs_format_write_read {F : Type} `{SpiFlashLaws F} (tmpdata_addr : Z) (f : F) (cfg : spiffs_config)
    (addr src_addr dst_addr : Z) (src dst : list Z) :
  word_aligned tmpdata_addr -> on_chip cfg f -> Forall is_byte src -> zlen dst = zlen src ->
  phys_addr cfg <= addr -> addr + zlen src <= phys_addr cfg + phys_size cfg ->
  exists f1 f2 f3, spiffs_format_internal cfg f = Some (true, f1) /\ erased f (sect_first cfg) (sect_last cfg + 1) f1 /\
    api_spiffs_write tmpdata_addr addr (zlen src) src_addr src f1 = Some (SPIFFS_OK, f2) /\
    api_spiffs_read tmpdata_addr addr (zlen dst) dst_addr dst f2 = Some ((SPIFFS_OK, src), f3).
Proof.
  intros Ht Hc Hb Hd Ha Hw. pose proof (zlen_nonneg src).
  assert (wp (spiffs_format_internal cfg) (fun r f' => r = true /\ erased f (sect_first cfg) (sect_last cfg + 1) f') f) as HF by (apply wp_format; auto).
  apply wp_run in HF as (r & f1 & E1 & -> & HE). destruct Hc as (Hc1 & Hc2 & Hc3 & Hacc).
  assert (sect_first cfg * SPI_FLASH_SEC_SIZE <= phys_addr cfg /\ phys_addr cfg + phys_size cfg < (sect_last cfg + 1) * SPI_FLASH_SEC_SIZE) as [Hlo Hhi].
  { unfold sect_first, sect_last, SPI_FLASH_SEC_SIZE. Z.div_mod_to_equations. lia. }
  assert (accepts f1 (hull_start addr) (hull_size addr (zlen src))) as Hacc1.
  { apply HE. eapply accepts_sub; [exact Hacc|..]; unfold hull_size, hull_start, SPI_FLASH_SEC_SIZE in *; Z.div_mod_to_equations; lia. }
  destruct (api_write_run tmpdata_addr Ht f1 addr src_addr src) as (f2 & E2 & HP); [lia..|done|].
  destruct (api_read_run tmpdata_addr Ht f2 addr dst_addr dst) as (f3 & E3 & _); [lia..|rewrite Hd; by apply HP|].
  exists f1, f2, f3. split_and!; [done..|]. rewrite E3. rewrite Hd. do 3 f_equal. eapply programmed_range; [exact HE|exact HP|done|lia|lia].
Qed.

Definition small_cells : list Z := replicate 12288 7.
Definition small_chip : chip := {| cells := small_cells; bad := fun _ => false |}.
Definition small_cfg : spiffs_config := manual_config 4096 4096.

Lemma small_on_chip : on_chip small_cfg small_chip.
Proof. repeat split; vm_compute; try reflexivity; intros; discriminate. Qed.

Lemma spiffs_format_write_read_witness :
  exists f1 f2 f3, spiffs_format_internal small_cfg small_chip = Some (true, f1) /\ erased small_chip 1 3 f1 /\
    api_spiffs_write 0 5003 3 1 [7; 8; 9] f1 = Some (SPIFFS_OK, f2) /\ api_spiffs_read 0 5003 3 2 [0; 0; 0] f2 = Some ((SPIFFS_OK, [7; 8; 9]), f3).
Proof.
  apply (spiffs_format_write_read 0 small_chip small_cfg 5003 1 2 [7; 8; 9] [0; 0; 0]); [done|exact small_on_chip| |done|done|done].
  repeat (constructor; [split; lia|]). constructor.
Defined.

(** ** Mounting *)

Section MountTheory.
Context {F H : Type} `{SpiFlashLaws F} `{SPIFFS F H}.
Implicit Types (s : storage F H).

Lemma dword_blank a b c d : is_byte a -> is_byte b -> is_byte c -> is_byte d ->
  (dword [a; b; c; d] =? UINT32_MAX) = (a =? 255) && (b =? 255) && (c =? 255) && (d =? 255).
Proof.
  unfold is_byte, dword, UINT32_MAX. intros. change (getb [a; b; c; d] 0) with a. change (getb [a; b; c; d] 1) with b.
  change (getb [a; b; c; d] 2) with c. change (getb [a; b; c; d] 3) with d.
  destruct (Z.eqb_spec a 255), (Z.eqb_spec b 255), (Z.eqb_spec c 255), (Z.eqb_spec d 255); cbn [andb];
    match goal with |- (?x =? ?y) = true => apply Z.eqb_eq | |- _ = false => apply Z.eqb_neq end; lia.
Qed.

(** The read of a word at a word, which keeps what the chip serves. *)
Lemma wp_read_word tmpdata_addr dat_addr dat0 (f : F) addr (Q : Z * list Z -> F -> Prop) :
  word_aligned dat_addr -> word_aligned addr -> zlen dat0 = 4 -> accepts f addr 4 ->
  (forall f', (forall x, flash_byte f' x = flash_byte f x) -> (forall x m, accepts f x m -> accepts f' x m) -> Q (4, flash_range f addr 4) f') ->
  wp (flashmem_read tmpdata_addr dat_addr dat0 addr 4) Q f.
Proof.
  intros Hd Ha Hl Hacc HQ. unfold flashmem_read. rewrite !(proj2 (IS_ALIGNED_spec _)) by done. cbn [andb].
  apply wp_read_internal; try done. intros f' HE HA. replace (splice dat0 0 (flash_range f addr 4)) with (flash_range f addr 4); [by apply HQ|].
  unfold splice. rewrite take_0, app_nil_l, length_flash_range, drop_ge by (unfold zlen in Hl; lia). by rewrite app_nil_r.
Qed.
End MountTheory.

(** The first word of the area is blank. *)
Definition is_blank {F} `{SpiFlashLaws F} (f : F) (a : Z) : bool := forallb (fun x => flash_byte f x =? 255) (seqZ a 4).

(** Mounting formats a blank flash and no other: when the first word of the
    area is erased the sectors of the configuration, and the one behind it, are
    erased before the library is called, and the first file is made and
    removed; otherwise the library gets the flash as it was.  It holds for
    every behaviour of the library. *)
Theorem spiffs_mount_formats_blank {F H : Type} `{SpiFlashLaws F} `{SPIFFS F H} (tmpdata_addr dat_addr : Z) (dat0 : list Z)
    (cfg : spiffs_config) (s : storage F H) :
  word_aligned dat_addr -> zlen dat0 = 4 -> on_chip cfg (flash s) -> word_aligned (phys_addr cfg) ->
  (forall x, is_byte (flash_byte (flash s) x)) ->
  let blank := is_blank (flash s) (phys_addr cfg) in
  exists f', spiffs_mount_internal tmpdata_addr dat_addr dat0 cfg s = mount_and_init (set_hal cfg) blank (set_flash f' s) /\
    (if blank then erased (flash s) (sect_first cfg) (sect_last cfg + 1) f' else forall x, flash_byte f' x = flash_byte (flash s) x).
Proof.
  intros Hd Hl Hc Ha Hb blank. set (f := flash s) in *. pose proof Hc as (Hc1 & Hc2 & Hc3 & Hacc).
  assert (wp (flashmem_read tmpdata_addr dat_addr dat0 (phys_addr cfg) 4)
    (fun r f1 => r = (4, flash_range f (phys_addr cfg) 4) /\ erased f 0 0 f1) f) as HR.
  { apply wp_read_word; try done.
    - eapply accepts_sub; [exact Hacc|..]; unfold sect_first, sect_last, SPI_FLASH_SEC_SIZE in *; Z.div_mod_to_equations; lia.
    - intros f' HE HA. split; [done|]. split; [|done]. intros x. rewrite HE.
      destruct (Z.leb_spec 0 (x / SPI_FLASH_SEC_SIZE)), (Z.ltb_spec (x / SPI_FLASH_SEC_SIZE) 0); cbn; lia || done. }
  apply wp_run in HR as (r & f1 & E1 & -> & HE1). unfold spiffs_mount_internal. rewrite (proj2 (Z.eqb_neq _ _)) by lia.
  unfold bind at 1, on_flash at 1, zoom at 1. cbn [phys_addr set_hal]. fold f. rewrite E1.
  assert ((dword (flash_range f (phys_addr cfg) 4) =? UINT32_MAX) = blank) as ->.
  { subst blank. unfold is_blank, flash_range. change (seqZ (phys_addr cfg) 4) with
      [Z.of_nat 0 + phys_addr cfg; Z.of_nat 1 + phys_addr cfg; Z.of_nat 2 + phys_addr cfg; Z.of_nat 3 + phys_addr cfg].
    cbn [fmap list_fmap forallb]. rewrite dword_blank by apply Hb. by rewrite !andb_assoc, andb_true_r. }
  assert (forall x, flash_byte f1 x = flash_byte f x) as Hx1.
  { intros x. rewrite (proj1 HE1). destruct (Z.leb_spec 0 (x / SPI_FLASH_SEC_SIZE)), (Z.ltb_spec (x / SPI_FLASH_SEC_SIZE) 0); cbn; lia || done. }
  destruct blank; [|exists f1; split; done].
  assert (on_chip (set_hal cfg) f1) as Hc' by (split_and!; try done; by apply HE1).
  assert (wp (spiffs_format_internal (set_hal cfg)) (fun r f2 => r = true /\ erased f1 (sect_first cfg) (sect_last cfg + 1) f2) f1) as HF by (apply wp_format; auto).
  apply wp_run in HF as (r & f2 & E2 & -> & HE2). exists f2. split.
  - unfold when, bind at 1 2, on_flash, zoom. cbn [flash set_flash]. rewrite E2. done.
  - destruct HE2 as [HB HA]. split; [intros x; rewrite HB, Hx1; done|]. intros x m Hxm. by apply HA, HE1.
Qed.

(** A library that notes the calls. *)
#[export] Instance noting_SPIFFS : SPIFFS chip (list (list Z)) := {|
  SPIFFS_mount cfg := fun s => Some (SPIFFS_OK, {| flash := flash s; handle := handle s ++ [[phys_addr cfg; phys_size cfg]] |});
  SPIFFS_open name := fun s => Some (3, {| flash := flash s; handle := handle s ++ [name] |});
  SPIFFS_write fd d := fun s => Some (zlen d, {| flash := flash s; handle := handle s ++ [fd :: d] |});
  SPIFFS_fremove fd := fun s => Some (SPIFFS_OK, {| flash := flash s; handle := handle s ++ [[fd]] |});
  SPIFFS_close fd := fun s => Some (tt, {| flash := flash s; handle := handle s ++ [[fd]] |});
  SPIFFS_unmount := fun s => Some (tt, {| flash := flash s; handle := [] |})
|}.

Lemma small_bytes x : is_byte (flash_byte small_chip x).
Proof.
  cbn. unfold chip_byte, getb. destruct (Z.ltb_spec x 0); [done|]. cbn [cells small_chip]. unfold small_cells.
  destruct (decide (Z.to_nat x < 12288)%nat) as [Hx|Hx].
  - rewrite (nth_lookup_Some _ _ _ 7); [done|]. by apply lookup_replicate_2.
  - rewrite nth_overflow by (rewrite length_replicate; lia). done.
Qed.

Lemma spiffs_mount_formats_blank_witness :
  let s := {| flash := small_chip; handle := [] |} in
  exists f', spiffs_mount_internal 0 4 [1; 2; 3; 4] small_cfg s = mount_and_init (set_hal small_cfg) false (set_flash f' s) /\
    forall x, flash_byte f' x = flash_byte small_chip x.
Proof.
  intros s. pose proof (spiffs_mount_formats_blank 0 4 [1; 2; 3; 4] small_cfg s eq_refl eq_refl small_on_chip eq_refl small_bytes) as Hw.
  replace (is_blank (flash s) (phys_addr small_cfg)) with false in Hw by (vm_compute; reflexivity). exact Hw.
Defined.

(** Formatting erases the sector behind the file system. *)
Example spiffs_format_erases_next :
  match spiffs_format_internal small_cfg small_chip with
  | Some (ok, c) => ok = true /\ phys_addr small_cfg + phys_size small_cfg = 8192 /\ getb (cells small_chip) 8192 = 7 /\ getb (cells c) 8192 = 255
  | None => False
  end.
Proof. vm_compute. repeat split. Qed.

(** In the default configuration that is the first sector of the four that
    belong to the system, on a chip of 512 KB with code up to 0x40210000. *)
Example spiffs_format_default_last :
  let info := [0; 0; 0; 0] in
  let cfg := spiffs_get_storage_config 0x40210000 info in
  phys_addr cfg = 0x10000 /\ sect_last cfg = flashmem_get_size_sectors info - SYS_PARAM_SEC_COUNT.
Proof. vm_compute. split; reflexivity. Qed.

(** An area within a sector makes the progress report divide by zero. *)
Example spiffs_format_divides_by_zero : spiffs_format_internal (manual_config 4096 1024) small_chip = None.
Proof. vm_compute. reflexivity. Qed.

(** The library is told that a write succeeded which the chip refused. *)
Example spiffs_write_reports_ok :
  exists c, api_spiffs_write 0 0 4 0 [1; 2; 3; 4] broken_chip = Some (SPIFFS_OK, c) /\ cells c = cells broken_chip.
Proof. vm_compute. eexists. split; reflexivity. Qed.
